(* ===== verification/_CoqProject ===== *)
-Q . S2P
Prelude.v
Json.v
JsonSpecs.v
Contracts.v
JobDomain.v
TaskDomain.v
Plan.v
EventHub.v
Store.v
JobRepo.v
TaskRepo.v
Commands.v
InternalCommands.v
Scheduler.v
Executor.v
Effects.v
ResultSpecs.v
Outbox.v
Lifecycle.v
Refinement.v
Steps.v
Fixtures.v
Safety.v
UserSpecs.v
WorkerSpecs.v
ExecutorSpecs.v
SchedulerSpecs.v
Progress.v
Witnesses.v
JsString.v
Path.v
Sql.v
WorkspaceLease.v
TaskAttempts.v
TaskAttemptsSpecs.v
SavedPlan.v
Gate.v
GateSpecs.v
RepairTasks.v
RepairSpecs.v
Verdicts.v
TurnErrors.v
Regex.v
Blocker.v
TaskRecovery.v
RecoverySpecs.v
WorkloadSlots.v
JobRows.v
WorkloadSpecs.v
QueueCoordinator.v
FrozenIds.v
TurnQueue.v
ProgressStore.v
JsonParse.v
StoredErrors.v
RecoveryState.v
ContinueFailed.v
Act.v
Registries.v
Host.v
RunLifecycle.v
JobReferences.v
Deletion.v
DeletionSpecs.v
Controls.v
ControlSpecs.v
ExecutionLoop.v
ExecutionSpecs.v
RecoveryBound.v
Reconcile.v
PlanOutline.v
PlanOutlineSpecs.v
PlannerSession.v
PlanStore.v
JobEventHub.v
PlanTree.v
Wizard.v
LegacyWitnesses.v
HostWitnesses.v
PlanWitnesses.v
