(* ===== verification/Prelude.v ===== *)
(** * codetask: jobs, their execution and the conversation queue

    A model of the server side of codetask that decides what happens to jobs and
    to conversation turns.  The repository has two control planes for jobs: the
    one under [server/legacy-control-plane], which is the production authority
    (see [docs/adr/0001]), and the newer one under [server/application],
    [server/domain] and [server/infra/sqlite/control-plane], which is meant to
    replace it.  Both are modelled nearly completely, and with them the planning
    of jobs and the stream of events to the clients.  Paths below are relative to
    the repository's [src/] directory.

    ** The production control plane

    A job is a row of [thread_jobs]; the executor of a job holds a workload slot
    with a run, an execution lease on the job row and a lease on its workspace
    directory.  The queue coordinator starts the next pending job when there is
    room, and resumes a job that a restart interrupted.  The plan of a job is a
    tree of milestones, slices and tasks; the gate chooses the next task whose
    dependencies are satisfied; each task is executed under an attempt that
    fences the call of the provider, so that it is not repeated without the
    consent of the user.  When a task is blocked or fails, its report is
    classified and the task is queued again, gets a preparation or repair task,
    or fails; verdicts on slices and milestones may inject repair tasks into the
    plan.  Users pause, resume, continue, cancel, restart and delete jobs while
    they run; the run of a job is stopped before its slot is given away, and a
    deletion goes through phases and is resumed after a crash.  After a crash the process
    that starts next takes slots, jobs and planning sessions back.  Conversation
    turns have a queue of their own with limits per thread and per user.

    - [JsString], [Regex], [Path], [Sql]: what the code uses of JavaScript's
      strings and regular expressions, of [node:path], and of tables as lists of
      rows ([update_where], [count_where]).
    - [WorkspaceLease]: [workspace-lease-store.ts] and
      [server/sandbox/paths.ts]. The file system is the class [FileSystem] with
      the law [FileSystemOk]: what [realpathSync] returns is canonical.
    - [TaskAttempts] and [TaskAttemptsSpecs]: [task-attempts.ts].
    - [SavedPlan], [Gate], [GateSpecs]: [shared/contracts/plan.ts] and
      [execution-gate.ts].
    - [RepairTasks], [RepairSpecs], [Verdicts]: [repair-tasks.ts],
      [recovery-limits.ts], [verification/types.ts].
    - [TurnErrors], [JsonParse], [StoredErrors]: [shared/turn-errors] and
      [agent-runtime/retry.ts], [JSON.parse], and the text form of an error.
    - [Blocker], [TaskRecovery], [RecoverySpecs]: [task-blocker],
      [verification-recovery.ts], [verification-attempts.ts],
      [execution-recovery.ts] and the parts of [executor.ts] that apply a
      recovery decision to the progress of a job.
    - [WorkloadSlots], [JobRows], [WorkloadSpecs]: [workload-slot-store.ts] and
      the leases, fences and queue of [repository.ts].
    - [QueueCoordinator]: [queue-coordinator.ts], which works on all of the
      stores above.
    - [FrozenIds], [TurnQueue]: [shared/frozen-ids.ts] and
      [conversation/turn-queue.ts].
    - [ProgressStore]: [retention/counters.ts] and the stored part of
      [db/job-progress.ts].
    - [RecoveryState], [ContinueFailed]: [shared/job-recovery-state.ts] and
      [continue-failed-job.ts].
    - [Act], [Host]: the state of the whole process and the code that changes
      it. [host] holds the stores above, the in-memory registries ([Registries]:
      [context/job-execution-runtime.ts], [context/runtime-registry.ts]), the
      runtime handles of [runtime-supervisor.ts], the rows of threads and
      projects, and the answers of the environment: every awaited call takes the
      next answer, [Fine], [Fails] (the call throws) or [Dies] (the process
      ends); without answers left, calls succeed.
    - [RunLifecycle]: [run-lifecycle.ts], [finalize-execution.ts]; the queue
      coordinator as an instance of the class [QueueAdvance], which states what
      the rest of the process relies on when the queue advances.
    - [JobReferences], [Deletion], [DeletionSpecs]: [shared/job-references.ts]
      and [deletion-coordinator.ts].
    - [Controls], [ControlSpecs]: [controls.ts] without its bridge to the newer
      control plane, and [job-queue.ts].
    - [ExecutionLoop], [ExecutionSpecs], [RecoveryBound]: [executor.ts], with
      [verifier.ts], [evidence/preflight.ts], [execution-infra-errors.ts] and
      [execution-startup.ts]. Agents and verifiers are the record [agents], what
      other code does at an [await] is the function [others]. The host records
      what the loop was told when it had to stop and every task it queues again.
    - [Reconcile]: [reconcile.ts].
    - [PlanOutline], [PlanOutlineSpecs]: [planner/mcp/normalize.ts],
      [plan-ability-validation.ts] and the flattening of [save-plan.ts]: what
      the planner may register as the outline of a plan, and the plan it
      becomes.
    - [PlannerSession]: [planner/mcp/handler.ts] and [session.ts],
      [design-session/planner.ts] and the fenced writes of
      [design-session/service.ts]. A session is a step relation: tool calls, the
      finalizer, which runs beside them, and what other code does to the row.
    - [PlanStore]: [db/job-plan.ts], the tables a plan is stored in.
    - [JobEventHub]: [server/events/job-event-hub.ts], [context/event-bus.ts]
      and [routes/events.ts]. Connections are objects named by their position in
      a list, so that listeners and streams can hold one that was replaced; a
      call that sets subscriptions is a task that waits for one snapshot at a
      time.
    - [Wizard]: [server/wizard], [conversation/draft/status.ts] and the writes
      of [threads/service.ts]: the phase a thread is in, and what its phase
      allows.
    - [PlanTree]: [shared/plan-tree.ts] and its caller in
      [renderer/src/lib/jobProgress.ts], the tree a user sees of a job.
    - [LegacyWitnesses], [HostWitnesses], [PlanWitnesses]: the theorems on
      concrete states ([JobEventHub], [PlanTree] and [Wizard] have their own at
      their end).

    What the theorems show: however often a provider is called under one key, the
    attempts that call it are at most one more than the authorized replays, and an
    uncertain outcome is never repeated silently ([TaskAttemptsSpecs]); runs,
    slots and jobs agree, up to the status of a run that was released, and a
    released run never writes ([WorkloadSpecs]); no two owners hold overlapping
    directories ([WorkspaceLease]); an advance of the queue schedules only a job
    that holds all of these ([QueueCoordinator]); the gate returns a task that is
    ready, the search it uses is the reachability of dependencies, and plans whose
    dependencies point backwards do not deadlock ([GateSpecs]); injected tasks
    keep the plan aligned if the slices they repair exist, and normalized verdicts
    are well typed and name places of their milestone ([RepairSpecs], [Verdicts]);
    the recovery of a task follows the texts of its report ([RecoverySpecs]), and
    one run of the execution loop queues a task again at most as often as its
    counters allow ([RecoveryBound]); error codes survive their transport as text,
    the retry policy is what it says ([TurnErrors]) and stored errors are read
    back as they were ([StoredErrors]); the turn queue keeps its limits, is fair
    and idempotent ([TurnQueue]); counters are loaded as they were saved
    ([ProgressStore]).

    Of the process as a whole: the slot of a run is given away only after the wait
    for its runtime and the close of it returned without an error
    ([RunLifecycle]); the deletion of a job that leaves its thread in place
    survives every fault and crash, and one that takes its thread along need not
    ([DeletionSpecs]); a control that the status does not allow changes nothing,
    and a cancelled job has no execution lease, loop or active run, while its
    workspace lease waits for the end of its loop ([ControlSpecs]); continuing a
    failed job keeps its work ([ContinueFailed]); at most one loop runs
    ([Registries]). The executor completes a job only when every slice and
    milestone was accepted by its verifier, whatever fails and whatever other code
    does ([ExecutionSpecs]); a loop that ends leaves its job completed, failed or
    paused, or its job was cancelled, or the loop itself was told to stop
    ([ExecutionSpecs]); and the pass over the jobs after a crash takes back
    exactly the jobs that were left behind ([Reconcile]).

    Of planning: normalization of an outline is idempotent and establishes its
    shape, the dependency check accepts exactly the outlines whose references name
    earlier places, and the workflow of an accepted outline never deadlocks
    ([PlanOutlineSpecs]); a session never replaces its outline, has a context for
    every task when it finalizes, finalizes at most once, and writes only the row
    of its own run ([PlannerSession]); a stored plan is read back up to the
    columns the tables lack, with the same workflow, and the empty plan as no plan
    ([PlanStore]). Of the stream of events: a client gets events in order and none
    twice, a reconnect replays exactly the later events that the old connection
    numbered or asks to resynchronize, and what is emitted between the connections
    is in neither; buffers are bounded, and overflow spares final events
    ([JobEventHub]). Of the tree of a job: it shows the tasks of the plan and no
    others, as long as the plan is aligned, which it is from planning on; a
    milestone is shown as completed exactly when the gate has all its slices
    accepted; and a paused job shows no work ([PlanTree]). Of the wizard: a thread
    that was advanced is in the phase it was advanced to if its draft and plan fit
    that phase, a roll back reaches its target, and a provider that is switched
    back to finds its session again ([Wizard]).

    Theorems that record surprising behaviour: [second_prep_deadlocks],
    [repair_of_missing_slice_is_lost], [upper_case_target_is_refused],
    [capacity_delay_is_lost], [running_progress_forgets],
    [invalid_attachment_blocks_thread], [orphaned_deletion_fails_every_start],
    [preparations_have_no_bound_example], [inexact_slice_ref_blocks_forever],
    [wizard_failure_fails_saved_plan], [replaced_stream_orphans_connection],
    [late_subscription_leaks], [event_between_connections_is_not_replayed].

    ** The newer control plane

    A job is a row of [control_jobs] with a state, a revision and the id of its
    active run.  Users send commands (pause, continue, cancel, restart) that
    carry the revision they saw and an idempotency key; the scheduler claims
    queued jobs and creates a run with a fence token and a resource slot; the
    worker of the run executes the tasks of the current generation one by one
    and reports through commands that carry the fence; the process around it
    reports starts and exits of runtimes and verification verdicts.  Every
    command is one SQLite transaction: it reads through the repositories,
    checks its guards, writes the job with a compare-and-set on the revision,
    and appends an event to the outbox, from where the dispatcher hands it to
    the event hub, which keeps a bounded queue per connection.  After a
    restart the reconciler settles the jobs that were in flight.

    - [Prelude]: results, the transaction monad [txM] (a state-passing function
      that may throw; [run_transaction] rolls back on an error, as
      better-sqlite3 does), inversion of monadic code ([tx_inv]), relations kept
      by a computation ([Respects]).
    - [Json], [Contracts]: [server/application/utils/canonical-json.ts],
      [shared/contracts/control-plane/*.ts], [server/domain/jobs/job-errors.ts].
      SHA-256 is the parameter [Sha256] of the definitions that hash; nothing
      is assumed of it.
    - [JobDomain], [TaskDomain], [Plan]: [server/domain/jobs], [tasks], [plans].
      TypeBox's [Value.Check] is the class [TypeBox] with the law that it agrees
      with [schema_valid], the meaning of the schema constructors the code uses.
    - [Store]: the tables and constraints of
      [server/infra/sqlite/control-plane/schema.ts] and the migrations 027 and
      028 as the record [db].
    - [JobRepo], [TaskRepo]: every writing operation, and the reads the commands
      use, of the repositories of [server/infra/sqlite/control-plane], with the
      UNIQUE and foreign-key failures of the inserts as errors;
      [verification-gate.ts] and [verification-guard.ts].
    - [Commands], [InternalCommands]: [job-command-service.ts] with
      [stored-command-receipt.ts], [internal-execution-command-service.ts] of
      [server/application]; each command is a transaction [*_tx] and the
      command around it, whose calls on the runtime controller are returned as
      a list of effects.
    - [Scheduler], [Executor], [Outbox], [EventHub]: [scheduler.ts] and
      [startup-reconciler*.ts], [executor-loop.ts] with [executor-adapter.ts]
      and [task-execution-registry.ts], [outbox-dispatcher.ts], [event-hub.ts].
    - [Effects]: what each repository write leaves alone and how it may change
      the rest.
    - [Lifecycle]: the abstract contract.  [life] is the state machine of one
      job, one revision per step; [commit] is what one transaction may do.
      [Refinement] shows that each transaction is a [commit].
    - [Steps]: all writing operations as one type [op], [exec], [reachable], the
      invariant [inv], and the invariant sweep of [invariant-sweep.ts].
    - [Safety], [UserSpecs], [WorkerSpecs], [ExecutorSpecs],
      [SchedulerSpecs], [Progress], [ResultSpecs], [JsonSpecs]: the theorems.
    - [Fixtures], [Witnesses]: a concrete database and the theorems applied to it.

    What the theorems show:

    - Over arbitrary sequences of operations ([Safety]): every
      operation refines the life cycle; the invariant sweep finds nothing; the
      events of a job announce its revisions without gaps; a revision
      identifies a job row; succeeded jobs and written records are final; slots
      never exceed the capacity and a job holds at most one.
    - User commands ([UserSpecs]): replay under an idempotency key, the first of
      two conflicting writers wins, refusals have no effect, offered actions are
      accepted, a restart clones the tasks.
    - Worker commands ([WorkerSpecs]): stale workers and workers of another
      generation change no job and announce nothing; checkpoints and verdicts
      are idempotent and final.
    - Loops: the executor loop, the outbox flush and the hub's dispatch end
      ([ExecutorSpecs], [Outbox], [EventHub]); an undisturbed run whose tasks
      are completed makes its job succeed ([Progress]); the flush delivers every
      event exactly once, in order; hub queues stay within their limits.
    - Claims and reconciliation ([SchedulerSpecs]): what a claim creates and
      what it depends on; reconciliation completes and leaves no job pausing.
    - Pure parts ([ResultSpecs], [Plan], [JsonSpecs]): exactly which plans and
      results are accepted, the canonical encoding up to field order,
      normalization without loss, the content hash as a polynomial modulo
      2^32, content addressing, milestone readiness.
    - Three theorems record surprising behaviour: [completed_run_keeps_slot],
      [crashed_run_is_left_running], [pause_key_is_not_bound_to_job].

    ** Modelling choices

    A table of the newer control plane is a finite map and the outbox a list in
    key order; a table of the production control plane is a list of rows in
    insertion order, because its queries depend on that order. Ids, fence tokens
    and the clock are arguments of each operation; where a theorem needs fresh ids
    it says so. Revisions, generations and times are integers without a bound:
    SQLite and JavaScript represent them exactly below 2^53. JSON numbers are
    integers, and a character of a string stands for one code unit; strings are
    compared and measured as sequences of them, which is what the code does for
    text in the ASCII range. Code between two awaits is one step; what other code
    does in between is an argument (the executor loops) or a sequence of
    operations (the stores, the turn queue); in the controls, the deletion, the
    reconciliation and the wizard nothing else runs in between, but every awaited
    call of the first three may fail or be the last; the marks of a run are
    checked and written as two such calls.

    Loops that are not structural take fuel and return [None] without it: the
    executor loop needs one unit more than the generation has open tasks, the
    outbox flush one more than there are undispatched events, the hub's dispatch
    one more than there are queued events, the dependency search of the gate two
    more than there are tasks, and the theorems show that this is enough.  The
    parser of regular expressions and percent-decoding have the length of their
    text as fuel; all patterns of the code are closed and parse.  [JSON.parse] has
    twice the length of the text and two more, which is enough for every text
    that [JSON.stringify] writes; the cascade of a deletion has depth 3, for
    projects, threads and jobs; the retries of a verifier have [resilient_fuel],
    shown to be enough by [verifier_retries_end].  The loop of the production
    executor takes any fuel and tells [OutOfFuel] from [Ended]: it need not end,
    since preparation tasks can ask for preparation tasks
    ([preparations_have_no_bound_example]).

    ** Not modelled

    Of the production control plane: [draft-plan.ts] and the rest of
    [design-session/service.ts] (drafts of a launch and the launch itself, which
    translate between payloads of the user interface), the link between a plan
    that is ready and the wizard, of which the planner only learns whether it
    could be advanced, the texts of handoffs and prompts, the JSON-RPC framing and
    the capability token of the MCP endpoints, the bridge of [controls.ts] to the
    newer control plane, sleeping and timers, the cleanup of runtime directories,
    and the queue of planning sessions, which the process only calls. Of the
    stream of events: how snapshots are built, the wake-up of a waiting stream,
    and the check that a topic belongs to its user. Of the newer control plane:
    the read models ([job-query-service.ts]), which change nothing, timers and
    process supervision ([control-plane-runtime.ts], [runtime-supervisor.ts], the
    coordinators, [lease-heartbeat.ts], [cutover-state.ts]), which start what is
    modelled here and decide nothing on jobs, and logging. Other HTTP routes, the
    chat of a conversation beside its turn queue, drivers of providers and
    sandboxes (process and file I/O), the renderer beside the tree of a job,
    authentication, settings, migrations and the retention of old rows are outside
    of the core that decides what happens to jobs and turns. *)
From stdpp Require Export base tactics gmap strings list list_numbers sorting numbers.

(** ** Results and the transaction monad *)

(** A computation either returns a value or raises an error, as a synchronous
    TypeScript function either returns or throws. *)
Inductive result (E A : Type) : Type :=
| Ok (a : A)
| Err (e : E).
Arguments Ok {E A} _.
Arguments Err {E A} _.

(** [txM S E A] is a callback run inside [unitOfWork.transaction]: it reads and
    writes the store [S] and may throw. *)
Definition txM (S E A : Type) : Type := S → result E (A * S).

Definition tx_ret {S E A} (a : A) : txM S E A := λ s, Ok (a, s).

Definition tx_throw {S E A} (e : E) : txM S E A := λ _, Err e.

Definition tx_bind {S E A B} (m : txM S E A) (k : A → txM S E B) : txM S E B :=
  λ s, match m s with
       | Ok (a, s') => k a s'
       | Err e => Err e
       end.

Definition tx_gets {S E A} (f : S → A) : txM S E A := λ s, Ok (f s, s).

Definition tx_modify {S E} (f : S → S) : txM S E unit := λ s, Ok (tt, f s).

Definition tx_lift {S E A} (r : result E A) : txM S E A :=
  λ s, match r with Ok a => Ok (a, s) | Err e => Err e end.

(** better-sqlite3's [transaction]: a thrown error rolls the store back. *)
Definition run_transaction {S E A} (m : txM S E A) (s : S) : result E A * S :=
  match m s with
  | Ok (a, s') => (Ok a, s')
  | Err e => (Err e, s)
  end.

Declare Scope tx_scope.
Delimit Scope tx_scope with tx.
Notation "'let*' x := m 'in' k" := (tx_bind m (λ x, k))
  (at level 10, x name, m at level 100, k at level 200,
   format "'[v' 'let*'  x  :=  m  'in' '/' k ']'") : tx_scope.
Notation "'do*' m 'in' k" := (tx_bind m (λ _, k))
  (at level 10, m at level 100, k at level 200,
   format "'[v' 'do*'  m  'in' '/' k ']'") : tx_scope.

Section tx_lemmas.
Context {S E : Type}.

Lemma tx_bind_ok {A B} (m : txM S E A) (k : A → txM S E B) s b s2 :
  tx_bind m k s = Ok (b, s2) ↔ ∃ a s1, m s = Ok (a, s1) ∧ k a s1 = Ok (b, s2).
Proof.
  unfold tx_bind. destruct (m s) as [[a s1]|e]; naive_solver.
Qed.

Lemma tx_bind_err {A B} (m : txM S E A) (k : A → txM S E B) s e :
  tx_bind m k s = Err e ↔ m s = Err e ∨ ∃ a s1, m s = Ok (a, s1) ∧ k a s1 = Err e.
Proof.
  unfold tx_bind. destruct (m s) as [[a s1]|e']; naive_solver.
Qed.

Lemma tx_bind_run {A B} (m : txM S E A) (k : A → txM S E B) s a s1 :
  m s = Ok (a, s1) → tx_bind m k s = k a s1.
Proof. unfold tx_bind. by intros ->. Qed.

Lemma tx_bind_gets {A B} (f : S → A) (k : A → txM S E B) s :
  tx_bind (tx_gets f) k s = k (f s) s.
Proof. done. Qed.

Lemma tx_bind_ret {A B} (a : A) (k : A → txM S E B) s :
  tx_bind (tx_ret a) k s = k a s.
Proof. done. Qed.

Lemma tx_bind_modify {B} (f : S → S) (k : unit → txM S E B) s :
  tx_bind (tx_modify f) k s = k tt (f s).
Proof. done. Qed.

Lemma tx_bind_assoc {A B C} (m : txM S E A) (k : A → txM S E B) (h : B → txM S E C) s :
  tx_bind (tx_bind m k) h s = tx_bind m (λ a, tx_bind (k a) h) s.
Proof. unfold tx_bind. by destruct (m s) as [[a s1]|e]. Qed.

Lemma run_transaction_ok {A} (m : txM S E A) s a s' :
  run_transaction m s = (Ok a, s') ↔ m s = Ok (a, s').
Proof. unfold run_transaction. destruct (m s) as [[??]|]; naive_solver. Qed.

Lemma run_transaction_err {A} (m : txM S E A) s e s' :
  run_transaction m s = (Err e, s') ↔ m s = Err e ∧ s' = s.
Proof. unfold run_transaction. destruct (m s) as [[??]|]; naive_solver. Qed.

End tx_lemmas.

(** [tx_inv] unwinds an execution equation [m s = Ok (a, s')] of a callback
    into the executions of its steps and the branch conditions taken. *)
Ltac ok_inj H :=
  let H' := fresh in
  pose proof H as H'; clear H; injection H' as; subst; try discriminate.
Ltac tx_inv_step :=
  match goal with
  | H : Ok _ = Ok _ |- _ => ok_inj H
  | H : Err _ = Ok _ |- _ => discriminate H
  | H : tx_ret _ _ = Ok _ |- _ => unfold tx_ret in H; ok_inj H
  | H : tx_throw _ _ = Ok _ |- _ => discriminate H
  | H : tx_gets _ _ = Ok _ |- _ => unfold tx_gets in H; ok_inj H
  | H : tx_lift ?r _ = Ok _ |- _ => unfold tx_lift in H; destruct r eqn:?
  | H : tx_modify _ _ = Ok _ |- _ => unfold tx_modify in H; ok_inj H
  | H : tx_bind (tx_gets _) _ _ = Ok _ |- _ => rewrite tx_bind_gets in H; cbv beta in H
  | H : tx_bind (tx_ret _) _ _ = Ok _ |- _ => rewrite tx_bind_ret in H; cbv beta in H
  | H : tx_bind (tx_modify _) _ _ = Ok _ |- _ => rewrite tx_bind_modify in H; cbv beta in H
  | H : tx_bind _ _ _ = Ok _ |- _ =>
      let H1 := fresh "Htx" in
      apply tx_bind_ok in H; destruct H as (? & ? & H1 & H); cbv beta in H
  | H : (if ?b then _ else _) _ = Ok _ |- _ => destruct b eqn:?
  | H : (match ?o with _ => _ end) _ = Ok _ |- _ => destruct o eqn:?
  end.
Ltac tx_inv := repeat tx_inv_step.

Create HintDb cp.

(** ** Callbacks that respect a preorder on the store *)

(** [Respects R m]: whenever the callback [m] returns, the stores before and
    after are related by [R]. *)
Class Respects {S E A : Type} (R : relation S) (m : txM S E A) : Prop :=
  respects : ∀ s a s', m s = Ok (a, s') → R s s'.

Section respects.
Context {S E : Type} (R : relation S) `{!PreOrder R}.

#[global] Instance respects_ret {A} (a : A) : Respects R (tx_ret a : txM S E A).
Proof. intros s a' s' ?. tx_inv. reflexivity. Qed.

#[global] Instance respects_throw {A} (e : E) : Respects R (tx_throw e : txM S E A).
Proof. intros s a' s' ?. tx_inv. Qed.

#[global] Instance respects_gets {A} (f : S → A) : Respects R (tx_gets f : txM S E A).
Proof. intros s a' s' ?. tx_inv. reflexivity. Qed.

#[global] Instance respects_lift {A} (r : result E A) : Respects R (tx_lift r : txM S E A).
Proof. intros s a' s' H. unfold tx_lift in H. destruct r; simplify_eq. reflexivity. Qed.

#[global] Instance respects_bind {A B} (m : txM S E A) (k : A → txM S E B) :
  Respects R m → (∀ a, Respects R (k a)) → Respects R (tx_bind m k).
Proof.
  intros Hm Hk s b s' (a & s1 & H1 & H2)%tx_bind_ok.
  etrans; [eapply Hm | eapply Hk]; done.
Qed.
End respects.

(** Proves [Respects R m] for a callback built from callbacks known to [cp]. *)
Ltac solve_respects :=
  repeat first
    [ progress intros
    | apply respects_ret; apply _
    | apply respects_throw
    | apply respects_gets; apply _
    | apply respects_lift; apply _
    | solve [eauto with cp nocore]
    | apply respects_bind; [apply _ | |]
    | case_match ].

(** ** Lists without duplicates *)

Lemma NoDup_map_filter {A B} (f : A → B) (p : A → bool) l :
  NoDup (map f l) → NoDup (map f (List.filter p l)).
Proof.
  induction l as [|x l IH]; simpl; [done|]. rewrite list.NoDup_cons. intros [Hx Hl].
  destruct (p x); simpl; [|by apply IH]. constructor; [|by apply IH].
  rewrite !list_elem_of_In, !in_map_iff in *. intros (y & Hy & [? _]%filter_In). eauto.
Qed.

Lemma NoDup_snoc {A} (l : list A) a : NoDup l → a ∉ l → NoDup (l ++ [a]).
Proof.
  intros Hl Ha. apply list.NoDup_app. split_and!; [done| |apply list.NoDup_singleton].
  intros y Hy ->%list_elem_of_singleton. done.
Qed.

(** ** Growing tables *)

(** Every row of [m] is still in [m'], possibly changed along [R]. *)
Definition tab_le {K V} `{Countable K} (R : relation V) (m m' : gmap K V) : Prop :=
  ∀ k v, m !! k = Some v → ∃ v', m' !! k = Some v' ∧ R v v'.

Section tab_le.
Context {K V : Type} `{Countable K} (R : relation V) `{!PreOrder R}.

#[global] Instance tab_le_preorder : PreOrder (tab_le (K:=K) R).
Proof.
  split.
  - intros m k v Hk. exists v. split; [done|reflexivity].
  - intros m1 m2 m3 H12 H23 k v Hk.
    destruct (H12 k v Hk) as (v2 & Hk2 & E2). destruct (H23 k v2 Hk2) as (v3 & Hk3 & E3).
    exists v3. split; [done|]. by etrans.
Qed.

Lemma tab_le_insert_fresh (m : gmap K V) k v : m !! k = None → tab_le R m (<[k:=v]> m).
Proof.
  intros Hk j w Hj. exists w. rewrite lookup_insert_ne by congruence. split; [done|reflexivity].
Qed.

Lemma tab_le_insert (m : gmap K V) k v v' :
  m !! k = Some v → R v v' → tab_le R m (<[k:=v']> m).
Proof.
  intros Hk Hf j w Hj. destruct (decide (k = j)) as [->|].
  - exists v'. rewrite lookup_insert_eq. split; [done|]. congruence.
  - exists w. rewrite lookup_insert_ne by done. split; [done|reflexivity].
Qed.

Lemma tab_le_alter (m : gmap K V) k g :
  (∀ v, R v (g v)) → tab_le R m (alter g k m).
Proof.
  intros Hg j w Hj. destruct (decide (k = j)) as [->|].
  - exists (g w). rewrite lookup_alter_eq, Hj. done.
  - exists w. rewrite lookup_alter_ne by done. split; [done|reflexivity].
Qed.

Lemma tab_le_fmap (m : gmap K V) g :
  (∀ v, R v (g v)) → tab_le R m (g <$> m).
Proof. intros Hg j w Hj. exists (g w). rewrite lookup_fmap, Hj. done. Qed.
End tab_le.
