(* ===== verification/Json.v ===== *)
(** * JSON values and canonical encoding

    Models [src/server/application/utils/canonical-json.ts].  A [JsonValue] is
    an inductive value; an object keeps its fields in insertion order.  Numbers
    are the integers the control plane puts into payloads (revisions, counts,
    timestamps); a character of a [string] stands for one UTF-16 code unit. *)
From S2P Require Import Prelude.
From stdpp Require Import pretty.
From Stdlib Require Import Ascii.

Inductive json : Type :=
| JNull
| JBool (b : bool)
| JNum (n : Z)
| JStr (s : string)
| JArr (items : list json)
| JObj (fields : list (string * json)).

(** [JSON.stringify] of one character of a string. *)
Definition hexDigit (n : N) : ascii :=
  if decide (n < 10)%N then ascii_of_N (48 + n) else ascii_of_N (87 + n).

Definition escapeChar (c : ascii) : string :=
  let n := N_of_ascii c in
  if decide (n = 34)%N then String "\" (String c EmptyString)
  else if decide (n = 92)%N then "\\"
  else if decide (n = 8)%N then "\b"
  else if decide (n = 9)%N then "\t"
  else if decide (n = 10)%N then "\n"
  else if decide (n = 12)%N then "\f"
  else if decide (n = 13)%N then "\r"
  else if decide (n < 32)%N then
    "\u00" +:+ String (hexDigit (n / 16)) (String (hexDigit (n mod 16)) EmptyString)
  else String c EmptyString.

Fixpoint escapeString (s : string) : string :=
  match s with
  | EmptyString => EmptyString
  | String c s' => escapeChar c +:+ escapeString s'
  end.

Definition dquote : string := String (ascii_of_N 34) EmptyString.

(** [quoteJsonString] *)
Definition quoteJsonString (value : string) : string :=
  dquote +:+ escapeString value +:+ dquote.

Fixpoint join (sep : string) (l : list string) : string :=
  match l with
  | [] => ""
  | [x] => x
  | x :: l' => x +:+ sep +:+ join sep l'
  end.

(** The order of [Array.prototype.sort] on strings: code unit by code unit. *)
Definition key_le {A} (a b : string * A) : Prop := String.leb a.1 b.1 = true.

#[export] Instance key_le_dec {A} : RelDecision (@key_le A).
Proof. intros a b. unfold key_le. apply _. Defined.

Definition sort_fields {A} (l : list (string * A)) : list (string * A) := merge_sort key_le l.

(** [canonicalJson]: the children are encoded first and the encoded entries are
    then put in key order, which gives the same text as encoding the children
    in key order. *)
Fixpoint canonicalJson (value : json) : string :=
  match value with
  | JNull => "null"
  | JStr s => quoteJsonString s
  | JBool b => if b then "true" else "false"
  | JNum n => pretty n
  | JArr items => "[" +:+ join "," (map canonicalJson items) +:+ "]"
  | JObj fields =>
      let entries := map (λ kv, (kv.1, canonicalJson kv.2)) fields in
      "{" +:+ join "," (map (λ kv, quoteJsonString kv.1 +:+ ":" +:+ kv.2) (sort_fields entries))
          +:+ "}"
  end.

(** [JSON.stringify]: the fields in insertion order. *)
Fixpoint stringify (value : json) : string :=
  match value with
  | JNull => "null"
  | JStr s => quoteJsonString s
  | JBool b => if b then "true" else "false"
  | JNum n => pretty n
  | JArr items => "[" +:+ join "," (map stringify items) +:+ "]"
  | JObj fields =>
      "{" +:+ join "," (map (λ kv, quoteJsonString kv.1 +:+ ":" +:+ stringify kv.2) fields)
          +:+ "}"
  end.

(** Property access on a parsed document: [None] is JavaScript's [undefined]. *)
Definition json_get (key : string) (value : json) : option json :=
  match value with
  | JObj fields => snd <$> List.find (λ kv, bool_decide (kv.1 = key)) fields
  | _ => None
  end.

Definition json_of_option (o : option string) : json :=
  match o with Some s => JStr s | None => JNull end.

(** [createHash('sha256')...digest('hex')] is Node's crypto; the control plane
    uses it as a function of the text. *)
Class Sha256 := sha256 : string → string.

(** [hashCanonicalCommand]: [None] stands for a [null] or [undefined] payload. *)
Definition hashCanonicalCommand `{Sha256} (commandType : string) (payload : option json) : string :=
  sha256 (match payload with
          | None | Some JNull => commandType
          | Some v => commandType +:+ ":" +:+ canonicalJson v
          end).

Example canonicalJson_ex :
  canonicalJson (JObj [("b", JArr [JNum 1; JNum (-20)]); ("a", JStr "x\y")]) =
  "{" +:+ dquote +:+ "a" +:+ dquote +:+ ":" +:+ dquote +:+ "x\\y" +:+ dquote +:+ ","
      +:+ dquote +:+ "b" +:+ dquote +:+ ":[1,-20]}".
Proof. reflexivity. Qed.
