(* ===== verification/JsonSpecs.v ===== *)
(** * The canonical encoding determines the value

    [canonicalJson] (the text behind request hashes, result hashes and verdict
    hashes) is [JSON.stringify] of the value with the fields of every object in
    key order, and [JSON.stringify] is injective: two values have the same
    canonical text exactly when they are equal up to the order of fields. *)
From S2P Require Import Prelude Json.
From stdpp Require Import pretty.
From Stdlib Require Import Ascii.
Local Arguments String.append : simpl nomatch.

(** ** Strings *)

Lemma append_assoc (a b c : string) : (a +:+ b) +:+ c = a +:+ b +:+ c.
Proof. induction a as [|x a IH]; simpl; [done|by rewrite IH]. Qed.

Definition unhex (c : ascii) : N :=
  let n := N_of_ascii c in if decide (n < 58)%N then (n - 48)%N else (n - 87)%N.

(** Reads one character of a JSON string literal; [None] at the closing quote. *)
Definition decode (s : string) : option (ascii * string) :=
  match s with
  | EmptyString => None
  | String c rest =>
      if decide (N_of_ascii c = 34%N) then None
      else if decide (c = "\"%char) then
        match rest with
        | String "b" r => Some (ascii_of_N 8, r)
        | String "t" r => Some (ascii_of_N 9, r)
        | String "n" r => Some (ascii_of_N 10, r)
        | String "f" r => Some (ascii_of_N 12, r)
        | String "r" r => Some (ascii_of_N 13, r)
        | String "u" (String _ (String _ (String h (String l r)))) =>
            Some (ascii_of_N (16 * unhex h + unhex l), r)
        | String e r => Some (e, r)
        | EmptyString => None
        end
      else Some (c, rest)
  end.

Lemma decode_escape c s : decode (escapeChar c +:+ s) = Some (c, s).
Proof. destruct c as [[] [] [] [] [] [] [] []]; reflexivity. Qed.

Lemma escapeString_inj s1 s2 r1 r2 :
  escapeString s1 +:+ dquote +:+ r1 = escapeString s2 +:+ dquote +:+ r2 → s1 = s2 ∧ r1 = r2.
Proof.
  revert s2. induction s1 as [|c1 s1 IH]; intros [|c2 s2] Heq; simpl in *.
  - split; [done|]. by injection Heq.
  - apply (f_equal decode) in Heq. rewrite append_assoc, decode_escape in Heq. done.
  - apply (f_equal decode) in Heq. rewrite append_assoc, decode_escape in Heq. done.
  - rewrite !append_assoc in Heq. apply (f_equal decode) in Heq.
    rewrite !decode_escape in Heq. injection Heq as <- Heq. by apply IH in Heq as [<- <-].
Qed.

Lemma quote_inj s1 s2 r1 r2 :
  quoteJsonString s1 +:+ r1 = quoteJsonString s2 +:+ r2 → s1 = s2 ∧ r1 = r2.
Proof.
  unfold quoteJsonString. rewrite !append_assoc. intros Heq.
  assert (escapeString s1 +:+ dquote +:+ r1 = escapeString s2 +:+ dquote +:+ r2) as Ht
    by (injection Heq as Heq; done).
  by apply escapeString_inj.
Qed.

(** ** Numbers *)

Definition is_digit (c : ascii) : bool :=
  bool_decide (48 ≤ N_of_ascii c)%N && bool_decide (N_of_ascii c ≤ 57)%N.

Fixpoint digits (s : string) : bool :=
  match s with EmptyString => true | String c s' => is_digit c && digits s' end.

Lemma pretty_N_go_digits x s : digits s = true → digits (pretty_N_go x s) = true.
Proof.
  revert s. induction (N.lt_wf_0 x) as [x _ IH]; intros s Hs.
  destruct (decide (x = 0%N)) as [->|Hx]; [by rewrite pretty_N_go_0|].
  rewrite pretty_N_go_step by lia. apply IH; [apply N.div_lt; lia|]. simpl.
  rewrite Hs, andb_true_r. unfold pretty_N_char. by repeat case_match.
Qed.

Lemma pretty_N_digits (n : N) : digits (pretty n) = true.
Proof. unfold pretty, pretty_N. case_decide; [done|]. by apply pretty_N_go_digits. Qed.

(** The text after a value: the end, or a delimiter. *)
Definition stops (r : string) : Prop :=
  match r with EmptyString => True | String c _ => is_digit c = false end.

Lemma digits_stop s1 s2 r1 r2 :
  digits s1 = true → digits s2 = true → stops r1 → stops r2 →
  s1 +:+ r1 = s2 +:+ r2 → s1 = s2 ∧ r1 = r2.
Proof.
  revert s2. induction s1 as [|c1 s1 IH]; intros [|c2 s2]; simpl; intros H1 H2 Hr1 Hr2 Heq.
  - done.
  - subst r1. simpl in Hr1. by rewrite Hr1 in H2.
  - subst r2. simpl in Hr2. by rewrite Hr2 in H1.
  - apply andb_true_iff in H1 as [_ H1], H2 as [_ H2]. injection Heq as <- Heq.
    by apply IH in Heq as [<- <-].
Qed.

Lemma pretty_N_nonempty (n : N) : ∃ c s, pretty n = String c s ∧ is_digit c = true.
Proof.
  pose proof (pretty_N_digits n) as Hd. destruct (pretty n) as [|c s] eqn:Hp.
  - exfalso. assert (pretty n ≠ "") as Hne; [|done]. clear.
    unfold pretty, pretty_N. case_decide; [done|].
    rewrite pretty_N_go_step by lia. generalize (pretty_N_char (n `mod` 10)).
    generalize (n `div` 10)%N. intros m c.
    assert (∀ x s, s ≠ "" → pretty_N_go x s ≠ "") as Hgo.
    { intros x. induction (N.lt_wf_0 x) as [x _ IH]; intros s Hs.
      destruct (decide (x = 0%N)) as [->|Hx]; [done|].
      rewrite pretty_N_go_step by lia. apply IH; [apply N.div_lt; lia|done]. }
    by apply Hgo.
  - exists c, s. split; [done|]. simpl in Hd. by apply andb_true_iff in Hd as [? _].
Qed.

Lemma pretty_Z_parts (z : Z) :
  pretty z = (if decide (z < 0)%Z then "-" else "") +:+ pretty (Z.abs_N z).
Proof. by destruct z. Qed.

Lemma number_inj (z1 z2 : Z) r1 r2 :
  stops r1 → stops r2 → pretty z1 +:+ r1 = pretty z2 +:+ r2 → z1 = z2 ∧ r1 = r2.
Proof.
  intros Hr1 Hr2. rewrite !pretty_Z_parts, !append_assoc.
  pose proof (pretty_N_nonempty (Z.abs_N z1)) as (c1 & s1 & Hp1 & Hd1).
  pose proof (pretty_N_nonempty (Z.abs_N z2)) as (c2 & s2 & Hp2 & Hd2).
  assert (pretty (Z.abs_N z1) +:+ r1 = pretty (Z.abs_N z2) +:+ r2 →
          Z.abs_N z1 = Z.abs_N z2 ∧ r1 = r2) as Hinj.
  { intros [Heq ->]%digits_stop; auto using pretty_N_digits. by apply (inj pretty) in Heq. }
  destruct (decide (z1 < 0)%Z), (decide (z2 < 0)%Z); simpl; intros Heq.
  - injection Heq as Heq. destruct (Hinj Heq) as [? ->]. split; [lia|done].
  - rewrite Hp2 in Heq. simpl in Heq. injection Heq as <- _. done.
  - rewrite Hp1 in Heq. simpl in Heq. injection Heq as -> _. done.
  - destruct (Hinj Heq) as [? ->]. split; [lia|done].
Qed.

(** ** Comma-separated items *)

Section items.
Context {A : Type} (enc : A → string) (close : ascii).
Hypothesis close_delimits : is_digit close = false ∧ close ≠ ","%char.

(** The text after an item. *)
Fixpoint tail (l : list A) (r : string) : string :=
  match l with
  | [] => String close r
  | x :: l' => String "," (enc x +:+ tail l' r)
  end.

Definition unambiguous (x : A) : Prop := ∀ y r1 r2,
  stops r1 → stops r2 → enc x +:+ r1 = enc y +:+ r2 → x = y ∧ r1 = r2.

Lemma tail_stops l r : stops (tail l r).
Proof. destruct l; simpl; [apply close_delimits|done]. Qed.

Lemma tail_inj l1 l2 r1 r2 :
  Forall unambiguous l1 → tail l1 r1 = tail l2 r2 → l1 = l2 ∧ r1 = r2.
Proof.
  intros Hl. revert l2. induction Hl as [|x l1 Hx _ IH]; intros [|y l2] Heq; simpl in Heq.
  - split; [done|]. congruence.
  - exfalso. apply close_delimits. congruence.
  - exfalso. apply close_delimits. congruence.
  - injection Heq as Heq. apply Hx in Heq as [-> Heq]; [|apply tail_stops..].
    by apply IH in Heq as [-> ->].
Qed.

Lemma join_tail x l r :
  Json.join "," (map enc (x :: l)) +:+ String close r = enc x +:+ tail l r.
Proof.
  revert x. induction l as [|y l IH]; intros x; [done|].
  change (Json.join "," (map enc (x :: y :: l))) with (enc x +:+ "," +:+ Json.join "," (map enc (y :: l))).
  rewrite !append_assoc, IH. done.
Qed.

Lemma items_inj l1 l2 r1 r2 :
  Forall unambiguous l1 → (∀ x, ∃ c s, enc x = String c s ∧ c ≠ close) →
  Json.join "," (map enc l1) +:+ String close r1 = Json.join "," (map enc l2) +:+ String close r2 →
  l1 = l2 ∧ r1 = r2.
Proof.
  intros Hl Hhd. destruct l1 as [|x l1], l2 as [|y l2]; rewrite ?join_tail.
  - simpl. intros Heq. split; [done|]. congruence.
  - destruct (Hhd y) as (c & s & -> & Hc). simpl. congruence.
  - destruct (Hhd x) as (c & s & -> & Hc). simpl. congruence.
  - apply Forall_cons_iff in Hl as [Hx Hl].
    intros [-> [-> ->]%tail_inj]%Hx; [done|done|apply tail_stops..].
Qed.
End items.

(** ** Values *)

(** Induction over the items of arrays and the values of objects. *)
Section json_ind.
Context (P : json → Prop).
Hypotheses (Hnull : P JNull) (Hbool : ∀ b, P (JBool b)) (Hnum : ∀ n, P (JNum n))
  (Hstr : ∀ s, P (JStr s)) (Harr : ∀ l, Forall P l → P (JArr l))
  (Hobj : ∀ f, Forall (λ kv, P kv.2) f → P (JObj f)).

Fixpoint json_nested_ind (v : json) : P v :=
  match v with
  | JNull => Hnull
  | JBool b => Hbool b
  | JNum n => Hnum n
  | JStr s => Hstr s
  | JArr l => Harr l ((fix go l := match l return Forall P l with
                                   | [] => @List.Forall_nil _ P
                                   | x :: l' => @List.Forall_cons _ P x l' (json_nested_ind x) (go l')
                                   end) l)
  | JObj f => Hobj f ((fix go f := match f return Forall (λ kv, P kv.2) f with
                                   | [] => @List.Forall_nil _ _
                                   | kv :: f' => @List.Forall_cons _ (λ kv, P kv.2) kv f'
                                                   (json_nested_ind kv.2) (go f')
                                   end) f)
  end.
End json_ind.

(** What the first character of an encoded value tells. *)
Inductive head_kind := HNull | HTrue | HFalse | HStr | HNum | HArr | HObj.

Definition kind_of (v : json) : head_kind :=
  match v with
  | JNull => HNull
  | JBool true => HTrue
  | JBool false => HFalse
  | JNum _ => HNum
  | JStr _ => HStr
  | JArr _ => HArr
  | JObj _ => HObj
  end.

Definition head_kind_of (c : ascii) : option head_kind :=
  if is_digit c then Some HNum
  else match c with
       | "-" => Some HNum | "n" => Some HNull | "t" => Some HTrue | "f" => Some HFalse
       | "[" => Some HArr | "{" => Some HObj
       | c => if decide (N_of_ascii c = 34%N) then Some HStr else None
       end%char.

Lemma stringify_head v : ∃ c s, stringify v = String c s ∧ head_kind_of c = Some (kind_of v).
Proof.
  destruct v as [|[]|n|s|l|f]; simpl; try (by eexists _, _).
  rewrite pretty_Z_parts. destruct (decide (n < 0)%Z); simpl; [by eexists _, _|].
  destruct (pretty_N_nonempty (Z.abs_N n)) as (c & s & -> & Hd). exists c, s. split; [done|].
  unfold head_kind_of. by rewrite Hd.
Qed.

Lemma stringify_kind v1 v2 r1 r2 :
  stringify v1 +:+ r1 = stringify v2 +:+ r2 → kind_of v1 = kind_of v2.
Proof.
  destruct (stringify_head v1) as (c1 & s1 & -> & H1).
  destruct (stringify_head v2) as (c2 & s2 & -> & H2). simpl. intros [= <- _]. congruence.
Qed.

(** [quoteJsonString key : value] *)
Definition field_text (kv : string * json) : string :=
  quoteJsonString kv.1 +:+ ":" +:+ stringify kv.2.

Lemma stringify_unambiguous v : unambiguous stringify v.
Proof.
  induction v as [|b|n|s|l IH|f IH] using json_nested_ind; intros v2 r1 r2 Hr1 Hr2 Heq;
    pose proof (stringify_kind _ _ _ _ Heq) as Hk; destruct v2 as [|b2|n2|s2|l2|f2];
    try (by destruct b); try (by destruct b2); try done; simpl in Heq.
  - split; [done|]. by injection Heq.
  - destruct b, b2; try done; split; try done; by injection Heq.
  - by apply number_inj in Heq as [-> ->].
  - by apply quote_inj in Heq as [-> ->].
  - injection Heq as Heq. rewrite !append_assoc in Heq.
    apply (items_inj stringify "]") in Heq as [-> ->]; [done|by split|done|].
    intros x. destruct (stringify_head x) as (c & s & -> & Hc). exists c, s. split; [done|].
    by intros ->.
  - injection Heq as Heq. rewrite !append_assoc in Heq.
    apply (items_inj field_text "}") in Heq as [-> ->]; [done|by split| |].
    + eapply Forall_impl; [exact IH|]. intros [k x] Hx [k' x'] q1 q2 Hq1 Hq2 Hf.
      unfold field_text in Hf. cbn [fst snd] in *. rewrite !append_assoc in Hf.
      apply quote_inj in Hf as [-> Hf]. injection Hf as Hf. by apply Hx in Hf as [-> ->].
    + intros [k x]. by eexists _, _.
Qed.

Lemma append_empty (s : string) : s +:+ "" = s.
Proof. induction s as [|c s IH]; simpl; [done|by rewrite IH]. Qed.

(** [JSON.stringify] is injective. *)
Lemma stringify_inj v1 v2 : stringify v1 = stringify v2 → v1 = v2.
Proof.
  intros Heq. apply (stringify_unambiguous v1 v2 "" ""); [done..|]. by rewrite !append_empty.
Qed.

(** ** Key order *)

(** The fields of every object in key order. *)
Fixpoint norm (v : json) : json :=
  match v with
  | JArr l => JArr (map norm l)
  | JObj f => JObj (sort_fields (map (λ kv, (kv.1, norm kv.2)) f))
  | _ => v
  end.

(** Sorting by key commutes with a function on the values. *)
Section sort_map.
Context {A B : Type} (f : A → B).
Let g (kv : string * A) : string * B := (kv.1, f kv.2).

Lemma list_merge_map l1 l2 :
  map g (list_merge key_le l1 l2) = list_merge key_le (map g l1) (map g l2).
Proof.
  revert l2. induction l1 as [|x l1 IH1]; intros l2; [by destruct l2|].
  induction l2 as [|y l2 IH2]; [done|]. simpl.
  destruct (decide (key_le x y)) as [Hle|Hle], (decide (key_le (g x) (g y))) as [Hg|Hg];
    try (by destruct Hg); try (by destruct Hle); simpl; f_equal.
  - by rewrite IH1.
  - exact IH2.
Qed.

Lemma merge_stack_map st :
  map g (merge_stack key_le st) = merge_stack key_le (map (fmap (map g)) st).
Proof.
  induction st as [|[l|] st IH]; simpl; [done| |done]. by rewrite list_merge_map, IH.
Qed.

Lemma merge_list_to_stack_map st l :
  map (fmap (map g)) (merge_list_to_stack key_le st l) =
  merge_list_to_stack key_le (map (fmap (map g)) st) (map g l).
Proof.
  revert l. induction st as [|[l'|] st IH]; intros l; simpl; [done| |done].
  by rewrite IH, list_merge_map.
Qed.

Lemma merge_sort_aux_map st l :
  map g (merge_sort_aux key_le st l) =
  merge_sort_aux key_le (map (fmap (map g)) st) (map g l).
Proof.
  revert st. induction l as [|x l IH]; intros st; simpl; [apply merge_stack_map|].
  by rewrite IH, merge_list_to_stack_map.
Qed.

Lemma sort_fields_map l : map g (sort_fields l) = sort_fields (map g l).
Proof. apply merge_sort_aux_map. Qed.
End sort_map.

Lemma canonicalJson_norm v : canonicalJson v = stringify (norm v).
Proof.
  induction v as [|b|n|s|l IH|f IH] using json_nested_ind; try done; cbn [canonicalJson norm stringify].
  - f_equal. f_equal. rewrite map_map. f_equal. apply map_ext_in. intros x Hx.
    rewrite List.Forall_forall in IH. by apply IH.
  - f_equal. f_equal. f_equal. rewrite <-(sort_fields_map canonicalJson), <-(sort_fields_map norm).
    rewrite !map_map. apply map_ext_in. intros [k x] Hx. simpl. do 3 f_equal.
    rewrite List.Forall_forall in IH. apply (IH (k, x)).
    apply list_elem_of_In. apply list_elem_of_In in Hx. unfold sort_fields in Hx.
    by rewrite merge_sort_Permutation in Hx.
Qed.

#[export] Instance key_le_total {A} : Total (@key_le A).
Proof.
  intros a b. unfold key_le. destruct (String.leb_total a.1 b.1); [by left|by right].
Qed.

#[export] Instance key_le_trans {A} : Transitive (@key_le A).
Proof.
  intros a b c. unfold key_le. rewrite <-!Is_true_true. apply (transitivity (R := String.le)).
Qed.

(** Objects that list the same fields in another order are sorted alike. *)
Lemma sort_fields_permutation {A} (f1 f2 : list (string * A)) :
  f1 ≡ₚ f2 → NoDup f1.*1 → sort_fields f1 = sort_fields f2.
Proof.
  intros Hp Hnd. apply (Sorted_unique_strong key_le).
  - unfold sort_fields. intros x1 x2. rewrite !merge_sort_Permutation, <-Hp. intros H1 H2 Hle Hge.
    unfold key_le in *. assert (x1.1 = x2.1) as Hk by (by apply String.leb_antisym).
    apply list_elem_of_lookup in H1 as [i Hi], H2 as [j Hj].
    assert (i = j) as ->; [|congruence].
    eapply (NoDup_lookup f1.*1); [done|rewrite list_lookup_fmap, Hi; done|].
    by rewrite list_lookup_fmap, Hj, Hk.
  - apply Sorted_merge_sort, _.
  - apply Sorted_merge_sort, _.
  - unfold sort_fields. by rewrite !merge_sort_Permutation.
Qed.

(** C40: The canonical encoding identifies a value up to the order of object fields: two values
    have the same canonical text exactly when they are equal after sorting the fields of every
    object by key, and permuting the fields of an object does not change it. *)
Theorem canonicalJson_characterizes v1 v2 :
  (canonicalJson v1 = canonicalJson v2 ↔ norm v1 = norm v2) ∧
  (∀ f1 f2, f1 ≡ₚ f2 → NoDup f1.*1 → canonicalJson (JObj f1) = canonicalJson (JObj f2)).
Proof.
  split.
  - rewrite !canonicalJson_norm. split; [apply stringify_inj|congruence].
  - intros f1 f2 Hp Hnd. rewrite !canonicalJson_norm. cbn [norm]. do 2 f_equal.
    apply sort_fields_permutation; [by apply Permutation_map|].
    rewrite <-list_fmap_compose. by erewrite (list_fmap_ext _ fst); [|].
Qed.
