(* ===== verification/Contracts.v ===== *)
(** * Shared control-plane contracts

    Models [src/shared/contracts/control-plane/{primitives,schemas,commands,
    events}.ts] and [src/server/domain/jobs/job-errors.ts]: the literal types,
    the job aggregate, the command envelopes and the errors thrown by commands. *)
From S2P Require Import Prelude Json.

(** A TypeScript union of string literals: [lit] is the text a value has at run
    time (in the database, in JSON, in an error), [of_lit] the parser that
    accepts exactly these texts. *)
Class Literal (A : Type) := {
  lit : A → string;
  of_lit : string → option A;
  of_lit_lit : ∀ a, of_lit (lit a) = Some a;
  of_lit_inv : ∀ s a, of_lit s = Some a → lit a = s
}.

Lemma lit_inj `{Literal A} (a b : A) : lit a = lit b → a = b.
Proof. intros Hab. apply (inj Some). by rewrite <-!of_lit_lit, Hab. Qed.

(** Parsers over an enumeration of all values of the union. *)
Definition parse_among {A} (f : A → string) (all : list A) (s : string) : option A :=
  List.find (λ a, bool_decide (f a = s)) all.

Lemma parse_among_inv {A} (f : A → string) all s a :
  parse_among f all s = Some a → f a = s.
Proof. intros [_ H]%find_some. by apply bool_decide_eq_true in H. Qed.

Ltac solve_literal all f :=
  refine {| lit := f; of_lit := parse_among f all |};
  [by intros [] | apply parse_among_inv].

Module JobState.
Inductive t : Set :=
| planning_queued | planning_running | plan_review
| execution_queued | execution_running
| pausing | paused | applying_changes
| succeeded | failed | cancelled.

#[global] Instance t_eq_dec : EqDecision t.
Proof. solve_decision. Defined.

Definition to_string (s : t) : string :=
  match s with
  | planning_queued => "planning_queued"
  | planning_running => "planning_running"
  | plan_review => "plan_review"
  | execution_queued => "execution_queued"
  | execution_running => "execution_running"
  | pausing => "pausing"
  | paused => "paused"
  | applying_changes => "applying_changes"
  | succeeded => "succeeded"
  | failed => "failed"
  | cancelled => "cancelled"
  end.

(** [JOB_STATES] *)
Definition JOB_STATES : list t :=
  [planning_queued; planning_running; plan_review; execution_queued; execution_running;
   pausing; paused; applying_changes; succeeded; failed; cancelled].

#[global] Instance t_literal : Literal t.
Proof. solve_literal JOB_STATES to_string. Defined.
End JobState.

Module JobAction.
Inductive t : Set :=
| pause | continue | cancel | restart_execution | replan | confirm_plan | edit_plan | delete.

#[global] Instance t_eq_dec : EqDecision t.
Proof. solve_decision. Defined.

Definition to_string (a : t) : string :=
  match a with
  | pause => "pause"
  | continue => "continue"
  | cancel => "cancel"
  | restart_execution => "restart_execution"
  | replan => "replan"
  | confirm_plan => "confirm_plan"
  | edit_plan => "edit_plan"
  | delete => "delete"
  end.

(** [JOB_ACTIONS] *)
Definition JOB_ACTIONS : list t :=
  [pause; continue; cancel; restart_execution; replan; confirm_plan; edit_plan; delete].

#[global] Instance t_literal : Literal t.
Proof. solve_literal JOB_ACTIONS to_string. Defined.
End JobAction.

Module ControlIntent.
Inductive t : Set := none | pause.

#[global] Instance t_eq_dec : EqDecision t.
Proof. solve_decision. Defined.

Definition to_string (i : t) : string :=
  match i with none => "none" | pause => "pause" end.

#[global] Instance t_literal : Literal t.
Proof. solve_literal [none; pause] to_string. Defined.
End ControlIntent.

Module ResumeTarget.
Inductive t : Set := planning_queued | execution_queued.

#[global] Instance t_eq_dec : EqDecision t.
Proof. solve_decision. Defined.

Definition to_string (i : t) : string :=
  match i with planning_queued => "planning_queued" | execution_queued => "execution_queued" end.

#[global] Instance t_literal : Literal t.
Proof. solve_literal [planning_queued; execution_queued] to_string. Defined.

(** A resume target is the name of a job state. *)
Definition to_state (i : t) : JobState.t :=
  match i with
  | planning_queued => JobState.planning_queued
  | execution_queued => JobState.execution_queued
  end.
End ResumeTarget.

Module RunKind.
Inductive t : Set := planning | execution.

#[global] Instance t_eq_dec : EqDecision t.
Proof. solve_decision. Defined.

Definition to_string (i : t) : string :=
  match i with planning => "planning" | execution => "execution" end.

#[global] Instance t_literal : Literal t.
Proof. solve_literal [planning; execution] to_string. Defined.
End RunKind.

Module Recoverability.
Inductive t : Set := recoverable | non_recoverable.

#[global] Instance t_eq_dec : EqDecision t.
Proof. solve_decision. Defined.

Definition to_string (i : t) : string :=
  match i with recoverable => "recoverable" | non_recoverable => "non_recoverable" end.

#[global] Instance t_literal : Literal t.
Proof. solve_literal [recoverable; non_recoverable] to_string. Defined.
End Recoverability.

(** [isTerminal], [isRunning], [isQueued] of primitives.ts *)
Definition isTerminal (state : JobState.t) : bool :=
  match state with
  | JobState.succeeded | JobState.failed | JobState.cancelled => true
  | _ => false
  end.

Definition isRunning (state : JobState.t) : bool :=
  match state with
  | JobState.planning_running | JobState.execution_running => true
  | _ => false
  end.

Definition isQueued (state : JobState.t) : bool :=
  match state with
  | JobState.planning_queued | JobState.execution_queued => true
  | _ => false
  end.

(** [JobAggregateSchema] / [JobAggregateView] *)
Module JobAggregate.
Record t := mk {
  id : string;
  threadId : string;
  projectId : string;
  state : JobState.t;
  stateRevision : Z;
  controlIntent : ControlIntent.t;
  resumeTarget : option ResumeTarget.t;
  currentPlanRevision : option Z;
  executionGeneration : Z;
  activeRunId : option string;
  lastFailureId : option string
}.
End JobAggregate.

Module ActorContext.
Record t := mk { username : string; requestId : string }.
End ActorContext.

(** [UserCommandEnvelope] and [PayloadCommandEnvelope<TPayload>] *)
Module UserCommand.
Record t (P : Type) := mk {
  actor : ActorContext.t;
  jobId : string;
  expectedRevision : Z;
  idempotencyKey : string;
  payload : P
}.
Arguments mk {P} _ _ _ _ _.
Arguments actor {P} _.
Arguments jobId {P} _.
Arguments expectedRevision {P} _.
Arguments idempotencyKey {P} _.
Arguments payload {P} _.
End UserCommand.

(** [WorkerCommandEnvelope<TPayload>] *)
Module WorkerCommand.
Record t (P : Type) := mk {
  jobId : string;
  expectedRevision : Z;
  runId : string;
  fenceToken : string;
  executionGeneration : Z;
  payload : P
}.
Arguments mk {P} _ _ _ _ _ _.
Arguments jobId {P} _.
Arguments expectedRevision {P} _.
Arguments runId {P} _.
Arguments fenceToken {P} _.
Arguments executionGeneration {P} _.
Arguments payload {P} _.
End WorkerCommand.

Record CancelJobPayload := mkCancelJobPayload { reasonCode : string }.

Record TaskCheckpointPayload := mkTaskCheckpointPayload {
  tc_attemptId : string;
  tc_result : json
}.

Module ScopeType.
Inductive t : Set := slice | milestone.

#[global] Instance t_eq_dec : EqDecision t.
Proof. solve_decision. Defined.

Definition to_string (s : t) : string :=
  match s with slice => "slice" | milestone => "milestone" end.

#[global] Instance t_literal : Literal t.
Proof. solve_literal [slice; milestone] to_string. Defined.
End ScopeType.

Record StartVerificationPayload := mkStartVerificationPayload {
  sv_scopeType : ScopeType.t;
  sv_scopeId : string
}.

(** [CompleteSliceVerificationPayload] and [CompleteMilestoneVerificationPayload]
    have the same fields. *)
Record CompleteVerificationPayload := mkCompleteVerificationPayload {
  cv_verificationId : string;
  cv_scopeId : string;
  cv_verdict : json
}.

Record ReportNoProgressPayload := mkReportNoProgressPayload {
  np_decisionKey : string;
  np_observedRevision : Z;
  np_workIdentity : string
}.

Record RuntimeStartedPayload := mkRuntimeStartedPayload {
  rs_runtimeInstanceId : string;
  rs_provider : string;
  rs_pidOrHandleRef : option string
}.

Module ExitKind.
Inductive t : Set := normal | error | signal | timeout.

#[global] Instance t_eq_dec : EqDecision t.
Proof. solve_decision. Defined.

Definition to_string (s : t) : string :=
  match s with normal => "normal" | error => "error" | signal => "signal" | timeout => "timeout" end.

#[global] Instance t_literal : Literal t.
Proof. solve_literal [normal; error; signal; timeout] to_string. Defined.
End ExitKind.

Record RuntimeExitedPayload := mkRuntimeExitedPayload {
  re_runtimeInstanceId : string;
  re_exitKind : ExitKind.t;
  re_exitCode : option Z;
  re_signal : option string
}.

Record RunInterruptedPayload := mkRunInterruptedPayload { ri_reason : string }.

Record CheckpointResult := mkCheckpointResult { cp_revision : Z; cp_mustPause : bool }.

Record RuntimeStartedResult := mkRuntimeStartedResult {
  rsr_runtimeInstanceId : string;
  rsr_runState : string;
  rsr_revision : Z
}.

(** [RuntimeExitResult['decision']], with the failure id of [job_failed]. *)
Inductive RuntimeExitResult :=
| retry_scheduled (newAttemptId : string)
| job_failed (failureId : string)
| pause_settled
| cancelled_cleanup_only
| stale_ignored.

Record StartVerificationResult := mkStartVerificationResult {
  svr_verificationId : string;
  svr_state : string
}.

Record VerificationResult := mkVerificationResult {
  vr_verificationId : string;
  vr_state : string;
  vr_revision : Z
}.

Record NoProgressResult := mkNoProgressResult { npr_revision : Z; npr_eventCount : Z }.

(** ** Errors *)

Inductive error :=
| CommandError (code : string) (httpStatus : Z) (details : option json)
| PlainError (message : string)
| TaskResultValidationError (code message : string)
| SqliteError (constraint : string).

Definition commandErrorStatus (code : string) : Z :=
  if decide (code = "contract.invalid_payload") then 400
  else if decide (code = "job.not_found") then 404
  else if decide (code = "api.legacy_blocked") then 410
  else if decide (code = "control_plane.not_authoritative") then 409
  else if decide (code = "app.draining") then 503
  else 409.

Definition commandError (code : string) (details : option json) : error :=
  CommandError code (commandErrorStatus code) details.

(** ** Events *)

Module ChangedField.
Inductive t : Set := state | tasks | plan | failure | actions.

#[global] Instance t_eq_dec : EqDecision t.
Proof. solve_decision. Defined.

Definition to_string (s : t) : string :=
  match s with
  | state => "state" | tasks => "tasks" | plan => "plan" | failure => "failure"
  | actions => "actions"
  end.
End ChangedField.

(** The topic every job event is published on. *)
Definition job_topic (jobId : string) : string := "job:" +:+ jobId.

(** The payload literal the services pass to [appendOutbox]. *)
Definition job_changed_payload (jobId : string) (revision : Z) (changed : list ChangedField.t)
    : json :=
  JObj [("type", JStr "job.changed"); ("entityId", JStr jobId); ("revision", JNum revision);
        ("changed", JArr (map (λ f, JStr (ChangedField.to_string f)) changed))].
