(* ===== verification/JobDomain.v ===== *)
(** * Job domain: state machine, action rules, invariants

    Models [src/server/domain/jobs/job-state-machine.ts],
    [job-action-rules.ts], [job-invariants.ts] and [fromTransitionError] of
    [job-errors.ts]. *)
From S2P Require Import Prelude Json Contracts.

(** ** job-state-machine.ts *)

Record JobTransition := mkJobTransition {
  nextState : JobState.t;
  tr_controlIntent : ControlIntent.t;
  tr_resumeTarget : option ResumeTarget.t;
  clearActiveRun : bool
}.

Record TransitionError := mkTransitionError {
  te_code : string;
  te_state : JobState.t;
  te_command : string
}.

Definition requestPause (job : JobAggregate.t) : result TransitionError JobTransition :=
  match JobAggregate.state job with
  | JobState.planning_queued =>
      Ok (mkJobTransition JobState.paused ControlIntent.none
            (Some ResumeTarget.planning_queued) true)
  | JobState.execution_queued =>
      Ok (mkJobTransition JobState.paused ControlIntent.none
            (Some ResumeTarget.execution_queued) true)
  | JobState.planning_running =>
      Ok (mkJobTransition JobState.pausing ControlIntent.pause
            (Some ResumeTarget.planning_queued) false)
  | JobState.execution_running =>
      Ok (mkJobTransition JobState.pausing ControlIntent.pause
            (Some ResumeTarget.execution_queued) false)
  | s => Err (mkTransitionError "job.action_not_allowed" s "request_pause")
  end.

Definition continueJob (job : JobAggregate.t) : result TransitionError JobTransition :=
  match JobAggregate.state job with
  | JobState.paused =>
      match JobAggregate.resumeTarget job with
      | None =>
          Err (mkTransitionError "job.invalid_resume_target" JobState.paused "continue")
      | Some target =>
          Ok (mkJobTransition (ResumeTarget.to_state target) ControlIntent.none None true)
      end
  | JobState.failed =>
      Ok (mkJobTransition JobState.execution_queued ControlIntent.none None true)
  | s => Err (mkTransitionError "job.action_not_allowed" s "continue")
  end.

Definition cancelJob (job : JobAggregate.t) : result TransitionError JobTransition :=
  match JobAggregate.state job with
  | JobState.planning_queued | JobState.planning_running | JobState.plan_review
  | JobState.execution_queued | JobState.execution_running
  | JobState.paused | JobState.failed =>
      Ok (mkJobTransition JobState.cancelled ControlIntent.none None true)
  | s => Err (mkTransitionError "job.action_not_allowed" s "cancel")
  end.

Definition restartExecution (job : JobAggregate.t) : result TransitionError JobTransition :=
  match JobAggregate.state job with
  | JobState.failed | JobState.cancelled =>
      Ok (mkJobTransition JobState.execution_queued ControlIntent.none None true)
  | s => Err (mkTransitionError "job.action_not_allowed" s "restart_execution")
  end.

Definition confirmPlan (job : JobAggregate.t) : result TransitionError JobTransition :=
  match JobAggregate.state job with
  | JobState.plan_review =>
      Ok (mkJobTransition JobState.execution_queued ControlIntent.none None true)
  | s => Err (mkTransitionError "job.action_not_allowed" s "confirm_plan")
  end.

Definition replan (job : JobAggregate.t) : result TransitionError JobTransition :=
  match JobAggregate.state job with
  | JobState.plan_review =>
      Ok (mkJobTransition JobState.planning_queued ControlIntent.none None true)
  | s => Err (mkTransitionError "job.action_not_allowed" s "replan")
  end.

Definition fromTransitionError (e : TransitionError) : error :=
  commandError (te_code e)
    (Some (JObj [("state", JStr (lit (te_state e))); ("command", JStr (te_command e))])).

(** ** job-action-rules.ts *)

Record ActionRuleContext := mkActionRuleContext {
  ar_state : JobState.t;
  ar_recoverability : option Recoverability.t;
  ar_hasConfirmedPlan : bool
}.

Definition availableActions (context : ActionRuleContext) : list JobAction.t :=
  match ar_state context with
  | JobState.planning_queued | JobState.planning_running
  | JobState.execution_queued | JobState.execution_running =>
      [JobAction.pause; JobAction.cancel]
  | JobState.plan_review =>
      [JobAction.edit_plan; JobAction.confirm_plan; JobAction.replan; JobAction.cancel]
  | JobState.pausing | JobState.applying_changes => []
  | JobState.paused => [JobAction.continue; JobAction.cancel]
  | JobState.failed =>
      if decide (ar_recoverability context = Some Recoverability.recoverable)
      then [JobAction.continue; JobAction.cancel]
      else [JobAction.restart_execution; JobAction.delete]
  | JobState.cancelled =>
      if ar_hasConfirmedPlan context
      then [JobAction.restart_execution; JobAction.delete]
      else [JobAction.delete]
  | JobState.succeeded => [JobAction.delete]
  end.

(** ** job-invariants.ts *)

Record InvariantViolation := mkInvariantViolation { iv_code : string; iv_detail : string }.

(** The run states of the [CHECK] constraint on [control_job_runs.state]. *)
Module RunState.
Inductive t : Set :=
| queued | starting | active | retrying | pausing | cancelling | stopping | exiting
| paused | succeeded | failed | cancelled | interrupted.

#[global] Instance t_eq_dec : EqDecision t.
Proof. solve_decision. Defined.

Definition to_string (s : t) : string :=
  match s with
  | queued => "queued" | starting => "starting" | active => "active" | retrying => "retrying"
  | pausing => "pausing" | cancelling => "cancelling" | stopping => "stopping"
  | exiting => "exiting" | paused => "paused" | succeeded => "succeeded" | failed => "failed"
  | cancelled => "cancelled" | interrupted => "interrupted"
  end.

#[global] Instance t_literal : Literal t.
Proof.
  solve_literal [queued; starting; active; retrying; pausing; cancelling; stopping; exiting;
                 paused; succeeded; failed; cancelled; interrupted] to_string.
Defined.
End RunState.

Module ActiveRunSummary.
Record t := mk {
  id : string;
  state : RunState.t;
  fenceToken : string;
  executionGeneration : Z;
  currentRuntimeInstanceId : option string
}.
End ActiveRunSummary.

(** [activeRun === null || job.activeRunId !== activeRun.id] *)
Definition run_mismatch (job : JobAggregate.t) (activeRun : option ActiveRunSummary.t) : bool :=
  match activeRun with
  | None => true
  | Some run => bool_decide (JobAggregate.activeRunId job ≠ Some (ActiveRunSummary.id run))
  end.

Definition violation_if (b : bool) (code : string) (job : JobAggregate.t)
    : list InvariantViolation :=
  if b then [mkInvariantViolation code (JobAggregate.id job)] else [].

Definition validateJobInvariant (job : JobAggregate.t) (activeRun : option ActiveRunSummary.t)
    : list InvariantViolation :=
  (if decide (JobAggregate.state job = JobState.pausing) then
     violation_if (bool_decide (JobAggregate.controlIntent job ≠ ControlIntent.pause))
       "job.pausing_without_intent" job ++
     violation_if (bool_decide (JobAggregate.resumeTarget job = None))
       "job.pausing_without_resume_target" job ++
     violation_if (run_mismatch job activeRun) "job.pausing_without_active_run" job
   else []) ++
  (if decide (JobAggregate.state job = JobState.paused) then
     violation_if (bool_decide (JobAggregate.controlIntent job ≠ ControlIntent.none) ||
                   bool_decide (JobAggregate.activeRunId job ≠ None) ||
                   bool_decide (JobAggregate.resumeTarget job = None))
       "job.invalid_paused_shape" job
   else []) ++
  (if isTerminal (JobAggregate.state job) then
     violation_if (bool_decide (JobAggregate.activeRunId job ≠ None) ||
                   bool_decide (JobAggregate.controlIntent job ≠ ControlIntent.none))
       "job.terminal_has_control_state" job
   else []) ++
  (if isRunning (JobAggregate.state job) then
     violation_if (bool_decide (JobAggregate.activeRunId job = None))
       "job.running_without_active_run" job ++
     violation_if (run_mismatch job activeRun) "job.running_without_matching_run" job
   else []) ++
  (if isQueued (JobAggregate.state job) then
     violation_if (bool_decide (JobAggregate.activeRunId job ≠ None))
       "job.queued_has_active_run" job
   else []).

(** ** Lemmas *)

(** The shape of a job row the invariant asks for: [hasRun] says that the run
    named by [activeRunId] exists. *)
Definition job_shape (job : JobAggregate.t) (hasRun : bool) : Prop :=
  match JobAggregate.state job with
  | JobState.pausing =>
      JobAggregate.controlIntent job = ControlIntent.pause ∧
      JobAggregate.resumeTarget job ≠ None ∧
      JobAggregate.activeRunId job ≠ None ∧ hasRun = true
  | JobState.paused =>
      JobAggregate.controlIntent job = ControlIntent.none ∧
      JobAggregate.resumeTarget job ≠ None ∧
      JobAggregate.activeRunId job = None
  | JobState.succeeded | JobState.failed | JobState.cancelled =>
      JobAggregate.controlIntent job = ControlIntent.none ∧ JobAggregate.activeRunId job = None
  | JobState.planning_running | JobState.execution_running =>
      JobAggregate.activeRunId job ≠ None ∧ hasRun = true
  | JobState.planning_queued | JobState.execution_queued => JobAggregate.activeRunId job = None
  | JobState.plan_review | JobState.applying_changes => True
  end.

Lemma violation_if_nil b code job : violation_if b code job = [] ↔ b = false.
Proof. by destruct b. Qed.

Lemma validateJobInvariant_nil job activeRun :
  (∀ run, activeRun = Some run → JobAggregate.activeRunId job = Some (ActiveRunSummary.id run)) →
  validateJobInvariant job activeRun = [] ↔
  job_shape job (bool_decide (is_Some activeRun)).
Proof.
  intros Hrun.
  assert (run_mismatch job activeRun = negb (bool_decide (is_Some activeRun))) as Hm.
  { destruct activeRun as [run|]; simpl; [|done].
    rewrite (Hrun run eq_refl). by rewrite bool_decide_eq_false_2 by naive_solver. }
  assert (JobAggregate.activeRunId job = None → ¬ is_Some activeRun) as Hnone.
  { intros Hn [run ->]. specialize (Hrun run eq_refl). congruence. }
  unfold validateJobInvariant, job_shape. rewrite Hm. clear Hm Hrun. revert Hnone.
  destruct (JobAggregate.state job); simpl;
    rewrite ?app_nil_r, ?app_nil, ?violation_if_nil, ?orb_false_iff, ?negb_false_iff,
      ?bool_decide_eq_false, ?bool_decide_eq_true;
    destruct (JobAggregate.controlIntent job), (JobAggregate.activeRunId job),
      (JobAggregate.resumeTarget job); intuition congruence.
Qed.
