(* ===== verification/TaskDomain.v ===== *)
(** * Task domain: state machine and result validation

    Models [src/server/domain/tasks/task-state-machine.ts] and
    [validate-task-result.ts].  The schemas are built with TypeBox; its
    [Value.Check] is a library function, so it is the class [TypeBox] here,
    with the documented meaning of the schema constructors as its law. *)
From S2P Require Import Prelude Json Contracts.
From Stdlib Require Import Ascii.

(** ** task-state-machine.ts *)

Module TaskState.
Inductive t : Set := queued | running | completed | blocked | failed | skipped.

#[global] Instance t_eq_dec : EqDecision t.
Proof. solve_decision. Defined.

Definition to_string (s : t) : string :=
  match s with
  | queued => "queued" | running => "running" | completed => "completed"
  | blocked => "blocked" | failed => "failed" | skipped => "skipped"
  end.

#[global] Instance t_literal : Literal t.
Proof. solve_literal [queued; running; completed; blocked; failed; skipped] to_string. Defined.
End TaskState.

Record TaskTransitionError := mkTaskTransitionError {
  tte_code : string;
  tte_state : TaskState.t;
  tte_command : string
}.

Definition task_not_allowed (state : TaskState.t) (command : string)
    : result TaskTransitionError TaskState.t :=
  Err (mkTaskTransitionError "task.action_not_allowed" state command).

Definition startTask (state : TaskState.t) : result TaskTransitionError TaskState.t :=
  match state with
  | TaskState.queued => Ok TaskState.running
  | s => task_not_allowed s "start"
  end.

Definition completeTask (state : TaskState.t) : result TaskTransitionError TaskState.t :=
  match state with
  | TaskState.running => Ok TaskState.completed
  | s => task_not_allowed s "complete"
  end.

Definition failTask (state : TaskState.t) : result TaskTransitionError TaskState.t :=
  match state with
  | TaskState.running => Ok TaskState.failed
  | s => task_not_allowed s "fail"
  end.

Definition blockTask (state : TaskState.t) : result TaskTransitionError TaskState.t :=
  match state with
  | TaskState.running => Ok TaskState.blocked
  | s => task_not_allowed s "block"
  end.

Definition skipTask (state : TaskState.t) : result TaskTransitionError TaskState.t :=
  match state with
  | TaskState.queued | TaskState.blocked => Ok TaskState.skipped
  | s => task_not_allowed s "skip"
  end.

Definition requeueTask (state : TaskState.t) : result TaskTransitionError TaskState.t :=
  match state with
  | TaskState.running | TaskState.blocked | TaskState.failed => Ok TaskState.queued
  | s => task_not_allowed s "requeue"
  end.

(** ** TypeBox schemas *)

(** The schema constructors the task contract uses.  [SString] carries
    [minLength], [maxLength] and, for [pattern: '^[...]+$'], the character class. *)
Inductive schema :=
| SString (minLength maxLength : N) (charClass : option (ascii → bool))
| SBoolean
| SNull
| SLiteral (s : string)
| SUnion (alternatives : list schema)
| SArray (items : schema) (minItems maxItems : N)
| SObject (fields : list (string * schema)) (optional : list string).

(** Documented meaning of the constructors ([additionalProperties: false] on
    every object). *)
Fixpoint schema_valid (s : schema) (v : json) {struct s} : bool :=
  match s with
  | SString lo hi cls =>
      match v with
      | JStr str =>
          let n := N.of_nat (String.length str) in
          bool_decide (lo ≤ n)%N && bool_decide (n ≤ hi)%N &&
          match cls with
          | None => true
          | Some f => negb (String.eqb str "") && forallb f (String.list_ascii_of_string str)
          end
      | _ => false
      end
  | SBoolean => match v with JBool _ => true | _ => false end
  | SNull => match v with JNull => true | _ => false end
  | SLiteral lit => match v with JStr str => String.eqb str lit | _ => false end
  | SUnion alts => existsb (λ s', schema_valid s' v) alts
  | SArray items lo hi =>
      match v with
      | JArr vs =>
          let n := N.of_nat (length vs) in
          bool_decide (lo ≤ n)%N && bool_decide (n ≤ hi)%N && forallb (schema_valid items) vs
      | _ => false
      end
  | SObject fields optional =>
      match v with
      | JObj kvs =>
          forallb (λ kv, existsb (String.eqb kv.1) (map fst fields)) kvs &&
          forallb (λ f, match json_get f.1 v with
                        | Some v' => schema_valid f.2 v'
                        | None => existsb (String.eqb f.1) optional
                        end) fields
      | _ => false
      end
  end.

(** [Value.Check] of @sinclair/typebox *)
Class TypeBox := {
  value_check : schema → json → bool;
  value_check_spec : ∀ s v, value_check s v = schema_valid s v
}.

(** The class has a model: the checker that computes the documented meaning. *)
Definition typebox_model : TypeBox :=
  {| value_check := schema_valid; value_check_spec := λ _ _, eq_refl |}.

(** ** validate-task-result.ts *)

Definition NonEmptyText : schema := SString 1 20000 None.

(** [^[a-z0-9._-]+$] *)
Definition short_code_char (c : ascii) : bool :=
  let n := N_of_ascii c in
  bool_decide (97 ≤ n ∧ n ≤ 122)%N || bool_decide (48 ≤ n ∧ n ≤ 57)%N ||
  bool_decide (n = 46)%N || bool_decide (n = 95)%N || bool_decide (n = 45)%N.

Definition ShortCode : schema := SString 1 128 (Some short_code_char).

Definition ValidationResultSchema : schema :=
  SObject
    [("ran", SBoolean);
     ("outcome", SUnion [SLiteral "passed"; SLiteral "failed"; SLiteral "not-applicable";
                         SLiteral "skipped"]);
     ("summary", SString 0 10000 None)]
    ["summary"].

Definition TaskResultSchema : schema :=
  SObject
    [("status", SUnion [SLiteral "completed"; SLiteral "blocked"; SLiteral "failed"]);
     ("summary", NonEmptyText);
     ("changedFiles", SArray (SString 1 4096 None) 0 2000);
     ("evidence", SArray NonEmptyText 1 200);
     ("validation", ValidationResultSchema);
     ("blockers", SArray NonEmptyText 0 100);
     ("blockerKind", SUnion [ShortCode; SNull])]
    [].

(** Field reads of a checked [TaskResult]. *)
Definition arr_items (o : option json) : list json :=
  match o with Some (JArr l) => l | _ => [] end.

Definition res_status (r : json) : option json := json_get "status" r.
Definition res_blockers (r : json) : list json := arr_items (json_get "blockers" r).
Definition res_evidence (r : json) : list json := arr_items (json_get "evidence" r).

(** [result.blockerKind !== null] *)
Definition res_has_blockerKind (r : json) : bool :=
  match json_get "blockerKind" r with Some JNull => false | _ => true end.

Definition res_outcome (r : json) : option json :=
  match json_get "validation" r with Some v => json_get "outcome" v | None => None end.

(** [res_str o s] is the comparison [o === 's']. *)
Definition res_str (o : option json) (s : string) : bool :=
  match o with Some (JStr s') => String.eqb s' s | _ => false end.

Record ValidatedTaskResult := mkValidatedTaskResult {
  vt_taskState : TaskState.t;
  vt_result : json
}.

Section validate.
Context `{TypeBox}.

Definition parseTaskResult (input : json) : result error json :=
  if value_check TaskResultSchema input then Ok input
  else Err (TaskResultValidationError "contract.invalid_payload" "invalid task result payload").

Definition validateTaskResultSemantics (r : json) : result error ValidatedTaskResult :=
  if res_str (res_status r) "completed" then
    if bool_decide (0 < length (res_blockers r)) || res_has_blockerKind r then
      Err (TaskResultValidationError "task_result.completed_has_blocker"
             "completed task cannot have blockers")
    else if negb (res_str (res_outcome r) "passed") &&
            negb (res_str (res_outcome r) "not-applicable") then
      Err (TaskResultValidationError "task_result.completed_validation_not_passed"
             "completed task must have passed or not-applicable validation")
    else Ok (mkValidatedTaskResult TaskState.completed r)
  else if res_str (res_status r) "blocked" then
    if bool_decide (length (res_blockers r) = 0) || negb (res_has_blockerKind r) then
      Err (TaskResultValidationError "task_result.blocked_without_reason"
             "blocked task must have blockers and blockerKind")
    else Ok (mkValidatedTaskResult TaskState.blocked r)
  else if res_has_blockerKind r && bool_decide (length (res_blockers r) = 0) then
    Err (TaskResultValidationError "task_result.failure_blocker_mismatch"
           "failed task with blockerKind must have blockers")
  else Ok (mkValidatedTaskResult TaskState.failed r).

Definition validateTaskResult (input : json) : result error ValidatedTaskResult :=
  match parseTaskResult input with
  | Ok r => validateTaskResultSemantics r
  | Err e => Err e
  end.

(** *** Lemmas *)

Lemma parseTaskResult_ok input r : parseTaskResult input = Ok r → r = input.
Proof. unfold parseTaskResult. case_match; naive_solver. Qed.

Lemma validateTaskResult_result input v :
  validateTaskResult input = Ok v → vt_result v = input.
Proof.
  unfold validateTaskResult. destruct (parseTaskResult input) as [r|] eqn:Hp; [|done].
  apply parseTaskResult_ok in Hp as ->. unfold validateTaskResultSemantics.
  repeat case_match; naive_solver.
Qed.

(** A validated result is terminal for the attempt: the task state written by
    the checkpoint is never [queued] or [running]. *)
Lemma validateTaskResult_terminal input v :
  validateTaskResult input = Ok v →
  vt_taskState v = TaskState.completed ∨ vt_taskState v = TaskState.blocked ∨
  vt_taskState v = TaskState.failed.
Proof.
  unfold validateTaskResult. destruct (parseTaskResult input) as [r|] eqn:Hp; [|done].
  unfold validateTaskResultSemantics. repeat case_match; naive_solver.
Qed.

End validate.
