(* ===== verification/Plan.v ===== *)
(** * Plan validation

    Models [src/server/domain/plans/validate-plan.ts].  JavaScript's [<<] and
    [&] work on 32-bit signed integers: [to_int32] is the conversion; sums and
    differences of numbers below 2^53 are exact. *)
From S2P Require Import Prelude Json Contracts.
From Stdlib Require Import Ascii.

(** ** Data *)

Module PlanTask.
Record t := mk {
  id : string;
  title : string;
  abilityCode : option string;
  coreCode : option string
}.
End PlanTask.

Module PlanSlice.
Record t := mk {
  id : string;
  title : string;
  tasks : list PlanTask.t;
  dependencies : list string
}.
End PlanSlice.

Module PlanMilestone.
Record t := mk {
  id : string;
  title : string;
  slices : list PlanSlice.t
}.
End PlanMilestone.

Definition PlanInput : Type := list PlanMilestone.t.

Module NormalizedTask.
Record t := mk {
  id : string;
  title : string;
  abilityCode : option string;
  coreCode : option string;
  sortOrder : nat
}.
End NormalizedTask.

Module NormalizedSlice.
Record t := mk {
  id : string;
  title : string;
  sortOrder : nat;
  tasks : list NormalizedTask.t;
  dependencies : list string
}.
End NormalizedSlice.

Module NormalizedMilestone.
Record t := mk {
  id : string;
  title : string;
  sortOrder : nat;
  slices : list NormalizedSlice.t
}.
End NormalizedMilestone.

Record NormalizedPlan := mkNormalizedPlan {
  np_milestones : list NormalizedMilestone.t;
  np_contentHash : string
}.

Record PlanValidationError := mkPlanValidationError { pe_code : string; pe_detail : string }.

(** ** computeContentHash *)

(** ECMAScript [ToInt32]. *)
Definition to_int32 (z : Z) : Z :=
  let m := (z mod 2 ^ 32)%Z in if (m <? 2 ^ 31)%Z then m else (m - 2 ^ 32)%Z.

(** One iteration of the loop. *)
Definition hash_step (hash : Z) (c : ascii) : Z :=
  let h := (to_int32 (Z.shiftl (to_int32 hash) 5) - hash + Z.of_N (N_of_ascii c))%Z in
  to_int32 (Z.land (to_int32 h) (to_int32 h)).

Definition content_hash (s : string) : Z := fold_left hash_step (String.list_ascii_of_string s) 0%Z.

Definition base36_digit (n : N) : ascii :=
  ascii_of_N (if (n <? 10)%N then 48 + n else 87 + n).

(** [Number.prototype.toString(36)] of a natural number, least digit first;
    [fuel] bounds the number of digits. *)
Fixpoint base36_digits (fuel : nat) (n : N) : list N :=
  match fuel with
  | O => []
  | S fuel' =>
      if (n <? 36)%N then [n] else (n mod 36)%N :: base36_digits fuel' (n / 36)
  end.

(** 2^31 has six digits in base 36. *)
Definition to_base36 (n : N) : string :=
  String.string_of_list_ascii (rev (map base36_digit (base36_digits 7 n))).

(** The object literal [JSON.stringify] is applied to. *)
Definition task_json (t : PlanTask.t) : json :=
  JObj [("id", JStr (PlanTask.id t)); ("title", JStr (PlanTask.title t));
        ("abilityCode", json_of_option (PlanTask.abilityCode t));
        ("coreCode", json_of_option (PlanTask.coreCode t))].

Definition slice_json (s : PlanSlice.t) : json :=
  JObj [("id", JStr (PlanSlice.id s)); ("title", JStr (PlanSlice.title s));
        ("tasks", JArr (map task_json (PlanSlice.tasks s)));
        ("dependencies", JArr (map JStr (PlanSlice.dependencies s)))].

Definition milestone_json (m : PlanMilestone.t) : json :=
  JObj [("id", JStr (PlanMilestone.id m)); ("title", JStr (PlanMilestone.title m));
        ("slices", JArr (map slice_json (PlanMilestone.slices m)))].

Definition plan_json (p : PlanInput) : json :=
  JObj [("milestones", JArr (map milestone_json p))].

Definition computeContentHash (p : PlanInput) : string :=
  "plan_" +:+ to_base36 (Z.to_N (Z.abs (content_hash (stringify (plan_json p))))).

(** ** validatePlan *)

(** [!id || !title] *)
Definition unnamed (id title : string) : bool := String.eqb id "" || String.eqb title "".

Definition error_if (b : bool) (code detail : string) : list PlanValidationError :=
  if b then [mkPlanValidationError code detail] else [].

Definition dependency_errors (m : PlanMilestone.t) (s : PlanSlice.t) (depId : string)
    : list PlanValidationError :=
  error_if (negb (existsb (λ s', String.eqb (PlanSlice.id s') depId) (PlanMilestone.slices m)))
    "plan.invalid_dependency" ("Dependency " +:+ depId +:+ " not found in milestone") ++
  error_if (String.eqb depId (PlanSlice.id s)) "plan.self_dependency"
    ("Slice " +:+ PlanSlice.id s +:+ " cannot depend on itself").

Definition task_errors (t : PlanTask.t) : list PlanValidationError :=
  error_if (unnamed (PlanTask.id t) (PlanTask.title t)) "plan.invalid_task"
    ("Task " +:+ PlanTask.id t +:+ " missing id or title").

Definition slice_errors (m : PlanMilestone.t) (s : PlanSlice.t) : list PlanValidationError :=
  error_if (unnamed (PlanSlice.id s) (PlanSlice.title s)) "plan.invalid_slice"
    ("Slice " +:+ PlanSlice.id s +:+ " missing id or title") ++
  concat (map (dependency_errors m s) (PlanSlice.dependencies s)) ++
  concat (map task_errors (PlanSlice.tasks s)).

Definition milestone_errors (m : PlanMilestone.t) : list PlanValidationError :=
  error_if (unnamed (PlanMilestone.id m) (PlanMilestone.title m)) "plan.invalid_milestone"
    ("Milestone " +:+ PlanMilestone.id m +:+ " missing id or title") ++
  concat (map (slice_errors m) (PlanMilestone.slices m)).

Definition normalize_task (i : nat) (t : PlanTask.t) : NormalizedTask.t :=
  NormalizedTask.mk (PlanTask.id t) (PlanTask.title t) (PlanTask.abilityCode t)
    (PlanTask.coreCode t) i.

Definition normalize_slice (i : nat) (s : PlanSlice.t) : NormalizedSlice.t :=
  NormalizedSlice.mk (PlanSlice.id s) (PlanSlice.title s) i
    (imap normalize_task (PlanSlice.tasks s)) (PlanSlice.dependencies s).

Definition normalize_milestone (i : nat) (m : PlanMilestone.t) : NormalizedMilestone.t :=
  NormalizedMilestone.mk (PlanMilestone.id m) (PlanMilestone.title m) i
    (imap normalize_slice (PlanMilestone.slices m)).

Definition validatePlan (input : PlanInput) : result (list PlanValidationError) NormalizedPlan :=
  match input with
  | [] => Err [mkPlanValidationError "plan.no_milestones" "Plan must have at least one milestone"]
  | _ =>
      match concat (map milestone_errors input) with
      | [] => Ok (mkNormalizedPlan (imap normalize_milestone input) (computeContentHash input))
      | errors => Err errors
      end
  end.

(** ** Properties *)

(** What a plan must satisfy. *)
Definition named (id title : string) : Prop := id ≠ "" ∧ title ≠ "".

Definition slice_wf (m : PlanMilestone.t) (s : PlanSlice.t) : Prop :=
  named (PlanSlice.id s) (PlanSlice.title s) ∧
  (∀ dep, dep ∈ PlanSlice.dependencies s →
     dep ≠ PlanSlice.id s ∧ ∃ s', s' ∈ PlanMilestone.slices m ∧ PlanSlice.id s' = dep) ∧
  (∀ t, t ∈ PlanSlice.tasks s → named (PlanTask.id t) (PlanTask.title t)).

Definition plan_wf (p : PlanInput) : Prop :=
  p ≠ [] ∧ ∀ m, m ∈ p →
    named (PlanMilestone.id m) (PlanMilestone.title m) ∧
    ∀ s, s ∈ PlanMilestone.slices m → slice_wf m s.

Lemma error_if_nil b c d : error_if b c d = [] ↔ b = false.
Proof. by destruct b. Qed.

Lemma concat_map_nil {A B} (f : A → list B) l :
  concat (map f l) = [] ↔ ∀ x, x ∈ l → f x = [].
Proof.
  rewrite concat_nil_Forall, List.Forall_map, List.Forall_forall. split.
  - intros Hf x Hx. by apply Hf, list_elem_of_In.
  - intros Hf x Hx. by apply Hf, list_elem_of_In.
Qed.

Lemma unnamed_false id title : unnamed id title = false ↔ named id title.
Proof. unfold unnamed, named. by rewrite orb_false_iff, !String.eqb_neq. Qed.

Lemma dependency_errors_nil m s dep :
  dependency_errors m s dep = [] ↔
  dep ≠ PlanSlice.id s ∧ ∃ s', s' ∈ PlanMilestone.slices m ∧ PlanSlice.id s' = dep.
Proof.
  unfold dependency_errors. rewrite app_nil, !error_if_nil, negb_false_iff, existsb_exists,
    String.eqb_neq. split.
  - intros [(s' & Hs & He%String.eqb_eq) Hd]. split; [done|]. exists s'.
    by rewrite list_elem_of_In.
  - intros [Hd (s' & Hs & He)]. split; [|done]. exists s'.
    rewrite <-list_elem_of_In. split; [done|]. by apply String.eqb_eq.
Qed.

Lemma slice_errors_nil m s : slice_errors m s = [] ↔ slice_wf m s.
Proof.
  unfold slice_errors, slice_wf, task_errors.
  rewrite !app_nil, error_if_nil, unnamed_false, !concat_map_nil.
  setoid_rewrite dependency_errors_nil. setoid_rewrite error_if_nil.
  setoid_rewrite unnamed_false. done.
Qed.

Lemma milestone_errors_nil m :
  milestone_errors m = [] ↔
  named (PlanMilestone.id m) (PlanMilestone.title m) ∧
  ∀ s, s ∈ PlanMilestone.slices m → slice_wf m s.
Proof.
  unfold milestone_errors. rewrite app_nil, error_if_nil, unnamed_false, concat_map_nil.
  by setoid_rewrite slice_errors_nil.
Qed.

(** validatePlan accepts a plan exactly when it has a milestone, all milestones, slices and
    tasks have an id and a title, and the dependencies of every slice name other slices of its
    milestone. *)
Theorem validatePlan_accepts_iff p :
  (∃ plan, validatePlan p = Ok plan) ↔ plan_wf p.
Proof.
  unfold validatePlan, plan_wf. destruct p as [|m p]; [naive_solver|].
  assert (concat (map milestone_errors (m :: p)) = [] ↔
    ∀ x, x ∈ m :: p → named (PlanMilestone.id x) (PlanMilestone.title x) ∧
      ∀ s, s ∈ PlanMilestone.slices x → slice_wf x s) as Hiff.
  { rewrite concat_map_nil. by setoid_rewrite milestone_errors_nil. }
  rewrite <-Hiff. destruct (concat _) as [|e es]; naive_solver.
Qed.

(** Forgetting the sort orders. *)
Definition erase_task (t : NormalizedTask.t) : PlanTask.t :=
  PlanTask.mk (NormalizedTask.id t) (NormalizedTask.title t) (NormalizedTask.abilityCode t)
    (NormalizedTask.coreCode t).

Definition erase_slice (s : NormalizedSlice.t) : PlanSlice.t :=
  PlanSlice.mk (NormalizedSlice.id s) (NormalizedSlice.title s)
    (map erase_task (NormalizedSlice.tasks s)) (NormalizedSlice.dependencies s).

Definition erase_milestone (m : NormalizedMilestone.t) : PlanMilestone.t :=
  PlanMilestone.mk (NormalizedMilestone.id m) (NormalizedMilestone.title m)
    (map erase_slice (NormalizedMilestone.slices m)).

Lemma map_imap_id {A B} (f : nat → A → B) (g : B → A) l :
  (∀ i x, g (f i x) = x) → map g (imap f l) = l.
Proof.
  intros Hfg. revert f Hfg. induction l as [|x l IH]; intros f Hfg; [done|].
  simpl. rewrite Hfg. f_equal. apply IH. intros i y. apply Hfg.
Qed.

Lemma erase_normalize_slice i s : erase_slice (normalize_slice i s) = s.
Proof.
  destruct s as [id title tasks deps]. unfold erase_slice, normalize_slice. simpl.
  rewrite map_imap_id; [done|]. by intros j [].
Qed.

Lemma erase_normalize_milestone i m : erase_milestone (normalize_milestone i m) = m.
Proof.
  destruct m as [id title slices]. unfold erase_milestone, normalize_milestone. simpl.
  rewrite map_imap_id; [done|]. apply erase_normalize_slice.
Qed.

(** An accepted plan is normalized without loss: forgetting the sort orders gives the input
    back, and the sort orders are the positions. *)
Theorem validatePlan_keeps_content p plan :
  validatePlan p = Ok plan →
  map erase_milestone (np_milestones plan) = p ∧
  np_contentHash plan = computeContentHash p ∧
  ∀ i m, np_milestones plan !! i = Some m →
    NormalizedMilestone.sortOrder m = i ∧
    ∀ j s, NormalizedMilestone.slices m !! j = Some s →
      NormalizedSlice.sortOrder s = j ∧
      ∀ k t, NormalizedSlice.tasks s !! k = Some t → NormalizedTask.sortOrder t = k.
Proof.
  intros Hv.
  assert (plan = mkNormalizedPlan (imap normalize_milestone p) (computeContentHash p)) as ->.
  { unfold validatePlan in Hv. destruct p; [done|]. destruct (concat _); [|done]. congruence. }
  cbn [np_milestones np_contentHash].
  split; [apply map_imap_id, erase_normalize_milestone|]. split; [done|].
  intros i m Hm. rewrite list_lookup_imap in Hm. apply fmap_Some in Hm as (m' & _ & ->).
  split; [done|]. intros j s Hs. simpl in Hs. rewrite list_lookup_imap in Hs.
  apply fmap_Some in Hs as (s' & _ & ->). split; [done|]. intros k t Ht. simpl in Ht.
  rewrite list_lookup_imap in Ht. by apply fmap_Some in Ht as (t' & _ & ->).
Qed.

(** *** The content hash *)

(** The polynomial hash over unbounded integers. *)
Definition poly31 (s : string) : Z :=
  fold_left (λ h c, 31 * h + Z.of_N (N_of_ascii c))%Z (String.list_ascii_of_string s) 0%Z.

Lemma to_int32_range z : (- 2 ^ 31 ≤ to_int32 z < 2 ^ 31)%Z.
Proof.
  unfold to_int32. pose proof (Z.mod_pos_bound z (2 ^ 32) ltac:(lia)).
  destruct (Z.ltb_spec (z mod 2 ^ 32) (2 ^ 31)); lia.
Qed.

Lemma to_int32_mod z : (to_int32 z mod 2 ^ 32 = z mod 2 ^ 32)%Z.
Proof.
  unfold to_int32. destruct (Z.ltb_spec (z mod 2 ^ 32) (2 ^ 31)).
  - apply Z.mod_mod. lia.
  - rewrite Zminus_mod, Z.mod_same, Z.sub_0_r, !Z.mod_mod by lia. done.
Qed.

Lemma to_int32_congr a b : (a mod 2 ^ 32 = b mod 2 ^ 32)%Z → to_int32 a = to_int32 b.
Proof. unfold to_int32. by intros ->. Qed.

Lemma to_int32_idem z : to_int32 (to_int32 z) = to_int32 z.
Proof. apply to_int32_congr, to_int32_mod. Qed.

Lemma hash_step_poly h c :
  hash_step (to_int32 h) c = to_int32 (31 * h + Z.of_N (N_of_ascii c)).
Proof.
  unfold hash_step. rewrite Z.land_diag, !to_int32_idem. apply to_int32_congr.
  rewrite Z.shiftl_mul_pow2 by lia.
  set (x := Z.of_N (N_of_ascii c)).
  rewrite <-(Zplus_mod_idemp_l (_ - _)), Zminus_mod, !to_int32_mod.
  rewrite <-(Zmult_mod_idemp_l (to_int32 h)), to_int32_mod, Zmult_mod_idemp_l.
  rewrite <-Zminus_mod, Zplus_mod_idemp_l. f_equal. lia.
Qed.

(** The 32-bit loop of computeContentHash computes the base-31 polynomial of the characters
    modulo 2^32, as a signed 32-bit number. *)
Theorem content_hash_is_polynomial s :
  content_hash s = to_int32 (poly31 s) ∧ (- 2 ^ 31 ≤ content_hash s < 2 ^ 31)%Z.
Proof.
  assert (∀ l h, fold_left hash_step l (to_int32 h) =
    to_int32 (fold_left (λ h c, 31 * h + Z.of_N (N_of_ascii c))%Z l h)) as Hfold.
  { induction l as [|c l IH]; intros h; [done|]. simpl. by rewrite hash_step_poly. }
  assert (content_hash s = to_int32 (poly31 s)) as ->.
  { unfold content_hash, poly31. by rewrite <-(Hfold _ 0%Z). }
  split; [done|]. apply to_int32_range.
Qed.
