(* ===== verification/EventHub.v ===== *)
(** * The event hub

    Models [src/server/application/event-hub.ts] and [detectGap] of
    [src/server/http/v3/sse-envelope.ts].  The hub keeps one bounded queue per
    connection; events of the same entity and topic coalesce.  A callback is a
    function that says whether it threw.  A publish that arrives while the hub
    is dispatching (from inside a callback) only enqueues. *)
From S2P Require Import Prelude Json Contracts.

Module SseEnvelope.
Record t := mk {
  eventId : Z;
  topic : string;
  type : string;
  entityId : string;
  revision : Z;
  payload : json
}.
End SseEnvelope.

Definition envelope_json (e : SseEnvelope.t) : json :=
  JObj [("eventId", JNum (SseEnvelope.eventId e)); ("topic", JStr (SseEnvelope.topic e));
        ("type", JStr (SseEnvelope.type e)); ("entityId", JStr (SseEnvelope.entityId e));
        ("revision", JNum (SseEnvelope.revision e)); ("payload", SseEnvelope.payload e)].

Definition serializedBytes (e : SseEnvelope.t) : Z := Z.of_nat (String.length (stringify (envelope_json e))).

Definition detectGap (currentRevision incomingRevision : Z) : bool :=
  bool_decide (currentRevision + 1 < incomingRevision)%Z.

Record EventHubConfig := mkEventHubConfig { maxQueueSize : nat; maxQueueBytes : Z }.

Module Subscription.
Record t := mk {
  connectionId : string;
  queue : list SseEnvelope.t;
  queuedBytes : Z;
  lastDeliveredEventId : Z
}.
End Subscription.

Record SlowConsumerInfo := mkSlowConsumerInfo {
  sc_lastDeliveredEventId : Z;
  sc_latestEventId : Z
}.

(** The [Map] of subscriptions, in insertion order. *)
Definition hub : Type := list Subscription.t.

Section hub.
Context (config : EventHubConfig).

Definition new_subscription (connectionId : string) : Subscription.t :=
  Subscription.mk connectionId [] 0 0.

(** [Map.set]: an existing key keeps its place. *)
Definition subscribe (connectionId : string) (h : hub) : hub :=
  if existsb (λ s, String.eqb (Subscription.connectionId s) connectionId) h
  then map (λ s, if String.eqb (Subscription.connectionId s) connectionId
                 then new_subscription connectionId else s) h
  else h ++ [new_subscription connectionId].

(** [Map.delete], also the function [subscribe] returns. *)
Definition unsubscribe (connectionId : string) (h : hub) : hub :=
  List.filter (λ s, negb (String.eqb (Subscription.connectionId s) connectionId)) h.

Definition same_subject (e pending : SseEnvelope.t) : bool :=
  String.eqb (SseEnvelope.entityId pending) (SseEnvelope.entityId e) &&
  String.eqb (SseEnvelope.topic pending) (SseEnvelope.topic e).

(** [findIndex] *)
Fixpoint find_index (p : SseEnvelope.t → bool) (q : list SseEnvelope.t) : option nat :=
  match q with
  | [] => None
  | e :: rest => if p e then Some 0 else S <$> find_index p rest
  end.

Definition overflows (s : Subscription.t) : bool :=
  bool_decide (maxQueueSize config < length (Subscription.queue s)) ||
  bool_decide (maxQueueBytes config < Subscription.queuedBytes s)%Z.

(** The queue update of [enqueue]; [false] is its early return. *)
Definition push (s : Subscription.t) (e : SseEnvelope.t) : bool * Subscription.t :=
  match find_index (same_subject e) (Subscription.queue s) with
  | Some i =>
      match Subscription.queue s !! i with
      | Some existing =>
          if bool_decide (SseEnvelope.revision e ≤ SseEnvelope.revision existing)%Z
          then (false, s)
          else (true, Subscription.mk (Subscription.connectionId s)
                        (<[i := e]> (Subscription.queue s))
                        (Subscription.queuedBytes s - serializedBytes existing +
                         serializedBytes e)
                        (Subscription.lastDeliveredEventId s))
      | None => (false, s)
      end
  | None =>
      (true, Subscription.mk (Subscription.connectionId s) (Subscription.queue s ++ [e])
               (Subscription.queuedBytes s + serializedBytes e)
               (Subscription.lastDeliveredEventId s))
  end.

(** [enqueue]: the subscription if it stays, or the notice sent to the slow
    consumer that is dropped. *)
Definition enqueue (s : Subscription.t) (e : SseEnvelope.t) : Subscription.t + SlowConsumerInfo :=
  match push s e with
  | (false, s') => inl s'
  | (true, s') =>
      if overflows s'
      then inr (mkSlowConsumerInfo (Subscription.lastDeliveredEventId s') (SseEnvelope.eventId e))
      else inl s'
  end.

(** The [for] loop of [publish]. *)
Fixpoint enqueue_all (h : hub) (e : SseEnvelope.t)
    : hub * list (string * SlowConsumerInfo) :=
  match h with
  | [] => ([], [])
  | s :: rest =>
      let '(rest', notices) := enqueue_all rest e in
      match enqueue s e with
      | inl s' => (s' :: rest', notices)
      | inr info => (rest', (Subscription.connectionId s, info) :: notices)
      end
  end.

(** [queue.shift()] with its bookkeeping. *)
Definition shift (s : Subscription.t) : option (SseEnvelope.t * Subscription.t) :=
  match Subscription.queue s with
  | [] => None
  | e :: rest =>
      Some (e, Subscription.mk (Subscription.connectionId s) rest
                 (Subscription.queuedBytes s - serializedBytes e) (SseEnvelope.eventId e))
  end.

Context (callback : string → SseEnvelope.t → bool).

(** One pass of the inner loop of [dispatch]: the deliveries and the
    subscriptions that remain. *)
Fixpoint deliver_round (h : hub) : list (string * SseEnvelope.t) * hub :=
  match h with
  | [] => ([], [])
  | s :: rest =>
      let '(log, rest') := deliver_round rest in
      match shift s with
      | None => (log, s :: rest')
      | Some (e, s') =>
          ((Subscription.connectionId s, e) :: log,
           if callback (Subscription.connectionId s) e then s' :: rest' else rest')
      end
  end.

(** [dispatch]; [None]: out of fuel. *)
Fixpoint dispatch (fuel : nat) (h : hub) : option (list (string * SseEnvelope.t) * hub) :=
  match fuel with
  | O => None
  | S fuel' =>
      match deliver_round h with
      | ([], h') => Some ([], h')
      | (log, h') =>
          match dispatch fuel' h' with
          | Some (log', h'') => Some (log ++ log', h'')
          | None => None
          end
      end
  end.

Definition getSubscriberCount (h : hub) : nat := length h.
Definition getQueueSize (h : hub) : nat :=
  fold_right (λ s n, length (Subscription.queue s) + n) 0 h.

(** [publish] outside a dispatch. *)
Definition publish (h : hub) (e : SseEnvelope.t)
    : option (list (string * SseEnvelope.t) * hub) * list (string * SlowConsumerInfo) :=
  let '(h', notices) := enqueue_all h e in
  (dispatch (S (getQueueSize h')) h', notices).

(** ** The queue invariant *)

Definition total_bytes (q : list SseEnvelope.t) : Z :=
  fold_right (λ e n, (serializedBytes e + n)%Z) 0%Z q.

Definition subject (e : SseEnvelope.t) : string * string :=
  (SseEnvelope.entityId e, SseEnvelope.topic e).

Record sub_ok (s : Subscription.t) : Prop := mkSubOk {
  ok_bytes : Subscription.queuedBytes s = total_bytes (Subscription.queue s);
  ok_coalesced : NoDup (map subject (Subscription.queue s));
  ok_size : length (Subscription.queue s) ≤ maxQueueSize config;
  ok_limit : (Subscription.queuedBytes s ≤ Z.max 0 (maxQueueBytes config))%Z
}.

Lemma total_bytes_app q q' : total_bytes (q ++ q') = (total_bytes q + total_bytes q')%Z.
Proof. unfold total_bytes. induction q; simpl; lia. Qed.

Lemma same_subject_iff e p : same_subject e p = true ↔ subject p = subject e.
Proof.
  unfold same_subject, subject. rewrite andb_true_iff, !String.eqb_eq. split.
  - by intros [-> ->].
  - by intros [= ? ?].
Qed.

Lemma find_index_some p q i :
  find_index p q = Some i → ∃ q1 e q2, q = q1 ++ e :: q2 ∧ length q1 = i ∧ p e = true.
Proof.
  revert i. induction q as [|e q IH]; intros i Hi; simpl in Hi; [done|].
  destruct (p e) eqn:Hp.
  - injection Hi as <-. by exists [], e, q.
  - apply fmap_Some in Hi as (j & Hj & ->). destruct (IH j Hj) as (q1 & e' & q2 & -> & <- & Hp').
    by exists (e :: q1), e', q2.
Qed.

Lemma find_index_none p q e : find_index p q = None → e ∈ q → p e = false.
Proof.
  induction q as [|e' q IH]; simpl; intros Hf He; [set_solver|].
  destruct (p e') eqn:Hp; [done|]. apply elem_of_cons in He as [->|He]; [done|].
  apply IH; [|done]. by destruct (find_index p q).
Qed.

(** [push] keeps the bookkeeping exact and the pending subjects distinct. *)
Lemma push_ok s e b s' :
  push s e = (b, s') →
  Subscription.queuedBytes s = total_bytes (Subscription.queue s) →
  NoDup (map subject (Subscription.queue s)) →
  Subscription.queuedBytes s' = total_bytes (Subscription.queue s') ∧
  NoDup (map subject (Subscription.queue s')).
Proof.
  unfold push. intros Hp Hb Hn.
  destruct (find_index _ _) as [i|] eqn:Hf.
  - destruct (find_index_some _ _ _ Hf) as (q1 & x & q2 & Hq & <- & Hx).
    rewrite Hq, list_lookup_middle in Hp by done.
    case_bool_decide; simplify_eq; [done|]. simpl. rewrite insert_app_r_alt by lia.
    rewrite Nat.sub_diag. simpl. rewrite Hb, Hq, !total_bytes_app. simpl. split; [lia|].
    rewrite Hq, map_app in Hn. rewrite map_app. simpl in *.
    apply same_subject_iff in Hx. by rewrite <-Hx.
  - simplify_eq. simpl. rewrite total_bytes_app, Hb. simpl. split; [lia|].
    rewrite map_app, list.NoDup_app. split_and!; [done| |apply NoDup_singleton].
    intros k Hk Hke. apply list_elem_of_singleton in Hke as ->.
    apply list_elem_of_In, in_map_iff in Hk as (x & Hs & Hin%list_elem_of_In).
    apply same_subject_iff in Hs. by rewrite (find_index_none _ _ _ Hf Hin) in Hs.
Qed.

Lemma enqueue_ok s e s' : sub_ok s → enqueue s e = inl s' → sub_ok s'.
Proof.
  intros [Hb Hn Hs Hl] He. unfold enqueue in He. destruct (push s e) as [b s1] eqn:Hp.
  destruct (push_ok _ _ _ _ Hp Hb Hn) as [Hb1 Hn1]. destruct b.
  - unfold overflows in He. repeat case_bool_decide; simplify_eq/=. split; try done; lia.
  - simplify_eq. unfold push in Hp. repeat case_match; simplify_eq; by split.
Qed.

Lemma shift_ok s e s' : sub_ok s → shift s = Some (e, s') → sub_ok s'.
Proof.
  intros [Hb Hn Hs Hl] He. unfold shift in He. destruct (Subscription.queue s) eqn:Hq; [done|].
  simplify_eq/=. apply list.NoDup_cons in Hn as [_ Hn].
  assert (0 ≤ serializedBytes e)%Z by (unfold serializedBytes; lia).
  split; simpl; [lia|done|lia|lia].
Qed.

(** ** The hub as a transition system *)

Inductive hub_step : hub → hub → Prop :=
| step_subscribe id h : hub_step h (subscribe id h)
| step_unsubscribe id h : hub_step h (unsubscribe id h)
| step_enqueue e h : hub_step h (enqueue_all h e).1
| step_deliver h : hub_step h (deliver_round h).2.

Lemma new_subscription_ok id : sub_ok (new_subscription id).
Proof. split; simpl; [done|constructor|lia|lia]. Qed.

Lemma enqueue_all_ok h e : Forall sub_ok h → Forall sub_ok (enqueue_all h e).1.
Proof.
  induction h as [|s h IH]; simpl; [done|]. intros [Hs Hh]%Forall_cons_iff.
  specialize (IH Hh). destruct (enqueue_all h e) as [h' notices]. simpl in IH.
  destruct (enqueue s e) eqn:He; simpl; [|done]. constructor; [by eapply enqueue_ok|done].
Qed.

Lemma deliver_round_ok h : Forall sub_ok h → Forall sub_ok (deliver_round h).2.
Proof.
  induction h as [|s h IH]; simpl; [done|]. intros [Hs Hh]%Forall_cons_iff.
  specialize (IH Hh). destruct (deliver_round h) as [log h']. simpl in IH.
  destruct (shift s) as [[e s']|] eqn:He; simpl; [|by constructor].
  case_match; [constructor; [by eapply shift_ok|done]|done].
Qed.

Lemma hub_step_ok h h' : hub_step h h' → Forall sub_ok h → Forall sub_ok h'.
Proof.
  destruct 1; intros Hh.
  - unfold subscribe. case_match.
    + apply List.Forall_map, List.Forall_forall. intros s Hs. case_match;
        [apply new_subscription_ok|].
      rewrite List.Forall_forall in Hh. by apply Hh.
    + apply Forall_app. split; [done|]. constructor; [apply new_subscription_ok|constructor].
  - apply List.Forall_forall. intros s [Hs _]%filter_In.
    rewrite List.Forall_forall in Hh. by apply Hh.
  - by apply enqueue_all_ok.
  - by apply deliver_round_ok.
Qed.

(** In every reachable state of the event hub each connection has a byte counter that is
    the size of its queue, one queued event per entity and topic, and a queue within the
    configured limits. *)
Theorem hub_queues_bounded h : rtc hub_step [] h → Forall sub_ok h.
Proof.
  intros Hr. assert (Forall sub_ok []) as H0 by constructor. revert H0.
  induction Hr as [|h1 h2 h3 Hs _ IH]; [done|]. intros H1. by apply IH, (hub_step_ok h1).
Qed.

(** ** Dispatch *)

Lemma getQueueSize_cons s h :
  getQueueSize (s :: h) = length (Subscription.queue s) + getQueueSize h.
Proof. done. Qed.

Lemma deliver_round_shrinks h log h' :
  deliver_round h = (log, h') → length log + getQueueSize h' ≤ getQueueSize h.
Proof.
  revert log h'. induction h as [|s h IH]; intros log h' Hd; simpl in Hd; [by simplify_eq|].
  destruct (deliver_round h) as [log1 h1]. specialize (IH _ _ eq_refl).
  unfold shift in Hd. destruct (Subscription.queue s) as [|e q] eqn:Hq.
  - simplify_eq. rewrite !getQueueSize_cons. lia.
  - case_match; simplify_eq; rewrite !getQueueSize_cons, ?Hq; simpl; lia.
Qed.

Lemma deliver_round_idle h h' : deliver_round h = ([], h') → getQueueSize h' = 0.
Proof.
  revert h'. induction h as [|s h IH]; intros h' Hd; simpl in Hd; [by simplify_eq|].
  destruct (deliver_round h) as [log1 h1]. unfold shift in Hd.
  destruct (Subscription.queue s) as [|e q] eqn:Hq; simplify_eq.
  rewrite getQueueSize_cons, Hq. by apply IH.
Qed.

Lemma dispatch_total fuel h :
  getQueueSize h < fuel → ∃ log h', dispatch fuel h = Some (log, h') ∧ getQueueSize h' = 0.
Proof.
  revert h. induction fuel as [|fuel IH]; intros h Hf; [lia|]. simpl.
  destruct (deliver_round h) as [log h'] eqn:Hd. destruct log as [|x log].
  - exists [], h'. split; [done|]. by eapply deliver_round_idle.
  - apply deliver_round_shrinks in Hd. simpl in Hd.
    destruct (IH h') as (log' & h'' & -> & Hq); [lia|]. eauto.
Qed.

(** Publishing an event ends and leaves every queue empty, also when callbacks throw. *)
Theorem publish_drains h e :
  ∃ log h', (publish h e).1 = Some (log, h') ∧ getQueueSize h' = 0.
Proof.
  unfold publish. destruct (enqueue_all h e) as [h1 notices].
  apply (dispatch_total (S (getQueueSize h1))). lia.
Qed.

(** [push] leaves the subject with a revision at least as new, and the other
    subjects alone. *)
Lemma push_latest s e b s' :
  push s e = (b, s') →
  (∃ x, x ∈ Subscription.queue s' ∧ subject x = subject e ∧
        (SseEnvelope.revision e ≤ SseEnvelope.revision x)%Z) ∧
  (∀ x, subject x ≠ subject e → (x ∈ Subscription.queue s' ↔ x ∈ Subscription.queue s)).
Proof.
  unfold push. intros Hp. destruct (find_index _ _) as [i|] eqn:Hf.
  - destruct (find_index_some _ _ _ Hf) as (q1 & y & q2 & Hq & <- & Hy).
    apply same_subject_iff in Hy. rewrite Hq, list_lookup_middle in Hp by done.
    case_bool_decide; injection Hp as <- <-; cbn [Subscription.queue]; rewrite Hq.
    + split; [|done]. exists y. split_and!; [set_solver|done|lia].
    + rewrite insert_app_r_alt, Nat.sub_diag by lia. simpl. split.
      * exists e. split_and!; [set_solver|done|lia].
      * intros x Hx. rewrite !elem_of_app, !elem_of_cons.
        assert (x ≠ e) by congruence. assert (x ≠ y) by congruence. naive_solver.
  - simplify_eq/=. split.
    + exists e. split_and!; [set_solver|done|lia].
    + intros x Hx. rewrite elem_of_app, list_elem_of_singleton.
      assert (x ≠ e) by congruence. naive_solver.
Qed.

(** Enqueueing an event on a connection that stays leaves an event of the same entity and
    topic queued with a revision at least as new, and exactly the same events of the other
    subjects. *)
Theorem enqueue_keeps_latest s e s' :
  enqueue s e = inl s' →
  (∃ x, x ∈ Subscription.queue s' ∧ subject x = subject e ∧
        (SseEnvelope.revision e ≤ SseEnvelope.revision x)%Z) ∧
  (∀ x, subject x ≠ subject e → (x ∈ Subscription.queue s' ↔ x ∈ Subscription.queue s)).
Proof.
  unfold enqueue. intros He. destruct (push s e) as [b s1] eqn:Hp.
  apply (push_latest s e b). rewrite Hp. f_equal. repeat case_match; by simplify_eq.
Qed.
End hub.
