(* ===== verification/Store.v ===== *)
(** * The control-plane database

    Models the tables of [src/server/infra/sqlite/control-plane/schema.ts] with
    the row types of [db-types.ts], and their constraints as created by
    [src/server/db/migrations/027_control_plane_schema.ts] and
    [028_control_plane_corrective_schema.ts].  A table with a primary key is a
    finite map from the key to the row; the outbox, whose key is an
    auto-incremented integer, is the list of its rows in key order together
    with the sequence number.  A [CHECK (column IN (...))] is the type of the
    column, and timestamps are natural numbers ([CHECK (... >= 0)]). *)
From S2P Require Import Prelude Json Contracts JobDomain TaskDomain.

(** ** Column types *)

Module AttemptState.
Inductive t : Set := pending | starting | running | completed | failed | interrupted.

#[global] Instance t_eq_dec : EqDecision t.
Proof. solve_decision. Defined.
End AttemptState.

Module RuntimeState.
Inductive t : Set := starting | active | stopping | closed.

#[global] Instance t_eq_dec : EqDecision t.
Proof. solve_decision. Defined.
End RuntimeState.

Module VerificationState.
Inductive t : Set := running | passed | rejected | interrupted | superseded.

#[global] Instance t_eq_dec : EqDecision t.
Proof. solve_decision. Defined.

Definition to_string (s : t) : string :=
  match s with
  | running => "running" | passed => "passed" | rejected => "rejected"
  | interrupted => "interrupted" | superseded => "superseded"
  end.
End VerificationState.

Module SlotState.
Inductive t : Set := active | released.

#[global] Instance t_eq_dec : EqDecision t.
Proof. solve_decision. Defined.
End SlotState.

(** ** Rows *)

(** The columns of the application tables [projects] and [threads] the control plane reads. *)
Module ProjectRow.
Record t := mk {
  id : string;
  username : string
}.
End ProjectRow.

Module ThreadRow.
Record t := mk {
  id : string;
  projectId : string;
  username : string
}.
End ThreadRow.

Module ControlJobRow.
Record t := mk {
  id : string;
  threadId : string;
  projectId : string;
  draftMessageId : string;
  state : JobState.t;
  stateRevision : Z;
  controlIntent : ControlIntent.t;
  resumeTarget : option ResumeTarget.t;
  currentPlanRevision : option Z;
  executionGeneration : Z;
  activeRunId : option string;
  lastFailureId : option string;
  title : string;
  requirementsSummary : string;
  createdAtMs : N;
  updatedAtMs : N;
  terminalAtMs : option N
}.
End ControlJobRow.

Module ControlJobRunRow.
Record t := mk {
  id : string;
  jobId : string;
  kind : RunKind.t;
  state : RunState.t;
  attemptNo : Z;
  fenceToken : string;
  executionGeneration : Z;
  leaseOwnerBootId : option string;
  currentRuntimeInstanceId : option string;
  heartbeatAtMs : option N;
  stopReason : option string;
  startedAtMs : N;
  endedAtMs : option N
}.
End ControlJobRunRow.

Module ControlRuntimeInstanceRow.
Record t := mk {
  id : string;
  runId : string;
  taskAttemptId : option string;
  state : RuntimeState.t;
  ownerBootId : string;
  provider : option string;
  protocolState : option string;
  pidOrHandleRef : option string;
  startedAtMs : N;
  closedAtMs : option N;
  exitKind : option ExitKind.t;
  exitCode : option Z;
  signal : option string
}.
End ControlRuntimeInstanceRow.

Module ControlJobTaskRow.
Record t := mk {
  jobId : string;
  executionGeneration : Z;
  taskId : string;
  sourcePlanRevision : Z;
  state : TaskState.t;
  sortOrder : Z;
  originKind : option string;
  parentTaskId : option string;
  title : string;
  abilityCode : option string;
  coreCode : option string;
  createdAtMs : N;
  updatedAtMs : N
}.
End ControlJobTaskRow.

(** [mustPauseAtCommit] is the column restricted to 0, 1 and NULL, read as [mapAttemptRow] does. *)
Module ControlTaskAttemptRow.
Record t := mk {
  id : string;
  jobId : string;
  executionGeneration : Z;
  taskId : string;
  attemptNo : Z;
  runId : string;
  state : AttemptState.t;
  provider : option string;
  evidenceBlobHash : option string;
  failureId : option string;
  startedAtMs : N;
  endedAtMs : option N;
  resultHash : option string;
  resultRevision : Z;
  mustPauseAtCommit : option bool
}.
End ControlTaskAttemptRow.

Module ControlVerificationRow.
Record t := mk {
  id : string;
  jobId : string;
  executionGeneration : Z;
  planRevision : Z;
  scopeType : ScopeType.t;
  scopeId : string;
  attemptNo : Z;
  state : VerificationState.t;
  runId : option string;
  fenceToken : option string;
  verdictBlobHash : option string;
  resultHash : option string;
  resultRevision : option Z;
  failureId : option string;
  startedAtMs : N;
  endedAtMs : option N
}.
End ControlVerificationRow.

Module ControlPlanSliceRow.
Record t := mk {
  id : string;
  jobId : string;
  planRevision : Z;
  milestoneId : string;
  sliceId : string;
  title : string;
  sortOrder : Z;
  createdAtMs : N
}.
End ControlPlanSliceRow.

Module ControlResourceSlotRow.
Record t := mk {
  id : string;
  jobId : string;
  runId : string;
  pool : string;
  state : SlotState.t;
  createdAtMs : N;
  releasedAtMs : option N
}.
End ControlResourceSlotRow.

Module ControlOutboxEventRow.
Record t := mk {
  eventId : Z;
  topic : string;
  eventType : string;
  entityId : string;
  aggregateRevision : Z;
  payloadJson : string;
  payloadBytes : N;
  createdAtMs : N;
  dispatchedAtMs : option N
}.
End ControlOutboxEventRow.

(** [responseJson] is the document: the column holds its text, which [JSON.parse] reads back. *)
Module ControlCommandDedupRow.
Record t := mk {
  actorUsername : string;
  idempotencyKey : string;
  commandType : string;
  requestHash : string;
  responseJson : json;
  responseRevision : Z;
  createdAtMs : N;
  expiresAtMs : N
}.
End ControlCommandDedupRow.

Module ControlJobFailureRow.
Record t := mk {
  id : string;
  jobId : string;
  code : string;
  recoverability : Recoverability.t;
  reason : option string;
  runKind : option RunKind.t;
  createdAtMs : N
}.
End ControlJobFailureRow.

Module ControlEvidenceBlobRow.
Record t := mk {
  hash : string;
  contentJson : string;
  bytes : N;
  createdAtMs : N
}.
End ControlEvidenceBlobRow.

(** ** The database *)

Record db := mkDb {
  projects : gmap string ProjectRow.t;
  threads : gmap string ThreadRow.t;
  jobs : gmap string ControlJobRow.t;
  runs : gmap string ControlJobRunRow.t;
  runtimes : gmap string ControlRuntimeInstanceRow.t;
  tasks : gmap (string * Z * string) ControlJobTaskRow.t;
  attempts : gmap string ControlTaskAttemptRow.t;
  verifications : gmap string ControlVerificationRow.t;
  planRevisions : gset (string * Z);
  planSlices : gmap string ControlPlanSliceRow.t;
  slots : gmap string ControlResourceSlotRow.t;
  outbox : list ControlOutboxEventRow.t;
  outboxSeq : Z;
  dedup : gmap (string * string * string) ControlCommandDedupRow.t;
  failures : gmap string ControlJobFailureRow.t;
  evidence : gmap string ControlEvidenceBlobRow.t
}.

Definition upd_jobs (f : gmap string ControlJobRow.t → gmap string ControlJobRow.t) (d : db) : db :=
  mkDb (projects d) (threads d) (f (jobs d)) (runs d) (runtimes d) (tasks d) (attempts d)
    (verifications d) (planRevisions d) (planSlices d) (slots d) (outbox d) (outboxSeq d)
    (dedup d) (failures d) (evidence d).

Definition upd_runs (f : gmap string ControlJobRunRow.t → gmap string ControlJobRunRow.t) (d : db) : db :=
  mkDb (projects d) (threads d) (jobs d) (f (runs d)) (runtimes d) (tasks d) (attempts d)
    (verifications d) (planRevisions d) (planSlices d) (slots d) (outbox d) (outboxSeq d)
    (dedup d) (failures d) (evidence d).

Definition upd_runtimes (f : gmap string ControlRuntimeInstanceRow.t → gmap string ControlRuntimeInstanceRow.t) (d : db) : db :=
  mkDb (projects d) (threads d) (jobs d) (runs d) (f (runtimes d)) (tasks d) (attempts d)
    (verifications d) (planRevisions d) (planSlices d) (slots d) (outbox d) (outboxSeq d)
    (dedup d) (failures d) (evidence d).

Definition upd_tasks (f : gmap (string * Z * string) ControlJobTaskRow.t → gmap (string * Z * string) ControlJobTaskRow.t) (d : db) : db :=
  mkDb (projects d) (threads d) (jobs d) (runs d) (runtimes d) (f (tasks d)) (attempts d)
    (verifications d) (planRevisions d) (planSlices d) (slots d) (outbox d) (outboxSeq d)
    (dedup d) (failures d) (evidence d).

Definition upd_attempts (f : gmap string ControlTaskAttemptRow.t → gmap string ControlTaskAttemptRow.t) (d : db) : db :=
  mkDb (projects d) (threads d) (jobs d) (runs d) (runtimes d) (tasks d) (f (attempts d))
    (verifications d) (planRevisions d) (planSlices d) (slots d) (outbox d) (outboxSeq d)
    (dedup d) (failures d) (evidence d).

Definition upd_verifications (f : gmap string ControlVerificationRow.t → gmap string ControlVerificationRow.t) (d : db) : db :=
  mkDb (projects d) (threads d) (jobs d) (runs d) (runtimes d) (tasks d) (attempts d) (f
    (verifications d)) (planRevisions d) (planSlices d) (slots d) (outbox d) (outboxSeq d)
    (dedup d) (failures d) (evidence d).

Definition upd_slots (f : gmap string ControlResourceSlotRow.t → gmap string ControlResourceSlotRow.t) (d : db) : db :=
  mkDb (projects d) (threads d) (jobs d) (runs d) (runtimes d) (tasks d) (attempts d)
    (verifications d) (planRevisions d) (planSlices d) (f (slots d)) (outbox d) (outboxSeq d)
    (dedup d) (failures d) (evidence d).

Definition upd_outbox (f : list ControlOutboxEventRow.t → list ControlOutboxEventRow.t) (seq : Z) (d : db) : db :=
  mkDb (projects d) (threads d) (jobs d) (runs d) (runtimes d) (tasks d) (attempts d)
    (verifications d) (planRevisions d) (planSlices d) (slots d) (f (outbox d)) seq (dedup d)
    (failures d) (evidence d).

Definition upd_dedup (f : gmap (string * string * string) ControlCommandDedupRow.t → gmap (string * string * string) ControlCommandDedupRow.t) (d : db) : db :=
  mkDb (projects d) (threads d) (jobs d) (runs d) (runtimes d) (tasks d) (attempts d)
    (verifications d) (planRevisions d) (planSlices d) (slots d) (outbox d) (outboxSeq d) (f
    (dedup d)) (failures d) (evidence d).

Definition upd_failures (f : gmap string ControlJobFailureRow.t → gmap string ControlJobFailureRow.t) (d : db) : db :=
  mkDb (projects d) (threads d) (jobs d) (runs d) (runtimes d) (tasks d) (attempts d)
    (verifications d) (planRevisions d) (planSlices d) (slots d) (outbox d) (outboxSeq d)
    (dedup d) (f (failures d)) (evidence d).

Definition upd_evidence (f : gmap string ControlEvidenceBlobRow.t → gmap string ControlEvidenceBlobRow.t) (d : db) : db :=
  mkDb (projects d) (threads d) (jobs d) (runs d) (runtimes d) (tasks d) (attempts d)
    (verifications d) (planRevisions d) (planSlices d) (slots d) (outbox d) (outboxSeq d)
    (dedup d) (failures d) (f (evidence d)).

Definition tx (A : Type) : Type := txM db error A.
