(* ===== verification/JobRepo.v ===== *)
(** * Job, run, slot, runtime-instance, outbox and dedup repositories

    Models [src/server/infra/sqlite/control-plane/{parsers,job-repository,
    sqlite-run-repository,sqlite-slot-repository,sqlite-runtime-repository,
    sqlite-outbox-repository,sqlite-dedup-repository}.ts].  A read is a function
    of the database; a write is a [tx] computation that throws [SqliteError]
    when a UNIQUE or FOREIGN KEY constraint of the schema refuses the row. *)
From S2P Require Import Prelude Json Contracts JobDomain TaskDomain Store.
Local Open Scope tx_scope.

Definition unique_failed : error := SqliteError "UNIQUE constraint failed".
Definition foreign_key_failed : error := SqliteError "FOREIGN KEY constraint failed".

Definition map_values {K V} `{Countable K} (m : gmap K V) : list V := (map_to_list m).*2.

(** [SELECT ... WHERE p] returns some row: the query's [get() !== undefined]. *)
Definition any_row {K V} `{Countable K} (p : V → bool) (m : gmap K V) : bool :=
  existsb p (map_values m).

(** ** parsers.ts *)

Definition parseJobState (value : string) : result error JobState.t :=
  match of_lit value with
  | Some s => Ok s
  | None => Err (PlainError ("Invalid job state: " +:+ value))
  end.

Definition parseControlIntent (value : string) : result error ControlIntent.t :=
  match of_lit value with
  | Some s => Ok s
  | None => Err (PlainError ("Invalid control intent: " +:+ value))
  end.

Definition parseResumeTarget (value : string) : result error ResumeTarget.t :=
  match of_lit value with
  | Some s => Ok s
  | None => Err (PlainError ("Invalid resume target: " +:+ value))
  end.

(** ** Row mapping of job-repository.ts *)

(** [toAggregate] on a row whose text columns passed the parsers. *)
Definition toAggregate (row : ControlJobRow.t) : JobAggregate.t :=
  JobAggregate.mk
    (ControlJobRow.id row) (ControlJobRow.threadId row) (ControlJobRow.projectId row)
    (ControlJobRow.state row) (ControlJobRow.stateRevision row)
    (ControlJobRow.controlIntent row) (ControlJobRow.resumeTarget row)
    (ControlJobRow.currentPlanRevision row) (ControlJobRow.executionGeneration row)
    (ControlJobRow.activeRunId row) (ControlJobRow.lastFailureId row).

(** [ownerVisibilityPredicate]: the job's thread exists, belongs to the job's
    project, and that project belongs to the actor. *)
Definition ownerVisibilityPredicate (actor : ActorContext.t) (d : db) (row : ControlJobRow.t)
    : bool :=
  match threads d !! ControlJobRow.threadId row with
  | None => false
  | Some thread =>
      match projects d !! ThreadRow.projectId thread with
      | None => false
      | Some project =>
          bool_decide (ThreadRow.projectId thread = ControlJobRow.projectId row) &&
          bool_decide (ProjectRow.username project = ActorContext.username actor)
      end
  end.

(** ** Run repository *)

Record CreateRunInput := mkCreateRunInput {
  cr_id : string;
  cr_jobId : string;
  cr_kind : RunKind.t;
  cr_fenceToken : string;
  cr_executionGeneration : Z;
  cr_startedAtMs : N
}.

Definition createRun (input : CreateRunInput) : tx unit :=
  let* d := tx_gets id in
  if bool_decide (is_Some (runs d !! cr_id input)) ||
     any_row (λ r, bool_decide (ControlJobRunRow.jobId r = cr_jobId input ∧
                                ControlJobRunRow.fenceToken r = cr_fenceToken input)) (runs d)
  then tx_throw unique_failed
  else if bool_decide (jobs d !! cr_jobId input = None) then tx_throw foreign_key_failed
  else tx_modify (upd_runs (<[cr_id input :=
    ControlJobRunRow.mk (cr_id input) (cr_jobId input) (cr_kind input) RunState.starting 1
      (cr_fenceToken input) (cr_executionGeneration input) None None None None
      (cr_startedAtMs input) None]>)).

Definition run_summary (r : ControlJobRunRow.t) : ActiveRunSummary.t :=
  ActiveRunSummary.mk (ControlJobRunRow.id r) (ControlJobRunRow.state r)
    (ControlJobRunRow.fenceToken r) (ControlJobRunRow.executionGeneration r)
    (ControlJobRunRow.currentRuntimeInstanceId r).

Definition getActiveRunSummary (runId : string) (d : db) : option ActiveRunSummary.t :=
  run_summary <$> (runs d !! runId).

Definition run_ended (s : RunState.t) : bool :=
  match s with
  | RunState.paused | RunState.cancelled | RunState.failed | RunState.succeeded
  | RunState.interrupted => true
  | _ => false
  end.

Definition set_run_state (s : RunState.t) (stopReason : option string) (now : N)
    (r : ControlJobRunRow.t) : ControlJobRunRow.t :=
  ControlJobRunRow.mk (ControlJobRunRow.id r) (ControlJobRunRow.jobId r)
    (ControlJobRunRow.kind r) s (ControlJobRunRow.attemptNo r) (ControlJobRunRow.fenceToken r)
    (ControlJobRunRow.executionGeneration r) (ControlJobRunRow.leaseOwnerBootId r)
    (ControlJobRunRow.currentRuntimeInstanceId r) (ControlJobRunRow.heartbeatAtMs r)
    stopReason (ControlJobRunRow.startedAtMs r) (if run_ended s then Some now else None).

Definition markRunState (runId : string) (s : RunState.t) (stopReason : option string) (now : N)
    : tx unit :=
  tx_modify (upd_runs (alter (set_run_state s stopReason now) runId)).

Definition set_run_active (runtimeInstanceId : string) (now : N) (r : ControlJobRunRow.t)
    : ControlJobRunRow.t :=
  ControlJobRunRow.mk (ControlJobRunRow.id r) (ControlJobRunRow.jobId r)
    (ControlJobRunRow.kind r) RunState.active (ControlJobRunRow.attemptNo r)
    (ControlJobRunRow.fenceToken r) (ControlJobRunRow.executionGeneration r)
    (ControlJobRunRow.leaseOwnerBootId r) (Some runtimeInstanceId) (Some now)
    (ControlJobRunRow.stopReason r) (ControlJobRunRow.startedAtMs r)
    (ControlJobRunRow.endedAtMs r).

Definition markRunActive (runId runtimeInstanceId : string) (now : N) : tx unit :=
  tx_modify (upd_runs (alter (set_run_active runtimeInstanceId now) runId)).

(** ** Job repository: reads *)

Definition getOwnedAggregate (actor : ActorContext.t) (jobId : string) (d : db)
    : option JobAggregate.t :=
  match jobs d !! jobId with
  | Some row => if ownerVisibilityPredicate actor d row then Some (toAggregate row) else None
  | None => None
  end.

Definition getAggregate (jobId : string) (d : db) : option JobAggregate.t :=
  toAggregate <$> (jobs d !! jobId).

(** The inner join of the job with the run named by the worker. *)
Definition getWorkerAggregate (jobId runId fenceToken : string) (executionGeneration : Z) (d : db)
    : option JobAggregate.t :=
  match jobs d !! jobId, runs d !! runId with
  | Some row, Some run =>
      if bool_decide (ControlJobRunRow.jobId run = jobId) &&
         bool_decide (ControlJobRunRow.fenceToken run = fenceToken) &&
         bool_decide (ControlJobRunRow.executionGeneration run = executionGeneration)
      then Some (toAggregate row) else None
  | _, _ => None
  end.

Definition getJobsForReconciliation (d : db) : list JobAggregate.t :=
  toAggregate <$>
    List.filter (λ r, negb (isTerminal (ControlJobRow.state r)) ||
                      bool_decide (is_Some (ControlJobRow.activeRunId r)))
      (map_values (jobs d)).

Definition created_le (a b : ControlJobRow.t) : Prop :=
  (ControlJobRow.createdAtMs a ≤ ControlJobRow.createdAtMs b)%N.

#[export] Instance created_le_dec : RelDecision created_le.
Proof. intros a b. unfold created_le. apply _. Defined.

Definition getQueuedJobsForClaim (limit : nat) (d : db) : list JobAggregate.t :=
  toAggregate <$>
    take limit (merge_sort created_le
      (List.filter (λ r, isQueued (ControlJobRow.state r) &&
                         bool_decide (ControlJobRow.controlIntent r = ControlIntent.none) &&
                         bool_decide (ControlJobRow.activeRunId r = None))
         (map_values (jobs d)))).

(** ** Job repository: compare-and-set *)

Record JobCasNext := mkJobCasNext {
  nx_state : JobState.t;
  nx_controlIntent : ControlIntent.t;
  nx_resumeTarget : option ResumeTarget.t;
  nx_activeRunId : option string;
  nx_lastFailureId : option string;
  nx_terminalAtMs : option N;
  nx_executionGeneration : option Z
}.

Record JobCasInput := mkJobCasInput {
  ci_jobId : string;
  ci_updatedAtMs : N;
  ci_expectedRevision : Z;
  ci_expectedState : JobState.t;
  ci_expectedActiveRunId : option string;
  ci_next : JobCasNext
}.

Inductive JobCasResult :=
| CasOk (newRevision : Z)
| CasConflict.

(** The WHERE clause of the update. *)
Definition cas_matches (input : JobCasInput) (row : ControlJobRow.t) : bool :=
  bool_decide (ControlJobRow.stateRevision row = ci_expectedRevision input) &&
  bool_decide (ControlJobRow.state row = ci_expectedState input) &&
  bool_decide (ControlJobRow.activeRunId row = ci_expectedActiveRunId input).

(** The SET clause. *)
Definition cas_patch (input : JobCasInput) (row : ControlJobRow.t) : ControlJobRow.t :=
  let next := ci_next input in
  ControlJobRow.mk (ControlJobRow.id row) (ControlJobRow.threadId row)
    (ControlJobRow.projectId row) (ControlJobRow.draftMessageId row)
    (nx_state next) (ControlJobRow.stateRevision row + 1) (nx_controlIntent next)
    (nx_resumeTarget next) (ControlJobRow.currentPlanRevision row)
    (default (ControlJobRow.executionGeneration row) (nx_executionGeneration next))
    (nx_activeRunId next) (nx_lastFailureId next)
    (ControlJobRow.title row) (ControlJobRow.requirementsSummary row)
    (ControlJobRow.createdAtMs row) (ci_updatedAtMs input) (nx_terminalAtMs next).

Definition compareAndSetJob (input : JobCasInput) : tx JobCasResult :=
  let* d := tx_gets id in
  match jobs d !! ci_jobId input with
  | Some row =>
      if cas_matches input row then
        do* tx_modify (upd_jobs (<[ci_jobId input := cas_patch input row]>)) in
        tx_ret (CasOk (ci_expectedRevision input + 1)%Z)
      else tx_ret CasConflict
  | None => tx_ret CasConflict
  end.

Record InsertFailureInput := mkInsertFailureInput {
  if_id : string;
  if_jobId : string;
  if_code : string;
  if_recoverability : Recoverability.t;
  if_reason : option string;
  if_runKind : option RunKind.t;
  if_createdAtMs : N
}.

Definition insertFailure (input : InsertFailureInput) : tx unit :=
  let* d := tx_gets id in
  if bool_decide (is_Some (failures d !! if_id input)) then tx_throw unique_failed
  else if bool_decide (jobs d !! if_jobId input = None) then tx_throw foreign_key_failed
  else tx_modify (upd_failures (<[if_id input :=
    ControlJobFailureRow.mk (if_id input) (if_jobId input) (if_code input)
      (if_recoverability input) (if_reason input) (if_runKind input) (if_createdAtMs input)]>)).

(** [getJobFailure] *)
Definition getJobFailure (failureId : string) (d : db) : option ControlJobFailureRow.t :=
  failures d !! failureId.

(** ** Job repository: worker fence *)

Inductive FenceReason := stale_run | revision_conflict | fence_mismatch.

Definition fence_reason_code (r : FenceReason) : string :=
  match r with
  | stale_run => "stale_run"
  | revision_conflict => "revision_conflict"
  | fence_mismatch => "fence_mismatch"
  end.

(** [r.state IN ('starting', 'retrying', 'active', 'pausing')] *)
Definition run_live (s : RunState.t) : bool :=
  match s with
  | RunState.starting | RunState.retrying | RunState.active | RunState.pausing => true
  | _ => false
  end.

(** The fence fields of a worker envelope. *)
Record WorkerFence := mkWorkerFence {
  wf_jobId : string;
  wf_expectedRevision : Z;
  wf_runId : string;
  wf_fenceToken : string;
  wf_executionGeneration : Z
}.

Definition worker_fence_of {P} (input : WorkerCommand.t P) : WorkerFence :=
  mkWorkerFence (WorkerCommand.jobId input) (WorkerCommand.expectedRevision input)
    (WorkerCommand.runId input) (WorkerCommand.fenceToken input)
    (WorkerCommand.executionGeneration input).

(** The WHERE clause of the [workerFence] update. *)
Definition fence_matches (w : WorkerFence) (d : db) (row : ControlJobRow.t) : bool :=
  bool_decide (ControlJobRow.stateRevision row = wf_expectedRevision w) &&
  bool_decide (ControlJobRow.activeRunId row = Some (wf_runId w)) &&
  bool_decide (ControlJobRow.executionGeneration row = wf_executionGeneration w) &&
  match runs d !! wf_runId w with
  | Some r =>
      bool_decide (ControlJobRunRow.jobId r = wf_jobId w) &&
      bool_decide (ControlJobRunRow.fenceToken r = wf_fenceToken w) &&
      bool_decide (ControlJobRunRow.executionGeneration r = wf_executionGeneration w) &&
      run_live (ControlJobRunRow.state r)
  | None => false
  end.

Definition bump_revision (now : N) (row : ControlJobRow.t) : ControlJobRow.t :=
  ControlJobRow.mk (ControlJobRow.id row) (ControlJobRow.threadId row)
    (ControlJobRow.projectId row) (ControlJobRow.draftMessageId row)
    (ControlJobRow.state row) (ControlJobRow.stateRevision row + 1)
    (ControlJobRow.controlIntent row) (ControlJobRow.resumeTarget row)
    (ControlJobRow.currentPlanRevision row) (ControlJobRow.executionGeneration row)
    (ControlJobRow.activeRunId row) (ControlJobRow.lastFailureId row)
    (ControlJobRow.title row) (ControlJobRow.requirementsSummary row)
    (ControlJobRow.createdAtMs row) now (ControlJobRow.terminalAtMs row).

(** The diagnosis when the update matched no row. *)
Definition fence_diagnosis (w : WorkerFence) (d : db) : FenceReason :=
  match runs d !! wf_runId w with
  | Some r =>
      if bool_decide (ControlJobRunRow.jobId r = wf_jobId w) then
        if run_live (ControlJobRunRow.state r) then
          if bool_decide (ControlJobRunRow.fenceToken r ≠ wf_fenceToken w) then fence_mismatch
          else revision_conflict
        else stale_run
      else revision_conflict
  | None => revision_conflict
  end.

Definition workerFence (w : WorkerFence) (now : N) : tx (result FenceReason Z) :=
  let* d := tx_gets id in
  match jobs d !! wf_jobId w with
  | Some row =>
      if fence_matches w d row then
        do* tx_modify (upd_jobs (<[wf_jobId w := bump_revision now row]>)) in
        tx_ret (Ok (ControlJobRow.stateRevision row + 1)%Z)
      else tx_ret (Err (fence_diagnosis w d))
  | None => tx_ret (Err (fence_diagnosis w d))
  end.

Definition assertWorkerFence (w : WorkerFence) (d : db) : result FenceReason unit :=
  match getWorkerAggregate (wf_jobId w) (wf_runId w) (wf_fenceToken w)
          (wf_executionGeneration w) d with
  | None => Err fence_mismatch
  | Some job =>
      if negb (bool_decide (JobAggregate.stateRevision job = wf_expectedRevision w)) then
        Err revision_conflict
      else
        match getActiveRunSummary (wf_runId w) d with
        | Some run => if run_live (ActiveRunSummary.state run) then Ok tt else Err stale_run
        | None => Err stale_run
        end
  end.

(** ** Slot repository *)

Definition slot_active (r : ControlResourceSlotRow.t) : bool :=
  bool_decide (ControlResourceSlotRow.state r = SlotState.active).

Definition createSlot (id jobId runId pool : string) (createdAtMs : N) : tx unit :=
  let* d := tx_gets (λ d, d) in
  if bool_decide (is_Some (slots d !! id)) ||
     any_row (λ r, bool_decide (ControlResourceSlotRow.runId r = runId)) (slots d) ||
     any_row (λ r, bool_decide (ControlResourceSlotRow.jobId r = jobId) && slot_active r) (slots d)
  then tx_throw unique_failed
  else if bool_decide (jobs d !! jobId = None) || bool_decide (runs d !! runId = None)
  then tx_throw foreign_key_failed
  else tx_modify (upd_slots (<[id :=
    ControlResourceSlotRow.mk id jobId runId pool SlotState.active createdAtMs None]>)).

Definition release_row (runId : string) (now : N) (r : ControlResourceSlotRow.t)
    : ControlResourceSlotRow.t :=
  if bool_decide (ControlResourceSlotRow.runId r = runId) && slot_active r then
    ControlResourceSlotRow.mk (ControlResourceSlotRow.id r) (ControlResourceSlotRow.jobId r)
      (ControlResourceSlotRow.runId r) (ControlResourceSlotRow.pool r) SlotState.released
      (ControlResourceSlotRow.createdAtMs r) (Some now)
  else r.

Definition releaseSlot (runId : string) (releasedAtMs : N) : tx unit :=
  tx_modify (upd_slots (fmap (release_row runId releasedAtMs))).

Definition slot_in_pool (pool : string) (r : ControlResourceSlotRow.t) : bool :=
  bool_decide (ControlResourceSlotRow.pool r = pool) && slot_active r.

Definition countActiveSlots (pool : string) (d : db) : nat :=
  length (List.filter (slot_in_pool pool) (map_values (slots d))).

Definition hasActiveSlotForRun (runId : string) (d : db) : bool :=
  any_row (λ r, bool_decide (ControlResourceSlotRow.runId r = runId) && slot_active r) (slots d).

Definition assertCapacityAvailable (pool : string) (maxConcurrentJobs : nat) : tx unit :=
  let* n := tx_gets (countActiveSlots pool) in
  if bool_decide (maxConcurrentJobs ≤ n) then tx_throw (PlainError "slot.capacity_exhausted")
  else tx_ret tt.

(** ** Runtime-instance repository *)

Definition runtime_open (r : ControlRuntimeInstanceRow.t) : bool :=
  bool_decide (ControlRuntimeInstanceRow.state r ≠ RuntimeState.closed).

Definition createRuntimeInstance (id runId ownerBootId provider : string)
    (pidOrHandleRef : option string) (startedAtMs : N) : tx unit :=
  let* d := tx_gets (λ d, d) in
  if bool_decide (is_Some (runtimes d !! id)) ||
     any_row (λ r, bool_decide (ControlRuntimeInstanceRow.runId r = runId) && runtime_open r)
       (runtimes d)
  then tx_throw unique_failed
  else if bool_decide (runs d !! runId = None) then tx_throw foreign_key_failed
  else tx_modify (upd_runtimes (<[id :=
    ControlRuntimeInstanceRow.mk id runId None RuntimeState.active ownerBootId (Some provider)
      None pidOrHandleRef startedAtMs None None None None]>)).

(** The [onConflictDoUpdate] assignment. *)
Definition close_row (closedAtMs : N) (exitKind : ExitKind.t) (exitCode : option Z)
    (signal : option string) (r : ControlRuntimeInstanceRow.t) : ControlRuntimeInstanceRow.t :=
  ControlRuntimeInstanceRow.mk (ControlRuntimeInstanceRow.id r)
    (ControlRuntimeInstanceRow.runId r) (ControlRuntimeInstanceRow.taskAttemptId r)
    RuntimeState.closed (ControlRuntimeInstanceRow.ownerBootId r)
    (ControlRuntimeInstanceRow.provider r) (ControlRuntimeInstanceRow.protocolState r)
    (ControlRuntimeInstanceRow.pidOrHandleRef r) (ControlRuntimeInstanceRow.startedAtMs r)
    (Some closedAtMs) (Some exitKind) exitCode signal.

Definition closeRuntimeInstance (id runId : string) (closedAtMs : N) (exitKind : ExitKind.t)
    (exitCode : option Z) (signal : option string) : tx unit :=
  let* d := tx_gets (λ d, d) in
  match runtimes d !! id with
  | Some r => tx_modify (upd_runtimes (<[id := close_row closedAtMs exitKind exitCode signal r]>))
  | None =>
      if bool_decide (runs d !! runId = None) then tx_throw foreign_key_failed
      else tx_modify (upd_runtimes (<[id :=
        ControlRuntimeInstanceRow.mk id runId None RuntimeState.closed "control-plane" None None
          None closedAtMs (Some closedAtMs) (Some exitKind) exitCode signal]>))
  end.

Definition getActiveInstanceForRun (runId : string) (d : db)
    : option ControlRuntimeInstanceRow.t :=
  List.find (λ r, bool_decide (ControlRuntimeInstanceRow.runId r = runId) &&
                  bool_decide (ControlRuntimeInstanceRow.state r = RuntimeState.active))
    (map_values (runtimes d)).

Definition hasClosedInstanceForRun (runId : string) (d : db) : bool :=
  any_row (λ r, bool_decide (ControlRuntimeInstanceRow.runId r = runId) &&
                bool_decide (ControlRuntimeInstanceRow.state r = RuntimeState.closed))
    (runtimes d).

(** ** Outbox repository *)

Record AppendOutboxInput := mkAppendOutboxInput {
  ao_topic : string;
  ao_eventType : string;
  ao_entityId : string;
  ao_aggregateRevision : Z;
  ao_payload : json;
  ao_createdAtMs : N
}.

Definition outbox_row (eventId : Z) (input : AppendOutboxInput) : ControlOutboxEventRow.t :=
  let payloadJson := stringify (ao_payload input) in
  ControlOutboxEventRow.mk eventId (ao_topic input) (ao_eventType input) (ao_entityId input)
    (ao_aggregateRevision input) payloadJson (N.of_nat (String.length payloadJson))
    (ao_createdAtMs input) None.

(** [UNIQUE (entity_id, aggregate_revision)] *)
Definition outbox_conflict (input : AppendOutboxInput) (e : ControlOutboxEventRow.t) : bool :=
  bool_decide (ControlOutboxEventRow.entityId e = ao_entityId input) &&
  bool_decide (ControlOutboxEventRow.aggregateRevision e = ao_aggregateRevision input).

Definition appendOutbox (input : AppendOutboxInput) : tx Z :=
  let* d := tx_gets id in
  if existsb (outbox_conflict input) (outbox d) then tx_throw unique_failed
  else
    let eventId := (outboxSeq d + 1)%Z in
    do* tx_modify (upd_outbox (λ l, l ++ [outbox_row eventId input]) eventId) in
    tx_ret eventId.

(** The event every service appends after a job write. *)
Definition job_changed (jobId : string) (revision : Z) (changed : list ChangedField.t) (now : N)
    : AppendOutboxInput :=
  mkAppendOutboxInput (job_topic jobId) "job.changed" jobId revision
    (job_changed_payload jobId revision changed) now.

Definition undispatched (e : ControlOutboxEventRow.t) : bool :=
  bool_decide (ControlOutboxEventRow.dispatchedAtMs e = None).

(** [getUndispatchedEvents]: the list is in event-id order. *)
Definition getUndispatchedEvents (batchSize : nat) (d : db) : list ControlOutboxEventRow.t :=
  take batchSize (List.filter undispatched (outbox d)).

Definition set_dispatched (ids : list Z) (now : N) (e : ControlOutboxEventRow.t)
    : ControlOutboxEventRow.t :=
  if bool_decide (ControlOutboxEventRow.eventId e ∈ ids) then
    ControlOutboxEventRow.mk (ControlOutboxEventRow.eventId e) (ControlOutboxEventRow.topic e)
      (ControlOutboxEventRow.eventType e) (ControlOutboxEventRow.entityId e)
      (ControlOutboxEventRow.aggregateRevision e) (ControlOutboxEventRow.payloadJson e)
      (ControlOutboxEventRow.payloadBytes e) (ControlOutboxEventRow.createdAtMs e) (Some now)
  else e.

Definition markDispatched (eventIds : list Z) (dispatchedAtMs : N) : tx unit :=
  match eventIds with
  | [] => tx_ret tt
  | _ => let* seq := tx_gets outboxSeq in
         tx_modify (upd_outbox (map (set_dispatched eventIds dispatchedAtMs)) seq)
  end.

(** The EXISTS clause of the owned outbox queries. *)
Definition outbox_owned (actor : ActorContext.t) (d : db) (e : ControlOutboxEventRow.t) : bool :=
  match jobs d !! ControlOutboxEventRow.entityId e with
  | Some row => ownerVisibilityPredicate actor d row
  | None => false
  end.

Definition listOwnedOutboxEvents (actor : ActorContext.t) (afterEventId : Z) (limit : nat) (d : db)
    : list ControlOutboxEventRow.t :=
  take limit (List.filter (λ e, bool_decide (afterEventId < ControlOutboxEventRow.eventId e)%Z &&
                                outbox_owned actor d e) (outbox d)).

Definition getOwnedOutboxLatestEventId (actor : ActorContext.t) (d : db) : Z :=
  match List.filter (outbox_owned actor d) (outbox d) with
  | [] => 0
  | e :: l => fold_left Z.max (map ControlOutboxEventRow.eventId l) (ControlOutboxEventRow.eventId e)
  end.

(** ** Dedup repository *)

Definition getDedup (actorUsername commandType idempotencyKey : string) (d : db)
    : option ControlCommandDedupRow.t :=
  dedup d !! (actorUsername, commandType, idempotencyKey).

Definition storeDedup (row : ControlCommandDedupRow.t) : tx unit :=
  let key := (ControlCommandDedupRow.actorUsername row, ControlCommandDedupRow.commandType row,
              ControlCommandDedupRow.idempotencyKey row) in
  let* d := tx_gets id in
  if bool_decide (is_Some (dedup d !! key)) then tx_throw unique_failed
  else tx_modify (upd_dedup (<[key := row]>)).
