(* ===== verification/TaskRepo.v ===== *)
(** * Task, attempt, evidence and verification repositories

    Models [src/server/infra/sqlite/control-plane/{task-repository,
    evidence-repository,verification-repository}.ts] and
    [src/server/application/{verification-gate,verification-guard}.ts]. *)
From S2P Require Import Prelude Json Contracts JobDomain TaskDomain Store JobRepo.
Local Open Scope tx_scope.

(** ** task-repository.ts *)

Definition getCurrentTask (jobId : string) (generation : Z) (taskId : string) (d : db)
    : option ControlJobTaskRow.t :=
  tasks d !! (jobId, generation, taskId).

Definition sort_le (a b : ControlJobTaskRow.t) : Prop :=
  (ControlJobTaskRow.sortOrder a ≤ ControlJobTaskRow.sortOrder b)%Z.

#[export] Instance sort_le_dec : RelDecision sort_le.
Proof. intros a b. unfold sort_le. apply _. Defined.

Definition in_generation (jobId : string) (generation : Z) (t : ControlJobTaskRow.t) : bool :=
  bool_decide (ControlJobTaskRow.jobId t = jobId) &&
  bool_decide (ControlJobTaskRow.executionGeneration t = generation).

Definition listTasksForGeneration (jobId : string) (generation : Z) (d : db)
    : list ControlJobTaskRow.t :=
  merge_sort sort_le (List.filter (in_generation jobId generation) (map_values (tasks d))).

Definition set_task_state (s : TaskState.t) (now : N) (t : ControlJobTaskRow.t)
    : ControlJobTaskRow.t :=
  ControlJobTaskRow.mk (ControlJobTaskRow.jobId t) (ControlJobTaskRow.executionGeneration t)
    (ControlJobTaskRow.taskId t) (ControlJobTaskRow.sourcePlanRevision t) s
    (ControlJobTaskRow.sortOrder t) (ControlJobTaskRow.originKind t)
    (ControlJobTaskRow.parentTaskId t) (ControlJobTaskRow.title t)
    (ControlJobTaskRow.abilityCode t) (ControlJobTaskRow.coreCode t)
    (ControlJobTaskRow.createdAtMs t) now.

(** Returns [result.changes === 1]. *)
Definition updateTaskState (jobId : string) (generation : Z) (taskId : string)
    (expectedState nextState : TaskState.t) (updatedAtMs : N) : tx bool :=
  let* d := tx_gets id in
  match tasks d !! (jobId, generation, taskId) with
  | Some t =>
      if bool_decide (ControlJobTaskRow.state t = expectedState) then
        do* tx_modify (upd_tasks (<[(jobId, generation, taskId) :=
                                      set_task_state nextState updatedAtMs t]>)) in
        tx_ret true
      else tx_ret false
  | None => tx_ret false
  end.

Definition clone_task (targetGeneration : Z) (createdAtMs : N) (t : ControlJobTaskRow.t)
    : ControlJobTaskRow.t :=
  ControlJobTaskRow.mk (ControlJobTaskRow.jobId t) targetGeneration
    (ControlJobTaskRow.taskId t) (ControlJobTaskRow.sourcePlanRevision t) TaskState.queued
    (ControlJobTaskRow.sortOrder t) (ControlJobTaskRow.originKind t)
    (ControlJobTaskRow.parentTaskId t) (ControlJobTaskRow.title t)
    (ControlJobTaskRow.abilityCode t) (ControlJobTaskRow.coreCode t) createdAtMs createdAtMs.

Definition task_key (t : ControlJobTaskRow.t) : string * Z * string :=
  (ControlJobTaskRow.jobId t, ControlJobTaskRow.executionGeneration t,
   ControlJobTaskRow.taskId t).

(** A multi-row INSERT: refused as a whole on the first key conflict. *)
Fixpoint insert_tasks (rows : list ControlJobTaskRow.t) : tx unit :=
  match rows with
  | [] => tx_ret tt
  | t :: rest =>
      let* d := tx_gets id in
      if bool_decide (is_Some (tasks d !! task_key t)) then tx_throw unique_failed
      else if bool_decide (jobs d !! ControlJobTaskRow.jobId t = None)
      then tx_throw foreign_key_failed
      else do* tx_modify (upd_tasks (<[task_key t := t]>)) in
           insert_tasks rest
  end.

Definition cloneTasksToGeneration (jobId : string) (sourceGeneration targetGeneration : Z)
    (createdAtMs : N) : tx nat :=
  let* sourceTasks := tx_gets (listTasksForGeneration jobId sourceGeneration) in
  do* insert_tasks (clone_task targetGeneration createdAtMs <$> sourceTasks) in
  tx_ret (length sourceTasks).

Definition getAttempt (attemptId : string) (d : db) : option ControlTaskAttemptRow.t :=
  attempts d !! attemptId.

Definition getRunningAttempt (attemptId : string) (d : db) : option ControlTaskAttemptRow.t :=
  match getAttempt attemptId d with
  | Some a =>
      if bool_decide (ControlTaskAttemptRow.state a = AttemptState.running) then Some a else None
  | None => None
  end.

Definition getPendingAttemptForRun (runId : string) (d : db) : option ControlTaskAttemptRow.t :=
  List.find (λ a, bool_decide (ControlTaskAttemptRow.runId a = runId) &&
                  bool_decide (ControlTaskAttemptRow.state a = AttemptState.pending))
    (map_values (attempts d)).

Definition finish_attempt_row (resultHash evidenceHash : string) (resultRevision : Z)
    (endedAtMs : N) (mustPauseAtCommit : option bool) (a : ControlTaskAttemptRow.t)
    : ControlTaskAttemptRow.t :=
  ControlTaskAttemptRow.mk (ControlTaskAttemptRow.id a) (ControlTaskAttemptRow.jobId a)
    (ControlTaskAttemptRow.executionGeneration a) (ControlTaskAttemptRow.taskId a)
    (ControlTaskAttemptRow.attemptNo a) (ControlTaskAttemptRow.runId a) AttemptState.completed
    (ControlTaskAttemptRow.provider a) (Some evidenceHash) (ControlTaskAttemptRow.failureId a)
    (ControlTaskAttemptRow.startedAtMs a) (Some endedAtMs) (Some resultHash) resultRevision
    mustPauseAtCommit.

Definition finishAttempt (attemptId resultHash evidenceHash : string) (resultRevision : Z)
    (endedAtMs : N) (mustPauseAtCommit : option bool) : tx unit :=
  let* d := tx_gets id in
  match attempts d !! attemptId with
  | None => tx_ret tt
  | Some a =>
      if bool_decide (evidence d !! evidenceHash = None) then tx_throw foreign_key_failed
      else tx_modify (upd_attempts (<[attemptId :=
        finish_attempt_row resultHash evidenceHash resultRevision endedAtMs mustPauseAtCommit a]>))
  end.

Definition same_task (jobId : string) (generation : Z) (taskId : string)
    (a : ControlTaskAttemptRow.t) : bool :=
  bool_decide (ControlTaskAttemptRow.jobId a = jobId) &&
  bool_decide (ControlTaskAttemptRow.executionGeneration a = generation) &&
  bool_decide (ControlTaskAttemptRow.taskId a = taskId).

(** [COALESCE(MAX(attempt_no), 0)] over the attempts of the task. *)
Definition max_attempt_no (jobId : string) (generation : Z) (taskId : string) (d : db) : Z :=
  match map ControlTaskAttemptRow.attemptNo
          (List.filter (same_task jobId generation taskId) (map_values (attempts d))) with
  | [] => 0
  | n :: l => fold_left Z.max l n
  end.

Record CreateAttemptInput := mkCreateAttemptInput {
  ca_id : string;
  ca_jobId : string;
  ca_generation : Z;
  ca_taskId : string;
  ca_runId : string;
  ca_state : AttemptState.t;
  ca_startedAtMs : N;
  ca_attemptNo : option Z
}.

Definition createAttempt (input : CreateAttemptInput) : tx unit :=
  let* d := tx_gets id in
  let attemptNo :=
    match ca_attemptNo input with
    | Some n => n
    | None => (max_attempt_no (ca_jobId input) (ca_generation input) (ca_taskId input) d + 1)%Z
    end in
  if bool_decide (attemptNo < 1)%Z then tx_throw (SqliteError "CHECK constraint failed")
  else if bool_decide (is_Some (attempts d !! ca_id input)) ||
     any_row (λ a, same_task (ca_jobId input) (ca_generation input) (ca_taskId input) a &&
                   bool_decide (ControlTaskAttemptRow.attemptNo a = attemptNo)) (attempts d)
  then tx_throw unique_failed
  else if bool_decide (runs d !! ca_runId input = None) ||
          bool_decide (tasks d !! (ca_jobId input, ca_generation input, ca_taskId input) = None)
  then tx_throw foreign_key_failed
  else tx_modify (upd_attempts (<[ca_id input :=
    ControlTaskAttemptRow.mk (ca_id input) (ca_jobId input) (ca_generation input)
      (ca_taskId input) attemptNo (ca_runId input) (ca_state input) None None None
      (ca_startedAtMs input) None None 0 None]>)).

Definition set_attempt_running (a : ControlTaskAttemptRow.t) : ControlTaskAttemptRow.t :=
  ControlTaskAttemptRow.mk (ControlTaskAttemptRow.id a) (ControlTaskAttemptRow.jobId a)
    (ControlTaskAttemptRow.executionGeneration a) (ControlTaskAttemptRow.taskId a)
    (ControlTaskAttemptRow.attemptNo a) (ControlTaskAttemptRow.runId a) AttemptState.running
    (ControlTaskAttemptRow.provider a) (ControlTaskAttemptRow.evidenceBlobHash a)
    (ControlTaskAttemptRow.failureId a) (ControlTaskAttemptRow.startedAtMs a)
    (ControlTaskAttemptRow.endedAtMs a) (ControlTaskAttemptRow.resultHash a)
    (ControlTaskAttemptRow.resultRevision a) (ControlTaskAttemptRow.mustPauseAtCommit a).

Definition startAttempt (attemptId : string) : tx bool :=
  let* d := tx_gets id in
  match attempts d !! attemptId with
  | Some a =>
      if bool_decide (ControlTaskAttemptRow.state a = AttemptState.pending) ||
         bool_decide (ControlTaskAttemptRow.state a = AttemptState.starting)
      then do* tx_modify (upd_attempts (<[attemptId := set_attempt_running a]>)) in tx_ret true
      else tx_ret false
  | None => tx_ret false
  end.

Definition attempt_le (a b : ControlTaskAttemptRow.t) : Prop :=
  (ControlTaskAttemptRow.attemptNo a ≤ ControlTaskAttemptRow.attemptNo b)%Z.

#[export] Instance attempt_le_dec : RelDecision attempt_le.
Proof. intros a b. unfold attempt_le. apply _. Defined.

Definition getTaskAttempts (jobId : string) (generation : Z) (taskId : string) (d : db)
    : list ControlTaskAttemptRow.t :=
  merge_sort attempt_le
    (List.filter (same_task jobId generation taskId) (map_values (attempts d))).

(** ** evidence-repository.ts *)

Section evidence.
Context `{Sha256}.

(** [putImmutable] and [putVerdictBlob] differ only in the type of the value
    they serialise. *)
Definition put_blob (value : json) (createdAtMs : N) : tx string :=
  let content := stringify value in
  let hash := sha256 content in
  let* d := tx_gets id in
  match evidence d !! hash with
  | Some _ => tx_ret hash
  | None =>
      do* tx_modify (upd_evidence (<[hash :=
        ControlEvidenceBlobRow.mk hash content (N.of_nat (String.length content)) createdAtMs]>)) in
      tx_ret hash
  end.

Definition putImmutable (evidence : list json) (createdAtMs : N) : tx string :=
  put_blob (JArr evidence) createdAtMs.

Definition putVerdictBlob (verdict : json) (createdAtMs : N) : tx string :=
  put_blob verdict createdAtMs.

Definition getByHash (hash : string) (d : db) : option string :=
  ControlEvidenceBlobRow.contentJson <$> (evidence d !! hash).

Definition verifyHash (hash : string) (evidence : list json) : bool :=
  String.eqb (sha256 (stringify (JArr evidence))) hash.

End evidence.

(** ** verification-repository.ts *)

Record CreateVerificationInput := mkCreateVerificationInput {
  vc_id : string;
  vc_jobId : string;
  vc_executionGeneration : Z;
  vc_planRevision : Z;
  vc_scopeType : ScopeType.t;
  vc_scopeId : string;
  vc_attemptNo : Z;
  vc_runId : string;
  vc_fenceToken : string;
  vc_startedAtMs : N
}.

(** The UNIQUE index over job, generation, plan revision, scope and attempt. *)
Definition verification_conflict (input : CreateVerificationInput)
    (v : ControlVerificationRow.t) : bool :=
  bool_decide (ControlVerificationRow.jobId v = vc_jobId input) &&
  bool_decide (ControlVerificationRow.executionGeneration v = vc_executionGeneration input) &&
  bool_decide (ControlVerificationRow.planRevision v = vc_planRevision input) &&
  bool_decide (ControlVerificationRow.scopeType v = vc_scopeType input) &&
  bool_decide (ControlVerificationRow.scopeId v = vc_scopeId input) &&
  bool_decide (ControlVerificationRow.attemptNo v = vc_attemptNo input).

Definition createVerification (input : CreateVerificationInput) : tx unit :=
  let* d := tx_gets id in
  if bool_decide (vc_attemptNo input < 1)%Z then tx_throw (SqliteError "CHECK constraint failed")
  else if bool_decide (is_Some (verifications d !! vc_id input)) ||
     any_row (verification_conflict input) (verifications d)
  then tx_throw unique_failed
  else if bool_decide (jobs d !! vc_jobId input = None) ||
          bool_decide ((vc_jobId input, vc_planRevision input) ∉ planRevisions d) ||
          bool_decide (runs d !! vc_runId input = None)
  then tx_throw foreign_key_failed
  else tx_modify (upd_verifications (<[vc_id input :=
    ControlVerificationRow.mk (vc_id input) (vc_jobId input) (vc_executionGeneration input)
      (vc_planRevision input) (vc_scopeType input) (vc_scopeId input) (vc_attemptNo input)
      VerificationState.running (Some (vc_runId input)) (Some (vc_fenceToken input)) None None
      None None (vc_startedAtMs input) None]>)).

Definition pass_row (verdictBlobHash resultHash : string) (resultRevision : Z) (endedAtMs : N)
    (v : ControlVerificationRow.t) : ControlVerificationRow.t :=
  ControlVerificationRow.mk (ControlVerificationRow.id v) (ControlVerificationRow.jobId v)
    (ControlVerificationRow.executionGeneration v) (ControlVerificationRow.planRevision v)
    (ControlVerificationRow.scopeType v) (ControlVerificationRow.scopeId v)
    (ControlVerificationRow.attemptNo v) VerificationState.passed
    (ControlVerificationRow.runId v) (ControlVerificationRow.fenceToken v)
    (Some verdictBlobHash) (Some resultHash) (Some resultRevision)
    (ControlVerificationRow.failureId v) (ControlVerificationRow.startedAtMs v) (Some endedAtMs).

Definition verification_running (v : ControlVerificationRow.t) : bool :=
  bool_decide (ControlVerificationRow.state v = VerificationState.running).

Definition markPassed (verificationId verdictBlobHash resultHash : string) (resultRevision : Z)
    (endedAtMs : N) : tx bool :=
  let* d := tx_gets id in
  match verifications d !! verificationId with
  | Some v =>
      if verification_running v then
        if bool_decide (evidence d !! verdictBlobHash = None) then tx_throw foreign_key_failed
        else do* tx_modify (upd_verifications (<[verificationId :=
                   pass_row verdictBlobHash resultHash resultRevision endedAtMs v]>)) in
             tx_ret true
      else tx_ret false
  | None => tx_ret false
  end.

Definition reject_row (failureId : string) (endedAtMs : N) (v : ControlVerificationRow.t)
    : ControlVerificationRow.t :=
  ControlVerificationRow.mk (ControlVerificationRow.id v) (ControlVerificationRow.jobId v)
    (ControlVerificationRow.executionGeneration v) (ControlVerificationRow.planRevision v)
    (ControlVerificationRow.scopeType v) (ControlVerificationRow.scopeId v)
    (ControlVerificationRow.attemptNo v) VerificationState.rejected
    (ControlVerificationRow.runId v) (ControlVerificationRow.fenceToken v)
    (ControlVerificationRow.verdictBlobHash v) (ControlVerificationRow.resultHash v)
    (ControlVerificationRow.resultRevision v) (Some failureId)
    (ControlVerificationRow.startedAtMs v) (Some endedAtMs).

Definition markRejected (verificationId failureId : string) (endedAtMs : N) : tx bool :=
  let* d := tx_gets id in
  match verifications d !! verificationId with
  | Some v =>
      if verification_running v then
        if bool_decide (failures d !! failureId = None) then tx_throw foreign_key_failed
        else do* tx_modify (upd_verifications (<[verificationId :=
                   reject_row failureId endedAtMs v]>)) in
             tx_ret true
      else tx_ret false
  | None => tx_ret false
  end.

Definition getById (verificationId : string) (d : db) : option ControlVerificationRow.t :=
  verifications d !! verificationId.

Definition in_scope (jobId : string) (generation planRevision : Z) (scopeType : ScopeType.t)
    (v : ControlVerificationRow.t) : bool :=
  bool_decide (ControlVerificationRow.jobId v = jobId) &&
  bool_decide (ControlVerificationRow.executionGeneration v = generation) &&
  bool_decide (ControlVerificationRow.planRevision v = planRevision) &&
  bool_decide (ControlVerificationRow.scopeType v = scopeType).

Definition getRunningForScope (jobId : string) (generation planRevision : Z)
    (scopeType : ScopeType.t) (scopeId : string) (d : db) : option ControlVerificationRow.t :=
  List.find (λ v, in_scope jobId generation planRevision scopeType v &&
                  bool_decide (ControlVerificationRow.scopeId v = scopeId) &&
                  verification_running v) (map_values (verifications d)).

(** [state = 'passed' AND verdict_blob_hash IS NOT NULL] *)
Definition passed_with_verdict (v : ControlVerificationRow.t) : bool :=
  bool_decide (ControlVerificationRow.state v = VerificationState.passed) &&
  bool_decide (is_Some (ControlVerificationRow.verdictBlobHash v)).

Definition getCurrentPassedVerifications (jobId : string) (generation planRevision : Z)
    (scopeType : ScopeType.t) (d : db) : list ControlVerificationRow.t :=
  List.filter (λ v, in_scope jobId generation planRevision scopeType v && passed_with_verdict v)
    (map_values (verifications d)).

(** [isMilestoneReady]: the left join keeps the slices of the milestone that
    have no passed verification with a verdict. *)
Definition slice_missing (generation planRevision : Z) (d : db) (s : ControlPlanSliceRow.t)
    : bool :=
  negb (any_row (λ v, in_scope (ControlPlanSliceRow.jobId s) generation planRevision
                        ScopeType.slice v &&
                      bool_decide (ControlVerificationRow.scopeId v =
                                   ControlPlanSliceRow.sliceId s) &&
                      passed_with_verdict v) (verifications d)).

Definition isMilestoneReady (jobId : string) (generation planRevision : Z) (milestoneId : string)
    (d : db) : bool :=
  bool_decide
    (List.filter (λ s, bool_decide (ControlPlanSliceRow.jobId s = jobId) &&
                       bool_decide (ControlPlanSliceRow.planRevision s = planRevision) &&
                       bool_decide (ControlPlanSliceRow.milestoneId s = milestoneId) &&
                       slice_missing generation planRevision d s)
       (map_values (planSlices d)) = []).

Definition hasRunningVerificationForRun (runId : string) (d : db) : bool :=
  any_row (λ v, bool_decide (ControlVerificationRow.runId v = Some runId) &&
                verification_running v) (verifications d).

(** ** verification-gate.ts *)

Record VerificationStatus := mkVerificationStatus {
  vs_passed : bool;
  vs_verdictBlobHash : option string;
  vs_attemptNo : option Z
}.

Record MilestoneReadiness := mkMilestoneReadiness {
  mr_milestoneId : string;
  mr_ready : bool;
  mr_missingVerifications : list string;
  mr_invariantViolations : list string
}.

(** One iteration of the loop of [checkMilestoneReadiness]. *)
Definition readiness_step (verificationResults : gmap string VerificationStatus)
    (acc : list string * list string) (sliceId : string) : list string * list string :=
  match verificationResults !! sliceId with
  | None => (acc.1 ++ [sliceId], acc.2)
  | Some v =>
      if negb (vs_passed v) then (acc.1 ++ [sliceId], acc.2)
      else if bool_decide (vs_verdictBlobHash v = None)
      then (acc.1, acc.2 ++ ["verification.passed_missing_verdict:" +:+ sliceId])
      else acc
  end.

Definition checkMilestoneReadiness (milestoneId : string) (requiredSliceIds : list string)
    (verificationResults : gmap string VerificationStatus) : MilestoneReadiness :=
  let '(missing, violations) :=
    fold_left (readiness_step verificationResults) requiredSliceIds ([], []) in
  mkMilestoneReadiness milestoneId
    (bool_decide (missing = []) && bool_decide (violations = [])) missing violations.

(** ** verification-guard.ts *)

Definition canModify (verificationId : string) (d : db) : bool :=
  match getById verificationId d with
  | None => false
  | Some v => verification_running v
  end.

(** [supersede]: [newId] is the id the lookup's [create] chooses. *)
Definition supersede (existingVerificationId : string) (newAttemptNo : Z)
    (runId fenceToken : string) (newId : string) (now : N) : tx (option string) :=
  let* existing := tx_gets (getById existingVerificationId) in
  match existing with
  | None => tx_ret None
  | Some v =>
      if bool_decide (ControlVerificationRow.state v = VerificationState.superseded)
      then tx_ret None
      else
        do* createVerification (mkCreateVerificationInput newId
              (ControlVerificationRow.jobId v) (ControlVerificationRow.executionGeneration v)
              (ControlVerificationRow.planRevision v) (ControlVerificationRow.scopeType v)
              (ControlVerificationRow.scopeId v) newAttemptNo runId fenceToken now) in
        tx_ret (Some newId)
  end.
