(* ===== verification/Commands.v ===== *)
(** * The job command service

    Models [src/server/application/job-command-service.ts] and
    [stored-command-receipt.ts].  Each command is the callback it passes to
    [unitOfWork.transaction] ([..._tx]) and the whole method, which runs the
    callback in a transaction and then calls the runtime controller; those calls
    are returned as a list of effects, and what they answer cannot undo the
    commit.  The clock value ([now]) and the ids of the id generator are
    arguments. *)
From S2P Require Import Prelude Json Contracts JobDomain TaskDomain Store JobRepo TaskRepo.
Local Open Scope tx_scope.

(** ** stored-command-receipt.ts *)

Inductive JobCommandName := request_pause | continue_job | cancel_job | restart_execution.

Definition command_name (c : JobCommandName) : string :=
  match c with
  | request_pause => "request_pause"
  | continue_job => "continue_job"
  | cancel_job => "cancel_job"
  | restart_execution => "restart_execution"
  end.

Definition wrapCommandReceipt (command : JobCommandName) (jobId : string) (revision : Z)
    (response : json) : json :=
  JObj [("schemaVersion", JNum 1); ("command", JStr (command_name command));
        ("jobId", JStr jobId); ("revision", JNum revision); ("response", response)].

Definition is_str (o : option json) : bool :=
  match o with Some (JStr _) => true | _ => false end.
Definition is_num (o : option json) : bool :=
  match o with Some (JNum _) => true | _ => false end.

(** Returns the [command] and [response] fields of the receipt.  Reading a
    property of [null] is a TypeError. *)
Definition parseStoredCommandReceipt (parsed : json) : result error (string * json) :=
  match parsed with
  | JNull => Err (PlainError "TypeError")
  | _ =>
      match json_get "schemaVersion" parsed, json_get "command" parsed,
            json_get "response" parsed with
      | Some (JNum 1), Some (JStr command), Some response =>
          if is_str (json_get "jobId" parsed) && is_num (json_get "revision" parsed)
          then Ok (command, response)
          else Err (PlainError "command.receipt_invalid")
      | _, _, _ => Err (PlainError "command.receipt_invalid")
      end
  end.

(** ** Shared parts of the commands *)

(** Calls made on the runtime controller after the transaction committed. *)
Inductive effect :=
| NotifyPauseRequested (jobId : string)
| CloseThenRelease (runId : option json) (reason : string).

Definition DEDUP_TTL_MS : N := 24 * 60 * 60 * 1000.

Definition assertMatchingReplay (replay : ControlCommandDedupRow.t) (requestHash : string)
    (command : JobCommandName) : result error json :=
  if negb (String.eqb (ControlCommandDedupRow.requestHash replay) requestHash) then
    Err (commandError "idempotency_key_reused" None)
  else
    match parseStoredCommandReceipt (ControlCommandDedupRow.responseJson replay) with
    | Ok (receiptCommand, response) =>
        if negb (String.eqb receiptCommand (command_name command)) then
          Err (commandError "idempotency_key_reused" None)
        else Ok response
    | Err (PlainError "command.receipt_invalid") => Ok (ControlCommandDedupRow.responseJson replay)
    | Err e => Err e
    end.

(** [JobCommandResponse]; [CancelJobResponse] adds [runIdToStop]. *)
Definition job_response (jobId : string) (state : JobState.t) (revision : Z)
    (extra : list (string * json)) : json :=
  JObj (("job", JObj [("id", JStr jobId); ("state", JStr (lit state));
                      ("stateRevision", JNum revision)]) :: extra).

(** The reads and guards every user command starts with after its replay check. *)
Definition load_for_user {P} (input : UserCommand.t P) : tx JobAggregate.t :=
  let* found := tx_gets (getOwnedAggregate (UserCommand.actor input) (UserCommand.jobId input)) in
  match found with
  | None => tx_throw (commandError "job.not_found" None)
  | Some job =>
      if negb (bool_decide (JobAggregate.stateRevision job = UserCommand.expectedRevision input))
      then tx_throw (commandError "job.revision_conflict" None)
      else tx_ret job
  end.

Definition lift_transition (t : result TransitionError JobTransition) : tx JobTransition :=
  match t with
  | Ok v => tx_ret v
  | Err e => tx_throw (fromTransitionError e)
  end.

Definition cas_or_throw (input : JobCasInput) (code : string) : tx Z :=
  let* cas := compareAndSetJob input in
  match cas with
  | CasOk newRevision => tx_ret newRevision
  | CasConflict => tx_throw (commandError code None)
  end.

(** The outbox event and the dedup row every user command ends with. *)
Definition publish_and_store {P} (input : UserCommand.t P) (command : JobCommandName)
    (requestHash jobId : string) (newRevision : Z) (response : json) (now : N) : tx json :=
  do* appendOutbox (job_changed jobId newRevision [ChangedField.state] now) in
  do* storeDedup (ControlCommandDedupRow.mk
        (ActorContext.username (UserCommand.actor input)) (UserCommand.idempotencyKey input)
        (command_name command) requestHash
        (wrapCommandReceipt command jobId newRevision response) newRevision now
        (now + DEDUP_TTL_MS)%N) in
  tx_ret response.

(** The replay check every user command starts with. *)
Definition with_replay {P} (input : UserCommand.t P) (command : JobCommandName)
    (requestHash : string) (fresh : tx json) : tx json :=
  let* replay := tx_gets (getDedup (ActorContext.username (UserCommand.actor input))
                            (command_name command) (UserCommand.idempotencyKey input)) in
  match replay with
  | Some row => tx_lift (assertMatchingReplay row requestHash command)
  | None => fresh
  end.

(** Runs a command's callback and collects the calls made after the commit. *)
Definition run_command {A} (m : tx A) (after : A → list effect) (d : db)
    : result error A * db * list effect :=
  match run_transaction m d with
  | (Ok a, d') => (Ok a, d', after a)
  | (Err e, d') => (Err e, d', [])
  end.

Module JobCommandService.
Section commands.
Context `{Sha256} `{TypeBox}.

(** ** User commands *)

Definition requestPause_tx (input : UserCommand.t unit) (now : N) : tx json :=
  let requestHash := hashCanonicalCommand "request_pause" None in
  with_replay input request_pause requestHash (
    let* job := load_for_user input in
    let* transition := lift_transition (JobDomain.requestPause job) in
    let nextActiveRunId :=
      if clearActiveRun transition then None else JobAggregate.activeRunId job in
    let* newRevision := cas_or_throw
      (mkJobCasInput (JobAggregate.id job) now (UserCommand.expectedRevision input)
         (JobAggregate.state job) (JobAggregate.activeRunId job)
         (mkJobCasNext (nextState transition) (tr_controlIntent transition)
            (tr_resumeTarget transition) nextActiveRunId (JobAggregate.lastFailureId job)
            None None)) "job.revision_conflict" in
    do* match JobAggregate.activeRunId job with
        | Some runId =>
            if bool_decide (nextState transition = JobState.pausing)
            then markRunState runId RunState.pausing None now
            else tx_ret tt
        | None => tx_ret tt
        end in
    let response := job_response (JobAggregate.id job) (nextState transition) newRevision [] in
    publish_and_store input request_pause requestHash (JobAggregate.id job) newRevision
      response now).

Definition requestPause (input : UserCommand.t unit) (now : N) (d : db)
    : result error json * db * list effect :=
  run_command (requestPause_tx input now)
    (λ _, [NotifyPauseRequested (UserCommand.jobId input)]) d.

Definition continueJob_tx (input : UserCommand.t unit) (now : N) : tx json :=
  let requestHash := hashCanonicalCommand "continue_job" None in
  with_replay input continue_job requestHash (
    let* job := load_for_user input in
    let* transition := lift_transition (JobDomain.continueJob job) in
    let* newRevision := cas_or_throw
      (mkJobCasInput (JobAggregate.id job) now (UserCommand.expectedRevision input)
         (JobAggregate.state job) (JobAggregate.activeRunId job)
         (mkJobCasNext (nextState transition) (tr_controlIntent transition)
            (tr_resumeTarget transition) None (JobAggregate.lastFailureId job) None None))
      "job.revision_conflict" in
    let response := job_response (JobAggregate.id job) (nextState transition) newRevision [] in
    publish_and_store input continue_job requestHash (JobAggregate.id job) newRevision
      response now).

Definition continueJob (input : UserCommand.t unit) (now : N) (d : db)
    : result error json * db * list effect :=
  run_command (continueJob_tx input now) (λ _, []) d.

Definition cancel_payload_json (p : CancelJobPayload) : json :=
  JObj [("reasonCode", JStr (reasonCode p))].

Definition cancelJob_tx (input : UserCommand.t CancelJobPayload) (now : N) : tx json :=
  let requestHash :=
    hashCanonicalCommand "cancel_job" (Some (cancel_payload_json (UserCommand.payload input))) in
  with_replay input cancel_job requestHash (
    let* job := load_for_user input in
    do* lift_transition (JobDomain.cancelJob job) in
    let runIdToStop := JobAggregate.activeRunId job in
    let* newRevision := cas_or_throw
      (mkJobCasInput (JobAggregate.id job) now (UserCommand.expectedRevision input)
         (JobAggregate.state job) (JobAggregate.activeRunId job)
         (mkJobCasNext JobState.cancelled ControlIntent.none None None
            (JobAggregate.lastFailureId job) (Some now) None)) "job.revision_conflict" in
    do* match runIdToStop with
        | Some runId =>
            markRunState runId RunState.cancelling
              (Some (reasonCode (UserCommand.payload input))) now
        | None => tx_ret tt
        end in
    let response := job_response (JobAggregate.id job) JobState.cancelled newRevision
                      [("runIdToStop", json_of_option runIdToStop)] in
    publish_and_store input cancel_job requestHash (JobAggregate.id job) newRevision
      response now).

(** [result.runIdToStop !== null] holds for an absent property too. *)
Definition cancelJob (input : UserCommand.t CancelJobPayload) (now : N) (d : db)
    : result error json * db * list effect :=
  run_command (cancelJob_tx input now)
    (λ response,
       match json_get "runIdToStop" response with
       | Some JNull => []
       | runId => [CloseThenRelease runId "user_cancelled"]
       end) d.

Definition restartExecution_tx (input : UserCommand.t unit) (now : N) : tx json :=
  let requestHash := hashCanonicalCommand "restart_execution" (Some (JObj [])) in
  with_replay input restart_execution requestHash (
    let* job := load_for_user input in
    let* transition := lift_transition (JobDomain.restartExecution job) in
    let nextGeneration := (JobAggregate.executionGeneration job + 1)%Z in
    let* newRevision := cas_or_throw
      (mkJobCasInput (JobAggregate.id job) now (UserCommand.expectedRevision input)
         (JobAggregate.state job) (JobAggregate.activeRunId job)
         (mkJobCasNext (nextState transition) ControlIntent.none None None
            (JobAggregate.lastFailureId job) None (Some nextGeneration)))
      "job.revision_conflict" in
    do* cloneTasksToGeneration (JobAggregate.id job) (JobAggregate.executionGeneration job)
          nextGeneration now in
    let response := job_response (JobAggregate.id job) (nextState transition) newRevision [] in
    publish_and_store input restart_execution requestHash (JobAggregate.id job) newRevision
      response now).

Definition restartExecution (input : UserCommand.t unit) (now : N) (d : db)
    : result error json * db * list effect :=
  run_command (restartExecution_tx input now) (λ _, []) d.

(** ** Worker commands *)

(** [getWorkerAggregate] applied to the fields of a worker envelope. *)
Definition worker_job {P} (input : WorkerCommand.t P) (d : db) : option JobAggregate.t :=
  getWorkerAggregate (WorkerCommand.jobId input) (WorkerCommand.runId input)
    (WorkerCommand.fenceToken input) (WorkerCommand.executionGeneration input) d.

Definition pausing_requested (job : JobAggregate.t) : bool :=
  bool_decide (JobAggregate.state job = JobState.pausing) &&
  bool_decide (JobAggregate.controlIntent job = ControlIntent.pause).

Definition acknowledgePause_tx (input : WorkerCommand.t unit) (now : N) : tx string :=
  let* run := tx_gets (getActiveRunSummary (WorkerCommand.runId input)) in
  match run with
  | None => tx_throw (PlainError "job.stale_run")
  | Some run =>
      if negb (String.eqb (ActiveRunSummary.fenceToken run) (WorkerCommand.fenceToken input)) ||
         negb (bool_decide (ActiveRunSummary.executionGeneration run =
                            WorkerCommand.executionGeneration input)) ||
         (negb (bool_decide (ActiveRunSummary.state run = RunState.active)) &&
          negb (bool_decide (ActiveRunSummary.state run = RunState.pausing)))
      then tx_throw (PlainError "job.stale_run")
      else
        let* found := tx_gets (worker_job input) in
        match found with
        | None => tx_throw (commandError "job.not_found" None)
        | Some job =>
            if negb (bool_decide (JobAggregate.stateRevision job =
                                  WorkerCommand.expectedRevision input))
            then tx_throw (commandError "job.revision_conflict" None)
            else if negb (pausing_requested job)
            then tx_throw (PlainError "job.pause_ack_not_allowed")
            else if negb (bool_decide (JobAggregate.activeRunId job =
                                       Some (WorkerCommand.runId input)))
            then tx_throw (PlainError "job.stale_run")
            else
              let* newRevision := cas_or_throw
                (mkJobCasInput (JobAggregate.id job) now (WorkerCommand.expectedRevision input)
                   JobState.pausing (Some (WorkerCommand.runId input))
                   (mkJobCasNext JobState.paused ControlIntent.none
                      (JobAggregate.resumeTarget job) None (JobAggregate.lastFailureId job)
                      None None)) "job.stale_run" in
              do* markRunState (WorkerCommand.runId input) RunState.paused None now in
              do* appendOutbox (job_changed (JobAggregate.id job) newRevision
                                  [ChangedField.state] now) in
              tx_ret (WorkerCommand.runId input)
        end
  end.

Definition acknowledgePause (input : WorkerCommand.t unit) (now : N) (d : db)
    : result error string * db * list effect :=
  run_command (acknowledgePause_tx input now)
    (λ runId, [CloseThenRelease (Some (JStr runId)) "paused"]) d.

(** [assertWorkerFence], throwing [commandError(fence.reason)]. *)
Definition assert_fence_or_throw {P} (input : WorkerCommand.t P) : tx unit :=
  let* fence := tx_gets (assertWorkerFence (worker_fence_of input)) in
  match fence with
  | Ok _ => tx_ret tt
  | Err reason => tx_throw (commandError (fence_reason_code reason) None)
  end.

Definition completeExecution_tx (input : WorkerCommand.t unit) (now : N) : tx unit :=
  do* assert_fence_or_throw input in
  let* found := tx_gets (worker_job input) in
  match found with
  | None => tx_throw (commandError "job.not_found" None)
  | Some job =>
      if negb (bool_decide (JobAggregate.state job = JobState.execution_running)) ||
         negb (bool_decide (JobAggregate.controlIntent job = ControlIntent.none))
      then tx_throw (PlainError "job.complete_not_allowed")
      else
        let* newRevision := cas_or_throw
          (mkJobCasInput (JobAggregate.id job) now (WorkerCommand.expectedRevision input)
             JobState.execution_running (Some (WorkerCommand.runId input))
             (mkJobCasNext JobState.succeeded ControlIntent.none None None
                (JobAggregate.lastFailureId job) (Some now) None)) "job.stale_run" in
        do* markRunState (WorkerCommand.runId input) RunState.succeeded None now in
        do* appendOutbox (job_changed (JobAggregate.id job) newRevision
                            [ChangedField.state] now) in
        tx_ret tt
  end.

Definition completeExecution (input : WorkerCommand.t unit) (now : N) (d : db)
    : result error unit * db * list effect :=
  run_command (completeExecution_tx input now) (λ _, []) d.

(** [checkpointTask]: [JSON.parse(JSON.stringify(result))] is [result] on JSON
    values.  A stored [resultRevision] is never NULL. *)
Definition checkpointTask_tx (input : WorkerCommand.t TaskCheckpointPayload) (now : N)
    : tx CheckpointResult :=
  let payload := WorkerCommand.payload input in
  let* found := tx_gets (getAttempt (tc_attemptId payload)) in
  match found with
  | None => tx_throw (PlainError "task.attempt_not_running")
  | Some attempt =>
      if negb (String.eqb (ControlTaskAttemptRow.runId attempt) (WorkerCommand.runId input)) ||
         negb (String.eqb (ControlTaskAttemptRow.jobId attempt) (WorkerCommand.jobId input))
      then tx_throw (PlainError "task.attempt_fence_mismatch")
      else if negb (bool_decide (ControlTaskAttemptRow.executionGeneration attempt =
                                 WorkerCommand.executionGeneration input))
      then tx_throw (PlainError "task.attempt_generation_mismatch")
      else
        let* normalized := tx_lift (validateTaskResult (tc_result payload)) in
        let resultHash := sha256 (canonicalJson (vt_result normalized)) in
        match ControlTaskAttemptRow.resultHash attempt with
        | Some previous =>
            if negb (String.eqb previous resultHash) then
              tx_throw (commandError "task.attempt_result_conflict" None)
            else tx_ret (mkCheckpointResult (ControlTaskAttemptRow.resultRevision attempt)
                           (default false (ControlTaskAttemptRow.mustPauseAtCommit attempt)))
        | None =>
            if negb (bool_decide (ControlTaskAttemptRow.state attempt = AttemptState.running))
            then tx_throw (PlainError "task.attempt_not_running")
            else
              do* assert_fence_or_throw input in
              let* fence := workerFence (worker_fence_of input) now in
              match fence with
              | Err reason => tx_throw (commandError (fence_reason_code reason) None)
              | Ok newRevision =>
                  let* evidenceHash :=
                    putImmutable (res_evidence (vt_result normalized)) now in
                  let* found := tx_gets (worker_job input) in
                  match found with
                  | None => tx_throw (commandError "job.not_found" None)
                  | Some job =>
                      let mustPauseAtCommit := pausing_requested job in
                      do* finishAttempt (ControlTaskAttemptRow.id attempt) resultHash
                            evidenceHash newRevision now (Some mustPauseAtCommit) in
                      let* current := tx_gets (getCurrentTask
                            (ControlTaskAttemptRow.jobId attempt)
                            (ControlTaskAttemptRow.executionGeneration attempt)
                            (ControlTaskAttemptRow.taskId attempt)) in
                      match current with
                      | None => tx_throw (PlainError "task.not_found")
                      | Some current =>
                          let* updated := updateTaskState
                            (ControlTaskAttemptRow.jobId attempt)
                            (ControlTaskAttemptRow.executionGeneration attempt)
                            (ControlTaskAttemptRow.taskId attempt)
                            (ControlJobTaskRow.state current) (vt_taskState normalized) now in
                          if negb updated then tx_throw (PlainError "task.state_conflict")
                          else
                            do* appendOutbox (job_changed (JobAggregate.id job) newRevision
                                                [ChangedField.tasks] now) in
                            tx_ret (mkCheckpointResult newRevision mustPauseAtCommit)
                      end
                  end
              end
        end
  end.

Definition checkpointTask (input : WorkerCommand.t TaskCheckpointPayload) (now : N) (d : db)
    : result error CheckpointResult * db * list effect :=
  run_command (checkpointTask_tx input now) (λ _, []) d.

Definition failPauseCheckpoint_tx (input : WorkerCommand.t string) (failureId : string)
    (now : N) : tx unit :=
  do* assert_fence_or_throw input in
  let* found := tx_gets (worker_job input) in
  match found with
  | None => tx_throw (PlainError "job.not_found")
  | Some job =>
      if negb (pausing_requested job)
      then tx_throw (PlainError "job.pause_checkpoint_fail_not_allowed")
      else
        do* insertFailure (mkInsertFailureInput failureId (JobAggregate.id job)
              "pause.checkpoint_failed" Recoverability.recoverable
              (Some (WorkerCommand.payload input)) (Some RunKind.execution) now) in
        let* newRevision := cas_or_throw
          (mkJobCasInput (JobAggregate.id job) now (WorkerCommand.expectedRevision input)
             JobState.pausing (Some (WorkerCommand.runId input))
             (mkJobCasNext JobState.paused ControlIntent.none (JobAggregate.resumeTarget job)
                None (Some failureId) None None)) "job.revision_conflict" in
        do* markRunState (WorkerCommand.runId input) RunState.paused
              (Some (WorkerCommand.payload input)) now in
        do* appendOutbox (job_changed (JobAggregate.id job) newRevision
                            [ChangedField.state; ChangedField.failure] now) in
        tx_ret tt
  end.

Definition failPauseCheckpoint (input : WorkerCommand.t string) (failureId : string) (now : N)
    (d : db) : result error unit * db * list effect :=
  run_command (failPauseCheckpoint_tx input failureId now) (λ _, []) d.

Definition reportNoProgress_tx (input : WorkerCommand.t ReportNoProgressPayload)
    (failureId : string) (now : N) : tx NoProgressResult :=
  let unchanged := mkNoProgressResult (WorkerCommand.expectedRevision input) 1 in
  let* fence := tx_gets (assertWorkerFence (worker_fence_of input)) in
  match fence with
  | Err _ => tx_ret unchanged
  | Ok _ =>
      let* found := tx_gets (worker_job input) in
      match found with
      | None => tx_ret unchanged
      | Some job =>
          do* insertFailure (mkInsertFailureInput failureId (JobAggregate.id job)
                "workflow.no_progress" Recoverability.recoverable
                (Some (np_workIdentity (WorkerCommand.payload input)))
                (Some RunKind.execution) now) in
          let* cas := compareAndSetJob
            (mkJobCasInput (JobAggregate.id job) now (WorkerCommand.expectedRevision input)
               (JobAggregate.state job) (Some (WorkerCommand.runId input))
               (mkJobCasNext JobState.failed ControlIntent.none None None (Some failureId)
                  (Some now) None)) in
          match cas with
          | CasConflict => tx_ret unchanged
          | CasOk newRevision =>
              do* markRunState (WorkerCommand.runId input) RunState.failed
                    (Some "workflow.no_progress") now in
              do* appendOutbox (job_changed (JobAggregate.id job) newRevision
                                  [ChangedField.state; ChangedField.failure] now) in
              tx_ret (mkNoProgressResult newRevision 1)
          end
      end
  end.

Definition reportNoProgress (input : WorkerCommand.t ReportNoProgressPayload)
    (failureId : string) (now : N) (d : db) : result error NoProgressResult * db * list effect :=
  run_command (reportNoProgress_tx input failureId now) (λ _, []) d.

Definition interruptRun_tx (input : WorkerCommand.t RunInterruptedPayload)
    (failureId : string) (now : N) : tx unit :=
  let reason := ri_reason (WorkerCommand.payload input) in
  let* fence := tx_gets (assertWorkerFence (worker_fence_of input)) in
  match fence with
  | Err _ => tx_ret tt
  | Ok _ =>
      let* found := tx_gets (worker_job input) in
      match found with
      | None => tx_ret tt
      | Some job =>
          if pausing_requested job then
            let* cas := compareAndSetJob
              (mkJobCasInput (JobAggregate.id job) now (WorkerCommand.expectedRevision input)
                 JobState.pausing (Some (WorkerCommand.runId input))
                 (mkJobCasNext JobState.paused ControlIntent.none
                    (JobAggregate.resumeTarget job) None (JobAggregate.lastFailureId job)
                    None None)) in
            match cas with
            | CasConflict => tx_ret tt
            | CasOk newRevision =>
                do* markRunState (WorkerCommand.runId input) RunState.interrupted
                      (Some reason) now in
                do* appendOutbox (job_changed (JobAggregate.id job) newRevision
                                    [ChangedField.state] now) in
                tx_ret tt
            end
          else
            do* insertFailure (mkInsertFailureInput failureId (JobAggregate.id job)
                  "run.interrupted" Recoverability.recoverable (Some reason) None now) in
            let* cas := compareAndSetJob
              (mkJobCasInput (JobAggregate.id job) now (WorkerCommand.expectedRevision input)
                 (JobAggregate.state job) (Some (WorkerCommand.runId input))
                 (mkJobCasNext JobState.failed ControlIntent.none None None (Some failureId)
                    (Some now) None)) in
            match cas with
            | CasConflict => tx_ret tt
            | CasOk newRevision =>
                do* markRunState (WorkerCommand.runId input) RunState.interrupted
                      (Some reason) now in
                do* appendOutbox (job_changed (JobAggregate.id job) newRevision
                                    [ChangedField.state; ChangedField.failure] now) in
                tx_ret tt
            end
      end
  end.

Definition interruptRun (input : WorkerCommand.t RunInterruptedPayload) (failureId : string)
    (now : N) (d : db) : result error unit * db * list effect :=
  run_command (interruptRun_tx input failureId now) (λ _, []) d.

End commands.
End JobCommandService.
