(* ===== verification/InternalCommands.v ===== *)
(** * The internal execution command service

    Models [src/server/application/internal-execution-command-service.ts]. *)
From S2P Require Import Prelude Json Contracts JobDomain TaskDomain Store JobRepo TaskRepo.
From S2P Require Import Commands.
Local Open Scope tx_scope.

Module InternalExecution.
Section commands.
Context `{Sha256}.

(** [throw new Error(fence.reason)] *)
Definition assert_fence_plain {P} (input : WorkerCommand.t P) : tx unit :=
  let* fence := tx_gets (assertWorkerFence (worker_fence_of input)) in
  match fence with
  | Ok _ => tx_ret tt
  | Err reason => tx_throw (PlainError (fence_reason_code reason))
  end.

Definition worker_fence_plain {P} (input : WorkerCommand.t P) (now : N) : tx Z :=
  let* fence := workerFence (worker_fence_of input) now in
  match fence with
  | Ok newRevision => tx_ret newRevision
  | Err reason => tx_throw (PlainError (fence_reason_code reason))
  end.

(** [instanceId] falls back to a generated id when the payload has none. *)
Definition runtimeStarted_tx (input : WorkerCommand.t RuntimeStartedPayload) (newId : string)
    (now : N) : tx RuntimeStartedResult :=
  let payload := WorkerCommand.payload input in
  let jobId := WorkerCommand.jobId input in
  do* assert_fence_plain input in
  let instanceId :=
    if String.eqb (rs_runtimeInstanceId payload) "" then newId else rs_runtimeInstanceId payload in
  do* createRuntimeInstance instanceId (WorkerCommand.runId input) "control-plane"
        (rs_provider payload) (rs_pidOrHandleRef payload) now in
  do* markRunActive (WorkerCommand.runId input) instanceId now in
  let* found := tx_gets (getAggregate jobId) in
  match found with
  | None => tx_throw (PlainError "job.not_found")
  | Some job =>
      let* cas := compareAndSetJob
        (mkJobCasInput jobId now (WorkerCommand.expectedRevision input)
           (JobAggregate.state job) (Some (WorkerCommand.runId input))
           (mkJobCasNext (JobAggregate.state job) (JobAggregate.controlIntent job)
              (JobAggregate.resumeTarget job) (Some (WorkerCommand.runId input))
              (JobAggregate.lastFailureId job) None None)) in
      match cas with
      | CasConflict => tx_throw (PlainError "revision_conflict")
      | CasOk newRevision =>
          do* appendOutbox (job_changed jobId newRevision [ChangedField.state] now) in
          tx_ret (mkRuntimeStartedResult instanceId "active" newRevision)
      end
  end.

Definition runtimeStarted (input : WorkerCommand.t RuntimeStartedPayload) (newId : string)
    (now : N) (d : db) : result error RuntimeStartedResult * db :=
  run_transaction (runtimeStarted_tx input newId now) d.

(** The close / mark / release sequence of the clean-up branches. *)
Definition close_instance (input : WorkerCommand.t RuntimeExitedPayload) (now : N) : tx unit :=
  let payload := WorkerCommand.payload input in
  closeRuntimeInstance (re_runtimeInstanceId payload) (WorkerCommand.runId input) now
    (re_exitKind payload) (re_exitCode payload) (re_signal payload).

Definition cleanup_run (input : WorkerCommand.t RuntimeExitedPayload) (s : RunState.t) (now : N)
    : tx unit :=
  do* close_instance input now in
  do* markRunState (WorkerCommand.runId input) s
        (Some (lit (re_exitKind (WorkerCommand.payload input)))) now in
  releaseSlot (WorkerCommand.runId input) now.

(** The branch for a worker whose job and run do not join. *)
Definition exited_unmatched (input : WorkerCommand.t RuntimeExitedPayload) (now : N)
    : tx RuntimeExitResult :=
  let* fallback := tx_gets (getAggregate (WorkerCommand.jobId input)) in
  match fallback with
  | None => tx_ret stale_ignored
  | Some fallback =>
      let* run := tx_gets (getActiveRunSummary (WorkerCommand.runId input)) in
      match run with
      | None => tx_ret stale_ignored
      | Some run =>
          if String.eqb (ActiveRunSummary.fenceToken run) (WorkerCommand.fenceToken input) &&
             bool_decide (ActiveRunSummary.executionGeneration run =
                          WorkerCommand.executionGeneration input)
          then
            let isCancelled := bool_decide (JobAggregate.state fallback = JobState.cancelled) in
            do* cleanup_run input
                  (if isCancelled then RunState.cancelled else ActiveRunSummary.state run) now in
            tx_ret (if isCancelled then cancelled_cleanup_only else stale_ignored)
          else tx_ret stale_ignored
      end
  end.

(** The branch for a live run of a pausing job. *)
Definition exited_pausing (input : WorkerCommand.t RuntimeExitedPayload) (job : JobAggregate.t)
    (now : N) : tx RuntimeExitResult :=
  let* cas := compareAndSetJob
    (mkJobCasInput (JobAggregate.id job) now (WorkerCommand.expectedRevision input)
       JobState.pausing (Some (WorkerCommand.runId input))
       (mkJobCasNext JobState.paused ControlIntent.none (JobAggregate.resumeTarget job) None
          (JobAggregate.lastFailureId job) None None)) in
  match cas with
  | CasConflict => tx_ret stale_ignored
  | CasOk newRevision =>
      do* markRunState (WorkerCommand.runId input) RunState.paused
            (Some (lit (re_exitKind (WorkerCommand.payload input)))) now in
      do* close_instance input now in
      do* appendOutbox (job_changed (JobAggregate.id job) newRevision [ChangedField.state] now) in
      do* releaseSlot (WorkerCommand.runId input) now in
      tx_ret pause_settled
  end.

(** The branch for a live run of a job that is not pausing. *)
Definition exited_failed (input : WorkerCommand.t RuntimeExitedPayload) (job : JobAggregate.t)
    (failureId : string) (now : N) : tx RuntimeExitResult :=
  let exitKind := lit (re_exitKind (WorkerCommand.payload input)) in
  do* insertFailure (mkInsertFailureInput failureId (JobAggregate.id job) "runtime.exited"
        Recoverability.recoverable (Some exitKind) None now) in
  let* cas := compareAndSetJob
    (mkJobCasInput (JobAggregate.id job) now (WorkerCommand.expectedRevision input)
       (JobAggregate.state job) (Some (WorkerCommand.runId input))
       (mkJobCasNext JobState.failed ControlIntent.none None None (Some failureId)
          (Some now) None)) in
  match cas with
  | CasConflict => tx_ret stale_ignored
  | CasOk newRevision =>
      do* markRunState (WorkerCommand.runId input) RunState.failed (Some exitKind) now in
      do* close_instance input now in
      do* appendOutbox (job_changed (JobAggregate.id job) newRevision
                          [ChangedField.state; ChangedField.failure] now) in
      do* releaseSlot (WorkerCommand.runId input) now in
      tx_ret (job_failed failureId)
  end.

Definition runtimeExited_tx (input : WorkerCommand.t RuntimeExitedPayload) (failureId : string)
    (now : N) : tx RuntimeExitResult :=
  let* found := tx_gets (JobCommandService.worker_job input) in
  match found with
  | None => exited_unmatched input now
  | Some job =>
      if bool_decide (is_Some (JobAggregate.activeRunId job)) &&
         negb (bool_decide (JobAggregate.activeRunId job = Some (WorkerCommand.runId input)))
      then tx_ret stale_ignored
      else if bool_decide (JobAggregate.state job = JobState.cancelled) then
        do* cleanup_run input RunState.cancelled now in
        tx_ret cancelled_cleanup_only
      else if bool_decide (JobAggregate.state job = JobState.paused) then
        do* cleanup_run input RunState.paused now in
        tx_ret pause_settled
      else
        let* fence := tx_gets (assertWorkerFence (worker_fence_of input)) in
        match fence with
        | Err _ => tx_ret stale_ignored
        | Ok _ =>
            if JobCommandService.pausing_requested job then exited_pausing input job now
            else exited_failed input job failureId now
        end
  end.

Definition runtimeExited (input : WorkerCommand.t RuntimeExitedPayload) (failureId : string)
    (now : N) (d : db) : result error RuntimeExitResult * db :=
  run_transaction (runtimeExited_tx input failureId now) d.

Definition startVerification_tx (input : WorkerCommand.t StartVerificationPayload)
    (verificationId : string) (now : N) : tx StartVerificationResult :=
  let payload := WorkerCommand.payload input in
  let* newRevision := worker_fence_plain input now in
  let* found := tx_gets (JobCommandService.worker_job input) in
  match found with
  | None => tx_throw (PlainError "job.not_found")
  | Some job =>
      do* createVerification (mkCreateVerificationInput verificationId
            (WorkerCommand.jobId input) (WorkerCommand.executionGeneration input)
            (default 1%Z (JobAggregate.currentPlanRevision job)) (sv_scopeType payload)
            (sv_scopeId payload) 1 (WorkerCommand.runId input) (WorkerCommand.fenceToken input)
            now) in
      do* appendOutbox (job_changed (WorkerCommand.jobId input) newRevision
                          [ChangedField.state] now) in
      tx_ret (mkStartVerificationResult verificationId "running")
  end.

Definition startVerification (input : WorkerCommand.t StartVerificationPayload)
    (verificationId : string) (now : N) (d : db) : result error StartVerificationResult * db :=
  run_transaction (startVerification_tx input verificationId now) d.

Definition reportNoProgress_tx (input : WorkerCommand.t ReportNoProgressPayload)
    (failureId : string) (now : N) : tx NoProgressResult :=
  let unchanged := mkNoProgressResult (WorkerCommand.expectedRevision input) 1 in
  let* fence := tx_gets (assertWorkerFence (worker_fence_of input)) in
  match fence with
  | Err _ => tx_ret unchanged
  | Ok _ =>
      let* found := tx_gets (JobCommandService.worker_job input) in
      match found with
      | None => tx_ret unchanged
      | Some job =>
          do* insertFailure (mkInsertFailureInput failureId (JobAggregate.id job)
                "workflow.no_progress" Recoverability.recoverable
                (Some (np_workIdentity (WorkerCommand.payload input))) None now) in
          let* cas := compareAndSetJob
            (mkJobCasInput (JobAggregate.id job) now (WorkerCommand.expectedRevision input)
               (JobAggregate.state job) (Some (WorkerCommand.runId input))
               (mkJobCasNext JobState.failed ControlIntent.none None None (Some failureId)
                  (Some now) None)) in
          match cas with
          | CasConflict => tx_ret unchanged
          | CasOk newRevision =>
              do* markRunState (WorkerCommand.runId input) RunState.failed
                    (Some "workflow.no_progress") now in
              do* appendOutbox (job_changed (JobAggregate.id job) newRevision
                                  [ChangedField.state; ChangedField.failure] now) in
              tx_ret (mkNoProgressResult newRevision 1)
          end
      end
  end.

Definition reportNoProgress (input : WorkerCommand.t ReportNoProgressPayload)
    (failureId : string) (now : N) (d : db) : result error NoProgressResult * db :=
  run_transaction (reportNoProgress_tx input failureId now) d.

Definition completeVerification_tx (input : WorkerCommand.t CompleteVerificationPayload)
    (scopeType : ScopeType.t) (now : N) : tx VerificationResult :=
  let payload := WorkerCommand.payload input in
  let* found := tx_gets (getById (cv_verificationId payload)) in
  match found with
  | None => tx_throw (PlainError "verification.not_found")
  | Some verification =>
      if negb (String.eqb (ControlVerificationRow.jobId verification)
                 (WorkerCommand.jobId input)) ||
         negb (bool_decide (ControlVerificationRow.executionGeneration verification =
                            WorkerCommand.executionGeneration input)) ||
         negb (bool_decide (ControlVerificationRow.scopeType verification = scopeType)) ||
         negb (String.eqb (ControlVerificationRow.scopeId verification) (cv_scopeId payload))
      then tx_throw (PlainError "verification.scope_mismatch")
      else
        let resultHash := sha256 (canonicalJson (cv_verdict payload)) in
        match ControlVerificationRow.state verification with
        | VerificationState.passed =>
            if negb (bool_decide (ControlVerificationRow.resultHash verification =
                                  Some resultHash))
            then tx_throw (PlainError "verification.result_conflict")
            else
              match ControlVerificationRow.verdictBlobHash verification,
                    ControlVerificationRow.resultRevision verification with
              | Some _, Some revision =>
                  tx_ret (mkVerificationResult (ControlVerificationRow.id verification)
                            "passed" revision)
              | _, _ => tx_throw (PlainError "verification.passed_without_verdict")
              end
        | VerificationState.running =>
            let* newRevision := worker_fence_plain input now in
            let* verdictBlobHash := putVerdictBlob (cv_verdict payload) now in
            let* marked := markPassed (ControlVerificationRow.id verification) verdictBlobHash
                             resultHash newRevision now in
            if negb marked then tx_throw (PlainError "verification.mark_failed")
            else
              do* appendOutbox (job_changed (WorkerCommand.jobId input) newRevision
                                  [ChangedField.state] now) in
              tx_ret (mkVerificationResult (ControlVerificationRow.id verification)
                        "passed" newRevision)
        | _ => tx_throw (PlainError "verification.not_running")
        end
  end.

Definition completeSliceVerification (input : WorkerCommand.t CompleteVerificationPayload)
    (now : N) (d : db) : result error VerificationResult * db :=
  run_transaction (completeVerification_tx input ScopeType.slice now) d.

Definition completeMilestoneVerification (input : WorkerCommand.t CompleteVerificationPayload)
    (now : N) (d : db) : result error VerificationResult * db :=
  run_transaction (completeVerification_tx input ScopeType.milestone now) d.

End commands.
End InternalExecution.
