(* ===== verification/Scheduler.v ===== *)
(** * Scheduler and startup reconciliation

    Models [src/server/application/scheduler.ts],
    [startup-reconciler.ts] and [startup-reconciler-impl.ts]. *)
From S2P Require Import Prelude Json Contracts JobDomain TaskDomain Store JobRepo TaskRepo.
From S2P Require Import Commands.
Local Open Scope tx_scope.

(** ** scheduler.ts *)

Record SchedulerCapabilities := mkSchedulerCapabilities {
  cap_planning : bool;
  cap_execution : bool
}.

Definition DEFAULT_POOL : string := "default".

Definition canClaimState (caps : SchedulerCapabilities) (state : JobState.t) : bool :=
  match state with
  | JobState.planning_queued => cap_planning caps
  | JobState.execution_queued => cap_execution caps
  | _ => false
  end.

(** [job.state.startsWith('planning')] *)
Definition starts_with_planning (state : JobState.t) : bool :=
  match state with
  | JobState.planning_queued | JobState.planning_running => true
  | _ => false
  end.

Definition claim_kind (state : JobState.t) : RunKind.t :=
  if starts_with_planning state then RunKind.planning else RunKind.execution.

Definition claim_target (state : JobState.t) : JobState.t :=
  if starts_with_planning state then JobState.planning_running else JobState.execution_running.

(** The three ids [claimJob] generates. *)
Record ClaimIds := mkClaimIds {
  cl_fenceToken : string;
  cl_runId : string;
  cl_slotId : string
}.

Definition claimJob_tx (maxConcurrentJobs : nat) (job : JobAggregate.t) (ids : ClaimIds) (now : N)
    : tx (option (string * RunKind.t)) :=
  let kind := claim_kind (JobAggregate.state job) in
  do* assertCapacityAvailable DEFAULT_POOL maxConcurrentJobs in
  let* cas := compareAndSetJob
    (mkJobCasInput (JobAggregate.id job) now (JobAggregate.stateRevision job)
       (JobAggregate.state job) None
       (mkJobCasNext (claim_target (JobAggregate.state job)) ControlIntent.none None
          (Some (cl_runId ids)) None None None)) in
  match cas with
  | CasConflict => tx_ret None
  | CasOk newRevision =>
      do* createRun (mkCreateRunInput (cl_runId ids) (JobAggregate.id job) kind
            (cl_fenceToken ids) (JobAggregate.executionGeneration job) now) in
      do* createSlot (cl_slotId ids) (JobAggregate.id job) (cl_runId ids) DEFAULT_POOL now in
      do* appendOutbox (job_changed (JobAggregate.id job) newRevision [ChangedField.state] now) in
      tx_ret (Some (cl_runId ids, kind))
  end.

(** [claimJob]: the started run, if any, is handed to the runtime starter. *)
Definition claimJob (maxConcurrentJobs : nat) (job : JobAggregate.t) (ids : ClaimIds) (now : N)
    (d : db) : result error (option (string * RunKind.t)) * db :=
  run_transaction (claimJob_tx maxConcurrentJobs job ids now) d.

(** The [for] loop of [tick]: an error thrown by [claimJob] ends it (and is
    logged).  [ids] is the id generator: [ids n] are the ids drawn by the n-th
    claim of the loop. *)
Fixpoint claim_all (maxConcurrentJobs : nat) (eligible : list JobAggregate.t)
    (ids : nat → ClaimIds) (now : N) (d : db) : list (string * string * RunKind.t) * db :=
  match eligible with
  | job :: rest =>
      match claimJob maxConcurrentJobs job (ids 0) now d with
      | (Ok (Some (runId, kind)), d') =>
          let '(started, d'') := claim_all maxConcurrentJobs rest (λ n, ids (S n)) now d' in
          ((JobAggregate.id job, runId, kind) :: started, d'')
      | (Ok None, d') => claim_all maxConcurrentJobs rest (λ n, ids (S n)) now d'
      | (Err _, d') => ([], d')
      end
  | [] => ([], d)
  end.

Definition tick (maxConcurrentJobs : nat) (caps : SchedulerCapabilities) (running : bool)
    (ids : nat → ClaimIds) (now : N) (d : db) : list (string * string * RunKind.t) * db :=
  if negb running then ([], d)
  else
    let activeSlots := countActiveSlots DEFAULT_POOL d in
    let remainingCapacity := maxConcurrentJobs - activeSlots in
    if bool_decide (remainingCapacity = 0) then ([], d)
    else
      let eligible :=
        List.filter (λ job, canClaimState caps (JobAggregate.state job))
          (getQueuedJobsForClaim remainingCapacity d) in
      claim_all maxConcurrentJobs eligible ids now d.

(** ** startup-reconciler.ts *)

Module InterruptionReason.
Inductive t : Set := process_crash | stale_lease | app_shutdown.

Definition to_string (r : t) : string :=
  match r with
  | process_crash => "process_crash" | stale_lease => "stale_lease"
  | app_shutdown => "app_shutdown"
  end.
End InterruptionReason.

Inductive LostReason := child_closed | owner_missing.

Definition lost_reason_string (r : LostReason) : string :=
  match r with child_closed => "child_closed" | owner_missing => "owner_missing" end.

(** [failureReason: 'interrupted_checkpoint' | null] is a boolean here. *)
Inductive ReconcileDecision :=
| settle_paused (interruptedCheckpoint : bool)
| settle_interrupted_failure (reason : InterruptionReason.t)
| settle_runtime_lost (reason : LostReason)
| kill_orphan_keep_job
| quarantine (violationCode : string)
| no_change.

Record ReconcileInput := mkReconcileInput {
  rc_job : JobAggregate.t;
  rc_runIsStale : bool;
  rc_interruptionReason : InterruptionReason.t;
  rc_hasRunningAttempt : bool;
  rc_hasLegacyActiveRuntime : bool;
  rc_runBelongsToCurrentBoot : bool;
  rc_hasActiveSlot : bool;
  rc_hasRegisteredRuntimeInstance : bool;
  rc_hasSupervisedLifecycleOperation : bool;
  rc_runtimeWasClosed : bool
}.

Definition decideStartupReconcile (input : ReconcileInput) : ReconcileDecision :=
  let job := rc_job input in
  if bool_decide (JobAggregate.state job = JobState.pausing) &&
     bool_decide (JobAggregate.controlIntent job = ControlIntent.pause)
  then settle_paused (rc_hasRunningAttempt input)
  else if bool_decide (JobAggregate.state job = JobState.paused) &&
          rc_hasLegacyActiveRuntime input
  then kill_orphan_keep_job
  else if isRunning (JobAggregate.state job) &&
          bool_decide (JobAggregate.controlIntent job = ControlIntent.none) &&
          rc_runIsStale input
  then settle_interrupted_failure (rc_interruptionReason input)
  else if isRunning (JobAggregate.state job) && rc_runBelongsToCurrentBoot input &&
          (negb (rc_hasActiveSlot input) ||
           (negb (rc_hasRegisteredRuntimeInstance input) &&
            negb (rc_hasSupervisedLifecycleOperation input)))
  then settle_runtime_lost (if rc_runtimeWasClosed input then child_closed else owner_missing)
  else if isQueued (JobAggregate.state job) &&
          bool_decide (is_Some (JobAggregate.activeRunId job))
  then quarantine "job.queued_has_active_run"
  else if isTerminal (JobAggregate.state job) && rc_hasLegacyActiveRuntime input
  then kill_orphan_keep_job
  else no_change.

(** ** startup-reconciler-impl.ts *)

Definition CURRENT_BOOT_ID : string := "control-plane".

(** The facts read for one job; [supervised] is
    [runtimeSupervisor.getByRunId(runId) !== undefined]. *)
Definition reconcile_input (supervised : string → bool) (job : JobAggregate.t) (d : db)
    : ReconcileInput :=
  let runId := JobAggregate.activeRunId job in
  let activeRun := match runId with Some r => getActiveRunSummary r d | None => None end in
  let activeRuntime := match runId with Some r => getActiveInstanceForRun r d | None => None end in
  let registered :=
    match runId with Some r => supervised r | None => false end ||
    bool_decide (is_Some activeRuntime) in
  mkReconcileInput job
    (match activeRun with
     | Some run => negb (bool_decide (ActiveRunSummary.state run = RunState.active))
     | None => false
     end)
    InterruptionReason.process_crash
    (match runId with Some r => hasRunningVerificationForRun r d | None => false end)
    registered
    (match activeRuntime with
     | Some rt => String.eqb (ControlRuntimeInstanceRow.ownerBootId rt) CURRENT_BOOT_ID
     | None => false
     end)
    (match runId with Some r => hasActiveSlotForRun r d | None => false end)
    registered
    false
    (match runId with
     | Some r => bool_decide (activeRuntime = None) && hasClosedInstanceForRun r d
     | None => false
     end).

(** The compare-and-set the three settlements share. *)
Definition settle_cas (job : JobAggregate.t) (now : N) (next : JobCasNext) : tx JobCasResult :=
  compareAndSetJob (mkJobCasInput (JobAggregate.id job) now (JobAggregate.stateRevision job)
                      (JobAggregate.state job) (JobAggregate.activeRunId job) next).

Definition settlePaused_tx (job : JobAggregate.t) (interruptedCheckpoint : bool)
    (failureId : string) (now : N) : tx unit :=
  let* cas := settle_cas job now
    (mkJobCasNext JobState.paused ControlIntent.none (JobAggregate.resumeTarget job) None
       (JobAggregate.lastFailureId job) None None) in
  match cas with
  | CasConflict => tx_ret tt
  | CasOk newRevision =>
      do* appendOutbox (job_changed (JobAggregate.id job) newRevision [ChangedField.state] now) in
      if interruptedCheckpoint then
        insertFailure (mkInsertFailureInput failureId (JobAggregate.id job) "run.interrupted"
          Recoverability.recoverable (Some "interrupted_checkpoint") None now)
      else tx_ret tt
  end.

Definition settleInterruptedFailure_tx (job : JobAggregate.t) (reason : InterruptionReason.t)
    (failureId : string) (now : N) : tx unit :=
  do* insertFailure (mkInsertFailureInput failureId (JobAggregate.id job) "run.interrupted"
        Recoverability.recoverable (Some (InterruptionReason.to_string reason)) None now) in
  let* cas := settle_cas job now
    (mkJobCasNext JobState.failed ControlIntent.none None None (Some failureId) (Some now)
       None) in
  match cas with
  | CasConflict => tx_ret tt
  | CasOk newRevision =>
      do* appendOutbox (job_changed (JobAggregate.id job) newRevision
                          [ChangedField.state; ChangedField.failure] now) in
      tx_ret tt
  end.

Definition settleRuntimeLost_tx (job : JobAggregate.t) (reason : LostReason)
    (failureId : string) (now : N) : tx unit :=
  do* insertFailure (mkInsertFailureInput failureId (JobAggregate.id job) "runtime.lost"
        Recoverability.recoverable (Some (lost_reason_string reason)) None now) in
  let* cas := settle_cas job now
    (mkJobCasNext JobState.failed ControlIntent.none None None (Some failureId) (Some now)
       None) in
  match cas with
  | CasConflict => tx_ret tt
  | CasOk newRevision =>
      do* match JobAggregate.activeRunId job with
          | Some runId =>
              do* markRunState runId RunState.interrupted (Some (lost_reason_string reason)) now in
              releaseSlot runId now
          | None => tx_ret tt
          end in
      do* appendOutbox (job_changed (JobAggregate.id job) newRevision
                          [ChangedField.state; ChangedField.failure] now) in
      tx_ret tt
  end.

Definition executeDecision_tx (job : JobAggregate.t) (decision : ReconcileDecision)
    (failureId : string) (now : N) : tx unit :=
  match decision with
  | settle_paused checkpoint => settlePaused_tx job checkpoint failureId now
  | settle_interrupted_failure reason => settleInterruptedFailure_tx job reason failureId now
  | settle_runtime_lost reason => settleRuntimeLost_tx job reason failureId now
  | kill_orphan_keep_job | quarantine _ | no_change => tx_ret tt
  end.

(** [reconcileJob]: the settlement runs in a transaction of its own; an error
    thrown by it leaves [reconcileAll]. *)
Definition reconcileJob (supervised : string → bool) (job : JobAggregate.t) (failureId : string)
    (now : N) (d : db) : result error ReconcileDecision * db :=
  let decision := decideStartupReconcile (reconcile_input supervised job d) in
  match run_transaction (executeDecision_tx job decision failureId now) d with
  | (Ok _, d') => (Ok decision, d')
  | (Err e, d') => (Err e, d')
  end.

Fixpoint reconcile_jobs (supervised : string → bool) (jobs : list JobAggregate.t)
    (failureIds : nat → string) (now : N) (d : db)
    : result error (list ReconcileDecision) * db :=
  match jobs with
  | job :: rest =>
      match reconcileJob supervised job (failureIds 0) now d with
      | (Ok decision, d') =>
          match reconcile_jobs supervised rest (λ n, failureIds (S n)) now d' with
          | (Ok decisions, d'') => (Ok (decision :: decisions), d'')
          | (Err e, d'') => (Err e, d'')
          end
      | (Err e, d') => (Err e, d')
      end
  | [] => (Ok [], d)
  end.

Definition reconcileAll (supervised : string → bool) (failureIds : nat → string) (now : N) (d : db)
    : result error (list ReconcileDecision) * db :=
  reconcile_jobs supervised (getJobsForReconciliation d) failureIds now d.
