(* ===== verification/Executor.v ===== *)
(** * The executor loop

    Models [src/server/application/executor-loop.ts], [executor-adapter.ts] and
    [task-execution-registry.ts].  The loop is asynchronous: between two of its
    synchronous pieces other commands may run, so every iteration takes a record
    [Iteration] with what they do to the database at each suspension point, the
    answer of the task execution provider, the ids drawn and the clock. *)
From S2P Require Import Prelude Json Contracts JobDomain TaskDomain Store JobRepo TaskRepo.
From S2P Require Import Commands.
Local Open Scope tx_scope.

(** ** executor-loop.ts: data *)

Inductive ExecutionStepResult :=
| step_advanced (revision : Z) (workIdentity : string)
| step_waiting (externalOperationId : string)
| step_stale_run.

Record ExecutionRunContext := mkExecutionRunContext {
  ec_jobId : string;
  ec_runId : string;
  ec_fenceToken : string;
  ec_executionGeneration : Z;
  ec_expectedRevision : Z;
  ec_workIdentity : string
}.

Inductive NextWorkDecision :=
| next_stale_run
| next_pause_requested (revision : Z)
| next_complete (revision : Z)
| next_work (key : string).

(** The worker envelope built from the run context. *)
Definition worker_envelope {P} (c : ExecutionRunContext) (expectedRevision : Z) (payload : P)
    : WorkerCommand.t P :=
  WorkerCommand.mk (ec_jobId c) expectedRevision (ec_runId c) (ec_fenceToken c)
    (ec_executionGeneration c) payload.

(** ** executor-adapter.ts *)

Definition task_state_is (s : TaskState.t) (t : ControlJobTaskRow.t) : bool :=
  bool_decide (ControlJobTaskRow.state t = s).

(** [completed] or [skipped] *)
Definition task_done (t : ControlJobTaskRow.t) : bool :=
  task_state_is TaskState.completed t || task_state_is TaskState.skipped t.

Definition task_work_key (taskId : string) : string := "task:" +:+ taskId.

Definition queryNextWork (c : ExecutionRunContext) (d : db) : NextWorkDecision :=
  match getWorkerAggregate (ec_jobId c) (ec_runId c) (ec_fenceToken c)
          (ec_executionGeneration c) d with
  | None => next_stale_run
  | Some job =>
      if bool_decide (JobAggregate.controlIntent job = ControlIntent.pause)
      then next_pause_requested (JobAggregate.stateRevision job)
      else
        let tasks := listTasksForGeneration (ec_jobId c) (ec_executionGeneration c) d in
        match List.find (task_state_is TaskState.queued) tasks with
        | Some t => next_work (task_work_key (ControlJobTaskRow.taskId t))
        | None =>
            match List.find (task_state_is TaskState.running) tasks with
            | Some t => next_work (task_work_key (ControlJobTaskRow.taskId t))
            | None =>
                if forallb task_done tasks then next_complete (JobAggregate.stateRevision job)
                else next_stale_run
            end
        end
  end.

(** [key.startsWith('task:')] and [key.slice('task:'.length)] *)
Definition task_of_key (key : string) : option string :=
  if String.prefix "task:" key then Some (String.substring 5 (String.length key - 5) key)
  else None.

(** An attempt the running branch of [executeOneDecision] resumes. *)
Definition resumable_attempt (runId : string) (a : ControlTaskAttemptRow.t) : bool :=
  bool_decide (ControlTaskAttemptRow.runId a = runId) &&
  bool_decide (ControlTaskAttemptRow.state a = AttemptState.running) &&
  bool_decide (ControlTaskAttemptRow.resultHash a = None).

(** The part of [executeOneDecision] before the provider is awaited: the id of
    the attempt to run, or [None] for [stale_run].  The task row is updated
    outside the transaction that creates the attempt. *)
Definition begin_decision (c : ExecutionRunContext) (key attemptId : string) (now : N) (d : db)
    : result error (option string) * db :=
  match task_of_key key with
  | None => (Ok None, d)
  | Some taskId =>
      match getCurrentTask (ec_jobId c) (ec_executionGeneration c) taskId d with
      | None => (Ok None, d)
      | Some task =>
          match ControlJobTaskRow.state task with
          | TaskState.queued =>
              match run_transaction (updateTaskState (ec_jobId c) (ec_executionGeneration c)
                      taskId TaskState.queued TaskState.running now) d with
              | (Ok true, d1) =>
                  match run_transaction (createAttempt (mkCreateAttemptInput attemptId
                          (ec_jobId c) (ec_executionGeneration c) taskId (ec_runId c)
                          AttemptState.running now None)) d1 with
                  | (Ok _, d2) => (Ok (Some attemptId), d2)
                  | (Err e, d2) => (Err e, d2)
                  end
              | (Ok false, d1) => (Ok None, d1)
              | (Err e, d1) => (Err e, d1)
              end
          | TaskState.running =>
              match List.find (resumable_attempt (ec_runId c))
                      (getTaskAttempts (ec_jobId c) (ec_executionGeneration c) taskId d) with
              | Some a => (Ok (Some (ControlTaskAttemptRow.id a)), d)
              | None => (Ok None, d)
              end
          | _ => (Ok None, d)
          end
      end
  end.

(** [TaskExecutionOutcome] *)
Inductive TaskExecutionOutcome :=
| outcome_result (raw : json)
| outcome_waiting (externalOperationId : string).

Section executor.
Context `{Sha256} `{TypeBox}.

(** The part of [executeOneDecision] after the provider answered. *)
Definition finish_decision (c : ExecutionRunContext) (key attemptId : string)
    (outcome : TaskExecutionOutcome) (failureId : string) (now : N) (d : db)
    : result error ExecutionStepResult * db :=
  match outcome with
  | outcome_waiting op => (Ok (step_waiting op), d)
  | outcome_result raw =>
      match validateTaskResult raw with
      | Err (TaskResultValidationError _ _) =>
          match JobCommandService.reportNoProgress
                  (worker_envelope c (ec_expectedRevision c)
                     (mkReportNoProgressPayload key (ec_expectedRevision c) key))
                  failureId now d with
          | (Ok _, d', _) => (Ok step_stale_run, d')
          | (Err e, d', _) => (Err e, d')
          end
      | Err e => (Err e, d)
      | Ok validated =>
          match JobCommandService.checkpointTask
                  (worker_envelope c (ec_expectedRevision c)
                     (mkTaskCheckpointPayload attemptId (vt_result validated))) now d with
          | (Ok checkpoint, d', _) => (Ok (step_advanced (cp_revision checkpoint) key), d')
          | (Err e, d', _) => (Err e, d')
          end
      end
  end.

(** ** executor-loop.ts: executeRun *)

(** The world around one iteration of the loop: whether the signal is aborted,
    what other commands do at the three suspension points, the provider's
    answer, the ids drawn and the clock. *)
Record Iteration := mkIteration {
  it_aborted : bool;
  it_before_query : db → db;
  it_after_query : db → db;
  it_during_task : db → db;
  it_provider : ExecutionRunContext → string → TaskExecutionOutcome;
  it_attemptId : string;
  it_failureId : string;
  it_now : N
}.

Definition advance_context (c : ExecutionRunContext) (revision : Z) (workIdentity : string)
    : ExecutionRunContext :=
  mkExecutionRunContext (ec_jobId c) (ec_runId c) (ec_fenceToken c) (ec_executionGeneration c)
    revision workIdentity.

(** One iteration: [inl] is a return (or a rejection) of the loop, [inr] the
    context the next iteration runs with.  The [reportNoProgress] call of the
    loop passes no [expectedRevision], which no revision equals: its fence
    refuses it, so it changes nothing. *)
Definition iteration (w : Iteration) (c : ExecutionRunContext) (d0 : db)
    : (result error unit + ExecutionRunContext) * db :=
  if it_aborted w then (inl (Ok tt), d0)
  else
    let d := it_before_query w d0 in
    match queryNextWork c d with
    | next_stale_run => (inl (Ok tt), d)
    | next_pause_requested revision =>
        match JobCommandService.acknowledgePause (worker_envelope c revision tt) (it_now w)
                (it_after_query w d) with
        | (Ok _, d', _) => (inl (Ok tt), d')
        | (Err e, d', _) => (inl (Err e), d')
        end
    | next_complete revision =>
        match JobCommandService.completeExecution (worker_envelope c revision tt) (it_now w)
                (it_after_query w d) with
        | (Ok _, d', _) => (inl (Ok tt), d')
        | (Err e, d', _) => (inl (Err e), d')
        end
    | next_work key =>
        match begin_decision c key (it_attemptId w) (it_now w) (it_after_query w d) with
        | (Err e, d1) => (inl (Err e), d1)
        | (Ok None, d1) => (inl (Ok tt), d1)
        | (Ok (Some attemptId), d1) =>
            match finish_decision c key attemptId (it_provider w c attemptId)
                    (it_failureId w) (it_now w) (it_during_task w d1) with
            | (Err e, d2) => (inl (Err e), d2)
            | (Ok step_stale_run, d2) => (inl (Ok tt), d2)
            | (Ok (step_waiting _), d2) => (inr c, d2)
            | (Ok (step_advanced revision identity), d2) =>
                if bool_decide (ec_expectedRevision c < revision)%Z ||
                   negb (String.eqb identity (ec_workIdentity c))
                then (inr (advance_context c revision identity), d2)
                else (inl (Ok tt), d2)
            end
        end
    end.

(** The loop; [world n] surrounds the n-th iteration.  [None]: out of fuel. *)
Fixpoint executeRun (fuel : nat) (world : nat → Iteration) (c : ExecutionRunContext) (d : db)
    : option (result error unit * db) :=
  match fuel with
  | O => None
  | S fuel' =>
      match iteration (world 0) c d with
      | (inl r, d') => Some (r, d')
      | (inr c', d') => executeRun fuel' (λ n, world (S n)) c' d'
      end
  end.
End executor.

(** ** task-execution-registry.ts *)

Module TaskExecutionRegistry.
(** [pendingResults] and the operations with a registered waiter. *)
Record t := mk {
  pendingResults : gmap string TaskExecutionOutcome;
  waiters : gset string
}.

Definition empty : t := mk ∅ ∅.

(** [waitFor]: [true] when the promise is already resolved. *)
Definition waitFor (operationId : string) (aborted : bool) (r : t) : bool * t :=
  if aborted then (true, r)
  else if bool_decide (is_Some (pendingResults r !! operationId)) then (true, r)
  else (false, mk (pendingResults r) ({[operationId]} ∪ waiters r)).

(** The abort listener of a registered waiter. *)
Definition onAbort (operationId : string) (r : t) : t :=
  mk (pendingResults r) (waiters r ∖ {[operationId]}).

(** [deliver]: [true] when a waiter was resolved. *)
Definition deliver (operationId : string) (outcome : TaskExecutionOutcome) (r : t) : bool * t :=
  let pending := <[operationId := outcome]> (pendingResults r) in
  if bool_decide (operationId ∈ waiters r)
  then (true, mk pending (waiters r ∖ {[operationId]}))
  else (false, mk pending (waiters r)).

Definition takePending (operationId : string) (r : t) : option TaskExecutionOutcome * t :=
  match pendingResults r !! operationId with
  | None => (None, r)
  | Some cached => (Some cached, mk (delete operationId (pendingResults r)) (waiters r))
  end.

(** [createRegistryTaskExecutionProvider(registry).executeTask] *)
Definition executeTask (attemptId : string) (r : t) : TaskExecutionOutcome * t :=
  match takePending attemptId r with
  | (Some pending, r') => (pending, r')
  | (None, r') => (outcome_waiting attemptId, r')
  end.
End TaskExecutionRegistry.
