(* ===== verification/Effects.v ===== *)
(** * What the repository operations may change

    Frame properties of every repository write: which tables an operation
    leaves alone ([same_jobs], [same_outbox]), how it may change the others
    ([mono]), and inversion lemmas for the three writes that carry the job
    protocol: the compare-and-set, the worker fence and the outbox append. *)
From S2P Require Import Prelude Json Contracts JobDomain TaskDomain Store JobRepo TaskRepo.
Local Open Scope tx_scope.

(** ** Row extension orders *)

Definition run_ext (r r' : ControlJobRunRow.t) : Prop :=
  ControlJobRunRow.id r' = ControlJobRunRow.id r ∧
  ControlJobRunRow.jobId r' = ControlJobRunRow.jobId r ∧
  ControlJobRunRow.kind r' = ControlJobRunRow.kind r ∧
  ControlJobRunRow.fenceToken r' = ControlJobRunRow.fenceToken r ∧
  ControlJobRunRow.executionGeneration r' = ControlJobRunRow.executionGeneration r.

Definition runtime_ext (r r' : ControlRuntimeInstanceRow.t) : Prop :=
  ControlRuntimeInstanceRow.id r' = ControlRuntimeInstanceRow.id r ∧
  ControlRuntimeInstanceRow.runId r' = ControlRuntimeInstanceRow.runId r ∧
  (ControlRuntimeInstanceRow.state r = RuntimeState.closed →
   ControlRuntimeInstanceRow.state r' = RuntimeState.closed).

(** A task keeps everything but its state and its update time. *)
Definition task_ext (t t' : ControlJobTaskRow.t) : Prop :=
  ∃ s now, t' = set_task_state s now t ∨ t' = t.

Definition attempt_ext (a a' : ControlTaskAttemptRow.t) : Prop :=
  ControlTaskAttemptRow.id a' = ControlTaskAttemptRow.id a ∧
  ControlTaskAttemptRow.jobId a' = ControlTaskAttemptRow.jobId a ∧
  ControlTaskAttemptRow.executionGeneration a' = ControlTaskAttemptRow.executionGeneration a ∧
  ControlTaskAttemptRow.taskId a' = ControlTaskAttemptRow.taskId a ∧
  ControlTaskAttemptRow.attemptNo a' = ControlTaskAttemptRow.attemptNo a ∧
  ControlTaskAttemptRow.runId a' = ControlTaskAttemptRow.runId a.

(** A verification that left [running] never changes again. *)
Definition verification_ext (v v' : ControlVerificationRow.t) : Prop :=
  ControlVerificationRow.id v' = ControlVerificationRow.id v ∧
  ControlVerificationRow.jobId v' = ControlVerificationRow.jobId v ∧
  (ControlVerificationRow.state v ≠ VerificationState.running → v' = v).

(** A released slot never changes again. *)
Definition slot_ext (r r' : ControlResourceSlotRow.t) : Prop :=
  ControlResourceSlotRow.id r' = ControlResourceSlotRow.id r ∧
  ControlResourceSlotRow.jobId r' = ControlResourceSlotRow.jobId r ∧
  ControlResourceSlotRow.runId r' = ControlResourceSlotRow.runId r ∧
  ControlResourceSlotRow.pool r' = ControlResourceSlotRow.pool r ∧
  (ControlResourceSlotRow.state r = SlotState.released → r' = r).

#[export] Instance run_ext_preorder : PreOrder run_ext.
Proof. split; [by intros r | intros r1 r2 r3; unfold run_ext; intuition congruence]. Qed.

#[export] Instance runtime_ext_preorder : PreOrder runtime_ext.
Proof. split; [by intros r | intros r1 r2 r3; unfold runtime_ext; intuition congruence]. Qed.

#[export] Instance task_ext_preorder : PreOrder task_ext.
Proof.
  split.
  - intros t. exists TaskState.queued, 0%N. by right.
  - intros t1 t2 t3 (s & n & H12) (s' & n' & H23).
    destruct H12 as [->| ->], H23 as [->| ->];
      solve [exists s', n'; by left | exists s, n; by left | exists s, n; by right].
Qed.

#[export] Instance attempt_ext_preorder : PreOrder attempt_ext.
Proof. split; [by intros r | intros r1 r2 r3; unfold attempt_ext; intuition congruence]. Qed.

#[export] Instance verification_ext_preorder : PreOrder verification_ext.
Proof.
  split; [by intros r|]. intros r1 r2 r3 (?&?&H12) (?&?&H23).
  split_and!; [congruence..|]. intros Hs. specialize (H12 Hs). subst r2. auto.
Qed.

#[export] Instance slot_ext_preorder : PreOrder slot_ext.
Proof.
  split; [by intros r|]. intros r1 r2 r3 (?&?&?&?&H12) (?&?&?&?&H23).
  split_and!; [congruence..|]. intros Hs. specialize (H12 Hs). subst r2. auto.
Qed.

(** ** How a database may evolve *)

(** Nothing is ever deleted, identity columns never change, settled rows stay
    settled, and the tables of receipts, failures and blobs only grow. *)
Record mono (d d' : db) : Prop := mkMono {
  mono_projects : projects d' = projects d;
  mono_threads : threads d' = threads d;
  mono_planRevisions : planRevisions d' = planRevisions d;
  mono_planSlices : planSlices d' = planSlices d;
  mono_runs : tab_le run_ext (runs d) (runs d');
  mono_runtimes : tab_le runtime_ext (runtimes d) (runtimes d');
  mono_tasks : tab_le task_ext (tasks d) (tasks d');
  mono_attempts : tab_le attempt_ext (attempts d) (attempts d');
  mono_verifications : tab_le verification_ext (verifications d) (verifications d');
  mono_slots : tab_le slot_ext (slots d) (slots d');
  mono_dedup : tab_le eq (dedup d) (dedup d');
  mono_failures : tab_le eq (failures d) (failures d');
  mono_evidence : tab_le eq (evidence d) (evidence d')
}.

#[export] Instance mono_preorder : PreOrder mono.
Proof.
  split.
  - intros d. split; try done; reflexivity.
  - intros d1 d2 d3 [] []. split; try congruence; etrans; eauto.
Qed.

(** [same_table f]: the table read by [f] is unchanged. *)
Definition same_table {A} (f : db → A) (d d' : db) : Prop := f d' = f d.

#[export] Instance same_table_preorder {A} (f : db → A) : PreOrder (same_table f).
Proof. split; unfold same_table; [by intros d | intros d1 d2 d3; congruence]. Qed.

Definition out_view (d : db) : list ControlOutboxEventRow.t * Z := (outbox d, outboxSeq d).

Notation same_jobs := (same_table jobs).
Notation same_outbox := (same_table out_view).
Notation same_runs := (same_table runs).
Notation same_slots := (same_table slots).
Notation same_dedup := (same_table dedup).

(** ** Frames of the repository writes *)

(** The only table the callback writes is the one [U] updates. *)
Definition writes {T A} (U : (T → T) → db → db) (m : tx A) : Prop :=
  ∀ s a s', m s = Ok (a, s') → s' = s ∨ ∃ g, s' = U g s.

Lemma writes_frame {T A B} (U : (T → T) → db → db) (m : tx A) (f : db → B) :
  writes U m → (∀ g d, f (U g d) = f d) → Respects (same_table f) m.
Proof. intros Hw Hf s a s' H. destruct (Hw _ _ _ H) as [->|[g ->]]; [done|apply Hf]. Qed.

Ltac solve_writes :=
  intros ?s ?a ?s' ?H; tx_inv; (by left) || (right; eexists; reflexivity).

Section writes.
Context `{Sha256}.

Lemma createRun_writes i : writes upd_runs (createRun i).
Proof. unfold createRun. solve_writes. Qed.
Lemma markRunState_writes r s o n : writes upd_runs (markRunState r s o n).
Proof. unfold markRunState. solve_writes. Qed.
Lemma markRunActive_writes r i n : writes upd_runs (markRunActive r i n).
Proof. unfold markRunActive. solve_writes. Qed.
Lemma compareAndSetJob_writes i : writes upd_jobs (compareAndSetJob i).
Proof. unfold compareAndSetJob. solve_writes. Qed.
Lemma workerFence_writes w n : writes upd_jobs (workerFence w n).
Proof. unfold workerFence. solve_writes. Qed.
Lemma insertFailure_writes i : writes upd_failures (insertFailure i).
Proof. unfold insertFailure. solve_writes. Qed.
Lemma createSlot_writes i j r p n : writes upd_slots (createSlot i j r p n).
Proof. unfold createSlot. solve_writes. Qed.
Lemma releaseSlot_writes r n : writes upd_slots (releaseSlot r n).
Proof. unfold releaseSlot. solve_writes. Qed.
Lemma createRuntimeInstance_writes i r o p h n :
  writes upd_runtimes (createRuntimeInstance i r o p h n).
Proof. unfold createRuntimeInstance. solve_writes. Qed.
Lemma closeRuntimeInstance_writes i r n k c g :
  writes upd_runtimes (closeRuntimeInstance i r n k c g).
Proof. unfold closeRuntimeInstance. solve_writes. Qed.
Lemma storeDedup_writes r : writes upd_dedup (storeDedup r).
Proof. unfold storeDedup. solve_writes. Qed.
Lemma updateTaskState_writes j g t e s n : writes upd_tasks (updateTaskState j g t e s n).
Proof. unfold updateTaskState. solve_writes. Qed.
Lemma finishAttempt_writes i h e r n m : writes upd_attempts (finishAttempt i h e r n m).
Proof. unfold finishAttempt. solve_writes. Qed.
Lemma createAttempt_writes i : writes upd_attempts (createAttempt i).
Proof. unfold createAttempt. solve_writes. Qed.
Lemma startAttempt_writes i : writes upd_attempts (startAttempt i).
Proof. unfold startAttempt. solve_writes. Qed.
Lemma put_blob_writes v n : writes upd_evidence (put_blob v n).
Proof. unfold put_blob. solve_writes. Qed.
Lemma createVerification_writes i : writes upd_verifications (createVerification i).
Proof. unfold createVerification. solve_writes. Qed.
Lemma markPassed_writes i b h r n : writes upd_verifications (markPassed i b h r n).
Proof. unfold markPassed. solve_writes. Qed.
Lemma markRejected_writes i f n : writes upd_verifications (markRejected i f n).
Proof. unfold markRejected. solve_writes. Qed.

Lemma insert_tasks_writes l : writes upd_tasks (insert_tasks l).
Proof.
  induction l as [|t l IH]; intros s a s' Hs; simpl in Hs; tx_inv; [by left|].
  right. destruct (IH _ _ _ Hs) as [->|[g ->]]; [by eexists|].
  exists (λ m, g (<[task_key t:=t]> m)). done.
Qed.

Lemma cloneTasksToGeneration_writes j g g' n :
  writes upd_tasks (cloneTasksToGeneration j g g' n).
Proof.
  intros s a s' Hs. unfold cloneTasksToGeneration in Hs. tx_inv.
  by eapply insert_tasks_writes.
Qed.
End writes.

Lemma appendOutbox_frame {B} (f : db → B) i :
  (∀ g z d, f (upd_outbox g z d) = f d) → Respects (same_table f) (appendOutbox i).
Proof. intros Hf s a s' Hs. unfold appendOutbox in Hs. tx_inv. apply Hf. Qed.

Lemma markDispatched_frame {B} (f : db → B) ids n :
  (∀ g z d, f (upd_outbox g z d) = f d) → Respects (same_table f) (markDispatched ids n).
Proof.
  intros Hf s a s' Hs. unfold markDispatched in Hs. tx_inv; [reflexivity|apply Hf].
Qed.

Lemma assertCapacityAvailable_frame R `{!PreOrder R} p k : Respects R (assertCapacityAvailable p k).
Proof. intros s a s' Hs. unfold assertCapacityAvailable in Hs. tx_inv. reflexivity. Qed.

#[export] Hint Resolve createRun_writes markRunState_writes markRunActive_writes
  compareAndSetJob_writes workerFence_writes insertFailure_writes createSlot_writes
  releaseSlot_writes createRuntimeInstance_writes closeRuntimeInstance_writes storeDedup_writes
  updateTaskState_writes finishAttempt_writes createAttempt_writes startAttempt_writes
  put_blob_writes createVerification_writes markPassed_writes markRejected_writes
  insert_tasks_writes cloneTasksToGeneration_writes : cp.

#[export] Hint Extern 5 (Respects (same_table _) _) =>
  eapply writes_frame; [solve [eauto with cp nocore] | intros ??; reflexivity] : cp.
#[export] Hint Extern 4 (Respects (same_table _) (appendOutbox _)) =>
  apply appendOutbox_frame; intros ???; reflexivity : cp.
#[export] Hint Extern 4 (Respects (same_table _) (markDispatched _ _)) =>
  apply markDispatched_frame; intros ???; reflexivity : cp.
#[export] Hint Extern 3 (Respects _ (assertCapacityAvailable _ _)) =>
  apply assertCapacityAvailable_frame; apply _ : cp.
#[export] Hint Extern 3 (Respects _ (putImmutable _ _)) => unfold putImmutable : cp.
#[export] Hint Extern 3 (Respects _ (putVerdictBlob _ _)) => unfold putVerdictBlob : cp.

(** Replaces the execution of a write that leaves the table [f] alone by the
    equation it keeps. *)
Ltac frame_step f :=
  match goal with
  | H : ?m ?s = Ok (_, ?s') |- _ =>
      let R := fresh "Hrsp" in
      assert (Respects (same_table f) m) as R by (solve_respects);
      apply R in H; clear R; unfold same_table in H
  end.

(** The same for one execution, which is kept. *)
Ltac frame_of f H F :=
  match type of H with ?m ?s = Ok (_, ?s') =>
    assert (f s' = f s) as F
      by (let R := fresh "Hrsp" in
          assert (Respects (same_table f) m) as R by (solve_respects); exact (R _ _ _ H))
  end.

(** ** Every write is monotone *)

(** Reduces [mono d (upd_T g d)] to the table that changed. *)
Ltac mono_table := split; try reflexivity; simpl.

Lemma fresh_key {K V} `{Countable K} (m : gmap K V) k :
  bool_decide (is_Some (m !! k)) = false → m !! k = None.
Proof. intros Hk%bool_decide_eq_false. by apply eq_None_not_Some. Qed.

Ltac solve_mono :=
  intros ?s ?a ?s' ?H; tx_inv; try reflexivity; mono_table;
  repeat match goal with
  | H : _ || _ = false |- _ => apply orb_false_iff in H; destruct H
  | H : bool_decide (is_Some (_ !! _)) = false |- _ => apply fresh_key in H
  end;
  first
    [ apply tab_le_insert_fresh; [apply _|done]
    | eapply tab_le_insert; [apply _|eassumption|]
    | apply tab_le_alter; [apply _|intros ?]
    | apply tab_le_fmap; intros ? ]; try done.

Lemma insertFailure_mono i : Respects mono (insertFailure i).
Proof. unfold insertFailure. solve_mono. Qed.
Lemma createRun_mono i : Respects mono (createRun i).
Proof. unfold createRun. solve_mono. Qed.
Lemma markRunState_mono r s o n : Respects mono (markRunState r s o n).
Proof. unfold markRunState. solve_mono. Qed.
Lemma markRunActive_mono r i n : Respects mono (markRunActive r i n).
Proof. unfold markRunActive. solve_mono. Qed.
Lemma compareAndSetJob_mono i : Respects mono (compareAndSetJob i).
Proof. intros s a s' Hs. unfold compareAndSetJob in Hs. tx_inv; by mono_table. Qed.
Lemma workerFence_mono w n : Respects mono (workerFence w n).
Proof. intros s a s' Hs. unfold workerFence in Hs. tx_inv; by mono_table. Qed.
Lemma createSlot_mono i j r p n : Respects mono (createSlot i j r p n).
Proof. unfold createSlot. solve_mono. Qed.

Lemma release_row_ext r n x : slot_ext x (release_row r n x).
Proof.
  unfold release_row, slot_active. destruct (_ && _) eqn:Hc; [|reflexivity].
  apply andb_true_iff in Hc as [_ Hc%bool_decide_eq_true].
  split_and!; try done. congruence.
Qed.

Lemma releaseSlot_mono r n : Respects mono (releaseSlot r n).
Proof. unfold releaseSlot. solve_mono. apply release_row_ext. Qed.
Lemma createRuntimeInstance_mono i r o p h n : Respects mono (createRuntimeInstance i r o p h n).
Proof. unfold createRuntimeInstance. solve_mono. Qed.
Lemma closeRuntimeInstance_mono i r n k c g : Respects mono (closeRuntimeInstance i r n k c g).
Proof. unfold closeRuntimeInstance. solve_mono. Qed.
Lemma storeDedup_mono r : Respects mono (storeDedup r).
Proof. unfold storeDedup. solve_mono. Qed.
Lemma updateTaskState_mono j g t e s n : Respects mono (updateTaskState j g t e s n).
Proof. unfold updateTaskState. solve_mono. exists s, n. by left. Qed.
Lemma finishAttempt_mono i h e r n m : Respects mono (finishAttempt i h e r n m).
Proof. unfold finishAttempt. solve_mono. Qed.
Lemma createAttempt_mono i : Respects mono (createAttempt i).
Proof. unfold createAttempt. solve_mono. Qed.
Lemma startAttempt_mono i : Respects mono (startAttempt i).
Proof. unfold startAttempt. solve_mono. Qed.
Lemma put_blob_mono `{Sha256} v n : Respects mono (put_blob v n).
Proof. unfold put_blob. solve_mono. Qed.
Lemma createVerification_mono i : Respects mono (createVerification i).
Proof. unfold createVerification. solve_mono. Qed.

Lemma verification_running_ext v v' :
  verification_running v = true →
  ControlVerificationRow.id v' = ControlVerificationRow.id v →
  ControlVerificationRow.jobId v' = ControlVerificationRow.jobId v → verification_ext v v'.
Proof. intros Hr%bool_decide_eq_true ??. by split_and!. Qed.

Lemma markPassed_mono i b h r n : Respects mono (markPassed i b h r n).
Proof. unfold markPassed. solve_mono. by apply verification_running_ext. Qed.
Lemma markRejected_mono i f n : Respects mono (markRejected i f n).
Proof. unfold markRejected. solve_mono. by apply verification_running_ext. Qed.
Lemma appendOutbox_mono i : Respects mono (appendOutbox i).
Proof. intros s a s' Hs. unfold appendOutbox in Hs. tx_inv. by mono_table. Qed.
Lemma markDispatched_mono i n : Respects mono (markDispatched i n).
Proof. intros s a s' Hs. unfold markDispatched in Hs. tx_inv; by mono_table. Qed.

Lemma insert_tasks_mono l : Respects mono (insert_tasks l).
Proof.
  induction l as [|t l IH]; simpl; [apply _|].
  intros s a s' Hs. tx_inv. etrans; [|by eapply IH].
  mono_table. apply tab_le_insert_fresh; [apply _|]. by apply fresh_key.
Qed.

#[export] Hint Resolve insertFailure_mono createRun_mono markRunState_mono markRunActive_mono
  compareAndSetJob_mono workerFence_mono createSlot_mono releaseSlot_mono
  createRuntimeInstance_mono closeRuntimeInstance_mono storeDedup_mono updateTaskState_mono
  finishAttempt_mono createAttempt_mono startAttempt_mono put_blob_mono createVerification_mono
  markPassed_mono markRejected_mono appendOutbox_mono markDispatched_mono insert_tasks_mono : cp.

(** ** Cloning the tasks of a generation *)

(** A task row is stored under its own key. *)
Definition tasks_keyed (d : db) : Prop := ∀ k t, tasks d !! k = Some t → task_key t = k.

Definition add_tasks (rows : list ControlJobTaskRow.t)
    (m : gmap (string * Z * string) ControlJobTaskRow.t)
    : gmap (string * Z * string) ControlJobTaskRow.t :=
  fold_left (λ m t, <[task_key t := t]> m) rows m.

Lemma insert_tasks_run l s :
  NoDup (map task_key l) →
  (∀ t, t ∈ l → tasks s !! task_key t = None ∧ jobs s !! ControlJobTaskRow.jobId t ≠ None) →
  insert_tasks l s = Ok (tt, upd_tasks (add_tasks l) s).
Proof.
  revert s. induction l as [|t l IH]; intros s Hnd Hl; [by destruct s|].
  simpl in Hnd. apply list.NoDup_cons in Hnd as [Ht Hnd].
  destruct (Hl t) as [Hfresh Hjob]; [set_solver|].
  simpl. rewrite tx_bind_gets. simpl.
  rewrite Hfresh, (bool_decide_eq_false_2 (is_Some _)) by (by intros [? ?]).
  rewrite bool_decide_eq_false_2 by done.
  rewrite tx_bind_modify, IH; [done..|]. intros t' Ht'. destruct (Hl t') as [Hf Hj]; [set_solver|].
  split; [|done]. simpl. rewrite lookup_insert_ne; [done|]. intros Heq. apply Ht. rewrite Heq.
  apply list_elem_of_In, in_map, list_elem_of_In, Ht'.
Qed.

Lemma add_tasks_other l m k : (∀ t, t ∈ l → task_key t ≠ k) → add_tasks l m !! k = m !! k.
Proof.
  unfold add_tasks. revert m. induction l as [|t l IH]; intros m Hl; [done|]. simpl.
  rewrite IH by set_solver. apply lookup_insert_ne, Hl. set_solver.
Qed.

Lemma add_tasks_lookup l m t :
  NoDup (map task_key l) → t ∈ l → add_tasks l m !! task_key t = Some t.
Proof.
  revert m. induction l as [|t' l IH]; intros m Hnd Ht; [set_solver|].
  simpl in Hnd. apply list.NoDup_cons in Hnd as [Hn Hnd].
  apply elem_of_cons in Ht as [->|Hin]; [|by apply (IH (<[task_key t' := t']> m))].
  change (add_tasks (t' :: l) m) with (add_tasks l (<[task_key t' := t']> m)).
  rewrite add_tasks_other; [by rewrite lookup_insert_eq|]. intros x Hx Heq. apply Hn.
  rewrite <-Heq. apply list_elem_of_In, in_map, list_elem_of_In, Hx.
Qed.

Lemma elem_of_listTasks jobId g d t :
  t ∈ listTasksForGeneration jobId g d ↔
  in_generation jobId g t = true ∧ ∃ k, tasks d !! k = Some t.
Proof.
  unfold listTasksForGeneration. rewrite merge_sort_Permutation, list_elem_of_In, filter_In,
    <-list_elem_of_In. unfold map_values. rewrite list_elem_of_fmap. split.
  - intros [([k t'] & -> & Hk) Hg]. split; [done|]. exists k. by apply elem_of_map_to_list.
  - intros [Hg [k Hk]]. split; [|done]. exists (k, t). split; [done|].
    by apply elem_of_map_to_list.
Qed.

Lemma listTasks_NoDup jobId g d :
  tasks_keyed d → NoDup (map task_key (listTasksForGeneration jobId g d)).
Proof.
  intros Hk. unfold listTasksForGeneration.
  assert (NoDup (map task_key (map_values (tasks d)))) as Hnd.
  { unfold map_values. rewrite <-list_fmap_compose.
    replace (task_key ∘ snd <$> map_to_list (tasks d)) with (fst <$> map_to_list (tasks d)).
    - apply NoDup_fst_map_to_list.
    - apply list_fmap_ext. intros i [k t] Hkt. simpl. symmetry. apply Hk.
      apply elem_of_map_to_list. by eapply list_elem_of_lookup_2. }
  rewrite (Permutation_map task_key (merge_sort_Permutation _ _)). by apply NoDup_map_filter.
Qed.

(** The rows [cloneTasksToGeneration] inserts. *)
Definition cloned_tasks (jobId : string) (source target : Z) (now : N) (d : db)
    : list ControlJobTaskRow.t :=
  clone_task target now <$> listTasksForGeneration jobId source d.

Lemma cloned_tasks_NoDup jobId source target now d :
  tasks_keyed d → NoDup (map task_key (cloned_tasks jobId source target now d)).
Proof.
  intros Hk. unfold cloned_tasks. pose proof (listTasks_NoDup jobId source d Hk) as Hnd.
  assert (∀ t, t ∈ listTasksForGeneration jobId source d → in_generation jobId source t = true)
    as Hg by (intros t; rewrite elem_of_listTasks; tauto).
  induction (listTasksForGeneration jobId source d) as [|t l IH]; simpl in *; [constructor|].
  apply list.NoDup_cons in Hnd as [Ht Hnd]. constructor; [|by apply IH; [|set_solver]].
  rewrite list_elem_of_In, in_map_iff in Ht |- *. intros (x & Hx & Hin).
  apply list_elem_of_In, list_elem_of_fmap in Hin as (y & -> & Hy). apply Ht. exists y.
  split; [|by apply list_elem_of_In]. unfold task_key, clone_task in *. simpl in *.
  pose proof (Hg t ltac:(set_solver)) as Hgt. pose proof (Hg y ltac:(set_solver)) as Hgy.
  unfold in_generation in Hgt, Hgy. rewrite andb_true_iff, !bool_decide_eq_true in Hgt, Hgy.
  destruct Hgt, Hgy. simplify_eq. congruence.
Qed.

Lemma cloneTasks_run jobId source target now s :
  tasks_keyed s → jobs s !! jobId ≠ None →
  (∀ taskId, tasks s !! (jobId, target, taskId) = None) →
  cloneTasksToGeneration jobId source target now s =
  Ok (length (listTasksForGeneration jobId source s),
      upd_tasks (add_tasks (cloned_tasks jobId source target now s)) s).
Proof.
  intros Hk Hj Hfree. unfold cloneTasksToGeneration. rewrite tx_bind_gets.
  fold (cloned_tasks jobId source target now s).
  erewrite tx_bind_run; [done|]. apply insert_tasks_run; [by apply cloned_tasks_NoDup|].
  intros t Ht. apply list_elem_of_fmap in Ht as (t0 & -> & Ht0).
  apply elem_of_listTasks in Ht0 as [Hg _]. unfold in_generation in Hg.
  rewrite andb_true_iff, !bool_decide_eq_true in Hg. destruct Hg as [Hjob _].
  unfold task_key, clone_task. simpl. rewrite Hjob. done.
Qed.
