(* ===== verification/ResultSpecs.v ===== *)
(** * Results, evidence and milestone readiness

    What [validateTaskResult] accepts, content addressing of evidence, and the
    two definitions of a ready milestone. *)
From S2P Require Import Prelude Json Contracts JobDomain TaskDomain Store JobRepo TaskRepo.
From S2P Require Import Effects.
Local Open Scope tx_scope.

(** ** Task results *)

Section results.
Context `{TypeBox}.

(** A task result that validateTaskResult accepts satisfies the schema, is returned
    unchanged, and its status, blockers, blocker kind and validation outcome fit the task state
    it is given. *)
Theorem validated_result_is_consistent raw v :
  validateTaskResult raw = Ok v →
  vt_result v = raw ∧ schema_valid TaskResultSchema raw = true ∧
  match vt_taskState v with
  | TaskState.completed =>
      res_str (res_status raw) "completed" = true ∧ res_blockers raw = [] ∧
      res_has_blockerKind raw = false ∧
      (res_str (res_outcome raw) "passed" = true ∨
       res_str (res_outcome raw) "not-applicable" = true)
  | TaskState.blocked =>
      res_str (res_status raw) "blocked" = true ∧ res_blockers raw ≠ [] ∧
      res_has_blockerKind raw = true
  | TaskState.failed =>
      res_str (res_status raw) "completed" = false ∧ res_str (res_status raw) "blocked" = false ∧
      (res_has_blockerKind raw = true → res_blockers raw ≠ [])
  | _ => False
  end.
Proof.
  intros Hv. split; [by eapply validateTaskResult_result|].
  unfold validateTaskResult, parseTaskResult in Hv.
  rewrite value_check_spec in Hv. destruct (schema_valid _ raw); [|done]. split; [done|].
  unfold validateTaskResultSemantics in Hv.
  destruct (res_str (res_status raw) "completed"), (res_str (res_status raw) "blocked"),
    (res_blockers raw) as [|b bs], (res_has_blockerKind raw),
    (res_str (res_outcome raw) "passed"), (res_str (res_outcome raw) "not-applicable");
    simpl in Hv; simplify_eq; simpl; tauto || naive_solver.
Qed.
End results.

(** ** Evidence blobs *)

Section evidence.
Context `{Sha256}.

(** Blobs are stored under the hash of their text. *)
Definition evidence_addressed (d : db) : Prop :=
  ∀ h b, evidence d !! h = Some b → sha256 (ControlEvidenceBlobRow.contentJson b) = h.

Lemma put_blob_ok v now d h d' :
  put_blob v now d = Ok (h, d') →
  h = sha256 (stringify v) ∧ is_Some (evidence d' !! h) ∧
  (evidence d !! h = None → getByHash h d' = Some (stringify v)) ∧
  (∀ k b, evidence d !! k = Some b → evidence d' !! k = Some b) ∧
  (evidence_addressed d → evidence_addressed d').
Proof.
  intros Hp. unfold put_blob in Hp. tx_inv; simpl in *.
  - split_and!; [done|by eexists|congruence|done|done].
  - unfold getByHash, evidence_addressed. simpl. rewrite lookup_insert_eq.
    split_and!; [done|by eexists|done| |].
    + intros k b Hk. rewrite lookup_insert_ne by congruence. done.
    + intros Ha k b. rewrite lookup_insert. case_decide; [intros [= <-]; by subst|apply Ha].
Qed.

(** Storing evidence returns the hash of its text, the blob can be read back and passes
    verifyHash, other blobs are untouched, and the table stays content addressed. *)
Theorem evidence_is_content_addressed items now d h d' :
  putImmutable items now d = Ok (h, d') →
  verifyHash h items = true ∧ is_Some (getByHash h d') ∧
  (evidence d !! h = None → getByHash h d' = Some (stringify (JArr items))) ∧
  (∀ k v, getByHash k d = Some v → getByHash k d' = Some v) ∧
  (evidence_addressed d → evidence_addressed d').
Proof.
  intros (-> & Hs & Hnew & Hold & Ha)%put_blob_ok. split_and!; try done.
  - unfold verifyHash. apply String.eqb_refl.
  - unfold getByHash. by rewrite fmap_is_Some.
  - intros k v. unfold getByHash. rewrite !fmap_Some. intros (b & Hb & ->). eauto.
Qed.
End evidence.

(** ** Milestones *)

(** The slice has a passed verification with a stored verdict. *)
Definition slice_verified (jobId : string) (generation planRevision : Z) (sliceId : string) (d : db)
    : Prop :=
  ∃ k v, verifications d !! k = Some v ∧ ControlVerificationRow.jobId v = jobId ∧
    ControlVerificationRow.executionGeneration v = generation ∧
    ControlVerificationRow.planRevision v = planRevision ∧
    ControlVerificationRow.scopeType v = ScopeType.slice ∧
    ControlVerificationRow.scopeId v = sliceId ∧
    ControlVerificationRow.state v = VerificationState.passed ∧
    is_Some (ControlVerificationRow.verdictBlobHash v).

Lemma any_row_iff {K V} `{Countable K} (p : V → bool) (m : gmap K V) :
  any_row p m = true ↔ ∃ k v, m !! k = Some v ∧ p v = true.
Proof.
  unfold any_row, map_values. rewrite existsb_exists. split.
  - intros (v & Hv & Hp). apply list_elem_of_In, list_elem_of_fmap in Hv as ([k v'] & -> & Hkv).
    apply elem_of_map_to_list in Hkv. eauto.
  - intros (k & v & Hk & Hp). exists v. split; [|done].
    apply list_elem_of_In, list_elem_of_fmap. exists (k, v). by rewrite elem_of_map_to_list.
Qed.

Lemma slice_missing_false generation planRevision d s :
  slice_missing generation planRevision d s = false ↔
  slice_verified (ControlPlanSliceRow.jobId s) generation planRevision
    (ControlPlanSliceRow.sliceId s) d.
Proof.
  unfold slice_missing, slice_verified. rewrite negb_false_iff, any_row_iff.
  unfold in_scope, passed_with_verdict. setoid_rewrite andb_true_iff.
  setoid_rewrite andb_true_iff. setoid_rewrite andb_true_iff.
  repeat setoid_rewrite andb_true_iff. repeat setoid_rewrite bool_decide_eq_true. naive_solver.
Qed.

(** A milestone is ready exactly when each of its slices has a passed verification with a
    stored verdict, of the given generation and plan revision. *)
Theorem milestone_ready_iff jobId generation planRevision milestoneId d :
  isMilestoneReady jobId generation planRevision milestoneId d = true ↔
  ∀ k s, planSlices d !! k = Some s → ControlPlanSliceRow.jobId s = jobId →
    ControlPlanSliceRow.planRevision s = planRevision →
    ControlPlanSliceRow.milestoneId s = milestoneId →
    slice_verified jobId generation planRevision (ControlPlanSliceRow.sliceId s) d.
Proof.
  unfold isMilestoneReady. rewrite bool_decide_eq_true. split.
  - intros Hf k s Hk <- <- <-. apply slice_missing_false. apply not_true_iff_false. intros Hm.
    assert (s ∈ @nil ControlPlanSliceRow.t) as Hin; [|set_solver].
    rewrite <-Hf, list_elem_of_In, filter_In, <-list_elem_of_In. split.
    + unfold map_values. apply list_elem_of_fmap. exists (k, s). by rewrite elem_of_map_to_list.
    + by rewrite Hm, !bool_decide_eq_true_2.
  - intros Hall. rewrite <-(filter_false (map_values (planSlices d))). apply filter_ext_in.
    intros s Hs. apply list_elem_of_In, list_elem_of_fmap in Hs as ([k s'] & -> & Hk).
    apply elem_of_map_to_list in Hk. simpl. apply not_true_iff_false.
    rewrite !andb_true_iff, !bool_decide_eq_true. intros [[[Hj Hp] Hm] Hmiss].
    assert (slice_missing generation planRevision d s' = false); [|congruence].
    apply slice_missing_false. rewrite Hj. by eapply Hall.
Qed.

(** The verification status of a slice is a pass with a verdict. *)
Definition status_ok (m : gmap string VerificationStatus) (sliceId : string) : Prop :=
  ∃ v, m !! sliceId = Some v ∧ vs_passed v = true ∧ is_Some (vs_verdictBlobHash v).

Lemma readiness_fold m l missing violations missing' violations' :
  fold_left (readiness_step m) l (missing, violations) = (missing', violations') →
  (missing' = [] ∧ violations' = [] ↔
   missing = [] ∧ violations = [] ∧ ∀ s, s ∈ l → status_ok m s).
Proof.
  revert missing violations. induction l as [|s l IH]; intros mi vi Hf; simpl in Hf.
  { simplify_eq. set_solver. }
  unfold readiness_step at 2 in Hf. simpl in Hf.
  destruct (m !! s) as [v|] eqn:Hs; [destruct (vs_passed v) eqn:Hp; simpl in Hf;
    [case_bool_decide as Hb|]|]; rewrite (IH _ _ Hf).
  - split; [by intros (_ & [_ ?]%app_nil & _)|]. intros (_ & _ & Hall).
    destruct (Hall s) as (v' & ? & _ & [? ?]); [set_solver|]. congruence.
  - assert (status_ok m s) by (exists v; split_and!; [done..|by apply not_eq_None_Some]).
    set_solver.
  - split; [by intros ([_ ?]%app_nil & _)|]. intros (_ & _ & Hall).
    destruct (Hall s) as (v' & ? & ? & _); [set_solver|]. congruence.
  - split; [by intros ([_ ?]%app_nil & _)|]. intros (_ & _ & Hall).
    destruct (Hall s) as (v' & ? & _); [set_solver|]. congruence.
Qed.

(** checkMilestoneReadiness reports ready exactly when each required slice has a
    verification result, it passed, and its verdict is stored. *)
Theorem readiness_check_iff milestoneId required results :
  mr_ready (checkMilestoneReadiness milestoneId required results) = true ↔
  ∀ s, s ∈ required → status_ok results s.
Proof.
  unfold checkMilestoneReadiness. destruct (fold_left _ _ _) as [missing violations] eqn:Hf.
  simpl. rewrite andb_true_iff, !bool_decide_eq_true, (readiness_fold _ _ _ _ _ _ Hf). naive_solver.
Qed.
