(* ===== verification/Outbox.v ===== *)
(** * The outbox dispatcher

    Models [src/server/application/outbox-dispatcher.ts].  The publisher is a
    state-passing function that says whether it returned or threw. *)
From S2P Require Import Prelude Json Contracts JobDomain TaskDomain Store JobRepo Effects.
Local Open Scope tx_scope.

(** ** outbox-dispatcher.ts *)

Section dispatcher.
Context {P : Type} (publisher : ControlOutboxEventRow.t → P → bool * P).

(** The [for] loop of [dispatchBatch]: the ids published without an exception. *)
Fixpoint publish_all (events : list ControlOutboxEventRow.t) (p : P) : list Z * P :=
  match events with
  | [] => ([], p)
  | event :: rest =>
      let '(ok, p1) := publisher event p in
      let '(ids, p2) := publish_all rest p1 in
      ((if ok then [ControlOutboxEventRow.eventId event] else []) ++ ids, p2)
  end.

Definition dispatchBatch (batchSize : nat) (now : N) (d : db) (p : P) : nat * db * P :=
  match getUndispatchedEvents batchSize d with
  | [] => (0, d, p)
  | events =>
      let '(ids, p') := publish_all events p in
      match ids with
      | [] => (0, d, p')
      | _ => (length ids, (run_transaction (markDispatched ids now) d).2, p')
      end
  end.

(** [flushLoop]; [None]: out of fuel. *)
Fixpoint flushLoop (fuel batchSize : nat) (now : N) (d : db) (p : P) : option (db * P) :=
  match fuel with
  | O => None
  | S fuel' =>
      match dispatchBatch batchSize now d p with
      | (O, d', p') => Some (d', p')
      | (S _, d', p') => flushLoop fuel' batchSize now d' p'
      end
  end.
End dispatcher.

Definition pending_count (d : db) : nat := length (List.filter undispatched (outbox d)).

(** *** Lemmas *)

Lemma set_dispatched_fields ids now e :
  ControlOutboxEventRow.eventId (set_dispatched ids now e) = ControlOutboxEventRow.eventId e ∧
  ControlOutboxEventRow.entityId (set_dispatched ids now e) = ControlOutboxEventRow.entityId e ∧
  ControlOutboxEventRow.aggregateRevision (set_dispatched ids now e) =
    ControlOutboxEventRow.aggregateRevision e.
Proof. unfold set_dispatched. by case_match. Qed.

Lemma undispatched_set ids now e :
  undispatched (set_dispatched ids now e) =
  undispatched e && negb (bool_decide (ControlOutboxEventRow.eventId e ∈ ids)).
Proof. unfold set_dispatched, undispatched. case_match; simpl; by rewrite ?andb_false_r, ?andb_true_r. Qed.

Lemma markDispatched_outbox ids now d :
  outbox (run_transaction (markDispatched ids now) d).2 = map (set_dispatched ids now) (outbox d).
Proof.
  unfold markDispatched. destruct ids as [|i ids]; simpl; [|done].
  rewrite <-(map_id (outbox d)) at 1. apply map_ext. intros e.
  unfold set_dispatched. by rewrite bool_decide_eq_false_2 by set_solver.
Qed.

(** The undispatched events after marking are those whose id was not marked. *)
Lemma undispatched_after ids now d :
  List.filter undispatched (outbox (run_transaction (markDispatched ids now) d).2) =
  List.filter (λ e, negb (bool_decide (ControlOutboxEventRow.eventId e ∈ ids)))
    (List.filter undispatched (outbox d)).
Proof.
  rewrite markDispatched_outbox. induction (outbox d) as [|e l IH]; [done|]. simpl.
  rewrite undispatched_set. destruct (undispatched e) eqn:Hu; simpl; [|done].
  destruct (bool_decide _) eqn:Hb; simpl; [done|].
  rewrite IH. f_equal. unfold set_dispatched. by rewrite Hb.
Qed.

Lemma filter_drops {A} (p : A → bool) l x :
  x ∈ l → p x = false → length (List.filter p l) < length l.
Proof.
  induction 1 as [x l|x y l Hx IH]; simpl; intros Hp.
  - rewrite Hp. pose proof (List.filter_length_le p l). lia.
  - specialize (IH Hp). destruct (p y); simpl; lia.
Qed.

Section dispatcher_lemmas.
Context {P : Type} (publisher : ControlOutboxEventRow.t → P → bool * P).

Lemma publish_all_ids events p ids p' :
  publish_all publisher events p = (ids, p') →
  ∀ i, i ∈ ids → ∃ e, e ∈ events ∧ ControlOutboxEventRow.eventId e = i.
Proof.
  revert p ids p'. induction events as [|e l IH]; intros p ids p' H i Hi; simpl in H.
  { simplify_eq. set_solver. }
  destruct (publisher e p) as [ok p1]. destruct (publish_all _ l p1) as [ids' p2] eqn:Hp.
  simplify_eq. apply elem_of_app in Hi as [Hi|Hi].
  - destruct ok; [|set_solver]. apply list_elem_of_singleton in Hi. exists e. set_solver.
  - destruct (IH _ _ _ Hp i Hi) as (e' & ? & ?). exists e'. set_solver.
Qed.

(** Every batch that published something shrinks the backlog. *)
Lemma dispatchBatch_shrinks batchSize now d p n d' p' :
  dispatchBatch publisher batchSize now d p = (S n, d', p') → pending_count d' < pending_count d.
Proof.
  unfold dispatchBatch, pending_count. intros H.
  destruct (getUndispatchedEvents batchSize d) as [|e0 es] eqn:Hev; [done|].
  destruct (publish_all publisher (e0 :: es) p) as [ids q] eqn:Hp.
  destruct ids as [|i ids]; [done|].
  assert (d' = (run_transaction (markDispatched (i :: ids) now) d).2) as -> by congruence.
  rewrite undispatched_after.
  destruct (publish_all_ids _ _ _ _ Hp i) as (e & He & Hid); [set_solver|].
  apply (filter_drops _ _ e).
  - rewrite <-Hev in He. by apply subseteq_take in He.
  - rewrite bool_decide_eq_true_2; [done|]. rewrite Hid. set_solver.
Qed.
End dispatcher_lemmas.

(** The flush loop of the outbox dispatcher ends for every publisher, also one that throws:
    with more fuel than there are undispatched events it returns. *)
Theorem flushLoop_terminates {P} (publisher : ControlOutboxEventRow.t → P → bool * P)
    fuel batchSize now d p :
  pending_count d < fuel → is_Some (flushLoop publisher fuel batchSize now d p).
Proof.
  revert d p. induction fuel as [|fuel IH]; intros d p Hf; [lia|]. simpl.
  destruct (dispatchBatch publisher batchSize now d p) as [[[|n] d'] p'] eqn:Hb; [by eauto|].
  apply dispatchBatch_shrinks in Hb. apply IH. lia.
Qed.

Section reliable_publisher.
Context {P : Type} (publisher : ControlOutboxEventRow.t → P → bool * P).
Hypothesis publisher_returns : ∀ e p, (publisher e p).1 = true.

(** The publisher applied to the events in order. *)
Definition deliver_all (events : list ControlOutboxEventRow.t) (p : P) : P :=
  fold_left (λ p e, (publisher e p).2) events p.

Lemma publish_all_reliable events p :
  publish_all publisher events p =
  (map ControlOutboxEventRow.eventId events, deliver_all events p).
Proof.
  revert p. induction events as [|e l IH]; intros p; [done|]. simpl.
  pose proof (publisher_returns e p) as Hok. destruct (publisher e p) as [ok p1] eqn:He.
  simpl in Hok. subst ok. by rewrite IH.
Qed.

Lemma filter_marked (l1 l2 : list ControlOutboxEventRow.t) :
  NoDup (map ControlOutboxEventRow.eventId (l1 ++ l2)) →
  List.filter (λ e, negb (bool_decide (ControlOutboxEventRow.eventId e ∈
                      map ControlOutboxEventRow.eventId l1))) (l1 ++ l2) = l2.
Proof.
  rewrite map_app, list.NoDup_app. intros (_ & Hdisj & _). rewrite List.filter_app.
  replace (List.filter _ l1) with (@nil ControlOutboxEventRow.t).
  - simpl. apply forallb_filter_id, forallb_forall. intros e He.
    apply negb_true_iff, bool_decide_eq_false. intros Hin. apply (Hdisj _ Hin).
    apply list_elem_of_In, in_map, He.
  - symmetry. rewrite <-(filter_false l1). apply filter_ext_in. intros e He.
    apply negb_false_iff, bool_decide_eq_true. apply list_elem_of_In, in_map, He.
Qed.

Lemma dispatchBatch_reliable batchSize now d p :
  NoDup (map ControlOutboxEventRow.eventId (outbox d)) →
  let pending := List.filter undispatched (outbox d) in
  ∃ d', dispatchBatch publisher batchSize now d p =
        (length (take batchSize pending), d', deliver_all (take batchSize pending) p) ∧
        List.filter undispatched (outbox d') = drop batchSize pending ∧
        map ControlOutboxEventRow.eventId (outbox d') = map ControlOutboxEventRow.eventId (outbox d).
Proof.
  intros Hnd pending. unfold dispatchBatch, getUndispatchedEvents. fold pending.
  destruct (take batchSize pending) as [|e es] eqn:Ht.
  { exists d. split_and!; try done.
    trans (take batchSize pending ++ drop batchSize pending); [by rewrite take_drop|by rewrite Ht]. }
  exists (run_transaction (markDispatched (map ControlOutboxEventRow.eventId
            (take batchSize pending)) now) d).2.
  split; [by rewrite publish_all_reliable, Ht; simpl; rewrite length_map|]. split.
  - rewrite undispatched_after. fold pending.
    pose proof (filter_marked (take batchSize pending) (drop batchSize pending)) as Hf.
    rewrite take_drop in Hf. by apply Hf, NoDup_map_filter.
  - rewrite markDispatched_outbox, map_map. apply map_ext. intros x. apply set_dispatched_fields.
Qed.

Lemma deliver_all_app l1 l2 p : deliver_all (l1 ++ l2) p = deliver_all l2 (deliver_all l1 p).
Proof. apply fold_left_app. Qed.

(** C39: With a publisher that does not throw, flushing the outbox hands every undispatched
    event to the publisher exactly once, in the order of the outbox, and leaves none
    undispatched. *)
Theorem flush_exactly_once fuel batchSize now d p :
  NoDup (map ControlOutboxEventRow.eventId (outbox d)) → 0 < batchSize →
  pending_count d < fuel →
  ∃ d', flushLoop publisher fuel batchSize now d p =
          Some (d', deliver_all (List.filter undispatched (outbox d)) p) ∧
        List.filter undispatched (outbox d') = [].
Proof.
  intros Hnd Hb. revert d p Hnd.
  induction fuel as [|fuel IH]; intros d p Hnd Hf; [lia|]. simpl.
  destruct (dispatchBatch_reliable batchSize now d p Hnd) as (d' & Hd & Hu & Hids).
  rewrite Hd. unfold pending_count in *. set (U := List.filter undispatched (outbox d)) in *.
  destruct (take batchSize U) as [|e es] eqn:Ht.
  - assert (U = []) as HU. { destruct U, batchSize; simpl in *; [done..|lia|done]. }
    exists d'. rewrite Hu, HU. split; [done|by destruct batchSize].
  - cbn [length]. destruct (IH d' (deliver_all (e :: es) p)) as (d2 & Hfl & Hdone).
    + by rewrite Hids.
    + rewrite Hu, length_drop.
      assert (0 < length U) by (destruct U; [by rewrite take_nil in Ht|simpl; lia]). lia.
    + exists d2. split; [|done]. rewrite Hfl, Hu. f_equal. f_equal.
      rewrite <-(take_drop batchSize U) at 2. by rewrite Ht, deliver_all_app.
Qed.
End reliable_publisher.
