(* ===== verification/Lifecycle.v ===== *)
(** * The job life cycle

    The abstract contract of the control plane: [life] is the state machine a
    job goes through, one revision per step, and [commit] is what a transaction
    may do to the database.  [commit] is the refinement target of every command
    of the services, the scheduler and the reconciler. *)
From S2P Require Import Prelude Json Contracts JobDomain TaskDomain Store JobRepo TaskRepo.
From S2P Require Import Commands Effects.
Local Open Scope tx_scope.

(** ** The abstract job machine *)

(** The successor of [j]: identity and plan are kept, the revision grows by one. *)
Definition evolve (j : JobAggregate.t) (state : JobState.t) (intent : ControlIntent.t)
    (target : option ResumeTarget.t) (generation : Z) (run failure : option string)
    : JobAggregate.t :=
  JobAggregate.mk (JobAggregate.id j) (JobAggregate.threadId j) (JobAggregate.projectId j)
    state (JobAggregate.stateRevision j + 1) intent target
    (JobAggregate.currentPlanRevision j) generation run failure.

(** The queue a queued or running job goes back to. *)
Definition queue_of (s : JobState.t) : ResumeTarget.t :=
  match s with
  | JobState.planning_queued | JobState.planning_running => ResumeTarget.planning_queued
  | _ => ResumeTarget.execution_queued
  end.

Definition running_of (s : JobState.t) : JobState.t :=
  match s with
  | JobState.planning_queued | JobState.planning_running => JobState.planning_running
  | _ => JobState.execution_running
  end.

Definition cancellable (s : JobState.t) : bool :=
  match s with
  | JobState.pausing | JobState.applying_changes | JobState.succeeded | JobState.cancelled => false
  | _ => true
  end.

Inductive life (j : JobAggregate.t) : JobAggregate.t → Prop :=
| life_pause_queued :
    isQueued (JobAggregate.state j) = true →
    life j (evolve j JobState.paused ControlIntent.none
              (Some (queue_of (JobAggregate.state j))) (JobAggregate.executionGeneration j)
              None (JobAggregate.lastFailureId j))
| life_pause_running :
    isRunning (JobAggregate.state j) = true →
    life j (evolve j JobState.pausing ControlIntent.pause
              (Some (queue_of (JobAggregate.state j))) (JobAggregate.executionGeneration j)
              (JobAggregate.activeRunId j) (JobAggregate.lastFailureId j))
| life_resume t :
    JobAggregate.state j = JobState.paused → JobAggregate.resumeTarget j = Some t →
    life j (evolve j (ResumeTarget.to_state t) ControlIntent.none None
              (JobAggregate.executionGeneration j) None (JobAggregate.lastFailureId j))
| life_retry :
    JobAggregate.state j = JobState.failed →
    life j (evolve j JobState.execution_queued ControlIntent.none None
              (JobAggregate.executionGeneration j) None (JobAggregate.lastFailureId j))
| life_restart :
    JobAggregate.state j = JobState.failed ∨ JobAggregate.state j = JobState.cancelled →
    life j (evolve j JobState.execution_queued ControlIntent.none None
              (JobAggregate.executionGeneration j + 1) None (JobAggregate.lastFailureId j))
| life_cancel :
    cancellable (JobAggregate.state j) = true →
    life j (evolve j JobState.cancelled ControlIntent.none None
              (JobAggregate.executionGeneration j) None (JobAggregate.lastFailureId j))
| life_claim run :
    isQueued (JobAggregate.state j) = true → JobAggregate.activeRunId j = None →
    life j (evolve j (running_of (JobAggregate.state j)) ControlIntent.none None
              (JobAggregate.executionGeneration j) (Some run) None)
| life_settle failure :
    JobAggregate.state j = JobState.pausing →
    life j (evolve j JobState.paused ControlIntent.none (JobAggregate.resumeTarget j)
              (JobAggregate.executionGeneration j) None failure)
| life_succeed run :
    JobAggregate.state j = JobState.execution_running →
    JobAggregate.controlIntent j = ControlIntent.none → JobAggregate.activeRunId j = Some run →
    life j (evolve j JobState.succeeded ControlIntent.none None
              (JobAggregate.executionGeneration j) None (JobAggregate.lastFailureId j))
| life_fail run failure :
    JobAggregate.activeRunId j = Some run →
    life j (evolve j JobState.failed ControlIntent.none None
              (JobAggregate.executionGeneration j) None (Some failure))
| life_touch run :
    JobAggregate.activeRunId j = Some run →
    life j (evolve j (JobAggregate.state j) (JobAggregate.controlIntent j)
              (JobAggregate.resumeTarget j) (JobAggregate.executionGeneration j)
              (JobAggregate.activeRunId j) (JobAggregate.lastFailureId j)).

Lemma life_revision j j' :
  life j j' → JobAggregate.stateRevision j' = (JobAggregate.stateRevision j + 1)%Z.
Proof. by destruct 1. Qed.

Lemma life_id j j' : life j j' → JobAggregate.id j' = JobAggregate.id j.
Proof. by destruct 1. Qed.

Lemma life_generation j j' :
  life j j' → (JobAggregate.executionGeneration j ≤ JobAggregate.executionGeneration j')%Z.
Proof. destruct 1; simpl; lia. Qed.

(** A run keeps its job only within one execution generation. *)
Lemma life_keeps_run j j' r :
  life j j' → JobAggregate.activeRunId j = Some r → JobAggregate.activeRunId j' = Some r →
  JobAggregate.executionGeneration j' = JobAggregate.executionGeneration j.
Proof. destruct 1; simpl; congruence. Qed.

(** The life cycle preserves the shape [validateJobInvariant] checks. *)
Lemma life_shape j j' b :
  life j j' → job_shape j b →
  (JobAggregate.activeRunId j' = JobAggregate.activeRunId j ∨ b = true) → job_shape j' b.
Proof.
  intros Hl Hs Hb. revert Hs. unfold job_shape.
  destruct Hl; simpl in *;
    repeat match goal with
    | H : _ ∨ _ |- _ => destruct H
    | H : JobAggregate.state j = _ |- _ => rewrite H
    | t : ResumeTarget.t |- _ => destruct t
    end; simpl; try done;
    destruct (JobAggregate.state j); simpl in *; try done; intuition congruence.
Qed.

(** ** What a transaction may do *)

Definition job_view (d : db) (id : string) : option JobAggregate.t := getAggregate id d.

(** The run [r] exists and belongs to the current generation of job [j]. *)
Definition run_of_job (d : db) (j : JobAggregate.t) (r : string) : Prop :=
  ∃ run, runs d !! r = Some run ∧ ControlJobRunRow.id run = r ∧
         ControlJobRunRow.jobId run = JobAggregate.id j ∧
         ControlJobRunRow.executionGeneration run = JobAggregate.executionGeneration j.

Inductive commit (d d' : db) : Prop :=
| commit_quiet :
    mono d d' → jobs d' = jobs d → outbox d' = outbox d → outboxSeq d' = outboxSeq d →
    commit d d'
| commit_job id row row' changed now :
    mono d d' →
    jobs d !! id = Some row →
    life (toAggregate row) (toAggregate row') →
    jobs d' = <[id := row']> (jobs d) →
    (∀ r, ControlJobRow.activeRunId row' = Some r →
          ControlJobRow.activeRunId row = Some r ∨ run_of_job d' (toAggregate row') r) →
    existsb (outbox_conflict (job_changed id (ControlJobRow.stateRevision row') changed now))
      (outbox d) = false →
    outboxSeq d' = (outboxSeq d + 1)%Z →
    outbox d' = outbox d ++
      [outbox_row (outboxSeq d + 1)
         (job_changed id (ControlJobRow.stateRevision row') changed now)] →
    commit d d'
| commit_dispatch ids now :
    mono d d' → jobs d' = jobs d → outboxSeq d' = outboxSeq d →
    outbox d' = map (set_dispatched ids now) (outbox d) →
    commit d d'.

(** ** Inversion of the protocol writes *)

Lemma compareAndSetJob_ok i s rev s' :
  compareAndSetJob i s = Ok (CasOk rev, s') →
  ∃ row, jobs s !! ci_jobId i = Some row ∧
    ControlJobRow.stateRevision row = ci_expectedRevision i ∧
    ControlJobRow.state row = ci_expectedState i ∧
    ControlJobRow.activeRunId row = ci_expectedActiveRunId i ∧
    rev = (ci_expectedRevision i + 1)%Z ∧
    s' = upd_jobs (<[ci_jobId i := cas_patch i row]>) s.
Proof.
  intros H. unfold compareAndSetJob in H. tx_inv.
  match goal with H : cas_matches _ ?row = true |- _ =>
    exists row; unfold cas_matches in H;
    rewrite !andb_true_iff, !bool_decide_eq_true in H; naive_solver end.
Qed.

Lemma compareAndSetJob_conflict i s s' : compareAndSetJob i s = Ok (CasConflict, s') → s' = s.
Proof. intros H. unfold compareAndSetJob in H. by tx_inv. Qed.

Lemma cas_or_throw_ok i code s rev s' :
  cas_or_throw i code s = Ok (rev, s') → compareAndSetJob i s = Ok (CasOk rev, s').
Proof. intros H. unfold cas_or_throw in H. tx_inv. done. Qed.

Lemma workerFence_ok w now s rev s' :
  workerFence w now s = Ok (Ok rev, s') →
  ∃ row, jobs s !! wf_jobId w = Some row ∧
    ControlJobRow.stateRevision row = wf_expectedRevision w ∧
    ControlJobRow.activeRunId row = Some (wf_runId w) ∧
    ControlJobRow.executionGeneration row = wf_executionGeneration w ∧
    rev = (wf_expectedRevision w + 1)%Z ∧
    s' = upd_jobs (<[wf_jobId w := bump_revision now row]>) s.
Proof.
  intros H. unfold workerFence in H. tx_inv.
  match goal with H : fence_matches _ _ ?row = true |- _ =>
    exists row; unfold fence_matches in H;
    rewrite !andb_true_iff, !bool_decide_eq_true in H; destruct H as [[[Hr ?] ?] _] end.
  rewrite Hr. naive_solver.
Qed.

Lemma workerFence_refused w now s reason s' :
  workerFence w now s = Ok (Err reason, s') → s' = s.
Proof. intros H. unfold workerFence in H. by tx_inv. Qed.

Lemma appendOutbox_ok i s e s' :
  appendOutbox i s = Ok (e, s') →
  existsb (outbox_conflict i) (outbox s) = false ∧ e = (outboxSeq s + 1)%Z ∧
  s' = upd_outbox (λ l, l ++ [outbox_row (outboxSeq s + 1) i]) (outboxSeq s + 1) s.
Proof. intros H. unfold appendOutbox in H. tx_inv. done. Qed.

(** ** Execution of the protocol writes *)

Lemma compareAndSetJob_run i s row :
  jobs s !! ci_jobId i = Some row →
  ControlJobRow.stateRevision row = ci_expectedRevision i →
  ControlJobRow.state row = ci_expectedState i →
  ControlJobRow.activeRunId row = ci_expectedActiveRunId i →
  compareAndSetJob i s =
  Ok (CasOk (ci_expectedRevision i + 1), upd_jobs (<[ci_jobId i := cas_patch i row]>) s).
Proof.
  intros Hrow Hrev Hst Hrun. unfold compareAndSetJob. rewrite tx_bind_gets. simpl. rewrite Hrow.
  unfold cas_matches. by rewrite !bool_decide_eq_true_2 by done.
Qed.

Lemma cas_or_throw_run i code s row :
  jobs s !! ci_jobId i = Some row →
  ControlJobRow.stateRevision row = ci_expectedRevision i →
  ControlJobRow.state row = ci_expectedState i →
  ControlJobRow.activeRunId row = ci_expectedActiveRunId i →
  cas_or_throw i code s =
  Ok ((ci_expectedRevision i + 1)%Z, upd_jobs (<[ci_jobId i := cas_patch i row]>) s).
Proof.
  intros ????. unfold cas_or_throw. by erewrite tx_bind_run by (by apply compareAndSetJob_run).
Qed.

Lemma appendOutbox_run i s :
  existsb (outbox_conflict i) (outbox s) = false →
  appendOutbox i s =
  Ok ((outboxSeq s + 1)%Z,
      upd_outbox (λ l, l ++ [outbox_row (outboxSeq s + 1) i]) (outboxSeq s + 1) s).
Proof. intros Hc. unfold appendOutbox. rewrite tx_bind_gets. simpl. by rewrite Hc. Qed.

(** No event is ahead of the revision [n] of job [id]. *)
Lemma outbox_no_conflict id n changed now l :
  (∀ e, e ∈ l → ControlOutboxEventRow.entityId e = id →
        (ControlOutboxEventRow.aggregateRevision e ≤ n)%Z) →
  existsb (outbox_conflict (job_changed id (n + 1) changed now)) l = false.
Proof.
  intros Hl. apply not_true_iff_false. rewrite existsb_exists. intros (e & He & Hc).
  unfold outbox_conflict in Hc. simpl in Hc.
  rewrite andb_true_iff, !bool_decide_eq_true in Hc. destruct Hc as [Hid Hrev].
  apply list_elem_of_In in He. specialize (Hl e He Hid). lia.
Qed.

(** ** The transition functions of the job domain are steps of the life cycle *)

Lemma requestPause_life j t :
  JobDomain.requestPause j = Ok t →
  life j (evolve j (nextState t) (tr_controlIntent t) (tr_resumeTarget t)
            (JobAggregate.executionGeneration j)
            (if clearActiveRun t then None else JobAggregate.activeRunId j)
            (JobAggregate.lastFailureId j)).
Proof.
  unfold JobDomain.requestPause. intros H.
  destruct (JobAggregate.state j) eqn:Hs; simplify_eq/=;
    [pose proof (life_pause_queued j) as L | pose proof (life_pause_running j) as L
    |pose proof (life_pause_queued j) as L | pose proof (life_pause_running j) as L];
    rewrite Hs in L; by apply L.
Qed.

Lemma continueJob_life j t :
  JobDomain.continueJob j = Ok t →
  life j (evolve j (nextState t) (tr_controlIntent t) (tr_resumeTarget t)
            (JobAggregate.executionGeneration j) None (JobAggregate.lastFailureId j)).
Proof.
  unfold JobDomain.continueJob. intros H.
  destruct (JobAggregate.state j) eqn:Hs; try done.
  - destruct (JobAggregate.resumeTarget j) eqn:Ht; simplify_eq/=. by apply life_resume.
  - simplify_eq/=. by apply life_retry.
Qed.

Lemma cancelJob_life j t :
  JobDomain.cancelJob j = Ok t →
  life j (evolve j JobState.cancelled ControlIntent.none None
            (JobAggregate.executionGeneration j) None (JobAggregate.lastFailureId j)).
Proof.
  unfold JobDomain.cancelJob. intros H. apply life_cancel.
  by destruct (JobAggregate.state j).
Qed.

Lemma restartExecution_life j t :
  JobDomain.restartExecution j = Ok t →
  life j (evolve j (nextState t) ControlIntent.none None
            (JobAggregate.executionGeneration j + 1) None (JobAggregate.lastFailureId j)).
Proof.
  unfold JobDomain.restartExecution. intros H.
  destruct (JobAggregate.state j) eqn:Hs; simplify_eq/=; apply life_restart; auto.
Qed.
