(* ===== verification/Refinement.v ===== *)
(** * Every command refines the life cycle

    For each transaction of the command services, the scheduler and the
    startup reconciler: when it commits, what it did to the database is a
    [commit] of the life cycle. *)
From S2P Require Import Prelude Json Contracts JobDomain TaskDomain Store JobRepo TaskRepo.
From S2P Require Import Commands InternalCommands Scheduler Effects Lifecycle.
Local Open Scope tx_scope.

(** The primary key of a job row is its [id] column. *)
Definition keyed (d : db) : Prop :=
  ∀ k row, jobs d !! k = Some row → ControlJobRow.id row = k.

Definition core_view (d : db) : gmap string ControlJobRow.t * (list ControlOutboxEventRow.t * Z) :=
  (jobs d, out_view d).
Notation same_core := (same_table core_view).

Lemma same_core_quiet d d' : mono d d' → same_core d d' → commit d d'.
Proof. intros Hm Hc. unfold same_table, core_view, out_view in Hc. simplify_eq. by apply commit_quiet. Qed.

Lemma cas_patch_evolve i row :
  toAggregate (cas_patch i row) =
  evolve (toAggregate row) (nx_state (ci_next i)) (nx_controlIntent (ci_next i))
    (nx_resumeTarget (ci_next i))
    (default (ControlJobRow.executionGeneration row) (nx_executionGeneration (ci_next i)))
    (nx_activeRunId (ci_next i)) (nx_lastFailureId (ci_next i)).
Proof. done. Qed.

Lemma bump_revision_life now row r :
  ControlJobRow.activeRunId row = Some r →
  life (toAggregate row) (toAggregate (bump_revision now row)).
Proof. intros Hr. by apply (life_touch (toAggregate row) r). Qed.

(** A compare-and-set followed by the append of its event, with writes to other
    tables before, between and after. *)
Lemma commit_cas d s1 s2 s3 s4 d' i rev changed now e :
  mono d d' → same_core d s1 →
  compareAndSetJob i s1 = Ok (CasOk rev, s2) →
  same_core s2 s3 →
  appendOutbox (job_changed (ci_jobId i) rev changed now) s3 = Ok (e, s4) →
  same_core s4 d' →
  (∀ row, jobs d !! ci_jobId i = Some row →
     ControlJobRow.stateRevision row = ci_expectedRevision i →
     ControlJobRow.state row = ci_expectedState i →
     ControlJobRow.activeRunId row = ci_expectedActiveRunId i →
     life (toAggregate row) (toAggregate (cas_patch i row)) ∧
     (∀ r, nx_activeRunId (ci_next i) = Some r →
           ControlJobRow.activeRunId row = Some r ∨
           run_of_job d' (toAggregate (cas_patch i row)) r)) →
  commit d d'.
Proof.
  unfold same_table, core_view, out_view. intros Hm H1 Hcas H3 Happ H4 Hlife.
  apply compareAndSetJob_ok in Hcas as (row & Hrow & Hrev & Hst & Hrun & -> & ->).
  apply appendOutbox_ok in Happ as (Hfree & -> & ->). simplify_eq/=.
  destruct (Hlife row) as [Hl Hr]; [congruence..|].
  match goal with H : jobs s1 = _ |- _ => rewrite H in * end.
  eapply (commit_job _ _ (ci_jobId i) row (cas_patch i row) changed now); eauto; simpl in *;
    congruence.
Qed.

(** The same for a worker fence, which leaves the job as it is. *)
Lemma commit_fence d s1 s2 s3 s4 d' w n rev changed now e :
  mono d d' → same_core d s1 →
  workerFence w n s1 = Ok (Ok rev, s2) →
  same_core s2 s3 →
  appendOutbox (job_changed (wf_jobId w) rev changed now) s3 = Ok (e, s4) →
  same_core s4 d' → commit d d'.
Proof.
  unfold same_table, core_view, out_view. intros Hm H1 Hcas H3 Happ H4.
  apply workerFence_ok in Hcas as (row & Hrow & Hrev & Hrun & Hgen & -> & ->).
  apply appendOutbox_ok in Happ as (Hfree & -> & ->). simplify_eq/=.
  match goal with H : jobs s1 = _ |- _ => rewrite H in * end.
  eapply (commit_job _ _ (wf_jobId w) row (bump_revision n row) changed now);
    eauto using bump_revision_life;
    simpl in *; try congruence.
Qed.

(** ** Automation *)

(** Turns the execution of a write that touches neither the jobs nor the outbox
    into the equation it keeps, and drops refused compare-and-sets. *)
Ltac core_step :=
  match goal with
  | H : cas_or_throw _ _ _ = Ok _ |- _ => apply cas_or_throw_ok in H
  | H : compareAndSetJob _ _ = Ok (CasConflict, _) |- _ =>
      apply compareAndSetJob_conflict in H; subst
  | H : workerFence _ _ _ = Ok (Err _, _) |- _ => apply workerFence_refused in H; subst
  | H : ?m ?s = Ok (_, ?s') |- _ =>
      lazymatch m with
      | compareAndSetJob _ => fail
      | workerFence _ _ => fail
      | appendOutbox _ => fail
      | _ =>
        let R := fresh "Hrsp" in
        assert (Respects same_core m) as R by (solve_respects);
        apply R in H; clear R
      end
  end.

(** Closes a [commit] goal whose job write is a compare-and-set; what is left is
    the life-cycle step of the row. *)
Ltac core_chain := unfold same_table in *; congruence.
Ltac finish_quiet := apply same_core_quiet; [done | core_chain].
Ltac finish_cas :=
  repeat core_step;
  first
    [ finish_quiet
    | eapply commit_cas; [eassumption | | eassumption | | eassumption | |];
      [core_chain..|]; simpl; intros ?row ?Hrow ?Hrev ?Hst ?Hrun ].
Ltac finish_fence :=
  repeat core_step;
  first
    [ finish_quiet
    | eapply commit_fence; [eassumption | | eassumption | | | ]; [core_chain| |eassumption|];
      core_chain ].

(** The row found by a compare-and-set is the row the handler read. *)
Ltac same_row Hk :=
  repeat match goal with
  | H : jobs ?d !! ?k = Some ?r, H' : jobs ?d !! ControlJobRow.id ?r = Some ?r' |- _ =>
      rewrite (Hk _ _ H) in H'; rewrite H in H'; injection H' as <-
  end.

(** ** User commands *)

Lemma with_replay_ok {P} (input : UserCommand.t P) c h fresh s a s' :
  with_replay input c h fresh s = Ok (a, s') →
  (s' = s ∧ ∃ row, getDedup (ActorContext.username (UserCommand.actor input))
                     (command_name c) (UserCommand.idempotencyKey input) s = Some row ∧
                   assertMatchingReplay row h c = Ok a) ∨
  getDedup (ActorContext.username (UserCommand.actor input))
    (command_name c) (UserCommand.idempotencyKey input) s = None ∧ fresh s = Ok (a, s').
Proof.
  intros H. unfold with_replay in H. tx_inv; naive_solver.
Qed.

Lemma load_for_user_ok {P} (input : UserCommand.t P) s job s' :
  load_for_user input s = Ok (job, s') →
  s' = s ∧ ∃ row, jobs s !! UserCommand.jobId input = Some row ∧
    ownerVisibilityPredicate (UserCommand.actor input) s row = true ∧
    job = toAggregate row ∧
    ControlJobRow.stateRevision row = UserCommand.expectedRevision input.
Proof.
  intros H. unfold load_for_user, getOwnedAggregate in H. tx_inv.
  match goal with H : negb (bool_decide _) = false |- _ =>
    apply negb_false_iff, bool_decide_eq_true in H end.
  repeat case_match; simplify_eq/=. split; [done|]. eauto.
Qed.

Lemma lift_transition_ok t s v s' : lift_transition t s = Ok (v, s') → s' = s ∧ t = Ok v.
Proof. intros H. unfold lift_transition in H. by tx_inv. Qed.

Ltac open_user :=
  repeat match goal with
  | H : with_replay _ _ _ _ _ = Ok _ |- _ =>
      apply with_replay_ok in H as [[-> _]|[_ H]]; [by apply commit_quiet|]
  | H : load_for_user _ _ = Ok _ |- _ =>
      apply load_for_user_ok in H as (-> & ?row & ? & ? & -> & ?)
  | H : lift_transition _ _ = Ok _ |- _ => apply lift_transition_ok in H as [-> ?]
  | _ => progress tx_inv
  end.

Section user_commands.
Context `{Sha256} `{TypeBox}.
Import JobCommandService.

Lemma requestPause_mono input now : Respects mono (requestPause_tx input now).
Proof.
  unfold requestPause_tx, with_replay, load_for_user, lift_transition, cas_or_throw,
    publish_and_store. solve_respects.
Qed.

Lemma requestPause_commit input now d a d' :
  keyed d → requestPause_tx input now d = Ok (a, d') → commit d d'.
Proof.
  intros Hk Hex. pose proof (requestPause_mono _ _ _ _ _ Hex) as Hm.
  unfold requestPause_tx, publish_and_store in Hex. open_user; finish_cas; same_row Hk.
  all: simpl in *; match goal with E : JobDomain.requestPause _ = Ok _ |- _ =>
    pose proof (requestPause_life _ _ E) as Hl end; simpl in Hl.
  all: rewrite Hrun in Hl; split; [exact Hl|]; case_match; naive_solver.
Qed.

Lemma continueJob_mono input now : Respects mono (continueJob_tx input now).
Proof.
  unfold continueJob_tx, with_replay, load_for_user, lift_transition, cas_or_throw,
    publish_and_store. solve_respects.
Qed.

Lemma continueJob_commit input now d a d' :
  keyed d → continueJob_tx input now d = Ok (a, d') → commit d d'.
Proof.
  intros Hk Hex. pose proof (continueJob_mono _ _ _ _ _ Hex) as Hm.
  unfold continueJob_tx, publish_and_store in Hex. open_user; finish_cas; same_row Hk.
  split; [|done]. by apply continueJob_life.
Qed.

Lemma cancelJob_mono input now : Respects mono (cancelJob_tx input now).
Proof.
  unfold cancelJob_tx, with_replay, load_for_user, lift_transition, cas_or_throw,
    publish_and_store. solve_respects.
Qed.

Lemma cancelJob_commit input now d a d' :
  keyed d → cancelJob_tx input now d = Ok (a, d') → commit d d'.
Proof.
  intros Hk Hex. pose proof (cancelJob_mono _ _ _ _ _ Hex) as Hm.
  unfold cancelJob_tx, publish_and_store in Hex. open_user; finish_cas; same_row Hk.
  all: split; [|done]; by eapply cancelJob_life.
Qed.

Lemma restartExecution_mono input now : Respects mono (restartExecution_tx input now).
Proof.
  unfold restartExecution_tx, with_replay, load_for_user, lift_transition, cas_or_throw,
    cloneTasksToGeneration, publish_and_store. solve_respects.
Qed.

Lemma restartExecution_commit input now d a d' :
  keyed d → restartExecution_tx input now d = Ok (a, d') → commit d d'.
Proof.
  intros Hk Hex. pose proof (restartExecution_mono _ _ _ _ _ Hex) as Hm.
  unfold restartExecution_tx, publish_and_store in Hex. open_user; finish_cas; same_row Hk.
  split; [|done]. by apply restartExecution_life.
Qed.
End user_commands.

(** ** Worker commands *)

Section worker_commands.
Context `{Sha256} `{TypeBox}.
Import JobCommandService.

Lemma worker_job_row {P} (input : WorkerCommand.t P) d job :
  worker_job input d = Some job →
  ∃ row, jobs d !! WorkerCommand.jobId input = Some row ∧ job = toAggregate row.
Proof. unfold worker_job, getWorkerAggregate. intros Hj. repeat case_match; naive_solver. Qed.

Lemma getAggregate_row id d job :
  getAggregate id d = Some job → ∃ row, jobs d !! id = Some row ∧ job = toAggregate row.
Proof. unfold getAggregate. rewrite fmap_Some. naive_solver. Qed.

Lemma keyed_same_core d d' : same_core d d' → keyed d → keyed d'.
Proof. unfold same_table, core_view, keyed. intros [= -> _]. done. Qed.

Lemma keyed_insert d id row row' :
  keyed d → jobs d !! id = Some row → ControlJobRow.id row' = ControlJobRow.id row →
  keyed (upd_jobs (<[id := row']>) d).
Proof.
  intros Hk Hrow Hid k r. simpl. rewrite lookup_insert. case_decide; [|by apply Hk].
  intros [= <-]. rewrite Hid. subst. by apply Hk.
Qed.

Lemma keyed_workerFence w now s a s' :
  keyed s → workerFence w now s = Ok (a, s') → keyed s'.
Proof.
  intros Hk Hf. destruct a as [rev|reason]; [|by apply workerFence_refused in Hf as ->].
  apply workerFence_ok in Hf as (row & Hrow & _ & _ & _ & _ & ->).
  by eapply keyed_insert.
Qed.

Lemma worker_job_id {P} (input : WorkerCommand.t P) d job :
  keyed d → worker_job input d = Some job → JobAggregate.id job = WorkerCommand.jobId input.
Proof. intros Hk (row & Hrow & ->)%worker_job_row. by apply Hk. Qed.
End worker_commands.

Ltac open_worker :=
  tx_inv;
  repeat match goal with
  | H : JobCommandService.worker_job _ _ = Some _ |- _ =>
      apply worker_job_row in H as (?row & ? & ->)
  | H : getAggregate _ _ = Some _ |- _ =>
      apply getAggregate_row in H as (?row & ? & ->)
  end.

Section worker_refinement.
Context `{Sha256} `{TypeBox}.
Import JobCommandService.

Lemma acknowledgePause_mono input now : Respects mono (acknowledgePause_tx input now).
Proof. unfold acknowledgePause_tx, cas_or_throw. solve_respects. Qed.

Lemma acknowledgePause_commit input now d a d' :
  keyed d → acknowledgePause_tx input now d = Ok (a, d') → commit d d'.
Proof.
  intros Hk Hex. pose proof (acknowledgePause_mono _ _ _ _ _ Hex) as Hm.
  unfold acknowledgePause_tx in Hex. open_worker; finish_cas; same_row Hk.
  split; [|done]. by apply life_settle.
Qed.

Lemma completeExecution_mono input now : Respects mono (completeExecution_tx input now).
Proof. unfold completeExecution_tx, assert_fence_or_throw, cas_or_throw. solve_respects. Qed.

Lemma completeExecution_commit input now d a d' :
  keyed d → completeExecution_tx input now d = Ok (a, d') → commit d d'.
Proof.
  intros Hk Hex. pose proof (completeExecution_mono _ _ _ _ _ Hex) as Hm.
  unfold completeExecution_tx, assert_fence_or_throw in Hex. open_worker; finish_cas; same_row Hk.
  split; [|done].
  match goal with H : _ || _ = false |- _ => apply orb_false_iff in H as [_ Hci] end.
  apply negb_false_iff, bool_decide_eq_true in Hci.
  by eapply (life_succeed (toAggregate _)).
Qed.

Lemma failPauseCheckpoint_mono input f now : Respects mono (failPauseCheckpoint_tx input f now).
Proof. unfold failPauseCheckpoint_tx, assert_fence_or_throw, cas_or_throw. solve_respects. Qed.

Lemma failPauseCheckpoint_commit input f now d a d' :
  keyed d → failPauseCheckpoint_tx input f now d = Ok (a, d') → commit d d'.
Proof.
  intros Hk Hex. pose proof (failPauseCheckpoint_mono _ _ _ _ _ _ Hex) as Hm.
  unfold failPauseCheckpoint_tx, assert_fence_or_throw in Hex.
  open_worker; finish_cas; same_row Hk.
  split; [|done]. by apply life_settle.
Qed.

Lemma reportNoProgress_mono input f now : Respects mono (reportNoProgress_tx input f now).
Proof. unfold reportNoProgress_tx. solve_respects. Qed.

Lemma reportNoProgress_commit input f now d a d' :
  keyed d → reportNoProgress_tx input f now d = Ok (a, d') → commit d d'.
Proof.
  intros Hk Hex. pose proof (reportNoProgress_mono _ _ _ _ _ _ Hex) as Hm.
  unfold reportNoProgress_tx in Hex. open_worker; finish_cas; same_row Hk.
  split; [|done]. by eapply life_fail.
Qed.

Lemma interruptRun_mono input f now : Respects mono (interruptRun_tx input f now).
Proof. unfold interruptRun_tx. solve_respects. Qed.

Lemma interruptRun_commit input f now d a d' :
  keyed d → interruptRun_tx input f now d = Ok (a, d') → commit d d'.
Proof.
  intros Hk Hex. pose proof (interruptRun_mono _ _ _ _ _ _ Hex) as Hm.
  unfold interruptRun_tx in Hex. open_worker; finish_cas; same_row Hk.
  - split; [|done]. by apply life_settle.
  - split; [|done]. by eapply life_fail.
Qed.

Lemma checkpointTask_mono input now : Respects mono (checkpointTask_tx input now).
Proof. unfold checkpointTask_tx, assert_fence_or_throw. solve_respects. Qed.

Lemma checkpointTask_commit input now d a d' :
  keyed d → checkpointTask_tx input now d = Ok (a, d') → commit d d'.
Proof.
  intros Hk Hex. pose proof (checkpointTask_mono _ _ _ _ _ Hex) as Hm.
  unfold checkpointTask_tx, assert_fence_or_throw in Hex. tx_inv; repeat core_step;
    try finish_quiet.
  match goal with Hw : worker_job input _ = Some ?job, Hf : workerFence _ _ _ = _ |- _ =>
    assert (JobAggregate.id job = WorkerCommand.jobId input) as Hid end.
  { eapply worker_job_id; [|eassumption]. eapply keyed_same_core; [eassumption|].
    eapply keyed_workerFence; [|eassumption]. done. }
  rewrite Hid in *. eapply commit_fence; [eassumption| |eassumption| |eassumption|]; core_chain.
Qed.
End worker_refinement.

(** ** Internal execution commands *)

Section internal_refinement.
Context `{Sha256}.
Import InternalExecution.

Lemma runtimeStarted_mono input i now : Respects mono (runtimeStarted_tx input i now).
Proof. unfold runtimeStarted_tx, assert_fence_plain. solve_respects. Qed.

Lemma runtimeStarted_commit input i now d a d' :
  keyed d → runtimeStarted_tx input i now d = Ok (a, d') → commit d d'.
Proof.
  intros Hk Hex. pose proof (runtimeStarted_mono _ _ _ _ _ _ Hex) as Hm.
  unfold runtimeStarted_tx, assert_fence_plain in Hex. open_worker; finish_cas.
  match goal with Hj : jobs _ !! _ = Some ?r, Hc : same_core _ _ |- _ =>
    assert (row0 = r) as -> by (unfold same_table, core_view in *; congruence) end.
  split; [|naive_solver].
  rewrite cas_patch_evolve; simpl.
  pose proof (life_touch (toAggregate row) _ Hrun) as Hl. simpl in Hl.
  rewrite Hrun in Hl. exact Hl.
Qed.

Lemma runtimeExited_mono input f now : Respects mono (runtimeExited_tx input f now).
Proof.
  unfold runtimeExited_tx, exited_unmatched, exited_pausing, exited_failed, cleanup_run,
    close_instance. solve_respects.
Qed.

Lemma runtimeExited_commit input f now d a d' :
  keyed d → runtimeExited_tx input f now d = Ok (a, d') → commit d d'.
Proof.
  intros Hk Hex. pose proof (runtimeExited_mono _ _ _ _ _ _ Hex) as Hm.
  unfold runtimeExited_tx, exited_unmatched, exited_pausing, exited_failed, cleanup_run,
    close_instance in Hex.
  open_worker; finish_cas; same_row Hk.
  - split; [|done]. by apply life_settle.
  - split; [|done]. by eapply life_fail.
Qed.

Lemma startVerification_mono input v now : Respects mono (startVerification_tx input v now).
Proof. unfold startVerification_tx, worker_fence_plain. solve_respects. Qed.

Lemma startVerification_commit input v now d a d' :
  keyed d → startVerification_tx input v now d = Ok (a, d') → commit d d'.
Proof.
  intros Hk Hex. pose proof (startVerification_mono _ _ _ _ _ _ Hex) as Hm.
  unfold startVerification_tx, worker_fence_plain in Hex. tx_inv; finish_fence.
Qed.

Lemma internal_reportNoProgress_mono input f now : Respects mono (reportNoProgress_tx input f now).
Proof. unfold reportNoProgress_tx. solve_respects. Qed.

Lemma internal_reportNoProgress_commit input f now d a d' :
  keyed d → reportNoProgress_tx input f now d = Ok (a, d') → commit d d'.
Proof.
  intros Hk Hex. pose proof (internal_reportNoProgress_mono _ _ _ _ _ _ Hex) as Hm.
  unfold reportNoProgress_tx in Hex. open_worker; finish_cas; same_row Hk.
  split; [|done]. by eapply life_fail.
Qed.

Lemma completeVerification_mono input sc now :
  Respects mono (completeVerification_tx input sc now).
Proof. unfold completeVerification_tx, worker_fence_plain. solve_respects. Qed.

Lemma completeVerification_commit input sc now d a d' :
  keyed d → completeVerification_tx input sc now d = Ok (a, d') → commit d d'.
Proof.
  intros Hk Hex. pose proof (completeVerification_mono _ _ _ _ _ _ Hex) as Hm.
  unfold completeVerification_tx, worker_fence_plain in Hex. tx_inv; finish_fence.
Qed.
End internal_refinement.

(** ** Scheduler and reconciler *)

(** [job] was read from this database or an earlier one: it is the current row
    unless the revision moved on. *)
Definition snapshot (d : db) (job : JobAggregate.t) : Prop :=
  ∃ row, jobs d !! JobAggregate.id job = Some row ∧
    (JobAggregate.stateRevision job ≤ ControlJobRow.stateRevision row)%Z ∧
    (ControlJobRow.stateRevision row = JobAggregate.stateRevision job → toAggregate row = job).

Lemma snapshot_row d job row :
  snapshot d job → jobs d !! JobAggregate.id job = Some row →
  ControlJobRow.stateRevision row = JobAggregate.stateRevision job → toAggregate row = job.
Proof. intros (row' & Hrow & _ & Hs). naive_solver. Qed.

Lemma snapshot_read d k row :
  keyed d → jobs d !! k = Some row → snapshot d (toAggregate row).
Proof. intros Hk Hrow. exists row. simpl. rewrite (Hk _ _ Hrow). split_and!; [done|lia|done]. Qed.

Lemma snapshot_commit d d' job : snapshot d job → commit d d' → snapshot d' job.
Proof.
  intros (row & Hrow & Hle & Heq) Hc.
  destruct Hc as [_ Hj _ _|id r r' ch n _ Hr Hl Hj _ _ _ _|ids n _ Hj _ _]; unfold snapshot;
    rewrite Hj; [by eauto | | by eauto].
  rewrite lookup_insert. case_decide as Hid; [|by eauto].
  subst. rewrite Hrow in Hr. simplify_eq.
  apply life_revision in Hl. simpl in Hl. exists r'. split_and!; [done|lia|lia].
Qed.

Lemma claimJob_mono k job ids now : Respects mono (claimJob_tx k job ids now).
Proof. unfold claimJob_tx. solve_respects. Qed.

Lemma createRun_ok i s a s' :
  createRun i s = Ok (a, s') →
  runs s !! cr_id i = None ∧
  runs s' !! cr_id i =
    Some (ControlJobRunRow.mk (cr_id i) (cr_jobId i) (cr_kind i) RunState.starting 1
            (cr_fenceToken i) (cr_executionGeneration i) None None None None
            (cr_startedAtMs i) None).
Proof.
  intros H. unfold createRun in H. tx_inv. simpl. rewrite lookup_insert_eq. split; [|done].
  match goal with H : _ || _ = false |- _ => apply orb_false_iff in H as [H _] end.
  by apply fresh_key.
Qed.

Lemma createSlot_same_runs i j r p n : Respects same_runs (createSlot i j r p n).
Proof. eauto with cp nocore. Qed.

Lemma appendOutbox_same_runs i : Respects same_runs (appendOutbox i).
Proof. eauto with cp nocore. Qed.

Lemma claimJob_commit k job ids now d a d' :
  snapshot d job → isQueued (JobAggregate.state job) = true →
  claimJob_tx k job ids now d = Ok (a, d') → commit d d'.
Proof.
  intros Hs Hq Hex. pose proof (claimJob_mono _ _ _ _ _ _ _ Hex) as Hm.
  unfold claimJob_tx in Hex. tx_inv; try (repeat core_step; finish_quiet).
  pose proof (createRun_ok _ _ _ _ ltac:(eassumption)) as [_ Hc].
  pose proof (createSlot_same_runs _ _ _ _ _ _ _ _ ltac:(eassumption)) as Hr1.
  pose proof (appendOutbox_same_runs _ _ _ _ ltac:(eassumption)) as Hr2.
  unfold same_table in Hr1, Hr2. rewrite <-Hr1, <-Hr2 in Hc. finish_cas.
  pose proof (snapshot_row _ _ _ Hs Hrow Hrev) as <-. split.
  - unfold claim_target. rewrite cas_patch_evolve; simpl.
    pose proof (life_claim (toAggregate row) (cl_runId ids) Hq Hrun) as Hl. simpl in Hl, Hq.
    by destruct (ControlJobRow.state row).
  - intros r [= <-]. right. eexists. split; [exact Hc|]. done.
Qed.

Section reconcile_refinement.

Lemma executeDecision_mono job dec f now : Respects mono (executeDecision_tx job dec f now).
Proof.
  unfold executeDecision_tx, settlePaused_tx, settleInterruptedFailure_tx, settleRuntimeLost_tx,
    settle_cas. solve_respects.
Qed.

(** What a settlement decision presupposes of the job. *)
Definition decision_fits (job : JobAggregate.t) (dec : ReconcileDecision) : Prop :=
  match dec with
  | settle_paused _ => JobAggregate.state job = JobState.pausing
  | settle_interrupted_failure _ | settle_runtime_lost _ => JobAggregate.activeRunId job ≠ None
  | _ => True
  end.

Lemma executeDecision_commit job dec f now d a d' :
  snapshot d job → decision_fits job dec →
  executeDecision_tx job dec f now d = Ok (a, d') → commit d d'.
Proof.
  intros Hs Hfit Hex. pose proof (executeDecision_mono _ _ _ _ _ _ _ Hex) as Hm.
  unfold executeDecision_tx, settlePaused_tx, settleInterruptedFailure_tx, settleRuntimeLost_tx,
    settle_cas in Hex.
  tx_inv; finish_cas; simpl in Hfit; pose proof (snapshot_row _ _ _ Hs Hrow Hrev) as <-; (split; [|done]);
    solve [by apply life_settle
          | destruct (ControlJobRow.activeRunId row) eqn:?; [by eapply life_fail|done]].
Qed.

Lemma decide_fits supervised job d :
  decision_fits job (decideStartupReconcile (reconcile_input supervised job d)).
Proof.
  unfold decideStartupReconcile, reconcile_input. simpl.
  destruct (JobAggregate.activeRunId job) as [r|] eqn:Hr; simpl; repeat case_match; simpl;
    try done; rewrite ?andb_true_iff, ?bool_decide_eq_true in *; naive_solver.
Qed.
End reconcile_refinement.
