(* ===== verification/Steps.v ===== *)
(** * The control plane as a transition system

    [op] lists the operations that write the control-plane database, [exec]
    runs one of them, and [reachable] closes [exec] under sequences in any
    order: commands of users, commands of workers, the scheduler's ticks, the
    startup reconciliation, the executor's task writes and the outbox
    dispatcher.  The invariant [inv] is shown to hold in every reachable
    state. *)
From S2P Require Import Prelude Json Contracts JobDomain TaskDomain Store JobRepo TaskRepo.
From S2P Require Import Commands InternalCommands Scheduler Executor Effects Outbox Lifecycle.
From S2P Require Import Refinement.
Local Open Scope tx_scope.

(** ** infra/sqlite/control-plane/invariant-sweep.ts *)

Record QuarantinedJob := mkQuarantinedJob {
  qj_jobId : string;
  qj_violations : list InvariantViolation
}.

Definition sweep_row (d : db) (row : ControlJobRow.t) : list QuarantinedJob :=
  let job := toAggregate row in
  let activeRun :=
    match JobAggregate.activeRunId job with
    | Some r => getActiveRunSummary r d
    | None => None
    end in
  match validateJobInvariant job activeRun with
  | [] => []
  | violations => [mkQuarantinedJob (JobAggregate.id job) violations]
  end.

Definition sweep (d : db) : list QuarantinedJob :=
  concat (map (sweep_row d) (map_values (jobs d))).

(** ** Operations *)

Record config := mkConfig {
  cfg_maxConcurrentJobs : nat;
  cfg_capabilities : SchedulerCapabilities
}.

Inductive op :=
| OpRequestPause (input : UserCommand.t unit) (now : N)
| OpContinueJob (input : UserCommand.t unit) (now : N)
| OpCancelJob (input : UserCommand.t CancelJobPayload) (now : N)
| OpRestartExecution (input : UserCommand.t unit) (now : N)
| OpAcknowledgePause (input : WorkerCommand.t unit) (now : N)
| OpCompleteExecution (input : WorkerCommand.t unit) (now : N)
| OpCheckpointTask (input : WorkerCommand.t TaskCheckpointPayload) (now : N)
| OpFailPauseCheckpoint (input : WorkerCommand.t string) (failureId : string) (now : N)
| OpReportNoProgress (input : WorkerCommand.t ReportNoProgressPayload) (failureId : string) (now : N)
| OpInterruptRun (input : WorkerCommand.t RunInterruptedPayload) (failureId : string) (now : N)
| OpRuntimeStarted (input : WorkerCommand.t RuntimeStartedPayload) (newId : string) (now : N)
| OpRuntimeExited (input : WorkerCommand.t RuntimeExitedPayload) (failureId : string) (now : N)
| OpStartVerification (input : WorkerCommand.t StartVerificationPayload) (id : string) (now : N)
| OpInternalNoProgress (input : WorkerCommand.t ReportNoProgressPayload) (failureId : string) (now : N)
| OpCompleteVerification (input : WorkerCommand.t CompleteVerificationPayload) (scope : ScopeType.t) (now : N)
| OpBeginDecision (c : ExecutionRunContext) (key attemptId : string) (now : N)
| OpTick (running : bool) (ids : nat → ClaimIds) (now : N)
| OpReconcileAll (supervised : string → bool) (failureIds : nat → string) (now : N)
| OpMarkDispatched (eventIds : list Z) (now : N).

Section exec.
Context `{Sha256} `{TypeBox} (cfg : config).

Definition exec (o : op) (d : db) : db :=
  match o with
  | OpRequestPause i now => (JobCommandService.requestPause i now d).1.2
  | OpContinueJob i now => (JobCommandService.continueJob i now d).1.2
  | OpCancelJob i now => (JobCommandService.cancelJob i now d).1.2
  | OpRestartExecution i now => (JobCommandService.restartExecution i now d).1.2
  | OpAcknowledgePause i now => (JobCommandService.acknowledgePause i now d).1.2
  | OpCompleteExecution i now => (JobCommandService.completeExecution i now d).1.2
  | OpCheckpointTask i now => (JobCommandService.checkpointTask i now d).1.2
  | OpFailPauseCheckpoint i f now => (JobCommandService.failPauseCheckpoint i f now d).1.2
  | OpReportNoProgress i f now => (JobCommandService.reportNoProgress i f now d).1.2
  | OpInterruptRun i f now => (JobCommandService.interruptRun i f now d).1.2
  | OpRuntimeStarted i n now => (InternalExecution.runtimeStarted i n now d).2
  | OpRuntimeExited i f now => (InternalExecution.runtimeExited i f now d).2
  | OpStartVerification i v now => (InternalExecution.startVerification i v now d).2
  | OpInternalNoProgress i f now => (InternalExecution.reportNoProgress i f now d).2
  | OpCompleteVerification i ScopeType.slice now =>
      (InternalExecution.completeSliceVerification i now d).2
  | OpCompleteVerification i ScopeType.milestone now =>
      (InternalExecution.completeMilestoneVerification i now d).2
  | OpBeginDecision c key a now => (begin_decision c key a now d).2
  | OpTick running ids now =>
      (tick (cfg_maxConcurrentJobs cfg) (cfg_capabilities cfg) running ids now d).2
  | OpReconcileAll s f now => (reconcileAll s f now d).2
  | OpMarkDispatched ids now => (run_transaction (markDispatched ids now) d).2
  end.

Definition exec_all (ops : list op) (d : db) : db := fold_left (λ d o, exec o d) ops d.

(** [reachable d0 d]: some sequence of operations leads from [d0] to [d]. *)
Inductive reachable (d0 : db) : db → Prop :=
| reachable_init : reachable d0 d0
| reachable_step d o : reachable d0 d → reachable d0 (exec o d).

Lemma reachable_exec_all d0 ops : reachable d0 (exec_all ops d0).
Proof.
  unfold exec_all. rewrite <-fold_left_rev_right.
  induction (rev ops) as [|o l IH]; simpl; [constructor|by constructor].
Qed.
End exec.

(** ** The invariant *)

Record inv (d : db) : Prop := mkInv {
  inv_keyed : keyed d;
  (** the active run of a job exists and is a run of its current generation *)
  inv_runs : ∀ id row r, jobs d !! id = Some row → ControlJobRow.activeRunId row = Some r →
    run_of_job d (toAggregate row) r;
  inv_shape : ∀ id row, jobs d !! id = Some row → job_shape (toAggregate row) true;
  (** outbox ids are issued in order *)
  inv_seq : ∀ e, e ∈ outbox d → (ControlOutboxEventRow.eventId e ≤ outboxSeq d)%Z;
  inv_ids : NoDup (map ControlOutboxEventRow.eventId (outbox d));
  (** an event never runs ahead of its job *)
  inv_events : ∀ e row, e ∈ outbox d →
    jobs d !! ControlOutboxEventRow.entityId e = Some row →
    (ControlOutboxEventRow.aggregateRevision e ≤ ControlJobRow.stateRevision row)%Z
}.

Lemma run_of_job_mono d d' j r : mono d d' → run_of_job d j r → run_of_job d' j r.
Proof.
  intros Hm (run & Hrun & Hid & Hjob & Hgen).
  destruct (mono_runs _ _ Hm r run Hrun) as (run' & Hrun' & ? & ? & _ & _ & ?).
  exists run'. split_and!; [done|congruence..].
Qed.

Lemma map_event_ids ids now l :
  map ControlOutboxEventRow.eventId (map (set_dispatched ids now) l) =
  map ControlOutboxEventRow.eventId l.
Proof. rewrite map_map. apply map_ext. intros e. apply set_dispatched_fields. Qed.

Lemma elem_of_set_dispatched e ids now l :
  e ∈ map (set_dispatched ids now) l →
  ∃ e0, e0 ∈ l ∧ ControlOutboxEventRow.eventId e = ControlOutboxEventRow.eventId e0 ∧
    ControlOutboxEventRow.entityId e = ControlOutboxEventRow.entityId e0 ∧
    ControlOutboxEventRow.aggregateRevision e = ControlOutboxEventRow.aggregateRevision e0.
Proof.
  rewrite list_elem_of_In, in_map_iff. intros (e0 & <- & He0). exists e0.
  rewrite list_elem_of_In. split; [done|]. apply set_dispatched_fields.
Qed.

Lemma inv_commit_jobs d id row row' :
  inv d → jobs d !! id = Some row → life (toAggregate row) (toAggregate row') →
  ControlJobRow.id row' = id ∧ job_shape (toAggregate row') true.
Proof.
  intros Hi Hrow Hl. split.
  - pose proof (life_id _ _ Hl) as Hid. simpl in Hid. rewrite Hid. by eapply inv_keyed.
  - eapply life_shape; [done|by eapply inv_shape|by right].
Qed.

Lemma inv_commit d d' : inv d → commit d d' → inv d'.
Proof.
  intros Hi Hc. destruct Hc as [Hm Hj Ho Hs|id row row' ch n Hm Hrow Hl Hj Hr _ Hs Ho|ids n Hm Hj Hs Ho].
  - destruct Hi. split; rewrite ?Hj, ?Ho, ?Hs; eauto using run_of_job_mono.
    unfold keyed. by rewrite Hj.
  - destruct (inv_commit_jobs _ _ _ _ Hi Hrow Hl) as [Hid Hsh]. destruct Hi as [Hk Hrs Hsp Hsq Hids Hev].
    pose proof (life_revision _ _ Hl) as Hrev. simpl in Hrev.
    split; rewrite ?Hj, ?Ho, ?Hs.
    + intros k r. rewrite Hj, lookup_insert. case_decide; [naive_solver|apply Hk].
    + intros k r x. rewrite lookup_insert. case_decide as Hkey; intros Hx Hact.
      * simplify_eq. destruct (Hr x Hact) as [Hold|]; [|done].
        pose proof (run_of_job_mono _ _ _ _ Hm (Hrs _ _ _ Hrow Hold)) as (run & ? & ? & Hjid & Hg).
        exists run. split_and!; [done..|by rewrite (life_id _ _ Hl)|].
        by rewrite (life_keeps_run _ _ _ Hl Hold Hact).
      * by eapply run_of_job_mono, Hrs.
    + intros k r. rewrite lookup_insert. case_decide; [naive_solver|apply Hsp].
    + intros e [He|He]%elem_of_app; [specialize (Hsq e He); lia|].
      apply list_elem_of_singleton in He as ->. simpl. lia.
    + rewrite map_app, list.NoDup_app. split_and!; [done| |apply NoDup_singleton].
      intros x Hx Hx2. apply list_elem_of_singleton in Hx2 as ->. simpl in Hx.
      apply list_elem_of_In, in_map_iff in Hx as (e & He & Hin).
      apply list_elem_of_In, Hsq in Hin. lia.
    + intros e r [He|He]%elem_of_app; rewrite lookup_insert.
      * case_decide as Hkey; [|by apply Hev]. intros [= <-].
        rewrite Hkey in Hrow. specialize (Hev _ _ He Hrow). lia.
      * apply list_elem_of_singleton in He as ->. simpl. rewrite decide_True by done.
        intros [= <-]. lia.
  - destruct Hi as [Hk Hrs Hsp Hsq Hids Hev].
    split; rewrite ?Hj, ?Ho, ?Hs; eauto using run_of_job_mono.
    + unfold keyed. by rewrite Hj.
    + intros e (e0 & He0 & -> & _)%elem_of_set_dispatched. by apply Hsq.
    + by rewrite map_event_ids.
    + intros e r (e0 & He0 & _ & -> & ->)%elem_of_set_dispatched. by apply Hev.
Qed.

(** ** Every operation is a sequence of commits *)

Definition commits : relation db := rtc commit.

Lemma commits_mono d d' : commits d d' → mono d d'.
Proof.
  induction 1 as [|d1 d2 d3 Hc _ IH]; [reflexivity|]. etrans; [|exact IH]. by destruct Hc.
Qed.

Lemma inv_commits d d' : inv d → commits d d' → inv d'.
Proof. intros Hi Hc. induction Hc; eauto using inv_commit. Qed.

Lemma commit_refl d : commit d d.
Proof. by apply commit_quiet. Qed.

(** A transaction either commits or is rolled back. *)
Lemma transaction_commit {A} (m : tx A) d :
  (∀ a d', m d = Ok (a, d') → commit d d') → commit d (run_transaction m d).2.
Proof.
  intros Hm. unfold run_transaction. destruct (m d) as [[a d']|e] eqn:Hd; simpl.
  - by eapply Hm.
  - apply commit_refl.
Qed.

Lemma run_command_db {A} (m : tx A) after d :
  (run_command m after d).1.2 = (run_transaction m d).2.
Proof. unfold run_command. by destruct (run_transaction m d) as [[a|e] d']. Qed.

Lemma run_command_ok {A} (m : tx A) after d a d' :
  m d = Ok (a, d') → run_command m after d = (Ok a, d', after a).
Proof. unfold run_command, run_transaction. by intros ->. Qed.

Lemma run_command_err {A} (m : tx A) after d e :
  m d = Err e → run_command m after d = (Err e, d, []).
Proof. unfold run_command, run_transaction. by intros ->. Qed.

Lemma command_commits {A} (m : tx A) after d :
  (∀ a d', m d = Ok (a, d') → commit d d') → commits d (run_command m after d).1.2.
Proof. intros Hm. rewrite run_command_db. by apply rtc_once, transaction_commit. Qed.

Lemma transaction_commits {A} (m : tx A) d :
  (∀ a d', m d = Ok (a, d') → commit d d') → commits d (run_transaction m d).2.
Proof. intros Hm. by apply rtc_once, transaction_commit. Qed.

(** *** The executor's task writes *)

Lemma quiet_commits {A} (m : tx A) d r d' :
  Respects mono m → Respects same_core m → run_transaction m d = (r, d') → commits d d'.
Proof.
  intros Hm Hc Hr. assert (d' = (run_transaction m d).2) as -> by (by rewrite Hr).
  apply transaction_commits. intros a d' Hd. apply same_core_quiet; [by eapply Hm|by eapply Hc].
Qed.

Lemma begin_decision_commits c key a now d : commits d (begin_decision c key a now d).2.
Proof.
  unfold begin_decision. repeat case_match; simplify_eq/=; try reflexivity;
    repeat match goal with
    | H : run_transaction _ _ = _ |- _ =>
        apply quiet_commits in H; [|solve [eauto with cp nocore]..]
    end; first [done | by etrans].
Qed.

(** *** Scheduler ticks *)

Lemma claim_all_commits k eligible ids now d :
  (∀ job, job ∈ eligible → snapshot d job ∧ isQueued (JobAggregate.state job) = true) →
  commits d (claim_all k eligible ids now d).2.
Proof.
  revert ids d. induction eligible as [|job rest IH]; intros ids d Hs; simpl; [reflexivity|].
  destruct (Hs job) as [Hjob Hq]; [set_solver|].
  assert (commit d (claimJob k job (ids 0) now d).2) as Hc.
  { apply transaction_commit. intros a d'. by apply claimJob_commit. }
  destruct (claimJob k job (ids 0) now d) as [[[[r kd]|]|e] d1]; simpl in *.
  - pose proof (IH (λ n, ids (S n)) d1) as IH1.
    destruct (claim_all _ rest _ now d1) as [started d2]. simpl in *.
    eapply rtc_l; [done|]. apply IH1. intros j Hj. destruct (Hs j); [set_solver|].
    eauto using snapshot_commit.
  - eapply rtc_l; [done|]. apply IH. intros j Hj. destruct (Hs j); [set_solver|].
    eauto using snapshot_commit.
  - by apply rtc_once.
Qed.

Lemma elem_of_map_values {K V} `{Countable K} (m : gmap K V) v :
  v ∈ map_values m ↔ ∃ k, m !! k = Some v.
Proof.
  unfold map_values. rewrite list_elem_of_fmap. split.
  - intros ([k v'] & -> & Hkv). exists k. by apply elem_of_map_to_list.
  - intros [k Hk]. exists (k, v). split; [done|]. by apply elem_of_map_to_list.
Qed.

Lemma queued_for_claim n d job :
  keyed d → job ∈ getQueuedJobsForClaim n d →
  snapshot d job ∧ isQueued (JobAggregate.state job) = true.
Proof.
  intros Hk Hj. unfold getQueuedJobsForClaim in Hj.
  apply list_elem_of_fmap in Hj as (row & -> & Hrow). apply subseteq_take in Hrow.
  rewrite merge_sort_Permutation in Hrow.
  apply list_elem_of_In, filter_In in Hrow as [Hin Hp].
  apply list_elem_of_In, elem_of_map_values in Hin as [k Hrow].
  rewrite !andb_true_iff in Hp. split; [by eapply snapshot_read|tauto].
Qed.

Lemma tick_commits k caps running ids now d :
  keyed d → commits d (tick k caps running ids now d).2.
Proof.
  intros Hk. unfold tick. repeat case_match; simpl; try reflexivity.
  apply claim_all_commits. intros job Hj.
  apply list_elem_of_In, filter_In in Hj as [Hj _]. apply list_elem_of_In in Hj.
  by eapply queued_for_claim.
Qed.

(** *** Startup reconciliation *)

Lemma reconcileJob_commit supervised job f now d :
  snapshot d job → commit d (reconcileJob supervised job f now d).2.
Proof.
  intros Hs. unfold reconcileJob.
  assert (commit d (run_transaction (executeDecision_tx job
            (decideStartupReconcile (reconcile_input supervised job d)) f now) d).2) as Hc.
  { apply transaction_commit. intros a d'. apply executeDecision_commit; [done|apply decide_fits]. }
  by destruct (run_transaction _ d) as [[a|e] d'].
Qed.

Lemma reconcile_jobs_commits supervised js fs now d :
  (∀ job, job ∈ js → snapshot d job) → commits d (reconcile_jobs supervised js fs now d).2.
Proof.
  revert fs d. induction js as [|job rest IH]; intros fs d Hs; simpl; [reflexivity|].
  pose proof (reconcileJob_commit supervised job (fs 0) now d ltac:(set_solver)) as Hc.
  destruct (reconcileJob supervised job (fs 0) now d) as [[dec|e] d1]; simpl in *;
    [|by apply rtc_once].
  pose proof (IH (λ n, fs (S n)) d1) as IH1.
  destruct (reconcile_jobs _ rest _ now d1) as [[decs|e] d2]; simpl in *;
    (eapply rtc_l; [done|]); apply IH1; intros j Hj; eapply snapshot_commit; set_solver.
Qed.

Lemma reconcileAll_commits supervised fs now d :
  keyed d → commits d (reconcileAll supervised fs now d).2.
Proof.
  intros Hk. apply reconcile_jobs_commits. intros job Hj.
  unfold getJobsForReconciliation in Hj. apply list_elem_of_fmap in Hj as (row & -> & Hrow).
  apply list_elem_of_In, filter_In in Hrow as [Hrow _].
  apply list_elem_of_In, elem_of_map_values in Hrow as [k Hrow]. by eapply snapshot_read.
Qed.

Lemma markDispatched_commit ids now d : commit d (run_transaction (markDispatched ids now) d).2.
Proof.
  apply (commit_dispatch _ _ ids now); [| |by destruct ids|apply markDispatched_outbox].
  - pose proof (markDispatched_mono ids now d) as Hm.
    destruct ids; [reflexivity|]. by eapply Hm.
  - by destruct ids.
Qed.

Section exec_commits.
Context `{Sha256} `{TypeBox} (cfg : config).

Lemma exec_commits o d : keyed d → commits d (exec cfg o d).
Proof.
  intros Hk. destruct o; simpl;
    try (apply command_commits; intros ?a ?d');
    try (apply transaction_commits; intros ?a ?d').
  - by apply requestPause_commit.
  - by apply continueJob_commit.
  - by apply cancelJob_commit.
  - by apply restartExecution_commit.
  - by apply acknowledgePause_commit.
  - by apply completeExecution_commit.
  - by apply checkpointTask_commit.
  - by apply failPauseCheckpoint_commit.
  - by apply reportNoProgress_commit.
  - by apply interruptRun_commit.
  - by apply runtimeStarted_commit.
  - by apply runtimeExited_commit.
  - by apply startVerification_commit.
  - by apply internal_reportNoProgress_commit.
  - destruct scope; apply transaction_commits; intros a d'; by apply completeVerification_commit.
  - apply begin_decision_commits.
  - by apply tick_commits.
  - by apply reconcileAll_commits.
  - intros Hd%run_transaction_ok.
    pose proof (markDispatched_commit eventIds now d) as Hc. by rewrite Hd in Hc.
Qed.

Lemma reachable_commits d0 d : inv d0 → reachable cfg d0 d → inv d ∧ commits d0 d.
Proof.
  intros Hi Hr. induction Hr as [|d o _ [IHi IHc]]; [split; [done|reflexivity]|].
  pose proof (exec_commits o d (inv_keyed _ IHi)) as Hc.
  split; [by eapply inv_commits|by etrans].
Qed.
End exec_commits.
