(* ===== verification/Fixtures.v ===== *)
(** * Concrete databases

    A small control-plane database and a few operations on it, on which the
    theorems of the development are instantiated. *)
From S2P Require Import Prelude Json Contracts JobDomain TaskDomain Store JobRepo TaskRepo.
From S2P Require Import Commands InternalCommands Scheduler Executor Effects Outbox Lifecycle.
From S2P Require Import Refinement Steps.
From stdpp Require Import pretty.

(** Instances of the two library interfaces. *)
#[export] Instance fixture_sha256 : Sha256 := λ s, s.
#[export] Instance fixture_typebox : TypeBox := typebox_model.

Definition alice : ActorContext.t := ActorContext.mk "alice" "request-1".

Definition queued_job (id : string) (createdAt : N) : ControlJobRow.t :=
  ControlJobRow.mk id "t1" "p1" "m1" JobState.execution_queued 1 ControlIntent.none None
    (Some 1%Z) 1 None None "title" "summary" createdAt createdAt None.

Definition done_job : ControlJobRow.t :=
  ControlJobRow.mk "j2" "t1" "p1" "m2" JobState.succeeded 7 ControlIntent.none None
    (Some 1%Z) 1 None None "done" "summary" 0 0 (Some 0%N).

Definition task_row (jobId : string) (taskId : string) (order : Z) : ControlJobTaskRow.t :=
  ControlJobTaskRow.mk jobId 1 taskId 1 TaskState.queued order None None taskId None None 0 0.

(** One queued job with two tasks, one job that already succeeded. *)
Definition db0 : db :=
  mkDb {[ "p1" := ProjectRow.mk "p1" "alice" ]}
    {[ "t1" := ThreadRow.mk "t1" "p1" "alice" ]}
    (<[ "j1" := queued_job "j1" 1 ]> {[ "j2" := done_job ]})
    ∅ ∅
    (<[ ("j1", 1%Z, "a") := task_row "j1" "a" 1 ]> {[ ("j1", 1%Z, "b") := task_row "j1" "b" 2 ]})
    ∅ ∅ {[ ("j1", 1%Z) ]}
    {[ "ps1" := ControlPlanSliceRow.mk "ps1" "j1" 1 "M1" "S1" "slice" 1 0 ]}
    ∅ [] 0 ∅ ∅ ∅.

Definition cfg0 : config := mkConfig 4 (mkSchedulerCapabilities true true).

Definition ids0 (n : nat) : ClaimIds :=
  mkClaimIds (pretty n +:+ "-fence") (pretty n +:+ "-run") (pretty n +:+ "-slot").

Definition op_tick : op := OpTick true ids0 5.

(** The worker of the run the tick starts. *)
Definition worker {P} (rev : Z) (payload : P) : WorkerCommand.t P :=
  WorkerCommand.mk "j1" rev "0-run" "0-fence" 1 payload.

Definition op_started : op :=
  OpRuntimeStarted (worker 2 (mkRuntimeStartedPayload "rt1" "codex" None)) "rt1" 6.

Definition user {P} (jobId : string) (rev : Z) (key : string) (payload : P) : UserCommand.t P :=
  UserCommand.mk alice jobId rev key payload.

(** The states after the claim and after the runtime reported itself. *)
Definition db_claimed : db := exec cfg0 op_tick db0.
Definition db_active : db := exec cfg0 op_started db_claimed.

(** ** The initial state satisfies the invariant *)

Lemma map_forall_2 {V} (P : string → V → Prop) k1 v1 k2 v2 :
  P k1 v1 → P k2 v2 →
  ∀ k v, (<[ k1 := v1 ]> ({[ k2 := v2 ]} : gmap string V)) !! k = Some v → P k v.
Proof.
  intros H1 H2 k v. rewrite lookup_insert. case_decide; [intros [= <-]; by subst|].
  rewrite lookup_singleton_Some. intros [<- <-]. done.
Qed.

Lemma inv_db0 : inv db0.
Proof.
  split.
  - unfold keyed. simpl jobs. apply (map_forall_2 (λ k row, ControlJobRow.id row = k)); done.
  - simpl jobs. intros id row r Hrow.
    assert (ControlJobRow.activeRunId row = None); [|congruence]. revert id row Hrow.
    by apply (map_forall_2 (λ _ row, ControlJobRow.activeRunId row = None)).
  - simpl jobs. apply (map_forall_2 (λ _ row, job_shape (toAggregate row) true)); done.
  - simpl. set_solver.
  - simpl. constructor.
  - simpl. set_solver.
Qed.

Lemma inv_reachable ops : inv (exec_all cfg0 ops db0).
Proof. apply (reachable_commits cfg0 db0), reachable_exec_all. apply inv_db0. Qed.

(** The runtime of the claimed run is up: the job is running at revision 3. *)
Example db_active_job :
  (λ row, (ControlJobRow.state row, ControlJobRow.stateRevision row,
           ControlJobRow.activeRunId row)) <$> jobs db_active !! "j1" =
  Some (JobState.execution_running, 3%Z, Some "0-run").
Proof. vm_compute. reflexivity. Qed.

(** ** A run from claim to completion *)

(** A task result the validator accepts. *)
Definition good_result : json :=
  JObj [("status", JStr "completed"); ("summary", JStr "done"); ("changedFiles", JArr []);
        ("evidence", JArr [JStr "log"]);
        ("validation", JObj [("ran", JBool true); ("outcome", JStr "passed")]);
        ("blockers", JArr []); ("blockerKind", JNull)].

Definition ctx0 : ExecutionRunContext := mkExecutionRunContext "j1" "0-run" "0-fence" 1 3 "".

(** Nothing else happens, and every task succeeds. *)
Definition world0 (n : nat) : Iteration :=
  mkIteration false (λ d, d) (λ d, d) (λ d, d) (λ _ _, outcome_result good_result)
    ("attempt-" +:+ pretty n) ("failure-" +:+ pretty n) (10 + N.of_nat n).

Definition db_final : db :=
  match executeRun 3 world0 ctx0 db_active with Some (_, d) => d | None => db0 end.

Example executor_completes_job :
  (λ row, (ControlJobRow.state row, ControlJobRow.stateRevision row)) <$> jobs db_final !! "j1" =
  Some (JobState.succeeded, 6%Z).
Proof. vm_compute. reflexivity. Qed.

(** The first task of the run has an attempt. *)
Definition op_begin : op := OpBeginDecision ctx0 "task:a" "attempt-0" 10.
Definition db_begun : db := exec cfg0 op_begin db_active.

Definition checkpoint_a : WorkerCommand.t TaskCheckpointPayload :=
  worker 3 (mkTaskCheckpointPayload "attempt-0" good_result).
Definition db_checkpointed : db := exec cfg0 (OpCheckpointTask checkpoint_a 11) db_begun.

(** A slice verification. *)
Definition op_verify : op :=
  OpStartVerification (worker 3 (mkStartVerificationPayload ScopeType.slice "S1")) "v1" 12.
Definition db_verifying : db := exec cfg0 op_verify db_active.
Definition verdict_input : WorkerCommand.t CompleteVerificationPayload :=
  worker 4 (mkCompleteVerificationPayload "v1" "S1" (JStr "ok")).

(** A pause request while the run is active. *)
Definition op_pause : op := OpRequestPause (user "j1" 3 "pause-key" tt) 13.
Definition db_pausing : db := exec cfg0 op_pause db_active.

(** A failure report: the job fails and its slot stays active. *)
Definition op_fail : op :=
  OpReportNoProgress (worker 3 (mkReportNoProgressPayload "k" 3 "w")) "f1" 14.
Definition db_failed : db := exec cfg0 op_fail db_active.

(** The row of job [j1] in [d]. *)
Definition row_j1 (d : db) : ControlJobRow.t := default (queued_job "j1" 1) (jobs d !! "j1").

Lemma keyed_of_list {K V} `{Countable K} (f : V → K) (m : gmap K V) :
  forallb (λ kv, bool_decide (f kv.2 = kv.1)) (map_to_list m) = true →
  ∀ k v, m !! k = Some v → f v = k.
Proof.
  intros Hf k v Hk. rewrite forallb_forall in Hf. apply elem_of_map_to_list in Hk.
  apply list_elem_of_In, Hf in Hk. by apply bool_decide_eq_true in Hk.
Qed.

(** Decides [∀ k v, m !! k = Some v → P v] on a concrete table. *)
Lemma rows_of_list {K V} `{Countable K} (p : V → bool) (m : gmap K V) :
  forallb (λ kv, p kv.2) (map_to_list m) = true → ∀ k v, m !! k = Some v → p v = true.
Proof.
  intros Hf k v Hk. rewrite forallb_forall in Hf. apply elem_of_map_to_list in Hk.
  by apply list_elem_of_In, Hf in Hk.
Qed.
