(* ===== verification/Safety.v ===== *)
(** * Properties of every reachable state

    Safety theorems over arbitrary sequences of operations of the transition
    system of [Steps]. *)
From S2P Require Import Prelude Json Contracts JobDomain TaskDomain Store JobRepo TaskRepo Commands.
From S2P Require Import InternalCommands Scheduler Executor Effects Outbox Lifecycle Refinement Steps.
Local Open Scope tx_scope.

(** ** The event history of a job *)

(** The revisions announced for job [id], in the order of the outbox. *)
Definition revisions_of (id : string) (d : db) : list Z :=
  map ControlOutboxEventRow.aggregateRevision
    (List.filter (λ e, bool_decide (ControlOutboxEventRow.entityId e = id)) (outbox d)).

Lemma revisions_of_dispatch id ids now l :
  map ControlOutboxEventRow.aggregateRevision
    (List.filter (λ e, bool_decide (ControlOutboxEventRow.entityId e = id))
       (map (set_dispatched ids now) l)) =
  map ControlOutboxEventRow.aggregateRevision
    (List.filter (λ e, bool_decide (ControlOutboxEventRow.entityId e = id)) l).
Proof.
  induction l as [|e l IH]; [done|]. simpl.
  destruct (set_dispatched_fields ids now e) as (_ & -> & Hr).
  case_match; simpl; [by rewrite Hr, IH|done].
Qed.

Lemma seqZ_snoc m n : (0 ≤ n)%Z → seqZ m (n + 1) = seqZ m n ++ [(m + n)%Z].
Proof. intros Hn. rewrite seqZ_app by lia. done. Qed.

(** What a sequence of commits does to one job. *)
Definition job_progress (id : string) (d d' : db) : Prop :=
  ∀ row, jobs d !! id = Some row → ∃ row', jobs d' !! id = Some row' ∧
    (ControlJobRow.stateRevision row ≤ ControlJobRow.stateRevision row')%Z ∧
    revisions_of id d' = revisions_of id d ++
      seqZ (ControlJobRow.stateRevision row + 1)
           (ControlJobRow.stateRevision row' - ControlJobRow.stateRevision row).

Lemma job_progress_commit id d d' : commit d d' → job_progress id d d'.
Proof.
  intros Hc row Hrow. destruct Hc as [_ Hj Ho _|k r r' ch n _ Hr Hl Hj _ _ _ Ho|ids n _ Hj _ Ho];
    unfold revisions_of; rewrite Hj, Ho.
  - exists row. rewrite Z.sub_diag, app_nil_r. split_and!; [done|lia|done].
  - rewrite lookup_insert, List.filter_app, map_app. simpl. case_decide as Hk.
    + subst k. rewrite Hrow in Hr. injection Hr as <-. apply life_revision in Hl. simpl in Hl. exists r'.
      rewrite bool_decide_eq_true_2 by done. split_and!; [done|lia|].
      f_equal. simpl. rewrite Hl. by replace (ControlJobRow.stateRevision row + 1 -
        ControlJobRow.stateRevision row)%Z with 1%Z by lia.
    + exists row. rewrite bool_decide_eq_false_2 by done.
      rewrite Z.sub_diag, !app_nil_r. split_and!; [done|lia|done].
  - exists row. rewrite revisions_of_dispatch, Z.sub_diag, app_nil_r. split_and!; [done|lia|done].
Qed.

Lemma job_progress_commits id d d' : commits d d' → job_progress id d d'.
Proof.
  induction 1 as [d|d1 d2 d3 Hc _ IH]; intros row Hrow.
  - exists row. rewrite Z.sub_diag, app_nil_r. split_and!; [done|lia|done].
  - destruct (job_progress_commit id _ _ Hc row Hrow) as (row2 & Hrow2 & Hle & Hev).
    destruct (IH row2 Hrow2) as (row3 & Hrow3 & Hle3 & Hev3).
    exists row3. split_and!; [done|lia|]. rewrite Hev3, Hev, <-app_assoc. f_equal.
    set (a := ControlJobRow.stateRevision row) in *.
    set (b := ControlJobRow.stateRevision row2) in *.
    set (c := ControlJobRow.stateRevision row3) in *.
    replace (c - a)%Z with ((b - a) + (c - b))%Z by lia.
    rewrite seqZ_app by lia. by replace (a + 1 + (b - a))%Z with (b + 1)%Z by lia.
Qed.

(** A revision identifies the state of a job: when it did not move, nothing did. *)
Lemma commits_same_revision id d d' row row' :
  commits d d' → jobs d !! id = Some row → jobs d' !! id = Some row' →
  ControlJobRow.stateRevision row' = ControlJobRow.stateRevision row → row' = row.
Proof.
  induction 1 as [d|d1 d2 d3 Hc Hcs IH] in row |- *; intros Hrow Hrow' Hrev; [congruence|].
  destruct Hc as [_ Hj _ _|k r r' ch n _ Hr Hl Hj _ _ _ _|ids n _ Hj _ _].
  - apply IH; [congruence..].
  - destruct (decide (k = id)) as [->|Hk].
    + exfalso. simplify_eq. apply life_revision in Hl. simpl in Hl.
      assert (jobs d2 !! id = Some r') as H2 by (by rewrite Hj, lookup_insert_eq).
      destruct (job_progress_commits id _ _ Hcs r' H2) as (row2 & ? & ? & _). simplify_eq. lia.
    + apply IH; [|done..]. by rewrite Hj, lookup_insert_ne.
  - apply IH; [congruence..].
Qed.

(** A succeeded job is out of reach of every operation. *)
Lemma commits_succeeded id d d' row :
  inv d → commits d d' → jobs d !! id = Some row →
  ControlJobRow.state row = JobState.succeeded → jobs d' !! id = Some row.
Proof.
  intros Hi Hc Hrow Hst. induction Hc as [d|d1 d2 d3 Hc Hcs IH]; [done|].
  apply IH; [by eapply inv_commit|].
  destruct Hc as [_ Hj _ _|k r r' ch n _ Hr Hl Hj _ _ _ _|ids n _ Hj _ _]; rewrite Hj; [done| |done].
  rewrite lookup_insert. case_decide; [|done]. exfalso. subst k.
  rewrite Hrow in Hr. injection Hr as <-.
  pose proof (inv_shape _ Hi _ _ Hrow) as Hsh. unfold job_shape in Hsh. simpl in Hsh.
  rewrite Hst in Hsh. destruct Hsh as [_ Hrun].
  inversion Hl; simpl in *; rewrite ?Hst, ?Hrun in *; naive_solver.
Qed.

Lemma sweep_row_clean d k row : inv d → jobs d !! k = Some row → sweep_row d row = [].
Proof.
  intros Hi Hrow. unfold sweep_row. pose proof (inv_shape _ Hi _ _ Hrow) as Hsh. simpl.
  assert (validateJobInvariant (toAggregate row)
            (match ControlJobRow.activeRunId row with
             | Some r => getActiveRunSummary r d | None => None end) = []) as ->; [|done].
  destruct (ControlJobRow.activeRunId row) as [r|] eqn:Hr.
  - destruct (inv_runs _ Hi _ _ _ Hrow Hr) as (run & Hrun & Hid & _).
    unfold getActiveRunSummary. rewrite Hrun. simpl. apply validateJobInvariant_nil; [|done].
    intros s [= <-]. simpl. by rewrite Hid.
  - apply validateJobInvariant_nil; [done|]. unfold job_shape in *. simpl in *.
    rewrite Hr in *. destruct (ControlJobRow.state row); naive_solver.
Qed.

Section system.
Context `{Sha256} `{TypeBox} (cfg : config).

(** C1: Every operation of the control plane (user, worker and internal commands, scheduler
    ticks, startup reconciliation, task bookkeeping and outbox marking) refines the abstract job
    life cycle: what it does to the database is a sequence of commits, each of which either
    leaves jobs and events alone or moves one job by one step of the life-cycle state machine,
    bumps its revision by one and announces exactly that revision in the outbox. *)
Theorem exec_refines_lifecycle o d : keyed d → rtc commit d (exec cfg o d).
Proof. apply exec_commits. Qed.

(** C21: Starting from a database that satisfies the invariant, no sequence of operations can
    produce a job that the startup invariant sweep would quarantine: createInvariantSweep
    returns the empty list on every reachable database. *)
Theorem reachable_sweep_clean d0 d : inv d0 → reachable cfg d0 d → sweep d = [].
Proof.
  intros Hi Hr. destruct (reachable_commits cfg _ _ Hi Hr) as [Hd _].
  unfold sweep. apply concat_nil_Forall, List.Forall_forall. intros vs Hvs.
  apply in_map_iff in Hvs as (row & <- & Hin).
  apply list_elem_of_In, elem_of_map_values in Hin as [k Hrow]. by eapply sweep_row_clean.
Qed.

(** C29: The outbox events of a job announce its revisions one by one, in order and without gaps
    or repetitions: after any sequence of operations the announced revisions are the earlier
    ones followed by every revision up to the current one. *)
Theorem job_history_gap_free d0 d id row0 :
  inv d0 → reachable cfg d0 d → jobs d0 !! id = Some row0 →
  ∃ row, jobs d !! id = Some row ∧
    (ControlJobRow.stateRevision row0 ≤ ControlJobRow.stateRevision row)%Z ∧
    revisions_of id d = revisions_of id d0 ++
      seqZ (ControlJobRow.stateRevision row0 + 1)
           (ControlJobRow.stateRevision row - ControlJobRow.stateRevision row0).
Proof.
  intros Hi Hr Hrow. apply (reachable_commits cfg _ _ Hi) in Hr as [_ Hc].
  by eapply job_progress_commits.
Qed.

(** The revision identifies the job row: if it did not move between two reachable
    databases, no column of the row did. *)
Theorem revision_identifies_job d0 d id row0 row :
  inv d0 → reachable cfg d0 d → jobs d0 !! id = Some row0 → jobs d !! id = Some row →
  ControlJobRow.stateRevision row = ControlJobRow.stateRevision row0 → row = row0.
Proof.
  intros Hi Hr. apply (reachable_commits cfg _ _ Hi) in Hr as [_ Hc].
  by apply commits_same_revision.
Qed.

(** The row of a job that succeeded is never changed again by any sequence of operations. *)
Theorem succeeded_is_final d0 d id row :
  inv d0 → reachable cfg d0 d → jobs d0 !! id = Some row →
  ControlJobRow.state row = JobState.succeeded → jobs d !! id = Some row.
Proof.
  intros Hi Hr. apply (reachable_commits cfg _ _ Hi) in Hr as [_ Hc].
  by apply commits_succeeded.
Qed.

(** Dedup receipts, failures and evidence blobs are never changed or removed, a
    verification that is no longer running keeps its row, and a released slot stays released. *)
Theorem records_are_permanent d0 d :
  inv d0 → reachable cfg d0 d →
  (∀ k row, dedup d0 !! k = Some row → dedup d !! k = Some row) ∧
  (∀ k row, failures d0 !! k = Some row → failures d !! k = Some row) ∧
  (∀ k row, evidence d0 !! k = Some row → evidence d !! k = Some row) ∧
  (∀ k v, verifications d0 !! k = Some v →
          ControlVerificationRow.state v ≠ VerificationState.running →
          verifications d !! k = Some v) ∧
  (∀ k s, slots d0 !! k = Some s → ControlResourceSlotRow.state s = SlotState.released →
          slots d !! k = Some s).
Proof.
  intros Hi Hr. apply (reachable_commits cfg _ _ Hi) in Hr as [_ Hc].
  apply commits_mono in Hc. destruct Hc as [_ _ _ _ _ _ _ _ Hv Hs Hd Hf He].
  split_and!; intros k r Hk.
  - by destruct (Hd k r Hk) as (? & ? & <-).
  - by destruct (Hf k r Hk) as (? & ? & <-).
  - by destruct (He k r Hk) as (? & ? & <-).
  - intros Hst. destruct (Hv k r Hk) as (v' & Hv' & _ & _ & Hsame). by rewrite <-(Hsame Hst).
  - intros Hst. destruct (Hs k r Hk) as (v' & Hv' & _ & _ & _ & _ & Hsame).
    by rewrite <-(Hsame Hst).
Qed.
End system.

(** ** Resource slots

    The slot table bounds the number of jobs that run at the same time
    ([sqlite-slot-repository.ts], [scheduler.ts]).  Shown for every reachable
    state: the active slots of the pool never exceed the configured maximum,
    and a job never holds two. *)

(** ** Counting rows *)

Definition count_rows {K V} `{Countable K} (p : V → bool) (m : gmap K V) : nat :=
  length (List.filter p (map_values m)).

Lemma filter_Permutation_length {A} (p : A → bool) l1 l2 :
  l1 ≡ₚ l2 → length (List.filter p l1) = length (List.filter p l2).
Proof. induction 1; simpl; repeat case_match; simpl; congruence. Qed.

Lemma count_rows_insert_fresh {K V} `{Countable K} (p : V → bool) (m : gmap K V) k v :
  m !! k = None → count_rows p (<[k:=v]> m) = (if p v then 1 else 0) + count_rows p m.
Proof.
  intros Hk. unfold count_rows, map_values.
  rewrite (filter_Permutation_length p _ (v :: (map_to_list m).*2)).
  - simpl. by destruct (p v).
  - by rewrite map_to_list_insert.
Qed.

Lemma map_values_fmap {K V} `{Countable K} (g : V → V) (m : gmap K V) :
  map_values (g <$> m) = map g (map_values m).
Proof.
  unfold map_values. rewrite map_to_list_fmap.
  induction (map_to_list m) as [|[k v] l IH]; [done|]. simpl. f_equal. exact IH.
Qed.

Lemma filter_map_length_le {A} (p : A → bool) (g : A → A) l :
  (∀ v, p (g v) = true → p v = true) →
  length (List.filter p (map g l)) ≤ length (List.filter p l).
Proof.
  intros Hg. induction l as [|v l IH]; simpl; [done|].
  specialize (Hg v). destruct (p (g v)), (p v); simpl; try lia; naive_solver.
Qed.

Lemma count_rows_fmap_le {K V} `{Countable K} (p : V → bool) (g : V → V) (m : gmap K V) :
  (∀ v, p (g v) = true → p v = true) → count_rows p (g <$> m) ≤ count_rows p m.
Proof. intros Hg. unfold count_rows. rewrite map_values_fmap. by apply filter_map_length_le. Qed.

Lemma any_row_false {K V} `{Countable K} (p : V → bool) (m : gmap K V) k v :
  any_row p m = false → m !! k = Some v → p v = false.
Proof.
  intros Ha Hk. destruct (p v) eqn:Hp; [|done]. rewrite <-Ha. symmetry.
  apply existsb_exists. exists v. split; [|done]. apply list_elem_of_In, elem_of_map_values. eauto.
Qed.

(** ** The slot invariant *)

(** At most [k] active slots in the pool, and at most one per job. *)
Definition slots_bounded (k : nat) (m : gmap string ControlResourceSlotRow.t) : Prop :=
  count_rows (slot_in_pool DEFAULT_POOL) m ≤ k.

Definition slots_exclusive (m : gmap string ControlResourceSlotRow.t) : Prop :=
  ∀ k1 k2 r1 r2, m !! k1 = Some r1 → m !! k2 = Some r2 →
    slot_active r1 = true → slot_active r2 = true →
    ControlResourceSlotRow.jobId r1 = ControlResourceSlotRow.jobId r2 → k1 = k2.

Definition slots_wf (k : nat) (d d' : db) : Prop :=
  (slots_bounded k (slots d) → slots_bounded k (slots d')) ∧
  (slots_exclusive (slots d) → slots_exclusive (slots d')).

#[export] Instance slots_wf_preorder k : PreOrder (slots_wf k).
Proof. split; [by intros d | intros d1 d2 d3 [] []; split; auto]. Qed.

Lemma same_slots_wf {A} k (m : tx A) : Respects same_slots m → Respects (slots_wf k) m.
Proof. intros Hm s a s' Hs. apply Hm in Hs. unfold same_table in Hs. split; by rewrite Hs. Qed.

Lemma release_row_active r n x :
  slot_active (release_row r n x) = true → release_row r n x = x.
Proof. unfold release_row. by case_match. Qed.

Lemma releaseSlot_wf k r n : Respects (slots_wf k) (releaseSlot r n).
Proof.
  intros s a s' Hs. unfold releaseSlot in Hs. tx_inv. split; simpl.
  - intros Hb. unfold slots_bounded in *. etrans; [|exact Hb]. apply count_rows_fmap_le.
    intros x. unfold slot_in_pool. intros [Hp Ha]%andb_true_iff.
    pose proof (release_row_active _ _ _ Ha) as Hx. rewrite Hx in Hp, Ha.
    by apply andb_true_iff.
  - intros Hx k1 k2 r1 r2 H1 H2. rewrite lookup_fmap in H1, H2.
    apply fmap_Some in H1 as (x1 & H1 & ->). apply fmap_Some in H2 as (x2 & H2 & ->).
    intros A1 A2 Hj. pose proof (release_row_active _ _ _ A1) as E1.
    pose proof (release_row_active _ _ _ A2) as E2.
    rewrite E1 in A1, Hj. rewrite E2 in A2, Hj. exact (Hx _ _ _ _ H1 H2 A1 A2 Hj).
Qed.

#[export] Hint Resolve releaseSlot_wf : cp.
#[export] Hint Extern 6 (Respects (slots_wf _) _) =>
  apply same_slots_wf; solve [eauto with cp nocore] : cp.

Lemma createSlot_exclusive i j r p n s a s' :
  createSlot i j r p n s = Ok (a, s') →
  slots s !! i = None ∧
  slots s' = <[i := ControlResourceSlotRow.mk i j r p SlotState.active n None]> (slots s) ∧
  (slots_exclusive (slots s) → slots_exclusive (slots s')).
Proof.
  intros Hs. unfold createSlot in Hs. tx_inv. simpl.
  match goal with H : _ || _ = false |- _ => apply orb_false_iff in H as [[Hi _]%orb_false_iff Hj] end.
  apply fresh_key in Hi. split_and!; [done..|]. intros Hx k1 k2 r1 r2.
  rewrite !lookup_insert. repeat case_decide; subst; try naive_solver.
  - intros [= <-] H2 _ A2 Hjob. pose proof (any_row_false _ _ _ _ Hj H2) as Hf. simpl in *.
    rewrite A2, bool_decide_eq_true_2 in Hf by done. done.
  - intros H1 [= <-] A1 _ Hjob. pose proof (any_row_false _ _ _ _ Hj H1) as Hf. simpl in *.
    rewrite A1, bool_decide_eq_true_2 in Hf by done. done.
Qed.

Lemma claimJob_slots k job ids now : Respects (slots_wf k) (claimJob_tx k job ids now).
Proof.
  intros d a d' Hex. unfold claimJob_tx, assertCapacityAvailable in Hex. tx_inv;
    repeat frame_step slots;
    [|match goal with H : slots d' = _ |- _ => unfold slots_wf; by rewrite H end].
  match goal with H : createSlot _ _ _ _ _ _ = Ok _ |- slots_wf _ ?s _ =>
    apply createSlot_exclusive in H as (Hfresh & Hins & Hexcl);
    match type of Hins with _ = <[_ := _]> (slots ?s1) =>
      assert (slots s1 = slots s) as Hsame by congruence end end.
  match goal with H : bool_decide _ = false |- _ => apply bool_decide_eq_false in H end.
  match goal with H : slots d' = _ |- _ => unfold slots_wf; rewrite H end.
  rewrite Hsame in *. split; [|done].
  intros _. unfold slots_bounded, countActiveSlots in *.
  rewrite Hins, count_rows_insert_fresh by done. simpl. unfold count_rows. lia.
Qed.

Section capacity.
Context `{Sha256} `{TypeBox} (cfg : config).

Lemma transaction_slots {A} k (m : tx A) d :
  Respects (slots_wf k) m → slots_wf k d (run_transaction m d).2.
Proof.
  intros Hm. unfold run_transaction. destruct (m d) as [[a d']|e] eqn:Hd; simpl; [|reflexivity].
  by eapply Hm.
Qed.

Lemma command_slots {A} k (m : tx A) after d :
  Respects (slots_wf k) m → slots_wf k d (run_command m after d).1.2.
Proof. rewrite run_command_db. apply transaction_slots. Qed.

Lemma claim_all_slots k eligible ids now d :
  slots_wf k d (claim_all k eligible ids now d).2.
Proof.
  revert ids d. induction eligible as [|job rest IH]; intros ids d; simpl; [reflexivity|].
  pose proof (transaction_slots k _ d (claimJob_slots k job (ids 0) now)) as Hc.
  change (run_transaction _ d) with (claimJob k job (ids 0) now d) in Hc.
  destruct (claimJob k job (ids 0) now d) as [[[[r kd]|]|e] d1]; simpl in *; [| |done].
  - pose proof (IH (λ n, ids (S n)) d1) as IH1.
    destruct (claim_all _ rest _ now d1) as [started d2]. simpl in *. by etrans.
  - etrans; [done|]. apply IH.
Qed.

Lemma reconcile_jobs_slots k supervised js fs now d :
  slots_wf k d (reconcile_jobs supervised js fs now d).2.
Proof.
  revert fs d. induction js as [|job rest IH]; intros fs d; simpl; [reflexivity|].
  assert (slots_wf k d (reconcileJob supervised job (fs 0) now d).2) as Hc.
  { unfold reconcileJob. set (dec := decideStartupReconcile _).
    assert (Respects (slots_wf k) (executeDecision_tx job dec (fs 0) now)) as Hr.
    { unfold executeDecision_tx, settlePaused_tx, settleInterruptedFailure_tx,
        settleRuntimeLost_tx, settle_cas. solve_respects. }
    pose proof (transaction_slots k _ d Hr) as Ht.
    by destruct (run_transaction _ d) as [[a|e] d']. }
  destruct (reconcileJob supervised job (fs 0) now d) as [[dec|e] d1]; simpl in *; [|done].
  pose proof (IH (λ n, fs (S n)) d1) as IH1.
  destruct (reconcile_jobs _ rest _ now d1) as [[decs|e] d2]; simpl in *; by etrans.
Qed.

Lemma begin_decision_slots k c key a now d : slots_wf k d (begin_decision c key a now d).2.
Proof.
  unfold begin_decision. repeat case_match; simplify_eq/=; try reflexivity;
    repeat match goal with
    | H : run_transaction ?m ?s = (_, ?s') |- _ =>
        let R := fresh "Hs" in
        assert (slots_wf k s s') as R
          by (assert (s' = (run_transaction m s).2) as -> by (by rewrite H);
              apply transaction_slots; eauto with cp nocore);
        clear H
    end; first [done | by etrans].
Qed.

Lemma exec_slots o d : slots_wf (cfg_maxConcurrentJobs cfg) d (exec cfg o d).
Proof.
  destruct o; simpl;
    try apply command_slots;
    try apply transaction_slots.
  - unfold JobCommandService.requestPause_tx, with_replay, load_for_user, lift_transition,
      cas_or_throw, publish_and_store. solve_respects.
  - unfold JobCommandService.continueJob_tx, with_replay, load_for_user, lift_transition,
      cas_or_throw, publish_and_store. solve_respects.
  - unfold JobCommandService.cancelJob_tx, with_replay, load_for_user, lift_transition,
      cas_or_throw, publish_and_store. solve_respects.
  - unfold JobCommandService.restartExecution_tx, with_replay, load_for_user, lift_transition,
      cas_or_throw, publish_and_store. solve_respects.
  - unfold JobCommandService.acknowledgePause_tx, cas_or_throw. solve_respects.
  - unfold JobCommandService.completeExecution_tx, JobCommandService.assert_fence_or_throw,
      cas_or_throw. solve_respects.
  - unfold JobCommandService.checkpointTask_tx, JobCommandService.assert_fence_or_throw.
    solve_respects.
  - unfold JobCommandService.failPauseCheckpoint_tx, JobCommandService.assert_fence_or_throw,
      cas_or_throw. solve_respects.
  - unfold JobCommandService.reportNoProgress_tx. solve_respects.
  - unfold JobCommandService.interruptRun_tx. solve_respects.
  - unfold InternalExecution.runtimeStarted_tx, InternalExecution.assert_fence_plain.
    solve_respects.
  - unfold InternalExecution.runtimeExited_tx, InternalExecution.exited_unmatched,
      InternalExecution.exited_pausing, InternalExecution.exited_failed,
      InternalExecution.cleanup_run, InternalExecution.close_instance. solve_respects.
  - unfold InternalExecution.startVerification_tx, InternalExecution.worker_fence_plain.
    solve_respects.
  - unfold InternalExecution.reportNoProgress_tx. solve_respects.
  - destruct scope; apply transaction_slots;
      unfold InternalExecution.completeVerification_tx, InternalExecution.worker_fence_plain;
      solve_respects.
  - apply begin_decision_slots.
  - unfold tick. repeat case_match; simpl; try reflexivity. apply claim_all_slots.
  - apply reconcile_jobs_slots.
  - eauto with cp nocore.
Qed.

(** C27: In every reachable database the number of active resource slots of the default pool is
    at most maxConcurrentJobs, if it was initially. *)
Theorem capacity_never_exceeded d0 d :
  countActiveSlots DEFAULT_POOL d0 ≤ cfg_maxConcurrentJobs cfg → reachable cfg d0 d →
  countActiveSlots DEFAULT_POOL d ≤ cfg_maxConcurrentJobs cfg.
Proof. intros Hd0 Hr. induction Hr as [|d o _ IH]; [done|]. by apply (exec_slots o d). Qed.

(** In every reachable database a job holds at most one active resource slot. *)
Theorem one_active_slot_per_job d0 d k1 k2 r1 r2 :
  slots_exclusive (slots d0) → reachable cfg d0 d →
  slots d !! k1 = Some r1 → slots d !! k2 = Some r2 →
  slot_active r1 = true → slot_active r2 = true →
  ControlResourceSlotRow.jobId r1 = ControlResourceSlotRow.jobId r2 → k1 = k2.
Proof.
  intros Hd0 Hr. assert (slots_exclusive (slots d)) as Hx; [|by apply Hx].
  induction Hr as [|d o _ IH]; [done|]. by apply (exec_slots o d).
Qed.
End capacity.
