(* ===== verification/UserSpecs.v ===== *)
(** * Properties of the user commands

    Idempotent replay, optimistic concurrency, ownership, and acceptance of the
    offered actions, for the four user commands of the job command service. *)
From S2P Require Import Prelude Json Contracts JobDomain TaskDomain Store JobRepo TaskRepo.
From S2P Require Import Commands InternalCommands Scheduler Executor Effects Outbox Lifecycle.
From S2P Require Import Refinement Steps Safety.
Local Open Scope tx_scope.

(** ** The four commands as one type *)

Inductive user_command :=
| UPause (input : UserCommand.t unit)
| UContinue (input : UserCommand.t unit)
| UCancel (input : UserCommand.t CancelJobPayload)
| URestart (input : UserCommand.t unit).

Definition u_actor (u : user_command) : ActorContext.t :=
  match u with
  | UPause i | UContinue i | URestart i => UserCommand.actor i
  | UCancel i => UserCommand.actor i
  end.

Definition u_jobId (u : user_command) : string :=
  match u with
  | UPause i | UContinue i | URestart i => UserCommand.jobId i
  | UCancel i => UserCommand.jobId i
  end.

Definition u_expectedRevision (u : user_command) : Z :=
  match u with
  | UPause i | UContinue i | URestart i => UserCommand.expectedRevision i
  | UCancel i => UserCommand.expectedRevision i
  end.

Definition u_key (u : user_command) : string :=
  match u with
  | UPause i | UContinue i | URestart i => UserCommand.idempotencyKey i
  | UCancel i => UserCommand.idempotencyKey i
  end.

Definition u_name (u : user_command) : JobCommandName :=
  match u with
  | UPause _ => request_pause
  | UContinue _ => continue_job
  | UCancel _ => cancel_job
  | URestart _ => restart_execution
  end.

(** The transition of the job domain behind the command. *)
Definition u_transition (u : user_command) (job : JobAggregate.t)
    : result TransitionError JobTransition :=
  match u with
  | UPause _ => JobDomain.requestPause job
  | UContinue _ => JobDomain.continueJob job
  | UCancel _ => JobDomain.cancelJob job
  | URestart _ => JobDomain.restartExecution job
  end.

Section user_specs.
Context `{Sha256} `{TypeBox}.

Definition u_hash (u : user_command) : string :=
  match u with
  | UPause _ => hashCanonicalCommand "request_pause" None
  | UContinue _ => hashCanonicalCommand "continue_job" None
  | UCancel i => hashCanonicalCommand "cancel_job"
                   (Some (JobCommandService.cancel_payload_json (UserCommand.payload i)))
  | URestart _ => hashCanonicalCommand "restart_execution" (Some (JObj []))
  end.

Definition u_tx (u : user_command) (now : N) : tx json :=
  match u with
  | UPause i => JobCommandService.requestPause_tx i now
  | UContinue i => JobCommandService.continueJob_tx i now
  | UCancel i => JobCommandService.cancelJob_tx i now
  | URestart i => JobCommandService.restartExecution_tx i now
  end.

Definition run_user (u : user_command) (now : N) (d : db)
    : result error json * db * list effect :=
  match u with
  | UPause i => JobCommandService.requestPause i now d
  | UContinue i => JobCommandService.continueJob i now d
  | UCancel i => JobCommandService.cancelJob i now d
  | URestart i => JobCommandService.restartExecution i now d
  end.

Definition u_op (u : user_command) (now : N) : op :=
  match u with
  | UPause i => OpRequestPause i now
  | UContinue i => OpContinueJob i now
  | UCancel i => OpCancelJob i now
  | URestart i => OpRestartExecution i now
  end.

Definition u_dedup (u : user_command) (d : db) : option ControlCommandDedupRow.t :=
  getDedup (ActorContext.username (u_actor u)) (command_name (u_name u)) (u_key u) d.

(** ** Structure shared by the four commands *)

Lemma run_user_ok u now d r d' eff :
  run_user u now d = (Ok r, d', eff) → u_tx u now d = Ok (r, d').
Proof.
  destruct u; simpl; unfold JobCommandService.requestPause, JobCommandService.continueJob,
    JobCommandService.cancelJob, JobCommandService.restartExecution, run_command;
    intros Hr; apply run_transaction_ok; destruct (run_transaction _ d) as [[a|e] d1];
    simplify_eq; done.
Qed.

Lemma run_user_err u now d e :
  u_tx u now d = Err e → run_user u now d = (Err e, d, []).
Proof.
  destruct u; simpl; unfold JobCommandService.requestPause, JobCommandService.continueJob,
    JobCommandService.cancelJob, JobCommandService.restartExecution, run_command,
    run_transaction; intros ->; done.
Qed.

Lemma run_user_of_tx u now d r d' :
  u_tx u now d = Ok (r, d') → (run_user u now d).1 = (Ok r, d').
Proof.
  destruct u; simpl; unfold JobCommandService.requestPause, JobCommandService.continueJob,
    JobCommandService.cancelJob, JobCommandService.restartExecution, run_command,
    run_transaction; intros ->; done.
Qed.

Lemma u_tx_replay u now d row :
  u_dedup u d = Some row →
  u_tx u now d = match assertMatchingReplay row (u_hash u) (u_name u) with
                 | Ok r => Ok (r, d) | Err e => Err e end.
Proof.
  unfold u_dedup. destruct u; cbn [u_actor u_name u_key u_hash u_tx];
    unfold JobCommandService.requestPause_tx,
    JobCommandService.continueJob_tx, JobCommandService.cancelJob_tx,
    JobCommandService.restartExecution_tx, with_replay; rewrite tx_bind_gets; intros ->; done.
Qed.

(** The receipt stored by [wrapCommandReceipt] reads back as the response. *)
Lemma receipt_roundtrip c id rev response :
  parseStoredCommandReceipt (wrapCommandReceipt c id rev response) =
  Ok (command_name c, response).
Proof. by destruct c. Qed.

Lemma storeDedup_ok row s a s' :
  storeDedup row s = Ok (a, s') →
  dedup s' = <[(ControlCommandDedupRow.actorUsername row, ControlCommandDedupRow.commandType row,
               ControlCommandDedupRow.idempotencyKey row) := row]> (dedup s).
Proof. intros Hs. unfold storeDedup in Hs. by tx_inv. Qed.

(** The dedup row a command leaves behind. *)
Definition answered (u : user_command) (r : json) (d : db) : Prop :=
  ∃ row, u_dedup u d = Some row ∧ assertMatchingReplay row (u_hash u) (u_name u) = Ok r.

Lemma publish_and_store_answers {P} (input : UserCommand.t P) c h id rev response now s r s' :
  publish_and_store input c h id rev response now s = Ok (r, s') →
  r = response ∧ ∃ row,
    getDedup (ActorContext.username (UserCommand.actor input)) (command_name c)
      (UserCommand.idempotencyKey input) s' = Some row ∧
    assertMatchingReplay row h c = Ok response.
Proof.
  intros Hp. unfold publish_and_store in Hp. tx_inv. split; [done|].
  match goal with H : storeDedup _ _ = Ok _ |- _ => apply storeDedup_ok in H as Hd end.
  unfold getDedup. rewrite Hd. simpl. rewrite lookup_insert_eq. eexists. split; [done|].
  unfold assertMatchingReplay.
  cbn [ControlCommandDedupRow.requestHash ControlCommandDedupRow.responseJson].
  by rewrite String.eqb_refl, receipt_roundtrip, String.eqb_refl.
Qed.

Lemma u_tx_answers u now d r d' : u_tx u now d = Ok (r, d') → answered u r d'.
Proof.
  intros Htx. destruct (u_dedup u d) as [row|] eqn:Hd.
  - rewrite (u_tx_replay _ _ _ _ Hd) in Htx.
    destruct (assertMatchingReplay _ _ _) eqn:Ha; simplify_eq. by exists row.
  - unfold answered, u_dedup. destruct u; cbn [u_actor u_name u_key u_hash u_tx] in *;
      unfold JobCommandService.requestPause_tx, JobCommandService.continueJob_tx,
        JobCommandService.cancelJob_tx, JobCommandService.restartExecution_tx in Htx;
      (apply with_replay_ok in Htx as [[-> (row & Hrow & Ha)]|[_ Htx]]; [by eauto|]);
      tx_inv;
      match goal with H : publish_and_store _ _ _ _ _ _ _ _ = Ok _ |- _ =>
        apply publish_and_store_answers in H as (-> & row & ? & ?) end; eauto.
Qed.

Lemma answered_mono u r d d' : mono d d' → answered u r d → answered u r d'.
Proof.
  intros Hm (row & Hrow & Ha). exists row. split; [|done].
  by destruct (mono_dedup _ _ Hm _ _ Hrow) as (? & ? & <-).
Qed.

(** ** Refusals *)

Lemma u_tx_not_found u now d :
  u_dedup u d = None → getOwnedAggregate (u_actor u) (u_jobId u) d = None →
  u_tx u now d = Err (commandError "job.not_found" None).
Proof.
  unfold u_dedup. destruct u; cbn [u_actor u_name u_key u_tx u_jobId];
    unfold JobCommandService.requestPause_tx, JobCommandService.continueJob_tx,
    JobCommandService.cancelJob_tx, JobCommandService.restartExecution_tx, with_replay,
    load_for_user; rewrite tx_bind_gets; intros -> Ho;
    rewrite tx_bind_assoc, tx_bind_gets, Ho; done.
Qed.

Lemma u_tx_conflict u now d job :
  u_dedup u d = None → getOwnedAggregate (u_actor u) (u_jobId u) d = Some job →
  JobAggregate.stateRevision job ≠ u_expectedRevision u →
  u_tx u now d = Err (commandError "job.revision_conflict" None).
Proof.
  unfold u_dedup. destruct u; cbn [u_actor u_name u_key u_tx u_jobId u_expectedRevision];
    unfold JobCommandService.requestPause_tx, JobCommandService.continueJob_tx,
    JobCommandService.cancelJob_tx, JobCommandService.restartExecution_tx, with_replay,
    load_for_user; rewrite tx_bind_gets; intros -> Ho Hrev;
    rewrite tx_bind_assoc, tx_bind_gets, Ho; unfold tx_bind at 1;
    rewrite bool_decide_eq_false_2 by done; done.
Qed.

Lemma u_tx_not_allowed u now d job e :
  u_dedup u d = None → getOwnedAggregate (u_actor u) (u_jobId u) d = Some job →
  JobAggregate.stateRevision job = u_expectedRevision u →
  u_transition u job = Err e → u_tx u now d = Err (fromTransitionError e).
Proof.
  unfold u_dedup.
  destruct u; cbn [u_actor u_name u_key u_tx u_jobId u_expectedRevision u_transition];
    unfold JobCommandService.requestPause_tx, JobCommandService.continueJob_tx,
    JobCommandService.cancelJob_tx, JobCommandService.restartExecution_tx, with_replay,
    load_for_user; rewrite tx_bind_gets; intros -> Ho Hrev Ht;
    rewrite tx_bind_assoc, tx_bind_gets, Ho; unfold tx_bind at 1;
    rewrite bool_decide_eq_true_2 by done; simpl; unfold tx_ret, tx_bind at 1; rewrite Ht; done.
Qed.

(** ** Acceptance *)

(** The state the command leaves the job in. *)
Definition u_next (u : user_command) (job : JobAggregate.t) (t : JobTransition) : JobAggregate.t :=
  evolve job (nextState t) (tr_controlIntent t) (tr_resumeTarget t)
    (match u with
     | URestart _ => JobAggregate.executionGeneration job + 1
     | _ => JobAggregate.executionGeneration job
     end)
    (if clearActiveRun t then None else JobAggregate.activeRunId job)
    (JobAggregate.lastFailureId job).

Definition u_response (u : user_command) (job : JobAggregate.t) (t : JobTransition) : json :=
  job_response (JobAggregate.id job) (nextState t) (JobAggregate.stateRevision job + 1)
    (match u with
     | UCancel _ => [("runIdToStop", json_of_option (JobAggregate.activeRunId job))]
     | _ => []
     end).

Lemma publish_and_store_run {P} (input : UserCommand.t P) c h id rev response now s :
  existsb (outbox_conflict (job_changed id rev [ChangedField.state] now)) (outbox s) = false →
  getDedup (ActorContext.username (UserCommand.actor input)) (command_name c)
    (UserCommand.idempotencyKey input) s = None →
  ∃ s', publish_and_store input c h id rev response now s = Ok (response, s') ∧ jobs s' = jobs s.
Proof.
  intros Ho Hd. unfold publish_and_store. erewrite tx_bind_run by (by apply appendOutbox_run).
  unfold storeDedup. rewrite tx_bind_assoc, tx_bind_gets. simpl. unfold getDedup in Hd.
  rewrite Hd, bool_decide_eq_false_2 by (by intros [? ?]). eexists. split; [reflexivity|]. done.
Qed.

(** The commands start with the replay check and the load. *)
Lemma user_load_run {P} (input : UserCommand.t P) c h d row (k : JobAggregate.t → tx json) :
  getDedup (ActorContext.username (UserCommand.actor input)) (command_name c)
    (UserCommand.idempotencyKey input) d = None →
  jobs d !! UserCommand.jobId input = Some row →
  ownerVisibilityPredicate (UserCommand.actor input) d row = true →
  ControlJobRow.stateRevision row = UserCommand.expectedRevision input →
  with_replay input c h (let* job := load_for_user input in k job) d = k (toAggregate row) d.
Proof.
  intros Hd Hrow Hvis Hrev. unfold with_replay. rewrite tx_bind_gets, Hd.
  apply tx_bind_run. unfold load_for_user. rewrite tx_bind_gets.
  unfold getOwnedAggregate. rewrite Hrow, Hvis. simpl. by rewrite bool_decide_eq_true_2.
Qed.

(** ... and end with the compare-and-set, their own writes, the event and the receipt. *)
Lemma user_write_run {P A} (input : UserCommand.t P) c h now d row next (own : tx A) response :
  inv d →
  getDedup (ActorContext.username (UserCommand.actor input)) (command_name c)
    (UserCommand.idempotencyKey input) d = None →
  jobs d !! UserCommand.jobId input = Some row →
  ControlJobRow.stateRevision row = UserCommand.expectedRevision input →
  Respects same_core own → Respects same_dedup own →
  (∀ s, jobs s !! UserCommand.jobId input ≠ None → tasks s = tasks d →
        ∃ a s', own s = Ok (a, s')) →
  let cas := mkJobCasInput (ControlJobRow.id row) now (UserCommand.expectedRevision input)
               (ControlJobRow.state row) (ControlJobRow.activeRunId row) next in
  let rev := (ControlJobRow.stateRevision row + 1)%Z in
  ∃ d', (let* newRevision := cas_or_throw cas "job.revision_conflict" in
         do* own in
         publish_and_store input c h (ControlJobRow.id row) newRevision (response newRevision)
           now) d = Ok (response rev, d') ∧
        jobs d' = <[UserCommand.jobId input := cas_patch cas row]> (jobs d).
Proof.
  intros Hi Hd Hrow Hrev Hcore Hdd Hown cas rev.
  pose proof (inv_keyed _ Hi _ _ Hrow) as Hid.
  erewrite tx_bind_run by (apply (cas_or_throw_run cas _ _ row); simpl; congruence). simpl.
  set (s1 := upd_jobs _ d).
  destruct (Hown s1) as (a & s2 & Hs2); [|done|].
  { unfold s1. simpl. rewrite Hid, lookup_insert_eq. done. }
  rewrite (tx_bind_run _ _ _ _ _ Hs2). apply Hcore in Hs2 as Hc2. apply Hdd in Hs2 as Hd2.
  unfold same_table, core_view, out_view in Hc2, Hd2. rewrite <-Hrev.
  destruct (publish_and_store_run input c h (ControlJobRow.id row) rev (response rev) now s2)
    as (s3 & Hs3 & Hj3).
  - replace (outbox s2) with (outbox d) by (by injection Hc2). apply outbox_no_conflict.
    intros e He Hent. eapply inv_events; [done..|]. by rewrite Hent, Hid.
  - unfold getDedup in *. by replace (dedup s2) with (dedup d).
  - exists s3. split; [done|]. rewrite Hj3. replace (jobs s2) with (jobs s1) by congruence.
    unfold s1. simpl. by rewrite Hid.
Qed.

(** The task table is ready for a new generation of job [job]. *)
Definition next_generation_free (d : db) (job : JobAggregate.t) : Prop :=
  tasks_keyed d ∧
  ∀ taskId, tasks d !! (JobAggregate.id job, (JobAggregate.executionGeneration job + 1)%Z,
                        taskId) = None.

Lemma user_write_accepted {P A} (input : UserCommand.t P) c h now d row next (own : tx A)
    response r j :
  inv d →
  getDedup (ActorContext.username (UserCommand.actor input)) (command_name c)
    (UserCommand.idempotencyKey input) d = None →
  jobs d !! UserCommand.jobId input = Some row →
  ControlJobRow.stateRevision row = UserCommand.expectedRevision input →
  Respects same_core own → Respects same_dedup own →
  (∀ s, jobs s !! UserCommand.jobId input ≠ None → tasks s = tasks d →
        ∃ a s', own s = Ok (a, s')) →
  let cas := mkJobCasInput (ControlJobRow.id row) now (UserCommand.expectedRevision input)
               (ControlJobRow.state row) (ControlJobRow.activeRunId row) next in
  r = response (ControlJobRow.stateRevision row + 1)%Z → j = toAggregate (cas_patch cas row) →
  ∃ d', (let* newRevision := cas_or_throw cas "job.revision_conflict" in
         do* own in
         publish_and_store input c h (ControlJobRow.id row) newRevision (response newRevision)
           now) d = Ok (r, d') ∧
        toAggregate <$> jobs d' !! UserCommand.jobId input = Some j.
Proof.
  intros Hi Hd Hrow Hrev Hc Hdd Hown cas -> ->.
  destruct (user_write_run input c h now d row next own response) as (d' & Hrun & Hj); try done.
  exists d'. split; [done|]. by rewrite Hj, lookup_insert_eq.
Qed.

Lemma u_tx_accepted u now d row t :
  inv d → u_dedup u d = None →
  jobs d !! u_jobId u = Some row → ownerVisibilityPredicate (u_actor u) d row = true →
  ControlJobRow.stateRevision row = u_expectedRevision u →
  u_transition u (toAggregate row) = Ok t →
  (∀ i, u = URestart i → next_generation_free d (toAggregate row)) →
  ∃ d', u_tx u now d = Ok (u_response u (toAggregate row) t, d') ∧
        getAggregate (u_jobId u) d' = Some (u_next u (toAggregate row) t).
Proof.
  unfold u_dedup, getAggregate. intros Hi Hd Hrow Hvis Hrev Ht Hgen.
  pose proof (inv_keyed _ Hi _ _ Hrow) as Hid.
  destruct u; cbn [u_actor u_name u_key u_tx u_jobId u_expectedRevision u_transition] in *;
    [unfold JobCommandService.requestPause_tx | unfold JobCommandService.continueJob_tx
    | unfold JobCommandService.cancelJob_tx | unfold JobCommandService.restartExecution_tx];
    rewrite (user_load_run _ _ _ _ _ _ Hd Hrow Hvis Hrev), Ht;
    unfold lift_transition; rewrite tx_bind_ret; cbv zeta.
  - eapply user_write_accepted; [done..| | | |done|done].
    + solve_respects.
    + solve_respects.
    + intros s _ _. repeat case_match; do 2 eexists; reflexivity.
  - eapply (user_write_accepted _ _ _ _ _ _ _ (tx_ret tt)); [done..| | | |done|].
    + apply _.
    + apply _.
    + intros s _ _. do 2 eexists. reflexivity.
    + unfold JobDomain.continueJob in Ht. repeat case_match; simplify_eq/=; done.
  - eapply user_write_accepted; [done..| | | | |].
    + solve_respects.
    + solve_respects.
    + intros s _ _. repeat case_match; do 2 eexists; reflexivity.
    + unfold JobDomain.cancelJob in Ht. repeat case_match; simplify_eq/=; done.
    + unfold JobDomain.cancelJob in Ht. repeat case_match; simplify_eq/=; done.
  - destruct (Hgen _ eq_refl) as [Hk Hfree]. simpl in Hfree.
    eapply user_write_accepted; [done..| | | |done|].
    + solve_respects.
    + solve_respects.
    + intros s Hs Hts. do 2 eexists. apply cloneTasks_run; simpl.
      * intros k x. rewrite Hts. apply Hk.
      * by rewrite Hid.
      * intros x. rewrite Hts. apply Hfree.
    + unfold JobDomain.restartExecution in Ht. repeat case_match; simplify_eq/=; done.
Qed.

(** A command that is not a replay moves the revision it expects by one. *)
Lemma u_tx_fresh_revision u now d r d1 :
  keyed d → u_dedup u d = None → u_tx u now d = Ok (r, d1) →
  ∃ row1, jobs d1 !! u_jobId u = Some row1 ∧
          ControlJobRow.stateRevision row1 = (u_expectedRevision u + 1)%Z.
Proof.
  unfold u_dedup. intros Hk Hd Htx.
  destruct u; cbn [u_actor u_name u_key u_tx u_jobId u_expectedRevision] in *;
    unfold JobCommandService.requestPause_tx, JobCommandService.continueJob_tx,
      JobCommandService.cancelJob_tx, JobCommandService.restartExecution_tx,
      publish_and_store in Htx;
    (apply with_replay_ok in Htx as [[_ (row & Hrow & _)]|[_ Htx]]; [congruence|]); tx_inv;
    match goal with H : load_for_user _ _ = Ok _ |- _ =>
      apply load_for_user_ok in H as (-> & row & Hrow & _ & -> & Hrev) end;
    match goal with H : lift_transition _ _ = Ok _ |- _ => apply lift_transition_ok in H as [-> _] end;
    match goal with H : cas_or_throw _ _ _ = Ok _ |- _ =>
      apply cas_or_throw_ok, compareAndSetJob_ok in H as (row' & Hrow' & Hrev' & _ & _ & _ & ->) end;
    repeat frame_step jobs; simpl in *;
    match goal with H : jobs d1 = _ |- _ => rewrite H end;
    repeat match goal with H : jobs _ = jobs _ |- _ => rewrite H; clear H end;
    repeat match goal with H : jobs _ = <[_ := _]> _ |- _ => rewrite H; clear H end;
    rewrite (Hk _ _ Hrow), lookup_insert_eq; eexists; (split; [reflexivity|]); simpl; lia.
Qed.

Variable cfg : config.

(** C15: A user command that succeeded and is sent again with the same idempotency key, after
    any sequence of other operations, returns the stored response and leaves the database
    unchanged. *)
Theorem replay_is_idempotent u now now' d r d1 eff d2 :
  inv d1 → run_user u now d = (Ok r, d1, eff) → reachable cfg d1 d2 →
  (run_user u now' d2).1 = (Ok r, d2).
Proof.
  intros Hi Hrun Hr. apply run_user_ok, u_tx_answers in Hrun.
  destruct (reachable_commits cfg _ _ Hi Hr) as [_ Hc%commits_mono].
  destruct (answered_mono _ _ _ _ Hc Hrun) as (row & Hrow & Ha).
  apply run_user_of_tx. rewrite (u_tx_replay _ _ _ _ Hrow). by rewrite Ha.
Qed.

(** A recorded answer decides every later use of its key. *)
Lemma answered_reuse u1 u2 r d :
  answered u1 r d → u_name u2 = u_name u1 → u_key u2 = u_key u1 →
  ActorContext.username (u_actor u2) = ActorContext.username (u_actor u1) →
  ∀ now, if String.eqb (u_hash u1) (u_hash u2)
         then (run_user u2 now d).1 = (Ok r, d)
         else run_user u2 now d = (Err (commandError "idempotency_key_reused" None), d, []).
Proof.
  intros (row & Hrow & Ha) Hn Hk Hact now.
  assert (u_dedup u2 d = Some row) as Hrow2 by (unfold u_dedup in *; by rewrite Hn, Hk, Hact).
  unfold assertMatchingReplay in Ha.
  destruct (String.eqb_spec (ControlCommandDedupRow.requestHash row) (u_hash u1)) as [Hh|];
    [simpl in Ha|done].
  destruct (String.eqb_spec (u_hash u1) (u_hash u2)) as [He|Hne].
  - apply run_user_of_tx. rewrite (u_tx_replay _ _ _ _ Hrow2). unfold assertMatchingReplay.
    rewrite Hh, He, String.eqb_refl, Hn. simpl. by rewrite Ha.
  - apply run_user_err. rewrite (u_tx_replay _ _ _ _ Hrow2). unfold assertMatchingReplay.
    rewrite Hh. apply String.eqb_neq in Hne. by rewrite Hne.
Qed.

(** Reusing an idempotency key for the same command type, after any sequence of operations:
    with the same request hash the stored response is returned, with another one the command
    fails with idempotency_key_reused, both without a change. *)
Theorem key_reuse_follows_payload_hash u1 u2 now1 now2 d d1 d2 r eff :
  inv d1 → run_user u1 now1 d = (Ok r, d1, eff) → reachable cfg d1 d2 →
  u_name u2 = u_name u1 → u_key u2 = u_key u1 →
  ActorContext.username (u_actor u2) = ActorContext.username (u_actor u1) →
  if String.eqb (u_hash u1) (u_hash u2)
  then (run_user u2 now2 d2).1 = (Ok r, d2)
  else run_user u2 now2 d2 = (Err (commandError "idempotency_key_reused" None), d2, []).
Proof.
  intros Hi Hrun Hr Hn Hk Hact. apply run_user_ok, u_tx_answers in Hrun.
  destruct (reachable_commits cfg _ _ Hi Hr) as [_ Hc%commits_mono].
  by apply answered_reuse; [apply (answered_mono _ _ d1)|..].
Qed.

(** The idempotency key of a pause is not bound to the job: the same key used to pause
    another job returns the response for the first job and leaves the database unchanged. *)
Theorem pause_key_is_not_bound_to_job i1 i2 now1 now2 d d1 r eff :
  JobCommandService.requestPause i1 now1 d = (Ok r, d1, eff) →
  UserCommand.actor i2 = UserCommand.actor i1 →
  UserCommand.idempotencyKey i2 = UserCommand.idempotencyKey i1 →
  (JobCommandService.requestPause i2 now2 d1).1 = (Ok r, d1).
Proof.
  intros Hrun Hact Hk. change (run_user (UPause i1) now1 d = (Ok r, d1, eff)) in Hrun.
  apply run_user_ok, u_tx_answers in Hrun.
  pose proof (answered_reuse (UPause i1) (UPause i2) r d1 Hrun eq_refl Hk
    ltac:(by simpl; rewrite Hact) now2) as Ha.
  simpl in Ha. by rewrite String.eqb_refl in Ha.
Qed.

(** The task table after a restart. *)
Lemma restart_tasks i now d r d1 row :
  keyed d → u_dedup (URestart i) d = None → jobs d !! UserCommand.jobId i = Some row →
  next_generation_free d (toAggregate row) →
  JobCommandService.restartExecution_tx i now d = Ok (r, d1) →
  tasks d1 = add_tasks (cloned_tasks (ControlJobRow.id row)
               (ControlJobRow.executionGeneration row)
               (ControlJobRow.executionGeneration row + 1) now d) (tasks d).
Proof.
  intros Hk Hd Hrow [Hkeyed Hfree] Htx. unfold u_dedup in Hd. simpl in Hd, Hfree.
  unfold JobCommandService.restartExecution_tx in Htx.
  apply with_replay_ok in Htx as [[_ (x & Hx & _)]|[_ Htx]]; [simpl in Hx; congruence|].
  apply tx_bind_ok in Htx as (job & s0 & Hl & Htx).
  apply load_for_user_ok in Hl as (-> & row' & Hrow' & _ & -> & _).
  assert (row' = row) as -> by congruence.
  apply tx_bind_ok in Htx as (t & s0 & Ht & Htx). apply lift_transition_ok in Ht as [-> _].
  apply tx_bind_ok in Htx as (rev & s1 & Hcas & Htx).
  apply cas_or_throw_ok, compareAndSetJob_ok in Hcas as (row2 & Hrow2 & _ & _ & _ & _ & ->).
  apply tx_bind_ok in Htx as (n & s2 & Hcl & Htx).
  rewrite cloneTasks_run in Hcl; [|done|by simpl; rewrite lookup_insert_eq|done].
  injection Hcl as _ <-. unfold publish_and_store in Htx. tx_inv. repeat frame_step tasks.
  repeat match goal with E : tasks _ = tasks _ |- _ => rewrite E; clear E end. reflexivity.
Qed.

(** A restart that succeeds copies every task of the current generation to the next one as
    queued, keeps all earlier task rows and adds no other task to the new generation. *)
Theorem restart_clones_tasks i now d r d1 eff row :
  inv d → u_dedup (URestart i) d = None → jobs d !! UserCommand.jobId i = Some row →
  next_generation_free d (toAggregate row) →
  JobCommandService.restartExecution i now d = (Ok r, d1, eff) →
  let job := UserCommand.jobId i in
  let g := ControlJobRow.executionGeneration row in
  (∀ taskId t, tasks d !! (job, g, taskId) = Some t →
     tasks d1 !! (job, (g + 1)%Z, taskId) = Some (clone_task (g + 1) now t) ∧
     ControlJobTaskRow.state (clone_task (g + 1) now t) = TaskState.queued) ∧
  (∀ k t, tasks d !! k = Some t → tasks d1 !! k = Some t) ∧
  (∀ taskId, tasks d !! (job, g, taskId) = None → tasks d1 !! (job, (g + 1)%Z, taskId) = None).
Proof.
  intros Hi Hd Hrow Hfree Hrun job g.
  apply (run_user_ok (URestart i)) in Hrun. simpl in Hrun.
  pose proof (restart_tasks _ _ _ _ _ _ (inv_keyed _ Hi) Hd Hrow Hfree Hrun) as Ht.
  destruct Hfree as [Hkt Hfree]. simpl in Hfree. fold g in Ht, Hfree.
  pose proof (inv_keyed _ Hi _ _ Hrow) as Hid. rewrite Hid in *. fold job in Ht, Hfree.
  assert (∀ x, x ∈ cloned_tasks job g (g + 1) now d → ∃ t, x = clone_task (g + 1) now t ∧
            tasks d !! (job, g, ControlJobTaskRow.taskId t) = Some t ∧
            task_key x = (job, (g + 1)%Z, ControlJobTaskRow.taskId t)) as Hcl.
  { intros x Hx. apply list_elem_of_fmap in Hx as (t & -> & Hin).
    apply elem_of_listTasks in Hin as [Hg [k Hk]]. exists t.
    pose proof (Hkt _ _ Hk) as Hkey. unfold in_generation in Hg.
    rewrite andb_true_iff, !bool_decide_eq_true in Hg. destruct Hg as [Hj Hgg].
    unfold task_key in *. rewrite Hj, Hgg in Hkey. simpl. rewrite Hj. subst k. done. }
  rewrite Ht. split_and!.
  - intros taskId t Hk. pose proof (Hkt _ _ Hk) as Hkey. unfold task_key in Hkey.
    injection Hkey as Hj Hg Htid. split; [|done].
    replace (job, (g + 1)%Z, taskId) with (task_key (clone_task (g + 1) now t))
      by (unfold task_key; simpl; congruence).
    apply add_tasks_lookup.
    + by apply cloned_tasks_NoDup.
    + apply list_elem_of_fmap. exists t. split; [done|]. apply elem_of_listTasks.
      split; [|by eauto]. unfold in_generation. by rewrite !bool_decide_eq_true_2.
  - intros k t Hk. rewrite add_tasks_other; [done|]. intros x Hx Heq.
    destruct (Hcl x Hx) as (t' & _ & _ & Hkey). rewrite <-Heq, Hkey, Hfree in Hk. done.
  - intros taskId Hn. rewrite add_tasks_other; [by apply Hfree|]. intros x Hx Heq.
    destruct (Hcl x Hx) as (t' & _ & Ht' & Hkey). rewrite Hkey in Heq.
    injection Heq as <-. congruence.
Qed.

(** When a user command is not a replay it is refused as follows: an unknown or foreign job
    gives job.not_found, another revision gives job.revision_conflict, a state the domain
    forbids gives the transition error; each leaves the database unchanged and calls nothing on
    the runtime. *)
Theorem refused_command_changes_nothing u now d :
  u_dedup u d = None →
  match getOwnedAggregate (u_actor u) (u_jobId u) d with
  | None => run_user u now d = (Err (commandError "job.not_found" None), d, [])
  | Some job =>
      if bool_decide (JobAggregate.stateRevision job = u_expectedRevision u) then
        match u_transition u job with
        | Err e => run_user u now d = (Err (fromTransitionError e), d, [])
        | Ok _ => True
        end
      else run_user u now d = (Err (commandError "job.revision_conflict" None), d, [])
  end.
Proof.
  intros Hd. destruct (getOwnedAggregate _ _ d) as [job|] eqn:Ho.
  - case_bool_decide as Hrev.
    + destruct (u_transition u job) eqn:Ht; [done|]. by eapply run_user_err, u_tx_not_allowed.
    + by eapply run_user_err, u_tx_conflict.
  - by apply run_user_err, u_tx_not_found.
Qed.

(** Optimistic concurrency: of two user commands that expect the same revision of a job,
    the one that commits first makes the other one fail, whatever happens in between, with
    job.revision_conflict (or job.not_found when the second actor does not own the job) and
    without effect. *)
Theorem first_writer_wins u1 u2 now1 now2 d d1 d2 r eff :
  inv d → u_dedup u1 d = None → run_user u1 now1 d = (Ok r, d1, eff) → reachable cfg d1 d2 →
  u_jobId u2 = u_jobId u1 → u_expectedRevision u2 = u_expectedRevision u1 →
  u_dedup u2 d2 = None →
  ∃ code, (code = "job.revision_conflict" ∨ code = "job.not_found") ∧
          run_user u2 now2 d2 = (Err (commandError code None), d2, []).
Proof.
  intros Hi Hd1 Hrun Hreach Hjob Hrev Hd2.
  assert (inv d1) as Hi1.
  { pose proof (exec_commits cfg (u_op u1 now1) d (inv_keyed _ Hi)) as Hc.
    replace (exec cfg (u_op u1 now1) d) with d1 in Hc by (destruct u1; simpl in *; by rewrite Hrun).
    by eapply inv_commits. }
  apply run_user_ok in Hrun.
  destruct (u_tx_fresh_revision _ _ _ _ _ (inv_keyed _ Hi) Hd1 Hrun) as (row1 & Hrow1 & Hr1).
  destruct (reachable_commits cfg _ _ Hi1 Hreach) as [_ Hc].
  destruct (job_progress_commits (u_jobId u1) _ _ Hc _ Hrow1) as (row2 & Hrow2 & Hle & _).
  destruct (getOwnedAggregate (u_actor u2) (u_jobId u2) d2) as [job|] eqn:Ho.
  - exists "job.revision_conflict". split; [by left|].
    eapply run_user_err, u_tx_conflict; [done|exact Ho|].
    unfold getOwnedAggregate in Ho. rewrite Hjob, Hrow2 in Ho. case_match; simplify_eq/=. lia.
  - exists "job.not_found". split; [by right|]. by apply run_user_err, u_tx_not_found.
Qed.

(** The commands that carry out an action offered in the user interface. *)
Definition implements (u : user_command) (a : JobAction.t) : bool :=
  match u, a with
  | UPause _, JobAction.pause | UContinue _, JobAction.continue
  | UCancel _, JobAction.cancel | URestart _, JobAction.restart_execution => true
  | _, _ => false
  end.

Lemma offered_has_transition u a ctx job :
  a ∈ availableActions ctx → implements u a = true → ar_state ctx = JobAggregate.state job →
  job_shape job true → ∃ t, u_transition u job = Ok t.
Proof.
  unfold availableActions, job_shape. intros Ha Hu Hst Hsh. rewrite Hst in Ha.
  destruct u, a; try done; simpl;
    unfold JobDomain.requestPause, JobDomain.continueJob, JobDomain.cancelJob,
      JobDomain.restartExecution;
    destruct (JobAggregate.state job); simpl in *; repeat case_match; try set_solver; eauto;
    naive_solver.
Qed.

(** An action that availableActions offers is accepted: the corresponding command with the
    current revision and a fresh key succeeds, with the documented response, and leaves the job
    in the state the domain transition describes. *)
Theorem offered_action_is_accepted u a recoverability hasPlan now d row :
  inv d → jobs d !! u_jobId u = Some row →
  ownerVisibilityPredicate (u_actor u) d row = true →
  u_expectedRevision u = ControlJobRow.stateRevision row → u_dedup u d = None →
  a ∈ availableActions (mkActionRuleContext (ControlJobRow.state row) recoverability hasPlan) →
  implements u a = true →
  (∀ i, u = URestart i → next_generation_free d (toAggregate row)) →
  ∃ t d', u_transition u (toAggregate row) = Ok t ∧
    (run_user u now d).1 = (Ok (u_response u (toAggregate row) t), d') ∧
    getAggregate (u_jobId u) d' = Some (u_next u (toAggregate row) t).
Proof.
  intros Hi Hrow Hvis Hrev Hd Ha Hu Hgen.
  destruct (offered_has_transition u a _ (toAggregate row) Ha Hu eq_refl) as [t Ht].
  { by eapply inv_shape. }
  destruct (u_tx_accepted u now d row t) as (d' & Hrun & Hnext); try done.
  exists t, d'. split_and!; [done|by apply run_user_of_tx|done].
Qed.
End user_specs.
