(* ===== verification/WorkerSpecs.v ===== *)
(** * Properties of the worker commands

    Fencing of stale workers, idempotent checkpoints and verdicts. *)
From S2P Require Import Prelude Json Contracts JobDomain TaskDomain Store JobRepo TaskRepo.
From S2P Require Import Commands InternalCommands Scheduler Executor Effects Outbox Lifecycle.
From S2P Require Import Refinement Steps Safety.
Local Open Scope tx_scope.

(** ** Fencing *)

(** The envelope of a worker operation. *)
Definition op_fence (o : op) : option WorkerFence :=
  match o with
  | OpAcknowledgePause i _ | OpCompleteExecution i _ => Some (worker_fence_of i)
  | OpCheckpointTask i _ => Some (worker_fence_of i)
  | OpFailPauseCheckpoint i _ _ => Some (worker_fence_of i)
  | OpReportNoProgress i _ _ | OpInternalNoProgress i _ _ => Some (worker_fence_of i)
  | OpInterruptRun i _ _ => Some (worker_fence_of i)
  | OpRuntimeStarted i _ _ => Some (worker_fence_of i)
  | OpRuntimeExited i _ _ => Some (worker_fence_of i)
  | OpStartVerification i _ _ => Some (worker_fence_of i)
  | OpCompleteVerification i _ _ => Some (worker_fence_of i)
  | _ => None
  end.

(** The worker speaks for the active run of its job, at the current revision. *)
Definition fence_current (d : db) (w : WorkerFence) : Prop :=
  ∃ row run,
    jobs d !! wf_jobId w = Some row ∧ runs d !! wf_runId w = Some run ∧
    ControlJobRow.activeRunId row = Some (wf_runId w) ∧
    ControlJobRow.stateRevision row = wf_expectedRevision w ∧
    ControlJobRunRow.jobId run = wf_jobId w ∧
    ControlJobRunRow.fenceToken run = wf_fenceToken w ∧
    ControlJobRunRow.executionGeneration run = wf_executionGeneration w.

Lemma getWorkerAggregate_join j r f g d job :
  getWorkerAggregate j r f g d = Some job →
  ∃ row run, jobs d !! j = Some row ∧ runs d !! r = Some run ∧ job = toAggregate row ∧
    ControlJobRunRow.jobId run = j ∧ ControlJobRunRow.fenceToken run = f ∧
    ControlJobRunRow.executionGeneration run = g.
Proof.
  unfold getWorkerAggregate. intros Hj. repeat case_match; simplify_eq.
  rewrite !andb_true_iff, !bool_decide_eq_true in *. naive_solver.
Qed.

Lemma assertWorkerFence_job w d u :
  assertWorkerFence w d = Ok u →
  ∃ job, getWorkerAggregate (wf_jobId w) (wf_runId w) (wf_fenceToken w)
           (wf_executionGeneration w) d = Some job.
Proof. unfold assertWorkerFence. intros Ha. repeat case_match; naive_solver. Qed.

(** A compare-and-set on the worker's run succeeds only for a current worker. *)
Lemma cas_fence_current {P} (input : WorkerCommand.t P) d s i rev s' job :
  JobCommandService.worker_job input d = Some job → same_core d s →
  ci_jobId i = WorkerCommand.jobId input →
  ci_expectedRevision i = WorkerCommand.expectedRevision input →
  ci_expectedActiveRunId i = Some (WorkerCommand.runId input) →
  compareAndSetJob i s = Ok (CasOk rev, s') → fence_current d (worker_fence_of input).
Proof.
  intros (row & run & Hrow & Hrun & _ & ? & ? & ?)%getWorkerAggregate_join Hc Hid Her Hra Hcas.
  apply compareAndSetJob_ok in Hcas as (row' & Hrow' & Hrev & _ & Hact & _).
  unfold same_table, core_view in Hc. exists row, run. simpl.
  assert (row' = row) as -> by congruence. split_and!; congruence.
Qed.

Lemma workerFence_current w now s rev s' :
  workerFence w now s = Ok (Ok rev, s') → fence_current s w.
Proof.
  intros Hf. unfold workerFence in Hf. tx_inv.
  match goal with H : fence_matches _ _ ?row = true |- _ =>
    unfold fence_matches in H; simpl in H; rewrite !andb_true_iff in H;
    destruct H as [[[Hrev Hact] Hgen] Hrun]; exists row end.
  case_match; [|done].
  rewrite !andb_true_iff, !bool_decide_eq_true in *. destruct Hrun as [[[? ?] ?] _].
  eexists. split_and!; eauto.
Qed.

Lemma same_core_runs_current d s w :
  core_view s = core_view d → runs s = runs d → fence_current s w → fence_current d w.
Proof.
  unfold core_view, fence_current. intros [= -> _ _] ->. done.
Qed.

(** Closes the branches of a worker transaction: the ones that keep the jobs,
    and the ones that need a current fence. *)
Ltac fenced_cas :=
  repeat core_step;
  first
    [ core_chain
    | exfalso;
      match goal with
      | Hn : ¬ fence_current _ _ |- _ => apply Hn
      end;
      first
        [ eapply cas_fence_current; [eassumption| | | | |eassumption];
          [core_chain | by simpl; eauto using worker_job_id | reflexivity..]
        | eapply workerFence_current; eassumption
        | eapply same_core_runs_current; [| |eapply workerFence_current; eassumption];
          [core_chain|done] ] ].

Section fencing.
Context `{Sha256} `{TypeBox} (cfg : config).

Lemma run_command_core {A} (m : tx A) after d :
  (∀ a d', m d = Ok (a, d') → same_core d d') →
  core_view (run_command m after d).1.2 = core_view d.
Proof.
  intros Hm. rewrite run_command_db. unfold run_transaction.
  destruct (m d) as [[a d']|e] eqn:Hd; [|done]. by eapply Hm.
Qed.

Lemma run_transaction_core {A} (m : tx A) d :
  (∀ a d', m d = Ok (a, d') → same_core d d') →
  core_view (run_transaction m d).2 = core_view d.
Proof.
  intros Hm. unfold run_transaction. destruct (m d) as [[a d']|e] eqn:Hd; [|done]. by eapply Hm.
Qed.

Lemma stale_worker_core o w d :
  keyed d → op_fence o = Some w → ¬ fence_current d w → core_view (exec cfg o d) = core_view d.
Proof.
  intros Hk Hw Hn. destruct o; try done; simpl in *; injection Hw as <-;
    try (apply run_command_core; intros ?a ?d' Hex);
    try (apply run_transaction_core; intros ?a ?d' Hex).
  - unfold JobCommandService.acknowledgePause_tx in Hex. tx_inv; fenced_cas.
  - unfold JobCommandService.completeExecution_tx, JobCommandService.assert_fence_or_throw in Hex.
    tx_inv; fenced_cas.
  - unfold JobCommandService.checkpointTask_tx, JobCommandService.assert_fence_or_throw in Hex.
    tx_inv; fenced_cas.
  - unfold JobCommandService.failPauseCheckpoint_tx, JobCommandService.assert_fence_or_throw in Hex.
    tx_inv; fenced_cas.
  - unfold JobCommandService.reportNoProgress_tx in Hex. tx_inv; fenced_cas.
  - unfold JobCommandService.interruptRun_tx in Hex. tx_inv; fenced_cas.
  - unfold InternalExecution.runtimeStarted_tx, InternalExecution.assert_fence_plain in Hex.
    tx_inv. match goal with Ha : assertWorkerFence _ _ = Ok _ |- _ =>
      apply assertWorkerFence_job in Ha as [job' Hjob'] end. fenced_cas.
  - unfold InternalExecution.runtimeExited_tx, InternalExecution.exited_unmatched,
      InternalExecution.exited_pausing, InternalExecution.exited_failed,
      InternalExecution.cleanup_run, InternalExecution.close_instance in Hex.
    tx_inv; fenced_cas.
  - unfold InternalExecution.startVerification_tx, InternalExecution.worker_fence_plain in Hex.
    tx_inv; fenced_cas.
  - unfold InternalExecution.reportNoProgress_tx in Hex. tx_inv; fenced_cas.
  - destruct scope; apply run_transaction_core; intros a d' Hex;
      unfold InternalExecution.completeVerification_tx, InternalExecution.worker_fence_plain in Hex;
      tx_inv; fenced_cas.
Qed.

(** C19: A worker or internal command whose envelope does not match the active run of its job
    (run id, fence token, execution generation and expected revision) changes no job row and
    appends no event, whatever the command is. *)
Theorem stale_worker_is_fenced o w d :
  keyed d → op_fence o = Some w → ¬ fence_current d w →
  jobs (exec cfg o d) = jobs d ∧ outbox (exec cfg o d) = outbox d.
Proof.
  intros Hk Hw Hn. pose proof (stale_worker_core o w d Hk Hw Hn) as Hc.
  unfold core_view, out_view in Hc. split; congruence.
Qed.

(** A worker of another execution generation than the one the job is in changes no job row
    and appends no event. *)
Theorem old_generation_is_fenced o w d row :
  inv d → jobs d !! wf_jobId w = Some row → op_fence o = Some w →
  wf_executionGeneration w ≠ ControlJobRow.executionGeneration row →
  jobs (exec cfg o d) = jobs d ∧ outbox (exec cfg o d) = outbox d.
Proof.
  intros Hi Hrow Hw Hgen. assert (¬ fence_current d w) as Hn.
  { intros (row' & run & Hrow' & Hrun & Hact & _ & _ & _ & Hg).
    destruct (inv_runs _ Hi _ _ _ Hrow' Hact) as (run' & Hrun' & _ & _ & Hg').
    simpl in Hg'. congruence. }
  pose proof (stale_worker_core o w d (inv_keyed _ Hi) Hw Hn) as Hc.
  unfold core_view, out_view in Hc. split; congruence.
Qed.
End fencing.

(** Turns the guards passed by a handler into equations. *)
Ltac worker_guards :=
  repeat match goal with
  | H : _ || _ = false |- _ => apply orb_false_iff in H as [? ?]
  | H : negb _ = false |- _ => apply negb_false_iff in H
  | H : String.eqb _ _ = true |- _ => apply String.eqb_eq in H
  | H : bool_decide _ = true |- _ => apply bool_decide_eq_true in H
  end.

(** ** Checkpoints *)

Section checkpoint.
Context `{Sha256} `{TypeBox}.

(** The result recorded for an attempt. *)
Definition checkpointed (input : WorkerCommand.t TaskCheckpointPayload) (r : CheckpointResult)
    (d : db) : Prop :=
  ∃ a v, getAttempt (tc_attemptId (WorkerCommand.payload input)) d = Some a ∧
    ControlTaskAttemptRow.runId a = WorkerCommand.runId input ∧
    ControlTaskAttemptRow.jobId a = WorkerCommand.jobId input ∧
    ControlTaskAttemptRow.executionGeneration a = WorkerCommand.executionGeneration input ∧
    validateTaskResult (tc_result (WorkerCommand.payload input)) = Ok v ∧
    ControlTaskAttemptRow.resultHash a = Some (sha256 (canonicalJson (vt_result v))) ∧
    r = mkCheckpointResult (ControlTaskAttemptRow.resultRevision a)
          (default false (ControlTaskAttemptRow.mustPauseAtCommit a)).

Lemma finishAttempt_attempts i h e rev n m s a s' row :
  finishAttempt i h e rev n m s = Ok (a, s') → attempts s !! i = Some row →
  attempts s' !! i = Some (finish_attempt_row h e rev n m row).
Proof.
  intros Hf Hrow. unfold finishAttempt in Hf. rewrite tx_bind_gets in Hf. simpl in Hf.
  rewrite Hrow in Hf. tx_inv. simpl. by rewrite lookup_insert_eq.
Qed.

(** An attempt row is stored under its own id. *)
Definition attempts_keyed (d : db) : Prop :=
  ∀ k a, attempts d !! k = Some a → ControlTaskAttemptRow.id a = k.

Lemma checkpointTask_checkpointed input now d r d1 :
  attempts_keyed d → JobCommandService.checkpointTask_tx input now d = Ok (r, d1) →
  checkpointed input r d1.
Proof.
  intros Hk Hex. unfold JobCommandService.checkpointTask_tx,
    JobCommandService.assert_fence_or_throw in Hex. tx_inv; worker_guards.
  - do 2 eexists. split_and!; eauto. congruence.
  - match goal with Hf : finishAttempt _ _ _ _ _ _ _ = Ok _, Ha : getAttempt _ _ = Some ?t |- _ =>
      pose proof (λ E, finishAttempt_attempts _ _ _ _ _ _ _ _ _ t Hf E) as Hfin; clear Hf;
      pose proof (Hk _ _ Ha) as Hkey; unfold getAttempt in Ha; rewrite <-Hkey in Ha end.
    repeat frame_step attempts.
    eexists (finish_attempt_row _ _ _ _ _ _), _. split_and!; eauto; simpl; try done.
    + unfold getAttempt. rewrite <-Hkey.
      etrans; [|apply Hfin]; [by f_equal; congruence|].
      etrans; [|eassumption]. f_equal; congruence.
    + reflexivity.
Qed.

Lemma checkpointed_replay input rev token now r d :
  checkpointed input r d →
  JobCommandService.checkpointTask
    (WorkerCommand.mk (WorkerCommand.jobId input) rev (WorkerCommand.runId input) token
       (WorkerCommand.executionGeneration input) (WorkerCommand.payload input)) now d =
  (Ok r, d, []).
Proof.
  intros (a & v & Ha & Hrun & Hjob & Hgen & Hv & Hh & ->).
  apply (run_command_ok _ (λ _, [])).
  unfold JobCommandService.checkpointTask_tx. simpl. rewrite tx_bind_gets, Ha. simpl.
  rewrite Hrun, Hjob, Hgen, !String.eqb_refl, bool_decide_eq_true_2 by done. simpl.
  rewrite Hv. unfold tx_lift, tx_bind at 1. rewrite Hh, String.eqb_refl. done.
Qed.

(** A task checkpoint that was recorded is answered with the recorded revision when the
    worker sends the same result again, without a change to the database, even if the revision
    or the fence token of the envelope are stale by then. *)
Theorem checkpoint_is_idempotent input rev token now now' d r d1 eff d2 :
  attempts_keyed d → JobCommandService.checkpointTask input now d = (Ok r, d1, eff) →
  getAttempt (tc_attemptId (WorkerCommand.payload input)) d2 =
    getAttempt (tc_attemptId (WorkerCommand.payload input)) d1 →
  JobCommandService.checkpointTask
    (WorkerCommand.mk (WorkerCommand.jobId input) rev (WorkerCommand.runId input) token
       (WorkerCommand.executionGeneration input) (WorkerCommand.payload input)) now' d2 =
  (Ok r, d2, []).
Proof.
  intros Hk Hrun Hsame. unfold JobCommandService.checkpointTask, run_command in Hrun.
  destruct (run_transaction _ d) as [[a|e] d'] eqn:Hd; simplify_eq.
  apply run_transaction_ok in Hd. apply checkpointTask_checkpointed in Hd; [|done].
  apply checkpointed_replay. destruct Hd as (a & v & Ha & Hrest). exists a, v.
  by rewrite Hsame.
Qed.

(** A checkpoint for an attempt that already has a result, with a different result, is
    refused with task.attempt_result_conflict and changes nothing. *)
Theorem checkpoint_result_is_final input now d a h v :
  getAttempt (tc_attemptId (WorkerCommand.payload input)) d = Some a →
  ControlTaskAttemptRow.runId a = WorkerCommand.runId input →
  ControlTaskAttemptRow.jobId a = WorkerCommand.jobId input →
  ControlTaskAttemptRow.executionGeneration a = WorkerCommand.executionGeneration input →
  ControlTaskAttemptRow.resultHash a = Some h →
  validateTaskResult (tc_result (WorkerCommand.payload input)) = Ok v →
  h ≠ sha256 (canonicalJson (tc_result (WorkerCommand.payload input))) →
  JobCommandService.checkpointTask input now d =
    (Err (commandError "task.attempt_result_conflict" None), d, []).
Proof.
  intros Ha Hrun Hjob Hgen Hh Hv Hne.
  apply run_command_err.
  unfold JobCommandService.checkpointTask_tx. rewrite tx_bind_gets, Ha.
  rewrite Hrun, Hjob, Hgen, !String.eqb_refl, bool_decide_eq_true_2 by done. simpl.
  rewrite Hv. unfold tx_lift, tx_bind at 1. rewrite (validateTaskResult_result _ _ Hv), Hh.
  apply String.eqb_neq in Hne. by rewrite Hne.
Qed.
End checkpoint.

(** ** Verification verdicts *)

Section verdicts.
Context `{Sha256} `{TypeBox} (cfg : config).

Definition complete_verification (scope : ScopeType.t)
    (input : WorkerCommand.t CompleteVerificationPayload) (now : N) (d : db)
    : result error VerificationResult * db :=
  match scope with
  | ScopeType.slice => InternalExecution.completeSliceVerification input now d
  | ScopeType.milestone => InternalExecution.completeMilestoneVerification input now d
  end.

(** The verdict [h] is recorded for the verification of [input]. *)
Definition verdict_recorded (scope : ScopeType.t)
    (input : WorkerCommand.t CompleteVerificationPayload) (h : string)
    (r : VerificationResult) (d : db) : Prop :=
  ∃ v blob rev, getById (cv_verificationId (WorkerCommand.payload input)) d = Some v ∧
    ControlVerificationRow.jobId v = WorkerCommand.jobId input ∧
    ControlVerificationRow.executionGeneration v = WorkerCommand.executionGeneration input ∧
    ControlVerificationRow.scopeType v = scope ∧
    ControlVerificationRow.scopeId v = cv_scopeId (WorkerCommand.payload input) ∧
    ControlVerificationRow.state v = VerificationState.passed ∧
    ControlVerificationRow.resultHash v = Some h ∧
    ControlVerificationRow.verdictBlobHash v = Some blob ∧
    ControlVerificationRow.resultRevision v = Some rev ∧
    r = mkVerificationResult (ControlVerificationRow.id v) "passed" rev.

Lemma markPassed_row i b h rev n s s' v :
  markPassed i b h rev n s = Ok (true, s') → verifications s !! i = Some v →
  verifications s' !! i = Some (pass_row b h rev n v).
Proof.
  intros Hm Hv. unfold markPassed in Hm. rewrite tx_bind_gets in Hm. simpl in Hm.
  rewrite Hv in Hm. tx_inv. simpl. by rewrite lookup_insert_eq.
Qed.

(** A verification row is stored under its own id. *)
Definition verifications_keyed (d : db) : Prop :=
  ∀ k v, verifications d !! k = Some v → ControlVerificationRow.id v = k.

Lemma completeVerification_recorded scope input now d r d1 :
  verifications_keyed d →
  InternalExecution.completeVerification_tx input scope now d = Ok (r, d1) →
  verdict_recorded scope input (sha256 (canonicalJson (cv_verdict (WorkerCommand.payload input))))
    r d1.
Proof.
  intros Hk Hex. unfold InternalExecution.completeVerification_tx,
    InternalExecution.worker_fence_plain in Hex. tx_inv; worker_guards; subst.
  - match goal with Hm : markPassed _ _ _ _ _ _ = Ok _, Hv : getById _ _ = Some ?v |- _ =>
      pose proof (λ E, markPassed_row _ _ _ _ _ _ _ v Hm E) as Hfin; clear Hm;
      pose proof (Hk _ _ Hv) as Hkey; unfold getById in Hv; rewrite <-Hkey in Hv end.
    repeat frame_step verifications.
    eexists (pass_row _ _ _ _ _), _, _. split_and!; eauto; simpl; try done.
    unfold getById. rewrite <-Hkey.
    etrans; [|apply Hfin]; [by f_equal; congruence|].
    etrans; [|eassumption]. f_equal; congruence.
  - do 3 eexists. split_and!; eauto.
Qed.

Lemma verdict_recorded_mono scope input h r d d' :
  mono d d' → verdict_recorded scope input h r d → verdict_recorded scope input h r d'.
Proof.
  intros Hm (v & blob & rev & Hv & Hrest). exists v, blob, rev. split; [|done].
  destruct (mono_verifications _ _ Hm _ _ Hv) as (v' & Hv' & _ & _ & Hsame).
  destruct Hrest as (_ & _ & _ & _ & Hst & _). rewrite <-(Hsame ltac:(congruence)). exact Hv'.
Qed.

(** A later completion is answered from the record. *)
Lemma verdict_replay scope input h r rev token runId verdict now d :
  verdict_recorded scope input h r d →
  complete_verification scope
    (WorkerCommand.mk (WorkerCommand.jobId input) rev runId token
       (WorkerCommand.executionGeneration input)
       (mkCompleteVerificationPayload (cv_verificationId (WorkerCommand.payload input))
          (cv_scopeId (WorkerCommand.payload input)) verdict)) now d =
  (if String.eqb h (sha256 (canonicalJson verdict)) then Ok r
   else Err (PlainError "verification.result_conflict"), d).
Proof.
  intros (v & blob & rv & Hv & Hjob & Hgen & Hsc & Hid & Hst & Hh & Hb & Hr & ->).
  assert (complete_verification scope = λ i n d,
    run_transaction (InternalExecution.completeVerification_tx i scope n) d) as ->
    by (by destruct scope).
  unfold run_transaction, InternalExecution.completeVerification_tx. simpl.
  rewrite tx_bind_gets, Hv, Hjob, Hgen, Hsc, Hid, !String.eqb_refl. simpl.
  rewrite !bool_decide_eq_true_2 by done. simpl. rewrite Hst, Hh, Hb, Hr.
  destruct (String.eqb_spec h (sha256 (canonicalJson verdict))) as [->|Hne].
  - by rewrite bool_decide_eq_true_2.
  - by rewrite bool_decide_eq_false_2 by congruence.
Qed.

(** A verification verdict that was recorded is final: after any sequence of operations a
    completion with the same verdict returns the recorded result and one with another verdict is
    refused with verification.result_conflict, both without a change. *)
Theorem verdict_is_final scope input now d r d1 d2 rev token runId verdict now' :
  verifications_keyed d → inv d1 →
  complete_verification scope input now d = (Ok r, d1) → reachable cfg d1 d2 →
  complete_verification scope
    (WorkerCommand.mk (WorkerCommand.jobId input) rev runId token
       (WorkerCommand.executionGeneration input)
       (mkCompleteVerificationPayload (cv_verificationId (WorkerCommand.payload input))
          (cv_scopeId (WorkerCommand.payload input)) verdict)) now' d2 =
  (if String.eqb (sha256 (canonicalJson (cv_verdict (WorkerCommand.payload input))))
                 (sha256 (canonicalJson verdict))
   then Ok r else Err (PlainError "verification.result_conflict"), d2).
Proof.
  intros Hk Hi Hrun Hreach.
  assert (InternalExecution.completeVerification_tx input scope now d = Ok (r, d1)) as Htx
    by (apply run_transaction_ok; by destruct scope).
  apply completeVerification_recorded in Htx; [|done].
  destruct (reachable_commits cfg _ _ Hi Hreach) as [_ Hc%commits_mono].
  by apply verdict_replay, (verdict_recorded_mono _ _ _ _ d1).
Qed.
End verdicts.
