(* ===== verification/ExecutorSpecs.v ===== *)
(** * The executor loop terminates

    Every iteration of [executeRun] that does not leave the loop closes one of
    the open tasks of the run's generation. *)
From S2P Require Import Prelude Json Contracts JobDomain TaskDomain Store JobRepo TaskRepo.
From S2P Require Import Commands InternalCommands Scheduler Executor Effects Outbox Lifecycle.
From S2P Require Import Refinement Steps WorkerSpecs.
Local Open Scope tx_scope.

(** ** Open tasks *)

Definition task_open (s : TaskState.t) : Prop :=
  s = TaskState.queued ∨ s = TaskState.running.

#[export] Instance task_open_dec s : Decision (task_open s).
Proof. unfold task_open. apply _. Defined.

Definition in_run (c : ExecutionRunContext) (kv : (string * Z * string) * ControlJobTaskRow.t)
    : Prop :=
  kv.1.1 = (ec_jobId c, ec_executionGeneration c) ∧ task_open (ControlJobTaskRow.state kv.2).

#[export] Instance in_run_dec c kv : Decision (in_run c kv).
Proof. unfold in_run. apply _. Defined.

(** The keys of the queued and running tasks of the run's generation. *)
Definition open_tasks (c : ExecutionRunContext) (d : db) : gset (string * Z * string) :=
  dom (filter (in_run c) (tasks d)).

Lemma elem_of_open_tasks c d k :
  k ∈ open_tasks c d ↔ ∃ t, tasks d !! k = Some t ∧ in_run c (k, t).
Proof.
  unfold open_tasks. rewrite elem_of_dom. split.
  - intros [t Ht]. apply map_lookup_filter_Some in Ht. eauto.
  - intros (t & Ht). exists t. by apply map_lookup_filter_Some.
Qed.

(** ** What other commands may do meanwhile *)

(** Other commands do not reopen tasks of this run or touch its attempts. *)
Record calm_step (c : ExecutionRunContext) (f : db → db) : Prop := mkCalmStep {
  calm_open : ∀ d, open_tasks c (f d) ⊆ open_tasks c d;
  calm_attempts : ∀ d k a, attempts d !! k = Some a →
    ControlTaskAttemptRow.runId a = ec_runId c → attempts (f d) !! k = Some a;
  calm_keyed : ∀ d, attempts_keyed d → attempts_keyed (f d)
}.

(** ... and the provider answers with a result. *)
Record calm (c : ExecutionRunContext) (w : Iteration) : Prop := mkCalm {
  calm_before : calm_step c (it_before_query w);
  calm_after : calm_step c (it_after_query w);
  calm_during : calm_step c (it_during_task w);
  calm_answers : ∀ c' a op, it_provider w c' a ≠ outcome_waiting op
}.

(** ** The two halves of a decision *)

Lemma updateTaskState_ok j g t e n now s b s' :
  updateTaskState j g t e n now s = Ok (b, s') →
  if b then ∃ row, tasks s !! (j, g, t) = Some row ∧ ControlJobTaskRow.state row = e ∧
              s' = upd_tasks (<[(j, g, t) := set_task_state n now row]>) s
  else s' = s.
Proof.
  intros Hu. unfold updateTaskState in Hu. tx_inv; try done.
  match goal with H : bool_decide _ = true |- _ => apply bool_decide_eq_true in H end. eauto.
Qed.

Lemma createAttempt_ok i s a s' :
  createAttempt i s = Ok (a, s') →
  ∃ n, attempts s !! ca_id i = None ∧
    s' = upd_attempts (<[ca_id i := ControlTaskAttemptRow.mk (ca_id i) (ca_jobId i)
           (ca_generation i) (ca_taskId i) n (ca_runId i) (ca_state i) None None None
           (ca_startedAtMs i) None None 0 None]>) s.
Proof.
  intros Hc. unfold createAttempt in Hc. tx_inv;
    match goal with H : _ || _ = false |- _ => apply orb_false_iff in H as [H%fresh_key _] end;
    eauto.
Qed.

(** The attempt is the one this run is to finish for [taskId]. *)
Definition unfinished_attempt (c : ExecutionRunContext) (taskId : string)
    (a : ControlTaskAttemptRow.t) : Prop :=
  ControlTaskAttemptRow.runId a = ec_runId c ∧ ControlTaskAttemptRow.jobId a = ec_jobId c ∧
  ControlTaskAttemptRow.executionGeneration a = ec_executionGeneration c ∧
  ControlTaskAttemptRow.taskId a = taskId ∧ ControlTaskAttemptRow.resultHash a = None.

Lemma open_tasks_same_state c d d' :
  (∀ k t', tasks d' !! k = Some t' → in_run c (k, t') →
           ∃ t, tasks d !! k = Some t ∧ in_run c (k, t)) →
  open_tasks c d' ⊆ open_tasks c d.
Proof. intros Ht k. rewrite !elem_of_open_tasks. intros (t' & ? & ?). eauto. Qed.

Lemma begin_queued c taskId attemptId now d d1 d2 u :
  attempts_keyed d →
  updateTaskState (ec_jobId c) (ec_executionGeneration c) taskId TaskState.queued
    TaskState.running now d = Ok (true, d1) →
  createAttempt (mkCreateAttemptInput attemptId (ec_jobId c) (ec_executionGeneration c) taskId
    (ec_runId c) AttemptState.running now None) d1 = Ok (u, d2) →
  attempts_keyed d2 ∧ open_tasks c d2 ⊆ open_tasks c d ∧
  (ec_jobId c, ec_executionGeneration c, taskId) ∈ open_tasks c d ∧
  ∃ a, attempts d2 !! attemptId = Some a ∧ unfinished_attempt c taskId a.
Proof.
  intros Hk (t & Ht & Hst & ->)%updateTaskState_ok (n & Hfresh & ->)%createAttempt_ok.
  simpl in *. split_and!.
  - intros k a. simpl. rewrite lookup_insert. case_decide; [|by apply Hk].
    intros [= <-]. done.
  - apply open_tasks_same_state. simpl. intros k t'. rewrite lookup_insert.
    case_decide; [|by eauto]. subst k. intros _ _. exists t. split; [done|].
    split; [done|]. by left.
  - apply elem_of_open_tasks. exists t. split; [done|]. split; [done|]. by left.
  - eexists. rewrite lookup_insert_eq. split; [done|]. done.
Qed.

Lemma begin_running c taskId d a :
  attempts_keyed d →
  List.find (resumable_attempt (ec_runId c))
    (getTaskAttempts (ec_jobId c) (ec_executionGeneration c) taskId d) = Some a →
  attempts d !! ControlTaskAttemptRow.id a = Some a ∧ unfinished_attempt c taskId a.
Proof.
  intros Hk [Hin Hp]%find_some. unfold getTaskAttempts in Hin.
  apply list_elem_of_In in Hin. rewrite merge_sort_Permutation in Hin.
  apply list_elem_of_In, filter_In in Hin as [Hin Hs].
  apply list_elem_of_In, elem_of_map_values in Hin as [k Ha].
  unfold resumable_attempt, same_task in *.
  rewrite !andb_true_iff, !bool_decide_eq_true in *.
  destruct Hp as [[? ?] ?], Hs as [[? ?] ?]. by rewrite (Hk _ _ Ha).
Qed.

Lemma begin_decision_opens c key attemptId now d id d1 :
  attempts_keyed d → begin_decision c key attemptId now d = (Ok (Some id), d1) →
  attempts_keyed d1 ∧ open_tasks c d1 ⊆ open_tasks c d ∧
  ∃ taskId a, (ec_jobId c, ec_executionGeneration c, taskId) ∈ open_tasks c d ∧
    attempts d1 !! id = Some a ∧ unfinished_attempt c taskId a.
Proof.
  intros Hk Hb. unfold begin_decision, getCurrentTask in Hb.
  destruct (task_of_key key) as [taskId|]; [|done].
  destruct (tasks d !! _) as [t|] eqn:Ht; [|done].
  destruct (ControlJobTaskRow.state t) eqn:Hst; try done.
  - destruct (run_transaction (updateTaskState _ _ _ _ _ _) d) as [[[]|] d0] eqn:Hu; try done.
    destruct (run_transaction (createAttempt _) d0) as [[u|] d2] eqn:Hc; simplify_eq.
    apply run_transaction_ok in Hu, Hc.
    destruct (begin_queued _ _ _ _ _ _ _ _ Hk Hu Hc) as (? & ? & ? & a & ? & ?). eauto 10.
  - destruct (List.find _ _) as [a|] eqn:Hf; simplify_eq.
    destruct (begin_running _ _ _ _ Hk Hf). split_and!; [done..|].
    exists taskId, a. split; [|done]. apply elem_of_open_tasks. exists t. split; [done|].
    split; [done|]. by right.
Qed.

Lemma finishAttempt_keyed i h e r n m s a s' :
  attempts_keyed s → finishAttempt i h e r n m s = Ok (a, s') → attempts_keyed s'.
Proof.
  intros Hk Hf. unfold finishAttempt in Hf. tx_inv; [|done]. intros k x. simpl.
  rewrite lookup_insert. case_decide; [|by apply Hk]. intros [= <-]. simpl. subst. by eapply Hk.
Qed.

(** Closing the task of [key] takes it out of the open tasks. *)
Lemma close_task c d d' key row s now :
  tasks d !! key = Some row → tasks d' = <[key := set_task_state s now row]> (tasks d) →
  ¬ task_open s → open_tasks c d' ⊆ open_tasks c d ∧ key ∉ open_tasks c d'.
Proof.
  intros Hrow Hd' Hs. split.
  - apply open_tasks_same_state. rewrite Hd'. intros k t'. rewrite lookup_insert.
    case_decide; [|by eauto]. intros [= <-] [_ Hopen]. by destruct Hs.
  - rewrite elem_of_open_tasks, Hd', lookup_insert_eq. intros (t & [= <-] & _ & Hopen). by destruct Hs.
Qed.

Section termination.
Context `{Sha256} `{TypeBox}.

(** A checkpoint of an unfinished attempt closes its task. *)
Lemma checkpoint_closes c input now d r d' taskId a :
  attempts_keyed d →
  getAttempt (tc_attemptId (WorkerCommand.payload input)) d = Some a →
  unfinished_attempt c taskId a →
  JobCommandService.checkpointTask_tx input now d = Ok (r, d') →
  attempts_keyed d' ∧ open_tasks c d' ⊆ open_tasks c d ∧
  (ec_jobId c, ec_executionGeneration c, taskId) ∉ open_tasks c d'.
Proof.
  intros Hk Ha (Hrun & Hjob & Hgen & Htask & Hnone) Hex.
  unfold JobCommandService.checkpointTask_tx, JobCommandService.assert_fence_or_throw in Hex.
  rewrite tx_bind_gets, Ha in Hex. rewrite Hnone in Hex. tx_inv.
  match goal with H : negb ?x = false, Hu : updateTaskState _ _ _ _ _ _ _ = Ok (?x, _) |- _ =>
    apply negb_false_iff in H; subst x;
    pose proof (updateTaskState_ok _ _ _ _ _ _ _ _ _ Hu) as (row & Hrow & _ & Hset); clear Hu;
    apply (f_equal tasks) in Hset as Htasks; apply (f_equal attempts) in Hset end.
  match goal with Hv : validateTaskResult _ = Ok ?v |- _ =>
    pose proof (validateTaskResult_terminal _ _ Hv) as Hterm end.
  match goal with Hf : finishAttempt _ _ _ _ _ _ ?s = Ok _, Hk : attempts_keyed ?d |- _ =>
    pose proof (λ K, finishAttempt_keyed _ _ _ _ _ _ _ _ _ K Hf) as Hfin;
    assert (tasks s = tasks d ∧ attempts s = attempts d) as [Ht1 Ha1];
    [clear Hf; split; [repeat frame_step tasks|repeat frame_step attempts]; congruence|] end.
  simpl in Hset, Htasks. split.
  - repeat frame_step attempts. unfold attempts_keyed in *.
    match goal with E : attempts d' = _ |- _ => rewrite E end. rewrite Hset. apply Hfin.
    by rewrite Ha1.
  - rewrite <-Hjob, <-Hgen. repeat frame_step tasks.
    match type of Hterm with vt_taskState ?v = _ ∨ _ =>
      eapply (close_task _ _ _ _ row (vt_taskState v) now) end; [congruence..|].
    unfold task_open. intuition congruence.
Qed.

Lemma finish_decision_closes c key id outcome f now d revision identity d' taskId a :
  attempts_keyed d → attempts d !! id = Some a → unfinished_attempt c taskId a →
  finish_decision c key id outcome f now d = (Ok (step_advanced revision identity), d') →
  attempts_keyed d' ∧ open_tasks c d' ⊆ open_tasks c d ∧
  (ec_jobId c, ec_executionGeneration c, taskId) ∉ open_tasks c d'.
Proof.
  intros Hk Ha Hun Hf. unfold finish_decision in Hf. destruct outcome as [raw|]; [|done].
  destruct (validateTaskResult raw) as [v|e].
  - unfold JobCommandService.checkpointTask, run_command in Hf.
    destruct (run_transaction _ d) as [[r|e] d1] eqn:Hd; simplify_eq.
    apply run_transaction_ok in Hd. by eapply checkpoint_closes in Hd.
  - destruct e; try done. repeat case_match; simplify_eq.
Qed.

Definition same_run (c c' : ExecutionRunContext) : Prop :=
  ec_jobId c' = ec_jobId c ∧ ec_executionGeneration c' = ec_executionGeneration c ∧
  ec_runId c' = ec_runId c.

Lemma finish_decision_waits c key id outcome f now d op d' :
  finish_decision c key id outcome f now d = (Ok (step_waiting op), d') →
  outcome = outcome_waiting op.
Proof. unfold finish_decision. intros Hf. repeat case_match; simplify_eq; done. Qed.

(** An iteration that goes round the loop closes an open task. *)
Lemma iteration_progress w c d c' d' :
  calm c w → attempts_keyed d → iteration w c d = (inr c', d') →
  same_run c c' ∧ attempts_keyed d' ∧ open_tasks c d' ⊂ open_tasks c d.
Proof.
  intros [Hb Ha Hd Hans] Hk Hit. unfold iteration in Hit.
  destruct (it_aborted w); [done|]. destruct (queryNextWork c _) as [|rev|rev|key]; [done| | |].
  1-2: repeat case_match; simplify_eq.
  set (d0 := it_after_query w (it_before_query w d)) in *.
  assert (attempts_keyed d0) as Hk0 by (apply (calm_keyed _ _ Ha), (calm_keyed _ _ Hb), Hk).
  assert (open_tasks c d0 ⊆ open_tasks c d) as Hle0
    by (etrans; [apply (calm_open _ _ Ha)|apply (calm_open _ _ Hb)]).
  destruct (begin_decision c key _ _ d0) as [[[id|]|e] d1] eqn:Hbeg; try done.
  destruct (begin_decision_opens _ _ _ _ _ _ _ Hk0 Hbeg) as (Hk1 & H1 & taskId & a & Hopen & Hat & Hun).
  destruct (finish_decision c key id _ _ _ _) as [[[rev identity|op|]|e] d2] eqn:Hfin; try done.
  - destruct (finish_decision_closes _ _ _ _ _ _ _ _ _ _ taskId a
      (calm_keyed _ _ Hd _ Hk1) (calm_attempts _ _ Hd _ _ _ Hat (proj1 Hun)) Hun Hfin)
      as (Hk2 & H2 & Hclosed).
    assert (open_tasks c d2 ⊂ open_tasks c d) as Hsub.
    { pose proof (calm_open _ _ Hd d1) as H1'. split; [by set_solver|].
      intros Hsub. apply Hclosed, Hsub, Hle0, Hopen. }
    case_match; simplify_eq. done.
  - apply finish_decision_waits in Hfin. by destruct (Hans c id op).
Qed.

Lemma same_run_open c c' d : same_run c c' → open_tasks c' d = open_tasks c d.
Proof.
  intros (Hj & Hg & _). apply set_eq. intros k.
  rewrite !elem_of_open_tasks. unfold in_run. by rewrite Hj, Hg.
Qed.

Lemma same_run_calm c c' w : same_run c c' → calm c w → calm c' w.
Proof.
  intros Hs [Hb Ha Hd Hans]. pose proof Hs as (_ & _ & Hr).
  assert (∀ f, calm_step c f → calm_step c' f) as Hstep.
  { intros f [Ho Hat Hk]. split; [|by rewrite Hr|done].
    intros d. rewrite !(same_run_open c c') by done. apply Ho. }
  split; auto.
Qed.

Lemma executeRun_total fuel world c d :
  (∀ n, calm c (world n)) → attempts_keyed d → size (open_tasks c d) < fuel →
  is_Some (executeRun fuel world c d).
Proof.
  revert world c d. induction fuel as [|fuel IH]; intros world c d Hcalm Hk Hf; [lia|]. simpl.
  destruct (iteration (world 0) c d) as [[r|c'] d'] eqn:Hit; [by eauto|].
  destruct (iteration_progress _ _ _ _ _ (Hcalm 0) Hk Hit) as (Hs & Hk' & Hsub).
  apply IH; [intros n; by eapply same_run_calm|done|].
  rewrite (same_run_open c c') by done. apply subset_size in Hsub. lia.
Qed.
End termination.

(** C38: The executor loop ends: with as much fuel as the generation has queued and running
    tasks plus one it returns, provided that the provider answers with results and concurrent
    operations do not reopen tasks of the run. *)
Theorem executeRun_terminates `{Sha256} `{TypeBox} world c d :
  (∀ n, calm c (world n)) → attempts_keyed d →
  is_Some (executeRun (S (size (open_tasks c d))) world c d).
Proof. intros Hcalm Hk. apply executeRun_total; [done..|lia]. Qed.
