(* ===== verification/SchedulerSpecs.v ===== *)
(** * Properties of the scheduler and of startup reconciliation *)
From S2P Require Import Prelude Json Contracts JobDomain TaskDomain Store JobRepo TaskRepo.
From S2P Require Import Commands InternalCommands Scheduler Executor Effects Outbox Lifecycle.
From S2P Require Import Refinement Steps Safety WorkerSpecs.
Local Open Scope tx_scope.

(** ** Claiming a job *)

Lemma any_row_true {K V} `{Countable K} (p : V → bool) (m : gmap K V) k v :
  m !! k = Some v → p v = true → any_row p m = true.
Proof.
  intros Hk Hp. apply existsb_exists. exists v. split; [|done].
  apply list_elem_of_In, elem_of_map_values. eauto.
Qed.

Lemma any_row_none {K V} `{Countable K} (p : V → bool) (m : gmap K V) :
  (∀ k v, m !! k = Some v → p v = false) → any_row p m = false.
Proof.
  intros Hp. apply not_true_iff_false. unfold any_row. rewrite existsb_exists.
  intros (v & Hv & Hpv). apply list_elem_of_In, elem_of_map_values in Hv as [k Hk].
  rewrite (Hp _ _ Hk) in Hpv. done.
Qed.

(** The run row a claim creates. *)
Definition claimed_run (job : JobAggregate.t) (ids : ClaimIds) (now : N) : ControlJobRunRow.t :=
  ControlJobRunRow.mk (cl_runId ids) (JobAggregate.id job) (claim_kind (JobAggregate.state job))
    RunState.starting 1 (cl_fenceToken ids) (JobAggregate.executionGeneration job)
    None None None None now None.

(** The database after a successful claim. *)
Definition claimed (k : nat) (job : JobAggregate.t) (row : ControlJobRow.t) (ids : ClaimIds)
    (now : N) (d d' : db) : Prop :=
  toAggregate <$> jobs d' !! JobAggregate.id job =
    Some (evolve (toAggregate row) (claim_target (JobAggregate.state job)) ControlIntent.none None
            (ControlJobRow.executionGeneration row) (Some (cl_runId ids)) None) ∧
  runs d' !! cl_runId ids = Some (claimed_run job ids now) ∧
  hasActiveSlotForRun (cl_runId ids) d' = true ∧
  countActiveSlots DEFAULT_POOL d' = S (countActiveSlots DEFAULT_POOL d) ∧
  countActiveSlots DEFAULT_POOL d' ≤ k.

Lemma claimJob_claimed k job ids now d r kind d' :
  claimJob k job ids now d = (Ok (Some (r, kind)), d') →
  r = cl_runId ids ∧ kind = claim_kind (JobAggregate.state job) ∧
  ∃ row, jobs d !! JobAggregate.id job = Some row ∧ claimed k job row ids now d d'.
Proof.
  intros Hex%run_transaction_ok. unfold claimJob_tx in Hex.
  apply tx_bind_ok in Hex as ([] & s0 & Hcap & Hex).
  assert (s0 = d ∧ countActiveSlots DEFAULT_POOL d < k) as [-> Hlt].
  { unfold assertCapacityAvailable in Hcap. tx_inv. split; [done|].
    match goal with Hb : bool_decide _ = false |- _ => apply bool_decide_eq_false in Hb; lia end. }
  apply tx_bind_ok in Hex as ([rev|] & s1 & Hcas & Hex); [|discriminate].
  apply compareAndSetJob_ok in Hcas as (row & Hrow & _ & _ & _ & -> & ->). simpl in Hrow, Hex.
  apply tx_bind_ok in Hex as ([] & s2 & Hrun & Hex).
  apply tx_bind_ok in Hex as ([] & s3 & Hslot & Hex).
  apply tx_bind_ok in Hex as (e & s4 & Happ & Hex).
  injection Hex as <- <- <-. split_and!; [done..|]. exists row. split; [done|].
  apply appendOutbox_ok in Happ as (_ & _ & ->).
  pose proof (createSlot_exclusive _ _ _ _ _ _ _ _ Hslot) as (Hfresh & Hins & _).
  pose proof (createRun_ok _ _ _ _ Hrun) as [_ Hnew].
  frame_of slots Hrun Hs2. frame_of jobs Hrun Hj2. frame_of jobs Hslot Hj3.
  frame_of runs Hslot Hr3. unfold claimed, countActiveSlots, hasActiveSlotForRun. simpl in *.
  rewrite Hj3, Hj2, lookup_insert_eq, Hr3, Hins, Hs2. rewrite Hs2 in Hfresh.
  pose proof (count_rows_insert_fresh (slot_in_pool DEFAULT_POOL) (slots d) (cl_slotId ids)
    (ControlResourceSlotRow.mk (cl_slotId ids) (JobAggregate.id job) (cl_runId ids) DEFAULT_POOL
       SlotState.active now None) Hfresh) as Hcount.
  unfold count_rows, countActiveSlots in *. simpl in Hcount. rewrite Hcount.
  split_and!; [done|done| |done|lia].
  eapply any_row_true; [apply lookup_insert_eq|]. by rewrite bool_decide_eq_true_2.
Qed.

(** The ids drawn for a claim are new. *)
Record fresh_claim (job : JobAggregate.t) (ids : ClaimIds) (d : db) : Prop := mkFreshClaim {
  fresh_run : runs d !! cl_runId ids = None;
  fresh_token : ∀ k r, runs d !! k = Some r → ControlJobRunRow.jobId r = JobAggregate.id job →
    ControlJobRunRow.fenceToken r ≠ cl_fenceToken ids;
  fresh_slot : slots d !! cl_slotId ids = None;
  fresh_slot_run : ∀ k r, slots d !! k = Some r → ControlResourceSlotRow.runId r ≠ cl_runId ids
}.

(** The job still holds an active slot. *)
Definition holds_slot (jobId : string) (d : db) : Prop :=
  ∃ k r, slots d !! k = Some r ∧ ControlResourceSlotRow.jobId r = jobId ∧ slot_active r = true.

Lemma createRun_run i s row :
  runs s !! cr_id i = None → jobs s !! cr_jobId i = Some row →
  (∀ k r, runs s !! k = Some r → ControlJobRunRow.jobId r = cr_jobId i →
          ControlJobRunRow.fenceToken r ≠ cr_fenceToken i) →
  ∃ g, createRun i s = Ok (tt, upd_runs g s) ∧ runs (upd_runs g s) !! cr_id i ≠ None.
Proof.
  intros Hfresh Hjob Htok. unfold createRun. rewrite tx_bind_gets. simpl.
  rewrite bool_decide_eq_false_2 by (rewrite Hfresh; by intros [? ?]).
  rewrite any_row_none
    by (intros k r Hr; apply bool_decide_eq_false; intros [? ?]; by eapply Htok).
  rewrite bool_decide_eq_false_2 by congruence. eexists. split; [reflexivity|].
  simpl. by rewrite lookup_insert_eq.
Qed.

Lemma createSlot_run i j r p n s row :
  slots s !! i = None → jobs s !! j = Some row → runs s !! r ≠ None →
  (∀ k x, slots s !! k = Some x → ControlResourceSlotRow.runId x ≠ r) →
  (¬ holds_slot j s → ∃ g, createSlot i j r p n s = Ok (tt, upd_slots g s)) ∧
  (holds_slot j s → createSlot i j r p n s = Err unique_failed).
Proof.
  intros Hfresh Hjob Hrun Hr. unfold createSlot. rewrite tx_bind_gets.
  rewrite bool_decide_eq_false_2 by (rewrite Hfresh; by intros [? ?]).
  rewrite any_row_none by (intros k x Hx; apply bool_decide_eq_false; by eapply Hr).
  split.
  - intros Hfree. rewrite any_row_none.
    2: { intros k x Hx. apply not_true_iff_false. intros [Hj Ha]%andb_true_iff.
         apply bool_decide_eq_true in Hj. apply Hfree. by exists k, x. }
    rewrite !bool_decide_eq_false_2 by congruence. simpl. eexists. reflexivity.
  - intros (k & x & Hx & Hj & Ha). erewrite any_row_true; [done|exact Hx|].
    by rewrite bool_decide_eq_true_2.
Qed.

(** What a claim does on a queued job when there is capacity. *)
Lemma claimJob_outcome k job ids now d row :
  inv d → jobs d !! JobAggregate.id job = Some row → toAggregate row = job →
  ControlJobRow.activeRunId row = None → countActiveSlots DEFAULT_POOL d < k →
  fresh_claim job ids d →
  (¬ holds_slot (JobAggregate.id job) d → ∃ d',
     claimJob k job ids now d =
     (Ok (Some (cl_runId ids, claim_kind (JobAggregate.state job))), d')) ∧
  (holds_slot (JobAggregate.id job) d → claimJob k job ids now d = (Err unique_failed, d)).
Proof.
  intros Hi Hrow Hjob Hrun Hcap [Hfr Htok Hfs Hsr].
  unfold claimJob, run_transaction, claimJob_tx, assertCapacityAvailable.
  rewrite tx_bind_assoc, tx_bind_gets. rewrite bool_decide_eq_false_2 by lia.
  rewrite tx_bind_ret.
  erewrite tx_bind_run
    by (apply (compareAndSetJob_run _ d row); simpl; [exact Hrow|by subst|by subst|exact Hrun]).
  simpl.
  set (s1 := upd_jobs _ d).
  assert (jobs s1 !! JobAggregate.id job ≠ None) as Hj1
    by (unfold s1; simpl; by rewrite lookup_insert_eq).
  destruct (jobs s1 !! JobAggregate.id job) as [row1|] eqn:Hrow1; [|done].
  destruct (createRun_run (mkCreateRunInput (cl_runId ids) (JobAggregate.id job)
    (claim_kind (JobAggregate.state job)) (cl_fenceToken ids)
    (JobAggregate.executionGeneration job) now) s1 row1 Hfr Hrow1 Htok) as (g & Hcr & Hnew).
  rewrite (tx_bind_run _ _ _ _ _ Hcr). set (s2 := upd_runs g s1) in *.
  destruct (createSlot_run (cl_slotId ids) (JobAggregate.id job) (cl_runId ids) DEFAULT_POOL now
    s2 row1 Hfs Hrow1 Hnew Hsr) as [Hfree Hheld].
  split.
  - intros Hn. destruct (Hfree Hn) as (g' & Hcs). rewrite (tx_bind_run _ _ _ _ _ Hcs).
    erewrite tx_bind_run; [by eexists|]. apply appendOutbox_run. simpl.
    rewrite <-Hjob. simpl. apply outbox_no_conflict. intros e He Hent.
    eapply inv_events; [done..|]. rewrite Hent. rewrite <-Hjob in Hrow. exact Hrow.
  - intros Hh. unfold tx_bind at 1. by rewrite (Hheld Hh).
Qed.

(** A claim that succeeds leaves the job running at the next revision with the new run as
    its active run, a run row in state starting of the right kind and generation, an active slot
    for it, and one slot more in use, still within capacity. *)
Theorem claim_starts_run k job ids now d r kind d' :
  claimJob k job ids now d = (Ok (Some (r, kind)), d') →
  r = cl_runId ids ∧ kind = claim_kind (JobAggregate.state job) ∧
  ∃ row, jobs d !! JobAggregate.id job = Some row ∧ claimed k job row ids now d d'.
Proof. apply claimJob_claimed. Qed.

(** For a queued job with no active run, free capacity and fresh ids, the claim succeeds
    when the job holds no active slot, and fails with the UNIQUE constraint error and no change
    when an earlier run still holds one. *)
Theorem claim_depends_on_slot k job ids now d row :
  inv d → jobs d !! JobAggregate.id job = Some row → toAggregate row = job →
  ControlJobRow.activeRunId row = None → countActiveSlots DEFAULT_POOL d < k →
  fresh_claim job ids d →
  (¬ holds_slot (JobAggregate.id job) d → ∃ d',
     claimJob k job ids now d =
     (Ok (Some (cl_runId ids, claim_kind (JobAggregate.state job))), d')) ∧
  (holds_slot (JobAggregate.id job) d → claimJob k job ids now d = (Err unique_failed, d)).
Proof. apply claimJob_outcome. Qed.

(** ** The end of a run *)

Section run_end.
Context `{Sha256} `{TypeBox}.

(** Job and run after [completeExecution]. *)
Lemma completeExecution_post input now d u d1 :
  keyed d → JobCommandService.completeExecution_tx input now d = Ok (u, d1) →
  ∃ row run,
    jobs d1 !! WorkerCommand.jobId input = Some row ∧
    ControlJobRow.state row = JobState.succeeded ∧ ControlJobRow.activeRunId row = None ∧
    runs d1 !! WorkerCommand.runId input = Some run ∧
    ControlJobRunRow.state run = RunState.succeeded ∧
    ControlJobRunRow.jobId run = WorkerCommand.jobId input ∧
    ControlJobRunRow.fenceToken run = WorkerCommand.fenceToken input ∧
    ControlJobRunRow.executionGeneration run = WorkerCommand.executionGeneration input ∧
    slots d1 = slots d.
Proof.
  intros Hk Hex. unfold JobCommandService.completeExecution_tx,
    JobCommandService.assert_fence_or_throw in Hex.
  apply tx_bind_ok in Hex as ([] & s0 & Ha & Hex).
  assert (s0 = d) as -> by (tx_inv; done). clear Ha. rewrite tx_bind_gets in Hex.
  destruct (JobCommandService.worker_job input d) as [job|] eqn:Hj; [|discriminate].
  destruct (_ || _); [discriminate|].
  apply tx_bind_ok in Hex as (rev & s1 & Hcas & Hex).
  apply cas_or_throw_ok, compareAndSetJob_ok in Hcas as (row & Hrow & _ & _ & _ & -> & ->).
  apply tx_bind_ok in Hex as ([] & s2 & Hm & Hex).
  apply tx_bind_ok in Hex as (e & s3 & Happ & Hex). injection Hex as _ <-.
  apply appendOutbox_ok in Happ as (_ & _ & ->). unfold markRunState in Hm. injection Hm as <-.
  rewrite (worker_job_id _ _ _ Hk Hj). simpl.
  apply getWorkerAggregate_join in Hj as (row0 & run & _ & Hrun & _ & ? & ? & ?).
  rewrite lookup_insert_eq, lookup_alter_eq, Hrun. do 2 eexists. split_and!; try reflexivity; done.
Qed.

(** Completing an execution leaves the slot table as it is, and the runtime exit report
    that follows is ignored: nothing of this path releases the slot of the run. *)
Theorem completed_run_keeps_slot input now d u d1 eff rev payload f now' :
  keyed d → JobCommandService.completeExecution input now d = (Ok u, d1, eff) →
  slots d1 = slots d ∧
  InternalExecution.runtimeExited
    (WorkerCommand.mk (WorkerCommand.jobId input) rev (WorkerCommand.runId input)
       (WorkerCommand.fenceToken input) (WorkerCommand.executionGeneration input) payload)
    f now' d1 = (Ok stale_ignored, d1).
Proof.
  intros Hk Hrun. unfold JobCommandService.completeExecution, run_command in Hrun.
  destruct (run_transaction _ d) as [[a|e] d'] eqn:Hd; simplify_eq.
  apply run_transaction_ok in Hd.
  destruct (completeExecution_post _ _ _ _ _ Hk Hd)
    as (row & run & Hrow & Hst & Hact & Hr & Hrs & Hrj & Hrf & Hrg & Hs). split; [done|].
  unfold InternalExecution.runtimeExited. apply run_transaction_ok.
  unfold InternalExecution.runtimeExited_tx, JobCommandService.worker_job. rewrite tx_bind_gets.
  assert (getWorkerAggregate (WorkerCommand.jobId input) (WorkerCommand.runId input)
    (WorkerCommand.fenceToken input) (WorkerCommand.executionGeneration input) d1 =
    Some (toAggregate row)) as Hw.
  { unfold getWorkerAggregate. by rewrite Hrow, Hr, !bool_decide_eq_true_2. }
  simpl. rewrite Hw. simpl. rewrite Hact, Hst. simpl. rewrite tx_bind_gets.
  unfold assertWorkerFence. simpl. rewrite Hw. destruct (negb _); [done|].
  unfold getActiveRunSummary. rewrite Hr. simpl. by rewrite Hrs.
Qed.
End run_end.

(** ** Startup reconciliation *)

Lemma insertFailure_run i s :
  failures s !! if_id i = None → jobs s !! if_jobId i ≠ None →
  ∃ row, insertFailure i s = Ok (tt, upd_failures (<[if_id i := row]>) s).
Proof.
  intros Hf Hj. unfold insertFailure. rewrite tx_bind_gets. simpl. rewrite Hf.
  rewrite (bool_decide_eq_false_2 (is_Some _)) by (by intros [? ?]).
  rewrite bool_decide_eq_false_2 by done. by eexists.
Qed.

(** The compare-and-set of a settlement on the row it finds. *)
Lemma settle_cas_run job now next d row :
  jobs d !! JobAggregate.id job = Some row →
  let cas := mkJobCasInput (JobAggregate.id job) now (JobAggregate.stateRevision job)
               (JobAggregate.state job) (JobAggregate.activeRunId job) next in
  settle_cas job now next d =
  if cas_matches cas row
  then Ok (CasOk (JobAggregate.stateRevision job + 1),
           upd_jobs (<[JobAggregate.id job := cas_patch cas row]>) d)
  else Ok (CasConflict, d).
Proof.
  intros Hrow cas. unfold settle_cas, compareAndSetJob. rewrite tx_bind_gets. simpl.
  rewrite Hrow. fold cas. by destruct (cas_matches cas row).
Qed.

Lemma settle_append_run job row d s changed now :
  inv d → jobs d !! JobAggregate.id job = Some row →
  ControlJobRow.stateRevision row = JobAggregate.stateRevision job → outbox s = outbox d →
  ∃ g z, appendOutbox (job_changed (JobAggregate.id job) (JobAggregate.stateRevision job + 1)
                         changed now) s = Ok (z, upd_outbox g z s).
Proof.
  intros Hi Hrow Hrev Ho. do 2 eexists. apply appendOutbox_run. rewrite Ho.
  apply outbox_no_conflict. intros e He Hent. rewrite <-Hrev. eapply inv_events; [done..|].
  by rewrite Hent.
Qed.

Lemma cas_matches_revision i row :
  cas_matches i row = true → ControlJobRow.stateRevision row = ci_expectedRevision i.
Proof. unfold cas_matches. rewrite !andb_true_iff, !bool_decide_eq_true. tauto. Qed.

(** What a settlement may have changed: one failure, and the given job, which is
    no longer pausing. *)
Record settled (job : JobAggregate.t) (f : string) (d d' : db) : Prop := mkSettled {
  settled_failures : ∀ x, x ≠ f → failures d' !! x = failures d !! x;
  settled_jobs : jobs d' = jobs d ∨
    ∃ row', jobs d' = <[JobAggregate.id job := row']> (jobs d) ∧
            ControlJobRow.state row' ≠ JobState.pausing
}.

Ltac settle_done :=
  split; [ by intros x Hx; simpl; rewrite ?lookup_insert_ne
         | first [ by left | right; eexists; split; [reflexivity | done] ] ].

Lemma settlePaused_run job cp f now d row :
  inv d → jobs d !! JobAggregate.id job = Some row → failures d !! f = None →
  ∃ d', settlePaused_tx job cp f now d = Ok (tt, d') ∧ settled job f d d' ∧
        (toAggregate row = job → ∃ row', jobs d' = <[JobAggregate.id job := row']> (jobs d) ∧
                                 ControlJobRow.state row' = JobState.paused).
Proof.
  intros Hi Hrow Hf. unfold settlePaused_tx.
  pose proof (settle_cas_run job now (mkJobCasNext JobState.paused ControlIntent.none
    (JobAggregate.resumeTarget job) None (JobAggregate.lastFailureId job) None None) d row Hrow)
    as Hcas. cbv zeta in Hcas.
  destruct (cas_matches _ row) eqn:Hm; rewrite (tx_bind_run _ _ _ _ _ Hcas).
  - apply cas_matches_revision in Hm.
    match goal with |- context [upd_jobs ?g d] => set (s1 := upd_jobs g d) end.
    destruct (settle_append_run job row d s1 [ChangedField.state] now Hi Hrow Hm eq_refl)
      as (g & z & Happ). rewrite (tx_bind_run _ _ _ _ _ Happ).
    destruct cp.
    + edestruct (insertFailure_run (mkInsertFailureInput f (JobAggregate.id job) "run.interrupted"
        Recoverability.recoverable (Some "interrupted_checkpoint") None now)
        (upd_outbox g z s1)) as (fr & Hins); [done|by simpl; rewrite lookup_insert_eq|].
      eexists. split; [exact Hins|]. split; [settle_done|]. intros _. eexists. split; [reflexivity|done].
    + eexists. split; [reflexivity|]. split; [settle_done|]. intros _. eexists.
      split; [reflexivity|done].
  - exists d. split; [done|]. split; [settle_done|]. intros <-.
    unfold cas_matches in Hm. simpl in Hm. by rewrite !bool_decide_eq_true_2 in Hm.
Qed.

Lemma settleInterruptedFailure_run job reason f now d row :
  inv d → jobs d !! JobAggregate.id job = Some row → failures d !! f = None →
  ∃ d', settleInterruptedFailure_tx job reason f now d = Ok (tt, d') ∧ settled job f d d'.
Proof.
  intros Hi Hrow Hf. unfold settleInterruptedFailure_tx.
  edestruct (insertFailure_run (mkInsertFailureInput f (JobAggregate.id job) "run.interrupted"
    Recoverability.recoverable (Some (InterruptionReason.to_string reason)) None now) d)
    as (fr & Hins); [done|by simpl; rewrite Hrow|].
  rewrite (tx_bind_run _ _ _ _ _ Hins). simpl. set (s0 := upd_failures _ d).
  pose proof (settle_cas_run job now (mkJobCasNext JobState.failed ControlIntent.none None None
    (Some f) (Some now) None) s0 row Hrow) as Hcas. cbv zeta in Hcas.
  destruct (cas_matches _ row) eqn:Hm; rewrite (tx_bind_run _ _ _ _ _ Hcas).
  - apply cas_matches_revision in Hm.
    edestruct (settle_append_run job row d) as (g & z & Happ); [done..| |].
    2: { rewrite (tx_bind_run _ _ _ _ _ Happ). eexists. split; [reflexivity|]. settle_done. }
    done.
  - exists s0. split; [done|]. settle_done.
Qed.

Lemma settleRuntimeLost_run job reason f now d row :
  inv d → jobs d !! JobAggregate.id job = Some row → failures d !! f = None →
  ∃ d', settleRuntimeLost_tx job reason f now d = Ok (tt, d') ∧ settled job f d d'.
Proof.
  intros Hi Hrow Hf. unfold settleRuntimeLost_tx.
  edestruct (insertFailure_run (mkInsertFailureInput f (JobAggregate.id job) "runtime.lost"
    Recoverability.recoverable (Some (lost_reason_string reason)) None now) d)
    as (fr & Hins); [done|by simpl; rewrite Hrow|].
  rewrite (tx_bind_run _ _ _ _ _ Hins). simpl. set (s0 := upd_failures _ d).
  pose proof (settle_cas_run job now (mkJobCasNext JobState.failed ControlIntent.none None None
    (Some f) (Some now) None) s0 row Hrow) as Hcas. cbv zeta in Hcas.
  destruct (cas_matches _ row) eqn:Hm; rewrite (tx_bind_run _ _ _ _ _ Hcas).
  - apply cas_matches_revision in Hm.
    destruct (JobAggregate.activeRunId job) as [r|];
      [unfold markRunState, releaseSlot; rewrite tx_bind_assoc, !tx_bind_modify
      |rewrite tx_bind_ret];
      (edestruct (settle_append_run job row d) as (g & z & Happ); [done..| |];
       [|rewrite (tx_bind_run _ _ _ _ _ Happ); eexists; split; [reflexivity|settle_done]]; done).
  - exists s0. split; [done|]. settle_done.
Qed.

Lemma executeDecision_run job dec f now d row :
  inv d → jobs d !! JobAggregate.id job = Some row → failures d !! f = None →
  ∃ d', executeDecision_tx job dec f now d = Ok (tt, d') ∧ settled job f d d' ∧
        (∀ cp, dec = settle_paused cp → toAggregate row = job →
           ∃ row', jobs d' = <[JobAggregate.id job := row']> (jobs d) ∧
                   ControlJobRow.state row' = JobState.paused).
Proof.
  intros Hi Hrow Hf. destruct dec; simpl.
  - destruct (settlePaused_run job interruptedCheckpoint f now d row) as (d' & ? & ? & ?); try done.
    exists d'. split_and!; [done..|]. auto.
  - destruct (settleInterruptedFailure_run job reason f now d row) as (d' & ? & ?); try done.
    exists d'. split_and!; [done..|]. done.
  - destruct (settleRuntimeLost_run job reason f now d row) as (d' & ? & ?); try done.
    exists d'. split_and!; [done..|]. done.
  - exists d. split_and!; [done|settle_done|done].
  - exists d. split_and!; [done|settle_done|done].
  - exists d. split_and!; [done|settle_done|done].
Qed.

(** A pausing job is always settled. *)
Lemma decide_pausing supervised job d :
  JobAggregate.state job = JobState.pausing → JobAggregate.controlIntent job = ControlIntent.pause →
  ∃ cp, decideStartupReconcile (reconcile_input supervised job d) = settle_paused cp.
Proof.
  intros Hs Hc. unfold decideStartupReconcile, reconcile_input. simpl.
  rewrite Hs, Hc. simpl. eauto.
Qed.

(** All pausing jobs of [d] are among the jobs still to be reconciled. *)
Definition pausing_covered (d : db) (js : list JobAggregate.t) : Prop :=
  ∀ id row, jobs d !! id = Some row → ControlJobRow.state row = JobState.pausing →
    toAggregate row ∈ js.

Lemma reconcile_jobs_run supervised js fs now d :
  inv d → (∀ job, job ∈ js → snapshot d job) → pausing_covered d js →
  (∀ n, failures d !! fs n = None) → (∀ n m, fs n = fs m → n = m) →
  ∃ decs d', reconcile_jobs supervised js fs now d = (Ok decs, d') ∧ pausing_covered d' [].
Proof.
  revert fs d. induction js as [|job rest IH]; intros fs d Hi Hs Hcov Hf Hinj; simpl.
  { exists [], d. done. }
  destruct (Hs job) as (row & Hrow & Hle & Heq); [set_solver|].
  set (dec := decideStartupReconcile (reconcile_input supervised job d)).
  destruct (executeDecision_run job dec (fs 0) now d row Hi Hrow (Hf 0))
    as (d1 & Hex & [Hfail Hjobs] & Hpaused).
  unfold reconcileJob. fold dec. rewrite (proj2 (run_transaction_ok _ _ _ _) Hex).
  assert (commit d d1) as Hc.
  { eapply executeDecision_commit; [|apply decide_fits|exact Hex]. by exists row. }
  destruct (IH (λ n, fs (S n)) d1) as (decs & d2 & Hrec & Hcov2).
  - by eapply inv_commit.
  - intros j Hj. eapply snapshot_commit; [apply Hs; set_solver|done].
  - intros id r Hr Hst.
    assert (jobs d !! id = Some r ∧ toAggregate r ≠ job) as [Hr0 Hne].
    { destruct Hjobs as [Hj|(row' & Hj & Hst')]; rewrite Hj in Hr.
      - split; [done|]. intros <-. simpl in *. rewrite (inv_keyed _ Hi _ _ Hr) in *.
        assert (row = r) as -> by congruence.
        pose proof (inv_shape _ Hi _ _ Hr) as Hsh. unfold job_shape in Hsh. simpl in Hsh.
        rewrite Hst in Hsh. destruct Hsh as [Hci _].
        destruct (decide_pausing supervised (toAggregate r) d Hst Hci) as [cp Hdec].
        destruct (Hpaused cp Hdec eq_refl) as (row' & Hj' & Hst').
        rewrite Hj in Hj'. rewrite Hj' in Hr. rewrite lookup_insert_eq in Hr. congruence.
      - rewrite lookup_insert in Hr. case_decide; [congruence|]. split; [done|].
        intros <-. simpl in *. by rewrite (inv_keyed _ Hi _ _ Hr) in *. }
    pose proof (Hcov _ _ Hr0 Hst). set_solver.
  - intros n. rewrite Hfail; [apply Hf|]. intros Hn. by apply Hinj in Hn.
  - intros n m Hnm. apply Hinj in Hnm. lia.
  - rewrite Hrec. by exists (dec :: decs), d2.
Qed.

(** Startup reconciliation always completes (it neither throws nor stops early), and
    afterwards no job is pausing. *)
Theorem reconcileAll_settles_pausing supervised fs now d :
  inv d → (∀ n, failures d !! fs n = None) → (∀ n m, fs n = fs m → n = m) →
  ∃ decs d', reconcileAll supervised fs now d = (Ok decs, d') ∧
    ∀ id row, jobs d' !! id = Some row → ControlJobRow.state row ≠ JobState.pausing.
Proof.
  intros Hi Hf Hinj.
  destruct (reconcile_jobs_run supervised (getJobsForReconciliation d) fs now d)
    as (decs & d' & Hrun & Hcov); try done.
  - intros job Hj. unfold getJobsForReconciliation in Hj.
    apply list_elem_of_fmap in Hj as (row & -> & Hrow).
    apply list_elem_of_In, filter_In in Hrow as [Hrow _].
    apply list_elem_of_In, elem_of_map_values in Hrow as [k Hrow].
    eapply snapshot_read; [by apply inv_keyed|done].
  - intros id row Hrow Hst. unfold getJobsForReconciliation. apply list_elem_of_fmap.
    exists row. split; [done|]. apply list_elem_of_In, filter_In. split.
    + apply list_elem_of_In, elem_of_map_values. eauto.
    + by rewrite Hst.
  - exists decs, d'. split; [done|]. intros id row Hrow Hst.
    pose proof (Hcov id row Hrow Hst). set_solver.
Qed.

(** Startup reconciliation decides no_change for a running job whose run is active and has
    a slot and an open runtime row, whatever the supervisor knows. *)
Theorem crashed_run_is_left_running supervised job d r run rt :
  isRunning (JobAggregate.state job) = true → JobAggregate.activeRunId job = Some r →
  getActiveRunSummary r d = Some run → ActiveRunSummary.state run = RunState.active →
  getActiveInstanceForRun r d = Some rt → hasActiveSlotForRun r d = true →
  decideStartupReconcile (reconcile_input supervised job d) = no_change.
Proof.
  intros Hrun Hr Hsum Hact Hrt Hslot. unfold decideStartupReconcile, reconcile_input. simpl.
  rewrite Hr, Hsum, Hact, Hrt, Hslot, Hrun. simpl. rewrite orb_true_r, andb_false_r. simpl.
  rewrite ?andb_false_r. by destruct (JobAggregate.state job).
Qed.
