(* ===== verification/Progress.v ===== *)
(** * A run whose tasks succeed finishes its job

    The executor loop, left alone with a provider that answers every task with
    a completed result, executes the queued tasks of the generation one after
    the other and completes the job. *)
From S2P Require Import Prelude Json Contracts JobDomain TaskDomain Store JobRepo TaskRepo.
From S2P Require Import Commands InternalCommands Scheduler Executor Effects Outbox Lifecycle.
From S2P Require Import Refinement Steps WorkerSpecs ExecutorSpecs SchedulerSpecs.
Local Open Scope tx_scope.

(** ** The situation of a run at the head of the loop *)

Definition task_queued_or_done (t : ControlJobTaskRow.t) : Prop :=
  ControlJobTaskRow.state t = TaskState.queued ∨ task_done t = true.

(** The job of [c] is running under the run of [c] at the revision of [c]. *)
Record run_current (c : ExecutionRunContext) (d : db) : Prop := mkRunCurrent {
  cur_job : ∃ row, jobs d !! ec_jobId c = Some row ∧
    ControlJobRow.state row = JobState.execution_running ∧
    ControlJobRow.controlIntent row = ControlIntent.none ∧
    ControlJobRow.activeRunId row = Some (ec_runId c) ∧
    ControlJobRow.stateRevision row = ec_expectedRevision c ∧
    ControlJobRow.executionGeneration row = ec_executionGeneration c;
  cur_run : ∃ run, runs d !! ec_runId c = Some run ∧
    ControlJobRunRow.jobId run = ec_jobId c ∧
    ControlJobRunRow.fenceToken run = ec_fenceToken c ∧
    ControlJobRunRow.executionGeneration run = ec_executionGeneration c ∧
    run_live (ControlJobRunRow.state run) = true
}.

Record ready (c : ExecutionRunContext) (d : db) : Prop := mkReady {
  ready_inv : inv d;
  ready_tasks : tasks_keyed d;
  ready_attempts : attempts_keyed d;
  (** [CHECK (attempt_no >= 1)] *)
  ready_attempt_no : ∀ k a, attempts d !! k = Some a →
    (1 ≤ ControlTaskAttemptRow.attemptNo a)%Z;
  ready_current : run_current c d;
  ready_states : ∀ k t, tasks d !! k = Some t →
    k.1 = (ec_jobId c, ec_executionGeneration c) → task_queued_or_done t
}.

(** ** The decision *)

Lemma substring_all s : String.substring 0 (String.length s) s = s.
Proof. induction s as [|x s IH]; simpl; [done|by rewrite IH]. Qed.

Lemma task_of_work_key taskId : task_of_key (task_work_key taskId) = Some taskId.
Proof.
  unfold task_of_key, task_work_key. simpl.
  rewrite Nat.sub_0_r, substring_all. by destruct taskId.
Qed.

Lemma generation_task c d t :
  tasks_keyed d → t ∈ listTasksForGeneration (ec_jobId c) (ec_executionGeneration c) d →
  tasks d !! (ec_jobId c, ec_executionGeneration c, ControlJobTaskRow.taskId t) = Some t.
Proof.
  intros Hk [Hg [k Ht]]%elem_of_listTasks. unfold in_generation in Hg.
  rewrite andb_true_iff, !bool_decide_eq_true in Hg. destruct Hg as [<- <-].
  by rewrite <-(Hk _ _ Ht) in Ht.
Qed.

Lemma worker_aggregate_current c d :
  run_current c d → ∃ row, jobs d !! ec_jobId c = Some row ∧
    getWorkerAggregate (ec_jobId c) (ec_runId c) (ec_fenceToken c) (ec_executionGeneration c) d =
    Some (toAggregate row).
Proof.
  intros [(row & Hrow & _) (run & Hrun & Hj & Hf & Hg & _)]. exists row. split; [done|].
  unfold getWorkerAggregate. by rewrite Hrow, Hrun, !bool_decide_eq_true_2.
Qed.

(** Either some task is queued and it is the work, or all are done. *)
Lemma query_ready c d :
  ready c d →
  (∃ t, tasks d !! (ec_jobId c, ec_executionGeneration c, ControlJobTaskRow.taskId t) = Some t ∧
        ControlJobTaskRow.state t = TaskState.queued ∧
        queryNextWork c d = next_work (task_work_key (ControlJobTaskRow.taskId t))) ∨
  (queryNextWork c d = next_complete (ec_expectedRevision c) ∧
   ∀ k t, tasks d !! k = Some t → k.1 = (ec_jobId c, ec_executionGeneration c) →
          task_done t = true).
Proof.
  intros [_ Hk _ _ Hcur Hst].
  destruct (worker_aggregate_current _ _ Hcur) as (row & Hrow & Hw).
  destruct Hcur as [(row' & Hrow' & _ & Hci & _ & Hrev & _) _].
  assert (row' = row) as -> by congruence.
  unfold queryNextWork. rewrite Hw. simpl. rewrite Hci, Hrev. simpl.
  set (l := listTasksForGeneration _ _ d).
  destruct (List.find (task_state_is TaskState.queued) l) as [t|] eqn:Hq.
  - left. exists t. apply find_some in Hq as [Hin Hs]. unfold task_state_is in Hs.
    apply bool_decide_eq_true in Hs. apply list_elem_of_In in Hin.
    split_and!; [by apply generation_task|done|done].
  - right.
    assert (∀ t, t ∈ l → task_done t = true) as Hdone.
    { intros t Ht. destruct (Hst _ _ (generation_task _ _ _ Hk Ht) eq_refl) as [Hs|]; [|done].
      exfalso. apply list_elem_of_In in Ht. pose proof (find_none _ _ Hq t Ht) as Hn.
      unfold task_state_is in Hn. by apply bool_decide_eq_false in Hn. }
    split.
    + destruct (List.find (task_state_is TaskState.running) l) as [t|] eqn:Hr.
      * apply find_some in Hr as [Hin Hs]. apply list_elem_of_In, Hdone in Hin.
        unfold task_done, task_state_is in *. apply bool_decide_eq_true in Hs.
        by rewrite Hs in Hin.
      * assert (forallb task_done l = true) as ->; [|done].
        apply forallb_forall. intros t Ht. by apply Hdone, list_elem_of_In.
    + intros k t Ht Hg. apply Hdone, elem_of_listTasks. split; [|by eauto].
      pose proof (Hk _ _ Ht) as Hkey. unfold task_key in Hkey. rewrite <-Hkey in Hg. simpl in Hg.
      injection Hg as Hj Hgen. unfold in_generation. by rewrite !bool_decide_eq_true_2.
Qed.

(** ** Starting the attempt *)

Lemma fold_max_ge l n : (n ≤ fold_left Z.max l n)%Z ∧ ∀ x, x ∈ l → (x ≤ fold_left Z.max l n)%Z.
Proof.
  revert n. induction l as [|y l IH]; intros n; simpl; [split; [lia|set_solver]|].
  destruct (IH (Z.max n y)) as [Hn Hl]. split; [lia|].
  intros x [->|Hx]%elem_of_cons; [lia|by apply Hl].
Qed.

(** The next attempt number is positive and not in use. *)
Lemma next_attempt_no j g taskId d :
  (∀ k a, attempts d !! k = Some a → (1 ≤ ControlTaskAttemptRow.attemptNo a)%Z) →
  (0 ≤ max_attempt_no j g taskId d)%Z ∧
  ∀ k a, attempts d !! k = Some a → same_task j g taskId a = true →
    (ControlTaskAttemptRow.attemptNo a ≤ max_attempt_no j g taskId d)%Z.
Proof.
  intros Hpos. unfold max_attempt_no.
  assert (∀ x, x ∈ map ControlTaskAttemptRow.attemptNo
            (List.filter (same_task j g taskId) (map_values (attempts d))) → (1 ≤ x)%Z) as Hx.
  { intros x Hin. apply list_elem_of_In, in_map_iff in Hin as (a & <- & Ha).
    apply filter_In in Ha as [Ha _]. apply list_elem_of_In, elem_of_map_values in Ha as [k Ha].
    by eapply Hpos. }
  assert (∀ k a, attempts d !! k = Some a → same_task j g taskId a = true →
            ControlTaskAttemptRow.attemptNo a ∈ map ControlTaskAttemptRow.attemptNo
            (List.filter (same_task j g taskId) (map_values (attempts d)))) as Hin.
  { intros k a Ha Hs. apply list_elem_of_In, in_map, filter_In. split; [|done].
    apply list_elem_of_In, elem_of_map_values. eauto. }
  destruct (map _ _) as [|n l].
  - split; [lia|]. intros k a Ha Hs. by apply Hin in Ha; [set_solver|].
  - destruct (fold_max_ge l n) as [Hn Hl].
    assert (1 ≤ n)%Z by (apply Hx; set_solver). split; [lia|].
    intros k a Ha Hs. pose proof (Hin k a Ha Hs) as [->|Hi]%elem_of_cons; [done|by apply Hl].
Qed.

Lemma createAttempt_run i d :
  ca_attemptNo i = None → attempts d !! ca_id i = None →
  (∀ k a, attempts d !! k = Some a → (1 ≤ ControlTaskAttemptRow.attemptNo a)%Z) →
  is_Some (runs d !! ca_runId i) →
  is_Some (tasks d !! (ca_jobId i, ca_generation i, ca_taskId i)) →
  ∃ n, (1 ≤ n)%Z ∧ createAttempt i d =
    Ok (tt, upd_attempts (<[ca_id i := ControlTaskAttemptRow.mk (ca_id i) (ca_jobId i)
           (ca_generation i) (ca_taskId i) n (ca_runId i) (ca_state i) None None None
           (ca_startedAtMs i) None None 0 None]>) d).
Proof.
  intros Hno Hfresh Hpos [run Hrun] [t Ht].
  destruct (next_attempt_no (ca_jobId i) (ca_generation i) (ca_taskId i) d Hpos) as [H0 Hmax].
  exists (max_attempt_no (ca_jobId i) (ca_generation i) (ca_taskId i) d + 1)%Z. split; [lia|].
  unfold createAttempt. rewrite tx_bind_gets. simpl. rewrite Hno, Hfresh, Hrun, Ht.
  rewrite (bool_decide_eq_false_2 (_ < 1)%Z) by lia.
  rewrite (bool_decide_eq_false_2 (is_Some None)) by (by intros []).
  rewrite any_row_none.
  2: { intros k a Ha. destruct (same_task _ _ _ a) eqn:Hs; [|done]. simpl.
       apply bool_decide_eq_false. specialize (Hmax k a Ha Hs). lia. }
  by rewrite !bool_decide_eq_false_2 by done.
Qed.

(** What starting the queued task [taskId] leaves. *)
Record begun (c : ExecutionRunContext) (taskId attemptId : string) (d d2 : db) : Prop := mkBegun {
  begun_jobs : jobs d2 = jobs d;
  begun_runs : runs d2 = runs d;
  begun_tasks : ∃ t now, tasks d !! (ec_jobId c, ec_executionGeneration c, taskId) = Some t ∧
    tasks d2 = <[(ec_jobId c, ec_executionGeneration c, taskId) :=
                   set_task_state TaskState.running now t]> (tasks d);
  begun_attempts : ∃ a, attempts d2 = <[attemptId := a]> (attempts d) ∧
    ControlTaskAttemptRow.id a = attemptId ∧ (1 ≤ ControlTaskAttemptRow.attemptNo a)%Z ∧
    ControlTaskAttemptRow.state a = AttemptState.running ∧ unfinished_attempt c taskId a
}.

Lemma begin_run c t attemptId now d :
  let taskId := ControlJobTaskRow.taskId t in
  ready c d → attempts d !! attemptId = None →
  tasks d !! (ec_jobId c, ec_executionGeneration c, taskId) = Some t →
  ControlJobTaskRow.state t = TaskState.queued →
  ∃ d2, begin_decision c (task_work_key taskId) attemptId now d = (Ok (Some attemptId), d2) ∧
        begun c taskId attemptId d d2.
Proof.
  intros taskId [_ _ _ Hpos [_ (run & Hrun & _)] _] Hfresh Ht Hst.
  unfold begin_decision, getCurrentTask. rewrite task_of_work_key. fold taskId. rewrite Ht, Hst.
  assert (updateTaskState (ec_jobId c) (ec_executionGeneration c) taskId TaskState.queued
    TaskState.running now d = Ok (true, upd_tasks (<[(ec_jobId c, ec_executionGeneration c, taskId)
      := set_task_state TaskState.running now t]>) d)) as Hu.
  { unfold updateTaskState. rewrite tx_bind_gets. simpl. rewrite Ht, Hst. done. }
  rewrite (proj2 (run_transaction_ok _ _ _ _) Hu). set (d1 := upd_tasks _ d).
  destruct (createAttempt_run (mkCreateAttemptInput attemptId (ec_jobId c)
    (ec_executionGeneration c) taskId (ec_runId c) AttemptState.running now None) d1)
    as (n & Hn & Hc); simpl in *; [done|done|done|by eauto|rewrite lookup_insert_eq; by eauto|].
  rewrite (proj2 (run_transaction_ok _ _ _ _) Hc). eexists. split; [reflexivity|].
  split; simpl; [done|done|by eauto|]. eexists. split; [reflexivity|]. by split_and!.
Qed.

(** ** The checkpoint *)

Lemma assertWorkerFence_run c d {P} (payload : P) :
  run_current c d →
  assertWorkerFence (worker_fence_of (worker_envelope c (ec_expectedRevision c) payload)) d = Ok tt.
Proof.
  intros Hcur. destruct (worker_aggregate_current _ _ Hcur) as (row & Hrow & Hw).
  destruct Hcur as [(row' & Hrow' & _ & _ & _ & Hrev & _) (run & Hrun & _ & _ & _ & Hlive)].
  assert (row' = row) as -> by congruence. unfold assertWorkerFence. simpl. rewrite Hw. simpl.
  rewrite bool_decide_eq_true_2 by done. simpl. unfold getActiveRunSummary. rewrite Hrun. simpl.
  by rewrite Hlive.
Qed.

Lemma workerFence_run c d {P} (payload : P) now :
  run_current c d → ∃ row, jobs d !! ec_jobId c = Some row ∧
    workerFence (worker_fence_of (worker_envelope c (ec_expectedRevision c) payload)) now d =
    Ok (Ok (ec_expectedRevision c + 1)%Z, upd_jobs (<[ec_jobId c := bump_revision now row]>) d).
Proof.
  intros [(row & Hrow & _ & _ & Hact & Hrev & Hgen) (run & Hrun & Hj & Hf & Hg & Hlive)].
  exists row. split; [done|]. unfold workerFence. rewrite tx_bind_gets. simpl. rewrite Hrow.
  unfold fence_matches. simpl. rewrite Hrun, Hlive, !bool_decide_eq_true_2 by done. simpl.
  by rewrite Hrev.
Qed.

(** The run stays current when only the revision moves. *)
Lemma run_current_bump c d d' row now identity :
  run_current c d → jobs d !! ec_jobId c = Some row →
  jobs d' = <[ec_jobId c := bump_revision now row]> (jobs d) → runs d' = runs d →
  run_current (advance_context c (ec_expectedRevision c + 1) identity) d'.
Proof.
  intros [(row' & Hrow' & ? & ? & ? & Hrev & ?) Hrun] Hrow Hj Hr.
  assert (row' = row) as -> by congruence. split; simpl; [|by rewrite Hr].
  exists (bump_revision now row). rewrite Hj, lookup_insert_eq. simpl. rewrite Hrev. by split_and!.
Qed.

Section checkpoint_run.
Context `{Sha256} `{TypeBox}.

(** What a checkpoint of attempt [a] with a validated result leaves. *)
Record checkpointed_task (c : ExecutionRunContext) (taskId attemptId : string) (s : TaskState.t)
    (now : N) (d d' : db) : Prop := mkCheckpointedTask {
  cpt_jobs : ∃ row, jobs d !! ec_jobId c = Some row ∧
    jobs d' = <[ec_jobId c := bump_revision now row]> (jobs d);
  cpt_runs : runs d' = runs d;
  cpt_tasks : ∃ t, tasks d !! (ec_jobId c, ec_executionGeneration c, taskId) = Some t ∧
    tasks d' = <[(ec_jobId c, ec_executionGeneration c, taskId) := set_task_state s now t]>
                 (tasks d);
  cpt_attempts : ∃ a a', attempts d !! attemptId = Some a ∧
    attempts d' = <[attemptId := a']> (attempts d) ∧
    ControlTaskAttemptRow.id a' = ControlTaskAttemptRow.id a ∧
    ControlTaskAttemptRow.attemptNo a' = ControlTaskAttemptRow.attemptNo a
}.

Lemma put_blob_run v now d : ∃ g,
  put_blob v now d = Ok (sha256 (stringify v), upd_evidence g d) ∧
  is_Some (g (evidence d) !! sha256 (stringify v)).
Proof.
  unfold put_blob. rewrite tx_bind_gets. simpl. destruct (evidence d !! _) as [b|] eqn:Hb.
  - exists (λ m, m). split; [by destruct d|by rewrite Hb].
  - eexists. split; [reflexivity|]. rewrite lookup_insert_eq. by eexists.
Qed.

Lemma finishAttempt_run i h e r n m d a :
  attempts d !! i = Some a → is_Some (evidence d !! e) →
  finishAttempt i h e r n m d =
  Ok (tt, upd_attempts (<[i := finish_attempt_row h e r n m a]>) d).
Proof.
  intros Ha [b Hb]. unfold finishAttempt. rewrite tx_bind_gets. simpl. rewrite Ha, Hb.
  by rewrite bool_decide_eq_false_2.
Qed.

Lemma updateTaskState_run j g taskId n now d t :
  tasks d !! (j, g, taskId) = Some t →
  updateTaskState j g taskId (ControlJobTaskRow.state t) n now d =
  Ok (true, upd_tasks (<[(j, g, taskId) := set_task_state n now t]>) d).
Proof.
  intros Ht. unfold updateTaskState. rewrite tx_bind_gets. simpl. rewrite Ht.
  by rewrite bool_decide_eq_true_2.
Qed.

Lemma checkpoint_run c taskId attemptId raw v now d a t :
  inv d → run_current c d → attempts d !! attemptId = Some a →
  ControlTaskAttemptRow.id a = attemptId →
  ControlTaskAttemptRow.state a = AttemptState.running → unfinished_attempt c taskId a →
  tasks d !! (ec_jobId c, ec_executionGeneration c, taskId) = Some t →
  validateTaskResult raw = Ok v →
  ∃ d', JobCommandService.checkpointTask_tx (worker_envelope c (ec_expectedRevision c)
          (mkTaskCheckpointPayload attemptId (vt_result v))) now d =
        Ok (mkCheckpointResult (ec_expectedRevision c + 1) false, d') ∧
        checkpointed_task c taskId attemptId (vt_taskState v) now d d'.
Proof.
  intros Hi Hcur Ha Hid Hst (Hrun & Hjob & Hgen & Htask & Hnone) Ht Hv.
  rewrite (validateTaskResult_result _ _ Hv).
  unfold JobCommandService.checkpointTask_tx, JobCommandService.assert_fence_or_throw. simpl.
  rewrite tx_bind_gets. unfold getAttempt. rewrite Ha, Hrun, Hjob, Hgen, !String.eqb_refl.
  rewrite bool_decide_eq_true_2 by done. simpl. rewrite Hv.
  unfold tx_lift, tx_bind at 1. rewrite Hnone, Hst. simpl.
  rewrite tx_bind_assoc, tx_bind_gets, assertWorkerFence_run, tx_bind_ret by done.
  destruct (workerFence_run c d (mkTaskCheckpointPayload attemptId raw) now Hcur)
    as (row & Hrow & Hf).
  rewrite (tx_bind_run _ _ _ _ _ Hf). set (d1 := upd_jobs _ d).
  unfold putImmutable. set (blob := JArr _).
  destruct (put_blob_run blob now d1) as (g & Hp & Hev). rewrite (tx_bind_run _ _ _ _ _ Hp).
  set (d2 := upd_evidence g d1) in *. rewrite tx_bind_gets.
  pose proof (run_current_bump c d d2 row now "" Hcur Hrow eq_refl eq_refl) as Hcur2.
  destruct (worker_aggregate_current _ _ Hcur2) as (row2 & Hrow2 & Hw). simpl in Hrow2, Hw.
  unfold JobCommandService.worker_job. simpl. rewrite Hw.
  destruct Hcur2 as [(row2' & Hrow2' & Hs2 & _ & _ & _ & _) _]. simpl in Hrow2'.
  assert (row2' = row2) as -> by congruence.
  unfold JobCommandService.pausing_requested. simpl. rewrite Hs2. simpl.
  rewrite Hid. erewrite tx_bind_run by (by apply finishAttempt_run).
  rewrite tx_bind_gets. unfold getCurrentTask. simpl. rewrite Htask, Ht.
  erewrite tx_bind_run by (by apply updateTaskState_run). simpl.
  erewrite tx_bind_run.
  2: { apply appendOutbox_run. simpl. apply outbox_no_conflict. intros e He Hent.
       destruct Hcur as [(row0 & Hrow0 & _ & _ & _ & Hrev0 & _) _]. rewrite <-Hrev0.
       eapply inv_events; [done..|]. rewrite Hent.
       assert (row2 = bump_revision now row) as ->
         by (unfold d2, d1 in Hrow2; simpl in Hrow2; rewrite lookup_insert_eq in Hrow2; congruence).
       simpl. by rewrite (inv_keyed _ Hi _ _ Hrow). }
  eexists. split; [reflexivity|]. split; simpl; [by eauto|done|by eauto|].
  eexists _, _. split_and!; [done|reflexivity|done|done].
Qed.

(** ** One iteration *)

(** The iteration is undisturbed, and the provider completes the task. *)
Record succeeds (w : Iteration) : Prop := mkSucceeds {
  su_alive : it_aborted w = false;
  su_before : ∀ d, it_before_query w d = d;
  su_after : ∀ d, it_after_query w d = d;
  su_during : ∀ d, it_during_task w d = d;
  su_result : ∀ c a, ∃ raw v, it_provider w c a = outcome_result raw ∧
    validateTaskResult raw = Ok v ∧ vt_taskState v = TaskState.completed
}.

(** What a step that completes task [taskId] leaves. *)
Record task_completed (c : ExecutionRunContext) (taskId attemptId : string) (d d' : db)
    : Prop := mkTaskCompleted {
  tcd_jobs : ∃ row now, jobs d !! ec_jobId c = Some row ∧
    jobs d' = <[ec_jobId c := bump_revision now row]> (jobs d);
  tcd_runs : runs d' = runs d;
  tcd_tasks : ∃ t t', tasks d !! (ec_jobId c, ec_executionGeneration c, taskId) = Some t ∧
    ControlJobTaskRow.state t = TaskState.queued ∧ task_done t' = true ∧ task_key t' = task_key t ∧
    tasks d' = <[(ec_jobId c, ec_executionGeneration c, taskId) := t']> (tasks d);
  tcd_attempts : ∃ a, attempts d' = <[attemptId := a]> (attempts d) ∧
    ControlTaskAttemptRow.id a = attemptId ∧ (1 ≤ ControlTaskAttemptRow.attemptNo a)%Z
}.

Lemma work_run w c t d :
  let taskId := ControlJobTaskRow.taskId t in
  ready c d → succeeds w → attempts d !! it_attemptId w = None →
  tasks d !! (ec_jobId c, ec_executionGeneration c, taskId) = Some t →
  ControlJobTaskRow.state t = TaskState.queued →
  queryNextWork c d = next_work (task_work_key taskId) →
  ∃ d', iteration w c d =
          (inr (advance_context c (ec_expectedRevision c + 1) (task_work_key taskId)), d') ∧
        inv d' ∧ task_completed c taskId (it_attemptId w) d d'.
Proof.
  intros taskId Hready [Hal Hb Haf Hd Hres] Hfresh Ht Hst Hq.
  unfold iteration. rewrite Hal, Hb, Hq, Haf.
  destruct (begin_run c t (it_attemptId w) (it_now w) d Hready Hfresh Ht Hst) as (d2 & Hbeg & Hbg).
  pose proof (begin_decision_commits c (task_work_key taskId) (it_attemptId w) (it_now w) d) as Hc.
  fold taskId in Hbeg, Hbg. rewrite Hbeg in Hc |- *. simpl in Hc. rewrite Hd.
  destruct Hready as [Hi _ _ _ Hcur _]. pose proof (inv_commits _ _ Hi Hc) as Hi2.
  destruct Hbg as [Hj2 Hr2 (t0 & now0 & Ht0 & Htasks2) (a & Hat & Hid & Hno & Has & Hun)].
  assert (run_current c d2) as Hcur2 by (destruct Hcur; split; rewrite ?Hj2, ?Hr2; done).
  destruct (Hres c (it_attemptId w)) as (raw & v & -> & Hv & Hvs).
  destruct (checkpoint_run c taskId (it_attemptId w) raw v (it_now w) d2 a
    (set_task_state TaskState.running now0 t0)) as (d3 & Hcp & Hleft); try done.
  { by rewrite Hat, lookup_insert_eq. }
  { by rewrite Htasks2, lookup_insert_eq. }
  unfold finish_decision. rewrite Hv. unfold JobCommandService.checkpointTask.
  rewrite (run_command_ok _ _ _ _ _ Hcp). simpl. rewrite bool_decide_eq_true_2 by lia. simpl.
  exists d3. split; [done|]. split.
  { eapply inv_commit; [exact Hi2|]. eapply checkpointTask_commit; [by apply inv_keyed|exact Hcp]. }
  destruct Hleft as [(row & Hrow & Hj3) Hr3 (t2 & Ht2 & Ht3) (a2 & a' & Ha2 & Ha3 & Hid3 & Hno3)].
  rewrite Hj2 in Hrow, Hj3. rewrite Hr2 in Hr3. rewrite Htasks2 in Ht2, Ht3.
  rewrite lookup_insert_eq in Ht2. rewrite insert_insert_eq in Ht3. simplify_eq.
  rewrite Hat in Ha2, Ha3. rewrite lookup_insert_eq in Ha2. rewrite insert_insert_eq in Ha3.
  simplify_eq. split; [by eauto|done| |].
  - eexists _, _. split_and!; [done|done| | |exact Ht3]; [|done].
    unfold task_done, task_state_is. simpl. by rewrite Hvs.
  - exists a'. split_and!; [done|congruence|lia].
Qed.

(** The next iteration finds the run in the same situation. *)
Lemma completed_ready c taskId attemptId d d' identity :
  ready c d → inv d' → task_completed c taskId attemptId d d' →
  ready (advance_context c (ec_expectedRevision c + 1) identity) d'.
Proof.
  intros [_ Hk Hak Hno Hcur Hst] Hi' [(row & now & Hrow & Hj) Hr (t & t' & Ht & _ & Hdone & Hkey & Hts)
    (a & Has & Hid & Hno')].
  split; [done| | | |by eapply run_current_bump|].
  - unfold tasks_keyed. rewrite Hts. intros k x. rewrite lookup_insert. case_decide; [|apply Hk].
    intros [= <-]. subst k. rewrite Hkey. by apply Hk.
  - unfold attempts_keyed. rewrite Has. intros k x. rewrite lookup_insert.
    case_decide; [|apply Hak]. intros [= <-]. congruence.
  - rewrite Has. intros k x. rewrite lookup_insert. case_decide; [|apply Hno].
    by intros [= <-].
  - rewrite Hts. intros k x. rewrite lookup_insert. simpl. case_decide; [|apply Hst].
    intros [= <-] _. by right.
Qed.

Lemma not_open_when_done t : task_done t = true → ¬ task_open (ControlJobTaskRow.state t).
Proof.
  unfold task_done, task_state_is, task_open. rewrite orb_true_iff, !bool_decide_eq_true.
  intuition congruence.
Qed.

(** The completed task is the one that is no longer open. *)
Lemma completed_open c taskId attemptId d d' identity rev :
  task_completed c taskId attemptId d d' →
  size (open_tasks c d) = S (size (open_tasks (advance_context c rev identity) d')).
Proof.
  intros [_ _ (t & t' & Ht & Hq & Hdone & _ & Hts) _].
  set (k0 := (ec_jobId c, ec_executionGeneration c, taskId)) in *.
  assert (open_tasks (advance_context c rev identity) d' = open_tasks c d ∖ {[k0]}) as ->.
  { apply set_eq. intros k.
    rewrite elem_of_difference, not_elem_of_singleton, !elem_of_open_tasks, Hts.
    rewrite lookup_insert. case_decide as Hk0.
    - subst k. split; [|by intros []]. intros (x & [= <-] & _ & Ho).
      by apply not_open_when_done in Ho.
    - split; [|by intros []]. intros Hx. by split. }
  rewrite size_difference.
  - rewrite size_singleton. assert (size (open_tasks c d) ≠ 0); [|lia].
    apply size_non_empty_iff. intros He. assert (k0 ∈ open_tasks c d) as Hin.
    { apply elem_of_open_tasks. exists t. split; [done|]. split; [done|]. by left. }
    set_solver.
  - apply singleton_subseteq_l, elem_of_open_tasks. exists t. split; [done|].
    split; [done|]. by left.
Qed.

(** ** Completion *)

(** The job of [c] succeeded at revision [rev], with all tasks of the generation done. *)
Record job_done (c : ExecutionRunContext) (rev : Z) (d : db) : Prop := mkJobDone {
  jd_job : ∃ row, jobs d !! ec_jobId c = Some row ∧
    ControlJobRow.state row = JobState.succeeded ∧ ControlJobRow.activeRunId row = None ∧
    ControlJobRow.stateRevision row = rev;
  jd_tasks : ∀ k t, tasks d !! k = Some t → k.1 = (ec_jobId c, ec_executionGeneration c) →
    task_done t = true
}.

Lemma complete_run c now d :
  inv d → run_current c d →
  ∃ row d', JobCommandService.completeExecution_tx
      (worker_envelope c (ec_expectedRevision c) tt) now d = Ok (tt, d') ∧
    jobs d' !! ec_jobId c = Some row ∧ ControlJobRow.state row = JobState.succeeded ∧
    ControlJobRow.activeRunId row = None ∧
    ControlJobRow.stateRevision row = (ec_expectedRevision c + 1)%Z ∧ tasks d' = tasks d.
Proof.
  intros Hi Hcur. destruct (worker_aggregate_current _ _ Hcur) as (row & Hrow & Hw).
  unfold JobCommandService.completeExecution_tx, JobCommandService.assert_fence_or_throw.
  rewrite tx_bind_assoc, tx_bind_gets, assertWorkerFence_run, tx_bind_ret by done.
  rewrite tx_bind_gets. unfold JobCommandService.worker_job. simpl. rewrite Hw.
  destruct Hcur as [(row' & Hrow' & Hs & Hci & Hact & Hrev & _) _].
  assert (row' = row) as -> by congruence. simpl. rewrite Hs, Hci. simpl.
  pose proof (inv_keyed _ Hi _ _ Hrow) as Hid.
  erewrite tx_bind_run by (by apply (cas_or_throw_run _ _ _ row); simpl; rewrite ?Hid). simpl.
  unfold markRunState. rewrite tx_bind_modify. erewrite tx_bind_run.
  2: { apply appendOutbox_run. simpl. apply outbox_no_conflict. intros e He Hent.
       rewrite <-Hrev. eapply inv_events; [done..|]. by rewrite Hent, Hid. }
  eexists _, _. split; [reflexivity|]. simpl. rewrite Hid, lookup_insert_eq.
  split_and!; [reflexivity|done|done|simpl; lia|done].
Qed.

Lemma iteration_ready w c d :
  ready c d → succeeds w → attempts d !! it_attemptId w = None →
  (∃ taskId d', iteration w c d =
      (inr (advance_context c (ec_expectedRevision c + 1) (task_work_key taskId)), d') ∧
    inv d' ∧ task_completed c taskId (it_attemptId w) d d') ∨
  (∃ d', iteration w c d = (inl (Ok tt), d') ∧ open_tasks c d = ∅ ∧
    job_done c (ec_expectedRevision c + 1) d').
Proof.
  intros Hr Hw Hfresh. destruct (query_ready c d Hr) as [(t & Ht & Hst & Hq)|[Hq Hdone]].
  - left. destruct (work_run w c t d Hr Hw Hfresh Ht Hst Hq) as (d' & ? & ? & ?). eauto.
  - right. destruct (complete_run c (it_now w) d (ready_inv _ _ Hr) (ready_current _ _ Hr))
      as (row & d' & Hc & Hrow & Hs & Hact & Hrev & Hts).
    exists d'. destruct Hw as [Hal Hb Haf _ _]. split; [|split].
    + unfold iteration. rewrite Hal, Hb, Hq, Haf. unfold JobCommandService.completeExecution.
      by rewrite (run_command_ok _ _ _ _ _ Hc).
    + apply elem_of_equiv_empty_L. intros k (t & Ht & Hg & Ho)%elem_of_open_tasks.
      by eapply not_open_when_done; [eapply Hdone|].
    + split; [by eauto|]. by rewrite Hts.
Qed.

Lemma executeRun_ready n world c d :
  size (open_tasks c d) = n → ready c d → (∀ i, succeeds (world i)) →
  (∀ i, attempts d !! it_attemptId (world i) = None) →
  (∀ i j, it_attemptId (world i) = it_attemptId (world j) → i = j) →
  ∃ d', executeRun (S n) world c d = Some (Ok tt, d') ∧
        job_done c (ec_expectedRevision c + Z.of_nat n + 1) d'.
Proof.
  revert world c d. induction n as [|n IH]; intros world c d Hn Hr Hw Hf Hinj;
    destruct (iteration_ready (world 0) c d Hr (Hw 0) (Hf 0))
      as [(taskId & d1 & Hit & Hi1 & Htc)|(d1 & Hit & He & Hdone)].
  - pose proof (completed_open _ _ _ _ _ "" 0%Z Htc). lia.
  - exists d1. simpl. rewrite Hit. by rewrite Z.add_0_r.
  - set (c1 := advance_context c _ _) in *.
    destruct (IH (λ i, world (S i)) c1 d1) as (d2 & Hrun & Hdone).
    + pose proof (completed_open _ _ _ _ _ (task_work_key taskId) (ec_expectedRevision c + 1) Htc)
        as Hsize. fold c1 in Hsize. lia.
    + by eapply completed_ready.
    + done.
    + intros i. destruct Htc as [_ _ _ (a & -> & _ & _)]. rewrite lookup_insert_ne; [done|].
      intros Heq. by apply Hinj in Heq.
    + intros i j Hij. apply Hinj in Hij. lia.
    + exists d2. split.
      * change (executeRun (S (S n)) world c d) with
          (match iteration (world 0) c d with
           | (inl r, d') => Some (r, d')
           | (inr c', d') => executeRun (S n) (λ i, world (S i)) c' d' end).
        by rewrite Hit.
      * destruct Hdone as [(row & ? & ? & ? & Hrev) Ht]. split; [|done].
        exists row. split_and!; [done..|]. unfold c1 in Hrev. simpl in Hrev. lia.
  - exfalso. rewrite He, size_empty in Hn. lia.
Qed.

(** C37: A run finishes its job: when the job is running under the run at the expected revision,
    its tasks are queued or done, the provider answers every task with a completed result and
    nothing else interferes, the executor loop executes the queued tasks one after the other and
    returns normally, with the job succeeded, no active run, all tasks of the generation done
    and one revision per task plus one. *)
Theorem undisturbed_run_succeeds world c d :
  ready c d → (∀ n, succeeds (world n)) →
  (∀ n, attempts d !! it_attemptId (world n) = None) →
  (∀ n m, it_attemptId (world n) = it_attemptId (world m) → n = m) →
  ∃ d', executeRun (S (size (open_tasks c d))) world c d = Some (Ok tt, d') ∧
        job_done c (ec_expectedRevision c + Z.of_nat (size (open_tasks c d)) + 1) d'.
Proof. intros Hr Hw Hf Hinj. by apply executeRun_ready. Qed.
End checkpoint_run.
