(* ===== verification/Witnesses.v ===== *)
(** * Instances of the theorems

    Every theorem with hypotheses, applied to the database of [Fixtures]. *)
From stdpp Require Import pretty.
From S2P Require Import Prelude Json Contracts JobDomain TaskDomain Plan EventHub Store JobRepo TaskRepo Commands.
From S2P Require Import InternalCommands Scheduler Executor Effects ResultSpecs Outbox Lifecycle Refinement Steps.
From S2P Require Import Fixtures Safety UserSpecs WorkerSpecs ExecutorSpecs SchedulerSpecs Progress.

(** The operations that lead to [db_active]. *)
Definition trace_active : list op := [op_tick; op_started].

Lemma inv_claimed : inv db_claimed.
Proof. exact (inv_reachable [op_tick]). Qed.

Lemma inv_active : inv db_active.
Proof. exact (inv_reachable trace_active). Qed.

Definition pause_j1 : user_command := UPause (user "j1" 1 "key-1" tt).
Definition db_paused : db := (run_user pause_j1 5 db0).1.2.

Lemma inv_paused : inv db_paused.
Proof. exact (inv_reachable [OpRequestPause (user "j1" 1 "key-1" tt) 5]). Qed.

(** ** System properties *)

Lemma exec_refines_lifecycle_witness : rtc commit db0 (exec cfg0 op_tick db0).
Proof. apply exec_refines_lifecycle. exact (inv_keyed _ inv_db0). Defined.

Lemma reachable_sweep_clean_witness : sweep (exec_all cfg0 trace_active db0) = [].
Proof.
  apply (reachable_sweep_clean cfg0 db0); [exact inv_db0|apply reachable_exec_all].
Defined.

Lemma job_history_gap_free_witness :
  ∃ row, jobs (exec_all cfg0 trace_active db0) !! "j1" = Some row ∧
    (1 ≤ ControlJobRow.stateRevision row)%Z ∧
    revisions_of "j1" (exec_all cfg0 trace_active db0) =
      revisions_of "j1" db0 ++ seqZ (1 + 1) (ControlJobRow.stateRevision row - 1).
Proof.
  exact (job_history_gap_free cfg0 db0 _ "j1" (queued_job "j1" 1) inv_db0
           (reachable_exec_all cfg0 db0 trace_active) eq_refl).
Defined.

Lemma revision_identifies_job_witness :
  ControlJobRow.state (row_j1 (exec_all cfg0 [] db0)) = JobState.execution_queued.
Proof.
  assert (row_j1 (exec_all cfg0 [] db0) = queued_job "j1" 1) as ->; [|reflexivity].
  apply (revision_identifies_job cfg0 db0 (exec_all cfg0 [] db0) "j1");
    [exact inv_db0|apply reachable_exec_all|reflexivity|reflexivity|reflexivity].
Defined.

Lemma succeeded_is_final_witness :
  ControlJobRow.state <$> jobs (exec_all cfg0 trace_active db0) !! "j2" = Some JobState.succeeded.
Proof.
  rewrite (succeeded_is_final cfg0 db0 _ "j2" done_job inv_db0
             (reachable_exec_all cfg0 db0 trace_active) eq_refl eq_refl).
  reflexivity.
Defined.

(** The receipt of the pause is still there after the scheduler ran. *)
Lemma records_are_permanent_witness :
  is_Some (dedup (exec_all cfg0 trace_active db_paused) !! ("alice", "request_pause", "key-1")).
Proof.
  destruct (records_are_permanent cfg0 db_paused (exec_all cfg0 trace_active db_paused) inv_paused
              (reachable_exec_all cfg0 db_paused trace_active)) as [Hd _].
  eexists. apply Hd. vm_compute. reflexivity.
Defined.

Lemma capacity_never_exceeded_witness :
  countActiveSlots DEFAULT_POOL (exec_all cfg0 trace_active db0) ≤ 4.
Proof.
  apply (capacity_never_exceeded cfg0 db0); [vm_compute; lia|apply reachable_exec_all].
Defined.

(** The slot the scheduler gave to job [j1]. *)
Definition slot_j1 : ControlResourceSlotRow.t :=
  ControlResourceSlotRow.mk "0-slot" "j1" "0-run" DEFAULT_POOL SlotState.active 5 None.

Lemma one_active_slot_per_job_witness :
  slots db_active !! "0-slot" = Some slot_j1 ∧ "0-slot" = "0-slot".
Proof.
  assert (slots db_active !! "0-slot" = Some slot_j1) as Hs by (vm_compute; reflexivity).
  split; [exact Hs|].
  eapply (one_active_slot_per_job cfg0 db0 db_active _ _ slot_j1 slot_j1);
    [|exact (reachable_exec_all cfg0 db0 trace_active)|exact Hs|exact Hs|reflexivity..].
  intros k1 k2 r1 r2 H1. simpl in H1. by rewrite lookup_empty in H1.
Defined.

(** ** User commands *)

Definition cancel_j1 : user_command :=
  UCancel (user "j1" 1 "key-2" (mkCancelJobPayload "not_needed")).

Lemma replay_is_idempotent_witness :
  (run_user pause_j1 9 db_paused).1 =
  (Ok (job_response "j1" JobState.paused 2 []), db_paused).
Proof.
  eapply (replay_is_idempotent cfg0 pause_j1 5 9 db0 _ db_paused).
  - exact inv_paused.
  - vm_compute. reflexivity.
  - apply reachable_init.
Defined.

Lemma first_writer_wins_witness :
  ∃ code, (code = "job.revision_conflict" ∨ code = "job.not_found") ∧
    run_user cancel_j1 9 db_paused = (Err (commandError code None), db_paused, []).
Proof.
  eapply (first_writer_wins cfg0 pause_j1 cancel_j1 5 9 db0 db_paused db_paused).
  - exact inv_db0.
  - reflexivity.
  - vm_compute. reflexivity.
  - apply reachable_init.
  - reflexivity.
  - reflexivity.
  - vm_compute. reflexivity.
Defined.

Lemma refused_command_changes_nothing_witness :
  run_user (UContinue (user "j1" 1 "key-3" tt)) 5 db0 =
  (Err (fromTransitionError
          (mkTransitionError "job.action_not_allowed" JobState.execution_queued "continue")),
   db0, []).
Proof.
  exact (refused_command_changes_nothing (UContinue (user "j1" 1 "key-3" tt)) 5 db0 eq_refl).
Defined.

Lemma offered_action_is_accepted_witness :
  ∃ t d', u_transition pause_j1 (toAggregate (queued_job "j1" 1)) = Ok t ∧
    (run_user pause_j1 5 db0).1 = (Ok (u_response pause_j1 (toAggregate (queued_job "j1" 1)) t), d') ∧
    getAggregate "j1" d' = Some (u_next pause_j1 (toAggregate (queued_job "j1" 1)) t).
Proof.
  apply (offered_action_is_accepted pause_j1 JobAction.pause None true 5 db0 (queued_job "j1" 1)).
  - exact inv_db0.
  - reflexivity.
  - reflexivity.
  - reflexivity.
  - reflexivity.
  - simpl. set_solver.
  - reflexivity.
  - discriminate.
Defined.

Definition cancel_j1_other : user_command :=
  UCancel (user "j1" 1 "key-2" (mkCancelJobPayload "other")).
Definition db_cancelled : db := (run_user cancel_j1 5 db0).1.2.

Lemma inv_cancelled : inv db_cancelled.
Proof.
  exact (inv_reachable [OpCancelJob (user "j1" 1 "key-2" (mkCancelJobPayload "not_needed")) 5]).
Qed.

Lemma key_reuse_follows_payload_hash_witness :
  run_user cancel_j1_other 9 db_cancelled =
  (Err (commandError "idempotency_key_reused" None), db_cancelled, []).
Proof.
  assert (String.eqb (u_hash cancel_j1) (u_hash cancel_j1_other) = false) as Hne
    by (vm_compute; reflexivity).
  assert (run_user cancel_j1 5 db0 =
          (Ok (job_response "j1" JobState.cancelled 2 [("runIdToStop", JNull)]), db_cancelled, []))
    as Hrun by (vm_compute; reflexivity).
  pose proof (key_reuse_follows_payload_hash cfg0 cancel_j1 cancel_j1_other 5 9 db0 db_cancelled
    db_cancelled _ [] inv_cancelled Hrun (reachable_init cfg0 db_cancelled)
    eq_refl eq_refl eq_refl) as Hk.
  rewrite Hne in Hk. exact Hk.
Defined.

Lemma pause_key_is_not_bound_to_job_witness :
  (JobCommandService.requestPause (user "j2" 7 "key-1" tt) 9 db_paused).1 =
  (Ok (job_response "j1" JobState.paused 2 []), db_paused).
Proof.
  eapply (pause_key_is_not_bound_to_job (user "j1" 1 "key-1" tt) (user "j2" 7 "key-1" tt) 5 9 db0).
  - vm_compute. reflexivity.
  - reflexivity.
  - reflexivity.
Defined.

(** A failed job that can be restarted. *)
Definition restart_j1 : UserCommand.t unit := user "j1" 4 "key-4" tt.

Lemma inv_failed : inv db_failed.
Proof. exact (inv_reachable (trace_active ++ [op_fail])). Qed.

Lemma failed_tasks_keyed : tasks_keyed db_failed.
Proof. refine (keyed_of_list task_key (tasks db_failed) _). vm_compute. reflexivity. Qed.

Lemma failed_generation_2 taskId : tasks db_failed !! ("j1", 2%Z, taskId) = None.
Proof.
  apply eq_None_not_Some. intros [t Ht]. pose proof (failed_tasks_keyed _ _ Ht) as Hkey.
  apply (rows_of_list (λ t, bool_decide (ControlJobTaskRow.executionGeneration t = 1%Z))) in Ht;
    [|vm_compute; reflexivity].
  apply bool_decide_eq_true in Ht. unfold task_key in Hkey. congruence.
Qed.

Definition failed_j1 : ControlJobRow.t :=
  ControlJobRow.mk "j1" "t1" "p1" "m1" JobState.failed 4 ControlIntent.none None (Some 1%Z) 1 None
    (Some "f1") "title" "summary" 1 14 (Some 14%N).

Definition db_restarted : db := (JobCommandService.restartExecution restart_j1 20 db_failed).1.2.

Lemma restart_clones_tasks_witness :
  tasks db_restarted !! ("j1", 2%Z, "a") = Some (clone_task 2 20 (task_row "j1" "a" 1)).
Proof.
  assert (JobCommandService.restartExecution restart_j1 20 db_failed =
          (Ok (job_response "j1" JobState.execution_queued 5 []), db_restarted, [])) as Hrun
    by (vm_compute; reflexivity).
  assert (jobs db_failed !! "j1" = Some failed_j1) as Hrow by (vm_compute; reflexivity).
  assert (u_dedup (URestart restart_j1) db_failed = None) as Hd by (vm_compute; reflexivity).
  assert (tasks db_failed !! ("j1", 1%Z, "a") = Some (task_row "j1" "a" 1)) as Ha
    by (vm_compute; reflexivity).
  destruct (restart_clones_tasks restart_j1 20 db_failed _ db_restarted _ failed_j1 inv_failed Hd
              Hrow (conj failed_tasks_keyed failed_generation_2) Hrun) as [Hclone _].
  exact (proj1 (Hclone "a" (task_row "j1" "a" 1) Ha)).
Defined.

(** ** Instances of the theorems on workers, runs, results and events *)

(** ** Worker commands *)

(** A worker of the claimed run that presents an old revision. *)
Definition op_stale : op := OpCompleteExecution (worker 1 tt) 15.

Lemma stale_worker_is_fenced_witness :
  jobs (exec cfg0 op_stale db_active) = jobs db_active.
Proof.
  apply (stale_worker_is_fenced cfg0 op_stale (worker_fence_of (worker 1 tt)) db_active).
  - exact (inv_keyed _ inv_active).
  - reflexivity.
  - intros (row & run & Hrow & _ & _ & Hrev & _).
    assert (Some 3%Z = Some 1%Z) as Hbad; [|discriminate].
    transitivity (ControlJobRow.stateRevision <$> jobs db_active !! "j1");
      [vm_compute; reflexivity|].
    change (jobs db_active !! "j1" = Some row) in Hrow. rewrite Hrow. simpl. by rewrite Hrev.
Defined.

(** A worker of generation 2, which does not exist yet. *)
Definition op_old_generation : op :=
  OpCompleteExecution (WorkerCommand.mk "j1" 3 "0-run" "0-fence" 2 tt) 15.

Lemma old_generation_is_fenced_witness :
  jobs (exec cfg0 op_old_generation db_active) = jobs db_active.
Proof.
  eapply (old_generation_is_fenced cfg0 op_old_generation (mkWorkerFence "j1" 3 "0-run" "0-fence" 2)
            db_active).
  - exact inv_active.
  - vm_compute. reflexivity.
  - reflexivity.
  - vm_compute. discriminate.
Defined.

(** The checkpoint sent again with another fence token, at another time. *)
Lemma checkpoint_is_idempotent_witness :
  JobCommandService.checkpointTask
    (WorkerCommand.mk "j1" 9 "0-run" "other" 1 (mkTaskCheckpointPayload "attempt-0" good_result))
    99 db_checkpointed =
  (Ok (mkCheckpointResult 4 false), db_checkpointed, []).
Proof.
  eapply (checkpoint_is_idempotent checkpoint_a 9 "other" 11 99 db_begun).
  - refine (keyed_of_list ControlTaskAttemptRow.id (attempts db_begun) _). vm_compute. reflexivity.
  - vm_compute. reflexivity.
  - vm_compute. reflexivity.
Defined.

Definition other_result : json :=
  JObj [("status", JStr "completed"); ("summary", JStr "other"); ("changedFiles", JArr []);
        ("evidence", JArr [JStr "log"]);
        ("validation", JObj [("ran", JBool true); ("outcome", JStr "passed")]);
        ("blockers", JArr []); ("blockerKind", JNull)].

Lemma checkpoint_result_is_final_witness :
  JobCommandService.checkpointTask (worker 4 (mkTaskCheckpointPayload "attempt-0" other_result))
    12 db_checkpointed =
  (Err (commandError "task.attempt_result_conflict" None), db_checkpointed, []).
Proof.
  eapply (checkpoint_result_is_final (worker 4 (mkTaskCheckpointPayload "attempt-0" other_result))
            12 db_checkpointed).
  - vm_compute. reflexivity.
  - reflexivity.
  - reflexivity.
  - reflexivity.
  - reflexivity.
  - vm_compute. reflexivity.
  - vm_compute. discriminate.
Defined.

Definition db_verified : db :=
  (complete_verification ScopeType.slice verdict_input 13 db_verifying).2.

Lemma inv_verified : inv db_verified.
Proof.
  exact (inv_reachable (trace_active ++
           [op_verify; OpCompleteVerification verdict_input ScopeType.slice 13])).
Qed.

Lemma verdict_is_final_witness :
  complete_verification ScopeType.slice
    (WorkerCommand.mk "j1" 8 "r" "f" 1 (mkCompleteVerificationPayload "v1" "S1" (JStr "no"))) 20
    db_verified = (Err (PlainError "verification.result_conflict"), db_verified).
Proof.
  assert (complete_verification ScopeType.slice verdict_input 13 db_verifying =
          (Ok (mkVerificationResult "v1" "passed" 5), db_verified)) as Hrun
    by (vm_compute; reflexivity).
  assert (verifications_keyed db_verifying) as Hk.
  { refine (keyed_of_list ControlVerificationRow.id (verifications db_verifying) _).
    vm_compute. reflexivity. }
  exact (verdict_is_final cfg0 ScopeType.slice verdict_input 13 db_verifying _ db_verified
           db_verified 8 "f" "r" (JStr "no") 20 Hk inv_verified Hrun
           (reachable_init cfg0 db_verified)).
Defined.

(** ** Runs *)

Lemma executeRun_terminates_witness :
  is_Some (executeRun (S (size (open_tasks ctx0 db_active))) world0 ctx0 db_active).
Proof.
  apply executeRun_terminates.
  - intros n. assert (calm_step ctx0 (λ d, d)) as Hid by (by split).
    split; [exact Hid..|]. intros c' a op. discriminate.
  - refine (keyed_of_list ControlTaskAttemptRow.id (attempts db_active) _). vm_compute. reflexivity.
Defined.

Lemma ready_active : ready ctx0 db_active.
Proof.
  split.
  - exact inv_active.
  - refine (keyed_of_list task_key (tasks db_active) _). vm_compute. reflexivity.
  - refine (keyed_of_list ControlTaskAttemptRow.id (attempts db_active) _).
    vm_compute. reflexivity.
  - intros k a Ha. apply (rows_of_list (λ a, bool_decide
      (1 ≤ ControlTaskAttemptRow.attemptNo a)%Z)) in Ha; [|vm_compute; reflexivity].
    by apply bool_decide_eq_true in Ha.
  - split; eexists; split; [vm_compute; reflexivity|by split_and!|vm_compute; reflexivity|
      by split_and!].
  - intros k t Ht _. left. apply (rows_of_list (λ t, bool_decide
      (ControlJobTaskRow.state t = TaskState.queued))) in Ht; [|vm_compute; reflexivity].
    by apply bool_decide_eq_true in Ht.
Qed.

Lemma undisturbed_run_succeeds_witness :
  ∃ d', executeRun (S (size (open_tasks ctx0 db_active))) world0 ctx0 db_active =
          Some (Ok tt, d') ∧
        job_done ctx0 (3 + Z.of_nat (size (open_tasks ctx0 db_active)) + 1) d'.
Proof.
  apply (undisturbed_run_succeeds world0 ctx0 db_active).
  - exact ready_active.
  - intros n. split; [reflexivity..|]. intros c a. eexists good_result, _.
    split_and!; [reflexivity|vm_compute; reflexivity|reflexivity].
  - intros n. assert (attempts db_active = ∅) as -> by (vm_compute; reflexivity).
    apply lookup_empty.
  - intros n m. cbn [world0 it_attemptId]. intros Heq%(inj (String.append "attempt-")).
    by apply (inj pretty).
Defined.

Lemma claim_starts_run_witness :
  ∃ row, jobs db0 !! "j1" = Some row ∧
    claimed 4 (toAggregate (queued_job "j1" 1)) row (ids0 0) 5 db0 db_claimed.
Proof.
  eapply (claim_starts_run 4 (toAggregate (queued_job "j1" 1)) (ids0 0) 5 db0 "0-run" _ db_claimed).
  vm_compute. reflexivity.
Defined.

(** The failed job, continued: it is queued again, and still holds its slot. *)
Definition db_requeued : db :=
  (JobCommandService.continueJob (user "j1" 4 "key-5" tt) 21 db_failed).1.2.

Lemma inv_requeued : inv db_requeued.
Proof.
  exact (inv_reachable (trace_active ++ [op_fail; OpContinueJob (user "j1" 4 "key-5" tt) 21])).
Qed.

Lemma claim_depends_on_slot_witness :
  claimJob 4 (toAggregate (row_j1 db_requeued)) (ids0 7) 22 db_requeued =
  (Err unique_failed, db_requeued).
Proof.
  eapply (claim_depends_on_slot 4 (toAggregate (row_j1 db_requeued)) (ids0 7) 22 db_requeued
            (row_j1 db_requeued)).
  - exact inv_requeued.
  - vm_compute. reflexivity.
  - reflexivity.
  - vm_compute. reflexivity.
  - vm_compute. lia.
  - split.
    + vm_compute. reflexivity.
    + intros k r Hr _ Hbad.
      assert (bool_decide (ControlJobRunRow.fenceToken r ≠ "7-fence") = true) as Hne.
      { revert k r Hr Hbad. refine (λ k r Hr _, rows_of_list
          (λ r, bool_decide (ControlJobRunRow.fenceToken r ≠ "7-fence")) (runs db_requeued) _ k r Hr).
        vm_compute. reflexivity. }
      apply bool_decide_eq_true in Hne. by apply Hne.
    + vm_compute. reflexivity.
    + intros k r Hr Hbad.
      assert (bool_decide (ControlResourceSlotRow.runId r ≠ "7-run") = true) as Hne.
      { refine (rows_of_list
          (λ r, bool_decide (ControlResourceSlotRow.runId r ≠ "7-run")) (slots db_requeued) _ k r Hr).
        vm_compute. reflexivity. }
      apply bool_decide_eq_true in Hne. by apply Hne.
  - eexists "0-slot", _. split; [vm_compute; reflexivity|by split].
Defined.

Lemma completed_run_keeps_slot_witness :
  slots (JobCommandService.completeExecution (worker 3 tt) 16 db_active).1.2 = slots db_active ∧
  countActiveSlots DEFAULT_POOL db_active = 1.
Proof.
  split; [|vm_compute; reflexivity].
  eapply (completed_run_keeps_slot (worker 3 tt) 16 db_active tt _ _ 3
            (mkRuntimeExitedPayload "rt1" ExitKind.normal None None) "f9" 17).
  - exact (inv_keyed _ inv_active).
  - vm_compute. reflexivity.
Defined.

Lemma inv_pausing : inv db_pausing.
Proof. exact (inv_reachable (trace_active ++ [op_pause])). Qed.

Lemma reconcileAll_settles_pausing_witness :
  ∃ decs d', reconcileAll (λ _, false) (λ n, "f" +:+ pretty n) 18 db_pausing = (Ok decs, d') ∧
    ∀ id row, jobs d' !! id = Some row → ControlJobRow.state row ≠ JobState.pausing.
Proof.
  apply (reconcileAll_settles_pausing (λ _, false) (λ n, "f" +:+ pretty n) 18 db_pausing).
  - exact inv_pausing.
  - intros n. assert (failures db_pausing = ∅) as -> by (vm_compute; reflexivity).
    apply lookup_empty.
  - intros n m [= Hnm]. by apply (inj pretty).
Defined.

Lemma crashed_run_is_left_running_witness :
  decideStartupReconcile (reconcile_input (λ _, false) (toAggregate (row_j1 db_active)) db_active) =
  no_change.
Proof.
  eapply (crashed_run_is_left_running (λ _, false) (toAggregate (row_j1 db_active)) db_active "0-run").
  - vm_compute. reflexivity.
  - vm_compute. reflexivity.
  - vm_compute. reflexivity.
  - reflexivity.
  - vm_compute. reflexivity.
  - vm_compute. reflexivity.
Defined.

(** ** Events *)

(** A publisher that records what it is given. *)
Definition recorder (e : ControlOutboxEventRow.t) (log : list Z) : bool * list Z :=
  (true, log ++ [ControlOutboxEventRow.eventId e]).

Lemma flushLoop_terminates_witness :
  is_Some (flushLoop (λ _ (p : unit), (false, p)) 3 10 20 db_active tt).
Proof. apply flushLoop_terminates. vm_compute. lia. Defined.

Lemma flush_exactly_once_witness :
  ∃ d', flushLoop recorder 3 1 20 db_active [] =
          Some (d', deliver_all recorder (List.filter undispatched (outbox db_active)) []) ∧
        List.filter undispatched (outbox d') = [].
Proof.
  apply (flush_exactly_once recorder).
  - reflexivity.
  - apply (bool_decide_unpack _). vm_compute. reflexivity.
  - lia.
  - vm_compute. lia.
Defined.

Definition hub_cfg : EventHubConfig := mkEventHubConfig 2 1000.
Definition event1 : SseEnvelope.t := SseEnvelope.mk 1 "job" "job.changed" "j1" 4 JNull.

Lemma enqueue_keeps_latest_witness :
  ∃ x, x ∈ [event1] ∧ subject x = ("j1", "job") ∧ (4 ≤ SseEnvelope.revision x)%Z.
Proof.
  apply (enqueue_keeps_latest hub_cfg (new_subscription "c") event1
           (Subscription.mk "c" [event1] (serializedBytes event1) 0)).
  vm_compute. reflexivity.
Defined.

Lemma hub_queues_bounded_witness :
  Forall (sub_ok hub_cfg) (subscribe "c" []).
Proof.
  apply (hub_queues_bounded hub_cfg (λ _ _, true)). apply rtc_once. constructor.
Defined.

(** ** Plans and results *)

Definition plan0 : PlanInput :=
  [PlanMilestone.mk "M1" "first" [PlanSlice.mk "S1" "slice" [PlanTask.mk "T1" "task" None None] []]].

Lemma validatePlan_keeps_content_witness :
  match validatePlan plan0 with
  | Ok plan => map erase_milestone (np_milestones plan) = plan0
  | Err _ => False
  end.
Proof.
  assert (validatePlan plan0 =
    Ok (mkNormalizedPlan (imap normalize_milestone plan0) (computeContentHash plan0))) as Hv
    by (vm_compute; reflexivity).
  rewrite Hv. exact (proj1 (validatePlan_keeps_content plan0 _ Hv)).
Defined.

Lemma validated_result_is_consistent_witness :
  res_str (res_status good_result) "completed" = true ∧ res_blockers good_result = [].
Proof.
  destruct (validated_result_is_consistent good_result
              (mkValidatedTaskResult TaskState.completed good_result)) as (_ & _ & Hs & Hb & _).
  - vm_compute. reflexivity.
  - by split.
Defined.

Lemma evidence_is_content_addressed_witness :
  verifyHash (sha256 (stringify (JArr [JStr "log"]))) [JStr "log"] = true.
Proof.
  eapply (evidence_is_content_addressed [JStr "log"] 1 db0). vm_compute. reflexivity.
Defined.
