(* ===== verification/JsString.v ===== *)
(** * Strings of the JavaScript runtime

    The operations of [String.prototype] the server uses: [trim],
    [toLowerCase], [startsWith], [split] on one separator and [Array.join], for
    texts whose characters are code units below 256. *)
From S2P Require Import Prelude Json.
From Stdlib Require Import Ascii.

#[local] Arguments bool_decide : simpl never.

(** White space and line terminators of ECMAScript in this range. *)
Definition is_space (c : ascii) : bool :=
  let n := N_of_ascii c in
  bool_decide (9 ≤ n ∧ n ≤ 13)%N || bool_decide (n = 32)%N || bool_decide (n = 160)%N.

Fixpoint trimStart (s : string) : string :=
  match s with
  | String c s' => if is_space c then trimStart s' else s
  | EmptyString => EmptyString
  end.

(** [\w] *)
Definition is_word (c : ascii) : bool :=
  let n := N_of_ascii c in
  bool_decide (97 ≤ n ∧ n ≤ 122)%N || bool_decide (65 ≤ n ∧ n ≤ 90)%N ||
  bool_decide (48 ≤ n ∧ n ≤ 57)%N || bool_decide (n = 95)%N.

(** Drops the trailing white space: a character stays when it is not white
    space or something stays after it. *)
Fixpoint trimEnd (s : string) : string :=
  match s with
  | EmptyString => EmptyString
  | String c s' =>
      match trimEnd s' with
      | EmptyString => if is_space c then EmptyString else String c EmptyString
      | r => String c r
      end
  end.

Definition trim (s : string) : string := trimStart (trimEnd s).

Definition lowerChar (c : ascii) : ascii :=
  let n := N_of_ascii c in
  if bool_decide (65 ≤ n ∧ n ≤ 90)%N then ascii_of_N (n + 32) else c.

Fixpoint toLowerCase (s : string) : string :=
  match s with
  | EmptyString => EmptyString
  | String c s' => String (lowerChar c) (toLowerCase s')
  end.

Definition startsWith (s pre : string) : bool := String.prefix pre s.

(** [s.includes(t)] *)
Fixpoint includes (s t : string) : bool :=
  String.prefix t s ||
  match s with EmptyString => false | String _ s' => includes s' t end.

(** [s.slice(0, n)] for a non-negative [n]. *)
Definition slice0 (n : nat) (s : string) : string := String.substring 0 n s.

(** [s.split(sep)] for a separator of one character. *)
Fixpoint split (sep : ascii) (s : string) : list string :=
  match s with
  | EmptyString => [EmptyString]
  | String c s' =>
      if bool_decide (c = sep) then EmptyString :: split sep s'
      else match split sep s' with
           | w :: ws => String c w :: ws
           | [] => [String c EmptyString]
           end
  end.

Fixpoint has_char (c : ascii) (s : string) : bool :=
  match s with
  | EmptyString => false
  | String d s' => bool_decide (d = c) || has_char c s'
  end.

Fixpoint all_chars (p : ascii → bool) (s : string) : bool :=
  match s with
  | EmptyString => true
  | String c s' => p c && all_chars p s'
  end.

Definition sep_string (c : ascii) : string := String c EmptyString.

Lemma str_app_nil s : "" +:+ s = s.
Proof. done. Qed.

Lemma str_app_cons c w s : String c w +:+ s = String c (w +:+ s).
Proof. done. Qed.

Section split.
Context (sep : ascii).

Lemma split_cons_nonempty s : split sep s ≠ [].
Proof. destruct s; cbn; repeat case_match; done. Qed.

Lemma split_no_sep w : has_char sep w = false → split sep w = [w].
Proof.
  induction w as [|c w IH]; [done|]. cbn. intros [Hc Hw]%orb_false_elim.
  apply bool_decide_eq_false in Hc. by rewrite bool_decide_eq_false_2, IH.
Qed.

Lemma split_app w s :
  has_char sep w = false →
  split sep (w +:+ String sep s) = w :: split sep s.
Proof.
  induction w as [|c w IH]; rewrite ?str_app_nil, ?str_app_cons; cbn.
  - intros _. by rewrite bool_decide_eq_true_2.
  - intros [Hc Hw]%orb_false_elim. apply bool_decide_eq_false in Hc.
    by rewrite bool_decide_eq_false_2, IH.
Qed.

(** Splitting undoes joining when no piece contains the separator. *)
Lemma split_join ws :
  ws ≠ [] → Forall (λ w, has_char sep w = false) ws →
  split sep (join (sep_string sep) ws) = ws.
Proof.
  induction ws as [|w ws IH]; [done|]. intros _ [Hw Hws]%Forall_cons_iff.
  destruct ws as [|w' ws]; [by apply split_no_sep|].
  change (join (sep_string sep) (w :: w' :: ws))
    with (w +:+ String sep (join (sep_string sep) (w' :: ws))).
  rewrite split_app by done. f_equal. by apply IH.
Qed.

Lemma join_split s : join (sep_string sep) (split sep s) = s.
Proof.
  induction s as [|c s IH]; [done|]. cbn.
  destruct (split sep s) as [|w ws] eqn:E; [by destruct (split_cons_nonempty s)|].
  case_bool_decide as Hc.
  - subst c. cbn. by rewrite <-IH.
  - destruct ws; cbn in *; by rewrite <-IH.
Qed.

Lemma split_pieces s : Forall (λ w, has_char sep w = false) (split sep s).
Proof.
  induction s as [|c s IH]; [by repeat constructor|]. cbn.
  destruct (split sep s) as [|w ws] eqn:E; [by destruct (split_cons_nonempty s)|].
  apply Forall_cons_iff in IH as [Hw Hws].
  case_bool_decide; repeat constructor; try done.
  cbn. by rewrite bool_decide_eq_false_2.
Qed.
End split.

Lemma has_char_app c s t : has_char c (s +:+ t) = has_char c s || has_char c t.
Proof.
  induction s as [|d s IH]; [done|]. rewrite str_app_cons. cbn. by rewrite IH, orb_assoc.
Qed.

Lemma prefix_app s t : String.prefix s (s +:+ t) = true.
Proof.
  induction s as [|c s IH]; [by destruct t|]. rewrite str_app_cons. cbn.
  by destruct (ascii_dec c c).
Qed.

Lemma prefix_inv s t : String.prefix s t = true → ∃ r, t = s +:+ r.
Proof.
  revert t. induction s as [|c s IH]; intros t; [by exists t|].
  destruct t as [|d t]; [done|]. cbn. destruct (ascii_dec c d) as [->|]; [|done].
  intros [r ->]%IH. by exists r.
Qed.

(** A text that starts with [w] and the separator splits into [w] first. *)
Lemma split_startsWith sep w s :
  has_char sep w = false → startsWith s (w +:+ sep_string sep) = true →
  ∃ ws, split sep s = w :: ws.
Proof.
  intros Hw [r ->]%prefix_inv. exists (split sep r). rewrite <-split_app by done.
  f_equal. clear. induction w as [|c w IH]; [done|]. by rewrite !str_app_cons, IH.
Qed.

(** Texts without white space are not changed by [trim]. *)
Lemma all_chars_app p s t : all_chars p (s +:+ t) = all_chars p s && all_chars p t.
Proof.
  induction s as [|c s IH]; [done|]. rewrite str_app_cons. cbn. by rewrite IH, andb_assoc.
Qed.

Lemma trimEnd_plain s : all_chars (λ c, negb (is_space c)) s = true → trimEnd s = s.
Proof.
  induction s as [|c s IH]; [done|]. cbn. intros [Hc%negb_true_iff Hs]%andb_true_iff.
  rewrite IH by done. destruct s; [by rewrite Hc|done].
Qed.

Lemma trim_plain s : all_chars (λ c, negb (is_space c)) s = true → trim s = s.
Proof.
  intros Hs. unfold trim. rewrite trimEnd_plain by done. destruct s as [|c s]; [done|].
  cbn in *. apply andb_true_iff in Hs as [Hc%negb_true_iff _]. by rewrite Hc.
Qed.

(** The rest of a text after [n] characters. *)
Fixpoint slice_from (n : nat) (s : string) : string :=
  match n, s with
  | O, _ => s
  | S n', String _ s' => slice_from n' s'
  | S _, EmptyString => EmptyString
  end.

Lemma slice_from_app pre s : slice_from (String.length pre) (pre +:+ s) = s.
Proof. induction pre as [|c pre IH]; [done|]. by rewrite str_app_cons. Qed.

(** ** [trim] is idempotent *)

Lemma trimEnd_idem s : trimEnd (trimEnd s) = trimEnd s.
Proof.
  induction s as [|c s IH]; [done|]. cbn. destruct (trimEnd s) as [|d r] eqn:E.
  - destruct (is_space c) eqn:Hc; [done|]. cbn. by rewrite Hc.
  - cbn in *. by rewrite IH.
Qed.

Lemma trimStart_idem s : trimStart (trimStart s) = trimStart s.
Proof. induction s as [|c s IH]; [done|]. cbn. destruct (is_space c) eqn:Hc; [done|]. cbn. by rewrite Hc. Qed.

Lemma trimEnd_trimStart s : trimEnd s = s → trimEnd (trimStart s) = trimStart s.
Proof.
  induction s as [|c s IH]; [done|]. cbn. intros Hs. destruct (is_space c) eqn:Hc; [|cbn; by rewrite Hc].
  apply IH. destruct (trimEnd s); [done|]. by injection Hs.
Qed.

Lemma trim_idem s : trim (trim s) = trim s.
Proof.
  unfold trim. rewrite trimEnd_trimStart by apply trimEnd_idem. apply trimStart_idem.
Qed.
