(* ===== verification/Path.v ===== *)
(** * Workspace paths

    [canonicalizePath] of [src/server/sandbox/paths.ts] and
    [workspacePathsConflict] of
    [src/server/legacy-control-plane/workspace-lease-store.ts], with what they
    use of Node's POSIX [path] module for absolute arguments.  The file system
    is the class [FileSystem]; the only law, [FileSystemOk], is that [realpath]
    returns an absolute path without empty, [.] or [..] components. *)
From S2P Require Import Prelude Json JsString.
From Stdlib Require Import Ascii.

#[local] Arguments bool_decide : simpl never.

Definition slash : ascii := "/".
Definition backslash : ascii := "\".

(** ** Node's [path.posix] on absolute paths *)

(** [path.isAbsolute] *)
Definition isAbsolute (p : string) : bool := startsWith p "/".

(** One component of [normalizeString]: skip empty and [.], pop on [..]. *)
Definition push_component (acc : list string) (c : string) : list string :=
  if bool_decide (c = "") || bool_decide (c = ".") then acc
  else if bool_decide (c = "..") then removelast acc
  else acc ++ [c].

(** The components of [path.resolve(p)]. *)
Definition components (p : string) : list string := fold_left push_component (split slash p) [].

Definition render (cs : list string) : string := String slash (join (sep_string slash) cs).

(** [path.resolve(p)]; [path.normalize] leaves its result unchanged. *)
Definition resolve (p : string) : string := render (components p).

Fixpoint strip_common (xs ys : list string) : list string * list string :=
  match xs, ys with
  | x :: xs', y :: ys' => if bool_decide (x = y) then strip_common xs' ys' else (xs, ys)
  | _, _ => (xs, ys)
  end.

(** [path.relative(from, to)]: up from what is left of [from], down to [to]. *)
Definition relative (from to : string) : string :=
  let '(up, down) := strip_common (components from) (components to) in
  join (sep_string slash) (map (λ _, "..") up ++ down).

(** ** sandbox/paths.ts *)

Class FileSystem := {
  existsSync : string → bool;
  realpathSync : string → option string
}.

(** [trimmed.split] on runs of the two separators. *)
Definition split_separators (s : string) : list string :=
  concat (map (split backslash) (split slash s)).

Definition canonicalizePath `{FileSystem} (input : string) : result string string :=
  let trimmed := trim input in
  if bool_decide (trimmed = "") then Err "sandbox.path.empty"
  else if negb (isAbsolute trimmed) || existsb (String.eqb "..") (split_separators trimmed)
  then Err "sandbox.path.relative"
  else
    let normalized := resolve trimmed in
    if negb (existsSync normalized) then
      let parent := render (removelast (components normalized)) in
      if negb (existsSync parent) then Err "sandbox.path.missing"
      else match realpathSync parent with
           | Some parentReal =>
               let base := List.last (split slash normalized) "" in
               Ok (render (push_component (components parentReal) base))
           | None => Err "sandbox.path.canonicalize"
           end
    else match realpathSync normalized with
         | Some real => Ok real
         | None => Err "sandbox.path.realpath"
         end.

(** ** workspace-lease-store.ts *)

Definition normalizeWorkspaceLeasePath `{FileSystem} (workspacePath : string) :
    result string string :=
  canonicalizePath (trim workspacePath).

Definition path_contains (parent child : string) : bool :=
  let rel := relative parent child in
  bool_decide (rel = "") ||
  (negb (bool_decide (rel = "..")) && negb (startsWith rel "../") && negb (isAbsolute rel)).

(** Same path, parent directory, or child directory counts as a conflict. *)
Definition workspacePathsConflict (left right : string) : bool :=
  path_contains left right || path_contains right left.

(** ** Canonical paths *)

Definition component_ok (c : string) : Prop :=
  c ≠ "" ∧ c ≠ "." ∧ c ≠ ".." ∧ has_char slash c = false.

(** Absolute, without empty, [.] or [..] components. *)
Definition canonical (p : string) : Prop := ∃ cs, Forall component_ok cs ∧ p = render cs.

Class FileSystemOk `{FileSystem} : Prop :=
  realpath_canonical : ∀ p q, realpathSync p = Some q → canonical q.

Lemma fold_push_ok cs acc :
  Forall component_ok cs → fold_left push_component cs acc = acc ++ cs.
Proof.
  revert acc. induction cs as [|c cs IH]; intros acc; cbn; [by rewrite app_nil_r|].
  intros [(H1 & H2 & H3 & _) Hcs]%Forall_cons_iff. unfold push_component at 2.
  rewrite !bool_decide_eq_false_2 by done. cbn. rewrite IH by done. by rewrite <-app_assoc.
Qed.

Lemma components_no_slash cs :
  Forall component_ok cs → Forall (λ w, has_char slash w = false) cs.
Proof. intros Hcs. eapply Forall_impl; [|exact Hcs]. by intros ? (_ & _ & _ & ?). Qed.

Lemma components_render cs : Forall component_ok cs → components (render cs) = cs.
Proof.
  intros Hcs. unfold components, render. cbn [split].
  rewrite bool_decide_eq_true_2 by done. cbn. unfold push_component at 2. cbn.
  destruct cs as [|c cs]; [done|].
  rewrite split_join; [by apply fold_push_ok|done|by apply components_no_slash].
Qed.

Lemma component_ok_push acc c :
  Forall component_ok acc → has_char slash c = false → Forall component_ok (push_component acc c).
Proof.
  intros Hacc Hc. unfold push_component.
  destruct (bool_decide (c = "")) eqn:E1; [done|]. destruct (bool_decide (c = ".")) eqn:E2; [done|].
  cbn. destruct (bool_decide (c = "..")) eqn:E3.
  - destruct acc as [|a acc _] using rev_ind; [done|]. rewrite removelast_last.
    by apply Forall_app in Hacc as [? _].
  - apply bool_decide_eq_false in E1, E2, E3. apply Forall_app. split; [done|].
    by repeat constructor.
Qed.

Lemma components_ok p : Forall component_ok (components p).
Proof.
  unfold components. pose proof (split_pieces slash p) as Hs.
  assert (Forall component_ok []) as Hacc by done. revert Hacc.
  generalize (@nil string) as acc. induction Hs as [|w ws Hw Hws IH]; intros acc Hacc; cbn; [done|].
  apply IH. by apply component_ok_push.
Qed.

Lemma Forall_last_default {A} (P : A → Prop) (d : A) l : P d → Forall P l → P (List.last l d).
Proof.
  intros Hd. induction 1 as [|x l Hx Hl IH]; [done|]. by destruct l.
Qed.

(** [canonicalizePath] returns canonical paths only. *)
Lemma canonicalizePath_canonical `{!FileSystem, !FileSystemOk} input p :
  canonicalizePath input = Ok p → canonical p.
Proof.
  unfold canonicalizePath. cbv zeta.
  destruct (bool_decide _); [discriminate|]. destruct (negb _ || _); [discriminate|].
  destruct (negb _).
  - destruct (negb _); [discriminate|]. destruct (realpathSync _); [|discriminate].
    intros [= <-]. eexists. split; [|reflexivity]. apply component_ok_push; [apply components_ok|].
    exact (Forall_last_default _ "" _ eq_refl (split_pieces slash (resolve (trim input)))).
  - destruct (realpathSync _) eqn:Hr; [|discriminate]. intros [= <-].
    by eapply realpath_canonical.
Qed.

Lemma strip_common_spec xs ys up down :
  strip_common xs ys = (up, down) →
  ∃ pre, xs = pre ++ up ∧ ys = pre ++ down ∧ (up = [] ↔ xs `prefix_of` ys).
Proof.
  revert ys up down. induction xs as [|x xs IH]; intros ys up down; cbn.
  { intros [= <- <-]. exists []. split_and!; try done. split; [intros; apply prefix_nil|done]. }
  destruct ys as [|y ys].
  { intros [= <- <-]. exists []. split_and!; try done.
    split; [done|]. intros Hp. by apply prefix_nil_inv in Hp. }
  case_bool_decide as Hxy.
  - subst y. intros (pre & -> & -> & Hiff)%IH. exists (x :: pre). split_and!; try done.
    rewrite Hiff. split; [by apply prefix_cons|]. by intros ?%prefix_cons_inv_2.
  - intros [= <- <-]. exists []. split_and!; try done.
    split; [done|]. intros Hp. by apply prefix_cons_inv_1 in Hp.
Qed.

Lemma ups_joined_escape (up : list string) (u : string) down :
  let rel := join (sep_string slash) (map (λ _, "..") (u :: up) ++ down) in
  rel ≠ "" ∧ (rel = ".." ∨ startsWith rel "../" = true).
Proof.
  cbn. destruct (map (λ _, "..") up ++ down) as [|w ws] eqn:E; [split; [done|by left]|].
  split; [done|]. right. unfold startsWith. apply (prefix_app "../").
Qed.

Lemma downs_joined_inside c cs :
  Forall component_ok (c :: cs) →
  let rel := join (sep_string slash) (c :: cs) in
  rel ≠ ".." ∧ startsWith rel "../" = false ∧ isAbsolute rel = false.
Proof.
  intros Hcs rel.
  assert (split slash rel = c :: cs) as Hsplit.
  { apply split_join; [done|]. by apply components_no_slash. }
  apply Forall_cons_iff in Hcs as [(H1 & H2 & H3 & H4) Hcs]. clearbody rel.
  split_and!.
  - intros ->. cbn in Hsplit. naive_solver.
  - destruct (startsWith rel "../") eqn:E; [|done].
    destruct (split_startsWith slash ".." rel) as [ws Hws]; [done|exact E|congruence].
  - destruct (isAbsolute rel) eqn:E; [|done].
    destruct (split_startsWith slash "" rel) as [ws Hws]; [done|exact E|congruence].
Qed.

(** On canonical paths containment is the prefix order of components. *)
Lemma path_contains_iff ps cs :
  Forall component_ok ps → Forall component_ok cs →
  path_contains (render ps) (render cs) = true ↔ ps `prefix_of` cs.
Proof.
  intros Hps Hcs. unfold path_contains, relative. rewrite !components_render by done.
  destruct (strip_common ps cs) as [up down] eqn:E.
  apply strip_common_spec in E as (pre & -> & -> & Hiff). rewrite <-Hiff.
  apply Forall_app in Hcs as [_ Hdown]. destruct up as [|u up].
  - split; [done|]. intros _. destruct down as [|c cs]; [done|].
    destruct (downs_joined_inside c cs) as (H1 & H2 & H3); [done|]. cbn [map app].
    rewrite H2, H3. rewrite (bool_decide_eq_false_2 (_ = "..")) by done. by rewrite orb_true_r.
  - destruct (ups_joined_escape up u down) as (H1 & [H2|H2]); rewrite ?H2.
    + by rewrite (bool_decide_eq_false_2 (".." = "")), (bool_decide_eq_true_2 (".." = "..")).
    + rewrite (bool_decide_eq_false_2 (_ = "")) by done. cbn. rewrite andb_false_r. done.
Qed.

(** Two canonical paths conflict exactly when one is the other or an ancestor
    of it. *)
Lemma paths_conflict_iff ps cs :
  Forall component_ok ps → Forall component_ok cs →
  workspacePathsConflict (render ps) (render cs) = true ↔ ps `prefix_of` cs ∨ cs `prefix_of` ps.
Proof.
  intros ??. unfold workspacePathsConflict. rewrite orb_true_iff. by rewrite !path_contains_iff.
Qed.

Lemma workspacePathsConflict_comm l r : workspacePathsConflict l r = workspacePathsConflict r l.
Proof. apply orb_comm. Qed.
