(* ===== verification/Sql.v ===== *)
(** * Tables in row order

    The legacy control plane reads some tables in the order of their rows, so
    its tables are lists; this file has the statements it uses on them and
    their lemmas. *)
From S2P Require Import Prelude.

(** [SELECT * FROM t WHERE p] *)
Definition select_where {A} (p : A → bool) (t : list A) : list A := List.filter p t.

(** [UPDATE t SET .. WHERE p] *)
Definition update_where {A} (p : A → bool) (f : A → A) (t : list A) : list A :=
  map (λ r, if p r then f r else r) t.

(** The number of rows an [UPDATE .. WHERE p] reports as changed, and
    [SELECT count( * )]. *)
Definition count_where {A} (p : A → bool) (t : list A) : nat := length (select_where p t).

#[global] Arguments count_where : simpl never.
#[global] Arguments select_where : simpl never.
#[global] Arguments update_where : simpl never.

Section sql.
Context {A : Type}.
Implicit Types (p q : A → bool) (t : list A) (r : A).

Lemma elem_of_select p t r : r ∈ select_where p t ↔ r ∈ t ∧ p r = true.
Proof. unfold select_where. rewrite !list_elem_of_In. apply filter_In. Qed.

Lemma elem_of_update p f t r :
  r ∈ update_where p f t ↔ ∃ r', r' ∈ t ∧ r = if p r' then f r' else r'.
Proof.
  unfold update_where. rewrite list_elem_of_In, in_map_iff.
  setoid_rewrite list_elem_of_In. naive_solver.
Qed.

Lemma count_where_0 p t : count_where p t = 0 ↔ ∀ r, r ∈ t → p r = false.
Proof.
  unfold count_where. rewrite length_zero_iff_nil. split.
  - intros Hnil r Hr. destruct (p r) eqn:Hp; [|done]. exfalso.
    assert (r ∈ select_where p t) as Hin by (by apply elem_of_select).
    rewrite Hnil in Hin. by apply not_elem_of_nil in Hin.
  - intros Hall. destruct (select_where p t) as [|r l] eqn:E; [done|].
    assert (r ∈ select_where p t) as [Hr Hp]%elem_of_select by (rewrite E; left).
    by rewrite Hall in Hp.
Qed.

Lemma count_where_pos p t r : r ∈ t → p r = true → 1 ≤ count_where p t.
Proof.
  intros Hr Hp. destruct (count_where p t) eqn:E; [|lia].
  rewrite count_where_0 in E. by rewrite E in Hp.
Qed.

Lemma count_where_app p t1 t2 : count_where p (t1 ++ t2) = count_where p t1 + count_where p t2.
Proof. unfold count_where, select_where. by rewrite List.filter_app, length_app. Qed.

Lemma count_where_nil p : count_where p [] = 0.
Proof. done. Qed.

Lemma count_where_cons p r t : count_where p (r :: t) = (if p r then 1 else 0) + count_where p t.
Proof. unfold count_where, select_where. cbn. by destruct (p r). Qed.

Lemma update_where_cons p f r t :
  update_where p f (r :: t) = (if p r then f r else r) :: update_where p f t.
Proof. done. Qed.

Lemma count_where_update_le q p f t :
  (∀ r, r ∈ t → p r = true → q (f r) = true → q r = true) →
  count_where q (update_where p f t) ≤ count_where q t.
Proof.
  intros Hq. induction t as [|r t IH]; [done|].
  rewrite update_where_cons, !count_where_cons.
  assert (count_where q (update_where p f t) ≤ count_where q t) as IH'.
  { apply IH. intros r' Hr'. apply Hq. by right. }
  specialize (Hq r (list_elem_of_here _ _)).
  destruct (p r) eqn:Hp.
  - destruct (q (f r)) eqn:Hqf; [rewrite (Hq eq_refl eq_refl)|destruct (q r)]; lia.
  - destruct (q r); lia.
Qed.

Lemma count_where_update_ge q p f t :
  (∀ r, r ∈ t → p r = true → q r = true → q (f r) = true) →
  count_where q t ≤ count_where q (update_where p f t).
Proof.
  intros Hq. induction t as [|r t IH]; [done|]. rewrite update_where_cons, !count_where_cons.
  assert (count_where q t ≤ count_where q (update_where p f t)) as IH'.
  { apply IH. intros r' Hr'. apply Hq. by right. }
  specialize (Hq r (list_elem_of_here _ _)).
  destruct (p r); [|lia]. destruct (q r); [rewrite Hq by done|]; lia.
Qed.

(** How an [UPDATE] moves a count: rows it does not touch keep their part. *)
Lemma count_where_split q p t :
  count_where q t = count_where (λ r, negb (p r) && q r) t + count_where (λ r, p r && q r) t.
Proof.
  induction t as [|r t IH]; [done|]. rewrite !count_where_cons, IH.
  destruct (p r), (q r); cbn; lia.
Qed.

Lemma count_where_update q p f t :
  count_where q (update_where p f t) =
  count_where (λ r, negb (p r) && q r) t + count_where (λ r, p r && q (f r)) t.
Proof.
  induction t as [|r t IH]; [done|]. rewrite update_where_cons, !count_where_cons, IH.
  destruct (p r); cbn; [destruct (q (f r))|destruct (q r)]; lia.
Qed.

Lemma count_where_mono p q t :
  (∀ r, r ∈ t → p r = true → q r = true) → count_where p t ≤ count_where q t.
Proof.
  intros Hpq. induction t as [|r t IH]; [done|]. rewrite !count_where_cons.
  assert (count_where p t ≤ count_where q t) by (apply IH; intros; apply Hpq; [by right|done]).
  specialize (Hpq r (list_elem_of_here _ _)). destruct (p r); [rewrite Hpq by done|]; lia.
Qed.

Lemma update_where_key {K} (key : A → K) p f t :
  (∀ r, key (f r) = key r) → map key (update_where p f t) = map key t.
Proof.
  intros Hk. unfold update_where. rewrite map_map. apply map_ext. intros r.
  by destruct (p r).
Qed.

Lemma update_where_none p f t : count_where p t = 0 → update_where p f t = t.
Proof.
  rewrite count_where_0. intros Hp. induction t as [|r t IH]; [done|].
  rewrite update_where_cons, Hp by (by left). f_equal. apply IH. intros r' Hr'. apply Hp. by right.
Qed.

Lemma Forall_update (P : A → Prop) p f t :
  (∀ r, r ∈ t → p r = true → P r → P (f r)) → Forall P t → Forall P (update_where p f t).
Proof.
  intros Hf Ht. induction Ht as [|r t Hr Ht IH]; [done|]. rewrite update_where_cons.
  constructor.
  - destruct (p r) eqn:Hp; [|done]. apply Hf; [left|done..].
  - apply IH. intros r' Hr'. apply Hf. by right.
Qed.

(** Rows with a unique key are determined by it. *)
Lemma unique_key {K} (key : A → K) t r1 r2 :
  NoDup (map key t) → r1 ∈ t → r2 ∈ t → key r1 = key r2 → r1 = r2.
Proof.
  induction t as [|r t IH]; cbn; [by intros _ ?%not_elem_of_nil|].
  intros [Hnot Hnd]%list.NoDup_cons Hr1 Hr2 Hk.
  assert (∀ r', r' ∈ t → key r' ∈ map key t) as Hin.
  { intros r' Hr'. apply list_elem_of_In, in_map. by apply list_elem_of_In. }
  apply elem_of_cons in Hr1 as [->|Hr1]; apply elem_of_cons in Hr2 as [->|Hr2]; try done.
  - destruct Hnot. rewrite Hk. auto.
  - destruct Hnot. rewrite <-Hk. auto.
  - by apply IH.
Qed.

(** With a unique key, [WHERE id = k] touches at most one row. *)
Lemma count_where_key {K} `{EqDecision K} (key : A → K) (k : K) p t :
  NoDup (map key t) → (∀ r, p r = true → key r = k) → count_where p t ≤ 1.
Proof.
  intros Hnd Hp. induction t as [|r t IH]; [unfold count_where, select_where; cbn; lia|].
  rewrite count_where_cons. cbn in Hnd. apply list.NoDup_cons in Hnd as [Hnot Hnd]. destruct (p r) eqn:Hr; [|auto].
  enough (count_where p t = 0) by lia. apply count_where_0. intros r' Hr'.
  destruct (p r') eqn:Hp'; [|done]. destruct Hnot. rewrite (Hp r Hr), <-(Hp r' Hp').
  apply list_elem_of_In, in_map. by apply list_elem_of_In.
Qed.

(** [WHERE id = key row] changes the row itself and no other. *)
Lemma update_by_key_count {K} `{EqDecision K} (key : A → K) q f t row :
  NoDup (map key t) → row ∈ t →
  count_where q (update_where (λ r, bool_decide (key r = key row)) f t) + (if q row then 1 else 0) =
  count_where q t + (if q (f row) then 1 else 0).
Proof.
  induction t as [|r t IH]; [by intros _ ?%not_elem_of_nil|].
  cbn. intros [Hnot Hnd]%list.NoDup_cons [->|Hrow]%elem_of_cons;
    rewrite update_where_cons, !count_where_cons.
  - rewrite bool_decide_eq_true_2 by done. rewrite update_where_none; [lia|].
    apply count_where_0. intros r' Hr'. apply bool_decide_eq_false. intros Hk. destruct Hnot.
    rewrite <-Hk. apply list_elem_of_In, in_map. by apply list_elem_of_In.
  - specialize (IH Hnd Hrow). rewrite bool_decide_eq_false_2; [lia|]. intros Hk. destruct Hnot.
    rewrite Hk. apply list_elem_of_In, in_map. by apply list_elem_of_In.
Qed.

Lemma update_by_key_other {K} `{EqDecision K} (key : A → K) f t (k : K) r :
  r ∈ t → key r ≠ k → r ∈ update_where (λ r, bool_decide (key r = k)) f t.
Proof. intros Hr Hk. apply elem_of_update. exists r. by rewrite bool_decide_eq_false_2. Qed.

Lemma elem_of_snoc (x y : A) t : x ∈ t ++ [y] ↔ x ∈ t ∨ x = y.
Proof. by rewrite elem_of_app, list_elem_of_singleton. Qed.

Lemma find_elem p t r : List.find p t = Some r → r ∈ t ∧ p r = true.
Proof. intros [H1 H2]%find_some. by rewrite list_elem_of_In. Qed.

Lemma find_none_elem p t : List.find p t = None ↔ ∀ r, r ∈ t → p r = false.
Proof.
  split.
  - intros Hn r Hr. by apply (find_none _ _ Hn), list_elem_of_In.
  - intros Hall. destruct (List.find p t) as [r|] eqn:E; [|done].
    apply find_elem in E as [Hr Hp]. by rewrite Hall in Hp.
Qed.

(** The first row of a predicate an update does not change. *)
Lemma find_update q p f t :
  (∀ r, q (f r) = q r) →
  List.find q (update_where p f t) = (λ r, if p r then f r else r) <$> List.find q t.
Proof.
  intros Hq. induction t as [|r t IH]; [done|]. rewrite update_where_cons. cbn.
  assert (q (if p r then f r else r) = q r) as -> by (destruct (p r); auto).
  by destruct (q r).
Qed.

(** The row of a unique key is the first one of that key. *)
Lemma find_by_key {K} `{EqDecision K} (key : A → K) t r :
  NoDup (map key t) → r ∈ t → List.find (λ r', bool_decide (key r' = key r)) t = Some r.
Proof.
  intros Hnd Hr. destruct (List.find _ t) as [r'|] eqn:E.
  - apply find_elem in E as [Hr' Hk%bool_decide_eq_true]. f_equal. by apply (unique_key key t).
  - rewrite find_none_elem in E. specialize (E r Hr). by apply bool_decide_eq_false in E.
Qed.

Lemma existsb_count p t : existsb p t = negb (bool_decide (count_where p t = 0)).
Proof.
  induction t as [|r t IH]; [done|]. rewrite count_where_cons. cbn. destruct (p r); [|done].
  by rewrite bool_decide_eq_false_2 by lia.
Qed.
End sql.

(** [for (const x of xs) body(x)] inside a transaction. *)
Fixpoint tx_for {S E A} (xs : list A) (body : A → txM S E unit) : txM S E unit :=
  match xs with
  | [] => tx_ret tt
  | x :: xs' => tx_bind (body x) (λ _, tx_for xs' body)
  end.

Section tx_for.
Context {S E A : Type}.
Implicit Types (xs : list A) (body : A → txM S E unit).

(** A loop keeps an invariant [I rest s] of what is left to do and the store. *)
Lemma tx_for_inv (I : list A → S → Prop) xs body s s' :
  (∀ x xs s s', I (x :: xs) s → body x s = Ok (tt, s') → I xs s') →
  I xs s → tx_for xs body s = Ok (tt, s') → I [] s'.
Proof.
  intros Hstep. revert s. induction xs as [|x xs IH]; intros s HI Hrun; cbn in Hrun; tx_inv; [done|].
  destruct x0. eauto.
Qed.
End tx_for.
