(* ===== verification/WorkspaceLease.v ===== *)
(** * Exclusive workspace leases

    Models [src/server/legacy-control-plane/workspace-lease-store.ts]: the table
    [workspace_leases], the in-memory map [activeLeaseByOwner] of the process,
    and every operation of the store; [lease_run] runs a sequence of them. *)
From S2P Require Import Prelude Json JsString Path Sql.

Module OwnerKind.
Inductive t := conversation | planner | thread_job.

#[global] Instance eq_dec : EqDecision t.
Proof. solve_decision. Defined.

Definition to_string (k : t) : string :=
  match k with
  | conversation => "conversation"
  | planner => "planner"
  | thread_job => "thread_job"
  end.
End OwnerKind.

Module LeaseStatus.
Inductive t := active | released.

#[global] Instance eq_dec : EqDecision t.
Proof. solve_decision. Defined.
End LeaseStatus.

(** A row of [workspace_leases]. *)
Module WorkspaceLease.
Record t := mk {
  id : string;
  canonicalPath : string;
  ownerKind : OwnerKind.t;
  ownerId : string;
  runId : option string;
  bootId : string;
  status : LeaseStatus.t;
  leaseExpiresAt : Z;
  createdAt : Z;
  releasedAt : option Z
}.

Definition release (now : Z) (r : t) : t :=
  mk (id r) (canonicalPath r) (ownerKind r) (ownerId r) (runId r) (bootId r)
    LeaseStatus.released (leaseExpiresAt r) (createdAt r) (Some now).

Definition reassign (path : string) (run : option string) (boot : string) (expires : Z) (r : t) : t :=
  mk (id r) path (ownerKind r) (ownerId r) run boot (status r) expires (createdAt r) (releasedAt r).

Definition extend (boot : string) (expires : Z) (r : t) : t :=
  reassign (canonicalPath r) (runId r) boot expires r.
End WorkspaceLease.

Record WorkspaceLeaseOccupant := mkOccupant {
  oc_leaseId : string;
  oc_ownerKind : OwnerKind.t;
  oc_ownerId : string;
  oc_runId : option string;
  oc_canonicalPath : string
}.

Record AcquireWorkspaceLeaseInput := mkAcquire {
  aq_workspacePath : string;
  aq_ownerKind : OwnerKind.t;
  aq_ownerId : string;
  aq_runId : option string
}.

Record AcquireWorkspaceLeaseResult := mkAcquired {
  ar_leaseId : string;
  ar_canonicalPath : string
}.

(** The table and the memory of the process: the boot id of the process and its
    map from owners to the lease they acquired last. *)
Record lease_state := mkLeaseState {
  leases : list WorkspaceLease.t;
  activeLeaseByOwner : gmap string string;
  boot : string
}.

Definition set_leases (t : list WorkspaceLease.t) (s : lease_state) : lease_state :=
  mkLeaseState t (activeLeaseByOwner s) (boot s).

Definition ownerKey (kind : OwnerKind.t) (ownerId : string) : string :=
  OwnerKind.to_string kind +:+ ":" +:+ ownerId.

Definition lease_active (r : WorkspaceLease.t) : bool :=
  bool_decide (WorkspaceLease.status r = LeaseStatus.active).

Definition owned_by (kind : OwnerKind.t) (ownerId : string) (r : WorkspaceLease.t) : bool :=
  bool_decide (WorkspaceLease.ownerKind r = kind) && bool_decide (WorkspaceLease.ownerId r = ownerId).

Definition has_id (leaseId : string) (r : WorkspaceLease.t) : bool :=
  bool_decide (WorkspaceLease.id r = leaseId).

Definition parseActiveLeaseRows (rows : list WorkspaceLease.t) : list WorkspaceLeaseOccupant :=
  map (λ r, mkOccupant (WorkspaceLease.id r) (WorkspaceLease.ownerKind r)
              (WorkspaceLease.ownerId r) (WorkspaceLease.runId r) (WorkspaceLease.canonicalPath r))
    rows.

Definition excluded (excludeOwner : option (OwnerKind.t * string)) (o : WorkspaceLeaseOccupant) : bool :=
  match excludeOwner with
  | Some (kind, ownerId) =>
      bool_decide (oc_ownerKind o = kind) && bool_decide (oc_ownerId o = ownerId)
  | None => false
  end.

Definition findConflictingOccupant (canonicalPath : string)
    (activeRows : list WorkspaceLeaseOccupant) (excludeOwner : option (OwnerKind.t * string)) :
    option WorkspaceLeaseOccupant :=
  List.find (λ o, negb (excluded excludeOwner o) &&
                  workspacePathsConflict canonicalPath (oc_canonicalPath o)) activeRows.

Definition stale_at (now : Z) (r : WorkspaceLease.t) : bool :=
  lease_active r && (WorkspaceLease.leaseExpiresAt r <=? now)%Z.

Definition cleanStaleWorkspaceLeasesTx (now : Z) (t : list WorkspaceLease.t) : list WorkspaceLease.t :=
  update_where (stale_at now) (WorkspaceLease.release now) t.

Definition listActiveLeaseRowsTx (t : list WorkspaceLease.t) : list WorkspaceLeaseOccupant :=
  parseActiveLeaseRows (select_where lease_active t).

Section store.
Context `{FileSystem} (ttl : Z).

Definition acquireWorkspaceLease (input : AcquireWorkspaceLeaseInput) (leaseId : string) (now : Z)
    (s : lease_state) : result string (option AcquireWorkspaceLeaseResult) * lease_state :=
  match normalizeWorkspaceLeasePath (aq_workspacePath input) with
  | Err e => (Err e, s)
  | Ok canonicalPath =>
      let expires := (now + ttl)%Z in
      let cleaned := cleanStaleWorkspaceLeasesTx now (leases s) in
      let activeRows := listActiveLeaseRowsTx cleaned in
      match findConflictingOccupant canonicalPath activeRows
              (Some (aq_ownerKind input, aq_ownerId input)) with
      | Some _ => (Ok None, set_leases cleaned s)
      | None =>
          match List.find (λ o, bool_decide (oc_ownerKind o = aq_ownerKind input) &&
                                bool_decide (oc_ownerId o = aq_ownerId input)) activeRows with
          | Some existing =>
              let id := oc_leaseId existing in
              (Ok (Some (mkAcquired id canonicalPath)),
               mkLeaseState
                 (update_where (λ r, has_id id r && lease_active r)
                    (WorkspaceLease.reassign canonicalPath (aq_runId input) (boot s) expires) cleaned)
                 (<[ownerKey (aq_ownerKind input) (aq_ownerId input) := id]> (activeLeaseByOwner s))
                 (boot s))
          | None =>
              if existsb (has_id leaseId) cleaned then (Err "SQLITE_CONSTRAINT_PRIMARYKEY", s)
              else
                (Ok (Some (mkAcquired leaseId canonicalPath)),
                 mkLeaseState
                   (cleaned ++
                      [WorkspaceLease.mk leaseId canonicalPath (aq_ownerKind input)
                         (aq_ownerId input) (aq_runId input) (boot s) LeaseStatus.active expires
                         now None])
                   (<[ownerKey (aq_ownerKind input) (aq_ownerId input) := leaseId]>
                      (activeLeaseByOwner s))
                   (boot s))
          end
      end
  end.

Definition refreshable (leaseId bootId : string) (now : Z) (r : WorkspaceLease.t) : bool :=
  has_id leaseId r && lease_active r && bool_decide (WorkspaceLease.bootId r = bootId) &&
  (now <? WorkspaceLease.leaseExpiresAt r)%Z.

Definition refreshWorkspaceLease (leaseId : string) (now : Z) (s : lease_state) : bool * lease_state :=
  let p := refreshable leaseId (boot s) now in
  (bool_decide (count_where p (leases s) = 1),
   set_leases (update_where p (WorkspaceLease.extend (boot s) (now + ttl)) (leases s)) s).

Definition refreshWorkspaceLeaseForOwner (kind : OwnerKind.t) (ownerId : string) (now : Z)
    (s : lease_state) : bool * lease_state :=
  match activeLeaseByOwner s !! ownerKey kind ownerId with
  | None => (false, s)
  | Some leaseId => refreshWorkspaceLease leaseId now s
  end.

(** The second argument: [None] when the caller passed no run id, [Some r] for
    the run id [r] (or null) the lease must have. *)
Definition run_matches (expectedRunId : option (option string)) (r : WorkspaceLease.t) : bool :=
  match expectedRunId with
  | None => true
  | Some run => bool_decide (WorkspaceLease.runId r = run)
  end.

Definition releaseWorkspaceLease (leaseId : string) (expectedRunId : option (option string))
    (now : Z) (s : lease_state) : bool * lease_state :=
  match List.find (has_id leaseId) (leases s) with
  | None => (false, s)
  | Some row =>
      if negb (lease_active row) then (false, s)
      else if negb (run_matches expectedRunId row) then (false, s)
      else
        let p := λ r, has_id leaseId r && lease_active r && run_matches expectedRunId r in
        let updated := update_where p (WorkspaceLease.release now) (leases s) in
        if bool_decide (0 < count_where p (leases s)) then
          (true, mkLeaseState updated
                   (delete (ownerKey (WorkspaceLease.ownerKind row) (WorkspaceLease.ownerId row))
                      (activeLeaseByOwner s))
                   (boot s))
        else (false, set_leases updated s)
  end.

(** The loop over the active rows of an owner. *)
Fixpoint release_rows (rows : list WorkspaceLease.t) (expectedRunId : option (option string))
    (now : Z) (released : bool) (s : lease_state) : bool * lease_state :=
  match rows with
  | [] => (released, s)
  | row :: rows' =>
      if run_matches expectedRunId row then
        let '(ok, s') := releaseWorkspaceLease (WorkspaceLease.id row) expectedRunId now s in
        release_rows rows' expectedRunId now (ok || released) s'
      else release_rows rows' expectedRunId now released s
  end.

Definition releaseWorkspaceLeaseForOwner (kind : OwnerKind.t) (ownerId : string)
    (expectedRunId : option (option string)) (now : Z) (s : lease_state) : lease_state :=
  match activeLeaseByOwner s !! ownerKey kind ownerId with
  | Some leaseId => (releaseWorkspaceLease leaseId expectedRunId now s).2
  | None =>
      let rows := select_where (λ r, owned_by kind ownerId r && lease_active r) (leases s) in
      let '(released, s') := release_rows rows expectedRunId now false s in
      if released then
        mkLeaseState (leases s') (delete (ownerKey kind ownerId) (activeLeaseByOwner s')) (boot s')
      else s'
  end.

Definition releaseAllActiveWorkspaceLeases (now : Z) (s : lease_state) : lease_state :=
  let '(_, s') := release_rows (select_where lease_active (leases s)) None now false s in
  mkLeaseState (leases s') ∅ (boot s').

Definition findWorkspaceLeaseConflict (workspacePath : string)
    (excludeOwner : option (OwnerKind.t * string)) (now : Z) (s : lease_state) :
    result string (option WorkspaceLeaseOccupant) * lease_state :=
  match normalizeWorkspaceLeasePath workspacePath with
  | Err e => (Err e, s)
  | Ok canonicalPath =>
      let cleaned := cleanStaleWorkspaceLeasesTx now (leases s) in
      (Ok (findConflictingOccupant canonicalPath (listActiveLeaseRowsTx cleaned) excludeOwner),
       set_leases cleaned s)
  end.

Definition findWorkspaceLeaseConflictSnapshot (workspacePath : string)
    (excludeOwner : option (OwnerKind.t * string)) (now : Z) (s : lease_state) :
    result string (option WorkspaceLeaseOccupant) :=
  match normalizeWorkspaceLeasePath workspacePath with
  | Err e => Err e
  | Ok canonicalPath =>
      let rows := select_where (λ r, lease_active r && (now <? WorkspaceLease.leaseExpiresAt r)%Z)
                    (leases s) in
      Ok (findConflictingOccupant canonicalPath (parseActiveLeaseRows rows) excludeOwner)
  end.

Definition isWorkspaceLeaseActive (leaseId : string) (kind : OwnerKind.t) (ownerId : string)
    (workspacePath : string) (now : Z) (s : lease_state) : result string bool * lease_state :=
  match normalizeWorkspaceLeasePath workspacePath with
  | Err e => (Err e, s)
  | Ok canonicalPath =>
      let cleaned := cleanStaleWorkspaceLeasesTx now (leases s) in
      (Ok (existsb (λ o, bool_decide (oc_leaseId o = leaseId) && bool_decide (oc_ownerKind o = kind) &&
                         bool_decide (oc_ownerId o = ownerId) &&
                         bool_decide (oc_canonicalPath o = canonicalPath))
             (listActiveLeaseRowsTx cleaned)),
       set_leases cleaned s)
  end.

Definition other_boot (bootId : string) (r : WorkspaceLease.t) : bool :=
  lease_active r && negb (bool_decide (WorkspaceLease.bootId r = bootId)).

Definition reclaimStaleWorkspaceLeasesOnStartup (now : Z) (s : lease_state) : nat * lease_state :=
  let expired := count_where (stale_at now) (leases s) in
  let t := cleanStaleWorkspaceLeasesTx now (leases s) in
  let staleBoot := count_where (other_boot (boot s)) t in
  (expired + staleBoot,
   mkLeaseState (update_where (other_boot (boot s)) (WorkspaceLease.release now) t) ∅ (boot s)).

(** ** All operations *)

Inductive lease_op :=
| LAcquire (input : AcquireWorkspaceLeaseInput) (leaseId : string) (now : Z)
| LRefresh (leaseId : string) (now : Z)
| LRefreshForOwner (kind : OwnerKind.t) (ownerId : string) (now : Z)
| LRelease (leaseId : string) (expectedRunId : option (option string)) (now : Z)
| LReleaseForOwner (kind : OwnerKind.t) (ownerId : string) (expectedRunId : option (option string)) (now : Z)
| LReleaseAll (now : Z)
| LFindConflict (path : string) (excludeOwner : option (OwnerKind.t * string)) (now : Z)
| LIsActive (leaseId : string) (kind : OwnerKind.t) (ownerId : string) (path : string) (now : Z)
| LReclaim (now : Z)
| LRestart (bootId : string).

(** A restart keeps the table and loses the memory of the process. *)
Definition lease_exec (o : lease_op) (s : lease_state) : lease_state :=
  match o with
  | LAcquire i id now => (acquireWorkspaceLease i id now s).2
  | LRefresh id now => (refreshWorkspaceLease id now s).2
  | LRefreshForOwner k i now => (refreshWorkspaceLeaseForOwner k i now s).2
  | LRelease id run now => (releaseWorkspaceLease id run now s).2
  | LReleaseForOwner k i run now => releaseWorkspaceLeaseForOwner k i run now s
  | LReleaseAll now => releaseAllActiveWorkspaceLeases now s
  | LFindConflict p e now => (findWorkspaceLeaseConflict p e now s).2
  | LIsActive id k i p now => (isWorkspaceLeaseActive id k i p now s).2
  | LReclaim now => (reclaimStaleWorkspaceLeasesOnStartup now s).2
  | LRestart b => mkLeaseState (leases s) ∅ b
  end.

Definition lease_run (ops : list lease_op) (s : lease_state) : lease_state :=
  fold_left (λ s o, lease_exec o s) ops s.
End store.

(** ** What workspace leases guarantee

    Active leases exclude one another, an acquisition succeeds exactly when no
    live lease of another owner conflicts, a held lease survives what other
    owners do until it expires, and releasing for an owner leaves the owner
    without a lease. *)

(** ** Invariant *)

Definition row_owner (r : WorkspaceLease.t) : OwnerKind.t * string :=
  (WorkspaceLease.ownerKind r, WorkspaceLease.ownerId r).

Definition row_key (r : WorkspaceLease.t) : string :=
  ownerKey (WorkspaceLease.ownerKind r) (WorkspaceLease.ownerId r).

(** Two different active leases have different owners and disjoint paths. *)
Definition leases_exclusive (t : list WorkspaceLease.t) : Prop :=
  ∀ r1 r2, r1 ∈ t → r2 ∈ t → lease_active r1 = true → lease_active r2 = true →
    WorkspaceLease.id r1 ≠ WorkspaceLease.id r2 →
    row_owner r1 ≠ row_owner r2 ∧
    workspacePathsConflict (WorkspaceLease.canonicalPath r1) (WorkspaceLease.canonicalPath r2) = false.

Record lease_inv (s : lease_state) : Prop := {
  li_ids : NoDup (map WorkspaceLease.id (leases s));
  li_paths : ∀ r, r ∈ leases s → canonical (WorkspaceLease.canonicalPath r);
  li_exclusive : leases_exclusive (leases s);
  li_memory : ∀ key leaseId r, activeLeaseByOwner s !! key = Some leaseId →
    r ∈ leases s → lease_active r = true → row_key r = key → WorkspaceLease.id r = leaseId;
  li_recorded : ∀ key leaseId, activeLeaseByOwner s !! key = Some leaseId →
    ∃ r, r ∈ leases s ∧ WorkspaceLease.id r = leaseId ∧ row_key r = key
}.

Lemma ownerKey_inj k1 i1 k2 i2 : ownerKey k1 i1 = ownerKey k2 i2 → k1 = k2 ∧ i1 = i2.
Proof. unfold ownerKey. destruct k1, k2; cbn; intros H; simplify_eq; done. Qed.

Lemma row_key_owner r1 r2 : row_key r1 = row_key r2 ↔ row_owner r1 = row_owner r2.
Proof.
  unfold row_key, row_owner. split; [|by intros [= -> ->]].
  by intros [-> ->]%ownerKey_inj.
Qed.

Lemma owned_by_iff k i r : owned_by k i r = true ↔ row_owner r = (k, i).
Proof.
  unfold owned_by, row_owner. rewrite andb_true_iff, !bool_decide_eq_true. naive_solver.
Qed.

Lemma lease_active_iff r : lease_active r = true ↔ WorkspaceLease.status r = LeaseStatus.active.
Proof. apply bool_decide_eq_true. Qed.

Lemma has_id_iff i r : has_id i r = true ↔ WorkspaceLease.id r = i.
Proof. apply bool_decide_eq_true. Qed.

(** An update that keeps identity, owner and path and activates no row. *)
Definition tame (f : WorkspaceLease.t → WorkspaceLease.t) : Prop :=
  ∀ r, WorkspaceLease.id (f r) = WorkspaceLease.id r ∧ row_owner (f r) = row_owner r ∧
       WorkspaceLease.canonicalPath (f r) = WorkspaceLease.canonicalPath r ∧
       (lease_active (f r) = true → lease_active r = true).

Lemma tame_release now : tame (WorkspaceLease.release now).
Proof. intros r. split_and!; try done. Qed.

Lemma tame_extend b e : tame (WorkspaceLease.extend b e).
Proof. intros r. by split_and!. Qed.

Lemma memory_refl (m : gmap string string) : m ⊆ m.
Proof. reflexivity. Qed.

Lemma memory_delete k (m : gmap string string) : delete k m ⊆ m.
Proof. apply delete_subseteq. Qed.
#[export] Hint Resolve tame_release tame_extend memory_refl memory_delete : cp.

Lemma tame_row (p : WorkspaceLease.t → bool) f r :
  tame f →
  let r' := if p r then f r else r in
  WorkspaceLease.id r' = WorkspaceLease.id r ∧ row_owner r' = row_owner r ∧
  WorkspaceLease.canonicalPath r' = WorkspaceLease.canonicalPath r ∧
  (lease_active r' = true → lease_active r = true).
Proof. intros Hf. destruct (p r); [apply Hf|done]. Qed.

Lemma lease_inv_update s p f m b :
  tame f → m ⊆ activeLeaseByOwner s → lease_inv s →
  lease_inv (mkLeaseState (update_where p f (leases s)) m b).
Proof.
  intros Hf Hm [Hids Hpaths Hex Hmem Hrec]. split; cbn.
  - rewrite update_where_key; [done|]. intros r. apply (Hf r).
  - intros r (r' & Hr' & ->)%elem_of_update.
    destruct (tame_row p f r' Hf) as (_ & _ & -> & _). auto.
  - intros r1 r2 (q1 & Hq1 & ->)%elem_of_update (q2 & Hq2 & ->)%elem_of_update.
    destruct (tame_row p f q1 Hf) as (-> & -> & -> & ?).
    destruct (tame_row p f q2 Hf) as (-> & -> & -> & ?). intros. apply Hex; auto.
  - intros key id r Hkey (r' & Hr' & ->)%elem_of_update.
    destruct (tame_row p f r' Hf) as (-> & Ho & _ & Ha). intros Hact Hrk.
    apply row_key_owner in Ho. apply (Hmem key id r'); [|done|by apply Ha|congruence].
    by eapply lookup_weaken.
  - intros key id Hkey. destruct (Hrec key id) as (r & Hr & Hid & Hrk); [by eapply lookup_weaken|].
    exists (if p r then f r else r). rewrite elem_of_update.
    destruct (tame_row p f r Hf) as (Hid' & Ho & _). apply row_key_owner in Ho.
    split_and!; [by exists r|congruence..].
Qed.

Lemma lease_inv_clean s now m b :
  m ⊆ activeLeaseByOwner s → lease_inv s →
  lease_inv (mkLeaseState (cleanStaleWorkspaceLeasesTx now (leases s)) m b).
Proof. intros. apply lease_inv_update; eauto with cp. Qed.

(** What the conflict search says about the rows. *)
Lemma no_conflict_rows path t k i :
  findConflictingOccupant path (listActiveLeaseRowsTx t) (Some (k, i)) = None ↔
  ∀ r, r ∈ t → lease_active r = true → row_owner r ≠ (k, i) →
    workspacePathsConflict path (WorkspaceLease.canonicalPath r) = false.
Proof.
  unfold findConflictingOccupant, listActiveLeaseRowsTx, parseActiveLeaseRows.
  rewrite find_none_elem. setoid_rewrite list_elem_of_In. setoid_rewrite in_map_iff. split.
  - intros Hall r Hr Ha Ho.
    assert (In r (select_where lease_active t)) as Hsel
      by (apply list_elem_of_In, elem_of_select; by rewrite list_elem_of_In).
    specialize (Hall _ (ex_intro _ r (conj eq_refl Hsel))). cbn in Hall.
    apply andb_false_iff in Hall as [Hall|Hall]; [|done]. exfalso. apply Ho.
    apply negb_false_iff, andb_true_iff in Hall as [H1 H2]. unfold row_owner.
    apply bool_decide_eq_true in H1, H2. congruence.
  - intros Hall o (r & <- & Hr). apply list_elem_of_In, elem_of_select in Hr as [Hr Ha]. cbn.
    apply andb_false_iff. destruct (decide (row_owner r = (k, i))) as [Ho|Ho].
    + left. apply negb_false_iff, andb_true_iff. unfold row_owner in Ho. simplify_eq.
      by rewrite !bool_decide_eq_true.
    + right. apply Hall; try done. by apply list_elem_of_In.
Qed.

(** The lease the owner already has. *)
Lemma existing_row t k i :
  match List.find (λ o, bool_decide (oc_ownerKind o = k) && bool_decide (oc_ownerId o = i))
          (listActiveLeaseRowsTx t) with
  | Some o => ∃ r, r ∈ t ∧ lease_active r = true ∧ row_owner r = (k, i) ∧
                   oc_leaseId o = WorkspaceLease.id r
  | None => ∀ r, r ∈ t → lease_active r = true → row_owner r ≠ (k, i)
  end.
Proof.
  destruct (List.find _ _) as [o|] eqn:E.
  - apply find_elem in E as [Ho Hk]. unfold listActiveLeaseRowsTx, parseActiveLeaseRows in Ho.
    apply list_elem_of_In, in_map_iff in Ho as (r & <- & Hr).
    apply list_elem_of_In, elem_of_select in Hr as [Hr Ha].
    exists r. split_and!; try done. apply andb_true_iff in Hk as [H1 H2].
    apply bool_decide_eq_true in H1, H2. cbn in *. unfold row_owner. congruence.
  - intros r Hr Ha Ho. rewrite find_none_elem in E. unfold row_owner in Ho. simplify_eq.
    assert (mkOccupant (WorkspaceLease.id r) (WorkspaceLease.ownerKind r) (WorkspaceLease.ownerId r)
              (WorkspaceLease.runId r) (WorkspaceLease.canonicalPath r) ∈ listActiveLeaseRowsTx t)
      as Hin.
    { apply list_elem_of_In, in_map_iff. exists r. split; [done|].
      apply list_elem_of_In, elem_of_select. done. }
    specialize (E _ Hin). cbn in E. by rewrite !bool_decide_eq_true_2 in E.
Qed.

(** Both ways of taking a lease on a cleaned table that has no conflict. *)
Lemma lease_inv_insert t m b leaseId path k i run expires now :
  lease_inv (mkLeaseState t m b) → canonical path → existsb (has_id leaseId) t = false →
  (∀ r, r ∈ t → lease_active r = true → row_owner r ≠ (k, i) ∧
     workspacePathsConflict path (WorkspaceLease.canonicalPath r) = false) →
  lease_inv (mkLeaseState
    (t ++ [WorkspaceLease.mk leaseId path k i run b LeaseStatus.active expires now None])
    (<[ownerKey k i := leaseId]> m) b).
Proof.
  intros [Hids Hpaths Hex Hmem Hrec] Hpath Hfresh Hfree. cbn in *.
  assert (∀ r, r ∈ t → WorkspaceLease.id r ≠ leaseId) as Hne.
  { intros r Hr <-. apply list_elem_of_In in Hr.
    assert (existsb (has_id (WorkspaceLease.id r)) t = true); [|congruence].
    apply existsb_exists. exists r. by rewrite has_id_iff. }
  split; cbn.
  - rewrite map_app. cbn. apply list.NoDup_app. split_and!; [done| |apply list.NoDup_singleton].
    intros x Hx Hx'. apply list_elem_of_singleton in Hx' as ->.
    apply list_elem_of_In, in_map_iff in Hx as (r & Hr & Hin). apply (Hne r); [|done].
    by apply list_elem_of_In.
  - intros r [Hr| ->]%elem_of_snoc; auto.
  - intros r1 r2 [Hr1| ->]%elem_of_snoc
      [Hr2| ->]%elem_of_snoc Ha1 Ha2 Hid; cbn; [by apply Hex| | |done].
    + destruct (Hfree r1 Hr1 Ha1) as [Ho Hc]. rewrite workspacePathsConflict_comm. done.
    + destruct (Hfree r2 Hr2 Ha2) as [Ho Hc]. split; [|done]. unfold row_owner at 1. cbn. congruence.
  - intros key id r Hkey [Hr| ->]%elem_of_snoc Ha <-.
    + rewrite lookup_insert_ne in Hkey; [by apply (Hmem (row_key r))|].
      destruct (Hfree r Hr Ha) as [Ho _]. unfold row_key. intros [-> ->]%ownerKey_inj. by apply Ho.
    + unfold row_key in Hkey. cbn in Hkey. rewrite lookup_insert_eq in Hkey. by simplify_eq.
  - setoid_rewrite elem_of_snoc.
    intros key id [[<- <-]|[_ (r & ? & ? & ?)%Hrec]]%lookup_insert_Some; eauto 10.
Qed.

Lemma lease_inv_reassign t m b e path k i run expires :
  lease_inv (mkLeaseState t m b) → canonical path →
  e ∈ t → lease_active e = true → row_owner e = (k, i) →
  (∀ r, r ∈ t → lease_active r = true → row_owner r ≠ (k, i) →
     workspacePathsConflict path (WorkspaceLease.canonicalPath r) = false) →
  lease_inv (mkLeaseState
    (update_where (λ r, has_id (WorkspaceLease.id e) r && lease_active r)
       (WorkspaceLease.reassign path run b expires) t)
    (<[ownerKey k i := WorkspaceLease.id e]> m) b).
Proof.
  intros [Hids Hpaths Hex Hmem Hrec] Hpath He Hae Hoe Hfree. cbn in *.
  assert (∀ r, r ∈ t → has_id (WorkspaceLease.id e) r && lease_active r = true → r = e) as Huniq.
  { intros r Hr [Hid%has_id_iff _]%andb_true_iff.
    by apply (unique_key WorkspaceLease.id t). }
  assert (∀ r, r ∈ t → lease_active r = true → r ≠ e →
            has_id (WorkspaceLease.id e) r && lease_active r = false ∧ row_owner r ≠ (k, i)) as Hother.
  { intros r Hr Ha Hne. split.
    - destruct (has_id _ r && _) eqn:E; [|done]. by destruct Hne; apply Huniq.
    - intros Ho. destruct Hne. apply (unique_key WorkspaceLease.id t); try done.
      destruct (decide (WorkspaceLease.id r = WorkspaceLease.id e)) as [|Hid]; [done|].
      destruct (Hex r e) as [Hown _]; try done. congruence. }
  split; cbn.
  - by rewrite update_where_key.
  - intros r (r' & Hr' & ->)%elem_of_update. case_match; [done|auto].
  - intros r1 r2 (q1 & Hq1 & ->)%elem_of_update (q2 & Hq2 & ->)%elem_of_update.
    destruct (has_id _ q1 && _) eqn:E1; [apply Huniq in E1 as ->; [|done]|];
      destruct (has_id _ q2 && _) eqn:E2; [apply Huniq in E2 as ->; [|done]| | apply Huniq in E2 as ->; [|done]|];
      intros Ha1 Ha2 Hid; cbn in *; try done.
    + destruct (Hother q2) as [_ Ho]; [done..|congruence|].
      split; [|by apply Hfree]. rewrite <-Hoe in Ho. by intros ?.
    + destruct (Hother q1) as [_ Ho]; [done..|congruence|].
      split; [by rewrite <-Hoe in Ho|]. rewrite workspacePathsConflict_comm. by apply Hfree.
    + by apply Hex.
  - intros key id r Hkey (r' & Hr' & ->)%elem_of_update Ha <-.
    destruct (has_id _ r' && _) eqn:E.
    + apply Huniq in E as ->; [|done]. unfold row_owner in Hoe. simplify_eq.
      unfold row_key in Hkey. cbn in *. rewrite lookup_insert_eq in Hkey. by simplify_eq.
    + destruct (Hother r' Hr' Ha) as [_ Ho].
      { intros ->. by rewrite Hae, andb_true_r, (proj2 (has_id_iff _ _)) in E. }
      rewrite lookup_insert_ne in Hkey; [by apply (Hmem (row_key r'))|].
      unfold row_key. intros [-> ->]%ownerKey_inj. by apply Ho.
  - assert (∀ r, r ∈ t → ∃ r', r' ∈ update_where (λ r, has_id (WorkspaceLease.id e) r && lease_active r)
              (WorkspaceLease.reassign path run b expires) t ∧
              WorkspaceLease.id r' = WorkspaceLease.id r ∧ row_key r' = row_key r) as Hup.
    { intros r Hr. eexists. rewrite elem_of_update. split; [by exists r|]. by case_match. }
    intros key id [[<- <-]|[_ (r & Hr & Hid & Hrk)%Hrec]]%lookup_insert_Some.
    + destruct (Hup e He) as (r' & ? & ? & Hk). exists r'. split_and!; try done.
      unfold row_owner in Hoe. simplify_eq. exact Hk.
    + destruct (Hup r Hr) as (r' & ? & ? & ?). exists r'. split_and!; congruence.
Qed.

Section theorems.
Context `{!FileSystem, !FileSystemOk} (ttl : Z).

Lemma normalize_canonical p q : normalizeWorkspaceLeasePath p = Ok q → canonical q.
Proof. apply canonicalizePath_canonical. Qed.

Lemma acquire_inv input leaseId now s :
  lease_inv s → lease_inv (acquireWorkspaceLease ttl input leaseId now s).2.
Proof.
  intros Hinv. unfold acquireWorkspaceLease.
  destruct (normalizeWorkspaceLeasePath _) as [path|e] eqn:Hp; [|done].
  apply normalize_canonical in Hp. cbv zeta.
  pose proof (lease_inv_clean s now (activeLeaseByOwner s) (boot s) (reflexivity _) Hinv) as Hc.
  destruct (findConflictingOccupant _ _ _) eqn:Hf; [exact Hc|].
  rewrite no_conflict_rows in Hf.
  pose proof (existing_row (cleanStaleWorkspaceLeasesTx now (leases s))
                (aq_ownerKind input) (aq_ownerId input)) as Hex.
  destruct (List.find _ _) as [o|].
  - destruct Hex as (e & He & Hae & Hoe & ->). by apply lease_inv_reassign.
  - destruct (existsb _ _) eqn:Hfresh; [done|]. apply lease_inv_insert; try done.
    intros r Hr Ha. split; auto.
Qed.

Lemma release_inv leaseId run now s :
  lease_inv s → lease_inv (releaseWorkspaceLease leaseId run now s).2.
Proof.
  intros Hinv. unfold releaseWorkspaceLease.
  repeat case_match; cbn; try done; apply lease_inv_update; eauto with cp.
Qed.

Lemma release_rows_inv rows run now b s :
  lease_inv s → lease_inv (release_rows rows run now b s).2.
Proof.
  revert b s. induction rows as [|r rows IH]; intros b s Hinv; cbn; [done|].
  destruct (run_matches run r); [|by apply IH].
  pose proof (release_inv (WorkspaceLease.id r) run now s Hinv) as Hr.
  destruct (releaseWorkspaceLease _ _ _ _) as [ok s']. by apply IH.
Qed.

Lemma lease_inv_forget s m b : m ⊆ activeLeaseByOwner s → lease_inv s → lease_inv (mkLeaseState (leases s) m b).
Proof.
  intros Hm [Hids Hpaths Hex Hmem Hrec]. split; cbn; try done.
  - intros key id r Hkey. apply Hmem. by eapply lookup_weaken.
  - intros key id Hkey. apply Hrec. by eapply lookup_weaken.
Qed.

Lemma lease_exec_inv o s : lease_inv s → lease_inv (lease_exec ttl o s).
Proof.
  intros Hinv. destruct o; cbn.
  - by apply acquire_inv.
  - apply lease_inv_update; eauto with cp.
  - unfold refreshWorkspaceLeaseForOwner. case_match; [|done]. apply lease_inv_update; eauto with cp.
  - by apply release_inv.
  - unfold releaseWorkspaceLeaseForOwner. case_match; [by apply release_inv|].
    pose proof (release_rows_inv (select_where (λ r, owned_by kind ownerId r && lease_active r)
                                    (leases s)) expectedRunId now false s Hinv) as Hr.
    destruct (release_rows _ _ _ _ _) as [b s']. cbn in Hr.
    destruct b; [|done]. apply lease_inv_forget; [apply delete_subseteq|done].
  - unfold releaseAllActiveWorkspaceLeases.
    pose proof (release_rows_inv (select_where lease_active (leases s)) None now false s Hinv) as Hr.
    destruct (release_rows _ _ _ _ _) as [b s']. apply lease_inv_forget; [apply map_empty_subseteq|done].
  - unfold findWorkspaceLeaseConflict. case_match; [|done]. by apply lease_inv_clean.
  - unfold isWorkspaceLeaseActive. case_match; [|done]. by apply lease_inv_clean.
  - unfold reclaimStaleWorkspaceLeasesOnStartup. cbn.
    apply (lease_inv_update (mkLeaseState (cleanStaleWorkspaceLeasesTx now (leases s))
                               (activeLeaseByOwner s) (boot s)));
      [auto with cp|apply map_empty_subseteq|by apply lease_inv_clean].
  - apply lease_inv_forget; [apply map_empty_subseteq|done].
Qed.

Lemma lease_run_inv ops s : lease_inv s → lease_inv (lease_run ttl ops s).
Proof.
  revert s. induction ops as [|o ops IH]; intros s Hs; [done|]. by apply IH, lease_exec_inv.
Qed.

(** C7: No two owners hold overlapping workspaces: after any sequence of lease operations two
    active leases belong to different owners, and neither directory contains the other. *)
Theorem workspace_leases_exclusive ops s :
  lease_inv s →
  let t := leases (lease_run ttl ops s) in
  ∀ r1 r2, r1 ∈ t → r2 ∈ t → lease_active r1 = true → lease_active r2 = true →
    WorkspaceLease.id r1 ≠ WorkspaceLease.id r2 →
    row_owner r1 ≠ row_owner r2 ∧
    ∃ cs1 cs2, Forall component_ok cs1 ∧ Forall component_ok cs2 ∧
      WorkspaceLease.canonicalPath r1 = render cs1 ∧ WorkspaceLease.canonicalPath r2 = render cs2 ∧
      ¬ cs1 `prefix_of` cs2 ∧ ¬ cs2 `prefix_of` cs1.
Proof.
  intros Hs t r1 r2 H1 H2 Ha1 Ha2 Hid.
  destruct (lease_run_inv ops s Hs) as [_ Hpaths Hex _ _].
  destruct (Hex r1 r2 H1 H2 Ha1 Ha2 Hid) as [Ho Hc]. split; [done|].
  destruct (Hpaths r1 H1) as (cs1 & Hcs1 & E1). destruct (Hpaths r2 H2) as (cs2 & Hcs2 & E2).
  exists cs1, cs2. split_and!; try done; rewrite E1, E2 in Hc;
    intros Hp; apply not_true_iff_false in Hc; apply Hc; apply paths_conflict_iff; auto.
Qed.

(** The rows that stand in the way of [acquireWorkspaceLease] at [now]. *)
Definition live_conflict (path : string) (k : OwnerKind.t) (i : string) (now : Z)
    (t : list WorkspaceLease.t) : Prop :=
  ∃ r, r ∈ t ∧ lease_active r = true ∧ (now < WorkspaceLease.leaseExpiresAt r)%Z ∧
    row_owner r ≠ (k, i) ∧ workspacePathsConflict path (WorkspaceLease.canonicalPath r) = true.

Lemma elem_of_clean now t r :
  r ∈ cleanStaleWorkspaceLeasesTx now t ∧ lease_active r = true ↔
  r ∈ t ∧ lease_active r = true ∧ (now < WorkspaceLease.leaseExpiresAt r)%Z.
Proof.
  unfold cleanStaleWorkspaceLeasesTx. rewrite elem_of_update. split.
  - intros [(r' & Hr' & ->) Ha]. unfold stale_at in *. destruct (lease_active r') eqn:Hr; cbn in *.
    + destruct (_ <=? _)%Z eqn:E; [done|]. split_and!; [done..|lia].
    + by rewrite Hr in Ha.
  - intros (Hr & Ha & Ht). split; [|done]. exists r. split; [done|]. unfold stale_at.
    rewrite Ha. cbn. destruct (_ <=? _)%Z eqn:E; [lia|done].
Qed.

Lemma isActive_granted id k i path p t s r :
  normalizeWorkspaceLeasePath p = Ok path →
  r ∈ leases s → lease_active r = true → (t < WorkspaceLease.leaseExpiresAt r)%Z →
  WorkspaceLease.id r = id → row_owner r = (k, i) → WorkspaceLease.canonicalPath r = path →
  (isWorkspaceLeaseActive id k i p t s).1 = Ok true.
Proof.
  intros Hp Hr Ha Ht <- Ho <-. unfold row_owner in Ho. simplify_eq.
  unfold isWorkspaceLeaseActive. rewrite Hp. cbn. f_equal. apply existsb_exists.
  exists (mkOccupant (WorkspaceLease.id r) (WorkspaceLease.ownerKind r) (WorkspaceLease.ownerId r)
            (WorkspaceLease.runId r) (WorkspaceLease.canonicalPath r)).
  cbn. rewrite !bool_decide_eq_true_2 by done. split; [|done].
  apply in_map_iff. exists r. split; [done|]. apply list_elem_of_In, elem_of_select.
  by apply elem_of_clean.
Qed.

Lemma conflict_row path t k i o :
  findConflictingOccupant path (listActiveLeaseRowsTx t) (Some (k, i)) = Some o →
  ∃ r, r ∈ t ∧ lease_active r = true ∧ row_owner r ≠ (k, i) ∧
    workspacePathsConflict path (WorkspaceLease.canonicalPath r) = true.
Proof.
  intros [Ho [Hne Hc]%andb_true_iff]%find_elem.
  apply list_elem_of_In, in_map_iff in Ho as (r & <- & Hr).
  apply list_elem_of_In, elem_of_select in Hr as [Hr Ha]. exists r. split_and!; try done.
  unfold row_owner. intros [= <- <-]. cbn in Hne. by rewrite !bool_decide_eq_true_2 in Hne.
Qed.

Lemma existsb_clean id now t :
  existsb (has_id id) (cleanStaleWorkspaceLeasesTx now t) = existsb (has_id id) t.
Proof.
  induction t as [|r t IH]; [done|]. unfold cleanStaleWorkspaceLeasesTx in *.
  rewrite update_where_cons. cbn. rewrite IH. by destruct (stale_at now r).
Qed.

Lemma acquire_outcome input leaseId now s path :
  lease_inv s → normalizeWorkspaceLeasePath (aq_workspacePath input) = Ok path →
  existsb (has_id leaseId) (leases s) = false →
  let '(res, s') := acquireWorkspaceLease ttl input leaseId now s in
  match res with
  | Ok (Some a) =>
      ¬ live_conflict path (aq_ownerKind input) (aq_ownerId input) now (leases s) ∧
      ∀ t, (t < now + ttl)%Z →
        (isWorkspaceLeaseActive (ar_leaseId a) (aq_ownerKind input) (aq_ownerId input)
           (aq_workspacePath input) t s').1 = Ok true
  | Ok None =>
      live_conflict path (aq_ownerKind input) (aq_ownerId input) now (leases s) ∧
      leases s' = cleanStaleWorkspaceLeasesTx now (leases s)
  | Err _ => False
  end.
Proof.
  intros Hinv Hp Hfresh. unfold acquireWorkspaceLease. rewrite Hp. cbv zeta.
  destruct (findConflictingOccupant _ _ _) as [o|] eqn:Hf.
  - split; [|done]. apply conflict_row in Hf as (r & Hr & Ha & Ho & Hc).
    destruct (proj1 (elem_of_clean now (leases s) r)) as (? & ? & ?); [done|]. by exists r.
  - rewrite no_conflict_rows in Hf.
    assert (¬ live_conflict path (aq_ownerKind input) (aq_ownerId input) now (leases s)) as Hno.
    { intros (r & Hr & Ha & Ht & Ho & Hc).
      destruct (proj2 (elem_of_clean now (leases s) r)) as [Hr' _]; [done|].
      by rewrite (Hf r) in Hc. }
    pose proof (existing_row (cleanStaleWorkspaceLeasesTx now (leases s))
                  (aq_ownerKind input) (aq_ownerId input)) as Hex.
    destruct (List.find _ _) as [o|].
    + destruct Hex as (e & He & Hae & Hoe & ->). split; [done|]. intros t Ht.
      eapply (isActive_granted _ _ _ path _ _ _
                (WorkspaceLease.reassign path (aq_runId input) (boot s) (now + ttl) e)); try done.
      apply elem_of_update. exists e. split; [done|].
      by rewrite (proj2 (has_id_iff _ _) eq_refl), Hae.
    + rewrite existsb_clean, Hfresh. split; [done|]. intros t Ht.
      eapply isActive_granted; [done|cbn; apply elem_of_snoc; by right|done..].
Qed.

(** Acquiring a workspace lease succeeds exactly when no other owner has a live lease on an
    overlapping directory; a lease that was granted is active until its time to live has passed,
    and a refusal only marks expired leases. *)
Theorem acquire_decides input leaseId now s path :
  lease_inv s → normalizeWorkspaceLeasePath (aq_workspacePath input) = Ok path →
  existsb (has_id leaseId) (leases s) = false →
  let '(res, s') := acquireWorkspaceLease ttl input leaseId now s in
  match res with
  | Ok (Some a) =>
      ¬ live_conflict path (aq_ownerKind input) (aq_ownerId input) now (leases s) ∧
      ∀ t, (t < now + ttl)%Z →
        (isWorkspaceLeaseActive (ar_leaseId a) (aq_ownerKind input) (aq_ownerId input)
           (aq_workspacePath input) t s').1 = Ok true
  | Ok None =>
      live_conflict path (aq_ownerKind input) (aq_ownerId input) now (leases s) ∧
      leases s' = cleanStaleWorkspaceLeasesTx now (leases s)
  | Err _ => False
  end.
Proof. apply acquire_outcome. Qed.

(** Operations that do not end the lease [x] of the owner [o], which expires at
    [e]: the other operations by other owners, before the expiry. *)
Definition keeps_away (x : string) (o : OwnerKind.t * string) (e : Z) (op : lease_op) : Prop :=
  match op with
  | LAcquire input _ now => (aq_ownerKind input, aq_ownerId input) ≠ o ∧ (now < e)%Z
  | LRefresh id _ => id ≠ x
  | LRefreshForOwner k i _ => (k, i) ≠ o
  | LRelease id _ _ => id ≠ x
  | LReleaseForOwner k i _ _ => (k, i) ≠ o
  | LFindConflict _ _ now => (now < e)%Z
  | LIsActive _ _ _ _ now => (now < e)%Z
  | LReleaseAll _ | LReclaim _ | LRestart _ => False
  end.

Lemma elem_of_update_miss {A} (p : A → bool) f t r :
  r ∈ t → p r = false → r ∈ update_where p f t.
Proof. intros Hr Hp. apply elem_of_update. exists r. by rewrite Hp. Qed.

Lemma has_id_other id r : id ≠ WorkspaceLease.id r → has_id id r = false.
Proof. intros Hne. by apply bool_decide_eq_false. Qed.

Lemma clean_keeps now t r :
  r ∈ t → (now < WorkspaceLease.leaseExpiresAt r)%Z → r ∈ cleanStaleWorkspaceLeasesTx now t.
Proof.
  intros Hr Ht. apply elem_of_update_miss; [done|]. unfold stale_at.
  apply andb_false_iff. right. lia.
Qed.

Lemma refresh_keeps id now s r :
  r ∈ leases s → id ≠ WorkspaceLease.id r → r ∈ leases (refreshWorkspaceLease ttl id now s).2.
Proof.
  intros Hr Hne. apply elem_of_update_miss; [done|]. unfold refreshable. by rewrite has_id_other.
Qed.

Lemma release_keeps id run now s r :
  r ∈ leases s → id ≠ WorkspaceLease.id r → r ∈ leases (releaseWorkspaceLease id run now s).2.
Proof.
  intros Hr Hne. unfold releaseWorkspaceLease.
  repeat case_match; cbn; try done; (apply elem_of_update_miss; [done|]); by rewrite has_id_other.
Qed.

Lemma release_rows_keeps rows run now b s r :
  r ∈ leases s → (∀ q, q ∈ rows → WorkspaceLease.id q ≠ WorkspaceLease.id r) →
  r ∈ leases (release_rows rows run now b s).2.
Proof.
  revert b s. induction rows as [|q rows IH]; intros b s Hr Hq; cbn; [done|].
  destruct (run_matches run q); [|apply IH; [done|]; intros; apply Hq; by right].
  pose proof (release_keeps (WorkspaceLease.id q) run now s r Hr (Hq q (list_elem_of_here _ _))).
  destruct (releaseWorkspaceLease _ _ _ _) as [ok s']. apply IH; [done|].
  intros; apply Hq; by right.
Qed.

(** A remembered lease belongs to the owner it is remembered for. *)
Lemma remembered_other s r k i id :
  lease_inv s → r ∈ leases s → (k, i) ≠ row_owner r →
  activeLeaseByOwner s !! ownerKey k i = Some id → id ≠ WorkspaceLease.id r.
Proof.
  intros [Hids _ _ _ Hrec] Hr Ho Hm ->. destruct (Hrec _ _ Hm) as (q & Hq & Hid & Hk).
  assert (q = r) as -> by (by apply (unique_key WorkspaceLease.id (leases s))).
  apply Ho. unfold row_key in Hk. apply ownerKey_inj in Hk as [<- <-]. done.
Qed.

Lemma acquire_keeps input id now s r :
  lease_inv s → r ∈ leases s → (aq_ownerKind input, aq_ownerId input) ≠ row_owner r →
  (now < WorkspaceLease.leaseExpiresAt r)%Z →
  r ∈ leases (acquireWorkspaceLease ttl input id now s).2.
Proof.
  intros Hinv Hr Ho Ht. unfold acquireWorkspaceLease.
  destruct (normalizeWorkspaceLeasePath _); [|done]. cbv zeta.
  pose proof (clean_keeps now (leases s) r Hr Ht) as Hc.
  destruct (findConflictingOccupant _ _ _); [done|].
  pose proof (existing_row (cleanStaleWorkspaceLeasesTx now (leases s))
                (aq_ownerKind input) (aq_ownerId input)) as Hex.
  destruct (List.find _ _) as [o|].
  - destruct Hex as (e & He & _ & Hoe & ->). apply elem_of_update_miss; [done|].
    rewrite has_id_other; [done|]. intros Hid. apply Ho. rewrite <-Hoe. f_equal.
    pose proof (li_ids _ (lease_inv_clean s now _ (boot s) (memory_refl _) Hinv)) as Hnd.
    by apply (unique_key WorkspaceLease.id (cleanStaleWorkspaceLeasesTx now (leases s))).
  - destruct (existsb _ _); [done|]. cbn. apply elem_of_snoc. by left.
Qed.

Lemma keeps_away_exec op s r :
  lease_inv s → r ∈ leases s →
  keeps_away (WorkspaceLease.id r) (row_owner r) (WorkspaceLease.leaseExpiresAt r) op →
  r ∈ leases (lease_exec ttl op s).
Proof.
  intros Hinv Hr Hop. destruct op; cbn in *; try done.
  - destruct Hop. by apply acquire_keeps.
  - by apply refresh_keeps.
  - unfold refreshWorkspaceLeaseForOwner. case_match; [|done].
    apply refresh_keeps; [done|]. by eapply remembered_other.
  - by apply release_keeps.
  - unfold releaseWorkspaceLeaseForOwner. case_match.
    { apply release_keeps; [done|]. by eapply remembered_other. }
    assert (r ∈ leases (release_rows (select_where (λ r, owned_by kind ownerId r && lease_active r)
                              (leases s)) expectedRunId now false s).2) as Hrel.
    { apply release_rows_keeps; [done|]. intros q [Hq [Hoq _]%andb_true_iff]%elem_of_select Hid.
      apply owned_by_iff in Hoq. apply Hop. rewrite <-Hoq. f_equal.
      apply (unique_key WorkspaceLease.id (leases s)); try done. apply Hinv. }
    destruct (release_rows _ _ _ _ _) as [b s']. by destruct b.
  - unfold findWorkspaceLeaseConflict. case_match; [|done]. by apply clean_keeps.
  - unfold isWorkspaceLeaseActive. case_match; [|done]. by apply clean_keeps.
Qed.

Lemma keeps_away_run ops s r :
  lease_inv s → r ∈ leases s →
  Forall (keeps_away (WorkspaceLease.id r) (row_owner r) (WorkspaceLease.leaseExpiresAt r)) ops →
  r ∈ leases (lease_run ttl ops s).
Proof.
  intros Hinv Hr Hops. revert s Hinv Hr. induction Hops as [|op ops Hop Hops IH]; [done|].
  intros s Hinv Hr. apply IH; [by apply lease_exec_inv|]. by apply keeps_away_exec.
Qed.

Lemma conflict_refused s r input id now path :
  r ∈ leases s → lease_active r = true → (now < WorkspaceLease.leaseExpiresAt r)%Z →
  (aq_ownerKind input, aq_ownerId input) ≠ row_owner r →
  normalizeWorkspaceLeasePath (aq_workspacePath input) = Ok path →
  workspacePathsConflict path (WorkspaceLease.canonicalPath r) = true →
  (acquireWorkspaceLease ttl input id now s).1 = Ok None.
Proof.
  intros Hr Ha Ht Ho Hp Hc. unfold acquireWorkspaceLease. rewrite Hp. cbv zeta.
  destruct (findConflictingOccupant _ _ _) eqn:Hf; [done|].
  rewrite no_conflict_rows in Hf. by rewrite (Hf r) in Hc; [|by apply clean_keeps|..].
Qed.

Theorem held_lease_survives ops s r :
  lease_inv s → r ∈ leases s → lease_active r = true →
  Forall (keeps_away (WorkspaceLease.id r) (row_owner r) (WorkspaceLease.leaseExpiresAt r)) ops →
  let s' := lease_run ttl ops s in
  r ∈ leases s' ∧
  ∀ input id now path,
    (aq_ownerKind input, aq_ownerId input) ≠ row_owner r → (now < WorkspaceLease.leaseExpiresAt r)%Z →
    normalizeWorkspaceLeasePath (aq_workspacePath input) = Ok path →
    workspacePathsConflict path (WorkspaceLease.canonicalPath r) = true →
    (acquireWorkspaceLease ttl input id now s').1 = Ok None.
Proof.
  intros Hinv Hr Ha Hops s'. pose proof (keeps_away_run ops s r Hinv Hr Hops) as Hr'.
  split; [done|]. intros. by eapply conflict_refused.
Qed.

(** ** Releasing *)

(** Every row afterwards comes from a row with the same id and owner, and is
    active only if that one was. *)
Definition lease_le (t t' : list WorkspaceLease.t) : Prop :=
  ∀ r', r' ∈ t' → ∃ r, r ∈ t ∧ WorkspaceLease.id r' = WorkspaceLease.id r ∧
    row_owner r' = row_owner r ∧ (lease_active r' = true → lease_active r = true).

Lemma lease_le_refl t : lease_le t t.
Proof. intros r Hr. by exists r. Qed.

Lemma lease_le_update p f t : tame f → lease_le t (update_where p f t).
Proof.
  intros Hf r (r' & Hr' & ->)%elem_of_update. exists r'.
  destruct (tame_row p f r' Hf) as (? & ? & _ & ?). by split_and!.
Qed.

Lemma release_le id run now s : lease_le (leases s) (leases (releaseWorkspaceLease id run now s).2).
Proof.
  unfold releaseWorkspaceLease. repeat case_match; cbn; auto using lease_le_refl, lease_le_update with cp.
Qed.

Lemma release_ends id now s r :
  lease_inv s → r ∈ leases (releaseWorkspaceLease id None now s).2 → WorkspaceLease.id r = id →
  lease_active r = false.
Proof.
  intros Hinv. unfold releaseWorkspaceLease.
  assert (∀ q, q ∈ leases s → has_id id q = true → ∀ q', q' ∈ leases s → WorkspaceLease.id q' = id → q' = q)
    as Huniq.
  { intros q Hq Hid%has_id_iff q' Hq' Hid'.
    apply (unique_key WorkspaceLease.id (leases s)); [apply Hinv|done..|congruence]. }
  assert (r ∈ update_where (λ r, has_id id r && lease_active r && run_matches None r)
                (WorkspaceLease.release now) (leases s) → WorkspaceLease.id r = id → lease_active r = false)
    as Hupd.
  { intros (q & Hq & ->)%elem_of_update Hid. unfold run_matches in *. rewrite andb_true_r in *.
    destruct (has_id id q && lease_active q) eqn:E; [done|].
    by rewrite (proj2 (has_id_iff _ _) Hid) in E. }
  destruct (List.find _ _) as [row|] eqn:Hf.
  - apply find_elem in Hf as [Hrow Hid]. destruct (lease_active row) eqn:Ha; cbn.
    + cbn [run_matches negb]. destruct (bool_decide _); exact Hupd.
    + intros Hr Hri. by rewrite (Huniq row Hrow Hid r Hr Hri).
  - rewrite find_none_elem in Hf. intros Hr Hri. apply Hf in Hr.
    by rewrite (proj2 (has_id_iff _ _) Hri) in Hr.
Qed.

Lemma release_rows_le rows run now b s :
  lease_le (leases s) (leases (release_rows rows run now b s).2).
Proof.
  revert b s. induction rows as [|q rows IH]; intros b s; cbn; [apply lease_le_refl|].
  destruct (run_matches run q); [|apply IH].
  pose proof (release_le (WorkspaceLease.id q) run now s) as H1.
  destruct (releaseWorkspaceLease _ _ _ _) as [ok s']. cbn in H1.
  intros r (r1 & Hr1 & E1 & E1' & E1'')%IH. destruct (H1 r1 Hr1) as (r2 & Hr2 & E2 & E2' & E2'').
  exists r2. split_and!; [done|congruence..|auto].
Qed.

Lemma release_rows_end rows now b s r :
  lease_inv s →
  r ∈ leases (release_rows rows None now b s).2 →
  (∃ q, q ∈ rows ∧ WorkspaceLease.id q = WorkspaceLease.id r) → lease_active r = false.
Proof.
  revert b s. induction rows as [|q rows IH]; intros b s Hinv; cbn.
  { by intros _ (? & ?%not_elem_of_nil & _). }
  pose proof (release_inv (WorkspaceLease.id q) None now s Hinv) as Hinv'.
  pose proof (λ r, release_ends (WorkspaceLease.id q) now s r Hinv) as Hend.
  destruct (releaseWorkspaceLease _ _ _ _) as [ok s']. cbn in *.
  intros Hr (q' & [->|Hq']%elem_of_cons & Hid); [|by eapply IH; eauto].
  destruct (release_rows_le rows None now (ok || b) s' r Hr) as (r1 & Hr1 & E1 & _ & Ha). specialize (Hend r1 Hr1 ltac:(congruence)).
  destruct (lease_active r); [|done]. by rewrite Ha in Hend.
Qed.

Theorem release_for_owner_frees k i now s r :
  lease_inv s → r ∈ leases (releaseWorkspaceLeaseForOwner k i None now s) →
  row_owner r = (k, i) → lease_active r = false.
Proof.
  intros Hinv. unfold releaseWorkspaceLeaseForOwner.
  destruct (activeLeaseByOwner s !! ownerKey k i) as [id|] eqn:Hm.
  - intros Hr Ho. destruct (lease_active r) eqn:Ha; [|done].
    destruct (release_le id None now s r Hr) as (q & Hq & Eid & Eo & Hact).
    rewrite <-Ha. apply (release_ends id now s r Hinv Hr). rewrite Eid.
    apply (li_memory s Hinv _ _ q Hm Hq); [auto|]. unfold row_key.
    rewrite Ho in Eo. unfold row_owner in Eo. by simplify_eq.
  - set (rows := select_where _ _).
    pose proof (release_rows_end rows now false s r Hinv) as Hend.
    pose proof (release_rows_le rows None now false s r) as Hle.
    destruct (release_rows rows None now false s) as [b s']. cbn in Hend, Hle.
    intros Hr Ho. destruct (lease_active r) eqn:Ha; [|done].
    assert (r ∈ leases s') as Hr' by (by destruct b). apply Hend; [done|].
    destruct (Hle Hr') as (q & Hq & Eid & Eo & Hact). exists q. split; [|done].
    apply elem_of_select. split; [done|]. apply andb_true_iff. rewrite owned_by_iff.
    split; [congruence|auto].
Qed.
End theorems.
