(* ===== verification/TaskAttempts.v ===== *)
(** * The task-attempt ledger

    Models [src/server/legacy-control-plane/task-attempts.ts]: the table
    [job_task_attempts] with its two UNIQUE indexes (migration 029), the
    transactions that open, start, complete, fail, interrupt and authorize
    attempts, and [job_tasks] as far as they write it.  SHA-256 is the parameter
    [Sha256].  A run id must name a row of [workload_runs] (foreign keys are
    on). *)
From S2P Require Import Prelude Json JsString Sql.
From stdpp Require Import pretty.
From Stdlib Require Import Ascii.
Local Open Scope tx_scope.

Module AttemptStatus.
Inductive t := starting | running | completed | interrupted | failed.

#[global] Instance eq_dec : EqDecision t.
Proof. solve_decision. Defined.
End AttemptStatus.

(** A row of [job_task_attempts]. *)
Module Attempt.
Record t := mk {
  id : string;
  jobId : string;
  taskId : string;
  runId : option string;
  attemptNo : Z;
  idempotencyKey : string;
  status : AttemptStatus.t;
  resultHash : option string;
  errorJson : option string;
  startedAt : Z;
  endedAt : option Z
}.

(** [SET status = .., ended_at = .., idempotency_key = ..] *)
Definition settle (st : AttemptStatus.t) (now : Z) (key : string) (r : t) : t :=
  mk (id r) (jobId r) (taskId r) (runId r) (attemptNo r) key st (resultHash r) (errorJson r)
    (startedAt r) (Some now).

Definition set_running (r : t) : t :=
  mk (id r) (jobId r) (taskId r) (runId r) (attemptNo r) (idempotencyKey r) AttemptStatus.running
    (resultHash r) (errorJson r) (startedAt r) (endedAt r).

Definition set_completed (hash : string) (now : Z) (r : t) : t :=
  mk (id r) (jobId r) (taskId r) (runId r) (attemptNo r) (idempotencyKey r) AttemptStatus.completed
    (Some hash) None (startedAt r) (Some now).

Definition set_failed (error : option string) (now : Z) (r : t) : t :=
  mk (id r) (jobId r) (taskId r) (runId r) (attemptNo r) (idempotencyKey r) AttemptStatus.failed
    (resultHash r) error (startedAt r) (Some now).
End Attempt.

(** The columns of [thread_jobs] and [job_tasks] the ledger uses. *)
Record ledger_job := mkLedgerJob {
  lj_id : string;
  lj_snapshotPlanRevision : option Z;
  lj_planRevision : Z
}.

Record ledger_task := mkLedgerTask {
  lt_jobId : string;
  lt_taskId : string;
  lt_status : string;
  lt_executionStatus : option string;
  lt_evidenceJson : option string
}.

Record ledger := mkLedger {
  lg_jobs : list ledger_job;
  lg_tasks : list ledger_task;
  lg_runs : list string;
  attempts : list Attempt.t
}.

Definition set_attempts (t : list Attempt.t) (s : ledger) : ledger :=
  mkLedger (lg_jobs s) (lg_tasks s) (lg_runs s) t.

Definition set_tasks (t : list ledger_task) (s : ledger) : ledger :=
  mkLedger (lg_jobs s) t (lg_runs s) (attempts s).

Record BeginTaskAttemptInput := mkBegin {
  bi_jobId : string;
  bi_taskId : string;
  bi_runId : option string;
  bi_snapshotPlanRevision : option Z
}.

Inductive BeginTaskAttemptResult :=
| AlreadyCompleted
| BlockedUncertain (attemptNo : Z) (idempotencyKey : string) (status : AttemptStatus.t)
| Resumed (attemptNo : Z) (idempotencyKey : string)
| Started (id : string) (attemptNo : Z) (idempotencyKey : string).

(** ** Keys *)

Definition is_hex_char (c : ascii) : bool :=
  let n := N_of_ascii c in
  bool_decide (97 ≤ n ∧ n ≤ 102)%N || bool_decide (48 ≤ n ∧ n ≤ 57)%N.

(** The regular expression [^[a-f0-9]{64}$]. *)
Definition is_raw_key (key : string) : bool :=
  bool_decide (String.length key = 64) && all_chars is_hex_char key.

Section ledger.
Context `{Sha256}.

Definition deriveTaskIdempotencyKey (jobId taskId : string) (snapshotPlanRevision : Z) : string :=
  sha256 (jobId +:+ ":" +:+ taskId +:+ ":" +:+ pretty snapshotPlanRevision).

(** [None] is [undefined]. *)
Definition hashTaskResult (value : option json) : string :=
  sha256 (match value with Some v => stringify v | None => "null" end).

Definition of_task (jobId taskId : string) (r : Attempt.t) : bool :=
  bool_decide (Attempt.jobId r = jobId) && bool_decide (Attempt.taskId r = taskId).

Definition has_status (sts : list AttemptStatus.t) (r : Attempt.t) : bool :=
  existsb (λ st, bool_decide (Attempt.status r = st)) sts.

Definition NON_TERMINAL_STATUSES : list AttemptStatus.t := [AttemptStatus.starting; AttemptStatus.running].

(** The outcomes after which the provider may have acted. *)
Definition UNCERTAIN_STATUSES : list AttemptStatus.t :=
  [AttemptStatus.running; AttemptStatus.interrupted; AttemptStatus.failed].

Definition hasCompletedAttempt (jobId taskId : string) (s : ledger) : bool :=
  bool_decide (0 < count_where (λ r, of_task jobId taskId r && has_status [AttemptStatus.completed] r)
                     (attempts s)).

Definition countAttempts (jobId taskId : string) (s : ledger) : nat :=
  count_where (of_task jobId taskId) (attempts s).

(** [UPDATE job_task_attempts .. WHERE id = ..], refused when it would give two
    rows the same key. *)
Definition update_attempt (rowId : string) (f : Attempt.t → Attempt.t) : txM ledger string unit :=
  λ s,
    let t := update_where (λ r, bool_decide (Attempt.id r = rowId)) f (attempts s) in
    if bool_decide (NoDup (map Attempt.idempotencyKey t)) then Ok (tt, set_attempts t s)
    else Err "SQLITE_CONSTRAINT_UNIQUE".

Definition attempt_slot (r : Attempt.t) : string * string * Z :=
  (Attempt.jobId r, Attempt.taskId r, Attempt.attemptNo r).

(** [INSERT INTO job_task_attempts] with its primary key, UNIQUE indexes and
    the foreign key on the run. *)
Definition insert_attempt (row : Attempt.t) : txM ledger string unit :=
  λ s,
    let t := attempts s ++ [row] in
    if negb (bool_decide (NoDup (map Attempt.id t))) then Err "SQLITE_CONSTRAINT_PRIMARYKEY"
    else if negb (bool_decide (NoDup (map attempt_slot t))) ||
            negb (bool_decide (NoDup (map Attempt.idempotencyKey t)))
    then Err "SQLITE_CONSTRAINT_UNIQUE"
    else if match Attempt.runId row with
            | Some r => negb (existsb (String.eqb r) (lg_runs s))
            | None => false
            end
    then Err "SQLITE_CONSTRAINT_FOREIGNKEY"
    else Ok (tt, set_attempts t s).

Definition suffixed (key tag : string) (attemptNo : Z) : string :=
  key +:+ ":" +:+ tag +:+ ":" +:+ pretty attemptNo.

Definition is_uncertain (key : string) (r : Attempt.t) : bool :=
  bool_decide (Attempt.idempotencyKey r = key) && has_status UNCERTAIN_STATUSES r.

Definition max_attempt_no (rows : list Attempt.t) : Z :=
  fold_left (λ m r, Z.max m (Attempt.attemptNo r)) rows 0%Z.

Definition attempt_revision (input : BeginTaskAttemptInput) (job : ledger_job) : Z :=
  match bi_snapshotPlanRevision input with
  | Some r => r
  | None => default (lj_planRevision job) (lj_snapshotPlanRevision job)
  end.

Definition beginTaskAttempt_tx (input : BeginTaskAttemptInput) (newId : string) (now : Z) :
    txM ledger string BeginTaskAttemptResult :=
  let jobId := bi_jobId input in
  let taskId := bi_taskId input in
  let* jobRow := tx_gets (λ s, List.find (λ j, bool_decide (lj_id j = jobId)) (lg_jobs s)) in
  match jobRow with
  | None => tx_throw "task_attempt.job_not_found"
  | Some job =>
      let* taskRow := tx_gets (λ s, List.find (λ t, bool_decide (lt_jobId t = jobId) &&
                                                    bool_decide (lt_taskId t = taskId)) (lg_tasks s)) in
      match taskRow with
      | None => tx_throw "task_attempt.task_not_in_job"
      | Some _ =>
          let* existing := tx_gets (λ s, select_where (of_task jobId taskId) (attempts s)) in
          if existsb (has_status [AttemptStatus.completed]) existing then tx_ret AlreadyCompleted
          else
            let key := deriveTaskIdempotencyKey jobId taskId (attempt_revision input job) in
            match List.find (is_uncertain key) existing with
            | Some u =>
                if bool_decide (Attempt.status u = AttemptStatus.running) &&
                   bool_decide (bi_runId input ≠ None) &&
                   bool_decide (Attempt.runId u = bi_runId input)
                then tx_ret (Resumed (Attempt.attemptNo u) key)
                else tx_ret (BlockedUncertain (Attempt.attemptNo u) key (Attempt.status u))
            | None =>
                do* tx_for (select_where (has_status [AttemptStatus.starting]) existing)
                      (λ row, update_attempt (Attempt.id row)
                                (Attempt.settle AttemptStatus.interrupted now
                                   (suffixed (Attempt.idempotencyKey row) "interrupted"
                                      (Attempt.attemptNo row)))) in
                let attemptNo := (max_attempt_no existing + 1)%Z in
                do* insert_attempt (Attempt.mk newId jobId taskId (bi_runId input) attemptNo key
                                      AttemptStatus.starting None None now None) in
                tx_ret (Started newId attemptNo key)
            end
      end
  end.

Definition beginTaskAttempt (input : BeginTaskAttemptInput) (newId : string) (now : Z) :
    ledger → result string BeginTaskAttemptResult * ledger :=
  run_transaction (beginTaskAttempt_tx input newId now).

(** The rows a replay authorization clears. *)
Definition replay_fenced (jobId : string) (r : Attempt.t) : bool :=
  bool_decide (Attempt.jobId r = jobId) && has_status UNCERTAIN_STATUSES r &&
  is_raw_key (Attempt.idempotencyKey r).

Definition authorize_row (now : Z) (row : Attempt.t) : txM ledger string unit :=
  λ s,
    let p := λ r, bool_decide (Attempt.id r = Attempt.id row) &&
                  bool_decide (Attempt.idempotencyKey r = Attempt.idempotencyKey row) &&
                  bool_decide (Attempt.status r = Attempt.status row) in
    let t := update_where p
               (Attempt.settle AttemptStatus.interrupted now
                  (suffixed (Attempt.idempotencyKey row) "authorized-replay" (Attempt.attemptNo row)))
               (attempts s) in
    if negb (bool_decide (NoDup (map Attempt.idempotencyKey t))) then Err "SQLITE_CONSTRAINT_UNIQUE"
    else if bool_decide (count_where p (attempts s) = 1) then Ok (tt, set_attempts t s)
    else Err "task_attempt.replay_authorization_conflict".

Definition authorize_tx (jobId : string) (now : Z) : txM ledger string nat :=
  let* rows := tx_gets (λ s, select_where (replay_fenced jobId) (attempts s)) in
  do* tx_for rows (authorize_row now) in
  tx_ret (length rows).

Definition authorizeUncertainTaskAttemptReplayForJob (jobId : string) (now : Z) :
    ledger → result string nat * ledger :=
  run_transaction (authorize_tx jobId now).

Definition jobHasUncertainReplayFence (jobId : string) (s : ledger) : bool :=
  existsb (replay_fenced jobId) (attempts s).

Definition is_attempt (jobId taskId : string) (attemptNo : Z) (sts : list AttemptStatus.t)
    (r : Attempt.t) : bool :=
  of_task jobId taskId r && bool_decide (Attempt.attemptNo r = attemptNo) && has_status sts r.

Definition markTaskAttemptProviderStarted (jobId taskId : string) (attemptNo : Z) (s : ledger) :
    result string unit * ledger :=
  let p := is_attempt jobId taskId attemptNo [AttemptStatus.starting] in
  ((if bool_decide (count_where p (attempts s) = 1) then Ok tt
    else Err "task_attempt.provider_start_conflict"),
   set_attempts (update_where p Attempt.set_running (attempts s)) s).

Definition set_task_completed (evidence : option string) (t : ledger_task) : ledger_task :=
  mkLedgerTask (lt_jobId t) (lt_taskId t) "completed" (Some "completed")
    (match evidence with Some e => Some e | None => lt_evidenceJson t end).

Definition commit_tx (jobId taskId : string) (attemptNo : Z) (result : option json) (now : Z) :
    txM ledger string string :=
  λ s,
    let resultHash := hashTaskResult result in
    let evidenceJson :=
      match result with Some JNull | None => None | Some v => Some (stringify v) end in
    let p := is_attempt jobId taskId attemptNo [AttemptStatus.running] in
    let q := λ t, bool_decide (lt_jobId t = jobId) && bool_decide (lt_taskId t = taskId) in
    if negb (bool_decide (count_where p (attempts s) = 1)) then Err "task_attempt.commit_conflict"
    else if negb (bool_decide (count_where q (lg_tasks s) = 1)) then Err "task_checkpoint.commit_conflict"
    else
      Ok (resultHash,
          mkLedger (lg_jobs s) (update_where q (set_task_completed evidenceJson) (lg_tasks s)) (lg_runs s)
            (update_where p (Attempt.set_completed resultHash now) (attempts s))).

Definition commitCompletedTaskAttempt (jobId taskId : string) (attemptNo : Z) (result : option json)
    (now : Z) : ledger → Prelude.result string string * ledger :=
  run_transaction (commit_tx jobId taskId attemptNo result now).

Definition markTaskAttemptFailed (jobId taskId : string) (attemptNo : Z) (errorJson : option string)
    (now : Z) (s : ledger) : result string unit * ledger :=
  let p := is_attempt jobId taskId attemptNo NON_TERMINAL_STATUSES in
  ((if bool_decide (count_where p (attempts s) = 1) then Ok tt else Err "task_attempt.fail_conflict"),
   set_attempts (update_where p (Attempt.set_failed errorJson now) (attempts s)) s).

(** [interruptAttempts] with the update its two callers pass. *)
Definition interrupt_row (now : Z) (row : Attempt.t) : txM ledger string unit :=
  update_attempt (Attempt.id row)
    (λ r, Attempt.settle AttemptStatus.interrupted now
            (if bool_decide (Attempt.status row = AttemptStatus.starting)
             then suffixed (Attempt.idempotencyKey row) "interrupted-safe" (Attempt.attemptNo row)
             else Attempt.idempotencyKey r) r).

Definition interrupt_tx (p : Attempt.t → bool) (now : Z) : txM ledger string nat :=
  let* rows := tx_gets (λ s, select_where (λ r, p r && has_status NON_TERMINAL_STATUSES r) (attempts s)) in
  do* tx_for rows (interrupt_row now) in
  tx_ret (length rows).

Definition markRunningAttemptsInterruptedForJob (jobId : string) (now : Z) :
    ledger → result string nat * ledger :=
  run_transaction (interrupt_tx (λ r, bool_decide (Attempt.jobId r = jobId)) now).

Definition markAllRunningAttemptsInterrupted (now : Z) : ledger → result string nat * ledger :=
  run_transaction (interrupt_tx (λ _, true) now).

(** ** All operations *)

Inductive attempt_op :=
| ABegin (input : BeginTaskAttemptInput) (newId : string) (now : Z)
| AAuthorize (jobId : string) (now : Z)
| AProviderStarted (jobId taskId : string) (attemptNo : Z)
| ACommit (jobId taskId : string) (attemptNo : Z) (result : option json) (now : Z)
| AFail (jobId taskId : string) (attemptNo : Z) (errorJson : option string) (now : Z)
| AInterruptJob (jobId : string) (now : Z)
| AInterruptAll (now : Z)
| AElsewhere (jobs : list ledger_job) (tasks : list ledger_task) (runs : list string).

(** [AElsewhere]: the rest of the server rewrites the other tables. *)
Definition attempt_exec (o : attempt_op) (s : ledger) : ledger :=
  match o with
  | ABegin i id now => (beginTaskAttempt i id now s).2
  | AAuthorize j now => (authorizeUncertainTaskAttemptReplayForJob j now s).2
  | AProviderStarted j t n => (markTaskAttemptProviderStarted j t n s).2
  | ACommit j t n r now => (commitCompletedTaskAttempt j t n r now s).2
  | AFail j t n e now => (markTaskAttemptFailed j t n e now s).2
  | AInterruptJob j now => (markRunningAttemptsInterruptedForJob j now s).2
  | AInterruptAll now => (markAllRunningAttemptsInterrupted now s).2
  | AElsewhere js ts rs => mkLedger js ts rs (attempts s)
  end.

Definition attempt_run (ops : list attempt_op) (s : ledger) : ledger :=
  fold_left (λ s o, attempt_exec o s) ops s.

(** Who calls the provider under the key [k] because of [o]: the attempt whose start
    is marked, or the one that is resumed in its run; attempts by their number and
    their run. *)
Definition provider_callers (k : string) (o : attempt_op) (s : ledger) : list (Z * option string) :=
  match o with
  | AProviderStarted j t n =>
      match (markTaskAttemptProviderStarted j t n s).1 with
      | Ok _ => map (λ r, (Attempt.attemptNo r, Attempt.runId r))
                  (select_where (λ r, is_attempt j t n [AttemptStatus.starting] r &&
                                      bool_decide (Attempt.idempotencyKey r = k)) (attempts s))
      | Err _ => []
      end
  | ABegin input id now =>
      match (beginTaskAttempt input id now s).1 with
      | Ok (Resumed n key) => if bool_decide (key = k) then [(n, bi_runId input)] else []
      | _ => []
      end
  | _ => []
  end.

(** How often [o] marks the start of the provider under the key [k]. *)
Definition start_marks (k : string) (o : attempt_op) (s : ledger) : nat :=
  match o with
  | AProviderStarted j t n => length (provider_callers k o s)
  | _ => 0
  end.

(** How often [o] authorizes a replay of the task with key [k]. *)
Definition replay_authorizations (k : string) (o : attempt_op) (s : ledger) : nat :=
  match o with
  | AAuthorize j now =>
      match (authorizeUncertainTaskAttemptReplayForJob j now s).1 with
      | Ok _ => count_where (λ r, bool_decide (Attempt.idempotencyKey r = k))
                  (select_where (replay_fenced j) (attempts s))
      | Err _ => 0
      end
  | _ => 0
  end.

(** The sum of a count over a sequence of operations. *)
Fixpoint total_over (count : attempt_op → ledger → nat) (ops : list attempt_op) (s : ledger) : nat :=
  match ops with
  | [] => 0
  | o :: ops' => count o s + total_over count ops' (attempt_exec o s)
  end.

(** All calls of the provider under the key [k]. *)
Fixpoint all_callers (k : string) (ops : list attempt_op) (s : ledger) : list (Z * option string) :=
  match ops with
  | [] => []
  | o :: ops' => provider_callers k o s ++ all_callers k ops' (attempt_exec o s)
  end.
End ledger.
