(* ===== verification/TaskAttemptsSpecs.v ===== *)
(** * One attempt per authorization calls the provider

    Under the key of a logical task (job, task, plan revision) at most one attempt,
    and one more for every replay that was authorized, calls the provider, across
    crashes, restarts and retries -- though the run of that attempt may resume it
    and call again; a completed task is never run again; and an uncertain outcome
    blocks the task until its replay is authorized. *)
From S2P Require Import Prelude Json JsString Sql TaskAttempts.
From stdpp Require Import pretty.
From Stdlib Require Import Ascii.
Local Open Scope tx_scope.

Record ledger_wf (s : ledger) : Prop := {
  lw_ids : NoDup (map Attempt.id (attempts s));
  lw_slots : NoDup (map attempt_slot (attempts s));
  lw_keys : NoDup (map Attempt.idempotencyKey (attempts s))
}.

(** ** Keys *)

(** A key with a suffix is not the raw key of a logical task. *)
Lemma suffixed_not_raw key tag n : is_raw_key (suffixed key tag n) = false.
Proof.
  unfold is_raw_key, suffixed. apply andb_false_iff. right.
  rewrite !all_chars_app. change (all_chars is_hex_char ":") with false.
  by rewrite andb_false_r.
Qed.

Lemma raw_not_suffixed k key tag n : is_raw_key k = true → suffixed key tag n ≠ k.
Proof. intros Hk <-. by rewrite suffixed_not_raw in Hk. Qed.

Lemma has_status_iff sts r : has_status sts r = true ↔ Attempt.status r ∈ sts.
Proof.
  unfold has_status. rewrite existsb_exists, list_elem_of_In. setoid_rewrite bool_decide_eq_true.
  naive_solver.
Qed.

Section specs.
Context `{Sha256}.

(** ** Rows keep their identity *)

Definition same_identity (f : Attempt.t → Attempt.t) : Prop :=
  ∀ r, Attempt.id (f r) = Attempt.id r ∧ attempt_slot (f r) = attempt_slot r.

Lemma wf_update p f s js ts rs :
  same_identity f → ledger_wf s → NoDup (map Attempt.idempotencyKey (update_where p f (attempts s))) →
  ledger_wf (mkLedger js ts rs (update_where p f (attempts s))).
Proof.
  intros Hf [Hids Hslots _] Hkeys. split; cbn; [| |done].
  - rewrite update_where_key; [done|]. apply Hf.
  - rewrite update_where_key; [done|]. apply Hf.
Qed.

Lemma wf_update_keep p f s js ts rs :
  same_identity f → (∀ r, Attempt.idempotencyKey (f r) = Attempt.idempotencyKey r) → ledger_wf s →
  ledger_wf (mkLedger js ts rs (update_where p f (attempts s))).
Proof.
  intros Hf Hk Hwf. apply wf_update; try done. rewrite update_where_key by done. apply Hwf.
Qed.

Lemma wf_elsewhere s js ts rs : ledger_wf s → ledger_wf (mkLedger js ts rs (attempts s)).
Proof. by intros [???]. Qed.

(** ** Loops over attempt rows *)

(** What is left of the rows is still in the table. *)
Definition pending (rest : list Attempt.t) (s : ledger) : Prop :=
  ledger_wf s ∧ NoDup (map Attempt.id rest) ∧ ∀ r, r ∈ rest → r ∈ attempts s.

Lemma pending_all s : ledger_wf s → pending (attempts s) s.
Proof. intros Hwf. split_and!; [done|apply Hwf|done]. Qed.

Lemma pending_select p rows s : pending rows s → pending (select_where p rows) s.
Proof.
  intros (Hwf & Hids & Hin). split_and!; [done| |by intros r [? _]%elem_of_select; auto].
  by apply NoDup_map_filter.
Qed.

Lemma pending_step row rest s s' f :
  same_identity f → pending (row :: rest) s → update_attempt (Attempt.id row) f s = Ok (tt, s') →
  pending rest s' ∧
  ∀ q, count_where q (attempts s') + (if q row then 1 else 0) =
       count_where q (attempts s) + (if q (f row) then 1 else 0).
Proof.
  intros Hf (Hwf & Hnd & Hin). unfold update_attempt. cbn in Hnd.
  apply list.NoDup_cons in Hnd as [Hnot Hnd].
  case_bool_decide as Hkeys; [|done]. intros [= <-]. split; [split_and!|].
  - by apply wf_update.
  - done.
  - intros r Hr. apply update_by_key_other; [apply Hin; by right|]. intros Hid. apply Hnot.
    rewrite <-Hid. by apply list_elem_of_In, in_map, list_elem_of_In.
  - intros q. apply update_by_key_count; [apply Hwf|]. apply Hin. by left.
Qed.

Lemma same_identity_settle st now key : same_identity (Attempt.settle st now key).
Proof. by intros r. Qed.

(** The key of a logical task is taken by an attempt that may have acted. *)
Definition fenced (k : string) (r : Attempt.t) : bool :=
  bool_decide (Attempt.idempotencyKey r = k) &&
  negb (bool_decide (Attempt.status r = AttemptStatus.starting)).

Definition fence (k : string) (s : ledger) : nat := count_where (fenced k) (attempts s).

Lemma fence_le_1 k s : ledger_wf s → fence k s ≤ 1.
Proof.
  intros Hwf. apply (count_where_key Attempt.idempotencyKey k); [apply Hwf|].
  intros r [Hk _]%andb_true_iff. by apply bool_decide_eq_true in Hk.
Qed.

Lemma fenced_rekeyed k st now key tag n r :
  is_raw_key k = true → fenced k (Attempt.settle st now (suffixed key tag n) r) = false.
Proof.
  intros Hk. unfold fenced. cbn. apply andb_false_iff. left. apply bool_decide_eq_false.
  by apply raw_not_suffixed.
Qed.

Lemma fenced_starting k r : Attempt.status r = AttemptStatus.starting → fenced k r = false.
Proof. intros Hs. unfold fenced. rewrite Hs. by rewrite andb_false_r. Qed.

(** Interrupting rows that have not started keeps every fence; so does
    interrupting running rows under their own key. *)
Lemma loop_keeps_fence k rows body s s' :
  is_raw_key k = true → pending rows s →
  (∀ row, row ∈ rows → ∃ f, body row = update_attempt (Attempt.id row) f ∧ same_identity f ∧
     fenced k (f row) = fenced k row) →
  tx_for rows body s = Ok (tt, s') → ledger_wf s' ∧ fence k s' = fence k s.
Proof.
  intros Hk Hp Hbody Hrun.
  enough (pending [] s' ∧ fence k s' = fence k s) as [[? _] ?] by done.
  apply (tx_for_inv (λ rest s1, (∀ row, row ∈ rest → row ∈ rows) ∧ pending rest s1 ∧
                                fence k s1 = fence k s) rows body s s') in Hrun as (_ & ? & ?);
    [done| |done].
  intros row rest s1 s2 (Hin & Hp1 & Hf1) Hstep.
  destruct (Hbody row) as (f & Hb & Hid & Hfr); [apply Hin; by left|]. rewrite Hb in Hstep.
  destruct (pending_step row rest s1 s2 f Hid Hp1 Hstep) as [Hp2 Hc]. split_and!.
  - intros r Hr. apply Hin. by right.
  - done.
  - specialize (Hc (fenced k)). unfold fence in *. rewrite Hfr in Hc. lia.
Qed.

Lemma insert_attempt_ok row s s' :
  insert_attempt row s = Ok (tt, s') → ledger_wf s' ∧ attempts s' = attempts s ++ [row].
Proof.
  unfold insert_attempt. destruct (negb _) eqn:E1; [done|].
  destruct (_ || _) eqn:E2; [done|].
  destruct (match Attempt.runId row with Some _ => _ | None => _ end); [done|]. intros [= <-].
  apply orb_false_elim in E2 as [E2 E3]. rewrite negb_false_iff, bool_decide_eq_true in E1, E2, E3.
  split; [by split|done].
Qed.

Lemma begin_loop_rows k now (rows : list Attempt.t) :
  is_raw_key k = true → (∀ row, row ∈ rows → Attempt.status row = AttemptStatus.starting) →
  ∀ row, row ∈ rows → ∃ f,
    update_attempt (Attempt.id row)
      (Attempt.settle AttemptStatus.interrupted now
         (suffixed (Attempt.idempotencyKey row) "interrupted" (Attempt.attemptNo row))) =
    update_attempt (Attempt.id row) f ∧ same_identity f ∧ fenced k (f row) = fenced k row.
Proof.
  intros Hk Hst row Hrow. eexists. split; [done|]. split; [apply same_identity_settle|].
  rewrite fenced_rekeyed, fenced_starting; auto.
Qed.

Lemma begin_keeps_fence k input newId now s res s' :
  is_raw_key k = true → ledger_wf s → beginTaskAttempt_tx input newId now s = Ok (res, s') →
  ledger_wf s' ∧ fence k s' = fence k s.
Proof.
  intros Hk Hwf Hrun. unfold beginTaskAttempt_tx in Hrun. tx_inv; try done.
  match goal with H : tx_for _ _ _ = Ok (?u, _) |- _ => destruct u; rename H into Hloop end.
  match goal with H : insert_attempt _ _ = Ok (?u, _) |- _ => destruct u; rename H into Hins end.
  apply (loop_keeps_fence k) in Hloop as [Hwf1 Hf1];
    [|done|by do 2 apply pending_select; apply pending_all|].
  - apply insert_attempt_ok in Hins as [Hwf2 Hatt]. split; [done|].
    unfold fence in *. rewrite Hatt, count_where_app, Hf1, count_where_cons.
    rewrite fenced_starting, count_where_nil by done. lia.
  - apply begin_loop_rows; [done|]. intros row [_ Hst]%elem_of_select.
    apply has_status_iff in Hst. by apply list_elem_of_singleton in Hst.
Qed.

Lemma interrupt_keeps_fence k p now s n s' :
  is_raw_key k = true → ledger_wf s → interrupt_tx p now s = Ok (n, s') →
  ledger_wf s' ∧ fence k s' = fence k s.
Proof.
  intros Hk Hwf Hrun. unfold interrupt_tx in Hrun. tx_inv.
  match goal with H : tx_for _ _ _ = Ok (?u, _) |- _ => destruct u; rename H into Hloop end.
  apply (loop_keeps_fence k) in Hloop; [done|done|by apply pending_select, pending_all|].
  intros row [_ [_ Hst]%andb_true_iff]%elem_of_select. eexists. split; [reflexivity|].
  split; [by intros r|]. apply has_status_iff in Hst.
  destruct (decide (Attempt.status row = AttemptStatus.starting)) as [E|E].
  - rewrite bool_decide_eq_true_2 by done. by rewrite fenced_rekeyed, fenced_starting.
  - rewrite bool_decide_eq_false_2 by done. unfold fenced. cbn.
    rewrite (bool_decide_eq_false_2 (Attempt.status row = _)) by done. done.
Qed.

(** One authorization takes away at most the fence of the key it names. *)
Lemma authorize_row_fence k now row s s' :
  ledger_wf s → authorize_row now row s = Ok (tt, s') →
  ledger_wf s' ∧
  fence k s ≤ fence k s' + (if bool_decide (Attempt.idempotencyKey row = k) then 1 else 0).
Proof.
  intros Hwf. unfold authorize_row. set (p := λ r, _). set (t := update_where _ _ _).
  destruct (bool_decide (NoDup (map Attempt.idempotencyKey t))) eqn:E1; [|done].
  destruct (bool_decide (count_where p (attempts s) = 1)) eqn:Hone; [|done].
  cbn [negb]. intros [= <-]. apply bool_decide_eq_true in E1, Hone.
  split; [by apply wf_update|].
  unfold fence. cbn. unfold t. rewrite (count_where_split (fenced k) p), count_where_update.
  enough (count_where (λ r, p r && fenced k r) (attempts s) ≤
          if bool_decide (Attempt.idempotencyKey row = k) then 1 else 0) by lia.
  case_bool_decide as Hkey.
  - rewrite <-Hone. apply count_where_mono. by intros r _ [? _]%andb_true_iff.
  - enough (count_where (λ r, p r && fenced k r) (attempts s) = 0) by lia.
    apply count_where_0. intros r _. apply andb_false_iff.
    destruct (p r) eqn:Hp; [right|by left]. unfold p in Hp.
    apply andb_true_iff in Hp as [[_ Hp]%andb_true_iff _]. apply bool_decide_eq_true in Hp.
    unfold fenced. rewrite bool_decide_eq_false_2 by congruence. done.
Qed.

Lemma authorize_fence k jobId now s n s' :
  ledger_wf s → authorize_tx jobId now s = Ok (n, s') →
  ledger_wf s' ∧
  fence k s ≤ fence k s' + count_where (λ r, bool_decide (Attempt.idempotencyKey r = k))
                             (select_where (replay_fenced jobId) (attempts s)).
Proof.
  intros Hwf Hrun. unfold authorize_tx in Hrun. tx_inv.
  match goal with H : tx_for _ _ _ = Ok (?u, _) |- _ => destruct u; rename H into Hloop end.
  set (rows := select_where _ _) in *.
  apply (tx_for_inv (λ rest s1, ledger_wf s1 ∧
           fence k s + count_where (λ r, bool_decide (Attempt.idempotencyKey r = k)) rest ≤
           fence k s1 + count_where (λ r, bool_decide (Attempt.idempotencyKey r = k)) rows))
    in Hloop as [Hwf' Hf]; [| |by split].
  - rewrite count_where_nil in Hf. split; [done|lia].
  - intros row rest s1 s2 [Hwf1 Hf1] Hstep. rewrite count_where_cons in Hf1.
    apply (authorize_row_fence k) in Hstep as [Hwf2 Hf2]; [|done]. split; [done|lia].
Qed.

Lemma run_transaction_keeps {A} (m : txM ledger string A) (P : ledger → Prop) s :
  P s → (∀ a s', m s = Ok (a, s') → P s') → P (run_transaction m s).2.
Proof. unfold run_transaction. intros HP Hm. destruct (m s) as [[a s']|e]; cbn; eauto. Qed.

(** An update under the same key never takes a fence away. *)
Lemma fence_update_keep k p f s js ts rs :
  (∀ r, Attempt.idempotencyKey (f r) = Attempt.idempotencyKey r) →
  (∀ r, Attempt.status (f r) ≠ AttemptStatus.starting) →
  fence k s ≤ fence k (mkLedger js ts rs (update_where p f (attempts s))).
Proof.
  intros Hk Hs. unfold fence. cbn. rewrite (count_where_split (fenced k) p), count_where_update.
  enough (count_where (λ r, p r && fenced k r) (attempts s) ≤
          count_where (λ r, p r && fenced k (f r)) (attempts s)) by lia.
  apply count_where_mono. intros r _ [Hp [Hf _]%andb_true_iff]%andb_true_iff.
  rewrite Hp. unfold fenced. rewrite Hk, Hf. by rewrite bool_decide_eq_false_2.
Qed.

Lemma mark_ok_or_none jobId taskId n s :
  ledger_wf s →
  (markTaskAttemptProviderStarted jobId taskId n s).1 = Ok tt ∨
  ∀ r, r ∈ attempts s → is_attempt jobId taskId n [AttemptStatus.starting] r = false.
Proof.
  intros Hwf. unfold markTaskAttemptProviderStarted. set (p := is_attempt _ _ _ _). cbn.
  case_bool_decide as Hc; [by left|]. right. intros r Hr. apply not_true_iff_false. intros Hp.
  assert (count_where p (attempts s) ≤ 1).
  { apply (count_where_key attempt_slot (jobId, taskId, n)); [apply Hwf|]. unfold p, is_attempt, of_task, attempt_slot.
    intros q [[[->%bool_decide_eq_true ->%bool_decide_eq_true]%andb_true_iff ->%bool_decide_eq_true]%andb_true_iff _]%andb_true_iff. done. }
  pose proof (count_where_pos _ _ _ Hr Hp). lia.
Qed.

Lemma provider_started_fence k jobId taskId n s :
  start_marks k (AProviderStarted jobId taskId n) s + fence k s ≤
  fence k (markTaskAttemptProviderStarted jobId taskId n s).2.
Proof.
  assert (start_marks k (AProviderStarted jobId taskId n) s ≤
          count_where (λ r, is_attempt jobId taskId n [AttemptStatus.starting] r &&
                            bool_decide (Attempt.idempotencyKey r = k)) (attempts s)) as Hm.
  { unfold start_marks, provider_callers. destruct (markTaskAttemptProviderStarted _ _ _ _).1; [|cbn; lia].
    rewrite length_map. done. }
  revert Hm. generalize (start_marks k (AProviderStarted jobId taskId n) s). intros m Hm.
  unfold fence, markTaskAttemptProviderStarted. cbn.
  set (p := is_attempt _ _ _ _) in *.
  rewrite (count_where_split (fenced k) p), count_where_update.
  enough (count_where (λ r, p r && fenced k r) (attempts s) = 0 ∧
          count_where (λ r, p r && bool_decide (Attempt.idempotencyKey r = k)) (attempts s) ≤
          count_where (λ r, p r && fenced k (Attempt.set_running r)) (attempts s)) by lia.
  clear Hm. split.
  - apply count_where_0. intros r _. apply andb_false_iff. destruct (p r) eqn:Hp; [right|by left].
    unfold p in Hp. apply andb_true_iff in Hp as [_ Hp]. apply has_status_iff in Hp.
    apply list_elem_of_singleton in Hp. by apply fenced_starting.
  - apply count_where_mono. intros r _ [Hp Hk]%andb_true_iff. rewrite Hp. unfold fenced. cbn.
    by rewrite Hk.
Qed.

Lemma attempt_exec_fence k o s :
  is_raw_key k = true → ledger_wf s →
  ledger_wf (attempt_exec o s) ∧
  start_marks k o s + fence k s ≤ replay_authorizations k o s + fence k (attempt_exec o s).
Proof.
  intros Hk Hwf. destruct o; cbn [attempt_exec].
  - cbn. unfold beginTaskAttempt. apply (run_transaction_keeps _ (λ s', ledger_wf s' ∧ fence k s ≤ fence k s')).
    + by split.
    + intros res s' Hrun. apply (begin_keeps_fence k) in Hrun as [? ->]; [by split|done..].
  - unfold replay_authorizations, authorizeUncertainTaskAttemptReplayForJob, run_transaction.
    destruct (authorize_tx jobId now s) as [[n s']|e] eqn:Hrun; cbn; [|by split; [|lia]].
    apply (authorize_fence k) in Hrun as [? ?]; [|done]. split; [done|lia].
  - split; [by apply wf_update_keep; try done; intros r|]. cbn [replay_authorizations].
    apply provider_started_fence.
  - cbn. unfold commitCompletedTaskAttempt.
    apply (run_transaction_keeps _ (λ s', ledger_wf s' ∧ fence k s ≤ fence k s')); [by split|].
    intros h s' Hrun. unfold commit_tx in Hrun.
    destruct (negb _); [done|]. destruct (negb _); [done|]. simplify_eq.
    split; [by apply wf_update_keep; try done; intros r|by apply fence_update_keep].
  - split; [by apply wf_update_keep; try done; intros r|]. cbn. by apply fence_update_keep.
  - cbn. unfold markRunningAttemptsInterruptedForJob.
    apply (run_transaction_keeps _ (λ s', ledger_wf s' ∧ fence k s ≤ fence k s')); [by split|].
    intros n s' Hrun. apply (interrupt_keeps_fence k) in Hrun as [? ->]; [by split|done..].
  - cbn. unfold markAllRunningAttemptsInterrupted.
    apply (run_transaction_keeps _ (λ s', ledger_wf s' ∧ fence k s ≤ fence k s')); [by split|].
    intros n s' Hrun. apply (interrupt_keeps_fence k) in Hrun as [? ->]; [by split|done..].
  - split; [by apply wf_elsewhere|done].
Qed.

Lemma attempt_run_fence k ops s :
  is_raw_key k = true → ledger_wf s →
  ledger_wf (attempt_run ops s) ∧
  total_over (start_marks k) ops s + fence k s ≤
  total_over (replay_authorizations k) ops s + fence k (attempt_run ops s).
Proof.
  intros Hk. revert s. induction ops as [|o ops IH]; intros s Hwf; cbn [total_over]; [by split|].
  destruct (attempt_exec_fence k o s Hk Hwf) as [Hwf' Hle].
  destruct (IH (attempt_exec o s) Hwf') as [? Hle']. split; [done|].
  change (attempt_run (o :: ops) s) with (attempt_run ops (attempt_exec o s)). lia.
Qed.

(** *** Who calls the provider *)

(** The attempt [c] runs under the key [k]. *)
Definition runs_under (k : string) (c : Z * option string) (s : ledger) : Prop :=
  ∃ r, r ∈ attempts s ∧ Attempt.idempotencyKey r = k ∧ Attempt.status r = AttemptStatus.running ∧
       c = (Attempt.attemptNo r, Attempt.runId r).

(** No attempt starts to run. *)
Definition calm (k : string) (s s' : ledger) : Prop := ∀ c, runs_under k c s' → runs_under k c s.

Lemma calm_update k p f s js ts rs :
  (∀ r, Attempt.status (f r) ≠ AttemptStatus.running) →
  calm k s (mkLedger js ts rs (update_where p f (attempts s))).
Proof.
  intros Hf c (r & (r0 & Hr0 & ->)%elem_of_update & Hk & Hst & Hc). destruct (p r0); [by destruct (Hf r0)|].
  by exists r0.
Qed.

Lemma calm_update_attempt k id f s s' :
  (∀ r, Attempt.status (f r) ≠ AttemptStatus.running) → update_attempt id f s = Ok (tt, s') → calm k s s'.
Proof. intros Hf. unfold update_attempt. case_bool_decide; [|done]. intros [= <-]. by apply calm_update. Qed.

Lemma calm_for k (rows : list Attempt.t) body s s' :
  (∀ row s1 s2, body row s1 = @Ok string _ (tt, s2) → calm k s1 s2) → tx_for rows body s = Ok (tt, s') → calm k s s'.
Proof.
  intros Hbody Hrun. apply (tx_for_inv (λ _ s1, calm k s s1)) in Hrun; [done| |by intros c].
  intros row rest s1 s2 Hc Hstep c Hs. by eapply Hc, Hbody.
Qed.

Lemma calm_begin k input newId now s res s' : beginTaskAttempt_tx input newId now s = Ok (res, s') → calm k s s'.
Proof.
  intros Hrun. unfold beginTaskAttempt_tx in Hrun. tx_inv; try (by intros c).
  match goal with H : tx_for _ _ _ = Ok (?u, _) |- _ => destruct u; rename H into Hloop end.
  match goal with H : insert_attempt _ _ = Ok (?u, _) |- _ => destruct u; rename H into Hins end.
  apply (calm_for k) in Hloop; [|intros row s1 s2; by apply calm_update_attempt].
  apply insert_attempt_ok in Hins as [_ Hatt]. intros c (r & Hr & Hk & Hst & Hc). apply Hloop.
  rewrite Hatt in Hr. apply elem_of_snoc in Hr as [Hr| ->]; [by exists r|done].
Qed.

Lemma calm_interrupt k p now s n s' : interrupt_tx p now s = Ok (n, s') → calm k s s'.
Proof.
  intros Hrun. unfold interrupt_tx in Hrun. tx_inv.
  match goal with H : tx_for _ _ _ = Ok (?u, _) |- _ => destruct u; rename H into Hloop end.
  revert Hloop. apply calm_for. intros row s1 s2. by apply calm_update_attempt.
Qed.

Lemma calm_authorize k jobId now s n s' : authorize_tx jobId now s = Ok (n, s') → calm k s s'.
Proof.
  intros Hrun. unfold authorize_tx in Hrun. tx_inv.
  match goal with H : tx_for _ _ _ = Ok (?u, _) |- _ => destruct u; rename H into Hloop end.
  revert Hloop. apply calm_for. intros row s1 s2. unfold authorize_row.
  destruct (negb _); [done|]. destruct (bool_decide _); [|done]. intros [= <-]. by apply calm_update.
Qed.

Lemma resumed_runs k input newId now s n s' :
  beginTaskAttempt_tx input newId now s = Ok (Resumed n k, s') → runs_under k (n, bi_runId input) s.
Proof.
  intros Hrun. unfold beginTaskAttempt_tx in Hrun. tx_inv; try done.
  match goal with H : List.find (is_uncertain _) _ = Some ?u |- _ => apply find_elem in H as [Hu Hk]; exists u end.
  apply elem_of_select in Hu as [Hu _]. apply andb_true_iff in Hk as [Hk%bool_decide_eq_true _].
  match goal with H : (_ && _ && _) = true |- _ => apply andb_true_iff in H as [[Hst%bool_decide_eq_true _]%andb_true_iff Hr%bool_decide_eq_true] end.
  simplify_eq. by rewrite Hr.
Qed.

(** A caller runs already, or its start is marked by this very operation. *)
Lemma callers_now k o s c :
  c ∈ provider_callers k o s → runs_under k c s ∨ start_marks k o s = length (provider_callers k o s).
Proof.
  destruct o; cbn [start_marks]; [|intros Hc; cbn in Hc; by apply not_elem_of_nil in Hc|by right|intros Hc; cbn in Hc; by apply not_elem_of_nil in Hc..].
  intros Hc. left. cbn in Hc. unfold beginTaskAttempt, run_transaction in Hc.
  destruct (beginTaskAttempt_tx _ _ _ _) as [[[] ?]|] eqn:E; cbn in Hc; try by apply not_elem_of_nil in Hc.
  case_bool_decide; [|by apply not_elem_of_nil in Hc]. apply list_elem_of_singleton in Hc as ->. subst. by eapply resumed_runs.
Qed.

(** Whoever runs afterwards ran before or was marked. *)
Lemma runs_next k o s c :
  ledger_wf s → runs_under k c (attempt_exec o s) →
  runs_under k c s ∨ c ∈ provider_callers k o s ∧ start_marks k o s = length (provider_callers k o s).
Proof.
  intros Hwf. revert c. destruct o; cbn [attempt_exec start_marks].
  - intros c Hc. left. revert c Hc. unfold beginTaskAttempt.
    apply (run_transaction_keeps _ (calm k s)); [by intros c|]. intros res s'. apply calm_begin.
  - intros c Hc. left. revert c Hc. unfold authorizeUncertainTaskAttemptReplayForJob.
    apply (run_transaction_keeps _ (calm k s)); [by intros c|]. intros res s'. apply calm_authorize.
  - intros c (r & (r0 & Hr0 & ->)%elem_of_update & Hk & Hst & ->).
    destruct (is_attempt _ _ _ _ r0) eqn:Hp; [|left; by exists r0]. right. split; [|done]. cbn in Hk.
    destruct (mark_ok_or_none jobId taskId attemptNo s Hwf) as [Hok|Hno]; [|by rewrite Hno in Hp].
    unfold provider_callers. rewrite Hok. apply list_elem_of_In, in_map_iff. exists r0. split; [done|].
    apply list_elem_of_In, elem_of_select. split; [done|]. by rewrite Hp, Hk, bool_decide_eq_true_2.
  - intros c Hc. left. revert c Hc. unfold commitCompletedTaskAttempt.
    apply (run_transaction_keeps _ (calm k s)); [by intros c|]. intros res s' Hrun. unfold commit_tx in Hrun.
    destruct (negb _); [done|]. destruct (negb _); [done|]. simplify_eq. by apply calm_update.
  - intros c Hc. left. revert c Hc. by apply calm_update.
  - intros c Hc. left. revert c Hc. unfold markRunningAttemptsInterruptedForJob.
    apply (run_transaction_keeps _ (calm k s)); [by intros c|]. intros res s'. apply calm_interrupt.
  - intros c Hc. left. revert c Hc. unfold markAllRunningAttemptsInterrupted.
    apply (run_transaction_keeps _ (calm k s)); [by intros c|]. intros res s'. apply calm_interrupt.
  - intros c (r & Hr). left. by exists r.
Qed.

(** The callers after [s] are those that run in [s] and those whose start is marked
    later. *)
Lemma callers_listed k ops s :
  ledger_wf s → ∃ marked, length marked ≤ total_over (start_marks k) ops s ∧
    ∀ c, c ∈ all_callers k ops s → runs_under k c s ∨ c ∈ marked.
Proof.
  revert s. induction ops as [|o ops IH]; intros s Hwf; [by exists []; split; [|set_solver]|]. cbn [all_callers total_over].
  pose proof (callers_now k o s) as Hnow. pose proof (λ c, runs_next k o s c Hwf) as Hnext.
  destruct (IH (attempt_exec o s)) as (l & Hl & Hin).
  { by apply (attempt_exec_fence "0000000000000000000000000000000000000000000000000000000000000000"). }
  destruct (decide (start_marks k o s = length (provider_callers k o s))) as [E|E].
  - exists (provider_callers k o s ++ l). split; [rewrite length_app; lia|].
    intros c [Hc|Hc]%elem_of_app; [set_solver|]. apply Hin in Hc as [Hc|Hc]; [|set_solver].
    apply Hnext in Hc as [?|[? _]]; set_solver.
  - exists l. split; [lia|]. intros c [Hc|Hc]%elem_of_app; [apply Hnow in Hc as [?|?]; [by left|done]|].
    apply Hin in Hc as [Hc|Hc]; [|by right]. apply Hnext in Hc as [?|[_ ?]]; [by left|done].
Qed.

(** The key is held by an attempt that ended. *)
Definition ended_under (k : string) (s : ledger) : bool :=
  existsb (λ r, bool_decide (Attempt.idempotencyKey r = k) &&
                has_status [AttemptStatus.completed; AttemptStatus.interrupted; AttemptStatus.failed] r) (attempts s).

Lemma one_runs_under k s c1 c2 : ledger_wf s → runs_under k c1 s → runs_under k c2 s → c1 = c2.
Proof.
  intros Hwf (r1 & H1 & K1 & _ & ->) (r2 & H2 & K2 & _ & ->).
  rewrite (unique_key Attempt.idempotencyKey (attempts s) r1 r2); [done|apply Hwf|done|done|congruence].
Qed.

Lemma covered_length {A} `{EqDecision A} (l m : list A) : (∀ x, x ∈ l → x ∈ m) → length (remove_dups l) ≤ length m.
Proof.
  intros Hin. apply submseteq_length, list.NoDup_submseteq; [apply NoDup_remove_dups|].
  intros x Hx. apply Hin. by apply elem_of_remove_dups.
Qed.

(** C2: One attempt per authorization calls the provider: over any sequence of operations on a
    table of task attempts that meets its unique indexes, and whatever other code does to the
    job and task rows in between, the provider may be called many times under one idempotency
    key (a hash, as it is derived from the task) -- after the start of an attempt is marked, and
    again each time its run resumes it -- but the attempts (with the run each belongs to) that
    call it are never more than the authorized replays of the task plus one; and not that one
    more if at the start the key is held by an attempt that ended. *)
Theorem provider_calls_are_authorized k ops s :
  is_raw_key k = true → ledger_wf s →
  length (remove_dups (all_callers k ops s)) ≤
  total_over (replay_authorizations k) ops s + (if ended_under k s then 0 else 1).
Proof.
  intros Hk Hwf. destruct (attempt_run_fence k ops s Hk Hwf) as [Hwf' Hle]. pose proof (fence_le_1 k _ Hwf') as Hend.
  destruct (callers_listed k ops s Hwf) as (l & Hl & Hin).
  assert (ended_under k s = true → 1 ≤ fence k s ∧ ∀ c, ¬ runs_under k c s) as Hended.
  { intros (r & Hr & [Hkr%bool_decide_eq_true Hst%has_status_iff]%andb_true_iff)%existsb_exists. apply list_elem_of_In in Hr. split.
    - eapply count_where_pos; [done|]. unfold fenced. rewrite (bool_decide_eq_true_2 _ Hkr). cbn.
      destruct (Attempt.status r); try done. apply (bool_decide_pack _) in Hst. done.
    - intros c (r' & Hr' & Hk' & Hrun & _).
      assert (r' = r) as -> by (apply (unique_key Attempt.idempotencyKey (attempts s)); try done; [apply Hwf|congruence]).
      rewrite Hrun in Hst. apply (bool_decide_pack _) in Hst. done. }
  destruct (List.find (λ r, bool_decide (Attempt.idempotencyKey r = k) && has_status [AttemptStatus.running] r) (attempts s)) as [r|] eqn:Ef.
  - apply find_elem in Ef as [Hr [Hkr%bool_decide_eq_true Hst%has_status_iff%list_elem_of_singleton]%andb_true_iff].
    assert (runs_under k (Attempt.attemptNo r, Attempt.runId r) s) as Hrun by (by exists r).
    destruct (ended_under k s) eqn:Ee; [by destruct (proj2 (Hended eq_refl) _ Hrun)|].
    assert (1 ≤ fence k s).
    { eapply count_where_pos; [done|]. unfold fenced. by rewrite (bool_decide_eq_true_2 _ Hkr), Hst. }
    assert (length (remove_dups (all_callers k ops s)) ≤ S (length l)); [|lia].
    apply (covered_length _ ((Attempt.attemptNo r, Attempt.runId r) :: l)). intros c [Hc|Hc]%Hin; [|by right].
    rewrite (one_runs_under k s c _ Hwf Hc Hrun). left.
  - assert (length (remove_dups (all_callers k ops s)) ≤ length l).
    { apply covered_length. intros c [(q & Hq & Hkq & Hst & _)|Hc]%Hin; [|done]. rewrite find_none_elem in Ef.
      specialize (Ef q Hq). rewrite (bool_decide_eq_true_2 _ Hkq) in Ef. unfold has_status in Ef. cbn in Ef.
      by rewrite Hst in Ef. }
    destruct (ended_under k s) eqn:Ee; [destruct (Hended eq_refl) as [? _]; lia|lia].
Qed.

(** ** Completed attempts *)

Lemma update_other_row r row f s s' :
  r ∈ attempts s → Attempt.id r ≠ Attempt.id row →
  update_attempt (Attempt.id row) f s = Ok (tt, s') → r ∈ attempts s'.
Proof.
  intros Hr Hne. unfold update_attempt. case_bool_decide; [|done]. intros [= <-].
  by apply update_by_key_other.
Qed.

Lemma loop_keeps_row r (rows : list Attempt.t) body s s' :
  r ∈ attempts s →
  (∀ row, row ∈ rows → Attempt.id r ≠ Attempt.id row ∧
     ∃ f, body row = update_attempt (Attempt.id row) f) →
  tx_for rows body s = Ok (tt, s') → r ∈ attempts s'.
Proof.
  intros Hr Hrows Hrun.
  apply (tx_for_inv (λ rest s1, (∀ row, row ∈ rest → row ∈ rows) ∧ r ∈ attempts s1)) in Hrun
    as [_ ?]; [done| |done].
  intros row rest s1 s2 [Hin Hr1] Hstep.
  destruct (Hrows row) as (Hne & f & Hb); [apply Hin; by left|]. rewrite Hb in Hstep. split.
  - intros q Hq. apply Hin. by right.
  - by eapply update_other_row.
Qed.

Lemma other_status_other_id s r row :
  ledger_wf s → r ∈ attempts s → row ∈ attempts s → Attempt.status r ≠ Attempt.status row →
  Attempt.id r ≠ Attempt.id row.
Proof.
  intros Hwf Hr Hrow Hst Hid. apply Hst.
  by rewrite (unique_key Attempt.id (attempts s) r row) by (done || apply Hwf).
Qed.

Lemma update_misses r p f (t : list Attempt.t) : r ∈ t → p r = false → r ∈ update_where p f t.
Proof. intros Hr Hp. apply elem_of_update. exists r. by rewrite Hp. Qed.

Lemma not_attempt jobId taskId n sts r :
  Attempt.status r ∉ sts → is_attempt jobId taskId n sts r = false.
Proof.
  intros Hst. unfold is_attempt. apply andb_false_iff. right.
  apply not_true_iff_false. by rewrite has_status_iff.
Qed.

(** An attempt that ended. *)
Definition settled (r : Attempt.t) : Prop :=
  Attempt.status r ∈ [AttemptStatus.completed; AttemptStatus.interrupted; AttemptStatus.failed].

Lemma settled_closed r : settled r → Attempt.status r ∉ NON_TERMINAL_STATUSES.
Proof.
  unfold settled, NON_TERMINAL_STATUSES. destruct (Attempt.status r); intros Hin;
    apply (bool_decide_pack _) in Hin; try done; by apply (bool_decide_unpack _).
Qed.

Lemma settled_attempt jobId taskId n sts r :
  settled r → (∀ st, st ∈ sts → st ∈ NON_TERMINAL_STATUSES) → is_attempt jobId taskId n sts r = false.
Proof. intros Hr Hsub. apply not_attempt. intros Hin. by apply (settled_closed r Hr), Hsub. Qed.

(** [o] is not a consent to replay [r]. *)
Definition no_consent (r : Attempt.t) (o : attempt_op) : Prop :=
  match o with
  | AAuthorize j _ => j = Attempt.jobId r → Attempt.status r = AttemptStatus.completed
  | _ => True
  end.

Lemma settled_kept_begin r input newId now s res s' :
  ledger_wf s → r ∈ attempts s → settled r →
  beginTaskAttempt_tx input newId now s = Ok (res, s') → r ∈ attempts s'.
Proof.
  intros Hwf Hr Hst Hrun. unfold beginTaskAttempt_tx in Hrun. tx_inv; try done.
  match goal with H : tx_for _ _ _ = Ok (?u, _) |- _ => destruct u; rename H into Hloop end.
  match goal with H : insert_attempt _ _ = Ok (?u, _) |- _ => destruct u; rename H into Hins end.
  apply insert_attempt_ok in Hins as [_ Hatt]. rewrite Hatt. apply elem_of_snoc. left.
  apply (loop_keeps_row r) in Hloop; [done..|].
  intros row [[Hrow _]%elem_of_select Hs]%elem_of_select. apply has_status_iff in Hs.
  split; [|by eexists]. apply (other_status_other_id s); try done.
  intros E. rewrite <-E in Hs. apply (settled_closed r Hst). unfold NON_TERMINAL_STATUSES.
  apply list_elem_of_singleton in Hs as ->. left.
Qed.

Lemma settled_kept_interrupt r p now s n s' :
  ledger_wf s → r ∈ attempts s → settled r →
  interrupt_tx p now s = Ok (n, s') → r ∈ attempts s'.
Proof.
  intros Hwf Hr Hst Hrun. unfold interrupt_tx in Hrun. tx_inv.
  match goal with H : tx_for _ _ _ = Ok (?u, _) |- _ => destruct u; rename H into Hloop end.
  apply (loop_keeps_row r) in Hloop; [done..|].
  intros row [Hrow [_ Hs]%andb_true_iff]%elem_of_select. apply has_status_iff in Hs.
  split; [|by eexists]. apply (other_status_other_id s); try done.
  intros E. rewrite <-E in Hs. by apply (settled_closed r Hst).
Qed.

Lemma settled_kept_authorize r jobId now s n s' :
  ledger_wf s → r ∈ attempts s → (jobId = Attempt.jobId r → Attempt.status r = AttemptStatus.completed) →
  authorize_tx jobId now s = Ok (n, s') → r ∈ attempts s'.
Proof.
  intros Hwf Hr Hst Hrun. unfold authorize_tx in Hrun. tx_inv.
  match goal with H : tx_for _ _ _ = Ok (?u, _) |- _ => destruct u; rename H into Hloop end.
  apply (tx_for_inv (λ rest s1, (∀ row, row ∈ rest → Attempt.id r ≠ Attempt.id row) ∧
                                r ∈ attempts s1)) in Hloop as [_ ?]; [done| |].
  - intros row rest s1 s2 [Hrows Hr1] Hstep. split; [intros q Hq; apply Hrows; by right|].
    specialize (Hrows row (list_elem_of_here _ _)).
    unfold authorize_row in Hstep. destruct (negb _); [done|]. destruct (bool_decide _); [|done].
    simplify_eq. apply update_misses; [done|]. by rewrite bool_decide_eq_false_2.
  - split; [|done]. intros row [Hrow [[Hj Hs]%andb_true_iff _]%andb_true_iff]%elem_of_select Hid.
    assert (r = row) as <- by (apply (unique_key Attempt.id (attempts s)); try done; apply Hwf).
    apply bool_decide_eq_true in Hj. apply has_status_iff in Hs. rewrite Hst in Hs by done.
    unfold UNCERTAIN_STATUSES in Hs. set_solver.
Qed.

Lemma settled_kept r o s :
  ledger_wf s → r ∈ attempts s → settled r → no_consent r o → r ∈ attempts (attempt_exec o s).
Proof.
  intros Hwf Hr Hst Hc. destruct o; cbn [attempt_exec].
  - apply (run_transaction_keeps _ (λ s', r ∈ attempts s')); [done|].
    intros res s'. by eapply settled_kept_begin.
  - apply (run_transaction_keeps _ (λ s', r ∈ attempts s')); [done|].
    intros n s'. by apply settled_kept_authorize.
  - apply update_misses; [done|]. apply settled_attempt; [done|]. unfold NON_TERMINAL_STATUSES. set_solver.
  - apply (run_transaction_keeps _ (λ s', r ∈ attempts s')); [done|].
    intros h s' Hrun. unfold commit_tx in Hrun. destruct (negb _); [done|]. destruct (negb _); [done|].
    simplify_eq. apply update_misses; [done|]. apply settled_attempt; [done|]. unfold NON_TERMINAL_STATUSES. set_solver.
  - apply update_misses; [done|]. by apply settled_attempt.
  - apply (run_transaction_keeps _ (λ s', r ∈ attempts s')); [done|].
    intros n s'. by apply settled_kept_interrupt.
  - apply (run_transaction_keeps _ (λ s', r ∈ attempts s')); [done|].
    intros n s'. by apply settled_kept_interrupt.
  - done.
Qed.

Lemma attempt_exec_wf o s : ledger_wf s → ledger_wf (attempt_exec o s).
Proof.
  intros Hwf.
  by destruct (attempt_exec_fence "0000000000000000000000000000000000000000000000000000000000000000"
                 o s eq_refl Hwf).
Qed.

Lemma settled_kept_run r ops s :
  ledger_wf s → r ∈ attempts s → settled r → Forall (no_consent r) ops →
  ledger_wf (attempt_run ops s) ∧ r ∈ attempts (attempt_run ops s).
Proof.
  intros Hwf Hr Hst Hops. revert s Hwf Hr. induction Hops as [|o ops Hc Hops IH]; intros s Hwf Hr; [done|].
  apply IH; [by apply attempt_exec_wf|by apply settled_kept].
Qed.

(** What [beginTaskAttempt] does in each state of the ledger. *)
Lemma begin_completed input newId now s r :
  r ∈ attempts s → of_task (bi_jobId input) (bi_taskId input) r = true →
  Attempt.status r = AttemptStatus.completed →
  match beginTaskAttempt input newId now s with
  | (Ok res, s') => res = AlreadyCompleted ∧ s' = s
  | (Err e, s') => (e = "task_attempt.job_not_found" ∨ e = "task_attempt.task_not_in_job") ∧ s' = s
  end.
Proof.
  intros Hr Ht Hst. unfold beginTaskAttempt, run_transaction, beginTaskAttempt_tx.
  rewrite tx_bind_gets. destruct (List.find _ (lg_jobs s)); [|by split; [left|]].
  rewrite tx_bind_gets. destruct (List.find _ (lg_tasks s)); [|by split; [right|]].
  rewrite tx_bind_gets. rewrite (proj2 (existsb_exists _ _)); [done|].
  exists r. split; [by apply list_elem_of_In, elem_of_select|]. apply has_status_iff. rewrite Hst. left.
Qed.

(** A completed attempt is never changed by any sequence of operations, and its task never
    begins again: beginning it reports already_completed without a change. *)
Theorem completed_task_is_final ops s r :
  ledger_wf s → r ∈ attempts s → Attempt.status r = AttemptStatus.completed →
  let s' := attempt_run ops s in
  r ∈ attempts s' ∧
  ∀ input newId now, bi_jobId input = Attempt.jobId r → bi_taskId input = Attempt.taskId r →
    match beginTaskAttempt input newId now s' with
    | (Ok res, s'') => res = AlreadyCompleted ∧ s'' = s'
    | (Err e, s'') => (e = "task_attempt.job_not_found" ∨ e = "task_attempt.task_not_in_job") ∧ s'' = s'
    end.
Proof.
  intros Hwf Hr Hst s'.
  destruct (settled_kept_run r ops s) as [_ Hr']; [done..|by unfold settled; rewrite Hst; left| |].
  { apply list.Forall_true. intros []; cbn; auto. }
  split; [done|]. intros input newId now Hj Ht. apply (begin_completed _ _ _ _ r); try done.
  unfold of_task. by rewrite Hj, Ht, !bool_decide_eq_true_2.
Qed.

(** ** Uncertain outcomes *)

Lemma begin_uncertain input newId now s r job :
  ledger_wf s → List.find (λ j, bool_decide (lj_id j = bi_jobId input)) (lg_jobs s) = Some job →
  r ∈ attempts s → of_task (bi_jobId input) (bi_taskId input) r = true →
  Attempt.idempotencyKey r =
    deriveTaskIdempotencyKey (bi_jobId input) (bi_taskId input) (attempt_revision input job) →
  Attempt.status r = AttemptStatus.interrupted ∨ Attempt.status r = AttemptStatus.failed →
  match beginTaskAttempt input newId now s with
  | (Ok res, s') =>
      (res = AlreadyCompleted ∨
       res = BlockedUncertain (Attempt.attemptNo r) (Attempt.idempotencyKey r) (Attempt.status r)) ∧ s' = s
  | (Err e, s') => e = "task_attempt.task_not_in_job" ∧ s' = s
  end.
Proof.
  intros Hwf Hjob Hr Ht Hkey Hst. unfold beginTaskAttempt, run_transaction, beginTaskAttempt_tx.
  rewrite tx_bind_gets, Hjob. rewrite tx_bind_gets. destruct (List.find _ (lg_tasks s)); [|done].
  rewrite tx_bind_gets. destruct (existsb _ _); [by split; [left|]|]. cbv zeta. rewrite <-Hkey.
  set (rows := select_where _ _).
  assert (r ∈ rows) as Hrows by (by apply elem_of_select).
  assert (is_uncertain (Attempt.idempotencyKey r) r = true) as Hu.
  { unfold is_uncertain. rewrite bool_decide_eq_true_2 by done. apply has_status_iff.
    unfold UNCERTAIN_STATUSES. destruct Hst as [-> | ->]; set_solver. }
  destruct (List.find (is_uncertain (Attempt.idempotencyKey r)) rows) as [u|] eqn:Hf.
  - apply find_elem in Hf as [Hur [Hku _]%andb_true_iff]. apply bool_decide_eq_true in Hku.
    assert (u = r) as ->.
    { apply (unique_key Attempt.idempotencyKey (attempts s)); try done; [apply Hwf|].
      by apply elem_of_select in Hur as [? _]. }
    rewrite bool_decide_eq_false_2 by (destruct Hst; congruence). by split; [right|].
  - rewrite find_none_elem in Hf. by rewrite Hf in Hu.
Qed.

(** An interrupted run leaves its attempt under its own key. *)
Lemma interrupt_running r now s n s' :
  ledger_wf s → r ∈ attempts s → Attempt.status r = AttemptStatus.running →
  interrupt_tx (λ _, true) now s = Ok (n, s') →
  Attempt.settle AttemptStatus.interrupted now (Attempt.idempotencyKey r) r ∈ attempts s'.
Proof.
  intros Hwf Hr Hst Hrun. unfold interrupt_tx in Hrun. tx_inv.
  match goal with H : tx_for _ _ _ = Ok (?u, _) |- _ => destruct u; rename H into Hloop end.
  set (r' := Attempt.settle _ _ _ _).
  apply (tx_for_inv (λ rest s1, pending rest s1 ∧
           (r ∈ rest ∨ r' ∈ attempts s1 ∧ Attempt.id r ∉ map Attempt.id rest))) in Hloop;
    [destruct Hloop as [_ [Hnil|[? _]]]; [by apply not_elem_of_nil in Hnil|done]| |].
  - intros row rest s1 s2 [Hp Hor] Hstep. unfold interrupt_row in Hstep.
    pose proof Hp as (Hwf1 & Hnd & Hin). cbn in Hnd. apply list.NoDup_cons in Hnd as [Hnot _].
    pose proof Hstep as Hstep'. eapply pending_step in Hstep' as [Hp2 _]; [|by intros q|done].
    split; [done|]. destruct Hor as [[->|Hrest]%elem_of_cons|[Hr1 Hn]].
    + right. split; [|done]. unfold update_attempt in Hstep. destruct (bool_decide (NoDup _)); [|done].
      simplify_eq. cbn. apply elem_of_update. exists row. split; [apply Hin; by left|].
      rewrite bool_decide_eq_true_2 by done. by rewrite bool_decide_eq_false_2 by congruence.
    + by left.
    + right. split; [|set_solver]. eapply (update_other_row r'); [done| |done].
      cbn. set_solver.
  - split; [by apply pending_select, pending_all|]. left. apply elem_of_select. split; [done|].
    change (has_status NON_TERMINAL_STATUSES r = true). apply has_status_iff. rewrite Hst.
    right. left.
Qed.

(** An attempt that was running when the process died is not repeated silently: until a
    replay of the job is authorized, every later attempt to begin the task under the same key is
    answered with blocked_uncertain (or already completed) and changes nothing. *)
Theorem uncertain_outcome_needs_consent r now ops s s1 n :
  ledger_wf s → r ∈ attempts s → Attempt.status r = AttemptStatus.running →
  markAllRunningAttemptsInterrupted now s = (Ok n, s1) →
  Forall (λ o, ∀ t, o ≠ AAuthorize (Attempt.jobId r) t) ops →
  let s' := attempt_run ops s1 in
  ∀ input newId now' job,
    bi_jobId input = Attempt.jobId r → bi_taskId input = Attempt.taskId r →
    List.find (λ j, bool_decide (lj_id j = bi_jobId input)) (lg_jobs s') = Some job →
    Attempt.idempotencyKey r =
      deriveTaskIdempotencyKey (bi_jobId input) (bi_taskId input) (attempt_revision input job) →
    match beginTaskAttempt input newId now' s' with
    | (Ok res, s'') =>
        (res = AlreadyCompleted ∨
         res = BlockedUncertain (Attempt.attemptNo r) (Attempt.idempotencyKey r) AttemptStatus.interrupted) ∧
        s'' = s'
    | (Err e, s'') => e = "task_attempt.task_not_in_job" ∧ s'' = s'
    end.
Proof.
  intros Hwf Hr Hst Hint Hops s' input newId now' job Hj Ht Hjob Hkey.
  assert (Attempt.settle AttemptStatus.interrupted now (Attempt.idempotencyKey r) r ∈ attempts s1 ∧
          ledger_wf s1) as [Hr1 Hwf1].
  { unfold markAllRunningAttemptsInterrupted in Hint. apply run_transaction_ok in Hint. split.
    - by eapply interrupt_running.
    - by apply (interrupt_keeps_fence "0000000000000000000000000000000000000000000000000000000000000000")
        in Hint as [? _]. }
  destruct (settled_kept_run _ ops s1 Hwf1 Hr1) as [Hwf' Hr'].
  - unfold settled. cbn. set_solver.
  - eapply Forall_impl; [exact Hops|]. intros [] Ho; try done. intros ->. by edestruct Ho.
  - pose proof (begin_uncertain input newId now' s' _ job Hwf' Hjob Hr') as Hb. cbn in Hb.
    apply Hb; [|done|by left]. unfold of_task. by rewrite Hj, Ht, !bool_decide_eq_true_2.
Qed.
End specs.
