(* ===== verification/SavedPlan.v ===== *)
(** * Saved job plans

    The plan of a job as [src/shared/contracts/plan.ts] has it: a tree of
    milestones, slices and tasks beside the flat list of the same tasks, and
    the ids [m1-s2-t3] that tie the two together, with the regular expressions
    of [src/server/legacy-control-plane/repair-tasks.ts] that read them back.
    Indexes are integers; JavaScript represents them exactly below 2^53. *)
From S2P Require Import Prelude JsString.
From stdpp Require Import pretty.
From Stdlib Require Import Ascii.

#[local] Arguments bool_decide : simpl never.

Module PlannerRegisteredTask.
Record t := mk {
  title : option string;
  description : option string;
  taskKind : string;
  abilityCode : option string;
  referenceIds : option (list string);
  referenceReason : option string;
  dependsOnTaskRefs : option (list string);
  requiredInputs : option (list string);
  successCriteria : option string;
  canRunInParallel : option bool;
  confirmed : option bool
}.

#[global] Instance eq_dec : EqDecision t.
Proof. solve_decision. Defined.

Definition set_dependsOnTaskRefs (refs : option (list string)) (r : t) : t :=
  mk (title r) (description r) (taskKind r) (abilityCode r) (referenceIds r) (referenceReason r) refs
    (requiredInputs r) (successCriteria r) (canRunInParallel r) (confirmed r).
Definition set_confirmed (c : option bool) (r : t) : t :=
  mk (title r) (description r) (taskKind r) (abilityCode r) (referenceIds r) (referenceReason r)
    (dependsOnTaskRefs r) (requiredInputs r) (successCriteria r) (canRunInParallel r) c.
End PlannerRegisteredTask.

Module PlannerRegisteredSlice.
Record t := mk {
  title : option string;
  description : option string;
  successCriteria : string;
  dependsOnSliceRefs : option (list string);
  confirmed : option bool;
  tasks : list PlannerRegisteredTask.t
}.

#[global] Instance eq_dec : EqDecision t.
Proof. solve_decision. Defined.

Definition set_tasks (ts : list PlannerRegisteredTask.t) (s : t) : t :=
  mk (title s) (description s) (successCriteria s) (dependsOnSliceRefs s) (confirmed s) ts.
Definition set_confirmed (c : option bool) (s : t) : t :=
  mk (title s) (description s) (successCriteria s) (dependsOnSliceRefs s) c (tasks s).
End PlannerRegisteredSlice.

Module PlannerRegisteredMilestone.
Record t := mk {
  title : option string;
  description : option string;
  successCriteria : option string;
  confirmed : option bool;
  slices : list PlannerRegisteredSlice.t
}.

#[global] Instance eq_dec : EqDecision t.
Proof. solve_decision. Defined.

Definition set_slices (ss : list PlannerRegisteredSlice.t) (m : t) : t :=
  mk (title m) (description m) (successCriteria m) (confirmed m) ss.
Definition set_confirmed (c : option bool) (m : t) : t :=
  mk (title m) (description m) (successCriteria m) c (slices m).
End PlannerRegisteredMilestone.

Module FlatTaskPlan.
Record t := mk {
  id : string;
  milestoneIndex : Z;
  sliceIndex : Z;
  taskIndex : Z;
  title : string;
  description : string;
  taskKind : string;
  abilityCode : string;
  contextMarkdown : string;
  coreCode : option string;
  successCriteria : string;
  referenceIds : option (list string);
  referenceReason : option string;
  dependsOnTaskRefs : option (list string);
  canRunInParallel : option bool;
  confirmed : option bool
}.

#[global] Instance eq_dec : EqDecision t.
Proof. solve_decision. Defined.

Definition set_dependsOnTaskRefs (refs : option (list string)) (f : t) : t :=
  mk (id f) (milestoneIndex f) (sliceIndex f) (taskIndex f) (title f) (description f)
    (taskKind f) (abilityCode f) (contextMarkdown f) (coreCode f) (successCriteria f)
    (referenceIds f) (referenceReason f) refs (canRunInParallel f) (confirmed f).
Definition set_confirmed (c : option bool) (f : t) : t :=
  mk (id f) (milestoneIndex f) (sliceIndex f) (taskIndex f) (title f) (description f)
    (taskKind f) (abilityCode f) (contextMarkdown f) (coreCode f) (successCriteria f)
    (referenceIds f) (referenceReason f) (dependsOnTaskRefs f) (canRunInParallel f) c.
End FlatTaskPlan.

Module SavedJobPlan.
Record t := mk {
  milestones : list PlannerRegisteredMilestone.t;
  tasks : list FlatTaskPlan.t
}.
End SavedJobPlan.

(** [a[i]] of a JavaScript array: [undefined] out of range, also below 0. *)
Definition js_index {A} (l : list A) (i : Z) : option A :=
  if bool_decide (i < 0)%Z then None else l !! Z.to_nat i.

(** [a.map((x, i) => f(x, i))] *)
Definition mapi {A B} (f : nat → A → B) (l : list A) : list B := imap f l.

(** ** Ids *)

Definition milestone_id (m : Z) : string := "m" +:+ pretty m.
Definition slice_id (m s : Z) : string := milestone_id m +:+ "-s" +:+ pretty s.
Definition task_id (m s t : Z) : string := slice_id m s +:+ "-t" +:+ pretty t.

(** ** The regular expressions of ids *)

(** One literal character under the flag [i]. *)
Definition eat_char (c : ascii) (s : string) : option string :=
  match s with
  | String d s' => if bool_decide (lowerChar d = lowerChar c) then Some s' else None
  | EmptyString => None
  end.

Definition digit_value (c : ascii) : option Z :=
  let n := N_of_ascii c in
  if bool_decide (48 ≤ n ∧ n ≤ 57)%N then Some (Z.of_N n - 48)%Z else None.

(** [\d*] with the number read so far; no digit can be left for what follows,
    which is a letter, a dash or the end. *)
Fixpoint eat_digits (acc : Z) (s : string) : Z * string :=
  match s with
  | String c s' =>
      match digit_value c with
      | Some d => eat_digits (acc * 10 + d) s'
      | None => (acc, s)
      end
  | EmptyString => (acc, s)
  end.

(** [(\d+)] and [Number] of the group. *)
Definition eat_number (s : string) : option (Z * string) :=
  match s with
  | String c s' => match digit_value c with
                   | Some d => Some (eat_digits d s')
                   | None => None
                   end
  | EmptyString => None
  end.

Definition eat_end (s : string) : option unit :=
  match s with EmptyString => Some tt | _ => None end.

(** [/^m(\d+)$/i] *)
Definition match_milestone (s : string) : option Z :=
  s1 ← eat_char "m" s; '(m, s2) ← eat_number s1; _ ← eat_end s2; Some m.

(** [/^m(\d+)-s(\d+)$/i] *)
Definition match_slice (s : string) : option (Z * Z) :=
  s1 ← eat_char "m" s; '(m, s2) ← eat_number s1;
  s3 ← eat_char "-" s2; s4 ← eat_char "s" s3; '(sl, s5) ← eat_number s4;
  _ ← eat_end s5; Some (m, sl).

(** [/^m(\d+)-s(\d+)-t(\d+)$/i] *)
Definition match_task (s : string) : option (Z * Z * Z) :=
  s1 ← eat_char "m" s; '(m, s2) ← eat_number s1;
  s3 ← eat_char "-" s2; s4 ← eat_char "s" s3; '(sl, s5) ← eat_number s4;
  s6 ← eat_char "-" s5; s7 ← eat_char "t" s6; '(t, s8) ← eat_number s7;
  _ ← eat_end s8; Some (m, sl, t).

(** ** Reading ids back *)

Definition starts_plain (s : string) : Prop :=
  match s with String c _ => digit_value c = None | EmptyString => True end.

Lemma eat_digits_plain acc s : starts_plain s → eat_digits acc s = (acc, s).
Proof. destruct s; cbn; [done|]. by intros ->. Qed.

Lemma digit_value_pretty (d : N) :
  (d < 10)%N → digit_value (pretty_N_char d) = Some (Z.of_N d).
Proof.
  intros Hd. assert (d ∈ [0; 1; 2; 3; 4; 5; 6; 7; 8; 9]%N) as Hin.
  { rewrite !elem_of_cons. lia. }
  rewrite !elem_of_cons in Hin.
  destruct Hin as [->|[->|[->|[->|[->|[->|[->|[->|[->|[->|Hin]]]]]]]]]];
    [reflexivity..|by apply not_elem_of_nil in Hin].
Qed.

Lemma eat_digits_pretty (x : N) s :
  eat_digits 0 (pretty_N_go x s) = eat_digits (Z.of_N x) s.
Proof.
  revert s. induction (N.lt_wf_0 x) as [x _ IH]; intros s.
  destruct (decide (x = 0)%N) as [->|Hx]; [by rewrite pretty_N_go_0|].
  rewrite pretty_N_go_step by lia. rewrite IH by (apply N.div_lt; lia). cbn.
  rewrite digit_value_pretty by (apply N.mod_lt; lia).
  f_equal. pose proof (N.div_mod x 10 ltac:(done)). lia.
Qed.

Lemma eat_number_digits c s :
  digit_value c ≠ None → eat_number (String c s) = Some (eat_digits 0 (String c s)).
Proof. cbn. destruct (digit_value c); done. Qed.

Lemma pretty_N_go_head (x : N) s :
  (0 < x)%N → ∃ c r, pretty_N_go x s = String c r ∧ digit_value c ≠ None.
Proof.
  revert s. induction (N.lt_wf_0 x) as [x _ IH]; intros s Hx.
  rewrite pretty_N_go_step by done.
  destruct (decide (x / 10 = 0)%N) as [->|Hq].
  - rewrite pretty_N_go_0. do 2 eexists. split; [done|].
    rewrite digit_value_pretty; [done|]. apply N.mod_lt. lia.
  - apply IH; [by apply N.div_lt; lia|by apply N.neq_0_lt_0].
Qed.

Lemma pretty_N_go_app (x : N) s t :
  pretty_N_go x s +:+ t = pretty_N_go x (s +:+ t).
Proof.
  revert s. induction (N.lt_wf_0 x) as [x _ IH]; intros s.
  destruct (decide (x = 0)%N) as [->|Hx]; [by rewrite !pretty_N_go_0|].
  rewrite !(pretty_N_go_step x) by lia. rewrite IH by (apply N.div_lt; lia).
  done.
Qed.

Lemma eat_number_pretty (n : Z) s :
  (0 ≤ n)%Z → starts_plain s → eat_number (pretty n +:+ s) = Some (n, s).
Proof.
  intros Hn Hs.
  assert (pretty n = pretty (Z.to_N n)) as ->.
  { unfold pretty, pretty_Z. by destruct n. }
  destruct (decide (n = 0%Z)) as [->|Hnz].
  - change (pretty (Z.to_N 0)) with "0". rewrite str_app_cons, str_app_nil.
    rewrite eat_number_digits by done.
    change (eat_digits 0 (String "0" s)) with (eat_digits 0 s). by rewrite eat_digits_plain.
  - unfold pretty, pretty_N. rewrite decide_False by lia.
    rewrite pretty_N_go_app, str_app_nil.
    destruct (pretty_N_go_head (Z.to_N n) s) as (c & r & Hc & Hd); [lia|].
    rewrite Hc, eat_number_digits by done. rewrite <-Hc, eat_digits_pretty.
    rewrite eat_digits_plain by done. by rewrite Z2N.id.
Qed.

Lemma str_app_assoc (s t u : string) : (s +:+ t) +:+ u = s +:+ (t +:+ u).
Proof. induction s as [|c s IH]; [done|]. by rewrite !str_app_cons, IH. Qed.

Lemma str_app_empty (s : string) : s +:+ "" = s.
Proof. induction s as [|c s IH]; [done|]. by rewrite !str_app_cons, IH. Qed.

(** A literal prefix of an id is consumed character by character. *)
Ltac eat :=
  rewrite ?str_app_cons, ?str_app_nil;
  repeat (progress cbn [eat_char mbind option_bind]; rewrite ?bool_decide_eq_true_2 by done);
  cbn [mbind option_bind].

Lemma match_milestone_id m : (0 ≤ m)%Z → match_milestone (milestone_id m) = Some m.
Proof.
  intros Hm. unfold match_milestone, milestone_id. eat.
  rewrite <-(str_app_empty (pretty m)), eat_number_pretty by done. done.
Qed.

Lemma match_slice_id m s :
  (0 ≤ m)%Z → (0 ≤ s)%Z → match_slice (slice_id m s) = Some (m, s).
Proof.
  intros Hm Hs. unfold match_slice, slice_id, milestone_id. rewrite !str_app_assoc. eat.
  rewrite eat_number_pretty by done. eat.
  rewrite <-(str_app_empty (pretty s)), eat_number_pretty by done. done.
Qed.

Lemma match_task_id m s t :
  (0 ≤ m)%Z → (0 ≤ s)%Z → (0 ≤ t)%Z → match_task (task_id m s t) = Some (m, s, t).
Proof.
  intros Hm Hs Ht. unfold match_task, task_id, slice_id, milestone_id.
  rewrite !str_app_assoc. eat.
  rewrite eat_number_pretty by done. eat. rewrite eat_number_pretty by done. eat.
  rewrite <-(str_app_empty (pretty t)), eat_number_pretty by done. done.
Qed.

(** ** Ids contain no white space *)

Definition plain_char (c : ascii) : bool := negb (is_space c).

(** The digits of a number. *)
Lemma all_chars_pretty_N_go (p : ascii → bool) (x : N) s :
  forallb p (map pretty_N_char [0; 1; 2; 3; 4; 5; 6; 7; 8; 9]%N) = true →
  all_chars p s = true → all_chars p (pretty_N_go x s) = true.
Proof.
  intros Hp. revert s. induction (N.lt_wf_0 x) as [x _ IH]; intros s Hs.
  destruct (decide (x = 0)%N) as [->|Hx]; [by rewrite pretty_N_go_0|].
  rewrite (pretty_N_go_step x) by lia. apply IH; [apply N.div_lt; lia|].
  change (p (pretty_N_char (x mod 10)) && all_chars p s = true).
  rewrite Hs, andb_true_r. assert (x mod 10 < 10)%N as Hd by (apply N.mod_lt; lia).
  revert Hd. generalize (x mod 10)%N. intros d Hd.
  rewrite forallb_forall in Hp. apply Hp, in_map, list_elem_of_In. rewrite !elem_of_cons. lia.
Qed.

Lemma all_chars_pretty (p : ascii → bool) (n : Z) :
  forallb p (map pretty_N_char [0; 1; 2; 3; 4; 5; 6; 7; 8; 9]%N) = true →
  (0 ≤ n)%Z → all_chars p (pretty n) = true.
Proof.
  intros Hp Hn. assert (pretty n = pretty (Z.to_N n)) as ->.
  { unfold pretty, pretty_Z. by destruct n. }
  unfold pretty, pretty_N. case_decide; [|by apply all_chars_pretty_N_go].
  cbn in *. by destruct (p "0"%char).
Qed.

Lemma plain_pretty (n : Z) : (0 ≤ n)%Z → all_chars plain_char (pretty n) = true.
Proof. by apply all_chars_pretty. Qed.

Lemma trim_task_id m s t :
  (0 ≤ m)%Z → (0 ≤ s)%Z → (0 ≤ t)%Z → trim (task_id m s t) = task_id m s t.
Proof.
  intros. apply trim_plain. change (all_chars plain_char (task_id m s t) = true).
  unfold task_id, slice_id, milestone_id. rewrite !all_chars_app, !plain_pretty by done. done.
Qed.
