(* ===== verification/Gate.v ===== *)
(** * The execution gate

    Models [src/server/legacy-control-plane/execution-gate.ts]: the state of
    tasks, slices and milestones that the legacy executor walks, which task may
    run next, which slice or milestone may be verified, and the progress that
    is saved and restored.

    The code builds the task objects once; the list of all tasks and the lists
    in the slices share them.  Here the objects are the list [tasks] of a
    [gate] and a slice holds their positions, so an update of a task is seen
    through its slice.  [null] and [undefined] are both [None]. *)
From S2P Require Import Prelude JsString SavedPlan.
From stdpp Require Import pretty.

#[local] Arguments bool_decide : simpl never.

Definition TASK_EVIDENCE_BASIC_FACTS_OK : string := "basic-facts-ok".

Module GateTaskState.
Record t := mk {
  id : string;
  status : string;
  executionStatus : option string;
  evidenceStatus : option string;
  order : Z;
  milestoneIndex : Z;
  sliceIndex : Z;
  taskIndex : Z;
  dependsOnTaskIds : list string;
  canRunInParallel : bool
}.

Definition set_progress (st : string) (ex ev : option string) (x : t) : t :=
  mk (id x) st ex ev (order x) (milestoneIndex x) (sliceIndex x) (taskIndex x)
    (dependsOnTaskIds x) (canRunInParallel x).
End GateTaskState.

Module GateSliceState.
Record t := mk {
  id : string;
  milestoneId : string;
  status : string;
  runtimeStatus : option string;
  verificationStatus : option string;
  dependsOnSliceIds : list string;
  tasks : list nat
}.

Definition set_status (st : string) (s : t) : t :=
  mk (id s) (milestoneId s) st (runtimeStatus s) (verificationStatus s) (dependsOnSliceIds s)
    (tasks s).
Definition set_runtimeStatus (st : option string) (s : t) : t :=
  mk (id s) (milestoneId s) (status s) st (verificationStatus s) (dependsOnSliceIds s) (tasks s).
Definition set_verificationStatus (st : option string) (s : t) : t :=
  mk (id s) (milestoneId s) (status s) (runtimeStatus s) st (dependsOnSliceIds s) (tasks s).
End GateSliceState.

Module GateMilestoneState.
Record t := mk {
  id : string;
  title : string;
  status : string;
  verificationStatus : option string;
  sliceIds : list string
}.

Definition set_status (st : string) (m : t) : t :=
  mk (id m) (title m) st (verificationStatus m) (sliceIds m).
Definition set_verificationStatus (st : option string) (m : t) : t :=
  mk (id m) (title m) (status m) st (sliceIds m).
End GateMilestoneState.

Record gate := mkGate {
  slices : list GateSliceState.t;
  tasks : list GateTaskState.t;
  milestones : list GateMilestoneState.t
}.

Definition set_slices (ss : list GateSliceState.t) (g : gate) : gate :=
  mkGate ss (tasks g) (milestones g).
Definition set_gate_tasks (ts : list GateTaskState.t) (g : gate) : gate :=
  mkGate (slices g) ts (milestones g).
Definition set_milestones (ms : list GateMilestoneState.t) (g : gate) : gate :=
  mkGate (slices g) (tasks g) ms.

(** The task objects a slice refers to. *)
Definition tasks_of (g : gate) (s : GateSliceState.t) : list GateTaskState.t :=
  omap (λ i, tasks g !! i) (GateSliceState.tasks s).

Definition TERMINAL_UNIT : list string :=
  ["completed"; "failed"; "skipped"; "cancelled"; "aborted"; "blocked"].
Definition BLOCKING_EXECUTION : list string :=
  ["failed"; "blocked"; "cancelled"; "lost"; "timed-out"].

Definition normalizeRef (value : string) : string := toLowerCase (trim value).

(** Truthiness of an optional string. *)
Definition truthy (o : option string) : bool :=
  match o with Some s => negb (bool_decide (s = "")) | None => false end.

(** ** Building the gate from a plan *)

Section build.
Context (plan : SavedJobPlan.t).

(** The task slots of the tree in order: milestone, slice and task numbers,
    counted from 1, with the nested task. *)
Definition plan_slots : list (Z * Z * Z * PlannerRegisteredTask.t) :=
  concat (mapi (λ mIdx milestone,
    concat (mapi (λ sIdx slice,
      mapi (λ tIdx task, (Z.of_nat mIdx + 1, Z.of_nat sIdx + 1, Z.of_nat tIdx + 1, task)%Z)
        (PlannerRegisteredSlice.tasks slice))
      (PlannerRegisteredMilestone.slices milestone)))
    (SavedJobPlan.milestones plan)).

Definition refToId : gmap string string :=
  foldl (λ m '(mi, si, ti, _), <[normalizeRef (task_id mi si ti) := task_id mi si ti]> m)
    ∅ plan_slots.

Definition findFlatTask (taskId : string) : option FlatTaskPlan.t :=
  List.find (λ f, bool_decide (FlatTaskPlan.id f = taskId)) (SavedJobPlan.tasks plan).

Definition dependency_ids (refs : list string) : list string :=
  List.filter (λ r, negb (bool_decide (r = "")))
    (map (λ ref, default ref (refToId !! normalizeRef ref)) refs).

Definition build_task (slot : Z * Z * Z * PlannerRegisteredTask.t) : GateTaskState.t :=
  let '(m, s, t, task) := slot in
  let id := task_id m s t in
  let flat := findFlatTask id in
  let refs := match PlannerRegisteredTask.dependsOnTaskRefs task with
              | Some refs => refs
              | None => default [] (flat ≫= FlatTaskPlan.dependsOnTaskRefs)
              end in
  GateTaskState.mk id "pending" (Some "queued") None t m s t (dependency_ids refs)
    (bool_decide (PlannerRegisteredTask.canRunInParallel task = Some true) ||
     bool_decide ((flat ≫= FlatTaskPlan.canRunInParallel) = Some true)).

Definition build_tasks : list GateTaskState.t := map build_task plan_slots.

(** The positions of the tasks of one slice, [tasks.filter(..)]. *)
Definition slice_positions (m s : Z) : list nat :=
  omap (λ '(i, t), if bool_decide (GateTaskState.milestoneIndex t = m) &&
                      bool_decide (GateTaskState.sliceIndex t = s)
                   then Some i else None)
    (mapi pair build_tasks).

(** Slice references are kept as they are: both branches of the code return
    [ref]. *)
Definition build_slice (mNum : Z) (sIdx : nat) (slice : PlannerRegisteredSlice.t) :
    GateSliceState.t :=
  let sNum := (Z.of_nat sIdx + 1)%Z in
  GateSliceState.mk (slice_id mNum sNum) (milestone_id mNum) "pending" None None
    (List.filter (λ r, negb (bool_decide (r = "")))
       (default [] (PlannerRegisteredSlice.dependsOnSliceRefs slice)))
    (slice_positions mNum sNum).

Definition build_milestone (mIdx : nat) (milestone : PlannerRegisteredMilestone.t) :
    GateMilestoneState.t :=
  let mNum := (Z.of_nat mIdx + 1)%Z in
  GateMilestoneState.mk (milestone_id mNum)
    (match PlannerRegisteredMilestone.title milestone with Some x => trim x | None => "" end)
    "pending" None
    (mapi (λ sIdx _, slice_id mNum (Z.of_nat sIdx + 1)%Z)
       (PlannerRegisteredMilestone.slices milestone)).

Definition buildGateStates : gate :=
  mkGate
    (concat (mapi (λ mIdx milestone,
       mapi (build_slice (Z.of_nat mIdx + 1)%Z) (PlannerRegisteredMilestone.slices milestone))
       (SavedJobPlan.milestones plan)))
    build_tasks
    (mapi build_milestone (SavedJobPlan.milestones plan)).
End build.

(** ** Dependencies *)

Definition findTask (ts : list GateTaskState.t) (id : string) : option GateTaskState.t :=
  List.find (λ t, bool_decide (GateTaskState.id t = id)) ts.

Definition findSlice (ss : list GateSliceState.t) (id : string) : option GateSliceState.t :=
  List.find (λ s, bool_decide (GateSliceState.id s = id)) ss.

(** [None]: the dependency does not block. *)
Definition evaluateTaskDependency (dep : option GateTaskState.t) (depId : string) : option string :=
  let prefix := "task dependency " +:+ depId in
  match dep with
  | None => Some (prefix +:+ " is missing")
  | Some d =>
      let st := GateTaskState.status d in
      let ex := GateTaskState.executionStatus d in
      if truthy ex && bool_decide (default "" ex ∈ BLOCKING_EXECUTION) then
        Some (prefix +:+ " execution is " +:+ default "" ex)
      else if bool_decide (st ∈ TERMINAL_UNIT) && negb (bool_decide (st = "completed")) &&
              negb (bool_decide (st = "skipped")) then
        Some (prefix +:+ " is " +:+ st)
      else if negb (bool_decide (st = "completed")) then
        Some (prefix +:+ " is " +:+ st)
      else if negb (bool_decide (ex = Some "completed")) then
        Some (prefix +:+ " is completed but execution is " +:+ default "unknown" ex)
      else if negb (bool_decide (GateTaskState.evidenceStatus d =
                                 Some TASK_EVIDENCE_BASIC_FACTS_OK)) then
        Some (prefix +:+ " evidence is " +:+
              default "not-submitted" (GateTaskState.evidenceStatus d))
      else None
  end.

Definition evaluateSliceDependency (ss : list GateSliceState.t) (depId : string) : option string :=
  match findSlice ss depId with
  | None => Some ("slice dependency " +:+ depId +:+ " is missing")
  | Some d =>
      let rt := GateSliceState.runtimeStatus d in
      let st := GateSliceState.status d in
      if bool_decide (rt = Some "progress-ok") then None
      else if bool_decide (st = "skipped") then None
      else if bool_decide (st = "completed") &&
              (bool_decide (rt = Some "progress-ok") || negb (truthy rt)) then None
      else Some ("slice dependency " +:+ depId +:+ " is " +:+ default st rt +:+
                 ", not progress-ok")
  end.

Definition effectiveTaskDependencyIds (task target : GateTaskState.t)
    (ts : list GateTaskState.t) : list string :=
  if bool_decide (GateTaskState.dependsOnTaskIds task ≠ []) then
    GateTaskState.dependsOnTaskIds task
  else if GateTaskState.canRunInParallel task then []
  else if bool_decide (GateTaskState.milestoneIndex task = GateTaskState.milestoneIndex target) &&
          bool_decide (GateTaskState.sliceIndex task = GateTaskState.sliceIndex target) &&
          bool_decide (GateTaskState.order target ≤ GateTaskState.order task)%Z then []
  else
    map GateTaskState.id
      (List.filter (λ c,
         bool_decide (GateTaskState.milestoneIndex c = GateTaskState.milestoneIndex task) &&
         bool_decide (GateTaskState.sliceIndex c = GateTaskState.sliceIndex task) &&
         bool_decide (GateTaskState.order c < GateTaskState.order task)%Z) ts).

(** [new Map(tasks.map((task) => [task.id, task]))] *)
Definition tasks_by_id (ts : list GateTaskState.t) : gmap string GateTaskState.t :=
  foldl (λ m t, <[GateTaskState.id t := t]> m) ∅ ts.

(** [ids.some(id => id === target || rec(id))], the memo threaded through. *)
Fixpoint some_path (target : string) (rec : string → gmap string bool → option (bool * gmap string bool))
    (ids : list string) (memo : gmap string bool) : option (bool * gmap string bool) :=
  match ids with
  | [] => Some (false, memo)
  | i :: ids' =>
      if bool_decide (i = target) then Some (true, memo)
      else match rec i memo with
           | Some (true, memo') => Some (true, memo')
           | Some (false, memo') => some_path target rec ids' memo'
           | None => None
           end
  end.

(** [visiting] is the set of ids on the call stack: an id is added before the
    recursive calls and deleted after them. *)
Fixpoint hasEffectiveDependencyPath (fuel : nat) (target : GateTaskState.t)
    (tasksById : gmap string GateTaskState.t) (allTasks : list GateTaskState.t)
    (visiting : gset string) (fromTaskId : string) (memo : gmap string bool) :
    option (bool * gmap string bool) :=
  match fuel with
  | 0 => None
  | S fuel' =>
      if bool_decide (fromTaskId = GateTaskState.id target) then Some (true, memo)
      else match memo !! fromTaskId with
      | Some cached => Some (cached, memo)
      | None =>
          if bool_decide (fromTaskId ∈ visiting) then Some (false, memo)
          else match tasksById !! fromTaskId with
          | None => Some (false, <[fromTaskId := false]> memo)
          | Some from =>
              match some_path (GateTaskState.id target)
                      (hasEffectiveDependencyPath fuel' target tasksById allTasks
                         ({[fromTaskId]} ∪ visiting))
                      (effectiveTaskDependencyIds from target allTasks) memo with
              | Some (found, memo') => Some (found, <[fromTaskId := found]> memo')
              | None => None
              end
          end
      end
  end.

(** ** The next task *)

(** The earlier tasks of the slice that hold a task without explicit
    dependencies back; one memo serves all of them. *)
Fixpoint implicit_blockers (fuel : nat) (g : gate) (task : GateTaskState.t)
    (preds : list GateTaskState.t) (memo : gmap string bool) : option (list string) :=
  match preds with
  | [] => Some []
  | pred :: preds' =>
      if bool_decide (GateTaskState.order pred < GateTaskState.order task)%Z then
        match hasEffectiveDependencyPath fuel task (tasks_by_id (tasks g)) (tasks g) ∅
                (GateTaskState.id pred) memo with
        | None => None
        | Some (true, memo') => implicit_blockers fuel g task preds' memo'
        | Some (false, memo') =>
            rest ← implicit_blockers fuel g task preds' memo';
            Some (option_list (evaluateTaskDependency (Some pred) (GateTaskState.id pred)) ++ rest)
        end
      else implicit_blockers fuel g task preds' memo
  end.

Definition task_blockers (fuel : nat) (g : gate) (s : GateSliceState.t)
    (task : GateTaskState.t) : option (list string) :=
  implicit ← (if negb (GateTaskState.canRunInParallel task) &&
                 bool_decide (GateTaskState.dependsOnTaskIds task = [])
              then implicit_blockers fuel g task (tasks_of g s) ∅ else Some []);
  Some (omap (evaluateSliceDependency (slices g)) (GateSliceState.dependsOnSliceIds s) ++
        implicit ++
        omap (λ depId, evaluateTaskDependency (findTask (tasks g) depId) depId)
          (GateTaskState.dependsOnTaskIds task)).

Fixpoint first_ready_in (fuel : nat) (g : gate) (s : GateSliceState.t)
    (ts : list GateTaskState.t) : option (option GateTaskState.t) :=
  match ts with
  | [] => Some None
  | task :: ts' =>
      if negb (bool_decide (GateTaskState.status task = "pending")) then first_ready_in fuel g s ts'
      else match task_blockers fuel g s task with
           | None => None
           | Some [] => Some (Some task)
           | Some _ => first_ready_in fuel g s ts'
           end
  end.

Definition slice_open (s : GateSliceState.t) : bool :=
  negb (bool_decide (GateSliceState.status s ∈ TERMINAL_UNIT) &&
        negb (bool_decide (GateSliceState.status s = "completed"))).

Fixpoint find_in_slices (fuel : nat) (g : gate) (ss : list GateSliceState.t) :
    option (option GateTaskState.t) :=
  match ss with
  | [] => Some None
  | s :: ss' =>
      if slice_open s then
        match first_ready_in fuel g s (tasks_of g s) with
        | None => None
        | Some (Some task) => Some (Some task)
        | Some None => find_in_slices fuel g ss'
        end
      else find_in_slices fuel g ss'
  end.

(** Enough for the depth of the search: see [search_terminates]. *)
Definition gate_fuel (g : gate) : nat := S (S (length (tasks g))).

(** The outer [None] is running out of fuel, the inner one [null]. *)
Definition findNextReadyTask (g : gate) : option (option GateTaskState.t) :=
  find_in_slices (gate_fuel g) g (slices g).

(** ** Progress *)

Record progress_item := mkProgressItem {
  pi_id : string;
  pi_status : string;
  pi_executionStatus : option string;
  pi_evidenceStatus : option string
}.

Definition apply_item (item : progress_item) (t : GateTaskState.t) : GateTaskState.t :=
  GateTaskState.set_progress
    (if bool_decide (pi_status item = "running") then "in_progress"
     else if bool_decide (pi_status item = "queued") then "pending" else pi_status item)
    (Some (default (pi_status item) (pi_executionStatus item)))
    (pi_evidenceStatus item) t.

(** [new Map(items.map(..)).get(id)]: the last item of an id. *)
Definition last_item (items : list progress_item) (id : string) : option progress_item :=
  List.find (λ i, bool_decide (pi_id i = id)) (reverse items).

Definition applyTaskProgressToGate (items : list progress_item) (g : gate) : gate :=
  set_gate_tasks
    (map (λ t, match last_item items (GateTaskState.id t) with
               | Some item => apply_item item t
               | None => t
               end) (tasks g)) g.

Definition reconcile_slice (ts : list GateTaskState.t) (s : GateSliceState.t) : GateSliceState.t :=
  let rt := GateSliceState.runtimeStatus s in
  if bool_decide (ts = []) then GateSliceState.set_status "pending" s
  else if bool_decide (rt = Some "progress-ok") || bool_decide (rt = Some "verification-blocked") then
    GateSliceState.set_status "completed" s
  else
    let allDone := forallb (λ t, bool_decide (GateTaskState.status t = "completed") ||
                                 bool_decide (GateTaskState.status t = "skipped")) ts in
    let anyFailed := existsb (λ t, bool_decide (GateTaskState.status t = "failed")) ts in
    let anyRunning := existsb (λ t, bool_decide (GateTaskState.status t = "in_progress")) ts in
    if anyFailed then GateSliceState.set_status "failed" s
    else if allDone then
      let s' := GateSliceState.set_status "completed" s in
      if negb (truthy rt) || bool_decide (rt = Some "running") then
        GateSliceState.set_runtimeStatus (Some "ready-for-verification") s'
      else s'
    else if anyRunning then
      GateSliceState.set_runtimeStatus (Some "running") (GateSliceState.set_status "in_progress" s)
    else GateSliceState.set_status "pending" s.

#[global] Instance gate_task_eq_dec : EqDecision GateTaskState.t.
Proof. solve_decision. Defined.

Definition reconcileSliceStatuses (g : gate) : gate :=
  set_slices (map (λ s, reconcile_slice (tasks_of g s) s) (slices g)) g.

Definition milestone_slices (ss : list GateSliceState.t) (m : GateMilestoneState.t) :
    list GateSliceState.t :=
  omap (findSlice ss) (GateMilestoneState.sliceIds m).

Definition reconcile_milestone (ss : list GateSliceState.t) (m : GateMilestoneState.t) :
    GateMilestoneState.t :=
  let v := GateMilestoneState.verificationStatus m in
  if bool_decide (v = Some "blocked") || bool_decide (v = Some "inconclusive") then
    GateMilestoneState.set_status "failed" m
  else if bool_decide (v = Some "passed") then GateMilestoneState.set_status "completed" m
  else
    let ms := milestone_slices ss m in
    match ms with
    | [] => GateMilestoneState.set_status "pending" m
    | _ =>
        if forallb (λ s, bool_decide (GateSliceState.runtimeStatus s = Some "progress-ok")) ms then
          let m' := GateMilestoneState.set_status "completed" m in
          if negb (truthy v) then
            GateMilestoneState.set_verificationStatus (Some "ready-for-verification") m'
          else m'
        else if existsb (λ s, bool_decide (GateSliceState.status s = "failed")) ms then
          GateMilestoneState.set_status "failed" m
        else if existsb (λ s, bool_decide (GateSliceState.status s = "in_progress") ||
                              bool_decide (GateSliceState.runtimeStatus s = Some "running")) ms then
          GateMilestoneState.set_status "in_progress" m
        else GateMilestoneState.set_status "pending" m
    end.

Definition reconcileMilestoneStatuses (g : gate) : gate :=
  set_milestones (map (reconcile_milestone (slices g)) (milestones g)) g.

(** ** Verification *)

Definition slice_verifiable (g : gate) (s : GateSliceState.t) : bool :=
  bool_decide (GateSliceState.runtimeStatus s = Some "ready-for-verification") &&
  negb (bool_decide (GateSliceState.verificationStatus s = Some "passed")) &&
  negb (bool_decide (GateSliceState.verificationStatus s = Some "blocked")) &&
  forallb (λ d, bool_decide (evaluateSliceDependency (slices g) d = None))
    (GateSliceState.dependsOnSliceIds s) &&
  forallb (λ t,
    (bool_decide (GateTaskState.status t = "completed") ||
     bool_decide (GateTaskState.status t = "skipped")) &&
    bool_decide (GateTaskState.evidenceStatus t = Some TASK_EVIDENCE_BASIC_FACTS_OK))
    (tasks_of g s).

Definition findSliceReadyForVerification (g : gate) : option GateSliceState.t :=
  List.find (slice_verifiable g) (slices g).

(** Changes the first element that satisfies [p]. *)
Fixpoint update_first {A} (p : A → bool) (f : A → A) (l : list A) : list A :=
  match l with
  | [] => []
  | x :: l' => if p x then f x :: l' else x :: update_first p f l'
  end.

Definition reopenSliceVerificationForMissingVerdict (sliceId : string) (g : gate) : bool * gate :=
  match findSlice (slices g) sliceId with
  | Some s =>
      if bool_decide (GateSliceState.runtimeStatus s = Some "progress-ok") then
        (true, set_slices
           (update_first (λ s, bool_decide (GateSliceState.id s = sliceId))
              (λ s, GateSliceState.set_verificationStatus None
                 (GateSliceState.set_runtimeStatus (Some "ready-for-verification")
                    (GateSliceState.set_status "completed" s)))
              (slices g)) g)
      else (false, g)
  | None => (false, g)
  end.

Definition findMilestoneReadyForVerification (g : gate) : option GateMilestoneState.t :=
  List.find (λ m,
    bool_decide (GateMilestoneState.verificationStatus m = Some "ready-for-verification") &&
    forallb (λ s, bool_decide (GateSliceState.runtimeStatus s = Some "progress-ok"))
      (milestone_slices (slices g) m)) (milestones g).

Definition isWorkflowComplete (g : gate) : bool :=
  negb (bool_decide (length (milestones g) = 0)) &&
  forallb (λ m, bool_decide (GateMilestoneState.verificationStatus m = Some "passed"))
    (milestones g) &&
  forallb (λ s, bool_decide (GateSliceState.runtimeStatus s = Some "progress-ok")) (slices g).

(** ** Saved verification progress; [V] is the verdict of a slice. *)

Section progress.
Context {V : Type}.

Record slice_progress := mkSliceProgress {
  sp_id : string;
  sp_runtimeStatus : option string;
  sp_verificationStatus : option string;
  sp_verdict : option V
}.

Record milestone_progress := mkMilestoneProgress {
  mp_id : string;
  mp_verificationStatus : option string
}.

Record verification_progress := mkVerificationProgress {
  vp_slices : list slice_progress;
  vp_milestones : list milestone_progress
}.

(** [if (x) y = x] *)
Definition keep_truthy (new old : option string) : option string :=
  if truthy new then new else old.

Definition apply_slice_row (row : slice_progress) (ss : list GateSliceState.t) :
    list GateSliceState.t :=
  update_first (λ s, bool_decide (GateSliceState.id s = sp_id row))
    (λ s, GateSliceState.set_verificationStatus
            (keep_truthy (sp_verificationStatus row) (GateSliceState.verificationStatus s))
            (GateSliceState.set_runtimeStatus
               (keep_truthy (sp_runtimeStatus row) (GateSliceState.runtimeStatus s)) s)) ss.

Definition apply_milestone_row (row : milestone_progress) (ms : list GateMilestoneState.t) :
    list GateMilestoneState.t :=
  update_first (λ m, bool_decide (GateMilestoneState.id m = mp_id row))
    (λ m, GateMilestoneState.set_verificationStatus
            (keep_truthy (mp_verificationStatus row) (GateMilestoneState.verificationStatus m)) m) ms.

Definition applyVerificationProgress (progress : option verification_progress) (g : gate) : gate :=
  match progress with
  | None => g
  | Some p =>
      mkGate (foldl (λ ss row, apply_slice_row row ss) (slices g) (vp_slices p)) (tasks g)
        (foldl (λ ms row, apply_milestone_row row ms) (milestones g) (vp_milestones p))
  end.

Definition exportVerificationProgress (g : gate) (existing : option verification_progress) :
    verification_progress :=
  mkVerificationProgress
    (map (λ s,
       let prev := p ← existing;
                   List.find (λ row, bool_decide (sp_id row = GateSliceState.id s)) (vp_slices p) in
       mkSliceProgress (GateSliceState.id s) (GateSliceState.runtimeStatus s)
         (GateSliceState.verificationStatus s) (prev ≫= sp_verdict)) (slices g))
    (map (λ m, mkMilestoneProgress (GateMilestoneState.id m)
                 (GateMilestoneState.verificationStatus m)) (milestones g)).
End progress.
Arguments verification_progress : clear implicits.
Arguments slice_progress : clear implicits.
