(* ===== verification/GateSpecs.v ===== *)
(** * What the execution gate guarantees

    The search for a reverse dependency path is exact when its memo is fresh
    and never wrong when it answers yes; the task the gate hands out has all
    its dependencies satisfied; a plan whose dependencies point backwards never
    gets stuck, while a second recovery task for the same task can block the
    workflow; saved verification progress is restored exactly. *)
From S2P Require Import Prelude JsString Sql SavedPlan Gate.
From stdpp Require Import pretty.

#[local] Arguments bool_decide : simpl never.

(** ** The dependency search *)

Section search.
Context (target : GateTaskState.t) (tasksById : gmap string GateTaskState.t).
Context (allTasks : list GateTaskState.t).

(** One effective dependency, explicit or implied by the order of the slice. *)
Definition depends (i j : string) : Prop :=
  ∃ from, tasksById !! i = Some from ∧ j ∈ effectiveTaskDependencyIds from target allTasks.

(** [i] is the target or depends on it through any number of tasks. *)
Definition reaches (i : string) : Prop := rtc depends i (GateTaskState.id target).

Definition memo_sound (memo : gmap string bool) : Prop :=
  ∀ i, memo !! i = Some true → reaches i.

Notation search fuel visiting :=
  (hasEffectiveDependencyPath fuel target tasksById allTasks visiting).

Lemma memo_sound_insert memo i b :
  memo_sound memo → (b = true → reaches i) → memo_sound (<[i:=b]> memo).
Proof.
  intros Hm Hb j. destruct (decide (i = j)) as [->|Hij].
  - rewrite lookup_insert_eq. naive_solver.
  - rewrite lookup_insert_ne by done. apply Hm.
Qed.

(** An answer yes is right, whatever sound memo the search starts from. *)
Lemma some_path_sound rec ids memo b memo' :
  (∀ i memo b memo', rec i memo = Some (b, memo') → memo_sound memo →
     memo_sound memo' ∧ (b = true → reaches i)) →
  some_path (GateTaskState.id target) rec ids memo = Some (b, memo') →
  memo_sound memo → memo_sound memo' ∧ (b = true → ∃ j, j ∈ ids ∧ reaches j).
Proof.
  intros Hrec. revert memo. induction ids as [|i ids IH]; intros memo Hrun Hm; cbn in Hrun.
  { by simplify_eq. }
  case_bool_decide as Hi; simplify_eq.
  { split; [done|]. intros _. eexists. split; [by left|]. apply rtc_refl. }
  destruct (rec i memo) as [[[] memo1]|] eqn:E; simplify_eq.
  - destruct (Hrec _ _ _ _ E Hm) as [? Hr]. split; [done|]. intros _. exists i. split; [by left|auto].
  - destruct (Hrec _ _ _ _ E Hm) as [Hm1 _]. destruct (IH _ Hrun Hm1) as [? Hr].
    split; [done|]. intros (j & ? & ?)%Hr. exists j. split; [by right|done].
Qed.

Lemma search_sound fuel visiting i memo b memo' :
  search fuel visiting i memo = Some (b, memo') → memo_sound memo →
  memo_sound memo' ∧ (b = true → reaches i).
Proof.
  revert visiting i memo b memo'. induction fuel as [|fuel IH]; [done|].
  intros visiting i memo b memo' Hrun Hm. cbn in Hrun.
  case_bool_decide as Ht; simplify_eq. { split; [done|]. intros _. apply rtc_refl. }
  destruct (memo !! i) as [c|] eqn:Hc; simplify_eq. { split; [done|]. intros ->. by apply Hm. }
  case_bool_decide; simplify_eq. { done. }
  destruct (tasksById !! i) as [from|] eqn:Hfrom; simplify_eq.
  2: { split; [by apply memo_sound_insert|done]. }
  destruct (some_path _ _ _ _) as [[found memo1]|] eqn:E; simplify_eq.
  destruct (some_path_sound _ _ _ _ _ (IH _) E Hm) as [Hm1 Hf].
  assert (b = true → reaches i) as Hr.
  { intros (j & Hj & Hreach)%Hf. eapply rtc_l; [|done]. by exists from. }
  split; [by apply memo_sound_insert|done].
Qed.

(** The search ends: each nested call puts one more known task on the stack. *)
Lemma some_path_terminates rec ids memo :
  (∀ i memo, rec i memo ≠ None) →
  some_path (GateTaskState.id target) rec ids memo ≠ None.
Proof.
  intros Hrec. revert memo. induction ids as [|i ids IH]; intros memo; cbn; [done|].
  case_bool_decide; [done|]. destruct (rec i memo) as [[[] ?]|] eqn:E; [done|apply IH|].
  by apply Hrec in E.
Qed.

Lemma search_terminates fuel visiting i memo :
  size (dom tasksById ∖ visiting) < fuel → search fuel visiting i memo ≠ None.
Proof.
  revert visiting i memo. induction fuel as [|fuel IH]; intros visiting i memo Hf; [lia|]. cbn.
  case_bool_decide; [done|]. destruct (memo !! i); [done|]. case_bool_decide as Hv; [done|].
  destruct (tasksById !! i) as [from|] eqn:Hfrom; [|done].
  destruct (some_path _ _ _ _) as [[]|] eqn:E; [done|]. exfalso. revert E.
  apply some_path_terminates. intros j memo1. apply IH.
  assert (i ∈ dom tasksById) by (by apply elem_of_dom_2 in Hfrom).
  assert (size (dom tasksById ∖ ({[i]} ∪ visiting)) < size (dom tasksById ∖ visiting));
    [|lia].
  apply subset_size. set_solver.
Qed.

(** An answer no explores everything it can reach: the ids marked false are
    closed under dependencies up to the ids on the stack. *)
Definition closed_over (visiting : gset string) (memo memo' : gmap string bool) : Prop :=
  (∀ i, memo !! i = Some false → memo' !! i = Some false) ∧
  (∀ i, memo' !! i = Some false → memo !! i ≠ Some false →
     i ≠ GateTaskState.id target ∧
     ∀ j, depends i j → memo' !! j = Some false ∨ j ∈ visiting).

Lemma closed_over_refl visiting memo : closed_over visiting memo memo.
Proof. split; [done|]. intros i H1 H2. by destruct H2. Qed.

Lemma closed_over_trans visiting m1 m2 m3 :
  closed_over visiting m1 m2 → closed_over visiting m2 m3 → closed_over visiting m1 m3.
Proof.
  intros [Ha Hb] [Hc Hd]. split; [auto|]. intros i H3 H1.
  destruct (decide (m2 !! i = Some false)) as [H2|H2].
  - destruct (Hb i H2 H1) as [? Hs]. split; [done|]. intros j [?|?]%Hs; auto.
  - by apply Hd.
Qed.

Lemma some_path_closed visiting rec ids memo memo' :
  (∀ i memo memo', rec i memo = Some (false, memo') →
     closed_over visiting memo memo' ∧ (memo' !! i = Some false ∨ i ∈ visiting)) →
  some_path (GateTaskState.id target) rec ids memo = Some (false, memo') →
  closed_over visiting memo memo' ∧ ∀ j, j ∈ ids → memo' !! j = Some false ∨ j ∈ visiting.
Proof.
  intros Hrec. revert memo. induction ids as [|i ids IH]; intros memo Hrun; cbn in Hrun.
  { simplify_eq. split; [apply closed_over_refl|]. by intros j ?%not_elem_of_nil. }
  case_bool_decide as Hi; [done|].
  destruct (rec i memo) as [[[] memo1]|] eqn:E; simplify_eq.
  destruct (Hrec _ _ _ E) as [Hc1 Hi1]. destruct (IH _ Hrun) as [Hc2 Hids].
  split; [by eapply closed_over_trans|]. intros j [->|Hj]%elem_of_cons; [|auto].
  destruct Hi1; [left|by right]. by apply Hc2.
Qed.

Lemma search_closed fuel visiting i memo memo' :
  search fuel visiting i memo = Some (false, memo') →
  closed_over visiting memo memo' ∧ (memo' !! i = Some false ∨ i ∈ visiting).
Proof.
  revert visiting i memo memo'. induction fuel as [|fuel IH]; [done|].
  intros visiting i memo memo' Hrun. cbn in Hrun.
  case_bool_decide as Ht; [done|].
  destruct (memo !! i) as [c|] eqn:Hc; simplify_eq. { split; [apply closed_over_refl|auto]. }
  case_bool_decide as Hv; simplify_eq. { split; [apply closed_over_refl|auto]. }
  destruct (tasksById !! i) as [from|] eqn:Hfrom; simplify_eq.
  2: { split; [|left; by rewrite lookup_insert_eq]. split.
       - intros j Hj. rewrite lookup_insert_ne; [done|]. congruence.
       - intros j Hj Hnot. destruct (decide (i = j)) as [<-|Hij].
         + split; [done|]. intros j (? & ? & _). congruence.
         + by rewrite lookup_insert_ne in Hj. }
  destruct (some_path _ _ _ _) as [[found memo1]|] eqn:E; simplify_eq.
  destruct (some_path_closed _ _ _ _ _ (IH _) E) as [[Ha Hb] Hids].
  assert (∀ j, memo1 !! j = Some false ∨ j ∈ {[i]} ∪ visiting →
               <[i:=false]> memo1 !! j = Some false ∨ j ∈ visiting) as Hstep.
  { intros j Hj. destruct (decide (i = j)) as [<-|Hij]; [left; by rewrite lookup_insert_eq|].
    rewrite lookup_insert_ne by done. destruct Hj; set_solver. }
  split; [|left; by rewrite lookup_insert_eq]. split.
  - intros j Hj. destruct (decide (i = j)) as [<-|Hij]; [congruence|].
    rewrite lookup_insert_ne by done. auto.
  - intros j Hj Hnot. destruct (decide (i = j)) as [<-|Hij].
    + split; [done|]. intros k (from' & Hfrom' & Hk). apply Hstep, Hids. congruence.
    + rewrite lookup_insert_ne in Hj by done. destruct (Hb j Hj Hnot) as [? Hs].
      split; [done|]. intros k Hk%Hs. auto.
Qed.

(** With a fresh memo the search decides reachability. *)
Lemma fresh_search_exact fuel i :
  size (dom tasksById) < fuel →
  ∃ b memo, search fuel ∅ i ∅ = Some (b, memo) ∧ (b = true ↔ reaches i).
Proof.
  intros Hf. destruct (search fuel ∅ i ∅) as [[b memo]|] eqn:E.
  2: { exfalso. revert E. apply search_terminates. by rewrite difference_empty_L. }
  exists b, memo. split; [done|]. split.
  - eapply search_sound; [done|]. intros j. by rewrite lookup_empty.
  - intros Hr. destruct b; [done|]. exfalso.
    destruct (search_closed _ _ _ _ _ E) as [[_ Hcl] Hi].
    assert (memo !! i = Some false) as Hi' by set_solver. clear Hi E.
    unfold reaches in Hr. revert Hi'. pattern i. revert i Hr. apply rtc_ind_l.
    + intros Hi'. by destruct (Hcl _ Hi') as [[] _].
    + intros x y Hxy _ IH Hx. apply IH. destruct (Hcl x Hx) as [_ Hs]; [done|].
      destruct (Hs y Hxy); set_solver.
Qed.
End search.

#[local] Arguments hasEffectiveDependencyPath : simpl never.
#[local] Arguments gate_fuel : simpl never.
#[local] Arguments evaluateTaskDependency : simpl never.
#[local] Arguments evaluateSliceDependency : simpl never.

Lemma tasks_by_id_size ts : size (dom (tasks_by_id ts)) ≤ length ts.
Proof.
  unfold tasks_by_id. assert (∀ m : gmap string GateTaskState.t,
    size (dom (foldl (λ m t, <[GateTaskState.id t := t]> m) m ts)) ≤ size (dom m) + length ts)
    as Hgen.
  { induction ts as [|t ts IH]; intros m; cbn; [lia|]. etrans; [apply IH|].
    rewrite dom_insert_L. pose proof (size_union_alt {[GateTaskState.id t]} (dom m)) as Hs.
    pose proof (subseteq_size (dom m ∖ {[GateTaskState.id t]}) (dom m) ltac:(set_solver)) as Hd.
    rewrite size_singleton in Hs. lia. }
  etrans; [apply Hgen|]. rewrite dom_empty_L, size_empty. lia.
Qed.

(** The search the gate performs, with the fuel it gets. *)
Notation gate_search g target :=
  (hasEffectiveDependencyPath (gate_fuel g) target (tasks_by_id (tasks g)) (tasks g)).

(** C31: The memoised dependency search of the gate, started with an empty memo and an empty
    stack, always ends and answers yes exactly when the task depends on the target through
    explicit or implied dependencies: the optimised search is the reachability relation. *)
Theorem path_search_exact (g : gate) (target : GateTaskState.t) (i : string) :
  ∃ b memo, gate_search g target ∅ i ∅ = Some (b, memo) ∧
    (b = true ↔ rtc (depends target (tasks_by_id (tasks g)) (tasks g)) i (GateTaskState.id target)).
Proof.
  apply fresh_search_exact. pose proof (tasks_by_id_size (tasks g)). unfold gate_fuel. lia.
Qed.

(** ** Readiness *)

(** A task that counts as done for the tasks that depend on it. *)
Definition satisfied (d : GateTaskState.t) : Prop :=
  GateTaskState.status d = "completed" ∧ GateTaskState.executionStatus d = Some "completed" ∧
  GateTaskState.evidenceStatus d = Some TASK_EVIDENCE_BASIC_FACTS_OK.

#[global] Instance satisfied_dec d : Decision (satisfied d).
Proof. unfold satisfied. apply _. Defined.

Definition slice_satisfied (ss : list GateSliceState.t) (id : string) : Prop :=
  ∃ d, findSlice ss id = Some d ∧
    (GateSliceState.runtimeStatus d = Some "progress-ok" ∨ GateSliceState.status d = "skipped" ∨
     GateSliceState.status d = "completed" ∧ truthy (GateSliceState.runtimeStatus d) = false).

Lemma evaluateTaskDependency_none dep id :
  evaluateTaskDependency dep id = None ↔ ∃ d, dep = Some d ∧ satisfied d.
Proof.
  unfold evaluateTaskDependency, satisfied. destruct dep as [d|]; [|naive_solver].
  split.
  - intros H. exists d. split; [done|].
    destruct (_ && bool_decide (_ ∈ BLOCKING_EXECUTION)); [done|].
    destruct (_ && _ && _); [done|].
    destruct (bool_decide (GateTaskState.status d = _)) eqn:H1; [|done].
    destruct (bool_decide (GateTaskState.executionStatus d = _)) eqn:H2; [|done].
    destruct (bool_decide (GateTaskState.evidenceStatus d = _)) eqn:H3; [|done].
    by rewrite !bool_decide_eq_true in H1, H2, H3.
  - intros (d' & [= <-] & H1 & H2 & H3). rewrite H1, H2, H3. done.
Qed.

Lemma evaluateSliceDependency_none ss id :
  evaluateSliceDependency ss id = None ↔ slice_satisfied ss id.
Proof.
  unfold evaluateSliceDependency, slice_satisfied. destruct (findSlice ss id) as [d|]; [|naive_solver].
  destruct (bool_decide (GateSliceState.runtimeStatus d = _)) eqn:H1.
  { apply bool_decide_eq_true in H1. naive_solver. }
  destruct (bool_decide (GateSliceState.status d = "skipped")) eqn:H2.
  { apply bool_decide_eq_true in H2. naive_solver. }
  destruct (bool_decide (GateSliceState.status d = "completed")) eqn:H3;
    [|apply bool_decide_eq_false in H1, H2, H3; naive_solver].
  apply bool_decide_eq_false in H1, H2. apply bool_decide_eq_true in H3. rewrite H3.
  destruct (truthy (GateSliceState.runtimeStatus d)) eqn:H4; cbn.
  - split; [done|]. intros (d' & [= <-] & [?|[?|[_ ?]]]); congruence.
  - split; [|done]. intros _. exists d. auto.
Qed.

(** Waits for the order of its slice rather than for explicit dependencies. *)
Definition implicit_order (t : GateTaskState.t) : bool :=
  negb (GateTaskState.canRunInParallel t) && bool_decide (GateTaskState.dependsOnTaskIds t = []).

(** What must hold of a task before the gate may hand it out. *)
Definition ready (g : gate) (s : GateSliceState.t) (t : GateTaskState.t) : Prop :=
  (∀ d, d ∈ GateSliceState.dependsOnSliceIds s → slice_satisfied (slices g) d) ∧
  (∀ d, d ∈ GateTaskState.dependsOnTaskIds t → ∃ x, findTask (tasks g) d = Some x ∧ satisfied x) ∧
  (implicit_order t = true → ∀ p, p ∈ tasks_of g s →
     (GateTaskState.order p < GateTaskState.order t)%Z →
     satisfied p ∨ reaches t (tasks_by_id (tasks g)) (tasks g) (GateTaskState.id p)).

(** A concrete reason not to run a task. *)
Definition held_back (g : gate) (s : GateSliceState.t) (t : GateTaskState.t) : Prop :=
  (∃ d, d ∈ GateSliceState.dependsOnSliceIds s ∧ ¬ slice_satisfied (slices g) d) ∨
  (∃ d, d ∈ GateTaskState.dependsOnTaskIds t ∧
        ¬ ∃ x, findTask (tasks g) d = Some x ∧ satisfied x) ∨
  (implicit_order t = true ∧ ∃ p, p ∈ tasks_of g s ∧
     (GateTaskState.order p < GateTaskState.order t)%Z ∧ ¬ satisfied p).

Lemma omap_nil_iff {A B} (f : A → option B) l :
  omap f l = [] ↔ ∀ x, x ∈ l → f x = None.
Proof.
  induction l as [|a l IH]; cbn.
  - split; [|done]. intros _ x Hx. by apply not_elem_of_nil in Hx.
  - setoid_rewrite elem_of_cons. destruct (f a) as [b|] eqn:E.
    + split; [done|]. intros H. specialize (H a). naive_solver.
    + rewrite IH. naive_solver.
Qed.

Lemma implicit_blockers_spec g t preds memo :
  memo_sound t (tasks_by_id (tasks g)) (tasks g) memo →
  ∃ bs, implicit_blockers (gate_fuel g) g t preds memo = Some bs ∧
    (bs = [] → ∀ p, p ∈ preds → (GateTaskState.order p < GateTaskState.order t)%Z →
       satisfied p ∨ reaches t (tasks_by_id (tasks g)) (tasks g) (GateTaskState.id p)) ∧
    (bs ≠ [] → ∃ p, p ∈ preds ∧ (GateTaskState.order p < GateTaskState.order t)%Z ∧ ¬ satisfied p).
Proof.
  revert memo. induction preds as [|p preds IH]; intros memo Hm; cbn.
  { exists []. split; [done|]. split; [|done]. by intros _ p ?%not_elem_of_nil. }
  case_bool_decide as Ho.
  - destruct (gate_search g t ∅ (GateTaskState.id p) memo) as [[b memo']|] eqn:E.
    2: { exfalso. revert E. apply search_terminates. rewrite difference_empty_L.
         pose proof (tasks_by_id_size (tasks g)). unfold gate_fuel. lia. }
    destruct (search_sound _ _ _ _ _ _ _ _ _ E Hm) as [Hm' Hb].
    destruct (IH _ Hm') as (bs & Hbs & Hnil & Hne). destruct b; rewrite ?Hbs; cbn.
    + exists bs. split; [done|]. setoid_rewrite elem_of_cons. naive_solver.
    + eexists. split; [done|].
      destruct (evaluateTaskDependency (Some p) (GateTaskState.id p)) eqn:Hp; cbn.
      * split; [done|]. intros _. exists p. split; [left|]. split; [done|]. intros Hs.
        assert (∃ d, Some p = Some d ∧ satisfied d) as Hex by eauto.
        apply (evaluateTaskDependency_none _ (GateTaskState.id p)) in Hex. congruence.
      * apply evaluateTaskDependency_none in Hp as (d & [= <-] & Hp).
        setoid_rewrite elem_of_cons. naive_solver.
  - destruct (IH _ Hm) as (bs & -> & Hnil & Hne). exists bs. split; [done|].
    setoid_rewrite elem_of_cons. naive_solver.
Qed.

Lemma task_blockers_spec g s t :
  ∃ bs, task_blockers (gate_fuel g) g s t = Some bs ∧
    (bs = [] → ready g s t) ∧ (bs ≠ [] → held_back g s t).
Proof.
  unfold task_blockers. fold (implicit_order t).
  assert (∃ im, (if implicit_order t then implicit_blockers (gate_fuel g) g t (tasks_of g s) ∅
                 else Some []) = Some im ∧
    (im = [] → implicit_order t = true → ∀ p, p ∈ tasks_of g s →
       (GateTaskState.order p < GateTaskState.order t)%Z →
       satisfied p ∨ reaches t (tasks_by_id (tasks g)) (tasks g) (GateTaskState.id p)) ∧
    (im ≠ [] → implicit_order t = true ∧ ∃ p, p ∈ tasks_of g s ∧
       (GateTaskState.order p < GateTaskState.order t)%Z ∧ ¬ satisfied p))
    as (im & -> & Hnil & Hne).
  { destruct (implicit_order t); [|by exists []].
    destruct (implicit_blockers_spec g t (tasks_of g s) ∅) as (bs & ? & ? & ?).
    { intros i. by rewrite lookup_empty. }
    exists bs. naive_solver. }
  cbn. eexists. split; [done|]. unfold ready, held_back. split.
  - intros [Hs [Hi Ht]%app_eq_nil]%app_eq_nil. rewrite omap_nil_iff in Hs, Ht.
    split; [|split; [|auto]]; intros d Hd.
    + by apply evaluateSliceDependency_none, Hs.
    + by eapply evaluateTaskDependency_none, Ht.
  - intros Hbs. destruct (omap (evaluateSliceDependency (slices g)) _) as [|m ms] eqn:Es.
    2: { left. assert (m ∈ m :: ms) as Hin by left. rewrite <-Es in Hin.
         apply list_elem_of_omap in Hin as (d & Hd & E). exists d. split; [done|].
         intros Hx%evaluateSliceDependency_none. congruence. }
    destruct im as [|m ms]; [|right; right; by apply Hne].
    right; left. cbn in Hbs. destruct (omap _ (GateTaskState.dependsOnTaskIds t)) as [|m ms] eqn:Et;
      [done|].
    assert (m ∈ m :: ms) as Hin by left. rewrite <-Et in Hin.
    apply list_elem_of_omap in Hin as (d & Hd & E). exists d. split; [done|].
    intros Hx. apply (evaluateTaskDependency_none _ d) in Hx. congruence.
Qed.

Lemma first_ready_in_spec g s ts :
  ∃ r, first_ready_in (gate_fuel g) g s ts = Some r ∧
    match r with
    | Some t => t ∈ ts ∧ GateTaskState.status t = "pending" ∧ ready g s t
    | None => ∀ t, t ∈ ts → GateTaskState.status t = "pending" → held_back g s t
    end.
Proof.
  induction ts as [|t ts IH]; cbn.
  { exists None. split; [done|]. by intros t ?%not_elem_of_nil. }
  destruct IH as (r & Hr & Hspec). destruct (bool_decide (GateTaskState.status t = _)) eqn:Hp; cbn.
  - apply bool_decide_eq_true in Hp. destruct (task_blockers_spec g s t) as (bs & -> & Hnil & Hne).
    destruct bs as [|b bs]; [exists (Some t)|exists r]; split; try done.
    + split; [by left|auto].
    + destruct r as [t'|]; [destruct Hspec; split; [by right|done]|].
      intros t' [->|Ht']%elem_of_cons; auto.
  - apply bool_decide_eq_false in Hp. exists r. split; [done|].
    destruct r as [t'|]; [destruct Hspec; split; [by right|done]|].
    intros t' [->|Ht']%elem_of_cons; [done|auto].
Qed.

Lemma find_in_slices_spec g ss :
  ∃ r, find_in_slices (gate_fuel g) g ss = Some r ∧
    match r with
    | Some t => ∃ s, s ∈ ss ∧ slice_open s = true ∧ t ∈ tasks_of g s ∧
                     GateTaskState.status t = "pending" ∧ ready g s t
    | None => ∀ s t, s ∈ ss → slice_open s = true → t ∈ tasks_of g s →
                     GateTaskState.status t = "pending" → held_back g s t
    end.
Proof.
  induction ss as [|s ss IH]; cbn.
  { exists None. split; [done|]. by intros s t ?%not_elem_of_nil. }
  destruct IH as (r & Hr & Hspec). destruct (slice_open s) eqn:Ho.
  - destruct (first_ready_in_spec g s (tasks_of g s)) as (r0 & -> & H0). destruct r0 as [t|].
    + exists (Some t). split; [done|]. exists s. split; [by left|]. tauto.
    + exists r. split; [done|]. destruct r as [t|].
      * destruct Hspec as (s' & ? & ?). exists s'. split; [by right|done].
      * intros s' t [->|Hs']%elem_of_cons; eauto.
  - exists r. split; [done|]. destruct r as [t|].
    + destruct Hspec as (s' & ? & ?). exists s'. split; [by right|done].
    + intros s' t [->|Hs']%elem_of_cons; [congruence|eauto].
Qed.

(** C13: The choice of the next task always ends. The task it returns is pending, in a slice
    that is not failed or skipped, and ready: the slices its slice depends on have progressed,
    every explicit dependency is completed with accepted evidence, and without explicit
    dependencies every earlier task of the slice is so too or itself waits for the returned one.
    When it returns null, every pending task of every such slice is held back by a concrete
    unsatisfied dependency. *)
Theorem next_task_is_ready (g : gate) :
  ∃ r, findNextReadyTask g = Some r ∧
    match r with
    | Some t => ∃ s, s ∈ slices g ∧ slice_open s = true ∧ t ∈ tasks_of g s ∧
                     GateTaskState.status t = "pending" ∧ ready g s t
    | None => ∀ s t, s ∈ slices g → slice_open s = true → t ∈ tasks_of g s →
                     GateTaskState.status t = "pending" → held_back g s t
    end.
Proof. apply find_in_slices_spec. Qed.

(** ** Progress of plans whose dependencies point backwards *)

Lemma first_with {A} (p : A → bool) (l : list A) x :
  x ∈ l → p x = true →
  ∃ pre y post, l = pre ++ y :: post ∧ p y = true ∧ ∀ z, z ∈ pre → p z = false.
Proof.
  intros Hx Hp. induction l as [|a l IH]; [by apply not_elem_of_nil in Hx|].
  destruct (p a) eqn:Ha.
  { exists [], a, l. split; [done|]. split; [done|]. by intros z ?%not_elem_of_nil. }
  apply elem_of_cons in Hx as [->|Hx]; [congruence|].
  destruct (IH Hx) as (pre & y & post & -> & Hy & Hpre). exists (a :: pre), y, post.
  split; [done|]. split; [done|]. intros z [->|Hz]%elem_of_cons; auto.
Qed.

Definition is_pending (t : GateTaskState.t) : bool := bool_decide (GateTaskState.status t = "pending").

(** Explicit dependencies, and the order numbers of a slice, point to tasks that
    come before; slice dependencies point to slices that come before. *)
Definition backward (g : gate) : Prop :=
  ∀ pre s post, slices g = pre ++ s :: post →
    (∀ d, d ∈ GateSliceState.dependsOnSliceIds s →
       ∃ s', s' ∈ pre ∧ findSlice (slices g) d = Some s') ∧
    (∀ tpre t tpost, tasks_of g s = tpre ++ t :: tpost →
       (∀ d, d ∈ GateTaskState.dependsOnTaskIds t →
          ∃ x, findTask (tasks g) d = Some x ∧
               (x ∈ tpre ∨ ∃ s', s' ∈ pre ∧ x ∈ tasks_of g s')) ∧
       (∀ p, p ∈ tasks_of g s → (GateTaskState.order p < GateTaskState.order t)%Z → p ∈ tpre)).

(** Nothing is running or failed: each task waits or is done, the slices that
    are done were accepted, the others are open. *)
Definition at_rest (g : gate) : Prop :=
  ∀ s, s ∈ slices g →
    (∀ t, t ∈ tasks_of g s → is_pending t = false → satisfied t) ∧
    (if existsb is_pending (tasks_of g s) then slice_open s = true
     else GateSliceState.runtimeStatus s = Some "progress-ok").

Lemma existsb_false_elem {A} (p : A → bool) l x : existsb p l = false → x ∈ l → p x = false.
Proof.
  intros He Hx. destruct (p x) eqn:Hp; [|done]. rewrite <-He. symmetry. apply existsb_exists.
  exists x. by rewrite <-list_elem_of_In.
Qed.

Lemma backward_ready g s t :
  backward g → at_rest g → s ∈ slices g → t ∈ tasks_of g s → is_pending t = true →
  ∃ s' t', s' ∈ slices g ∧ slice_open s' = true ∧ t' ∈ tasks_of g s' ∧ is_pending t' = true ∧
           ¬ held_back g s' t'.
Proof.
  intros Hback Hrest Hs Ht Hp.
  assert (existsb is_pending (tasks_of g s) = true) as Hex.
  { apply existsb_exists. exists t. by rewrite <-list_elem_of_In. }
  destruct (first_with (λ s, existsb is_pending (tasks_of g s)) _ _ Hs Hex)
    as (pre & s1 & post & Hss & Hs1 & Hpre).
  assert (s1 ∈ slices g) as Hin1 by (rewrite Hss; set_solver).
  apply existsb_exists in Hs1 as Hs1'. destruct Hs1' as (t0 & Ht0%list_elem_of_In & Hp0).
  destruct (first_with is_pending _ _ Ht0 Hp0) as (tpre & t1 & tpost & Hts & Ht1 & Htpre).
  assert (t1 ∈ tasks_of g s1) as Hin2 by (rewrite Hts; set_solver).
  assert (∀ s' x, s' ∈ pre → x ∈ tasks_of g s' → satisfied x) as Hdone.
  { intros s' x Hs' Hx. apply (Hrest s'); [rewrite Hss; set_solver|done|].
    by apply (existsb_false_elem _ _ _ (Hpre _ Hs')). }
  assert (∀ x, x ∈ tpre → satisfied x) as Hdone1.
  { intros x Hx. apply (Hrest s1); [done|rewrite Hts; set_solver|auto]. }
  destruct (Hback _ _ _ Hss) as [Hsd Htd]. destruct (Htd _ _ _ Hts) as [Hdeps Hord].
  exists s1, t1. split; [done|]. split; [by pose proof (proj2 (Hrest _ Hin1)) as H; rewrite Hs1 in H|].
  do 2 (split; [done|]). intros [(d & Hd & Hn)|[(d & Hd & Hn)|(_ & p & Hpin & Hlt & Hn)]].
  - destruct (Hsd _ Hd) as (s' & Hs' & Hfind). apply Hn. exists s'. split; [done|]. left.
    pose proof (proj2 (Hrest s' ltac:(rewrite Hss; set_solver))) as H. by rewrite Hpre in H.
  - destruct (Hdeps _ Hd) as (x & Hx & [Hx1|(s' & ? & ?)]); apply Hn; exists x; eauto.
  - by apply Hn, Hdone1, Hord.
Qed.

Lemma backward_next g s t :
  backward g → at_rest g → s ∈ slices g → t ∈ tasks_of g s →
  GateTaskState.status t = "pending" →
  ∃ t', findNextReadyTask g = Some (Some t').
Proof.
  intros Hback Hrest Hs Ht Hp.
  destruct (backward_ready g s t Hback Hrest Hs Ht) as (s1 & t1 & H1 & H2 & H3 & H4 & H5).
  { by apply bool_decide_eq_true. }
  destruct (find_in_slices_spec g (slices g)) as ([t'|] & Hr & Hspec); [by exists t'|].
  destruct H5. apply Hspec; [done..|]. by apply bool_decide_eq_true in H4.
Qed.

(** While the dependencies of a plan point backwards, every started task is completed with
    accepted evidence and every finished slice was accepted, the gate always has a next task
    until none is pending: such a workflow never deadlocks. *)
Theorem backward_plans_progress (g : gate) (s : GateSliceState.t) (t : GateTaskState.t) :
  backward g → at_rest g → s ∈ slices g → t ∈ tasks_of g s →
  GateTaskState.status t = "pending" →
  ∃ t', findNextReadyTask g = Some (Some t').
Proof.
  apply backward_next.
Qed.

(** ** Reconciliation *)

Lemma reconcile_slice_tasks ts s :
  GateSliceState.tasks (reconcile_slice ts s) = GateSliceState.tasks s.
Proof. unfold reconcile_slice. repeat case_match; done. Qed.

Lemma reconcile_slice_idem ts s :
  reconcile_slice ts (reconcile_slice ts s) = reconcile_slice ts s.
Proof.
  unfold reconcile_slice at 2 3.
  destruct (bool_decide (ts = [])) eqn:H0; [unfold reconcile_slice; by rewrite H0|].
  destruct (_ || bool_decide (GateSliceState.runtimeStatus s = Some "verification-blocked")) eqn:H1.
  { unfold reconcile_slice. cbn. by rewrite H0, H1. }
  destruct (existsb _ ts) eqn:H2; [unfold reconcile_slice; cbn; by rewrite H0, H1, H2|].
  destruct (forallb _ ts) eqn:H3.
  - destruct (negb _ || _) eqn:H4; unfold reconcile_slice; cbn; [by rewrite H0, H2, H3|].
    by rewrite H0, H1, H2, H3, H4.
  - destruct (existsb (λ t, bool_decide (_ = "in_progress")) ts) eqn:H4;
      unfold reconcile_slice; cbn; [by rewrite H0, H2, H3, H4|].
    by rewrite H0, H1, H2, H3, H4.
Qed.

Lemma reconcile_milestone_idem ss m :
  reconcile_milestone ss (reconcile_milestone ss m) = reconcile_milestone ss m.
Proof.
  unfold reconcile_milestone, milestone_slices.
  destruct (bool_decide (GateMilestoneState.verificationStatus m = Some "blocked")) eqn:H0;
    [cbn -[omap existsb forallb]; by rewrite H0|].
  destruct (bool_decide (GateMilestoneState.verificationStatus m = Some "inconclusive")) eqn:H1;
    [cbn -[omap existsb forallb]; by rewrite H0, H1|].
  destruct (bool_decide (GateMilestoneState.verificationStatus m = Some "passed")) eqn:H2;
    [cbn -[omap existsb forallb]; by rewrite H0, H1, H2|].
  destruct (omap (findSlice ss) (GateMilestoneState.sliceIds m)) as [|s l] eqn:H3;
    [cbn -[omap existsb forallb]; by rewrite H0, H1, H2, H3|].
  destruct (forallb _ (s :: l)) eqn:H4.
  - destruct (negb _) eqn:H5; cbn -[omap existsb forallb]; [by rewrite H3, H4|].
    by rewrite H0, H1, H2, H3, H4, H5.
  - destruct (existsb _ (s :: l)) eqn:H5;
      [cbn -[omap existsb forallb]; by rewrite H0, H1, H2, H3, H4, H5|].
    destruct (existsb (λ s, _ || _) (s :: l)) eqn:H6;
      cbn -[omap existsb forallb]; by rewrite H0, H1, H2, H3, H4, H5, H6.
Qed.

(** Deriving the statuses of slices and milestones from their tasks is
    idempotent: reconciling twice, as a restart in between does, changes
    nothing more. *)
Theorem reconcile_idempotent (g : gate) :
  let reconcile g := reconcileMilestoneStatuses (reconcileSliceStatuses g) in
  reconcile (reconcile g) = reconcile g.
Proof.
  cbn. unfold reconcileMilestoneStatuses, reconcileSliceStatuses, set_milestones, set_slices. cbn.
  assert (map (λ s, reconcile_slice (tasks_of g s) s)
            (map (λ s, reconcile_slice (tasks_of g s) s) (slices g)) =
          map (λ s, reconcile_slice (tasks_of g s) s) (slices g)) as Hs.
  { rewrite map_map. apply map_ext. intros s. unfold tasks_of at 1. rewrite reconcile_slice_tasks.
    apply reconcile_slice_idem. }
  f_equal; [exact Hs|]. rewrite map_map. apply map_ext. intros m. etrans; [|apply reconcile_milestone_idem].
  f_equal. exact Hs.
Qed.

(** ** Saved verification progress *)

Lemma update_first_app {A} (p : A → bool) f l1 l2 :
  (∀ x, x ∈ l1 → p x = false) → update_first p f (l1 ++ l2) = l1 ++ update_first p f l2.
Proof.
  induction l1 as [|x l1 IH]; intros Hp; [done|]. cbn.
  rewrite Hp by left. f_equal. apply IH. intros y Hy. apply Hp. by right.
Qed.

Section restore.
Context {A : Type} (key : A → string) (clear : A → A) (f : A → A → A).
Hypothesis key_clear : ∀ x, key (clear x) = key x.

Lemma restore_from pre l :
  NoDup (map key (pre ++ l)) → (∀ x, x ∈ l → f x (clear x) = x) →
  foldl (λ acc x, update_first (λ y, bool_decide (key y = key x)) (f x) acc)
    (pre ++ map clear l) l = pre ++ l.
Proof.
  revert pre. induction l as [|x l IH]; intros pre Hnd Hf; cbn; [done|].
  rewrite update_first_app.
  - cbn. rewrite key_clear, bool_decide_eq_true_2 by done. rewrite Hf by left.
    change (x :: map clear l) with ([x] ++ map clear l). rewrite app_assoc, IH.
    + by rewrite <-app_assoc.
    + by rewrite <-app_assoc.
    + intros y Hy. apply Hf. by right.
  - intros y Hy. apply bool_decide_eq_false. intros Hk.
    rewrite map_app in Hnd. apply list.NoDup_app in Hnd as (_ & Hd & _).
    apply (Hd (key y)); [by apply list_elem_of_In, in_map, list_elem_of_In|].
    cbn. rewrite Hk. left.
Qed.

Lemma restore_all l :
  NoDup (map key l) → (∀ x, x ∈ l → f x (clear x) = x) →
  foldl (λ acc x, update_first (λ y, bool_decide (key y = key x)) (f x) acc) (map clear l) l = l.
Proof. apply (restore_from []). Qed.
End restore.

Lemma foldl_map_rows {A B C} (h : A → B → A) (mk : C → B) a l :
  foldl h a (map mk l) = foldl (λ a x, h a (mk x)) a l.
Proof. revert a. induction l; intros; cbn; auto. Qed.

(** The gate as it is built from the plan, before progress is applied. *)
Definition forget_verification (g : gate) : gate :=
  mkGate
    (map (λ s, GateSliceState.set_verificationStatus None
                 (GateSliceState.set_runtimeStatus None s)) (slices g)) (tasks g)
    (map (GateMilestoneState.set_verificationStatus None) (milestones g)).

Definition no_empty (o : option string) : Prop := o ≠ Some "".

Lemma keep_truthy_id o : no_empty o → keep_truthy o None = o.
Proof.
  unfold keep_truthy, no_empty. destruct o as [s|]; [|done]. cbn. intros Hs.
  rewrite bool_decide_eq_false_2 by congruence. done.
Qed.

(** What [exportVerificationProgress] saves, [applyVerificationProgress] puts
    back: on a gate rebuilt without verification state it restores every slice
    and milestone exactly, whatever verdicts were saved before. *)
Theorem verification_progress_roundtrip {V} (g : gate) (existing : option (verification_progress V)) :
  NoDup (map GateSliceState.id (slices g)) → NoDup (map GateMilestoneState.id (milestones g)) →
  Forall (λ s, no_empty (GateSliceState.runtimeStatus s) ∧
               no_empty (GateSliceState.verificationStatus s)) (slices g) →
  Forall (λ m, no_empty (GateMilestoneState.verificationStatus m)) (milestones g) →
  applyVerificationProgress (Some (exportVerificationProgress g existing)) (forget_verification g) = g.
Proof.
  intros Hns Hnm Hs Hm. rewrite list.Forall_forall in Hs. rewrite list.Forall_forall in Hm.
  unfold applyVerificationProgress, exportVerificationProgress. cbn.
  rewrite !foldl_map_rows. destruct g as [ss ts ms]. cbn in *. f_equal.
  - unfold apply_slice_row. cbn.
    refine (restore_all GateSliceState.id _ _ _ ss Hns _); [done|].
    intros s [H1 H2]%Hs. destruct s; cbn in *. by rewrite !keep_truthy_id.
  - unfold apply_milestone_row. cbn.
    refine (restore_all GateMilestoneState.id _ _ _ ms Hnm _); [done|].
    intros m H%Hm. destruct m; cbn in *. by rewrite !keep_truthy_id.
Qed.
