(* ===== verification/RepairTasks.v ===== *)
(** * Repair and preparation tasks

    Models [src/server/legacy-control-plane/repair-tasks.ts]: the tasks that
    verdicts and blocked tasks add to a running plan.  The functions mutate the
    plan they are given and may throw after a part of the mutation, so a
    computation returns the plan with its result or its error. *)
From stdpp Require Import pretty.
From Stdlib Require Import Ascii.
From S2P Require Import Prelude Json JsString SavedPlan.

#[local] Arguments bool_decide : simpl never.

(** ** Computations on a plan object *)

Definition planM (A : Type) : Type := SavedJobPlan.t → result string A * SavedJobPlan.t.

Definition pl_ret {A} (a : A) : planM A := λ p, (Ok a, p).
Definition pl_throw {A} (e : string) : planM A := λ p, (Err e, p).
Definition pl_bind {A B} (m : planM A) (k : A → planM B) : planM B :=
  λ p, match m p with
       | (Ok a, p') => k a p'
       | (Err e, p') => (Err e, p')
       end.
Definition pl_get : planM SavedJobPlan.t := λ p, (Ok p, p).
Definition pl_modify (f : SavedJobPlan.t → SavedJobPlan.t) : planM unit := λ p, (Ok tt, f p).

Declare Scope plan_scope.
Delimit Scope plan_scope with plan.
Notation "'let!' x := m 'in' k" := (pl_bind m (λ x, k))
  (at level 10, x name, m at level 100, k at level 200,
   format "'[v' 'let!'  x  :=  m  'in' '/' k ']'") : plan_scope.
Notation "'do!' m 'in' k" := (pl_bind m (λ _, k))
  (at level 10, m at level 100, k at level 200,
   format "'[v' 'do!'  m  'in' '/' k ']'") : plan_scope.
Local Open Scope plan_scope.

(** [for (const x of xs) ids.push(body(x))] *)
Fixpoint pl_collect {A} (xs : list A) (body : A → planM string) : planM (list string) :=
  match xs with
  | [] => pl_ret []
  | x :: xs' =>
      let! id := body x in
      let! ids := pl_collect xs' body in
      pl_ret (id :: ids)
  end.

(** ** Limits *)

Definition MAX_INFRA_RETRIES : Z := 3.
Definition MAX_TASK_PREP_GENERATIONS : Z := 3.
Definition MAX_TASK_REPAIR_GENERATIONS : Z := 3.
Definition MAX_VERIFIER_INFRA_RETRIES : Z := 3.
Definition MAX_SM_REPAIR_GENERATIONS : Z := 3.

Definition DEFAULT_MAX_REPAIR_TASKS_PER_VERDICT : Z := 3.
Definition MAX_REPAIR_GENERATIONS : Z := MAX_SM_REPAIR_GENERATIONS.

Record RepairInjectionResult := mkInjection {
  ri_created : nat;
  ri_requested : nat;
  ri_capped : bool;
  ri_newTaskIds : list string
}.

(** ** Verdicts ([verification/types.ts]) *)

Module TraceItem.
Record t := mk { requirement : string; status : string; evidence : option (list string) }.
End TraceItem.

Module RepairSuggestion.
Record t := mk { reason : string; instruction : string; targetTaskId : option string }.
End RepairSuggestion.

Module SliceVerdict.
Record t := mk {
  status : string;
  confidence : string;
  summary : string;
  satisfiedSignals : list string;
  missingSignals : list string;
  questionableClaims : list string;
  evidenceTrace : list TraceItem.t;
  repairSuggestions : list RepairSuggestion.t
}.
End SliceVerdict.

Module SliceAssessment.
Record t := mk { sliceId : string; status : string; reason : string }.
End SliceAssessment.

Module MilestoneRepair.
Record t := mk {
  instruction : string;
  evidenceGap : string;
  targetSliceId : option string;
  targetTaskId : option string
}.
End MilestoneRepair.

Module MilestoneVerdict.
Record t := mk {
  status : string;
  confidence : string;
  summary : string;
  requirementTrace : list TraceItem.t;
  sliceAssessments : list SliceAssessment.t;
  repairTasks : list MilestoneRepair.t
}.
End MilestoneVerdict.

(** ** Places in the plan *)

Definition parseSliceCoords (sliceId : string) : option (Z * Z) := match_slice (trim sliceId).

(** [sort((a, b) => a.taskIndex - b.taskIndex)], which is stable. *)
Fixpoint insert_by_index (x : FlatTaskPlan.t) (l : list FlatTaskPlan.t) : list FlatTaskPlan.t :=
  match l with
  | [] => [x]
  | y :: l' =>
      if bool_decide (FlatTaskPlan.taskIndex x ≤ FlatTaskPlan.taskIndex y)%Z then x :: l
      else y :: insert_by_index x l'
  end.

Definition in_slice (m s : Z) (t : FlatTaskPlan.t) : bool :=
  bool_decide (FlatTaskPlan.milestoneIndex t = m) && bool_decide (FlatTaskPlan.sliceIndex t = s).

Definition sliceTasks (plan : SavedJobPlan.t) (m s : Z) : list FlatTaskPlan.t :=
  foldr insert_by_index [] (List.filter (in_slice m s) (SavedJobPlan.tasks plan)).

Definition max_index (l : list FlatTaskPlan.t) (default : Z) : Z :=
  foldr (λ t acc, Z.max (FlatTaskPlan.taskIndex t) acc) default l.

Definition nextTaskIndex (plan : SavedJobPlan.t) (m s : Z) : Z :=
  match sliceTasks plan m s with
  | [] => 1
  | t :: ts => (max_index ts (FlatTaskPlan.taskIndex t) + 1)%Z
  end.

(** [l[l.length - 1]] *)
Definition last_of {A} (l : list A) : option A := hd_error (reverse l).

(** [new Map(tasks.map((t) => [t.id, t])).get(id)] *)
Definition flat_by_id (ts : list FlatTaskPlan.t) (id : string) : option FlatTaskPlan.t :=
  List.find (λ t, bool_decide (FlatTaskPlan.id t = id)) (reverse ts).

Definition find_flat (plan : SavedJobPlan.t) (id : string) : option FlatTaskPlan.t :=
  List.find (λ t, bool_decide (FlatTaskPlan.id t = id)) (SavedJobPlan.tasks plan).

Definition milestone_at (plan : SavedJobPlan.t) (m : Z) : option PlannerRegisteredMilestone.t :=
  js_index (SavedJobPlan.milestones plan) (m - 1).

Definition slice_at (plan : SavedJobPlan.t) (m s : Z) : option PlannerRegisteredSlice.t :=
  ms ← milestone_at plan m; js_index (PlannerRegisteredMilestone.slices ms) (s - 1).

(** ** Texts *)

Definition newline : string := String "010" EmptyString.

(** [x || y] *)
Definition or_else (x y : string) : string := if bool_decide (x = "") then y else x.

Definition trace_line (item : TraceItem.t) : string :=
  let evidence := match TraceItem.evidence item with
                  | Some (e :: es) => join "; " (e :: es)
                  | _ => "no evidence"
                  end in
  "- " +:+ TraceItem.requirement item +:+ ": " +:+ TraceItem.status item +:+
  " (" +:+ evidence +:+ ")".

Definition formatEvidenceTrace (trace : list TraceItem.t) : string :=
  match trace with
  | [] => "- (no evidence trace entries)"
  | _ => join newline (map trace_line trace)
  end.

Definition generation_line (label : string) (generation : Z) : string :=
  label +:+ ": " +:+ pretty generation +:+ "/" +:+ pretty MAX_REPAIR_GENERATIONS +:+ ".".

Definition buildSliceRepairContext (sliceTitle sliceDescription : string)
    (verdict : SliceVerdict.t) (reason instruction : string) (generation : Z) : string :=
  join newline
    ["## Slice Evidence Repair Task"; "";
     "Slice: " +:+ sliceTitle;
     "Slice description: " +:+ or_else (trim sliceDescription) "(none)"; "";
     "This is an evidence-gap repair, not a test-script failure.";
     "The slice verifier did not run shell commands."; "";
     generation_line "Repair generation" generation;
     "Evidence gap: " +:+ reason;
     "Required repair: " +:+ instruction;
     "Verifier summary: " +:+ SliceVerdict.summary verdict; "";
     "## Current evidence trace";
     formatEvidenceTrace (SliceVerdict.evidenceTrace verdict); "";
     "## Rules";
     "Use relative paths only.";
     "Do not add validation scripts to satisfy the verifier.";
     "Submit a fresh task result through report_task_result with summary, changedFiles, evidence, and validation."].

Definition buildMilestoneRepairContext (milestoneTitle sliceTitle targetContext : string)
    (verdict : MilestoneVerdict.t) (evidenceGap instruction : string) (generation : Z) : string :=
  let traceLines := match MilestoneVerdict.requirementTrace verdict with
                    | [] => "- (no requirement trace entries)"
                    | trace => join newline (map trace_line trace)
                    end in
  join newline (List.filter (λ l, negb (bool_decide (l = "")))
    ["## Milestone Evidence Repair Task"; "";
     "Milestone: " +:+ milestoneTitle;
     "Slice: " +:+ sliceTitle; "";
     generation_line "Repair generation" generation;
     "Evidence gap: " +:+ evidenceGap;
     "Required repair: " +:+ instruction;
     "Verifier summary: " +:+ MilestoneVerdict.summary verdict; "";
     "## Requirement trace";
     traceLines; "";
     "## Rules";
     "Use relative paths only.";
     "Submit a fresh task result through report_task_result.";
     if bool_decide (targetContext = "") then ""
     else newline +:+ "## Target Task Context" +:+ newline +:+ targetContext]).

Definition buildTaskDependencyPrepContext (blockedTaskId blockedTitle summary : string)
    (blockers : list string) (generation : Z) : string :=
  join newline
    (["## Task Dependency Preparation"; "";
      "Blocked task: " +:+ blockedTaskId +:+ " — " +:+ blockedTitle;
      generation_line "Preparation generation" generation; "";
      "The blocked task reported missing workspace prerequisites. Resolve them here so the blocked task can run again."; "";
      "Summary: " +:+ summary;
      "Blockers:"] ++
     map (λ item, "  - " +:+ item) blockers ++
     [""; "## Rules";
      "- Create or restore only what the blockers require (files, modules, i18n keys, stubs).";
      "- Use workspace-relative paths only.";
      "- Do not mark the original task complete here.";
      "- Submit a fresh report_task_result with status completed when prerequisites are in place.";
      "- Use blockerKind=dependency-prep only if you still cannot finish preparation."]).

Definition buildTaskImplementationRepairContext (blockedTaskId blockedTitle summary : string)
    (blockers : list string) (generation : Z) : string :=
  join newline
    (["## Task Implementation Repair"; "";
      "Blocked task: " +:+ blockedTaskId +:+ " — " +:+ blockedTitle;
      generation_line "Repair generation" generation; "";
      "The original task reported implementation or validation failure. Fix the incomplete work, regressions, or failing checks so the blocked task can succeed on its next run."; "";
      "Summary: " +:+ summary;
      "Issues:"] ++
     map (λ item, "  - " +:+ item) blockers ++
     [""; "## Rules";
      "- Fix only what the blocked task broke or left incomplete.";
      "- Use workspace-relative paths only.";
      "- Do not mark the original task complete here.";
      "- Submit report_task_result with status completed when the repair is done.";
      "- Use blockerKind=implementation only if the issue cannot be fixed in-workspace."]).

Definition buildEvidenceResubmitContext (scopeLabel targetLabel reason : string)
    (attempt maxAttempts : Z) : string :=
  join newline
    ["## Evidence Resubmit Repair Task"; "";
     "Scope: " +:+ scopeLabel;
     "Target: " +:+ targetLabel;
     "Verification attempt: " +:+ pretty attempt +:+ "/" +:+ pretty maxAttempts;
     "Reason: " +:+ reason; "";
     "Re-run the work if needed, then call report_task_result with a fresh evidence bundle:";
     "- summary, changedFiles (workspace-relative only), evidence, validation";
     "- blockers when status is blocked"; "";
     "Do not submit absolute paths or .. segments in changedFiles."].

(** ** Adding a task *)

(** Applies [f] to the task list of a slice of the tree, when the slice exists. *)
Definition alter_slice_tasks (m s : Z)
    (f : list PlannerRegisteredTask.t → list PlannerRegisteredTask.t) (plan : SavedJobPlan.t) :
    SavedJobPlan.t :=
  match slice_at plan m s with
  | None => plan
  | Some _ =>
      SavedJobPlan.mk
        (alter (λ ms, PlannerRegisteredMilestone.set_slices
                   (alter (λ sl, PlannerRegisteredSlice.set_tasks
                              (f (PlannerRegisteredSlice.tasks sl)) sl)
                      (Z.to_nat (s - 1)) (PlannerRegisteredMilestone.slices ms)) ms)
           (Z.to_nat (m - 1)) (SavedJobPlan.milestones plan))
        (SavedJobPlan.tasks plan)
  end.

Record repair_input := mkRepairInput {
  in_milestoneIndex : Z;
  in_sliceIndex : Z;
  in_taskIndex : Z;
  in_title : string;
  in_description : string;
  in_contextMarkdown : string;
  in_template : FlatTaskPlan.t;
  in_parentTaskId : string;
  in_dependsOnParent : bool
}.

Definition repair_flat (input : repair_input) : FlatTaskPlan.t :=
  let template := in_template input in
  FlatTaskPlan.mk (task_id (in_milestoneIndex input) (in_sliceIndex input) (in_taskIndex input))
    (in_milestoneIndex input) (in_sliceIndex input) (in_taskIndex input)
    (in_title input) (in_description input)
    (FlatTaskPlan.taskKind template) (FlatTaskPlan.abilityCode template)
    (in_contextMarkdown input) None (FlatTaskPlan.successCriteria template) None None
    (Some (if in_dependsOnParent input then [in_parentTaskId input] else []))
    (Some false) None.

Definition nested_of (flat : FlatTaskPlan.t) : PlannerRegisteredTask.t :=
  PlannerRegisteredTask.mk (Some (FlatTaskPlan.title flat)) (Some (FlatTaskPlan.description flat))
    (FlatTaskPlan.taskKind flat) (Some (FlatTaskPlan.abilityCode flat)) None None
    (FlatTaskPlan.dependsOnTaskRefs flat) None None (Some false) None.

Definition push_task (flat : FlatTaskPlan.t) (plan : SavedJobPlan.t) : SavedJobPlan.t :=
  alter_slice_tasks (FlatTaskPlan.milestoneIndex flat) (FlatTaskPlan.sliceIndex flat)
    (λ ts, ts ++ [nested_of flat])
    (SavedJobPlan.mk (SavedJobPlan.milestones plan) (SavedJobPlan.tasks plan ++ [flat])).

Definition appendRepairTask (input : repair_input) : planM string :=
  do! pl_modify (push_task (repair_flat input)) in
  pl_ret (FlatTaskPlan.id (repair_flat input)).

(** ** Repairs asked for by a verdict *)

(** [Math.max(1, max ?? DEFAULT)] *)
Definition max_tasks (maxTasksPerVerdict : option Z) : nat :=
  Z.to_nat (Z.max 1 (default DEFAULT_MAX_REPAIR_TASKS_PER_VERDICT maxTasksPerVerdict)).

Definition injection_result {A} (requested : list A) (maxTasks : nat) (ids : list string) :
    RepairInjectionResult :=
  mkInjection (length ids) (length requested) (bool_decide (maxTasks < length requested)) ids.

(** The loop of [injectSliceRepairTasks]: [nextIndex] is counted up locally. *)
Fixpoint slice_repairs (m s : Z) (tasks : list FlatTaskPlan.t) (templateDefault : FlatTaskPlan.t)
    (sliceTitle sliceDescription : string) (verdict : SliceVerdict.t) (generation nextIndex : Z)
    (suggestions : list RepairSuggestion.t) : planM (list string) :=
  match suggestions with
  | [] => pl_ret []
  | suggestion :: rest =>
      let template :=
        match RepairSuggestion.targetTaskId suggestion with
        | Some tid => if bool_decide (tid = "") then templateDefault
                      else default templateDefault (flat_by_id tasks tid)
        | None => templateDefault
        end in
      let! id := appendRepairTask
        (mkRepairInput m s nextIndex
           ("[REPAIR] " +:+ slice0 80 (RepairSuggestion.reason suggestion))
           (RepairSuggestion.instruction suggestion)
           (buildSliceRepairContext sliceTitle sliceDescription verdict
              (RepairSuggestion.reason suggestion) (RepairSuggestion.instruction suggestion)
              generation)
           template (FlatTaskPlan.id template) true) in
      let! ids := slice_repairs m s tasks templateDefault sliceTitle sliceDescription verdict
                    generation (nextIndex + 1) rest in
      pl_ret (id :: ids)
  end.

Definition injectSliceRepairTasks (sliceId : string) (verdict : SliceVerdict.t) (generation : Z)
    (maxTasksPerVerdict : option Z) : planM RepairInjectionResult :=
  match parseSliceCoords sliceId with
  | None => pl_throw ("invalid slice id " +:+ sliceId)
  | Some (m, s) =>
      let! plan := pl_get in
      let tasks := sliceTasks plan m s in
      match last_of tasks with
      | None => pl_throw ("slice " +:+ sliceId +:+ " has no tasks to use as repair template")
      | Some templateDefault =>
          let sl := slice_at plan m s in
          let sliceTitle := default sliceId (sl ≫= PlannerRegisteredSlice.title) in
          let sliceDescription := default "" (sl ≫= PlannerRegisteredSlice.description) in
          let maxTasks := max_tasks maxTasksPerVerdict in
          let! ids := slice_repairs m s tasks templateDefault sliceTitle sliceDescription verdict
                        generation (nextTaskIndex plan m s)
                        (take maxTasks (SliceVerdict.repairSuggestions verdict)) in
          pl_ret (injection_result (SliceVerdict.repairSuggestions verdict) maxTasks ids)
      end
  end.

(** The slice a repair of a milestone verdict goes to; 0 counts as none. *)
Definition repair_slice_index (milestoneId : string) (m : Z) (milestoneTasks : list FlatTaskPlan.t)
    (repair : MilestoneRepair.t) : result string Z :=
  let found :=
    match MilestoneRepair.targetSliceId repair with
    | Some sid =>
        if bool_decide (sid = "") then Ok None
        else match parseSliceCoords sid with
             | Some (m', s) =>
                 if bool_decide (m' = m) then Ok (Some s)
                 else Err ("repair targetSliceId " +:+ sid +:+ " is outside " +:+ milestoneId)
             | None => Err ("repair targetSliceId " +:+ sid +:+ " is outside " +:+ milestoneId)
             end
    | None => Ok None
    end in
  let by_task :=
    match MilestoneRepair.targetTaskId repair with
    | Some tid => if bool_decide (tid = "") then None
                  else FlatTaskPlan.sliceIndex <$> flat_by_id milestoneTasks tid
    | None => None
    end in
  let has_slice := match MilestoneRepair.targetSliceId repair with
                   | Some sid => negb (bool_decide (sid = ""))
                   | None => false
                   end in
  match found with
  | Err e => Err e
  | Ok bySlice =>
      match (if has_slice then bySlice else by_task) with
      | Some s => if bool_decide (s = 0%Z)
                  then Err "repairTasks must target a slice or task explicitly" else Ok s
      | None => Err "repairTasks must target a slice or task explicitly"
      end
  end.

Definition milestone_repair (milestoneId : string) (m : Z)
    (milestonePlan : PlannerRegisteredMilestone.t) (milestoneTasks : list FlatTaskPlan.t)
    (verdict : MilestoneVerdict.t) (generation : Z) (repair : MilestoneRepair.t) : planM string :=
  match repair_slice_index milestoneId m milestoneTasks repair with
  | Err e => pl_throw e
  | Ok s =>
      let! plan := pl_get in
      let sliceId := slice_id m s in
      let target := match MilestoneRepair.targetTaskId repair with
                    | Some tid => if bool_decide (tid = "") then None
                                  else flat_by_id milestoneTasks tid
                    | None => None
                    end in
      match (match target with Some t => Some t | None => last_of (sliceTasks plan m s) end) with
      | None => pl_throw ("slice " +:+ sliceId +:+ " has no tasks for milestone repair")
      | Some template =>
          let slicePlan := js_index (PlannerRegisteredMilestone.slices milestonePlan) (s - 1) in
          let sliceTitle := default sliceId (slicePlan ≫= PlannerRegisteredSlice.title) in
          appendRepairTask
            (mkRepairInput m s (nextTaskIndex plan m s)
               ("[REPAIR] Milestone evidence: " +:+ sliceTitle)
               ("Repair required by milestone verifier: " +:+ MilestoneRepair.instruction repair)
               (buildMilestoneRepairContext
                  (default milestoneId (PlannerRegisteredMilestone.title milestonePlan))
                  sliceTitle (default "" (FlatTaskPlan.contextMarkdown <$> target)) verdict
                  (MilestoneRepair.evidenceGap repair) (MilestoneRepair.instruction repair)
                  generation)
               template (FlatTaskPlan.id template) true)
      end
  end.

Definition injectMilestoneRepairTasks (milestoneId : string) (verdict : MilestoneVerdict.t)
    (generation : Z) (maxTasksPerVerdict : option Z) : planM RepairInjectionResult :=
  match match_milestone (trim milestoneId) with
  | None => pl_throw ("invalid milestone id " +:+ milestoneId)
  | Some m =>
      let! plan := pl_get in
      match milestone_at plan m with
      | None => pl_throw ("milestone " +:+ milestoneId +:+ " not found")
      | Some milestonePlan =>
          let milestoneTasks :=
            List.filter (λ t, bool_decide (FlatTaskPlan.milestoneIndex t = m))
              (SavedJobPlan.tasks plan) in
          let maxTasks := max_tasks maxTasksPerVerdict in
          let! ids := pl_collect (take maxTasks (MilestoneVerdict.repairTasks verdict))
                        (milestone_repair milestoneId m milestonePlan milestoneTasks verdict
                           generation) in
          pl_ret (injection_result (MilestoneVerdict.repairTasks verdict) maxTasks ids)
      end
  end.

(** ** Counters of attempts *)

Definition repairGenerationKey (scope id : string) : string := scope +:+ ":" +:+ id.
Definition taskInfraRetryGenerationKey (taskId : string) : string := "task-infra:" +:+ taskId.
Definition taskPrepGenerationKey (taskId : string) : string := "task-prep:" +:+ taskId.
Definition taskRepairGenerationKey (taskId : string) : string := "task-repair:" +:+ taskId.
Definition verifierInfraRetryGenerationKey (scope id : string) : string :=
  "verifier-infra:" +:+ scope +:+ ":" +:+ id.

(** ** Recovery of a blocked task *)

(** [[...new Set([...refs, id])]] keeps the first of equal strings. *)
Fixpoint js_unique (seen l : list string) : list string :=
  match l with
  | [] => []
  | x :: l' => if bool_decide (x ∈ seen) then js_unique seen l'
               else x :: js_unique (x :: seen) l'
  end.

Fixpoint set_refs_of_first (taskId : string) (refs : list string) (l : list FlatTaskPlan.t) :
    list FlatTaskPlan.t :=
  match l with
  | [] => []
  | t :: l' => if bool_decide (FlatTaskPlan.id t = taskId)
               then FlatTaskPlan.set_dependsOnTaskRefs (Some refs) t :: l'
               else t :: set_refs_of_first taskId refs l'
  end.

Definition addDependsOnTaskRef (taskId dependencyId : string) : planM unit :=
  let! plan := pl_get in
  match find_flat plan taskId with
  | None => pl_throw ("task " +:+ taskId +:+ " not found for dependency update")
  | Some flat =>
      let refs := js_unique []
        (default [] (FlatTaskPlan.dependsOnTaskRefs flat) ++ [dependencyId]) in
      do! pl_modify (λ plan,
            SavedJobPlan.mk (SavedJobPlan.milestones plan)
              (set_refs_of_first taskId refs (SavedJobPlan.tasks plan))) in
      pl_modify (alter_slice_tasks (FlatTaskPlan.milestoneIndex flat) (FlatTaskPlan.sliceIndex flat)
        (λ ts, if bool_decide (FlatTaskPlan.taskIndex flat - 1 < 0)%Z then ts
               else alter (PlannerRegisteredTask.set_dependsOnTaskRefs (Some refs))
                      (Z.to_nat (FlatTaskPlan.taskIndex flat - 1)) ts))
  end.

Record blocked_input := mkBlocked {
  bl_blockedTaskId : string;
  bl_summary : string;
  bl_blockers : list string;
  bl_generation : Z
}.

(** The common body of [injectTaskDependencyPrepTask] and
    [injectTaskImplementationRepairTask]: [tag], [what] and [context] are the
    texts in which they differ. *)
Definition inject_for_blocked (tag what : string)
    (context : string → string → string → list string → Z → string) (input : blocked_input) :
    planM RepairInjectionResult :=
  match match_task (trim (bl_blockedTaskId input)) with
  | None => pl_throw ("invalid task id " +:+ bl_blockedTaskId input)
  | Some (m, s, _) =>
      let! plan := pl_get in
      match find_flat plan (bl_blockedTaskId input) with
      | None => pl_throw ("task " +:+ bl_blockedTaskId input +:+ " not found")
      | Some blocked =>
          let primary := default (bl_summary input) (hd_error (bl_blockers input)) in
          let! id := appendRepairTask
            (mkRepairInput m s (nextTaskIndex plan m s)
               (tag +:+ slice0 72 primary)
               (what +:+ bl_blockedTaskId input +:+ ": " +:+ primary)
               (context (bl_blockedTaskId input) (FlatTaskPlan.title blocked) (bl_summary input)
                  (bl_blockers input) (bl_generation input))
               blocked (bl_blockedTaskId input) false) in
          do! addDependsOnTaskRef (bl_blockedTaskId input) id in
          pl_ret (mkInjection 1 1 false [id])
      end
  end.

Definition injectTaskDependencyPrepTask : blocked_input → planM RepairInjectionResult :=
  inject_for_blocked "[PREP] " "Prepare prerequisites for " buildTaskDependencyPrepContext.

Definition injectTaskImplementationRepairTask : blocked_input → planM RepairInjectionResult :=
  inject_for_blocked "[REPAIR] " "Repair implementation issues for "
    buildTaskImplementationRepairContext.

(** ** Evidence to resubmit *)

Definition injectSliceEvidenceRepairTask (sliceId reason : string) (attempt maxAttempts : Z) :
    planM RepairInjectionResult :=
  match parseSliceCoords sliceId with
  | None => pl_throw ("invalid slice id " +:+ sliceId)
  | Some (m, s) =>
      let! plan := pl_get in
      match last_of (sliceTasks plan m s) with
      | None => pl_throw ("slice " +:+ sliceId +:+ " has no tasks for evidence repair")
      | Some template =>
          let sliceTitle := default sliceId (slice_at plan m s ≫= PlannerRegisteredSlice.title) in
          let! id := appendRepairTask
            (mkRepairInput m s (nextTaskIndex plan m s) "[EVIDENCE] Resubmit slice evidence" reason
               (buildEvidenceResubmitContext "slice" sliceTitle reason attempt maxAttempts)
               template (FlatTaskPlan.id template) true) in
          pl_ret (mkInjection 1 1 false [id])
      end
  end.

Definition injectMilestoneEvidenceRepairTask (milestoneId reason : string)
    (attempt maxAttempts : Z) : planM RepairInjectionResult :=
  match match_milestone (trim milestoneId) with
  | None => pl_throw ("invalid milestone id " +:+ milestoneId)
  | Some m =>
      let! plan := pl_get in
      match milestone_at plan m with
      | None => pl_throw ("milestone " +:+ milestoneId +:+ " not found")
      | Some milestonePlan =>
          match last_of (List.filter (λ t, bool_decide (FlatTaskPlan.milestoneIndex t = m))
                        (SavedJobPlan.tasks plan)) with
          | None => pl_throw ("milestone " +:+ milestoneId +:+ " has no tasks for evidence repair")
          | Some template =>
              let s := FlatTaskPlan.sliceIndex template in
              let! id := appendRepairTask
                (mkRepairInput m s (nextTaskIndex plan m s)
                   "[EVIDENCE] Resubmit milestone evidence" reason
                   (buildEvidenceResubmitContext "milestone"
                      (default milestoneId (PlannerRegisteredMilestone.title milestonePlan))
                      reason attempt maxAttempts)
                   template (FlatTaskPlan.id template) true) in
              pl_ret (mkInjection 1 1 false [id])
          end
      end
  end.
