(* ===== verification/RepairSpecs.v ===== *)
(** * What injections do to a plan

    The flat task list and the tree of a plan stay aligned under every
    injection, also one that throws half way; new tasks get fresh ids; a repair
    for a slice that does not exist is lost; a second preparation task for the
    same task can block the workflow. *)
From stdpp Require Import pretty.
From Stdlib Require Import Ascii.
From S2P Require Import Prelude Json JsString Sql SavedPlan Gate RepairTasks.

#[local] Arguments bool_decide : simpl never.
#[local] Arguments Z.sub : simpl never.
#[local] Arguments Z.add : simpl never.

(** ** Alignment of the flat list with the tree *)

Definition nested_count (p : SavedJobPlan.t) (m s : Z) : nat :=
  match slice_at p m s with
  | Some sl => length (PlannerRegisteredSlice.tasks sl)
  | None => 0
  end.

Definition slice_indexes (p : SavedJobPlan.t) (m s : Z) : list Z :=
  map FlatTaskPlan.taskIndex (List.filter (in_slice m s) (SavedJobPlan.tasks p)).

(** Every flat task carries the id of its place, and the flat tasks of a slice
    are numbered like the tasks of the tree. *)
Definition plan_aligned (p : SavedJobPlan.t) : Prop :=
  Forall (λ t, FlatTaskPlan.id t =
    task_id (FlatTaskPlan.milestoneIndex t) (FlatTaskPlan.sliceIndex t) (FlatTaskPlan.taskIndex t))
    (SavedJobPlan.tasks p) ∧
  ∀ m s, slice_indexes p m s = map Z.of_nat (seq 1 (nested_count p m s)).

Lemma js_index_lt {A} (l : list A) i x : js_index l i = Some x → (0 ≤ i)%Z ∧ l !! Z.to_nat i = Some x.
Proof. unfold js_index. case_bool_decide; [done|]. split; [lia|done]. Qed.

Lemma slice_at_pos p m s sl : slice_at p m s = Some sl → (1 ≤ m ∧ 1 ≤ s)%Z.
Proof.
  unfold slice_at, milestone_at. intros (ms & [Hm _]%js_index_lt & [Hs _]%js_index_lt)%bind_Some.
  lia.
Qed.

Lemma slice_at_milestones p p' m s :
  SavedJobPlan.milestones p = SavedJobPlan.milestones p' → slice_at p m s = slice_at p' m s.
Proof. unfold slice_at, milestone_at. by intros ->. Qed.

Lemma js_index_alter {A} (f : A → A) (l : list A) i j :
  (0 ≤ i)%Z →
  js_index (alter f (Z.to_nat i) l) j =
  if bool_decide (i = j) then f <$> js_index l j else js_index l j.
Proof.
  intros Hi. unfold js_index. case_bool_decide as Hj; [by case_bool_decide|].
  case_bool_decide as Hij.
  - subst j. by rewrite list_lookup_alter_eq.
  - rewrite list_lookup_alter_ne; [done|]. lia.
Qed.

Lemma slice_at_alter p m s f m' s' :
  slice_at (alter_slice_tasks m s f p) m' s' =
  if bool_decide (m = m' ∧ s = s')
  then (λ sl, PlannerRegisteredSlice.set_tasks (f (PlannerRegisteredSlice.tasks sl)) sl)
         <$> slice_at p m' s'
  else slice_at p m' s'.
Proof.
  unfold alter_slice_tasks. destruct (slice_at p m s) as [sl|] eqn:Hsl.
  2: { case_bool_decide as Hms; [|done]. destruct Hms as [<- <-]. by rewrite Hsl. }
  apply slice_at_pos in Hsl as Hpos. unfold slice_at, milestone_at. cbn.
  rewrite js_index_alter by lia. destruct (decide (m = m')) as [<-|Hm].
  - rewrite bool_decide_eq_true_2 by done.
    destruct (js_index (SavedJobPlan.milestones p) (m - 1)) as [ms|]; cbn.
    + rewrite js_index_alter by lia. destruct (decide (s = s')) as [<-|Hs].
      * by rewrite !bool_decide_eq_true_2.
      * rewrite !bool_decide_eq_false_2; [done|naive_solver|lia].
    + by case_bool_decide.
  - rewrite !bool_decide_eq_false_2; [done|naive_solver|lia].
Qed.

Lemma alter_slice_tasks_flat p m s f :
  SavedJobPlan.tasks (alter_slice_tasks m s f p) = SavedJobPlan.tasks p.
Proof. unfold alter_slice_tasks. by case_match. Qed.

Lemma nested_count_alter p m s f m' s' :
  nested_count (alter_slice_tasks m s f p) m' s' =
  match slice_at p m' s' with
  | Some sl => if bool_decide (m = m' ∧ s = s')
               then length (f (PlannerRegisteredSlice.tasks sl))
               else nested_count p m' s'
  | None => 0
  end.
Proof.
  unfold nested_count. rewrite slice_at_alter. case_bool_decide; destruct (slice_at p m' s'); done.
Qed.

(** ** The next index *)

Lemma elem_of_insert_by_index x y l : y ∈ insert_by_index x l ↔ y = x ∨ y ∈ l.
Proof.
  induction l as [|z l IH]; cbn; [by rewrite elem_of_cons|].
  case_bool_decide; rewrite !elem_of_cons, ?IH; naive_solver.
Qed.

Lemma elem_of_sliceTasks p m s t :
  t ∈ sliceTasks p m s ↔ t ∈ SavedJobPlan.tasks p ∧ in_slice m s t = true.
Proof.
  unfold sliceTasks. rewrite <-elem_of_select. unfold select_where.
  generalize (List.filter (in_slice m s) (SavedJobPlan.tasks p)). intros l.
  induction l as [|x l IH]; cbn; [done|]. by rewrite elem_of_insert_by_index, elem_of_cons, IH.
Qed.

Lemma in_slice_true m s t :
  in_slice m s t = true ↔ FlatTaskPlan.milestoneIndex t = m ∧ FlatTaskPlan.sliceIndex t = s.
Proof. unfold in_slice. by rewrite andb_true_iff, !bool_decide_eq_true. Qed.

Lemma max_index_spec l d :
  (∀ t, t ∈ l → FlatTaskPlan.taskIndex t ≤ max_index l d)%Z ∧ (d ≤ max_index l d)%Z ∧
  (max_index l d = d ∨ ∃ t, t ∈ l ∧ FlatTaskPlan.taskIndex t = max_index l d).
Proof.
  induction l as [|x l (IH1 & IH2 & IH3)]; cbn.
  { split; [by intros t ?%not_elem_of_nil|]. auto with lia. }
  fold (max_index l d). split; [|split; [lia|]].
  - intros t [->|Ht%IH1]%elem_of_cons; lia.
  - destruct (Z.max_spec (FlatTaskPlan.taskIndex x) (max_index l d)) as [[_ ->]|[_ ->]].
    + destruct IH3 as [|(t & ? & ?)]; [by left|]. right. exists t. split; [by right|done].
    + right. exists x. split; [by left|done].
Qed.

Lemma aligned_index p m s i :
  plan_aligned p →
  (∃ t, t ∈ sliceTasks p m s ∧ FlatTaskPlan.taskIndex t = i) ↔
  (1 ≤ i ≤ Z.of_nat (nested_count p m s))%Z.
Proof.
  intros [_ Hal].
  transitivity (i ∈ slice_indexes p m s).
  - unfold slice_indexes. rewrite list_elem_of_In, in_map_iff.
    setoid_rewrite elem_of_sliceTasks. setoid_rewrite filter_In.
    setoid_rewrite list_elem_of_In. naive_solver.
  - rewrite Hal, list_elem_of_In, in_map_iff. setoid_rewrite in_seq. split.
    + intros (k & <- & ?). lia.
    + intros ?. exists (Z.to_nat i). lia.
Qed.

Lemma nextTaskIndex_aligned p m s :
  plan_aligned p → nextTaskIndex p m s = (Z.of_nat (nested_count p m s) + 1)%Z.
Proof.
  intros Hal. unfold nextTaskIndex. pose proof (aligned_index p m s) as Hidx.
  destruct (sliceTasks p m s) as [|t l] eqn:E.
  - destruct (nested_count p m s) eqn:Hn; [done|]. exfalso.
    destruct (proj2 (Hidx 1%Z Hal)) as (t & Ht & _); [lia|]. by apply not_elem_of_nil in Ht.
  - f_equal. destruct (max_index_spec l (FlatTaskPlan.taskIndex t)) as (H1 & H2 & H3).
    assert (max_index l (FlatTaskPlan.taskIndex t) ≤ Z.of_nat (nested_count p m s))%Z as Hle.
    { destruct H3 as [->|(t' & Ht' & <-)]; apply Hidx; [done| |done|];
        [exists t|exists t']; split; try done; [left|by right]. }
    assert (Z.of_nat (nested_count p m s) ≤ max_index l (FlatTaskPlan.taskIndex t))%Z; [|lia].
    destruct (proj2 (Hidx (Z.of_nat (nested_count p m s)) Hal)) as (t' & Ht' & <-).
    { assert (1 ≤ FlatTaskPlan.taskIndex t)%Z by (apply Hidx; [done|exists t; split; [left|done]]).
      lia. }
    apply elem_of_cons in Ht' as [->|Ht']; [done|by apply H1].
Qed.

(** ** One step of growth *)

(** [grows ids p p']: from an aligned plan to an aligned plan with the flat
    tasks [ids] added at the end and no slice gained or lost. *)
Record grows (ids : list string) (p p' : SavedJobPlan.t) : Prop := Grows {
  grows_aligned : plan_aligned p';
  grows_ids : map FlatTaskPlan.id (SavedJobPlan.tasks p') =
              map FlatTaskPlan.id (SavedJobPlan.tasks p) ++ ids;
  grows_slices : ∀ m s, is_Some (slice_at p' m s) ↔ is_Some (slice_at p m s)
}.

Lemma grows_refl p : plan_aligned p → grows [] p p.
Proof. intros Hal. split; [done| |done]. by rewrite app_nil_r. Qed.

Lemma grows_trans ids1 ids2 p1 p2 p3 :
  grows ids1 p1 p2 → grows ids2 p2 p3 → grows (ids1 ++ ids2) p1 p3.
Proof.
  intros [_ H1 S1] [A2 H2 S2]. split; [done|by rewrite H2, H1, app_assoc|].
  intros m s. by rewrite S2, S1.
Qed.

Lemma slice_at_alter_is_Some p m s f m' s' :
  is_Some (slice_at (alter_slice_tasks m s f p) m' s') ↔ is_Some (slice_at p m' s').
Proof. rewrite slice_at_alter. case_bool_decide; [by rewrite fmap_is_Some|done]. Qed.

(** Appending the next task of an existing slice. *)
Lemma push_grows p flat m s :
  plan_aligned p → is_Some (slice_at p m s) →
  FlatTaskPlan.milestoneIndex flat = m → FlatTaskPlan.sliceIndex flat = s →
  FlatTaskPlan.taskIndex flat = (Z.of_nat (nested_count p m s) + 1)%Z →
  FlatTaskPlan.id flat = task_id m s (FlatTaskPlan.taskIndex flat) →
  grows [FlatTaskPlan.id flat] p (push_task flat p) ∧
  nested_count (push_task flat p) m s = S (nested_count p m s).
Proof.
  intros Hal [sl Hsl] Hm Hs Hi Hid. unfold push_task. rewrite Hm, Hs.
  set (q := SavedJobPlan.mk (SavedJobPlan.milestones p) (SavedJobPlan.tasks p ++ [flat])).
  assert (∀ m s, slice_at q m s = slice_at p m s) as Hq by (intros; by apply slice_at_milestones).
  assert (∀ m' s', nested_count (alter_slice_tasks m s (λ ts, ts ++ [nested_of flat]) q) m' s' =
            nested_count p m' s' + if bool_decide (m = m' ∧ s = s') then 1 else 0) as Hc.
  { intros m' s'. rewrite nested_count_alter. unfold nested_count. rewrite Hq.
    case_bool_decide as Hms.
    - destruct Hms as [<- <-]. by rewrite Hsl, length_app.
    - destruct (slice_at p m' s'); cbn; lia. }
  split; [split; [split|..]|].
  - rewrite alter_slice_tasks_flat. apply Forall_app. split; [apply Hal|].
    apply Forall_cons_iff. split; [|done]. by rewrite Hid, Hm, Hs.
  - intros m' s'. rewrite Hc. unfold slice_indexes. rewrite alter_slice_tasks_flat. cbn.
    rewrite List.filter_app, map_app. fold (slice_indexes p m' s'). rewrite (proj2 Hal). cbn.
    case_bool_decide as Hms.
    + destruct Hms as [<- <-]. rewrite (proj2 (in_slice_true m s flat)) by done.
      rewrite Nat.add_1_r, seq_S, map_app. cbn. do 2 f_equal. lia.
    + replace (in_slice m' s' flat) with false; [by rewrite app_nil_r, Nat.add_0_r|].
      symmetry. apply not_true_is_false. rewrite in_slice_true. naive_solver.
  - rewrite alter_slice_tasks_flat. cbn. by rewrite map_app.
  - intros m' s'. by rewrite slice_at_alter_is_Some, Hq.
  - rewrite Hc, bool_decide_eq_true_2 by done. lia.
Qed.

Lemma append_grows p input r p' :
  plan_aligned p → is_Some (slice_at p (in_milestoneIndex input) (in_sliceIndex input)) →
  in_taskIndex input = (Z.of_nat (nested_count p (in_milestoneIndex input) (in_sliceIndex input)) + 1)%Z →
  appendRepairTask input p = (r, p') →
  ∃ id, r = Ok id ∧ grows [id] p p' ∧
    nested_count p' (in_milestoneIndex input) (in_sliceIndex input) =
    S (nested_count p (in_milestoneIndex input) (in_sliceIndex input)).
Proof.
  intros Hal Hsl Hi Hrun. unfold appendRepairTask, pl_bind, pl_modify, pl_ret in Hrun.
  simplify_eq. eexists. split; [done|]. by apply push_grows.
Qed.

(** Replacing the dependencies of a task leaves ids and numbers alone. *)
Lemma set_refs_coords {B} (f : FlatTaskPlan.t → B) tid refs l :
  (∀ refs t, f (FlatTaskPlan.set_dependsOnTaskRefs refs t) = f t) →
  map f (set_refs_of_first tid refs l) = map f l.
Proof.
  intros Hf. induction l as [|t l IH]; cbn; [done|]. case_bool_decide; cbn; by rewrite ?Hf, ?IH.
Qed.

Lemma set_refs_filter q tid refs l :
  (∀ refs t, q (FlatTaskPlan.set_dependsOnTaskRefs refs t) = q t) →
  map FlatTaskPlan.taskIndex (List.filter q (set_refs_of_first tid refs l)) =
  map FlatTaskPlan.taskIndex (List.filter q l).
Proof.
  intros Hq. induction l as [|t l IH]; cbn; [done|].
  case_bool_decide; cbn; rewrite ?Hq; destruct (q t); cbn; by rewrite ?IH.
Qed.

Lemma set_refs_Forall (P : FlatTaskPlan.t → Prop) tid refs l :
  (∀ refs t, P t → P (FlatTaskPlan.set_dependsOnTaskRefs refs t)) →
  Forall P l → Forall P (set_refs_of_first tid refs l).
Proof.
  intros HP Hl. induction Hl as [|t l Ht Hl IH]; cbn; [done|].
  case_bool_decide; constructor; auto.
Qed.

Lemma addDependsOnTaskRef_grows p tid dep r p' :
  plan_aligned p → addDependsOnTaskRef tid dep p = (r, p') → grows [] p p'.
Proof.
  intros Hal Hrun. unfold addDependsOnTaskRef, pl_bind, pl_get, pl_modify, pl_throw in Hrun.
  destruct (find_flat p tid) as [flat|] eqn:Hf; simplify_eq/=; [|by apply grows_refl].
  set (refs := js_unique _ _). clearbody refs.
  set (q := SavedJobPlan.mk _ _).
  assert (∀ m s, slice_at q m s = slice_at p m s) as Hq by (intros; by apply slice_at_milestones).
  split; [split|..].
  - rewrite alter_slice_tasks_flat. cbn. apply set_refs_Forall; [done|apply Hal].
  - intros m s. unfold slice_indexes. rewrite alter_slice_tasks_flat. cbn.
    rewrite set_refs_filter by done. fold (slice_indexes p m s). rewrite (proj2 Hal).
    do 2 f_equal. rewrite nested_count_alter, Hq. unfold nested_count. rewrite Hq.
    destruct (slice_at p m s); [|done]. case_bool_decide; [|done]. case_bool_decide; [done|].
    by rewrite length_alter.
  - rewrite alter_slice_tasks_flat. cbn. by rewrite set_refs_coords, app_nil_r.
  - intros m s. by rewrite slice_at_alter_is_Some, Hq.
Qed.

(** The slice of a flat task of an aligned plan exists. *)
Lemma aligned_slice_exists p t :
  plan_aligned p → t ∈ SavedJobPlan.tasks p →
  is_Some (slice_at p (FlatTaskPlan.milestoneIndex t) (FlatTaskPlan.sliceIndex t)) ∧
  (1 ≤ FlatTaskPlan.milestoneIndex t ∧ 1 ≤ FlatTaskPlan.sliceIndex t ∧ 1 ≤ FlatTaskPlan.taskIndex t)%Z.
Proof.
  intros Hal Ht. set (m := FlatTaskPlan.milestoneIndex t). set (s := FlatTaskPlan.sliceIndex t).
  assert (1 ≤ FlatTaskPlan.taskIndex t ≤ Z.of_nat (nested_count p m s))%Z as Hi.
  { apply aligned_index; [done|]. exists t. split; [|done]. apply elem_of_sliceTasks.
    split; [done|]. by apply in_slice_true. }
  unfold nested_count in Hi. destruct (slice_at p m s) as [sl|] eqn:E; [|lia].
  apply slice_at_pos in E as ?. split; [by eexists|lia].
Qed.

Lemma sliceTasks_slice_exists p m s t :
  plan_aligned p → t ∈ sliceTasks p m s → is_Some (slice_at p m s).
Proof.
  intros Hal [Ht [Hm Hs]%in_slice_true]%elem_of_sliceTasks.
  destruct (aligned_slice_exists p t Hal Ht) as [H _]. by rewrite Hm, Hs in H.
Qed.

Lemma last_of_elem {A} (l : list A) x : last_of l = Some x → x ∈ l.
Proof.
  unfold last_of. intros H. apply elem_of_reverse. destruct (reverse l); [done|].
  cbn in H. simplify_eq. left.
Qed.

(** ** All injections *)

(** A computation that, started on an aligned plan that satisfies [P], leaves a
    grown plan, and returns the new ids when it returns. *)
Definition injects {A} (P : SavedJobPlan.t → Prop) (ids_of : A → list string) (c : planM A) : Prop :=
  ∀ p r p', plan_aligned p → P p → c p = (r, p') →
    ∃ ids, grows ids p p' ∧ match r with Ok a => ids_of a = ids | Err _ => True end.

Lemma throw_grows {A} (ids_of : A → list string) e p r p' :
  plan_aligned p → pl_throw e p = (r, p') →
  ∃ ids, grows ids p p' ∧ match r with Ok a => ids_of a = ids | Err _ => True end.
Proof. intros Hal [= <- <-]. exists []. split; [by apply grows_refl|done]. Qed.

Lemma injects_one P input :
  (∀ p, plan_aligned p → P p →
     is_Some (slice_at p (in_milestoneIndex input) (in_sliceIndex input)) ∧
     in_taskIndex input = nextTaskIndex p (in_milestoneIndex input) (in_sliceIndex input)) →
  injects P (λ id, [id]) (appendRepairTask input).
Proof.
  intros Hin p r p' Hal HP Hrun. destruct (Hin p Hal HP) as [Hsl Hi].
  rewrite nextTaskIndex_aligned in Hi by done.
  destruct (append_grows _ _ _ _ Hal Hsl Hi Hrun) as (id & -> & Hg & _). by exists [id].
Qed.

Lemma pl_bind_inv {A B} (c : planM A) (k : A → planM B) p r p' :
  pl_bind c k p = (r, p') →
  (∃ a p1, c p = (Ok a, p1) ∧ k a p1 = (r, p')) ∨ (∃ e, c p = (Err e, p') ∧ r = Err e).
Proof. unfold pl_bind. destruct (c p) as [[a|e] p1]; naive_solver. Qed.

Lemma slice_repairs_grow m s tasks td st sd v gen idx sugg p r p' :
  plan_aligned p → is_Some (slice_at p m s) →
  idx = (Z.of_nat (nested_count p m s) + 1)%Z →
  slice_repairs m s tasks td st sd v gen idx sugg p = (r, p') →
  ∃ ids, r = Ok ids ∧ length ids = length sugg ∧ grows ids p p'.
Proof.
  revert idx p r p'. induction sugg as [|x sugg IH]; intros idx p r p' Hal Hsl -> Hrun.
  { cbn in Hrun. unfold pl_ret in Hrun. simplify_eq. exists []. by split_and!; [..|apply grows_refl]. }
  cbn [slice_repairs] in Hrun.
  apply pl_bind_inv in Hrun as [(id & p1 & E1 & Hrun)|(e & E1 & ->)];
    apply append_grows in E1 as (id' & [= <-] & Hg & Hn); try done. cbn in Hn.
  assert (plan_aligned p1) as Hal1 by apply Hg.
  assert (is_Some (slice_at p1 m s)) as Hsl1 by (by apply Hg).
  assert (Z.of_nat (nested_count p m s) + 1 + 1 = Z.of_nat (nested_count p1 m s) + 1)%Z as Hi1 by lia.
  apply pl_bind_inv in Hrun as [(ids & p2 & E2 & Hrun)|(e & E2 & ->)];
    apply IH in E2 as (ids' & [= <-] & Hlen & Hg2); try done.
  unfold pl_ret in Hrun. simplify_eq. exists (id :: ids). cbn.
  split_and!; [done|lia|]. by apply (grows_trans [id] ids _ p1).
Qed.

Lemma injects_slice sliceId v gen mx :
  injects (λ _, True) ri_newTaskIds (injectSliceRepairTasks sliceId v gen mx).
Proof.
  intros p r p' Hal _ Hrun. unfold injectSliceRepairTasks in Hrun.
  destruct (parseSliceCoords sliceId) as [[m s]|]; [|by eapply throw_grows].
  apply pl_bind_inv in Hrun as [(q & p1 & [= <- <-] & Hrun)|(? & ? & _)]; [|done].
  destruct (last_of (sliceTasks p m s)) as [td|] eqn:Hl; [|by eapply throw_grows].
  apply last_of_elem in Hl. apply sliceTasks_slice_exists in Hl; [|done].
  rewrite nextTaskIndex_aligned in Hrun by done.
  apply pl_bind_inv in Hrun as [(ids & p1 & E & Hrun)|(e & E & ->)];
    apply slice_repairs_grow in E as (ids' & [= <-] & _ & Hg); try done.
  unfold pl_ret in Hrun. simplify_eq. by exists ids.
Qed.

(** ** Repairs of a milestone verdict *)

(** The slices a milestone verdict names exist in the plan. *)
Definition targets_exist (repairs : list MilestoneRepair.t) (p : SavedJobPlan.t) : Prop :=
  Forall (λ r, match MilestoneRepair.targetSliceId r with
               | Some sid => ∀ m s, parseSliceCoords sid = Some (m, s) → is_Some (slice_at p m s)
               | None => True
               end) repairs.

Lemma targets_exist_grows ids repairs p p' :
  grows ids p p' → targets_exist repairs p → targets_exist repairs p'.
Proof.
  intros Hg. apply Forall_impl. intros r.
  destruct (MilestoneRepair.targetSliceId r) as [sid|]; [|done].
  intros H m s Hp. apply Hg. auto.
Qed.

Lemma flat_by_id_elem ts id t : flat_by_id ts id = Some t → t ∈ ts.
Proof. intros [H _]%find_elem. by apply elem_of_reverse. Qed.

Lemma repair_slice_exists mid m p0 p repair s :
  plan_aligned p0 → (∀ m s, is_Some (slice_at p m s) ↔ is_Some (slice_at p0 m s)) →
  targets_exist [repair] p →
  repair_slice_index mid m
    (List.filter (λ t, bool_decide (FlatTaskPlan.milestoneIndex t = m)) (SavedJobPlan.tasks p0))
    repair = Ok s →
  is_Some (slice_at p m s).
Proof.
  intros Hal Hiff [Ht _]%Forall_cons_iff Hrun. unfold repair_slice_index in Hrun.
  assert (∀ tid t, flat_by_id (List.filter (λ t, bool_decide (FlatTaskPlan.milestoneIndex t = m))
            (SavedJobPlan.tasks p0)) tid = Some t → is_Some (slice_at p m (FlatTaskPlan.sliceIndex t)))
    as Htask.
  { intros tid t Hf%flat_by_id_elem. apply elem_of_select in Hf as [Hin Hm%bool_decide_eq_true].
    apply Hiff. rewrite <-Hm. by apply aligned_slice_exists. }
  destruct (MilestoneRepair.targetSliceId repair) as [sid|].
  - case_bool_decide as Hsid; cbn in Hrun.
    + destruct (MilestoneRepair.targetTaskId repair) as [tid|]; [|done].
      case_bool_decide; [done|]. destruct (flat_by_id _ tid) as [t|] eqn:Hf; cbn in Hrun; [|done].
      case_bool_decide; simplify_eq. eauto.
    + destruct (parseSliceCoords sid) as [[m' s']|]; [|done]. case_bool_decide; [|done].
      case_bool_decide; simplify_eq. eauto.
  - cbn in Hrun. destruct (MilestoneRepair.targetTaskId repair) as [tid|]; [|done].
    case_bool_decide; [done|]. destruct (flat_by_id _ tid) as [t|] eqn:Hf; cbn in Hrun; [|done].
    case_bool_decide; simplify_eq. eauto.
Qed.

Lemma milestone_repair_injects mid m mp p0 v gen repair :
  plan_aligned p0 →
  injects (λ p, (∀ m s, is_Some (slice_at p m s) ↔ is_Some (slice_at p0 m s)) ∧
                targets_exist [repair] p) (λ id, [id])
    (milestone_repair mid m mp
       (List.filter (λ t, bool_decide (FlatTaskPlan.milestoneIndex t = m)) (SavedJobPlan.tasks p0))
       v gen repair).
Proof.
  intros Hal0 p r p' Hal [Hiff Hte] Hrun. unfold milestone_repair in Hrun.
  destruct (repair_slice_index _ _ _ _) as [s|e] eqn:Hs; [|by eapply throw_grows].
  apply repair_slice_exists with (p := p) in Hs; [|done..].
  apply pl_bind_inv in Hrun as [(q & p1 & [= <- <-] & Hrun)|(? & ? & _)]; [|done].
  cbv zeta in Hrun.
  lazymatch type of Hrun with (match ?o with _ => _ end) _ = _ => destruct o as [template|] end;
    [|by eapply throw_grows].
  eapply (injects_one (λ q, q = p)); [|done|done|exact Hrun]. cbn. by intros q _ ->.
Qed.

Lemma collect_injects (body : MilestoneRepair.t → planM string) p0 repairs p r p' :
  (∀ x, injects (λ p, (∀ m s, is_Some (slice_at p m s) ↔ is_Some (slice_at p0 m s)) ∧
                      targets_exist [x] p) (λ id, [id]) (body x)) →
  plan_aligned p → (∀ m s, is_Some (slice_at p m s) ↔ is_Some (slice_at p0 m s)) →
  targets_exist repairs p → pl_collect repairs body p = (r, p') →
  ∃ ids, grows ids p p' ∧ match r with Ok a => a = ids | Err _ => True end.
Proof.
  intros Hbody. revert p r p'. induction repairs as [|x xs IH]; intros p r p' Hal Hiff Hte Hrun.
  { cbn in Hrun. unfold pl_ret in Hrun. simplify_eq. exists []. by split; [apply grows_refl|]. }
  apply Forall_cons_iff in Hte as Hte'. destruct Hte' as [Hx Hxs]. cbn in Hrun.
  assert (targets_exist [x] p) as Hx1 by (apply Forall_cons_iff; done).
  apply pl_bind_inv in Hrun as [(id & p1 & E1 & Hrun)|(e & E1 & ->)];
    apply Hbody in E1 as (ids1 & Hg1 & Hr1); try done; [subst|by exists ids1].
  assert (∀ m s, is_Some (slice_at p1 m s) ↔ is_Some (slice_at p0 m s)) as Hiff1.
  { intros m s. by rewrite (grows_slices _ _ _ Hg1). }
  assert (targets_exist xs p1) as Hxs1 by (by eapply targets_exist_grows).
  apply pl_bind_inv in Hrun as [(ids & p2 & E2 & Hrun)|(e & E2 & ->)];
    apply IH in E2 as (ids2 & Hg2 & Hr2); try done; try apply Hg1.
  - unfold pl_ret in Hrun. simplify_eq. exists (id :: ids2).
    split; [by apply (grows_trans [id] ids2 _ p1)|done].
  - exists ([id] ++ ids2). split; [by eapply grows_trans|done].
Qed.

Lemma injects_milestone mid v gen mx :
  injects (targets_exist (MilestoneVerdict.repairTasks v)) ri_newTaskIds
    (injectMilestoneRepairTasks mid v gen mx).
Proof.
  intros p r p' Hal Hte Hrun. unfold injectMilestoneRepairTasks in Hrun.
  destruct (match_milestone (trim mid)) as [m|]; [|by eapply throw_grows].
  apply pl_bind_inv in Hrun as [(q & p1 & [= <- <-] & Hrun)|(? & ? & _)]; [|done].
  destruct (milestone_at p m) as [mp|]; [|by eapply throw_grows].
  assert (targets_exist (take (max_tasks mx) (MilestoneVerdict.repairTasks v)) p) as Hte'.
  { by apply Forall_take. }
  apply pl_bind_inv in Hrun as [(ids & p1 & E & Hrun)|(e & E & ->)];
    eapply (collect_injects _ p) in E as (ids' & Hg & Hr); try done;
    try (intros x; by apply milestone_repair_injects).
  - unfold pl_ret in Hrun. simplify_eq. by exists ids'.
  - by exists ids'.
Qed.

(** ** Recovery of a blocked task and evidence to resubmit *)

(** A flat task of an aligned plan is found under its own coordinates. *)
Lemma match_found p id t m s i :
  plan_aligned p → find_flat p id = Some t → match_task (trim id) = Some (m, s, i) →
  m = FlatTaskPlan.milestoneIndex t ∧ s = FlatTaskPlan.sliceIndex t ∧ is_Some (slice_at p m s).
Proof.
  intros Hal [Hin Hid%bool_decide_eq_true]%find_elem Hm.
  destruct (aligned_slice_exists p t Hal Hin) as (Hsl & ? & ? & ?).
  pose proof (proj1 (list.Forall_forall _ _) (proj1 Hal) t Hin) as Hplace. cbn in Hplace.
  rewrite <-Hid, Hplace, trim_task_id, match_task_id in Hm by lia. by simplify_eq.
Qed.

Lemma injects_blocked tag what context input :
  injects (λ _, True) ri_newTaskIds (inject_for_blocked tag what context input).
Proof.
  intros p r p' Hal _ Hrun. unfold inject_for_blocked in Hrun.
  destruct (match_task _) as [[[m s] i]|] eqn:Hm; [|by eapply throw_grows].
  apply pl_bind_inv in Hrun as [(q & p1 & [= <- <-] & Hrun)|(? & ? & _)]; [|done].
  destruct (find_flat p _) as [t|] eqn:Hf; [|by eapply throw_grows].
  destruct (match_found _ _ _ _ _ _ Hal Hf Hm) as (_ & _ & Hsl).
  pose proof (nextTaskIndex_aligned p m s Hal) as Hi.
  apply pl_bind_inv in Hrun as [(id & p1 & E & Hrun)|(e & E & ->)];
    apply append_grows in E as (id' & [= <-] & Hg & _); try done.
  apply pl_bind_inv in Hrun as [([] & p2 & E & Hrun)|(e & E & ->)];
    apply addDependsOnTaskRef_grows in E; try apply Hg;
    apply (grows_trans _ _ _ _ _ Hg) in E; [unfold pl_ret in Hrun; simplify_eq|];
    by eexists.
Qed.

Lemma injects_slice_evidence sliceId reason attempt mx :
  injects (λ _, True) ri_newTaskIds (injectSliceEvidenceRepairTask sliceId reason attempt mx).
Proof.
  intros p r p' Hal _ Hrun. unfold injectSliceEvidenceRepairTask in Hrun.
  destruct (parseSliceCoords sliceId) as [[m s]|]; [|by eapply throw_grows].
  apply pl_bind_inv in Hrun as [(q & p1 & [= <- <-] & Hrun)|(? & ? & _)]; [|done].
  destruct (last_of (sliceTasks p m s)) as [td|] eqn:Hl; [|by eapply throw_grows].
  apply last_of_elem in Hl. apply sliceTasks_slice_exists in Hl; [|done].
  pose proof (nextTaskIndex_aligned p m s Hal) as Hi.
  apply pl_bind_inv in Hrun as [(id & p1 & E & Hrun)|(e & E & ->)];
    apply append_grows in E as (id' & [= <-] & Hg & _); try done.
  unfold pl_ret in Hrun. simplify_eq. by exists [id].
Qed.

Lemma injects_milestone_evidence mid reason attempt mx :
  injects (λ _, True) ri_newTaskIds (injectMilestoneEvidenceRepairTask mid reason attempt mx).
Proof.
  intros p r p' Hal _ Hrun. unfold injectMilestoneEvidenceRepairTask in Hrun.
  destruct (match_milestone _) as [m|]; [|by eapply throw_grows].
  apply pl_bind_inv in Hrun as [(q & p1 & [= <- <-] & Hrun)|(? & ? & _)]; [|done].
  destruct (milestone_at p m) as [mp|]; [|by eapply throw_grows].
  destruct (last_of (List.filter _ _)) as [td|] eqn:Hl; [|by eapply throw_grows].
  apply last_of_elem in Hl. apply elem_of_select in Hl as [Hin Hm%bool_decide_eq_true].
  destruct (aligned_slice_exists p td Hal Hin) as [Hsl _]. rewrite Hm in Hsl.
  pose proof (nextTaskIndex_aligned p m (FlatTaskPlan.sliceIndex td) Hal) as Hi.
  apply pl_bind_inv in Hrun as [(id & p1 & E & Hrun)|(e & E & ->)];
    apply append_grows in E as (id' & [= <-] & Hg & _); try done.
  unfold pl_ret in Hrun. simplify_eq. by exists [id].
Qed.

(** The injections the executor performs. *)
Inductive injection :=
| InjSlice (sliceId : string) (v : SliceVerdict.t) (generation : Z) (maxTasks : option Z)
| InjMilestone (milestoneId : string) (v : MilestoneVerdict.t) (generation : Z) (maxTasks : option Z)
| InjPrep (input : blocked_input)
| InjRepair (input : blocked_input)
| InjSliceEvidence (sliceId reason : string) (attempt maxAttempts : Z)
| InjMilestoneEvidence (milestoneId reason : string) (attempt maxAttempts : Z).

Definition inject (i : injection) : planM RepairInjectionResult :=
  match i with
  | InjSlice sid v gen mx => injectSliceRepairTasks sid v gen mx
  | InjMilestone mid v gen mx => injectMilestoneRepairTasks mid v gen mx
  | InjPrep b => injectTaskDependencyPrepTask b
  | InjRepair b => injectTaskImplementationRepairTask b
  | InjSliceEvidence sid reason a mx => injectSliceEvidenceRepairTask sid reason a mx
  | InjMilestoneEvidence mid reason a mx => injectMilestoneEvidenceRepairTask mid reason a mx
  end.

(** Only a milestone verdict can name a slice that is not in the plan. *)
Definition in_plan (i : injection) (p : SavedJobPlan.t) : Prop :=
  match i with
  | InjMilestone _ v _ _ => targets_exist (MilestoneVerdict.repairTasks v) p
  | _ => True
  end.


Lemma inject_injects i : injects (in_plan i) ri_newTaskIds (inject i).
Proof.
  destruct i; cbn;
    [apply injects_slice|apply injects_milestone|apply injects_blocked|apply injects_blocked
    |apply injects_slice_evidence|apply injects_milestone_evidence].
Qed.

(** Distinct places have distinct ids. *)
Lemma places_unique l :
  (∀ m s, NoDup (map FlatTaskPlan.taskIndex (List.filter (in_slice m s) l))) →
  Forall (λ t, match_task (FlatTaskPlan.id t) =
    Some (FlatTaskPlan.milestoneIndex t, FlatTaskPlan.sliceIndex t, FlatTaskPlan.taskIndex t)) l →
  NoDup (map FlatTaskPlan.id l).
Proof.
  intros Hnd Hl. induction Hl as [|t l Ht Hl IH]; cbn; [constructor|]. constructor.
  - rewrite list_elem_of_In, in_map_iff. intros (t' & Hid & Hin).
    pose proof (proj1 (List.Forall_forall _ _) Hl t' Hin) as Ht'. cbn in Ht'.
    rewrite Hid, Ht in Ht'. injection Ht' as Hm Hs Hi.
    specialize (Hnd (FlatTaskPlan.milestoneIndex t) (FlatTaskPlan.sliceIndex t)). cbn in Hnd.
    rewrite (proj2 (in_slice_true _ _ t)) in Hnd by done. cbn in Hnd.
    apply list.NoDup_cons in Hnd as [Hnot _]. apply Hnot. rewrite Hi.
    apply list_elem_of_In, in_map, filter_In.
    split; [done|]. by apply in_slice_true.
  - apply IH. intros m s. specialize (Hnd m s). cbn in Hnd.
    destruct (in_slice m s t); [|done]. by apply list.NoDup_cons in Hnd as [_ ?].
Qed.

Lemma aligned_ids_unique p : plan_aligned p → NoDup (map FlatTaskPlan.id (SavedJobPlan.tasks p)).
Proof.
  intros Hal. apply places_unique.
  - intros m s. fold (slice_indexes p m s). rewrite (proj2 Hal).
    apply (NoDup_fmap_2 Z.of_nat), NoDup_seq.
  - apply list.Forall_forall. intros t Ht.
    destruct (aligned_slice_exists p t Hal Ht) as (_ & ? & ? & ?).
    pose proof (proj1 (list.Forall_forall _ _) (proj1 Hal) t Ht) as Hid. cbn in Hid.
    by rewrite Hid, match_task_id by lia.
Qed.

(** C32: Every injection of tasks into a running plan keeps the flat task list aligned with the
    tree of milestones and slices, so that the gate sees every task, provided that the repairs
    of a milestone verdict name slices the plan has (repair_of_missing_slice_is_lost shows what
    becomes of one that does not). Whether it returns or throws half way, it only adds tasks at
    the end, under ids no other task has, and reports exactly the ids it added. *)
Theorem injections_keep_plan_aligned (i : injection) (p p' : SavedJobPlan.t)
    (r : result string RepairInjectionResult) :
  plan_aligned p → in_plan i p → inject i p = (r, p') →
  plan_aligned p' ∧ NoDup (map FlatTaskPlan.id (SavedJobPlan.tasks p')) ∧
  ∃ ids, map FlatTaskPlan.id (SavedJobPlan.tasks p') =
           map FlatTaskPlan.id (SavedJobPlan.tasks p) ++ ids ∧
         match r with Ok res => ri_newTaskIds res = ids | Err _ => True end.
Proof.
  intros Hal Hin Hrun. destruct (inject_injects i p r p' Hal Hin Hrun) as (ids & Hg & Hr).
  split; [apply Hg|]. split; [apply aligned_ids_unique, Hg|]. exists ids. split; [apply Hg|done].
Qed.

(** ** Two corner cases *)

(** A plan of one slice with the given number of tasks, as the planner saves it. *)
Definition small_flat (i : nat) : FlatTaskPlan.t :=
  FlatTaskPlan.mk (task_id 1 1 (Z.of_nat i)) 1 1 (Z.of_nat i) "task" "" "code" "default" "" None "" None None None None None.

Definition small_plan (n : nat) : SavedJobPlan.t :=
  SavedJobPlan.mk
    [PlannerRegisteredMilestone.mk (Some "milestone") None None None
       [PlannerRegisteredSlice.mk (Some "slice") None "" None None
          (map (λ _, PlannerRegisteredTask.mk (Some "task") None "code" None None None None None None None None) (seq 1 n))]]
    (map small_flat (seq 1 n)).

Definition prep_for (taskId : string) (generation : Z) : blocked_input :=
  mkBlocked taskId "missing file" ["missing file"] generation.

Definition first_prep : SavedJobPlan.t :=
  (injectTaskDependencyPrepTask (prep_for "m1-s1-t1" 1) (small_plan 2)).2.
Definition second_prep : SavedJobPlan.t :=
  (injectTaskDependencyPrepTask (prep_for "m1-s1-t1" 2) first_prep).2.

(** The progress the executor saves with them: the blocked task waits, the
    second task and the newest preparation are queued, an older preparation is
    completed. *)
Definition first_items : list progress_item :=
  [mkProgressItem "m1-s1-t1" "queued" (Some "waiting-on-dependency") None;
   mkProgressItem "m1-s1-t2" "queued" None None;
   mkProgressItem "m1-s1-t3" "queued" None None].
Definition second_items : list progress_item :=
  [mkProgressItem "m1-s1-t1" "queued" (Some "waiting-on-dependency") None;
   mkProgressItem "m1-s1-t2" "queued" None None;
   mkProgressItem "m1-s1-t3" "completed" (Some "completed") (Some TASK_EVIDENCE_BASIC_FACTS_OK);
   mkProgressItem "m1-s1-t4" "queued" None None].

Definition gate_of (p : SavedJobPlan.t) (items : list progress_item) : gate :=
  reconcileMilestoneStatuses (reconcileSliceStatuses
    (applyTaskProgressToGate items (buildGateStates p))).

(** The first preparation task of a blocked task runs next; after the second preparation of
    the same task nothing runs any more and nothing can be verified, although the second
    preparation depends on nothing. *)
Theorem second_prep_deadlocks :
  (GateTaskState.id <$> (mjoin (findNextReadyTask (gate_of first_prep first_items)))) =
    Some "m1-s1-t3" ∧
  findNextReadyTask (gate_of second_prep second_items) = Some None ∧
  (GateTaskState.dependsOnTaskIds <$> findTask (tasks (gate_of second_prep second_items)) "m1-s1-t4") =
    Some [] ∧
  findSliceReadyForVerification (gate_of second_prep second_items) = None ∧
  findMilestoneReadyForVerification (gate_of second_prep second_items) = None ∧
  isWorkflowComplete (gate_of second_prep second_items) = false.
Proof. vm_compute. repeat split. Qed.

(** A repair that names a slice the plan does not have, together with a task it
    has: the injection reports one created task, but the gate built from the
    plan does not contain it. *)
Definition stray_verdict : MilestoneVerdict.t :=
  MilestoneVerdict.mk "needs-repair" "high" "gap" [] []
    [MilestoneRepair.mk "fix" "gap" (Some "m1-s9") (Some "m1-s1-t1")].

Theorem repair_of_missing_slice_is_lost :
  let '(r, p') := injectMilestoneRepairTasks "m1" stray_verdict 1 None (small_plan 1) in
  r = Ok (mkInjection 1 1 false ["m1-s9-t1"]) ∧
  map FlatTaskPlan.id (SavedJobPlan.tasks p') = ["m1-s1-t1"; "m1-s9-t1"] ∧
  map GateTaskState.id (tasks (buildGateStates p')) = ["m1-s1-t1"].
Proof. vm_compute. repeat split. Qed.
