(* ===== verification/Verdicts.v ===== *)
(** * Normalization of verifier verdicts

    Models [src/server/legacy-control-plane/verification/types.ts]: what the
    server accepts as the verdict of a slice or a milestone verifier, and the
    contract between it and the injection of repairs. *)
From stdpp Require Import pretty.
From Stdlib Require Import Ascii.
From S2P Require Import Prelude Json JsString Sql SavedPlan RepairTasks RepairSpecs.
#[local] Arguments bool_decide : simpl never.

(** ** Results in sequence *)

Definition res_bind {A B} (r : result string A) (k : A → result string B) : result string B :=
  match r with Ok a => k a | Err e => Err e end.

Declare Scope res_scope.
Notation "'let?' x := m 'in' k" := (res_bind m (λ x, k))
  (at level 10, x name, m at level 100, k at level 200,
   format "'[v' 'let?'  x  :=  m  'in' '/' k ']'") : res_scope.
Local Open Scope res_scope.

(** [a.map((item, index) => f(index, item))] with an [f] that may throw. *)
Fixpoint res_mapi {A B} (f : nat → A → result string B) (i : nat) (l : list A) :
    result string (list B) :=
  match l with
  | [] => Ok []
  | x :: l' => let? y := f i x in let? ys := res_mapi f (S i) l' in Ok (y :: ys)
  end.

Definition res_assert (b : bool) (e : string) : result string unit := if b then Ok tt else Err e.

Definition res_some {A} (o : option A) (e : string) : result string A :=
  match o with Some a => Ok a | None => Err e end.

(** ** Reading raw values; [None] is [undefined]. *)

Definition nonEmpty (value : option json) : option string :=
  match value with
  | Some (JStr s) => if bool_decide (trim s = "") then None else Some (trim s)
  | _ => None
  end.

Definition obj_field (fields : list (string * json)) (k : string) : option json :=
  snd <$> List.find (λ kv, bool_decide (kv.1 = k)) fields.

(** [(item as Record<string, unknown>)[k]]: reading a field of [null] throws,
    other values that are not objects have none of these fields. *)
Definition row_field (item : json) (k : string) : result string (option json) :=
  match item with
  | JNull => Err ("Cannot read properties of null (reading '" +:+ k +:+ "')")
  | JObj fields => Ok (obj_field fields k)
  | _ => Ok None
  end.

(** [!item || typeof item !== 'object'] is false. *)
Definition is_object (item : json) : bool :=
  match item with JObj _ | JArr _ => true | _ => false end.

Definition strings_of (items : list json) : list string :=
  omap (λ v, match v with JStr s => Some s | _ => None end) items.

Definition string_array (value : option json) : list string :=
  match value with Some (JArr items) => strings_of items | _ => [] end.

Definition evidence_of (value : option json) : option (list string) :=
  match value with Some (JArr items) => Some (strings_of items) | _ => None end.

Definition items_of (value : option json) : list json :=
  match value with Some (JArr items) => items | _ => [] end.

(** ** Slice verdicts *)

Definition SLICE_STATUSES : list string := ["progress-ok"; "needs-repair"; "blocked"; "inconclusive"].
Definition MILESTONE_STATUSES : list string := ["passed"; "needs-repair"; "blocked"; "inconclusive"].
Definition CONFIDENCES : list string := ["high"; "medium"; "low"].

Definition one_of (allowed : list string) (value : option json) (e : string) : result string string :=
  let? s := res_some (nonEmpty value) e in
  let? u := res_assert (bool_decide (s ∈ allowed)) e in
  Ok s.

Definition evidence_trace_item (index : nat) (item : json) : result string TraceItem.t :=
  let at_index := "evidenceTrace[" +:+ pretty index +:+ "]" in
  let? u := res_assert (is_object item) (at_index +:+ " must be an object") in
  let? requirement := row_field item "requirement" in
  let? status := row_field item "status" in
  let? r := res_some (nonEmpty requirement) (at_index +:+ " requires requirement and status") in
  let? s := res_some (nonEmpty status) (at_index +:+ " requires requirement and status") in
  let? evidence := row_field item "evidence" in
  Ok (TraceItem.mk r s (evidence_of evidence)).

Definition repair_suggestion (_ : nat) (item : json) : result string RepairSuggestion.t :=
  let? reason := row_field item "reason" in
  let? instruction := row_field item "instruction" in
  let? r := res_some (nonEmpty reason) "repairSuggestions need reason and instruction" in
  let? i := res_some (nonEmpty instruction) "repairSuggestions need reason and instruction" in
  let? target := row_field item "targetTaskId" in
  Ok (RepairSuggestion.mk r i (nonEmpty target)).

Definition normalizeSliceVerificationVerdict (raw : list (string * json)) :
    result string SliceVerdict.t :=
  let? status := one_of SLICE_STATUSES (obj_field raw "status")
    "status must be progress-ok, needs-repair, blocked, or inconclusive" in
  let? confidence := one_of CONFIDENCES (obj_field raw "confidence")
    "confidence must be high, medium, or low" in
  let? summary := res_some (nonEmpty (obj_field raw "summary")) "summary is required" in
  let? trace := res_mapi evidence_trace_item 0 (items_of (obj_field raw "evidenceTrace")) in
  let? repairs := res_mapi repair_suggestion 0 (items_of (obj_field raw "repairSuggestions")) in
  let? u := res_assert (negb (bool_decide (status = "needs-repair") && bool_decide (length repairs = 0)))
    "needs-repair requires repairSuggestions" in
  Ok (SliceVerdict.mk status confidence summary
        (string_array (obj_field raw "satisfiedSignals"))
        (string_array (obj_field raw "missingSignals"))
        (string_array (obj_field raw "questionableClaims")) trace repairs).

(** ** Milestone verdicts *)

Definition requirement_trace_item (_ : nat) (item : json) : result string TraceItem.t :=
  let? requirement := row_field item "requirement" in
  let? status := row_field item "status" in
  let? r := res_some (nonEmpty requirement) "requirementTrace items need requirement and status" in
  let? s := res_some (nonEmpty status) "requirementTrace items need requirement and status" in
  let? evidence := row_field item "evidence" in
  Ok (TraceItem.mk r s (evidence_of evidence)).

Definition slice_assessment (_ : nat) (item : json) : result string SliceAssessment.t :=
  let? sliceId := row_field item "sliceId" in
  let? status := row_field item "status" in
  let? reason := row_field item "reason" in
  let? i := res_some (nonEmpty sliceId) "sliceAssessments need sliceId and status" in
  let? s := res_some (nonEmpty status) "sliceAssessments need sliceId and status" in
  Ok (SliceAssessment.mk i s (default "" (nonEmpty reason))).

(** [!o || test(o)] *)
Definition absent_or (test : string → bool) (o : option string) : bool :=
  match o with Some s => test s | None => true end.

Definition parseMilestoneRepairTarget (index : nat) (item : json) : result string MilestoneRepair.t :=
  let at_index := "repairTasks[" +:+ pretty index +:+ "]" in
  let? u := res_assert (is_object item) (at_index +:+ " must be an object") in
  let? instruction := row_field item "instruction" in
  let? evidenceGap := row_field item "evidenceGap" in
  let? i := res_some (nonEmpty instruction) (at_index +:+ " need instruction and evidenceGap") in
  let? g := res_some (nonEmpty evidenceGap) (at_index +:+ " need instruction and evidenceGap") in
  let? sliceField := row_field item "targetSliceId" in
  let? taskField := row_field item "targetTaskId" in
  let targetSliceId := nonEmpty sliceField in
  let targetTaskId := nonEmpty taskField in
  let? u1 := res_assert (bool_decide (targetSliceId ≠ None) || bool_decide (targetTaskId ≠ None))
    (at_index +:+ " must include targetSliceId (e.g. m1-s2) or targetTaskId (e.g. m1-s2-t1)") in
  let? u2 := res_assert (absent_or (λ s, bool_decide (match_slice s ≠ None)) targetSliceId)
    (at_index +:+ ".targetSliceId must match m{N}-s{N} (got " +:+ default "" targetSliceId +:+ ")") in
  let? u3 := res_assert (absent_or (λ s, bool_decide (match_task s ≠ None)) targetTaskId)
    (at_index +:+ ".targetTaskId must match m{N}-s{N}-t{N} (got " +:+ default "" targetTaskId +:+ ")") in
  Ok (MilestoneRepair.mk i g targetSliceId targetTaskId).

Definition assert_target (milestoneId : string) (index : nat) (repair : MilestoneRepair.t) :
    result string unit :=
  let inside id := startsWith (toLowerCase id) (toLowerCase (trim milestoneId) +:+ "-") in
  let message field id :=
    "repairTasks[" +:+ pretty index +:+ "]." +:+ field +:+ " " +:+ default "" id +:+
    " is outside milestone " +:+ milestoneId in
  let? u := res_assert (absent_or inside (MilestoneRepair.targetSliceId repair))
    (message "targetSliceId" (MilestoneRepair.targetSliceId repair)) in
  res_assert (absent_or inside (MilestoneRepair.targetTaskId repair))
    (message "targetTaskId" (MilestoneRepair.targetTaskId repair)).

Definition assertRepairTargetsInMilestone (repairTasks : list MilestoneRepair.t)
    (milestoneId : string) : result string unit :=
  let? us := res_mapi (assert_target milestoneId) 0 repairTasks in
  Ok tt.

(** [milestoneId] is [options?.milestoneId]. *)
Definition normalizeMilestoneVerificationVerdict (raw : list (string * json))
    (milestoneId : option string) : result string MilestoneVerdict.t :=
  let? status := one_of MILESTONE_STATUSES (obj_field raw "status")
    "status must be passed, needs-repair, blocked, or inconclusive" in
  let? confidence := one_of CONFIDENCES (obj_field raw "confidence")
    "confidence must be high, medium, or low" in
  let? summary := res_some (nonEmpty (obj_field raw "summary")) "summary is required" in
  let? trace := res_mapi requirement_trace_item 0 (items_of (obj_field raw "requirementTrace")) in
  let? assessments := res_mapi slice_assessment 0 (items_of (obj_field raw "sliceAssessments")) in
  let? repairs := res_mapi parseMilestoneRepairTarget 0 (items_of (obj_field raw "repairTasks")) in
  let? u := res_assert (negb (bool_decide (status = "needs-repair") && bool_decide (length repairs = 0)))
    "needs-repair requires at least one repairTasks item with a targetSliceId or targetTaskId" in
  let mid := trim (default "" milestoneId) in
  let? u1 := if negb (bool_decide (mid = "")) && negb (bool_decide (length repairs = 0))
             then assertRepairTargetsInMilestone repairs mid else Ok tt in
  Ok (MilestoneVerdict.mk status confidence summary trace assessments repairs).

(** ** What a normalized verdict promises

    The statuses of an accepted verdict, and the contract with the injection of
    repairs: the repairs of a milestone verdict stay inside the milestone. *)

Ltac res_inv_step :=
  match goal with
  | H : res_bind ?r _ = Ok _ |- _ =>
      let E := fresh "E" in destruct r eqn:E; cbn [res_bind] in H; [|discriminate H]
  | H : res_assert ?b _ = Ok _ |- _ =>
      unfold res_assert in H; destruct b eqn:?; [clear H|discriminate H]
  | H : res_some ?o _ = Ok _ |- _ =>
      unfold res_some in H; destruct o eqn:?; [injection H as H; subst|discriminate H]
  | H : Ok _ = Ok _ |- _ => injection H as H; subst
  end.
Ltac res_inv := repeat res_inv_step.

Lemma one_of_ok allowed value e s : one_of allowed value e = Ok s → s ∈ allowed.
Proof. unfold one_of. intros H. res_inv. by eapply bool_decide_eq_true_1. Qed.

Lemma res_mapi_Forall {A B} (f : nat → A → result string B) (P : B → Prop) i l ys :
  (∀ i x y, f i x = Ok y → P y) → res_mapi f i l = Ok ys → Forall P ys.
Proof.
  intros Hf. revert i ys. induction l as [|x l IH]; intros i ys H; cbn in H; res_inv; [done|].
  constructor; eauto.
Qed.

(** A text that is not empty and has no white space around it. *)
Definition proper_text (s : string) : Prop := s ≠ "" ∧ trim s = s.

Lemma nonEmpty_proper v s : nonEmpty v = Some s → proper_text s.
Proof.
  unfold nonEmpty. destruct v as [[]|]; try done. case_bool_decide; [done|].
  intros [= <-]. split; [done|]. apply trim_idem.
Qed.

(** A slice verdict that passes normalization is well typed: one of the four statuses and
    one of the three confidences, a summary, complete trace entries and repair suggestions
    (texts without surrounding white space), and at least one suggestion when it asks for
    repair. *)
Theorem slice_verdict_well_typed (raw : list (string * json)) (v : SliceVerdict.t) :
  normalizeSliceVerificationVerdict raw = Ok v →
  SliceVerdict.status v ∈ SLICE_STATUSES ∧ SliceVerdict.confidence v ∈ CONFIDENCES ∧
  proper_text (SliceVerdict.summary v) ∧
  Forall (λ t, proper_text (TraceItem.requirement t) ∧ proper_text (TraceItem.status t))
    (SliceVerdict.evidenceTrace v) ∧
  Forall (λ r, proper_text (RepairSuggestion.reason r) ∧
               proper_text (RepairSuggestion.instruction r)) (SliceVerdict.repairSuggestions v) ∧
  (SliceVerdict.status v = "needs-repair" → SliceVerdict.repairSuggestions v ≠ []).
Proof.
  unfold normalizeSliceVerificationVerdict. intros H. res_inv. cbn.
  split_and!.
  - by eapply one_of_ok.
  - by eapply one_of_ok.
  - by eapply nonEmpty_proper.
  - eapply res_mapi_Forall; [|done]. unfold evidence_trace_item. intros i x y Hy. res_inv. cbn.
    by split; eapply nonEmpty_proper.
  - eapply res_mapi_Forall; [|done]. unfold repair_suggestion. intros i x y Hy. res_inv. cbn.
    by split; eapply nonEmpty_proper.
  - intros -> ->. cbn in *. rewrite bool_decide_eq_true_2 in *; done.
Qed.

(** ** Targets of milestone repairs *)

Lemma lowerChar_digit c : is_Some (digit_value c) → lowerChar c = c.
Proof.
  unfold digit_value, lowerChar. cbn. intros [d Hd]. case_bool_decide as H; [|done].
  rewrite bool_decide_eq_false_2; [done|lia].
Qed.

Lemma lowerChar_idem c : lowerChar (lowerChar c) = lowerChar c.
Proof.
  destruct c as [[] [] [] [] [] [] [] []]; reflexivity.
Qed.

Lemma digit_value_lower c : digit_value (lowerChar c) = digit_value c.
Proof. destruct c as [[] [] [] [] [] [] [] []]; reflexivity. Qed.

Lemma eat_char_lower c s : eat_char c (toLowerCase s) = toLowerCase <$> eat_char c s.
Proof.
  destruct s as [|d s]; [done|]. cbn. rewrite lowerChar_idem. by case_bool_decide.
Qed.

Lemma eat_digits_lower acc s :
  eat_digits acc (toLowerCase s) =
  ((eat_digits acc s).1, toLowerCase (eat_digits acc s).2).
Proof.
  revert acc. induction s as [|d s IH]; intros acc; [done|]. cbn [toLowerCase eat_digits].
  rewrite digit_value_lower. destruct (digit_value d); [apply IH|done].
Qed.

Lemma eat_number_lower s :
  eat_number (toLowerCase s) = (λ '(n, r), (n, toLowerCase r)) <$> eat_number s.
Proof.
  destruct s as [|d s]; [done|]. cbn [toLowerCase eat_number]. rewrite digit_value_lower.
  destruct (digit_value d); [|done]. cbn. rewrite eat_digits_lower. by destruct (eat_digits _ s).
Qed.

(** An id that starts like a milestone has the number of the milestone. *)
Lemma prefix_milestone_number m s :
  (0 ≤ m)%Z → startsWith (toLowerCase s) (milestone_id m +:+ "-") = true →
  ∃ s1 r, eat_char "m" s = Some s1 ∧ eat_number s1 = Some (m, r).
Proof.
  intros Hm Hp. apply prefix_inv in Hp as [t Ht]. unfold milestone_id in Ht.
  rewrite !str_app_assoc, !str_app_cons, !str_app_nil in Ht.
  pose proof (eat_char_lower "m" s) as H1. rewrite Ht in H1. cbn [eat_char] in H1.
  rewrite bool_decide_eq_true_2 in H1 by done.
  destruct (eat_char "m" s) as [s1|] eqn:E1; [|done]. cbn in H1. injection H1 as H1.
  pose proof (eat_number_lower s1) as H2. rewrite <-H1, eat_number_pretty in H2; [|done|by cbn].
  destruct (eat_number s1) as [[n r]|] eqn:E2; [|done]. cbn in H2. injection H2 as -> _.
  by exists s1, r.
Qed.

Lemma toLowerCase_app s t : toLowerCase (s +:+ t) = toLowerCase s +:+ toLowerCase t.
Proof. induction s as [|c s IH]; [done|]. rewrite !str_app_cons. cbn. by rewrite IH. Qed.

Lemma match_slice_number m s :
  (0 ≤ m)%Z → startsWith (toLowerCase s) (milestone_id m +:+ "-") = true → match_slice s ≠ None →
  ∃ k, match_slice s = Some (m, k).
Proof.
  intros Hm Hp Hs. destruct (prefix_milestone_number m s Hm Hp) as (s1 & r & E1 & E2).
  unfold match_slice in *. rewrite E1 in *. cbn in *. rewrite E2 in *. cbn in *.
  destruct (eat_char "-" r) as [s3|]; cbn in *; [|done].
  destruct (eat_char "s" s3) as [s4|]; cbn in *; [|done].
  destruct (eat_number s4) as [[k s5]|]; cbn in *; [|done].
  destruct (eat_end s5); cbn in *; [|done]. by eexists.
Qed.

Lemma match_task_number m s :
  (0 ≤ m)%Z → startsWith (toLowerCase s) (milestone_id m +:+ "-") = true → match_task s ≠ None →
  ∃ k t, match_task s = Some (m, k, t).
Proof.
  intros Hm Hp Hs. destruct (prefix_milestone_number m s Hm Hp) as (s1 & r & E1 & E2).
  unfold match_task in *. rewrite E1 in *. cbn in *. rewrite E2 in *. cbn in *.
  destruct (eat_char "-" r) as [s3|]; cbn in *; [|done].
  destruct (eat_char "s" s3) as [s4|]; cbn in *; [|done].
  destruct (eat_number s4) as [[k s5]|]; cbn in *; [|done].
  destruct (eat_char "-" s5) as [s6|]; cbn in *; [|done].
  destruct (eat_char "t" s6) as [s7|]; cbn in *; [|done].
  destruct (eat_number s7) as [[t s8]|]; cbn in *; [|done].
  destruct (eat_end s8); cbn in *; [|done]. by do 2 eexists.
Qed.

Lemma trim_milestone_id m : (0 ≤ m)%Z → trim (milestone_id m) = milestone_id m.
Proof.
  intros. apply trim_plain. change (all_chars plain_char (milestone_id m) = true).
  unfold milestone_id. by rewrite all_chars_app, plain_pretty.
Qed.

Lemma lower_pretty (n : Z) : (0 ≤ n)%Z → toLowerCase (pretty n) = pretty n.
Proof.
  intros Hn. assert (∀ x s, toLowerCase s = s → toLowerCase (pretty_N_go x s) = pretty_N_go x s) as Hgo.
  { intros x. induction (N.lt_wf_0 x) as [x _ IH]; intros s Hs.
    destruct (decide (x = 0)%N) as [->|Hx]; [by rewrite pretty_N_go_0|].
    rewrite (pretty_N_go_step x) by lia. apply IH; [apply N.div_lt; lia|].
    cbn [toLowerCase]. rewrite Hs, lowerChar_digit; [done|].
    rewrite digit_value_pretty by (apply N.mod_lt; lia). by eexists. }
  assert (pretty n = pretty (Z.to_N n)) as ->.
  { unfold pretty, pretty_Z. by destruct n. }
  unfold pretty, pretty_N. case_decide; [done|]. by apply Hgo.
Qed.

Lemma lower_milestone_id m : (0 ≤ m)%Z → toLowerCase (milestone_id m) = milestone_id m.
Proof. intros. unfold milestone_id. by rewrite toLowerCase_app, lower_pretty. Qed.

(** A repair that lies in milestone [m]: each target it names is a place of the
    milestone, and it names one. *)
Definition repair_inside (m : Z) (r : MilestoneRepair.t) : Prop :=
  match MilestoneRepair.targetSliceId r with
  | Some sid => ∃ s, parseSliceCoords sid = Some (m, s)
  | None => MilestoneRepair.targetTaskId r ≠ None
  end ∧
  ∀ tid, MilestoneRepair.targetTaskId r = Some tid → ∃ s t, match_task tid = Some (m, s, t).

(** The form of the targets [parseMilestoneRepairTarget] accepts. *)
Definition target_form (r : MilestoneRepair.t) : Prop :=
  (∀ sid, MilestoneRepair.targetSliceId r = Some sid → proper_text sid ∧ match_slice sid ≠ None) ∧
  (∀ tid, MilestoneRepair.targetTaskId r = Some tid → match_task tid ≠ None) ∧
  (MilestoneRepair.targetSliceId r = None → MilestoneRepair.targetTaskId r ≠ None).

Lemma absent_or_elim (test : string → bool) o s :
  absent_or test o = true → o = Some s → test s = true.
Proof. by intros H ->. Qed.

Lemma parse_target_form i item r : parseMilestoneRepairTarget i item = Ok r → target_form r.
Proof.
  unfold parseMilestoneRepairTarget. cbv zeta. intros H. res_inv. unfold target_form. cbn.
  split_and!.
  - intros sid Hs. split; [by eapply nonEmpty_proper|].
    pose proof (absent_or_elim _ _ _ Heqb0 Hs) as H. by apply bool_decide_eq_true_1 in H.
  - intros tid Ht.
    pose proof (absent_or_elim _ _ _ Heqb Ht) as H. by apply bool_decide_eq_true_1 in H.
  - intros Hs Ht. rewrite Hs, Ht in *. done.
Qed.

Lemma assert_targets_inside m i repairs us :
  (0 ≤ m)%Z → Forall target_form repairs →
  res_mapi (assert_target (milestone_id m)) i repairs = Ok us →
  Forall (repair_inside m) repairs.
Proof.
  intros Hm Hf. revert i us. induction Hf as [|r l Hr Hl IH]; intros i us H; cbn in H; [done|].
  destruct (assert_target (milestone_id m) i r) eqn:E; cbn [res_bind] in H; [|done].
  destruct (res_mapi _ (S i) l) eqn:E2; cbn [res_bind] in H; [|done].
  constructor; [|eauto]. unfold assert_target in E. cbv zeta in E. res_inv.
  rewrite trim_milestone_id, lower_milestone_id in * by done.
  destruct Hr as (Hsf & Htf & Hone). split.
  - destruct (MilestoneRepair.targetSliceId r) as [sid|]; [|by apply Hone].
    destruct (Hsf sid eq_refl) as [[_ Htrim] Hm']. unfold parseSliceCoords. rewrite Htrim.
    by apply match_slice_number.
  - intros tid Ht. rewrite Ht in *. apply match_task_number; [done|done|auto].
Qed.

(** The verdict on milestone m, once normalized for that milestone, names only places of
    it: each repair names a slice or a task, a named slice parses to a slice of m and a named
    task to a task of m, and a verdict that asks for repair has a repair. *)
Theorem normalized_repairs_stay_inside (raw : list (string * json)) (m : Z) (v : MilestoneVerdict.t) :
  (0 ≤ m)%Z →
  normalizeMilestoneVerificationVerdict raw (Some (milestone_id m)) = Ok v →
  Forall (repair_inside m) (MilestoneVerdict.repairTasks v) ∧
  (MilestoneVerdict.status v = "needs-repair" → MilestoneVerdict.repairTasks v ≠ []).
Proof.
  intros Hm H. unfold normalizeMilestoneVerificationVerdict in H. cbv zeta in H.
  change (default "" (Some (milestone_id m))) with (milestone_id m) in H.
  rewrite trim_milestone_id in H by done. res_inv. cbn.
  assert (Forall target_form a4) as Hform.
  { eapply res_mapi_Forall; [|done]. apply parse_target_form. }
  split.
  - destruct (decide (length a4 = 0)) as [Hn|Hn]; [by apply length_zero_iff_nil in Hn as ->|].
    rewrite (bool_decide_eq_false_2 _ Hn), (bool_decide_eq_false_2 (milestone_id m = "")) in * by done.
    cbn in *. unfold assertRepairTargetsInMilestone in *. res_inv.
    by eapply assert_targets_inside.
  - intros -> ->. cbn in *. rewrite bool_decide_eq_true_2 in *; done.
Qed.

(** Normalization accepts a target task id in upper case and passes it on as it
    is; the injection looks the id up exactly and throws, although the plan has
    the task. *)
Definition upper_case_raw : list (string * json) :=
  [("status", JStr "needs-repair"); ("confidence", JStr "high"); ("summary", JStr "gap");
   ("repairTasks", JArr [JObj [("instruction", JStr "fix"); ("evidenceGap", JStr "gap");
                               ("targetTaskId", JStr "M1-S1-T1")]])].

Theorem upper_case_target_is_refused :
  match normalizeMilestoneVerificationVerdict upper_case_raw (Some "m1") with
  | Ok v => injectMilestoneRepairTasks "m1" v 1 None (small_plan 1) =
              (Err "repairTasks must target a slice or task explicitly", small_plan 1)
  | Err _ => False
  end.
Proof. vm_compute. reflexivity. Qed.
