(* ===== verification/TurnErrors.v ===== *)
(** * Turn errors

    Models [src/shared/turn-errors]: the table of error codes and default
    messages ([codes.ts]), errors and their transport form ([turn-error.ts],
    [types.ts]), how a thrown value becomes a code ([normalize.ts]), which codes
    are worth a retry ([policy.ts]) and the tree of message keys ([i18n.ts]). *)
From stdpp Require Import pretty.
From Stdlib Require Import Ascii.
From S2P Require Import Prelude Json JsString Sql.
#[local] Arguments bool_decide : simpl never.

(** ** Codes *)

Definition TURN_ERROR_DEFAULT_MESSAGES : list (string * string) :=
  [
   ("turn.cancelled", "Conversation cancelled");
   ("turn.timed_out", "Turn timed out");
   ("turn.empty_reply", "Agent returned no content");
   ("turn.incomplete", "Agent turn ended without completion");
   ("turn.capacity_limited", "Selected model is at capacity; retry later");
   ("turn.context_overflow", "Context window exceeded");
   ("turn.watchdog_no_signal", "Turn produced no activity signal within {seconds}s");
   ("turn.watchdog_idle", "Turn stalled with no activity signal");
   ("turn.watchdog_wall", "Turn exceeded the {minutes} minute limit");
   ("turn.tool_aborted", "Tool call aborted before completion");
   ("turn.unknown", "Agent turn failed");
   ("job.paused", "Job paused");
   ("job.cancelled", "Job cancelled");
   ("sandbox.turn.cancelled", "Sandbox turn cancelled");
   ("sandbox.child_closed", "Sandbox worker exited unexpectedly");
   ("sandbox.worker.busy", "Sandbox worker is busy");
   ("workspace.busy", "Workspace is busy; another task is using this project folder");
   ("workspace.lease_lost", "Workspace lease is not held by this run; cannot execute without single-writer admission");
   ("workspace.path_invalid", "Project workspace path is invalid");
   ("runtime.draining", "Runtime is shutting down; try again after restart");
   ("sandbox.worker.missing", "Sandbox worker not available");
   ("sandbox.required", "Sandbox is required for this operation");
   ("sandbox.turn.timed_out", "Sandbox task timed out");
   ("sandbox.supervisor.cleanup_failed", "Sandbox supervisor cleanup failed");
   ("sandbox.supervisor.crashed", "Sandbox supervisor crashed");
   ("provider.auth.missing", "Provider authentication required");
   ("provider.cursor.not_authenticated", "Cursor Agent is not signed in. Run `agent login` in a terminal and retry.");
   ("provider.cursor.cli_missing", "Cursor Agent CLI is not installed or not on PATH (requires the `agent` command).");
   ("provider.cursor.auth_unknown", "Unable to verify Cursor Agent sign-in status");
   ("provider.cursor.acp_failed", "Cursor ACP session failed");
   ("provider.cursor.acp_authenticate_failed", "Cursor ACP authenticate failed");
   ("provider.cursor.acp_initialize_failed", "Cursor ACP initialize failed");
   ("provider.cursor.acp_keepalive_timeout", "Cursor Agent cloud connection timed out. Retry later or run `agent login` on the host.");
   ("provider.cursor.acp_empty_turn", "Cursor ACP turn produced no output (cloud may have disconnected); retrying automatically");
   ("provider.cursor.acp_stdio_unavailable", "Cursor Agent subprocess failed to start (stdio unavailable)");
   ("provider.claude.not_authenticated", "Claude Code is not signed in. Run `claude auth login` in a terminal and retry.");
   ("provider.codex.not_authenticated", "Codex is not signed in. Run `codex login` in a terminal and retry.");
   ("provider.codex.config_invalid", "Codex config.toml is invalid; check custom model provider settings");
   ("provider.codex.api_unreachable", "Unable to reach Codex API");
   ("provider.codex.stream_disconnected", "Codex stream disconnected before completion");
   ("provider.opencode.cli_missing", "OpenCode CLI is not installed or not on PATH");
   ("provider.opencode.not_authenticated", "OpenCode is not authenticated. Configure authentication or set an API key environment variable.");
   ("provider.opencode.server_timeout", "Timed out waiting for OpenCode server to start");
   ("provider.opencode.server_exited", "OpenCode server exited unexpectedly");
   ("provider.opencode.stream_disconnected", "OpenCode stream disconnected before completion (network or HTTP timeout)");
   ("provider.opencode.session_error", "OpenCode session error");
   ("provider.workspace_mismatch", "{provider} session is bound to a different project workspace");
   ("provider.rate_limited", "Rate limited; retry later");
   ("provider.capability_unsupported", "Selected provider does not support the required capability profile");
   ("provider.cli_auth_failed", "CLI authentication failed; check API key or sign-in status");
   ("settings.control_plane.unsupported_core", "Unsupported control plane CLI");
   ("settings.control_plane.unknown_core", "Unknown control plane CLI");
   ("settings.control_plane.unavailable_core", "Selected control plane CLI is unavailable");
   ("settings.control_plane.save_failed", "Failed to save Control Plane settings");
   ("settings.mcp.invalid_fragment", "Invalid MCP config fragment");
   ("settings.mcp.reserved_name", "Reserved MCP server name");
   ("settings.mcp.invalid_root_key", "Invalid MCP config root key");
   ("settings.mcp.save_failed", "Failed to save MCP settings");
   ("task.execution_failed", "Task execution failed");
   ("task.evidence_timeout", "Timed out waiting for report_task_result after turn completed");
   ("task.evidence_missing", "Structured evidence package missing");
   ("task.verifier_evidence_timeout", "Timed out waiting for verifier completion signal");
   ("task.infra_retry", "Task {taskId} tool-layer infrastructure failure; automatic retry ({attempt}/{maxAttempts})");
   ("task.infra_retry_exhausted", "Task {taskId} tool-layer infrastructure retries exhausted ({maxAttempts})");
   ("task.terminal_failure", "Task {taskId} failed");
   ("auth.unauthorized", "Not signed in");
   ("auth.session_expired", "Session expired");
   ("auth.invalid_credentials", "Invalid username or password");
   ("auth.already_initialized", "Account already initialized");
   ("auth.setup_required", "Account setup required");
   ("auth.username_password_required", "Username and password are required");
   ("auth.username_length_invalid", "Username must be between {minLength} and {maxLength} characters");
   ("auth.username_format_invalid", "Username must start with a letter and contain only letters, numbers, underscores, or hyphens");
   ("auth.username_reserved", "This username is reserved and cannot be used");
   ("auth.password_too_short", "Password must be at least {minLength} characters");
   ("auth.password_too_long", "Password must be at most {maxLength} characters");
   ("auth.password_missing_lowercase", "Password must include at least one lowercase letter");
   ("auth.password_missing_uppercase", "Password must include at least one uppercase letter");
   ("auth.password_missing_digit", "Password must include at least one digit");
   ("auth.password_missing_symbol", "Password must include at least one symbol");
   ("auth.password_invalid_chars", "Password may only contain printable ASCII characters");
   ("thread.not_found", "Thread not found");
   ("thread.busy", "Thread is busy; please wait for the current turn to finish");
   ("thread.deleting", "This conversation is being deleted");
   ("thread.title_empty", "Thread title cannot be empty");
   ("thread.kind_mismatch", "Thread kind mismatch: expected {expected}, got {actual}");
   ("thread.read_failed", "Failed to read thread after update");
   ("thread.message_not_found", "Source message not found");
   ("thread.wizard.rollback_fields_required", "Rollback target and reason are required");
   ("thread.wizard.invalid_rollback_target", "Invalid rollback target phase");
   ("thread.runtime_interrupted", "The previous run was interrupted when the app closed or the service restarted. You can send a new message to continue.");
   ("thread.core_required", "coreCode is required");
   ("project.not_found", "Project not found");
   ("project.workspace_root_required", "workspaceRoot is required");
   ("project.path_not_found", "Path not found: {path}");
   ("project.directory_not_found", "Directory not found: {path}");
   ("project.path_inaccessible", "Path is inaccessible: {path}");
   ("project.not_a_directory", "Not a directory: {path}");
   ("project.home_not_found", "Unable to resolve user home directory");
   ("project.already_root", "Already at root directory");
   ("attachment.empty", "Attachment cannot be empty");
   ("attachment.too_large", "Attachment exceeds size limit");
   ("attachment.not_found", "Attachment not found");
   ("attachment.missing_file_field", "Missing file field");
   ("design_session.not_found", "Design session not found");
   ("design_session.launched", "Design session already launched; corpus is immutable");
   ("workflow.deadlock", "No ready subtasks; workflow blocked");
   ("workflow.failed_block", "Failed subtasks present; workflow blocked");
   ("message.empty", "Message cannot be empty");
   ("conversation.sse_required", "Please use SSE streaming (Accept: text/event-stream)");
   ("conversation.mode_mismatch", "This thread mode does not support the requested operation ({threadKind})");
   ("conversation.mcp_unavailable", "Task draft tools are unavailable");
   ("job.not_found", "Job not found");
   ("job.invalid_status", "Job status {status} does not allow this action");
   ("job.already_finished", "Job already finished");
   ("job.already_launched", "Job already launched");
   ("job.slot_occupied", "Execution slot occupied");
   ("job.plan_empty", "Job plan is empty");
   ("job.subtask_not_found", "Subtask not found");
   ("job.not_selected", "Please use the currently selected execution plan");
   ("job.invalid_id", "designSessionId (ds-*) is required");
   ("job.draft_message_id_required", "draftMessageId is required");
   ("job.node_ref_required", "nodeRef is required");
   ("job.selections_required", "Ability selections are required");
   ("draft.not_found", "Draft not found");
   ("draft.invalid_payload", "Draft payload invalid");
   ("draft.conflict", "Draft conflict: revision mismatch");
   ("draft.locked", "Draft is locked for editing");
   ("draft.plan_not_ready", "Execution tree not generated yet");
   ("draft.node_not_found", "Plan node not found");
   ("draft.reference_not_found", "Reference not found");
   ("draft.reference_description_missing", "Reference descriptions required");
   ("draft.reference_invalid", "Invalid reference IDs");
   ("draft.requirements_contract_not_confirmed", "Requirements contract not confirmed");
   ("draft.abilities_core_missing", "Execution CLI required for every ability");
   ("draft.not_locked", "Draft is not locked");
   ("draft.manifest_not_ready", "Reference manifest is not ready");
   ("draft.references_uncovered", "References not assigned to tasks");
   ("draft.not_selected", "Please use the currently selected draft");
   ("draft.update_failed", "Failed to update collecting draft");
   ("draft.references_required", "At least one reference file is required");
   ("draft.attachment_ids_required", "attachmentIds are required");
   ("draft.local_path_required", "localPath is required");
   ("draft.local_corpus.path_required", "Local corpus reference missing localPath");
   ("draft.local_corpus.invalid_path", "Invalid local corpus path");
   ("draft.local_corpus.file_not_allowed", "Single-file local corpus not allowed");
   ("plan.cancelled", "Plan generation cancelled");
   ("plan.mcp_unavailable", "Planner tools are unavailable");
   ("plan.confirm_conflict", "Plan changed while it was being confirmed");
   ("plan.sandbox_timeout", "Plan sandbox task timed out");
   ("plan.sandbox_cleanup_failed", "Sandbox process exited abnormally. Fully quit the app and restart, then retry plan generation.");
   ("wizard.invalid_phase", "Current wizard phase {current} does not allow this action (allowed: {expected})");
   ("wizard.already_in_phase", "Already in wizard phase {phase}");
   ("wizard.rollback_not_allowed", "Cannot roll back to the requested phase");
   ("wizard.tool_not_allowed", "Tool {toolName} is not allowed in the current phase")
  ].

Definition TURN_ERROR_SCHEMA_VERSION : Z := 1.

Definition isTurnErrorCode (code : string) : bool :=
  bool_decide (code ∈ map fst TURN_ERROR_DEFAULT_MESSAGES).

(** The default message of a code of the table. *)
Definition default_message (code : string) : string :=
  default "" (snd <$> List.find (λ kv, bool_decide (kv.1 = code)) TURN_ERROR_DEFAULT_MESSAGES).

(** ** Errors *)

(** [TurnErrorParams]: strings, numbers and booleans by name. *)
Definition TurnErrorParams : Type := list (string * json).

Definition param_text (v : json) : string :=
  match v with
  | JStr s => s
  | JNum n => pretty n
  | JBool b => if b then "true" else "false"
  | _ => ""
  end.

Definition subst_param (params : TurnErrorParams) (key : string) : string :=
  match List.find (λ kv, bool_decide (kv.1 = key)) params with
  | Some (_, v) => param_text v
  | None => "{" +:+ key +:+ "}"
  end.

(** [template.replace(/\{(\w+)\}/g, ..)]: [open] is the key read since the last
    opening brace. *)
Fixpoint interpolate_from (params : TurnErrorParams) (open : option string) (s : string) : string :=
  match s with
  | EmptyString => match open with Some k => "{" +:+ k | None => "" end
  | String c s' =>
      match open with
      | None =>
          if bool_decide (c = "{"%char) then interpolate_from params (Some "") s'
          else String c (interpolate_from params None s')
      | Some k =>
          if is_word c then interpolate_from params (Some (k +:+ String c "")) s'
          else if bool_decide (c = "}"%char) && negb (bool_decide (k = "")) then
            subst_param params k +:+ interpolate_from params None s'
          else "{" +:+ k +:+
            (if bool_decide (c = "{"%char) then interpolate_from params (Some "") s'
             else String c (interpolate_from params None s'))
      end
  end.

Definition interpolate (template : string) (params : option TurnErrorParams) : string :=
  match params with
  | None => template
  | Some ps => interpolate_from ps None template
  end.

Definition formatTurnErrorMessage (code : string) (params : option TurnErrorParams) : string :=
  interpolate (default_message code) params.

(** [TurnErrorDto]; [detail: null] is [None]. *)
Module TurnErrorDto.
Record t := mk {
  code : string;
  message : string;
  params : option TurnErrorParams;
  detail : option string
}.
End TurnErrorDto.

(** [createTurnError(code, options).toDto()] *)
Definition turnErrorDto (code : string) (params : option TurnErrorParams)
    (detail message : option string) : TurnErrorDto.t :=
  let given := trim (default "" message) in
  TurnErrorDto.mk code
    (if bool_decide (given = "") then formatTurnErrorMessage code params else given)
    params detail.

(** What the server catches: an instance of [TurnError], an error named
    [SandboxError] or [RequestError] with its code, another [Error], or a value
    that is no error, with its text. *)
Inductive thrown :=
| ThrownTurn (dto : TurnErrorDto.t)
| ThrownSandbox (code message : string)
| ThrownRequest (code : option Z) (message : string)
| ThrownError (message : string)
| ThrownValue (text : string).

(** ** Normalization *)

Definition readErrorMessage (error : thrown) : string :=
  trim (match error with
        | ThrownTurn dto => TurnErrorDto.message dto
        | ThrownSandbox _ m => m
        | ThrownRequest _ m => m
        | ThrownError m => m
        | ThrownValue m => m
        end).

Definition readSandboxErrorCode (error : thrown) : option string :=
  match error with ThrownSandbox c _ => Some c | _ => None end.

Definition readAcpRequestErrorCode (error : thrown) : option Z :=
  match error with ThrownRequest c _ => c | _ => None end.

Definition isUserTurnCancellation (error : thrown) : bool :=
  if bool_decide (readSandboxErrorCode error = Some "sandbox.turn.cancelled") then true
  else if bool_decide (readAcpRequestErrorCode error = Some (-32800)%Z) then true
  else match error with
       | ThrownTurn dto =>
           bool_decide (TurnErrorDto.code dto ∈ ["turn.cancelled"; "job.paused"; "job.cancelled"])
       | _ => false
       end.

Definition matchExactDefaultMessage (message : string) : option string :=
  fst <$> List.find (λ kv, bool_decide (kv.2 = message)) TURN_ERROR_DEFAULT_MESSAGES.

Definition indicatesCursorAcpKeepaliveTimeout (message : string) : bool :=
  let lower := toLowerCase message in
  includes lower "keepalive" || includes lower "http/2" ||
  includes lower "stream ended without turnended" || includes lower "retriableerror" ||
  includes lower "connecterror".

(** Every entry of the map goes to the code of the same name. *)
Definition SANDBOX_CODE_MAP : list string :=
  ["sandbox.turn.cancelled"; "sandbox.turn.timed_out"; "sandbox.child_closed";
   "sandbox.worker.busy"; "sandbox.worker.missing"; "sandbox.required";
   "sandbox.supervisor.cleanup_failed"; "sandbox.supervisor.crashed"; "provider.auth.missing";
   "provider.claude.not_authenticated"; "provider.codex.not_authenticated";
   "provider.codex.config_invalid"; "provider.cursor.not_authenticated";
   "provider.opencode.not_authenticated"].

(** [s.replace(/^\[role-worker\]\s*/i, '')] *)
Definition strip_role_worker (s : string) : string :=
  if startsWith (toLowerCase s) "[role-worker]"
  then trimStart (String.substring 13 (String.length s - 13) s) else s.

(** [x || undefined] *)
Definition or_undefined (s : string) : option string :=
  if bool_decide (s = "") then None else Some s.

(** The end of [normalizeTurnError], which looks at the text only. *)
Definition normalize_text (raw : string) : TurnErrorDto.t :=
  if indicatesCursorAcpKeepaliveTimeout raw then
    turnErrorDto "provider.cursor.acp_keepalive_timeout" None (Some raw) None
  else
    let stripped := trim (strip_role_worker raw) in
    let message := if bool_decide (stripped = "") then formatTurnErrorMessage "turn.unknown" None
                   else stripped in
    match matchExactDefaultMessage message with
    | Some code => turnErrorDto code None (or_undefined raw) None
    | None => TurnErrorDto.mk "turn.unknown" message None (or_undefined raw)
    end.

Definition normalizeTurnError (error : thrown) : TurnErrorDto.t :=
  match error with
  | ThrownTurn dto => dto
  | _ =>
      if isUserTurnCancellation error then
        if bool_decide (readSandboxErrorCode error = Some "sandbox.turn.cancelled")
        then turnErrorDto "sandbox.turn.cancelled" None None None
        else turnErrorDto "turn.cancelled" None None None
      else
        let raw := readErrorMessage error in
        match readSandboxErrorCode error with
        | Some code =>
            if bool_decide (code = "") then normalize_text raw
            else if bool_decide (code ∈ SANDBOX_CODE_MAP) then turnErrorDto code None (Some raw) None
            else if isTurnErrorCode code then turnErrorDto code None None (or_undefined raw)
            else if bool_decide (code = "sandbox.sdk.error") || bool_decide (code = "sandbox.worker.exit")
            then normalize_text (trim raw)
            else normalize_text raw
        | None => normalize_text raw
        end
  end.

Definition normalizeTurnErrorFromMessage (message : string) : TurnErrorDto.t :=
  normalizeTurnError (ThrownError message).

(** ** Policy *)

Definition GENERIC_SANDBOX_WRAPPER_CODES : list string :=
  ["sandbox.sdk.error"; "sandbox.worker.exit"].

Definition SANDBOX_NATIVE_NON_RETRY : list string :=
  ["sandbox.turn.cancelled"; "sandbox.required"; "provider.auth.missing";
   "sandbox.worker.busy"; "sandbox.worker.missing"; "sandbox.path.empty";
   "sandbox.path.relative"; "sandbox.path.missing"; "sandbox.disabled";
   "sandbox.supervisor.shutdown"].

Definition SANDBOX_NATIVE_RETRY : list string :=
  ["sandbox.supervisor.crashed"; "sandbox.supervisor.disconnected";
   "sandbox.supervisor.cleanup_failed"; "sandbox.turn.timed_out"; "sandbox.sdk.error";
   "sandbox.worker.exit"; "sandbox.child_closed"].

Definition NON_RETRYABLE_TURN_CODES : list string :=
  ["turn.cancelled"; "job.paused"; "job.cancelled"; "sandbox.turn.cancelled";
   "sandbox.required"; "sandbox.worker.busy"; "sandbox.worker.missing";
   "provider.auth.missing"; "provider.cursor.not_authenticated";
   "provider.cursor.cli_missing"; "provider.cursor.auth_unknown";
   "provider.codex.config_invalid"; "provider.cli_auth_failed";
   "provider.opencode.cli_missing"; "provider.opencode.session_error";
   "task.infra_retry_exhausted"; "task.terminal_failure"; "workflow.deadlock";
   "workflow.failed_block"; "plan.cancelled"; "plan.sandbox_cleanup_failed";
   "turn.context_overflow"; "auth.unauthorized"; "auth.session_expired"].

Definition RETRYABLE_TURN_CODES : list string :=
  ["sandbox.child_closed"; "sandbox.turn.timed_out"; "sandbox.supervisor.cleanup_failed";
   "sandbox.supervisor.crashed"; "provider.codex.stream_disconnected";
   "provider.codex.api_unreachable"; "provider.rate_limited"; "provider.cursor.acp_failed";
   "provider.cursor.acp_authenticate_failed"; "provider.cursor.acp_initialize_failed";
   "provider.cursor.acp_keepalive_timeout"; "provider.cursor.acp_empty_turn";
   "provider.cursor.acp_stdio_unavailable"; "provider.opencode.server_timeout";
   "provider.opencode.server_exited"; "provider.opencode.stream_disconnected";
   "turn.timed_out"; "turn.empty_reply"; "turn.incomplete"; "turn.capacity_limited";
   "turn.watchdog_no_signal"; "turn.watchdog_idle"; "turn.watchdog_wall"; "turn.tool_aborted";
   "task.evidence_timeout"; "task.verifier_evidence_timeout"; "plan.sandbox_timeout"].

Definition EVIDENCE_MISS_CODES : list string :=
  ["task.evidence_timeout"; "task.evidence_missing"].

Definition VERIFIER_MISS_CODES : list string :=
  ["task.verifier_evidence_timeout"].

(** A [SandboxError] with an empty code counts as having none. *)
Definition readSandboxNativeCode (error : thrown) : option string := readSandboxErrorCode error.

Definition isSandboxError (error : thrown) : bool := bool_decide (readSandboxNativeCode error ≠ None).

Definition resolveTurnErrorDto (error : thrown) : TurnErrorDto.t := normalizeTurnError error.

Definition isRetryableTurnErrorCode (code : string) : bool :=
  if bool_decide (code ∈ NON_RETRYABLE_TURN_CODES) then false
  else bool_decide (code ∈ RETRYABLE_TURN_CODES).

Definition isInfraTurnErrorCode (code : string) : bool :=
  if bool_decide (code ∈ NON_RETRYABLE_TURN_CODES) then false
  else if bool_decide (code ∈ EVIDENCE_MISS_CODES) || bool_decide (code ∈ VERIFIER_MISS_CODES) then true
  else bool_decide (code ∈ RETRYABLE_TURN_CODES).

Definition isRetryableTurnError (error : thrown) : bool :=
  let code := TurnErrorDto.code (resolveTurnErrorDto error) in
  if isUserTurnCancellation error then false
  else match readSandboxNativeCode error with
  | Some native =>
      if bool_decide (native = "") then isRetryableTurnErrorCode code
      else if bool_decide (native ∈ SANDBOX_NATIVE_NON_RETRY) then false
      else if bool_decide (native ∈ GENERIC_SANDBOX_WRAPPER_CODES) then
        if negb (bool_decide (code = "turn.unknown")) then isRetryableTurnErrorCode code else true
      else if bool_decide (native ∈ SANDBOX_NATIVE_RETRY) then true
      else if isTurnErrorCode native then isRetryableTurnErrorCode native
      else isRetryableTurnErrorCode code
  | None => isRetryableTurnErrorCode code
  end.

Definition isInfraTurnError (error : thrown) : bool :=
  if isUserTurnCancellation error then false
  else isInfraTurnErrorCode (TurnErrorDto.code (resolveTurnErrorDto error)).

Definition isTaskEvidenceMissError (error : thrown) : bool :=
  bool_decide (TurnErrorDto.code (resolveTurnErrorDto error) ∈ EVIDENCE_MISS_CODES).

Definition isVerifierEvidenceMissError (error : thrown) : bool :=
  bool_decide (TurnErrorDto.code (resolveTurnErrorDto error) ∈ VERIFIER_MISS_CODES).

Definition isCapacityTurnError (error : thrown) : bool :=
  bool_decide (TurnErrorDto.code (resolveTurnErrorDto error) = "turn.capacity_limited").

Definition isTurnInfraFailureMessage (message : string) : bool := isInfraTurnError (ThrownError message).

Definition isVerifierToolMissMessage (message : string) : bool :=
  isVerifierEvidenceMissError (ThrownError message).

Definition isNonRetryableSandboxError (error : thrown) : bool :=
  match readSandboxNativeCode error with
  | Some native => negb (bool_decide (native = "")) && bool_decide (native ∈ SANDBOX_NATIVE_NON_RETRY)
  | None => false
  end.

Definition isRetryableSandboxError (error : thrown) : bool :=
  if negb (isSandboxError error) || isNonRetryableSandboxError error then false
  else isRetryableTurnError error.

(** [turnErrorDisplayMessage] of [storage.ts]. *)
Definition turnErrorDisplayMessage (dto : TurnErrorDto.t) : option string :=
  or_undefined (trim (TurnErrorDto.message dto)).

(** ** The delay before a retry ([src/server/agent-runtime/retry.ts]) *)

Definition turnRetryDelayMs (attempt : Z) (error : thrown) : Z :=
  if isCapacityTurnError error then Z.min (30000 * attempt) 90000
  else Z.min (2000 * 2 ^ Z.max 0 (attempt - 1)) 60000.

(** ** The tree of message keys *)

(** A JavaScript object whose values are texts or objects, fields in insertion
    order. *)
Inductive tree :=
| Leaf (message : string)
| Node (fields : list (string * tree)).

Fixpoint set_field (k : string) (v : tree) (fields : list (string * tree)) : list (string * tree) :=
  match fields with
  | [] => [(k, v)]
  | (k', v') :: fs => if bool_decide (k' = k) then (k, v) :: fs else (k', v') :: set_field k v fs
  end.

Definition get_field (k : string) (fields : list (string * tree)) : option tree :=
  snd <$> List.find (λ kv, bool_decide (kv.1 = k)) fields.

(** Walks down [parts], putting an empty object where there is none. *)
Fixpoint set_path (parts : list string) (message : string) (fields : list (string * tree)) :
    list (string * tree) :=
  match parts with
  | [] => fields
  | [p] => set_field p (Leaf message) fields
  | p :: parts' =>
      let inner := match get_field p fields with Some (Node fs) => fs | _ => [] end in
      set_field p (Node (set_path parts' message inner)) fields
  end.

Definition buildTurnErrorI18nTree (messages : list (string * string)) : list (string * tree) :=
  foldl (λ t '(code, message), set_path (split "." code) message t) [] messages.

Fixpoint get_path (parts : list string) (fields : list (string * tree)) : option string :=
  match parts with
  | [] => None
  | [p] => match get_field p fields with Some (Leaf m) => Some m | _ => None end
  | p :: parts' => match get_field p fields with Some (Node fs) => get_path parts' fs | _ => None end
  end.

(** ** Turn errors survive their transport, and retries are bounded

    Errors cross process boundaries as text; the code is recovered from it.  The
    retry policy treats every code one way and never retries a cancellation. *)

Lemma codes_forall (p : string → bool) :
  forallb p (map fst TURN_ERROR_DEFAULT_MESSAGES) = true →
  ∀ code, isTurnErrorCode code = true → p code = true.
Proof.
  intros Hall code Hc%bool_decide_eq_true_1. rewrite forallb_forall in Hall.
  by apply Hall, list_elem_of_In.
Qed.

(** An error that crosses a process boundary as nothing but its default message, bare or
    with the prefix of the role worker, is recognised on the other side under the code it was
    created with: no two codes share a message and no message looks like another failure. *)
Theorem error_code_survives_transport (code : string) :
  isTurnErrorCode code = true →
  TurnErrorDto.code (normalizeTurnErrorFromMessage (formatTurnErrorMessage code None)) = code ∧
  TurnErrorDto.code (normalizeTurnErrorFromMessage
    ("[role-worker] " +:+ formatTurnErrorMessage code None)) = code.
Proof.
  intros Hc.
  assert (forallb (λ code,
    bool_decide (TurnErrorDto.code (normalizeTurnErrorFromMessage
                   (formatTurnErrorMessage code None)) = code) &&
    bool_decide (TurnErrorDto.code (normalizeTurnErrorFromMessage
                   ("[role-worker] " +:+ formatTurnErrorMessage code None)) = code))
    (map fst TURN_ERROR_DEFAULT_MESSAGES) = true) as Hall by (vm_compute; reflexivity).
  apply (codes_forall _ Hall) in Hc. apply andb_true_iff in Hc as [H1 H2].
  split; by eapply bool_decide_eq_true_1.
Qed.

(** Every code of the policy is a code of the table, and no code is both worth
    a retry and excluded from it. *)
Lemma policy_codes_known :
  forallb isTurnErrorCode (NON_RETRYABLE_TURN_CODES ++ RETRYABLE_TURN_CODES ++
                           EVIDENCE_MISS_CODES ++ VERIFIER_MISS_CODES) = true ∧
  forallb (λ c, negb (bool_decide (c ∈ NON_RETRYABLE_TURN_CODES))) RETRYABLE_TURN_CODES = true.
Proof. split; vm_compute; reflexivity. Qed.

Lemma retryable_iff code :
  isRetryableTurnErrorCode code = true ↔ code ∈ RETRYABLE_TURN_CODES.
Proof.
  unfold isRetryableTurnErrorCode. destruct policy_codes_known as [_ Hdisj].
  rewrite forallb_forall in Hdisj. case_bool_decide as Hn.
  - split; [done|]. intros Hr%list_elem_of_In%Hdisj. by rewrite bool_decide_eq_true_2 in Hr.
  - apply bool_decide_eq_true.
Qed.

(** A value that stands for a decision of the user is never retried and never counts as an
    infrastructure failure; any other value that is not a sandbox error is retried exactly when
    its normalized code is a retryable one, and what is retryable also counts as an
    infrastructure failure. *)
Theorem retry_policy (error : thrown) :
  (isUserTurnCancellation error = true →
     isRetryableTurnError error = false ∧ isInfraTurnError error = false) ∧
  (isUserTurnCancellation error = false → readSandboxNativeCode error = None →
     (isRetryableTurnError error = true ↔
        TurnErrorDto.code (normalizeTurnError error) ∈ RETRYABLE_TURN_CODES) ∧
     (isRetryableTurnError error = true → isInfraTurnError error = true)).
Proof.
  unfold isRetryableTurnError, isInfraTurnError. split; [by intros ->|].
  intros -> ->. unfold resolveTurnErrorDto. split; [apply retryable_iff|].
  unfold isRetryableTurnErrorCode, isInfraTurnErrorCode. case_bool_decide; [done|].
  intros ->. by destruct (_ || _).
Qed.

(** The delay before a retry grows with the attempt, is at least two seconds
    and never more than one minute, or one and a half for a model at capacity. *)
Theorem retry_delay_bounds (attempt : Z) (error : thrown) :
  (1 ≤ attempt)%Z →
  (2000 ≤ turnRetryDelayMs attempt error ≤
     if isCapacityTurnError error then 90000 else 60000)%Z ∧
  (turnRetryDelayMs attempt error ≤ turnRetryDelayMs (attempt + 1) error)%Z.
Proof.
  intros Ha. unfold turnRetryDelayMs. destruct (isCapacityTurnError error); [lia|].
  rewrite (Z.max_r 0 (attempt - 1)), (Z.max_r 0 (attempt + 1 - 1)) by lia.
  pose proof (Z.pow_pos_nonneg 2 (attempt - 1) ltac:(lia) ltac:(lia)).
  pose proof (Z.pow_le_mono_r 2 (attempt - 1) (attempt + 1 - 1) ltac:(lia) ltac:(lia)). lia.
Qed.

Lemma map_eq_elem {A B} (f g : A → B) l x : map f l = map g l → x ∈ l → f x = g x.
Proof.
  intros Hm. induction l as [|a l IH]; [by intros ?%not_elem_of_nil|].
  injection Hm as Ha Hl. intros [->|Hx]%elem_of_cons; auto.
Qed.

Definition turn_codes : list string := map fst TURN_ERROR_DEFAULT_MESSAGES.

Lemma i18n_tree_paths (translate : string → string) :
  map (λ c, get_path (split "." c)
              (buildTurnErrorI18nTree (map (λ c, (c, translate c)) turn_codes))) turn_codes =
  map (λ c, Some (translate c)) turn_codes.
Proof. vm_cast_no_check (eq_refl (map (λ c, Some (translate c)) turn_codes)). Qed.

(** Whatever the translation, the tree of message keys has the message of every
    code at the path the code spells: no code hides another. *)
Theorem i18n_tree_complete (translate : string → string) (code : string) :
  isTurnErrorCode code = true →
  get_path (split "." code) (buildTurnErrorI18nTree (map (λ c, (c, translate c)) turn_codes)) =
  Some (translate code).
Proof.
  intros Hc%bool_decide_eq_true_1. exact (map_eq_elem _ _ _ _ (i18n_tree_paths translate) Hc).
Qed.
