(* ===== verification/Regex.v ===== *)
(** * Regular expressions of the JavaScript runtime

    The fragment of regular expressions the server classifies texts with:
    literals, [.], [\s], [\b], escaped characters, character classes, groups,
    alternatives and the greedy repetitions.  [compile] reads the source of an
    expression; [exec] is the backtracking search of the runtime, which tries
    positions from the left and alternatives in order; [matches] says what an
    expression means, and the lemmas show that the search finds a match exactly
    when there is one. *)
From Stdlib Require Import Ascii.
From S2P Require Import Prelude JsString.

#[local] Arguments bool_decide : simpl never.

Inductive cclass :=
| COne (c : ascii)
| CAny
| CSpace
| CIn (cs : list ascii)
| CNotIn (cs : list ascii).

Definition in_class (k : cclass) (c : ascii) : bool :=
  match k with
  | COne d => bool_decide (c = d)
  | CAny => negb (bool_decide (N_of_ascii c = 10)%N || bool_decide (N_of_ascii c = 13)%N)
  | CSpace => is_space c
  | CIn cs => bool_decide (c ∈ cs)
  | CNotIn cs => negb (bool_decide (c ∈ cs))
  end.

Inductive regex :=
| Eps
| Chr (k : cclass)
| WordB
| Seq (r1 r2 : regex)
| Alt (r1 r2 : regex)
| Star (r : regex).

Definition Opt (r : regex) : regex := Alt r Eps.
Definition Plus (r : regex) : regex := Seq r (Star r).

(** ** Matching *)

Definition word_at (o : option ascii) : bool :=
  match o with Some c => is_word c | None => false end.

Definition head_char (s : string) : option ascii :=
  match s with String c _ => Some c | EmptyString => None end.

(** [k] continues with the character before the rest of the text and the rest;
    it returns what is left of the text when the whole expression matched.  A
    repetition that consumes nothing is not repeated. *)
Fixpoint run (r : regex) (prev : option ascii) (s : string)
    (k : option ascii → string → option string) : option string :=
  match r with
  | Eps => k prev s
  | Chr cl => match s with
              | String c s' => if in_class cl c then k (Some c) s' else None
              | EmptyString => None
              end
  | WordB => if xorb (word_at prev) (word_at (head_char s)) then k prev s else None
  | Seq r1 r2 => run r1 prev s (λ p s', run r2 p s' k)
  | Alt r1 r2 => match run r1 prev s k with
                 | Some x => Some x
                 | None => run r2 prev s k
                 end
  | Star r1 =>
      (fix star (n : nat) (prev : option ascii) (s : string) : option string :=
         match n with
         | 0 => k prev s
         | S n' =>
             match run r1 prev s (λ p s',
                     if bool_decide (String.length s' < String.length s) then star n' p s' else None) with
             | Some x => Some x
             | None => k prev s
             end
         end) (String.length s) prev s
  end.

(** [r.exec(text)?.[0]] from the position after [prev] on. *)
Fixpoint exec_from (r : regex) (prev : option ascii) (s : string) : option string :=
  match run r prev s (λ _ rest, Some rest) with
  | Some rest => Some (String.substring 0 (String.length s - String.length rest) s)
  | None => match s with
            | String c s' => exec_from r (Some c) s'
            | EmptyString => None
            end
  end.

Definition exec (r : regex) (text : string) : option string := exec_from r None text.

(** ** Reading the source of an expression *)

Fixpoint class_chars (s : string) : option (list ascii * string) :=
  match s with
  | String "]" s' => Some ([], s')
  | String c s' => '(cs, rest) ← class_chars s'; Some (c :: cs, rest)
  | EmptyString => None
  end.

Definition postfix (r : regex) (s : string) : regex * string :=
  match s with
  | String "*" s' => (Star r, s')
  | String "+" s' => (Plus r, s')
  | String "?" s' => (Opt r, s')
  | _ => (r, s)
  end.

Fixpoint p_alt (n : nat) (s : string) : option (regex * string) :=
  match n with
  | 0 => None
  | S n' =>
      '(r, s1) ← p_seq n' s;
      match s1 with
      | String "|" s2 => '(r2, s3) ← p_alt n' s2; Some (Alt r r2, s3)
      | _ => Some (r, s1)
      end
  end
with p_seq (n : nat) (s : string) : option (regex * string) :=
  match n with
  | 0 => None
  | S n' =>
      match s with
      | EmptyString | String "|" _ | String ")" _ => Some (Eps, s)
      | _ =>
          '(a, s1) ← p_atom n' s;
          let '(a', s2) := postfix a s1 in
          '(r, s3) ← p_seq n' s2;
          Some (Seq a' r, s3)
      end
  end
with p_atom (n : nat) (s : string) : option (regex * string) :=
  match n with
  | 0 => None
  | S n' =>
      match s with
      | String "(" (String "?" (String ":" s')) | String "(" s' =>
          '(r, s1) ← p_alt n' s';
          match s1 with String ")" s2 => Some (r, s2) | _ => None end
      | String "[" (String "^" s') => '(cs, s1) ← class_chars s'; Some (Chr (CNotIn cs), s1)
      | String "[" s' => '(cs, s1) ← class_chars s'; Some (Chr (CIn cs), s1)
      | String "." s' => Some (Chr CAny, s')
      | String "\" (String "b" s') => Some (WordB, s')
      | String "\" (String "s" s') => Some (Chr CSpace, s')
      | String "\" (String c s') => Some (Chr (COne c), s')
      | String c s' => Some (Chr (COne c), s')
      | EmptyString => None
      end
  end.

(** [None] for a source outside the fragment. *)
Definition compile (source : string) : option regex :=
  match p_alt (4 * S (String.length source)) source with
  | Some (r, EmptyString) => Some r
  | _ => None
  end.

(** ** Meaning *)

(** [matches r p s p' s']: at the text [s], after the character [p], the
    expression can consume a prefix of [s] and leave [s'], after [p']. *)
Inductive matches : regex → option ascii → string → option ascii → string → Prop :=
| m_eps p s : matches Eps p s p s
| m_chr k p c s : in_class k c = true → matches (Chr k) p (String c s) (Some c) s
| m_wordb p s : xorb (word_at p) (word_at (head_char s)) = true → matches WordB p s p s
| m_seq r1 r2 p s p1 s1 p2 s2 :
    matches r1 p s p1 s1 → matches r2 p1 s1 p2 s2 → matches (Seq r1 r2) p s p2 s2
| m_altl r1 r2 p s p' s' : matches r1 p s p' s' → matches (Alt r1 r2) p s p' s'
| m_altr r1 r2 p s p' s' : matches r2 p s p' s' → matches (Alt r1 r2) p s p' s'
| m_star0 r p s : matches (Star r) p s p s
| m_star r p s p1 s1 p2 s2 :
    matches r p s p1 s1 → String.length s1 < String.length s →
    matches (Star r) p1 s1 p2 s2 → matches (Star r) p s p2 s2.

(** The repetition of [run], under a name for the proofs. *)
Definition run_star (r : regex) (k : option ascii → string → option string) :
    nat → option ascii → string → option string :=
  fix star (n : nat) (prev : option ascii) (s : string) : option string :=
    match n with
    | 0 => k prev s
    | S n' =>
        match run r prev s (λ p s',
                if bool_decide (String.length s' < String.length s) then star n' p s' else None) with
        | Some x => Some x
        | None => k prev s
        end
    end.

Lemma run_star_eq r p s k : run (Star r) p s k = run_star r k (String.length s) p s.
Proof. done. Qed.

Section star.
Context (r : regex) (k : option ascii → string → option string).

Lemma run_star_sound n p s x :
  (∀ p s k x, run r p s k = Some x → ∃ p' s', matches r p s p' s' ∧ k p' s' = Some x) →
  run_star r k n p s = Some x → ∃ p' s', matches (Star r) p s p' s' ∧ k p' s' = Some x.
Proof.
  intros IH. revert p s. induction n as [|n IHn]; intros p s H; cbn in H.
  { exists p, s. split; [constructor|done]. }
  destruct (run r p s _) as [y|] eqn:E; [injection H as ->|].
  - apply IH in E as (p1 & s1 & Hm & E). case_bool_decide as Hl; [|done].
    apply IHn in E as (p2 & s2 & Hs & Hk). exists p2, s2. split; [by eapply m_star|done].
  - exists p, s. split; [constructor|done].
Qed.

Lemma run_star_complete n p s p' s' :
  (∀ p s k p' s', matches r p s p' s' → k p' s' ≠ None → run r p s k ≠ None) →
  String.length s ≤ n → matches (Star r) p s p' s' → k p' s' ≠ None →
  run_star r k n p s ≠ None.
Proof.
  intros IH. revert p s. induction n as [|n IHn]; intros p s Hn Hm Hk; cbn.
  - inversion Hm; subst; [done|lia].
  - destruct (run r p s _) as [y|] eqn:E; [done|].
    inversion Hm; subst; [done|]. exfalso. revert E. eapply IH; [done|]. cbn.
    rewrite bool_decide_eq_true_2 by done. apply IHn; [lia|done..].
Qed.
End star.

Lemma run_sound r p s k x :
  run r p s k = Some x → ∃ p' s', matches r p s p' s' ∧ k p' s' = Some x.
Proof.
  revert p s k x. induction r as [|cl| |r1 IH1 r2 IH2|r1 IH1 r2 IH2|r1 IH1]; intros p s k x H.
  - exists p, s. split; [constructor|done].
  - destruct s as [|c s]; [done|]. cbn in H. destruct (in_class cl c) eqn:Hc; [|done].
    exists (Some c), s. split; [by constructor|done].
  - cbn in H. destruct (xorb _ _) eqn:Hx; [|done]. exists p, s. split; [by constructor|done].
  - apply IH1 in H as (p1 & s1 & H1 & H). apply IH2 in H as (p2 & s2 & H2 & H).
    exists p2, s2. split; [by econstructor|done].
  - cbn in H. destruct (run r1 p s k) as [y|] eqn:E; [injection H as ->|].
    + apply IH1 in E as (p' & s' & ? & ?). exists p', s'. split; [by apply m_altl|done].
    + apply IH2 in H as (p' & s' & ? & ?). exists p', s'. split; [by apply m_altr|done].
  - rewrite run_star_eq in H. by apply run_star_sound in H.
Qed.

Lemma run_complete r p s k p' s' :
  matches r p s p' s' → k p' s' ≠ None → run r p s k ≠ None.
Proof.
  revert p s k p' s'. induction r as [|cl| |r1 IH1 r2 IH2|r1 IH1 r2 IH2|r1 IH1];
    intros p s k p' s' Hm Hk; [inversion Hm; subst; cbn..|].
  - done.
  - by case_match.
  - by case_match.
  - eapply IH1; [done|]. by eapply IH2.
  - destruct (run r1 p s k) eqn:E; [done|]. exfalso. by eapply IH1 in E.
  - destruct (run r1 p s k) eqn:E; [done|]. by eapply IH2.
  - rewrite run_star_eq. by eapply run_star_complete.
Qed.

(** The text after a prefix [pre], and the character before it. *)
Fixpoint char_before (p : option ascii) (pre : string) : option ascii :=
  match pre with
  | EmptyString => p
  | String c pre' => char_before (Some c) pre'
  end.

(** The expression matches somewhere in the text. *)
Definition occurs_from (r : regex) (p : option ascii) (s : string) : Prop :=
  ∃ pre rest p' s', s = pre +:+ rest ∧ matches r (char_before p pre) rest p' s'.

Definition occurs (r : regex) (text : string) : Prop := occurs_from r None text.

Lemma exec_from_iff r p s : exec_from r p s ≠ None ↔ occurs_from r p s.
Proof.
  split.
  - revert p. induction s as [|c s IH]; intros p H; cbn in H;
      destruct (run r p _ _) as [rest|] eqn:E; try done.
    + apply run_sound in E as (p' & s' & Hm & _). by exists "", "", p', s'.
    + apply run_sound in E as (p' & s' & Hm & _). by exists "", (String c s), p', s'.
    + apply IH in H as (pre & rest & p' & s' & -> & Hm). by exists (String c pre), rest, p', s'.
  - intros (pre & rest & p' & s' & -> & Hm). revert p Hm.
    induction pre as [|c pre IH]; intros p Hm.
    + rewrite str_app_nil. assert (run r p rest (λ _ rest, Some rest) ≠ None) as Hr.
      { by eapply run_complete. }
      destruct rest; cbn; by destruct (run r p _ _).
    + rewrite str_app_cons. cbn [exec_from]. destruct (run r p _ _); [done|]. by apply IH.
Qed.

(** The search of the runtime finds a match exactly when the expression matches
    somewhere. *)
Lemma exec_iff r text : exec r text ≠ None ↔ occurs r text.
Proof. apply exec_from_iff. Qed.
