(* ===== verification/Blocker.v ===== *)
(** * Why a task is blocked

    Models [src/server/legacy-control-plane/task-blocker/classify.ts] with the
    types of [task-blocker/types.ts] and [src/shared/contracts/evidence.ts]: the
    report of a task is classified by patterns over its texts and by the hint of
    the agent. *)
From stdpp Require Import pretty.
From Stdlib Require Import Ascii.
From S2P Require Import Prelude Json JsString Regex RepairTasks.

#[local] Arguments bool_decide : simpl never.

(** ** Evidence *)

Module TaskBlockerKind.
Inductive t := infra | dependency_prep | dependency_human | decision | implementation.

#[global] Instance eq_dec : EqDecision t.
Proof. solve_decision. Defined.

Definition to_string (k : t) : string :=
  match k with
  | infra => "infra"
  | dependency_prep => "dependency-prep"
  | dependency_human => "dependency-human"
  | decision => "decision"
  | implementation => "implementation"
  end.

Definition all : list t := [infra; dependency_prep; dependency_human; decision; implementation].
End TaskBlockerKind.

Module Source.
Inductive t := classifier | agent | merged.
End Source.

Module Confidence.
Inductive t := high | medium | low.

#[global] Instance eq_dec : EqDecision t.
Proof. solve_decision. Defined.
End Confidence.

Module Classification.
Record t := mk {
  kind : TaskBlockerKind.t;
  source : Source.t;
  confidence : Confidence.t;
  reasons : list string
}.
End Classification.

Module Validation.
Record t := mk { ran : bool; command : option string; outcome : string; notes : option string }.
End Validation.

(** What the evidence records of the recovery that was chosen. *)
Module Recovery.
Record t := mk {
  classification : Classification.t;
  attempt : option Z;
  maxAttempts : option Z;
  action : string
}.
End Recovery.

(** [blockerKind] is whatever text the agent sent. *)
Module TaskEvidence.
Record t := mk {
  status : string;
  summary : string;
  changedFiles : list string;
  evidence : list string;
  validation : Validation.t;
  blockers : option (list string);
  blockerKind : option string;
  recovery : option Recovery.t
}.
End TaskEvidence.

Definition corpus (packet : TaskEvidence.t) : string :=
  toLowerCase (join newline (List.filter (λ s, negb (bool_decide (s = "")))
    ([TaskEvidence.summary packet] ++ default [] (TaskEvidence.blockers packet) ++
     TaskEvidence.evidence packet ++
     [default "" (Validation.notes (TaskEvidence.validation packet))]))).

(** ** Patterns *)

Definition INFRA_PATTERNS : list string :=
  ["\baborted\b";
   "error:\s*aborted";
   "tools?\s*\([^)]*\)\s*(are\s*)?(aborting|failing)";
   "read,\s*grep,\s*(and\s*)?shell";
   "no file contents could be retrieved";
   "could not run any commands";
   "environment tool failures";
   "worker\.log";
   "sandbox\s+(blocked|failed|crashed|error)";
   "stream disconnected";
   "sandbox worker exited";
   "codex exec exited";
   "sandbox child closed";
   "internal error";
   "keepalive";
   "retriableerror";
   "econnreset|etimedout|enotfound|eai_again";
   "socket hang up";
   "rate limit|429";
   "unknown exit status";
   "\b(?:node(?:\.js)?|npm|npx|pnpm|yarn):\s*(?:command\s+)?not found\b";
   "\bno\s+(?:node(?:\.js)?|npm|npx|pnpm|yarn)\s+executable\b.*\bpath\b";
   "\b(?:node(?:\.js)?|npm|npx|pnpm|yarn)\b.*\bexecutable\b.*\bnot found\b";
   "\b(?:could not|cannot|unable to)\s+(?:find|locate|run)\b.*\b(?:node(?:\.js)?|npm|npx|pnpm|yarn)\b";
   "report_task_result"].

Definition HUMAN_DEPENDENCY_PATTERNS : list string :=
  ["api[_ -]?key";
   "secret[_ -]?key";
   "credentials?";
   "not authenticated|authentication required";
   "agent login";
   "operator.*(provide|supply|configure)";
   "permission denied.*(outside|external|host)";
   "manual\s+intervention";
   "requires?\s+human";
   "blocked-by-(allowlist|denylist|policy)"].

Definition PREP_DEPENDENCY_PATTERNS : list string :=
  ["(?:file|module|path|directory).*(?:not found|missing|does not exist)";
   "enoent.*\.(ts|tsx|js|jsx|vue|json|md)";
   "cannot find module";
   "missing.*(?:file|module|i18n|key|reference|asset|image|script)";
   "no such file";
   "does not export";
   "key.*not.*defined.*i18n";
   "spriteextractor.*not found";
   "(?:env|environment).*(?:script|binary|tool).*(?:missing|not found)";
   "must be generated first|generate.*before"].

Definition IMPLEMENTATION_FAILURE_PATTERNS : list string :=
  ["test(?:s)?\s+(?:failed|failing|error)";
   "assertion(?:error)?";
   "expect(?:ed)?.*(?:received|to)";
   "type\s*error";
   "lint(?:er)?\s*(?:error|failed)";
   "compilation\s+failed";
   "build\s+failed";
   "validation.*failed";
   "implementation.*(?:incomplete|incorrect|broken)";
   "could not implement";
   "unable to complete.*implementation"].

(** The expressions of a list of sources; all of them are in the fragment, see
    [patterns_compile]. *)
Definition patterns (sources : list string) : list regex := omap compile sources.

Fixpoint matchAny (text : string) (ps : list regex) : option string :=
  match ps with
  | [] => None
  | p :: ps' => match exec p text with
                | Some m => Some m
                | None => matchAny text ps'
                end
  end.

(** A match counts when it is not the empty text. *)
Definition hit (text : string) (sources : list string) : option string :=
  match matchAny text (patterns sources) with
  | Some m => if bool_decide (m = "") then None else Some m
  | None => None
  end.

Definition classifyByPatterns (text status : string) : Classification.t :=
  match hit text INFRA_PATTERNS with
  | Some m => Classification.mk TaskBlockerKind.infra Source.classifier Confidence.high
                ["infra signal: " +:+ m]
  | None =>
  match hit text HUMAN_DEPENDENCY_PATTERNS with
  | Some m => Classification.mk TaskBlockerKind.dependency_human Source.classifier Confidence.high
                ["human dependency signal: " +:+ m]
  | None =>
  match hit text PREP_DEPENDENCY_PATTERNS with
  | Some m => Classification.mk TaskBlockerKind.dependency_prep Source.classifier Confidence.medium
                ["automatable dependency signal: " +:+ m]
  | None =>
  match hit text IMPLEMENTATION_FAILURE_PATTERNS with
  | Some m => Classification.mk TaskBlockerKind.implementation Source.classifier Confidence.high
                ["implementation failure signal: " +:+ m]
  | None =>
      if bool_decide (status = "failed") then
        Classification.mk TaskBlockerKind.implementation Source.classifier Confidence.medium
          ["task reported failed without infra or external dependency signals"]
      else
        Classification.mk TaskBlockerKind.decision Source.classifier Confidence.low
          ["blocked without recognizable infra or dependency pattern"]
  end end end end.

Definition parseAgentBlockerKind (packet : TaskEvidence.t) : option TaskBlockerKind.t :=
  raw ← TaskEvidence.blockerKind packet;
  List.find (λ k, bool_decide (TaskBlockerKind.to_string k = trim raw)) TaskBlockerKind.all.

Definition mergeWithAgentHint (inferred : Classification.t) (agentKind : option TaskBlockerKind.t) :
    Classification.t :=
  match agentKind with
  | None => inferred
  | Some ak =>
      let kind := Classification.kind inferred in
      let confidence := Classification.confidence inferred in
      let reasons := Classification.reasons inferred in
      let name := TaskBlockerKind.to_string ak in
      if bool_decide (kind = TaskBlockerKind.infra) && bool_decide (confidence = Confidence.high) &&
         (bool_decide (ak = TaskBlockerKind.dependency_human) ||
          bool_decide (ak = TaskBlockerKind.dependency_prep)) then
        Classification.mk TaskBlockerKind.infra Source.merged Confidence.high
          (reasons ++ ["agent reported " +:+ name +:+ " but infra signals dominate"])
      else if bool_decide (ak = kind) then
        Classification.mk kind Source.merged
          (if bool_decide (confidence = Confidence.low) then Confidence.medium else confidence)
          (reasons ++ ["agent blockerKind=" +:+ name])
      else if bool_decide (confidence = Confidence.low) then
        Classification.mk ak Source.agent Confidence.medium
          (("agent blockerKind=" +:+ name) :: reasons)
      else
        Classification.mk kind Source.merged confidence
          (reasons ++ ["agent blockerKind=" +:+ name +:+ " (kept classifier kind)"])
  end.

Definition classifyTaskOutcome (packet : TaskEvidence.t) : Classification.t :=
  mergeWithAgentHint (classifyByPatterns (corpus packet) (TaskEvidence.status packet))
    (parseAgentBlockerKind packet).
