(* ===== verification/TaskRecovery.v ===== *)
(** * Automatic recovery of tasks and verifications

    Models [src/server/legacy-control-plane/task-blocker/recovery.ts],
    [verification-recovery.ts], [verification-attempts.ts],
    [execution-recovery.ts] and the records of [src/shared/contracts/jobs.ts]
    they work on.  A counter map that is absent is the empty map. *)
From stdpp Require Import pretty.
From Stdlib Require Import Ascii.
From S2P Require Import Prelude Json JsString SavedPlan Gate RepairTasks TurnErrors Blocker.

#[local] Arguments bool_decide : simpl never.

(** ** Progress of a job *)

Module TaskProgressItem.
Record t := mk {
  id : string;
  title : string;
  status : string;
  abilityCode : option string;
  executionStatus : option string;
  evidenceStatus : option string;
  evidence : option TaskEvidence.t;
  errorMessage : option string;
  error : option TurnErrorDto.t;
  coreCode : option string
}.

(** [{ ...item, status, executionStatus, evidenceStatus, evidence, error, errorMessage }] *)
Definition set_outcome (st : string) (ex ev : option string) (e : option TaskEvidence.t)
    (err : option TurnErrorDto.t) (msg : option string) (i : t) : t :=
  mk (id i) (title i) st (abilityCode i) ex ev e msg err (coreCode i).
End TaskProgressItem.

(** [SliceVerificationRecordDto] *)
Module SliceRecord.
Record t := mk {
  status : string;
  confidence : string;
  summary : string;
  evidenceTrace : list TraceItem.t;
  satisfiedSignals : option (list string);
  missingSignals : option (list string)
}.
End SliceRecord.

Module TaskProgress.
Record t := mk {
  phase : string;
  status : string;
  currentIndex : nat;
  total : nat;
  currentTaskId : option string;
  progressCode : option string;
  progressParams : option TurnErrorParams;
  tasks : list TaskProgressItem.t;
  slices : list (slice_progress SliceRecord.t);
  milestones : list milestone_progress;
  repairGenerations : gmap string Z;
  verificationAttempts : gmap string Z;
  verificationBundleHashes : gmap string string
}.

Definition set_tasks (ts : list TaskProgressItem.t) (p : t) : t :=
  mk (phase p) (status p) (currentIndex p) (total p) (currentTaskId p) (progressCode p)
    (progressParams p) ts (slices p) (milestones p) (repairGenerations p)
    (verificationAttempts p) (verificationBundleHashes p).

Definition set_total (n : nat) (p : t) : t :=
  mk (phase p) (status p) (currentIndex p) n (currentTaskId p) (progressCode p)
    (progressParams p) (tasks p) (slices p) (milestones p) (repairGenerations p)
    (verificationAttempts p) (verificationBundleHashes p).

Definition set_generations (m : gmap string Z) (p : t) : t :=
  mk (phase p) (status p) (currentIndex p) (total p) (currentTaskId p) (progressCode p)
    (progressParams p) (tasks p) (slices p) (milestones p) m
    (verificationAttempts p) (verificationBundleHashes p).

Definition set_verification (ss : list (slice_progress SliceRecord.t))
    (ms : list milestone_progress) (p : t) : t :=
  mk (phase p) (status p) (currentIndex p) (total p) (currentTaskId p) (progressCode p)
    (progressParams p) (tasks p) ss ms (repairGenerations p)
    (verificationAttempts p) (verificationBundleHashes p).
End TaskProgress.

(** ** Counters *)

Definition generation (p : TaskProgress.t) (key : string) : Z :=
  default 0%Z (TaskProgress.repairGenerations p !! key).

Definition taskInfraAttempt (p : TaskProgress.t) (taskId : string) : Z :=
  generation p (taskInfraRetryGenerationKey taskId).
Definition taskPrepAttempt (p : TaskProgress.t) (taskId : string) : Z :=
  generation p (taskPrepGenerationKey taskId).
Definition taskRepairAttempt (p : TaskProgress.t) (taskId : string) : Z :=
  generation p (taskRepairGenerationKey taskId).

Definition withTaskRecoveryGeneration (key : string) (n : Z) (p : TaskProgress.t) : TaskProgress.t :=
  TaskProgress.set_generations (<[key := n]> (TaskProgress.repairGenerations p)) p.

(** ** What to do about a blocked task *)

Inductive recovery_step :=
| InfraRetry (attempt maxAttempts delayMs : Z)
| InjectPrep (attempt maxAttempts : Z)
| InjectRepair (attempt maxAttempts : Z)
| PauseHuman
| TerminalFail.

Record TaskRecoveryAction := mkRecoveryAction {
  ra_step : recovery_step;
  ra_error : TurnErrorDto.t;
  ra_classification : Classification.t
}.

Definition terminalFailure (taskId detail : string) : TurnErrorDto.t :=
  turnErrorDto "task.terminal_failure" (Some [("taskId", JStr taskId)]) (Some detail) None.

(** [error.detail ?? error.message] *)
Definition detail_of (e : TurnErrorDto.t) : string :=
  default (TurnErrorDto.message e) (TurnErrorDto.detail e).

(** A transport object is no instance of [TurnError] and no [Error]: where it is
    passed on as an error, it is a value whose text is this. *)
Definition dto_as_thrown (_ : TurnErrorDto.t) : thrown := ThrownValue "[object Object]".

Definition infra_retry_error (taskId : string) (attempt maxAttempts : Z) (detail : string) :
    TurnErrorDto.t :=
  turnErrorDto "task.infra_retry"
    (Some [("taskId", JStr taskId); ("attempt", JNum attempt); ("maxAttempts", JNum maxAttempts)])
    (Some detail) None.

Definition infra_exhausted_error (taskId : string) (maxAttempts : Z) (detail : string) :
    TurnErrorDto.t :=
  turnErrorDto "task.infra_retry_exhausted"
    (Some [("taskId", JStr taskId); ("maxAttempts", JNum maxAttempts)]) (Some detail) None.

Definition resolveInfraRetry (taskId : string) (p : TaskProgress.t) (error : TurnErrorDto.t)
    (c : Classification.t) : TaskRecoveryAction :=
  let nextAttempt := (taskInfraAttempt p taskId + 1)%Z in
  if bool_decide (MAX_INFRA_RETRIES < nextAttempt)%Z then
    mkRecoveryAction TerminalFail (infra_exhausted_error taskId MAX_INFRA_RETRIES (detail_of error)) c
  else
    mkRecoveryAction
      (InfraRetry nextAttempt MAX_INFRA_RETRIES (turnRetryDelayMs nextAttempt (dto_as_thrown error)))
      (infra_retry_error taskId nextAttempt MAX_INFRA_RETRIES (detail_of error)) c.

Definition resolveTaskRecoveryAction (packet : TaskEvidence.t) (taskId : string)
    (p : TaskProgress.t) : TaskRecoveryAction :=
  let c := classifyTaskOutcome packet in
  let detail := match TaskEvidence.blockers packet with
                | Some bs => join "; " bs
                | None => TaskEvidence.summary packet
                end in
  match Classification.kind c with
  | TaskBlockerKind.infra =>
      resolveInfraRetry taskId p (resolveTurnErrorDto (ThrownError detail)) c
  | TaskBlockerKind.dependency_prep =>
      let nextAttempt := (taskPrepAttempt p taskId + 1)%Z in
      if bool_decide (MAX_TASK_PREP_GENERATIONS < nextAttempt)%Z then
        mkRecoveryAction TerminalFail
          (terminalFailure taskId ("Dependency prep generations exhausted (" +:+
             pretty MAX_TASK_PREP_GENERATIONS +:+ "): " +:+ detail)) c
      else mkRecoveryAction (InjectPrep nextAttempt MAX_TASK_PREP_GENERATIONS)
             (terminalFailure taskId detail) c
  | TaskBlockerKind.implementation =>
      let nextAttempt := (taskRepairAttempt p taskId + 1)%Z in
      if bool_decide (MAX_TASK_REPAIR_GENERATIONS < nextAttempt)%Z then
        mkRecoveryAction TerminalFail
          (terminalFailure taskId ("Implementation repair generations exhausted (" +:+
             pretty MAX_TASK_REPAIR_GENERATIONS +:+ "): " +:+ detail)) c
      else mkRecoveryAction (InjectRepair nextAttempt MAX_TASK_REPAIR_GENERATIONS)
             (terminalFailure taskId detail) c
  | TaskBlockerKind.dependency_human =>
      mkRecoveryAction PauseHuman (terminalFailure taskId detail) c
  | TaskBlockerKind.decision =>
      mkRecoveryAction TerminalFail
        (terminalFailure taskId
           ("Task reported " +:+ TaskEvidence.status packet +:+ ": " +:+ detail)) c
  end.

Definition EVIDENCE_MISS_INFRA_CLASSIFICATION : Classification.t :=
  Classification.mk TaskBlockerKind.infra Source.classifier Confidence.high
    ["task-worker turn ended without report_task_result"].

(** [error] is [None] where the caller passes none. *)
Definition resolveTaskInfraRecovery (taskId : string) (p : TaskProgress.t) (message : string)
    (error : option thrown) : TaskRecoveryAction :=
  let turnError := resolveTurnErrorDto (default (ThrownError message) error) in
  let exhausted := match error with
                 | Some e => negb (isRetryableTurnError e) && negb (isTaskEvidenceMissError e) &&
                             negb (isInfraTurnError e)
                 | None => false
                 end in
  if exhausted then
    mkRecoveryAction TerminalFail (terminalFailure taskId (TurnErrorDto.message turnError))
      EVIDENCE_MISS_INFRA_CLASSIFICATION
  else resolveInfraRetry taskId p turnError EVIDENCE_MISS_INFRA_CLASSIFICATION.

Definition resolveEvidenceMissRecovery (taskId : string) (p : TaskProgress.t) (message : string) :
    TaskRecoveryAction :=
  resolveTaskInfraRecovery taskId p message None.

Definition applyTaskRecoveryGenerationForTask (taskId : string) (step : recovery_step)
    (p : TaskProgress.t) : TaskProgress.t :=
  match step with
  | InfraRetry attempt _ _ =>
      withTaskRecoveryGeneration (taskInfraRetryGenerationKey taskId) attempt p
  | InjectPrep attempt _ => withTaskRecoveryGeneration (taskPrepGenerationKey taskId) attempt p
  | InjectRepair attempt _ => withTaskRecoveryGeneration (taskRepairGenerationKey taskId) attempt p
  | PauseHuman | TerminalFail => p
  end.

(** ** Items of the progress *)

Definition enrichEvidence (packet : TaskEvidence.t) (c : Classification.t) (r : Recovery.t) :
    TaskEvidence.t :=
  TaskEvidence.mk (TaskEvidence.status packet) (TaskEvidence.summary packet)
    (TaskEvidence.changedFiles packet) (TaskEvidence.evidence packet)
    (TaskEvidence.validation packet) (TaskEvidence.blockers packet)
    (Some (TaskBlockerKind.to_string (Classification.kind c))) (Some r).

Definition map_item (taskId : string) (f : TaskProgressItem.t → TaskProgressItem.t)
    (items : list TaskProgressItem.t) : list TaskProgressItem.t :=
  map (λ item, if bool_decide (TaskProgressItem.id item = taskId) then f item else item) items.

(** A task that goes back to the queue, with the evidence and the error that
    say why. *)
Definition requeue_item (execution action : string) (taskId : string) (packet : TaskEvidence.t)
    (c : Classification.t) (attempt maxAttempts : Z) (error : TurnErrorDto.t) :
    list TaskProgressItem.t → list TaskProgressItem.t :=
  map_item taskId (TaskProgressItem.set_outcome "queued" (Some execution) None
    (Some (enrichEvidence packet c (Recovery.mk c (Some attempt) (Some maxAttempts) action)))
    (Some error) (turnErrorDisplayMessage error)).

Definition applyTaskInfraRetryItem (items : list TaskProgressItem.t) (taskId : string)
    (packet : TaskEvidence.t) (c : Classification.t) (attempt maxAttempts : Z) :
    list TaskProgressItem.t :=
  requeue_item "retry-queued" "infra-retry" taskId packet c attempt maxAttempts
    (infra_retry_error taskId attempt maxAttempts
       (default (TaskEvidence.summary packet) (hd_error (Classification.reasons c)))) items.

(** [packet.blockers?.[0] ?? packet.summary] *)
Definition first_blocker (packet : TaskEvidence.t) : string :=
  default (TaskEvidence.summary packet) (TaskEvidence.blockers packet ≫= hd_error).

Definition applyTaskPrepRecoveryItem (items : list TaskProgressItem.t) (taskId : string)
    (packet : TaskEvidence.t) (c : Classification.t) (attempt maxAttempts : Z) :
    list TaskProgressItem.t :=
  requeue_item "waiting-on-dependency" "inject-prep" taskId packet c attempt maxAttempts
    (terminalFailure taskId (first_blocker packet)) items.

Definition applyTaskRepairRecoveryItem (items : list TaskProgressItem.t) (taskId : string)
    (packet : TaskEvidence.t) (c : Classification.t) (attempt maxAttempts : Z) :
    list TaskProgressItem.t :=
  requeue_item "waiting-on-repair" "inject-repair" taskId packet c attempt maxAttempts
    (terminalFailure taskId (first_blocker packet)) items.

Definition applyTaskTerminalFailureItem (items : list TaskProgressItem.t) (taskId : string)
    (packet : TaskEvidence.t) (c : Classification.t) (error : TurnErrorDto.t) :
    list TaskProgressItem.t :=
  map_item taskId (TaskProgressItem.set_outcome "failed" (Some (TaskEvidence.status packet))
    (Some "basic-facts-ok")
    (Some (enrichEvidence packet c (Recovery.mk c None None "terminal-fail")))
    (Some error) (turnErrorDisplayMessage error)) items.

Definition syntheticInfraPacket (taskId detail : string) : TaskEvidence.t :=
  TaskEvidence.mk "blocked" detail [] [detail] (Validation.mk false None "skipped" None)
    (Some [taskId +:+ ": " +:+ detail]) (Some "infra") None.

Definition applyEvidenceMissInfraRetryItem (items : list TaskProgressItem.t)
    (taskId message : string) (c : Classification.t) (attempt maxAttempts : Z) :
    list TaskProgressItem.t :=
  applyTaskInfraRetryItem items taskId (syntheticInfraPacket taskId message) c attempt maxAttempts.

Inductive recovery_scope := ScopeInfra | ScopePrep | ScopeRepair.

#[global] Instance recovery_scope_eq_dec : EqDecision recovery_scope.
Proof. solve_decision. Defined.

Definition resetTaskRecoveryCounters (taskId : string) (scopes : list recovery_scope)
    (p : TaskProgress.t) : TaskProgress.t :=
  let drop scope key (m : gmap string Z) := if bool_decide (scope ∈ scopes) then delete key m else m in
  TaskProgress.set_generations
    (drop ScopeRepair (taskRepairGenerationKey taskId)
       (drop ScopePrep (taskPrepGenerationKey taskId)
          (drop ScopeInfra (taskInfraRetryGenerationKey taskId)
             (TaskProgress.repairGenerations p)))) p.

Definition resetTaskItemForManualRetry (items : list TaskProgressItem.t) (taskId : string) :
    list TaskProgressItem.t :=
  map_item taskId (TaskProgressItem.set_outcome "queued" (Some "queued") None None None None) items.

Definition injectPrepTasksForRecovery (blockedTaskId : string) (packet : TaskEvidence.t)
    (attempt : Z) : planM (list string) :=
  pl_bind (injectTaskDependencyPrepTask (mkBlocked blockedTaskId (TaskEvidence.summary packet)
             (default [TaskEvidence.summary packet] (TaskEvidence.blockers packet)) attempt))
    (λ r, pl_ret (ri_newTaskIds r)).

Definition injectRepairTasksForRecovery (blockedTaskId : string) (packet : TaskEvidence.t)
    (attempt : Z) : planM (list string) :=
  pl_bind (injectTaskImplementationRepairTask (mkBlocked blockedTaskId (TaskEvidence.summary packet)
             (default [TaskEvidence.summary packet] (TaskEvidence.blockers packet)) attempt))
    (λ r, pl_ret (ri_newTaskIds r)).

(** ** Recovery of a verifier ([verification-recovery.ts]) *)

Definition verifierInfraAttempt (p : TaskProgress.t) (scope id : string) : Z :=
  generation p (verifierInfraRetryGenerationKey scope id).

Definition withVerifierInfraAttempt (scope id : string) (attempt : Z) (p : TaskProgress.t) :
    TaskProgress.t :=
  withTaskRecoveryGeneration (verifierInfraRetryGenerationKey scope id) attempt p.

Inductive VerifierInfraRecovery :=
| VerifierRetry (error : TurnErrorDto.t) (attempt maxAttempts delayMs : Z)
| VerifierFail (error : TurnErrorDto.t).

Definition resolveVerifierInfraRecovery (scope id : string) (p : TaskProgress.t) (message : string)
    (error : option thrown) : VerifierInfraRecovery :=
  let turnError := resolveTurnErrorDto (default (ThrownError message) error) in
  let verifierMiss :=
    bool_decide (TurnErrorDto.code turnError = "task.verifier_evidence_timeout") ||
    match error with None => isVerifierToolMissMessage message | Some _ => false end in
  let infraEligible :=
    match error with
    | None => true
    | Some e => verifierMiss || isRetryableTurnError e || isInfraTurnError e
    end in
  if negb infraEligible then VerifierFail (terminalFailure id (detail_of turnError))
  else
    let nextAttempt := (verifierInfraAttempt p scope id + 1)%Z in
    if bool_decide (MAX_VERIFIER_INFRA_RETRIES < nextAttempt)%Z then
      VerifierFail (infra_exhausted_error id MAX_VERIFIER_INFRA_RETRIES (detail_of turnError))
    else
      VerifierRetry (infra_retry_error id nextAttempt MAX_VERIFIER_INFRA_RETRIES (detail_of turnError))
        nextAttempt MAX_VERIFIER_INFRA_RETRIES
        (turnRetryDelayMs nextAttempt (default (dto_as_thrown turnError) error)).

Definition resetVerifierInfraCounter (scope id : string) (p : TaskProgress.t) : TaskProgress.t :=
  TaskProgress.set_generations
    (delete (verifierInfraRetryGenerationKey scope id) (TaskProgress.repairGenerations p)) p.

(** ** Attempts at a verification ([verification-attempts.ts]) *)

Definition MAX_VERIFICATION_ATTEMPTS : Z := 3.

Definition verificationAttemptKey (scope id : string) : string :=
  "verification:" +:+ scope +:+ ":" +:+ id.

Definition verificationAttemptCount (p : TaskProgress.t) (scope id : string) : Z :=
  default 0%Z (TaskProgress.verificationAttempts p !! verificationAttemptKey scope id).

Definition lastVerificationBundleHash (p : TaskProgress.t) (scope id : string) : option string :=
  TaskProgress.verificationBundleHashes p !! verificationAttemptKey scope id.

Definition withVerificationAttempt (scope id : string) (attempt : Z) (bundleHash : string)
    (p : TaskProgress.t) : TaskProgress.t :=
  let key := verificationAttemptKey scope id in
  TaskProgress.mk (TaskProgress.phase p) (TaskProgress.status p) (TaskProgress.currentIndex p)
    (TaskProgress.total p) (TaskProgress.currentTaskId p) (TaskProgress.progressCode p)
    (TaskProgress.progressParams p) (TaskProgress.tasks p) (TaskProgress.slices p)
    (TaskProgress.milestones p) (TaskProgress.repairGenerations p)
    (<[key := attempt]> (TaskProgress.verificationAttempts p))
    (<[key := bundleHash]> (TaskProgress.verificationBundleHashes p)).

Inductive guard_result :=
| GuardOk
| GuardMaxAttempts (progressCode : string)
| GuardUnchangedEvidence (progressCode : string).

Definition guardVerificationAttempt (p : TaskProgress.t) (scope id bundleHash : string) : guard_result :=
  let attempts := verificationAttemptCount p scope id in
  if bool_decide (MAX_VERIFICATION_ATTEMPTS ≤ attempts)%Z then
    GuardMaxAttempts (if bool_decide (scope = "slice") then "execution.slice_inconclusive_exhausted"
                      else "execution.milestone_inconclusive_exhausted")
  else if bool_decide (0 < attempts)%Z &&
          bool_decide (lastVerificationBundleHash p scope id = Some bundleHash) then
    GuardUnchangedEvidence (if bool_decide (scope = "slice") then "execution.slice_blocked"
                            else "execution.milestone_blocked")
  else GuardOk.

(** ** Interrupted executions ([execution-recovery.ts]) *)

Definition is_running_item (t : TaskProgressItem.t) : bool :=
  bool_decide (TaskProgressItem.status t = "running") ||
  bool_decide (TaskProgressItem.executionStatus t = Some "running").

Definition findInterruptedTaskId (p : TaskProgress.t) : option string :=
  if truthy (TaskProgress.currentTaskId p) then TaskProgress.currentTaskId p
  else TaskProgressItem.id <$> List.find is_running_item (TaskProgress.tasks p).

Definition shouldMarkTaskFailedOnJobFailure (t : TaskProgressItem.t) : bool :=
  let st := TaskProgressItem.status t in
  let ex := TaskProgressItem.executionStatus t in
  if bool_decide (st = "completed") || bool_decide (st = "skipped") then false
  else if bool_decide (st = "failed") && negb (bool_decide (ex = Some "running")) then false
  else bool_decide (st = "running") || bool_decide (ex = Some "running") ||
       bool_decide (ex = Some "retry-queued").

Definition syncTaskProgressForJobFailure (p : TaskProgress.t) (error : thrown) : TaskProgress.t :=
  let turnError := normalizeTurnError error in
  let taskId := findInterruptedTaskId p in
  let mark t :=
    match taskId with
    | Some id =>
        if bool_decide (TaskProgressItem.id t = id) && negb (bool_decide (id = "")) &&
           shouldMarkTaskFailedOnJobFailure t
        then TaskProgressItem.set_outcome "failed" (Some "failed") (TaskProgressItem.evidenceStatus t)
               (TaskProgressItem.evidence t) (Some turnError) (turnErrorDisplayMessage turnError) t
        else t
    | None => t
    end in
  TaskProgress.mk "failed" "failed" (TaskProgress.currentIndex p) (TaskProgress.total p) None
    (Some "execution.failed")
    (match TurnErrorDto.params turnError with
     | Some ps => Some ps
     | None => if truthy taskId then Some [("id", JStr (default "" taskId))] else None
     end)
    (map mark (TaskProgress.tasks p)) (TaskProgress.slices p) (TaskProgress.milestones p)
    (TaskProgress.repairGenerations p) (TaskProgress.verificationAttempts p)
    (TaskProgress.verificationBundleHashes p).

Definition reset_running_item (t : TaskProgressItem.t) : TaskProgressItem.t :=
  if bool_decide (TaskProgressItem.status t = "running")
  then TaskProgressItem.set_outcome "queued" (Some "queued") (TaskProgressItem.evidenceStatus t)
         (TaskProgressItem.evidence t) (TaskProgressItem.error t) None t
  else t.

(** The flag says whether anything changed. *)
Definition resetInterruptedRunningTasks (items : list TaskProgressItem.t) :
    bool * list TaskProgressItem.t :=
  (existsb (λ t, bool_decide (TaskProgressItem.status t = "running")) items,
   map reset_running_item items).

Definition reset_verifying (o : option string) : option string :=
  if bool_decide (o = Some "verifying") then Some "ready-for-verification" else o.

Definition reset_slice_row (s : slice_progress SliceRecord.t) : slice_progress SliceRecord.t :=
  mkSliceProgress (sp_id s) (reset_verifying (sp_runtimeStatus s)) (sp_verificationStatus s)
    (sp_verdict s).

Definition reset_milestone_row (m : milestone_progress) : milestone_progress :=
  mkMilestoneProgress (mp_id m) (reset_verifying (mp_verificationStatus m)).

Definition resetInterruptedVerificationInProgress (p : TaskProgress.t) : bool * TaskProgress.t :=
  (existsb (λ s, bool_decide (sp_runtimeStatus s = Some "verifying")) (TaskProgress.slices p) ||
   existsb (λ m, bool_decide (mp_verificationStatus m = Some "verifying")) (TaskProgress.milestones p),
   TaskProgress.set_verification (map reset_slice_row (TaskProgress.slices p))
     (map reset_milestone_row (TaskProgress.milestones p)) p).

Definition resetInterruptedGateVerification (g : gate) : bool * gate :=
  (existsb (λ s, bool_decide (GateSliceState.runtimeStatus s = Some "verifying")) (slices g) ||
   existsb (λ m, bool_decide (GateMilestoneState.verificationStatus m = Some "verifying")) (milestones g),
   mkGate
     (map (λ s, GateSliceState.set_runtimeStatus (reset_verifying (GateSliceState.runtimeStatus s)) s)
        (slices g))
     (tasks g)
     (map (λ m, GateMilestoneState.set_verificationStatus
                  (reset_verifying (GateMilestoneState.verificationStatus m)) m) (milestones g))).

Definition clear_running_slice (s : slice_progress SliceRecord.t) : slice_progress SliceRecord.t :=
  if bool_decide (sp_runtimeStatus s = Some "running")
  then mkSliceProgress (sp_id s) None (sp_verificationStatus s) (sp_verdict s) else s.

Definition prepareInterruptedExecutionResume (p : TaskProgress.t) : bool * TaskProgress.t :=
  let interrupted := findInterruptedTaskId p in
  let current := match TaskProgress.currentTaskId p with Some c => Some c | None => interrupted end in
  let '(tasksRecovered, ts) := resetInterruptedRunningTasks (TaskProgress.tasks p) in
  let '(verifyRecovered, p1) := resetInterruptedVerificationInProgress (TaskProgress.set_tasks ts p) in
  let sliceCleared :=
    existsb (λ s, bool_decide (sp_runtimeStatus s = Some "running")) (TaskProgress.slices p1) in
  (tasksRecovered || verifyRecovered || sliceCleared,
   TaskProgress.mk (TaskProgress.phase p) (TaskProgress.status p) (TaskProgress.currentIndex p)
     (TaskProgress.total p) current (TaskProgress.progressCode p) (TaskProgress.progressParams p)
     (TaskProgress.tasks p1) (map clear_running_slice (TaskProgress.slices p1))
     (TaskProgress.milestones p1) (TaskProgress.repairGenerations p)
     (TaskProgress.verificationAttempts p) (TaskProgress.verificationBundleHashes p)).

Definition pausingAttemptKey (jobId : string) : string := "pausing:" +:+ jobId.

Definition readPausingAttempt (p : TaskProgress.t) (jobId : string) : Z :=
  generation p (pausingAttemptKey jobId).

Definition withPausingAttempt (jobId : string) (attempt : Z) (p : TaskProgress.t) : TaskProgress.t :=
  withTaskRecoveryGeneration (pausingAttemptKey jobId) attempt p.

Inductive StaleExecutionJobAction := Noop | FinalizeUserPause | ResumeRunning.

Definition resolveStaleExecutionJobAction (status : string) : StaleExecutionJobAction :=
  if bool_decide (status = "pausing") then FinalizeUserPause
  else if bool_decide (status = "paused") then Noop
  else if bool_decide (status = "running") then ResumeRunning
  else Noop.

(** ** The executor's use of them ([executor.ts]) *)

Definition updateTaskItem := map_item.

Definition upsertSliceVerdict (rows : list (slice_progress SliceRecord.t)) (sliceId : string)
    (verdict : SliceRecord.t) : list (slice_progress SliceRecord.t) :=
  if existsb (λ r, bool_decide (sp_id r = sliceId)) rows then
    update_first (λ r, bool_decide (sp_id r = sliceId))
      (λ r, mkSliceProgress (sp_id r) (sp_runtimeStatus r) (sp_verificationStatus r) (Some verdict))
      rows
  else rows ++ [mkSliceProgress sliceId None None (Some verdict)].

Definition applyTaskEvidenceResult (items : list TaskProgressItem.t) (taskId : string)
    (packet : TaskEvidence.t) : list TaskProgressItem.t :=
  if bool_decide (TaskEvidence.status packet = "completed") then
    updateTaskItem taskId (λ i,
      TaskProgressItem.set_outcome "completed" (Some "completed")
        (Some TASK_EVIDENCE_BASIC_FACTS_OK) (Some packet) (TaskProgressItem.error i) None i) items
  else
    let message := "Task reported " +:+ TaskEvidence.status packet +:+
      match TaskEvidence.blockers packet with
      | Some (b :: bs) => ": " +:+ join "; " (b :: bs)
      | _ => ""
      end in
    updateTaskItem taskId (λ i,
      TaskProgressItem.set_outcome "failed" (Some (TaskEvidence.status packet))
        (Some TASK_EVIDENCE_BASIC_FACTS_OK) (Some packet) (TaskProgressItem.error i) (Some message) i)
      items.

Definition countCompleted (items : list TaskProgressItem.t) : nat :=
  length (List.filter (λ i, bool_decide (TaskProgressItem.status i = "completed") ||
                            bool_decide (TaskProgressItem.status i = "skipped")) items).

Definition repairGeneration (p : TaskProgress.t) (scope id : string) : Z :=
  generation p (repairGenerationKey scope id).

Definition withRepairGeneration (scope id : string) (n : Z) (p : TaskProgress.t) : TaskProgress.t :=
  withTaskRecoveryGeneration (repairGenerationKey scope id) n p.

Definition resetSliceVerificationState (sliceId : string) (g : gate) : gate :=
  set_slices (update_first (λ s, bool_decide (GateSliceState.id s = sliceId))
    (λ s, GateSliceState.set_status "pending"
            (GateSliceState.set_verificationStatus None (GateSliceState.set_runtimeStatus None s)))
    (slices g)) g.

Definition appendQueuedRepairItems (plan : SavedJobPlan.t) (items : list TaskProgressItem.t)
    (newTaskIds : list string) : list TaskProgressItem.t :=
  foldl (λ next taskId,
    if existsb (λ i, bool_decide (TaskProgressItem.id i = taskId)) next then next
    else match findFlatTask plan taskId with
         | None => next
         | Some flat =>
             next ++ [TaskProgressItem.mk (FlatTaskPlan.id flat) (FlatTaskPlan.title flat) "queued"
                        (Some (FlatTaskPlan.abilityCode flat)) (Some "queued") None None None None None]
         end) items newTaskIds.

Definition progress_of_item (i : TaskProgressItem.t) : progress_item :=
  mkProgressItem (TaskProgressItem.id i) (TaskProgressItem.status i)
    (TaskProgressItem.executionStatus i) (TaskProgressItem.evidenceStatus i).

Definition saved_verification (p : TaskProgress.t) : verification_progress SliceRecord.t :=
  mkVerificationProgress (TaskProgress.slices p) [].

Definition rebuildGatePreservingVerification (plan : SavedJobPlan.t) (priorGate : gate)
    (p : TaskProgress.t) (items : list TaskProgressItem.t) : gate :=
  let preserved := exportVerificationProgress priorGate (Some (saved_verification p)) in
  applyTaskProgressToGate (map progress_of_item items)
    (applyVerificationProgress (Some preserved) (buildGateStates plan)).

Definition mergeVerificationProgress (p : TaskProgress.t) (g : gate) : TaskProgress.t :=
  let v := exportVerificationProgress g (Some (saved_verification p)) in
  TaskProgress.set_verification (vp_slices v) (vp_milestones v) p.

Definition reconcile_gate (g : gate) : gate :=
  reconcileMilestoneStatuses (reconcileSliceStatuses g).

Inductive ExecuteSingleTaskResult :=
| TaskCompleted (items : list TaskProgressItem.t)
| TaskRecovered (items : list TaskProgressItem.t) (progressCode : string) (progressParams : TurnErrorParams)
    (p : TaskProgress.t) (g : gate) (delayMs : option Z)
| TaskPaused (items : list TaskProgressItem.t) (lastError : TurnErrorDto.t) (p : TaskProgress.t)
| TaskInterrupted (items : list TaskProgressItem.t)
| TaskFailed (items : list TaskProgressItem.t) (lastError : TurnErrorDto.t).

Definition attempt_progress (id : string) (attempt maxAttempts : Z) : TurnErrorParams :=
  [("id", JStr id); ("attempt", JNum attempt); ("maxAttempts", JNum maxAttempts)].
Definition count_progress (id : string) (n : nat) : TurnErrorParams :=
  [("id", JStr id); ("count", JNum (Z.of_nat n))].
Definition limit_progress (id : string) (maxAttempts : Z) : TurnErrorParams :=
  [("id", JStr id); ("maxAttempts", JNum maxAttempts)].

(** A task goes back to the queue: the counter is raised and the gate is built
    anew from the plan. *)
Definition recovered (taskId : string) (step : recovery_step) (code : string)
    (params : TurnErrorParams) (delay : option Z) (keep_total : bool) (g : gate) (p : TaskProgress.t)
    (items : list TaskProgressItem.t) : planM ExecuteSingleTaskResult :=
  pl_bind pl_get (λ plan,
    let p1 := applyTaskRecoveryGenerationForTask taskId step (TaskProgress.set_tasks items p) in
    let p2 := if keep_total then p1 else TaskProgress.set_total (length items) p1 in
    pl_ret (TaskRecovered items code params p2
              (reconcile_gate (rebuildGatePreservingVerification plan g p1 items)) delay)).

(** [processTaskEvidenceOutcome]; the plan is the object of [planM]. *)
Definition processTaskEvidenceOutcome (items : list TaskProgressItem.t) (taskId : string)
    (packet : TaskEvidence.t) (p : TaskProgress.t) (g : gate) : planM ExecuteSingleTaskResult :=
  if bool_decide (TaskEvidence.status packet = "completed") then
    pl_ret (TaskCompleted (applyTaskEvidenceResult items taskId packet))
  else
    let recovery := resolveTaskRecoveryAction packet taskId p in
    let c := ra_classification recovery in
    match ra_step recovery with
    | InfraRetry attempt maxAttempts delay =>
        recovered taskId (ra_step recovery) "execution.recovery_infra_retry"
          (attempt_progress taskId attempt maxAttempts) (Some delay) true g p
          (applyTaskInfraRetryItem items taskId packet c attempt maxAttempts)
    | InjectPrep attempt maxAttempts =>
        pl_bind (injectPrepTasksForRecovery taskId packet attempt) (λ ids,
        pl_bind pl_get (λ plan,
          recovered taskId (ra_step recovery) "execution.recovery_prep_injected"
            (count_progress taskId (length ids)) None false g p
            (applyTaskPrepRecoveryItem (appendQueuedRepairItems plan items ids) taskId packet c
               attempt maxAttempts)))
    | InjectRepair attempt maxAttempts =>
        pl_bind (injectRepairTasksForRecovery taskId packet attempt) (λ ids,
        pl_bind pl_get (λ plan,
          recovered taskId (ra_step recovery) "execution.recovery_repair_injected"
            (count_progress taskId (length ids)) None false g p
            (applyTaskRepairRecoveryItem (appendQueuedRepairItems plan items ids) taskId packet c
               attempt maxAttempts)))
    | PauseHuman =>
        let items' := applyTaskTerminalFailureItem items taskId packet c (ra_error recovery) in
        pl_ret (TaskPaused items' (ra_error recovery) (TaskProgress.set_tasks items' p))
    | TerminalFail =>
        pl_ret (TaskFailed (applyTaskTerminalFailureItem items taskId packet c (ra_error recovery))
                  (ra_error recovery))
    end.

(** ** Repairs the verifiers ask for *)

(** What [persistPlanAndProgress] writes beside the plan. *)
Definition persisted_progress (p : TaskProgress.t) (g : gate) : TaskProgress.t :=
  TaskProgress.set_total (length (TaskProgress.tasks p)) (mergeVerificationProgress p g).

Inductive repair_outcome :=
| RepairOk (items : list TaskProgressItem.t) (p : TaskProgress.t) (g : gate)
    (persisted : TaskProgress.t)
| RepairRefused (progressCode : string) (progressParams : TurnErrorParams).

(** The progress of a job that goes on after an injection. *)
Definition running_again (code : string) (params : TurnErrorParams)
    (items : list TaskProgressItem.t) (p : TaskProgress.t) : TaskProgress.t :=
  TaskProgress.mk "running" "running" (countCompleted items) (length items) None (Some code)
    (Some params) items (TaskProgress.slices p) (TaskProgress.milestones p)
    (TaskProgress.repairGenerations p) (TaskProgress.verificationAttempts p)
    (TaskProgress.verificationBundleHashes p).

Definition handleSliceNeedsRepair (sliceId : string) (verdict : SliceVerdict.t)
    (items : list TaskProgressItem.t) (p : TaskProgress.t) (g : gate) : planM repair_outcome :=
  let n := (repairGeneration p "slice" sliceId + 1)%Z in
  if bool_decide (MAX_REPAIR_GENERATIONS < n)%Z then
    pl_ret (RepairRefused "execution.slice_inconclusive_exhausted" (limit_progress sliceId MAX_REPAIR_GENERATIONS))
  else
    pl_bind (injectSliceRepairTasks sliceId verdict n (Some DEFAULT_MAX_REPAIR_TASKS_PER_VERDICT))
      (λ injection,
    if bool_decide (ri_created injection = 0) then pl_ret (RepairRefused "execution.slice_blocked" [("id", JStr sliceId)])
    else pl_bind pl_get (λ plan,
      let items' := appendQueuedRepairItems plan items (ri_newTaskIds injection) in
      let g' := reconcile_gate (resetSliceVerificationState sliceId
                  (rebuildGatePreservingVerification plan g p items')) in
      let p' := withRepairGeneration "slice" sliceId n
                  (mergeVerificationProgress
                     (running_again "execution.recovery_repair_injected"
                        [("id", JStr sliceId); ("count", JNum (Z.of_nat (ri_created injection)))]
                        items' p) g') in
      pl_ret (RepairOk items' p' g' (persisted_progress p' g')))).

(** The slices of the new tasks, in the order of a [Set]. *)
Definition affected_slices (plan : SavedJobPlan.t) (ids : list string) : list string :=
  js_unique [] (omap (λ id, (λ f, slice_id (FlatTaskPlan.milestoneIndex f) (FlatTaskPlan.sliceIndex f))
                              <$> findFlatTask plan id) ids).

(** [milestone.verificationStatus = null; milestone.status = 'pending'] *)
Definition reset_milestone (milestoneId : string) (g : gate) : gate :=
  set_milestones (update_first (λ m, bool_decide (GateMilestoneState.id m = milestoneId))
    (λ m, GateMilestoneState.set_status "pending"
            (GateMilestoneState.set_verificationStatus None m)) (milestones g)) g.

Definition reset_for_milestone (plan : SavedJobPlan.t) (milestoneId : string) (ids : list string)
    (g : gate) : gate :=
  reconcile_gate (reset_milestone milestoneId
    (foldl (λ g sliceId, resetSliceVerificationState sliceId g) g (affected_slices plan ids))).

Definition handleMilestoneNeedsRepair (milestoneId : string) (verdict : MilestoneVerdict.t)
    (items : list TaskProgressItem.t) (p : TaskProgress.t) (g : gate) : planM repair_outcome :=
  let n := (repairGeneration p "milestone" milestoneId + 1)%Z in
  if bool_decide (MAX_REPAIR_GENERATIONS < n)%Z then
    pl_ret (RepairRefused "execution.milestone_inconclusive_exhausted"
              (limit_progress milestoneId MAX_REPAIR_GENERATIONS))
  else
    pl_bind (injectMilestoneRepairTasks milestoneId verdict n
               (Some DEFAULT_MAX_REPAIR_TASKS_PER_VERDICT)) (λ injection,
    if bool_decide (ri_created injection = 0) then pl_ret (RepairRefused "execution.milestone_blocked" [("id", JStr milestoneId)])
    else pl_bind pl_get (λ plan,
      let items' := appendQueuedRepairItems plan items (ri_newTaskIds injection) in
      let g' := reset_for_milestone plan milestoneId (ri_newTaskIds injection)
                  (rebuildGatePreservingVerification plan g p items') in
      let p' := withRepairGeneration "milestone" milestoneId n
                  (mergeVerificationProgress
                     (running_again "execution.recovery_repair_injected"
                        [("id", JStr milestoneId); ("count", JNum (Z.of_nat (ri_created injection)))]
                        items' p) g') in
      pl_ret (RepairOk items' p' g' (persisted_progress p' g')))).

Definition evidence_params (id : string) (attempt : Z) : TurnErrorParams :=
  [("id", JStr id); ("attempt", JNum attempt); ("maxAttempts", JNum MAX_VERIFICATION_ATTEMPTS)].

Definition handleSliceEvidenceRepair (sliceId reason : string) (attempt : Z) (bundleHash : string)
    (items : list TaskProgressItem.t) (p : TaskProgress.t) (g : gate) : planM repair_outcome :=
  pl_bind (injectSliceEvidenceRepairTask sliceId reason attempt MAX_VERIFICATION_ATTEMPTS)
    (λ injection, pl_bind pl_get (λ plan,
    let items' := appendQueuedRepairItems plan items (ri_newTaskIds injection) in
    let g' := reconcile_gate (resetSliceVerificationState sliceId
                (rebuildGatePreservingVerification plan g p items')) in
    let p' := withVerificationAttempt "slice" sliceId attempt bundleHash
                (mergeVerificationProgress
                   (running_again "execution.recovery_prep_injected" (evidence_params sliceId attempt)
                      items' p) g') in
    pl_ret (RepairOk items' p' g' (persisted_progress p' g')))).

Definition handleMilestoneEvidenceRepair (milestoneId reason : string) (attempt : Z)
    (bundleHash : string) (items : list TaskProgressItem.t) (p : TaskProgress.t) (g : gate) :
    planM repair_outcome :=
  pl_bind (injectMilestoneEvidenceRepairTask milestoneId reason attempt MAX_VERIFICATION_ATTEMPTS)
    (λ injection, pl_bind pl_get (λ plan,
    let items' := appendQueuedRepairItems plan items (ri_newTaskIds injection) in
    let g' := reset_for_milestone plan milestoneId (ri_newTaskIds injection)
                (rebuildGatePreservingVerification plan g p items') in
    let p' := withVerificationAttempt "milestone" milestoneId attempt bundleHash
                (mergeVerificationProgress
                   (running_again "execution.recovery_prep_injected"
                      (evidence_params milestoneId attempt) items' p) g') in
    pl_ret (RepairOk items' p' g' (persisted_progress p' g')))).

(** ** A turn that ended without a report *)

Definition buildTaskInfraRecoveryResult (items : list TaskProgressItem.t) (taskId : string)
    (p : TaskProgress.t) (g : gate) (message : string) (error : option thrown) :
    planM ExecuteSingleTaskResult :=
  let recovery := resolveTaskInfraRecovery taskId p message error in
  match ra_step recovery with
  | InfraRetry attempt maxAttempts delay =>
      recovered taskId (ra_step recovery) "execution.recovery_infra_retry"
          (attempt_progress taskId attempt maxAttempts) (Some delay) true g p
        (applyEvidenceMissInfraRetryItem items taskId message (ra_classification recovery) attempt
           maxAttempts)
  | _ =>
      pl_ret (TaskFailed
        (updateTaskItem taskId (λ i,
           TaskProgressItem.set_outcome "failed" (Some "failed") (Some "not-submitted")
             (TaskProgressItem.evidence i) (Some (ra_error recovery))
             (turnErrorDisplayMessage (ra_error recovery)) i) items)
        (ra_error recovery))
  end.
