(* ===== verification/RecoverySpecs.v ===== *)
(** * Classification and automatic recovery

    Which signals decide the kind of a blocked task, what a recovery of a task
    does to its counters, and what a restart leaves of an interrupted
    execution. *)
From stdpp Require Import pretty.
From Stdlib Require Import Ascii.
From S2P Require Import Prelude Json JsString Sql SavedPlan Gate RepairTasks RepairSpecs TurnErrors Regex Blocker TaskRecovery.

#[local] Arguments bool_decide : simpl never.
#[local] Arguments Z.add : simpl never.

(** ** Patterns *)

Definition ALL_PATTERNS : list string :=
  INFRA_PATTERNS ++ HUMAN_DEPENDENCY_PATTERNS ++ PREP_DEPENDENCY_PATTERNS ++
  IMPLEMENTATION_FAILURE_PATTERNS.

(** An expression that can match the empty text. *)
Fixpoint nullable (r : regex) : bool :=
  match r with
  | Eps | WordB | Star _ => true
  | Chr _ => false
  | Seq r1 r2 => nullable r1 && nullable r2
  | Alt r1 r2 => nullable r1 || nullable r2
  end.

Lemma matches_length r p s p' s' :
  matches r p s p' s' →
  String.length s' ≤ String.length s ∧ (nullable r = false → String.length s' < String.length s).
Proof.
  induction 1; cbn; try (split; [lia|done]).
  - split; [lia|]. lia.
  - destruct IHmatches1 as [? L1], IHmatches2 as [? L2]. split; [lia|].
    intros [?|?]%andb_false_iff; [specialize (L1 ltac:(done))|specialize (L2 ltac:(done))]; lia.
  - destruct IHmatches as [? L1]. split; [lia|]. intros [? ?]%orb_false_elim. auto.
  - destruct IHmatches as [? L1]. split; [lia|]. intros [? ?]%orb_false_elim. auto.
Qed.

(** All patterns are in the fragment of [compile], and none matches the empty
    text. *)
Lemma patterns_compile :
  forallb (λ src, match compile src with Some r => negb (nullable r) | None => false end)
    ALL_PATTERNS = true.
Proof. vm_compute. reflexivity. Qed.

Lemma pattern_not_nullable sources r :
  (∀ src, src ∈ sources → src ∈ ALL_PATTERNS) → r ∈ patterns sources → nullable r = false.
Proof.
  intros Hsub (src & Hsrc & Hc)%list_elem_of_omap. pose proof patterns_compile as H.
  rewrite forallb_forall in H. specialize (H src). rewrite <-list_elem_of_In, Hc in H.
  apply negb_true_iff, H, Hsub, Hsrc.
Qed.

Lemma exec_from_nonempty r p s m : nullable r = false → exec_from r p s = Some m → m ≠ "".
Proof.
  intros Hr. revert p. induction s as [|c s IH]; intros p H; cbn [exec_from] in H;
    destruct (run r p _ _) as [rest|] eqn:E; try done; [..|by eapply IH];
    apply run_sound in E as (p' & s' & [_ Hl]%matches_length & [= ->]);
    specialize (Hl Hr); cbn in Hl; [lia|].
  injection H as <-. cbn [String.length].
  destruct (S (String.length s) - String.length rest) eqn:Hd; [lia|done].
Qed.

(** Some expression of the list matches somewhere in the text. *)
Definition signal (sources : list string) (text : string) : Prop :=
  ∃ r, r ∈ patterns sources ∧ occurs r text.

Lemma matchAny_iff text ps : matchAny text ps ≠ None ↔ ∃ r, r ∈ ps ∧ occurs r text.
Proof.
  induction ps as [|r ps IH]; cbn.
  - split; [done|]. by intros (r & ?%not_elem_of_nil & _).
  - setoid_rewrite elem_of_cons. destruct (exec r text) as [m|] eqn:E.
    + split; [|done]. intros _. exists r. split; [by left|]. apply exec_iff. congruence.
    + rewrite IH. split; [naive_solver|]. intros (r' & [->|Hr] & Ho); [|eauto].
      apply exec_iff in Ho. congruence.
Qed.

Lemma matchAny_nonempty text ps m :
  (∀ r, r ∈ ps → nullable r = false) → matchAny text ps = Some m → m ≠ "".
Proof.
  induction ps as [|r ps IH]; cbn; [done|]. intros Hn. destruct (exec r text) as [m'|] eqn:E.
  - intros [= <-]. eapply exec_from_nonempty; [apply Hn; left|exact E].
  - intros H. apply IH; [|done]. intros r' Hr'. apply Hn. by right.
Qed.

Lemma hit_iff text sources :
  (∀ src, src ∈ sources → src ∈ ALL_PATTERNS) →
  hit text sources ≠ None ↔ signal sources text.
Proof.
  intros Hsub. unfold signal. rewrite <-matchAny_iff. unfold hit.
  destruct (matchAny text (patterns sources)) as [m|] eqn:E; [|done].
  apply matchAny_nonempty in E; [by rewrite bool_decide_eq_false_2|].
  intros r. by apply pattern_not_nullable.
Qed.

(** ** The kind of a blocked task *)

Lemma hit_none text sources :
  (∀ src, src ∈ sources → src ∈ ALL_PATTERNS) → ¬ signal sources text → hit text sources = None.
Proof.
  intros Hsub Hn. destruct (hit text sources) eqn:E; [|done]. destruct Hn.
  apply hit_iff; [done|]. by rewrite E.
Qed.

Lemma hit_some text sources :
  (∀ src, src ∈ sources → src ∈ ALL_PATTERNS) → signal sources text → ∃ m, hit text sources = Some m.
Proof. intros Hsub Hs%hit_iff; [|done]. destruct (hit text sources) as [m|]; [by exists m|done]. Qed.

Lemma sub_infra src : src ∈ INFRA_PATTERNS → src ∈ ALL_PATTERNS.
Proof. unfold ALL_PATTERNS. rewrite !elem_of_app. tauto. Qed.
Lemma sub_human src : src ∈ HUMAN_DEPENDENCY_PATTERNS → src ∈ ALL_PATTERNS.
Proof. unfold ALL_PATTERNS. rewrite !elem_of_app. tauto. Qed.
Lemma sub_prep src : src ∈ PREP_DEPENDENCY_PATTERNS → src ∈ ALL_PATTERNS.
Proof. unfold ALL_PATTERNS. rewrite !elem_of_app. tauto. Qed.
Lemma sub_impl src : src ∈ IMPLEMENTATION_FAILURE_PATTERNS → src ∈ ALL_PATTERNS.
Proof. unfold ALL_PATTERNS. rewrite !elem_of_app. tauto. Qed.
#[local] Hint Resolve sub_infra sub_human sub_prep sub_impl : core.

(** The hint of the agent only decides when the classifier has low confidence. *)
Lemma merge_kind c ak :
  Classification.kind (mergeWithAgentHint c ak) =
  if bool_decide (Classification.confidence c = Confidence.low)
  then default (Classification.kind c) ak else Classification.kind c.
Proof.
  destruct c as [k src cf rs], ak as [a|]; cbn; [|by case_bool_decide].
  destruct k, cf, a; reflexivity.
Qed.

Ltac signals :=
  unfold classifyByPatterns;
  repeat match goal with
  | H : ¬ signal ?l ?t |- _ => rewrite (hit_none t l) by auto; clear H
  | H : signal ?l ?t |- _ => destruct (hit_some t l) as [? ->]; [by auto..|]; clear H
  end.

(** The kind of a blocked or failed task follows from its texts: a signal of the
    infrastructure comes before a signal that a human is needed, that before a missing
    prerequisite, that before a failed implementation; without a signal a task that reports
    failure is an implementation failure, and any other is what its agent says, or a decision. *)
Theorem classification_follows_text (packet : TaskEvidence.t) :
  let text := corpus packet in
  let kind := Classification.kind (classifyTaskOutcome packet) in
  (signal INFRA_PATTERNS text → kind = TaskBlockerKind.infra) ∧
  (¬ signal INFRA_PATTERNS text → signal HUMAN_DEPENDENCY_PATTERNS text →
     kind = TaskBlockerKind.dependency_human) ∧
  (¬ signal INFRA_PATTERNS text → ¬ signal HUMAN_DEPENDENCY_PATTERNS text →
     signal PREP_DEPENDENCY_PATTERNS text → kind = TaskBlockerKind.dependency_prep) ∧
  (¬ signal INFRA_PATTERNS text → ¬ signal HUMAN_DEPENDENCY_PATTERNS text →
     ¬ signal PREP_DEPENDENCY_PATTERNS text →
     (signal IMPLEMENTATION_FAILURE_PATTERNS text → kind = TaskBlockerKind.implementation) ∧
     (¬ signal IMPLEMENTATION_FAILURE_PATTERNS text →
        kind = if bool_decide (TaskEvidence.status packet = "failed")
               then TaskBlockerKind.implementation
               else default TaskBlockerKind.decision (parseAgentBlockerKind packet))).
Proof.
  cbv zeta. unfold classifyTaskOutcome. rewrite merge_kind.
  split_and!; [intros; signals; by rewrite bool_decide_eq_false_2..|].
  intros. split; intros; signals; [by rewrite bool_decide_eq_false_2|].
  destruct (bool_decide (TaskEvidence.status packet = "failed")); cbn;
    [by rewrite bool_decide_eq_false_2|by rewrite bool_decide_eq_true_2].
Qed.

(** ** Counters *)

Lemma generation_with key k n p :
  generation (withTaskRecoveryGeneration k n p) key =
  if bool_decide (k = key) then n else generation p key.
Proof.
  unfold generation, withTaskRecoveryGeneration. cbn. case_bool_decide as H.
  - subst. by rewrite lookup_insert_eq.
  - by rewrite lookup_insert_ne.
Qed.

Lemma str_app_inj (s t u : string) : s +:+ t = s +:+ u → t = u.
Proof. induction s as [|c s IH]; [done|]. rewrite !str_app_cons. intros [= H]. auto. Qed.

Inductive recovery_kind := KInfra | KPrep | KRepair.

#[global] Instance recovery_kind_eq_dec : EqDecision recovery_kind.
Proof. solve_decision. Defined.

Definition counter_key (k : recovery_kind) (taskId : string) : string :=
  match k with
  | KInfra => taskInfraRetryGenerationKey taskId
  | KPrep => taskPrepGenerationKey taskId
  | KRepair => taskRepairGenerationKey taskId
  end.

(** The counters of different kinds or tasks never share a key. *)
Lemma counter_key_inj k k' t t' : counter_key k t = counter_key k' t' → k = k' ∧ t = t'.
Proof. by destruct k, k'; intros [= ?]%(str_app_inj "task-"); [auto|..]; auto. Qed.

(** ** How often a task is recovered *)

(** The counter a step raises and the number it writes. *)
Definition step_counter (s : recovery_step) : option (recovery_kind * Z) :=
  match s with
  | InfraRetry a _ _ => Some (KInfra, a)
  | InjectPrep a _ => Some (KPrep, a)
  | InjectRepair a _ => Some (KRepair, a)
  | PauseHuman | TerminalFail => None
  end.

Definition counter (p : TaskProgress.t) (k : recovery_kind) (taskId : string) : Z :=
  generation p (counter_key k taskId).

(** A resolved step raises its counter by one and stays within the limit. *)
Definition proper_step (p : TaskProgress.t) (taskId : string) (s : recovery_step) : Prop :=
  match step_counter s with
  | Some (k, a) => a = (counter p k taskId + 1)%Z ∧ (a ≤ 3)%Z
  | None => True
  end.

Lemma infra_proper p taskId e c : proper_step p taskId (ra_step (resolveInfraRetry taskId p e c)).
Proof.
  unfold resolveInfraRetry. cbv zeta. case_bool_decide as H; cbn; [done|].
  unfold proper_step, counter. cbn. unfold taskInfraAttempt, MAX_INFRA_RETRIES in *. lia.
Qed.

Lemma resolve_proper packet taskId p :
  proper_step p taskId (ra_step (resolveTaskRecoveryAction packet taskId p)).
Proof.
  unfold resolveTaskRecoveryAction. cbv zeta. case_match; [apply infra_proper|..];
    try (case_bool_decide as Hb); unfold proper_step, counter; cbn; try done;
    unfold taskPrepAttempt, taskRepairAttempt, MAX_TASK_PREP_GENERATIONS,
      MAX_TASK_REPAIR_GENERATIONS in *; lia.
Qed.

Lemma resolve_miss_proper taskId p message error :
  proper_step p taskId (ra_step (resolveTaskInfraRecovery taskId p message error)).
Proof.
  unfold resolveTaskInfraRecovery. cbv zeta. case_match; [done|]. apply infra_proper.
Qed.

(** [p'] is [p] with one counter of the task raised by one, within its limit. *)
Definition raised (taskId : string) (p p' : TaskProgress.t) : Prop :=
  ∃ k a, a = (counter p k taskId + 1)%Z ∧ (a ≤ 3)%Z ∧
    TaskProgress.repairGenerations p' = <[counter_key k taskId := a]> (TaskProgress.repairGenerations p).

Lemma recovered_raised t s code ps d kt g p items plan items' code' ps' p' g' d' plan' :
  proper_step p t s → (∃ k a, step_counter s = Some (k, a)) →
  recovered t s code ps d kt g p items plan = (Ok (TaskRecovered items' code' ps' p' g' d'), plan') → raised t p p'.
Proof.
  intros Hp (k & a & Hs). unfold recovered, pl_bind, pl_get, pl_ret. cbn. intros [= <- <- <- <- <- <- <-].
  unfold proper_step in Hp. rewrite Hs in Hp. exists k, a. split; [apply Hp|]. split; [apply Hp|].
  by destruct kt, s; cbn in Hs; simplify_eq.
Qed.

(** Where a task goes back to the queue, one of its counters is raised. *)
Lemma outcome_raised items t packet p g plan items' code ps p' g' d plan' :
  processTaskEvidenceOutcome items t packet p g plan = (Ok (TaskRecovered items' code ps p' g' d), plan') → raised t p p'.
Proof.
  unfold processTaskEvidenceOutcome. case_bool_decide; [done|]. cbv zeta. pose proof (resolve_proper packet t p) as Hp.
  destruct (ra_step (resolveTaskRecoveryAction packet t p)) eqn:Hs; try done.
  - apply recovered_raised; [done|eauto].
  - unfold pl_bind at 1, pl_get. destruct (injectPrepTasksForRecovery _ _ _ plan) as [[ids|e] q]; [|done].
    apply recovered_raised; [done|eauto].
  - unfold pl_bind at 1, pl_get. destruct (injectRepairTasksForRecovery _ _ _ plan) as [[ids|e] q]; [|done].
    apply recovered_raised; [done|eauto].
Qed.

Lemma miss_raised items t p g msg err plan items' code ps p' g' d plan' :
  buildTaskInfraRecoveryResult items t p g msg err plan = (Ok (TaskRecovered items' code ps p' g' d), plan') → raised t p p'.
Proof.
  unfold buildTaskInfraRecoveryResult. cbv zeta. pose proof (resolve_miss_proper t p msg err) as Hp.
  destruct (ra_step (resolveTaskInfraRecovery t p msg err)) eqn:Hs; try done.
  apply recovered_raised; [done|eauto].
Qed.

(** The recoveries that the counters of the task still allow. *)
Definition allowance (p : TaskProgress.t) (taskId : string) : nat :=
  Z.to_nat (3 - counter p KInfra taskId) + Z.to_nat (3 - counter p KPrep taskId) + Z.to_nat (3 - counter p KRepair taskId).

Lemma counter_insert p p' k t a k' t' :
  TaskProgress.repairGenerations p' = <[counter_key k t := a]> (TaskProgress.repairGenerations p) →
  (k = k' ∧ t = t' → counter p' k' t' = a) ∧
  (k ≠ k' ∨ t ≠ t' → counter p' k' t' = counter p k' t').
Proof.
  intros Hp. unfold counter, generation. rewrite Hp. split.
  - intros [-> ->]. by rewrite lookup_insert_eq.
  - intros Hne. rewrite lookup_insert_ne; [done|]. intros [??]%counter_key_inj. naive_solver.
Qed.

(** A recovery of the task itself uses one unit of what is allowed, a recovery of
    another task none. *)
Lemma raised_allowance t t' p p' :
  raised t p p' → allowance p' t' + (if bool_decide (t = t') then 1 else 0) ≤ allowance p t'.
Proof.
  intros (k & a & Ha & Hle & Hq). unfold allowance. case_bool_decide as Ht.
  - subst t'. assert (∀ k', counter p' k' t = if decide (k = k') then a else counter p k' t) as Hc.
    { intros k'. destruct (counter_insert p p' k t a k' t Hq) as [Hsame Hother].
      case_decide; [by apply Hsame|by apply Hother; left]. }
    rewrite !Hc. destruct k; repeat case_decide; try done; lia.
  - assert (∀ k', counter p' k' t' = counter p k' t') as Hc.
    { intros k'. apply (counter_insert p p' k t a k' t' Hq). by right. }
    rewrite !Hc. lia.
Qed.

(** ** The delay for a model at capacity *)

(** The policy waits half a minute per attempt for a model at capacity.  The
    recovery of a task hands the policy the transport form of the error, which
    is no longer recognised, so the task is retried after two seconds. *)
Theorem capacity_delay_is_lost (taskId : string) (p : TaskProgress.t) (message : string) :
  taskInfraAttempt p taskId = 0%Z →
  let error := ThrownTurn (turnErrorDto "turn.capacity_limited" None None None) in
  turnRetryDelayMs 1 error = 30000%Z ∧
  ra_step (resolveTaskInfraRecovery taskId p message (Some error)) = InfraRetry 1 3 2000.
Proof.
  intros Ha. split; [reflexivity|]. unfold resolveTaskInfraRecovery, resolveInfraRetry.
  rewrite Ha. reflexivity.
Qed.

(** ** Interrupted executions *)

Lemma reset_verifying_not o : reset_verifying o ≠ Some "verifying".
Proof. unfold reset_verifying. by case_bool_decide. Qed.

Lemma existsb_map_none {A B} (f : A → B) (q : B → bool) l :
  (∀ x, q (f x) = false) → existsb q (map f l) = false.
Proof. intros Hq. induction l as [|x l IH]; [done|]. cbn. by rewrite Hq. Qed.

Lemma reset_slices_settled (l : list (slice_progress SliceRecord.t)) :
  Forall (λ s, sp_runtimeStatus s ≠ Some "running" ∧ sp_runtimeStatus s ≠ Some "verifying")
    (map clear_running_slice (map reset_slice_row l)).
Proof.
  rewrite map_map. apply Forall_map, list.Forall_true. intros s. unfold clear_running_slice.
  case_bool_decide; [done|]. split; [done|]. apply reset_verifying_not.
Qed.

(** After [prepareInterruptedExecutionResume] no task is running, no slice is
    running or being verified and no milestone is being verified, while no
    counter is lost; and what was prepared once is not changed by preparing it
    again. *)
Theorem resume_settles_everything (p : TaskProgress.t) :
  let p' := (prepareInterruptedExecutionResume p).2 in
  Forall (λ t, TaskProgressItem.status t ≠ "running") (TaskProgress.tasks p') ∧
  Forall (λ s, sp_runtimeStatus s ≠ Some "running" ∧ sp_runtimeStatus s ≠ Some "verifying")
    (TaskProgress.slices p') ∧
  Forall (λ m, mp_verificationStatus m ≠ Some "verifying") (TaskProgress.milestones p') ∧
  TaskProgress.repairGenerations p' = TaskProgress.repairGenerations p ∧
  TaskProgress.verificationAttempts p' = TaskProgress.verificationAttempts p ∧
  (prepareInterruptedExecutionResume p').1 = false.
Proof.
  cbn. assert (∀ t, TaskProgressItem.status (reset_running_item t) ≠ "running") as Ht.
  { intros t. unfold reset_running_item. by case_bool_decide. }
  split_and!; [| |..].
  - apply Forall_map, list.Forall_true. auto.
  - apply reset_slices_settled.
  - apply Forall_map, list.Forall_true. intros m. apply reset_verifying_not.
  - done.
  - done.
  - pose proof (reset_slices_settled (TaskProgress.slices p)) as Hs.
    rewrite list.Forall_forall in Hs. rewrite !orb_false_iff. split_and!.
    + apply existsb_map_none. intros t. by apply bool_decide_eq_false.
    + apply not_true_is_false. intros (s & Hin%list_elem_of_In & Hv%bool_decide_eq_true)%existsb_exists.
      by destruct (Hs s Hin).
    + apply existsb_map_none. intros m. apply bool_decide_eq_false, reset_verifying_not.
    + rewrite map_map. apply existsb_map_none.
      intros s. apply bool_decide_eq_false. cbn. unfold reset_verifying.
      case_bool_decide; [done|]. unfold clear_running_slice. by case_bool_decide.
Qed.
