(* ===== verification/WorkloadSlots.v ===== *)
(** * Runs, slots and fenced job rows

    Models [src/server/legacy-control-plane/workload-slot-store.ts] and the
    writing functions of [repository.ts]: the tables [workload_runs] and
    [workload_slots] (migration 023), the columns of [thread_jobs] that admission,
    leases and fencing use, and [deletion_requests] (migrations 030 and 031).
    The other columns of a job, its plan and its progress are one value of type
    [C], which a patch transforms.  The abort controllers and the map
    [executionRunIds] of the process are part of the state.  The loops that run
    in this process are an argument where the code asks for them. *)
From stdpp Require Import pretty.
From Stdlib Require Import Ascii.
From S2P Require Import Prelude Json JsString Sql TaskAttempts.
Local Open Scope tx_scope.

#[local] Arguments bool_decide : simpl never.

Module RunStatus.
Inductive t := active | cancelling | stopping | released | failed.

#[global] Instance eq_dec : EqDecision t.
Proof. solve_decision. Defined.

(** Not [released] and not [failed]. *)
Definition live (s : t) : bool :=
  match s with released | failed => false | _ => true end.
End RunStatus.

Module SlotStatus.
Inductive t := active | releasing | released.

#[global] Instance eq_dec : EqDecision t.
Proof. solve_decision. Defined.
End SlotStatus.

Module RunKind.
Inductive t := planning | execution.

#[global] Instance eq_dec : EqDecision t.
Proof. solve_decision. Defined.
End RunKind.

(** A row of [workload_runs].  The owner is always a thread job. *)
Module Run.
Record t := mk {
  id : string;
  username : string;
  ownerId : string;
  kind : RunKind.t;
  pool : string;
  status : RunStatus.t;
  leaseOwner : option string;
  leaseExpiresAt : option Z;
  cancelReason : option string;
  runtimeRefJson : option string;
  startedAt : Z;
  updatedAt : Z;
  releasedAt : option Z
}.

Definition set_status (st : RunStatus.t) (reason : option string) (now : Z) (ended : option Z) (r : t) : t :=
  mk (id r) (username r) (ownerId r) (kind r) (pool r) st (leaseOwner r) (leaseExpiresAt r) reason
    (runtimeRefJson r) (startedAt r) now ended.

Definition set_lease (owner : string) (expires now : Z) (r : t) : t :=
  mk (id r) (username r) (ownerId r) (kind r) (pool r) (status r) (Some owner) (Some expires)
    (cancelReason r) (runtimeRefJson r) (startedAt r) now (releasedAt r).

Definition set_runtimeRef (ref : string) (now : Z) (r : t) : t :=
  mk (id r) (username r) (ownerId r) (kind r) (pool r) (status r) (leaseOwner r) (leaseExpiresAt r)
    (cancelReason r) (Some ref) (startedAt r) now (releasedAt r).
End Run.

(** A row of [workload_slots]. *)
Module Slot.
Record t := mk {
  runId : string;
  username : string;
  pool : string;
  ownerId : string;
  kind : RunKind.t;
  status : SlotStatus.t;
  leaseOwner : option string;
  leaseExpiresAt : option Z;
  createdAt : Z;
  releasedAt : option Z
}.

Definition release (now : Z) (s : t) : t :=
  mk (runId s) (username s) (pool s) (ownerId s) (kind s) SlotStatus.released (leaseOwner s)
    (leaseExpiresAt s) (createdAt s) (Some now).

Definition set_lease (owner : string) (expires : Z) (s : t) : t :=
  mk (runId s) (username s) (pool s) (ownerId s) (kind s) (status s) (Some owner) (Some expires)
    (createdAt s) (releasedAt s).
End Slot.

(** A row of [deletion_requests]. *)
Record deletion_request := mkDeletion {
  dl_id : string;
  dl_entityKind : string;
  dl_entityId : string;
  dl_username : string;
  dl_status : string;
  dl_phase : string;
  dl_threadId : option string;
  dl_projectId : option string;
  dl_workspacePath : option string;
  dl_frozenJson : option string;
  dl_cleanupTargetsJson : option string;
  dl_retryCount : Z;
  dl_lastError : option string;
  dl_errorJson : option string;
  dl_createdAt : Z;
  dl_updatedAt : Z
}.

Definition INCOMPLETE_PHASES : list string :=
  ["requested"; "draining"; "runtime_closed"; "database_deleted"; "filesystem_cleaned"].

(** The process: its lease owner is [`${pid}-${bootId}`]. *)
Record process := mkProcess { pid : Z; bootId : string }.

Definition leaseOwner (pr : process) : string := pretty (pid pr) +:+ "-" +:+ bootId pr.

(** The rest of the text after the first dash. *)
Fixpoint after_dash (s : string) : option string :=
  match s with
  | EmptyString => None
  | String c s' => if bool_decide (c = "-"%char) then Some s' else after_dash s'
  end.

Definition bootIdFromLeaseOwner (owner : option string) : option string :=
  o ← owner; if bool_decide (o = "") then None else after_dash o.

(** [/^[0-9a-f]{8}-[0-9a-f]{4}-[0-9a-f]{4}-[0-9a-f]{4}-[0-9a-f]{12}$/i] *)
Definition isUuidBootId (value : string) : bool :=
  bool_decide (map String.length (split "-" value) = [8; 4; 4; 4; 12]) &&
  forallb (λ w, all_chars is_hex_char (toLowerCase w)) (split "-" value).

Definition isStaleExecutionLeaseOwner (pr : process) (owner : option string) : bool :=
  match owner with
  | None => false
  | Some o =>
      if bool_decide (o = "") || bool_decide (o = leaseOwner pr) then false
      else match bootIdFromLeaseOwner owner with
           | None => false
           | Some b => if bool_decide (b = "") || negb (isUuidBootId b) then false
                       else negb (bool_decide (b = bootId pr))
           end
  end.

Section store.
Context {C : Type}.

(** The row of a job. *)
Record job_row := mkJobRow {
  jb_id : string;
  jb_username : string;
  jb_status : string;
  jb_planConfirmedAt : option Z;
  jb_createdAt : Z;
  jb_activeRunId : option string;
  jb_leaseOwner : option string;
  jb_leaseExpiresAt : option Z;
  jb_lastError : option string;
  jb_suspensionKind : option string;
  jb_continueAfterPause : bool;
  jb_recoveryReason : option string;
  jb_updatedAt : Z;
  jb_content : C
}.

Record work_db := mkWork {
  runs : list Run.t;
  slots : list Slot.t;
  jobs : list job_row;
  deletions : list deletion_request;
  runControllers : list string;
  executionRunIds : gmap string string
}.

Definition set_runs (l : list Run.t) (s : work_db) : work_db :=
  mkWork l (slots s) (jobs s) (deletions s) (runControllers s) (executionRunIds s).
Definition set_slots (l : list Slot.t) (s : work_db) : work_db :=
  mkWork (runs s) l (jobs s) (deletions s) (runControllers s) (executionRunIds s).
Definition set_jobs (l : list job_row) (s : work_db) : work_db :=
  mkWork (runs s) (slots s) l (deletions s) (runControllers s) (executionRunIds s).
Definition set_deletions (l : list deletion_request) (s : work_db) : work_db :=
  mkWork (runs s) (slots s) (jobs s) l (runControllers s) (executionRunIds s).
Definition set_memory (cs : list string) (ids : gmap string string) (s : work_db) : work_db :=
  mkWork (runs s) (slots s) (jobs s) (deletions s) cs ids.

Definition set_activeRun (r : option string) (j : job_row) : job_row :=
  mkJobRow (jb_id j) (jb_username j) (jb_status j) (jb_planConfirmedAt j) (jb_createdAt j) r
    (jb_leaseOwner j) (jb_leaseExpiresAt j) (jb_lastError j) (jb_suspensionKind j)
    (jb_continueAfterPause j) (jb_recoveryReason j) (jb_updatedAt j) (jb_content j).

Definition set_lease (owner : option string) (expires : option Z) (now : Z) (j : job_row) : job_row :=
  mkJobRow (jb_id j) (jb_username j) (jb_status j) (jb_planConfirmedAt j) (jb_createdAt j)
    (jb_activeRunId j) owner expires (jb_lastError j) (jb_suspensionKind j)
    (jb_continueAfterPause j) (jb_recoveryReason j) now (jb_content j).

(** [SET status = 'running', execution_lease_.. , last_error = NULL, updated_at] *)
Definition set_running (owner : string) (expires now : Z) (j : job_row) : job_row :=
  mkJobRow (jb_id j) (jb_username j) "running" (jb_planConfirmedAt j) (jb_createdAt j)
    (jb_activeRunId j) (Some owner) (Some expires) None (jb_suspensionKind j)
    (jb_continueAfterPause j) (jb_recoveryReason j) now (jb_content j).

Definition by_id (id : string) (j : job_row) : bool := bool_decide (jb_id j = id).
Definition run_by_id (id : string) (r : Run.t) : bool := bool_decide (Run.id r = id).
Definition slot_by_run (id : string) (s : Slot.t) : bool := bool_decide (Slot.runId s = id).

Definition find_job (s : work_db) (id : string) : option job_row := List.find (by_id id) (jobs s).
Definition find_run (s : work_db) (id : string) : option Run.t := List.find (run_by_id id) (runs s).

Definition active_in_pool (pool : string) (x : Slot.t) : bool :=
  bool_decide (Slot.pool x = pool) && bool_decide (Slot.status x = SlotStatus.active).

Definition isEntityDeletionBlocked (kind id : string) (s : work_db) : bool :=
  existsb (λ d, bool_decide (dl_entityKind d = kind) && bool_decide (dl_entityId d = id) &&
                bool_decide (dl_phase d ∈ INCOMPLETE_PHASES)) (deletions s).

(** ** Configuration *)

Context (workloadPoolCapacity : nat) (workloadLeaseTtlSec : Z).

(** ** Claims *)

(** The two inserts; ids are unique. *)
Definition insert_run_and_slot (r : Run.t) (x : Slot.t) : txM work_db string unit :=
  let* taken := tx_gets (λ s, existsb (run_by_id (Run.id r)) (runs s)) in
  if taken then tx_throw "UNIQUE constraint failed: workload_runs.id" else
  do* tx_modify (λ s, set_runs (runs s ++ [r]) s) in
  let* taken := tx_gets (λ s, existsb (slot_by_run (Slot.runId x)) (slots s)) in
  if taken then tx_throw "UNIQUE constraint failed: workload_slots.run_id" else
  tx_modify (λ s, set_slots (slots s ++ [x]) s).

Record claim_input := mkClaim {
  ci_username : string;
  ci_ownerId : string;
  ci_kind : RunKind.t;
  ci_pool : string
}.

Definition new_run (pr : process) (now : Z) (runId : string) (i : claim_input) : Run.t :=
  Run.mk runId (ci_username i) (ci_ownerId i) (ci_kind i) (ci_pool i) RunStatus.active
    (Some (leaseOwner pr)) (Some (now + workloadLeaseTtlSec)%Z) None None now now None.

Definition new_slot (pr : process) (now : Z) (runId : string) (i : claim_input) : Slot.t :=
  Slot.mk runId (ci_username i) (ci_pool i) (ci_ownerId i) (ci_kind i) SlotStatus.active
    (Some (leaseOwner pr)) (Some (now + workloadLeaseTtlSec)%Z) now None.

Definition pool_full (pool : string) (s : work_db) : bool :=
  bool_decide (workloadPoolCapacity ≤ count_where (active_in_pool pool) (slots s)).

Definition owner_active (ownerId : string) (x : Slot.t) : bool :=
  bool_decide (Slot.ownerId x = ownerId) && bool_decide (Slot.status x = SlotStatus.active).

Definition claim_tx (pr : process) (now : Z) (runId : string) (i : claim_input) :
    txM work_db string bool :=
  let* full := tx_gets (pool_full (ci_pool i)) in
  if full then tx_ret false else
  let* busy := tx_gets (λ s, existsb (owner_active (ci_ownerId i)) (slots s)) in
  if busy then tx_ret false else
  do* insert_run_and_slot (new_run pr now runId i) (new_slot pr now runId i) in
  do* tx_modify (λ s, set_jobs (update_where (by_id (ci_ownerId i)) (set_activeRun (Some runId)) (jobs s)) s) in
  tx_ret true.

(** A claim that succeeds registers an abort controller for the run. *)
Definition register_controller (runId : string) (s : work_db) : work_db :=
  set_memory (runControllers s ++ [runId]) (executionRunIds s) s.

Definition claimWorkloadSlotTx (pr : process) (now : Z) (runId : string) (i : claim_input)
    (s : work_db) : result string bool * work_db :=
  match run_transaction (claim_tx pr now runId i) s with
  | (Ok true, s') => (Ok true, register_controller runId s')
  | r => r
  end.

Definition claimExecutionWorkloadSlot (pr : process) (now : Z) (runId username jobId : string)
    (s : work_db) : result string bool * work_db :=
  match claimWorkloadSlotTx pr now runId (mkClaim username jobId RunKind.execution "execution") s with
  | (Ok true, s') => (Ok true, set_memory (runControllers s') (<[jobId := runId]> (executionRunIds s')) s')
  | r => r
  end.

Definition EXECUTION_LEASE_TTL_SEC : Z := 1800.

Definition claimable (username jobId : string) (j : job_row) : bool :=
  bool_decide (jb_id j = jobId) && bool_decide (jb_username j = username) &&
  bool_decide (jb_status j = "pending") && bool_decide (jb_planConfirmedAt j ≠ None).

Definition claim_execution_tx (pr : process) (now : Z) (runId username jobId : string) :
    txM work_db string bool :=
  let i := mkClaim username jobId RunKind.execution "execution" in
  let* blocked := tx_gets (isEntityDeletionBlocked "thread_job" jobId) in
  if blocked then tx_ret false else
  let* full := tx_gets (pool_full "execution") in
  if full then tx_ret false else
  let* changes := tx_gets (λ s, count_where (claimable username jobId) (jobs s)) in
  do* tx_modify (λ s, set_jobs (update_where (claimable username jobId)
        (λ j, set_activeRun (Some runId)
                (set_running (leaseOwner pr) (now + EXECUTION_LEASE_TTL_SEC) now j)) (jobs s)) s) in
  if bool_decide (changes = 0) then tx_ret false else
  do* insert_run_and_slot (new_run pr now runId i) (new_slot pr now runId i) in
  tx_ret true.

Definition claimExecutionSlotForJobTx (pr : process) (now : Z) (runId username jobId : string)
    (s : work_db) : result string bool * work_db :=
  match run_transaction (claim_execution_tx pr now runId username jobId) s with
  | (Ok true, s') =>
      (Ok true, set_memory (runControllers s' ++ [runId]) (<[jobId := runId]> (executionRunIds s')) s')
  | r => r
  end.

(** ** Release *)

Record ReleaseResult := mkRelease {
  rr_released : bool;
  rr_run : option Run.t;
  rr_ownerActiveRunId : option string
}.

(** What the store does to the process after the transaction. *)
Inductive release_effect :=
| AbortController (runId : string)
| EndJobPlanning (ownerId runId : string)
| AdvanceQueue (username : string).

Definition activeRunId_of (ownerId : string) (s : work_db) : option string :=
  find_job s ownerId ≫= jb_activeRunId.

Definition release_tx (now : Z) (runId : string) (reason : option string) (failed : bool) :
    txM work_db string ReleaseResult :=
  let* row := tx_gets (λ s, find_run s runId) in
  match row with
  | None => tx_ret (mkRelease false None None)
  | Some r =>
      if negb (RunStatus.live (Run.status r)) then
        let* a := tx_gets (activeRunId_of (Run.ownerId r)) in
        tx_ret (mkRelease false (Some r) a)
      else
        let st := if failed then RunStatus.failed else RunStatus.released in
        let why := match reason with Some x => Some x | None => Run.cancelReason r end in
        do* tx_modify (λ s, set_runs (update_where (run_by_id runId)
              (Run.set_status st why now (Some now)) (runs s)) s) in
        do* tx_modify (λ s, set_slots (update_where (slot_by_run runId) (Slot.release now) (slots s)) s) in
        do* tx_modify (λ s, set_jobs (update_where
              (λ j, by_id (Run.ownerId r) j && bool_decide (jb_activeRunId j = Some runId))
              (set_activeRun None) (jobs s)) s) in
        let* a := tx_gets (activeRunId_of (Run.ownerId r)) in
        tx_ret (mkRelease true (Some r) a)
  end.

(** The cleanup after the transaction, also after a repeated release. *)
Definition release_effects (runId : string) (skipQueueAdvance : bool) (res : ReleaseResult)
    (s : work_db) : list release_effect :=
  match rr_run res with
  | None => []
  | Some r =>
      (if bool_decide (runId ∈ runControllers s) then [AbortController runId] else []) ++
      (if bool_decide (Run.kind r = RunKind.planning) && negb (bool_decide (Run.ownerId r = "")) &&
          match rr_ownerActiveRunId res with
          | None => true
          | Some a => bool_decide (a = "") || bool_decide (a = runId)
          end
       then [EndJobPlanning (Run.ownerId r) runId] else []) ++
      (if negb skipQueueAdvance && negb (bool_decide (Run.username r = ""))
       then [AdvanceQueue (Run.username r)] else [])
  end.

Definition releaseWorkloadSlot (now : Z) (runId : string) (reason : option string)
    (failed skipQueueAdvance : bool) (s : work_db) :
    result string (ReleaseResult * list release_effect) * work_db :=
  match run_transaction (release_tx now runId reason failed) s with
  | (Ok res, s') =>
      let s'' := match rr_run res with
                 | Some _ => set_memory (List.filter (λ x, negb (bool_decide (x = runId))) (runControllers s'))
                               (executionRunIds s') s'
                 | None => s'
                 end in
      (Ok (res, release_effects runId skipQueueAdvance res s'), s'')
  | (Err e, s') => (Err e, s')
  end.

Definition releaseExecutionWorkloadSlot (now : Z) (jobId : string) (reason : option string)
    (s : work_db) : result string (list release_effect) * work_db :=
  match executionRunIds s !! jobId with
  | None => (Ok [], s)
  | Some runId =>
      match releaseWorkloadSlot now runId reason false false
              (set_memory (runControllers s) (delete jobId (executionRunIds s)) s) with
      | (Ok (_, effects), s') => (Ok effects, s')
      | (Err e, s') => (Err e, s')
      end
  end.

(** ** Reads *)

Definition getActiveRun (ownerId : string) (s : work_db) : option Run.t :=
  r ← activeRunId_of ownerId s; run ← find_run s r;
  if RunStatus.live (Run.status run) then Some run else None.

Definition assertRunActive (ownerId runId : string) (s : work_db) : bool :=
  match getActiveRun ownerId s with Some r => bool_decide (Run.id r = runId) | None => false end.

Definition assertRunWritable (ownerId runId : string) (s : work_db) : bool :=
  bool_decide (activeRunId_of ownerId s = Some runId) &&
  bool_decide (Run.status <$> find_run s runId = Some RunStatus.active).

Definition isRunActive (runId : string) (s : work_db) : bool :=
  match find_run s runId with
  | Some r => RunStatus.live (Run.status r) && assertRunActive (Run.ownerId r) runId s
  | None => false
  end.

(** ** Marks on a run

    [markRunQuarantined] and [markRunCancelling] await a SELECT and then an
    UPDATE, in no transaction: other operations run between the check and the
    write, and the write does not check again. *)

(** The check: the run exists and is live. *)
Definition markable (runId : string) (s : work_db) : bool :=
  match find_run s runId with
  | Some r => RunStatus.live (Run.status r)
  | None => false
  end.

(** The write. *)
Definition mark_run (st : RunStatus.t) (reason : string) (now : Z) (runId : string) (s : work_db) : work_db :=
  set_runs (update_where (run_by_id runId)
    (λ r, Run.set_status st (Some reason) now (Run.releasedAt r) r) (runs s)) s.

Definition write_quarantined (now : Z) (runId reason : string) (detail : option string) : work_db → work_db :=
  mark_run RunStatus.stopping
    (match detail with
     | Some d => if bool_decide (d = "") then reason else reason +:+ ": " +:+ d
     | None => reason
     end) now runId.

Definition write_cancelling (now : Z) (runId reason : string) : work_db → work_db :=
  mark_run RunStatus.cancelling reason now runId.

Definition clearActiveRunIfMatches (ownerId runId : string) (s : work_db) : work_db :=
  set_jobs (update_where (λ j, by_id ownerId j && bool_decide (jb_activeRunId j = Some runId))
    (set_activeRun None) (jobs s)) s.

Definition updateRunRuntimeRef (now : Z) (runId ref : string) (s : work_db) : work_db :=
  set_runs (update_where (run_by_id runId) (Run.set_runtimeRef ref now) (runs s)) s.

(** ** The lease of a run *)

Definition lease_live (owner : string) (now : Z) (o : option string) (e : option Z) : bool :=
  bool_decide (o = Some owner) && match e with Some t => bool_decide (now < t)%Z | None => false end.

Definition run_refreshable (owner : string) (now : Z) (runId : string) (r : Run.t) : bool :=
  run_by_id runId r && bool_decide (Run.status r = RunStatus.active) &&
  lease_live owner now (Run.leaseOwner r) (Run.leaseExpiresAt r).

Definition slot_refreshable (owner : string) (now : Z) (runId : string) (x : Slot.t) : bool :=
  slot_by_run runId x && bool_decide (Slot.status x = SlotStatus.active) &&
  lease_live owner now (Slot.leaseOwner x) (Slot.leaseExpiresAt x).

Definition refresh_tx (pr : process) (now : Z) (runId : string) : txM work_db string unit :=
  let owner := leaseOwner pr in
  let expires := (now + workloadLeaseTtlSec)%Z in
  let* n := tx_gets (λ s, count_where (run_refreshable owner now runId) (runs s)) in
  do* tx_modify (λ s, set_runs (update_where (run_refreshable owner now runId)
        (Run.set_lease owner expires now) (runs s)) s) in
  if negb (bool_decide (n = 1)) then tx_throw "workload run lease is inactive" else
  let* n := tx_gets (λ s, count_where (slot_refreshable owner now runId) (slots s)) in
  do* tx_modify (λ s, set_slots (update_where (slot_refreshable owner now runId)
        (Slot.set_lease owner expires) (slots s)) s) in
  if negb (bool_decide (n = 1)) then tx_throw "workload slot lease is inactive" else
  tx_ret tt.

(** Any failure becomes [workspace.lease_lost]. *)
Definition refreshWorkloadLease (pr : process) (now : Z) (runId : string) (s : work_db) :
    result string unit * work_db :=
  match run_transaction (refresh_tx pr now runId) s with
  | (Ok tt, s') => (Ok tt, s')
  | (Err _, s') => (Err "workspace.lease_lost", s')
  end.
End store.
