(* ===== verification/JobRows.v ===== *)
(** * Job rows: execution leases, patches and fences

    Models the writing functions of
    [src/server/legacy-control-plane/repository.ts] on [thread_jobs]: the
    execution lease of a job, promotion of a pending or continued job, the
    update of a row and the update that only the active run of the job may
    make; with the FIFO choice of the next pending job.  Evidence files written
    around the transaction and the events sent after it are not part of the
    state. *)
From stdpp Require Import pretty.
From Stdlib Require Import Ascii.
From S2P Require Import Prelude Json JsString Sql TaskAttempts WorkloadSlots.
Local Open Scope tx_scope.

#[local] Arguments bool_decide : simpl never.

Section rows.
Context {C : Type}.
Notation job_row := (@job_row C).
Notation work_db := (@work_db C).

(** ** The execution lease *)

Definition clearStaleExecutionLeaseIfNeeded (pr : process) (now : Z) (jobId : string) (s : work_db) :
    bool * work_db :=
  match find_job s jobId with
  | Some j =>
      if negb (bool_decide (jb_status j = "running")) || negb (isStaleExecutionLeaseOwner pr (jb_leaseOwner j))
      then (false, s)
      else (true, set_jobs (update_where (by_id jobId) (set_lease None None now) (jobs s)) s)
  | None => (false, s)
  end.

Definition expired (now : Z) (e : option Z) : bool :=
  match e with Some t => bool_decide (t < now)%Z | None => true end.

Definition resumableForLease (now : Z) (j : job_row) : bool :=
  bool_decide (jb_status j ∈ ["pending"; "paused"; "pausing"; "failed"; "cancelled"]) ||
  (bool_decide (jb_status j = "running") &&
   (bool_decide (jb_leaseOwner j = None) || expired now (jb_leaseExpiresAt j))).

Definition hasLocalExecutionLease (pr : process) (now : Z) (username jobId : string) (s : work_db) : bool :=
  existsb (λ j, by_id jobId j && bool_decide (jb_username j = username) &&
                bool_decide (jb_status j = "running") &&
                bool_decide (jb_leaseOwner j = Some (leaseOwner pr)) &&
                match jb_leaseExpiresAt j with None => true | Some t => bool_decide (now < t)%Z end)
    (jobs s).

Definition running_of (username : string) (j : job_row) : bool :=
  bool_decide (jb_username j = username) && bool_decide (jb_status j = "running").

(** [occupierId && occupierId !== jobId] *)
Definition other_occupant (username jobId : string) (s : work_db) : bool :=
  match List.find (running_of username) (jobs s) with
  | Some j => negb (bool_decide (jb_id j = "")) && negb (bool_decide (jb_id j = jobId))
  | None => false
  end.

(** The transaction both promotions share: no other job of the user runs, the
    row is taken under [p], and the lease is ours afterwards. *)
Definition take_job (pr : process) (now : Z) (username jobId : string) (p : job_row → bool) :
    txM work_db string bool :=
  let* other := tx_gets (other_occupant username jobId) in
  if other then tx_ret false else
  let q j := by_id jobId j && bool_decide (jb_username j = username) && p j in
  let* changes := tx_gets (λ s, count_where q (jobs s)) in
  do* tx_modify (λ s, set_jobs (update_where q
        (set_running (leaseOwner pr) (now + EXECUTION_LEASE_TTL_SEC) now) (jobs s)) s) in
  if bool_decide (changes = 0) then tx_ret false else
  let* row := tx_gets (λ s, find_job s jobId) in
  tx_ret (match row with
          | Some j => bool_decide (jb_status j = "running") &&
                      bool_decide (jb_leaseOwner j = Some (leaseOwner pr))
          | None => false
          end).

(** [occupant] is another loop of the user that runs in this process. *)
Definition tryPromoteJobToRunning (pr : process) (now : Z) (username jobId : string)
    (occupant : option string) (s : work_db) : result string bool * work_db :=
  match occupant with
  | Some _ => (Ok false, s)
  | None => run_transaction (take_job pr now username jobId
              (λ j, bool_decide (jb_status j = "pending"))) s
  end.

Definition refreshExecutionLease (pr : process) (now : Z) (jobId : string) (s : work_db) : work_db :=
  set_jobs (update_where (λ j, by_id jobId j && bool_decide (jb_status j = "running"))
    (set_lease (Some (leaseOwner pr)) (Some (now + EXECUTION_LEASE_TTL_SEC)%Z) now) (jobs s)) s.

Definition acquireExecutionLease (pr : process) (now : Z) (username jobId : string)
    (occupant : option string) (s : work_db) : result string bool * work_db :=
  let s1 := (clearStaleExecutionLeaseIfNeeded pr now jobId s).2 in
  if hasLocalExecutionLease pr now username jobId s1 then
    (Ok true, refreshExecutionLease pr now jobId s1)
  else match occupant with
       | Some _ => (Ok false, s1)
       | None => run_transaction (take_job pr now username jobId (resumableForLease now)) s1
       end.

Definition clearExecutionLease (now : Z) (jobId : string) (s : work_db) : work_db :=
  set_jobs (update_where (by_id jobId) (set_lease None None now) (jobs s)) s.

(** ** Continue after a pause *)

Definition to_pending (now : Z) (j : job_row) : job_row :=
  mkJobRow (jb_id j) (jb_username j) "pending" (jb_planConfirmedAt j) (jb_createdAt j)
    (jb_activeRunId j) None None None None false None now (jb_content j).

Definition promoteContinuedPauseToPending (now : Z) (jobId : string) (s : work_db) : bool * work_db :=
  let q j := by_id jobId j && bool_decide (jb_status j = "paused") && jb_continueAfterPause j in
  (bool_decide (count_where q (jobs s) = 1),
   set_jobs (update_where q (to_pending now) (jobs s)) s).

(** ** The next pending job *)

(** [ORDER BY planConfirmedAt, createdAt, id]; SQLite puts NULL first. *)
Definition fifo_lt (a b : job_row) : bool :=
  match jb_planConfirmedAt a, jb_planConfirmedAt b with
  | None, Some _ => true
  | Some _, None => false
  | Some x, Some y =>
      bool_decide (x < y)%Z ||
      (bool_decide (x = y) &&
       (bool_decide (jb_createdAt a < jb_createdAt b)%Z ||
        (bool_decide (jb_createdAt a = jb_createdAt b) && String.ltb (jb_id a) (jb_id b))))
  | None, None =>
      bool_decide (jb_createdAt a < jb_createdAt b)%Z ||
      (bool_decide (jb_createdAt a = jb_createdAt b) && String.ltb (jb_id a) (jb_id b))
  end.

Fixpoint first_in_order (l : list job_row) : option job_row :=
  match l with
  | [] => None
  | j :: l' => match first_in_order l' with
               | Some k => if fifo_lt k j then Some k else Some j
               | None => Some j
               end
  end.

Definition findNextPendingJob (username : option string) (s : work_db) : option job_row :=
  first_in_order (select_where (λ j,
    match username with
    | Some u => bool_decide (u = "") || bool_decide (jb_username j = u)
    | None => true
    end && bool_decide (jb_status j = "pending")) (jobs s)).

(** ** Patches *)

(** [JobRowPatch]: [None] is a field that is absent.  [pt_content] is what the
    patch does to the other columns, the plan and the progress; [pt_columns]
    says whether it sets any column. *)
Record patch := mkPatch {
  pt_status : option string;
  pt_planConfirmedAt : option (option Z);
  pt_lastError : option (option string);
  pt_suspensionKind : option (option string);
  pt_continueAfterPause : option bool;
  pt_recoveryReason : option (option string);
  pt_columns : bool;
  pt_content : C → C
}.

Definition patch_row (now : Z) (p : patch) (j : job_row) : job_row :=
  let clear := match pt_status p with
               | Some st => negb (bool_decide (st = "")) && negb (bool_decide (st = "running"))
               | None => false
               end in
  mkJobRow (jb_id j) (jb_username j) (default (jb_status j) (pt_status p))
    (default (jb_planConfirmedAt j) (pt_planConfirmedAt p)) (jb_createdAt j) (jb_activeRunId j)
    (if clear then None else jb_leaseOwner j) (if clear then None else jb_leaseExpiresAt j)
    (default (jb_lastError j) (pt_lastError p))
    (default (jb_suspensionKind j) (pt_suspensionKind p))
    (default (jb_continueAfterPause j) (pt_continueAfterPause p))
    (default (jb_recoveryReason j) (pt_recoveryReason p)) now (pt_content p (jb_content j)).

Definition updateJobRow (now : Z) (jobId : string) (p : patch) (s : work_db) : work_db :=
  set_jobs (update_where (by_id jobId) (patch_row now p) (jobs s)) s.

Definition jobRowFence (jobId runId : string) (j : job_row) : bool :=
  by_id jobId j && bool_decide (jb_activeRunId j = Some runId).

(** [applyFencedJobPatchInTx]: the row under the fence, before and after. *)
Definition fenced_tx (now : Z) (jobId runId : string) (p : patch) : txM work_db string (option job_row) :=
  let* existing := tx_gets (λ s, List.find (jobRowFence jobId runId) (jobs s)) in
  match existing with
  | None => tx_ret None
  | Some j =>
      let* changes := tx_gets (λ s, count_where (jobRowFence jobId runId) (jobs s)) in
      if pt_columns p && bool_decide (changes = 0) then tx_ret None else
      do* tx_modify (λ s, set_jobs (update_where (jobRowFence jobId runId) (patch_row now p) (jobs s)) s) in
      let* still := tx_gets (λ s, existsb (jobRowFence jobId runId) (jobs s)) in
      tx_ret (if still then Some j else None)
  end.

(** [None]: the fence refused; otherwise the row before the update. *)
Definition updateJobRowFenced (now : Z) (jobId runId : string) (p : patch) (s : work_db) :
    result string (option job_row) * work_db :=
  run_transaction (fenced_tx now jobId runId p) s.

(** [persistTaskProgress] of the executor under a run: the run must still be
    writable before the fenced update. *)
Definition persist_under_run (now : Z) (jobId runId : string) (p : patch) (s : work_db) :
    result string (option job_row) * work_db :=
  if assertRunWritable jobId runId s then updateJobRowFenced now jobId runId p s else (Ok None, s).
End rows.
Arguments patch : clear implicits.
