(* ===== verification/WorkloadSpecs.v ===== *)
(** * What runs, slots and fences guarantee

    Over every interleaving of claims, releases, marks, leases and job-row
    updates: a run holds an active slot exactly until it is released, and is live
    until then; no pool is over its capacity; the active run of a job is a run of
    that job that was not released; a run that was released never writes to a job
    again, also when a late mark makes its row look live; a claim for execution succeeds
    exactly when it should; the queue serves confirmed jobs in order. *)
From S2P Require Import Prelude Json JsString Sql TaskAttempts WorkloadSlots JobRows.
Local Open Scope tx_scope.

#[local] Arguments bool_decide : simpl never.
#[local] Arguments insert_run_and_slot : simpl never.

Section specs.
Context {C : Type} (cap : nat) (ttl : Z).
Notation job_row := (@job_row C).
Notation work_db := (@work_db C).
Implicit Types (s : work_db) (j : job_row) (r : Run.t) (x : Slot.t).

(** The operations of the store, with what the process gives to each.  A mark is its
    write alone, at any time: what lies between its check and its write is not
    restricted. *)
Inductive op :=
| OClaim (pr : process) (now : Z) (runId : string) (i : claim_input)
| OClaimExecutionSlot (pr : process) (now : Z) (runId username jobId : string)
| OClaimForJob (pr : process) (now : Z) (runId username jobId : string)
| ORelease (now : Z) (runId : string) (reason : option string) (failed skip : bool)
| OReleaseExecution (now : Z) (jobId : string) (reason : option string)
| OQuarantine (now : Z) (runId reason : string) (detail : option string)
| OCancelling (now : Z) (runId reason : string)
| OClearActiveRun (ownerId runId : string)
| ORuntimeRef (now : Z) (runId ref : string)
| ORefreshRun (pr : process) (now : Z) (runId : string)
| OClearStaleLease (pr : process) (now : Z) (jobId : string)
| OPromote (pr : process) (now : Z) (username jobId : string) (occupant : option string)
| ORefreshLease (pr : process) (now : Z) (jobId : string)
| OAcquireLease (pr : process) (now : Z) (username jobId : string) (occupant : option string)
| OClearLease (now : Z) (jobId : string)
| OContinuePaused (now : Z) (jobId : string)
| OUpdateJob (now : Z) (jobId : string) (p : patch C)
| OUpdateFenced (now : Z) (jobId runId : string) (p : patch C)
| OPersist (now : Z) (jobId runId : string) (p : patch C).

Definition apply_op (o : op) (s : work_db) : work_db :=
  match o with
  | OClaim pr now r i => (claimWorkloadSlotTx cap ttl pr now r i s).2
  | OClaimExecutionSlot pr now r u j => (claimExecutionWorkloadSlot cap ttl pr now r u j s).2
  | OClaimForJob pr now r u j => (claimExecutionSlotForJobTx cap ttl pr now r u j s).2
  | ORelease now r why f k => (releaseWorkloadSlot now r why f k s).2
  | OReleaseExecution now j why => (releaseExecutionWorkloadSlot now j why s).2
  | OQuarantine now r why d => write_quarantined now r why d s
  | OCancelling now r why => write_cancelling now r why s
  | OClearActiveRun o r => clearActiveRunIfMatches o r s
  | ORuntimeRef now r ref => updateRunRuntimeRef now r ref s
  | ORefreshRun pr now r => (refreshWorkloadLease ttl pr now r s).2
  | OClearStaleLease pr now j => (clearStaleExecutionLeaseIfNeeded pr now j s).2
  | OPromote pr now u j oc => (tryPromoteJobToRunning pr now u j oc s).2
  | ORefreshLease pr now j => refreshExecutionLease pr now j s
  | OAcquireLease pr now u j oc => (acquireExecutionLease pr now u j oc s).2
  | OClearLease now j => clearExecutionLease now j s
  | OContinuePaused now j => (promoteContinuedPauseToPending now j s).2
  | OUpdateJob now j p => updateJobRow now j p s
  | OUpdateFenced now j r p => (updateJobRowFenced now j r p s).2
  | OPersist now j r p => (persist_under_run now j r p s).2
  end.

Definition run_ops (os : list op) (s : work_db) : work_db := foldl (λ s o, apply_op o s) s os.

(** ** The invariant *)

(** A run was not released. *)
Definition held (r : Run.t) : bool := bool_decide (Run.releasedAt r = None).

(** A run that was not released is live, an active run was not released. *)
Definition run_ok (r : Run.t) : Prop :=
  (held r = true → RunStatus.live (Run.status r) = true) ∧ (Run.status r = RunStatus.active → held r = true).

(** A run and its slot. *)
Definition paired (r : Run.t) (x : Slot.t) : Prop :=
  Slot.runId x = Run.id r ∧ Slot.pool x = Run.pool r ∧ Slot.ownerId x = Run.ownerId r ∧ run_ok r ∧
  held r = bool_decide (Slot.status x = SlotStatus.active).

(** The active run of a job is a run of that job that was not released. *)
Definition owned_run (l : list Run.t) (j : job_row) : Prop :=
  ∀ k, jb_activeRunId j = Some k →
       ∃ r, r ∈ l ∧ Run.id r = k ∧ Run.ownerId r = jb_id j ∧ held r = true.

Record consistent (s : work_db) : Prop := {
  co_runs : NoDup (map Run.id (runs s));
  co_jobs : NoDup (map jb_id (jobs s));
  co_paired : Forall2 paired (runs s) (slots s);
  co_capacity : ∀ pool, count_where (active_in_pool pool) (slots s) ≤ cap;
  co_owned : Forall (owned_run (runs s)) (jobs s)
}.

Lemma consistent_memory cs ids s : consistent s → consistent (set_memory cs ids s).
Proof. by intros []. Qed.

(** An update of job rows that gives no job a run. *)
Definition keeps_run (f : job_row → job_row) : Prop :=
  ∀ j, jb_id (f j) = jb_id j ∧ (jb_activeRunId (f j) = jb_activeRunId j ∨ jb_activeRunId (f j) = None).

Lemma owned_run_keeps l f j : keeps_run f → owned_run l j → owned_run l (f j).
Proof.
  intros Hf Hj k Hk. destruct (Hf j) as [Hid [Ha|Ha]]; rewrite Ha in Hk; [|done].
  rewrite Hid. by apply Hj.
Qed.

Lemma consistent_jobs p f s :
  keeps_run f → consistent s → consistent (set_jobs (update_where p f (jobs s)) s).
Proof.
  intros Hf [Hr Hj Hp Hc Ho]. split; cbn; try done.
  - rewrite update_where_key; [done|]. intros j. apply Hf.
  - apply Forall_update; [|done]. intros j _ _. by apply owned_run_keeps.
Qed.

(** An update of runs that keeps their identity and whether they were released. *)
Definition keeps_identity (f : Run.t → Run.t) : Prop :=
  ∀ r, Run.id (f r) = Run.id r ∧ Run.pool (f r) = Run.pool r ∧ Run.ownerId (f r) = Run.ownerId r.

Lemma owned_run_update p f l j :
  keeps_identity f →
  (∀ r, r ∈ l → jb_activeRunId j = Some (Run.id r) → p r = true → held r = true → held (f r) = true) →
  owned_run l j → owned_run (update_where p f l) j.
Proof.
  intros Hf Hlive Hj k Hk. destruct (Hj k Hk) as (r & Hr & <- & Hown & Hl).
  exists (if p r then f r else r). split; [apply elem_of_update; eauto|].
  destruct (p r) eqn:Hp; [|done]. destruct (Hf r) as (-> & _ & ->). eauto.
Qed.

Lemma Forall2_update_l (p : Run.t → bool) f l l' :
  (∀ r x, r ∈ l → p r = true → paired r x → paired (f r) x) →
  Forall2 paired l l' → Forall2 paired (update_where p f l) l'.
Proof.
  intros Hf H. induction H as [|r x l l' Hrx H IH]; [constructor|]. rewrite update_where_cons.
  constructor; [|apply IH; intros r' x' Hr'; apply Hf; by right].
  destruct (p r) eqn:Hp; [|done]. apply Hf; [left|done..].
Qed.

Lemma Forall2_update_r (p : Slot.t → bool) f l l' :
  (∀ r x, p x = true → paired r x → paired r (f x)) →
  Forall2 paired l l' → Forall2 paired l (update_where p f l').
Proof.
  intros Hf H. induction H as [|r x l l' Hrx H IH]; [constructor|]. rewrite update_where_cons.
  constructor; [|done]. destruct (p x) eqn:Hp; auto.
Qed.

Lemma consistent_runs p f s :
  keeps_identity f →
  (∀ r, r ∈ runs s → p r = true → run_ok r → run_ok (f r) ∧ held (f r) = held r) →
  consistent s → consistent (set_runs (update_where p f (runs s)) s).
Proof.
  intros Hf Hlive [Hr Hj Hp Hc Ho]. split; cbn; try done.
  - rewrite update_where_key; [done|]. intros r. apply Hf.
  - apply Forall2_update_l; [|done]. intros r x Hin Hpr (H1 & H2 & H3 & H4 & H5).
    destruct (Hf r) as (E1 & E2 & E3). destruct (Hlive r Hin Hpr H4) as [Hok Hh]. unfold paired.
    by rewrite E1, E2, E3, Hh.
  - revert Ho. apply Forall_impl. intros j. apply owned_run_update; [done|].
    intros r Hin _ Hpr Hh. destruct (Hlive r Hin Hpr) as [_ ->]; [|done].
    apply list_elem_of_lookup in Hin as [i Hi]. by destruct (Forall2_lookup_l _ _ _ _ _ Hp Hi) as (x & _ & _ & _ & _ & ? & _).
Qed.

(** ** Claims *)

Lemma map_id_fresh l k : existsb (run_by_id k) l = false → k ∉ map Run.id l.
Proof.
  intros Hno (r & <- & Hr)%list_elem_of_In%in_map_iff.
  assert (existsb (run_by_id (Run.id r)) l = true) as Hyes; [|by rewrite Hyes in Hno].
  apply existsb_exists. exists r. split; [done|]. by apply bool_decide_eq_true.
Qed.

Lemma owned_run_more l r j : owned_run l j → owned_run (l ++ [r]) j.
Proof.
  intros Hj k Hk. destruct (Hj k Hk) as (r' & Hr' & ?). exists r'. split; [|done].
  apply elem_of_snoc. by left.
Qed.

Lemma insert_shape r x s u s' :
  insert_run_and_slot r x s = Ok (u, s') →
  Run.id r ∉ map Run.id (runs s) ∧
  s' = mkWork (runs s ++ [r]) (slots s ++ [x]) (jobs s) (deletions s) (runControllers s) (executionRunIds s).
Proof. intros Hins. unfold insert_run_and_slot in Hins. tx_inv. split; [by apply map_id_fresh|done]. Qed.

(** A new run with its slot, given to jobs of the owner. *)
Lemma consistent_add pr now runId i s q f ds cs ids :
  consistent s → count_where (active_in_pool (ci_pool i)) (slots s) < cap → runId ∉ map Run.id (runs s) →
  (∀ j, jb_id (f j) = jb_id j) → (∀ j, q j = true → jb_id j = ci_ownerId i) →
  (∀ j, jb_activeRunId (f j) = Some runId) →
  consistent (mkWork (runs s ++ [new_run ttl pr now runId i]) (slots s ++ [new_slot ttl pr now runId i])
    (update_where q f (jobs s)) ds cs ids).
Proof.
  intros [Hr Hj Hp Hc Ho] Hroom Hfresh Hid Hq Hact. split; cbn.
  - rewrite map_app. by apply NoDup_snoc.
  - rewrite update_where_key; auto.
  - apply Forall2_app; [done|]. constructor; [|constructor]. done.
  - intros pool. rewrite count_where_app, count_where_cons, count_where_nil.
    destruct (active_in_pool pool (new_slot ttl pr now runId i)) eqn:E; [|specialize (Hc pool); lia].
    apply andb_true_iff in E as [E%bool_decide_eq_true _]. cbn in E. subst pool. lia.
  - apply List.Forall_forall. intros j' (j & Hin & ->)%list_elem_of_In%elem_of_update.
    rewrite List.Forall_forall in Ho. specialize (Ho j (proj1 (list_elem_of_In _ _) Hin)).
    destruct (q j) eqn:Hqj; [|by apply owned_run_more].
    intros k Hk. rewrite Hact in Hk. simplify_eq.
    exists (new_run ttl pr now k i). split_and!; [apply elem_of_snoc; by right|done| |done].
    rewrite Hid. symmetry. by apply Hq.
Qed.

Lemma pool_full_room pool s : pool_full cap pool s = false →
  count_where (active_in_pool pool) (slots s) < cap.
Proof. unfold pool_full. intros H%bool_decide_eq_false. lia. Qed.

Lemma by_id_true k j : by_id k j = true ↔ jb_id j = k.
Proof. apply bool_decide_eq_true. Qed.

Lemma consistent_claim_tx pr now runId i s b s' :
  consistent s → claim_tx cap ttl pr now runId i s = Ok (b, s') → consistent s'.
Proof.
  intros Hs Htx. unfold claim_tx in Htx. tx_inv; try done.
  apply insert_shape in Htx0 as [Hfresh ->].
  apply (consistent_add _ _ _ _ s); try done; [by apply pool_full_room|]. intros j. apply by_id_true.
Qed.

Lemma claimable_true u k j : claimable u k j = true ↔
  jb_id j = k ∧ jb_username j = u ∧ jb_status j = "pending" ∧ jb_planConfirmedAt j ≠ None.
Proof. unfold claimable. rewrite !andb_true_iff, !bool_decide_eq_true. tauto. Qed.

Lemma consistent_claim_execution pr now runId u jobId s b s' :
  consistent s → claim_execution_tx cap ttl pr now runId u jobId s = Ok (b, s') → consistent s'.
Proof.
  intros Hs Htx. unfold claim_execution_tx in Htx. tx_inv; try done.
  - apply bool_decide_eq_true in Heqb2. rewrite update_where_none by done. by destruct s, Hs.
  - apply insert_shape in Htx0 as [Hfresh ->].
    apply (consistent_add _ _ _ _ s); try done; [by apply pool_full_room|]. by intros j []%claimable_true.
Qed.

(** ** Release *)

Lemma Forall2_update_both (k : string) f g l l' :
  (∀ r x, paired r x → paired (f r) (g x)) →
  Forall2 paired l l' →
  Forall2 paired (update_where (run_by_id k) f l) (update_where (slot_by_run k) g l').
Proof.
  intros Hfg H. induction H as [|r x l l' Hrx H IH]; [constructor|]. rewrite !update_where_cons.
  constructor; [|done]. pose proof Hrx as [Hid _]. unfold run_by_id, slot_by_run. rewrite Hid.
  case_bool_decide; auto.
Qed.

Lemma release_tx_run now k why failed s res s' :
  release_tx now k why failed s = Ok (res, s') → rr_run res = find_run s k.
Proof. intros Htx. unfold release_tx in Htx. by tx_inv. Qed.

Lemma release_tx_shape now k why failed s res s' :
  release_tx now k why failed s = Ok (res, s') →
  (s' = s ∧ rr_released res = false ∧ (∀ r, find_run s k = Some r → RunStatus.live (Run.status r) = false)) ∨
  (∃ r st why', find_run s k = Some r ∧ RunStatus.live (Run.status r) = true ∧ RunStatus.live st = false ∧
     rr_released res = true ∧
     s' = mkWork (update_where (run_by_id k) (Run.set_status st why' now (Some now)) (runs s))
            (update_where (slot_by_run k) (Slot.release now) (slots s))
            (update_where (λ j, by_id (Run.ownerId r) j && bool_decide (jb_activeRunId j = Some k))
               (set_activeRun None) (jobs s))
            (deletions s) (runControllers s) (executionRunIds s)).
Proof.
  intros Htx. unfold release_tx in Htx. tx_inv.
  - left. split_and!; [done|done|]. intros r' [= <-]. by apply negb_true_iff.
  - right. cbn. eexists _, _, _. split_and!; [done|by apply negb_false_iff| |done|reflexivity].
    by destruct failed.
  - by left.
Qed.

Lemma find_run_elem k s r : find_run s k = Some r → r ∈ runs s ∧ Run.id r = k.
Proof. intros [Hr Hk%bool_decide_eq_true]%find_elem. done. Qed.

(** No job keeps the released run: its only owner lost it. *)
Lemma released_not_active s k r j :
  consistent s → find_run s k = Some r → j ∈ jobs s → jb_activeRunId j = Some k →
  by_id (Run.ownerId r) j = true.
Proof.
  intros [Hr _ _ _ Ho] [Hin Hk]%find_run_elem Hj Ha. rewrite List.Forall_forall in Ho.
  destruct (Ho j (proj1 (list_elem_of_In _ _) Hj) k Ha) as (r' & Hr' & Hk' & Hown & _).
  assert (r' = r) as -> by (apply (unique_key Run.id (runs s)); congruence).
  by apply by_id_true.
Qed.

Lemma consistent_release_tx now k why failed s res s' :
  consistent s → release_tx now k why failed s = Ok (res, s') → consistent s'.
Proof.
  intros Hs [(-> & _)|(r & st & why' & Hfind & Hlive & Hdead & _ & ->)]%release_tx_shape; [done|].
  pose proof Hs as [Hr Hj Hp Hc Ho]. split; cbn.
  - by rewrite update_where_key.
  - by rewrite update_where_key.
  - apply Forall2_update_both; [|done]. intros r' x (H1 & H2 & H3 & _ & _). repeat split; try done. intros E. cbn in E. by subst st.
  - intros pool. etransitivity; [|apply (Hc pool)]. apply count_where_update_le.
    intros x _ _ [_ Ha]%andb_true_iff. cbn in Ha. by apply bool_decide_eq_true in Ha.
  - apply List.Forall_forall. intros j' (j & Hin & ->)%list_elem_of_In%elem_of_update.
    rewrite List.Forall_forall in Ho. specialize (Ho j (proj1 (list_elem_of_In _ _) Hin)).
    destruct (_ && _) eqn:Hq; [by intros ? ?|].
    apply owned_run_update; [done| |done]. intros r' _ Ha Hk _. exfalso.
    apply bool_decide_eq_true in Hk. rewrite Hk in Ha.
    rewrite (released_not_active s k r j Hs Hfind Hin Ha), bool_decide_eq_true_2 in Hq; done.
Qed.

(** ** Every operation *)

(** The run [k] exists and was released. *)
Definition ended (k : string) (s : work_db) : Prop :=
  ∃ r, r ∈ runs s ∧ Run.id r = k ∧ held r = false.

(** A step keeps the invariant and what has ended. *)
Definition good (s s' : work_db) : Prop :=
  consistent s → consistent s' ∧ ∀ k, ended k s → ended k s'.

#[local] Instance good_refl : Reflexive good.
Proof. by intros s Hs. Qed.

#[local] Instance good_trans : Transitive good.
Proof. intros s1 s2 s3 H12 H23 [H2 E12]%H12. destruct (H23 H2) as [H3 E23]. auto. Qed.

(** A step that keeps the runs. *)
Lemma good_same_runs s s' : runs s' = runs s → (consistent s → consistent s') → good s s'.
Proof. intros Hr Hc Hs. split; [auto|]. unfold ended. by rewrite Hr. Qed.

Lemma good_memory cs ids s : good s (set_memory cs ids s).
Proof. apply good_same_runs; [done|]. apply consistent_memory. Qed.

Lemma good_jobs p f s : keeps_run f → good s (set_jobs (update_where p f (jobs s)) s).
Proof. intros Hf. apply good_same_runs; [done|]. by apply consistent_jobs. Qed.

(** An update of runs that keeps identity and the release of a released run. *)
Lemma ended_update p f s k :
  keeps_identity f →
  (∀ r, r ∈ runs s → p r = true → held r = false → held (f r) = false) →
  ended k s → ended k (set_runs (update_where p f (runs s)) s).
Proof.
  intros Hf Hl (r & Hr & Hk & Hd). exists (if p r then f r else r).
  split; [apply elem_of_update; eauto|]. destruct (p r) eqn:Hp; [|done].
  destruct (Hf r) as (-> & _). auto.
Qed.

Lemma good_runs p f s :
  keeps_identity f →
  (∀ r, held (f r) = held r) → (∀ r, r ∈ runs s → p r = true → run_ok r → run_ok (f r)) →
  good s (set_runs (update_where p f (runs s)) s).
Proof.
  intros Hf Hl Hok Hs. split; [by apply consistent_runs; eauto|]. intros k. apply ended_update; [done|].
  intros r Hin Hp. by rewrite Hl.
Qed.

Lemma good_slot_lease p owner e s :
  good s (set_slots (update_where p (Slot.set_lease owner e) (slots s)) s).
Proof.
  apply good_same_runs; [done|]. intros [Hr Hj Hp Hc Ho]. split; cbn; try done.
  - apply Forall2_update_r; [|done]. done.
  - intros pool. etransitivity; [|apply (Hc pool)]. by apply count_where_update_le.
Qed.
#[local] Instance good_preorder : PreOrder good.
Proof. split; apply _. Qed.

Lemma good_transaction {E A} (m : txM work_db E A) s :
  Respects good m → good s (run_transaction m s).2.
Proof.
  intros Hm. unfold run_transaction. destruct (m s) as [[a s']|e] eqn:E'; [by apply (Hm s a s')|reflexivity].
Qed.

Lemma respects_jobs {E} p f :
  keeps_run f → Respects good (tx_modify (λ s, set_jobs (update_where p f (jobs s)) s) : txM _ E _).
Proof. intros Hf s a s' [= _ <-]. by apply good_jobs. Qed.

Lemma respects_run_lease {E} p owner e now :
  Respects good (tx_modify (λ s, set_runs (update_where p (Run.set_lease owner e now) (runs s)) s) : txM _ E _).
Proof. intros s a s' [= _ <-]. by apply good_runs. Qed.

Lemma respects_slot_lease {E} p owner e :
  Respects good (tx_modify (λ s, set_slots (update_where p (Slot.set_lease owner e) (slots s)) s) : txM _ E _).
Proof. intros s a s' [= _ <-]. apply good_slot_lease. Qed.

Lemma keeps_lease o e now : keeps_run (set_lease o e now). Proof. split; auto. Qed.
Lemma keeps_running o e now : keeps_run (set_running o e now). Proof. split; auto. Qed.
Lemma keeps_clear : keeps_run (set_activeRun None). Proof. split; auto. Qed.
Lemma keeps_to_pending now : keeps_run (to_pending now). Proof. split; auto. Qed.
Lemma keeps_patch now p : keeps_run (patch_row now p). Proof. split; auto. Qed.

#[local] Hint Resolve keeps_lease keeps_running keeps_clear keeps_to_pending keeps_patch
  good_jobs good_memory respects_jobs respects_run_lease respects_slot_lease : cp.

Lemma respects_take_job pr now u k p : Respects good (take_job pr now u k p).
Proof. unfold take_job. solve_respects. Qed.

Lemma respects_refresh_tx pr now k : Respects good (refresh_tx ttl pr now k).
Proof. unfold refresh_tx. solve_respects. Qed.

Lemma respects_fenced_tx now k k' p : Respects good (fenced_tx now k k' p).
Proof. unfold fenced_tx. solve_respects. Qed.

Lemma good_grows s s' l : runs s' = runs s ++ l → (consistent s → consistent s') → good s s'.
Proof.
  intros Hr Hc Hs. split; [auto|]. intros k (r & Hin & ?). exists r. split; [|done].
  rewrite Hr. apply elem_of_app. by left.
Qed.

Lemma claim_grows pr now k i s b s' :
  claim_tx cap ttl pr now k i s = Ok (b, s') → ∃ l, runs s' = runs s ++ l.
Proof.
  intros Htx. unfold claim_tx in Htx. tx_inv; try (exists []; by rewrite app_nil_r).
  apply insert_shape in Htx0 as [_ ->]. by eexists.
Qed.

Lemma claim_execution_grows pr now k u id s b s' :
  claim_execution_tx cap ttl pr now k u id s = Ok (b, s') → ∃ l, runs s' = runs s ++ l.
Proof.
  intros Htx. unfold claim_execution_tx in Htx. tx_inv; try (exists []; by rewrite app_nil_r).
  apply insert_shape in Htx0 as [_ ->]. by eexists.
Qed.

Lemma respects_claim_tx pr now k i : Respects good (claim_tx cap ttl pr now k i).
Proof.
  intros s b s' Htx. destruct (claim_grows _ _ _ _ _ _ _ Htx) as [l Hl].
  eapply good_grows; [done|]. intros Hs. by eapply consistent_claim_tx.
Qed.

Lemma respects_claim_execution pr now k u id : Respects good (claim_execution_tx cap ttl pr now k u id).
Proof.
  intros s b s' Htx. destruct (claim_execution_grows _ _ _ _ _ _ _ _ Htx) as [l Hl].
  eapply good_grows; [done|]. intros Hs. by eapply consistent_claim_execution.
Qed.

Lemma respects_release_tx now k why failed : Respects good (release_tx now k why failed).
Proof.
  intros s res s' Htx Hs. split; [by eapply consistent_release_tx|]. intros k'.
  apply release_tx_shape in Htx as [(-> & _)|(r & st & why' & _ & _ & Hdead & _ & ->)]; [done|].
  intros He. eapply (ended_update (run_by_id k)) in He; [exact He|done|]. done.
Qed.

#[local] Hint Resolve respects_take_job respects_refresh_tx respects_fenced_tx respects_claim_tx
  respects_claim_execution respects_release_tx : cp.

Lemma good_mark st why now k s :
  RunStatus.live st = true → st ≠ RunStatus.active → good s (mark_run st why now k s).
Proof. intros Hst Hne. apply good_runs; [done..|]. by intros r _ _ _. Qed.

(** A transaction followed by a change of the process memory. *)
Ltac good_tx m :=
  let Hg := fresh "Hg" in let E := fresh "E" in
  match goal with |- good ?s _ =>
    assert (good s (run_transaction m s).2) as Hg by (apply good_transaction; auto with cp);
    revert Hg; destruct (run_transaction m s) as [[?|?] ?] eqn:E; cbn; intros Hg;
    repeat case_match; cbn; try done; (etrans; [exact Hg|]; apply good_memory)
  end.

Lemma good_release now k why failed skip s : good s (releaseWorkloadSlot now k why failed skip s).2.
Proof. unfold releaseWorkloadSlot. good_tx (release_tx (C:=C) now k why failed). Qed.

Lemma good_claim pr now k i s : good s (claimWorkloadSlotTx cap ttl pr now k i s).2.
Proof. unfold claimWorkloadSlotTx. good_tx (claim_tx (C:=C) cap ttl pr now k i). Qed.

Lemma good_claim_for_job pr now k u id s : good s (claimExecutionSlotForJobTx cap ttl pr now k u id s).2.
Proof. unfold claimExecutionSlotForJobTx. good_tx (claim_execution_tx (C:=C) cap ttl pr now k u id). Qed.

Lemma good_refresh pr now k s : good s (refreshWorkloadLease ttl pr now k s).2.
Proof.
  pose proof (good_transaction _ s (respects_refresh_tx pr now k)) as Hg. revert Hg.
  unfold refreshWorkloadLease. by destruct (run_transaction _ _) as [[[]|] ?].
Qed.

Lemma good_fenced now k k' p s : good s (updateJobRowFenced now k k' p s).2.
Proof. apply good_transaction, respects_fenced_tx. Qed.

Lemma good_stale pr now k s : good s (clearStaleExecutionLeaseIfNeeded pr now k s).2.
Proof. unfold clearStaleExecutionLeaseIfNeeded. repeat case_match; cbn; [reflexivity|auto with cp|reflexivity]. Qed.

Lemma good_claim_slot pr now k u id s : good s (claimExecutionWorkloadSlot cap ttl pr now k u id s).2.
Proof.
  unfold claimExecutionWorkloadSlot. set (i := mkClaim _ _ _ _).
  pose proof (good_claim pr now k i s) as Hg. revert Hg.
  destruct (claimWorkloadSlotTx _ _ _ _ _ _ _) as [[[]|] s']; cbn; intros Hg; try done.
  etrans; [exact Hg|]. apply good_memory.
Qed.

Lemma good_release_execution now id why s : good s (releaseExecutionWorkloadSlot now id why s).2.
Proof.
  unfold releaseExecutionWorkloadSlot. destruct (_ !! id) as [k|]; [|reflexivity].
  set (s1 := set_memory _ _ s). pose proof (good_release now k why false false s1) as Hg. revert Hg.
  destruct (releaseWorkloadSlot _ _ _ _ _ _) as [[[]|] s']; cbn; intros Hg;
    (etrans; [apply good_memory|exact Hg]).
Qed.

Lemma good_acquire pr now u id oc s : good s (acquireExecutionLease pr now u id oc s).2.
Proof.
  unfold acquireExecutionLease. pose proof (good_stale pr now id s) as Hg. revert Hg.
  destruct (clearStaleExecutionLeaseIfNeeded _ _ _ _) as [b s']. cbn. intros Hg. etrans; [exact Hg|].
  repeat case_match; cbn; [by apply good_jobs, keeps_lease|reflexivity|].
  apply good_transaction. auto with cp.
Qed.

#[local] Hint Resolve good_release good_claim good_claim_for_job good_refresh good_fenced good_stale
  good_claim_slot good_release_execution good_acquire good_transaction : cp.

Lemma apply_op_good o s : good s (apply_op o s).
Proof.
  destruct o; cbn -[write_quarantined write_cancelling]; auto with cp.
  - by apply good_mark.
  - by apply good_mark.
  - by apply good_jobs, keeps_clear.
  - by apply good_runs.
  - unfold tryPromoteJobToRunning. case_match; [reflexivity|]. auto with cp.
  - by apply good_jobs, keeps_lease.
  - by apply good_jobs, keeps_lease.
  - by apply good_jobs, keeps_patch.
  - unfold persist_under_run. case_match; [auto with cp|reflexivity].
Qed.

Lemma run_ops_good os s : good s (run_ops os s).
Proof.
  revert s. induction os as [|o os IH]; intros s; [reflexivity|]. cbn.
  etrans; [apply apply_op_good|apply IH].
Qed.
(** ** Runs, slots and jobs agree *)

(** A database without runs: no job has an active run. *)
Definition no_runs (s : work_db) : Prop :=
  runs s = [] ∧ slots s = [] ∧ NoDup (map jb_id (jobs s)) ∧ Forall (λ j, jb_activeRunId j = None) (jobs s).

Lemma no_runs_consistent s : no_runs s → consistent s.
Proof.
  intros (Hr & Hx & Hj & Ha). split; rewrite ?Hr, ?Hx; try done; [by apply list.NoDup_nil| |].
  - intros pool. rewrite count_where_nil. lia.
  - revert Ha. apply Forall_impl. intros j Hj' k Hk. congruence.
Qed.

Lemma held_run_has_slot l l' k :
  Forall2 paired l l' →
  (∃ r, r ∈ l ∧ Run.id r = k ∧ held r = true) ↔
  (∃ x, x ∈ l' ∧ Slot.runId x = k ∧ Slot.status x = SlotStatus.active).
Proof.
  induction 1 as [|r x l l' (Hid & _ & _ & _ & Hlive) H IH];
    [split; intros (? & ?%not_elem_of_nil & _); done|].
  setoid_rewrite elem_of_cons. split.
  - intros (r' & [->|Hr'] & Hk & Hl).
    + exists x. split_and!; [by left|congruence|]. rewrite Hlive in Hl. by apply bool_decide_eq_true in Hl.
    + destruct IH as [(x' & ? & ?) _]; [eauto|]. exists x'. auto.
  - intros (x' & [->|Hx'] & Hk & Hl).
    + exists r. split_and!; [by left|congruence|]. rewrite Hlive. by apply bool_decide_eq_true.
    + destruct IH as [_ (r' & ? & ?)]; [eauto|]. exists r'. auto.
Qed.

Lemma paired_ok l l' r : Forall2 paired l l' → r ∈ l → run_ok r.
Proof.
  intros Hp [i Hi]%list_elem_of_lookup. by destruct (Forall2_lookup_l _ _ _ _ _ Hp Hi) as (x & _ & _ & _ & _ & ? & _).
Qed.

(** C3: Runs, slots and jobs agree, and the capacity of a pool is never exceeded: after any
    sequence of claims, releases, lease refreshes, marks and job updates that starts without
    runs, each pool has at most its capacity of active slots, a slot is active exactly while its
    run was not released, such a run is live, and the active run of a job is such a run of that
    job. A mark is checked and written in two steps with anything in between: a run that was
    released can be marked cancelling or stopping by a late write, but is never active again and
    gets no slot. *)
Theorem runs_slots_jobs_agree os s :
  no_runs s →
  let s' := run_ops os s in
  (∀ pool, count_where (active_in_pool pool) (slots s') ≤ cap) ∧
  (∀ k, (∃ r, r ∈ runs s' ∧ Run.id r = k ∧ Run.releasedAt r = None) ↔
        (∃ x, x ∈ slots s' ∧ Slot.runId x = k ∧ Slot.status x = SlotStatus.active)) ∧
  (∀ r, r ∈ runs s' → Run.releasedAt r = None → RunStatus.live (Run.status r) = true) ∧
  (∀ r, r ∈ runs s' → Run.status r = RunStatus.active → Run.releasedAt r = None) ∧
  (∀ j k, j ∈ jobs s' → jb_activeRunId j = Some k →
     ∃ r, r ∈ runs s' ∧ Run.id r = k ∧ Run.ownerId r = jb_id j ∧ Run.releasedAt r = None).
Proof.
  intros Hs%no_runs_consistent s'. destruct (run_ops_good os s Hs) as [[Hr Hj Hp Hc Ho] _].
  split_and!; [done|..].
  - intros k. etransitivity; [|exact (held_run_has_slot _ _ k Hp)]. unfold held. by setoid_rewrite bool_decide_eq_true.
  - intros r Hin Hh. apply (paired_ok _ _ r Hp Hin). by apply bool_decide_eq_true.
  - intros r Hin Hst. by apply (paired_ok _ _ r Hp Hin), bool_decide_eq_true in Hst.
  - intros j k Hin Ha. rewrite List.Forall_forall in Ho.
    destruct (Ho j (proj1 (list_elem_of_In _ _) Hin) k Ha) as (r & ? & ? & ? & Hh%bool_decide_eq_true). by exists r.
Qed.

(** ** A released run is fenced off for good *)

Lemma ended_find k s r : consistent s → ended k s → find_run s k = Some r → held r = false.
Proof.
  intros Hs (r' & Hr' & Hk' & Hd) [Hr Hk]%find_run_elem.
  by assert (r = r') as -> by (apply (unique_key Run.id (runs s)); [apply Hs|congruence..]).
Qed.

Lemma ended_not_active k s j : consistent s → ended k s → j ∈ jobs s → jb_activeRunId j ≠ Some k.
Proof.
  intros Hs (r & Hr & Hk & Hd) Hj Ha. destruct Hs as [Hnd _ _ _ Ho]. rewrite List.Forall_forall in Ho.
  destruct (Ho j (proj1 (list_elem_of_In _ _) Hj) k Ha) as (r' & Hr' & Hk' & _ & Hl).
  assert (r = r') as -> by (apply (unique_key Run.id (runs s)); congruence). congruence.
Qed.

Lemma released_ended now k why failed skip s res s' :
  consistent s → releaseWorkloadSlot now k why failed skip s = (Ok res, s') → rr_run res.1 ≠ None → ended k s'.
Proof.
  unfold releaseWorkloadSlot, run_transaction. intros Hs.
  destruct (release_tx now k why failed s) as [[res' s1]|e] eqn:E; [|done].
  intros [= <- <-] Hrun. cbn [fst] in Hrun.
  assert (ended k s1) as He; [|by destruct (rr_run res')].
  pose proof (release_tx_run _ _ _ _ _ _ _ E) as Hfind.
  apply release_tx_shape in E as [(-> & _ & Hd)|(r & st & why' & Hf & _ & Hd & _ & ->)].
  - destruct (find_run s k) as [r|] eqn:Hf; [|done]. apply find_run_elem in Hf as [Hr Hk].
    exists r. split_and!; [done|done|]. apply not_true_iff_false. intros Hh.
    apply (paired_ok _ _ r (co_paired _ Hs) Hr) in Hh. rewrite (Hd r eq_refl) in Hh. done.
  - apply find_run_elem in Hf as [Hr Hk].
    exists (Run.set_status st why' now (Some now) r). split; [|done]. cbn.
    apply elem_of_update. exists r. unfold run_by_id. by rewrite bool_decide_eq_true_2.
Qed.

Lemma ended_fence k s jobId : consistent s → ended k s → count_where (jobRowFence jobId k) (jobs s) = 0.
Proof.
  intros Hs He. apply count_where_0. intros j Hj. apply andb_false_iff. right.
  apply bool_decide_eq_false. exact (ended_not_active k s j Hs He Hj).
Qed.

Lemma ended_writable k s jobId : consistent s → ended k s → assertRunWritable jobId k s = false.
Proof.
  intros Hs He. apply andb_false_iff. right. apply bool_decide_eq_false.
  destruct (find_run s k) as [r|] eqn:Hf; [|done]. cbn. intros [= Hst].
  pose proof (proj1 (find_run_elem _ _ _ Hf)) as Hr. apply ended_find in Hf; [|done..].
  apply (paired_ok _ _ r (co_paired _ Hs) Hr) in Hst. congruence.
Qed.

Lemma ended_active k s jobId : consistent s → ended k s → assertRunActive jobId k s = false.
Proof.
  intros Hs He. unfold assertRunActive, getActiveRun.
  destruct (activeRunId_of jobId s) as [k'|] eqn:Ha; [cbn|done].
  destruct (find_run s k') as [r|] eqn:Hf; [cbn|done]. destruct (RunStatus.live (Run.status r)); [|done].
  apply bool_decide_eq_false. intros Hk. pose proof (find_run_elem _ _ _ Hf) as [_ Hk'].
  assert (k' = k) as -> by congruence. apply bind_Some in Ha as (j & Hj & Ha).
  apply find_elem in Hj as [Hj _]. by apply (ended_not_active k s j).
Qed.

Lemma ended_refresh k s pr now :
  consistent s → ended k s → refreshWorkloadLease ttl pr now k s = (Err "workspace.lease_lost", s).
Proof.
  intros Hs (r & Hr & Hk & Hd). unfold refreshWorkloadLease, run_transaction, refresh_tx.
  assert (count_where (run_refreshable (leaseOwner pr) now k) (runs s) = 0) as Hn; [|cbn; by rewrite Hn].
  apply count_where_0. intros r' Hr'. unfold run_refreshable. rewrite <-andb_assoc.
  destruct (run_by_id k r') eqn:E; [|done]. apply bool_decide_eq_true in E.
  assert (r' = r) as -> by (apply (unique_key Run.id (runs s)); [apply Hs|congruence..]).
  cbn. apply andb_false_iff. left. apply bool_decide_eq_false. intros Hst.
  apply (paired_ok _ _ r (co_paired _ Hs) Hr) in Hst. congruence.
Qed.

(** C6: A run that was released stays fenced for ever: after any later sequence of operations a
    fenced update or a progress write under it changes nothing, it does not count as the active
    run of any job, and it cannot refresh its lease. *)
Theorem released_run_never_writes now k why failed skip s res s1 os :
  consistent s →
  releaseWorkloadSlot now k why failed skip s = (Ok res, s1) → rr_run res.1 ≠ None →
  let s2 := run_ops os s1 in
  ∀ now' jobId p,
    updateJobRowFenced now' jobId k p s2 = (Ok None, s2) ∧
    persist_under_run now' jobId k p s2 = (Ok None, s2) ∧
    assertRunActive jobId k s2 = false ∧
    ∀ pr, refreshWorkloadLease ttl pr now' k s2 = (Err "workspace.lease_lost", s2).
Proof.
  intros Hs Hrel Hrun s2 now' jobId p.
  pose proof (released_ended _ _ _ _ _ _ _ _ Hs Hrel Hrun) as He.
  destruct (good_release now k why failed skip s Hs) as [Hs1 _]. rewrite Hrel in Hs1. cbn in Hs1.
  destruct (run_ops_good os s1 Hs1) as [Hs2 He2]. specialize (He2 k He). fold s2 in Hs2, He2.
  split_and!; [| |by apply ended_active|intros pr; by apply ended_refresh].
  - unfold updateJobRowFenced, run_transaction, fenced_tx. cbn.
    pose proof (ended_fence k s2 jobId Hs2 He2) as Hn. rewrite count_where_0 in Hn.
    by rewrite (proj2 (find_none_elem _ _) Hn).
  - unfold persist_under_run. by rewrite ended_writable.
Qed.

(** ** Release happens once *)

Lemma filter_twice {A} (p : A → bool) l : List.filter p (List.filter p l) = List.filter p l.
Proof. induction l as [|a l IH]; [done|]. cbn. destruct (p a) eqn:E; cbn; rewrite ?E, IH; done. Qed.

(** What a repeated release does. *)
Lemma release_again now k why failed s :
  (∀ r, find_run s k = Some r → RunStatus.live (Run.status r) = false) →
  ∃ res, release_tx now k why failed s = Ok (res, s) ∧ rr_released res = false ∧ rr_run res = find_run s k.
Proof.
  intros Hd. unfold release_tx. cbn. destruct (find_run s k) as [r|] eqn:Hf; [|eauto].
  cbn. rewrite (Hd r eq_refl). eauto.
Qed.

Lemma release_controllers now k why failed skip s res s1 :
  releaseWorkloadSlot now k why failed skip s = (Ok res, s1) → rr_run res.1 ≠ None →
  List.filter (λ c, negb (bool_decide (c = k))) (runControllers s1) = runControllers s1.
Proof.
  unfold releaseWorkloadSlot. destruct (run_transaction _ _) as [[res'|] s']; [|done].
  intros [= <- <-] Hrun. cbn in *. destruct (rr_run res'); [|done]. cbn. apply filter_twice.
Qed.

Lemma release_absent now k why failed skip s res s1 :
  releaseWorkloadSlot now k why failed skip s = (Ok res, s1) → rr_run res.1 = None → find_run s1 k = None.
Proof.
  unfold releaseWorkloadSlot, run_transaction.
  destruct (release_tx now k why failed s) as [[res' s']|e] eqn:E; [|done]. intros [= <- <-]. cbn [fst].
  intros Hn. rewrite Hn. pose proof (release_tx_run _ _ _ _ _ _ _ E) as Hfind. rewrite Hn in Hfind.
  apply release_tx_shape in E as [(-> & _)|(r' & ? & ? & Hf & _)]; congruence.
Qed.

Lemma released_dead now k why failed skip s res s1 r :
  releaseWorkloadSlot now k why failed skip s = (Ok res, s1) → rr_run res.1 ≠ None →
  find_run s1 k = Some r → RunStatus.live (Run.status r) = false.
Proof.
  unfold releaseWorkloadSlot, run_transaction.
  destruct (release_tx now k why failed s) as [[res' s']|e] eqn:E; [|done]. intros [= <- <-] Hrun. cbn [fst] in Hrun.
  assert (find_run s' k = Some r → RunStatus.live (Run.status r) = false) as H; [|by destruct (rr_run res')].
  apply release_tx_shape in E as [(-> & _ & Hd)|(r0 & st & why' & Hf & _ & Hd & _ & ->)]; [apply Hd|].
  unfold find_run. cbn. rewrite find_update by done. unfold find_run in Hf. rewrite Hf. cbn.
  apply List.find_some in Hf as [_ ->]. by intros [= <-].
Qed.

Theorem release_is_idempotent now k why failed skip s res s1 :
  consistent s → releaseWorkloadSlot now k why failed skip s = (Ok res, s1) →
  rr_released res.1 = match find_run s k with Some r => RunStatus.live (Run.status r) | None => false end ∧
  ∀ now' why' failed' skip', ∃ res',
    releaseWorkloadSlot now' k why' failed' skip' s1 = (Ok res', s1) ∧ rr_released res'.1 = false.
Proof.
  intros Hs Hrel. split.
  { revert Hrel. unfold releaseWorkloadSlot, run_transaction.
    destruct (release_tx now k why failed s) as [[res' s']|e] eqn:E; [|done]. intros [= <- _]. cbn [fst].
    apply release_tx_shape in E as [(_ & -> & Hd)|(r & st & why' & -> & -> & _ & -> & _)]; [|done].
    destruct (find_run s k); [symmetry; auto|done]. }
  destruct (good_release now k why failed skip s Hs) as [Hs1 _]. rewrite Hrel in Hs1. cbn in Hs1.
  intros now' why' failed' skip'. unfold releaseWorkloadSlot at 1, run_transaction.
  edestruct (release_again now' k why' failed' s1) as (res' & -> & Hno & Hrun).
  - intros r Hf. destruct (rr_run res.1) as [r'|] eqn:Hr'.
    + eapply released_dead; [exact Hrel|by rewrite Hr'|done].
    + apply (release_absent _ _ _ _ _ _ _ _ Hrel) in Hr'. congruence.
  - eexists (res', _). split; [|exact Hno]. f_equal. destruct (rr_run res') eqn:Hr'; [|done].
    rewrite (release_controllers now k why failed skip s res s1 Hrel); [by destruct s1|].
    intros Hn%(release_absent _ _ _ _ _ _ _ _ Hrel). congruence.
Qed.
(** ** A claim for execution *)

Lemma paired_ids l l' : Forall2 paired l l' → map Slot.runId l' = map Run.id l.
Proof. induction 1 as [|r x l l' [Hid _] H IH]; [done|]. cbn. by rewrite Hid, IH. Qed.

Lemma insert_fresh r x s :
  Run.id r ∉ map Run.id (runs s) → Slot.runId x ∉ map Slot.runId (slots s) →
  insert_run_and_slot r x s =
  Ok (tt, mkWork (runs s ++ [r]) (slots s ++ [x]) (jobs s) (deletions s) (runControllers s) (executionRunIds s)).
Proof.
  intros Hr Hx. unfold insert_run_and_slot. cbn.
  replace (existsb (run_by_id (Run.id r)) (runs s)) with false; cbn.
  replace (existsb (slot_by_run (Slot.runId x)) (slots s)) with false; [done|].
  - symmetry. rewrite existsb_count, negb_false_iff. apply bool_decide_eq_true, count_where_0.
    intros x' Hin. apply bool_decide_eq_false. intros Hk. apply Hx. rewrite <-Hk.
    by apply list_elem_of_In, in_map, list_elem_of_In.
  - symmetry. rewrite existsb_count, negb_false_iff. apply bool_decide_eq_true, count_where_0.
    intros r' Hin. apply bool_decide_eq_false. intros Hk. apply Hr. rewrite <-Hk.
    by apply list_elem_of_In, in_map, list_elem_of_In.
Qed.

(** What the claim leaves behind when it succeeds. *)
Definition claimed (pr : process) (now : Z) (k u id : string) (s s' : work_db) : Prop :=
  count_where (active_in_pool "execution") (slots s') = S (count_where (active_in_pool "execution") (slots s)) ∧
  assertRunWritable id k s' = true ∧ hasLocalExecutionLease pr now u id s' = true ∧
  executionRunIds s' !! id = Some k ∧ k ∈ runControllers s'.

Lemma find_job_claimable s j u id :
  consistent s → j ∈ jobs s → claimable u id j = true → find_job s id = Some j.
Proof.
  intros Hs Hj (<- & _)%claimable_true. apply (find_by_key jb_id); [apply Hs|done].
Qed.

Lemma claimed_intro pr now k u id s ds cs :
  consistent s → k ∉ map Run.id (runs s) → count_where (claimable u id) (jobs s) ≠ 0 →
  let i := mkClaim u id RunKind.execution "execution" in
  claimed pr now k u id s
    (mkWork (runs s ++ [new_run ttl pr now k i]) (slots s ++ [new_slot ttl pr now k i])
       (update_where (claimable u id)
          (λ j, set_activeRun (Some k) (set_running (leaseOwner pr) (now + EXECUTION_LEASE_TTL_SEC) now j))
          (jobs s))
       ds (cs ++ [k]) (<[id := k]> (executionRunIds s))).
Proof.
  intros Hs Hk Hn i. destruct (select_where (claimable u id) (jobs s)) as [|j l] eqn:Hsel.
  { unfold count_where in Hn. by rewrite Hsel in Hn. }
  assert (j ∈ jobs s ∧ claimable u id j = true) as [Hj Hc] by (apply elem_of_select; rewrite Hsel; left).
  pose proof (find_job_claimable _ _ _ _ Hs Hj Hc) as Hfind.
  set (f := λ j, set_activeRun _ _).
  assert (f j ∈ update_where (claimable u id) f (jobs s)) as Hin.
  { apply elem_of_update. exists j. by rewrite Hc. }
  pose proof Hc as Hc'. apply claimable_true in Hc as (Hid & Hu & _). split_and!; cbn.
  - rewrite count_where_app, count_where_cons, count_where_nil.
    change (active_in_pool "execution" (new_slot ttl pr now k i)) with true. cbn. lia.
  - apply andb_true_iff. split; apply bool_decide_eq_true.
    + unfold activeRunId_of, find_job. cbn. rewrite find_update by done.
      unfold find_job in Hfind. rewrite Hfind. cbn. by rewrite Hc'.
    + unfold find_run. cbn. pose proof (find_by_key Run.id (runs s ++ [new_run ttl pr now k i])
        (new_run ttl pr now k i)) as Hf. rewrite map_app in Hf.
      change (Run.id (new_run ttl pr now k i)) with k in Hf. unfold run_by_id.
      rewrite Hf; [done|apply NoDup_snoc; [apply Hs|done]|apply elem_of_snoc; by right].
  - apply existsb_exists. exists (f j). split; [by apply list_elem_of_In|].
    unfold by_id. cbn. rewrite !bool_decide_eq_true_2 by done. cbn. apply bool_decide_eq_true.
    unfold EXECUTION_LEASE_TTL_SEC. lia.
  - apply lookup_insert_eq.
  - apply elem_of_snoc. by right.
Qed.

Lemma claim_for_job_outcome pr now k u id s :
  consistent s → k ∉ map Run.id (runs s) →
  let ok := negb (isEntityDeletionBlocked "thread_job" id s) && negb (pool_full cap "execution" s) &&
            existsb (claimable u id) (jobs s) in
  let '(res, s') := claimExecutionSlotForJobTx cap ttl pr now k u id s in
  res = Ok ok ∧ if ok then claimed pr now k u id s s' else s' = s.
Proof.
  intros Hs Hk. unfold claimExecutionSlotForJobTx, run_transaction, claim_execution_tx.
  cbn. rewrite existsb_count. destruct (isEntityDeletionBlocked "thread_job" id s); [done|]. cbn.
  destruct (pool_full cap "execution" s); [done|]. cbn.
  destruct (bool_decide (count_where (claimable u id) (jobs s) = 0)) eqn:Hn; cbn.
  { apply bool_decide_eq_true in Hn. rewrite update_where_none by done. by destruct s. }
  unfold tx_bind. rewrite insert_fresh; cbn; [|done|rewrite (paired_ids _ _ (co_paired _ Hs)); done].
  split; [done|]. apply bool_decide_eq_false in Hn. by apply claimed_intro.
Qed.

(** The atomic claim of an execution slot succeeds exactly when the job is not being
    deleted, the execution pool has room and the job is claimable; then the run is writable, the
    lease is held by this process and one slot more is in use, and otherwise nothing changes. *)
Theorem claim_for_job_decides pr now k u id s :
  consistent s → k ∉ map Run.id (runs s) →
  let ok := negb (isEntityDeletionBlocked "thread_job" id s) && negb (pool_full cap "execution" s) &&
            existsb (claimable u id) (jobs s) in
  let '(res, s') := claimExecutionSlotForJobTx cap ttl pr now k u id s in
  res = Ok ok ∧ if ok then claimed pr now k u id s s' else s' = s.
Proof. apply claim_for_job_outcome. Qed.
End specs.

(** ** The order of the queue *)

Lemma ascii_compare_spec a b : Ascii.compare a b = N.compare (Ascii.N_of_ascii a) (Ascii.N_of_ascii b).
Proof. done. Qed.

Lemma string_ltb_spec s t : String.ltb s t = true ↔ String.compare s t = Lt.
Proof. unfold String.ltb. destruct (String.compare s t); naive_solver. Qed.

Lemma N_of_ascii_inj a b : Ascii.N_of_ascii a = Ascii.N_of_ascii b → a = b.
Proof. intros H. rewrite <-(Ascii.ascii_N_embedding a), <-(Ascii.ascii_N_embedding b). by rewrite H. Qed.

(** A text below another is below a third one, or the third is below the other. *)
Lemma string_lt_split a b c : String.compare c a = Lt → String.compare c b = Lt ∨ String.compare b a = Lt.
Proof.
  revert b c. induction a as [|x a IH]; intros [|y b] [|z c]; cbn; try (intros; (discriminate || tauto)).
  rewrite !ascii_compare_spec.
  destruct (N.compare_spec (Ascii.N_of_ascii z) (Ascii.N_of_ascii x)) as [E|E|E]; [|intros _|done].
  - intros Hlt. apply N_of_ascii_inj in E as ->.
    destruct (N.compare_spec (Ascii.N_of_ascii x) (Ascii.N_of_ascii y)) as [E|E|E]; [|by left|].
    + rewrite E, N.compare_refl. auto.
    + right. apply N.compare_lt_iff in E. by rewrite E.
  - destruct (N.compare_spec (Ascii.N_of_ascii z) (Ascii.N_of_ascii y)) as [E'|E'|E']; [|by left|].
    + right. rewrite <-E'. apply N.compare_lt_iff in E. by rewrite E.
    + right. replace (N.compare _ _) with Lt; [done|]. symmetry. apply N.compare_lt_iff. lia.
Qed.

Section fifo.
Context {C : Type}.
Implicit Types (a b c j k : @job_row C).

(** Creation time and id. *)
Definition tie_lt a b : bool :=
  bool_decide (jb_createdAt a < jb_createdAt b)%Z ||
  (bool_decide (jb_createdAt a = jb_createdAt b) && String.ltb (jb_id a) (jb_id b)).

Lemma tie_lt_split a b c : tie_lt c a = true → tie_lt c b = true ∨ tie_lt b a = true.
Proof.
  unfold tie_lt. rewrite !orb_true_iff, !andb_true_iff, !bool_decide_eq_true, !string_ltb_spec.
  intros [Hlt|[He Hs]].
  - destruct (Z.lt_trichotomy (jb_createdAt c) (jb_createdAt b)) as [?|[?|?]]; [tauto| |];
      right; left; lia.
  - destruct (Z.lt_trichotomy (jb_createdAt c) (jb_createdAt b)) as [?|[Hb|?]]; [tauto| |right; left; lia].
    apply (string_lt_split _ (jb_id b)) in Hs as [Hs|Hs]; [left|right]; right; split; congruence.
Qed.

Lemma fifo_lt_split a b c : fifo_lt c a = true → fifo_lt c b = true ∨ fifo_lt b a = true.
Proof.
  unfold fifo_lt. fold (tie_lt c a) (tie_lt c b) (tie_lt b a).
  destruct (jb_planConfirmedAt a) as [x|], (jb_planConfirmedAt b) as [y|], (jb_planConfirmedAt c) as [z|];
    try (intros; (discriminate || tauto)); [|apply tie_lt_split].
  rewrite !orb_true_iff, !andb_true_iff, !bool_decide_eq_true. intros [Hlt|[-> Ht]].
  - destruct (Z.lt_trichotomy z y) as [?|[?|?]]; [tauto| |]; right; left; lia.
  - destruct (Z.lt_trichotomy x y) as [?|[->|?]]; [tauto| |right; left; lia].
    apply (tie_lt_split _ b) in Ht. tauto.
Qed.

Lemma tie_lt_asym a b : tie_lt a b = true → tie_lt b a = false.
Proof.
  unfold tie_lt. rewrite orb_true_iff, andb_true_iff, !bool_decide_eq_true, string_ltb_spec.
  intros Hab. apply not_true_iff_false.
  rewrite orb_true_iff, andb_true_iff, !bool_decide_eq_true, string_ltb_spec. intros Hba.
  destruct Hab as [?|[? Hs]], Hba as [?|[? Hs']]; try lia.
  rewrite String.compare_antisym, Hs in Hs'. done.
Qed.

Lemma fifo_lt_asym a b : fifo_lt a b = true → fifo_lt b a = false.
Proof.
  unfold fifo_lt. fold (tie_lt a b) (tie_lt b a).
  destruct (jb_planConfirmedAt a) as [x|], (jb_planConfirmedAt b) as [y|]; try done; [|apply tie_lt_asym].
  rewrite orb_true_iff, andb_true_iff, !bool_decide_eq_true. intros Hab.
  apply orb_false_iff. rewrite andb_false_iff, !bool_decide_eq_false.
  destruct Hab as [?|[-> Ht%tie_lt_asym]]; [split; [|left]; lia|split; [lia|tauto]].
Qed.

Lemma fifo_lt_irrefl a : fifo_lt a a = false.
Proof. destruct (fifo_lt a a) eqn:E; [|done]. pose proof (fifo_lt_asym _ _ E). congruence. Qed.

Lemma first_in_order_min (l : list (@job_row C)) :
  match first_in_order l with
  | Some j => j ∈ l ∧ ∀ j', j' ∈ l → fifo_lt j' j = false
  | None => l = []
  end.
Proof.
  induction l as [|a l IH]; [done|]. cbn. destruct (first_in_order l) as [k|].
  - destruct IH as [Hk Hmin]. destruct (fifo_lt k a) eqn:E.
    + split; [by right|]. intros j' [->|Hj']%elem_of_cons; [by apply fifo_lt_asym|auto].
    + split; [by left|]. intros j' [->|Hj']%elem_of_cons; [apply fifo_lt_irrefl|].
      apply not_true_iff_false. intros [H|H]%(fifo_lt_split _ k); [|congruence].
      by rewrite Hmin in H.
  - subst l. split; [by left|]. intros j' ->%list_elem_of_singleton. apply fifo_lt_irrefl.
Qed.

(** A pending job of the user the queue is asked for. *)
Definition waiting (username : option string) (j : @job_row C) : Prop :=
  (∀ u, username = Some u → u ≠ "" → jb_username j = u) ∧ jb_status j = "pending".

Lemma waiting_spec username s j :
  j ∈ select_where (λ j, match username with
                         | Some u => bool_decide (u = "") || bool_decide (jb_username j = u)
                         | None => true
                         end && bool_decide (jb_status j = "pending")) (jobs s) ↔
  j ∈ jobs s ∧ waiting username j.
Proof.
  rewrite elem_of_select, andb_true_iff, bool_decide_eq_true. unfold waiting.
  destruct username as [u|]; [rewrite orb_true_iff, !bool_decide_eq_true|naive_solver].
  split.
  - intros (Hj & [->|Hu] & Hs); split_and!; [done| |done|done| |done]; naive_solver.
  - intros (Hj & Hu & Hs). split_and!; [done| |done]. destruct (decide (u = "")); [by left|right]. auto.
Qed.

(** The pending job that runs next is a waiting one that no other waiting job precedes in
    the order of the queue (confirmation of the plan, then creation, then id); none is chosen
    only when none waits. *)
Theorem queue_is_fifo username (s : @work_db C) :
  match findNextPendingJob username s with
  | Some j => j ∈ jobs s ∧ waiting username j ∧
              ∀ j', j' ∈ jobs s → waiting username j' → fifo_lt j' j = false
  | None => ∀ j, j ∈ jobs s → ~ waiting username j
  end.
Proof.
  unfold findNextPendingJob. set (l := select_where _ _). pose proof (first_in_order_min l) as Hmin.
  destruct (first_in_order l) as [j|].
  - destruct Hmin as [Hj Hmin]. apply waiting_spec in Hj as [Hj Hw]. split_and!; [done|done|].
    intros j' Hj' Hw'. apply Hmin, waiting_spec. done.
  - intros j Hj Hw. assert (j ∈ l) as Hin by (by apply waiting_spec).
    rewrite Hmin in Hin. by apply not_elem_of_nil in Hin.
Qed.
End fifo.
