(* ===== verification/QueueCoordinator.v ===== *)
(** * The execution queue

    Models [src/server/legacy-control-plane/queue-coordinator.ts] and the
    queries of [workload-slot.ts] it uses: how the stores of jobs, runs and
    slots, of workspace leases and of task attempts work together when a job is
    started or resumed.  The state has the three stores and the calls of
    [scheduleJobExecution].  What the process knows is an argument: whether it
    drains, its active loops, and the texts of the two errors.  Snapshots sent
    to the event bus are not part of the state; each function runs without
    interruption.  [resumeJobExecution] only resets a flag of the process, which is
    not part of the state. *)
From stdpp Require Import pretty.
From Stdlib Require Import Ascii.
From S2P Require Import Prelude Json JsString Path Sql WorkspaceLease TaskAttempts.
From S2P Require Import WorkloadSlots JobRows WorkloadSpecs.
#[local] Arguments bool_decide : simpl never.

Section coordinator.
Context `{FileSystem} {C : Type}.
Notation job_row := (@job_row C).
Notation work_db := (@work_db C).

(** The parts of a job's content the coordinator reads. *)
Context (hasTasks : C → bool) (workspacePath : C → option string).
Context (capacity : nat) (workloadTtl leaseTtl : Z) (pr : process).
Context (emptyTreeError uncertainError : string).

Record world := mkWorld {
  w_work : work_db;
  w_leases : lease_state;
  w_ledger : ledger;
  w_scheduled : list (string * string * option string)
}.

Definition set_work (x : work_db) (w : world) : world := mkWorld x (w_leases w) (w_ledger w) (w_scheduled w).
Definition set_lease_state (x : lease_state) (w : world) : world :=
  mkWorld (w_work w) x (w_ledger w) (w_scheduled w).
Definition scheduleJobExecution (username jobId : string) (slot : option string) (w : world) : world :=
  mkWorld (w_work w) (w_leases w) (w_ledger w) (w_scheduled w ++ [(username, jobId, slot)]).

Definition getUserJob (username jobId : string) (w : world) : option job_row :=
  List.find (λ j, by_id jobId j && bool_decide (jb_username j = username)) (jobs (w_work w)).

Definition lease_input (jobId : string) (j : job_row) : AcquireWorkspaceLeaseInput :=
  mkAcquire (default "" (workspacePath (jb_content j))) OwnerKind.thread_job jobId None.

Definition status_patch (st err : string) (kind reason : option (option string)) (continue : option bool) :
    patch C :=
  mkPatch (Some st) None (Some (Some err)) kind continue reason true id.

(** ** Starting a pending job *)

(** [Err]: the promise is rejected with this error. *)
Definition startPendingExecutionJob (now : Z) (runId leaseId username jobId : string) (w : world) :
    result string unit * world :=
  if isEntityDeletionBlocked "thread_job" jobId (w_work w) then (Ok tt, w)
  else match getUserJob username jobId w with
  | None => (Ok tt, w)
  | Some j =>
      if negb (bool_decide (jb_status j = "pending")) then (Ok tt, w)
      else if negb (hasTasks (jb_content j)) then
        (Ok tt, set_work (updateJobRow now jobId (status_patch "failed" emptyTreeError None None None) (w_work w)) w)
      else
        let '(lease, l1) := acquireWorkspaceLease leaseTtl (lease_input jobId j) leaseId now (w_leases w) in
        let w1 := set_lease_state l1 w in
        match lease with
        | Err e => (Err e, w1)
        | Ok None => (Ok tt, w1)
        | Ok (Some a) =>
            let '(slot, s2) := claimExecutionSlotForJobTx capacity workloadTtl pr now runId username jobId (w_work w1) in
            let w2 := set_work s2 w1 in
            match slot with
            | Err e => (Err e, w2)
            | Ok true => (Ok tt, scheduleJobExecution username jobId (Some runId) w2)
            | Ok false =>
                if bool_decide (jb_status <$> getUserJob username jobId w2 = Some "running") then (Ok tt, w2)
                else (Ok tt, set_lease_state (releaseWorkspaceLease (ar_leaseId a) None now (w_leases w2)).2 w2)
            end
        end
  end.

(** ** Resuming an interrupted job *)

Definition settleUncertainProviderOutcome (now : Z) (username jobId : string) (w : world) : world :=
  match getUserJob username jobId w with
  | None => w
  | Some _ =>
      set_work (clearExecutionLease now jobId
        (updateJobRow now jobId
           (status_patch "paused" uncertainError (Some (Some "policy_hold"))
              (Some (Some "uncertain_provider_outcome")) (Some false)) (w_work w))) w
  end.

(** [executing]: a loop of the job runs in this process; [occupant]: a loop of
    another job of the user does. *)
Definition resumeInterruptedRunningJob (now : Z) (leaseId username jobId : string) (executing : bool)
    (occupant : option string) (w : world) : result string bool * world :=
  if isEntityDeletionBlocked "thread_job" jobId (w_work w) then (Ok false, w)
  else if executing then (Ok true, w)
  else match getUserJob username jobId w with
  | None => (Ok false, w)
  | Some j =>
      if negb (bool_decide (jb_status j = "running")) then (Ok false, w)
      else if jobHasUncertainReplayFence jobId (w_ledger w) then
        (Ok false, settleUncertainProviderOutcome now username jobId w)
      else
        let '(held, s1) := acquireExecutionLease pr now username jobId occupant (w_work w) in
        let w1 := set_work s1 w in
        match held with
        | Err e => (Err e, w1)
        | Ok false => (Ok false, w1)
        | Ok true =>
            let '(lease, l2) := acquireWorkspaceLease leaseTtl (lease_input jobId j) leaseId now (w_leases w1) in
            let w2 := set_lease_state l2 w1 in
            match lease with
            | Err e => (Err e, w2)
            | Ok None => (Ok false, set_work (clearExecutionLease now jobId (w_work w2)) w2)
            | Ok (Some _) => (Ok true, scheduleJobExecution username jobId None w2)
            end
        end
  end.

(** ** Advancing the queue *)

(** [WHERE status = 'running' ORDER BY updated_at LIMIT 1] *)
Fixpoint oldest_running (l : list job_row) : option job_row :=
  match l with
  | [] => None
  | j :: l' =>
      if bool_decide (jb_status j = "running") then
        match oldest_running l' with
        | Some k => if bool_decide (jb_updatedAt k < jb_updatedAt j)%Z then Some k else Some j
        | None => Some j
        end
      else oldest_running l'
  end.

Definition findDbRunningJobGlobal (w : world) : option job_row := oldest_running (jobs (w_work w)).

Definition isWorkloadSlotLeaseLive (now : Z) (x : Slot.t) : bool :=
  bool_decide (Slot.leaseOwner x = Some (leaseOwner pr)) &&
  match Slot.leaseExpiresAt x with
  | Some t => negb (bool_decide (t = 0)%Z) && bool_decide (now < t)%Z
  | None => false
  end.

(** Whether [findActiveSlotOccupantInPool] finds an owner: a slot joined with
    its run, active, in the pool and with a live lease of this process.  The id
    of an owner is not the empty text. *)
Definition live_slot_in_pool (now : Z) (pool : string) (s : work_db) : bool :=
  existsb (λ x, active_in_pool pool x && existsb (run_by_id (Slot.runId x)) (runs s) &&
                isWorkloadSlotLeaseLive now x) (slots s).

(** The loops of this process: their job and its user. *)
Definition activeLoop (loops : list (string * string)) (jobId : string) : bool :=
  existsb (λ l, bool_decide (l.1 = jobId)) loops.

Definition userLoop (loops : list (string * string)) (username exceptJobId : string) : option string :=
  fst <$> List.find (λ l, bool_decide (l.2 = username) && negb (bool_decide (l.1 = exceptJobId))) loops.

(** [advanceExecutionQueue] after the pending job is chosen or not. *)
Definition start_next (now : Z) (runId leaseId : string) (w : world) : result string unit * world :=
  if live_slot_in_pool now "execution" (w_work w) then (Ok tt, w)
  else match findNextPendingJob None (w_work w) with
       | None => (Ok tt, w)
       | Some next => startPendingExecutionJob now runId leaseId (jb_username next) (jb_id next) w
       end.

Definition advanceExecutionQueue (now : Z) (runId leaseId leaseId' : string) (draining : bool)
    (loops : list (string * string)) (w : world) : result string unit * world :=
  if draining then (Ok tt, w)
  else match loops with
  | _ :: _ => (Ok tt, w)
  | [] =>
      match findDbRunningJobGlobal w with
      | None => start_next now runId leaseId w
      | Some r =>
          let '(resumed, w1) := resumeInterruptedRunningJob now leaseId' (jb_username r) (jb_id r)
                                  (activeLoop loops (jb_id r)) (userLoop loops (jb_username r) (jb_id r)) w in
          match resumed with
          | Err e => (Err e, w1)
          | Ok true => (Ok tt, w1)
          | Ok false => start_next now runId leaseId w1
          end
      end
  end.
End coordinator.

(** ** What the execution queue starts

    An advance of the queue schedules at most one job, and only a job that holds
    everything execution relies on: a workspace lease, the execution lease of the
    job, and either a new run it may write under or, for a job interrupted by a
    restart, no task whose outcome is uncertain.  The attempts are never changed,
    so that a restart cannot authorize a replay. *)

Section specs.
Context `{!FileSystem, !FileSystemOk} {C : Type}.
Context (hasTasks : C → bool) (workspacePath : C → option string).
Context (capacity : nat) (workloadTtl leaseTtl : Z) (pr : process).
Context (emptyTreeError uncertainError : string).
Implicit Types (w : @world C) (s : @work_db C).

Notation start := (startPendingExecutionJob hasTasks workspacePath capacity workloadTtl leaseTtl pr emptyTreeError).
Notation resume := (resumeInterruptedRunningJob workspacePath leaseTtl pr uncertainError).
Notation advance := (advanceExecutionQueue hasTasks workspacePath capacity workloadTtl leaseTtl pr
  emptyTreeError uncertainError).

(** ** The execution lease *)

Lemma count_pos_elem {A} (p : A → bool) l : count_where p l ≠ 0 → ∃ x, x ∈ l ∧ p x = true.
Proof.
  unfold count_where. destruct (select_where p l) as [|x t] eqn:E; [done|]. intros _. exists x.
  apply elem_of_select. rewrite E. left.
Qed.

Lemma has_local now u k s j :
  j ∈ jobs s → jb_id j = k → jb_username j = u → jb_status j = "running" →
  jb_leaseOwner j = Some (leaseOwner pr) → jb_leaseExpiresAt j = Some (now + EXECUTION_LEASE_TTL_SEC)%Z →
  hasLocalExecutionLease pr now u k s = true.
Proof.
  intros Hj Hid Hu Hst Ho He. apply existsb_exists. exists j. split; [by apply list_elem_of_In|].
  unfold by_id. rewrite He. rewrite !bool_decide_eq_true_2 by done. cbn. apply bool_decide_eq_true.
  unfold EXECUTION_LEASE_TTL_SEC. lia.
Qed.

Lemma take_job_held now u k p s s' :
  take_job pr now u k p s = Ok (true, s') → hasLocalExecutionLease pr now u k s' = true.
Proof.
  unfold take_job. intros Htx. tx_inv. apply bool_decide_eq_false in Heqb0.
  apply count_pos_elem in Heqb0 as (j & Hj & Hq). pose proof Hq as Hq'.
  rewrite !andb_true_iff in Hq. destruct Hq as [[Hid%WorkloadSpecs.by_id_true Hu%bool_decide_eq_true] _].
  apply (has_local _ _ _ _ (set_running (leaseOwner pr) (now + EXECUTION_LEASE_TTL_SEC) now j)); try done.
  cbn. apply elem_of_update. exists j. by rewrite Hq'.
Qed.
Lemma local_elem now u k s :
  hasLocalExecutionLease pr now u k s = true →
  ∃ j, j ∈ jobs s ∧ jb_id j = k ∧ jb_username j = u ∧ jb_status j = "running".
Proof.
  unfold hasLocalExecutionLease. rewrite existsb_exists. intros (j & Hj & Hp).
  rewrite !andb_true_iff in Hp.
  destruct Hp as ((((Hid%WorkloadSpecs.by_id_true & Hu%bool_decide_eq_true) & Hst%bool_decide_eq_true) & _) & _).
  exists j. by rewrite list_elem_of_In.
Qed.

Lemma acquired_held now u k oc s s' :
  acquireExecutionLease pr now u k oc s = (Ok true, s') → hasLocalExecutionLease pr now u k s' = true.
Proof.
  unfold acquireExecutionLease. set (s1 := (clearStaleExecutionLeaseIfNeeded pr now k s).2).
  destruct (hasLocalExecutionLease pr now u k s1) eqn:Hl.
  - intros [= <-]. apply local_elem in Hl as (j & Hj & Hid & Hu & Hst).
    apply (has_local _ _ _ _ (set_lease (Some (leaseOwner pr)) (Some (now + EXECUTION_LEASE_TTL_SEC)%Z) now j)); try done.
    cbn. apply elem_of_update. exists j. split; [done|].
    rewrite (proj2 (WorkloadSpecs.by_id_true _ _) Hid), bool_decide_eq_true_2 by done. done.
  - destruct oc; [done|]. rewrite run_transaction_ok. apply take_job_held.
Qed.

(** ** What a step leaves behind *)

(** A workspace lease of the job that is good until [now + leaseTtl]. *)
Definition holds_workspace (now : Z) (jobId : string) (l : lease_state) : Prop :=
  ∃ leaseId path, ∀ t, (t < now + leaseTtl)%Z →
    (isWorkspaceLeaseActive leaseId OwnerKind.thread_job jobId path t l).1 = Ok true.

(** What is scheduled may run. *)
Definition may_run (now : Z) (runId : string) (e : string * string * option string) (w w' : @world C) : Prop :=
  let '(user, jobId, slot) := e in
  holds_workspace now jobId (w_leases w') ∧
  hasLocalExecutionLease pr now user jobId (w_work w') = true ∧
  match slot with
  | Some k => k = runId ∧ assertRunWritable jobId runId (w_work w') = true
  | None => jobHasUncertainReplayFence jobId (w_ledger w) = false
  end.

Definition sound (w : @world C) : Prop := consistent capacity (w_work w) ∧ lease_inv (w_leases w).

(** A step keeps both stores sound and the attempts, and schedules at most one
    job, which may run. *)
Definition safe (now : Z) (runId : string) (w w' : @world C) : Prop :=
  sound w' ∧ w_ledger w' = w_ledger w ∧
  (w_scheduled w' = w_scheduled w ∨
   ∃ e, w_scheduled w' = w_scheduled w ++ [e] ∧ may_run now runId e w w').

(** A step that schedules nothing. *)
Lemma safe_quiet now runId w w' :
  consistent capacity (w_work w') → lease_inv (w_leases w') → w_ledger w' = w_ledger w →
  w_scheduled w' = w_scheduled w → safe now runId w w'.
Proof. intros Hs Hl Hled Hsch. split_and!; [by split|done|by left]. Qed.

Lemma acquired_workspace j (job : @job_row C) leaseId now l a l' :
  lease_inv l → existsb (has_id leaseId) (leases l) = false →
  acquireWorkspaceLease leaseTtl (lease_input workspacePath j job) leaseId now l = (Ok (Some a), l') →
  holds_workspace now j l'.
Proof.
  intros Hl Hfresh Hacq. pose proof (acquire_outcome leaseTtl (lease_input workspacePath j job) leaseId now l) as Ho.
  destruct (normalizeWorkspaceLeasePath _) as [path|e] eqn:Hp;
    [|unfold acquireWorkspaceLease in Hacq; by rewrite Hp in Hacq].
  specialize (Ho path Hl eq_refl Hfresh). rewrite Hacq in Ho. destruct Ho as [_ Ho].
  by exists (ar_leaseId a), (aq_workspacePath (lease_input workspacePath j job)).
Qed.

Lemma acquired_inv input leaseId now l res l' :
  lease_inv l → acquireWorkspaceLease leaseTtl input leaseId now l = (res, l') → lease_inv l'.
Proof. intros Hl Hacq. pose proof (acquire_inv leaseTtl input leaseId now l Hl) as H'. by rewrite Hacq in H'. Qed.

Lemma start_safe now runId leaseId u j w :
  sound w → runId ∉ map Run.id (runs (w_work w)) → existsb (has_id leaseId) (leases (w_leases w)) = false →
  safe now runId w (start now runId leaseId u j w).2.
Proof.
  intros [Hs Hl] Hrun Hlease. destruct w as [s l led sch]. cbn in *. unfold startPendingExecutionJob. cbn.
  destruct (isEntityDeletionBlocked _ _ _); [by apply safe_quiet|].
  destruct (getUserJob _ _ _) as [job|]; [|by apply safe_quiet].
  destruct (negb _); [by apply safe_quiet|].
  destruct (negb _).
  { cbn. apply safe_quiet; [|done..]. apply (good_jobs capacity); [apply keeps_patch|done]. }
  destruct (acquireWorkspaceLease _ _ _ _ _) as [[[a|]|e] l1] eqn:Hacq; cbn;
    pose proof (acquired_inv _ _ _ _ _ _ Hl Hacq) as Hl1; try (by apply safe_quiet).
  pose proof (claim_for_job_outcome capacity workloadTtl pr now runId u j s Hs Hrun) as Hclaim. revert Hclaim.
  pose proof (good_claim_for_job capacity workloadTtl pr now runId u j s Hs) as [Hs2 _]. revert Hs2.
  destruct (claimExecutionSlotForJobTx _ _ _ _ _ _ _ _) as [slot s2]. cbn. intros Hs2 [-> Hok].
  destruct (negb _ && _ && _); cbn.
  - split_and!; [by split|done|]. right. exists (u, j, Some runId). split; [done|]. cbn.
    destruct Hok as (_ & Hw & Hloc & _). split_and!; try done.
    exact (acquired_workspace _ _ _ _ _ _ _ Hl Hlease Hacq).
  - case_bool_decide; cbn.
    + by apply safe_quiet.
    + apply safe_quiet; [done|by apply release_inv|done..].
Qed.

Lemma settle_consistent now u j w :
  consistent capacity (w_work w) →
  consistent capacity (w_work (settleUncertainProviderOutcome uncertainError now u j w)).
Proof.
  intros Hs. unfold settleUncertainProviderOutcome. destruct (getUserJob _ _ _); [|done]. cbn.
  apply (good_jobs capacity); [apply keeps_lease|]. apply (good_jobs capacity); [apply keeps_patch|done].
Qed.

(** The lease of a job leaves the runs alone. *)
Lemma acquireExecutionLease_runs now u j oc s :
  runs (acquireExecutionLease pr now u j oc s).2 = runs s.
Proof.
  unfold acquireExecutionLease. set (s1 := (clearStaleExecutionLeaseIfNeeded pr now j s).2).
  assert (runs s1 = runs s) as H1.
  { unfold s1, clearStaleExecutionLeaseIfNeeded. by repeat case_match. }
  destruct (hasLocalExecutionLease _ _ _ _ _); [done|]. destruct oc; [done|].
  unfold run_transaction. destruct (take_job _ _ _ _ _ _) as [[b s2]|] eqn:E; [|done]. cbn.
  unfold take_job in E. by tx_inv.
Qed.

Lemma settle_runs now u j w :
  runs (w_work (settleUncertainProviderOutcome uncertainError now u j w)) = runs (w_work w).
Proof. unfold settleUncertainProviderOutcome. by destruct (getUserJob _ _ _). Qed.

(** A refused workspace lease inserts no row. *)
Lemma refused_ids input leaseId now l l' :
  lease_inv l → existsb (has_id leaseId) (leases l) = false →
  acquireWorkspaceLease leaseTtl input leaseId now l = (Ok None, l') →
  map WorkspaceLease.id (leases l') = map WorkspaceLease.id (leases l).
Proof.
  intros Hl Hfresh Hacq. pose proof (acquire_outcome leaseTtl input leaseId now l) as Ho.
  destruct (normalizeWorkspaceLeasePath _) as [path|e] eqn:Hp;
    [|unfold acquireWorkspaceLease in Hacq; by rewrite Hp in Hacq].
  specialize (Ho path Hl eq_refl Hfresh). rewrite Hacq in Ho. destruct Ho as [_ ->].
  by apply update_where_key.
Qed.

(** When nothing was resumed, the rows are as fresh as before. *)
Definition same_ids (w w' : @world C) : Prop :=
  runs (w_work w') = runs (w_work w) ∧
  map WorkspaceLease.id (leases (w_leases w')) = map WorkspaceLease.id (leases (w_leases w)) ∧
  w_scheduled w' = w_scheduled w.

Lemma resume_safe now runId leaseId u j executing oc w :
  sound w → existsb (has_id leaseId) (leases (w_leases w)) = false →
  let '(res, w') := resume now leaseId u j executing oc w in
  safe now runId w w' ∧ (res = Ok false → same_ids w w').
Proof.
  intros [Hs Hl] Hlease. destruct w as [s l led sch]. cbn in *. unfold resumeInterruptedRunningJob. cbn.
  assert (safe now runId (mkWorld s l led sch) (mkWorld s l led sch)) as Hrefl by (by apply safe_quiet).
  destruct (isEntityDeletionBlocked _ _ _); [done|]. destruct executing; [done|].
  destruct (getUserJob _ _ _) as [job|]; [|done]. destruct (negb _); [done|].
  destruct (jobHasUncertainReplayFence j led) eqn:Hfence.
  { split.
    - pose proof (settle_consistent now u j (mkWorld s l led sch) Hs) as Hs'. revert Hs'.
      unfold settleUncertainProviderOutcome. destruct (getUserJob _ _ _); [|done]. intros Hs'. by apply safe_quiet.
    - intros _. unfold settleUncertainProviderOutcome. by destruct (getUserJob _ _ _). }
  pose proof (good_acquire capacity pr now u j oc s Hs) as [Hs1 _].
  pose proof (acquireExecutionLease_runs now u j oc s) as Hr1.
  destruct (acquireExecutionLease _ _ _ _ _ _) as [[[]|e] s1] eqn:Hheld; cbn in *;
    [|split; [by apply safe_quiet|done]..].
  destruct (acquireWorkspaceLease _ _ _ _ _) as [[[a|]|e] l1] eqn:Hacq; cbn;
    pose proof (acquired_inv _ _ _ _ _ _ Hl Hacq) as Hl1; [| |split; [by apply safe_quiet|done]].
  - split; [|done]. split_and!; [by split|done|]. right. exists (u, j, None). split; [done|]. cbn.
    split_and!; [exact (acquired_workspace _ _ _ _ _ _ _ Hl Hlease Hacq)|by eapply acquired_held|done].
  - split.
    + apply safe_quiet; [|done..]. by apply (good_jobs capacity); [apply keeps_lease|].
    + intros _. split_and!; [done| |done]. by eapply refused_ids.
Qed.

(** ** An advance *)

Lemma start_next_safe now runId leaseId w :
  sound w → runId ∉ map Run.id (runs (w_work w)) → existsb (has_id leaseId) (leases (w_leases w)) = false →
  safe now runId w
    (start_next hasTasks workspacePath capacity workloadTtl leaseTtl pr emptyTreeError now runId leaseId w).2.
Proof.
  intros Hw Hrun Hlease. assert (safe now runId w w) as Hrefl.
  { destruct w. destruct Hw. by apply safe_quiet. }
  unfold start_next. destruct (live_slot_in_pool _ _ _ _); [done|].
  destruct (findNextPendingJob _ _) as [next|]; [|done]. by apply start_safe.
Qed.

Lemma has_id_map k (l l' : list WorkspaceLease.t) :
  map WorkspaceLease.id l' = map WorkspaceLease.id l → existsb (has_id k) l' = existsb (has_id k) l.
Proof.
  revert l'. induction l as [|x l IH]; intros [|x' l']; try done. cbn. intros [= Hx Hl].
  unfold has_id at 1 3. by rewrite Hx, (IH _ Hl).
Qed.

(** A quiet step followed by a safe one is safe. *)
Lemma safe_after now runId w w1 w2 :
  safe now runId w w1 → w_scheduled w1 = w_scheduled w → safe now runId w1 w2 → safe now runId w w2.
Proof.
  intros (_ & Hl1 & _) Hs1 (Hw2 & Hl2 & Hs2). split_and!; [done|congruence|].
  rewrite Hs1 in Hs2. destruct Hs2 as [->|(e & -> & He)]; [by left|]. right. exists e. split; [done|].
  revert He. destruct e as [[u j] slot]. cbn. by rewrite Hl1.
Qed.

(** C22: An advance of the execution queue schedules at most one job, and only one that holds a
    workspace lease, the execution lease of its job and either a new run it may write under or,
    for a job interrupted by a restart, no task with an uncertain outcome; it keeps the stores
    of runs and leases consistent and never changes an attempt, so that a restart cannot
    authorize a replay. *)
Theorem advance_schedules_safely now runId leaseId leaseId' draining loops w :
  consistent capacity (w_work w) → lease_inv (w_leases w) → runId ∉ map Run.id (runs (w_work w)) →
  existsb (has_id leaseId) (leases (w_leases w)) = false →
  existsb (has_id leaseId') (leases (w_leases w)) = false →
  let w' := (advance now runId leaseId leaseId' draining loops w).2 in
  (consistent capacity (w_work w') ∧ lease_inv (w_leases w')) ∧ w_ledger w' = w_ledger w ∧
  (w_scheduled w' = w_scheduled w ∨
   ∃ e, w_scheduled w' = w_scheduled w ++ [e] ∧ may_run now runId e w w').
Proof.
  intros Hs Hl Hrun Hl1 Hl2. assert (sound w) as Hw by done. cbn zeta. change (safe now runId w
    (advance now runId leaseId leaseId' draining loops w).2).
  assert (safe now runId w w) as Hrefl by (destruct w; by apply safe_quiet).
  unfold advanceExecutionQueue. destruct draining; [done|]. destruct loops as [|x t]; [|done].
  destruct (findDbRunningJobGlobal w) as [r|]; [|by apply start_next_safe].
  pose proof (resume_safe now runId leaseId' (jb_username r) (jb_id r) (activeLoop [] (jb_id r))
    (userLoop [] (jb_username r) (jb_id r)) w Hw Hl2) as Hres.
  destruct (resumeInterruptedRunningJob _ _ _ _ _ _ _ _ _ _ _) as [[[]|e] w1] eqn:E;
    [by destruct Hres| |by destruct Hres].
  destruct Hres as [Hsafe Hids]. destruct (Hids eq_refl) as (Hr & Hi & Hsch).
  apply (safe_after now runId w w1); [done|done|]. apply start_next_safe; [by destruct Hsafe|by rewrite Hr|].
  by rewrite (has_id_map _ _ _ Hi).
Qed.
End specs.
