(* ===== verification/FrozenIds.v ===== *)
(** * Ids that become file names

    Models [src/shared/frozen-ids.ts]: the ids of threads and attachments are
    checked before they are joined to a path.  The theorem says which texts are
    accepted: the UUIDs of versions 1 to 8 (for an attachment after [att-]), of
    which no character can leave a directory. *)
From Stdlib Require Import Ascii.
From S2P Require Import Prelude Json JsString.

#[local] Arguments bool_decide : simpl never.

Module FrozenIdKind.
Inductive t := thread | attachment.

Definition text (k : t) : string :=
  match k with thread => "thread" | attachment => "attachment" end.
End FrozenIdKind.

(** [FrozenIdError]: its kind, code and message. *)
Module FrozenIdError.
Record t := mk { kind : FrozenIdKind.t; code : string; message : string }.
End FrozenIdError.

Definition MAX_FROZEN_ID_LEN : nat := 128.

(** ** [decodeURIComponent] *)

Definition hex_value (c : ascii) : option N :=
  let n := N_of_ascii c in
  if bool_decide (48 ≤ n ∧ n ≤ 57)%N then Some (n - 48)%N
  else if bool_decide (97 ≤ n ∧ n ≤ 102)%N then Some (n - 87)%N
  else if bool_decide (65 ≤ n ∧ n ≤ 70)%N then Some (n - 55)%N
  else None.

(** [%XX] at the head of the text. *)
Definition percent_byte (s : string) : option (N * string) :=
  match s with
  | String c (String h (String l s')) =>
      if bool_decide (c = "%"%char) then
        a ← hex_value h; b ← hex_value l; Some (16 * a + b, s')%N
      else None
  | _ => None
  end.

(** [n] continuation bytes of a UTF-8 sequence. *)
Fixpoint continuation (n : nat) (acc : N) (s : string) : option (N * string) :=
  match n with
  | O => Some (acc, s)
  | S n' =>
      '(b, s') ← percent_byte s;
      if bool_decide (128 ≤ b ∧ b < 192)%N then continuation n' (64 * acc + (b - 128))%N s' else None
  end.

(** The code point of a sequence, refused when it is overlong, a surrogate or
    too large. *)
Definition checked (low : N) (r : option (N * string)) : option (N * string) :=
  '(c, s) ← r;
  if bool_decide (low ≤ c ∧ c < 1114112 ∧ ~ (55296 ≤ c ∧ c < 57344))%N then Some (c, s) else None.

Definition decode_one (s : string) : option (N * string) :=
  '(b, s') ← percent_byte s;
  if bool_decide (b < 128)%N then Some (b, s')
  else if bool_decide (b < 192)%N then None
  else if bool_decide (b < 224)%N then checked 128 (continuation 1 (b - 192) s')
  else if bool_decide (b < 240)%N then checked 2048 (continuation 2 (b - 224) s')
  else if bool_decide (b < 248)%N then checked 65536 (continuation 3 (b - 240) s')
  else None.

(** The code points of the decoded text; [None] is a [URIError]. *)
Fixpoint decode_from (fuel : nat) (s : string) : option (list N) :=
  match fuel, s with
  | _, EmptyString => Some []
  | O, _ => None
  | S fuel', String c s' =>
      if bool_decide (c = "%"%char) then
        '(n, r) ← decode_one s; rest ← decode_from fuel' r; Some (n :: rest)
      else rest ← decode_from fuel' s'; Some (N_of_ascii c :: rest)
  end.

Definition decodeURIComponent (s : string) : option (list N) := decode_from (String.length s) s.

(** The code units of a text. *)
Fixpoint codes (s : string) : list N :=
  match s with EmptyString => [] | String c s' => N_of_ascii c :: codes s' end.

Definition decodeTraversalAttempts (raw : string) : list N :=
  default (codes raw) (decodeURIComponent raw).

(** [decoded.includes('..')] *)
Fixpoint two_dots (l : list N) : bool :=
  match l with
  | [] => false
  | a :: l' =>
      (bool_decide (a = 46)%N && match l' with b :: _ => bool_decide (b = 46)%N | [] => false end) ||
      two_dots l'
  end.

Definition has_code (n : N) (l : list N) : bool := bool_decide (n ∈ l).

(** ** The checks *)

Definition id_error (kind : FrozenIdKind.t) (suffix message : string) : FrozenIdError.t :=
  FrozenIdError.mk kind (FrozenIdKind.text kind +:+ "." +:+ suffix)
    (FrozenIdKind.text kind +:+ " id " +:+ message).

Definition assertNoTraversalSegments (raw : string) (kind : FrozenIdKind.t) : result FrozenIdError.t unit :=
  let decoded := decodeTraversalAttempts raw in
  if includes raw "/" || includes raw "\" then
    Err (id_error kind "id_invalid" "must not contain path separators")
  else if two_dots decoded || has_code 47 decoded || has_code 92 decoded then
    Err (id_error kind "id_invalid" "must not contain traversal segments")
  else if includes (toLowerCase raw) "%2e" || includes (toLowerCase raw) "%2f" ||
          includes (toLowerCase raw) "%5c" then
    Err (id_error kind "id_invalid" "must not contain encoded traversal")
  else Ok tt.

Definition is_hex (c : ascii) : bool := match hex_value c with Some _ => true | None => false end.

Definition first_in (cs : list ascii) (w : string) : bool :=
  match w with String c _ => bool_decide (lowerChar c ∈ cs) | EmptyString => false end.

(** [UUID_RE]: [/^[0-9a-f]{8}-[0-9a-f]{4}-[1-8][0-9a-f]{3}-[89ab][0-9a-f]{3}-[0-9a-f]{12}$/i] *)
Definition UUID_RE (s : string) : bool :=
  match split "-" s with
  | [a; b; c; d; e] =>
      bool_decide (map String.length [a; b; c; d; e] = [8; 4; 4; 4; 12]) &&
      forallb (all_chars is_hex) [a; b; c; d; e] &&
      first_in ["1"; "2"; "3"; "4"; "5"; "6"; "7"; "8"]%char c &&
      first_in ["8"; "9"; "a"; "b"]%char d
  | _ => false
  end.

(** [ATTACHMENT_ID_RE]: [att-] and a UUID *)
Definition ATTACHMENT_ID_RE (s : string) : bool :=
  match s with
  | String a (String t (String u (String d rest))) =>
      bool_decide (lowerChar a = "a"%char) && bool_decide (lowerChar t = "t"%char) &&
      bool_decide (lowerChar u = "t"%char) && bool_decide (d = "-"%char) && UUID_RE rest
  | _ => false
  end.

Definition assertFrozenIdShape (raw : string) (kind : FrozenIdKind.t) (pattern : string → bool) :
    result FrozenIdError.t string :=
  let trimmed := trim raw in
  if bool_decide (trimmed = "") then Err (id_error kind "id_required" "is required")
  else if bool_decide (MAX_FROZEN_ID_LEN < String.length trimmed) then
    Err (id_error kind "id_invalid" "is too long")
  else match assertNoTraversalSegments trimmed kind with
       | Err e => Err e
       | Ok _ => if pattern trimmed then Ok trimmed
                 else Err (id_error kind "id_invalid" "has invalid format")
       end.

Definition assertFrozenThreadId (threadId : string) : result FrozenIdError.t string :=
  assertFrozenIdShape threadId FrozenIdKind.thread UUID_RE.

Definition assertFrozenAttachmentId (attachmentId : string) : result FrozenIdError.t string :=
  assertFrozenIdShape attachmentId FrozenIdKind.attachment ATTACHMENT_ID_RE.

Example frozen_1 : assertFrozenThreadId " 123E4567-e89b-12d3-a456-426614174000 " =
  Ok "123E4567-e89b-12d3-a456-426614174000".
Proof. reflexivity. Qed.
Example frozen_2 : assertFrozenAttachmentId "att-123e4567-e89b-12d3-a456-426614174000" =
  Ok "att-123e4567-e89b-12d3-a456-426614174000".
Proof. reflexivity. Qed.
Example frozen_3 : assertFrozenAttachmentId "..%2fx" =
  Err (id_error FrozenIdKind.attachment "id_invalid" "must not contain traversal segments").
Proof. reflexivity. Qed.

(** ** What is accepted *)

(** Letters, digits and the dash: no character of a path. *)
Definition plain (c : ascii) : bool :=
  let n := N_of_ascii c in
  bool_decide (48 ≤ n ∧ n ≤ 57)%N || bool_decide (97 ≤ n ∧ n ≤ 122)%N ||
  bool_decide (65 ≤ n ∧ n ≤ 90)%N || bool_decide (n = 45)%N.

Ltac byte_cases c := destruct c as [[] [] [] [] [] [] [] []]; vm_compute; try done.

Lemma hex_plain c : is_hex c = true → plain c = true.
Proof. byte_cases c. Qed.

Lemma lower_plain c d : bool_decide (lowerChar c = d) = true → d ∈ ["a"; "t"]%char → plain c = true.
Proof.
  intros H%bool_decide_eq_true Hd. subst d. revert Hd. rewrite !elem_of_cons, elem_of_nil. revert c.
  intros c. byte_cases c; intros Hd; destruct_or?; congruence.
Qed.

Lemma all_chars_split p sep s :
  forallb (all_chars p) (split sep s) = all_chars (λ c, bool_decide (c = sep) || p c) s.
Proof.
  induction s as [|c s IH]; [done|]. cbn. case_bool_decide; cbn; [done|].
  rewrite <-IH. destruct (split sep s) as [|w ws] eqn:E; [by apply split_cons_nonempty in E|].
  cbn. by rewrite andb_assoc.
Qed.

Lemma all_chars_impl (p q : ascii → bool) s :
  (∀ c, p c = true → q c = true) → all_chars p s = true → all_chars q s = true.
Proof.
  intros Hpq. induction s as [|c s IH]; [done|]. cbn. rewrite !andb_true_iff. naive_solver.
Qed.

Lemma uuid_plain s : UUID_RE s = true → all_chars plain s = true.
Proof.
  intros Hs. assert (forallb (all_chars is_hex) (split "-" s) = true) as Hx.
  { unfold UUID_RE in Hs. repeat case_match; try done.
    rewrite !andb_true_iff in Hs. tauto. }
  rewrite all_chars_split in Hx. revert Hx. apply all_chars_impl.
  intros c [->%bool_decide_eq_true|Hc]%orb_true_iff; [done|by apply hex_plain].
Qed.

Lemma attachment_plain s : ATTACHMENT_ID_RE s = true → all_chars plain s = true.
Proof.
  unfold ATTACHMENT_ID_RE. repeat (case_match; try done).
  rewrite !andb_true_iff. intros ((((Ha & Ht) & Hu) & Hd) & Hs). cbn.
  rewrite (lower_plain _ _ Ha), (lower_plain _ _ Ht), (lower_plain _ _ Hu) by set_solver.
  apply bool_decide_eq_true in Hd as ->. cbn. by apply uuid_plain.
Qed.

Lemma prefix_head d t s : String.prefix (String d t) s = true → has_char d s = true.
Proof.
  destruct s as [|c s]; [done|]. cbn. destruct (Ascii.ascii_dec d c) as [->|]; [|done].
  intros _. by rewrite bool_decide_eq_true_2.
Qed.

Lemma includes_head s d t : includes s (String d t) = true → has_char d s = true.
Proof.
  induction s as [|c s IH]; [done|]. cbn [includes]. intros [H|H]%orb_true_iff; [by eapply prefix_head|].
  cbn. by rewrite IH, orb_true_r.
Qed.

Lemma has_char_plain d s : all_chars plain s = true → has_char d s = true → plain d = true.
Proof.
  induction s as [|c s IH]; [done|]. cbn. intros [Hc Hs]%andb_true_iff [Hd|Hd]%orb_true_iff; [|auto].
  by apply bool_decide_eq_true in Hd as <-.
Qed.

Lemma not_includes d t s : plain d = false → all_chars plain s = true → includes s (String d t) = false.
Proof.
  intros Hd Hs. apply not_true_iff_false. intros Hi%includes_head.
  apply (has_char_plain _ _ Hs) in Hi. congruence.
Qed.

Lemma lower_all_plain s : all_chars plain s = true → all_chars plain (toLowerCase s) = true.
Proof.
  induction s as [|c s IH]; [done|]. cbn. intros [Hc Hs]%andb_true_iff. rewrite IH, andb_true_r by done.
  revert Hc. byte_cases c.
Qed.

(** Text without a percent sign decodes to itself. *)
Lemma decode_plain s : all_chars plain s = true → decodeURIComponent s = Some (codes s).
Proof.
  unfold decodeURIComponent. induction s as [|c s IH]; [done|]. cbn. intros [Hc Hs]%andb_true_iff.
  rewrite bool_decide_eq_false_2 by (intros ->; done). by rewrite IH.
Qed.

Lemma code_plain n s : all_chars plain s = true → n ∈ codes s → plain (ascii_of_N n) = true.
Proof.
  induction s as [|c s IH]; [by intros _ ?%not_elem_of_nil|].
  cbn. intros [Hc Hs]%andb_true_iff [->|Hn]%elem_of_cons; [|auto]. by rewrite ascii_N_embedding.
Qed.

Lemma no_code n s : plain (ascii_of_N n) = false → all_chars plain s = true → has_code n (codes s) = false.
Proof. intros Hn Hs. apply bool_decide_eq_false. intros Hin%(code_plain _ _ Hs). congruence. Qed.

Lemma two_dots_code l : two_dots l = true → 46%N ∈ l.
Proof.
  induction l as [|a l IH]; [done|]. cbn.
  intros [[->%bool_decide_eq_true _]%andb_true_iff|H]%orb_true_iff; [left|right; auto].
Qed.

Lemma plain_no_traversal s kind : all_chars plain s = true → assertNoTraversalSegments s kind = Ok tt.
Proof.
  intros Hs. unfold assertNoTraversalSegments, decodeTraversalAttempts. rewrite (decode_plain _ Hs). cbn.
  pose proof (lower_all_plain _ Hs) as Hl.
  rewrite !not_includes, !no_code by done. cbn.
  destruct (two_dots (codes s)) eqn:E; [|done]. apply two_dots_code, (code_plain _ _ Hs) in E. done.
Qed.

Lemma frozen_shape raw kind pattern :
  (∀ s, pattern s = true → all_chars plain s = true ∧ 0 < String.length s ≤ MAX_FROZEN_ID_LEN) →
  ∀ t, assertFrozenIdShape raw kind pattern = Ok t ↔ t = trim raw ∧ pattern t = true.
Proof.
  intros Hp t. unfold assertFrozenIdShape. split.
  - repeat (case_match; try done). by intros [= <-].
  - intros [-> Ht]. destruct (Hp _ Ht) as [Hpl Hlen].
    rewrite bool_decide_eq_false_2 by (intros He; rewrite He in Hlen; cbn in Hlen; lia).
    rewrite bool_decide_eq_false_2 by lia. by rewrite plain_no_traversal, Ht.
Qed.

Lemma length_split sep s :
  String.length s + 1 = sum_list_with (λ w, S (String.length w)) (split sep s).
Proof.
  induction s as [|c s IH]; [done|]. cbn. case_bool_decide; cbn; [lia|].
  destruct (split sep s) as [|w ws] eqn:E; [by apply split_cons_nonempty in E|]. cbn in *. lia.
Qed.

Lemma uuid_length s : UUID_RE s = true → String.length s = 36.
Proof.
  unfold UUID_RE. intros Hs. pose proof (length_split "-" s) as Hl.
  destruct (split "-" s) as [|a [|b [|c [|d [|e [|]]]]]]; try done.
  rewrite !andb_true_iff, bool_decide_eq_true in Hs. destruct Hs as (((Hlen & _) & _) & _).
  cbn in Hl, Hlen. injection Hlen as. lia.
Qed.

(** A thread or attachment id is accepted exactly when, without the white space around it,
    it has the shape of its kind, and an accepted id is made of letters, digits and dashes only. *)
Theorem frozen_ids_accepted raw t :
  (assertFrozenThreadId raw = Ok t ↔ t = trim raw ∧ UUID_RE t = true) ∧
  (assertFrozenAttachmentId raw = Ok t ↔ t = trim raw ∧ ATTACHMENT_ID_RE t = true) ∧
  (assertFrozenThreadId raw = Ok t ∨ assertFrozenAttachmentId raw = Ok t → all_chars plain t = true).
Proof.
  assert (assertFrozenThreadId raw = Ok t ↔ t = trim raw ∧ UUID_RE t = true) as H1.
  { apply frozen_shape. intros s Hs. split; [by apply uuid_plain|].
    rewrite uuid_length by done. unfold MAX_FROZEN_ID_LEN. lia. }
  assert (assertFrozenAttachmentId raw = Ok t ↔ t = trim raw ∧ ATTACHMENT_ID_RE t = true) as H2.
  { apply frozen_shape. intros s Hs. split; [by apply attachment_plain|].
    unfold ATTACHMENT_ID_RE in Hs. repeat (case_match; try done).
    rewrite andb_true_iff in Hs. destruct Hs as [_ Hs%uuid_length]. cbn. rewrite Hs.
    unfold MAX_FROZEN_ID_LEN. lia. }
  split_and!; [done|done|]. intros [[_ H]%H1|[_ H]%H2]; [by apply uuid_plain|by apply attachment_plain].
Qed.
