(* ===== verification/TurnQueue.v ===== *)
(** * The queue of conversation turns

    Models [src/server/conversation/turn-queue.ts] on the table
    [conversation_turns] (migration 036).  Rows are in the order of their
    [rowid].  The state also has the map [activeTurnControllers] of the process,
    with whether a controller was aborted, the calls of [streamSendMessage]
    (the conversation service, which runs the provider) and the events sent.

    [runAdmittedTurn] runs without a pause until it waits for the first part of
    the stream; [start_turn] is this part.  What follows is one step per part of
    the stream ([on_chunk]), its end ([on_end]), its failure ([on_throw]) and the
    report of the access mode ([onWorkspaceAccessResolved]).  [lastErrorJson]
    is kept as the error it encodes. *)
From Stdlib Require Import Ascii.
From S2P Require Import Prelude Json JsString Sql TurnErrors FrozenIds.
#[local] Arguments bool_decide : simpl never.

Module TurnStatus.
Inductive t := queued | admitted | running | committing | completed | failed | cancelling | cancelled.

#[global] Instance eq_dec : EqDecision t.
Proof. solve_decision. Defined.

(** [['admitted', 'running', 'committing', 'cancelling']] *)
Definition active (s : t) : bool :=
  match s with admitted | running | committing | cancelling => true | _ => false end.

Definition settled (s : t) : bool :=
  match s with completed | failed | cancelled => true | _ => false end.
End TurnStatus.

Module TurnKind.
Inductive t := chat | create_task | draft.

#[global] Instance eq_dec : EqDecision t.
Proof. solve_decision. Defined.
End TurnKind.

Module Turn.
Record t := mk {
  id : string;
  threadId : string;
  username : string;
  kind : TurnKind.t;
  status : TurnStatus.t;
  workspaceAccess : string;
  provider : option string;
  messageText : string;
  generateDraft : bool;
  createTaskMode : bool;
  attachmentIds : list string;
  selectedDraftSection : option string;
  selectedPlanNodeRef : option string;
  idempotencyKey : option string;
  stateRevision : Z;
  lastError : option TurnErrorDto.t;
  createdAt : Z;
  startedAt : option Z;
  completedAt : option Z
}.

(** The columns a step writes; [stateRevision] grows by one. *)
Definition move (st : TurnStatus.t) (err : option TurnErrorDto.t) (started ended : option Z) (r : t) : t :=
  mk (id r) (threadId r) (username r) (kind r) st (workspaceAccess r) (provider r) (messageText r)
    (generateDraft r) (createTaskMode r) (attachmentIds r) (selectedDraftSection r)
    (selectedPlanNodeRef r) (idempotencyKey r) (stateRevision r + 1) err (createdAt r) started ended.

Definition to (st : TurnStatus.t) (r : t) : t := move st (lastError r) (startedAt r) (completedAt r) r.

(** The admission of a row that was read with the revision [rev]. *)
Definition set_admitted (now rev : Z) (r : t) : t :=
  mk (id r) (threadId r) (username r) (kind r) TurnStatus.admitted (workspaceAccess r) (provider r)
    (messageText r) (generateDraft r) (createTaskMode r) (attachmentIds r) (selectedDraftSection r)
    (selectedPlanNodeRef r) (idempotencyKey r) (rev + 1) (lastError r) (createdAt r) (Some now)
    (completedAt r).

Definition settle (st : TurnStatus.t) (now : Z) (r : t) : t :=
  move st (lastError r) (startedAt r) (Some now) r.

Definition fail (err : TurnErrorDto.t) (now : Z) (r : t) : t :=
  move TurnStatus.failed (Some err) (startedAt r) (Some now) r.

Definition set_access (mode : string) (r : t) : t :=
  mk (id r) (threadId r) (username r) (kind r) (status r) mode (provider r) (messageText r)
    (generateDraft r) (createTaskMode r) (attachmentIds r) (selectedDraftSection r)
    (selectedPlanNodeRef r) (idempotencyKey r) (stateRevision r + 1) (lastError r) (createdAt r)
    (startedAt r) (completedAt r).
End Turn.

(** [ConversationTurnDto] *)
Record turn_dto := mkDto {
  td_id : string;
  td_threadId : string;
  td_username : string;
  td_kind : TurnKind.t;
  td_status : TurnStatus.t;
  td_workspaceAccess : string;
  td_provider : option string;
  td_messagePreview : string;
  td_queuePosition : option Z;
  td_stateRevision : Z;
  td_lastError : option TurnErrorDto.t;
  td_createdAt : Z;
  td_startedAt : option Z;
  td_completedAt : option Z
}.

Definition mapRow (r : Turn.t) : turn_dto :=
  mkDto (Turn.id r) (Turn.threadId r) (Turn.username r) (Turn.kind r) (Turn.status r)
    (Turn.workspaceAccess r) (Turn.provider r) (slice0 120 (Turn.messageText r)) None
    (Turn.stateRevision r) (Turn.lastError r) (Turn.createdAt r) (Turn.startedAt r) (Turn.completedAt r).

Definition at_position (n : Z) (d : turn_dto) : turn_dto :=
  mkDto (td_id d) (td_threadId d) (td_username d) (td_kind d) (td_status d) (td_workspaceAccess d)
    (td_provider d) (td_messagePreview d) (Some n) (td_stateRevision d) (td_lastError d)
    (td_createdAt d) (td_startedAt d) (td_completedAt d).

(** A part of the stream: its event name, and for [error] its message and code. *)
Inductive chunk :=
| Chunk (event data : string)
| ErrorChunk (message : string) (code : option string).

Inductive turn_event :=
| TurnSnapshot (turn : turn_dto)
| TurnChunk (c : chunk)
| TurnError (error : option TurnErrorDto.t) (message : string).

Record turn_db := mkTurns {
  turns : list Turn.t;
  controllers : gmap string bool;
  calls : list string;
  sent : list (string * turn_event)
}.

Definition set_turns (l : list Turn.t) (s : turn_db) : turn_db :=
  mkTurns l (controllers s) (calls s) (sent s).
Definition set_controllers (m : gmap string bool) (s : turn_db) : turn_db :=
  mkTurns (turns s) m (calls s) (sent s).
Definition call (turnId : string) (s : turn_db) : turn_db :=
  mkTurns (turns s) (controllers s) (calls s ++ [turnId]) (sent s).
Definition emitTurn (turnId : string) (e : turn_event) (s : turn_db) : turn_db :=
  mkTurns (turns s) (controllers s) (calls s) (sent s ++ [(turnId, e)]).

Definition by_id (id : string) (r : Turn.t) : bool := bool_decide (Turn.id r = id).
Definition find_turn (s : turn_db) (id : string) : option Turn.t := List.find (by_id id) (turns s).

Definition getTurn (username id : string) (s : turn_db) : option turn_dto :=
  mapRow <$> List.find (λ r, by_id id r && bool_decide (Turn.username r = username)) (turns s).

(** ** Accepting a turn *)

Definition queued (r : Turn.t) : bool := bool_decide (Turn.status r = TurnStatus.queued).

(** The rows of [rowid] below the row of [turnId]. *)
Fixpoint rows_before (turnId : string) (l : list Turn.t) : list Turn.t :=
  match l with
  | [] => []
  | r :: l' => if by_id turnId r then [] else r :: rows_before turnId l'
  end.

Definition countQueuedAhead (threadId : string) (createdAt : Z) (turnId : string) (s : turn_db) : Z :=
  let ahead p l := count_where (λ r, bool_decide (Turn.threadId r = threadId) && queued r &&
                                     p (Turn.createdAt r)) l in
  Z.of_nat (ahead (λ t, bool_decide (t < createdAt)%Z) (turns s) +
            if existsb (by_id turnId) (turns s)
            then ahead (λ t, bool_decide (t = createdAt)) (rows_before turnId (turns s)) else 0).

Record EnqueueTurnInput := mkEnqueue {
  ei_username : string;
  ei_threadId : string;
  ei_message : string;
  ei_generateDraft : bool;
  ei_createTaskMode : bool;
  ei_attachmentIds : list string;
  ei_selectedDraftSection : option string;
  ei_selectedPlanNodeRef : option string;
  ei_idempotencyKey : option string;
  ei_provider : option string;
  ei_kind : option TurnKind.t
}.

(** [CreateTurnAcceptedDto] *)
Record accepted := mkAccepted {
  ac_turnId : string;
  ac_status : TurnStatus.t;
  ac_revision : Z;
  ac_queuePosition : option Z
}.

Inductive enqueue_error :=
| MessageEmpty
| ThreadNotFound (threadId : string)
| IdempotencyConflict (existingThreadId : string)
| UniqueViolation (column : string).

Definition truthy_text (o : option string) : option string :=
  k ← o; if bool_decide (k = "") then None else Some k.

Definition new_turn (now : Z) (turnId : string) (i : EnqueueTurnInput) : Turn.t :=
  Turn.mk turnId (ei_threadId i) (ei_username i)
    (match ei_kind i with
     | Some k => k
     | None => if ei_createTaskMode i || ei_generateDraft i then TurnKind.create_task else TurnKind.chat
     end)
    TurnStatus.queued "live-read" (ei_provider i) (trim (ei_message i)) (ei_generateDraft i)
    (ei_createTaskMode i) (ei_attachmentIds i) (ei_selectedDraftSection i) (ei_selectedPlanNodeRef i)
    (ei_idempotencyKey i) 1 None now None None.

(** The unique index on [(username, idempotency_key)]. *)
Definition key_taken (i : EnqueueTurnInput) (r : Turn.t) : bool :=
  bool_decide (ei_idempotencyKey i ≠ None) && bool_decide (Turn.username r = ei_username i) &&
  bool_decide (Turn.idempotencyKey r = ei_idempotencyKey i).

Definition existing_turn (i : EnqueueTurnInput) (s : turn_db) : option Turn.t :=
  k ← truthy_text (ei_idempotencyKey i);
  List.find (λ r, bool_decide (Turn.username r = ei_username i) &&
                  bool_decide (Turn.idempotencyKey r = Some k)) (turns s).

(** [enqueueConversationTurn] until it sent the snapshot of the new turn; the
    queue advances after it.  [threadExists] is what [getThread] found. *)
Definition enqueueConversationTurn (threadExists : bool) (now : Z) (turnId : string)
    (i : EnqueueTurnInput) (s : turn_db) : result enqueue_error accepted * turn_db :=
  if bool_decide (trim (ei_message i) = "") && bool_decide (ei_attachmentIds i = []) then (Err MessageEmpty, s)
  else if negb threadExists then (Err (ThreadNotFound (ei_threadId i)), s)
  else match existing_turn i s with
  | Some r =>
      if negb (bool_decide (Turn.threadId r = ei_threadId i)) then
        (Err (IdempotencyConflict (Turn.threadId r)), s)
      else (Ok (mkAccepted (Turn.id r) (Turn.status r) (Turn.stateRevision r)
                  (if queued r then Some (countQueuedAhead (Turn.threadId r) (Turn.createdAt r) (Turn.id r) s + 1)%Z
                   else None)), s)
  | None =>
      if existsb (by_id turnId) (turns s) then (Err (UniqueViolation "id"), s)
      else if existsb (key_taken i) (turns s) then (Err (UniqueViolation "idempotency_key"), s)
      else
        let s1 := set_turns (turns s ++ [new_turn now turnId i]) s in
        let position := (countQueuedAhead (ei_threadId i) now turnId s1 + 1)%Z in
        let s2 := match getTurn (ei_username i) turnId s1 with
                  | Some d => emitTurn turnId (TurnSnapshot (at_position position d)) s1
                  | None => s1
                  end in
        (Ok (mkAccepted turnId TurnStatus.queued 1 (Some position)), s2)
  end.

(** ** Cancelling *)

Definition abort (turnId : string) (s : turn_db) : turn_db :=
  match controllers s !! turnId with
  | Some _ => set_controllers (<[turnId := true]> (controllers s)) s
  | None => s
  end.

(** [cancelConversationTurn] before the queue advances. *)
Definition cancelConversationTurn (now : Z) (username turnId : string) (s : turn_db) :
    option turn_dto * turn_db :=
  match List.find (λ r, by_id turnId r && bool_decide (Turn.username r = username)) (turns s) with
  | None => (None, s)
  | Some r =>
      if TurnStatus.settled (Turn.status r) then (Some (mapRow r), s)
      else
        let s1 := if queued r
                  then set_turns (update_where (by_id turnId) (Turn.settle TurnStatus.cancelled now) (turns s)) s
                  else abort turnId
                         (set_turns (update_where (by_id turnId) (Turn.to TurnStatus.cancelling) (turns s)) s) in
        match getTurn username turnId s1 with
        | Some d => (Some d, emitTurn turnId (TurnSnapshot d) s1)
        | None => (None, s1)
        end
  end.

(** ** Admission *)

Definition active_of_user (username : string) (r : Turn.t) : bool :=
  bool_decide (Turn.username r = username) && TurnStatus.active (Turn.status r).

Definition active_of_thread (threadId : string) (r : Turn.t) : bool :=
  bool_decide (Turn.threadId r = threadId) && TurnStatus.active (Turn.status r).

Definition countActiveTurnsForUser (username : string) (s : turn_db) : nat :=
  count_where (active_of_user username) (turns s).

Definition threadHasActiveTurn (threadId : string) (s : turn_db) : bool :=
  existsb (active_of_thread threadId) (turns s).

(** [ORDER BY created_at, rowid] *)
Fixpoint insert_row (r : Turn.t) (l : list Turn.t) : list Turn.t :=
  match l with
  | [] => [r]
  | x :: l' => if bool_decide (Turn.createdAt r ≤ Turn.createdAt x)%Z then r :: l else x :: insert_row r l'
  end.

Fixpoint order_by_created (l : list Turn.t) : list Turn.t :=
  match l with
  | [] => []
  | r :: l' => insert_row r (order_by_created l')
  end.

Section run.
(** What reading one attachment of a thread gives: a file, nothing, or an
    error of the file system. *)
Context (readAttachmentFile : string → string → result string (option string)).
Context (maxActive : nat).

(** The checks of [readThreadAttachment] and the read. *)
Definition readThreadAttachment (threadId attachmentId : string) : result string (option string) :=
  match assertFrozenThreadId threadId with
  | Err e => Err (FrozenIdError.message e)
  | Ok t => match assertFrozenAttachmentId attachmentId with
            | Err e => Err (FrozenIdError.message e)
            | Ok a => readAttachmentFile t a
            end
  end.

Fixpoint resolveThreadAttachments (threadId : string) (ids : list string) : result string (list string) :=
  match ids with
  | [] => Ok []
  | a :: ids' =>
      match readThreadAttachment threadId a with
      | Err e => Err e
      | Ok found => match resolveThreadAttachments threadId ids' with
                    | Err e => Err e
                    | Ok l => Ok (option_list found ++ l)
                    end
      end
  end.

(** [runAdmittedTurn] until the stream: an error of the attachments is thrown
    before the [try] and only logged. *)
Definition start_turn (turnId : string) (s : turn_db) : turn_db :=
  match find_turn s turnId with
  | Some r =>
      if negb (bool_decide (Turn.status r = TurnStatus.admitted)) then s
      else
        let s1 := set_turns (update_where (by_id turnId)
                    (Turn.to TurnStatus.running) (turns s)) s in
        let s2 := emitTurn turnId (TurnSnapshot (mapRow (Turn.to TurnStatus.running r))) s1 in
        match resolveThreadAttachments (Turn.threadId r) (Turn.attachmentIds r) with
        | Err _ => s2
        | Ok _ => call turnId (set_controllers (<[turnId := false]> (controllers s2)) s2)
        end
  | None => s
  end.

Definition admit_where (r : Turn.t) (q : Turn.t) : bool := by_id (Turn.id r) q && queued q.

(** The body of the loop of [advanceTurnQueue]. *)
Definition advance_row (now : Z) (s : turn_db) (r : Turn.t) : turn_db :=
  if threadHasActiveTurn (Turn.threadId r) s then s
  else if bool_decide (maxActive ≤ countActiveTurnsForUser (Turn.username r) s) then s
  else
    let changes := count_where (admit_where r) (turns s) in
    let s1 := set_turns (update_where (admit_where r) (Turn.set_admitted now (Turn.stateRevision r)) (turns s)) s in
    if negb (bool_decide (changes = 1)) then s1
    else start_turn (Turn.id r)
           (emitTurn (Turn.id r)
              (TurnSnapshot (mapRow (Turn.set_admitted now (Turn.stateRevision r) r))) s1).

Definition queued_for (username : option string) (r : Turn.t) : bool :=
  queued r && match truthy_text username with
              | Some u => bool_decide (Turn.username r = u)
              | None => true
              end.

Definition queue_order (username : option string) (s : turn_db) : list Turn.t :=
  order_by_created (select_where (queued_for username) (turns s)).

Definition advanceTurnQueue (now : Z) (username : option string) (s : turn_db) : turn_db :=
  foldl (advance_row now) s (queue_order username s).

(** ** The stream of a turn *)

(** The [finally] block. *)
Definition finish_turn (now : Z) (turnId username : string) (s : turn_db) : turn_db :=
  let s1 := set_controllers (delete turnId (controllers s)) s in
  let s2 := match find_turn s1 turnId with
            | Some r => emitTurn turnId (TurnSnapshot (mapRow r)) s1
            | None => s1
            end in
  advanceTurnQueue now (Some username) s2.

Definition settle_where (sts : list TurnStatus.t) (turnId : string) (r : Turn.t) : bool :=
  by_id turnId r && bool_decide (Turn.status r ∈ sts).

(** The [catch] block. *)
Definition catch_turn (now : Z) (turnId : string) (aborted : bool) (error : TurnErrorDto.t) (s : turn_db) :
    turn_db :=
  if bool_decide (Turn.status <$> find_turn s turnId = Some TurnStatus.cancelling) || aborted then
    set_turns (update_where (settle_where [TurnStatus.running; TurnStatus.cancelling] turnId)
      (Turn.settle TurnStatus.cancelled now) (turns s)) s
  else
    emitTurn turnId (TurnError (Some error) (TurnErrorDto.message error))
      (set_turns (update_where (settle_where [TurnStatus.running] turnId) (Turn.fail error now) (turns s)) s).

(** A step of a turn in the loop: its controller and the user it was read with. *)
Definition in_loop (turnId : string) (s : turn_db) : option (bool * string) :=
  aborted ← controllers s !! turnId; r ← find_turn s turnId; Some (aborted, Turn.username r).

Definition on_throw (now : Z) (turnId : string) (error : TurnErrorDto.t) (s : turn_db) : turn_db :=
  match in_loop turnId s with
  | Some (aborted, user) => finish_turn now turnId user (catch_turn now turnId aborted error s)
  | None => s
  end.

(** [toError] is [toTurnErrorDto] on the error the loop throws for the part. *)
Definition on_chunk (toError : string → option string → TurnErrorDto.t) (now : Z) (turnId : string)
    (c : chunk) (s : turn_db) : turn_db :=
  match in_loop turnId s with
  | Some (aborted, user) =>
      if bool_decide (Turn.status <$> find_turn s turnId = Some TurnStatus.cancelling) then
        let s1 := emitTurn turnId (TurnError None "Turn cancelled") s in
        finish_turn now turnId user
          (set_turns (update_where (by_id turnId) (Turn.settle TurnStatus.cancelled now) (turns s1)) s1)
      else
        let s1 := emitTurn turnId (TurnChunk c) s in
        match c with
        | Chunk _ _ => s1
        | ErrorChunk m k => finish_turn now turnId user (catch_turn now turnId aborted (toError m k) s1)
        end
  | None => s
  end.

Definition on_end (now : Z) (turnId : string) (s : turn_db) : turn_db :=
  match in_loop turnId s with
  | Some (_, user) =>
      let st := if bool_decide (Turn.status <$> find_turn s turnId = Some TurnStatus.cancelling)
                then TurnStatus.cancelled else TurnStatus.completed in
      finish_turn now turnId user
        (set_turns (update_where (settle_where [TurnStatus.running; TurnStatus.cancelling] turnId)
           (Turn.settle st now) (turns s)) s)
  | None => s
  end.

Definition onWorkspaceAccessResolved (turnId mode : string) (s : turn_db) : turn_db :=
  match in_loop turnId s with
  | Some _ =>
      let s1 := set_turns (update_where (by_id turnId) (Turn.set_access mode) (turns s)) s in
      match find_turn s1 turnId with
      | Some r => emitTurn turnId (TurnSnapshot (mapRow r)) s1
      | None => s1
      end
  | None => s
  end.
End run.

(** ** Startup *)

Definition interruptedError : TurnErrorDto.t :=
  turnErrorDto "turn.unknown" None (Some "Conversation turn was interrupted by a service restart") None.

Definition interrupted (r : Turn.t) : bool :=
  bool_decide (Turn.status r ∈ [TurnStatus.admitted; TurnStatus.running; TurnStatus.committing]).

(** A new process has no controllers; the counts are (failed, cancelled). *)
Definition reconcileConversationTurnsOnStartup (now : Z) (s : turn_db) : (nat * nat) * turn_db :=
  let is_cancelling r := bool_decide (Turn.status r = TurnStatus.cancelling) in
  let l1 := update_where is_cancelling (Turn.settle TurnStatus.cancelled now) (turns s) in
  ((count_where interrupted l1, count_where is_cancelling (turns s)),
   mkTurns (update_where interrupted (Turn.fail interruptedError now) l1) ∅ (calls s) (sent s)).

(** ** What the turn queue guarantees

    Over every interleaving of accepted turns, cancellations, queue advances,
    parts of streams and restarts: one active turn per thread, at most
    [maxActive] per user, at most one call of the conversation service per turn;
    settled turns never change; a queue advance leaves no turn waiting that could
    run and never overtakes within a thread. *)

Section specs.
Context (readFile : string → string → result string (option string)) (maxActive : nat).
Context (toError : string → option string → TurnErrorDto.t).
Implicit Types (s : turn_db) (r q : Turn.t).

Inductive op :=
| OEnqueue (threadExists : bool) (now : Z) (turnId : string) (i : EnqueueTurnInput)
| OCancel (now : Z) (username turnId : string)
| OAdvance (now : Z) (username : option string)
| OChunk (now : Z) (turnId : string) (c : chunk)
| OEnd (now : Z) (turnId : string)
| OThrow (now : Z) (turnId : string) (error : TurnErrorDto.t)
| OAccess (turnId mode : string)
| ORestart (now : Z).

Definition apply_op (o : op) (s : turn_db) : turn_db :=
  match o with
  | OEnqueue e now id i => (enqueueConversationTurn e now id i s).2
  | OCancel now u id => (cancelConversationTurn now u id s).2
  | OAdvance now u => advanceTurnQueue readFile maxActive now u s
  | OChunk now id c => on_chunk readFile maxActive toError now id c s
  | OEnd now id => on_end readFile maxActive now id s
  | OThrow now id e => on_throw readFile maxActive now id e s
  | OAccess id mode => onWorkspaceAccessResolved id mode s
  | ORestart now => (reconcileConversationTurnsOnStartup now s).2
  end.

Definition run_ops (os : list op) (s : turn_db) : turn_db := foldl (λ s o, apply_op o s) s os.

(** ** How a row moves *)

(** Past admission. *)
Definition late (st : TurnStatus.t) : bool :=
  match st with TurnStatus.queued | TurnStatus.admitted => false | _ => true end.

Record row_step (r r' : Turn.t) : Prop := {
  rs_id : Turn.id r' = Turn.id r;
  rs_thread : Turn.threadId r' = Turn.threadId r;
  rs_user : Turn.username r' = Turn.username r;
  rs_key : Turn.idempotencyKey r' = Turn.idempotencyKey r;
  rs_settled : TurnStatus.settled (Turn.status r) = true → r' = r;
  rs_late : late (Turn.status r) = true → late (Turn.status r') = true;
  rs_queued : queued r' = true → queued r = true
}.

#[local] Instance row_step_preorder : PreOrder row_step.
Proof.
  split; [by intros r|]. intros r1 r2 r3 [] []. split; try congruence; eauto.
  intros Hs. pose proof (rs_settled0 Hs) as ->. auto.
Qed.

(** Every row is still there, moved on. *)
Definition rows_le (l l' : list Turn.t) : Prop := ∀ r, r ∈ l → ∃ r', r' ∈ l' ∧ row_step r r'.

#[local] Instance rows_le_preorder : PreOrder rows_le.
Proof.
  split.
  - intros l r Hr. exists r. split; [done|reflexivity].
  - intros l1 l2 l3 H12 H23 r Hr. destruct (H12 r Hr) as (r2 & Hr2 & E2).
    destruct (H23 r2 Hr2) as (r3 & Hr3 & E3). exists r3. split; [done|]. by etrans.
Qed.

Lemma rows_le_update p f l :
  (∀ r, r ∈ l → p r = true → row_step r (f r)) → rows_le l (update_where p f l).
Proof.
  intros Hf r Hr. exists (if p r then f r else r). split; [apply elem_of_update; eauto|].
  destruct (p r) eqn:Hp; [auto|reflexivity].
Qed.

(** ** The invariant *)

Definition in_stream (st : TurnStatus.t) : Prop := st = TurnStatus.running ∨ st = TurnStatus.cancelling.

Record wf (s : turn_db) : Prop := {
  wf_ids : NoDup (map Turn.id (turns s));
  wf_keys : ∀ r r', r ∈ turns s → r' ∈ turns s → Turn.username r = Turn.username r' →
            Turn.idempotencyKey r = Turn.idempotencyKey r' → Turn.idempotencyKey r ≠ None → r = r';
  wf_thread : ∀ t, count_where (active_of_thread t) (turns s) ≤ 1;
  wf_user : ∀ u, count_where (active_of_user u) (turns s) ≤ maxActive;
  wf_controllers : ∀ id a, controllers s !! id = Some a →
                   ∃ r, r ∈ turns s ∧ Turn.id r = id ∧ in_stream (Turn.status r);
  wf_calls : NoDup (calls s);
  wf_called : ∀ id, id ∈ calls s → ∃ r, r ∈ turns s ∧ Turn.id r = id ∧ late (Turn.status r) = true
}.

Definition good (s s' : turn_db) : Prop := wf s → wf s' ∧ rows_le (turns s) (turns s').

#[local] Instance good_preorder : PreOrder good.
Proof.
  split; [by intros s Hs|]. intros s1 s2 s3 H12 H23 H1. destruct (H12 H1) as [H2 L12].
  destruct (H23 H2) as [H3 L23]. split; [done|]. by etrans.
Qed.

Lemma same_row s r r' : wf s → r ∈ turns s → r' ∈ turns s → Turn.id r = Turn.id r' → r = r'.
Proof. intros Hs. by apply (unique_key Turn.id (turns s)), Hs. Qed.

Lemma find_turn_elem s id r : find_turn s id = Some r → r ∈ turns s ∧ Turn.id r = id.
Proof. intros [Hr Hid%bool_decide_eq_true]%find_elem. done. Qed.

Lemma turn_by_id id r : by_id id r = true ↔ Turn.id r = id.
Proof. apply bool_decide_eq_true. Qed.

Lemma good_emit id e s : good s (emitTurn id e s).
Proof. by intros []. Qed.

(** An update that starts nothing, and keeps in the stream what has a
    controller after it. *)
Lemma good_update p f m s es :
  (∀ r, r ∈ turns s → p r = true →
        row_step r (f r) ∧ (TurnStatus.active (Turn.status (f r)) = true → TurnStatus.active (Turn.status r) = true)) →
  (∀ id a, m !! id = Some a → (∃ b, controllers s !! id = Some b) ∧
     ∀ r, r ∈ turns s → p r = true → Turn.id r = id → in_stream (Turn.status r) → in_stream (Turn.status (f r))) →
  good s (mkTurns (update_where p f (turns s)) m (calls s) es).
Proof.
  intros Hf Hm Hs. assert (rows_le (turns s) (update_where p f (turns s))) as Hle.
  { apply rows_le_update. intros r Hr Hp. by apply Hf. }
  assert (map Turn.id (update_where p f (turns s)) = map Turn.id (turns s)) as Hids.
  { unfold update_where. rewrite map_map. apply map_ext_in. intros r Hr%list_elem_of_In.
    destruct (p r) eqn:Hp; [|done]. by destruct (Hf r Hr Hp) as [[] _]. }
  split; [|done]. split; cbn.
  - rewrite Hids. apply Hs.
  - intros r1 r2 (q1 & Hq1 & ->)%elem_of_update (q2 & Hq2 & ->)%elem_of_update Hu Hk Hn.
    assert (∀ q, q ∈ turns s → Turn.username (if p q then f q else q) = Turn.username q ∧
              Turn.idempotencyKey (if p q then f q else q) = Turn.idempotencyKey q) as E.
    { intros q Hq. destruct (p q) eqn:Hp; [|done]. by destruct (Hf q Hq Hp) as [[] _]. }
    destruct (E q1 Hq1) as [E1 E1'], (E q2 Hq2) as [E2 E2'].
    assert (q1 = q2) as -> by (apply (wf_keys s Hs); congruence). done.
  - intros t. etransitivity; [|apply (wf_thread s Hs t)]. apply count_where_update_le.
    intros r Hr Hp. destruct (Hf r Hr Hp) as [[] Ha]. unfold active_of_thread.
    rewrite !andb_true_iff, rs_thread0. intros [? ?]. auto.
  - intros u. etransitivity; [|apply (wf_user s Hs u)]. apply count_where_update_le.
    intros r Hr Hp. destruct (Hf r Hr Hp) as [[] Ha]. unfold active_of_user.
    rewrite !andb_true_iff, rs_user0. intros [? ?]. auto.
  - intros id a Ha. destruct (Hm id a Ha) as [[b Hb] Hkeep].
    destruct (wf_controllers s Hs id b Hb) as (r & Hr & Hid & Hst).
    exists (if p r then f r else r). split; [apply elem_of_update; eauto|].
    destruct (p r) eqn:Hp; [|done]. destruct (Hf r Hr Hp) as [[] _]. split; [congruence|auto].
  - apply Hs.
  - intros id Hid. destruct (wf_called s Hs id Hid) as (r & Hr & Hid' & Hl).
    destruct (Hle r Hr) as (r' & Hr' & []). exists r'. split_and!; [done|congruence|auto].
Qed.
(** ** Admission *)

(** The row read as [r] belongs to the thread and the user [r] says. *)
Definition owner_of (r : Turn.t) (s : turn_db) : Prop :=
  ∀ q, q ∈ turns s → Turn.id q = Turn.id r → Turn.threadId q = Turn.threadId r ∧ Turn.username q = Turn.username r.

Lemma admit_where_true r q : admit_where r q = true ↔ Turn.id q = Turn.id r ∧ Turn.status q = TurnStatus.queued.
Proof. unfold admit_where, queued. by rewrite andb_true_iff, turn_by_id, bool_decide_eq_true. Qed.

(** At most one row is updated, so a count grows by at most one, and only when
    the condition [c] of the updated row holds. *)
Lemma count_admit (P : Turn.t → bool) (c : bool) r f s :
  wf s → (∀ q, q ∈ turns s → admit_where r q = true → P (f q) = true → c = true) →
  count_where P (update_where (admit_where r) f (turns s)) ≤
  count_where P (turns s) + (if c then 1 else 0).
Proof.
  intros Hs Hc. rewrite count_where_update. apply Nat.add_le_mono.
  - apply count_where_mono. intros q _ [_ ?]%andb_true_iff. done.
  - destruct c.
    + apply (count_where_key Turn.id (Turn.id r)); [apply Hs|].
      intros q [[Hid _]%admit_where_true _]%andb_true_iff. done.
    + apply Nat.le_0_r, count_where_0. intros q Hq. apply not_true_iff_false.
      intros [Hp HP]%andb_true_iff. specialize (Hc q Hq Hp HP). done.
Qed.

Lemma good_admit now r s :
  owner_of r s → threadHasActiveTurn (Turn.threadId r) s = false →
  countActiveTurnsForUser (Turn.username r) s < maxActive →
  good s (set_turns (update_where (admit_where r) (Turn.set_admitted now (Turn.stateRevision r)) (turns s)) s).
Proof.
  intros Hown Hthread Huser Hs.
  assert (∀ q, q ∈ turns s → admit_where r q = true → row_step q (Turn.set_admitted now (Turn.stateRevision r) q)) as Hstep.
  { intros q Hq [_ Hst]%admit_where_true. split; cbn; try done; by rewrite ?Hst. }
  split; [|by apply rows_le_update]. pose proof Hs as [Hids Hkeys Ht Hu Hctl Hcalls Hcalled]. split; cbn; try done.
  - by rewrite update_where_key.
  - intros r1 r2 (q1 & Hq1 & ->)%elem_of_update (q2 & Hq2 & ->)%elem_of_update H1 H2 Hn.
    assert (q1 = q2) as ->; [|done]. apply Hkeys; try done.
    + by destruct (admit_where r q1), (admit_where r q2).
    + by destruct (admit_where r q1), (admit_where r q2).
    + by destruct (admit_where r q1).
  - intros t. destruct (decide (Turn.threadId r = t)) as [<-|Hne].
    + etrans; [apply (count_admit _ true); done|].
      unfold threadHasActiveTurn in Hthread. rewrite existsb_count, negb_false_iff in Hthread.
      apply bool_decide_eq_true in Hthread. rewrite Hthread. done.
    + etrans; [apply (count_admit _ false)|specialize (Ht t); lia]; [done|].
      intros q Hq [Hid _]%admit_where_true [Htq%bool_decide_eq_true _]%andb_true_iff. cbn in Htq.
      destruct (Hown q Hq Hid). congruence.
  - intros u. destruct (decide (Turn.username r = u)) as [<-|Hne].
    + etrans; [apply (count_admit _ true); done|]. unfold countActiveTurnsForUser in Huser. lia.
    + etrans; [apply (count_admit _ false)|specialize (Hu u); lia]; [done|].
      intros q Hq [Hid _]%admit_where_true [Htq%bool_decide_eq_true _]%andb_true_iff. cbn in Htq.
      destruct (Hown q Hq Hid). congruence.
  - intros id a Ha. destruct (Hctl id a Ha) as (q & Hq & Hid & Hst). exists q. split; [|done].
    apply elem_of_update. exists q. split; [done|].
    destruct (admit_where r q) eqn:E; [|done]. apply admit_where_true in E as [_ E].
    destruct Hst; congruence.
  - intros id Hin. destruct (Hcalled id Hin) as (q & Hq & Hid & Hst). exists q. split; [|done].
    apply elem_of_update. exists q. split; [done|].
    destruct (admit_where r q) eqn:E; [|done]. apply admit_where_true in E as [_ E]. by rewrite E in Hst.
Qed.

(** ** The start of a turn *)

Lemma good_running id s :
  (∀ r, r ∈ turns s → Turn.id r = id → Turn.status r = TurnStatus.admitted) →
  good s (set_turns (update_where (by_id id) (Turn.to TurnStatus.running) (turns s)) s).
Proof.
  intros Hadm. apply good_update.
  - intros r Hr Hid%turn_by_id. specialize (Hadm r Hr Hid). split; [|by rewrite Hadm].
    split; cbn; try done; by rewrite ?Hadm.
  - intros id' a Ha. split; [by exists a|]. intros r Hr Hid%turn_by_id _ _. by left.
Qed.

Lemma good_call id s r :
  r ∈ turns s → Turn.id r = id → Turn.status r = TurnStatus.running → id ∉ calls s →
  good s (call id (set_controllers (<[id := false]> (controllers s)) s)).
Proof.
  intros Hr Hid Hst Hnew [Hids Hkeys Ht Hu Hctl Hcalls Hcalled]. split; [|reflexivity].
  split; cbn; try done.
  - intros id' a. destruct (decide (id' = id)) as [->|Hne].
    + intros _. exists r. split_and!; [done|done|by left].
    + rewrite lookup_insert_ne by done. apply Hctl.
  - by apply NoDup_snoc.
  - intros id' [Hin| ->]%elem_of_snoc; [auto|]. exists r. by rewrite Hst.
Qed.

Lemma good_start id s : good s (start_turn readFile id s).
Proof.
  unfold start_turn. destruct (find_turn s id) as [r|] eqn:Hf; [|reflexivity].
  destruct (negb _) eqn:Hst; [reflexivity|]. apply negb_false_iff, bool_decide_eq_true in Hst.
  apply find_turn_elem in Hf as [Hr Hid]. intros Hs.
  assert (∀ q, q ∈ turns s → Turn.id q = id → q = r) as Huniq.
  { intros q Hq Hq'. apply (same_row s); congruence. }
  set (s1 := set_turns _ _). set (s2 := emitTurn _ _ _).
  assert (good s s2) as H12.
  { etrans; [|apply good_emit]. apply good_running. intros q Hq Hq'. by rewrite (Huniq q Hq Hq'). }
  destruct (resolveThreadAttachments _ _ _); [|by apply H12].
  refine (transitivity (y:=s2) H12 _ Hs). apply (good_call _ _ (Turn.to TurnStatus.running r)); [|done|done|].
  - cbn. apply elem_of_update. exists r. by rewrite (proj2 (turn_by_id _ _) Hid).
  - cbn. intros Hin. destruct (wf_called s Hs id Hin) as (q & Hq & Hq' & Hl).
    rewrite (Huniq q Hq Hq'), Hst in Hl. done.
Qed.

(** ** The advance of the queue *)

Lemma good_advance_row now r s : (wf s → owner_of r s) → good s (advance_row readFile maxActive now s r).
Proof.
  intros Hown Hs. unfold advance_row. destruct (threadHasActiveTurn _ _) eqn:Ht; [by split|].
  case_bool_decide as Hu; [by split|]. set (s1 := set_turns _ _).
  assert (good s s1) as H1 by (apply good_admit; [auto|done|lia]).
  destruct (negb _); [by apply H1|]. refine (transitivity (y:=s1) H1 _ Hs).
  etrans; [apply good_emit|apply good_start].
Qed.

Lemma owner_later r s s' : wf s' → r ∈ turns s → rows_le (turns s) (turns s') → owner_of r s'.
Proof.
  intros Hs' Hr Hle q Hq Hid. destruct (Hle r Hr) as (r' & Hr' & []).
  assert (q = r') as -> by (apply (same_row s'); congruence). done.
Qed.

Lemma good_advance_rows now l s0 s :
  wf s → rows_le (turns s0) (turns s) → (∀ r, r ∈ l → r ∈ turns s0) →
  good s (foldl (advance_row readFile maxActive now) s l).
Proof.
  revert s. induction l as [|r l IH]; intros s Hs Hle Hl; [reflexivity|]. cbn.
  assert (good s (advance_row readFile maxActive now s r)) as H1.
  { apply good_advance_row. intros _. apply (owner_later r s0); [done| |done]. apply Hl. by left. }
  destruct (H1 Hs) as [Hs1 Hle1]. etrans; [exact H1|]. apply IH; [done|by etrans|].
  intros q Hq. apply Hl. by right.
Qed.

Lemma insert_row_perm r l : insert_row r l ≡ₚ r :: l.
Proof.
  induction l as [|x l IH]; [done|]. cbn. case_bool_decide; [done|]. rewrite IH. apply Permutation_swap.
Qed.

Lemma order_perm l : order_by_created l ≡ₚ l.
Proof. induction l as [|r l IH]; [done|]. cbn. by rewrite insert_row_perm, IH. Qed.

Lemma queue_order_elem u s r : r ∈ queue_order u s ↔ r ∈ turns s ∧ queued_for u r = true.
Proof. unfold queue_order. rewrite order_perm. apply elem_of_select. Qed.

Lemma good_advance now u s : good s (advanceTurnQueue readFile maxActive now u s).
Proof.
  intros Hs. apply (good_advance_rows now _ s); [done|reflexivity| |done].
  by intros r [Hr _]%queue_order_elem.
Qed.
(** ** The stream *)

Lemma settle_where_true sts id r : settle_where sts id r = true ↔ Turn.id r = id ∧ Turn.status r ∈ sts.
Proof. unfold settle_where. by rewrite andb_true_iff, turn_by_id, bool_decide_eq_true. Qed.

(** Rows that a settling update may touch: not settled yet. *)
Lemma row_step_settle f r :
  Turn.id (f r) = Turn.id r → Turn.threadId (f r) = Turn.threadId r → Turn.username (f r) = Turn.username r →
  Turn.idempotencyKey (f r) = Turn.idempotencyKey r →
  TurnStatus.settled (Turn.status r) = false → late (Turn.status (f r)) = true →
  row_step r (f r).
Proof.
  intros H1 H2 H3 H4 Hns Hl. split; try done; [by rewrite Hns|].
  unfold queued. intros Hq%bool_decide_eq_true. by rewrite Hq in Hl.
Qed.

(** A turn leaves the loop: its row is settled and its controller removed. *)
Lemma good_leave p f id s es :
  (∀ r, p r = true → Turn.id r = id) →
  (∀ r, r ∈ turns s → p r = true → row_step r (f r) ∧ TurnStatus.active (Turn.status (f r)) = false) →
  good s (mkTurns (update_where p f (turns s)) (delete id (controllers s)) (calls s) es).
Proof.
  intros Hp Hf. apply good_update.
  - intros r Hr Hpr. destruct (Hf r Hr Hpr) as [Hstep Ha]. split; [done|]. by rewrite Ha.
  - intros id' a Ha. apply lookup_delete_Some in Ha as [Hne Ha]. split; [by exists a|].
    intros r Hr Hpr Hid. exfalso. apply Hne. rewrite <-Hid. symmetry. by apply Hp.
Qed.

(** The rest of [finally] after the controller is removed. *)
Lemma good_finish now id u s s' :
  good s (set_controllers (delete id (controllers s')) s') → good s (finish_turn readFile maxActive now id u s').
Proof.
  intros Hg. unfold finish_turn. etrans; [exact Hg|]. set (s1 := set_controllers _ s').
  destruct (find_turn s1 id); [etrans; [apply good_emit|]|]; apply good_advance.
Qed.

Lemma good_catch now id b e s :
  good s (set_controllers (delete id (controllers (catch_turn now id b e s))) (catch_turn now id b e s)).
Proof.
  unfold catch_turn. destruct (_ || b).
  - apply (good_leave _ (Turn.settle TurnStatus.cancelled now) id s); [by intros r [? _]%settle_where_true|].
    intros r Hr [_ Hst]%settle_where_true. split; [|done]. apply row_step_settle; try done.
    revert Hst. rewrite !elem_of_cons, elem_of_nil. by intros [->|[->|[]]].
  - apply (good_leave _ (Turn.fail e now) id s); [by intros r [? _]%settle_where_true|].
    intros r Hr [_ Hst]%settle_where_true. split; [|done]. apply row_step_settle; try done.
    apply list_elem_of_singleton in Hst. by rewrite Hst.
Qed.

Lemma in_loop_spec id s a u :
  wf s → in_loop id s = Some (a, u) →
  ∃ r, find_turn s id = Some r ∧ in_stream (Turn.status r) ∧ controllers s !! id = Some a ∧ u = Turn.username r.
Proof.
  unfold in_loop. intros Hs. destruct (controllers s !! id) as [a'|] eqn:Ha; [|done]. cbn.
  destruct (find_turn s id) as [r|] eqn:Hf; [|done]. intros [= <- <-]. exists r. split_and!; [done| |done|done].
  destruct (wf_controllers s Hs id a' Ha) as (r' & Hr' & Hid' & Hst).
  apply find_turn_elem in Hf as [Hr Hid]. assert (r = r') as -> by (apply (same_row s); congruence). done.
Qed.

Lemma good_throw now id e s : good s (on_throw readFile maxActive now id e s).
Proof.
  unfold on_throw. destruct (in_loop id s) as [[a u]|]; [|reflexivity]. apply good_finish, good_catch.
Qed.

(** The end of a stream, and a cancelled turn that sees a part of it. *)
Lemma good_settle st now id s es :
  late st = true → TurnStatus.active st = false →
  good s (mkTurns (update_where (settle_where [TurnStatus.running; TurnStatus.cancelling] id)
            (Turn.settle st now) (turns s)) (delete id (controllers s)) (calls s) es).
Proof.
  intros Hl Ha. apply good_leave; [by intros r [? _]%settle_where_true|].
  intros r Hr [_ Hst]%settle_where_true. split; [|done]. apply row_step_settle; try done.
  revert Hst. rewrite !elem_of_cons, elem_of_nil. by intros [->|[->|[]]].
Qed.

Lemma good_settle_cancelling now id s es :
  Turn.status <$> find_turn s id = Some TurnStatus.cancelling →
  good s (mkTurns (update_where (by_id id) (Turn.settle TurnStatus.cancelled now) (turns s))
            (delete id (controllers s)) (calls s) es).
Proof.
  intros Hst Hs. refine (good_leave _ _ id s es _ _ Hs); [by intros r ?%turn_by_id|].
  intros r Hr Hid%turn_by_id. split; [|done]. apply row_step_settle; try done.
  destruct (find_turn s id) as [r'|] eqn:Hf; [|done]. apply find_turn_elem in Hf as [Hr' Hid'].
  assert (r = r') as -> by (apply (same_row s); congruence). cbn in Hst. by injection Hst as ->.
Qed.

(** The status [on_end] settles with. *)
Lemma end_status (b : bool) (st := if b then TurnStatus.cancelled else TurnStatus.completed) :
  late st = true ∧ TurnStatus.active st = false.
Proof. by destruct b. Qed.

Lemma good_end now id s : good s (on_end readFile maxActive now id s).
Proof.
  unfold on_end. destruct (in_loop id s) as [[a u]|]; [|reflexivity]. apply good_finish.
  apply (good_settle _ now id s); apply end_status.
Qed.

Lemma good_chunk now id c s : good s (on_chunk readFile maxActive toError now id c s).
Proof.
  unfold on_chunk. destruct (in_loop id s) as [[a u]|]; [|reflexivity]. case_bool_decide as Hst.
  - apply good_finish. by apply (good_settle_cancelling now id s).
  - destruct c; [apply good_emit|]. etrans; [apply good_emit|]. apply good_finish, good_catch.
Qed.

Lemma good_access id mode s : good s (onWorkspaceAccessResolved id mode s).
Proof.
  unfold onWorkspaceAccessResolved. destruct (in_loop id s) as [[a u]|] eqn:Hin; [|reflexivity].
  set (s1 := set_turns _ _). intros Hs. destruct (in_loop_spec _ _ _ _ Hs Hin) as (r & Hf & Hst & _).
  apply find_turn_elem in Hf as [Hr Hid].
  assert (good s s1) as H1; [|destruct (find_turn s1 id);
    [exact (transitivity (y:=s1) H1 (good_emit _ _ _) Hs)|by apply H1]].
  apply good_update.
  - intros q Hq Hqid%turn_by_id. assert (q = r) as -> by (apply (same_row s); congruence).
    split; [|done]. split; try done. intros Hse. by destruct Hst as [E|E]; rewrite E in Hse.
  - intros id' b Hb. split; [eauto|]. intros. done.
Qed.

(** ** Cancel, accept, restart *)

Lemma good_cancel now u id s : good s (cancelConversationTurn now u id s).2.
Proof.
  unfold cancelConversationTurn. destruct (List.find _ _) as [r|] eqn:Hf; [|reflexivity].
  apply find_elem in Hf as [Hr [Hid%turn_by_id Hu%bool_decide_eq_true]%andb_true_iff].
  destruct (TurnStatus.settled _) eqn:Hns; [reflexivity|]. set (s1 := if queued r then _ else _).
  assert (good s s1) as H1; [|destruct (getTurn _ _ _); cbn; [|done];
    etrans; [exact H1|apply good_emit]].
  intros Hs. assert (∀ q, q ∈ turns s → by_id id q = true → q = r) as Huniq.
  { intros q Hq Hqid%turn_by_id. apply (same_row s); congruence. }
  unfold s1. clear s1. destruct (queued r) eqn:Hq.
  - refine (good_update _ _ (controllers s) s (sent s) _ _ Hs).
    + intros q Hqin Hqid. rewrite (Huniq q Hqin Hqid). split; [|done]. by apply row_step_settle.
    + intros id' a Ha. split; [eauto|]. intros q Hqin Hqid _ Hst. rewrite (Huniq q Hqin Hqid) in Hst.
      apply bool_decide_eq_true in Hq. destruct Hst; congruence.
  - set (m := controllers (abort id (set_turns (update_where (by_id id) (Turn.to TurnStatus.cancelling) (turns s)) s))).
    assert (∀ id' a, m !! id' = Some a → ∃ b, controllers s !! id' = Some b) as Hm.
    { intros id' a. unfold m, abort. cbn. destruct (controllers s !! id) eqn:E; cbn; [|eauto].
      destruct (decide (id' = id)) as [->|]; [eauto|rewrite lookup_insert_ne by done; eauto]. }
    assert (abort id (set_turns (update_where (by_id id) (Turn.to TurnStatus.cancelling) (turns s)) s) =
            mkTurns (update_where (by_id id) (Turn.to TurnStatus.cancelling) (turns s)) m (calls s) (sent s)) as ->.
    { unfold m, abort. cbn. by case_match. }
    refine (good_update _ _ m s (sent s) _ _ Hs).
    + intros q Hqin Hqid. rewrite (Huniq q Hqin Hqid). split; [by apply row_step_settle|]. intros _.
      revert Hq Hns. unfold queued. rewrite bool_decide_eq_false. by destruct (Turn.status r).
    + intros id' a Ha. split; [eauto|]. intros q _ _ _ _. by right.
Qed.

Lemma good_append r s :
  Turn.status r = TurnStatus.queued → existsb (by_id (Turn.id r)) (turns s) = false →
  (∀ q, q ∈ turns s → Turn.idempotencyKey r ≠ None → Turn.username q = Turn.username r →
        Turn.idempotencyKey q ≠ Turn.idempotencyKey r) →
  good s (set_turns (turns s ++ [r]) s).
Proof.
  intros Hst Hid Hkey [Hids Hkeys Ht Hu Hctl Hcalls Hcalled].
  rewrite existsb_count, negb_false_iff in Hid. apply bool_decide_eq_true in Hid. rewrite count_where_0 in Hid.
  split; [split; cbn|].
  - rewrite map_app. apply NoDup_snoc; [done|].
    intros (q & Heq & Hq%list_elem_of_In)%list_elem_of_In%in_map_iff.
    specialize (Hid q Hq). by apply bool_decide_eq_false in Hid.
  - intros r1 r2 [H1| ->]%elem_of_snoc [H2| ->]%elem_of_snoc E1 E2 Hn; [by apply Hkeys| | |done].
    + exfalso. apply (Hkey r1); congruence.
    + exfalso. apply (Hkey r2); congruence.
  - intros t. rewrite count_where_app, count_where_cons, count_where_nil.
    unfold active_of_thread at 2. rewrite Hst, andb_false_r. specialize (Ht t). lia.
  - intros u. rewrite count_where_app, count_where_cons, count_where_nil.
    unfold active_of_user at 2. rewrite Hst, andb_false_r. specialize (Hu u). lia.
  - intros id a Ha. destruct (Hctl id a Ha) as (q & Hq & ?). exists q. split; [apply elem_of_snoc; by left|done].
  - done.
  - intros id Hin. destruct (Hcalled id Hin) as (q & Hq & ?). exists q. split; [apply elem_of_snoc; by left|done].
  - intros q Hq. exists q. split; [apply elem_of_snoc; by left|reflexivity].
Qed.

Lemma good_enqueue e now id i s : good s (enqueueConversationTurn e now id i s).2.
Proof.
  unfold enqueueConversationTurn. destruct (_ && _); [reflexivity|]. destruct (negb e); [reflexivity|].
  destruct (existing_turn i s) as [r|]; [by destruct (negb _)|].
  destruct (existsb (by_id id) (turns s)) eqn:Hid; [reflexivity|].
  destruct (existsb (key_taken i) (turns s)) eqn:Hkey; [reflexivity|]. cbn -[getTurn].
  set (s1 := set_turns _ s). assert (good s s1) as H1.
  { apply good_append; [done|done|]. rewrite existsb_count, negb_false_iff in Hkey.
    apply bool_decide_eq_true in Hkey. rewrite count_where_0 in Hkey. cbn. intros q Hq Hn Hu Hk.
    specialize (Hkey q Hq). unfold key_taken in Hkey. by rewrite !bool_decide_eq_true_2 in Hkey. }
  destruct (getTurn _ _ _); [|done]. etrans; [exact H1|apply good_emit].
Qed.

Lemma good_restart now s : good s (reconcileConversationTurnsOnStartup now s).2.
Proof.
  cbn. set (p := λ r, bool_decide (Turn.status r = TurnStatus.cancelling)).
  set (f := Turn.settle TurnStatus.cancelled now).
  assert (good s (mkTurns (update_where p f (turns s)) ∅ (calls s) (sent s))) as H1.
  { apply good_update; [|by intros id a Ha; rewrite lookup_empty in Ha].
    intros r Hr Hp%bool_decide_eq_true. split; [|done]. apply row_step_settle; try done. by rewrite Hp. }
  etrans; [exact H1|]. set (s1 := mkTurns _ _ _ _).
  refine (good_update interrupted _ ∅ s1 (sent s) _ _); [|by intros id a Ha; rewrite lookup_empty in Ha].
  intros r Hr Hp%bool_decide_eq_true. split; [|done]. apply row_step_settle; try done.
  revert Hp. rewrite !elem_of_cons, elem_of_nil. by intros [->|[->|[->|[]]]].
Qed.

Lemma turn_op_good o s : good s (apply_op o s).
Proof.
  destruct o; cbn -[enqueueConversationTurn cancelConversationTurn reconcileConversationTurnsOnStartup].
  - apply good_enqueue.
  - apply good_cancel.
  - apply good_advance.
  - apply good_chunk.
  - apply good_end.
  - apply good_throw.
  - apply good_access.
  - apply good_restart.
Qed.

Lemma turn_ops_good os s : good s (run_ops os s).
Proof.
  revert s. induction os as [|o os IH]; intros s; [reflexivity|]. cbn.
  etrans; [apply turn_op_good|apply IH].
Qed.
(** ** Limits *)

(** A table as the database guarantees it: unique ids, unique keys per user. *)
Definition unique_turns (l : list Turn.t) : Prop :=
  NoDup (map Turn.id l) ∧
  ∀ r r', r ∈ l → r' ∈ l → Turn.username r = Turn.username r' →
          Turn.idempotencyKey r = Turn.idempotencyKey r' → Turn.idempotencyKey r ≠ None → r = r'.

(** The process has just started on the table. *)
Definition booted (s : turn_db) : Prop := unique_turns (turns s) ∧ calls s = [].

Lemma reconciled_inactive now s r :
  r ∈ turns (reconcileConversationTurnsOnStartup now s).2 → TurnStatus.active (Turn.status r) = false.
Proof.
  cbn. intros (r1 & (r0 & _ & ->)%elem_of_update & ->)%elem_of_update. unfold interrupted.
  repeat case_bool_decide; try done. cbn in *.
  destruct (Turn.status r0) eqn:E; set_solver.
Qed.

Lemma reconciled_wf now s : booted s → wf (reconcileConversationTurnsOnStartup now s).2.
Proof.
  intros [[Hids Hkeys] Hcalls].
  assert (∀ (P : Turn.t → bool), (∀ r, P r = true → TurnStatus.active (Turn.status r) = true) →
    count_where P (turns (reconcileConversationTurnsOnStartup now s).2) = 0) as Hzero.
  { intros P HP. apply count_where_0. intros r Hr%reconciled_inactive. apply not_true_iff_false.
    intros ?%HP. congruence. }
  split.
  - cbn. rewrite !update_where_key; done.
  - cbn. intros r1 r2 (q1 & (o1 & Ho1 & ->)%elem_of_update & ->)%elem_of_update
      (q2 & (o2 & Ho2 & ->)%elem_of_update & ->)%elem_of_update Hu Hk Hn.
    assert (o1 = o2) as ->; [|done].
    apply Hkeys; try done; revert Hu Hk Hn; repeat case_match; done.
  - intros t. rewrite Hzero; [lia|]. by intros r [_ ?]%andb_true_iff.
  - intros u. rewrite Hzero; [lia|]. by intros r [_ ?]%andb_true_iff.
  - intros id a Ha. cbn in Ha. by rewrite lookup_empty in Ha.
  - cbn. rewrite Hcalls. apply list.NoDup_nil. done.
  - cbn. rewrite Hcalls. by intros id ?%not_elem_of_nil.
Qed.

(** C12: The conversation queue keeps its limits: after a restart and any sequence of enqueues,
    cancellations, advances, stream chunks, ends and failures, a thread has at most one active
    turn, a user at most the configured number of active turns, and no turn is handed to the
    provider twice. *)
Theorem turn_queue_limits now os s :
  booted s →
  let s' := run_ops os (reconcileConversationTurnsOnStartup now s).2 in
  (∀ t, count_where (active_of_thread t) (turns s') ≤ 1) ∧
  (∀ u, count_where (active_of_user u) (turns s') ≤ maxActive) ∧
  NoDup (calls s').
Proof.
  intros Hs%(reconciled_wf now) s'. destruct (turn_ops_good os _ Hs) as [[_ _ Ht Hu _ Hc _] _]. done.
Qed.

(** ** Settled turns *)

Theorem settled_turn_is_final os s r :
  wf s → r ∈ turns s → TurnStatus.settled (Turn.status r) = true → r ∈ turns (run_ops os s).
Proof.
  intros Hs Hr Hst. destruct (turn_ops_good os s Hs) as [_ Hle]. destruct (Hle r Hr) as (r' & Hr' & Hstep).
  by rewrite (rs_settled _ _ Hstep Hst) in Hr'.
Qed.

(** ** One turn per idempotency key *)

Lemma enqueue_row e now id i s a s1 k :
  enqueueConversationTurn e now id i s = (Ok a, s1) → ei_idempotencyKey i = Some k → k ≠ "" →
  ∃ r, r ∈ turns s1 ∧ Turn.id r = ac_turnId a ∧ Turn.username r = ei_username i ∧
       Turn.idempotencyKey r = Some k ∧ Turn.threadId r = ei_threadId i.
Proof.
  unfold enqueueConversationTurn. intros Henq Hk Hne. revert Henq.
  destruct (_ && _); [done|]. destruct (negb e); [done|].
  destruct (existing_turn i s) as [r|] eqn:Hex.
  - destruct (negb _) eqn:Ht; [done|]. intros [= <- <-]. exists r. cbn.
    unfold existing_turn in Hex. rewrite Hk in Hex. cbn in Hex. rewrite bool_decide_eq_false_2 in Hex by done.
    cbn in Hex. apply find_elem in Hex as [Hr [Hu%bool_decide_eq_true Hkey%bool_decide_eq_true]%andb_true_iff].
    apply negb_false_iff, bool_decide_eq_true in Ht. done.
  - destruct (existsb _ _); [done|]. destruct (existsb _ _); [done|]. intros [= <- <-].
    exists (new_turn now id i). cbn. split; [|done].
    case_match; cbn; apply elem_of_snoc; by right.
Qed.

(** A message sent again under the same idempotency key, after any sequence of operations,
    is answered with the turn of the first one and changes nothing. *)
Theorem enqueue_is_idempotent e now id i s a s1 os :
  wf s → enqueueConversationTurn e now id i s = (Ok a, s1) →
  ∀ k, ei_idempotencyKey i = Some k → k ≠ "" →
  ∀ now' id' i', ei_idempotencyKey i' = Some k → ei_username i' = ei_username i → ei_threadId i' = ei_threadId i →
  trim (ei_message i') ≠ "" →
  let s2 := run_ops os s1 in
  ∃ a', enqueueConversationTurn true now' id' i' s2 = (Ok a', s2) ∧ ac_turnId a' = ac_turnId a.
Proof.
  intros Hs Henq k Hk Hne now' id' i' Hk' Hu' Ht' Hm s2.
  destruct (enqueue_row _ _ _ _ _ _ _ _ Henq Hk Hne) as (r & Hr & Hid & Hu & Hkey & Ht).
  destruct (good_enqueue e now id i s Hs) as [Hs1 _]. rewrite Henq in Hs1. cbn in Hs1.
  destruct (turn_ops_good os s1 Hs1) as [Hs2 Hle]. fold s2 in Hs2, Hle.
  destruct (Hle r Hr) as (r' & Hr' & [E1 E2 E3 E4 _ _ _]).
  assert (existing_turn i' s2 = Some r') as Hex.
  { unfold existing_turn. rewrite Hk'. cbn. rewrite bool_decide_eq_false_2 by done. cbn.
    destruct (List.find _ _) as [q|] eqn:Hf.
    - apply find_elem in Hf as [Hq [Hqu%bool_decide_eq_true Hqk%bool_decide_eq_true]%andb_true_iff].
      f_equal. apply (wf_keys s2 Hs2); congruence.
    - rewrite find_none_elem in Hf. specialize (Hf r' Hr').
      rewrite !bool_decide_eq_true_2 in Hf by congruence. done. }
  unfold enqueueConversationTurn. rewrite (bool_decide_eq_false_2 _ Hm). cbn. rewrite Hex.
  rewrite (bool_decide_eq_true_2 (Turn.threadId r' = _)) by congruence. cbn.
  eexists. split; [done|]. cbn. congruence.
Qed.
(** ** Who is served *)

(** The turn cannot run now. *)
Definition blocked (r : Turn.t) (s : turn_db) : Prop :=
  threadHasActiveTurn (Turn.threadId r) s = true ∨ maxActive ≤ countActiveTurnsForUser (Turn.username r) s.

(** More is active. *)
Definition busier (s s' : turn_db) : Prop :=
  (∀ t, count_where (active_of_thread t) (turns s) ≤ count_where (active_of_thread t) (turns s')) ∧
  (∀ u, count_where (active_of_user u) (turns s) ≤ count_where (active_of_user u) (turns s')).

#[local] Instance busier_preorder : PreOrder busier.
Proof. split; [by intros s|]. intros s1 s2 s3 [] []. split; intros; etrans; eauto. Qed.

Lemma blocked_busier r s s' : busier s s' → blocked r s → blocked r s'.
Proof.
  intros [Ht Hu] [Hb|Hb]; [left|right].
  - unfold threadHasActiveTurn in *. rewrite existsb_count, negb_true_iff, bool_decide_eq_false in *.
    specialize (Ht (Turn.threadId r)). lia.
  - unfold countActiveTurnsForUser in *. specialize (Hu (Turn.username r)). lia.
Qed.

Lemma busier_update p f s :
  (∀ r, r ∈ turns s → p r = true → Turn.threadId (f r) = Turn.threadId r ∧ Turn.username (f r) = Turn.username r ∧
        TurnStatus.active (Turn.status (f r)) = true) →
  busier s (set_turns (update_where p f (turns s)) s).
Proof.
  intros Hf. split; intros k; apply count_where_update_ge; intros r Hr Hp;
    destruct (Hf r Hr Hp) as (E1 & E2 & E3); unfold active_of_thread, active_of_user;
    rewrite ?E1, ?E2, E3, !andb_true_iff; intros [? _]; auto.
Qed.

(** What the loop body does to the table. *)
Lemma start_turn_turns id s :
  turns (start_turn readFile id s) = turns s ∨
  turns (start_turn readFile id s) = update_where (by_id id) (Turn.to TurnStatus.running) (turns s).
Proof. unfold start_turn. repeat case_match; auto. Qed.

Lemma busier_start id s : busier s (start_turn readFile id s).
Proof.
  destruct (start_turn_turns id s) as [E|E]; unfold busier; rewrite E; [done|].
  by apply (busier_update (by_id id)).
Qed.

Lemma busier_advance_row now r s : busier s (advance_row readFile maxActive now s r).
Proof.
  unfold advance_row. repeat (case_match; [reflexivity|]). set (s1 := set_turns _ _).
  assert (busier s s1) as H1 by (by apply busier_update).
  case_match; [done|]. etrans; [exact H1|]. apply (busier_start _ (emitTurn _ _ s1)).
Qed.

Lemma busier_advance_rows now l s : busier s (foldl (advance_row readFile maxActive now) s l).
Proof.
  revert s. induction l as [|r l IH]; intros s; [reflexivity|]. cbn.
  etrans; [apply busier_advance_row|apply IH].
Qed.

(** The conditional update admits exactly the row it was read for. *)
Lemma admit_count r s :
  wf s → r ∈ turns s → Turn.status r = TurnStatus.queued → count_where (admit_where r) (turns s) = 1.
Proof.
  intros Hs Hr Hq. assert (admit_where r r = true) as Hp by (by apply admit_where_true).
  pose proof (count_where_pos _ _ _ Hr Hp).
  assert (count_where (admit_where r) (turns s) ≤ 1); [|lia].
  apply (count_where_key Turn.id (Turn.id r)); [apply Hs|]. by intros q [? _]%admit_where_true.
Qed.

(** A row that was queued, once reached, is blocked: it or another turn runs. *)
Lemma advance_row_blocks now r s :
  wf s → r ∈ turns s → queued r = true → blocked r (advance_row readFile maxActive now s r).
Proof.
  intros Hs Hr Hq. apply bool_decide_eq_true in Hq.
  unfold advance_row. destruct (threadHasActiveTurn _ _) eqn:Ht; [by left|].
  case_bool_decide as Hu; [by right|]. set (s1 := set_turns _ _).
  rewrite admit_count by done. cbn. apply (blocked_busier _ _ _ (busier_start _ _)). left.
  apply existsb_exists. exists (Turn.set_admitted now (Turn.stateRevision r) r). split.
  - apply list_elem_of_In, elem_of_update. exists r. split; [done|].
    by rewrite (proj2 (admit_where_true _ _)).
  - unfold active_of_thread. cbn. by rewrite bool_decide_eq_true_2.
Qed.

(** It touches no other row. *)
Lemma advance_row_other now r s q :
  q ∈ turns s → Turn.id q ≠ Turn.id r → q ∈ turns (advance_row readFile maxActive now s r).
Proof.
  intros Hq Hne. unfold advance_row. repeat (case_match; [done|]). set (s1 := set_turns _ _).
  assert (q ∈ turns s1) as H1.
  { apply elem_of_update. exists q. split; [done|].
    destruct (admit_where r q) eqn:E; [|done]. by apply admit_where_true in E as [? _]. }
  case_match; [done|].
  destruct (start_turn_turns (Turn.id r) (emitTurn (Turn.id r)
    (TurnSnapshot (mapRow (Turn.set_admitted now (Turn.stateRevision r) r))) s1)) as [-> | ->]; [done|].
  cbn. apply elem_of_update. exists q. split; [done|].
  destruct (by_id (Turn.id r) q) eqn:E; [|done]. by apply turn_by_id in E.
Qed.

Lemma advance_rows_other now l s q :
  q ∈ turns s → Turn.id q ∉ map Turn.id l → q ∈ turns (foldl (advance_row readFile maxActive now) s l).
Proof.
  revert s. induction l as [|r l IH]; intros s Hq Hn; [done|]. cbn in *.
  apply not_elem_of_cons in Hn as [Hne Hn]. apply IH; [|done]. by apply advance_row_other.
Qed.

(** The rows still to reach are untouched. *)
Definition to_reach (l : list Turn.t) (s : turn_db) : Prop :=
  wf s ∧ NoDup (map Turn.id l) ∧ ∀ r, r ∈ l → r ∈ turns s ∧ queued r = true.

Lemma to_reach_step now r l s :
  to_reach (r :: l) s → to_reach l (advance_row readFile maxActive now s r).
Proof.
  intros (Hs & Hnd & Hin). cbn in Hnd. apply list.NoDup_cons in Hnd as [Hnot Hnd].
  assert (r ∈ turns s) as Hr by (apply Hin; left).
  split_and!; [|done|].
  - apply good_advance_row; [|done]. intros _ q Hq Hid. by rewrite (same_row s q r).
  - intros q Hq. split; [|apply Hin; by right]. apply advance_row_other; [apply Hin; by right|].
    intros Hid. apply Hnot. rewrite <-Hid. by apply list_elem_of_In, in_map, list_elem_of_In.
Qed.

Lemma to_reach_app now l1 l2 s :
  to_reach (l1 ++ l2) s → to_reach l2 (foldl (advance_row readFile maxActive now) s l1).
Proof. revert s. induction l1 as [|r l1 IH]; intros s Hs; [done|]. cbn. by apply IH, to_reach_step. Qed.

Lemma reached_blocked now l s r :
  to_reach l s → r ∈ l → blocked r (foldl (advance_row readFile maxActive now) s l).
Proof.
  revert s. induction l as [|q l IH]; intros s Hs; [by intros ?%not_elem_of_nil|]. cbn.
  intros [->|Hr]%elem_of_cons; [|apply IH; [by apply to_reach_step|done]].
  apply (blocked_busier _ _ _ (busier_advance_rows _ _ _)). destruct Hs as (Hs & _ & Hin).
  destruct (Hin q (list_elem_of_here _ _)). by apply advance_row_blocks.
Qed.
(** The order of the queue. *)

Lemma insert_row_sorted r l :
  StronglySorted (λ a b, Turn.createdAt a ≤ Turn.createdAt b)%Z l →
  StronglySorted (λ a b, Turn.createdAt a ≤ Turn.createdAt b)%Z (insert_row r l).
Proof.
  induction 1 as [|x l Hl IH Hx]; cbn; [constructor; constructor|]. case_bool_decide as Hle.
  - constructor; [by constructor|]. constructor; [done|]. revert Hx. apply Forall_impl. intros; lia.
  - constructor; [done|]. rewrite insert_row_perm. constructor; [lia|done].
Qed.

Lemma order_sorted l : StronglySorted (λ a b, Turn.createdAt a ≤ Turn.createdAt b)%Z (order_by_created l).
Proof. induction l as [|r l IH]; [constructor|]. by apply insert_row_sorted. Qed.

(** Turns of one second keep the order of their rows. *)
Definition at_time (c : Z) (r : Turn.t) : bool := bool_decide (Turn.createdAt r = c).

Lemma insert_row_stable c r l :
  select_where (at_time c) (insert_row r l) = select_where (at_time c) (r :: l).
Proof.
  induction l as [|x l IH]; [done|]. cbn. case_bool_decide as Hle; [done|].
  unfold select_where in *. cbn in *. rewrite IH. unfold at_time.
  destruct (decide (Turn.createdAt r = c)), (decide (Turn.createdAt x = c));
    rewrite ?(bool_decide_eq_true_2 (_ = c)), ?(bool_decide_eq_false_2 (_ = c)) by done; [lia|done..].
Qed.

Lemma order_stable c l : select_where (at_time c) (order_by_created l) = select_where (at_time c) l.
Proof.
  induction l as [|r l IH]; [done|]. cbn. rewrite insert_row_stable. unfold select_where in *. cbn.
  by rewrite IH.
Qed.

Lemma queue_to_reach u s : wf s → to_reach (queue_order u s) s.
Proof.
  intros Hs. split_and!; [done| |].
  - unfold queue_order. rewrite order_perm. unfold select_where. apply NoDup_map_filter, Hs.
  - intros r [Hr Hq]%queue_order_elem. split; [done|]. by apply andb_true_iff in Hq as [? _].
Qed.

Lemma advance_rows_ids now l s :
  map Turn.id (turns (foldl (advance_row readFile maxActive now) s l)) = map Turn.id (turns s).
Proof.
  revert s. induction l as [|r l IH]; intros s; [done|]. cbn. rewrite IH. unfold advance_row.
  repeat (case_match; cbn; [by rewrite ?update_where_key|]). set (s1 := emitTurn _ _ _).
  destruct (start_turn_turns (Turn.id r) s1) as [-> | ->]; cbn; by rewrite !update_where_key.
Qed.

(** C30: An advance of the conversation queue is work conserving and fair: no turn it looked at
    stays queued unless its thread is busy or its user is at the limit; turns are looked at in
    the order of their creation, ties in the order of their rows; and no turn is admitted before
    an earlier one of the same thread and user. *)
Theorem advance_is_fair now u s :
  wf s →
  let s' := advanceTurnQueue readFile maxActive now u s in
  (∀ q, q ∈ turns s' → queued_for u q = true → blocked q s') ∧
  (∀ l1 t l2, queue_order u s = l1 ++ t :: l2 → ∀ r, r ∈ l1 →
     (Turn.createdAt r ≤ Turn.createdAt t)%Z ∧
     (Turn.threadId r = Turn.threadId t → Turn.username r = Turn.username t → t ∈ turns s')) ∧
  (∀ c, select_where (at_time c) (queue_order u s) =
        select_where (at_time c) (select_where (queued_for u) (turns s))).
Proof.
  intros Hs s'. pose proof (queue_to_reach u s Hs) as Hreach. split_and!.
  - intros q Hq Hqf. destruct (good_advance now u s Hs) as [Hs' Hle].
    assert (Turn.id q ∈ map Turn.id (turns s)) as (r & Hid & Hr%list_elem_of_In)%list_elem_of_In%in_map_iff.
    { rewrite <-(advance_rows_ids now (queue_order u s) s). by apply list_elem_of_In, in_map, list_elem_of_In. }
    destruct (Hle r Hr) as (q' & Hq' & [E1 E2 E3 _ _ _ E6]).
    assert (q' = q) as -> by (apply (same_row s' _ _ Hs'); [done|done|congruence]).
    apply andb_true_iff in Hqf as [Hqq Hqu].
    assert (r ∈ queue_order u s) as Hro.
    { apply queue_order_elem. split; [done|]. unfold queued_for. rewrite E6 by done. cbn.
      by rewrite E3 in Hqu. }
    pose proof (reached_blocked now _ _ _ Hreach Hro) as Hb. unfold blocked in *. by rewrite E2, E3.
  - intros l1 t l2 E r Hr. split.
    + pose proof (order_sorted (select_where (queued_for u) (turns s))) as Hso. unfold queue_order in E.
      rewrite E in Hso. apply (StronglySorted_app_1_elem_of _ _ _ r t Hso Hr). by left.
    + intros Ht Hu. unfold s', advanceTurnQueue. rewrite E, foldl_app. cbn [foldl]. rewrite E in Hreach.
      set (s1 := foldl _ s l1). assert (to_reach (t :: l2) s1) as Hr1 by (by apply to_reach_app).
      assert (blocked t s1) as Hb.
      { assert (blocked r s1) as Hb; [|unfold blocked in *; congruence]. apply reached_blocked; [|done].
        destruct Hreach as (? & Hnd & Hin). split_and!; [done| |].
        - rewrite map_app in Hnd. by apply list.NoDup_app in Hnd as [? _].
        - intros q Hq. apply Hin, elem_of_app. by left. }
      assert (advance_row readFile maxActive now s1 t = s1) as ->.
      { unfold advance_row. destruct Hb as [-> |Hb]; [done|]. case_match; [done|].
        by rewrite bool_decide_eq_true_2. }
      destruct Hr1 as (_ & Hnd & Hin). cbn in Hnd. apply list.NoDup_cons in Hnd as [Hnot _].
      apply advance_rows_other; [apply Hin; left|done].
  - intros c. apply order_stable.
Qed.
(** ** A turn whose start failed *)

Definition is_restart (o : op) : bool := match o with ORestart _ => true | _ => false end.

(** The row says the turn runs, and no loop runs it. *)
Definition lost (id t : string) (s : turn_db) : Prop :=
  controllers s !! id = None ∧
  ∃ r, r ∈ turns s ∧ Turn.id r = id ∧ Turn.threadId r = t ∧ in_stream (Turn.status r).

(** A step that keeps the row and gives the turn no controller. *)
Lemma lost_frame id t s s' :
  (∀ r, r ∈ turns s → Turn.id r = id → r ∈ turns s') →
  (controllers s !! id = None → controllers s' !! id = None) → lost id t s → lost id t s'.
Proof. intros Hr Hc [Hn (r & Hin & Hid & ?)]. split; [auto|]. exists r. auto. Qed.

Lemma start_turn_controllers id' s id :
  id ≠ id' → controllers (start_turn readFile id' s) !! id = controllers s !! id.
Proof. intros Hne. unfold start_turn. repeat case_match; cbn; try done. by rewrite lookup_insert_ne. Qed.

Lemma advance_rows_controllers now l s id :
  id ∉ map Turn.id l → controllers (foldl (advance_row readFile maxActive now) s l) !! id = controllers s !! id.
Proof.
  revert s. induction l as [|r l IH]; intros s Hn; [done|]. cbn in *.
  apply not_elem_of_cons in Hn as [Hne Hn]. rewrite IH by done. unfold advance_row.
  repeat (case_match; [done|]). by rewrite start_turn_controllers.
Qed.

Lemma lost_advance now u id t s : wf s → lost id t s → lost id t (advanceTurnQueue readFile maxActive now u s).
Proof.
  intros Hs Hlost. pose proof Hlost as [_ (r & Hr & Hid & _ & Hst)].
  assert (id ∉ map Turn.id (queue_order u s)) as Hn.
  { intros (q & Hq & [Hin Hf]%list_elem_of_In%queue_order_elem)%list_elem_of_In%in_map_iff.
    assert (q = r) as -> by (apply (same_row s); congruence).
    apply andb_true_iff in Hf as [Hf%bool_decide_eq_true _]. destruct Hst; congruence. }
  revert Hlost. apply lost_frame.
  - intros q Hq Hq'. apply advance_rows_other; [done|]. congruence.
  - intros Hc. unfold advanceTurnQueue. by rewrite advance_rows_controllers.
Qed.

Lemma lost_finish now id' u id t s :
  wf (set_controllers (delete id' (controllers s)) s) →
  lost id t s → lost id t (finish_turn readFile maxActive now id' u s).
Proof.
  intros Hwf Hl. unfold finish_turn. set (s1 := set_controllers _ s) in *.
  assert (lost id t s1) as H1.
  { apply (lost_frame _ _ s); [done| |done]. intros Hc. apply lookup_delete_None. auto. }
  destruct (find_turn s1 id'); apply lost_advance; try done. by apply good_emit.
Qed.

(** A table update of another turn. *)
Lemma lost_update p f id' id t s es m :
  id ≠ id' → (∀ r, p r = true → Turn.id r = id') → (controllers s !! id = None → m !! id = None) →
  lost id t s → lost id t (mkTurns (update_where p f (turns s)) m (calls s) es).
Proof.
  intros Hne Hp Hm. apply lost_frame; [|done]. intros r Hr Hid. apply elem_of_update. exists r.
  split; [done|]. destruct (p r) eqn:E; [|done]. apply Hp in E. congruence.
Qed.

Lemma lost_not_in_loop id t s : lost id t s → in_loop id s = None.
Proof. intros [Hc _]. unfold in_loop. by rewrite Hc. Qed.

Lemma lost_catch now id' b e id t s : id ≠ id' → lost id t s → lost id t (catch_turn now id' b e s).
Proof.
  intros Hne Hl. unfold catch_turn. case_match.
  - by apply (lost_update _ _ id' id t s); [|intros r [? _]%settle_where_true| |].
  - by apply (lost_update _ _ id' id t s); [|intros r [? _]%settle_where_true| |].
Qed.

Lemma wf_catch now id' b e s :
  wf s → wf (set_controllers (delete id' (controllers (catch_turn now id' b e s))) (catch_turn now id' b e s)).
Proof. intros Hs. by apply good_catch. Qed.

Lemma lost_cancel now u id' id t s : wf s → lost id t s → lost id t (cancelConversationTurn now u id' s).2.
Proof.
  intros Hs Hl. unfold cancelConversationTurn. destruct (List.find _ _) as [r|] eqn:Hf; [|done].
  apply find_elem in Hf as [Hr [Hid%turn_by_id _]%andb_true_iff].
  destruct (TurnStatus.settled _) eqn:Hns; [done|]. set (s1 := if queued r then _ else _).
  assert (lost id t s1) as H1; [|by destruct (getTurn _ _ _)]. unfold s1. clear s1.
  destruct Hl as [Hc (q & Hq & Hqid & Ht & Hst)].
  assert (∀ m f, m !! id = None → (id = id' → Turn.id (f q) = id ∧ Turn.threadId (f q) = t ∧ in_stream (Turn.status (f q))) →
    lost id t (mkTurns (update_where (by_id id') f (turns s)) m (calls s) (sent s))) as Hup.
  { intros m f Hm Hf. split; [done|]. exists (if by_id id' q then f q else q).
    split; [apply elem_of_update; eauto|]. destruct (by_id id' q) eqn:E; [|done].
    apply turn_by_id in E. apply Hf. congruence. }
  destruct (queued r) eqn:Hrq.
  - apply Hup; [done|]. intros <-. exfalso. assert (q = r) as -> by (apply (same_row s); congruence).
    apply bool_decide_eq_true in Hrq. destruct Hst; congruence.
  - unfold abort. cbn. destruct (controllers s !! id') eqn:E.
    + apply Hup; [|intros <-; congruence]. rewrite lookup_insert_ne; [done|congruence].
    + apply Hup; [done|]. intros _. split_and!; [done|done|by right].
Qed.

Lemma lost_step o id t s : wf s → is_restart o = false → lost id t s → lost id t (apply_op o s).
Proof.
  intros Hs Hno Hl. destruct o as [e now id' i|now u id'|now u|now id' c|now id'|now id' e|id' mode|now];
    cbn -[enqueueConversationTurn cancelConversationTurn]; try done.
  - revert Hl. apply lost_frame; unfold enqueueConversationTurn; intros; repeat case_match; cbn; try done;
      apply elem_of_snoc; by left.
  - by apply lost_cancel.
  - by apply lost_advance.
  - destruct (decide (id = id')) as [<-|Hne]; [unfold on_chunk; by rewrite (lost_not_in_loop id t s Hl)|].
    unfold on_chunk. destruct (in_loop id' s) as [[a u]|] eqn:Hin; [|done]. case_bool_decide as Hst.
    + apply lost_finish; [|by apply (lost_update _ _ id' id t s); [|intros r ?%turn_by_id| |]].
      by apply (good_settle_cancelling now id' s).
    + destruct c; [done|]. apply lost_finish; [by apply wf_catch, good_emit|by apply lost_catch].
  - destruct (decide (id = id')) as [<-|Hne]; [unfold on_end; by rewrite (lost_not_in_loop id t s Hl)|].
    unfold on_end. destruct (in_loop id' s) as [[a u]|] eqn:Hin; [|done].
    apply lost_finish; [|by apply (lost_update _ _ id' id t s); [|intros r [? _]%settle_where_true| |]].
    apply (good_settle _ now id' s); [apply end_status..|done].
  - destruct (decide (id = id')) as [<-|Hne]; [unfold on_throw; by rewrite (lost_not_in_loop id t s Hl)|].
    unfold on_throw. destruct (in_loop id' s) as [[a u]|] eqn:Hin; [|done].
    apply lost_finish; [by apply wf_catch|by apply lost_catch].
  - destruct (decide (id = id')) as [<-|Hne]; [unfold onWorkspaceAccessResolved; by rewrite (lost_not_in_loop id t s Hl)|].
    unfold onWorkspaceAccessResolved. destruct (in_loop id' s) as [[a u]|] eqn:Hin; [|done].
    set (s1 := set_turns _ _).
    assert (lost id t s1) as H1 by (by apply (lost_update _ _ id' id t s); [|intros r ?%turn_by_id| |]).
    by destruct (find_turn s1 id').
Qed.

Lemma lost_ops os id t s :
  wf s → forallb (λ o, negb (is_restart o)) os = true → lost id t s → lost id t (run_ops os s).
Proof.
  revert s. induction os as [|o os IH]; intros s Hs Hno Hl; [done|]. cbn in *.
  apply andb_true_iff in Hno as [Ho Hno]. apply IH; [by apply turn_op_good|done|].
  apply lost_step; [done| |done]. by apply negb_true_iff.
Qed.
Lemma invalid_attachment t ids a :
  a ∈ ids → (∀ x, assertFrozenAttachmentId a ≠ Ok x) →
  ∃ e, resolveThreadAttachments readFile t ids = Err e.
Proof.
  intros Ha Hbad. induction ids as [|b ids IH]; [by apply not_elem_of_nil in Ha|]. cbn.
  apply elem_of_cons in Ha as [->|Ha].
  - assert (∃ e, readThreadAttachment readFile t b = Err e) as [e ->]; [|eauto].
    unfold readThreadAttachment. destruct (assertFrozenThreadId t); [|eauto].
    destruct (assertFrozenAttachmentId b) as [x|]; [by destruct (Hbad x)|eauto].
  - destruct (readThreadAttachment readFile t b); [|eauto]. destruct (IH Ha) as [e ->]. eauto.
Qed.

(** The start of a turn with such an id loses it. *)
Lemma invalid_attachment_lost now s r a :
  wf s → r ∈ turns s → queued r = true → ~ blocked r s →
  a ∈ Turn.attachmentIds r → (∀ x, assertFrozenAttachmentId a ≠ Ok x) →
  lost (Turn.id r) (Turn.threadId r) (advance_row readFile maxActive now s r).
Proof.
  intros Hs Hr Hq Hfree Ha Hbad. unfold advance_row.
  destruct (threadHasActiveTurn (Turn.threadId r) s) eqn:Ht; [by destruct Hfree; left|].
  case_bool_decide as Hu; [by destruct Hfree; right|].
  apply bool_decide_eq_true in Hq. rewrite admit_count by done. cbn [bool_decide negb].
  rewrite bool_decide_eq_true_2 by done. cbn [negb]. set (s1 := set_turns _ _). unfold start_turn.
  set (r1 := Turn.set_admitted now (Turn.stateRevision r) r).
  assert (find_turn (emitTurn (Turn.id r) (TurnSnapshot (mapRow r1)) s1) (Turn.id r) = Some r1) as Hf.
  { unfold find_turn. cbn. rewrite find_update by done. unfold by_id at 1.
    rewrite (find_by_key Turn.id) by (by try apply Hs). cbn. f_equal. by rewrite (proj2 (admit_where_true _ _)). }
  rewrite Hf. rewrite (bool_decide_eq_true_2 (Turn.status r1 = _)) by done. cbn [negb].
  destruct (invalid_attachment (Turn.threadId r) (Turn.attachmentIds r) a Ha Hbad) as [e He].
  change (Turn.threadId r1) with (Turn.threadId r). change (Turn.attachmentIds r1) with (Turn.attachmentIds r).
  rewrite He. split; cbn.
  - destruct (controllers s !! Turn.id r) as [b|] eqn:E; [|done].
    destruct (wf_controllers s Hs _ _ E) as (q & Hq' & Hid & Hst).
    assert (q = r) as -> by (by apply (same_row s)). destruct Hst; congruence.
  - exists (Turn.to TurnStatus.running r1). split_and!; [|done|done|by left].
    apply find_elem in Hf as [Hin _]. apply elem_of_update. exists r1. split; [done|].
    by rewrite (proj2 (turn_by_id _ _)).
Qed.

(** A queued turn with an attachment id of the wrong shape blocks its thread once it is
    admitted: whatever happens until the process restarts, the thread has an active turn. *)
Theorem invalid_attachment_blocks_thread now os s r a :
  wf s → r ∈ turns s → queued r = true → ~ blocked r s →
  a ∈ Turn.attachmentIds r → (∀ x, assertFrozenAttachmentId a ≠ Ok x) →
  forallb (λ o, negb (is_restart o)) os = true →
  threadHasActiveTurn (Turn.threadId r) (run_ops os (advance_row readFile maxActive now s r)) = true.
Proof.
  intros Hs Hr Hq Hfree Ha Hbad Hno.
  assert (wf (advance_row readFile maxActive now s r)) as Hs1.
  { apply good_advance_row; [|done]. intros _ q Hq' Hid. by rewrite (same_row s q r). }
  destruct (lost_ops os _ _ _ Hs1 Hno (invalid_attachment_lost now s r a Hs Hr Hq Hfree Ha Hbad))
    as [_ (q & Hin & _ & Ht & Hst)].
  apply existsb_exists. exists q. split; [by apply list_elem_of_In|]. unfold active_of_thread.
  rewrite bool_decide_eq_true_2 by done. by destruct Hst as [-> | ->].
Qed.
End specs.
