(* ===== verification/ProgressStore.v ===== *)
(** * The stored progress of a job

    Models [src/server/retention/counters.ts] and, of
    [src/server/db/job-progress.ts], how the counters and the verification part
    of the progress are saved and loaded: [job_counters] (grouped by job) and
    the column [task_meta_json], kept as the value it encodes.  Then the
    progress the executor saves before it starts a task ([runningProgress] of
    [src/server/legacy-control-plane/executor.ts]). *)
From stdpp Require Import pretty.
From Stdlib Require Import Ascii.
From S2P Require Import Prelude Json JsString SavedPlan Gate RepairTasks TurnErrors Blocker TaskRecovery.
Local Open Scope tx_scope.
#[local] Arguments bool_decide : simpl never.

(** [TaskMeta] *)
Record task_meta := mkMeta {
  tm_slices : list (slice_progress SliceRecord.t);
  tm_milestones : list milestone_progress;
  tm_repairGenerations : gmap string Z;
  tm_verificationAttempts : gmap string Z;
  tm_verificationBundleHashes : gmap string string
}.

Record progress_db := mkProgressDb {
  job_counters : gmap string (gmap string Z);
  job_meta : gmap string task_meta
}.

Definition set_counters (jobId : string) (m : gmap string Z) (s : progress_db) : progress_db :=
  mkProgressDb (<[jobId := m]> (job_counters s)) (job_meta s).

(** ** Saving *)

Definition verify_prefix : string := "verify-attempt:".

Definition counterEntries (p : TaskProgress.t) : list (string * Z) :=
  map_to_list (TaskProgress.repairGenerations p) ++
  map (λ kv, (verify_prefix +:+ kv.1, kv.2)) (map_to_list (TaskProgress.verificationAttempts p)).

Fixpoint insert_counters (jobId : string) (es : list (string * Z)) : txM progress_db string unit :=
  match es with
  | [] => tx_ret tt
  | (k, v) :: es' =>
      let* m := tx_gets (λ s, default ∅ (job_counters s !! jobId)) in
      if bool_decide (m !! k ≠ None) then
        tx_throw "UNIQUE constraint failed: job_counters.job_id, job_counters.counter_key"
      else
        do* tx_modify (set_counters jobId (<[k := v]> m)) in
        insert_counters jobId es'
  end.

Definition syncJobCountersFromProgressInTx (jobId : string) (p : TaskProgress.t) : txM progress_db string unit :=
  do* tx_modify (set_counters jobId ∅) in
  insert_counters jobId (counterEntries p).

Definition metaForStorage (p : TaskProgress.t) : task_meta :=
  mkMeta (TaskProgress.slices p) (TaskProgress.milestones p) (TaskProgress.repairGenerations p)
    (TaskProgress.verificationAttempts p) (TaskProgress.verificationBundleHashes p).

(** The counters and the meta column of [saveTaskProgressInTx]. *)
Definition saveTaskProgressInTx (jobId : string) (p : TaskProgress.t) : txM progress_db string unit :=
  do* syncJobCountersFromProgressInTx jobId p in
  tx_modify (λ s, mkProgressDb (job_counters s)
    (match job_meta s !! jobId with
     | Some _ => <[jobId := metaForStorage p]> (job_meta s)
     | None => job_meta s
     end)).

(** ** Loading *)

Definition load_counter (key : string) (value : Z) (acc : gmap string Z * gmap string Z) :
    gmap string Z * gmap string Z :=
  if startsWith key verify_prefix
  then (acc.1, <[slice_from (String.length verify_prefix) key := value]> acc.2)
  else (<[key := value]> acc.1, acc.2).

(** The two counter maps after the rows are read. *)
Definition loadJobCountersIntoProgress (rows : gmap string Z) (m : task_meta) : task_meta :=
  if bool_decide (rows = ∅) then m
  else
    let '(generations, attempts) :=
      map_fold load_counter (tm_repairGenerations m, tm_verificationAttempts m) rows in
    mkMeta (tm_slices m) (tm_milestones m) generations attempts (tm_verificationBundleHashes m).

(** The counters and the verification part of [loadTaskProgress]. *)
Definition loadTaskProgress (jobId : string) (s : progress_db) : option task_meta :=
  m ← job_meta s !! jobId;
  Some (loadJobCountersIntoProgress (default ∅ (job_counters s !! jobId)) m).

(** ** The progress saved before a task starts *)

(** [runningProgress], saved with the gate by [persistTaskProgress]. *)
Definition runningProgress (items : list TaskProgressItem.t) (taskId : string) : TaskProgress.t :=
  TaskProgress.mk "running" "running" (countCompleted items) (length items) (Some taskId)
    (Some "execution.running_task") (Some [("id", JStr taskId)]) items [] [] ∅ ∅ ∅.

Definition persist_running (jobId : string) (g : gate) (items : list TaskProgressItem.t) (taskId : string) :
    progress_db → result string unit * progress_db :=
  run_transaction (saveTaskProgressInTx jobId (mergeVerificationProgress (runningProgress items taskId) g)).

(** ** Counters survive a save

    A saved progress is loaded back with the same counters, verdicts and
    statuses; but the progress the executor saves before it starts a task has
    none of them, so that a crash while the task runs forgets them. *)

(** ** Keys *)

Lemma prefix_split pre s : String.prefix pre s = true → s = pre +:+ slice_from (String.length pre) s.
Proof.
  revert s. induction pre as [|c pre IH]; intros s H; [done|]. destruct s as [|d s]; [done|]. cbn in H.
  destruct (Ascii.ascii_dec c d) as [->|]; [|done]. rewrite str_app_cons. f_equal. by apply IH.
Qed.

#[local] Instance verify_inj : Inj (=) (=) (λ k, verify_prefix +:+ k).
Proof.
  intros k1 k2 H. apply (f_equal (slice_from (String.length verify_prefix))) in H.
  by rewrite !slice_from_app in H.
Qed.

(** ** Saving *)

(** No repair counter looks like a verification counter. *)
Definition keys_apart (p : TaskProgress.t) : Prop :=
  ∀ k v, TaskProgress.repairGenerations p !! k = Some v → startsWith k verify_prefix = false.

Lemma entries_NoDup p : keys_apart p → NoDup (map fst (counterEntries p)).
Proof.
  intros Hk. unfold counterEntries. rewrite map_app, map_map. cbn. apply list.NoDup_app. split_and!.
  - apply NoDup_fst_map_to_list.
  - intros k ([k' v] & <- & Hin%list_elem_of_In%elem_of_map_to_list)%list_elem_of_In%in_map_iff.
    cbn. intros ([k2 v2] & Heq & _)%list_elem_of_In%in_map_iff. cbn in Heq. apply Hk in Hin.
    subst k'. unfold startsWith in Hin. by rewrite prefix_app in Hin.
  - rewrite <-(map_map fst (λ k, verify_prefix +:+ k)). apply (NoDup_fmap_2 (λ k, verify_prefix +:+ k)).
    apply NoDup_fst_map_to_list.
Qed.

Lemma insert_counters_ok jobId es s m :
  job_counters s !! jobId = Some m → NoDup (map fst es) → (∀ k, k ∈ map fst es → m !! k = None) →
  insert_counters jobId es s =
  Ok (tt, mkProgressDb (<[jobId := list_to_map es ∪ m]> (job_counters s)) (job_meta s)).
Proof.
  revert s m. induction es as [|[k v] es IH]; intros s m Hm Hnd Hfresh.
  - cbn. rewrite (left_id_L ∅ (∪)), insert_id by done. by destruct s.
  - cbn in Hnd. apply list.NoDup_cons in Hnd as [Hnot Hnd].
    cbn [insert_counters]. unfold tx_bind, tx_gets. rewrite Hm. cbn.
    assert (m !! k = None) as Hk by (apply Hfresh; left).
    rewrite bool_decide_eq_false_2 by (rewrite Hk; tauto). cbn.
    rewrite (IH _ (<[k := v]> m)); cbn; [|by rewrite lookup_insert_eq|done|].
    + rewrite insert_insert_eq. do 4 f_equal. rewrite <-insert_union_r by (by apply not_elem_of_list_to_map_1).
      by rewrite insert_union_l.
    + intros k' Hk'. rewrite lookup_insert_ne by (intros ->; done). apply Hfresh. by right.
Qed.

Definition saved_counters (p : TaskProgress.t) : gmap string Z := list_to_map (counterEntries p).

Lemma entries_elem p k v :
  (k, v) ∈ counterEntries p ↔
  TaskProgress.repairGenerations p !! k = Some v ∨
  ∃ k', k = verify_prefix +:+ k' ∧ TaskProgress.verificationAttempts p !! k' = Some v.
Proof.
  unfold counterEntries. rewrite elem_of_app, elem_of_map_to_list. apply or_iff_compat_l.
  rewrite list_elem_of_In, in_map_iff. split.
  - intros ([k' v'] & [= <- <-] & Hin%list_elem_of_In%elem_of_map_to_list). eauto.
  - intros (k' & -> & Hin). exists (k', v). split; [done|]. by apply list_elem_of_In, elem_of_map_to_list.
Qed.

Lemma saved_counter p k v :
  keys_apart p →
  saved_counters p !! k = Some v ↔
  TaskProgress.repairGenerations p !! k = Some v ∨
  ∃ k', k = verify_prefix +:+ k' ∧ TaskProgress.verificationAttempts p !! k' = Some v.
Proof.
  intros Hk. rewrite <-entries_elem. symmetry. apply elem_of_list_to_map. by apply entries_NoDup.
Qed.

(** ** Loading *)

Definition over (row old : option Z) : option Z := match row with Some v => Some v | None => old end.

(** The two maps after the rows [rows] were read over [g0] and [a0]. *)
Definition loaded (g0 a0 : gmap string Z) (ga : gmap string Z * gmap string Z) (rows : gmap string Z) : Prop :=
  (∀ k, ga.1 !! k = if startsWith k verify_prefix then g0 !! k else over (rows !! k) (g0 !! k)) ∧
  (∀ k, ga.2 !! k = over (rows !! (verify_prefix +:+ k)) (a0 !! k)).

Lemma load_counters rows g0 a0 : loaded g0 a0 (map_fold load_counter (g0, a0) rows) rows.
Proof.
  apply (map_fold_weak_ind (loaded g0 a0)).
  - split; intros k; rewrite lookup_empty; [by destruct (startsWith _ _)|done].
  - intros key v rows' [g a] Hfresh [Hg Ha]. cbn in Hg, Ha. unfold load_counter.
    destruct (startsWith key verify_prefix) eqn:Hpre; split; intros k; cbn [fst snd].
    + rewrite Hg. destruct (startsWith k verify_prefix) eqn:E; [done|].
      rewrite lookup_insert_ne by (intros ->; congruence). done.
    + pose proof (prefix_split _ _ Hpre) as Hkey.
      destruct (decide (k = slice_from (String.length verify_prefix) key)) as [->|Hne].
      * by rewrite lookup_insert_eq, <-Hkey, lookup_insert_eq.
      * rewrite lookup_insert_ne, Ha by done. rewrite lookup_insert_ne; [done|].
        intros Heq. apply Hne. rewrite Heq. by rewrite slice_from_app.
    + destruct (decide (k = key)) as [->|Hne].
      * by rewrite !lookup_insert_eq, Hpre.
      * rewrite lookup_insert_ne, Hg by done. by rewrite lookup_insert_ne.
    + rewrite Ha. rewrite lookup_insert_ne; [done|]. intros ->.
      unfold startsWith in Hpre. by rewrite prefix_app in Hpre.
Qed.

Lemma load_saved p :
  keys_apart p → loadJobCountersIntoProgress (saved_counters p) (metaForStorage p) = metaForStorage p.
Proof.
  intros Hk. unfold loadJobCountersIntoProgress. case_bool_decide; [done|].
  pose proof (load_counters (saved_counters p) (TaskProgress.repairGenerations p)
    (TaskProgress.verificationAttempts p)) as Hl. cbn. unfold loaded in Hl.
  destruct (map_fold _ _ _) as [g a]. destruct Hl as [Hg Ha]. cbn in Hg, Ha. unfold metaForStorage. f_equal.
  - apply map_eq. intros k. rewrite Hg. destruct (startsWith k verify_prefix) eqn:E; [done|].
    destruct (saved_counters p !! k) as [v|] eqn:Hs; [|done]. cbn.
    apply saved_counter in Hs as [Hs|(k' & -> & _)]; [done| |done].
    unfold startsWith in E. by rewrite prefix_app in E.
  - apply map_eq. intros k. rewrite Ha.
    destruct (saved_counters p !! (verify_prefix +:+ k)) as [v|] eqn:Hs; [|done]. cbn.
    apply saved_counter in Hs as [Hs|(k' & Heq & Hs)]; [|by apply verify_inj in Heq as ->|done].
    apply Hk in Hs. unfold startsWith in Hs. by rewrite prefix_app in Hs.
Qed.

Lemma save_ok jobId p s m :
  keys_apart p → job_meta s !! jobId = Some m →
  saveTaskProgressInTx jobId p s =
  Ok (tt, mkProgressDb (<[jobId := saved_counters p]> (job_counters s))
            (<[jobId := metaForStorage p]> (job_meta s))).
Proof.
  intros Hk Hm. unfold saveTaskProgressInTx, syncJobCountersFromProgressInTx, tx_bind, tx_modify.
  rewrite (insert_counters_ok jobId _ _ ∅).
  - cbn. rewrite Hm. rewrite insert_insert_eq, (right_id_L ∅ (∪)). done.
  - cbn. by rewrite lookup_insert_eq.
  - by apply entries_NoDup.
  - intros k _. apply lookup_empty.
Qed.

Lemma save_load jobId p s m :
  keys_apart p → job_meta s !! jobId = Some m →
  ∃ s', run_transaction (saveTaskProgressInTx jobId p) s = (Ok tt, s') ∧
        loadTaskProgress jobId s' = Some (metaForStorage p) ∧
        ∀ other, other ≠ jobId → loadTaskProgress other s' = loadTaskProgress other s.
Proof.
  intros Hk Hm. unfold run_transaction. rewrite (save_ok jobId p s m Hk Hm). eexists. split_and!; [done| |].
  - unfold loadTaskProgress. cbn. rewrite !lookup_insert_eq. cbn. by rewrite load_saved.
  - intros other Hne. unfold loadTaskProgress. cbn. by rewrite !lookup_insert_ne.
Qed.

(** Saving the progress of a job and loading it again returns its stored part with every
    recovery counter and verification attempt, and leaves the other jobs alone. *)
Theorem progress_counters_roundtrip jobId p s m :
  keys_apart p → job_meta s !! jobId = Some m →
  let '(res, s') := run_transaction (saveTaskProgressInTx jobId p) s in
  res = Ok tt ∧ loadTaskProgress jobId s' = Some (metaForStorage p) ∧
  ∀ other, other ≠ jobId → loadTaskProgress other s' = loadTaskProgress other s.
Proof. intros Hk Hm. by destruct (save_load jobId p s m Hk Hm) as (s' & -> & ?). Qed.

(** ** A task that runs *)

Lemma running_keys_apart items taskId g : keys_apart (mergeVerificationProgress (runningProgress items taskId) g).
Proof. intros k v Hk. cbn in Hk. by rewrite lookup_empty in Hk. Qed.

(** What is loaded while a task runs: no counter, no bundle hash and no verdict,
    whatever was saved before. *)
Theorem running_progress_forgets jobId s m g items taskId :
  job_meta s !! jobId = Some m →
  let s' := (persist_running jobId g items taskId s).2 in
  ∃ m', loadTaskProgress jobId s' = Some m' ∧
    tm_repairGenerations m' = ∅ ∧ tm_verificationAttempts m' = ∅ ∧ tm_verificationBundleHashes m' = ∅ ∧
    Forall (λ row, sp_verdict row = None) (tm_slices m').
Proof.
  intros Hm s'. set (p := mergeVerificationProgress (runningProgress items taskId) g).
  destruct (save_load jobId p s m (running_keys_apart _ _ _) Hm) as (s1 & Hsave & Hl & _).
  unfold s', persist_running. fold p. rewrite Hsave. cbn. exists (metaForStorage p).
  split_and!; [done..|]. cbn. apply List.Forall_forall. intros row (x & <- & _)%in_map_iff. done.
Qed.
