(* ===== verification/JsonParse.v ===== *)
(** * Reading JSON

    [JSON.parse] on the texts the server stores.  Numbers are integers: a text
    with a fraction or an exponent is not read.  A character stands for one code
    unit below 256, and an escape above that is not read.  The fuel is twice the
    length of the text, which the nesting of a text cannot exceed: [parse] reads
    every text [stringify] writes. *)
From stdpp Require Import pretty.
From Stdlib Require Import Ascii.
From S2P Require Import Prelude Json JsonSpecs JsString SavedPlan.
#[local] Arguments String.append : simpl nomatch.
#[local] Arguments bool_decide : simpl never.

Definition json_space (c : ascii) : bool :=
  let n := N_of_ascii c in bool_decide (n ∈ [9; 10; 13; 32])%N.

Fixpoint skip_space (s : string) : string :=
  match s with
  | String c s' => if json_space c then skip_space s' else s
  | EmptyString => s
  end.

Definition unescape (c : ascii) : option ascii :=
  match c with
  | "b" => Some (ascii_of_N 8)
  | "t" => Some (ascii_of_N 9)
  | "n" => Some (ascii_of_N 10)
  | "f" => Some (ascii_of_N 12)
  | "r" => Some (ascii_of_N 13)
  | "\" | "/" => Some c
  | _ => if bool_decide (N_of_ascii c = 34%N) then Some c else None
  end%char.

Definition hex_value (c : ascii) : option N :=
  let n := N_of_ascii c in
  if bool_decide (48 ≤ n ∧ n ≤ 57)%N then Some (n - 48)%N
  else if bool_decide (97 ≤ n ∧ n ≤ 102)%N then Some (n - 87)%N
  else if bool_decide (65 ≤ n ∧ n ≤ 70)%N then Some (n - 55)%N
  else None.

Definition code_unit (a b c d : ascii) : option ascii :=
  x ← hex_value a; y ← hex_value b; z ← hex_value c; w ← hex_value d;
  let n := (4096 * x + 256 * y + 16 * z + w)%N in
  if bool_decide (n < 256)%N then Some (ascii_of_N n) else None.

Definition push_char (c : ascii) (o : option (string * string)) : option (string * string) :=
  '(s, r) ← o; Some (String c s, r).

(** The rest of a string literal after the opening quote. *)
Fixpoint parse_chars (s : string) : option (string * string) :=
  match s with
  | EmptyString => None
  | String c r =>
      let n := N_of_ascii c in
      if bool_decide (n = 34%N) then Some (EmptyString, r)
      else if bool_decide (n = 92%N) then
        match r with
        | EmptyString => None
        | String e r' =>
            match unescape e with
            | Some ch => push_char ch (parse_chars r')
            | None =>
                match e, r' with
                | "u"%char, String x (String y (String z (String w r''))) =>
                    match code_unit x y z w with
                    | Some ch => push_char ch (parse_chars r'')
                    | None => None
                    end
                | _, _ => None
                end
            end
        end
      else if bool_decide (n < 32)%N then None
      else push_char c (parse_chars r)
  end.

(** No digit after a leading zero, no fraction and no exponent. *)
Definition number_ends (s : string) : bool :=
  match s with
  | String c _ => negb (bool_decide (c ∈ ["."; "e"; "E"]%char))
  | EmptyString => true
  end.

Definition parse_natural (s : string) : option (Z * string) :=
  '(n, r) ← eat_number s;
  match s with
  | String "0" (String c _) => if digit_value c then None else if number_ends r then Some (n, r) else None
  | _ => if number_ends r then Some (n, r) else None
  end.

Definition parse_number (s : string) : option (json * string) :=
  match s with
  | String "-" s' => '(n, r) ← parse_natural s'; Some (JNum (- n), r)
  | _ => '(n, r) ← parse_natural s; Some (JNum n, r)
  end.

Fixpoint parse_word (word : string) (v : json) (s : string) : option (json * string) :=
  match word, s with
  | EmptyString, _ => Some (v, s)
  | String c word', String d s' => if bool_decide (c = d) then parse_word word' v s' else None
  | _, EmptyString => None
  end.

(** A repeated key keeps its first place and its last value. *)
Fixpoint set_json_field (k : string) (v : json) (fields : list (string * json)) : list (string * json) :=
  match fields with
  | [] => [(k, v)]
  | (k', v') :: fs => if bool_decide (k' = k) then (k, v) :: fs else (k', v') :: set_json_field k v fs
  end.

Definition object_of (fields : list (string * json)) : json :=
  JObj (foldl (λ fs kv, set_json_field kv.1 kv.2 fs) [] fields).

Fixpoint parse_value (fuel : nat) (s : string) : option (json * string) :=
  match fuel with
  | O => None
  | S n =>
      match skip_space s with
      | String "[" r =>
          match skip_space r with
          | String "]" r' => Some (JArr [], r')
          | r' => '(items, rest) ← parse_items n r'; Some (JArr items, rest)
          end
      | String "{" r =>
          match skip_space r with
          | String "}" r' => Some (JObj [], r')
          | r' => '(fields, rest) ← parse_fields n r'; Some (object_of fields, rest)
          end
      | String "n" _ as t => parse_word "null" JNull t
      | String "t" _ as t => parse_word "true" (JBool true) t
      | String "f" _ as t => parse_word "false" (JBool false) t
      | String c r as t =>
          if bool_decide (N_of_ascii c = 34%N)
          then '(str, rest) ← parse_chars r; Some (JStr str, rest)
          else parse_number t
      | EmptyString => None
      end
  end
with parse_items (fuel : nat) (s : string) : option (list json * string) :=
  match fuel with
  | O => None
  | S n =>
      '(v, r) ← parse_value n s;
      match skip_space r with
      | String "," r' => '(vs, rest) ← parse_items n r'; Some (v :: vs, rest)
      | String "]" r' => Some ([v], r')
      | _ => None
      end
  end
with parse_fields (fuel : nat) (s : string) : option (list (string * json) * string) :=
  match fuel with
  | O => None
  | S n =>
      match skip_space s with
      | String c r0 =>
          if negb (bool_decide (N_of_ascii c = 34%N)) then None else
          '(key, r1) ← parse_chars r0;
          match skip_space r1 with
          | String ":" r2 =>
              '(v, r) ← parse_value n r2;
              match skip_space r with
              | String "," r' => '(fs, rest) ← parse_fields n r'; Some ((key, v) :: fs, rest)
              | String "}" r' => Some ([(key, v)], r')
              | _ => None
              end
          | _ => None
          end
      | EmptyString => None
      end
  end.

(** [JSON.parse]; [None]: it throws. *)
Definition parse_json (text : string) : option json :=
  '(v, r) ← parse_value (2 * String.length text + 2) text;
  if bool_decide (skip_space r = "") then Some v else None.

Example parse_ex :
  parse_json (" { " +:+ dquote +:+ "a\u0041" +:+ dquote +:+ " : [1, -20, null] , " +:+ dquote +:+ "b" +:+ dquote +:+
              ":{}} ") =
  Some (JObj [("aA", JArr [JNum 1; JNum (-20); JNull]); ("b", JObj [])]).
Proof. reflexivity. Qed.

(** ** Every written text is read back *)

(** No object has a key twice. *)
Fixpoint keys_unique (v : json) : bool :=
  match v with
  | JArr l => forallb keys_unique l
  | JObj f => bool_decide (NoDup (map fst f)) && forallb (λ kv, keys_unique kv.2) f
  | _ => true
  end.

(** What may follow a value. *)
Definition delimits (r : string) : Prop :=
  match r with
  | EmptyString => True
  | String c _ => digit_value c = None ∧ bool_decide (c ∈ ["."; "e"; "E"]%char) = false
  end.

Lemma parse_escaped s r : parse_chars (escapeString s +:+ dquote +:+ r) = Some (s, r).
Proof.
  induction s as [|c s IH]; [done|]. cbn [escapeString]. rewrite append_assoc.
  assert (∀ t, parse_chars (escapeChar c +:+ t) = push_char c (parse_chars t)) as ->.
  { intros t. by destruct c as [[] [] [] [] [] [] [] []]. }
  by rewrite IH.
Qed.

Lemma parse_natural_pretty (n : N) r :
  delimits r → parse_natural (pretty n +:+ r) = Some (Z.of_N n, r).
Proof.
  intros Hr. assert (starts_plain r) as Hp by (destruct r; [done|apply Hr]).
  assert (number_ends r = true) as He.
  { destruct r as [|c r]; [done|]. destruct Hr as [_ Hr]. cbn. by rewrite Hr. }
  unfold parse_natural.
  assert (pretty n = pretty (Z.of_N n)) as Hz by (by destruct n).
  rewrite Hz, eat_number_pretty by (done || lia). cbn. rewrite <-Hz.
  destruct (decide (n = 0%N)) as [->|Hn].
  - change (pretty 0%N) with "0". cbn. rewrite He. destruct r as [|c r]; [done|].
    destruct Hr as [Hd _]. by rewrite Hd.
  - assert (∃ c t, pretty n = String c t ∧ c ≠ "0"%char) as (c & t & -> & Hc).
    { unfold pretty, pretty_N. case_decide; [done|]. clear -Hn.
      assert (∀ x s, (0 < x)%N → ∃ c t, pretty_N_go x s = String c t ∧ c ≠ "0"%char) as H; [|apply H; lia].
      intros x. induction (N.lt_wf_0 x) as [x _ IH]. intros s Hx. rewrite pretty_N_go_step by lia.
      destruct (decide (x < 10)%N) as [Hs|Hs].
      - rewrite N.div_small by done. rewrite pretty_N_go_0. rewrite N.mod_small by done.
        eexists _, _. split; [done|].
        assert (x = 1 ∨ x = 2 ∨ x = 3 ∨ x = 4 ∨ x = 5 ∨ x = 6 ∨ x = 7 ∨ x = 8 ∨ x = 9)%N as Hin by lia.
        by destruct_or! Hin; subst.
      - apply IH; [apply N.div_lt; lia|]. apply N.div_str_pos. lia. }
    cbn. rewrite He. by destruct c as [[] [] [] [] [] [] [] []].
Qed.

Lemma parse_number_pretty (z : Z) r : delimits r → parse_number (pretty z +:+ r) = Some (JNum z, r).
Proof.
  intros Hr. rewrite pretty_Z_parts, append_assoc. destruct (decide (z < 0)%Z) as [Hz|Hz].
  - cbn. rewrite parse_natural_pretty by done. cbn. by replace (- Z.of_N (Z.abs_N z))%Z with z by lia.
  - cbn [String.append]. pose proof (parse_natural_pretty (Z.abs_N z) r Hr) as Hp. unfold parse_number.
    destruct (pretty_N_nonempty (Z.abs_N z)) as (c & s & Hc & Hd). rewrite Hc in *. cbn [String.append] in *.
    replace (Z.of_N (Z.abs_N z)) with z in Hp by lia.
    destruct c as [[] [] [] [] [] [] [] []]; try done; by rewrite Hp.
Qed.

Lemma set_field_fresh k v fs : k ∉ map fst fs → set_json_field k v fs = fs ++ [(k, v)].
Proof.
  induction fs as [|[k' v'] fs IH]; [done|]. cbn. intros Hk. rewrite bool_decide_eq_false_2 by set_solver.
  rewrite IH by set_solver. done.
Qed.

Lemma object_of_unique f : NoDup (map fst f) → object_of f = JObj f.
Proof.
  intros Hnd. unfold object_of. f_equal.
  assert (∀ done, NoDup (map fst (done ++ f)) →
            foldl (λ fs kv, set_json_field kv.1 kv.2 fs) done f = done ++ f) as H; [|by apply H].
  clear Hnd. induction f as [|[k v] f IH]; intros done Hnd; [by rewrite app_nil_r|]. cbn.
  rewrite set_field_fresh.
  - rewrite IH; rewrite <-app_assoc; done.
  - rewrite map_app in Hnd. apply list.NoDup_app in Hnd as (_ & Hd & _). intros Hk.
    apply (Hd k Hk). cbn. left.
Qed.

(** What every first character of a value tells the parser. *)
Lemma head_not_space c k : head_kind_of c = Some k → json_space c = false.
Proof. by destruct c as [[] [] [] [] [] [] [] []]. Qed.

Lemma skip_value v r : skip_space (stringify v +:+ r) = stringify v +:+ r.
Proof.
  destruct (stringify_head v) as (c & s & -> & Hc). cbn. by rewrite (head_not_space c _ Hc).
Qed.

Lemma str_length_app a b : String.length (a +:+ b) = String.length a + String.length b.
Proof. induction a as [|c a IH]; [done|]. rewrite str_app_cons. cbn. by rewrite IH. Qed.

Definition reads (v : json) : Prop := ∀ fuel r,
  delimits r → 2 * String.length (stringify v) ≤ fuel → parse_value fuel (stringify v +:+ r) = Some (v, r).

Definition rest_length {A} (enc : A → string) (l : list A) : nat :=
  foldr (λ y n, S (String.length (enc y)) + n) 0 l.

Lemma tail_delimits {A} (enc : A → string) close l r :
  digit_value close = None → bool_decide (close ∈ ["."; "e"; "E"]%char) = false → delimits (tail enc close l r).
Proof. intros Hd He. by destruct l. Qed.

Ltac no_space :=
  cbn; repeat match goal with |- context [json_space ?c] => change (json_space c) with false; cbn end.

Lemma parse_items_tail l : ∀ x r fuel, Forall reads (x :: l) →
  2 * (String.length (stringify x) + rest_length stringify l) + 2 ≤ fuel →
  parse_items fuel (stringify x +:+ tail stringify "]" l r) = Some (x :: l, r).
Proof.
  induction l as [|y l IH]; intros x r fuel [Hx Hl]%Forall_cons_iff Hf; (destruct fuel as [|fuel]; [lia|]);
    cbn [parse_items rest_length foldr] in *.
  - rewrite Hx; [done|by apply (tail_delimits stringify "]" [])|lia].
  - rewrite Hx; [|by apply (tail_delimits stringify "]" (y :: l))|lia]. no_space. rewrite IH; [done|done|].
    unfold rest_length. lia.
Qed.

#[local] Arguments field_text : simpl never.

(** What follows the value of a field. *)
Definition after_field (n : nat) (key : string) (o : option (json * string)) :
    option (list (string * json) * string) :=
  '(v, r) ← o;
  match skip_space r with
  | String "," r' => '(fs, rest) ← parse_fields n r'; Some ((key, v) :: fs, rest)
  | String "}" r' => Some ([(key, v)], r')
  | _ => None
  end.

Lemma parse_field_step n k t :
  parse_fields (S n) (quoteJsonString k +:+ ":" +:+ t) = after_field n k (parse_value n t).
Proof.
  unfold quoteJsonString. rewrite !append_assoc.
  change (parse_fields (S n) (dquote +:+ escapeString k +:+ dquote +:+ ":" +:+ t)) with
    ('(key, r1) ← parse_chars (escapeString k +:+ dquote +:+ ":" +:+ t);
     match skip_space r1 with
     | String ":" r2 => after_field n key (parse_value n r2)
     | _ => None
     end).
  rewrite parse_escaped. reflexivity.
Qed.

Lemma parse_fields_tail l : ∀ kv r fuel, Forall (λ kv, reads kv.2) (kv :: l) →
  2 * (String.length (field_text kv) + rest_length field_text l) + 2 ≤ fuel →
  parse_fields fuel (field_text kv +:+ tail field_text "}" l r) = Some (kv :: l, r).
Proof.
  assert (∀ kv, 2 + String.length (stringify kv.2) ≤ String.length (field_text kv)) as Hlen.
  { intros [k v]. unfold field_text, quoteJsonString. rewrite !str_length_app. cbn. lia. }
  induction l as [|kv' l IH]; intros [k v] r fuel [Hx Hl]%Forall_cons_iff Hf; (destruct fuel as [|fuel]; [lia|]);
    pose proof (Hlen (k, v)) as Hk; cbn [rest_length foldr fst snd] in *;
    unfold field_text at 1; cbn [fst snd]; rewrite !append_assoc, parse_field_step.
  - rewrite Hx; [reflexivity|by apply (tail_delimits field_text "}" [])|lia].
  - rewrite Hx; [|by apply (tail_delimits field_text "}" (kv' :: l))|lia].
    unfold after_field. no_space. rewrite IH; [done|done|]. unfold rest_length. lia.
Qed.

Lemma stringify_length v : 1 ≤ String.length (stringify v).
Proof. destruct (stringify_head v) as (c & s & -> & _). cbn. lia. Qed.

Lemma join_length {A} (enc : A → string) close x l r :
  String.length (Json.join "," (map enc (x :: l)) +:+ String close r) =
  String.length (enc x) + rest_length enc l + S (String.length r).
Proof.
  rewrite (join_tail enc close), str_length_app. rewrite <-Nat.add_assoc. f_equal.
  induction l as [|y l IH]; [done|]. cbn [tail String.length]. rewrite str_length_app, IH.
  change (rest_length enc (y :: l)) with (S (String.length (enc y)) + rest_length enc l). lia.
Qed.

(** The parser on an array and an object whose first item starts with [c]. *)
Lemma parse_array n c s k : head_kind_of c = Some k →
  parse_value (S n) (String "[" (String c s)) = ('(items, rest) ← parse_items n (String c s); Some (JArr items, rest)).
Proof. by destruct c as [[] [] [] [] [] [] [] []]. Qed.

Lemma parse_object n c s : N_of_ascii c = 34%N →
  parse_value (S n) (String "{" (String c s)) =
  ('(fields, rest) ← parse_fields n (String c s); Some (object_of fields, rest)).
Proof. by destruct c as [[] [] [] [] [] [] [] []]. Qed.

Lemma parse_quoted n s r : parse_value (S n) (quoteJsonString s +:+ r) = Some (JStr s, r).
Proof.
  unfold quoteJsonString. rewrite !append_assoc.
  change (parse_value (S n) (dquote +:+ escapeString s +:+ dquote +:+ r)) with
    ('(str, rest) ← parse_chars (escapeString s +:+ dquote +:+ r); Some (JStr str, rest)).
  by rewrite parse_escaped.
Qed.

Lemma parse_digits n z r : delimits r → parse_value (S n) (pretty z +:+ r) = Some (JNum z, r).
Proof.
  intros Hr. pose proof (parse_number_pretty z r Hr) as Hn.
  destruct (stringify_head (JNum z)) as (c & s & Hc & Hk). change (stringify (JNum z)) with (pretty z) in Hc.
  rewrite Hc in *. cbn [String.append] in *. rewrite <-Hn.
  by destruct c as [[] [] [] [] [] [] [] []].
Qed.

(** The text of a bracketed list. *)
Lemma bracketed {A} (enc : A → string) close x l r :
  (Json.join "," (map enc (x :: l)) +:+ String close "") +:+ r = enc x +:+ tail enc close l r ∧
  String.length (Json.join "," (map enc (x :: l)) +:+ String close "") =
    S (String.length (enc x) + rest_length enc l).
Proof.
  split; [by rewrite append_assoc, <-(join_tail enc close)|]. rewrite (join_length enc close). cbn. lia.
Qed.

Lemma stringify_reads v : keys_unique v = true → reads v.
Proof.
  induction v as [|b|z|s|l IH|f IH] using json_nested_ind; intros Hu fuel r Hr Hf;
    (destruct fuel as [|n]; [match type of Hf with 2 * String.length (stringify ?v) ≤ 0 =>
                               pose proof (stringify_length v); lia end|]).
  - reflexivity.
  - by destruct b.
  - by apply parse_digits.
  - apply parse_quoted.
  - destruct l as [|x l]; [reflexivity|]. apply andb_true_iff in Hu as [Hx Hl].
    change (stringify (JArr (x :: l))) with (String "[" (Json.join "," (map stringify (x :: l)) +:+ "]")) in *.
    destruct (bracketed stringify "]" x l r) as [Ht Hn]. rewrite str_app_cons, Ht. cbn [String.length] in Hf.
    rewrite Hn in Hf. assert (Forall reads (x :: l)) as Hall.
    { apply List.Forall_forall. intros y Hy. rewrite List.Forall_forall in IH. apply IH; [done|].
      destruct Hy as [<-|Hy]; [done|]. by apply (proj1 (forallb_forall _ _) Hl). }
    pose proof (parse_items_tail l x r n Hall ltac:(lia)) as Hi.
    destruct (stringify_head x) as (c & s & Hc & Hk). rewrite Hc in *. cbn [String.append] in *.
    by rewrite (parse_array n c _ _ Hk), Hi.
  - destruct f as [|kv f]; [reflexivity|]. apply andb_true_iff in Hu as [Hnd%bool_decide_eq_true Hl].
    change (stringify (JObj (kv :: f))) with (String "{" (Json.join "," (map field_text (kv :: f)) +:+ "}")) in *.
    destruct (bracketed field_text "}" kv f r) as [Ht Hn]. rewrite str_app_cons, Ht. cbn [String.length] in Hf.
    rewrite Hn in Hf. assert (Forall (λ kv, reads kv.2) (kv :: f)) as Hall.
    { apply List.Forall_forall. intros y Hy. rewrite List.Forall_forall in IH. apply IH; [done|].
      by apply (proj1 (forallb_forall _ _) Hl). }
    pose proof (parse_fields_tail f kv r n Hall ltac:(lia)) as Hi.
    assert (∃ s, field_text kv = String (ascii_of_N 34) s) as [s Hc] by (by eexists).
    rewrite Hc in *. cbn [String.append] in *. rewrite parse_object by done. rewrite Hi. cbn.
    by rewrite object_of_unique.
Qed.

(** [JSON.parse] reads back what [JSON.stringify] writes. *)
Lemma parse_stringify v : keys_unique v = true → parse_json (stringify v) = Some v.
Proof.
  intros Hu. unfold parse_json. rewrite <-(append_empty (stringify v)) at 2.
  rewrite (stringify_reads v Hu _ "") by (done || lia). done.
Qed.

(** ** What is read has no key twice *)

Lemma parse_word_value word v s x r : parse_word word v s = Some (x, r) → x = v.
Proof.
  revert s. induction word as [|c word IH]; intros s; [by intros [= -> _]|]. destruct s as [|d s]; [done|]. cbn.
  case_bool_decide; [apply IH|done].
Qed.

Lemma parse_number_value s v r : parse_number s = Some (v, r) → keys_unique v = true.
Proof.
  unfold parse_number. intros H. repeat case_match;
    repeat match goal with H : _ ≫= _ = Some _ |- _ => apply bind_Some in H as ([? ?] & _ & H) end;
    by injection H as <- _.
Qed.

Lemma set_field_keys k v fs : NoDup (map fst fs) → keys_unique v = true → forallb (λ kv, keys_unique kv.2) fs = true →
  NoDup (map fst (set_json_field k v fs)) ∧ forallb (λ kv, keys_unique kv.2) (set_json_field k v fs) = true ∧
  ∀ k', k' ∈ map fst (set_json_field k v fs) ↔ k' = k ∨ k' ∈ map fst fs.
Proof.
  intros Hnd Hv. induction fs as [|[k0 v0] fs IH]; cbn [set_json_field].
  - intros _. cbn. rewrite Hv. split; [apply list.NoDup_singleton|]. split; [done|].
    intros k'. rewrite list_elem_of_singleton. pose proof (not_elem_of_nil k'). naive_solver.
  - cbn in *. intros [Hv0 Hfs]%andb_true_iff. apply list.NoDup_cons in Hnd as [Hnin Hnd].
    destruct (IH Hnd Hfs) as (IH1 & IH2 & IH3). case_bool_decide as Hk; cbn.
    + subst k0. rewrite Hv, Hfs. split; [by apply list.NoDup_cons|]. split; [done|].
      intros k'. rewrite !elem_of_cons. naive_solver.
    + rewrite Hv0, IH2. split; [|split; [done|]].
      * apply list.NoDup_cons. split; [|done]. rewrite IH3. naive_solver.
      * intros k'. rewrite !elem_of_cons, IH3. naive_solver.
Qed.

Lemma set_field_unique k v fs : keys_unique (JObj fs) = true → keys_unique v = true →
  keys_unique (JObj (set_json_field k v fs)) = true.
Proof.
  cbn. intros [Hnd%bool_decide_eq_true Hall]%andb_true_iff Hv.
  destruct (set_field_keys k v fs Hnd Hv Hall) as (H1 & H2 & _). by rewrite bool_decide_eq_true_2, H2.
Qed.

Lemma object_of_keys fs : forallb (λ kv, keys_unique kv.2) fs = true → keys_unique (object_of fs) = true.
Proof.
  unfold object_of. intros Hfs.
  assert (∀ acc, keys_unique (JObj acc) = true →
            keys_unique (JObj (foldl (λ fs kv, set_json_field kv.1 kv.2 fs) acc fs)) = true) as H; [|by apply H].
  induction fs as [|[k v] fs IH]; intros acc Hacc; [done|]. cbn [forallb snd] in Hfs.
  apply andb_true_iff in Hfs as [Hv Hfs]. cbn [foldl fst snd]. apply IH; [done|]. by apply set_field_unique.
Qed.

Lemma parse_unique n :
  (∀ s v r, parse_value n s = Some (v, r) → keys_unique v = true) ∧
  (∀ s vs r, parse_items n s = Some (vs, r) → forallb keys_unique vs = true) ∧
  (∀ s fs r, parse_fields n s = Some (fs, r) → forallb (λ kv, keys_unique kv.2) fs = true).
Proof.
  induction n as [|n (IHv & IHi & IHf)]; [done|]. split; [|split].
  - intros s v r. cbn [parse_value]. destruct (skip_space s) as [|c t]; [done|].
    assert (∀ o : option (string * string), (o ≫= λ '(str, rest), Some (JStr str, rest)) = Some (v, r) → keys_unique v = true) as Hstr.
    { intros o ([? ?] & _ & [= <- _])%bind_Some. done. }
    assert (∀ u, (parse_items n u ≫= λ '(items, rest), Some (JArr items, rest)) = Some (v, r) → keys_unique v = true) as Harr.
    { intros u ([vs rest] & Hi & [= <- _])%bind_Some. by apply IHi in Hi. }
    assert (∀ u, (parse_fields n u ≫= λ '(fields, rest), Some (object_of fields, rest)) = Some (v, r) → keys_unique v = true) as Hobj.
    { intros u ([fs rest] & Hi & [= <- _])%bind_Some. by apply object_of_keys, (IHf _ _ _ Hi). }
    assert (∀ w x u, parse_word w x u = Some (v, r) → keys_unique x = true → keys_unique v = true) as Hword.
    { intros w x u ->%parse_word_value. done. }
    assert (keys_unique (JArr []) = true ∧ keys_unique (JObj []) = true) as [Ha0 Ho0] by done.
    destruct c as [[] [] [] [] [] [] [] []];
      first [exact (parse_number_value _ _ _)
            |exact (Hstr _)
            |intros H; eapply Hword; [exact H|done]
            |idtac].
    all: destruct (skip_space t) as [|[[] [] [] [] [] [] [] []] u];
      first [exact (Hobj _)|exact (Harr _)|by intros [= <- _]].
  - intros s vs r. cbn [parse_items]. intros ([v r1] & Hv & H)%bind_Some. apply IHv in Hv.
    assert (∀ u, (parse_items n u ≫= λ '(vs', rest), Some (v :: vs', rest)) = Some (vs, r) → forallb keys_unique vs = true) as Hnext.
    { intros u ([vs' rest] & Hi & [= <- _])%bind_Some. cbn. by rewrite Hv, (IHi _ _ _ Hi). }
    revert H. destruct (skip_space r1) as [|[[] [] [] [] [] [] [] []] u];
      first [done|exact (Hnext _)|by intros [= <- _]; cbn; rewrite Hv].
  - intros s fs r. cbn [parse_fields]. destruct (skip_space s) as [|c t]; [done|].
    destruct (negb _); [done|]. intros ([key r1] & _ & H)%bind_Some. revert H.
    assert (∀ r2, (parse_value n r2 ≫= λ '(v, r'), match skip_space r' with
                   | String "," u => parse_fields n u ≫= λ '(fs', rest), Some ((key, v) :: fs', rest)
                   | String "}" u => Some ([(key, v)], u)
                   | _ => None
                   end) = Some (fs, r) → forallb (λ kv, keys_unique kv.2) fs = true) as Hone.
    { intros r2 ([v r'] & Hv & H)%bind_Some. apply IHv in Hv.
      assert (∀ u, (parse_fields n u ≫= λ '(fs', rest), Some ((key, v) :: fs', rest)) = Some (fs, r) →
                forallb (λ kv, keys_unique kv.2) fs = true) as Hnext.
      { intros u ([fs' rest] & Hi & [= <- _])%bind_Some. cbn. by rewrite Hv, (IHf _ _ _ Hi). }
      revert H. destruct (skip_space r') as [|[[] [] [] [] [] [] [] []] u];
        first [done|exact (Hnext _)|by intros [= <- _]; cbn; rewrite Hv]. }
    destruct (skip_space r1) as [|[[] [] [] [] [] [] [] []] u]; first [done|exact (Hone _)].
Qed.

Lemma parse_json_unique text v : parse_json text = Some v → keys_unique v = true.
Proof.
  unfold parse_json. intros ([x r] & H & Hx)%bind_Some. case_bool_decide; [|done]. injection Hx as <-.
  exact (proj1 (parse_unique _) _ _ _ H).
Qed.
