(* ===== verification/StoredErrors.v ===== *)
(** * Turn errors in text columns

    Models [src/shared/turn-errors/storage.ts]: an error is stored as a prefix
    and a JSON text, and read back leniently.  A field of a type the contract of
    the stored payload excludes counts as absent. *)
From stdpp Require Import pretty.
From Stdlib Require Import Ascii.
From S2P Require Import Prelude Json JsonSpecs JsString SavedPlan JsonParse TurnErrors.

#[local] Arguments bool_decide : simpl never.

Definition STORAGE_PREFIX : string := "codetask-error:v1:".

(** [fromTurnErrorDto]; [JSON.stringify] leaves undefined [params] out. *)
Definition fromTurnErrorDto (dto : TurnErrorDto.t) : json :=
  JObj ([("v", JNum TURN_ERROR_SCHEMA_VERSION); ("code", JStr (TurnErrorDto.code dto));
         ("message", JStr (TurnErrorDto.message dto))] ++
        match TurnErrorDto.params dto with Some ps => [("params", JObj ps)] | None => [] end ++
        [("detail", json_of_option (TurnErrorDto.detail dto))]).

Definition string_field (key : string) (v : json) : option string :=
  match json_get key v with Some (JStr s) => Some s | _ => None end.

Definition object_field (key : string) (v : json) : option (list (string * json)) :=
  match json_get key v with Some (JObj fs) => Some fs | _ => None end.

(** [isStoredPayload] and [toTurnErrorDto]. *)
Definition toTurnErrorDto (payload : json) : option TurnErrorDto.t :=
  match json_get "v" payload with
  | Some (JNum v) =>
      if bool_decide (v = TURN_ERROR_SCHEMA_VERSION) then
        code ← string_field "code" payload;
        message ← string_field "message" payload;
        Some (TurnErrorDto.mk code message (object_field "params" payload) (string_field "detail" payload))
      else None
  | _ => None
  end.

Definition parseStoredTurnError (raw : option string) : option TurnErrorDto.t :=
  let trimmed := trim (default "" raw) in
  if bool_decide (trimmed = "") then None
  else
    let prefixed :=
      if startsWith trimmed STORAGE_PREFIX
      then parse_json (slice_from (String.length STORAGE_PREFIX) trimmed) ≫= toTurnErrorDto else None in
    match prefixed with
    | Some dto => Some dto
    | None => if startsWith trimmed "{" then parse_json trimmed ≫= toTurnErrorDto else None
    end.

Definition serializeStoredTurnError (dto : TurnErrorDto.t) : string :=
  STORAGE_PREFIX +:+ stringify (fromTurnErrorDto dto).

(** [coerceTurnErrorField] of a text. *)
Definition coerceTurnErrorText (value : option string) : option TurnErrorDto.t :=
  match value with
  | None => None
  | Some s => if bool_decide (s = "") then None else parseStoredTurnError (Some s)
  end.

(** ** Stored errors are read back *)

Lemma trimEnd_end s c : is_space c = false → trimEnd (s +:+ String c "") = s +:+ String c "".
Proof.
  intros Hc. induction s as [|d s IH]; [change ("" +:+ ?t) with t; cbn; by rewrite Hc|].
  rewrite str_app_cons. cbn [trimEnd]. rewrite IH. by destruct s.
Qed.

(** What ends in a brace and starts with a visible character has no white space around it. *)
Lemma trim_closed c s d : is_space c = false → is_space d = false → trim (String c (s +:+ String d "")) = String c (s +:+ String d "").
Proof.
  intros Hc Hd. unfold trim. change (String c (s +:+ String d "")) with (String c s +:+ String d "").
  rewrite trimEnd_end by done. rewrite str_app_cons. cbn. by rewrite Hc.
Qed.

(** A turn error that is stored in the text column of a row is read back as it was, with
    its parameters and detail, whatever characters it contains. *)
Theorem stored_error_roundtrip (dto : TurnErrorDto.t) :
  match TurnErrorDto.params dto with Some ps => keys_unique (JObj ps) = true | None => True end →
  coerceTurnErrorText (Some (serializeStoredTurnError dto)) = Some dto.
Proof.
  intros Hu. destruct dto as [code msg params detail]. cbn in Hu.
  set (j := fromTurnErrorDto (TurnErrorDto.mk code msg params detail)).
  assert (keys_unique j = true) as Hj by (subst j; by destruct params; cbn in *; rewrite ?Hu; destruct detail).
  assert (toTurnErrorDto j = Some (TurnErrorDto.mk code msg params detail)) as Hto
    by (by destruct params, detail).
  assert (∃ t, stringify j = t +:+ String "}" "") as [t Ht].
  { subst j. unfold fromTurnErrorDto. cbn [stringify]. rewrite <-append_assoc. by eexists. }
  unfold coerceTurnErrorText, serializeStoredTurnError. fold j. rewrite bool_decide_eq_false_2 by done.
  unfold parseStoredTurnError. change (default "" (Some ?x)) with x. cbv zeta.
  assert (trim (STORAGE_PREFIX +:+ stringify j) = STORAGE_PREFIX +:+ stringify j) as ->.
  { rewrite Ht, <-append_assoc. by apply (trim_closed "c" ("odetask-error:v1:" +:+ t)). }
  rewrite bool_decide_eq_false_2 by done. unfold startsWith. rewrite prefix_app, slice_from_app.
  rewrite (parse_stringify j Hj). cbn [mbind option_bind]. by rewrite Hto.
Qed.
