(* ===== verification/RecoveryState.v ===== *)
(** * What a user can do about a job

    Models [src/shared/job-recovery-state.ts]: the life cycle, failure and
    recovery of a job, derived from its status, its last error and its progress
    for the user interface and the controls.  The percentage is computed in
    binary64, as JavaScript does. *)
From stdpp Require Import pretty.
From Stdlib Require Import Ascii SpecFloat.
From S2P Require Import Prelude Json JsString SavedPlan Gate RepairTasks TurnErrors Blocker TaskRecovery StoredErrors.

#[local] Arguments bool_decide : simpl never.

(** The parts of a [ThreadJobDto] that are read. *)
Module RecoveryJob.
Record t := mk {
  status : string;
  lastError : option TurnErrorDto.t;
  taskProgress : TaskProgress.t
}.
End RecoveryJob.

Module JobLifecycle.
Inductive t := pending | running | paused | completed | failed | cancelled.

#[global] Instance eq_dec : EqDecision t.
Proof. solve_decision. Defined.
End JobLifecycle.

Module FailureKind.
Inductive t := infra_retryable | task_repairable | dependency_missing | human_blocked | terminal | gate_blocked.

#[global] Instance eq_dec : EqDecision t.
Proof. solve_decision. Defined.
End FailureKind.

(** [JobNextAction] and [JobAvailableAction]. *)
Module JobAction.
Inductive t := continue | restart | delete | pause.

#[global] Instance eq_dec : EqDecision t.
Proof. solve_decision. Defined.
End JobAction.

Module JobRecoveryStrategy.
Inductive t := retry | remediate | resume | needs_attention.

#[global] Instance eq_dec : EqDecision t.
Proof. solve_decision. Defined.
End JobRecoveryStrategy.

Record ExecutionProgressDto := mkExecutionProgress {
  ep_completedCount : nat;
  ep_total : nat;
  ep_currentTaskId : option string;
  ep_failedTaskId : option string;
  ep_percentage : Z;
  ep_phase : string
}.

Record JobFailureDto := mkFailure {
  fl_kind : option FailureKind.t;
  fl_message : option string;
  fl_taskId : option string
}.

Record JobRecoveryDto := mkRecovery {
  rc_recoverable : bool;
  rc_strategy : option JobRecoveryStrategy.t;
  rc_reason : option string;
  rc_nextAction : option JobAction.t;
  rc_failedTaskId : option string;
  rc_autoRetryAttempt : Z;
  rc_maxAutoRetryAttempts : Z;
  rc_repairGeneration : Z;
  rc_maxRepairGenerations : Z
}.

Record JobRecoveryStateFields := mkRecoveryState {
  rs_lifecycle : JobLifecycle.t;
  rs_execution : ExecutionProgressDto;
  rs_failure : JobFailureDto;
  rs_recovery : JobRecoveryDto;
  rs_availableActions : list JobAction.t
}.

(** ** Deadlocks and gates *)

Definition WORKFLOW_PROGRESS_BY_TURN_CODE (code : string) : string :=
  if bool_decide (code = "workflow.deadlock") then "execution.workflow_deadlock"
  else "execution.workflow_failed_block".

Definition GATE_FAILURE_PROGRESS_CODES : list string :=
  ["execution.slice_blocked"; "execution.milestone_blocked";
   "execution.slice_inconclusive_exhausted"; "execution.milestone_inconclusive_exhausted"].

Definition matchesWorkflowCode (input : option TurnErrorDto.t) (code : string) : bool :=
  match input with Some dto => bool_decide (TurnErrorDto.code dto = code) | None => false end.

Definition matchesWorkflowProgressCode (progressCode : option string) (code : string) : bool :=
  bool_decide (progressCode = Some (WORKFLOW_PROGRESS_BY_TURN_CODE code)).

Definition resolveLifecycle (status : string) : JobLifecycle.t :=
  if bool_decide (status = "running") || bool_decide (status = "pausing") then JobLifecycle.running
  else if bool_decide (status = "paused") then JobLifecycle.paused
  else if bool_decide (status = "completed") then JobLifecycle.completed
  else if bool_decide (status = "failed") then JobLifecycle.failed
  else if bool_decide (status = "cancelled") then JobLifecycle.cancelled
  else JobLifecycle.pending.

Definition task_done (t : TaskProgressItem.t) : bool :=
  bool_decide (TaskProgressItem.status t = "completed") || bool_decide (TaskProgressItem.status t = "skipped").

Definition countCompletedTasks (tasks : list TaskProgressItem.t) : nat :=
  length (List.filter task_done tasks).

Definition isWorkflowDeadlockOnly (job : RecoveryJob.t) : bool :=
  let p := RecoveryJob.taskProgress job in
  if existsb (λ t, bool_decide (TaskProgressItem.status t = "failed")) (TaskProgress.tasks p) then false
  else matchesWorkflowCode (RecoveryJob.lastError job) "workflow.deadlock" ||
       matchesWorkflowProgressCode (TaskProgress.progressCode p) "workflow.deadlock".

(** A text that is not blank, under a key of the parameters. *)
Definition text_param (key : string) (params : option TurnErrorParams) : option string :=
  ps ← params;
  match snd <$> List.find (λ kv, bool_decide (kv.1 = key)) ps with
  | Some (JStr s) => if bool_decide (trim s = "") then None else Some s
  | _ => None
  end.

Definition readGateFailureId (job : RecoveryJob.t) : option string :=
  match text_param "id" (TaskProgress.progressParams (RecoveryJob.taskProgress job)) with
  | Some id => Some id
  | None => e ← RecoveryJob.lastError job; text_param "taskId" (TurnErrorDto.params e)
  end.

Definition isGateFailureProgressCode (progressCode : option string) : bool :=
  match progressCode with
  | Some c => negb (bool_decide (c = "")) && bool_decide (c ∈ GATE_FAILURE_PROGRESS_CODES)
  | None => false
  end.

Definition isGateFailureRecoverable (job : RecoveryJob.t) : bool :=
  isGateFailureProgressCode (TaskProgress.progressCode (RecoveryJob.taskProgress job)).

(** ** Tasks *)

(** [task.evidence?.recovery?.kind ?? task.evidence?.blockerKind] *)
Definition blocker_of (t : TaskProgressItem.t) : option string :=
  e ← TaskProgressItem.evidence t;
  match TaskEvidence.recovery e with
  | Some r => Some (TaskBlockerKind.to_string (Classification.kind (Recovery.classification r)))
  | None => TaskEvidence.blockerKind e
  end.

Definition recovery_action (t : TaskProgressItem.t) : option string :=
  e ← TaskProgressItem.evidence t; r ← TaskEvidence.recovery e; Some (Recovery.action r).

Definition isHumanBlockedTask (t : TaskProgressItem.t) : bool :=
  bool_decide (blocker_of t = Some "dependency-human") || bool_decide (recovery_action t = Some "pause-human").

Definition isInterruptedFailedJobTask (jobStatus : string) (t : TaskProgressItem.t) : bool :=
  if negb (bool_decide (jobStatus = "failed")) then false
  else if task_done t then false
  else if isHumanBlockedTask t then false
  else if negb (bool_decide (TaskProgressItem.status t = "running")) &&
          negb (bool_decide (TaskProgressItem.executionStatus t = Some "running")) then false
  else truthy (TaskProgressItem.errorMessage t) || bool_decide (is_Some (TaskProgressItem.error t)).

Definition isRecoverableTask (jobStatus : string) (t : TaskProgressItem.t) : bool :=
  let ex := TaskProgressItem.executionStatus t in
  if isInterruptedFailedJobTask jobStatus t then true
  else if isHumanBlockedTask t then false
  else bool_decide (ex = Some "retry-queued") || bool_decide (ex = Some "waiting-on-repair") ||
       bool_decide (ex = Some "waiting-on-dependency") || bool_decide (TaskProgressItem.status t = "failed").

Definition findPrimaryRecoverableTask (tasks : list TaskProgressItem.t) (jobStatus : string) :
    option TaskProgressItem.t :=
  List.find (isRecoverableTask jobStatus) tasks.

(** The two [switch] statements differ in what they make of no known kind. *)
Definition kind_of_blocker (otherwise : FailureKind.t) (kind : option string) : FailureKind.t :=
  if bool_decide (kind = Some "infra") then FailureKind.infra_retryable
  else if bool_decide (kind = Some "dependency-prep") then FailureKind.dependency_missing
  else if bool_decide (kind = Some "implementation") then FailureKind.task_repairable
  else if bool_decide (kind = Some "dependency-human") then FailureKind.human_blocked
  else otherwise.

Definition mapBlockerToFailureKind (kind : option string) (t : TaskProgressItem.t) : FailureKind.t :=
  let ex := TaskProgressItem.executionStatus t in
  if isHumanBlockedTask t then FailureKind.human_blocked
  else if bool_decide (ex = Some "retry-queued") then FailureKind.infra_retryable
  else if bool_decide (ex = Some "waiting-on-dependency") then FailureKind.dependency_missing
  else if bool_decide (ex = Some "waiting-on-repair") then FailureKind.task_repairable
  else if bool_decide (recovery_action t = Some "terminal-fail")
       then kind_of_blocker FailureKind.infra_retryable kind
  else kind_of_blocker FailureKind.task_repairable kind.

Definition mapGateProgressToFailureKind (progressCode : option string) : FailureKind.t :=
  if bool_decide (progressCode = Some "execution.slice_inconclusive_exhausted") ||
     bool_decide (progressCode = Some "execution.milestone_inconclusive_exhausted")
  then FailureKind.task_repairable else FailureKind.gate_blocked.

(** ** Counters *)

Definition readTaskInfraAttempt (p : TaskProgress.t) (taskId : string) : Z :=
  generation p ("task-infra:" +:+ taskId).

Definition readTaskRepairAttempt (p : TaskProgress.t) (taskId : string) (kind : option FailureKind.t) : Z * Z :=
  let gens := TaskProgress.repairGenerations p in
  if bool_decide (kind = Some FailureKind.dependency_missing) then
    (generation p ("task-prep:" +:+ taskId), MAX_TASK_PREP_GENERATIONS)
  else if bool_decide (kind = Some FailureKind.task_repairable) || bool_decide (kind = Some FailureKind.gate_blocked)
  then
    (match gens !! ("slice:" +:+ taskId) with
     | Some n => n
     | None => match gens !! ("milestone:" +:+ taskId) with
               | Some n => n
               | None => generation p ("task-repair:" +:+ taskId)
               end
     end, MAX_TASK_REPAIR_GENERATIONS)
  else (0%Z, MAX_TASK_REPAIR_GENERATIONS).

(** ** Reason, next action, strategy *)

Definition readTaskErrorCode (t : TaskProgressItem.t) : option string :=
  match TaskProgressItem.error t with
  | Some e => if bool_decide (TurnErrorDto.code e = "")
              then TurnErrorDto.code <$> coerceTurnErrorText (TaskProgressItem.errorMessage t)
              else Some (TurnErrorDto.code e)
  | None => TurnErrorDto.code <$> coerceTurnErrorText (TaskProgressItem.errorMessage t)
  end.

Definition resolveRecoveryReason (lifecycle : JobLifecycle.t) (task : option TaskProgressItem.t)
    (kind : option FailureKind.t) (workflowDeadlock gateFailure : bool) (progressCode : option string) :
    option string :=
  if bool_decide (lifecycle = JobLifecycle.paused) then Some "user_paused"
  else if workflowDeadlock then Some "workflow_deadlock"
  else if gateFailure then
    if bool_decide (progressCode = Some "execution.slice_blocked") then Some "slice_verification_blocked"
    else if bool_decide (progressCode = Some "execution.milestone_blocked") then Some "milestone_verification_blocked"
    else if bool_decide (progressCode = Some "execution.slice_inconclusive_exhausted") ||
            bool_decide (progressCode = Some "execution.milestone_inconclusive_exhausted")
         then Some "gate_repair_exhausted"
    else Some "gate_verification_failed"
  else match task with
  | None =>
      if bool_decide (lifecycle = JobLifecycle.failed) then
        if bool_decide (kind = Some FailureKind.human_blocked) then Some "human_dependency_blocked"
        else Some "job_failed"
      else None
  | Some t =>
      let action := recovery_action t in
      if bool_decide (action = Some "infra-retry") || bool_decide (kind = Some FailureKind.infra_retryable)
      then Some "task_infra_failure"
      else if bool_decide (action = Some "inject-prep") || bool_decide (kind = Some FailureKind.dependency_missing)
      then Some "task_dependency_missing"
      else if bool_decide (action = Some "inject-repair") || bool_decide (kind = Some FailureKind.task_repairable)
      then Some "task_implementation_failed"
      else if bool_decide (kind = Some FailureKind.human_blocked) then Some "human_dependency_blocked"
      else
        let code := readTaskErrorCode t in
        if bool_decide (code = Some "task.evidence_timeout") || bool_decide (code = Some "task.evidence_missing")
        then Some "task_result_timeout"
        else if bool_decide (code = Some "workflow.failed_block") then Some "workflow_failed_block"
        else Some "task_failed"
  end.

Definition resolveNextAction (lifecycle : JobLifecycle.t) (recoverable : bool) : option JobAction.t :=
  match lifecycle with
  | JobLifecycle.paused => if recoverable then Some JobAction.continue else None
  | JobLifecycle.failed => Some JobAction.continue
  | JobLifecycle.cancelled => Some JobAction.restart
  | JobLifecycle.running | JobLifecycle.pending | JobLifecycle.completed => None
  end.

Definition deriveAvailableActions (lifecycle : JobLifecycle.t) (status : string) : list JobAction.t :=
  match lifecycle with
  | JobLifecycle.running | JobLifecycle.pending =>
      (if bool_decide (status = "running") || bool_decide (status = "pending") then [JobAction.pause] else [])
      ++ [JobAction.delete]
  | JobLifecycle.paused | JobLifecycle.failed => [JobAction.continue; JobAction.restart; JobAction.delete]
  | JobLifecycle.completed => [JobAction.delete]
  | JobLifecycle.cancelled => [JobAction.restart; JobAction.delete]
  end.

Definition isJobRecoverable (job : RecoveryJob.t) : bool :=
  bool_decide (RecoveryJob.status job = "paused") || bool_decide (RecoveryJob.status job = "failed").

Definition resolveRecoveryStrategy (lifecycle : JobLifecycle.t) (kind : option FailureKind.t)
    (workflowDeadlock : bool) : option JobRecoveryStrategy.t :=
  if bool_decide (lifecycle = JobLifecycle.paused) || workflowDeadlock then Some JobRecoveryStrategy.resume
  else if negb (bool_decide (lifecycle = JobLifecycle.failed)) then None
  else match kind with
  | Some FailureKind.dependency_missing | Some FailureKind.task_repairable | Some FailureKind.gate_blocked =>
      Some JobRecoveryStrategy.remediate
  | Some FailureKind.human_blocked => Some JobRecoveryStrategy.needs_attention
  | Some FailureKind.infra_retryable => Some JobRecoveryStrategy.retry
  | _ => Some JobRecoveryStrategy.resume
  end.

(** ** The derived state *)

(** [Math.round] of a binary64 number: the floor of the number plus one half. *)
Definition js_round (x : spec_float) : Z :=
  match x with
  | S754_finite sign m e =>
      let z := if sign then Zneg m else Zpos m in
      if bool_decide (0 ≤ e)%Z then (z * 2 ^ e)%Z else ((2 * z + 2 ^ (- e)) / (2 * 2 ^ (- e)))%Z
  | _ => 0%Z
  end.

Definition number (z : Z) : spec_float := binary_normalize 53 1024 z 0 false.

(** [Math.round((completedCount / total) * 100)] *)
Definition percentage (completedCount total : nat) : Z :=
  if bool_decide (0 < total) then
    js_round (SFmul 53 1024 (SFdiv 53 1024 (number (Z.of_nat completedCount)) (number (Z.of_nat total))) (number 100))
  else 0%Z.

Definition failure_kind (job : RecoveryJob.t) (recoverableTask humanBlockedTask : option TaskProgressItem.t) :
    option FailureKind.t :=
  let p := RecoveryJob.taskProgress job in
  match resolveLifecycle (RecoveryJob.status job) with
  | JobLifecycle.failed | JobLifecycle.paused =>
      if isWorkflowDeadlockOnly job then Some FailureKind.infra_retryable
      else if isGateFailureRecoverable job then Some (mapGateProgressToFailureKind (TaskProgress.progressCode p))
      else match recoverableTask with
      | Some t => Some (mapBlockerToFailureKind (blocker_of t) t)
      | None =>
          match humanBlockedTask with
          | Some _ => Some FailureKind.human_blocked
          | None => if bool_decide (resolveLifecycle (RecoveryJob.status job) = JobLifecycle.failed)
                    then Some FailureKind.terminal else None
          end
      end
  | _ => None
  end.

Definition first_some {A} (x y : option A) : option A := match x with Some _ => x | None => y end.

Definition deriveJobRecoveryState (job : RecoveryJob.t) : JobRecoveryStateFields :=
  let p := RecoveryJob.taskProgress job in
  let status := RecoveryJob.status job in
  let lifecycle := resolveLifecycle status in
  let tasks := TaskProgress.tasks p in
  let completedCount := countCompletedTasks tasks in
  let total := if bool_decide (TaskProgress.total p = 0) then length tasks else TaskProgress.total p in
  let workflowDeadlock := isWorkflowDeadlockOnly job in
  let gateFailure := isGateFailureRecoverable job in
  let recoverableTask := findPrimaryRecoverableTask tasks status in
  let humanBlockedTask := List.find isHumanBlockedTask tasks in
  let recoverable := isJobRecoverable job in
  let gateId := if gateFailure then readGateFailureId job else None in
  let failedTaskId := first_some (TaskProgressItem.id <$> recoverableTask)
                        (first_some gateId (TaskProgressItem.id <$> humanBlockedTask)) in
  let kind := failure_kind job recoverableTask humanBlockedTask in
  let repairCounters := if truthy failedTaskId then readTaskRepairAttempt p (default "" failedTaskId) kind
                        else (0%Z, MAX_TASK_REPAIR_GENERATIONS) in
  mkRecoveryState lifecycle
    (mkExecutionProgress completedCount total (TaskProgress.currentTaskId p) failedTaskId
       (percentage completedCount total) (TaskProgress.phase p))
    (mkFailure kind
       (first_some (t ← recoverableTask; TurnErrorDto.message <$> TaskProgressItem.error t)
          (first_some (t ← recoverableTask; TaskProgressItem.errorMessage t)
             (TurnErrorDto.message <$> RecoveryJob.lastError job)))
       failedTaskId)
    (mkRecovery recoverable (resolveRecoveryStrategy lifecycle kind workflowDeadlock)
       (resolveRecoveryReason lifecycle recoverableTask kind workflowDeadlock gateFailure
          (TaskProgress.progressCode p))
       (resolveNextAction lifecycle recoverable) failedTaskId
       (match recoverableTask with Some t => readTaskInfraAttempt p (TaskProgressItem.id t) | None => 0%Z end)
       MAX_INFRA_RETRIES repairCounters.1 repairCounters.2)
    (deriveAvailableActions lifecycle status).

Definition jobHasAction (actions : option (list JobAction.t)) (action : JobAction.t) : bool :=
  match actions with Some l => bool_decide (action ∈ l) | None => false end.

(** JavaScript rounds 57 of 200 down, because the product is 28.499999999999996. *)
Example percentage_ex : (percentage 57 200, percentage 1 8, percentage 3 3) = (28, 13, 100)%Z.
Proof. reflexivity. Qed.
