(* ===== verification/ContinueFailed.v ===== *)
(** * Continuing a failed job

    Models [src/server/legacy-control-plane/continue-failed-job.ts]: what the plan
    and the progress of a failed job become when the user continues it.  A copy
    of the plan is the plan, since values are not shared here.  The tasks an
    injection adds name no core, so that the queued items have none.  [Err] is
    what is thrown. *)
From stdpp Require Import pretty.
From Stdlib Require Import Ascii.
From S2P Require Import Prelude Json JsString Sql SavedPlan Gate RepairTasks RepairSpecs TurnErrors Blocker.
From S2P Require Import TaskRecovery StoredErrors RecoveryState.
#[local] Arguments bool_decide : simpl never.

Definition MANUAL_CONTINUE_ERROR_CODES : list string :=
  ["turn.cancelled"; "sandbox.turn.cancelled"; "job.cancelled"; "job.paused"; "task.execution_failed";
   "task.evidence_timeout"; "task.evidence_missing"; "task.infra_retry"; "task.infra_retry_exhausted";
   "task.terminal_failure"; "turn.timed_out"; "turn.incomplete"; "turn.empty_reply"].

Definition isExecutionFailureRetryable (t : TaskProgressItem.t) : bool :=
  let ex := TaskProgressItem.executionStatus t in
  if negb (bool_decide (TaskProgressItem.status t = "failed")) then false
  else if bool_decide (ex = Some "blocked") && isHumanBlockedTask t then false
  else if bool_decide (recovery_action t = Some "pause-human") then false
  else if isHumanBlockedTask t then false
  else if bool_decide (ex = Some "failed") then true
  else if bool_decide (recovery_action t = Some "terminal-fail") then
    bool_decide (blocker_of t = Some "infra") || bool_decide (blocker_of t = None)
  else match readTaskErrorCode t with
       | Some code => bool_decide (code ∈ MANUAL_CONTINUE_ERROR_CODES)
       | None => false
       end.

(** [{ ...p, tasks, phase: 'running', status: 'running', message: null,
    progressCode, progressParams, currentTaskId: null, total }] *)
Definition running_with (code : string) (params : option TurnErrorParams) (total : nat) (p : TaskProgress.t) :
    TaskProgress.t :=
  TaskProgress.mk "running" "running" (TaskProgress.currentIndex p) total None (Some code) params
    (TaskProgress.tasks p) (TaskProgress.slices p) (TaskProgress.milestones p)
    (TaskProgress.repairGenerations p) (TaskProgress.verificationAttempts p)
    (TaskProgress.verificationBundleHashes p).

Definition ALL_SCOPES : list recovery_scope := [ScopeInfra; ScopePrep; ScopeRepair].

Definition prepareManualTaskRetry (plan : SavedJobPlan.t) (p : TaskProgress.t) (failedTaskId : string) :
    SavedJobPlan.t * TaskProgress.t :=
  let items := resetTaskItemForManualRetry (TaskProgress.tasks p) failedTaskId in
  (plan, running_with "execution.continuing_task" (Some [("id", JStr failedTaskId)]) (length items)
           (resetTaskRecoveryCounters failedTaskId ALL_SCOPES (TaskProgress.set_tasks items p))).

Definition syntheticPacket (t : TaskProgressItem.t) : TaskEvidence.t :=
  match TaskProgressItem.evidence t with
  | Some e => e
  | None =>
      let text := default "task failed" (TaskProgressItem.errorMessage t) in
      TaskEvidence.mk "blocked" text [] [text] (Validation.mk false None "skipped" None)
        (Some (if truthy (TaskProgressItem.errorMessage t) then [text] else ["task failed"])) None None
  end.

(** [/^m\d+$/i.test(gateId)] *)
Definition is_milestone_id (gateId : string) : bool := bool_decide (is_Some (match_milestone gateId)).

Definition READY : option string := Some "ready-for-verification".

Definition resetGateVerificationInProgress (p : TaskProgress.t) (gateId : string) : TaskProgress.t :=
  let isMilestone := is_milestone_id gateId in
  let reset_slice (s : slice_progress SliceRecord.t) :=
    if negb (bool_decide (sp_id s = gateId)) && negb (isMilestone && startsWith (sp_id s) (gateId +:+ "-"))
    then s else mkSliceProgress (sp_id s) READY READY (sp_verdict s) in
  let reset_milestone m :=
    if negb (bool_decide (mp_id m = gateId)) then m else mkMilestoneProgress (mp_id m) READY in
  let key := repairGenerationKey (if isMilestone then "milestone" else "slice") gateId in
  running_with "execution.resuming" (Some [("id", JStr gateId)]) (TaskProgress.total p)
    (TaskProgress.set_generations (delete key (TaskProgress.repairGenerations p))
       (TaskProgress.set_verification (map reset_slice (TaskProgress.slices p))
          (map reset_milestone (TaskProgress.milestones p)) p)).

Definition turn_error (code : string) (params : option TurnErrorParams) (detail : string) : thrown :=
  ThrownTurn (turnErrorDto code params (Some detail) None).

Definition prepareGateContinueExecution (job : RecoveryJob.t) (plan : SavedJobPlan.t) :
    result thrown (SavedJobPlan.t * TaskProgress.t) :=
  match readGateFailureId job with
  | None => Err (turn_error "task.execution_failed" None "No gate id to continue from verification failure")
  | Some gateId => Ok (plan, resetGateVerificationInProgress (RecoveryJob.taskProgress job) gateId)
  end.

(** The progress of a resumed execution. *)
Definition resume_progress (params : option TurnErrorParams) (p : TaskProgress.t) : TaskProgress.t :=
  let p1 := (prepareInterruptedExecutionResume p).2 in
  running_with "execution.resuming" params (TaskProgress.total p1) p1.

Definition attempt_params (taskId : string) (attempt maxAttempts : Z) : option TurnErrorParams :=
  Some [("id", JStr taskId); ("attempt", JNum attempt); ("maxAttempts", JNum maxAttempts)].

(** An injected task before the blocked one. *)
Definition continue_with_injection (code : string)
    (inject : string → TaskEvidence.t → Z → planM (list string))
    (apply : list TaskProgressItem.t → string → TaskEvidence.t → Classification.t → Z → Z → list TaskProgressItem.t)
    (plan : SavedJobPlan.t) (p : TaskProgress.t) (taskId : string) (packet : TaskEvidence.t)
    (recovery : TaskRecoveryAction) (attempt maxAttempts : Z) :
    result thrown (SavedJobPlan.t * TaskProgress.t) :=
  match inject taskId packet attempt plan with
  | (Err e, _) => Err (ThrownError e)
  | (Ok newTaskIds, plan') =>
      let items := apply (appendQueuedRepairItems plan' (TaskProgress.tasks p) newTaskIds) taskId packet
                     (ra_classification recovery) attempt maxAttempts in
      let p1 := applyTaskRecoveryGenerationForTask taskId (ra_step recovery) (TaskProgress.set_tasks items p) in
      Ok (plan', running_with code (attempt_params taskId attempt maxAttempts) (length items) p1)
  end.

(** The last part: the report of the task decides. *)
Definition continue_by_recovery (plan : SavedJobPlan.t) (p0 : TaskProgress.t) (task : TaskProgressItem.t) :
    result thrown (SavedJobPlan.t * TaskProgress.t) :=
  let taskId := TaskProgressItem.id task in
  let p := resetTaskRecoveryCounters taskId ALL_SCOPES p0 in
  let packet := syntheticPacket task in
  let recovery := resolveTaskRecoveryAction packet taskId p in
  match ra_step recovery with
  | PauseHuman =>
      Err (turn_error "task.terminal_failure" (Some [("taskId", JStr taskId)])
             (TurnErrorDto.message (ra_error recovery)))
  | TerminalFail => Ok (prepareManualTaskRetry plan p taskId)
  | InfraRetry attempt maxAttempts _ =>
      let items := applyTaskInfraRetryItem (TaskProgress.tasks p) taskId packet (ra_classification recovery)
                     attempt maxAttempts in
      let p1 := applyTaskRecoveryGenerationForTask taskId (ra_step recovery) (TaskProgress.set_tasks items p) in
      Ok (plan, running_with "execution.recovery_infra_retry" (attempt_params taskId attempt maxAttempts)
                  (TaskProgress.total p1) p1)
  | InjectPrep attempt maxAttempts =>
      continue_with_injection "execution.recovery_prep_injected" injectPrepTasksForRecovery
        applyTaskPrepRecoveryItem plan p taskId packet recovery attempt maxAttempts
  | InjectRepair attempt maxAttempts =>
      continue_with_injection "execution.recovery_repair_injected" injectRepairTasksForRecovery
        applyTaskRepairRecoveryItem plan p taskId packet recovery attempt maxAttempts
  end.

(** [looksInfra] *)
Definition looks_infra (t : TaskProgressItem.t) : bool :=
  bool_decide (TaskProgressItem.executionStatus t = Some "retry-queued") ||
  bool_decide (TaskProgressItem.evidence t ≫= TaskEvidence.blockerKind = Some "infra") ||
  bool_decide ((λ r, Classification.kind (Recovery.classification r)) <$>
                 (TaskProgressItem.evidence t ≫= TaskEvidence.recovery) = Some TaskBlockerKind.infra).

Definition set_retry_queued (t : TaskProgressItem.t) : TaskProgressItem.t :=
  TaskProgressItem.set_outcome "queued" (Some "retry-queued") (TaskProgressItem.evidenceStatus t)
    (TaskProgressItem.evidence t) (TaskProgressItem.error t) (TaskProgressItem.errorMessage t) t.

Definition continue_infra_retry (plan : SavedJobPlan.t) (p : TaskProgress.t) (taskId : string) :
    SavedJobPlan.t * TaskProgress.t :=
  let items := map_item taskId set_retry_queued (resetTaskItemForManualRetry (TaskProgress.tasks p) taskId) in
  (plan, running_with "execution.recovery_infra_retry" (Some [("id", JStr taskId)]) (length items)
           (resetTaskRecoveryCounters taskId [ScopeInfra] (TaskProgress.set_tasks items p))).

Definition prepareContinueFailedExecution (job : RecoveryJob.t) (plan : SavedJobPlan.t) :
    result thrown (SavedJobPlan.t * TaskProgress.t) :=
  let state := deriveJobRecoveryState job in
  let p := RecoveryJob.taskProgress job in
  if isGateFailureProgressCode (TaskProgress.progressCode p) then prepareGateContinueExecution job plan
  else
    let failedTaskId := rc_failedTaskId (rs_recovery state) in
    if negb (truthy failedTaskId) && bool_decide (rc_reason (rs_recovery state) = Some "workflow_deadlock") then
      Ok (plan, resume_progress None p)
    else if negb (truthy failedTaskId) then Ok (plan, resume_progress (TaskProgress.progressParams p) p)
    else
      let taskId := default "" failedTaskId in
      match List.find (λ i, bool_decide (TaskProgressItem.id i = taskId)) (TaskProgress.tasks p) with
      | None => Err (turn_error "task.execution_failed" None ("Failed subtask " +:+ taskId +:+ " not found"))
      | Some task =>
          let ex := TaskProgressItem.executionStatus task in
          let kind := fl_kind (rs_failure state) in
          if bool_decide (ex = Some "waiting-on-repair") || bool_decide (ex = Some "waiting-on-dependency") then
            Ok (plan, resume_progress None p)
          else if bool_decide (kind = Some FailureKind.human_blocked) || isHumanBlockedTask task then
            Ok (prepareManualTaskRetry plan p taskId)
          else if isExecutionFailureRetryable task then Ok (prepareManualTaskRetry plan p taskId)
          else if (bool_decide (kind = Some FailureKind.infra_retryable) || bool_decide (ex = Some "retry-queued")) &&
                  looks_infra task then
            Ok (continue_infra_retry plan p taskId)
          else continue_by_recovery plan p task
      end.

(** ** Continue keeps the finished work and always has a breakpoint

    What [prepareContinueFailedExecution] makes of a failed job whose progress
    and plan belong together. *)

(** ** Injections for a task of the plan succeed *)

Definition plan_ids (p : SavedJobPlan.t) : list string := map FlatTaskPlan.id (SavedJobPlan.tasks p).

Lemma find_flat_ids p k : k ∈ plan_ids p ↔ is_Some (find_flat p k).
Proof.
  unfold plan_ids, find_flat. rewrite list_elem_of_In, in_map_iff. split.
  - intros (t & <- & Ht). destruct (List.find _ _) eqn:E; [done|]. exfalso.
    pose proof (List.find_none _ _ E t Ht) as Hn. cbn in Hn. by rewrite bool_decide_eq_true_2 in Hn.
  - intros [t [Ht Hid%bool_decide_eq_true]%find_some]. eauto.
Qed.

Lemma blocked_injected tag what context input p :
  plan_aligned p → bl_blockedTaskId input ∈ plan_ids p →
  ∃ id p', inject_for_blocked tag what context input p = (Ok (mkInjection 1 1 false [id]), p') ∧ grows [id] p p'.
Proof.
  intros Hal [t Ht]%find_flat_ids. unfold inject_for_blocked.
  pose proof Ht as [Hin Hid%bool_decide_eq_true]%find_elem.
  destruct (aligned_slice_exists p t Hal Hin) as (Hsl & ? & ? & ?).
  pose proof (proj1 (list.Forall_forall _ _) (proj1 Hal) t Hin) as Hplace. cbn in Hplace.
  assert (match_task (trim (bl_blockedTaskId input)) =
    Some (FlatTaskPlan.milestoneIndex t, FlatTaskPlan.sliceIndex t, FlatTaskPlan.taskIndex t)) as ->.
  { by rewrite <-Hid, Hplace, trim_task_id, match_task_id by lia. }
  unfold pl_bind at 1, pl_get at 1. rewrite Ht.
  match goal with |- context [appendRepairTask ?i] => destruct (appendRepairTask i p) as [r p1] eqn:E end.
  pose proof E as (id & -> & Hg & _)%append_grows; [|done|done|cbn; by rewrite nextTaskIndex_aligned].
  unfold pl_bind at 1. rewrite E. unfold pl_bind at 1.
  destruct (addDependsOnTaskRef (bl_blockedTaskId input) id p1) as [r2 p2] eqn:E2.
  pose proof (addDependsOnTaskRef_grows _ _ _ _ _ (grows_aligned _ _ _ Hg) E2) as Hg2.
  assert (r2 = Ok tt) as ->.
  { unfold addDependsOnTaskRef, pl_bind, pl_get, pl_modify, pl_throw in E2.
    destruct (find_flat p1 _) eqn:Hf; [by simplify_eq|]. exfalso.
    apply (is_Some_None (A:=FlatTaskPlan.t)). rewrite <-Hf at 1. apply find_flat_ids. unfold plan_ids.
    rewrite (grows_ids _ _ _ Hg). apply elem_of_app. left. apply find_flat_ids. by eexists. }
  exists id, p2. split; [done|]. exact (grows_trans _ _ _ _ _ Hg Hg2).
Qed.

(** ** What a continued job looks like *)

Definition item_ids (p : TaskProgress.t) : list string := map TaskProgressItem.id (TaskProgress.tasks p).

(** The progress has each task at most once, and only tasks of the plan. *)
Definition fits (plan : SavedJobPlan.t) (p : TaskProgress.t) : Prop :=
  plan_aligned plan ∧ NoDup (item_ids p) ∧ ∀ k, k ∈ item_ids p → k ∈ plan_ids plan.

Definition waiting_item (t : TaskProgressItem.t) : bool :=
  bool_decide (TaskProgressItem.executionStatus t = Some "waiting-on-repair") ||
  bool_decide (TaskProgressItem.executionStatus t = Some "waiting-on-dependency").

Record continues (failed : option string) (plan : SavedJobPlan.t) (p : TaskProgress.t)
    (plan' : SavedJobPlan.t) (p' : TaskProgress.t) : Prop := Continues {
  cont_running : TaskProgress.phase p' = "running" ∧ TaskProgress.status p' = "running" ∧
                 TaskProgress.currentTaskId p' = None;
  cont_ids : ∃ ids, item_ids p' = item_ids p ++ ids ∧ plan_ids plan' = plan_ids plan ++ ids;
  cont_fits : fits plan' p';
  cont_kept : ∀ t, t ∈ TaskProgress.tasks p → task_done t = true → Some (TaskProgressItem.id t) ≠ failed →
              t ∈ TaskProgress.tasks p';
  cont_breakpoint : ∀ t, t ∈ TaskProgress.tasks p' → Some (TaskProgressItem.id t) = failed →
                    TaskProgressItem.status t = "queued" ∨ waiting_item t = true
}.

Lemma map_item_ids k f items :
  (∀ t, TaskProgressItem.id (f t) = TaskProgressItem.id t) →
  map TaskProgressItem.id (map_item k f items) = map TaskProgressItem.id items.
Proof. intros Hf. unfold map_item. rewrite map_map. apply map_ext. intros t. by case_bool_decide. Qed.

Lemma map_item_twice k f g items :
  (∀ t, TaskProgressItem.id (f t) = TaskProgressItem.id t) →
  map_item k g (map_item k f items) = map_item k (λ t, g (f t)) items.
Proof.
  intros Hf. unfold map_item. rewrite map_map. apply map_ext. intros t.
  destruct (decide (TaskProgressItem.id t = k)) as [Hk|Hk].
  - by rewrite (bool_decide_eq_true_2 (TaskProgressItem.id t = k)), bool_decide_eq_true_2 by (rewrite ?Hf; done).
  - by rewrite !(bool_decide_eq_false_2 (TaskProgressItem.id t = k)) by done.
Qed.

Lemma elem_of_map_item k f items t :
  t ∈ map_item k f items ↔ ∃ t0, t0 ∈ items ∧ t = if bool_decide (TaskProgressItem.id t0 = k) then f t0 else t0.
Proof.
  unfold map_item. rewrite list_elem_of_In, in_map_iff. setoid_rewrite list_elem_of_In. naive_solver.
Qed.

(** A change of the one item [k] that puts it back into the queue. *)
Lemma continues_requeue k f plan p p' :
  fits plan p → TaskProgress.tasks p' = map_item k f (TaskProgress.tasks p) →
  (∀ t, TaskProgressItem.id (f t) = TaskProgressItem.id t ∧ TaskProgressItem.status (f t) = "queued") →
  TaskProgress.phase p' = "running" ∧ TaskProgress.status p' = "running" ∧ TaskProgress.currentTaskId p' = None →
  continues (Some k) plan p plan p'.
Proof.
  intros (Hal & Hnd & Hin) Ht Hf Hrun.
  assert (item_ids p' = item_ids p) as Hids.
  { unfold item_ids. rewrite Ht. apply map_item_ids. intros t. apply Hf. }
  split; [done|exists []; by rewrite !app_nil_r|by unfold fits; rewrite Hids| |].
  - intros t Hp _ Hne. rewrite Ht. apply elem_of_map_item. exists t. split; [done|].
    rewrite bool_decide_eq_false_2; [done|]. congruence.
  - rewrite Ht. intros t (t0 & _ & ->)%elem_of_map_item [= Hk]. left. case_bool_decide as H; [apply Hf|].
    by destruct H.
Qed.

Lemma continues_resume failed plan p params :
  fits plan p →
  (∀ t, t ∈ TaskProgress.tasks p → Some (TaskProgressItem.id t) = failed → waiting_item t = true) →
  continues failed plan p plan (resume_progress params p).
Proof.
  intros (Hal & Hnd & Hin) Hw.
  assert (TaskProgress.tasks (resume_progress params p) = map reset_running_item (TaskProgress.tasks p)) as Ht
    by reflexivity.
  assert (∀ t, TaskProgressItem.id (reset_running_item t) = TaskProgressItem.id t) as Hid.
  { intros t. unfold reset_running_item. by case_bool_decide. }
  assert (item_ids (resume_progress params p) = item_ids p) as Hids.
  { unfold item_ids. rewrite Ht, map_map. by apply map_ext. }
  split; [done|exists []; by rewrite !app_nil_r|by unfold fits; rewrite Hids| |].
  - intros t Hp Hd _. rewrite Ht. apply list_elem_of_In, in_map_iff. exists t.
    split; [|by apply list_elem_of_In]. unfold reset_running_item. rewrite bool_decide_eq_false_2; [done|].
    intros Hr. unfold task_done in Hd. by rewrite Hr in Hd.
  - rewrite Ht. intros t (t0 & <- & Ht0%list_elem_of_In)%list_elem_of_In%in_map_iff Hk. rewrite Hid in Hk.
    unfold reset_running_item. case_bool_decide; [by left|]. right. by apply Hw.
Qed.

Lemma append_queued_one plan items id flat :
  findFlatTask plan id = Some flat → id ∉ map TaskProgressItem.id items →
  ∃ item, appendQueuedRepairItems plan items [id] = items ++ [item] ∧
    TaskProgressItem.id item = id ∧ TaskProgressItem.status item = "queued".
Proof.
  intros Hf Hid. unfold appendQueuedRepairItems. cbn. rewrite Hf.
  destruct (existsb _ _) eqn:E.
  - exfalso. apply existsb_exists in E as (t & Ht & <-%bool_decide_eq_true). apply Hid.
    apply list_elem_of_In, in_map_iff. eauto.
  - eexists. split; [done|]. split; [|done]. cbn. unfold findFlatTask in Hf.
    by apply find_elem in Hf as [_ ?%bool_decide_eq_true].
Qed.

Lemma continues_injection code inject apply f plan p k packet recovery attempt mx :
  fits plan p → k ∈ plan_ids plan →
  (∃ id plan', inject k packet attempt plan = (Ok [id], plan') ∧ grows [id] plan plan') →
  (∀ items, apply items k packet (ra_classification recovery) attempt mx = map_item k f items) →
  (∀ t, TaskProgressItem.id (f t) = TaskProgressItem.id t ∧ TaskProgressItem.status (f t) = "queued") →
  ∃ plan' p', continue_with_injection code inject apply plan p k packet recovery attempt mx = Ok (plan', p') ∧
    continues (Some k) plan p plan' p'.
Proof.
  intros (Hal & Hnd & Hin) Hk (id & plan' & Hinj & Hg) Happly Hf.
  unfold continue_with_injection. rewrite Hinj, Happly. eexists _, _. split; [done|].
  pose proof (grows_ids _ _ _ Hg) as Hids. pose proof (aligned_ids_unique _ (grows_aligned _ _ _ Hg)) as Hu.
  fold (plan_ids plan) (plan_ids plan') in Hids. fold (plan_ids plan') in Hu.
  assert (id ∉ plan_ids plan) as Hfresh.
  { rewrite Hids in Hu. apply list.NoDup_app in Hu as (_ & Hd & _). intros Hx. apply (Hd id Hx). left. }
  assert (id ∈ plan_ids plan') as [flat Hflat]%find_flat_ids.
  { rewrite Hids. apply elem_of_app. right. left. }
  destruct (append_queued_one plan' (TaskProgress.tasks p) id flat Hflat) as (item & Happ & Hitem & Hst).
  { intros Hx. by apply Hfresh, Hin. }
  rewrite Happ. set (p' := running_with _ _ _ _).
  assert (TaskProgress.tasks p' = map_item k f (TaskProgress.tasks p ++ [item])) as Ht.
  { unfold p', applyTaskRecoveryGenerationForTask. by destruct (ra_step recovery). }
  assert (item_ids p' = item_ids p ++ [id]) as Hip.
  { unfold item_ids. rewrite Ht, map_item_ids by (intros t; apply Hf). rewrite map_app. cbn. by rewrite Hitem. }
  split; [by unfold p', applyTaskRecoveryGenerationForTask; destruct (ra_step recovery)|by exists [id]| | |].
  - split_and!; [apply Hg|rewrite Hip|rewrite Hip, Hids].
    + apply list.NoDup_app. split_and!; [done| |apply list.NoDup_singleton].
      intros x Hx ->%list_elem_of_singleton. by apply Hfresh, Hin.
    + intros x [Hx| ->%list_elem_of_singleton]%elem_of_app; apply elem_of_app; [left; auto|right; left].
  - intros t Hp _ Hne. rewrite Ht. apply elem_of_map_item. exists t. split; [apply elem_of_app; by left|].
    rewrite bool_decide_eq_false_2; [done|]. congruence.
  - rewrite Ht. intros t (t0 & _ & ->)%elem_of_map_item [= Hx]. left. case_bool_decide as H; [apply Hf|].
    by destruct H.
Qed.

(** ** The branches *)

(** The task a continued job starts again from, unless a verification failed. *)
Definition breakpoint (job : RecoveryJob.t) : option string :=
  if isGateFailureProgressCode (TaskProgress.progressCode (RecoveryJob.taskProgress job)) then None
  else let f := rc_failedTaskId (rs_recovery (deriveJobRecoveryState job)) in if truthy f then f else None.

Lemma continues_manual plan p k :
  fits plan p → let '(plan', p') := prepareManualTaskRetry plan p k in continues (Some k) plan p plan' p'.
Proof.
  intros Hfit. by apply (continues_requeue k (TaskProgressItem.set_outcome "queued" (Some "queued") None None None None)).
Qed.

Lemma continues_gate plan p gateId :
  fits plan p → continues None plan p plan (resetGateVerificationInProgress p gateId).
Proof.
  intros Hfit. split; [done|exists []; by rewrite !app_nil_r|done|done|done].
Qed.

Definition needs_human (t : TaskProgressItem.t) : Prop :=
  isHumanBlockedTask t = false ∧
  Classification.kind (classifyTaskOutcome (syntheticPacket t)) = TaskBlockerKind.dependency_human.

Lemma recovery_human packet k p :
  ra_step (resolveTaskRecoveryAction packet k p) = PauseHuman →
  Classification.kind (classifyTaskOutcome packet) = TaskBlockerKind.dependency_human.
Proof.
  unfold resolveTaskRecoveryAction, resolveInfraRetry.
  destruct (Classification.kind _); repeat case_bool_decide; done.
Qed.

Lemma fits_same_items plan p p' :
  TaskProgress.tasks p' = TaskProgress.tasks p → fits plan p → fits plan p'.
Proof. intros Ht. unfold fits, item_ids. by rewrite Ht. Qed.

Lemma continues_same_items failed plan p p0 plan' p' :
  TaskProgress.tasks p0 = TaskProgress.tasks p → continues failed plan p0 plan' p' → continues failed plan p plan' p'.
Proof.
  intros Ht [H1 H2 H3 H4 H5]. split; try done; [unfold item_ids in *; by rewrite <-Ht|by rewrite <-Ht].
Qed.

Lemma continues_recovery plan p t :
  fits plan p → t ∈ TaskProgress.tasks p → isHumanBlockedTask t = false →
  match continue_by_recovery plan p t with
  | Ok (plan', p') => continues (Some (TaskProgressItem.id t)) plan p plan' p'
  | Err _ => needs_human t
  end.
Proof.
  intros Hfit0 Ht Hh. unfold continue_by_recovery.
  set (k := TaskProgressItem.id t). set (p1 := resetTaskRecoveryCounters k ALL_SCOPES p).
  assert (fits plan p1) as Hfit by (by eapply fits_same_items).
  assert (k ∈ plan_ids plan) as Hk.
  { apply Hfit0. apply list_elem_of_In, in_map_iff. exists t. by rewrite <-list_elem_of_In. }
  assert (plan_aligned plan) as Hal by apply Hfit.
  destruct (ra_step (resolveTaskRecoveryAction (syntheticPacket t) k p1)) as [a mx d|a mx|a mx| |] eqn:Hstep.
  - eapply (continues_same_items _ _ _ p1); [done|].
    by eapply continues_requeue; [exact Hfit|reflexivity|..].
  - match goal with |- context [continue_with_injection ?c ?i ?f plan ?q k ?pk ?r a mx] =>
      edestruct (continues_injection c i f) with (plan := plan) (p := q) (k := k) (packet := pk) (recovery := r)
        (attempt := a) (mx := mx) as (plan' & p' & -> & Hc) end;
      [exact Hfit|exact Hk| |intros items; reflexivity|done|by apply (continues_same_items _ _ _ p1)].
    unfold injectPrepTasksForRecovery, pl_bind, injectTaskDependencyPrepTask.
    edestruct blocked_injected as (id & q & -> & Hg); [exact Hal| |by exists id, q]. done.
  - match goal with |- context [continue_with_injection ?c ?i ?f plan ?q k ?pk ?r a mx] =>
      edestruct (continues_injection c i f) with (plan := plan) (p := q) (k := k) (packet := pk) (recovery := r)
        (attempt := a) (mx := mx) as (plan' & p' & -> & Hc) end;
      [exact Hfit|exact Hk| |intros items; reflexivity|done|by apply (continues_same_items _ _ _ p1)].
    unfold injectRepairTasksForRecovery, pl_bind, injectTaskImplementationRepairTask.
    edestruct blocked_injected as (id & q & -> & Hg); [exact Hal| |by exists id, q]. done.
  - split; [done|]. by eapply recovery_human.
  - pose proof (continues_manual plan p1 k Hfit) as Hm.
    destruct (prepareManualTaskRetry plan p1 k). by apply (continues_same_items _ _ _ p1).
Qed.

(** The failed task of the derived state is one of the tasks. *)
Lemma failed_task_found job k :
  isGateFailureProgressCode (TaskProgress.progressCode (RecoveryJob.taskProgress job)) = false →
  rc_failedTaskId (rs_recovery (deriveJobRecoveryState job)) = Some k →
  List.find (λ i, bool_decide (TaskProgressItem.id i = k)) (TaskProgress.tasks (RecoveryJob.taskProgress job)) ≠ None.
Proof.
  intros Hg. cbn. unfold isGateFailureRecoverable. rewrite Hg. cbn.
  set (l := TaskProgress.tasks _). intros Hk Hf.
  assert (∃ t, t ∈ l ∧ TaskProgressItem.id t = k) as (t & Ht & <-).
  { unfold findPrimaryRecoverableTask in Hk. unfold first_some in Hk.
    destruct (List.find (isRecoverableTask _) l) as [t|] eqn:E.
    - cbn in Hk. simplify_eq. apply find_elem in E as [? _]. eauto.
    - cbn in Hk. destruct (List.find isHumanBlockedTask l) as [t|] eqn:E2; cbn in Hk; simplify_eq.
      apply find_elem in E2 as [? _]. eauto. }
  pose proof (proj1 (find_none_elem _ _) Hf t Ht) as Hn. cbn in Hn. by rewrite bool_decide_eq_true_2 in Hn.
Qed.

(** C20: Continuing a failed job keeps its work: the progress it goes on with runs, keeps every
    task item and appends the same new tasks to items and plan, keeps the items of completed
    tasks, and the failed task is queued again or waits for an injected one; it is refused only
    when a gate failure names no gate or the task needs a human. *)
Theorem continue_from_breakpoint job plan :
  fits plan (RecoveryJob.taskProgress job) →
  match prepareContinueFailedExecution job plan with
  | Ok (plan', p') => continues (breakpoint job) plan (RecoveryJob.taskProgress job) plan' p'
  | Err _ =>
      isGateFailureProgressCode (TaskProgress.progressCode (RecoveryJob.taskProgress job)) = true ∧
        readGateFailureId job = None ∨
      ∃ t, t ∈ TaskProgress.tasks (RecoveryJob.taskProgress job) ∧
        Some (TaskProgressItem.id t) = breakpoint job ∧ needs_human t
  end.
Proof.
  set (p := RecoveryJob.taskProgress job). intros Hfit. unfold prepareContinueFailedExecution, breakpoint. fold p.
  destruct (isGateFailureProgressCode _) eqn:Hg.
  { unfold prepareGateContinueExecution. destruct (readGateFailureId job); [by apply continues_gate|by left]. }
  set (st := deriveJobRecoveryState job). pose proof (failed_task_found job) as Hfound. fold st p in Hfound.
  cbv zeta. destruct (truthy (rc_failedTaskId (rs_recovery st))) eqn:Htr; cbn [negb andb].
  2: { case_bool_decide; by apply continues_resume. }
  destruct (rc_failedTaskId (rs_recovery st)) as [k|] eqn:Hk; [|done]. specialize (Hfound k Hg eq_refl).
  change (default "" (Some k)) with k.
  destruct (List.find _ _) as [t|] eqn:Hf; [clear Hfound|done].
  apply find_elem in Hf as [Ht Hid%bool_decide_eq_true].
  destruct (_ || _) eqn:Hw.
  { apply continues_resume; [done|]. intros t' Ht' [= Hid']. replace t' with t; [done|].
    apply (unique_key TaskProgressItem.id (TaskProgress.tasks p)); [apply Hfit|done|done|congruence]. }
  pose proof (continues_manual plan p k Hfit) as Hm.
  destruct (_ || isHumanBlockedTask t) eqn:Hh; [by destruct (prepareManualTaskRetry plan p k)|].
  apply orb_false_iff in Hh as [_ Hh].
  destruct (isExecutionFailureRetryable t); [by destruct (prepareManualTaskRetry plan p k)|].
  destruct (_ && looks_infra t).
  { unfold continue_infra_retry, resetTaskItemForManualRetry.
    eapply (continues_requeue k (λ i, set_retry_queued (TaskProgressItem.set_outcome "queued" (Some "queued") None None None None i)));
      [done| |done|done].
    apply map_item_twice. done. }
  subst k. pose proof (continues_recovery plan p t Hfit Ht Hh) as Hc.
  destruct (continue_by_recovery plan p t) as [[plan' p']|e]; [done|]. right. by exists t.
Qed.
