(* ===== verification/Act.v ===== *)
(** * Asynchronous code that can fail or be cut off

    The monad of the code that awaits other components: a computation changes
    the state, then returns, throws, or is cut off because the process died.
    What it changed before stays, unlike in a transaction; [act_catch] sees a
    throw but not the death of the process. *)
From S2P Require Import Prelude.

Module Failure.
Record t := mk { message : string; code : option string }.

#[global] Instance eq_dec : EqDecision t.
Proof. solve_decision. Defined.
End Failure.

(** [new Error(message)] *)
Definition plain_error (message : string) : Failure.t := Failure.mk message None.

Inductive outcome (A : Type) :=
| Returned (a : A)
| Raised (e : Failure.t)
| Died.
Arguments Returned {A} _.
Arguments Raised {A} _.
Arguments Died {A}.

Definition actM (S A : Type) : Type := S → outcome A * S.

Definition act_ret {S A} (a : A) : actM S A := λ s, (Returned a, s).
Definition act_raise {S A} (e : Failure.t) : actM S A := λ s, (Raised e, s).
Definition act_bind {S A B} (m : actM S A) (k : A → actM S B) : actM S B :=
  λ s, match m s with
       | (Returned a, s') => k a s'
       | (Raised e, s') => (Raised e, s')
       | (Died, s') => (Died, s')
       end.
Definition act_gets {S A} (f : S → A) : actM S A := λ s, (Returned (f s), s).
Definition act_modify {S} (f : S → S) : actM S unit := λ s, (Returned tt, f s).

(** [try { m } catch (error) { h(error) }] *)
Definition act_catch {S A} (m : actM S A) (h : Failure.t → actM S A) : actM S A :=
  λ s, match m s with
       | (Raised e, s') => h e s'
       | r => r
       end.

Declare Scope act_scope.
Delimit Scope act_scope with act.
Notation "'let~' x := m 'in' k" := (act_bind m (λ x, k))
  (at level 10, x name, m at level 100, k at level 200,
   format "'[v' 'let~'  x  :=  m  'in' '/' k ']'") : act_scope.
Notation "'do~' m 'in' k" := (act_bind m (λ _, k))
  (at level 10, m at level 100, k at level 200,
   format "'[v' 'do~'  m  'in' '/' k ']'") : act_scope.
Local Open Scope act_scope.

(** [if (b) m] *)
Definition act_when {S} (b : bool) (m : actM S unit) : actM S unit := if b then m else act_ret tt.

(** [m.catch(() => {})] *)
Definition act_ignore {S A} (m : actM S A) : actM S unit :=
  act_catch (do~ m in act_ret tt) (λ _, act_ret tt).

(** [for (const x of xs) await body(x)] *)
Fixpoint act_for {S A} (xs : list A) (body : A → actM S unit) : actM S unit :=
  match xs with
  | [] => act_ret tt
  | x :: xs' => do~ body x in act_for xs' body
  end.

(** ** What every computation does to the state *)

Section keeps.
Context {S : Type} (R : S → S → Prop) `{!PreOrder R}.

(** However it ends, the state is related to the one before. *)
Definition keeps {A} (m : actM S A) : Prop := ∀ s, R s (m s).2.

Lemma keeps_ret {A} (a : A) : keeps (act_ret a).
Proof. intros s. cbn. reflexivity. Qed.

Lemma keeps_raise {A} e : keeps (A:=A) (act_raise e).
Proof. intros s. cbn. reflexivity. Qed.

Lemma keeps_gets {A} (f : S → A) : keeps (act_gets f).
Proof. intros s. cbn. reflexivity. Qed.

Lemma keeps_modify f : (∀ s, R s (f s)) → keeps (act_modify f).
Proof. intros Hf s. apply Hf. Qed.

Lemma keeps_bind {A B} (m : actM S A) (k : A → actM S B) :
  keeps m → (∀ a, keeps (k a)) → keeps (act_bind m k).
Proof.
  intros Hm Hk s. unfold act_bind. specialize (Hm s).
  destruct (m s) as [[a|e|] s1]; [|exact Hm..]. etrans; [exact Hm|apply Hk].
Qed.

Lemma keeps_catch {A} (m : actM S A) h : keeps m → (∀ e, keeps (h e)) → keeps (act_catch m h).
Proof.
  intros Hm Hh s. unfold act_catch. specialize (Hm s).
  destruct (m s) as [[a|e|] s1]; [exact Hm| |exact Hm]. etrans; [exact Hm|apply Hh].
Qed.

Lemma keeps_when b m : keeps m → keeps (act_when b m).
Proof. destruct b; [done|]. intros _. apply keeps_ret. Qed.

Lemma keeps_ignore {A} (m : actM S A) : keeps m → keeps (act_ignore m).
Proof. intros Hm. apply keeps_catch; [apply keeps_bind; [done|]|]; intros ?; apply keeps_ret. Qed.

Lemma keeps_for {A} (xs : list A) body : (∀ x, x ∈ xs → keeps (body x)) → keeps (act_for xs body).
Proof.
  induction xs as [|x xs IH]; intros Hb; cbn; [apply keeps_ret|]. apply keeps_bind; [apply Hb; left|].
  intros _. apply IH. intros y Hy. apply Hb. by right.
Qed.
End keeps.

Create HintDb act_db.
#[export] Hint Resolve keeps_ret keeps_raise keeps_gets keeps_ignore keeps_when : act_db.

(** ** Running a computation that returns *)

Lemma act_bind_run {S A B} (m : actM S A) (k : A → actM S B) s a s1 :
  m s = (Returned a, s1) → act_bind m k s = k a s1.
Proof. unfold act_bind. by intros ->. Qed.

Lemma act_ignore_run {S A} (m : actM S A) s a s1 : m s = (Returned a, s1) → act_ignore m s = (Returned tt, s1).
Proof. unfold act_ignore, act_catch, act_bind. by intros ->. Qed.

Lemma act_ignore_raise {S A} (m : actM S A) s e s1 : m s = (Raised e, s1) → act_ignore m s = (Returned tt, s1).
Proof. unfold act_ignore, act_catch, act_bind. by intros ->. Qed.

Lemma act_bind_returned {S A B} (m : actM S A) (k : A → actM S B) s b s2 :
  act_bind m k s = (Returned b, s2) ↔ ∃ a s1, m s = (Returned a, s1) ∧ k a s1 = (Returned b, s2).
Proof. unfold act_bind. destruct (m s) as [[a|e|] s1]; naive_solver. Qed.

(** ** Triples

    [triple P m Q E]: from a state in [P], a result is in [Q]; when the
    computation throws or dies, the state it leaves is in [E]. *)
Definition triple {S A} (P : S → Prop) (m : actM S A) (Q : A → S → Prop) (E : S → Prop) : Prop :=
  ∀ s, P s → match m s with
             | (Returned a, s') => Q a s'
             | (_, s') => E s'
             end.

Section triples.
Context {S : Type}.
Implicit Types (P E : S → Prop).

Lemma triple_ret {A} P (a : A) E : triple P (act_ret a) (λ b s, b = a ∧ P s) E.
Proof. intros s Hs. done. Qed.

Lemma triple_raise {A} P e (Q : A → S → Prop) E : (∀ s, P s → E s) → triple P (act_raise e) Q E.
Proof. intros HE s Hs. by apply HE. Qed.

Lemma triple_gets {A} P (f : S → A) E : triple P (act_gets f) (λ a s, a = f s ∧ P s) E.
Proof. intros s Hs. done. Qed.

Lemma triple_bind {A B} P (m : actM S A) (k : A → actM S B) (M : A → S → Prop) Q E :
  triple P m M E → (∀ a, triple (M a) (k a) Q E) → triple P (act_bind m k) Q E.
Proof.
  intros Hm Hk s Hs. specialize (Hm s Hs). unfold act_bind.
  destruct (m s) as [[a|e|] s1]; [|exact Hm..]. by apply Hk.
Qed.

Lemma triple_catch {A} P (m : actM S A) h Q E :
  triple P m Q E → (∀ e, triple E (h e) Q E) → triple P (act_catch m h) Q E.
Proof.
  intros Hm Hh s Hs. specialize (Hm s Hs). unfold act_catch.
  destruct (m s) as [[a|e|] s1]; [exact Hm| |exact Hm]. by apply Hh.
Qed.

Lemma triple_when b P m (Q : S → Prop) E :
  (b = true → triple P m (λ _, Q) E) → (b = false → ∀ s, P s → Q s) → triple P (act_when b m) (λ _, Q) E.
Proof. destruct b; intros H1 H2; [by apply H1|]. intros s Hs. by apply H2. Qed.

Lemma triple_for {A} (xs : list A) body (I : list A → S → Prop) E :
  (∀ x xs, triple (I (x :: xs)) (body x) (λ _, I xs) E) →
  triple (I xs) (act_for xs body) (λ _, I []) E.
Proof.
  intros Hb. induction xs as [|x xs IH]; cbn; [by intros s|].
  eapply triple_bind; [apply Hb|]. intros ?. exact IH.
Qed.

Lemma triple_weaken {A} P P' (m : actM S A) (Q Q' : A → S → Prop) E E' :
  triple P' m Q' E' → (∀ s, P s → P' s) → (∀ a s, Q' a s → Q a s) → (∀ s, E' s → E s) → triple P m Q E.
Proof.
  intros Hm HP HQ HE s Hs. specialize (Hm s (HP s Hs)). destruct (m s) as [[a|e|] s1]; auto.
Qed.

(** What holds however it ends, from a relation that is kept. *)
Lemma triple_keeps {A} (R : S → S → Prop) P (m : actM S A) :
  keeps R m → (∀ s s', R s s' → P s → P s') → triple P m (λ _, P) P.
Proof.
  intros Hk HR s Hs. specialize (Hk s). destruct (m s) as [[a|e|] s1]; by apply (HR _ _ Hk).
Qed.
End triples.
