(* ===== verification/Registries.v ===== *)
(** * The registries of the process

    Models [src/server/context/job-execution-runtime.ts] (the execution loops
    and their control) and [src/server/context/runtime-registry.ts] (threads
    with a turn in flight, jobs being planned).  A JS [Set] is a list in
    insertion order, a [Map] a finite map, except where its order is read. *)
From S2P Require Import Prelude.

#[local] Arguments bool_decide : simpl never.

(** [set.add] and [set.delete] *)
Definition set_add (x : string) (s : list string) : list string :=
  if bool_decide (x ∈ s) then s else s ++ [x].
Definition set_delete (x : string) (s : list string) : list string :=
  List.filter (λ y, negb (bool_decide (y = x))) s.

Lemma elem_of_set_delete x y s : y ∈ set_delete x s ↔ y ∈ s ∧ y ≠ x.
Proof.
  unfold set_delete. rewrite !list_elem_of_In, filter_In. by rewrite negb_true_iff, bool_decide_eq_false.
Qed.

Lemma set_delete_sublist x s : sublist (set_delete x s) s.
Proof.
  induction s as [|y s IH]; [done|]. cbn. destruct (negb _); [by apply sublist_skip|by apply sublist_cons].
Qed.

(** The first element that is not [except]: the [for] loops of the [find..]
    methods.  An empty [except] excludes nothing. *)
Definition first_except (except : option string) (s : list string) : option string :=
  List.find (λ x, negb (match except with
                        | Some e => negb (bool_decide (e = "")) && bool_decide (x = e)
                        | None => false
                        end)) s.

(** ** Execution loops *)

Module JobControlState.
Inductive t := running | paused | cancelling.

#[global] Instance eq_dec : EqDecision t.
Proof. solve_decision. Defined.
End JobControlState.

(** The abort controller is whether there is one and whether it was aborted. *)
Module JobExecutionRuntime.
Record t := mk {
  username : option string;
  control : JobControlState.t;
  abortController : option bool
}.

Definition set_username (u : string) (r : t) : t := mk (Some u) (control r) (abortController r).
Definition set_control (c : JobControlState.t) (r : t) : t := mk (username r) c (abortController r).
Definition set_abort (a : option bool) (r : t) : t := mk (username r) (control r) a.
Definition fresh : t := mk None JobControlState.running None.
End JobExecutionRuntime.

Module Loops.
Record t := mk {
  runtimes : gmap string JobExecutionRuntime.t;
  activeLoops : list string
}.

Definition empty : t := mk ∅ [].
Definition set_runtimes (m : gmap string JobExecutionRuntime.t) (g : t) : t := mk m (activeLoops g).
Definition set_loops (l : list string) (g : t) : t := mk (runtimes g) l.

Definition isLoopActive (jobId : string) (g : t) : bool := bool_decide (jobId ∈ activeLoops g).

Definition findActiveLoopJobIdForUser (username : string) (except : option string) (g : t) : option string :=
  List.find (λ j, negb (match except with
                        | Some e => negb (bool_decide (e = "")) && bool_decide (j = e)
                        | None => false
                        end) &&
                  bool_decide (runtimes g !! j ≫= JobExecutionRuntime.username = Some username))
    (activeLoops g).

Definition findActiveLoopJobId (except : option string) (g : t) : option string :=
  first_except except (activeLoops g).

Definition ensureRuntime (jobId : string) (g : t) : t :=
  match runtimes g !! jobId with
  | Some _ => g
  | None => set_runtimes (<[jobId := JobExecutionRuntime.fresh]> (runtimes g)) g
  end.

(** A change of the runtime that [ensureRuntime] returns. *)
Definition with_runtime (jobId : string) (f : JobExecutionRuntime.t → JobExecutionRuntime.t) (g : t) : t :=
  let g' := ensureRuntime jobId g in set_runtimes (alter f jobId (runtimes g')) g'.

Definition add_loop (jobId : string) (username : option string) (g : t) : t :=
  with_runtime jobId (λ r,
    let r := JobExecutionRuntime.set_control JobControlState.running r in
    match username with
    | Some u => if bool_decide (u = "") then r else JobExecutionRuntime.set_username u r
    | None => r
    end) (set_loops (set_add jobId (activeLoops g)) g).

Definition tryStartLoop (jobId : string) (username : option string) (g : t) : bool * t :=
  if bool_decide (jobId ∈ activeLoops g) then (false, g)
  else match findActiveLoopJobId (Some jobId) g with
       | Some occupying =>
           if bool_decide (occupying = "") then (true, add_loop jobId username g) else (false, g)
       | None => (true, add_loop jobId username g)
       end.

Definition endLoop (jobId : string) (g : t) : option string * t :=
  let g' := set_loops (set_delete jobId (activeLoops g)) g in
  match runtimes g' !! jobId with
  | Some r =>
      (JobExecutionRuntime.username r,
       if bool_decide (JobExecutionRuntime.control r = JobControlState.paused) then g'
       else set_runtimes (delete jobId (runtimes g')) g')
  | None => (None, g')
  end.

Definition attachAbortController (jobId : string) (g : t) : t :=
  with_runtime jobId (JobExecutionRuntime.set_abort (Some false)) g.

Definition clearAbortController (jobId : string) (g : t) : t :=
  set_runtimes (alter (JobExecutionRuntime.set_abort None) jobId (runtimes g)) g.

(** [abortController?.abort(reason)] *)
Definition abort_runtime (r : JobExecutionRuntime.t) : JobExecutionRuntime.t :=
  match JobExecutionRuntime.abortController r with
  | Some _ => JobExecutionRuntime.set_abort (Some true) r
  | None => r
  end.

Definition abortActiveTurn (jobId : string) (g : t) : t :=
  set_runtimes (alter abort_runtime jobId (runtimes g)) g.

Definition resumeExecution (jobId : string) (g : t) : t :=
  with_runtime jobId (λ r, JobExecutionRuntime.set_abort None
                             (JobExecutionRuntime.set_control JobControlState.running r)) g.

Inductive stop_reason := StopPause | StopCancel.

Definition shouldStopExecution (jobId : string) (g : t) : option stop_reason :=
  r ← runtimes g !! jobId;
  match JobExecutionRuntime.control r with
  | JobControlState.cancelling => Some StopCancel
  | JobControlState.paused => Some StopPause
  | JobControlState.running => None
  end.

Definition setControl (jobId : string) (c : JobControlState.t) (g : t) : t :=
  with_runtime jobId (JobExecutionRuntime.set_control c) g.

Definition dropRuntime (jobId : string) (g : t) : t :=
  mk (delete jobId (runtimes g)) (set_delete jobId (activeLoops g)).

(** The aborted controllers are dropped with their runtimes. *)
Definition dropAll (g : t) : t := empty.

(** The calls of the registry that change it. *)
Inductive op :=
| TryStart (jobId : string) (username : option string)
| End (jobId : string)
| Attach (jobId : string)
| ClearAbort (jobId : string)
| Abort (jobId : string)
| Resume (jobId : string)
| SetControl (jobId : string) (c : JobControlState.t)
| Drop (jobId : string)
| DropAll.

Definition run_op (o : op) (g : t) : t :=
  match o with
  | TryStart j u => (tryStartLoop j u g).2
  | End j => (endLoop j g).2
  | Attach j => attachAbortController j g
  | ClearAbort j => clearAbortController j g
  | Abort j => abortActiveTurn j g
  | Resume j => resumeExecution j g
  | SetControl j c => setControl j c g
  | Drop j => dropRuntime j g
  | DropAll => dropAll g
  end.

Definition started (o : op) : option string :=
  match o with TryStart j _ => Some j | _ => None end.

Lemma with_runtime_loops jobId f g : activeLoops (with_runtime jobId f g) = activeLoops g.
Proof. unfold with_runtime, ensureRuntime. by destruct (runtimes g !! jobId). Qed.

Lemma with_runtime_control jobId f g :
  runtimes (with_runtime jobId f g) !! jobId =
  Some (f (default JobExecutionRuntime.fresh (runtimes g !! jobId))).
Proof.
  unfold with_runtime, ensureRuntime. destruct (runtimes g !! jobId) eqn:E; cbn.
  - by rewrite lookup_alter_eq, E.
  - by rewrite lookup_alter_eq, lookup_insert_eq.
Qed.

(** An operation only ends loops, except a start. *)
Lemma op_loops o g :
  sublist (activeLoops (run_op o g)) (activeLoops g) ∨
  ∃ j u, o = TryStart j u ∧ activeLoops (run_op o g) = activeLoops g ++ [j] ∧ tryStartLoop j u g = (true, run_op o g).
Proof.
  destruct o as [j u|j|j|j|j|j|j c|j|]; cbn [run_op]; unfold attachAbortController, resumeExecution, setControl;
    rewrite ?with_runtime_loops; try (by left); [|left..].
  - destruct (tryStartLoop j u g) as [b g'] eqn:E. cbn.
    assert (g' = g ∨ b = true ∧ g' = add_loop j u g ∧ j ∉ activeLoops g) as [-> | (-> & -> & Hin)]; [|by left|].
    { unfold tryStartLoop in E. case_bool_decide; [by simplify_eq; left|].
      destruct (findActiveLoopJobId _ g); [case_bool_decide|]; simplify_eq; auto. }
    right. exists j, u. split_and!; [done| |done]. unfold add_loop. rewrite with_runtime_loops. cbn.
    unfold set_add. by rewrite bool_decide_eq_false_2.
  - unfold endLoop. destruct (runtimes _ !! j); cbn; [case_bool_decide|]; apply set_delete_sublist.
  - apply set_delete_sublist.
  - apply sublist_nil_l.
Qed.

(** A start succeeds only when no loop of a named job runs. *)
Lemma start_needs_idle j u g g' :
  tryStartLoop j u g = (true, g') → Forall (λ x, x ≠ "") (activeLoops g) → activeLoops g = [].
Proof.
  unfold tryStartLoop. case_bool_decide as Hin; [done|].
  destruct (findActiveLoopJobId _ g) as [occ|] eqn:E.
  - case_bool_decide as He; [|done]. intros _ Hall. exfalso.
    unfold findActiveLoopJobId, first_except in E. apply find_some in E as [Hocc _].
    rewrite List.Forall_forall in Hall. by apply (Hall occ).
  - intros _ _. destruct (activeLoops g) as [|x l] eqn:Hl; [done|]. exfalso.
    unfold findActiveLoopJobId, first_except in E. rewrite Hl in E.
    pose proof (find_none _ _ E x (or_introl eq_refl)) as Hx. cbn in Hx.
    apply negb_false_iff, andb_true_iff in Hx as [_ ->%bool_decide_eq_true]. apply Hin. left.
Qed.

(** The process runs at most one execution loop: after any sequence of calls of the
    registry of execution runtimes, when no loop is started for an empty job id, at most one
    loop is active. *)
Theorem one_loop_at_most (ops : list op) :
  Forall (λ o, started o ≠ Some "") ops →
  length (activeLoops (fold_left (λ g o, run_op o g) ops empty)) ≤ 1.
Proof.
  intros Hops.
  enough (∀ g, length (activeLoops g) ≤ 1 → Forall (λ x, x ≠ "") (activeLoops g) →
    length (activeLoops (fold_left (λ g o, run_op o g) ops g)) ≤ 1) as H by (apply H; cbn; [lia|constructor]).
  induction Hops as [|o ops Ho _ IH]; intros g Hlen Hall; cbn; [done|]. apply IH.
  - destruct (op_loops o g) as [Hs|(j & u & -> & -> & Hst)].
    + apply sublist_length in Hs. lia.
    + rewrite (start_needs_idle _ _ _ _ Hst Hall). cbn. lia.
  - destruct (op_loops o g) as [Hs|(j & u & -> & -> & _)].
    + rewrite !List.Forall_forall in *. intros x Hx. apply Hall. rewrite <-list_elem_of_In in *.
      by eapply elem_of_sublist.
    + apply Forall_app. split; [done|]. constructor; [|constructor]. intros ->. by apply Ho.
Qed.
End Loops.

(** ** Turns in flight and planning *)

Module RuntimeRegistry.
Record t := mk {
  inflightThreads : list string;
  inflightThreadOwners : gmap string string;
  planningJobs : list string;
  planningOwners : gmap string string;
  planningRunIds : gmap string string;
  planningControl : gmap string bool
}.

Definition empty : t := mk [] ∅ [] ∅ ∅ ∅.

Definition set_planning (jobs : list string) (owners runIds : gmap string string)
    (control : gmap string bool) (g : t) : t :=
  mk (inflightThreads g) (inflightThreadOwners g) jobs owners runIds control.

Definition set_inflight (threads : list string) (owners : gmap string string) (g : t) : t :=
  mk threads owners (planningJobs g) (planningOwners g) (planningRunIds g) (planningControl g).

(** [if (value) map.set(key, value)] *)
Definition set_given (key : string) (value : option string) (m : gmap string string) : gmap string string :=
  match value with
  | Some v => if bool_decide (v = "") then m else <[key := v]> m
  | None => m
  end.

Definition isThreadInflight (threadId : string) (g : t) : bool := bool_decide (threadId ∈ inflightThreads g).
Definition hasInflightThreads (g : t) : bool := negb (bool_decide (inflightThreads g = [])).

Definition addInflightThread (threadId : string) (username : option string) (g : t) : t :=
  set_inflight (set_add threadId (inflightThreads g)) (set_given threadId username (inflightThreadOwners g)) g.

Definition removeInflightThread (threadId : string) (g : t) : t :=
  set_inflight (set_delete threadId (inflightThreads g)) (delete threadId (inflightThreadOwners g)) g.

Definition countInflightForUser (username : string) (g : t) : nat :=
  size (filter (λ kv, kv.2 = username) (inflightThreadOwners g)).

Definition isJobPlanning (jobId : string) (g : t) : bool := bool_decide (jobId ∈ planningJobs g).
Definition hasInflightPlanning (g : t) : bool := negb (bool_decide (planningJobs g = [])).

Definition findActivePlanningId (except : option string) (g : t) : option string :=
  first_except except (planningJobs g).

Definition findActivePlanningIdForUser (username : string) (except : option string) (g : t) : option string :=
  List.find (λ j, negb (match except with
                        | Some e => negb (bool_decide (e = "")) && bool_decide (j = e)
                        | None => false
                        end) && bool_decide (planningOwners g !! j = Some username)) (planningJobs g).

Definition tryStartJobPlanning (jobId : string) (username runId : option string) (g : t) : bool * t :=
  let owners := set_given jobId username (planningOwners g) in
  let runIds := set_given jobId runId (planningRunIds g) in
  if bool_decide (jobId ∈ planningJobs g) then
    (false, set_planning (planningJobs g) owners runIds (planningControl g) g)
  else
    let admitted := (true, set_planning (set_add jobId (planningJobs g)) owners runIds (planningControl g) g) in
    match findActivePlanningId (Some jobId) g with
    | Some other => if bool_decide (other = "") then admitted else (false, g)
    | None => admitted
    end.

Definition endJobPlanning (jobId : string) (runId : option string) (g : t) : bool * t :=
  let refused :=
    match runId, planningRunIds g !! jobId with
    | Some r, Some a => negb (bool_decide (r = "")) && negb (bool_decide (a = "")) && negb (bool_decide (a = r))
    | _, _ => false
    end in
  if refused then (false, g)
  else (true, set_planning (set_delete jobId (planningJobs g)) (delete jobId (planningOwners g))
                (delete jobId (planningRunIds g)) (delete jobId (planningControl g)) g).

(** [true] is ['paused']. *)
Definition setPlanningControl (jobId : string) (paused : bool) (g : t) : t :=
  set_planning (planningJobs g) (planningOwners g) (planningRunIds g) (<[jobId := paused]> (planningControl g)) g.

Definition shouldStopPlanning (jobId : string) (g : t) : bool :=
  bool_decide (planningControl g !! jobId = Some true).

Definition clearPlanningControl (jobId : string) (g : t) : t :=
  set_planning (planningJobs g) (planningOwners g) (planningRunIds g) (delete jobId (planningControl g)) g.

(** A run that was superseded cannot end the planning of its job: neither the
    admission nor a pause that was asked of the newer run is lost. *)
Theorem superseded_run_is_fenced (jobId old new : string) (username : option string) (g : t) :
  old ≠ "" → new ≠ "" → old ≠ new → jobId ∈ planningJobs g →
  let g' := (tryStartJobPlanning jobId username (Some new) g).2 in
  endJobPlanning jobId (Some old) g' = (false, g') ∧
  isJobPlanning jobId g' = true ∧ planningControl g' = planningControl g ∧
  isJobPlanning jobId (endJobPlanning jobId (Some new) g').2 = false.
Proof.
  intros Ho Hn Hne Hin. unfold tryStartJobPlanning, set_given. rewrite !bool_decide_eq_true_2, (bool_decide_eq_false_2 (new = "")) by done.
  cbn. unfold endJobPlanning, isJobPlanning. cbn. rewrite lookup_insert_eq.
  rewrite !(bool_decide_eq_false_2 (_ = "")), (bool_decide_eq_false_2 (new = old)), (bool_decide_eq_true_2 (new = new)) by congruence.
  cbn. split_and!; [done|by apply bool_decide_eq_true_2|done|]. apply bool_decide_eq_false_2.
  intros [_ ?]%elem_of_set_delete. done.
Qed.
End RuntimeRegistry.
