(* ===== verification/Host.v ===== *)
(** * The process and its database

    The state that the run lifecycle, the deletion coordinator and the controls
    of a job share: the stores the execution queue works on ([QueueCoordinator]),
    the rows of threads and projects, the registries of the process
    ([Registries]) and its runtime handles ([runtime-supervisor.ts]).  What the
    environment does is a list of answers: before an awaited call the process
    asks for the next one, which lets the call run, makes it throw, or ends the
    process there; an empty list is an environment without faults.  Time and
    generated ids are functions of the number of answers asked for so far. *)
From S2P Require Import Prelude Json JsString Path Sql WorkspaceLease TaskAttempts SavedPlan TurnErrors TaskRecovery.
From S2P Require Import WorkloadSlots JobRows QueueCoordinator Act Registries.
Local Open Scope act_scope.

#[local] Arguments bool_decide : simpl never.

(** ** Rows *)

(** [PlanProgressDto] *)
Module PlanProgress.
Record t := mk {
  phase : string;
  status : string;
  contextsRegistered : Z;
  contextsTotal : Z;
  milestones : option Z;
  slices : option Z;
  tasks : option Z;
  message : option string;
  progressCode : option string;
  progressParams : option TurnErrorParams
}.

(** [{ ...p, phase, status, progressCode, progressParams: null, message: null }] *)
Definition set_phase (ph st : string) (code : option string) (p : t) : t :=
  mk ph st (contextsRegistered p) (contextsTotal p) (milestones p) (slices p) (tasks p) None code None.
End PlanProgress.

(** The columns of a job that admission and fencing do not read. *)
Module JobContent.
Record t := mk {
  threadId : string;
  workspacePath : string;
  referenceManifestJson : option string;
  plan : option SavedJobPlan.t;
  planProgress : PlanProgress.t;
  taskProgress : TaskProgress.t
}.

Definition hasTasks (c : t) : bool :=
  match plan c with Some p => negb (bool_decide (length (SavedJobPlan.tasks p) = 0)) | None => false end.

Definition set_progress (p : TaskProgress.t) (c : t) : t :=
  mk (threadId c) (workspacePath c) (referenceManifestJson c) (plan c) (planProgress c) p.
Definition set_planProgress (p : PlanProgress.t) (c : t) : t :=
  mk (threadId c) (workspacePath c) (referenceManifestJson c) (plan c) p (taskProgress c).
Definition set_plan (p : SavedJobPlan.t) (c : t) : t :=
  mk (threadId c) (workspacePath c) (referenceManifestJson c) (Some p) (planProgress c) (taskProgress c).
End JobContent.

Notation job := (@job_row JobContent.t).
Notation stores := (@work_db JobContent.t).
Notation queue := (@QueueCoordinator.world JobContent.t).

(** A row of [threads], with the ids of its rows in [thread_messages]. *)
Module ThreadRow.
Record t := mk {
  id : string;
  username : string;
  projectId : string;
  threadKind : string;
  messageIds : list string
}.
End ThreadRow.

(** A row of [projects]. *)
Module ProjectRow.
Record t := mk {
  id : string;
  username : string;
  updatedAt : Z
}.

Definition touch (now : Z) (p : t) : t := mk (id p) (username p) now.
End ProjectRow.

(** [RuntimeHandle]: which of the optional methods the handle has. *)
Module RuntimeHandle.
Record t := mk {
  kind : string;
  cancel : bool;
  close : bool;
  kill : bool;
  waitClosed : bool
}.
End RuntimeHandle.

(** The methods of a handle. *)
Inductive handle_method := MCancel | MClose | MKill | MWaitClosed.

Definition has_method (m : handle_method) (e : RuntimeHandle.t) : bool :=
  match m with
  | MCancel => RuntimeHandle.cancel e
  | MClose => RuntimeHandle.close e
  | MKill => RuntimeHandle.kill e
  | MWaitClosed => RuntimeHandle.waitClosed e
  end.

(** What happened: calls into parts of the program that are not modelled, the
    methods of handles that returned without an error, that the loop of a job put a
    task back into the queue, and what it was told when it had to stop -- that the
    process shuts down, that its lease is refused, that a turn lost its lease. *)
Inductive effect :=
| HandleReturned (m : handle_method) (runId : string)
| TaskRequeued (jobId taskId : string)
| SawDraining (jobId : string)
| LeaseRefused (jobId : string)
| TurnLostLease (jobId : string)
| OnRelease (e : release_effect)
| AbortRun (runId : string)
| CancelSandboxTurns (jobId : string)
| ReleaseCursorResources (jobId : string)
| CloseConversationCursor (threadId : string)
| PurgeJobFiles (threadId jobId : string)
| PurgeAttachment (threadId attachmentId : string)
| PurgeThreadFiles (threadId : string) (messageIds : list string)
| ClearJobEvents (jobId : string)
| EmitJobDone (jobId : string).

(** ** The state *)

Inductive answer := Fine | Fails (message : string) | Dies.

Record host := mkHost {
  h_queue : queue;
  h_loops : Loops.t;
  h_planning : RuntimeRegistry.t;
  h_handles : gmap string RuntimeHandle.t;
  h_threads : list ThreadRow.t;
  h_projects : list ProjectRow.t;
  h_effects : list effect;
  h_answers : list answer;
  h_ticks : nat
}.

Definition h_work (h : host) : stores := w_work (h_queue h).
Definition h_jobs (h : host) : list job := jobs (h_work h).

Definition set_queue (q : queue) (h : host) : host :=
  mkHost q (h_loops h) (h_planning h) (h_handles h) (h_threads h) (h_projects h) (h_effects h) (h_answers h) (h_ticks h).
Definition set_host_work (x : stores) (h : host) : host := set_queue (set_work x (h_queue h)) h.
Definition set_host_leases (x : lease_state) (h : host) : host := set_queue (set_lease_state x (h_queue h)) h.
Definition set_loops (l : Loops.t) (h : host) : host :=
  mkHost (h_queue h) l (h_planning h) (h_handles h) (h_threads h) (h_projects h) (h_effects h) (h_answers h) (h_ticks h).
Definition set_planning (r : RuntimeRegistry.t) (h : host) : host :=
  mkHost (h_queue h) (h_loops h) r (h_handles h) (h_threads h) (h_projects h) (h_effects h) (h_answers h) (h_ticks h).
Definition set_handles (m : gmap string RuntimeHandle.t) (h : host) : host :=
  mkHost (h_queue h) (h_loops h) (h_planning h) m (h_threads h) (h_projects h) (h_effects h) (h_answers h) (h_ticks h).
Definition set_rows (ts : list ThreadRow.t) (ps : list ProjectRow.t) (h : host) : host :=
  mkHost (h_queue h) (h_loops h) (h_planning h) (h_handles h) ts ps (h_effects h) (h_answers h) (h_ticks h).
Definition add_effects (es : list effect) (h : host) : host :=
  mkHost (h_queue h) (h_loops h) (h_planning h) (h_handles h) (h_threads h) (h_projects h)
    (h_effects h ++ es) (h_answers h) (h_ticks h).
Definition set_answers (l : list answer) (n : nat) (h : host) : host :=
  mkHost (h_queue h) (h_loops h) (h_planning h) (h_handles h) (h_threads h) (h_projects h) (h_effects h) l n.

(** What a new process finds: the database.  The list of effects is a record of
    the calls so far. *)
Definition reboot (boot : string) (l : list answer) (h : host) : host :=
  mkHost (mkWorld (set_memory [] ∅ (h_work h)) (mkLeaseState (leases (w_leases (h_queue h))) ∅ boot)
            (w_ledger (h_queue h)) [])
    Loops.empty RuntimeRegistry.empty ∅ (h_threads h) (h_projects h) (h_effects h) l (h_ticks h).

Definition hostM (A : Type) : Type := actM host A.

(** The next answer of the environment. *)
Definition ask : hostM unit := λ h,
  match h_answers h with
  | [] => (Returned tt, set_answers [] (S (h_ticks h)) h)
  | Fine :: l => (Returned tt, set_answers l (S (h_ticks h)) h)
  | Fails m :: l => (Raised (plain_error m), set_answers l (S (h_ticks h)) h)
  | Dies :: l => (Died, set_answers l (S (h_ticks h)) h)
  end.

(** [await f()], for a call that may fail before it has any effect. *)
Definition await {A} (m : hostM A) : hostM A := do~ ask in m.

(** A call into a part that is not modelled. *)
Definition call (e : effect) : hostM unit := await (act_modify (add_effects [e])).

Definition update_work (f : stores → stores) : hostM unit :=
  act_modify (λ h, set_host_work (f (h_work h)) h).

Definition update_loops (f : Loops.t → Loops.t) : hostM unit :=
  act_modify (λ h, set_loops (f (h_loops h)) h).

(** ** Runtime handles: [runtime-supervisor.ts] *)

(** A method of the handle, if the run has a handle with this method. *)
Definition on_handle (m : handle_method) (runId : string) : hostM unit :=
  let~ entry := act_gets (λ h, h_handles h !! runId) in
  match entry with
  | Some e => act_when (has_method m e) (call (HandleReturned m runId))
  | None => act_ret tt
  end.

Definition registerRunRuntime (runId : string) (handle : RuntimeHandle.t) : hostM unit :=
  act_modify (λ h, set_handles (<[runId := handle]> (h_handles h)) h).
Definition unregisterRunRuntime (runId : string) : hostM unit :=
  act_modify (λ h, set_handles (delete runId (h_handles h)) h).
Definition getRunRuntime (runId : string) (h : host) : option RuntimeHandle.t := h_handles h !! runId.
Definition hasRunRuntime (runId : string) (h : host) : bool := bool_decide (is_Some (h_handles h !! runId)).

Definition cancelRun (runId : string) : hostM unit := act_ignore (on_handle MCancel runId).
Definition stopRun (runId : string) : hostM unit := act_ignore (on_handle MClose runId).
Definition hardKill (runId : string) : hostM unit := act_ignore (on_handle MKill runId).

(** A time out is a failure like another. *)
Definition waitClosed (runId : string) : hostM unit := on_handle MWaitClosed runId.

Definition closeRunRuntime (runId : string) : hostM unit :=
  let~ entry := act_gets (λ h, h_handles h !! runId) in
  match entry with
  | Some e =>
      do~ act_when (RuntimeHandle.close e) (call (HandleReturned MClose runId)) in
      unregisterRunRuntime runId
  | None => act_ret tt
  end.

(** ** Lemmas *)

Lemma ask_quiet h : h_answers h = [] → ask h = (Returned tt, set_answers [] (S (h_ticks h)) h).
Proof. unfold ask. by intros ->. Qed.

(** A relation that does not look at the answers is kept by [ask]. *)
Lemma keeps_ask (R : host → host → Prop) `{!PreOrder R} :
  (∀ h l n, R h (set_answers l n h)) → keeps R ask.
Proof. intros HR h. unfold ask. destruct (h_answers h) as [|[| |] l]; apply HR. Qed.
