(* ===== verification/RunLifecycle.v ===== *)
(** * Stopping and finishing runs

    Models [src/server/legacy-control-plane/run-lifecycle.ts],
    [finalize-execution.ts] and the functions of [workload-slot-store.ts] that
    stop the active run of a job.  Releasing a slot advances the execution queue;
    the interface [QueueAdvance] says what that may do to the stores, and the end
    of the file shows that the coordinator keeps it.  The waiting times between
    the steps, the cleanup of runtime directories and the planning queue are not
    part of the state. *)
From S2P Require Import Prelude Json JsString Path Sql WorkspaceLease TaskAttempts.
From S2P Require Import WorkloadSlots JobRows WorkloadSpecs QueueCoordinator Act Registries Host.
Local Open Scope act_scope.
#[local] Arguments bool_decide : simpl never.

(** ** What advancing the queue may do *)

Definition job_ids (q : queue) : list string := map jb_id (jobs (w_work q)).

(** A row of the job has one of the statuses. *)
Definition job_in (sts : list string) (q : queue) (id : string) : Prop :=
  ∃ j, j ∈ jobs (w_work q) ∧ jb_id j = id ∧ jb_status j ∈ sts.

Lemma job_in_ids sts q id : job_in sts q id → id ∈ job_ids q.
Proof. intros (j & Hj & <- & _). apply list_elem_of_In, in_map. by apply list_elem_of_In. Qed.

(** The jobs stay and no other becomes pending; jobs that neither wait nor run and
    deletions are not touched; new runs and slots are those of pending jobs, new
    leases those of jobs, and only jobs that waited or ran are scheduled. *)
Class QueueAdvance (advance : nat → list (string * string) → queue → result string unit * queue) : Prop := {
  advance_job_ids : ∀ n loops q, job_ids (advance n loops q).2 = job_ids q;
  advance_settled : ∀ n loops q j, NoDup (job_ids q) → j ∈ jobs (w_work q) →
    jb_status j ∉ ["pending"; "running"] → j ∈ jobs (w_work (advance n loops q).2);
  advance_deletions : ∀ n loops q, deletions (w_work (advance n loops q).2) = deletions (w_work q);
  advance_runs : ∀ n loops q, ∃ new, runs (w_work (advance n loops q).2) = runs (w_work q) ++ new ∧
    Forall (λ r, job_in ["pending"] q (Run.ownerId r)) new;
  advance_slots : ∀ n loops q, ∃ new, slots (w_work (advance n loops q).2) = slots (w_work q) ++ new ∧
    Forall (λ x, job_in ["pending"] q (Slot.ownerId x)) new;
  advance_leases : ∀ n loops q r, r ∈ leases (w_leases (advance n loops q).2) → lease_active r = true →
    WorkspaceLease.ownerId r ∈ job_ids q ∨
    ∃ r0, r0 ∈ leases (w_leases q) ∧ lease_active r0 = true ∧
      WorkspaceLease.ownerKind r0 = WorkspaceLease.ownerKind r ∧ WorkspaceLease.ownerId r0 = WorkspaceLease.ownerId r;
  advance_scheduled : ∀ n loops q, ∃ new, w_scheduled (advance n loops q).2 = w_scheduled q ++ new ∧
    Forall (λ e, job_in ["pending"; "running"] q e.1.2) new
}.

Module PlanningRunOutcome.
Inductive t := success | failure | user_stopped.
End PlanningRunOutcome.

Section lifecycle.
Context (clock : nat → Z).
Context (advance : nat → list (string * string) → queue → result string unit * queue).

Definition now (h : host) : Z := clock (h_ticks h).

(** The loops of the process: their job and its user. *)
Definition loops_of (h : host) : list (string * string) :=
  map (λ j, (j, default "" (Loops.runtimes (h_loops h) !! j ≫= JobExecutionRuntime.username)))
    (Loops.activeLoops (h_loops h)).

(** [scheduleJobExecution] marks the loop at once; a job that was resumed had
    its control reset before. *)
Definition mark_scheduled (e : string * string * option string) (g : Loops.t) : Loops.t :=
  let '(username, jobId, slot) := e in
  let g := match slot with Some _ => g | None => Loops.resumeExecution jobId g end in
  (Loops.tryStartLoop jobId (Some username) g).2.

Definition advanceExecutionQueue (username : string) : hostM unit := await (λ h,
  let '(r, q) := advance (h_ticks h) (loops_of h) (h_queue h) in
  let new := drop (length (w_scheduled (h_queue h))) (w_scheduled q) in
  let h' := set_loops (fold_left (λ g e, mark_scheduled e g) new (h_loops h)) (set_queue q h) in
  match r with
  | Ok _ => (Returned tt, h')
  | Err e => (Raised (plain_error e), h')
  end).

(** The execution queue, then the planning queue. *)
Definition advanceWorkloadQueue (username : string) : hostM unit :=
  do~ advanceExecutionQueue username in
  call (OnRelease (AdvanceQueue username)).

Definition on_release (e : release_effect) : hostM unit :=
  match e with
  | AbortController runId => act_modify (add_effects [AbortRun runId])
  | EndJobPlanning ownerId runId =>
      act_modify (λ h, set_planning (RuntimeRegistry.endJobPlanning ownerId (Some runId) (h_planning h)).2 h)
  | AdvanceQueue username => act_ignore (advanceWorkloadQueue username)
  end.

Definition releaseWorkloadSlot (runId : string) (reason : option string) (skipQueueAdvance : bool) :
    hostM ReleaseResult := await (λ h,
  match WorkloadSlots.releaseWorkloadSlot (now h) runId reason false skipQueueAdvance (h_work h) with
  | (Ok (res, effects), s') => (do~ act_for effects on_release in act_ret res) (set_host_work s' h)
  | (Err e, s') => (Raised (plain_error e), set_host_work s' h)
  end).

(** The check of a run, then the write of its mark: two calls; [time] is read
    before the first. *)
Definition mark_if_live (runId : string) (write : Z → @work_db JobContent.t → @work_db JobContent.t) : hostM bool :=
  let~ time := act_gets now in
  let~ live := await (act_gets (λ h, markable runId (h_work h))) in
  if negb live then act_ret false
  else do~ await (act_modify (λ h, set_host_work (write time (h_work h)) h)) in act_ret true.

Definition markRunCancelling (runId reason : string) : hostM bool :=
  mark_if_live runId (λ t, write_cancelling t runId reason).

Definition markRunQuarantined (runId reason detail : string) : hostM bool :=
  mark_if_live runId (λ t, write_quarantined t runId reason (Some detail)).

(** ** Stopping *)

Definition closeRunRuntimeOrQuarantine (runId reason : string) : hostM unit :=
  act_catch (closeRunRuntime runId) (λ e,
    do~ act_ignore (markRunQuarantined runId reason (Failure.message e)) in
    act_raise e).

(** [controller.abort(reason)] of the run's controller, if it has one. *)
Definition abort_run (runId : string) : hostM unit := act_modify (λ h,
  if bool_decide (runId ∈ runControllers (h_work h)) then add_effects [AbortRun runId] h else h).

Definition waitClosedOrQuarantine (runId : string) : hostM unit :=
  act_catch (waitClosed runId) (λ e,
    do~ markRunQuarantined runId "child_close_unconfirmed" (Failure.message e) in
    act_raise e).

(** Cancel, stop, kill, and wait for the confirmed close. *)
Definition stop_runtime (runId : string) : hostM unit :=
  do~ abort_run runId in
  do~ act_ignore (cancelRun runId) in
  do~ act_ignore (stopRun runId) in
  do~ act_ignore (hardKill runId) in
  do~ waitClosedOrQuarantine runId in
  closeRunRuntimeOrQuarantine runId "child_close_failed".

Definition stopRunLifecycle (runId reason : string) (skipRelease : bool) : hostM unit :=
  let~ run := markRunCancelling runId reason in
  if negb run then
    act_when (negb skipRelease) (act_ignore (releaseWorkloadSlot runId (Some reason) false))
  else
    do~ stop_runtime runId in
    act_when (negb skipRelease) (act_ignore (releaseWorkloadSlot runId (Some reason) false)).

Definition closeAndReleaseWorkloadSlot (runId reason : string) : hostM unit :=
  do~ closeRunRuntimeOrQuarantine runId "child_close_failed" in
  do~ releaseWorkloadSlot runId (Some reason) false in
  act_ret tt.

Definition stopAndReleaseWorkloadSlot (runId reason : string) : hostM unit := stopRunLifecycle runId reason false.

(** The active run of a job. *)
Definition stopAndReleaseActiveRun (jobId reason : string) : hostM (option string) :=
  do~ ask in
  let~ active := act_gets (λ h, getActiveRun jobId (h_work h)) in
  match active with
  | None => act_ret None
  | Some r => do~ stopRunLifecycle (Run.id r) reason false in act_ret (Some (Run.id r))
  end.

Definition releaseActiveRunOrAdvanceQueue (username jobId reason : string) : hostM unit :=
  let~ stopped := stopAndReleaseActiveRun jobId reason in
  act_when (bool_decide (stopped = None)) (act_ignore (advanceWorkloadQueue username)).

(** ** Planning runs *)

Definition finishPlanningRunLifecycle (runId reason : string) (o : PlanningRunOutcome.t) : hostM unit :=
  do~ ask in
  let~ active := act_gets (λ h, isRunActive runId (h_work h)) in
  if negb active then closeRunRuntimeOrQuarantine runId "child_close_failed"
  else match o with
  | PlanningRunOutcome.user_stopped => stopAndReleaseWorkloadSlot runId reason
  | _ =>
      act_catch (closeAndReleaseWorkloadSlot runId reason) (λ _,
        act_catch (stopAndReleaseWorkloadSlot runId reason) (λ _,
          act_raise (plain_error ("Failed to close and release planning run " +:+ runId))))
  end.

(** ** Execution runs *)

Definition getUserJob (username jobId : string) (h : host) : option job :=
  QueueCoordinator.getUserJob username jobId (h_queue h).

(** Without the cleanup of the runtime directory of a finished job. *)
Definition finalizeJobExecution (username jobId : string) : hostM unit :=
  do~ act_ignore (call (ReleaseCursorResources jobId)) in
  update_loops (Loops.dropRuntime jobId).

Definition markJobExecutionDone (jobId : string) (runId : option string) : hostM unit :=
  do~ update_loops (λ g, (Loops.endLoop jobId g).2) in
  do~ await (act_modify (λ h, set_host_work (clearExecutionLease (now h) jobId (h_work h)) h)) in
  act_modify (λ h, set_host_leases
    (releaseWorkspaceLeaseForOwner OwnerKind.thread_job jobId (Some <$> runId) (now h) (w_leases (h_queue h))) h).

Definition clearExecutionRunId (jobId : string) : hostM unit :=
  update_work (λ s, set_memory (runControllers s) (delete jobId (executionRunIds s)) s).
End lifecycle.

(** ** A slot is given back only after its runtime is closed *)

(** ** Relations that the steps keep *)

(** A relation on hosts that changes of the answers, the effects and the marks of
    runs do not break. *)
Class MarkStable (R : host → host → Prop) : Prop := {
  mark_preorder :: PreOrder R;
  mark_ask : keeps R ask;
  mark_effects : ∀ h es, R h (add_effects es h);
  mark_runs : ∀ h st reason t runId, RunStatus.live st = true → R h (set_host_work (mark_run st reason t runId (h_work h)) h)
}.

Section stop.
Context (clock : nat → Z) (R : host → host → Prop) `{!MarkStable R}.

Lemma keeps_ask_marks : keeps R ask.
Proof. apply mark_ask. Qed.

Lemma keeps_await {A} (m : hostM A) : keeps R m → keeps R (await m).
Proof. intros Hm. apply keeps_bind; [apply _|apply keeps_ask_marks|by intros _]. Qed.

Lemma keeps_call e : keeps R (call e).
Proof. apply keeps_await, keeps_modify. intros h. apply mark_effects. Qed.

Lemma keeps_on_handle m runId : keeps R (on_handle m runId).
Proof.
  apply keeps_bind; [apply _|apply keeps_gets, _|]. intros [e|]; [|apply keeps_ret, _].
  apply keeps_when, keeps_call; apply _.
Qed.

Lemma keeps_mark_if_live runId write :
  (∀ t h, R h (set_host_work (write t (h_work h)) h)) → keeps R (mark_if_live clock runId write).
Proof.
  intros Hw. apply keeps_bind; [apply _|apply keeps_gets, _|]. intros t.
  apply keeps_bind; [apply _|apply keeps_await, keeps_gets, _|]. intros [].
  - apply keeps_bind; [apply _|by apply keeps_await, keeps_modify|]. intros _. apply keeps_ret, _.
  - apply keeps_ret, _.
Qed.

Lemma keeps_markRunCancelling runId reason : keeps R (markRunCancelling clock runId reason).
Proof. apply keeps_mark_if_live. intros t h. by apply mark_runs. Qed.

Lemma keeps_markRunQuarantined runId reason detail : keeps R (markRunQuarantined clock runId reason detail).
Proof. apply keeps_mark_if_live. intros t h. by apply mark_runs. Qed.

Lemma keeps_abort_run runId : keeps R (abort_run runId).
Proof. apply keeps_modify. intros h. case_bool_decide; [apply mark_effects|reflexivity]. Qed.

Lemma keeps_waitClosed runId : keeps R (waitClosedOrQuarantine clock runId).
Proof.
  apply keeps_catch; [apply _|apply keeps_on_handle|]. intros e.
  apply keeps_bind; [apply _|apply keeps_markRunQuarantined|]. intros _. apply keeps_raise, _.
Qed.

Lemma keeps_close runId reason :
  keeps R (unregisterRunRuntime runId) → keeps R (closeRunRuntimeOrQuarantine clock runId reason).
Proof.
  intros Hu. apply keeps_catch; [apply _| |].
  - apply keeps_bind; [apply _|apply keeps_gets, _|]. intros [e|]; [|apply keeps_ret, _].
    apply keeps_bind; [apply _|apply keeps_when, keeps_call; apply _|]. by intros _.
  - intros e. apply keeps_bind; [apply _|apply keeps_ignore, keeps_markRunQuarantined; apply _|].
    intros _. apply keeps_raise, _.
Qed.

Lemma keeps_stop_runtime runId :
  keeps R (unregisterRunRuntime runId) → keeps R (stop_runtime clock runId).
Proof.
  intros Hu. unfold stop_runtime, cancelRun, stopRun, hardKill.
  repeat first [apply keeps_bind; [apply _|..|intros _] | apply keeps_ignore; [apply _|]];
    eauto using keeps_abort_run, keeps_on_handle, keeps_waitClosed, keeps_close.
Qed.
End stop.

(** ** Slots and handles *)

Definition keeps_slots (h h' : host) : Prop := slots (h_work h') = slots (h_work h).
Definition keeps_handles (h h' : host) : Prop := h_handles h' = h_handles h.

Lemma mark_run_slots {C} st reason t runId (s : @work_db C) : slots (mark_run st reason t runId s) = slots s.
Proof. done. Qed.

#[export] Instance keeps_slots_marks : MarkStable keeps_slots.
Proof.
  assert (PreOrder keeps_slots).
  { split; [done|]. unfold keeps_slots. intros ??? H1 H2. by rewrite H2. }
  split; [done|by apply keeps_ask|done|intros; apply mark_run_slots].
Qed.
#[export] Instance keeps_handles_marks : MarkStable keeps_handles.
Proof.
  assert (PreOrder keeps_handles).
  { split; [done|]. unfold keeps_handles. intros ??? H1 H2. by rewrite H2. }
  split; [done|by apply keeps_ask|done|done].
Qed.

Lemma keeps_slots_stop clock runId : keeps keeps_slots (stop_runtime clock runId).
Proof. by apply (keeps_stop_runtime clock keeps_slots). Qed.

(** When the runtime was stopped without an error, its handle is gone. *)
Lemma close_unregisters clock runId reason h h' :
  closeRunRuntimeOrQuarantine clock runId reason h = (Returned tt, h') → h_handles h' !! runId = None.
Proof.
  unfold closeRunRuntimeOrQuarantine, act_catch. destruct (closeRunRuntime runId h) as [[[]|e|] h1] eqn:E; [| |done].
  - intros [= <-]. unfold closeRunRuntime in E. apply act_bind_returned in E as (x & h2 & [= <- <-] & E).
    destruct (h_handles h !! runId) as [x|] eqn:Hx; [|cbn in E; injection E as <-; exact Hx].
    apply act_bind_returned in E as (a & h2 & _ & E). injection E as <-. cbn. apply lookup_delete_eq.
  - unfold act_bind. destruct (act_ignore _ h1) as [[]]; done.
Qed.

(** The calls that confirm that the runtime of a handle is closed. *)
Definition close_calls (entry : option RuntimeHandle.t) (runId : string) : list effect :=
  match entry with
  | Some e => (if RuntimeHandle.waitClosed e then [HandleReturned MWaitClosed runId] else []) ++
              (if RuntimeHandle.close e then [HandleReturned MClose runId] else [])
  | None => []
  end.

(** Handles stay; calls are added. *)
Definition calls_only (h h' : host) : Prop :=
  h_handles h' = h_handles h ∧ ∃ es, h_effects h' = h_effects h ++ es.

#[export] Instance calls_only_marks : MarkStable calls_only.
Proof.
  assert (PreOrder calls_only).
  { split; [intros h; split; [done|exists []; by rewrite app_nil_r]|].
    intros h1 h2 h3 [A1 [a A2]] [B1 [b B2]]. split; [congruence|]. exists (a ++ b). by rewrite B2, A2, app_assoc. }
  split; [done|apply keeps_ask; [done|]; intros h l n; split; [done|exists []; by rewrite app_nil_r]| |].
  - intros h es. split; [done|by exists es].
  - intros h st reason t r _. split; [done|exists []; by rewrite app_nil_r].
Qed.

Lemma call_returned e h h' : call e h = (Returned tt, h') →
  h_handles h' = h_handles h ∧ h_effects h' = h_effects h ++ [e].
Proof. unfold call, await, act_bind, ask. by destruct (h_answers h) as [|[]]; intros [= <-]. Qed.

Lemma waitClosed_returned clock runId h h' : waitClosedOrQuarantine clock runId h = (Returned tt, h') →
  h_handles h' = h_handles h ∧
  h_effects h' = h_effects h ++ match h_handles h !! runId with
    | Some e => if RuntimeHandle.waitClosed e then [HandleReturned MWaitClosed runId] else []
    | None => []
    end.
Proof.
  unfold waitClosedOrQuarantine, act_catch. destruct (waitClosed runId h) as [[[]|e|] h1] eqn:E; [| |done].
  - intros [= <-]. unfold waitClosed, on_handle in E. apply act_bind_returned in E as (x & h2 & [= <- <-] & E).
    destruct (h_handles h !! runId) as [e|]; [|injection E as <-; by rewrite app_nil_r]. cbn [has_method] in E.
    destruct (RuntimeHandle.waitClosed e); [by apply call_returned in E|]. injection E as <-. by rewrite app_nil_r.
  - intros (b & h2 & _ & E')%act_bind_returned. cbn in E'. done.
Qed.

Lemma close_returned clock runId reason h h' : closeRunRuntimeOrQuarantine clock runId reason h = (Returned tt, h') →
  h_effects h' = h_effects h ++ match h_handles h !! runId with
    | Some e => if RuntimeHandle.close e then [HandleReturned MClose runId] else []
    | None => []
    end.
Proof.
  unfold closeRunRuntimeOrQuarantine, act_catch. destruct (closeRunRuntime runId h) as [[[]|e|] h1] eqn:E; [| |done].
  - intros [= <-]. unfold closeRunRuntime in E. apply act_bind_returned in E as (x & h2 & [= <- <-] & E).
    destruct (h_handles h !! runId) as [e|]; [|injection E as <-; by rewrite app_nil_r].
    apply act_bind_returned in E as ([] & h2 & E & [= <-]). cbn.
    destruct (RuntimeHandle.close e); [by apply call_returned in E as [_ ?]|]. injection E as <-. by rewrite app_nil_r.
  - intros ([] & h2 & _ & E')%act_bind_returned. done.
Qed.

(** When the runtime was stopped without an error, its close was confirmed last. *)
Lemma stop_runtime_confirmed clock runId h h' : stop_runtime clock runId h = (Returned tt, h') →
  ∃ es, h_effects h' = h_effects h ++ es ++ close_calls (h_handles h !! runId) runId.
Proof.
  unfold stop_runtime. intros H.
  assert (∀ {A} (m : hostM A) h0 a h1, keeps calls_only m → m h0 = (Returned a, h1) → calls_only h0 h1) as Hk.
  { intros A m h0 a h1 Hm E. specialize (Hm h0). by rewrite E in Hm. }
  apply act_bind_returned in H as (? & h1 & E1 & H). apply act_bind_returned in H as (? & h2 & E2 & H).
  apply act_bind_returned in H as (? & h3 & E3 & H). apply act_bind_returned in H as (? & h4 & E4 & H).
  apply act_bind_returned in H as ([] & h5 & [Hh5 He5]%waitClosed_returned & H%close_returned).
  assert (calls_only h h4) as [Hh [es He]].
  { eapply Hk in E1; [|apply keeps_abort_run, _].
    eapply Hk in E2; [|apply keeps_ignore, keeps_ignore, keeps_on_handle; apply _].
    eapply Hk in E3; [|apply keeps_ignore, keeps_ignore, keeps_on_handle; apply _].
    eapply Hk in E4; [|apply keeps_ignore, keeps_ignore, keeps_on_handle; apply _].
    etrans; [exact E1|]. etrans; [exact E2|]. by etrans. }
  exists es. rewrite H, Hh5, He5, Hh, He. unfold close_calls. destruct (h_handles h !! runId); by rewrite <-!app_assoc.
Qed.

Lemma stop_runtime_unregisters clock runId h h' :
  stop_runtime clock runId h = (Returned tt, h') → h_handles h' !! runId = None.
Proof.
  unfold stop_runtime. intros H.
  repeat (apply act_bind_returned in H as (? & ? & _ & H)).
  by apply close_unregisters in H.
Qed.

Section release.
Context (clock : nat → Z) (advance : nat → list (string * string) → queue → result string unit * queue).
Context `{!QueueAdvance advance}.

Notation release := (releaseWorkloadSlot clock advance).
Notation stop := (stopRunLifecycle clock advance).

(** Releasing does not touch the handles. *)
Lemma release_handles runId reason skip : keeps keeps_handles (release runId reason skip).
Proof.
  assert (∀ u, keeps keeps_handles (advanceExecutionQueue advance u)) as Hadv.
  { intros u. apply keeps_await; [apply _|]. intros h.
    destruct (advance _ _ _) as [[[]|e] q]; done. }
  apply keeps_await; [apply _|]. intros h.
  destruct (WorkloadSlots.releaseWorkloadSlot _ _ _ _ _ _) as [[[res es]|e] s']; [|done].
  assert (keeps keeps_handles (do~ act_for es (on_release advance) in act_ret res)) as Hk.
  { apply keeps_bind; [apply _| |intros; apply keeps_ret, _]. apply keeps_for; [apply _|].
    intros [r|o r|u] _; cbn.
    - by apply keeps_modify.
    - by apply keeps_modify.
    - apply keeps_ignore; [apply _|]. apply keeps_bind; [apply _|apply Hadv|].
      intros _. apply keeps_call, _. }
  specialize (Hk (set_host_work s' h)). exact Hk.
Qed.

(** The slots of the other runs and all slots of a run that is not live stay. *)
Definition slots_stay (runId : string) (h h' : host) : Prop :=
  ∀ x, x ∈ slots (h_work h) → Slot.runId x = runId → x ∈ slots (h_work h').

#[local] Instance slots_stay_marks runId : MarkStable (slots_stay runId).
Proof.
  assert (PreOrder (slots_stay runId)).
  { split; [by intros h x|]. intros h1 h2 h3 H12 H23 x Hx Hr. apply H23; [by apply H12|done]. }
  split; [done|apply keeps_ask; [done|by intros h l n x]|by intros h es x|].
  by intros h st reason t r _ x Hx _.
Qed.

Lemma advance_slots_stay runId u : keeps (slots_stay runId) (advanceExecutionQueue advance u).
Proof.
  apply keeps_await; [apply _|]. intros h.
  pose proof (advance_slots (h_ticks h) (loops_of h) (h_queue h)) as (new & Hn & _).
  intros x Hx _. destruct (advance _ _ _) as [[[]|e] q]; cbn in *; unfold h_work; cbn; rewrite Hn; apply elem_of_app; by left.
Qed.

Lemma release_dead_slots runId reason skip h :
  (∀ r, find_run (h_work h) runId = Some r → RunStatus.live (Run.status r) = false) →
  slots_stay runId h (release runId reason skip h).2.
Proof.
  intros Hdead. unfold releaseWorkloadSlot, await, act_bind at 1.
  pose proof (keeps_ask_marks (slots_stay runId) h) as Hask.
  assert (h_work (ask h).2 = h_work h) as Hw.
  { unfold ask. by destruct (h_answers h) as [|[]]. }
  destruct (ask h) as [[[]|e|] h1]; [|done..]. cbn in Hw, Hask.
  etrans; [exact Hask|]. rewrite <-Hw in Hdead. clear Hw Hask h.
  unfold WorkloadSlots.releaseWorkloadSlot, run_transaction, release_tx. rewrite tx_bind_gets.
  assert (∀ es, keeps (slots_stay runId) (act_for es (on_release advance))) as Hes.
  { intros es. apply keeps_for; [apply _|]. intros [r|o r|u] _; cbn; [by apply keeps_modify; intros h x..|].
    apply keeps_ignore; [apply _|]. apply keeps_bind; [apply _|apply advance_slots_stay|].
    intros _. apply keeps_call, _. }
  destruct (find_run _ runId) as [r|]; [rewrite Hdead by done|]; cbn [negb].
  - rewrite tx_bind_gets. cbn [tx_ret rr_run].
    match goal with |- slots_stay _ _ ((do~ act_for ?es _ in act_ret ?res) ?h2).2 =>
      assert (keeps (slots_stay runId) (do~ act_for es (on_release advance) in act_ret res)) as Hk;
        [apply keeps_bind; [apply _|apply Hes|intros; apply keeps_ret, _]|]; specialize (Hk h2) end.
    etrans; [|exact Hk]. by intros x.
  - by intros x.
Qed.

(** A mark that was refused: the run is not live. *)
Lemma mark_refused runId write h h' r : mark_if_live clock runId write h = (Returned false, h') →
  find_run (h_work h') runId = Some r → RunStatus.live (Run.status r) = false.
Proof.
  unfold mark_if_live. intros H. apply act_bind_returned in H as (t & h0 & [= <- <-] & H).
  apply act_bind_returned in H as (live & h1 & Hl & H).
  unfold await in Hl. apply act_bind_returned in Hl as (u & h2 & _ & [= <- <-]).
  destruct (markable runId (h_work h2)) eqn:E; cbn [negb] in H.
  - by apply act_bind_returned in H as (? & ? & _ & [=]).
  - injection H as <-. unfold markable in E. intros Hr. by rewrite Hr in E.
Qed.

Lemma ignore_never_raises {A} (m : hostM A) h e : (act_ignore m h).1 ≠ Raised e.
Proof. unfold act_ignore, act_catch, act_bind. by destruct (m h) as [[]]. Qed.

Lemma ignore_state {A} (m : hostM A) h : (act_ignore m h).2 = (m h).2.
Proof. unfold act_ignore, act_catch, act_bind. by destruct (m h) as [[]]. Qed.

(** C10: Stopping a run gives its slot away only after the close of the registered runtime was
    confirmed: however the calls that stop a run end, either the slot of the run is as it was,
    or the slots were as they were until the close of the runtime was confirmed -- the last
    calls before the release are a wait for the close and a close of the registered handle, both
    without an error, and the handle was unregistered -- and only the release that follows gives
    it away. A run without a handle in this process has nothing to wait for. When stopping
    throws, no slot has changed at all. *)
Theorem slot_freed_after_close runId reason skipRelease h :
  let '(r, h') := stop runId reason skipRelease h in
  (slots_stay runId h h' ∨
   ∃ h1 es, slots (h_work h1) = slots (h_work h) ∧ h_handles h1 !! runId = None ∧
     h_effects h1 = h_effects h ++ es ++ close_calls (h_handles h !! runId) runId ∧
     h' = (act_ignore (release runId (Some reason) false) h1).2) ∧
  (∀ e, r = Raised e → slots (h_work h') = slots (h_work h)).
Proof.
  unfold stopRunLifecycle, act_bind at 1.
  pose proof (keeps_markRunCancelling clock keeps_slots runId reason h) as Hs1.
  pose proof (keeps_markRunCancelling clock calls_only runId reason h) as Hc1.
  destruct (markRunCancelling clock runId reason h) as [[b|e|] h1] eqn:Hmark; cbn in Hs1, Hc1;
    [|split; [left; intros x Hx _; by rewrite Hs1|done]..].
  assert (∀ h2, slots_stay runId h1 h2 → slots_stay runId h h2) as Hst.
  { intros h2 H x Hx Hr. apply H; [by rewrite Hs1|done]. }
  destruct b; cbn [negb].
  - unfold act_bind at 1. pose proof (keeps_slots_stop clock runId h1) as Hs2.
    destruct (stop_runtime clock runId h1) as [[[]|e|] h2] eqn:Hstop; cbn in Hs2.
    + destruct skipRelease; cbn [negb act_when].
      { split; [|done]. left. intros x Hx _. cbn. by rewrite Hs2, Hs1. }
      pose proof (ignore_never_raises (release runId (Some reason) false) h2) as Hig.
      pose proof (stop_runtime_unregisters _ _ _ _ Hstop) as Hun.
      apply stop_runtime_confirmed in Hstop as [es He]. destruct Hc1 as [Hh1 [es1 He1]].
      destruct (act_ignore _ h2) as [r h3] eqn:Hrel; cbn in *. split; [right|intros e ->; by destruct (Hig e)].
      exists h2, (es1 ++ es). split_and!; [by rewrite Hs2|done| |by rewrite Hrel].
      by rewrite He, Hh1, He1, <-!app_assoc.
    + split; [|intros ? _; congruence]. left. apply Hst. intros x Hx _. by rewrite Hs2.
    + split; [|done]. left. apply Hst. intros x Hx _. by rewrite Hs2.
  - destruct skipRelease; cbn [negb act_when].
    { split; [|done]. left. by apply Hst. }
    pose proof (ignore_never_raises (release runId (Some reason) false) h1) as Hig.
    pose proof (release_dead_slots runId (Some reason) false h1 (λ r, mark_refused _ _ _ _ r Hmark)) as Hd.
    rewrite <-ignore_state in Hd. destruct (act_ignore _ h1) as [r h3]; cbn in *.
    split; [left; by apply Hst|intros e ->; by destruct (Hig e)].
Qed.
End release.

(** ** The coordinator keeps the interface of the queue

    [advanceExecutionQueue] of [QueueCoordinator], at the time and with the ids
    of a tick, as an instance of [QueueAdvance]. *)

(** The laws of [QueueAdvance] that compose, as a relation. *)
Record advances (q q' : queue) : Prop := Advances {
  av_jobs : job_ids q' = job_ids q;
  av_pending : ∀ id, job_in ["pending"] q' id → job_in ["pending"] q id;
  av_deletions : deletions (w_work q') = deletions (w_work q);
  av_runs : ∃ new, runs (w_work q') = runs (w_work q) ++ new ∧ Forall (λ r, job_in ["pending"] q (Run.ownerId r)) new;
  av_slots : ∃ new, slots (w_work q') = slots (w_work q) ++ new ∧ Forall (λ x, job_in ["pending"] q (Slot.ownerId x)) new;
  av_leases : ∀ r, r ∈ leases (w_leases q') → lease_active r = true →
    WorkspaceLease.ownerId r ∈ job_ids q ∨
    ∃ r0, r0 ∈ leases (w_leases q) ∧ lease_active r0 = true ∧ row_owner r0 = row_owner r
}.

Lemma app_owned {A} (P Q : A → Prop) (l1 l2 l3 : list A) :
  (∃ new, l2 = l1 ++ new ∧ Forall P new) → (∃ new, l3 = l2 ++ new ∧ Forall Q new) → (∀ x, Q x → P x) →
  ∃ new, l3 = l1 ++ new ∧ Forall P new.
Proof.
  intros (n1 & -> & H1) (n2 & -> & H2) HQ. exists (n1 ++ n2). split; [by rewrite app_assoc|]. apply Forall_app.
  split; [done|]. by eapply Forall_impl.
Qed.

Lemma owned_nil {A} (P : A → Prop) (l : list A) : ∃ new, l = l ++ new ∧ Forall P new.
Proof. exists []. by rewrite app_nil_r. Qed.

#[export] Instance advances_preorder : PreOrder advances.
Proof.
  split.
  - intros q. split; try done; [apply owned_nil..|]. intros r Hr Ha. right. by exists r.
  - intros q1 q2 q3 [H1 H0 H2 H3 H4 H5] [G1 G0 G2 G3 G4 G5].
    assert (∀ x, x ∈ job_ids q2 ↔ x ∈ job_ids q1) as Hids by (by rewrite H1).
    split; [congruence|auto|congruence| | |].
    + eapply app_owned; [exact H3|exact G3|]. auto.
    + eapply app_owned; [exact H4|exact G4|]. auto.
    + intros r Hr Ha. destruct (G5 r Hr Ha) as [?|(r0 & Hr0 & Ha0 & Ho)]; [left; by apply Hids|].
      destruct (H5 r0 Hr0 Ha0) as [Hj|(r1 & Hr1 & Ha1 & Ho1)].
      * left. unfold row_owner in Ho. congruence.
      * right. exists r1. split_and!; [done|done|congruence].
Qed.

(** Rows that are pending after an update were so before. *)
Lemma pending_update p f (q : queue) id :
  (∀ j, jb_id (f j) = jb_id j) → (∀ j, p j = true → jb_status (f j) = "pending" → jb_status j = "pending") →
  job_in ["pending"] (set_work (set_jobs (update_where p f (jobs (w_work q))) (w_work q)) q) id →
  job_in ["pending"] q id.
Proof.
  intros Hf Hp (j & (j0 & Hj0 & ->)%elem_of_update & Hid & Hst%list_elem_of_singleton).
  exists j0. destruct (p j0) eqn:E; [|by rewrite list_elem_of_singleton].
  rewrite Hf in Hid. split_and!; [done|done|]. apply list_elem_of_singleton. by apply Hp.
Qed.

(** An update of job rows that keeps their ids and makes none pending. *)
Lemma advances_jobs p f (q : queue) :
  (∀ j, jb_id (f j) = jb_id j) → (∀ j, p j = true → jb_status (f j) = "pending" → jb_status j = "pending") →
  advances q (set_work (set_jobs (update_where p f (jobs (w_work q))) (w_work q)) q).
Proof.
  intros Hf Hp. split; cbn; [|intros id; by apply pending_update|done|apply owned_nil..|].
  - unfold job_ids. cbn. by apply update_where_key.
  - intros r Hr Ha. right. by exists r.
Qed.

Lemma advances_memory cs ids s (q : queue) :
  advances q (set_work s q) → advances q (set_work (set_memory cs ids s) q).
Proof. intros [H1 H0 H2 H3 H4 H5]. by split. Qed.

Lemma advances_leases (q : queue) (s : lease_state) :
  (∀ r, r ∈ leases s → lease_active r = true →
     WorkspaceLease.ownerId r ∈ job_ids q ∨
     ∃ r0, r0 ∈ leases (w_leases q) ∧ lease_active r0 = true ∧ row_owner r0 = row_owner r) →
  advances q (set_lease_state s q).
Proof. intros H. split; [done|done|done|apply owned_nil..|done]. Qed.

(** *** Only the rows of one job *)

Definition touches (id : string) (q q' : queue) : Prop :=
  ∀ j, j ∈ jobs (w_work q) → jb_id j ≠ id → j ∈ jobs (w_work q').

#[export] Instance touches_preorder id : PreOrder (touches id).
Proof. split; [by intros q j|]. intros q1 q2 q3 H1 H2 j Hj Hne. apply H2; [by apply H1|done]. Qed.

Lemma touches_jobs id p f (q : queue) :
  (∀ j, p j = true → jb_id j = id) →
  touches id q (set_work (set_jobs (update_where p f (jobs (w_work q))) (w_work q)) q).
Proof.
  intros Hp j Hj Hne. cbn. apply elem_of_update. exists j. split; [done|].
  destruct (p j) eqn:E; [|done]. by apply Hp in E.
Qed.

Lemma touches_same id (q q' : queue) : jobs (w_work q') = jobs (w_work q) → touches id q q'.
Proof. intros Hj j. by rewrite Hj. Qed.

(** ** The operations of the coordinator *)

Section coordinator.
Context `{FileSystem}.

Lemma advances_release id run t (q : queue) :
  advances q (set_lease_state (releaseWorkspaceLease id run t (w_leases q)).2 q).
Proof.
  apply advances_leases. unfold releaseWorkspaceLease. intros r Hr Ha. right.
  destruct (List.find _ _) as [row|]; [|by exists r].
  destruct (negb (lease_active row)); [by exists r|]. destruct (negb (run_matches run row)); [by exists r|].
  assert (r ∈ update_where (λ r, has_id id r && lease_active r && run_matches run r)
            (WorkspaceLease.release t) (leases (w_leases q))) as Hu by (by case_bool_decide).
  apply elem_of_update in Hu as (r0 & Hr0 & ->). exists r0. destruct (_ && _); [done|done].
Qed.

Lemma advances_acquire ttl input id t (q : queue) :
  aq_ownerId input ∈ job_ids q →
  advances q (set_lease_state (acquireWorkspaceLease ttl input id t (w_leases q)).2 q).
Proof.
  intros Hj. apply advances_leases. unfold acquireWorkspaceLease.
  destruct (normalizeWorkspaceLeasePath _) as [path|e]; [|intros r Hr Ha; right; by exists r].
  set (t0 := leases (w_leases q)).
  assert (∀ r, r ∈ cleanStaleWorkspaceLeasesTx t t0 → lease_active r = true →
    ∃ r0, r0 ∈ t0 ∧ lease_active r0 = true ∧ row_owner r0 = row_owner r) as Hc.
  { intros r Hr Ha. exists r. by destruct (proj1 (elem_of_clean t t0 r) (conj Hr Ha)) as (? & ? & _). }
  destruct (findConflictingOccupant _ _ _); [intros r Hr Ha; right; by apply Hc|].
  destruct (List.find _ _) as [o|]; cbn.
  - intros r (r1 & Hr1 & ->)%elem_of_update Ha. right.
    destruct (_ && _) eqn:E; [|by apply Hc]. apply andb_true_iff in E as [_ Ha1]. by apply (Hc r1).
  - destruct (existsb _ _); [intros r Hr Ha; right; by exists r|]. cbn.
    intros r [Hr| ->]%elem_of_snoc Ha; [right; by apply Hc|by left].
Qed.

Lemma pending_row id j (q : queue) : j ∈ jobs (w_work q) → jb_id j = id → jb_status j = "pending" → job_in ["pending"] q id.
Proof. intros Hj Hid Hst. exists j. by rewrite Hst, list_elem_of_singleton. Qed.

Lemma advances_claim cap ttl pr t runId u jobId (q : queue) :
  let q' := set_work (claimExecutionSlotForJobTx cap ttl pr t runId u jobId (w_work q)).2 q in
  advances q q' ∧ touches jobId q q'.
Proof.
  unfold claimExecutionSlotForJobTx. cbv zeta.
  assert (∀ j : job, claimable u jobId j = true → jb_id j = jobId) as Hcl by (by intros j [? _]%claimable_true).
  set (tx := claim_execution_tx cap ttl pr t runId u jobId).
  assert (advances q (set_work (run_transaction tx (w_work q)).2 q) ∧
          touches jobId q (set_work (run_transaction tx (w_work q)).2 q)) as [Ht1 Ht2].
  { unfold run_transaction, tx.
    destruct (claim_execution_tx cap ttl pr t runId u jobId (w_work q)) as [[b s']|e] eqn:Htx; cbn;
      [|by destruct q]. unfold claim_execution_tx in Htx. tx_inv; try (by destruct q).
    - split; [by apply advances_jobs|by apply touches_jobs].
    - apply insert_shape in Htx0 as [_ ->].
      assert (job_in ["pending"] q jobId) as Hj.
      { apply bool_decide_eq_false in Heqb2. destruct (select_where (claimable u jobId) (jobs (w_work q))) as [|j l] eqn:E.
        - unfold count_where in Heqb2. by rewrite E in Heqb2.
        - assert (j ∈ select_where (claimable u jobId) (jobs (w_work q))) as [Hj (? & _ & ? & _)%claimable_true]%elem_of_select
            by (rewrite E; left). by eapply pending_row. }
      split; [|by apply (touches_jobs jobId)].
      split; cbn; [| |done|eexists; by split; [|constructor]..|].
      + unfold job_ids. cbn. by apply update_where_key.
      + intros id Hid. by apply (pending_update (claimable u jobId)
          (λ j, set_activeRun (Some runId) (set_running (leaseOwner pr) (t + EXECUTION_LEASE_TTL_SEC) t j)) q id).
      + intros r Hr Ha. right. by exists r. }
  destruct (run_transaction _ _) as [[[]|e] s']; cbn in *; split; try done. by apply advances_memory.
Qed.

Lemma advances_take_job pr t u jobId p (q : queue) :
  let q' := set_work (run_transaction (take_job pr t u jobId p) (w_work q)).2 q in
  advances q q' ∧ touches jobId q q'.
Proof.
  cbv zeta. unfold run_transaction.
  destruct (take_job pr t u jobId p (w_work q)) as [[b s']|e] eqn:Htx; cbn; [|by destruct q].
  unfold take_job in Htx. tx_inv; try (by destruct q);
    (split; [by apply advances_jobs|apply touches_jobs; intros j [[? _]%andb_true_iff _]%andb_true_iff; by apply by_id_true]).
Qed.

Lemma touches_by_id jobId (f : job → job) (q : queue) :
  touches jobId q (set_work (set_jobs (update_where (by_id jobId) f (jobs (w_work q))) (w_work q)) q).
Proof. apply touches_jobs. intros j. apply by_id_true. Qed.

Lemma advances_acquireExecutionLease pr t u jobId occupant (q : queue) :
  let q' := set_work (acquireExecutionLease pr t u jobId occupant (w_work q)).2 q in
  advances q q' ∧ touches jobId q q'.
Proof.
  cbv zeta. unfold acquireExecutionLease.
  set (s1 := (clearStaleExecutionLeaseIfNeeded pr t jobId (w_work q)).2). set (q1 := set_work s1 q).
  assert (advances q q1 ∧ touches jobId q q1) as [H1 H2].
  { unfold q1, s1, clearStaleExecutionLeaseIfNeeded. destruct (find_job _ jobId); [|by destruct q].
    destruct (_ || _); [by destruct q|]. split; [by apply advances_jobs|by apply touches_by_id]. }
  destruct (hasLocalExecutionLease _ _ _ _ s1).
  - split; (etrans; [done|]); [by apply (advances_jobs _ _ q1)|apply (touches_jobs _ _ _ q1)].
    intros j [? _]%andb_true_iff. by apply by_id_true.
  - destruct occupant; [done|]. destruct (advances_take_job pr t u jobId (resumableForLease t) q1).
    split; by etrans.
Qed.

Lemma advances_scheduled u j slot (q : queue) :
  advances q (scheduleJobExecution u j slot q) ∧ touches j q (scheduleJobExecution u j slot q).
Proof.
  split; [|by apply touches_same]. split; [done|done|done|apply owned_nil..|]. intros r Hr Ha. right. by exists r.
Qed.

Lemma user_job_row u j (q : queue) row :
  QueueCoordinator.getUserJob u j q = Some row → row ∈ jobs (w_work q) ∧ jb_id row = j.
Proof. by intros [Hr [<-%bool_decide_eq_true _]%andb_true_iff]%find_elem. Qed.

Lemma user_job_id u j (q : queue) row : QueueCoordinator.getUserJob u j q = Some row → j ∈ job_ids q.
Proof. intros [Hr <-]%user_job_row. apply list_elem_of_In, in_map. by apply list_elem_of_In. Qed.

(** What starting or resuming the job [j] does: the laws, with at most one new
    entry, for [j], in the schedule. *)
Record progresses (j : string) (sts : list string) (q q' : queue) : Prop := Progresses {
  pg_advances : advances q q';
  pg_touches : touches j q q';
  pg_scheduled : ∃ new, w_scheduled q' = w_scheduled q ++ new ∧ Forall (λ e, e.1.2 = j ∧ job_in sts q j) new
}.

Lemma progresses_quiet j sts (q q' : queue) :
  advances q q' → touches j q q' → w_scheduled q' = w_scheduled q → progresses j sts q q'.
Proof. intros H1 H2 H3. split; [done|done|]. rewrite H3. apply owned_nil. Qed.

Context (capacity : nat) (workloadTtl leaseTtl : Z) (pr : process) (emptyTreeError uncertainError : string).
Context (clock : nat → Z) (runIds leaseIds : nat → string) (draining : nat → bool).

Notation path := (λ c, Some (JobContent.workspacePath c)).

Lemma advances_start t runId leaseId u j (q : queue) :
  progresses j ["pending"] q (startPendingExecutionJob JobContent.hasTasks path capacity workloadTtl leaseTtl pr emptyTreeError
                t runId leaseId u j q).2.
Proof.
  unfold startPendingExecutionJob. destruct (isEntityDeletionBlocked _ _ _); [by apply progresses_quiet|].
  destruct (QueueCoordinator.getUserJob u j q) as [row|] eqn:Hrow; [|by apply progresses_quiet].
  case_bool_decide as Hp; cbn [negb]; [|by apply progresses_quiet]. destruct (negb _).
  { apply progresses_quiet; [by apply advances_jobs|by apply touches_by_id|done]. }
  assert (job_in ["pending"] q j) as Hj.
  { destruct (user_job_row _ _ _ _ Hrow). by eapply pending_row. }
  pose proof (advances_acquire leaseTtl (lease_input path j row) leaseId t q (user_job_id _ _ _ _ Hrow)) as Hl.
  destruct (acquireWorkspaceLease _ _ _ _ _) as [[[a|]|e] l1]; cbn in Hl;
    [|by apply progresses_quiet; [|apply touches_same|]..].
  set (q1 := set_lease_state l1 q) in *. assert (touches j q q1) as Ht1 by (by apply touches_same).
  destruct (advances_claim capacity workloadTtl pr t runId u j q1) as [Hc Ht2].
  destruct (claimExecutionSlotForJobTx _ _ _ _ _ _ _ _) as [[[]|e] s2]; cbn in Hc, Ht2.
  - split; cbn [snd].
    + etrans; [exact Hl|]. etrans; [exact Hc|]. apply advances_scheduled.
    + etrans; [exact Ht1|]. etrans; [exact Ht2|]. apply (advances_scheduled u j).
    + eexists. split; [done|]. by constructor.
  - case_bool_decide; cbn [snd]; apply progresses_quiet; try done; try (by etrans).
    etrans; [exact Hl|]. etrans; [exact Hc|]. apply advances_release.
  - apply progresses_quiet; try done; by etrans.
Qed.

Lemma advances_resume t leaseId u j executing occupant (q : queue) :
  progresses j ["running"] q (resumeInterruptedRunningJob path leaseTtl pr uncertainError t leaseId u j executing occupant q).2.
Proof.
  unfold resumeInterruptedRunningJob. destruct (isEntityDeletionBlocked _ _ _); [by apply progresses_quiet|].
  destruct executing; [by apply progresses_quiet|].
  destruct (QueueCoordinator.getUserJob u j q) as [row|] eqn:Hrow; [|by apply progresses_quiet].
  case_bool_decide as Hp; cbn [negb]; [|by apply progresses_quiet].
  assert (job_in ["running"] q j) as Hj.
  { destruct (user_job_row _ _ _ _ Hrow). exists row. by rewrite Hp, list_elem_of_singleton. }
  destruct (jobHasUncertainReplayFence _ _).
  { unfold settleUncertainProviderOutcome. rewrite Hrow. cbn. apply progresses_quiet; [| |done].
    - match goal with |- context [updateJobRow t j ?p _] =>
        etrans; [exact (advances_jobs (by_id j) (patch_row t p) q (λ _, eq_refl) (λ _ _ H, ltac:(done)))|];
        by apply (advances_jobs _ _ (set_work (updateJobRow t j p (w_work q)) q)) end.
    - match goal with |- context [updateJobRow t j ?p _] =>
        etrans; [exact (touches_by_id j (patch_row t p) q)|];
        by apply (touches_by_id j _ (set_work (updateJobRow t j p (w_work q)) q)) end. }
  destruct (advances_acquireExecutionLease pr t u j occupant q) as [He Ht1].
  destruct (acquireExecutionLease _ _ _ _ _ _) as [[[]|e] s1]; cbn in He, Ht1; [|by apply progresses_quiet..].
  set (q1 := set_work s1 q) in *.
  assert (aq_ownerId (lease_input path j row) ∈ job_ids q1) as Hj1.
  { rewrite (av_jobs _ _ He). by apply user_job_id in Hrow. }
  pose proof (advances_acquire leaseTtl (lease_input path j row) leaseId t q1 Hj1) as Hl.
  destruct (acquireWorkspaceLease _ _ _ _ _) as [[[a|]|e] l2]; cbn in Hl; cbn [snd].
  - split.
    + etrans; [exact He|]. etrans; [exact Hl|]. apply advances_scheduled.
    + etrans; [exact Ht1|]. by apply touches_same.
    + eexists. split; [done|]. by constructor.
  - apply progresses_quiet; [| |done].
    + etrans; [exact He|]. etrans; [exact Hl|]. by apply (advances_jobs _ _ (set_lease_state l2 q1)).
    + etrans; [exact Ht1|]. by apply (touches_by_id j _ (set_lease_state l2 q1)).
  - apply progresses_quiet; [by etrans|by etrans; [|apply touches_same]|done].
Qed.

(** The queue of the process at tick [n]. *)
Definition coordinator (n : nat) (loops : list (string * string)) (q : queue) : result string unit * queue :=
  QueueCoordinator.advanceExecutionQueue JobContent.hasTasks path capacity workloadTtl leaseTtl pr
    emptyTreeError uncertainError (clock n) (runIds n) (leaseIds (2 * n)) (leaseIds (2 * n + 1)) (draining n) loops q.

(** All the laws of the interface. *)
Record laws (q q' : queue) : Prop := Laws {
  lw_advances : advances q q';
  lw_settled : ∀ j, NoDup (job_ids q) → j ∈ jobs (w_work q) → jb_status j ∉ ["pending"; "running"] → j ∈ jobs (w_work q');
  lw_scheduled : ∃ new, w_scheduled q' = w_scheduled q ++ new ∧ Forall (λ e, job_in ["pending"; "running"] q e.1.2) new
}.

Lemma laws_refl q : laws q q.
Proof. split; [done|done|apply owned_nil]. Qed.

(** A job that is touched because it waits or runs is not a settled one. *)
Lemma settled_other sts (q : queue) j x :
  NoDup (job_ids q) → job_in sts q j → x ∈ jobs (w_work q) → jb_status x ∉ sts → jb_id x ≠ j.
Proof.
  intros Hnd (y & Hy & Hid & Hst) Hx Hns Heq. assert (x = y) as ->; [|done].
  by apply (unique_key jb_id (jobs (w_work q))); [..|congruence].
Qed.

Lemma laws_step j sts (q q1 q2 : queue) :
  laws q q1 → progresses j sts q1 q2 → job_in sts q1 j →
  (∀ id, job_in sts q1 id → job_in ["pending"; "running"] q id) → laws q q2.
Proof.
  intros [H1 H2 H3] [G1 G2 G3] Hj Hsts. split; [by etrans| |].
  - intros x Hnd Hx Hst. apply G2; [by apply H2|]. by eapply settled_other; [|apply Hsts, Hj|..].
  - eapply app_owned; [exact H3|exact G3|]. intros e [<- He]. by apply Hsts.
Qed.

Lemma pending_next (q : queue) j : findNextPendingJob None (w_work q) = Some j → job_in ["pending"] q (jb_id j).
Proof.
  assert (∀ (l : list job) x, first_in_order l = Some x → x ∈ l) as Hfirst.
  { intros l. induction l as [|y l IH]; intros x; cbn [first_in_order]; [done|].
    destruct (first_in_order l) as [k|] eqn:E; [destruct (fifo_lt k y)|]; intros [= <-]; [right; by apply IH|left|left]. }
  intros [Hj Hst%bool_decide_eq_true]%Hfirst%elem_of_select. by eapply pending_row.
Qed.

Lemma oldest_running_elem l (x : job) : oldest_running l = Some x → x ∈ l ∧ jb_status x = "running".
Proof.
  revert x. induction l as [|y l IH]; intros x; cbn [oldest_running]; [done|]. case_bool_decide as Hy.
  - destruct (oldest_running l) as [k|] eqn:E; [case_bool_decide|]; intros [= <-].
    + destruct (IH k eq_refl). split; [by right|done].
    + split; [left|done].
    + split; [left|done].
  - intros Hx. destruct (IH x Hx). split; [by right|done].
Qed.

Lemma coordinator_laws n loops q : laws q (coordinator n loops q).2.
Proof.
  assert (∀ q1, laws q q1 → laws q (start_next JobContent.hasTasks path capacity workloadTtl leaseTtl pr emptyTreeError
    (clock n) (runIds n) (leaseIds (2 * n)) q1).2) as Hnext.
  { intros q1 Hq1. unfold start_next. destruct (live_slot_in_pool _ _ _ _); [done|].
    destruct (findNextPendingJob _ _) as [j|] eqn:Hn; [|done]. pose proof (pending_next q1 j Hn) as Hj.
    eapply laws_step; [done|apply advances_start|done|]. intros id Hid%(av_pending _ _ (lw_advances _ _ Hq1)).
    destruct Hid as (x & Hx & Hxi & Hst). exists x. split_and!; [done|done|set_solver]. }
  unfold coordinator, QueueCoordinator.advanceExecutionQueue. destruct (draining n); [apply laws_refl|].
  destruct loops; [|apply laws_refl]. destruct (findDbRunningJobGlobal q) as [r|] eqn:Hr; [|apply Hnext, laws_refl].
  apply oldest_running_elem in Hr as [Hr Hst].
  match goal with |- context [resumeInterruptedRunningJob ?p ?ttl ?pr ?e ?t ?l ?u ?j ?ex ?oc q] =>
    assert (laws q (resumeInterruptedRunningJob p ttl pr e t l u j ex oc q).2) as Hl end.
  { eapply laws_step; [apply laws_refl|apply advances_resume|exists r; by rewrite Hst, list_elem_of_singleton|].
    intros id (x & Hx & Hxi & Hxs). exists x. split_and!; [done|done|set_solver]. }
  destruct (resumeInterruptedRunningJob _ _ _ _ _ _ _ _ _ _ _) as [[[]|e] q1]; [done| |done]. by apply Hnext.
Qed.

#[export] Instance coordinator_advance : QueueAdvance coordinator.
Proof.
  split; intros n loops q; destruct (coordinator_laws n loops q) as [[H1 H0 H2 H3 H4 H5] H6 H7]; try done.
  intros r Hr Ha. destruct (H5 r Hr Ha) as [?|(r0 & ? & ? & Ho)]; [by left|right]. exists r0.
  unfold row_owner in Ho. by simplify_eq.
Qed.
End coordinator.
