(* ===== verification/JobReferences.v ===== *)
(** * Reference manifests of jobs

    Models [src/shared/job-references.ts]: building a manifest from the
    references of a draft, writing it to the database and reading it back, the
    checks that a plan assigns the references, and the attachments a job owns
    ([collectJobOwnedAttachmentIds] of [deletion-coordinator.ts]).  What is read
    back is a JSON value, as in the code: nothing there checks its shape. *)
From stdpp Require Import pretty.
From Stdlib Require Import Ascii.
From S2P Require Import Prelude Json JsString Sql TurnErrors FrozenIds JsonParse StoredErrors.

#[local] Arguments bool_decide : simpl never.

Module JobReferenceEntry.
Record t := mk {
  id : string;
  name : string;
  kind : string;
  mimeType : string;
  description : string;
  relativePath : option string;
  resolvedPath : option string;
  source : option string;
  storageOwner : option string;
  attachmentId : option string;
  inWorkspace : option bool;
  requiresDescription : bool;
  assetUrl : string;
  excludedFromCoverage : option bool
}.
End JobReferenceEntry.

Module JobReferenceManifest.
Record t := mk {
  jobId : string;
  threadId : string;
  frozenAt : string;
  ignoredReferenceIds : list string;
  references : list JobReferenceEntry.t
}.
End JobReferenceManifest.

(** A reference of a draft. *)
Module DraftReference.
Record t := mk {
  id : string;
  name : string;
  mimeType : option string;
  kind : option string;
  assetUrl : option string;
  relativePath : option string;
  resolvedPath : option string;
  source : option string;
  storageOwner : option string;
  attachmentId : option string;
  inWorkspace : option bool;
  description : option string;
  requiresDescription : bool
}.
End DraftReference.

(** ** Building *)

Definition buildReferenceEntryFromDraft (excluded : bool) (r : DraftReference.t) : JobReferenceEntry.t :=
  JobReferenceEntry.mk (DraftReference.id r) (DraftReference.name r)
    (default "file" (DraftReference.kind r))
    (default "application/octet-stream" (DraftReference.mimeType r))
    (default "" (trim <$> DraftReference.description r))
    (DraftReference.relativePath r) (DraftReference.resolvedPath r) (DraftReference.source r)
    (Some (default (if bool_decide (DraftReference.source r = Some "local_corpus") then "external" else "draft")
             (DraftReference.storageOwner r)))
    (DraftReference.attachmentId r) (DraftReference.inWorkspace r) (DraftReference.requiresDescription r)
    (default "" (DraftReference.assetUrl r)) (Some excluded).

(** [new Set(values)] as the list of its values. *)
Definition distinct (l : list string) : list string :=
  foldl (λ s x, if bool_decide (x ∈ s) then s else s ++ [x]) [] l.

Definition buildJobReferenceManifest (jobId threadId frozenAt : string) (references : list DraftReference.t)
    (ignored : option (list string)) : JobReferenceManifest.t :=
  let set := distinct (default [] ignored) in
  JobReferenceManifest.mk jobId threadId frozenAt set
    (map (λ r, buildReferenceEntryFromDraft (bool_decide (DraftReference.id r ∈ set)) r) references).

(** ** The stored text *)

(** A field that is undefined is left out by [JSON.stringify]. *)
Definition opt_field {A} (k : string) (f : A → json) (o : option A) : list (string * json) :=
  match o with Some v => [(k, f v)] | None => [] end.

Definition entry_json (e : JobReferenceEntry.t) : json :=
  JObj ([("id", JStr (JobReferenceEntry.id e)); ("name", JStr (JobReferenceEntry.name e));
         ("kind", JStr (JobReferenceEntry.kind e)); ("mimeType", JStr (JobReferenceEntry.mimeType e));
         ("description", JStr (JobReferenceEntry.description e))] ++
        opt_field "relativePath" JStr (JobReferenceEntry.relativePath e) ++
        opt_field "resolvedPath" JStr (JobReferenceEntry.resolvedPath e) ++
        opt_field "source" JStr (JobReferenceEntry.source e) ++
        opt_field "storageOwner" JStr (JobReferenceEntry.storageOwner e) ++
        opt_field "attachmentId" JStr (JobReferenceEntry.attachmentId e) ++
        opt_field "inWorkspace" JBool (JobReferenceEntry.inWorkspace e) ++
        [("readonly", JBool true); ("requiresDescription", JBool (JobReferenceEntry.requiresDescription e));
         ("assetUrl", JStr (JobReferenceEntry.assetUrl e))] ++
        opt_field "excludedFromCoverage" JBool (JobReferenceEntry.excludedFromCoverage e)).

Definition manifest_fields (m : JobReferenceManifest.t) : list (string * json) :=
  [("jobId", JStr (JobReferenceManifest.jobId m)); ("threadId", JStr (JobReferenceManifest.threadId m));
   ("frozenAt", JStr (JobReferenceManifest.frozenAt m));
   ("ignoredReferenceIds", JArr (map JStr (JobReferenceManifest.ignoredReferenceIds m)));
   ("references", JArr (map entry_json (JobReferenceManifest.references m)))].

(** ** Reading it back *)

(** [undefined] or [null] *)
Definition nullish (o : option json) : bool := match o with None | Some JNull => true | _ => false end.

Definition json_truthy (o : option json) : bool :=
  match o with
  | None | Some JNull => false
  | Some (JBool b) => b
  | Some (JNum n) => negb (bool_decide (n = 0)%Z)
  | Some (JStr s) => negb (bool_decide (s = ""))
  | Some (JArr _) | Some (JObj _) => true
  end.

(** [a ?? b] *)
Definition coalesce (a : option json) (b : json) : json :=
  match a with None | Some JNull => b | Some v => v end.

(** [{ ...v }] *)
Definition spread (v : json) : list (string * json) :=
  match v with
  | JObj fs => fs
  | JArr l => imap (λ i x, (pretty i, x)) l
  | JStr s => imap (λ i c, (pretty i, JStr (String c ""))) (String.list_ascii_of_string s)
  | _ => []
  end.

(** One entry of [parsed.references]; [None]: reading it throws. *)
Definition normalize_entry (entry : json) : option json :=
  match entry with
  | JNull => None
  | _ =>
      let get k := json_get k entry in
      kind ← (if nullish (get "kind") then
                match get "mimeType" with
                | None | Some JNull => Some (JStr "file")
                | Some (JStr m) => Some (JStr (if startsWith m "image/" then "image" else "file"))
                | Some _ => None
                end
              else get "kind");
      let source := coalesce (get "source") (JStr "attachment") in
      let owner := coalesce (get "storageOwner")
                     (JStr (match source with
                            | JStr s => if bool_decide (s = "local_corpus") then "external" else "draft"
                            | _ => "draft"
                            end)) in
      Some (JObj (foldl (λ fs kv, set_json_field kv.1 kv.2 fs) (spread entry)
        [("kind", kind); ("source", source); ("storageOwner", owner); ("readonly", JBool true);
         ("requiresDescription", coalesce (get "requiresDescription") (JBool false));
         ("assetUrl", coalesce (get "assetUrl") (JStr ""))]))
  end.

Definition parseJobReferenceManifest (raw : option string) : option json :=
  let text := default "" raw in
  if bool_decide (trim text = "") then None else
  parsed ← parse_json text;
  if negb (json_truthy (json_get "threadId" parsed)) then None else
  match json_get "references" parsed with
  | Some (JArr items) =>
      let jobId := coalesce (json_get "jobId" parsed) (coalesce (json_get "designSessionId" parsed) (JStr "")) in
      if negb (json_truthy (Some jobId)) then None else
      references ← mapM normalize_entry items;
      Some (JObj (foldl (λ fs kv, set_json_field kv.1 kv.2 fs) (spread parsed)
        [("jobId", jobId); ("designSessionId", coalesce (json_get "designSessionId" parsed) jobId);
         ("manifestRevision", coalesce (json_get "manifestRevision" parsed) (JNum 0));
         ("ignoredReferenceIds", coalesce (json_get "ignoredReferenceIds" parsed) (JArr []));
         ("references", JArr references)]))
  | _ => None
  end.

(** ** The attachments of a job *)

(** [None]: the assertion was given something that is not a string, a
    [TypeError] that is thrown on. *)
Fixpoint owned_ids (refs : list json) (ids : list string) : option (list string) :=
  match refs with
  | [] => Some ids
  | r :: refs' =>
      if negb (bool_decide (string_field "storageOwner" r = Some "job")) ||
         negb (json_truthy (json_get "attachmentId" r))
      then owned_ids refs' ids
      else match json_get "attachmentId" r with
           | Some (JStr a) =>
               match assertFrozenAttachmentId a with
               | Ok id => owned_ids refs' (if bool_decide (id ∈ ids) then ids else ids ++ [id])
               | Err _ => owned_ids refs' ids
               end
           | _ => None
           end
  end.

Definition collectJobOwnedAttachmentIds (rawManifest : option string) : option (list string) :=
  match parseJobReferenceManifest rawManifest with
  | None => Some []
  | Some m => match json_get "references" m with
              | Some (JArr refs) => owned_ids refs []
              | _ => None
              end
  end.

(** ** Coverage *)

(** The trimmed non-empty ids of all tasks. *)
Definition collectFlatPlanReferenceIds (tasks : list (option (list string))) : list string :=
  distinct (List.filter (λ s, negb (bool_decide (s = ""))) (map trim (concat (map (default []) tasks)))).

(** Milestones, slices and tasks, in order. *)
Definition collectPlanReferenceIds (plan : list (list (list (option (list string))))) : list string :=
  collectFlatPlanReferenceIds (concat (concat plan)).

Definition validateTaskReferenceIds (m : JobReferenceManifest.t) (referenceIds : list string) : list string :=
  map (λ id, "unknown referenceId " +:+ dquote +:+ id +:+ dquote)
    (List.filter (λ id, negb (bool_decide (id ∈ map JobReferenceEntry.id (JobReferenceManifest.references m)))) referenceIds).

(** The references that some task has to use. *)
Definition must_assign (m : JobReferenceManifest.t) (e : JobReferenceEntry.t) : bool :=
  negb (bool_decide (JobReferenceEntry.id e ∈ JobReferenceManifest.ignoredReferenceIds m) ||
        default false (JobReferenceEntry.excludedFromCoverage e)) &&
  JobReferenceEntry.requiresDescription e.

Definition validateReferenceCoverage (used : list string) (m : JobReferenceManifest.t) : list string :=
  map (λ e, "reference " +:+ dquote +:+ JobReferenceEntry.name e +:+ dquote +:+ " (" +:+ JobReferenceEntry.id e +:+
            ") is not assigned to any task")
    (List.filter (λ e, must_assign m e && negb (bool_decide (JobReferenceEntry.id e ∈ used)))
       (JobReferenceManifest.references m)).

(** [new Map(entries)]: the last entry of an id counts. *)
Definition entry_of (entries : list JobReferenceEntry.t) (id : string) : option JobReferenceEntry.t :=
  List.find (λ e, bool_decide (JobReferenceEntry.id e = id)) (rev entries).

Definition resolveAssignedReferences (m : JobReferenceManifest.t) (referenceIds : list string) :
    list JobReferenceEntry.t :=
  omap (entry_of (JobReferenceManifest.references m)) referenceIds.

(** ** What deletion purges *)

(** The attachments that the entries of a manifest say the job owns. *)
Fixpoint entry_attachments (es : list JobReferenceEntry.t) (ids : list string) : list string :=
  match es with
  | [] => ids
  | e :: es' =>
      entry_attachments es'
        (if bool_decide (JobReferenceEntry.storageOwner e = Some "job") then
           match JobReferenceEntry.attachmentId e with
           | Some a => if bool_decide (a = "") then ids else
                       match assertFrozenAttachmentId a with
                       | Ok id => if bool_decide (id ∈ ids) then ids else ids ++ [id]
                       | Err _ => ids
                       end
           | None => ids
           end
         else ids)
  end.

Definition default_owner (source : option string) : string :=
  match source with
  | Some s => if bool_decide (s = "local_corpus") then "external" else "draft"
  | None => "draft"
  end.

Lemma normalized_entry e :
  ∃ r, normalize_entry (entry_json e) = Some r ∧
    string_field "storageOwner" r =
      Some (default (default_owner (JobReferenceEntry.source e)) (JobReferenceEntry.storageOwner e)) ∧
    json_get "attachmentId" r = JStr <$> JobReferenceEntry.attachmentId e.
Proof.
  destruct e as [id name kind mime desc [rel|] [res|] [src|] [owner|] [att|] [inw|] req url [exc|]];
    (eexists; split; [reflexivity|]; split; reflexivity).
Qed.

Lemma owned_of_entries es : ∀ ids,
  ∃ refs, mapM normalize_entry (map entry_json es) = Some refs ∧ owned_ids refs ids = Some (entry_attachments es ids).
Proof.
  induction es as [|e es IH]; intros ids; [by exists []|].
  destruct (normalized_entry e) as (r & Hr & Hown & Hatt).
  cbn [entry_attachments].
  match goal with |- context [entry_attachments es ?x] => destruct (IH x) as (refs & Hrefs & Ho) end.
  exists (r :: refs). split; [change (map entry_json (e :: es)) with (entry_json e :: map entry_json es); cbn [mapM]; rewrite Hr; cbn; by rewrite Hrefs|]. rewrite <-Ho. clear Ho IH.
  cbn [owned_ids]. rewrite Hatt.
  assert (string_field "storageOwner" r = Some "job" ↔ JobReferenceEntry.storageOwner e = Some "job") as Hjob.
  { rewrite Hown. unfold default_owner. destruct (JobReferenceEntry.storageOwner e); cbn; [naive_solver|].
    destruct (JobReferenceEntry.source e); [case_bool_decide|]; naive_solver. }
  rewrite (bool_decide_ext _ _ Hjob).
  destruct (bool_decide (JobReferenceEntry.storageOwner e = Some "job")); [|done].
  destruct (JobReferenceEntry.attachmentId e) as [a|]; [|done]. cbn.
  destruct (bool_decide (a = "")); [done|]. cbn. by destruct (assertFrozenAttachmentId a).
Qed.

Lemma entry_keys_unique e : keys_unique (entry_json e) = true.
Proof.
  destruct e as [id name kind mime desc [rel|] [res|] [src|] [owner|] [att|] [inw|] req url [exc|]]; reflexivity.
Qed.

Lemma manifest_keys_unique m : keys_unique (JObj (manifest_fields m)) = true.
Proof.
  unfold manifest_fields. cbn [keys_unique forallb snd]. rewrite bool_decide_eq_true_2.
  - cbn [andb]. rewrite andb_true_r. apply andb_true_iff. split; apply forallb_forall; intros x [y [<- _]]%in_map_iff;
      [done|apply entry_keys_unique].
  - apply (bool_decide_unpack _). by vm_compute.
Qed.

Lemma object_not_blank fs : bool_decide (trim (stringify (JObj fs)) = "") = false.
Proof.
  apply bool_decide_eq_false_2. cbn [stringify].
  pose proof (trim_closed "{" (join "," (map (λ kv, quoteJsonString kv.1 +:+ ":" +:+ stringify kv.2) fs)) "}"
                eq_refl eq_refl) as H.
  intros Hn. by assert ("" = String "{" (join "," (map (λ kv, quoteJsonString kv.1 +:+ ":" +:+ stringify kv.2) fs) +:+ String "}" "")) by (rewrite <-Hn at 1; exact H).
Qed.

(** The attachments that a deletion purges, read from the stored text of the reference
    manifest of a job, are exactly those its entries say the job owns, each once and in order. *)
Theorem purged_attachments_are_owned (m : JobReferenceManifest.t) :
  JobReferenceManifest.jobId m ≠ "" → JobReferenceManifest.threadId m ≠ "" →
  collectJobOwnedAttachmentIds (Some (stringify (JObj (manifest_fields m)))) =
  Some (entry_attachments (JobReferenceManifest.references m) []).
Proof.
  intros Hj Ht. unfold collectJobOwnedAttachmentIds, parseJobReferenceManifest.
  set (v := JObj (manifest_fields m)). change (default "" (Some (stringify v))) with (stringify v).
  pose proof (object_not_blank (manifest_fields m)) as Hb. fold v in Hb. rewrite Hb.
  rewrite (parse_stringify v) by apply manifest_keys_unique. cbn [mbind option_bind].
  change (json_get "threadId" v) with (Some (JStr (JobReferenceManifest.threadId m))).
  change (json_get "references" v) with (Some (JArr (map entry_json (JobReferenceManifest.references m)))).
  change (coalesce (json_get "jobId" v) _) with (JStr (JobReferenceManifest.jobId m)).
  cbn [json_truthy]. rewrite !bool_decide_eq_false_2 by done. cbn [negb].
  destruct (owned_of_entries (JobReferenceManifest.references m) []) as (refs & -> & <-).
  reflexivity.
Qed.
