(* ===== verification/Deletion.v ===== *)
(** * The deletion coordinator

    Models [src/server/legacy-control-plane/deletion-coordinator.ts]: durable
    requests that move a job, a thread or a project through draining, deletion of
    its rows and cleanup of its files, in phases that a retry or the next start
    of the process continues; with the cascade from a project to its threads and
    from a thread to its jobs.  A request is executed without interleaving with
    another; the environment can make every awaited call fail and can end the
    process before it.  The recursion is bounded by a depth: [executeDeletionRequest]
    at depth 0 raises an error that the code does not have. *)
From stdpp Require Import pretty.
From Stdlib Require Import Ascii.
From S2P Require Import Prelude Json JsString Path Sql WorkspaceLease TaskAttempts JsonParse JobReferences.
From S2P Require Import WorkloadSlots JobRows QueueCoordinator Act Registries Host RunLifecycle.
Local Open Scope act_scope.

#[local] Arguments bool_decide : simpl never.

(** ** Rows *)

Definition requests (h : host) : list deletion_request := deletions (h_work h).

Definition request_by_id (id : string) (d : deletion_request) : bool := bool_decide (dl_id d = id).

Definition incomplete (d : deletion_request) : bool := bool_decide (dl_phase d ∈ INCOMPLETE_PHASES).

Definition set_request_phase (phase status : string) (now : Z) (d : deletion_request) : deletion_request :=
  mkDeletion (dl_id d) (dl_entityKind d) (dl_entityId d) (dl_username d) status phase (dl_threadId d)
    (dl_projectId d) (dl_workspacePath d) (dl_frozenJson d) (dl_cleanupTargetsJson d) (dl_retryCount d)
    (dl_lastError d) (dl_errorJson d) (dl_createdAt d) now.

Definition set_request_error (status : option string) (message : string) (retryCount now : Z)
    (d : deletion_request) : deletion_request :=
  mkDeletion (dl_id d) (dl_entityKind d) (dl_entityId d) (dl_username d) (default (dl_status d) status) (dl_phase d)
    (dl_threadId d) (dl_projectId d) (dl_workspacePath d) (dl_frozenJson d) (dl_cleanupTargetsJson d) retryCount
    (Some message) (Some (stringify (JObj [("message", JStr message)]))) (dl_createdAt d) now.

Definition update_request (id : string) (f : deletion_request → deletion_request) (h : host) : host :=
  set_host_work (set_deletions (update_where (request_by_id id) f (requests h)) (h_work h)) h.

(** ** What is frozen *)

(** [parseFrozenSnapshot]: a text that is empty or not JSON is an empty snapshot. *)
Definition parseFrozenSnapshot (raw : option string) : json :=
  let text := default "" raw in
  if bool_decide (trim text = "") then JObj [] else default (JObj []) (parse_json text).

Definition parseCleanupTargets (raw : option string) : option json :=
  let text := default "" raw in
  if bool_decide (trim text = "") then None else parse_json text.

(** An array of strings in a field. *)
Definition strings_field (key : string) (v : json) : list string :=
  match json_get key v with
  | Some (JArr l) => omap (λ x, match x with JStr s => Some s | _ => None end) l
  | _ => []
  end.

Definition text_field (key : string) (v : json) : option string :=
  match json_get key v with Some (JStr s) => Some s | _ => None end.

(** [FrozenJobRuntimeIdentity] of a job *)
Definition runtime_json (jobId : string) (activeRunId leaseOwner : option string) : json :=
  JObj [("activeRunId", json_of_option activeRunId); ("executionLeaseOwner", json_of_option leaseOwner);
        ("workspaceLeaseOwnerKind", JStr "thread_job"); ("workspaceLeaseOwnerId", JStr jobId)].

Definition freezeJobRuntimeIdentity (jobId : string) (h : host) : json :=
  let row := find_job (h_work h) jobId in
  runtime_json jobId (row ≫= jb_activeRunId) (row ≫= jb_leaseOwner).

Definition job_frozen (runtime : json) (deleteOwningThread : option bool) : json :=
  JObj (("runtime", runtime) ::
        match deleteOwningThread with Some b => [("deleteOwningThread", JBool b)] | None => [] end).

Definition job_targets (threadId jobId : string) (attachmentIds : list string) : json :=
  JObj [("kind", JStr "job"); ("threadId", JStr threadId); ("jobId", JStr jobId);
        ("attachmentIds", JArr (map JStr attachmentIds))].

Definition thread_frozen (childJobIds : list string) : json :=
  JObj [("childJobIds", JArr (map JStr childJobIds))].

Definition thread_targets (threadId : string) (messageIds : list string) : json :=
  JObj [("kind", JStr "thread"); ("threadId", JStr threadId);
        ("targets", JObj [("messageIds", JArr (map JStr messageIds))])].

Definition project_frozen (childThreadIds : list string) : json :=
  JObj [("childThreadIds", JArr (map JStr childThreadIds))].

Definition project_targets : json := JObj [("kind", JStr "project")].

(** ** Queries *)

Definition active_for (kind id : string) (d : deletion_request) : bool :=
  bool_decide (dl_entityKind d = kind) && bool_decide (dl_entityId d = id) && incomplete d.

Definition findActiveDeletionRequest (kind id : string) (h : host) : option string :=
  dl_id <$> List.find (active_for kind id) (requests h).

Definition isEntityDeletionBlocked (kind id : string) (h : host) : bool :=
  WorkloadSlots.isEntityDeletionBlocked kind id (h_work h).

Definition isProjectDeletionBlocked (projectId : string) (h : host) : bool :=
  isEntityDeletionBlocked "project" projectId h.

Definition find_thread (threadId : string) (h : host) : option ThreadRow.t :=
  List.find (λ t, bool_decide (ThreadRow.id t = threadId)) (h_threads h).

Definition isThreadProjectDeletionBlocked (threadId : string) (h : host) : bool :=
  if isEntityDeletionBlocked "thread" threadId h then true
  else if existsb (λ d, bool_decide (dl_entityKind d = "thread_job") && bool_decide (dl_threadId d = Some threadId) &&
                        incomplete d) (requests h) then true
  else
    let projectId := ThreadRow.projectId <$> find_thread threadId h in
    if bool_decide (default "" projectId = "") then
      match List.find (active_for "thread" threadId) (requests h) ≫= dl_projectId with
      | Some p => if bool_decide (p = "") then false else isProjectDeletionBlocked p h
      | None => false
      end
    else isProjectDeletionBlocked (default "" projectId) h.

(** ** Writing requests *)

Section deletion.
Context (clock : nat → Z) (uuid : nat → string).
Context (advance : nat → list (string * string) → queue → result string unit * queue).

Notation now := (now clock).

Definition loadDeletionRequest (requestId : string) : hostM deletion_request := λ h,
  match List.find (request_by_id requestId) (requests h) with
  | Some d => (Returned d, h)
  | None => (Raised (plain_error ("deletion_request.not_found:" +:+ requestId)), h)
  end.

Record deletion_input := mkInput {
  di_entityKind : string;
  di_entityId : string;
  di_username : string;
  di_threadId : option string;
  di_projectId : option string;
  di_workspacePath : option string;
  di_frozenJson : option string;
  di_cleanupTargetsJson : option string
}.

Definition new_request (id : string) (now : Z) (i : deletion_input) : deletion_request :=
  mkDeletion id (di_entityKind i) (di_entityId i) (di_username i) "draining" "requested" (di_threadId i)
    (di_projectId i) (di_workspacePath i) (di_frozenJson i) (di_cleanupTargetsJson i) 0 None None now now.

(** Each call takes a new id, like [randomUUID]. *)
Definition createDeletionRequest (i : deletion_input) : hostM string := λ h,
  match findActiveDeletionRequest (di_entityKind i) (di_entityId i) h with
  | Some existing => (Returned existing, h)
  | None =>
      let id := "del-" +:+ uuid (h_ticks h) in
      let h' := set_answers (h_answers h) (S (h_ticks h)) h in
      if existsb (request_by_id id) (requests h) then
        (Raised (plain_error "UNIQUE constraint failed: deletion_requests.id"), h')
      else
        (Returned id,
         set_host_work (set_deletions (requests h ++ [new_request id (now h) i]) (h_work h)) h')
  end.

(** Without a status of its own: ['completed'] when completed, else ['draining']. *)
Definition updateDeletionPhase (requestId phase : string) : hostM unit :=
  await (act_modify (λ h, update_request requestId
    (set_request_phase phase (if bool_decide (phase = "completed") then "completed" else "draining") (now h)) h)).

Definition recordFailure (status : option string) (requestId : string) (e : Failure.t) : hostM unit :=
  let~ request := loadDeletionRequest requestId in
  await (act_modify (λ h, update_request requestId
    (set_request_error status (Failure.message e) (dl_retryCount request + 1) (now h)) h)).

Definition recordDeletionFailure : string → Failure.t → hostM unit := recordFailure (Some "failed").
Definition recordFilesystemCleanupFailure : string → Failure.t → hostM unit := recordFailure None.

(** ** Stopping a job *)

Definition stop_and_release (runId : string) : hostM unit :=
  do~ stopRunLifecycle clock advance runId "deleted" true in
  act_ignore (releaseWorkloadSlot clock advance runId (Some "deleted") true).

Definition stop_loop (jobId : string) : hostM unit :=
  let~ executing := act_gets (λ h, Loops.isLoopActive jobId (h_loops h)) in
  act_when executing
    (do~ update_loops (λ g, Loops.clearAbortController jobId
           (Loops.abortActiveTurn jobId (Loops.setControl jobId JobControlState.cancelling g))) in
     do~ act_modify (add_effects [CancelSandboxTurns jobId]) in
     update_loops (Loops.dropRuntime jobId)).

Definition stopJobRuntimeByFrozenIdentity (jobId : string) (frozen : json) : hostM unit :=
  do~ stop_loop jobId in
  let frozenRun := text_field "activeRunId" frozen in
  do~ (if negb (bool_decide (default "" frozenRun = "")) then stop_and_release (default "" frozenRun)
       else
         do~ ask in
         let~ active := act_gets (λ h, getActiveRun jobId (h_work h)) in
         match active with
         | Some r => stop_and_release (Run.id r)
         | None => act_ret tt
         end) in
  do~ await (act_modify (λ h, set_host_work (clearExecutionLease (now h) jobId (h_work h)) h)) in
  do~ act_modify (λ h, set_host_leases
        (releaseWorkspaceLeaseForOwner OwnerKind.thread_job jobId None (now h) (w_leases (h_queue h))) h) in
  act_ignore (call (ReleaseCursorResources jobId)).

(** ** Deleting rows *)

Definition delete_jobs (p : job → bool) (h : host) : host :=
  set_host_work (set_jobs (List.filter (λ j, negb (p j)) (h_jobs h)) (h_work h)) h.

(** [ON DELETE CASCADE] from a thread to its jobs. *)
Definition delete_threads (p : ThreadRow.t → bool) (h : host) : host :=
  let gone := map ThreadRow.id (List.filter p (h_threads h)) in
  delete_jobs (λ j, bool_decide (JobContent.threadId (jb_content j) ∈ gone))
    (set_rows (List.filter (λ t, negb (p t)) (h_threads h)) (h_projects h) h).

(** [ON DELETE CASCADE] from a project to its threads. *)
Definition delete_projects (p : ProjectRow.t → bool) (h : host) : host :=
  let gone := map ProjectRow.id (List.filter p (h_projects h)) in
  delete_threads (λ t, bool_decide (ThreadRow.projectId t ∈ gone))
    (set_rows (h_threads h) (List.filter (λ t, negb (p t)) (h_projects h)) h).

Definition deleteEntityDatabaseRows (r : deletion_request) : hostM unit :=
  await (if bool_decide (dl_entityKind r = "thread_job") then
    act_modify (λ h, add_effects [ClearJobEvents (dl_entityId r)] (delete_jobs (by_id (dl_entityId r)) h))
  else if bool_decide (dl_entityKind r = "thread") then
    act_modify (delete_threads (λ t, bool_decide (ThreadRow.username t = dl_username r) &&
                                     bool_decide (ThreadRow.id t = dl_entityId r)))
  else if bool_decide (dl_entityKind r = "project") then
    act_modify (delete_projects (λ p, bool_decide (ProjectRow.username p = dl_username r) &&
                                      bool_decide (ProjectRow.id p = dl_entityId r)))
  else act_ret tt).

(** ** Cleaning up files *)

Definition purgeCleanupTargets (r : deletion_request) : hostM unit :=
  match parseCleanupTargets (dl_cleanupTargetsJson r) with
  | None => act_ret tt
  | Some targets =>
      let threadId := default "" (text_field "threadId" targets) in
      if bool_decide (text_field "kind" targets = Some "project") then act_ret tt
      else if bool_decide (text_field "kind" targets = Some "job") then
        do~ call (PurgeJobFiles threadId (default "" (text_field "jobId" targets))) in
        act_for (strings_field "attachmentIds" targets) (λ a, call (PurgeAttachment threadId a))
      else
        call (PurgeThreadFiles threadId
          (strings_field "messageIds" (default (JObj []) (json_get "targets" targets))))
  end.

(** ** The cascade: what needs [executeDeletionRequest] *)

Section cascade.
Context (exec : string → hostM unit).

Definition drainAndDeleteJob (username jobId : string) : hostM unit :=
  let~ active := act_gets (findActiveDeletionRequest "thread_job" jobId) in
  match active with
  | Some id => exec id
  | None =>
      let~ row := act_gets (getUserJob username jobId) in
      match row with
      | None => act_raise (Failure.mk "Job not found" (Some "job.not_found"))
      | Some j =>
          let c := jb_content j in
          do~ ask in
          let~ thread := act_gets (find_thread (JobContent.threadId c)) in
          let~ frozen := act_gets (freezeJobRuntimeIdentity jobId) in
          match collectJobOwnedAttachmentIds (JobContent.referenceManifestJson c) with
          | None => act_raise (plain_error "raw.trim is not a function")
          | Some attachments =>
              let~ requestId := createDeletionRequest (mkInput "thread_job" jobId username
                (Some (JobContent.threadId c)) (ThreadRow.projectId <$> thread) (Some (JobContent.workspacePath c))
                (Some (stringify (job_frozen frozen
                   (Some (bool_decide (ThreadRow.threadKind <$> thread = Some "task_snapshot"))))))
                (Some (stringify (job_targets (JobContent.threadId c) jobId attachments)))) in
              exec requestId
          end
      end
  end.

Definition drainAndDeleteThread (username threadId : string) : hostM unit :=
  let~ active := act_gets (findActiveDeletionRequest "thread" threadId) in
  match active with
  | Some id => exec id
  | None =>
      do~ ask in
      let~ row := act_gets (λ h, List.find (λ t, bool_decide (ThreadRow.username t = username) &&
                                                 bool_decide (ThreadRow.id t = threadId)) (h_threads h)) in
      match row with
      | None => act_raise (Failure.mk "Thread not found" (Some "thread.not_found"))
      | Some t =>
          let~ jobIds := act_gets (λ h, map jb_id (List.filter (λ j,
            bool_decide (JobContent.threadId (jb_content j) = threadId) && bool_decide (jb_username j = username))
            (h_jobs h))) in
          let~ requestId := createDeletionRequest (mkInput "thread" threadId username
            (Some threadId) (Some (ThreadRow.projectId t)) None
            (Some (stringify (thread_frozen jobIds)))
            (Some (stringify (thread_targets threadId (ThreadRow.messageIds t))))) in
          exec requestId
      end
  end.

Definition drainAndDeleteProject (username projectId : string) : hostM unit :=
  let~ active := act_gets (findActiveDeletionRequest "project" projectId) in
  match active with
  | Some id => exec id
  | None =>
      do~ ask in
      let~ row := act_gets (λ h, List.find (λ p, bool_decide (ProjectRow.username p = username) &&
                                                 bool_decide (ProjectRow.id p = projectId)) (h_projects h)) in
      match row with
      | None => act_raise (Failure.mk "Project not found" (Some "project.not_found"))
      | Some _ =>
          let~ threadIds := act_gets (λ h, map ThreadRow.id (List.filter (λ t,
            bool_decide (ThreadRow.projectId t = projectId) && bool_decide (ThreadRow.username t = username))
            (h_threads h))) in
          let~ requestId := createDeletionRequest (mkInput "project" projectId username
            None (Some projectId) None
            (Some (stringify (project_frozen threadIds))) (Some (stringify project_targets))) in
          exec requestId
      end
  end.

Definition ensureChildJobsDeleted (username : string) (childJobIds : list string) : hostM unit :=
  act_for childJobIds (λ jobId,
    let~ active := act_gets (findActiveDeletionRequest "thread_job" jobId) in
    match active with
    | Some id => exec id
    | None =>
        do~ ask in
        let~ row := act_gets (getUserJob username jobId) in
        match row with
        | Some _ => drainAndDeleteJob username jobId
        | None => act_ret tt
        end
    end).

Definition ensureChildThreadsDeleted (username : string) (childThreadIds : list string) : hostM unit :=
  act_for childThreadIds (λ threadId,
    let~ active := act_gets (findActiveDeletionRequest "thread" threadId) in
    match active with
    | Some id => exec id
    | None =>
        do~ ask in
        let~ row := act_gets (λ h, List.find (λ t, bool_decide (ThreadRow.id t = threadId) &&
                                                   bool_decide (ThreadRow.username t = username)) (h_threads h)) in
        match row with
        | Some _ => drainAndDeleteThread username threadId
        | None => act_ret tt
        end
    end).

Definition touchProject (username projectId : string) : hostM unit :=
  await (act_modify (λ h, set_rows (h_threads h)
    (update_where (λ p, bool_decide (ProjectRow.username p = username) && bool_decide (ProjectRow.id p = projectId))
       (ProjectRow.touch (now h)) (h_projects h)) h)).

Definition runPostDeletionHooks (r : deletion_request) : hostM unit :=
  if bool_decide (dl_entityKind r = "thread_job") then
    let threadId := default "" (dl_threadId r) in
    let wanted := negb (bool_decide (threadId = "")) &&
                  json_truthy (json_get "deleteOwningThread" (parseFrozenSnapshot (dl_frozenJson r))) in
    let~ blocked := act_gets (isEntityDeletionBlocked "thread" threadId) in
    do~ act_when (wanted && negb blocked) (drainAndDeleteThread (dl_username r) threadId) in
    act_ignore (advanceExecutionQueue advance (dl_username r))
  else if bool_decide (dl_entityKind r = "thread") && negb (bool_decide (default "" (dl_projectId r) = "")) then
    touchProject (dl_username r) (default "" (dl_projectId r))
  else act_ret tt.

(** ** The phases *)

Definition is_thread (r : deletion_request) : bool := bool_decide (dl_entityKind r = "thread").

(** [requested] and [draining] *)
Definition drain (r : deletion_request) : hostM unit :=
  let frozen := parseFrozenSnapshot (dl_frozenJson r) in
  do~ act_when (bool_decide (dl_entityKind r = "project"))
        (ensureChildThreadsDeleted (dl_username r) (strings_field "childThreadIds" frozen)) in
  do~ act_when (is_thread r)
        (ensureChildJobsDeleted (dl_username r) (strings_field "childJobIds" frozen)) in
  do~ (match json_get "runtime" frozen with
       | Some rt => act_when (bool_decide (dl_entityKind r = "thread_job") && json_truthy (Some rt))
                      (stopJobRuntimeByFrozenIdentity (dl_entityId r) rt)
       | None => act_ret tt
       end) in
  do~ act_when (is_thread r && negb (bool_decide (default "" (dl_threadId r) = "")))
        (call (CloseConversationCursor (default "" (dl_threadId r)))) in
  do~ ask in
  do~ act_when (bool_decide (dl_phase r = "requested")) (updateDeletionPhase (dl_id r) "draining") in
  updateDeletionPhase (dl_id r) "runtime_closed".

(** [runtime_closed] *)
Definition delete_rows (r : deletion_request) : hostM unit :=
  do~ ask in
  do~ deleteEntityDatabaseRows r in
  updateDeletionPhase (dl_id r) "database_deleted".

(** [database_deleted] *)
Definition clean_files (r : deletion_request) : hostM unit :=
  do~ ask in
  do~ act_catch (purgeCleanupTargets r) (λ e,
        do~ recordFilesystemCleanupFailure (dl_id r) e in act_raise e) in
  updateDeletionPhase (dl_id r) "filesystem_cleaned".

(** [filesystem_cleaned] *)
Definition finish (r : deletion_request) : hostM unit :=
  do~ runPostDeletionHooks r in
  updateDeletionPhase (dl_id r) "completed".

(** The phases from the one the request is in. *)
Definition run_phases (r : deletion_request) : hostM unit :=
  if bool_decide (dl_phase r ∈ ["requested"; "draining"]) then
    do~ drain r in do~ delete_rows r in do~ clean_files r in finish r
  else if bool_decide (dl_phase r = "runtime_closed") then
    do~ delete_rows r in do~ clean_files r in finish r
  else if bool_decide (dl_phase r = "database_deleted") then
    do~ clean_files r in finish r
  else if bool_decide (dl_phase r = "filesystem_cleaned") then finish r
  else act_ret tt.
End cascade.

Fixpoint executeDeletionRequest (depth : nat) (requestId : string) : hostM unit :=
  match depth with
  | O => act_raise (plain_error "depth")
  | S depth' =>
      let~ request := loadDeletionRequest requestId in
      if bool_decide (dl_phase request = "completed") then act_ret tt
      else
        act_catch (run_phases (executeDeletionRequest depth') request) (λ e,
          let~ current := loadDeletionRequest requestId in
          do~ act_when (negb (bool_decide (dl_phase current = "completed")) &&
                        negb (bool_decide (dl_phase current = "database_deleted")))
                (recordDeletionFailure requestId e) in
          act_raise e)
  end.

(** A project, its threads, their jobs; or a job, its thread, the jobs of it. *)
Definition DEPTH : nat := 3.

Definition deleteJob : string → string → hostM unit := drainAndDeleteJob (executeDeletionRequest DEPTH).
Definition deleteThread : string → string → hostM unit := drainAndDeleteThread (executeDeletionRequest DEPTH).
Definition deleteProject : string → string → hostM unit := drainAndDeleteProject (executeDeletionRequest DEPTH).

(** ** Planning jobs *)

Inductive claim := ClaimMissing | ClaimLaunched | ClaimDelete (requestId : string).

Definition claim_planning (username jobId : string) : hostM claim :=
  let~ active := act_gets (findActiveDeletionRequest "thread_job" jobId) in
  match active with
  | Some id => act_ret (ClaimDelete id)
  | None =>
      let~ row := act_gets (getUserJob username jobId) in
      match row with
      | None => act_ret ClaimMissing
      | Some j =>
          if negb (bool_decide (jb_planConfirmedAt j = None)) then act_ret ClaimLaunched
          else
            let c := jb_content j in
            let~ thread := act_gets (find_thread (JobContent.threadId c)) in
            let~ requestId := createDeletionRequest (mkInput "thread_job" jobId username
              (Some (JobContent.threadId c)) (ThreadRow.projectId <$> thread) (Some (JobContent.workspacePath c))
              (Some (stringify (job_frozen (runtime_json jobId (jb_activeRunId j) (jb_leaseOwner j)) None)))
              (Some (stringify (job_targets (JobContent.threadId c) jobId [])))) in
            act_ret (ClaimDelete requestId)
      end
  end.

(** [true]: deleted; [false]: launched. *)
Definition drainAndDeletePlanningJob (username jobId : string) : hostM bool :=
  let~ c := claim_planning username jobId in
  match c with
  | ClaimMissing => act_raise (Failure.mk "Job not found" (Some "job.not_found"))
  | ClaimLaunched => act_ret false
  | ClaimDelete id => do~ executeDeletionRequest DEPTH id in act_ret true
  end.

(** ** Startup *)

Fixpoint resume_all (ids errors : list string) : hostM (list string) :=
  match ids with
  | [] => act_ret errors
  | id :: ids' =>
      let~ failed := act_catch (do~ executeDeletionRequest DEPTH id in act_ret false) (λ _, act_ret true) in
      resume_all ids' (if failed : bool then errors ++ [id] else errors)
  end.

Definition resumePendingDeletionRequestsOnStartup : hostM unit :=
  let~ ids := act_gets (λ h, map dl_id (List.filter incomplete (requests h))) in
  let~ errors := resume_all ids [] in
  match errors with
  | [] => act_ret tt
  | _ => act_raise (plain_error "Failed to resume pending deletion requests")
  end.
End deletion.
