(* ===== verification/DeletionSpecs.v ===== *)
(** * Deletions survive failures and restarts *)
From stdpp Require Import pretty.
From Stdlib Require Import Ascii.
From S2P Require Import Prelude Json JsString Path Sql WorkspaceLease TaskAttempts WorkloadSlots JobRows.
From S2P Require Import WorkloadSpecs QueueCoordinator JsonParse Act Registries Host RunLifecycle JobReferences.
From S2P Require Import Deletion.
Local Open Scope act_scope.
#[local] Arguments bool_decide : simpl never.

(** ** An environment without faults *)

(** The computation ends, and does not die; [quiet]: it also returns. *)
Definition calm {A} (m : hostM A) : Prop := ∀ h, h_answers h = [] → (m h).1 ≠ Died ∧ h_answers (m h).2 = [].
Definition quiet {A} (m : hostM A) : Prop := ∀ h, h_answers h = [] →
  ∃ a h', m h = (Returned a, h') ∧ h_answers h' = [].

Lemma quiet_calm {A} (m : hostM A) : quiet m → calm m.
Proof. intros Hm h Hh. by destruct (Hm h Hh) as (a & h' & -> & ?). Qed.

Lemma quiet_bind {A B} (m : hostM A) (k : A → hostM B) : quiet m → (∀ a, quiet (k a)) → quiet (act_bind m k).
Proof.
  intros Hm Hk h Hh. destruct (Hm h Hh) as (a & h1 & Hr & Hh1). unfold act_bind. rewrite Hr. by apply Hk.
Qed.

Lemma calm_bind {A B} (m : hostM A) (k : A → hostM B) : calm m → (∀ a, calm (k a)) → calm (act_bind m k).
Proof.
  intros Hm Hk h Hh. destruct (Hm h Hh) as [Hd Ha]. unfold act_bind.
  destruct (m h) as [[a|e|] h1]; cbn in *; [by apply Hk|done|done].
Qed.

Lemma quiet_ret {A} (a : A) : quiet (act_ret a).
Proof. intros h Hh. by eexists _, _. Qed.

Lemma quiet_gets {A} (f : host → A) : quiet (act_gets f).
Proof. intros h Hh. by eexists _, _. Qed.

Lemma quiet_modify f : (∀ h, h_answers (f h) = h_answers h) → quiet (act_modify f).
Proof. intros Hf h Hh. eexists _, _. split; [done|]. by rewrite Hf. Qed.

Lemma quiet_ask : quiet ask.
Proof. intros h Hh. rewrite ask_quiet by done. by eexists _, _. Qed.

Lemma quiet_await {A} (m : hostM A) : quiet m → quiet (await m).
Proof. intros Hm. apply quiet_bind; [apply quiet_ask|by intros _]. Qed.

Lemma quiet_call e : quiet (call e).
Proof. by apply quiet_await, quiet_modify. Qed.

Lemma quiet_when b m : quiet m → quiet (act_when b m).
Proof. destruct b; [done|]. intros _. apply quiet_ret. Qed.

Lemma quiet_ignore {A} (m : hostM A) : calm m → quiet (act_ignore m).
Proof.
  intros Hm h Hh. destruct (Hm h Hh) as [Hd Ha]. unfold act_ignore, act_catch, act_bind.
  destruct (m h) as [[a|e|] h1]; cbn in *; [by eexists _, _..|done].
Qed.

Lemma quiet_for {A} (xs : list A) body : (∀ x, quiet (body x)) → quiet (act_for xs body).
Proof. intros Hb. induction xs as [|x xs IH]; cbn; [apply quiet_ret|]. by apply quiet_bind. Qed.

Lemma quiet_catch {A} (m : hostM A) h : quiet m → quiet (act_catch m h).
Proof. intros Hm h0 Hh. destruct (Hm h0 Hh) as (a & h1 & Hr & Ha). unfold act_catch. rewrite Hr. by eexists _, _. Qed.

Create HintDb quiet_db.
#[export] Hint Resolve quiet_ret quiet_gets quiet_modify quiet_ask quiet_await quiet_call quiet_when quiet_ignore
  quiet_for quiet_catch quiet_calm : quiet_db.

Ltac solve_quiet :=
  repeat first
    [ progress intros
    | solve [eauto 6 with quiet_db]
    | simple apply quiet_bind
    | simple apply quiet_when
    | simple apply quiet_await
    | case_match ].

Section quiet.
Context (clock : nat → Z) (uuid : nat → string).
Context (advance : nat → list (string * string) → queue → result string unit * queue).

Lemma quiet_on_handle m runId : quiet (on_handle m runId).
Proof. unfold on_handle. solve_quiet. Qed.

Lemma quiet_closeRunRuntime runId : quiet (closeRunRuntime runId).
Proof. unfold closeRunRuntime, unregisterRunRuntime. solve_quiet. Qed.

Lemma quiet_mark_cancelling runId reason : quiet (markRunCancelling clock runId reason).
Proof. unfold markRunCancelling, mark_if_live. solve_quiet. Qed.

Lemma calm_advance u : calm (advanceExecutionQueue advance u).
Proof.
  apply calm_bind; [apply quiet_calm, quiet_ask|]. intros _ h Hh. destruct (advance _ _ _) as [[[]|e] q]; done.
Qed.

Lemma quiet_on_release e : quiet (on_release advance e).
Proof.
  destruct e; cbn; [solve_quiet..|]. apply quiet_ignore, calm_bind; [apply calm_advance|].
  intros _. apply quiet_calm, quiet_call.
Qed.

Lemma calm_release runId reason skip : calm (releaseWorkloadSlot clock advance runId reason skip).
Proof.
  apply calm_bind; [apply quiet_calm, quiet_ask|]. intros _ h Hh.
  destruct (WorkloadSlots.releaseWorkloadSlot _ _ _ _ _ _) as [[[res es]|e] s]; [|done].
  apply (quiet_calm (do~ act_for es (on_release advance) in act_ret res)); [|done].
  apply quiet_bind; [apply quiet_for, quiet_on_release|]. intros _. apply quiet_ret.
Qed.

Hint Resolve quiet_on_handle quiet_closeRunRuntime quiet_mark_cancelling calm_release calm_advance : quiet_db.

Lemma quiet_stop_runtime runId : quiet (stop_runtime clock runId).
Proof.
  unfold stop_runtime, abort_run, cancelRun, stopRun, hardKill, waitClosedOrQuarantine, closeRunRuntimeOrQuarantine, waitClosed.
  solve_quiet; [apply quiet_modify; intros h; by case_bool_decide|..];
    apply quiet_ignore, quiet_calm, quiet_ignore, quiet_calm, quiet_on_handle.
Qed.

Lemma quiet_stop runId reason skip : quiet (stopRunLifecycle clock advance runId reason skip).
Proof. unfold stopRunLifecycle. pose proof (quiet_stop_runtime runId). solve_quiet. Qed.

Lemma quiet_stop_and_release runId : quiet (stop_and_release clock advance runId).
Proof. pose proof (quiet_stop runId "deleted" true). unfold stop_and_release. solve_quiet. Qed.

Hint Resolve quiet_stop quiet_stop_and_release : quiet_db.

Lemma quiet_stopJob jobId frozen : quiet (stopJobRuntimeByFrozenIdentity clock advance jobId frozen).
Proof.
  unfold stopJobRuntimeByFrozenIdentity, stop_loop, update_loops. solve_quiet.
Qed.
End quiet.

(** ** What stopping a job leaves alone *)

Definition ids_of (h : host) : list string := job_ids (h_queue h).

Record frame (h h' : host) : Prop := Frame {
  fr_requests : requests h' = requests h;
  fr_jobs : ∀ j, j ∈ ids_of h' → j ∈ ids_of h;
  fr_effects : ∀ e, e ∈ h_effects h → e ∈ h_effects h';
  fr_threads : h_threads h' = h_threads h;
  fr_ticks : h_ticks h ≤ h_ticks h'
}.

#[export] Instance frame_preorder : PreOrder frame.
Proof.
  split; [by intros h; split|]. intros h1 h2 h3 [A1 A2 A3 A4 A5] [B1 B2 B3 B4 B5].
  split; [congruence|auto|auto|congruence|lia].
Qed.

Lemma mark_run_jobs {C} st reason t runId (s : @work_db C) :
  jobs (mark_run st reason t runId s) = jobs s ∧ deletions (mark_run st reason t runId s) = deletions s.
Proof. done. Qed.

Lemma frame_ask : keeps frame ask.
Proof. intros h. unfold ask. destruct (h_answers h) as [|[] l]; split; try done; cbn; lia. Qed.

(** A change of the stores that keeps the requests and adds no job. *)
Lemma frame_work h s :
  deletions s = requests h → (∀ j, j ∈ map jb_id (jobs s) → j ∈ ids_of h) → frame h (set_host_work s h).
Proof. intros Hd Hj. by split. Qed.

Lemma frame_job_rows (p : job → bool) f h :
  (∀ j, jb_id (f j) = jb_id j) → frame h (set_host_work (set_jobs (update_where p f (h_jobs h)) (h_work h)) h).
Proof. intros Hf. apply frame_work; [done|]. intros j. cbn. by rewrite update_where_key. Qed.

#[export] Instance frame_marks : MarkStable frame.
Proof.
  split; [apply _|apply frame_ask| |].
  - intros h es. split; try done. intros e He. cbn. apply elem_of_app. by left.
  - intros h st reason t runId _. destruct (mark_run_jobs st reason t runId (h_work h)) as [Hj Hd].
    apply frame_work; [done|]. by rewrite Hj.
Qed.

Section frames.
Context (clock : nat → Z) (advance : nat → list (string * string) → queue → result string unit * queue).
Context `{!QueueAdvance advance}.

Lemma frame_advance u : keeps frame (advanceExecutionQueue advance u).
Proof.
  apply keeps_await; [apply _|]. intros h.
  pose proof (advance_job_ids (h_ticks h) (loops_of h) (h_queue h)) as Hj.
  pose proof (advance_deletions (h_ticks h) (loops_of h) (h_queue h)) as Hd.
  destruct (advance _ _ _) as [[[]|e] q]; cbn in *; (split; [done|unfold ids_of; cbn; by rewrite Hj|done..]).
Qed.

Lemma frame_on_release e : keeps frame (on_release advance e).
Proof.
  destruct e as [r|o r|u]; cbn.
  - apply keeps_modify. intros h. apply mark_effects.
  - apply keeps_modify. by intros h; split.
  - apply keeps_ignore; [apply _|]. apply keeps_bind; [apply _|apply frame_advance|].
    intros _. apply keeps_call, _.
Qed.

Lemma frame_release runId reason skip : keeps frame (releaseWorkloadSlot clock advance runId reason skip).
Proof.
  apply keeps_await; [apply _|]. intros h. unfold WorkloadSlots.releaseWorkloadSlot, run_transaction.
  destruct (release_tx _ _ _ _ _) as [[res s']|e] eqn:Htx; [|by apply frame_work].
  assert (∀ cs ids, frame h (set_host_work (set_memory cs ids s') h) ∧ frame h (set_host_work s' h)) as Hs.
  { apply release_tx_shape in Htx as [(-> & _)|(r & st & why & _ & _ & _ & _ & ->)]; intros cs ids.
    - by split; apply frame_work.
    - split; (apply frame_work; [done|]; intros j; cbn; by rewrite update_where_key). }
  match goal with |- context [act_for ?es _] => set (l := es) end.
  assert (keeps frame (do~ act_for l (on_release advance) in act_ret res)) as Hk.
  { apply keeps_bind; [apply _|apply keeps_for; [apply _|intros e _; apply frame_on_release]|].
    intros _. apply keeps_ret, _. }
  etrans; [|apply Hk]. destruct (rr_run res); apply Hs; [exact []|exact ∅].
Qed.

Lemma frame_stop runId reason skip : keeps frame (stopRunLifecycle clock advance runId reason skip).
Proof.
  unfold stopRunLifecycle. apply keeps_bind; [apply _|apply keeps_markRunCancelling, _|].
  assert (keeps frame (act_when (negb skip) (act_ignore (releaseWorkloadSlot clock advance runId (Some reason) false)))) as Hr.
  { apply keeps_when; [apply _|]. apply keeps_ignore; [apply _|]. apply frame_release. }
  intros [|]; cbn [negb]; [|done]. apply keeps_bind; [apply _| |by intros _].
  apply (keeps_stop_runtime clock frame). apply keeps_modify. by intros h; split.
Qed.

Lemma frame_stop_and_release runId : keeps frame (stop_and_release clock advance runId).
Proof.
  apply keeps_bind; [apply _|apply frame_stop|]. intros _. apply keeps_ignore; [apply _|]. apply frame_release.
Qed.

Lemma frame_stopJob jobId frozen : keeps frame (stopJobRuntimeByFrozenIdentity clock advance jobId frozen).
Proof.
  unfold stopJobRuntimeByFrozenIdentity, stop_loop, update_loops.
  repeat (simple apply keeps_bind; [apply _| |intros ?]).
  - apply keeps_gets, _.
  - apply keeps_when; [apply _|]. repeat (simple apply keeps_bind; [apply _| |intros _]); apply keeps_modify; intros h;
      first [by split|apply mark_effects].
  - destruct (negb _); [apply frame_stop_and_release|].
    simple apply keeps_bind; [apply _|apply frame_ask|intros _].
    simple apply keeps_bind; [apply _|apply keeps_gets, _|].
    intros [r|]; [apply frame_stop_and_release|apply keeps_ret, _].
  - apply keeps_await; [apply _|]. apply keeps_modify. intros h. by apply frame_job_rows.
  - apply keeps_modify. by intros h; split.
  - apply keeps_ignore; [apply _|]. apply keeps_call, _.
Qed.
End frames.

(** ** The deletion of a job

    The invariant of the request of a job, kept by every phase however it ends,
    and the completion of the request when nothing fails. *)

(** Everything of a request but its progress. *)
Definition identity (d : deletion_request) :=
  (dl_id d, dl_entityKind d, dl_entityId d, dl_username d, dl_threadId d, dl_projectId d, dl_frozenJson d,
   dl_cleanupTargetsJson d).

Lemma identity_id d d' : identity d = identity d' → dl_id d = dl_id d'.
Proof. intros H. exact (f_equal (λ x, x.1.1.1.1.1.1.1) H). Qed.

Definition DELETED : list string := ["database_deleted"; "filesystem_cleaned"].

(** The thread that would be deleted with the job stays, or is being deleted. *)
Definition hook_off (r : deletion_request) (h : host) : Prop :=
  json_truthy (json_get "deleteOwningThread" (parseFrozenSnapshot (dl_frozenJson r))) = false ∨
  isEntityDeletionBlocked "thread" (default "" (dl_threadId r)) h = true.

Section job.
Context (r : deletion_request) (T J : string).

Definition phase_ok (phase : string) (h : host) : Prop :=
  phase ∈ INCOMPLETE_PHASES ∧
  (phase ∈ DELETED → J ∉ ids_of h) ∧
  (phase = "filesystem_cleaned" → PurgeJobFiles T J ∈ h_effects h).

(** The request is open: the state before and between the attempts. *)
Record job_inv (h : host) : Prop := JobInv {
  ji_ids : NoDup (map dl_id (requests h));
  ji_row : ∃ d, d ∈ requests h ∧ identity d = identity r ∧ phase_ok (dl_phase d) h;
  ji_only : ∀ d, d ∈ requests h → active_for "thread_job" J d = true → dl_id d = dl_id r;
  ji_hook : hook_off r h
}.

(** The request is completed. *)
Record job_done (h : host) : Prop := JobDone {
  jd_ids : NoDup (map dl_id (requests h));
  jd_gone : J ∉ ids_of h;
  jd_purged : PurgeJobFiles T J ∈ h_effects h;
  jd_closed : ∀ d, d ∈ requests h → active_for "thread_job" J d = false
}.

Lemma phase_ok_frame phase h h' : frame h h' → phase_ok phase h → phase_ok phase h'.
Proof. intros [F1 F2 F3 F4 F5] (Hp & Hd & Hc). split_and!; [done|intros H Hj; by apply Hd, F2|auto]. Qed.

Lemma hook_off_requests h h' : requests h' = requests h → hook_off r h → hook_off r h'.
Proof. unfold hook_off, isEntityDeletionBlocked, WorkloadSlots.isEntityDeletionBlocked, requests. by intros ->. Qed.

Lemma job_inv_frame h h' : frame h h' → job_inv h → job_inv h'.
Proof.
  intros F [H1 (d & Hd & Hid & Hp) H3 H4]. pose proof (fr_requests _ _ F) as Hr. split; rewrite ?Hr; try done.
  - exists d. split_and!; [done|done|]. by eapply phase_ok_frame.
  - by eapply hook_off_requests.
Qed.

Context (Hkind : dl_entityKind r = "thread_job") (Hentity : dl_entityId r = J).

(** An update of the row of the request that keeps its identity. *)
Lemma job_inv_update f h phase :
  (∀ d, identity (f d) = identity d) → job_inv h →
  (∀ d, d ∈ requests h → dl_id d = dl_id r → dl_phase (f d) = phase) → phase_ok phase h →
  job_inv (update_request (dl_id r) f h).
Proof.
  intros Hf [H1 (d & Hd & Hid & Hp) H3 H4] Hph Hok.
  assert (∀ d, dl_id (f d) = dl_id d ∧ dl_entityKind (f d) = dl_entityKind d) as Hfi.
  { intros x. specialize (Hf x). unfold identity in Hf. by simplify_eq. }
  assert (requests (update_request (dl_id r) f h) = update_where (request_by_id (dl_id r)) f (requests h)) as Hreq
    by reflexivity.
  assert (dl_id d = dl_id r ∧ dl_entityKind d = "thread_job") as [Hdi Hdk].
  { unfold identity in Hid. simplify_eq. by rewrite <-Hkind. }
  assert (∀ x, x ∈ requests h → request_by_id (dl_id r) x = true → x = d) as Huniq.
  { intros x Hx Hxi%bool_decide_eq_true. apply (unique_key dl_id (requests h)); congruence. }
  split; rewrite ?Hreq.
  - rewrite update_where_key; [done|]. intros x. apply Hfi.
  - exists (f d). split_and!.
    + apply elem_of_update. exists d. split; [done|]. unfold request_by_id. by rewrite bool_decide_eq_true_2.
    + by rewrite Hf.
    + by rewrite (Hph d).
  - intros x (x0 & Hx0 & ->)%elem_of_update Ha. destruct (request_by_id (dl_id r) x0) eqn:E; [|by apply H3].
    destruct (Hfi x0) as [-> _]. by apply bool_decide_eq_true in E.
  - destruct H4 as [H4|H4]; [by left|right]. unfold isEntityDeletionBlocked, WorkloadSlots.isEntityDeletionBlocked in *.
    change (deletions (h_work (update_request (dl_id r) f h))) with (requests (update_request (dl_id r) f h)).
    rewrite Hreq. apply existsb_exists in H4 as (x & Hx%list_elem_of_In & Hb). apply existsb_exists. exists x.
    split; [|done]. apply list_elem_of_In, elem_of_update. exists x. split; [done|].
    destruct (request_by_id (dl_id r) x) eqn:E; [|done]. rewrite (Huniq x Hx E), Hdk in Hb. done.
Qed.

Context (attachments : list string).
Context (Htargets : dl_cleanupTargetsJson r = Some (stringify (job_targets T J attachments))).
Context (clock : nat → Z) (uuid : nat → string).
Context (advance : nat → list (string * string) → queue → result string unit * queue) `{!QueueAdvance advance}.
Notation inv := job_inv.

(** A step that only moves along [frame] keeps the invariant and what it implies. *)
Lemma frame_triple {A} (m : hostM A) (P : host → Prop) :
  keeps frame m → (∀ h h', frame h h' → P h → P h') →
  triple (λ h, inv h ∧ P h) m (λ _ h, inv h ∧ P h) inv.
Proof.
  intros Hk HP. eapply triple_weaken; [apply (triple_keeps frame (λ h, inv h ∧ P h) m Hk)| | |]; try done.
  - intros h h' F [Hi Hp]. split; [by eapply job_inv_frame|by eapply HP].
  - by intros h [? _].
Qed.

Lemma update_phase_triple phase (P : host → Prop) :
  (∀ h h', frame h h' → P h → P h') → (∀ h, P h → phase_ok phase h) →
  (∀ f h, P h → P (update_request (dl_id r) f h)) →
  triple (λ h, inv h ∧ P h) (updateDeletionPhase clock (dl_id r) phase) (λ _ h, inv h ∧ P h) inv.
Proof.
  intros HF HP HU. eapply triple_bind; [by apply frame_triple; [apply frame_ask|]|]. intros _ h [Hi Hp].
  split; [|by apply HU]. eapply (job_inv_update _ h phase); try done. by apply HP.
Qed.

Lemma load_triple (P : host → Prop) :
  triple (λ h, inv h ∧ P h) (loadDeletionRequest (dl_id r))
    (λ d h, inv h ∧ P h ∧ d ∈ requests h ∧ identity d = identity r ∧ phase_ok (dl_phase d) h) inv.
Proof.
  intros h [Hi Hp]. unfold loadDeletionRequest. destruct (List.find _ _) as [d|] eqn:E; [|done].
  apply find_elem in E as [Hd Hdi%bool_decide_eq_true]. pose proof Hi as [H1 (d' & Hd' & Hid' & Hp') _ _].
  assert (d' = d) as ->. { apply (unique_key dl_id (requests h)); try done. by rewrite (identity_id _ _ Hid'). }
  done.
Qed.

Lemma record_triple status e : triple inv (recordFailure clock status (dl_id r) e) (λ _, inv) inv.
Proof.
  eapply triple_weaken with (P' := λ h, inv h ∧ True); [|done|exact (λ _ _ H, H)|done].
  eapply triple_bind; [apply load_triple|]. intros d h (Hi & _ & Hd & Hid & Hok).
  pose proof (frame_ask h) as F. unfold await, act_bind. destruct (ask h) as [[[]|e'|] h1]; cbn in F;
    [|by eapply job_inv_frame..]. cbn.
  assert (∀ x, x ∈ requests h1 → dl_id x = dl_id r → x = d) as Hu.
  { rewrite (fr_requests _ _ F). intros x Hx Hxi. apply (unique_key dl_id (requests h)); [apply Hi|done|done|].
    by rewrite (identity_id _ _ Hid). }
  eapply job_inv_update with (phase := dl_phase d); [done|by eapply job_inv_frame| |by eapply phase_ok_frame].
  intros x Hx Hxi. by rewrite (Hu x Hx Hxi).
Qed.

Lemma trivial_phase phase h : phase ∈ ["draining"; "runtime_closed"] → phase_ok phase h.
Proof.
  intros Hp. split_and!.
  - unfold INCOMPLETE_PHASES. set_solver.
  - unfold DELETED. set_solver.
  - set_solver.
Qed.

Lemma set_phase_triple phase :
  phase ∈ ["draining"; "runtime_closed"] → triple inv (updateDeletionPhase clock (dl_id r) phase) (λ _, inv) inv.
Proof.
  intros Hp. eapply triple_weaken; [apply (update_phase_triple phase (λ _, True))|..]; try done.
  - intros h _. by apply trivial_phase.
  - by intros [] h (? & _).
Qed.

Lemma keep_triple {A} (m : hostM A) : keeps frame m → triple inv m (λ _, inv) inv.
Proof.
  intros Hk. eapply triple_weaken; [apply (frame_triple m (λ _, True) Hk)|..]; try done. by intros a h [? _].
Qed.

Lemma drain_triple exec : triple inv (drain clock uuid advance exec r) (λ _, inv) inv.
Proof.
  unfold drain, is_thread. rewrite Hkind.
  change (bool_decide ("thread_job" = "project")) with false. change (bool_decide ("thread_job" = "thread")) with false.
  change (bool_decide ("thread_job" = "thread_job")) with true. cbn [act_when andb].
  eapply triple_bind; [apply keep_triple, keeps_ret, _|intros ?].
  eapply triple_bind; [apply keep_triple, keeps_ret, _|intros ?].
  eapply triple_bind; [|intros ?].
  { apply keep_triple. destruct (json_get "runtime" _) as [rt|]; [|apply keeps_ret, _].
    apply keeps_when; [apply _|]. by apply frame_stopJob. }
  eapply triple_bind; [apply keep_triple, keeps_ret, _|intros ?].
  eapply triple_bind; [apply keep_triple, frame_ask|intros ?].
  eapply triple_bind; [|intros ?; apply set_phase_triple; set_solver].
  destruct (bool_decide (dl_phase r = "requested")); [apply set_phase_triple; set_solver|].
  apply keep_triple, keeps_ret, _.
Qed.

(** After the rows are deleted the job is gone. *)
Lemma delete_rows_triple : triple inv (delete_rows clock r) (λ _ h, inv h ∧ J ∉ ids_of h) inv.
Proof.
  unfold delete_rows, deleteEntityDatabaseRows. rewrite Hkind, Hentity.
  change (bool_decide ("thread_job" = "thread_job")) with true.
  eapply triple_bind; [apply keep_triple, frame_ask|intros ?].
  eapply triple_bind with (M := λ _ h, inv h ∧ J ∉ ids_of h).
  - eapply triple_bind; [apply keep_triple, frame_ask|]. intros _ h Hi. cbn.
    set (h' := delete_jobs (by_id J) h).
    assert (∀ j, j ∈ ids_of h' ↔ j ∈ ids_of h ∧ j ≠ J) as Hids.
    { intros j. unfold h', ids_of, job_ids. cbn. rewrite !list_elem_of_In, !in_map_iff. setoid_rewrite filter_In.
      unfold by_id. setoid_rewrite negb_true_iff. setoid_rewrite bool_decide_eq_false. naive_solver. }
    assert (frame h (add_effects [ClearJobEvents J] h')) as F.
    { etrans; [|apply mark_effects]. split; try done. intros j Hj. by apply Hids. }
    split; [by eapply job_inv_frame|]. intros Hj. by apply Hids in Hj as [_ ?].
  - intros ?. eapply triple_weaken; [apply (update_phase_triple "database_deleted" (λ h, J ∉ ids_of h))|..]; try done.
    + intros h h' F Hj Hj'. by apply Hj, (fr_jobs _ _ F).
    + intros h Hj. split_and!; [unfold INCOMPLETE_PHASES; set_solver|done|done].
Qed.

Definition purged (h : host) : Prop := PurgeJobFiles T J ∈ h_effects h.

Lemma targets_parsed : parseCleanupTargets (dl_cleanupTargetsJson r) = Some (job_targets T J attachments).
Proof.
  unfold parseCleanupTargets. rewrite Htargets. change (default "" (Some ?x)) with x.
  unfold job_targets at 1. rewrite object_not_blank. fold (job_targets T J attachments). apply parse_stringify.
  unfold job_targets. cbn [keys_unique forallb snd]. rewrite bool_decide_eq_true_2; [cbn|by apply (bool_decide_unpack _); vm_compute].
  rewrite andb_true_r. apply forallb_forall. intros x [y [<- _]]%in_map_iff. done.
Qed.

Lemma clean_files_triple :
  triple (λ h, inv h ∧ J ∉ ids_of h) (clean_files clock r) (λ _ h, inv h ∧ J ∉ ids_of h ∧ purged h) inv.
Proof.
  assert (∀ h h', frame h h' → J ∉ ids_of h → J ∉ ids_of h') as HJ.
  { intros h h' F Hj Hj'. by apply Hj, (fr_jobs _ _ F). }
  assert (∀ h h', frame h h' → purged h → purged h') as HP.
  { intros h h' F. unfold purged. apply (fr_effects _ _ F). }
  unfold clean_files. eapply triple_bind; [apply frame_triple; [apply frame_ask|done]|intros ?].
  eapply triple_bind with (M := λ _ h, inv h ∧ J ∉ ids_of h ∧ purged h).
  - apply triple_catch.
    + unfold purgeCleanupTargets. rewrite targets_parsed.
      change (text_field "kind" _) with (Some "job"). change (bool_decide (Some "job" = Some "project")) with false.
      change (bool_decide (Some "job" = Some "job")) with true.
      change (default "" (text_field "threadId" _)) with T. change (default "" (text_field "jobId" _)) with J.
      eapply triple_bind with (M := λ _ h, inv h ∧ J ∉ ids_of h ∧ purged h).
      * eapply triple_bind; [apply frame_triple; [apply frame_ask|done]|]. intros _ h [Hi Hj]. cbn.
        pose proof (mark_effects (R := frame) h [PurgeJobFiles T J]) as F.
        split_and!; [by eapply job_inv_frame|by eapply HJ|]. unfold purged. cbn. set_solver.
      * intros ?. eapply triple_weaken; [apply (triple_for _ _ (λ _ h, inv h ∧ J ∉ ids_of h ∧ purged h) inv)|..]; try done.
        intros x xs. apply (frame_triple _ (λ h, J ∉ ids_of h ∧ purged h)); [apply keeps_call, _|].
        intros h h' F [? ?]. split; [by eapply HJ|by eapply HP].
    + intros e. eapply triple_bind; [apply record_triple|]. intros ?. by apply triple_raise.
  - intros ?. eapply triple_weaken; [apply (update_phase_triple "filesystem_cleaned" (λ h, J ∉ ids_of h ∧ purged h))|..]; try done.
    + intros h h' F [? ?]. split; [by eapply HJ|by eapply HP].
    + intros h [? ?]. split_and!; [unfold INCOMPLETE_PHASES; set_solver|done|done].
Qed.

(** The last step closes the only open request of the job. *)
Lemma complete_triple :
  triple (λ h, inv h ∧ J ∉ ids_of h ∧ purged h) (updateDeletionPhase clock (dl_id r) "completed") (λ _, job_done) inv.
Proof.
  eapply triple_bind with (M := λ _ h, inv h ∧ J ∉ ids_of h ∧ purged h).
  { apply (frame_triple _ (λ h, J ∉ ids_of h ∧ purged h)); [apply frame_ask|]. intros h h' F [Hj Hp].
    split; [intros Hj'; by apply Hj, (fr_jobs _ _ F)|]. by apply (fr_effects _ _ F). }
  intros _ h (Hi & Hj & Hp). cbn.
  set (f := set_request_phase _ _ _). split; [|done|done|].
  - change (requests (update_request (dl_id r) f h)) with (update_where (request_by_id (dl_id r)) f (requests h)).
    rewrite update_where_key; [apply Hi|done].
  - intros d (d0 & Hd0 & ->)%elem_of_update. destruct (request_by_id (dl_id r) d0) eqn:E.
    + unfold active_for. by rewrite andb_false_r.
    + apply not_true_iff_false. intros Ha. apply bool_decide_eq_false in E. by apply E, (ji_only h Hi).
Qed.

Lemma finish_triple exec :
  triple (λ h, inv h ∧ J ∉ ids_of h ∧ purged h) (finish clock uuid advance exec r) (λ _, job_done) inv.
Proof.
  unfold finish. eapply triple_bind with (M := λ _ h, inv h ∧ J ∉ ids_of h ∧ purged h); [|intros ?; apply complete_triple].
  unfold runPostDeletionHooks. rewrite Hkind. change (bool_decide ("thread_job" = "thread_job")) with true.
  intros h (Hi & Hj & Hp). unfold act_bind at 1, act_gets.
  assert (∀ b, (negb b && json_truthy (json_get "deleteOwningThread" (parseFrozenSnapshot (dl_frozenJson r)))) &&
    negb (isEntityDeletionBlocked "thread" (default "" (dl_threadId r)) h) = false) as Hoff.
  { intros b. destruct (ji_hook h Hi) as [-> | ->]; by rewrite andb_false_r. }
  rewrite Hoff. cbn [act_when]. unfold act_bind, act_ret.
  apply (frame_triple _ (λ h, J ∉ ids_of h ∧ purged h)); [|intros h1 h2 F [Hj' Hp']|done].
  - apply keeps_ignore; [apply _|]. by apply frame_advance.
  - split; [intros Hj2; by apply Hj', (fr_jobs _ _ F)|]. by apply (fr_effects _ _ F).
Qed.
End job.

(** ** Executing the request of a job *)

Lemma identity_fields d r : identity d = identity r →
  dl_entityKind d = dl_entityKind r ∧ dl_entityId d = dl_entityId r ∧ dl_threadId d = dl_threadId r ∧
  dl_frozenJson d = dl_frozenJson r ∧ dl_cleanupTargetsJson d = dl_cleanupTargetsJson r.
Proof. unfold identity. intros H. by injection H as ? ? ? ? ? ? ? ?. Qed.

Lemma job_inv_identity r d T J h : identity d = identity r → job_inv r T J h → job_inv d T J h.
Proof.
  intros Hid [H1 (x & Hx & Hxi & Hp) H3 H4]. pose proof (identity_fields _ _ Hid) as (E1 & E2 & E3 & E4 & E5).
  split; [done| | |].
  - exists x. by rewrite Hid.
  - intros y Hy Ha. rewrite (identity_id _ _ Hid). auto.
  - unfold hook_off. by rewrite E3, E4.
Qed.

(** A request of a job with the targets that its creation froze. *)
Record job_request (r : deletion_request) (T J : string) (attachments : list string) : Prop := {
  jr_kind : dl_entityKind r = "thread_job";
  jr_entity : dl_entityId r = J;
  jr_targets : dl_cleanupTargetsJson r = Some (stringify (job_targets T J attachments))
}.

Lemma job_request_identity r d T J attachments :
  identity d = identity r → job_request r T J attachments → job_request d T J attachments.
Proof. intros (E1 & E2 & _ & _ & E5)%identity_fields [H1 H2 H3]. split; congruence. Qed.

Section execute.
Context (clock : nat → Z) (uuid : nat → string).
Context (advance : nat → list (string * string) → queue → result string unit * queue) `{!QueueAdvance advance}.
Notation execute := (executeDeletionRequest clock uuid advance).

Lemma run_phases_triple exec r T J attachments :
  job_request r T J attachments →
  triple (λ h, job_inv r T J h ∧ phase_ok T J (dl_phase r) h) (run_phases clock uuid advance exec r)
    (λ _, job_done T J) (job_inv r T J).
Proof.
  intros [Hk He Ht]. unfold run_phases.
  assert (triple (λ h, job_inv r T J h ∧ J ∉ ids_of h) (do~ clean_files clock r in finish clock uuid advance exec r)
    (λ _, job_done T J) (job_inv r T J)) as H3.
  { eapply triple_bind; [by eapply clean_files_triple|]. intros ?. by eapply finish_triple. }
  assert (triple (job_inv r T J) (do~ delete_rows clock r in do~ clean_files clock r in finish clock uuid advance exec r)
    (λ _, job_done T J) (job_inv r T J)) as H2.
  { eapply triple_bind; [by eapply delete_rows_triple|]. intros ?. exact H3. }
  case_bool_decide as P1.
  { eapply triple_weaken with (P' := job_inv r T J); [|by intros h [? _]|intros ?? Hq; exact Hq|done].
    eapply triple_bind; [by eapply drain_triple|]. intros ?. exact H2. }
  case_bool_decide as P2.
  { eapply triple_weaken; [exact H2|by intros h [? _]|intros ?? Hq; exact Hq|done]. }
  case_bool_decide as P3.
  { eapply triple_weaken; [exact H3| |intros ?? Hq; exact Hq|done]. intros h [Hi (_ & Hd & _)]. split; [done|]. apply Hd.
    rewrite P3. unfold DELETED. set_solver. }
  case_bool_decide as P4.
  { eapply triple_weaken; [by eapply finish_triple| |intros ?? Hq; exact Hq|done]. intros h [Hi (_ & Hd & Hc)].
    split_and!; [done| |]; [apply Hd|by apply Hc]; rewrite P4; unfold DELETED; set_solver. }
  intros h [_ (Hp & _)]. exfalso. unfold INCOMPLETE_PHASES in Hp. set_solver.
Qed.

(** However it ends, the invariant holds; a result means completed. *)
Lemma execute_triple n r T J attachments :
  job_request r T J attachments →
  triple (job_inv r T J) (execute (S n) (dl_id r)) (λ _, job_done T J) (job_inv r T J).
Proof.
  intros Hr. eapply triple_weaken with (P' := λ h, job_inv r T J h ∧ True); [|done|intros ?? Hq; exact Hq|done].
  cbn [executeDeletionRequest]. eapply triple_bind; [by eapply load_triple|].
  intros d. case_bool_decide as Hc.
  { intros h (_ & _ & _ & _ & Hp & _). rewrite Hc in Hp. unfold INCOMPLETE_PHASES in Hp. set_solver. }
  intros h (Hi & _ & Hd & Hid & Hok).
  pose proof (job_request_identity _ _ _ _ _ Hid Hr) as Hrd.
  revert h Hi Hd Hok.
  enough (triple (λ h, job_inv d T J h ∧ phase_ok T J (dl_phase d) h)
    (act_catch (run_phases clock uuid advance (execute n) d) (λ e,
       let~ current := loadDeletionRequest (dl_id r) in
       do~ act_when (negb (bool_decide (dl_phase current = "completed")) &&
                     negb (bool_decide (dl_phase current = "database_deleted")))
             (recordDeletionFailure clock (dl_id r) e) in act_raise e))
    (λ _, job_done T J) (job_inv d T J)) as H.
  { intros h Hi Hd Hok. specialize (H h (conj (job_inv_identity _ _ _ _ _ Hid Hi) Hok)). revert H.
    assert (∀ h', job_inv d T J h' → job_inv r T J h') as Hback by (intros h'; by apply job_inv_identity).
    destruct (act_catch _ _ h) as [[a|e|] h']; naive_solver. }
  rewrite <-(identity_id _ _ Hid). apply triple_catch; [by apply (run_phases_triple _ _ _ _ attachments)|].
  intros e. eapply triple_weaken with (P' := λ h, job_inv d T J h ∧ True); [|done|intros ?? Hq; exact Hq|done].
  destruct Hrd as [Hk He Ht].
  eapply triple_bind; [by eapply load_triple|]. intros cur.
  eapply triple_bind with (M := λ _, job_inv d T J); [|intros ?; by apply triple_raise].
  apply triple_when; [|by intros _ h (? & _)]. intros _.
  eapply triple_weaken; [by apply (record_triple d T J Hk)|by intros h (? & _)|intros ?? Hq; exact Hq|done].
Qed.

(** ** Without faults *)

Definition quiet_from {A} (P : host → Prop) (m : hostM A) : Prop := ∀ h, P h → h_answers h = [] →
  ∃ a h', m h = (Returned a, h') ∧ h_answers h' = [].

Lemma quiet_from_quiet {A} P (m : hostM A) : quiet m → quiet_from P m.
Proof. intros Hm h _. apply Hm. Qed.

Lemma quiet_from_bind {A B} P Q E (m : hostM A) (k : A → hostM B) :
  quiet_from P m → triple P m Q E → (∀ a, quiet_from (Q a) (k a)) → quiet_from P (act_bind m k).
Proof.
  intros Hm Ht Hk h Hp Hh. destruct (Hm h Hp Hh) as (a & h1 & Hr & Hh1). specialize (Ht h Hp). rewrite Hr in Ht.
  destruct (Hk a h1 Ht Hh1) as (b & h2 & Hr2 & Hh2). exists b, h2. by rewrite (act_bind_run _ _ _ _ _ Hr).
Qed.

Lemma quiet_updatePhase id phase : quiet (updateDeletionPhase clock id phase).
Proof. unfold updateDeletionPhase. solve_quiet. Qed.
Hint Resolve quiet_updatePhase : quiet_db.

Lemma quiet_purge d : quiet (purgeCleanupTargets d).
Proof. unfold purgeCleanupTargets. solve_quiet. Qed.
Hint Resolve quiet_purge : quiet_db.

Lemma quiet_drain_job exec d : dl_entityKind d = "thread_job" → quiet (drain clock uuid advance exec d).
Proof.
  intros Hk. unfold drain, is_thread. rewrite Hk.
  change (bool_decide ("thread_job" = "project")) with false. change (bool_decide ("thread_job" = "thread")) with false.
  change (bool_decide ("thread_job" = "thread_job")) with true. cbn [act_when andb].
  pose proof (quiet_stopJob clock advance). solve_quiet.
Qed.

Lemma quiet_delete_rows d : quiet (delete_rows clock d).
Proof. unfold delete_rows, deleteEntityDatabaseRows. solve_quiet. Qed.

Lemma quiet_clean_files d : quiet (clean_files clock d).
Proof. unfold clean_files. solve_quiet. Qed.

Lemma quiet_finish_job exec d T J : dl_entityKind d = "thread_job" →
  quiet_from (job_inv d T J) (finish clock uuid advance exec d).
Proof.
  intros Hk h Hi Hh. unfold finish, runPostDeletionHooks. rewrite Hk.
  change (bool_decide ("thread_job" = "thread_job")) with true. cbv zeta.
  set (hook := drainAndDeleteThread _ _ _ _ _).
  assert (∀ b, (negb b && json_truthy (json_get "deleteOwningThread" (parseFrozenSnapshot (dl_frozenJson d)))) &&
    negb (isEntityDeletionBlocked "thread" (default "" (dl_threadId d)) h) = false) as Hoff.
  { intros b. destruct (ji_hook _ _ _ _ Hi) as [-> | ->]; by rewrite andb_false_r. }
  unfold act_bind at 2, act_gets. unfold act_bind at 1. rewrite Hoff. cbn [act_when].
  match goal with |- context [act_bind (act_ret tt) (λ _, act_ignore ?m) h] =>
    change (act_bind (act_ret tt) (λ _, act_ignore m) h) with (act_ignore m h) end.
  destruct (quiet_ignore _ (calm_advance advance (dl_username d)) h Hh) as (a & h1 & -> & Hh1).
  by apply quiet_updatePhase.
Qed.

Lemma execute_quiet n r T J attachments :
  job_request r T J attachments → quiet_from (job_inv r T J) (execute (S n) (dl_id r)).
Proof.
  intros Hr. cbn [executeDeletionRequest].
  eapply quiet_from_bind with (Q := λ d h, job_inv d T J h ∧ identity d = identity r ∧ phase_ok T J (dl_phase d) h);
    [|eapply triple_weaken; [by apply (load_triple r T J (λ _, True))|done| |intros ? He; exact He]|].
  - intros h Hi Hh. unfold loadDeletionRequest. destruct (List.find _ _) as [d|] eqn:E; [by eexists _, _|].
    exfalso. destruct (ji_row _ _ _ _ Hi) as (d & Hd & Hid & _). rewrite find_none_elem in E. specialize (E d Hd).
    apply bool_decide_eq_false in E. by apply identity_id in Hid.
  - intros d h (Hi & _ & Hd & Hid & Hok). split_and!; [|done|done]. by apply job_inv_identity with r.
  - intros d. case_bool_decide as Hc; [intros h _ Hh; by eexists _, _|].
    intros h (Hi & Hid & Hok) Hh.
    pose proof (job_request_identity _ _ _ _ _ Hid Hr) as [Hk He Ht].
    assert (quiet_from (λ h, job_inv d T J h ∧ phase_ok T J (dl_phase d) h)
      (run_phases clock uuid advance (execute n) d)) as Hq.
    { assert (quiet_from (λ h, job_inv d T J h ∧ J ∉ ids_of h) (do~ clean_files clock d in finish clock uuid advance (execute n) d)) as H3.
      { eapply quiet_from_bind; [apply quiet_from_quiet, quiet_clean_files|by eapply clean_files_triple|].
        intros ? h' (? & _). by eapply quiet_finish_job. }
      assert (quiet_from (job_inv d T J) (do~ delete_rows clock d in do~ clean_files clock d in finish clock uuid advance (execute n) d)) as H2.
      { eapply quiet_from_bind; [apply quiet_from_quiet, quiet_delete_rows|by eapply delete_rows_triple|]. intros ?. exact H3. }
      intros h' [Hi' (Hp & Hdel & Hcl)]. unfold run_phases.
      case_bool_decide as P1.
      { revert h' Hi' Hp Hdel Hcl. assert (quiet_from (job_inv d T J) (do~ drain clock uuid advance (execute n) d in
          do~ delete_rows clock d in do~ clean_files clock d in finish clock uuid advance (execute n) d)) as H1; [|naive_solver].
        eapply quiet_from_bind; [by apply quiet_from_quiet, quiet_drain_job|by eapply drain_triple|]. intros ?. exact H2. }
      case_bool_decide as P2; [by apply H2|].
      case_bool_decide as P3.
      { apply H3. split; [done|]. apply Hdel. rewrite P3. unfold DELETED. set_solver. }
      case_bool_decide as P4; [by eapply quiet_finish_job|].
      intros _. exfalso. unfold INCOMPLETE_PHASES in Hp. set_solver. }
    destruct (Hq h (conj Hi Hok) Hh) as (a & h1 & Hrun & Hh1). exists a, h1. split; [|done].
    unfold act_catch. by rewrite Hrun.
Qed.
End execute.

(** ** What a deletion promises *)

(** ** Snapshots are read back as they were frozen *)

Lemma runtime_unique jobId run owner : keys_unique (runtime_json jobId run owner) = true.
Proof. by destruct run, owner. Qed.

Lemma job_frozen_unique rt b : keys_unique rt = true → keys_unique (job_frozen rt b) = true.
Proof.
  intros Hrt. destruct b; cbn [job_frozen keys_unique forallb snd]; rewrite Hrt; cbn; rewrite bool_decide_eq_true_2;
    first [done|by apply (bool_decide_unpack _); vm_compute].
Qed.

Lemma frozen_parsed fs : keys_unique (JObj fs) = true → parseFrozenSnapshot (Some (stringify (JObj fs))) = JObj fs.
Proof.
  intros Hu. unfold parseFrozenSnapshot. change (default "" (Some ?x)) with x.
  by rewrite object_not_blank, (parse_stringify _ Hu).
Qed.

Section theorems.
Context (clock : nat → Z) (uuid : nat → string).
Context (advance : nat → list (string * string) → queue → result string unit * queue) `{!QueueAdvance advance}.
Notation execute := (executeDeletionRequest clock uuid advance).
Notation delete := (deleteJob clock uuid advance).

(** The requests have unique ids, and the ids to come are new ones. *)
Record requests_ok (h : host) : Prop := {
  ro_unique : NoDup (map dl_id (requests h));
  ro_fresh : ∀ n, h_ticks h ≤ n → "del-" +:+ uuid n ∉ map dl_id (requests h)
}.

(** The job [J] of the user [U] in the thread [T], which keeps the thread when it
    goes, has no open request. *)
Record deletable (U J T : string) (h : host) : Prop := {
  de_requests : requests_ok h;
  de_none : findActiveDeletionRequest "thread_job" J h = None;
  de_row : ∃ j ids, getUserJob U J h = Some j ∧ JobContent.threadId (jb_content j) = T ∧
             collectJobOwnedAttachmentIds (JobContent.referenceManifestJson (jb_content j)) = Some ids;
  de_kind : ThreadRow.threadKind <$> find_thread T h ≠ Some "task_snapshot"
}.

Lemma no_active kind id h :
  findActiveDeletionRequest kind id h = None ↔ ∀ d, d ∈ requests h → active_for kind id d = false.
Proof. unfold findActiveDeletionRequest. rewrite fmap_None. apply find_none_elem. Qed.

Lemma active_blocked kind id h : isEntityDeletionBlocked kind id h = existsb (active_for kind id) (requests h).
Proof. done. Qed.

(** A new request of a job opens its invariant. *)
Lemma created_inv i h T J ids :
  requests_ok h → findActiveDeletionRequest "thread_job" J h = None →
  di_entityKind i = "thread_job" → di_entityId i = J →
  di_cleanupTargetsJson i = Some (stringify (job_targets T J ids)) →
  let r := new_request ("del-" +:+ uuid (h_ticks h)) (now clock h) i in
  hook_off r (set_host_work (set_deletions (requests h ++ [r]) (h_work h)) (set_answers (h_answers h) (S (h_ticks h)) h)) →
  ∃ h', createDeletionRequest clock uuid i h = (Returned (dl_id r), h') ∧ job_inv r T J h' ∧
    job_request r T J ids ∧ h_answers h' = h_answers h.
Proof.
  intros [Hu Hf] Hn Hk He Ht r Hh. unfold createDeletionRequest. rewrite Hk, He, Hn.
  assert (existsb (request_by_id ("del-" +:+ uuid (h_ticks h))) (requests h) = false) as ->.
  { apply not_true_iff_false. intros (d & Hd & Hid%bool_decide_eq_true)%existsb_exists.
    apply (Hf (h_ticks h)); [lia|]. rewrite <-Hid. apply list_elem_of_In, in_map. done. }
  eexists. split; [done|]. fold r. rewrite no_active in Hn. split_and!; [|done|done].
  set (h' := set_host_work _ _).
  assert (requests h' = requests h ++ [r]) as Hreq by reflexivity.
  split; rewrite ?Hreq.
  - rewrite map_app. apply list.NoDup_app. split_and!; [done| |apply list.NoDup_singleton].
    intros x Hx ->%list_elem_of_singleton. by apply (Hf (h_ticks h)); [lia|].
  - exists r. split_and!; [apply elem_of_snoc; by right|done|]. unfold phase_ok, DELETED, INCOMPLETE_PHASES. cbn. set_solver.
  - intros d [Hd| ->]%elem_of_snoc Ha; [|done]. by rewrite Hn in Ha.
  - exact Hh.
Qed.

(** The state after the first steps of a deletion: nothing happened, or the
    request is open. *)
Definition attempted (U J T : string) (h h1 : host) : Prop :=
  (∃ l n, h_ticks h ≤ n ∧ h1 = set_answers l n h) ∨
  ∃ r ids, job_request r T J ids ∧ job_inv r T J h1.

Lemma delete_attempt U J T h :
  deletable U J T h →
  triple (λ h0, h0 = h) (delete U J) (λ _, job_done T J) (attempted U J T h) ∧
  quiet_from (λ h0, h0 = h) (delete U J).
Proof.
  intros [Hok Hn (j & ids & Hrow & HT & Hids) Hkind].
  set (i := λ h0, mkInput "thread_job" J U (Some T) (ThreadRow.projectId <$> find_thread T h0)
        (Some (JobContent.workspacePath (jb_content j)))
        (Some (stringify (job_frozen (freezeJobRuntimeIdentity J h0)
           (Some (bool_decide (ThreadRow.threadKind <$> find_thread T h0 = Some "task_snapshot"))))))
        (Some (stringify (job_targets T J ids)))).
  assert (delete U J h = (do~ ask in λ h0, (let~ id := createDeletionRequest clock uuid (i h0) in execute DEPTH id) h0) h) as Hrun.
  { unfold deleteJob, drainAndDeleteJob. unfold act_bind at 1, act_gets at 1. rewrite Hn.
    unfold act_bind at 1, act_gets at 1. rewrite Hrow, HT, Hids. done. }
  assert (∀ l n, h_ticks h ≤ n → let h0 := set_answers l n h in
    ∃ r h', createDeletionRequest clock uuid (i h0) h0 = (Returned (dl_id r), h') ∧ job_inv r T J h' ∧
      job_request r T J ids ∧ h_answers h' = l) as Hcreate.
  { intros l n Hln h0. edestruct (created_inv (i h0) h0 T J ids) as (h' & Hc & Hi & Hr & Ha); try done.
    - destruct Hok as [Hu Hf]. split; [done|]. intros m Hm. apply Hf. cbn in Hm. lia.
    - left. cbn [new_request dl_frozenJson i di_frozenJson].
      match goal with |- json_truthy (json_get _ (parseFrozenSnapshot (Some (stringify ?v)))) = _ =>
        assert (parseFrozenSnapshot (Some (stringify v)) = v) as -> end.
      { apply (frozen_parsed (_ :: _)). apply (job_frozen_unique _ (Some _)), runtime_unique. }
      change (ThreadRow.threadKind <$> find_thread T h0) with (ThreadRow.threadKind <$> find_thread T h).
      rewrite bool_decide_eq_false_2 by done. done.
    - by eexists _, _. }
  split.
  - intros ? ->. rewrite Hrun. unfold act_bind at 1.
    pose proof (frame_ask h) as F. assert (∃ o l, ask h = (o, set_answers l (S (h_ticks h)) h)) as (o & l & Hask).
    { unfold ask. destruct (h_answers h) as [|[] l]; eauto. }
    rewrite Hask. destruct o as [[]|e|]; [|left; eexists _, _; by split; [|done]; lia..].
    destruct (Hcreate l (S (h_ticks h)) ltac:(lia)) as (r & h' & Hc & Hi & Hr & _).
    unfold act_bind. rewrite Hc. pose proof (execute_triple clock uuid advance 2 r T J ids Hr h' Hi) as He.
    change (execute 3) with (execute DEPTH) in He.
    destruct (execute DEPTH (dl_id r) h') as [[[]|e|] h2]; [exact He|right; by exists r, ids..].
  - intros ? -> Hh. rewrite Hrun. unfold act_bind at 1. rewrite ask_quiet by done.
    destruct (Hcreate [] (S (h_ticks h)) ltac:(lia)) as (r & h' & Hc & Hi & Hr & Ha).
    unfold act_bind. rewrite Hc. by apply (execute_quiet clock uuid advance 2 r T J ids Hr h').
Qed.

(** The user tries again, or the process was started again; now nothing fails. *)
Definition restarted (h1 h2 : host) : Prop :=
  h2 = set_answers [] (h_ticks h1) h1 ∨ ∃ boot, h2 = reboot boot [] h1.

Lemma restarted_quiet h1 h2 : restarted h1 h2 → h_answers h2 = [].
Proof. by intros [-> | [boot ->]]. Qed.

Lemma restarted_frame h1 h2 : restarted h1 h2 → frame h1 h2.
Proof. by intros [-> | [boot ->]]. Qed.

Lemma deletable_later U J T l n h h2 :
  h_ticks h ≤ n → restarted (set_answers l n h) h2 → deletable U J T h → deletable U J T h2.
Proof.
  intros Hn Hre [[Hu Hf] H2 H3 H4]. destruct Hre as [-> | [boot ->]];
    (split; [split; [done|intros m Hm; apply Hf; cbn in Hm; lia]|done|done|done]).
Qed.

Lemma open_request_found r T J ids h :
  job_request r T J ids → job_inv r T J h → findActiveDeletionRequest "thread_job" J h = Some (dl_id r).
Proof.
  intros [Hk He _] [_ (d & Hd & Hid & Hp & _) Hon _]. unfold findActiveDeletionRequest.
  destruct (List.find _ _) as [x|] eqn:E.
  - apply find_elem in E as [Hx Ha]. cbn. f_equal. auto.
  - exfalso. rewrite find_none_elem in E. specialize (E d Hd). destruct (identity_fields _ _ Hid) as (E1 & E2 & _).
    unfold active_for, incomplete in E. by rewrite E1, E2, Hk, He, !bool_decide_eq_true_2 in E.
Qed.

Lemma delete_again U J T h h1 h2 :
  deletable U J T h → attempted U J T h h1 → restarted h1 h2 →
  ∃ h3, delete U J h2 = (Returned tt, h3) ∧ job_done T J h3.
Proof.
  intros Hdel Hatt Hre. pose proof (restarted_quiet _ _ Hre) as Hq.
  destruct Hatt as [(l & n & Hn & ->)|(r & ids & Hr & Hi)].
  - destruct (delete_attempt U J T h2 (deletable_later _ _ _ _ _ _ _ Hn Hre Hdel)) as [Ht Hqf].
    destruct (Hqf h2 eq_refl Hq) as ([] & h3 & Hrun & _). specialize (Ht h2 eq_refl). rewrite Hrun in Ht. eauto.
  - assert (job_inv r T J h2) as Hi2 by (eapply job_inv_frame; [by apply restarted_frame|done]).
    assert (delete U J h2 = execute DEPTH (dl_id r) h2) as ->.
    { unfold deleteJob, drainAndDeleteJob. unfold act_bind at 1, act_gets at 1. by rewrite (open_request_found r T J ids). }
    destruct (execute_quiet clock uuid advance 2 r T J ids Hr h2 Hi2 Hq) as ([] & h3 & Hrun & _).
    pose proof (execute_triple clock uuid advance 2 r T J ids Hr h2 Hi2) as Ht. rewrite Hrun in Ht. eauto.
Qed.

(** C5: The deletion of a job that leaves its thread in place, as that of a design session does,
    survives every fault. The job belongs to the user, its reference manifest can be read, no
    deletion of it is open, the ids of new requests are fresh, and its thread is not a task
    snapshot: the thread of a launched job goes with it, and there a crash can leave the
    deletion stuck (orphaned_deletion_fails_every_start). Then however the awaited calls fail or
    the process dies in between, either nothing has changed yet or the job is blocked by its
    open request, and asking again in the same process or after a restart, when nothing fails
    any more, completes the deletion: the row of the job is gone, its files were purged and no
    request for it stays open. *)
Theorem job_deletion_survives_faults U J T h :
  deletable U J T h →
  let '(o, h1) := delete U J h in
  match o with
  | Returned _ => job_done T J h1
  | _ => (requests h1 = requests h ∧ h_jobs h1 = h_jobs h ∨ isEntityDeletionBlocked "thread_job" J h1 = true) ∧
         ∀ h2, restarted h1 h2 → ∃ h3, delete U J h2 = (Returned tt, h3) ∧ job_done T J h3
  end.
Proof.
  intros Hdel. destruct (delete_attempt U J T h Hdel) as [Ht _]. specialize (Ht h eq_refl).
  assert (∀ h1, attempted U J T h h1 →
    (requests h1 = requests h ∧ h_jobs h1 = h_jobs h ∨ isEntityDeletionBlocked "thread_job" J h1 = true) ∧
    ∀ h2, restarted h1 h2 → ∃ h3, delete U J h2 = (Returned tt, h3) ∧ job_done T J h3) as Hatt.
  { intros h1 Ha. split; [|intros h2; by apply delete_again with h].
    destruct Ha as [(l & n & _ & ->)|(r & ids & Hr & Hi)]; [by left|right].
    rewrite active_blocked. apply existsb_exists.
    pose proof (open_request_found r T J ids h1 Hr Hi) as Hf. unfold findActiveDeletionRequest in Hf.
    apply fmap_Some in Hf as (d & [Hd Ha]%find_some & _). eauto. }
  destruct (delete U J h) as [[[]|e|] h1]; [exact Ht|by apply Hatt..].
Qed.

(** ** A deletion whose thread is already gone *)

(** The only open request is that of a job that was to take its thread with it;
    only the last step is left, and the thread was deleted already. *)
Record orphaned (r : deletion_request) (T : string) (h : host) : Prop := Orphaned {
  or_kind : dl_entityKind r = "thread_job";
  or_thread : dl_threadId r = Some T ∧ T ≠ "";
  or_frozen : json_truthy (json_get "deleteOwningThread" (parseFrozenSnapshot (dl_frozenJson r))) = true;
  or_unique : NoDup (map dl_id (requests h));
  or_row : ∃ d, d ∈ requests h ∧ identity d = identity r ∧ dl_phase d = "filesystem_cleaned";
  or_only : ∀ x, x ∈ requests h → incomplete x = true → dl_id x = dl_id r;
  or_gone : ∀ t, t ∈ h_threads h → ThreadRow.id t ≠ T
}.

Definition thread_not_found : Failure.t := Failure.mk "Thread not found" (Some "thread.not_found").

Lemma load_row d h : NoDup (map dl_id (requests h)) → d ∈ requests h →
  loadDeletionRequest (dl_id d) h = (Returned d, h).
Proof. intros Hu Hd. unfold loadDeletionRequest, request_by_id. by rewrite (find_by_key dl_id). Qed.

Lemma orphaned_frame r T h h' : requests h' = requests h → h_threads h' = h_threads h → orphaned r T h → orphaned r T h'.
Proof. intros Hr Ht [H1 H2 H3 H4 H5 H6 H7]. split; rewrite ?Hr, ?Ht; done. Qed.

Lemma orphaned_record r T h status message n t :
  orphaned r T h → orphaned r T (update_request (dl_id r) (set_request_error status message n t) h).
Proof.
  intros [H1 H2 H3 H4 (d & Hd & Hid & Hp) H6 H7]. set (f := set_request_error _ _ _ _).
  assert (requests (update_request (dl_id r) f h) = update_where (request_by_id (dl_id r)) f (requests h)) as Hreq by done.
  split; rewrite ?Hreq; try done.
  - by rewrite update_where_key.
  - exists (f d). split_and!; [|done|done]. apply elem_of_update. exists d. split; [done|].
    unfold request_by_id. by rewrite bool_decide_eq_true_2 by (by apply identity_id).
  - intros x (x0 & Hx0 & ->)%elem_of_update. destruct (request_by_id (dl_id r) x0) eqn:E; [|by apply H6].
    intros _. by apply bool_decide_eq_true in E.
Qed.

Lemma orphaned_execute n r T h :
  orphaned r T h → h_answers h = [] →
  ∃ h', execute (S n) (dl_id r) h = (Raised thread_not_found, h') ∧ orphaned r T h' ∧ h_answers h' = [].
Proof.
  intros Ho Hq. pose proof Ho as [H1 [H2 HT] H3 H4 (d & Hd & Hid & Hp) H6 H7].
  pose proof (identity_id _ _ Hid) as Hdi. destruct (identity_fields _ _ Hid) as (E1 & E2 & E3 & E4 & E5).
  assert (∀ x, x ∈ requests h → active_for "thread" T x = false) as Hna.
  { intros x Hx. apply not_true_iff_false. unfold active_for.
    intros [[Hk%bool_decide_eq_true _]%andb_true_iff Hin]%andb_true_iff.
    assert (x = d) as -> by (apply (unique_key dl_id (requests h)); [done..|rewrite Hdi; by apply H6]). congruence. }
  set (h1 := set_answers [] (S (h_ticks h)) h).
  assert (run_phases clock uuid advance (execute n) d h = (Raised thread_not_found, h1)) as Hrun.
  { unfold run_phases. rewrite Hp. change (bool_decide ("filesystem_cleaned" ∈ _)) with false.
    repeat change (bool_decide ("filesystem_cleaned" = "runtime_closed")) with false.
    change (bool_decide ("filesystem_cleaned" = "database_deleted")) with false.
    change (bool_decide ("filesystem_cleaned" = "filesystem_cleaned")) with true.
    unfold finish, runPostDeletionHooks. rewrite E1, H1, E3, H2, E4, H3. change (default "" (Some T)) with T.
    change (bool_decide ("thread_job" = "thread_job")) with true. rewrite (bool_decide_eq_false_2 (T = "")) by done.
    unfold act_bind at 1. unfold act_bind at 1, act_gets at 1. rewrite active_blocked.
    assert (existsb (active_for "thread" T) (requests h) = false) as ->.
    { apply not_true_iff_false. intros (x & Hx%list_elem_of_In & Ha)%existsb_exists. by rewrite Hna in Ha. }
    cbn [negb andb act_when]. unfold act_bind at 1. unfold drainAndDeleteThread. unfold act_bind at 1, act_gets at 1.
    rewrite (proj2 (no_active "thread" T h) Hna). unfold act_bind at 1. rewrite ask_quiet by done. fold h1.
    unfold act_bind at 1, act_gets at 1.
    assert (List.find (λ t, bool_decide (ThreadRow.username t = dl_username d) && bool_decide (ThreadRow.id t = T))
      (h_threads h1) = None) as ->; [|done].
    apply find_none_elem. intros t Ht. rewrite (bool_decide_eq_false_2 (ThreadRow.id t = T)), andb_false_r; [done|].
    by apply H7. }
  assert (loadDeletionRequest (dl_id r) h1 = (Returned d, h1)) as Hload by (rewrite <-Hdi; by apply load_row).
  cbn [executeDeletionRequest]. unfold act_bind at 1. rewrite <-Hdi, (load_row d h), Hdi by done.
  rewrite Hp. change (bool_decide ("filesystem_cleaned" = "completed")) with false.
  unfold act_catch. rewrite Hrun. unfold act_bind at 1. rewrite Hload, Hp.
  change (bool_decide ("filesystem_cleaned" = "completed")) with false.
  change (bool_decide ("filesystem_cleaned" = "database_deleted")) with false. cbn [negb andb act_when].
  unfold recordDeletionFailure, recordFailure. unfold act_bind at 1. unfold act_bind at 1. rewrite Hload.
  unfold await, act_bind. rewrite ask_quiet by done. cbn [act_modify act_raise].
  eexists. split; [done|]. split; [|done]. apply orphaned_record. eapply orphaned_frame; [..|exact Ho]; done.
Qed.

Lemma orphaned_resume_all r T ids : ∀ errors h,
  Forall (λ id, id = dl_id r) ids → orphaned r T h → h_answers h = [] →
  ∃ h', resume_all clock uuid advance ids errors h = (Returned (errors ++ ids), h') ∧ orphaned r T h' ∧ h_answers h' = [].
Proof.
  induction ids as [|id ids IH]; intros errors h Hall Ho Hq; [exists h; by rewrite app_nil_r|].
  apply Forall_cons_iff in Hall as [-> Hall]. cbn [resume_all].
  destruct (orphaned_execute 2 r T h Ho Hq) as (h1 & Hex & Ho1 & Hq1).
  destruct (IH (errors ++ [dl_id r]) h1 Hall Ho1 Hq1) as (h2 & Hr & Ho2 & Hq2).
  exists h2. split; [|done]. unfold act_bind at 1, act_catch, act_bind at 1. change DEPTH with 3. rewrite Hex.
  cbn [act_ret]. by rewrite Hr, <-app_assoc.
Qed.

(** C28: When the process died after the thread of a job was deleted and before the request of
    the job was completed, every retry of the request fails with thread.not_found, the resume at
    startup raises, and the next start finds the same state. *)
Theorem orphaned_deletion_fails_every_start r T h :
  orphaned r T h → h_answers h = [] →
  (∀ n, ∃ h', execute (S n) (dl_id r) h = (Raised thread_not_found, h') ∧ orphaned r T h') ∧
  ∃ h', resumePendingDeletionRequestsOnStartup clock uuid advance h =
          (Raised (plain_error "Failed to resume pending deletion requests"), h') ∧
        ∀ boot, orphaned r T (reboot boot [] h').
Proof.
  intros Ho Hq. split; [intros n; destruct (orphaned_execute n r T h Ho Hq) as (h' & ? & ? & _); eauto|].
  unfold resumePendingDeletionRequestsOnStartup. unfold act_bind at 1, act_gets.
  set (ids := map dl_id (List.filter incomplete (requests h))).
  assert (Forall (λ id, id = dl_id r) ids) as Hall.
  { apply List.Forall_forall. intros id (x & <- & [Hx%list_elem_of_In Hi]%filter_In)%in_map_iff. by apply (or_only _ _ _ Ho). }
  assert (ids ≠ []) as Hne.
  { destruct (or_row _ _ _ Ho) as (d & Hd & _ & Hp). intros Hn.
    assert (In (dl_id d) ids) as Hin; [|by rewrite Hn in Hin].
    apply in_map, filter_In. split; [by apply list_elem_of_In|]. unfold incomplete. by rewrite Hp. }
  destruct (orphaned_resume_all r T ids [] h Hall Ho Hq) as (h' & Hr & Ho' & _).
  unfold act_bind. rewrite Hr. cbn [app]. destruct ids; [done|]. eexists. split; [done|].
  intros boot. eapply orphaned_frame; [..|exact Ho']; done.
Qed.
End theorems.
