(* ===== verification/Controls.v ===== *)
(** * The controls of a job

    Models the controls of [src/server/legacy-control-plane/controls.ts] (pause,
    resume, continue, cancel, restart) for jobs that [getAuthoritativeControlJob]
    does not hand over to the control plane of [Commands],
    [job-queue.ts], [execution-recovery.ts]'s use here, the occupancy queries of
    [workload-slot.ts] and the end of an execution run ([run-lifecycle.ts]).
    Events sent to the renderer and the turns of the sandbox are not part of the
    state.  The loop of a job that a resume waits for is the environment's: when
    the wait does not fail, the loop has ended. *)
From stdpp Require Import pretty.
From Stdlib Require Import Ascii.
From S2P Require Import Prelude Json JsString Path Sql WorkspaceLease TaskAttempts SavedPlan Gate TurnErrors TaskRecovery.
From S2P Require Import StoredErrors RecoveryState ContinueFailed.
From S2P Require Import WorkloadSlots JobRows QueueCoordinator Act Registries Host RunLifecycle.
Local Open Scope act_scope.

#[local] Arguments bool_decide : simpl never.

(** ** Progress *)

Definition JOB_PAUSED : TurnErrorDto.t := turnErrorDto "job.paused" None None None.

Definition defaultPlanProgress : PlanProgress.t :=
  PlanProgress.mk "idle" "pending" 0 0 None None None None None None.

Definition pendingPlanProgress : PlanProgress.t :=
  PlanProgress.set_phase "idle" "pending" (Some "execution.pending") defaultPlanProgress.

(** The plan progress of a job that waits in the execution queue. *)
Definition queuedPlanProgress : PlanProgress.t :=
  PlanProgress.set_phase "plan_ready" "pending" (Some "execution.pending") defaultPlanProgress.

Definition PLANNING_JOB_STATUSES : list string := ["planning"; "plan_editing"].
Definition isPlanningJobStatus (status : string) : bool := bool_decide (status ∈ PLANNING_JOB_STATUSES).

(** ** Patches *)

Definition no_patch : patch JobContent.t := mkPatch None None None None None None false id.

Definition with_content (f : JobContent.t → JobContent.t) (p : patch JobContent.t) : patch JobContent.t :=
  mkPatch (pt_status p) (pt_planConfirmedAt p) (pt_lastError p) (pt_suspensionKind p) (pt_continueAfterPause p)
    (pt_recoveryReason p) (pt_columns p) (λ c, f (pt_content p c)).

(** [{ status, lastError: null }], without a status [{ lastError: null }] *)
Definition clear_error (status : option string) : patch JobContent.t :=
  mkPatch status None (Some None) None None None true id.

Definition paused_error : option string := Some (serializeStoredTurnError JOB_PAUSED).

(** [{ status, suspensionKind: 'user_pause', continueAfterPause: false, recoveryReason: null }] *)
Definition user_pause (status : string) (lastError : option (option string)) : patch JobContent.t :=
  mkPatch (Some status) None lastError (Some (Some "user_pause")) (Some false) (Some None) true id.

(** ** Errors *)

Definition not_found : Failure.t := Failure.mk "Job not found" (Some "job.not_found").
Definition invalid_status (message : string) : Failure.t := Failure.mk message (Some "job.invalid_status").

Definition mapV3StateToLegacyStatus (state : string) : option string :=
  if bool_decide (state ∈ ["pausing"; "paused"; "cancelled"; "failed"]) then Some state
  else if bool_decide (state = "succeeded") then Some "completed"
  else if bool_decide (state ∈ ["execution_queued"; "planning_queued"]) then Some "pending"
  else if bool_decide (state = "execution_running") then Some "running"
  else if bool_decide (state = "planning_running") then Some "planning"
  else if bool_decide (state = "plan_review") then Some "plan_ready"
  else None.

Section controls.
Context (clock : nat → Z) (pr : process).
Context (advance : nat → list (string * string) → queue → result string unit * queue).
(** [retryDesignSessionPlanning] of the design sessions. *)
Context (retryJobPlanning : string → string → hostM job).

Notation now := (now clock).

(** [updateJobRow] and [updateJobRowForSnapshot]: the row after the update. *)
Definition updateJobRow (jobId : string) (p : patch JobContent.t) : hostM (option job) := await (λ h,
  let s := JobRows.updateJobRow (now h) jobId p (h_work h) in
  (Returned (find_job s jobId), set_host_work s h)).

(** [if (!updated) throw AppError.internal(message, 'job.invalid_status')] *)
Definition updated_or (message : string) (m : hostM (option job)) : hostM job :=
  let~ u := m in
  match u with Some j => act_ret j | None => act_raise (invalid_status message) end.

Definition require_job (username jobId : string) : hostM job :=
  do~ ask in
  let~ row := act_gets (getUserJob username jobId) in
  match row with Some j => act_ret j | None => act_raise not_found end.

(** ** Who occupies the pool *)

Definition truthy_id (o : option string) : option string :=
  i ← o; if bool_decide (i = "") then None else Some i.

Fixpoint oldest_by {A} (key : A → Z) (l : list A) : option A :=
  match l with
  | [] => None
  | x :: l' => match oldest_by key l' with
               | Some y => if bool_decide (key y < key x)%Z then Some y else Some x
               | None => Some x
               end
  end.

(** [findActiveSlotOccupantInPool]: active slots joined with their runs, by the
    start of the run. *)
Definition findActiveSlotOccupantInPool (pool exceptId : string) (h : host) : option string :=
  let s := h_work h in
  let rows := omap (λ x, r ← find_run s (Slot.runId x); Some (x, Run.startedAt r))
                (select_where (active_in_pool pool) (slots s)) in
  (λ e, Slot.ownerId e.1) <$> oldest_by snd (List.filter (λ e,
     negb (negb (bool_decide (exceptId = "")) && bool_decide (Slot.ownerId e.1 = exceptId)) &&
     isWorkloadSlotLeaseLive pr (now h) e.1) rows).

(** The oldest running job of the user, unless it is [exceptJobId]. *)
Definition findDbRunningJobId (username exceptJobId : string) (h : host) : option string :=
  i ← truthy_id (jb_id <$> oldest_by jb_updatedAt (select_where (running_of username) (h_jobs h)));
  if negb (bool_decide (exceptJobId = "")) && bool_decide (i = exceptJobId) then None else Some i.

Definition findExecutionOccupant (username exceptJobId : string) (h : host) : option string :=
  match truthy_id (Loops.findActiveLoopJobIdForUser username (Some exceptJobId) (h_loops h)) with
  | Some i => Some i
  | None => match truthy_id (findActiveSlotOccupantInPool "execution" exceptJobId h) with
            | Some i => Some i
            | None => findDbRunningJobId username exceptJobId h
            end
  end.

(** [true]: claimed; [false]: queued behind another job. *)
Definition claimJobSlotOrEnqueue (username jobId : string) : hostM bool :=
  do~ ask in
  let~ occupying := act_gets (findExecutionOccupant username jobId) in
  match occupying with
  | None => act_ret true
  | Some _ =>
      do~ updateJobRow jobId (with_content (JobContent.set_planProgress pendingPlanProgress) (clear_error (Some "pending"))) in
      act_ret false
  end.

Definition acquireExecutionLease (username jobId : string) : hostM bool := λ h,
  let occupant := Loops.findActiveLoopJobIdForUser username (Some jobId) (h_loops h) in
  match JobRows.acquireExecutionLease pr (now h) username jobId (truthy_id occupant) (h_work h) with
  | (Ok b, s) => (Returned b, set_host_work s h)
  | (Err e, s) => (Raised (plain_error e), set_host_work s h)
  end.

Definition authorizeReplay (jobId : string) : hostM unit := λ h,
  let '(r, l) := authorizeUncertainTaskAttemptReplayForJob jobId (now h) (w_ledger (h_queue h)) in
  let q := h_queue h in
  let h' := set_queue (mkWorld (w_work q) (w_leases q) l (w_scheduled q)) h in
  match r with
  | Ok _ => (Returned tt, h')
  | Err e => (Raised (plain_error e), h')
  end.

(** ** Pause *)

(** [abortActiveTurn] and [clearAbortController] after [setControl]. *)
Definition stop_turn (jobId : string) (c : JobControlState.t) (clear : bool) : hostM unit :=
  do~ update_loops (λ g, let g := Loops.abortActiveTurn jobId (Loops.setControl jobId c g) in
                         if clear then Loops.clearAbortController jobId g else g) in
  act_modify (add_effects [CancelSandboxTurns jobId]).

Definition pause_planning (jobId : string) (j : job) : hostM job :=
  let~ planning := act_gets (λ h, RuntimeRegistry.isJobPlanning jobId (h_planning h)) in
  do~ act_when planning (act_modify (λ h, set_planning (RuntimeRegistry.setPlanningControl jobId true (h_planning h)) h)) in
  let p := if planning
           then PlanProgress.set_phase "planning" "running" (Some "plan.pausing") (JobContent.planProgress (jb_content j))
           else PlanProgress.set_phase "idle" "pending" (Some "plan.pending") (JobContent.planProgress (jb_content j)) in
  updated_or "Failed to pause job"
    (updateJobRow jobId (with_content (JobContent.set_planProgress p)
       (mkPatch None None (Some paused_error) None None None true id))).

Definition pauseJob (username jobId : string) : hostM job :=
  let~ j := require_job username jobId in
  if isPlanningJobStatus (jb_status j) then pause_planning jobId j
  else if negb (bool_decide (jb_status j ∈ ["plan_ready"; "running"; "paused"; "pending"])) then
    act_raise (invalid_status ("Job status " +:+ jb_status j +:+ " cannot be paused"))
  else if bool_decide (jb_status j = "pending") then
    updated_or "Failed to pause job" (updateJobRow jobId (user_pause "paused" (Some paused_error)))
  else if bool_decide (jb_status j = "running") then
    do~ update_loops (Loops.setControl jobId JobControlState.paused) in
    let~ u := updated_or "Failed to pause job" (updateJobRow jobId (user_pause "pausing" None)) in
    do~ update_loops (Loops.abortActiveTurn jobId) in
    do~ act_modify (add_effects [CancelSandboxTurns jobId]) in
    act_ret u
  else
    do~ stop_turn jobId JobControlState.paused true in
    let~ u := updated_or "Failed to pause job" (updateJobRow jobId (user_pause "paused" (Some paused_error))) in
    do~ stopAndReleaseActiveRun clock advance jobId "paused" in
    act_ret u.

(** ** Continue after a pause *)

Definition resuming_progress (p : TaskProgress.t) : TaskProgress.t :=
  let q := (prepareInterruptedExecutionResume p).2 in
  TaskProgress.mk "running" "pending" (TaskProgress.currentIndex q) (TaskProgress.total q)
    (TaskProgress.currentTaskId q) (Some "execution.resuming") None (TaskProgress.tasks q)
    (TaskProgress.slices q) (TaskProgress.milestones q) (TaskProgress.repairGenerations q)
    (TaskProgress.verificationAttempts q) (TaskProgress.verificationBundleHashes q).

Definition settleContinueAfterPause (username jobId : string) : hostM bool :=
  do~ ask in
  let~ row := act_gets (getUserJob username jobId) in
  match row with
  | None => act_ret false
  | Some j =>
      if negb (bool_decide (jb_status j = "paused")) || negb (jb_continueAfterPause j) then act_ret false
      else
        do~ authorizeReplay jobId in
        let~ promoted := (λ h, let '(b, s) := promoteContinuedPauseToPending (now h) jobId (h_work h) in
                               (Returned b, set_host_work s h)) in
        if negb promoted then act_ret false
        else
          do~ updateJobRow jobId (with_content (λ c,
                JobContent.set_progress (resuming_progress (JobContent.taskProgress (jb_content j)))
                  (JobContent.set_planProgress
                     (PlanProgress.set_phase (if JobContent.hasTasks (jb_content j) then "plan_ready" else "idle")
                        "pending" (Some "execution.pending") defaultPlanProgress) c)) no_patch) in
          act_ret true
  end.

Definition resumePausedJob (username jobId : string) : hostM job :=
  let~ j := require_job username jobId in
  if negb (bool_decide (jb_status j = "paused")) && negb (bool_decide (jb_status j = "pausing")) then
    act_raise (invalid_status "Only paused jobs can be resumed")
  else
    let~ intent := updated_or "Failed to resume job" (updateJobRow jobId
      (mkPatch None None None (Some (Some (default "user_pause" (jb_suspensionKind j)))) (Some true) None true id)) in
    let~ active := act_gets (λ h, getActiveRun jobId (h_work h)) in
    let~ executing := act_gets (λ h, Loops.isLoopActive jobId (h_loops h)) in
    if bool_decide (jb_status j = "pausing") || executing || negb (match active with None => true | Some _ => false end)
    then act_ret intent
    else
      do~ settleContinueAfterPause username jobId in
      do~ advanceExecutionQueue advance username in
      let~ latest := act_gets (getUserJob username jobId) in
      act_ret (default intent latest).

(** ** Starting a loop again *)

Definition waitForJobLoopIdle (jobId : string) : hostM unit :=
  do~ act_modify (add_effects [CancelSandboxTurns jobId]) in
  do~ act_catch ask (λ _, act_raise (invalid_status "Job is still stopping; retry later")) in
  update_loops (λ g, (Loops.endLoop jobId g).2).

Definition requestJobExecutionResume (username jobId : string) : hostM unit :=
  let~ executing := act_gets (λ h, Loops.isLoopActive jobId (h_loops h)) in
  do~ act_when executing (waitForJobLoopIdle jobId) in
  do~ update_loops (Loops.resumeExecution jobId) in
  do~ (λ h, match Loops.tryStartLoop jobId (Some username) (h_loops h) with
            | (true, g) => (Returned tt, set_loops g (set_queue (scheduleJobExecution username jobId None (h_queue h)) h))
            | (false, _) => (Returned tt, h)
            end) in
  let~ executing := act_gets (λ h, Loops.isLoopActive jobId (h_loops h)) in
  if executing then act_ret tt else act_raise (invalid_status "Failed to resume job").

(** ** Continue a failed job *)

Definition recovery_job (j : job) : RecoveryJob.t :=
  RecoveryJob.mk (jb_status j) (parseStoredTurnError (jb_lastError j)) (JobContent.taskProgress (jb_content j)).

(** What is thrown becomes a bad request with the code of the turn error. *)
Definition refused (e : thrown) : Failure.t :=
  match e with
  | ThrownTurn dto => Failure.mk (TurnErrorDto.message dto) (Some (TurnErrorDto.code dto))
  | _ => Failure.mk (readErrorMessage e) (Some "task.execution_failed")
  end.

Definition continued (prepared : SavedJobPlan.t * TaskProgress.t) (plan_progress : bool) (status : string) :
    patch JobContent.t :=
  with_content (λ c,
    let c := JobContent.set_plan prepared.1 (JobContent.set_progress prepared.2 c) in
    if plan_progress then JobContent.set_planProgress queuedPlanProgress c else c) (clear_error (Some status)).

Definition continue_prepared (username jobId : string) (prepared : SavedJobPlan.t * TaskProgress.t) : hostM job :=
  let fail := "Failed to continue job" in
  do~ authorizeReplay jobId in
  do~ ask in
  let~ occupying := act_gets (findExecutionOccupant username jobId) in
  match occupying with
  | Some _ => updated_or fail (updateJobRow jobId (continued prepared true "pending"))
  | None =>
      let~ claimed := claimJobSlotOrEnqueue username jobId in
      if negb claimed then updated_or fail (updateJobRow jobId (continued prepared false "pending"))
      else
        let~ leased := acquireExecutionLease username jobId in
        if negb leased then updated_or fail (updateJobRow jobId (continued prepared true "pending"))
        else
          do~ update_loops (Loops.setControl jobId JobControlState.running) in
          do~ updated_or fail (updateJobRow jobId (continued prepared false "running")) in
          do~ requestJobExecutionResume username jobId in
          let~ latest := act_gets (getUserJob username jobId) in
          match latest with Some j => act_ret j | None => act_raise (invalid_status fail) end
  end.

Definition continueFailedJob (username jobId : string) : hostM job :=
  let~ j := require_job username jobId in
  if bool_decide (jb_status j = "paused") || bool_decide (jb_status j = "pausing") then resumePausedJob username jobId
  else if negb (bool_decide (jb_status j = "failed")) ||
          negb (rc_recoverable (rs_recovery (deriveJobRecoveryState (recovery_job j)))) then
    act_raise (invalid_status "Only paused or recoverable failed jobs can be continued")
  else match JobContent.plan (jb_content j) with
  | None => act_raise (Failure.mk "Job plan is empty" (Some "job.plan_empty"))
  | Some plan =>
      if bool_decide (length (SavedJobPlan.tasks plan) = 0) then
        act_raise (Failure.mk "Job plan is empty" (Some "job.plan_empty"))
      else match prepareContinueFailedExecution (recovery_job j) plan with
      | Err e => act_raise (refused e)
      | Ok prepared => continue_prepared username jobId prepared
      end
  end.

Definition resumeJob (username jobId : string) : hostM job :=
  let~ j := require_job username jobId in
  if bool_decide (jb_status j = "paused") || bool_decide (jb_status j = "pausing") then resumePausedJob username jobId
  else if bool_decide (jb_status j = "failed") then continueFailedJob username jobId
  else act_raise (invalid_status "Only paused or recoverable failed jobs can be resumed").

Definition continueJob : string → string → hostM job := continueFailedJob.

(** ** Cancel *)

Definition cancelled_progress (p : TaskProgress.t) : TaskProgress.t :=
  TaskProgress.mk (if bool_decide (TaskProgress.phase p = "idle") then "idle" else "failed") "failed"
    (TaskProgress.currentIndex p) (TaskProgress.total p) (TaskProgress.currentTaskId p) (Some "execution.failed")
    (Some [("reason", JStr "cancelled")]) (TaskProgress.tasks p) (TaskProgress.slices p) (TaskProgress.milestones p)
    (TaskProgress.repairGenerations p) (TaskProgress.verificationAttempts p) (TaskProgress.verificationBundleHashes p).

Definition cancel_row (jobId : string) (j : job) : hostM job :=
  updated_or "Failed to cancel job" (updateJobRow jobId
    (with_content (JobContent.set_progress (cancelled_progress (JobContent.taskProgress (jb_content j))))
       (clear_error (Some "cancelled")))).

Definition cancelJob (username jobId : string) : hostM job :=
  let~ j := require_job username jobId in
  if bool_decide (jb_status j ∈ ["completed"; "cancelled"]) then
    act_raise (Failure.mk "Job already finished" (Some "job.already_finished"))
  else if isPlanningJobStatus (jb_status j) then
    do~ act_modify (λ h, set_planning (RuntimeRegistry.endJobPlanning jobId None (h_planning h)).2 h) in
    do~ act_modify (add_effects [CancelSandboxTurns jobId]) in
    let~ u := cancel_row jobId j in
    do~ act_modify (add_effects [EmitJobDone jobId]) in
    do~ stopAndReleaseActiveRun clock advance jobId "cancelled" in
    act_ret u
  else
    do~ stop_turn jobId JobControlState.cancelling true in
    let~ u := cancel_row jobId j in
    do~ update_loops (Loops.dropRuntime jobId) in
    do~ await (act_modify (λ h, set_host_work (clearExecutionLease (now h) jobId (h_work h)) h)) in
    do~ act_modify (add_effects [EmitJobDone jobId]) in
    do~ stopAndReleaseActiveRun clock advance jobId "cancelled" in
    act_ret u.

(** ** Restart *)

Definition restart_item (t : FlatTaskPlan.t) : TaskProgressItem.t :=
  TaskProgressItem.mk (FlatTaskPlan.id t) (FlatTaskPlan.title t) "queued" (Some (FlatTaskPlan.abilityCode t))
    (Some "queued") None None None None None.

Definition restart_progress (plan : SavedJobPlan.t) : TaskProgress.t :=
  TaskProgress.mk "running" "running" 0 (length (SavedJobPlan.tasks plan)) None (Some "execution.resuming") None
    (map restart_item (SavedJobPlan.tasks plan)) [] [] ∅ ∅ ∅.

Definition restartJob (username jobId : string) : hostM job :=
  let~ j := require_job username jobId in
  if negb (bool_decide (jb_status j ∈ ["failed"; "cancelled"; "paused"])) then
    act_raise (invalid_status ("Job status " +:+ jb_status j +:+ " cannot be restarted"))
  else if negb (JobContent.hasTasks (jb_content j)) then retryJobPlanning username jobId
  else
    let plan := default (SavedJobPlan.mk [] []) (JobContent.plan (jb_content j)) in
    let fail := "Failed to restart job" in
    let~ claimed := claimJobSlotOrEnqueue username jobId in
    if negb claimed then
      do~ ask in
      let~ queued := act_gets (getUserJob username jobId) in
      match queued with Some q => act_ret q | None => act_raise (invalid_status fail) end
    else
      let~ leased := acquireExecutionLease username jobId in
      if negb leased then
        updated_or fail (updateJobRow jobId (with_content (λ c,
          JobContent.set_planProgress queuedPlanProgress (JobContent.set_progress (restart_progress plan) c))
          (clear_error (Some "pending"))))
      else
        do~ update_loops (Loops.setControl jobId JobControlState.running) in
        let~ u := updated_or fail (updateJobRow jobId
          (with_content (JobContent.set_progress (restart_progress plan)) (clear_error None))) in
        do~ requestJobExecutionResume username jobId in
        act_ret u.

(** ** Loops *)

Definition markJobExecuting (jobId : string) (username : option string) : hostM bool := λ h,
  let '(b, g) := Loops.tryStartLoop jobId username (h_loops h) in (Returned b, set_loops g h).

(** ** The end of an execution run *)

(** [failure]: the run is stopped, not only closed.  The cleanup of the runtime
    directory that ends it ([retryTerminalJobRuntimeCleanup]) is not modelled. *)
Definition finishExecutionRunLifecycle (runId username jobId reason : string) (failure : bool) : hostM unit :=
  do~ ask in
  let~ active := act_gets (λ h, isRunActive runId (h_work h)) in
  do~ (if active && failure then stopRunLifecycle clock advance runId reason true
       else closeRunRuntimeOrQuarantine clock runId "child_close_failed") in
  do~ finalizeJobExecution username jobId in
  do~ markJobExecutionDone clock jobId (Some runId) in
  do~ act_when active (do~ releaseWorkloadSlot clock advance runId (Some reason) true in act_ret tt) in
  do~ clearExecutionRunId jobId in
  do~ settleContinueAfterPause username jobId in
  advanceWorkloadQueue advance username.

(** ** Resuming the queues *)

Definition distinct_users (status : string) (h : host) : list string :=
  map jb_username (List.filter (λ j, bool_decide (jb_status j = status)) (h_jobs h)).

(** One attempt per user; the failures are collected. *)
Fixpoint resume_users (users : list string) (failures : list (string * Failure.t)) : hostM (list (string * Failure.t)) :=
  match users with
  | [] => act_ret failures
  | u :: users' =>
      let~ failed := act_catch (do~ advanceWorkloadQueue advance u in act_ret None) (λ e, act_ret (Some e)) in
      resume_users users' (match failed with Some e => failures ++ [(u, e)] | None => failures end)
  end.

Definition resumeJobQueuesOnStartup : hostM unit :=
  do~ ask in
  let~ users := act_gets (λ h, foldl (λ s x, set_add x s) []
    (distinct_users "pending" h ++ distinct_users "paused" h ++ distinct_users "running" h)) in
  let~ failures := resume_users users [] in
  match failures with
  | [] => act_ret tt
  | _ =>
      let detail := join "; " (map (λ '(u, e), u +:+ ": " +:+ Failure.message e) failures) in
      act_raise (plain_error ("Startup queue resume failed for " +:+ pretty (length failures) +:+ " user(s): " +:+ detail))
  end.
End controls.
