(* ===== verification/ControlSpecs.v ===== *)
(** * What the controls of a job do *)
From stdpp Require Import pretty.
From Stdlib Require Import Ascii.
From S2P Require Import Prelude Json JsString Path Sql WorkspaceLease TaskAttempts SavedPlan Gate TurnErrors.
From S2P Require Import TaskRecovery WorkloadSlots JobRows WorkloadSpecs QueueCoordinator StoredErrors.
From S2P Require Import RecoveryState ContinueFailed Act Registries Host RunLifecycle.
From S2P Require Import DeletionSpecs Controls.
Local Open Scope act_scope.
#[local] Arguments bool_decide : simpl never.

Inductive control := Pause | Resume | Continue | Cancel | Restart.

(** The statuses in which a control is not refused at once. *)
Definition accepts (c : control) (status : string) : bool :=
  match c with
  | Pause => isPlanningJobStatus status || bool_decide (status ∈ ["plan_ready"; "running"; "paused"; "pending"])
  | Resume | Continue => bool_decide (status ∈ ["paused"; "pausing"; "failed"])
  | Cancel => negb (bool_decide (status ∈ ["completed"; "cancelled"]))
  | Restart => bool_decide (status ∈ ["failed"; "cancelled"; "paused"])
  end.

(** The control behind an action that is offered; [delete] is the deletion. *)
Definition control_of (a : JobAction.t) : option control :=
  match a with
  | JobAction.continue => Some Continue
  | JobAction.restart => Some Restart
  | JobAction.pause => Some Pause
  | JobAction.delete => None
  end.

Section specs.
Context (clock : nat → Z) (pr : process).
Context (advance : nat → list (string * string) → queue → result string unit * queue).
Context (retryJobPlanning : string → string → hostM job).

Definition run_control (c : control) : string → string → hostM job :=
  match c with
  | Pause => pauseJob clock advance
  | Resume => resumeJob clock pr advance
  | Continue => continueJob clock pr advance
  | Cancel => cancelJob clock advance
  | Restart => restartJob clock pr retryJobPlanning
  end.

(** ** Refusals *)

(** What a control does after it read the job. *)
Lemma require_job_cases {A} U J (k : job → hostM A) h :
  (∃ l n, (let~ j := require_job U J in k j) h = (Died, set_answers l n h)) ∨
  (∃ l n e, (let~ j := require_job U J in k j) h = (Raised e, set_answers l n h)) ∨
  (∃ l n j, getUserJob U J h = Some j ∧ (let~ j := require_job U J in k j) h = k j (set_answers l n h)).
Proof.
  assert (∃ o l, ask h = (o, set_answers l (S (h_ticks h)) h)) as (o & l & Hask).
  { unfold ask. destruct (h_answers h) as [|[] l]; eauto. }
  unfold require_job. unfold act_bind at 1 4 7. unfold act_bind at 1 3 5. rewrite Hask.
  destruct o as [[]|e|]; [|right; left; by eexists _, _, _|left; by eexists _, _].
  unfold act_bind, act_gets.
  change (getUserJob U J (set_answers l (S (h_ticks h)) h)) with (getUserJob U J h).
  destruct (getUserJob U J h) as [j|]; right; [right; by eexists _, _, _|left; by eexists _, _, _].
Qed.

(** A control (pause, resume, continue, cancel, restart) that the status of the job does
    not allow, or whose job does not exist, never returns a job and changes nothing in the
    process or its database. *)
Theorem refused_control_changes_nothing c U J h :
  (∀ j, getUserJob U J h = Some j → accepts c (jb_status j) = false) →
  ∃ o l n, run_control c U J h = (o, set_answers l n h) ∧ ∀ j, o ≠ Returned j.
Proof.
  intros Hno.
  assert (∀ k : job → hostM job,
    (∀ j h, accepts c (jb_status j) = false → ∃ e, k j h = (Raised e, h)) →
    ∃ o l n, (let~ j := require_job U J in k j) h = (o, set_answers l n h) ∧ ∀ j, o ≠ Returned j) as Hk.
  { intros k Hk. destruct (require_job_cases U J k h) as [(l & n & ->)|[(l & n & e & ->)|(l & n & j & Hj & ->)]];
      [by eexists _, _, _..|]. destruct (Hk j (set_answers l n h) (Hno j Hj)) as [e ->]. by eexists _, _, _. }
  destruct c; cbn [run_control]; apply Hk; clear Hk Hno; intros j h0 Ha; unfold accepts in Ha.
  - apply orb_false_iff in Ha as [-> ->]. by eexists.
  - apply bool_decide_eq_false in Ha. rewrite !bool_decide_eq_false_2 by set_solver. by eexists.
  - apply bool_decide_eq_false in Ha. rewrite !bool_decide_eq_false_2 by set_solver. by eexists.
  - apply negb_false_iff in Ha as ->. by eexists.
  - rewrite Ha. by eexists.
Qed.

(** Every action a job offers is accepted by its control. *)
Theorem offered_actions_are_accepted (j : job) a c :
  a ∈ rs_availableActions (deriveJobRecoveryState (recovery_job j)) → control_of a = Some c →
  accepts c (jb_status j) = true.
Proof.
  cbn [deriveJobRecoveryState rs_availableActions recovery_job RecoveryJob.status].
  unfold resolveLifecycle, deriveAvailableActions.
  repeat case_bool_decide; cbn [orb]; intros Hin Hc; destruct a; cbn in Hc; simplify_eq; cbn [accepts];
    try (rewrite bool_decide_eq_true_2 by set_solver; by rewrite ?orb_true_r); exfalso; set_solver.
Qed.
End specs.

(** ** Cancelling a job frees what it holds *)

(** ** While the runtime of a run is stopped *)

Definition live_run (runId : string) (h : host) : Prop :=
  ∃ r, find_run (h_work h) runId = Some r ∧ RunStatus.live (Run.status r) = true.

Record only_marks (runId : string) (h h' : host) : Prop := OnlyMarks {
  om_jobs : h_jobs h' = h_jobs h;
  om_slots : slots (h_work h') = slots (h_work h);
  om_loops : h_loops h' = h_loops h;
  om_live : live_run runId h → live_run runId h'
}.

#[export] Instance only_marks_preorder runId : PreOrder (only_marks runId).
Proof.
  split; [by intros h; split|]. intros h1 h2 h3 [A1 A2 A3 A4] [B1 B2 B3 B4]. split; [congruence..|auto].
Qed.

#[export] Instance only_marks_stable runId : MarkStable (only_marks runId).
Proof.
  split; [apply _|by apply keeps_ask; [apply _|intros h l n; split]|by intros h es; split|].
  intros h st reason t k Hst. destruct (mark_run_jobs st reason t k (h_work h)) as [Hj _].
  split; [exact Hj|apply mark_run_slots|done|].
  intros (r & Hr & Hl). unfold live_run, h_work. cbn. unfold find_run. cbn.
  rewrite find_update by done. unfold h_work, find_run in Hr. rewrite Hr. cbn.
  eexists. split; [done|]. by destruct (run_by_id k r).
Qed.

(** ** Jobs that neither wait nor run *)

Definition settled (J : string) (h : host) : Prop :=
  NoDup (ids_of h) ∧ ∀ x, x ∈ h_jobs h → jb_id x = J → jb_status x ∉ ["pending"; "running"].

Record spares (J : string) (h h' : host) : Prop := Spares {
  sp_runs : ∃ new, runs (h_work h') = runs (h_work h) ++ new;
  sp_slots : ∀ x, x ∈ slots (h_work h') → Slot.ownerId x = J → x ∈ slots (h_work h);
  sp_ids : ids_of h' = ids_of h;
  sp_jobs : ∀ x, x ∈ h_jobs h' → jb_id x = J → x ∈ h_jobs h;
  sp_loops : J ∉ Loops.activeLoops (h_loops h) → J ∉ Loops.activeLoops (h_loops h');
  sp_handles : h_handles h' = h_handles h
}.

(** What happens to a settled job while other jobs go on. *)
Definition lets_be (J : string) (h h' : host) : Prop := settled J h → spares J h h'.

Lemma settled_spares J h h' : spares J h h' → settled J h → settled J h'.
Proof. intros S [Hnd Hst]. split; [by rewrite (sp_ids _ _ _ S)|]. intros x Hx Hid. apply Hst; [by apply S|done]. Qed.

#[export] Instance lets_be_preorder J : PreOrder (lets_be J).
Proof.
  split.
  - intros h _. split; try done. exists []. by rewrite app_nil_r.
  - intros h1 h2 h3 H12 H23 Hs. specialize (H12 Hs). specialize (H23 (settled_spares _ _ _ H12 Hs)).
    destruct H12 as [[n1 A1] A2 A3 A4 A5 A6], H23 as [[n2 B1] B2 B3 B4 B5 B6].
    split; [|auto|congruence|auto|auto|congruence].
    exists (n1 ++ n2). by rewrite B1, A1, app_assoc.
Qed.

Lemma lets_be_same J h h' :
  h_work h' = h_work h → h_loops h' = h_loops h → h_handles h' = h_handles h → lets_be J h h'.
Proof.
  intros Hw Hl Hh _. assert (h_jobs h' = h_jobs h) as Hj by (unfold h_jobs; by rewrite Hw).
  split; rewrite ?Hw, ?Hl, ?Hj; try done; [exists []; by rewrite app_nil_r|].
  unfold ids_of, job_ids. fold (h_work h) (h_work h'). by rewrite Hw.
Qed.

Lemma lets_be_ask J : keeps (lets_be J) ask.
Proof. intros h. apply lets_be_same; unfold ask; by destruct (h_answers h) as [|[]]. Qed.

(** Only the job of the entry gets a loop. *)
Lemma mark_scheduled_other J e g :
  e.1.2 ≠ J → J ∉ Loops.activeLoops g → J ∉ Loops.activeLoops (mark_scheduled e g).
Proof.
  destruct e as [[u k] slot]. cbn. intros Hne Hnot.
  set (g' := match slot with Some _ => g | None => Loops.resumeExecution k g end).
  assert (J ∉ Loops.activeLoops g') as Hg'.
  { unfold g'. destruct slot; [done|]. unfold Loops.resumeExecution. by rewrite Loops.with_runtime_loops. }
  pose proof (Loops.op_loops (Loops.TryStart k (Some u)) g') as Hop. cbn in Hop.
  destruct Hop as [Hs|(j & u' & [= -> ->] & -> & _)].
  - intros Hin. by apply Hg', (elem_of_sublist _ _ _ Hin).
  - intros [?| ->%list_elem_of_singleton]%elem_of_app; done.
Qed.

Section cancel.
Context (clock : nat → Z) (pr : process).
Context (advance : nat → list (string * string) → queue → result string unit * queue) `{!QueueAdvance advance}.

Lemma lets_be_advance J u : keeps (lets_be J) (advanceExecutionQueue advance u).
Proof.
  apply keeps_bind; [apply _|apply lets_be_ask|]. intros _ h [Hnd Hst].
  pose proof (advance_job_ids (h_ticks h) (loops_of h) (h_queue h)) as Hids.
  pose proof (λ x, advance_settled (h_ticks h) (loops_of h) (h_queue h) x Hnd) as Hset.
  pose proof (advance_runs (h_ticks h) (loops_of h) (h_queue h)) as (nr & Hr & _).
  pose proof (advance_slots (h_ticks h) (loops_of h) (h_queue h)) as (ns & Hs & Hso).
  pose proof (advance_scheduled (h_ticks h) (loops_of h) (h_queue h)) as (nsc & Hsc & Hact).
  assert (∀ sts, sts ⊆ ["pending"; "running"] → ¬ job_in sts (h_queue h) J) as HnJ.
  { intros sts Hsub (x & Hx & Hid & Hin). apply (Hst x Hx Hid). by apply Hsub. }
  set (q := (advance (h_ticks h) (loops_of h) (h_queue h)).2) in *.
  enough (spares J h (set_loops (fold_left (λ g e, mark_scheduled e g) (drop (length (w_scheduled (h_queue h))) (w_scheduled q))
    (h_loops h)) (set_queue q h))) as Hsp.
  { unfold q in Hsp. destruct (advance _ _ _) as [[[]|e] q']; exact Hsp. }
  split; cbn.
  - by exists nr.
  - intros x Hx Ho. unfold h_work in Hx. cbn in Hx. rewrite Hs in Hx. apply elem_of_app in Hx as [Hx|Hx]; [done|].
    exfalso. rewrite List.Forall_forall in Hso. specialize (Hso x (proj1 (list_elem_of_In _ _) Hx)).
    rewrite Ho in Hso. apply (HnJ ["pending"]); [set_solver|done].
  - exact Hids.
  - intros x Hx Hid. assert (∃ y, y ∈ h_jobs h ∧ jb_id y = J) as (y & Hy & Hyid).
    { assert (J ∈ ids_of h) as HJ.
      { unfold ids_of. rewrite <-Hids. apply list_elem_of_In, in_map_iff. exists x. by rewrite <-list_elem_of_In. }
      apply list_elem_of_In, in_map_iff in HJ as (y & ? & Hy%list_elem_of_In). eauto. }
    assert (y ∈ jobs (w_work q)) as Hyq by (apply Hset; [done|by apply Hst]).
    assert (x = y) as ->; [|done]. apply (unique_key jb_id (jobs (w_work q))); [|done|done|congruence].
    change (map jb_id (jobs (w_work q))) with (job_ids q). by rewrite Hids.
  - rewrite Hsc, drop_app_length.
    assert (Forall (λ e, e.1.2 ≠ J) nsc) as Hne.
    { eapply Forall_impl; [|exact Hact]. cbn. intros e He Heq. rewrite Heq in He. by apply (HnJ ["pending"; "running"]). }
    clear -Hne. generalize (h_loops h). induction Hne as [|e l He _ IH]; intros g Hg; cbn; [done|].
    apply IH. by apply mark_scheduled_other.
  - done.
Qed.

Lemma lets_be_on_release J e : keeps (lets_be J) (on_release advance e).
Proof.
  destruct e as [r|o r|u]; cbn.
  - apply keeps_modify. intros h. by apply lets_be_same.
  - apply keeps_modify. intros h. by apply lets_be_same.
  - apply keeps_ignore; [apply _|]. apply keeps_bind; [apply _|apply lets_be_advance|]. intros _.
    apply keeps_bind; [apply _|apply lets_be_ask|]. intros _. apply keeps_modify. intros h. by apply lets_be_same.
Qed.

(** ** Release *)

Lemma release_tx_total {C} t k why failed (s : @work_db C) : ∃ res s', release_tx t k why failed s = Ok (res, s').
Proof.
  unfold release_tx. rewrite tx_bind_gets. destruct (find_run s k) as [r|]; [|by eexists _, _].
  destruct (negb _); by eexists _, _.
Qed.

(** The run is over, its slot is free, and the job is as it was. *)
Record freed (J runId : string) (h h' : host) : Prop := Freed {
  fd_run : ∃ r, find_run (h_work h') runId = Some r ∧ RunStatus.live (Run.status r) = false;
  fd_slots : ∀ x, x ∈ slots (h_work h') → Slot.ownerId x = J → Slot.runId x = runId → Slot.status x = SlotStatus.released;
  fd_jobs : ∀ x, x ∈ h_jobs h' → jb_id x = J →
    ∃ y, y ∈ h_jobs h ∧ jb_id y = J ∧ jb_status x = jb_status y ∧ jb_leaseOwner x = jb_leaseOwner y;
  fd_loops : J ∉ Loops.activeLoops (h_loops h) → J ∉ Loops.activeLoops (h_loops h');
  fd_handles : h_handles h' = h_handles h
}.

Lemma release_frees J runId reason h :
  h_answers h = [] → live_run runId h → settled J h →
  ∃ res h', releaseWorkloadSlot clock advance runId (Some reason) false h = (Returned res, h') ∧
    h_answers h' = [] ∧ freed J runId h h'.
Proof.
  intros Hq (r & Hr & Hl) [Hnd Hst]. unfold releaseWorkloadSlot, await. unfold act_bind at 1. rewrite ask_quiet by done.
  set (h1 := set_answers [] (S (h_ticks h)) h). change (h_work h1) with (h_work h).
  unfold WorkloadSlots.releaseWorkloadSlot, run_transaction.
  destruct (release_tx_total (now clock h1) runId (Some reason) false (h_work h)) as (res & s' & Htx). rewrite Htx.
  match goal with |- context [act_for ?es _] => set (es0 := es) end.
  match goal with |- context [set_host_work ?x h1] => set (s2 := x) end.
  set (h2 := set_host_work s2 h1).
  assert (runs s2 = runs s' ∧ slots s2 = slots s' ∧ jobs s2 = jobs s') as (Er & Es & Ej).
  { unfold s2. by destruct (rr_run res). }
  apply release_tx_shape in Htx as [(_ & _ & Hdead)|(r' & st & why & Hr' & _ & Hst' & _ & ->)];
    [by rewrite (Hdead r Hr) in Hl|]. cbn in Er, Es, Ej.
  assert (ids_of h2 = ids_of h) as Eids.
  { unfold ids_of, job_ids, h2. cbn. rewrite Ej. by apply update_where_key. }
  assert (∀ x, x ∈ h_jobs h2 → ∃ y, y ∈ h_jobs h ∧ jb_id y = jb_id x ∧ jb_status x = jb_status y ∧
    jb_leaseOwner x = jb_leaseOwner y) as Hjobs.
  { intros x. unfold h2, h_jobs, h_work. cbn. rewrite Ej. intros (y & Hy & ->)%elem_of_update. exists y.
    split; [done|]. by destruct (_ && _). }
  assert (settled J h2) as Hs2.
  { split; [by rewrite Eids|]. intros x Hx Hid. destruct (Hjobs x Hx) as (y & Hy & Hyid & -> & _). apply Hst; congruence. }
  destruct (quiet_bind _ (λ _, act_ret res) (quiet_for es0 _ (quiet_on_release advance)) (λ _, quiet_ret res) h2 eq_refl)
    as (a & h3 & Hrun & Hq3).
  exists a, h3. split_and!; [exact Hrun|done|].
  assert (lets_be J h2 h3) as Hlb.
  { assert (keeps (lets_be J) (do~ act_for es0 (on_release advance) in act_ret res)) as Hk.
    { apply keeps_bind; [apply _|apply keeps_for; [apply _|intros e _; apply lets_be_on_release]|].
      intros _. apply keeps_ret, _. }
    specialize (Hk h2). by rewrite Hrun in Hk. }
  destruct (Hlb Hs2) as [[new S1] S2 S3 S4 S5 S6]. split.
  - exists (Run.set_status st why (now clock h1) (Some (now clock h1)) r). split; [|done].
    unfold find_run. rewrite S1. unfold h2, h_work. cbn. rewrite Er.
    assert (List.find (run_by_id runId) (update_where (run_by_id runId)
      (Run.set_status st why (now clock h1) (Some (now clock h1))) (runs (h_work h))) =
      Some (Run.set_status st why (now clock h1) (Some (now clock h1)) r)) as Hf.
    { rewrite find_update by done. unfold find_run in Hr. rewrite Hr. cbn.
      apply find_run_elem in Hr as [_ Hid]. unfold run_by_id. by rewrite bool_decide_eq_true_2. }
    clear -Hf. revert Hf. generalize (update_where (run_by_id runId)
      (Run.set_status st why (now clock h1) (Some (now clock h1))) (runs (h_work h))).
    intros l. induction l as [|y l IH]; cbn; [done|]. by destruct (run_by_id runId y).
  - intros x Hx Ho Hrun'. apply S2 in Hx; [|done]. unfold h2, h_work in Hx. cbn in Hx. rewrite Es in Hx.
    apply elem_of_update in Hx as (y & Hy & ->). destruct (slot_by_run runId y) eqn:E; [done|].
    by apply bool_decide_eq_false in E.
  - intros x Hx Hid. destruct (Hjobs x (S4 x Hx Hid)) as (y & Hy & Hyid & ? & ?). exists y. split_and!; congruence.
  - exact S5.
  - by rewrite S6.
Qed.

(** A live run is marked. *)
Lemma mark_live runId reason h : h_answers h = [] → live_run runId h →
  ∃ h', markRunCancelling clock runId reason h = (Returned true, h') ∧ h_answers h' = [] ∧ only_marks runId h h'.
Proof.
  intros Hq Hl. destruct (quiet_mark_cancelling clock runId reason h Hq) as (b & h' & E & Hq').
  pose proof (keeps_markRunCancelling clock (only_marks runId) runId reason h) as Hm. rewrite E in Hm. cbn in Hm.
  exists h'. destruct b; [done|]. exfalso. destruct (om_live _ _ _ Hm Hl) as (r & Hr & Hlive).
  apply mark_refused with (r := r) in E; congruence.
Qed.

(** Stopping the active run of a settled job. *)
Lemma stop_frees J reason h r :
  h_answers h = [] → getActiveRun J (h_work h) = Some r → settled J h →
  ∃ o h', stopAndReleaseActiveRun clock advance J reason h = (Returned o, h') ∧ h_answers h' = [] ∧
    (∃ h1, h_jobs h1 = h_jobs h ∧ h_loops h1 = h_loops h ∧ freed J (Run.id r) h1 h') ∧ h_handles h' !! Run.id r = None.
Proof.
  intros Hq Hact Hset.
  assert (find_run (h_work h) (Run.id r) = Some r ∧ RunStatus.live (Run.status r) = true) as [Hf Hl].
  { unfold getActiveRun in Hact. destruct (activeRunId_of J (h_work h)) as [k|]; [|done]. cbn in Hact.
    destruct (find_run (h_work h) k) as [r0|] eqn:E; [|done]. cbn in Hact. destruct (RunStatus.live _) eqn:El; [|done].
    simplify_eq. apply find_run_elem in E as H. destruct H as [_ Hid]. by rewrite Hid. }
  unfold stopAndReleaseActiveRun. unfold act_bind at 1. rewrite ask_quiet by done.
  set (h0 := set_answers [] (S (h_ticks h)) h). unfold act_bind at 1, act_gets at 1.
  change (h_work h0) with (h_work h). rewrite Hact.
  unfold stopRunLifecycle. unfold act_bind at 1. unfold act_bind at 1.
  destruct (mark_live (Run.id r) reason h0 eq_refl) as (h2 & -> & Hq2 & Hm); [by exists r|]. cbn [negb].
  assert (live_run (Run.id r) h2) as Hl2 by (apply Hm; by exists r).
  (* the runtime *)
  unfold act_bind at 1.
  destruct (quiet_stop_runtime clock (Run.id r) h2 Hq2) as ([] & h3 & Hstop & Hq3).
  pose proof (keeps_stop_runtime clock (only_marks (Run.id r)) (Run.id r)) as Hk.
  assert (keeps (only_marks (Run.id r)) (unregisterRunRuntime (Run.id r))) as Hu
    by (apply keeps_modify; by intros h'; split).
  specialize (Hk Hu h2). rewrite Hstop in *. cbn [snd] in Hk.
  pose proof (stop_runtime_unregisters _ _ _ _ Hstop) as Hun.
  assert (h_jobs h3 = h_jobs h) as Ej3 by (rewrite (om_jobs _ _ _ Hk), (om_jobs _ _ _ Hm); done).
  assert (settled J h3) as Hset3.
  { destruct Hset as [Hnd Hst]. split; [|by rewrite Ej3].
    change (ids_of h3) with (map jb_id (h_jobs h3)). by rewrite Ej3. }
  (* the release *)
  destruct (release_frees J (Run.id r) reason h3 Hq3 (om_live _ _ _ Hk Hl2) Hset3) as (res & h4 & Hrel & Hq4 & Hfr).
  cbn [negb act_when]. rewrite (act_ignore_run _ _ _ _ Hrel). cbn.
  eexists _, h4. split_and!; [done|done| |by rewrite (fd_handles _ _ _ _ Hfr)].
  exists h3. split_and!; [done| |done]. by rewrite (om_loops _ _ _ Hk), (om_loops _ _ _ Hm).
Qed.
(** ** The row of a cancelled job *)

Definition cancelled_row (j : job) : Prop := jb_status j = "cancelled" ∧ jb_leaseOwner j = None.

(** The host when the job is cancelled and its run is still to be stopped. *)
Record cancelled_only (J : string) (h h' : host) : Prop := CancelledOnly {
  co_rows : ∀ x, x ∈ h_jobs h' → jb_id x = J → cancelled_row x;
  co_ids : ids_of h' = ids_of h;
  co_loops : J ∉ Loops.activeLoops (h_loops h');
  co_run : getActiveRun J (h_work h') = getActiveRun J (h_work h);
  co_slots : slots (h_work h') = slots (h_work h)
}.

Lemma bind_modify {A} f (k : unit → hostM A) h : (let~ x := act_modify f in k x) h = k tt (f h).
Proof. done. Qed.

Lemma bind_await_modify {A} f (k : unit → hostM A) h :
  h_answers h = [] → (let~ x := await (act_modify f) in k x) h = k tt (f (set_answers [] (S (h_ticks h)) h)).
Proof. intros Hq. unfold await. unfold act_bind at 1. unfold act_bind at 1. by rewrite ask_quiet. Qed.

Lemma updated_row J j0 message p h :
  find_job (h_work h) J = Some j0 → h_answers h = [] →
  let h1 := set_answers [] (S (h_ticks h)) h in
  updated_or message (updateJobRow clock J p) h =
    (Returned (patch_row (now clock h1) p j0), set_host_work (JobRows.updateJobRow (now clock h1) J p (h_work h)) h1).
Proof.
  intros Hj Hq h1. unfold updated_or, updateJobRow, await. unfold act_bind at 1. unfold act_bind at 1. rewrite ask_quiet by done.
  fold h1. change (h_work h1) with (h_work h).
  assert (find_job (JobRows.updateJobRow (now clock h1) J p (h_work h)) J = Some (patch_row (now clock h1) p j0)) as ->; [|done].
  unfold find_job in *. cbn -[update_where]. rewrite find_update by done. rewrite Hj. cbn.
  by destruct (List.find_some _ _ Hj) as [_ ->].
Qed.

Lemma cancel_prefix U J h j :
  h_answers h = [] → getUserJob U J h = Some j → accepts Cancel (jb_status j) = true →
  isPlanningJobStatus (jb_status j) = false →
  ∃ u h1, cancelJob clock advance U J h = (do~ stopAndReleaseActiveRun clock advance J "cancelled" in act_ret u) h1 ∧
    jb_status u = "cancelled" ∧ h_answers h1 = [] ∧ cancelled_only J h h1.
Proof.
  intros Hq Hj Hacc Hplan. set (h0 := set_answers [] (S (h_ticks h)) h).
  assert (require_job U J h = (Returned j, h0)) as Hreq.
  { unfold require_job. rewrite (act_bind_run _ _ _ _ _ (ask_quiet h Hq)).
    unfold act_bind, act_gets. change (getUserJob U J (set_answers _ _ h)) with (getUserJob U J h). by rewrite Hj. }
  unfold cancelJob. rewrite (act_bind_run _ _ _ _ _ Hreq).
  cbn in Hacc. apply negb_true_iff in Hacc. rewrite Hacc, Hplan.
  assert (by_id J j = true) as HJ.
  { unfold getUserJob, QueueCoordinator.getUserJob in Hj. apply List.find_some in Hj as [_ Hb].
    by apply andb_true_iff in Hb as [? _]. }
  assert (is_Some (find_job (h_work h) J)) as [j0 Hj0].
  { unfold find_job. destruct (List.find _ _) eqn:E; [by eexists|]. exfalso.
    unfold getUserJob, QueueCoordinator.getUserJob in Hj. apply List.find_some in Hj as [Hin _].
    apply (List.find_none _ _ E) in Hin. by rewrite HJ in Hin. }
  cbn -[cancel_row update_where].
  match goal with |- context [act_bind (cancel_row clock J j) _ ?x] => set (h1 := x) end.
  set (h2 := set_answers [] (S (h_ticks h1)) h1).
  unfold cancel_row. rewrite (act_bind_run _ _ _ _ _ (updated_row J j0 _ _ h1 Hj0 eq_refl)).
  match goal with |- context [patch_row ?t ?p j0] => set (f := patch_row t p) end.
  unfold update_loops. rewrite bind_modify, bind_await_modify by done. rewrite bind_modify.
  eexists (f j0), _. split; [reflexivity|]. split_and!; [done|done|].
  split.
  - intros x. unfold h_jobs, h_work, clearExecutionLease. cbn -[update_where].
    intros (y & (z & Hz & ->)%elem_of_update & ->)%elem_of_update.
    destruct (by_id J z) eqn:Ez; [|rewrite Ez; intros Hid; unfold by_id in Ez; by apply bool_decide_eq_false in Ez].
    intros _. by case_match.
  - unfold ids_of, job_ids, clearExecutionLease. cbn -[update_where]. rewrite !update_where_key; done.
  - change (¬ J ∈ set_delete J (Loops.activeLoops (h_loops h1))). rewrite elem_of_set_delete. by intros [_ ?].
  - unfold getActiveRun, activeRunId_of, find_job, clearExecutionLease, h_work. cbn -[update_where].
    rewrite !find_update by done. unfold h_work, find_job in Hj0. rewrite Hj0. cbn.
    by repeat case_match.
  - done.
Qed.

(** C14: Cancelling an execution job whose status allows it, in a process without faults, always
    returns: the job is cancelled, holds no execution lease and has no loop, and the run that
    was active is over, its runtime handle unregistered and its slot released. The workspace
    lease of the job is not given back here; its loop does that when it ends
    (markJobExecutionDone). *)
Theorem cancel_ends_run U J h j :
  h_answers h = [] → NoDup (ids_of h) → getUserJob U J h = Some j →
  accepts Cancel (jb_status j) = true → isPlanningJobStatus (jb_status j) = false →
  ∃ u h', cancelJob clock advance U J h = (Returned u, h') ∧ jb_status u = "cancelled" ∧
    (∀ x, x ∈ h_jobs h' → jb_id x = J → jb_status x = "cancelled" ∧ jb_leaseOwner x = None) ∧
    Loops.isLoopActive J (h_loops h') = false ∧
    ∀ r, getActiveRun J (h_work h) = Some r →
      h_handles h' !! Run.id r = None ∧ isRunActive (Run.id r) (h_work h') = false ∧
      ∀ x, x ∈ slots (h_work h') → Slot.ownerId x = J → Slot.runId x = Run.id r → Slot.status x = SlotStatus.released.
Proof.
  intros Hq Hnd Hj Hacc Hplan. destruct (cancel_prefix U J h j Hq Hj Hacc Hplan) as (u & h1 & -> & Hu & Hq1 & [Hrows Hids Hloop Hrun _]).
  assert (settled J h1) as Hset.
  { split; [by rewrite Hids|]. intros x Hx Hid. destruct (Hrows x Hx Hid) as [-> _]. set_solver. }
  destruct (getActiveRun J (h_work h)) as [r|] eqn:Hr.
  - destruct (stop_frees J "cancelled" h1 r Hq1 Hrun Hset) as (o & h' & Hstop & _ & (h2 & Ej & El & [(r' & Hf & Hl) Hsl Hjb Hlp Hh]) & Hun).
    rewrite (act_bind_run _ _ _ _ _ Hstop). exists u, h'. split_and!; [done|done| | |].
    + intros x Hx Hid. destruct (Hjb x Hx Hid) as (y & Hy & Hyid & -> & ->). apply Hrows; [by rewrite <-Ej|done].
    + apply bool_decide_eq_false, Hlp. by rewrite El.
    + intros r0 [= <-]. split_and!; [done| |done]. unfold isRunActive. by rewrite Hf, Hl.
  - assert (stopAndReleaseActiveRun clock advance J "cancelled" h1 = (Returned None, set_answers [] (S (h_ticks h1)) h1)) as Hstop.
    { unfold stopAndReleaseActiveRun. rewrite (act_bind_run _ _ _ _ _ (ask_quiet h1 Hq1)). unfold act_bind, act_gets.
      change (h_work (set_answers _ _ h1)) with (h_work h1). by rewrite Hrun. }
    rewrite (act_bind_run _ _ _ _ _ Hstop). eexists u, _. split_and!; [done|done|exact Hrows|by apply bool_decide_eq_false|done].
Qed.
End cancel.
