(* ===== verification/ExecutionLoop.v ===== *)
(** * The execution of a job

    Models [src/server/legacy-control-plane/executor.ts]: the loop that runs the
    tasks of a job, has its slices and milestones verified and recovers from what
    agents report, and [scheduleJobExecution] around it; with the checks of
    [evidence/preflight.ts], the verifier turns of [verifier.ts] and
    [execution-infra-errors.ts].  The loop always runs under a run of its job.

    Agents and verifiers are an environment, [agents]: what they answer is a
    function of the tick.  At every [await] other parts of the process may change
    the state, by [others].  Sleeping, prompts, abort signals, events and the
    cleanup of runtime directories are not modelled. *)
From stdpp Require Import pretty.
From Stdlib Require Import Ascii.
From S2P Require Import Prelude Json JsString Path Sql WorkspaceLease TaskAttempts SavedPlan Gate RepairTasks TurnErrors.
From S2P Require Import Blocker TaskRecovery ProgressStore StoredErrors RecoveryState ContinueFailed.
From S2P Require Import WorkloadSlots JobRows QueueCoordinator Act Registries Host RunLifecycle Controls.
Local Open Scope act_scope.

#[local] Arguments bool_decide : simpl never.

(** ** Code that throws values *)

Definition exM (A : Type) : Type := hostM (result thrown A).

Definition ex_ret {A} (a : A) : exM A := act_ret (Ok a).
Definition ex_throw {A} (e : thrown) : exM A := act_ret (Err e).
Definition ex_bind {A B} (m : exM A) (k : A → exM B) : exM B :=
  let~ r := m in match r with Ok a => k a | Err e => act_ret (Err e) end.

(** [try { m } catch (error) { k(error) }] *)
Definition ex_catch {A} (m : exM A) (k : thrown → exM A) : exM A :=
  let~ r := m in match r with Ok a => act_ret (Ok a) | Err e => k e end.

Definition ex_lift {A} (m : hostM A) : exM A :=
  act_catch (let~ a := m in act_ret (Ok a)) (λ f, act_ret (Err (ThrownError (Failure.message f)))).

Definition ex_gets {A} (f : host → A) : exM A := act_gets (λ h, Ok (f h)).
Definition ex_modify (f : host → host) : exM unit := λ h, (Returned (Ok tt), f h).

Declare Scope exec_scope.
Delimit Scope exec_scope with exec.
Notation "'let^' x := m 'in' k" := (ex_bind m (λ x, k))
  (at level 10, x name, m at level 100, k at level 200,
   format "'[v' 'let^'  x  :=  m  'in' '/' k ']'") : exec_scope.
Notation "'do^' m 'in' k" := (ex_bind m (λ _, k))
  (at level 10, m at level 100, k at level 200,
   format "'[v' 'do^'  m  'in' '/' k ']'") : exec_scope.
Local Open Scope exec_scope.

(** ** What the agents answer *)

(** The end of a task turn: the agent reports or the wait for its report fails;
    or the turn throws, after the wait has timed out or not. *)
Inductive turn_end :=
| TurnReports (packet : TaskEvidence.t)
| TurnSilent (error : thrown)
| TurnThrows (error : thrown) (evidenceTimedOut : bool).

(** A task turn: the chunks that come before its end. *)
Record agent_turn := mkTurn { tn_chunks : nat; tn_end : turn_end }.

Inductive verifier_end (V : Type) :=
| VerifierFails (message : string)
| VerdictGiven (verdict : V)
| VerdictMissing (message : string).
Arguments VerifierFails {V} _.
Arguments VerdictGiven {V} _.
Arguments VerdictMissing {V} _.

(** [ag_core] is [resolveCoreForTask], [ag_available] [ensureCoreAvailable],
    [ag_hasReferences] says whether a task has references and [ag_references] is the
    text of the error when they cannot be resolved, [ag_profile] says whether a job has an execution profile,
    [ag_sandbox] is the check of the sandbox before the loop starts and
    [ag_evidence] the JSON form of a report. *)
Record agents := mkAgents {
  ag_sandbox : nat → result thrown unit;
  ag_profile : string → bool;
  ag_core : FlatTaskPlan.t → string;
  ag_verifierCore : string → string;
  ag_available : nat → string → result thrown string;
  ag_hasReferences : string → bool;
  ag_references : nat → string → option string;
  ag_turn : nat → string → agent_turn;
  ag_sliceVerifier : nat → string → verifier_end SliceVerdict.t;
  ag_milestoneVerifier : nat → string → verifier_end MilestoneVerdict.t;
  ag_sliceHash : SavedJobPlan.t → string → list TaskProgressItem.t → string;
  ag_milestoneHash : SavedJobPlan.t → string → list TaskProgressItem.t → list (slice_progress SliceRecord.t) → string;
  ag_evidence : TaskEvidence.t → json
}.

(** ** Items and progress *)

(** [taskErrorFields] *)
Definition set_error (status : string) (e : TurnErrorDto.t) (i : TaskProgressItem.t) : TaskProgressItem.t :=
  TaskProgressItem.set_outcome status (Some status) (TaskProgressItem.evidenceStatus i) (TaskProgressItem.evidence i)
    (Some e) (turnErrorDisplayMessage e) i.

(** [{ status: 'queued', executionStatus: 'queued', errorMessage: null }] *)
Definition set_queued (i : TaskProgressItem.t) : TaskProgressItem.t :=
  TaskProgressItem.set_outcome "queued" (Some "queued") (TaskProgressItem.evidenceStatus i) (TaskProgressItem.evidence i)
    (TaskProgressItem.error i) None i.

Definition set_core (core : string) (i : TaskProgressItem.t) : TaskProgressItem.t :=
  TaskProgressItem.mk (TaskProgressItem.id i) (TaskProgressItem.title i) (TaskProgressItem.status i)
    (TaskProgressItem.abilityCode i) (TaskProgressItem.executionStatus i) (TaskProgressItem.evidenceStatus i)
    (TaskProgressItem.evidence i) (TaskProgressItem.errorMessage i) (TaskProgressItem.error i) (Some core).

Definition set_running (core : string) (message : option string) (i : TaskProgressItem.t) : TaskProgressItem.t :=
  set_core core (TaskProgressItem.set_outcome "running" (Some "running") (TaskProgressItem.evidenceStatus i)
    (TaskProgressItem.evidence i) (TaskProgressItem.error i) message i).

(** [{ status: 'completed', executionStatus: 'completed', errorMessage: null }] *)
Definition set_completed (i : TaskProgressItem.t) : TaskProgressItem.t :=
  TaskProgressItem.set_outcome "completed" (Some "completed") (TaskProgressItem.evidenceStatus i)
    (TaskProgressItem.evidence i) (TaskProgressItem.error i) None i.

(** What a task without evidence is reset to. *)
Definition set_incomplete (taskId : string) (i : TaskProgressItem.t) : TaskProgressItem.t :=
  TaskProgressItem.set_outcome "queued" (Some "queued") (Some "incomplete") None
    (Some (turnErrorDto "task.evidence_missing" (Some [("taskId", JStr taskId)]) None None)) None i.

Definition queued_item (t : FlatTaskPlan.t) : TaskProgressItem.t :=
  TaskProgressItem.mk (FlatTaskPlan.id t) (FlatTaskPlan.title t) "queued" (Some (FlatTaskPlan.abilityCode t))
    (Some "queued") None None None None None.

(** The lines of a report are dropped. *)
Definition slimTaskEvidence (e : TaskEvidence.t) : TaskEvidence.t :=
  TaskEvidence.mk (TaskEvidence.status e) (TaskEvidence.summary e) (TaskEvidence.changedFiles e) []
    (TaskEvidence.validation e) (TaskEvidence.blockers e) (TaskEvidence.blockerKind e) (TaskEvidence.recovery e).

Definition slim_item (i : TaskProgressItem.t) : TaskProgressItem.t :=
  TaskProgressItem.set_outcome (TaskProgressItem.status i) (TaskProgressItem.executionStatus i)
    (TaskProgressItem.evidenceStatus i) (slimTaskEvidence <$> TaskProgressItem.evidence i)
    (TaskProgressItem.error i) (TaskProgressItem.errorMessage i) i.

Definition slimTaskProgressItemsForRuntime : list TaskProgressItem.t → list TaskProgressItem.t := map slim_item.

(** [{ ...p, phase, status, currentIndex, total, currentTaskId: null, progressCode,
    progressParams, tasks }] *)
Definition at_state (phase status : string) (code : option string) (params : option TurnErrorParams)
    (items : list TaskProgressItem.t) (p : TaskProgress.t) : TaskProgress.t :=
  TaskProgress.mk phase status (countCompleted items) (length items) None code params items
    (TaskProgress.slices p) (TaskProgress.milestones p) (TaskProgress.repairGenerations p)
    (TaskProgress.verificationAttempts p) (TaskProgress.verificationBundleHashes p).

(** The same without [...p]. *)
Definition bare_state (phase status code : string) (params : option TurnErrorParams)
    (items : list TaskProgressItem.t) : TaskProgress.t :=
  TaskProgress.mk phase status (countCompleted items) (length items) None (Some code) params items [] [] ∅ ∅ ∅.

Definition buildCompletedProgress (items : list TaskProgressItem.t) (p : TaskProgress.t) : TaskProgress.t :=
  let n := Z.of_nat (length items) in
  TaskProgress.mk "completed" "completed" (length items) (length items) None (Some "execution.completed")
    (Some [("done", JNum n); ("total", JNum n)]) items
    (TaskProgress.slices p) (TaskProgress.milestones p) (TaskProgress.repairGenerations p)
    (TaskProgress.verificationAttempts p) (TaskProgress.verificationBundleHashes p).

Definition done_params (items : list TaskProgressItem.t) : option TurnErrorParams :=
  Some [("done", JNum (Z.of_nat (countCompleted items))); ("total", JNum (Z.of_nat (length items)))].

Definition id_params (id : string) : option TurnErrorParams := Some [("id", JStr id)].

Definition taskTerminalError (taskId : string) (detail : option string) : TurnErrorDto.t :=
  turnErrorDto "task.terminal_failure" (Some [("taskId", JStr taskId)])
    (d ← detail; if bool_decide (d = "") then None else Some d) None.

Definition terminal_detail (detail : string) : TurnErrorDto.t :=
  turnErrorDto "task.terminal_failure" None (Some detail) None.

Definition JOB_CANCELLED : TurnErrorDto.t := turnErrorDto "job.cancelled" None None None.

(** ** Checks before a verification: [evidence/preflight.ts] *)

Definition sliceTaskIds (plan : SavedJobPlan.t) (sliceId : string) : list string :=
  match match_slice sliceId with
  | None => []
  | Some (m, s) =>
      map FlatTaskPlan.id (List.filter (λ t, bool_decide (FlatTaskPlan.milestoneIndex t = m) &&
                                             bool_decide (FlatTaskPlan.sliceIndex t = s)) (SavedJobPlan.tasks plan))
  end.

(** The tasks without evidence. *)
Definition preflightSliceTaskEvidence (plan : SavedJobPlan.t) (sliceId : string) (items : list TaskProgressItem.t) :
    list string :=
  List.filter (λ taskId,
    match List.find (λ i, bool_decide (TaskProgressItem.id i = taskId)) items with
    | None => true
    | Some i => task_done i && bool_decide (TaskProgressItem.evidence i = None)
    end) (sliceTaskIds plan sliceId).

(** The slices without a verdict. *)
Definition preflightMilestoneSliceVerdicts (sliceIds : list string) (rows : list (slice_progress SliceRecord.t)) :
    list string :=
  List.filter (λ k, negb (existsb (λ row, bool_decide (sp_id row = k) && bool_decide (is_Some (sp_verdict row))) rows))
    sliceIds.

(** ** Changes of the gate *)

Definition update_slice (sliceId : string) (f : GateSliceState.t → GateSliceState.t) (g : gate) : gate :=
  set_slices (update_first (λ s, bool_decide (GateSliceState.id s = sliceId)) f (slices g)) g.

Definition set_slice_state (runtime verification : option string) (s : GateSliceState.t) : GateSliceState.t :=
  GateSliceState.set_verificationStatus verification (GateSliceState.set_runtimeStatus runtime s).

Definition set_milestone_state (milestoneId : string) (verification : option string) (g : gate) : gate :=
  set_milestones (update_first (λ m, bool_decide (GateMilestoneState.id m = milestoneId))
    (GateMilestoneState.set_verificationStatus verification) (milestones g)) g.

(** The gate after the progress of the tasks is applied. *)
Definition sync_gate (items : list TaskProgressItem.t) (g : gate) : gate :=
  reconcile_gate (applyTaskProgressToGate (map progress_of_item items) g).

(** [filter((sliceId) => reopenSliceVerificationForMissingVerdict(..))] *)
Fixpoint reopen_slices (ids : list string) (g : gate) : list string * gate :=
  match ids with
  | [] => ([], g)
  | k :: ids' =>
      let '(b, g1) := reopenSliceVerificationForMissingVerdict k g in
      let '(l, g2) := reopen_slices ids' g1 in (if b : bool then k :: l else l, g2)
  end.

Definition toSliceVerificationRecord (v : SliceVerdict.t) : SliceRecord.t :=
  SliceRecord.mk (SliceVerdict.status v) (SliceVerdict.confidence v) (SliceVerdict.summary v)
    (SliceVerdict.evidenceTrace v) (Some (SliceVerdict.satisfiedSignals v)) (Some (SliceVerdict.missingSignals v)).

Definition with_verdict (sliceId : string) (v : SliceVerdict.t) (p : TaskProgress.t) : TaskProgress.t :=
  TaskProgress.set_verification
    (upsertSliceVerdict (TaskProgress.slices p) sliceId (toSliceVerificationRecord v)) (TaskProgress.milestones p) p.

(** ** The result of a verification *)

Record verification (V : Type) := mkVerification {
  vf_ok : bool;
  vf_message : string;
  vf_verdict : option V;
  vf_infraMiss : bool
}.
Arguments mkVerification {V} _ _ _ _.
Arguments vf_ok {V} _.
Arguments vf_message {V} _.
Arguments vf_verdict {V} _.
Arguments vf_infraMiss {V} _.

(** ** The loop *)

(** A job as it was loaded: its row, and the revision its attempts are keyed by. *)
Record loaded := mkLoaded { ld_row : job; ld_revision : Z }.

Record loop_ctx := mkCtx {
  cx_job : loaded;
  cx_plan : SavedJobPlan.t;
  cx_items : list TaskProgressItem.t;
  cx_progress : TaskProgress.t;
  cx_gate : gate
}.

Inductive LoopStepAction := StepContinue | StepReturn | StepSkip.

Definition MAX_STAGNANT_EXECUTION_ITERATIONS : nat := 8.
Definition MAX_PAUSING_TURN_ATTEMPTS : Z := 3.

Inductive loop_end := Ended | OutOfFuel.

Definition item_print (i : TaskProgressItem.t) : string * string * option string * option string * option string :=
  (TaskProgressItem.id i, TaskProgressItem.status i, TaskProgressItem.executionStatus i,
   TaskProgressItem.evidenceStatus i, TurnErrorDto.code <$> TaskProgressItem.error i).

Definition slice_print (s : GateSliceState.t) : string * string * option string * option string :=
  (GateSliceState.id s, GateSliceState.status s, GateSliceState.runtimeStatus s, GateSliceState.verificationStatus s).

Definition milestone_print (m : GateMilestoneState.t) : string * string * option string :=
  (GateMilestoneState.id m, GateMilestoneState.status m, GateMilestoneState.verificationStatus m).

(** The parts of the state whose text is compared. *)
Definition executionStateFingerprint (c : loop_ctx) :=
  let p := cx_progress c in
  (jb_status (ld_row (cx_job c)), map item_print (cx_items c), map slice_print (slices (cx_gate c)),
   map milestone_print (milestones (cx_gate c)), TaskProgress.progressCode p, (λ ps, stringify (JObj ps)) <$> TaskProgress.progressParams p,
   TaskProgress.repairGenerations p, TaskProgress.verificationAttempts p).

Section execution.
Context `{Sha256} `{FileSystem}.
Context (clock : nat → Z) (uuid : nat → string) (pr : process) (workloadCapacity : nat) (workloadTtl leaseTtl : Z).
Context (advance : nat → list (string * string) → queue → result string unit * queue).
Context (others : nat → host → host) (draining : nat → bool) (env : agents).

Notation now := (now clock).

(** An [await]: the call may fail, and meanwhile other code runs. *)
Definition point : exM unit := ex_lift (do~ ask in act_modify (λ h, others (h_ticks h) h)).

(** [isDraining()], asked for the job [J]. *)
Definition sees_draining (J : string) : hostM bool := λ h,
  let drains := draining (h_ticks h) in
  (Returned drains, if drains then add_effects [SawDraining J] h else h).
Definition isDraining (J : string) : exM bool := ex_lift (sees_draining J).

Definition on_ledger {A} (f : Z → ledger → result string A * ledger) : exM A := λ h,
  let q := h_queue h in
  let '(r, l) := f (now h) (w_ledger q) in
  (Returned (match r with Ok a => Ok a | Err e => Err (ThrownError e) end),
   set_queue (mkWorld (w_work q) (w_leases q) l (w_scheduled q)) h).

(** The rows of [job_tasks] that [saveTaskProgressInTx] replaces. *)
Definition sync_tasks (jobId : string) (items : list TaskProgressItem.t) (l : ledger) : ledger :=
  set_tasks (List.filter (λ t, negb (bool_decide (lt_jobId t = jobId))) (lg_tasks l) ++
             map (λ i, mkLedgerTask jobId (TaskProgressItem.id i) (TaskProgressItem.status i)
                         (TaskProgressItem.executionStatus i)
                         ((λ e, stringify (ag_evidence env e)) <$> TaskProgressItem.evidence i)) items) l.

Definition sync_host (jobId : string) (items : list TaskProgressItem.t) (h : host) : host :=
  let q := h_queue h in
  set_queue (mkWorld (w_work q) (w_leases q) (sync_tasks jobId items (w_ledger q)) (w_scheduled q)) h.

Section job.
Context (U J R : string).

(** *** Writing *)

Definition shouldStop : exM (option Loops.stop_reason) := ex_gets (λ h, Loops.shouldStopExecution J (h_loops h)).

(** [updateJobRowFenced] once the run is seen to be writable. *)
Definition fenced_write (items : option (list TaskProgressItem.t)) (p : patch JobContent.t) : exM bool :=
  do^ point in
  let^ writable := ex_gets (λ h, assertRunWritable J R (h_work h)) in
  if negb writable then ex_ret false
  else
    do^ point in
    λ h, match updateJobRowFenced (now h) J R p (h_work h) with
         | (Ok (Some _), s) =>
             let h' := set_host_work s h in
             (Returned (Ok true), match items with Some l => sync_host J l h' | None => h' end)
         | (Ok None, s) => (Returned (Ok false), set_host_work s h)
         | (Err e, s) => (Returned (Err (ThrownError e)), set_host_work s h)
         end.

Definition updateExecutionJobRow (p : patch JobContent.t) : exM bool := fenced_write None p.

Definition persistTaskProgress (p : TaskProgress.t) (q : patch JobContent.t) (g : gate) : exM bool :=
  let p' := mergeVerificationProgress p g in
  fenced_write (Some (TaskProgress.tasks p')) (with_content (JobContent.set_progress p') q).

(** [p] is already the progress that [persistPlanAndProgress] builds. *)
Definition persistPlanAndProgress (plan : SavedJobPlan.t) (p : TaskProgress.t) (q : patch JobContent.t) : exM bool :=
  fenced_write (Some (TaskProgress.tasks p))
    (with_content (λ c, JobContent.set_plan plan (JobContent.set_progress p c)) q).

Definition error_patch (status : string) (e : TurnErrorDto.t) : patch JobContent.t :=
  mkPatch (Some status) None (Some (Some (serializeStoredTurnError e))) None None None true id.

Definition failJobWithProgress (p : TaskProgress.t) (items : list TaskProgressItem.t) (g : gate) (code : string)
    (params : option TurnErrorParams) (e : TurnErrorDto.t) : exM unit :=
  do^ persistTaskProgress (at_state "failed" "failed" (Some code) params items p) (error_patch "failed" e) g in
  ex_ret tt.

Definition pauseJobExecution : exM unit := ex_lift (stop_turn J JobControlState.paused true).

Definition parseSuspensionKind (v : option string) : option string :=
  match v with
  | Some k => if bool_decide (k ∈ ["user_pause"; "human_dependency"; "policy_hold"]) then Some k else None
  | None => None
  end.

Definition finalizeExecutionPause (p : TaskProgress.t) (items : list TaskProgressItem.t) (g : gate) : exM unit :=
  do^ point in
  let^ row := ex_gets (λ h, find_job (h_work h) J) in
  let kind := default "user_pause" (parseSuspensionKind (row ≫= jb_suspensionKind)) in
  let p' := TaskProgress.mk (TaskProgress.phase p) (TaskProgress.status p) (TaskProgress.currentIndex p)
              (TaskProgress.total p) None (TaskProgress.progressCode p) None items (TaskProgress.slices p)
              (TaskProgress.milestones p) (TaskProgress.repairGenerations p) (TaskProgress.verificationAttempts p)
              (TaskProgress.verificationBundleHashes p) in
  do^ persistTaskProgress p'
        (mkPatch (Some "paused") None (Some paused_error) (Some (Some kind)) None (Some None) true id) g in
  pauseJobExecution.

Definition handleWorkflowCompletion (items : list TaskProgressItem.t) (g : gate) (p : TaskProgress.t) : exM unit :=
  do^ persistTaskProgress (buildCompletedProgress items p) (clear_error (Some "completed")) g in
  ex_ret tt.

(** *** Verifier turns: [verifier.ts] *)

(** [runSliceVerification] and [runMilestoneVerification]; [accepting] is the
    status of a verdict that accepts. *)
Definition run_verification {V} (status summary : V → string) (accepting : string)
    (ends : nat → string → verifier_end V) (scope id : string) : exM (verification V) :=
  do^ point in
  let^ core := ex_gets (λ h, ag_available env (h_ticks h) (ag_verifierCore env scope)) in
  match core with
  | Err e => ex_throw e
  | Ok _ =>
      do^ point in
      let^ e := ex_gets (λ h, ends (h_ticks h) id) in
      ex_ret (match e with
              | VerifierFails m | VerdictMissing m => mkVerification false m None true
              | VerdictGiven v =>
                  if bool_decide (status v = accepting) then mkVerification true (summary v) (Some v) false
                  else mkVerification false (status v +:+ ": " +:+ summary v) (Some v) false
              end)
  end.

Definition runSliceVerification : string → exM (verification SliceVerdict.t) :=
  run_verification SliceVerdict.status SliceVerdict.summary "progress-ok" (ag_sliceVerifier env) "slice".
Definition runMilestoneVerification : string → exM (verification MilestoneVerdict.t) :=
  run_verification MilestoneVerdict.status MilestoneVerdict.summary "passed" (ag_milestoneVerifier env) "milestone".

Definition capital (scope : string) : string := if bool_decide (scope = "slice") then "Slice" else "Milestone".

(** [runSliceVerificationResilient] and [runMilestoneVerificationResilient]. *)
Fixpoint run_resilient {V} (fuel : nat) (run : string → exM (verification V)) (scope id : string)
    (items : list TaskProgressItem.t) (g : gate) (p : TaskProgress.t) : exM (verification V * TaskProgress.t) :=
  match fuel with
  | O => ex_throw (ThrownError "fuel")
  | S fuel' =>
      let^ raw := run id in
      let v := if vf_ok raw && match vf_verdict raw with None => true | Some _ => false end
               then mkVerification false (capital scope +:+ " verifier " +:+ id +:+
                                          " completed without the required verdict") None true
               else raw in
      if vf_ok v || negb (vf_infraMiss v) then ex_ret (v, p)
      else match resolveVerifierInfraRecovery scope id p (vf_message v) None with
           | VerifierFail _ => ex_ret (v, p)
           | VerifierRetry _ attempt maxAttempts _ =>
               let p' := withVerifierInfraAttempt scope id attempt p in
               do^ persistTaskProgress (running_again "execution.recovery_infra_retry"
                     (attempt_progress id attempt maxAttempts) items p') no_patch g in
               run_resilient fuel' run scope id items g p'
           end
  end.

(** The retries left, and one. *)
Definition resilient_fuel (scope id : string) (p : TaskProgress.t) : nat :=
  S (S (Z.to_nat (MAX_VERIFIER_INFRA_RETRIES - verifierInfraAttempt p scope id))).

Definition runSliceVerificationResilient (id : string) (items : list TaskProgressItem.t) (g : gate) (p : TaskProgress.t) :=
  run_resilient (resilient_fuel "slice" id p) runSliceVerification "slice" id items g p.
Definition runMilestoneVerificationResilient (id : string) (items : list TaskProgressItem.t) (g : gate) (p : TaskProgress.t) :=
  run_resilient (resilient_fuel "milestone" id p) runMilestoneVerification "milestone" id items g p.

(** *** One slice *)

Definition on_plan {A} (m : planM A) (plan : SavedJobPlan.t) : exM (A * SavedJobPlan.t) :=
  match m plan with
  | (Ok a, plan') => ex_ret (a, plan')
  | (Err e, _) => ex_throw (ThrownError e)
  end.

(** What follows a request for repairs. *)
Definition after_repair (c : loop_ctx) (id : string) (p : TaskProgress.t) (g : gate) (m : planM repair_outcome) :
    exM (LoopStepAction * loop_ctx) :=
  let^ r := on_plan m (cx_plan c) in
  match r with
  | (RepairOk items' p' g' persisted, plan') =>
      do^ persistPlanAndProgress plan' persisted no_patch in
      ex_ret (StepContinue, mkCtx (cx_job c) plan' items' p' g')
  | (RepairRefused code params, plan') =>
      do^ failJobWithProgress p (cx_items c) g code (Some params) (taskTerminalError id None) in
      ex_ret (StepReturn, mkCtx (cx_job c) plan' (cx_items c) p g)
  end.

(** A verification that is refused before it starts. *)
Definition guard_report (id : string) (r : guard_result) : option (string * TurnErrorParams * string) :=
  match r with
  | GuardOk => None
  | GuardMaxAttempts code => Some (code, limit_progress id MAX_VERIFICATION_ATTEMPTS, "max-attempts")
  | GuardUnchangedEvidence code => Some (code, [("id", JStr id)], "unchanged-evidence")
  end.

(** The verifier did not accept the slice. *)
Definition slice_refused (c : loop_ctx) (id hash : string) (v : verification SliceVerdict.t) (p : TaskProgress.t) (g : gate) :
    exM (LoopStepAction * loop_ctx) :=
  let items := cx_items c in
  let recorded := match vf_verdict v with
                  | Some verdict => TaskProgress.set_tasks items (with_verdict id verdict p)
                  | None => p
                  end in
  match vf_verdict v with
  | Some verdict =>
      if bool_decide (SliceVerdict.status verdict = "needs-repair") then
        after_repair c id p g (handleSliceNeedsRepair id verdict items p g)
      else if bool_decide (SliceVerdict.status verdict = "blocked") then
        let g' := update_slice id (set_slice_state (Some "verification-blocked") (Some "blocked")) g in
        do^ failJobWithProgress recorded items g' "execution.slice_blocked" (id_params id)
              (taskTerminalError id (Some (vf_message v))) in
        ex_ret (StepReturn, mkCtx (cx_job c) (cx_plan c) items recorded g')
      else if bool_decide (SliceVerdict.status verdict = "inconclusive") then
        let nextAttempt := (verificationAttemptCount p "slice" id + 1)%Z in
        if bool_decide (MAX_VERIFICATION_ATTEMPTS ≤ nextAttempt)%Z then
          let g' := update_slice id (set_slice_state (Some "verification-blocked") (Some "inconclusive")) g in
          do^ failJobWithProgress recorded items g' "execution.slice_inconclusive_exhausted"
                (Some (limit_progress id MAX_VERIFICATION_ATTEMPTS)) (taskTerminalError id (Some (vf_message v))) in
          ex_ret (StepReturn, mkCtx (cx_job c) (cx_plan c) items recorded g')
        else after_repair c id recorded g
               (handleSliceEvidenceRepair id (vf_message v) nextAttempt hash items recorded g)
      else
        let^ failed := persistTaskProgress (bare_state "failed" "failed" "execution.slice_blocked" (id_params id) items)
                         (error_patch "failed" (taskTerminalError id (Some (vf_message v)))) g in
        ex_ret (StepReturn, mkCtx (cx_job c) (cx_plan c)
                  (if failed : bool then slimTaskProgressItemsForRuntime items else items) p g)
  | None =>
      let^ failed := persistTaskProgress (bare_state "failed" "failed" "execution.slice_blocked" (id_params id) items)
                       (error_patch "failed" (taskTerminalError id (Some (vf_message v)))) g in
      ex_ret (StepReturn, mkCtx (cx_job c) (cx_plan c)
                (if failed : bool then slimTaskProgressItemsForRuntime items else items) p g)
  end.

Definition processSliceVerificationStep (c : loop_ctx) : exM (LoopStepAction * loop_ctx) :=
  let items := cx_items c in
  let p := cx_progress c in
  let g := cx_gate c in
  match findSliceReadyForVerification g with
  | None => ex_ret (StepSkip, c)
  | Some s =>
      let id := GateSliceState.id s in
      match preflightSliceTaskEvidence (cx_plan c) id items with
      | (_ :: _) as missing =>
          let items' := foldl (λ l t, updateTaskItem t (set_incomplete t) l) items missing in
          let g' := update_slice id (set_slice_state None None) g in
          let p' := running_again "execution.evidence_incomplete" [("sliceId", JStr id)] items' p in
          do^ persistTaskProgress p' no_patch g' in
          ex_ret (StepContinue, mkCtx (cx_job c) (cx_plan c) items' p' g')
      | [] =>
          let hash := ag_sliceHash env (cx_plan c) id items in
          match guard_report id (guardVerificationAttempt p "slice" id hash) with
          | Some (code, params, reason) =>
              let g' := update_slice id (set_slice_state (Some "verification-blocked") (Some "blocked")) g in
              do^ failJobWithProgress p items g' code (Some params) (taskTerminalError id (Some reason)) in
              ex_ret (StepReturn, mkCtx (cx_job c) (cx_plan c) items p g')
          | None =>
              let g1 := update_slice id (GateSliceState.set_runtimeStatus (Some "verifying")) g in
              do^ persistTaskProgress (running_again "execution.verifying_slice" [("id", JStr id)] items p) no_patch g1 in
              let^ r := runSliceVerificationResilient id items g1 p in
              let '(v, p1) := r in
              if negb (vf_ok v) then slice_refused c id hash v p1 g1
              else
                let g2 := reconcileMilestoneStatuses
                            (update_slice id (set_slice_state (Some "progress-ok") (Some "passed")) g1) in
                let p2 := running_again "execution.slice_accepted" [("id", JStr id)] items
                            (match vf_verdict v with Some verdict => with_verdict id verdict p1 | None => p1 end) in
                do^ persistTaskProgress p2 no_patch g2 in
                ex_ret (StepContinue, mkCtx (cx_job c) (cx_plan c) items p2 g2)
          end
      end
  end.

(** *** One milestone *)

(** The verifier did not accept the milestone. *)
Definition milestone_refused (c : loop_ctx) (id hash : string) (v : verification MilestoneVerdict.t) (p : TaskProgress.t)
    (g : gate) : exM (LoopStepAction * loop_ctx) :=
  let items := cx_items c in
  let fail code params g' :=
    do^ failJobWithProgress p items g' code params (taskTerminalError id (Some (vf_message v))) in
    ex_ret (StepReturn, mkCtx (cx_job c) (cx_plan c) items p g') in
  match vf_verdict v with
  | Some verdict =>
      if bool_decide (MilestoneVerdict.status verdict = "needs-repair") then
        after_repair c id p g (handleMilestoneNeedsRepair id verdict items p g)
      else if bool_decide (MilestoneVerdict.status verdict = "blocked") then
        fail "execution.milestone_blocked" (id_params id) (set_milestone_state id (Some "blocked") g)
      else if bool_decide (MilestoneVerdict.status verdict = "inconclusive") then
        let nextAttempt := (verificationAttemptCount p "milestone" id + 1)%Z in
        if bool_decide (MAX_VERIFICATION_ATTEMPTS ≤ nextAttempt)%Z then
          fail "execution.milestone_inconclusive_exhausted" (Some (limit_progress id MAX_VERIFICATION_ATTEMPTS))
            (set_milestone_state id (Some "inconclusive") g)
        else after_repair c id p g
               (handleMilestoneEvidenceRepair id (vf_message v) nextAttempt hash items p g)
      else fail "execution.milestone_blocked" (id_params id) g
  | None => fail "execution.milestone_blocked" (id_params id) g
  end.

Definition reopened_params (id : string) (missing reopened : list string) : TurnErrorParams :=
  [("milestoneId", JStr id); ("missingSlices", JStr (join "," missing));
   ("reopenedSlices", JNum (Z.of_nat (length reopened)))].

Definition processMilestoneVerificationStep (c : loop_ctx) : exM (LoopStepAction * loop_ctx) :=
  let items := cx_items c in
  let p := cx_progress c in
  let g := cx_gate c in
  match findMilestoneReadyForVerification g with
  | None => ex_ret (StepSkip, c)
  | Some m =>
      let id := GateMilestoneState.id m in
      match preflightMilestoneSliceVerdicts (GateMilestoneState.sliceIds m) (TaskProgress.slices p) with
      | (_ :: _) as missing =>
          match reopen_slices missing g with
          | ([], g') =>
              do^ failJobWithProgress p items g' "execution.workflow_deadlock" (id_params id)
                    (taskTerminalError id
                       (Some "Milestone is ready but its missing slice verdict cannot be regenerated")) in
              ex_ret (StepReturn, mkCtx (cx_job c) (cx_plan c) items p g')
          | (reopened, g') =>
              let g'' := reconcileMilestoneStatuses (set_milestone_state id None g') in
              let p' := running_again "execution.evidence_incomplete" (reopened_params id missing reopened) items p in
              do^ persistTaskProgress p' no_patch g'' in
              ex_ret (StepContinue, mkCtx (cx_job c) (cx_plan c) items p' g'')
          end
      | [] =>
          let hash := ag_milestoneHash env (cx_plan c) id items (TaskProgress.slices p) in
          match guard_report id (guardVerificationAttempt p "milestone" id hash) with
          | Some (code, params, reason) =>
              let g' := set_milestone_state id (Some "blocked") g in
              do^ failJobWithProgress p items g' code (Some params) (taskTerminalError id (Some reason)) in
              ex_ret (StepReturn, mkCtx (cx_job c) (cx_plan c) items p g')
          | None =>
              let g1 := set_milestone_state id (Some "verifying") g in
              do^ persistTaskProgress (running_again "execution.verifying_milestone" [("id", JStr id)] items p) no_patch g1 in
              let^ r := runMilestoneVerificationResilient id items g1 p in
              let '(v, p1) := r in
              if negb (vf_ok v) then milestone_refused c id hash v p1 g1
              else
                let g2 := set_milestone_state id (Some "passed") g1 in
                let p2 := running_again "execution.milestone_accepted" [("id", JStr id)] items p1 in
                do^ persistTaskProgress p2 no_patch g2 in
                ex_ret (StepContinue, mkCtx (cx_job c) (cx_plan c) items p2 g2)
          end
      end
  end.

(** *** One task *)

(** The chunks of a turn: between them the loop looks at its control. *)
Fixpoint stream_turn (chunks : nat) : exM unit :=
  do^ point in
  match chunks with
  | O => ex_ret tt
  | S n =>
      let^ stop := shouldStop in
      match stop with
      | Some Loops.StopCancel => ex_throw (ThrownTurn JOB_CANCELLED)
      | Some Loops.StopPause => ex_throw (ThrownTurn JOB_PAUSED)
      | None => stream_turn n
      end
  end.

Definition is_lease_lost (e : thrown) : bool :=
  match e with ThrownTurn dto => bool_decide (TurnErrorDto.code dto = "workspace.lease_lost") | _ => false end.

Definition under_lease (workspacePath : string) (m : exM unit) : exM unit :=
  do^ point in
  let^ lease := (λ h,
    let '(r, l) := acquireWorkspaceLease leaseTtl (mkAcquire workspacePath OwnerKind.thread_job J (Some R))
                     ("lease-" +:+ uuid (h_ticks h)) (now h) (w_leases (h_queue h)) in
    (Returned (match r with Ok x => Ok x | Err e => Err (ThrownError e) end), set_host_leases l h)) in
  match lease with
  | None =>
      do^ ex_modify (add_effects [LeaseRefused J]) in
      ex_throw (ThrownTurn (turnErrorDto "workspace.lease_lost" None
                              (Some "Workspace lease is not held by this run") None))
  | Some _ => m
  end.

(** The turn of the agent: what it threw, and whether the wait for the report had
    timed out by then; or the report, or why there is none. *)
Definition agent_turn_of (workspacePath : string) (t : agent_turn) :
    exM (result (thrown * bool) (result thrown TaskEvidence.t)) :=
  let~ r := under_lease workspacePath (stream_turn (tn_chunks t)) in
  match r with
  | Err e => ex_ret (Err (e, false))
  | Ok _ =>
      match tn_end t with
      | TurnThrows e timedOut =>
          do^ ex_modify (λ h, if is_lease_lost e then add_effects [TurnLostLease J] h else h) in
          ex_ret (Err (e, timedOut))
      | TurnSilent e => ex_ret (Ok (Err e))
      | TurnReports packet =>
          let~ waited := point in
          ex_ret (Ok (match waited with Ok _ => Ok packet | Err e => Err e end))
      end
  end.

(** [lastError] of [taskFailureFromSandboxError]. *)
Definition sandbox_failure (e : thrown) : TurnErrorDto.t :=
  let fallback := normalizeTurnError e in
  match e with
  | ThrownSandbox code _ =>
      if bool_decide (TurnErrorDto.code fallback = "job.paused") then fallback
      else if bool_decide (code ∈ ["sandbox.supervisor.cleanup_failed"; "sandbox.supervisor.crashed"]) then
        turnErrorDto "plan.sandbox_cleanup_failed" None (TurnErrorDto.detail fallback) None
      else if bool_decide (code = "sandbox.turn.timed_out") then
        turnErrorDto "sandbox.turn.timed_out" None (TurnErrorDto.detail fallback) None
      else fallback
  | _ => fallback
  end.

Definition timeout_error (taskId : string) : thrown :=
  ThrownTurn (turnErrorDto "task.evidence_timeout" (Some [("taskId", JStr taskId)])
                (Some "Timed out waiting for report_task_result") None).

(** What becomes of a turn that threw. *)
Definition turn_threw (c : loop_ctx) (taskId : string) (items : list TaskProgressItem.t) (timedOut : bool) (e : thrown) :
    exM (ExecuteSingleTaskResult * SavedJobPlan.t) :=
  let p := cx_progress c in
  let plan := cx_plan c in
  let paused dto :=
    let items' := updateTaskItem taskId (set_error "queued" dto) items in
    ex_ret (TaskPaused items' dto (TaskProgress.set_tasks items' p), plan) in
  let^ stop := shouldStop in
  match stop with
  | Some Loops.StopPause => paused JOB_PAUSED
  | Some Loops.StopCancel => paused JOB_CANCELLED
  | None =>
      let^ drains := isDraining J in
      if drains || is_lease_lost e then ex_ret (TaskInterrupted (updateTaskItem taskId set_queued items), plan)
      else if timedOut then
        on_plan (buildTaskInfraRecoveryResult items taskId p (cx_gate c)
                   "Timed out waiting for report_task_result" (Some (timeout_error taskId))) plan
      else if isRetryableTurnError e || isInfraTurnError e then
        on_plan (buildTaskInfraRecoveryResult items taskId p (cx_gate c) (TurnErrorDto.message (normalizeTurnError e))
                   (Some e)) plan
      else
        let dto := sandbox_failure e in
        ex_ret (TaskFailed (updateTaskItem taskId (set_error "failed" dto) items) dto, plan)
  end.

(** The report, or that there is none. *)
Definition turn_reported (c : loop_ctx) (taskId : string) (items : list TaskProgressItem.t)
    (report : result thrown TaskEvidence.t) : exM (ExecuteSingleTaskResult * SavedJobPlan.t) :=
  let p := cx_progress c in
  let missed e plan :=
    on_plan (buildTaskInfraRecoveryResult items taskId p (cx_gate c) (TurnErrorDto.message (normalizeTurnError e))
               (Some e)) plan in
  match report with
  | Err e => missed e (cx_plan c)
  | Ok packet =>
      match processTaskEvidenceOutcome items taskId packet p (cx_gate c) (cx_plan c) with
      | (Ok r, plan') => ex_ret (r, plan')
      | (Err e, plan') => missed (ThrownError e) plan'
      end
  end.

(** Why the references of the task cannot be read. *)
Definition references_of (taskId : string) : exM (option string) :=
  if negb (ag_hasReferences env taskId) then ex_ret None else
  let~ r := point in
  match r with
  | Err e => ex_ret (Some (readErrorMessage e))
  | Ok _ => ex_gets (λ h, ag_references env (h_ticks h) taskId)
  end.

Definition executeSingleTask (c : loop_ctx) (taskId : string) (key : string) :
    exM (ExecuteSingleTaskResult * SavedJobPlan.t) :=
  let items := cx_items c in
  match findFlatTask (cx_plan c) taskId with
  | None =>
      ex_ret (TaskFailed items (turnErrorDto "turn.unknown" (Some [("taskId", JStr taskId)])
                (Some ("Task " +:+ taskId +:+ " not found in plan")) None), cx_plan c)
  | Some flat =>
      do^ point in
      let^ core := ex_gets (λ h, ag_available env (h_ticks h) (ag_core env flat)) in
      match core with
      | Err e => ex_throw e
      | Ok core =>
          let items1 := updateTaskItem taskId (set_running core None) items in
          let^ unreadable := references_of taskId in
          match unreadable with
          | Some detail =>
              let dto := turnErrorDto "task.evidence_missing" (Some [("taskId", JStr taskId)]) (Some detail) None in
              ex_ret (TaskFailed (updateTaskItem taskId (set_error "failed" dto) items1) dto, cx_plan c)
          | None =>
              if bool_decide (trim key = "") then
                ex_throw (ThrownTurn (turnErrorDto "task.terminal_failure" (Some [("taskId", JStr taskId)])
                  (Some "Task attempt is missing its durable idempotency key") None))
              else
                let^ t := ex_gets (λ h, ag_turn env (h_ticks h) taskId) in
                let^ streamed := agent_turn_of (JobContent.workspacePath (jb_content (ld_row (cx_job c)))) t in
                match streamed with
                | Err (e, timedOut) => turn_threw c taskId items1 timedOut e
                | Ok report => turn_reported c taskId items1 report
                end
          end
      end
  end.

(** *** The next task *)

(** [JSON.stringify] of an error. *)
Definition error_json (e : TurnErrorDto.t) : string :=
  stringify (JObj ([("code", JStr (TurnErrorDto.code e)); ("message", JStr (TurnErrorDto.message e))] ++
    match TurnErrorDto.params e with Some ps => [("params", JObj ps)] | None => [] end ++
    [("detail", json_of_option (TurnErrorDto.detail e))])).

Definition attempt_status_text (s : AttemptStatus.t) : string :=
  match s with
  | AttemptStatus.starting => "starting" | AttemptStatus.running => "running"
  | AttemptStatus.completed => "completed" | AttemptStatus.interrupted => "interrupted"
  | AttemptStatus.failed => "failed"
  end.

(** [getUserJob] *)
Definition load_job (h : host) : option loaded :=
  j ← getUserJob U J h;
  Some (mkLoaded j
    match List.find (λ r, bool_decide (lj_id r = J)) (lg_jobs (w_ledger (h_queue h))) with
    | Some r => default (lj_planRevision r) (lj_snapshotPlanRevision r)
    | None => 0%Z
    end).

Definition reload (old : loaded) : exM loaded :=
  do^ point in ex_gets (λ h, default old (load_job h)).

(** No task can run. *)
Definition no_next_task (c : loop_ctx) : exM (LoopStepAction * loop_ctx) :=
  let items := cx_items c in
  let anyFailed := existsb (λ i, bool_decide (TaskProgressItem.status i = "failed")) items in
  let p := TaskProgress.mk "failed" "failed" (countCompleted items) (length items) None
             (Some (if anyFailed then "execution.workflow_failed_block" else "execution.workflow_deadlock"))
             None items [] [] ∅ ∅ ∅ in
  let e := turnErrorDto (if anyFailed then "workflow.failed_block" else "workflow.deadlock") None None None in
  let^ failed := persistTaskProgress p (error_patch "failed" e) (cx_gate c) in
  ex_ret (StepReturn, mkCtx (cx_job c) (cx_plan c)
            (if failed : bool then slimTaskProgressItemsForRuntime items else items) p (cx_gate c)).

(** [catch] around the opening of the attempt. *)
Definition begin_failed (c : loop_ctx) (taskId : string) (e : thrown) : exM (LoopStepAction * loop_ctx) :=
  do^ failJobWithProgress (cx_progress c) (cx_items c) (cx_gate c) "execution.failed" (id_params taskId)
        (terminal_detail ("beginTaskAttempt failed: " +:+ readErrorMessage e)) in
  ex_ret (StepReturn, c).

(** The task has a completed attempt already. *)
Definition already_completed (c : loop_ctx) (taskId : string) : exM (LoopStepAction * loop_ctx) :=
  let items := updateTaskItem taskId set_completed (cx_items c) in
  let g := sync_gate items (cx_gate c) in
  let p := at_state "running" "running" (Some "execution.resuming") None items (cx_progress c) in
  let c' := mkCtx (cx_job c) (cx_plan c) items p g in
  ex_catch (do^ persistTaskProgress p no_patch g in ex_ret (StepContinue, c')) (begin_failed c' taskId).

(** An earlier attempt may have had effects. *)
Definition blocked_uncertain (c : loop_ctx) (taskId : string) (attemptNo : Z) (st : AttemptStatus.t) :
    exM (LoopStepAction * loop_ctx) :=
  let detail := "Automatic replay blocked: task attempt " +:+ pretty attemptNo +:+
                " has an uncertain side-effect outcome (" +:+ attempt_status_text st +:+ ")" in
  ex_catch (do^ failJobWithProgress (cx_progress c) (cx_items c) (cx_gate c) "execution.failed" (id_params taskId)
                  (terminal_detail detail) in
            ex_ret (StepReturn, c))
    (begin_failed c taskId).

Definition evidence_of (taskId : string) (items : list TaskProgressItem.t) : option json :=
  i ← List.find (λ i, bool_decide (TaskProgressItem.id i = taskId)) items;
  ag_evidence env <$> TaskProgressItem.evidence i.

Definition fail_attempt (taskId : string) (attemptNo : Z) (e : TurnErrorDto.t) : exM unit :=
  on_ledger (markTaskAttemptFailed J taskId attemptNo (Some (error_json e))).

Definition commit_attempt (taskId : string) (attemptNo : Z) (items : list TaskProgressItem.t) : exM unit :=
  do^ on_ledger (commitCompletedTaskAttempt J taskId attemptNo (evidence_of taskId items)) in ex_ret tt.

(** The task went on to something that keeps the job running. *)
Definition task_recovered (c : loop_ctx) (plan : SavedJobPlan.t) (items : list TaskProgressItem.t) (code : string)
    (params : TurnErrorParams) (p : TaskProgress.t) (g : gate) : exM (LoopStepAction * loop_ctx) :=
  do^ persistPlanAndProgress plan (mergeVerificationProgress (running_again code params items p) g)
        (clear_error (Some "running")) in
  let^ job := reload (cx_job c) in
  ex_ret (StepContinue, mkCtx job plan (slimTaskProgressItemsForRuntime items) p g).

Definition task_paused (c : loop_ctx) (taskId : string) (attemptNo : Z) (items : list TaskProgressItem.t)
    (e : TurnErrorDto.t) (p : TaskProgress.t) : exM (LoopStepAction * loop_ctx) :=
  do^ fail_attempt taskId attemptNo e in
  do^ persistTaskProgress (at_state "running" "running" (TaskProgress.progressCode p) None items p)
        (error_patch "paused" e) (cx_gate c) in
  do^ pauseJobExecution in
  ex_ret (StepReturn, c).

(** The task failed while a pause was asked for. *)
Definition failed_in_pause (c : loop_ctx) (items : list TaskProgressItem.t) : exM (LoopStepAction * loop_ctx) :=
  let nextAttempt := (readPausingAttempt (cx_progress c) J + 1)%Z in
  let p := withPausingAttempt J nextAttempt (cx_progress c) in
  if bool_decide (MAX_PAUSING_TURN_ATTEMPTS ≤ nextAttempt)%Z then
    do^ failJobWithProgress p items (cx_gate c) "execution.pausing_exhausted"
          (Some [("maxAttempts", JNum MAX_PAUSING_TURN_ATTEMPTS)])
          (terminal_detail ("Pause timed out after " +:+ pretty MAX_PAUSING_TURN_ATTEMPTS +:+ " attempts")) in
    ex_ret (StepReturn, mkCtx (cx_job c) (cx_plan c) (cx_items c) p (cx_gate c))
  else ex_ret (StepContinue, mkCtx (cx_job c) (cx_plan c) (slimTaskProgressItemsForRuntime items)
                               (TaskProgress.set_tasks items p) (cx_gate c)).

(** The task was done when a pause was asked for. *)
Definition completed_in_pause (c : loop_ctx) (taskId : string) (attemptNo : Z) (items : list TaskProgressItem.t) :
    exM (LoopStepAction * loop_ctx) :=
  let p := bare_state "running" "running" "execution.completed" (done_params items) items in
  do^ commit_attempt taskId attemptNo items in
  let items' := slimTaskProgressItemsForRuntime items in
  do^ finalizeExecutionPause p items' (cx_gate c) in
  ex_ret (StepReturn, mkCtx (cx_job c) (cx_plan c) items' p (cx_gate c)).

Definition task_failed (c : loop_ctx) (taskId : string) (attemptNo : Z) (items : list TaskProgressItem.t)
    (e : TurnErrorDto.t) : exM (LoopStepAction * loop_ctx) :=
  do^ fail_attempt taskId attemptNo e in
  do^ persistTaskProgress (bare_state "failed" "failed" "execution.failed" (id_params taskId) items)
        (error_patch "failed" e) (cx_gate c) in
  ex_ret (StepReturn, mkCtx (cx_job c) (cx_plan c) (slimTaskProgressItemsForRuntime items) (cx_progress c) (cx_gate c)).

Definition task_completed (c : loop_ctx) (taskId : string) (attemptNo : Z) (items : list TaskProgressItem.t) :
    exM (LoopStepAction * loop_ctx) :=
  do^ commit_attempt taskId attemptNo items in
  do^ persistTaskProgress (bare_state "running" "running" "execution.completed" (done_params items) items)
        (clear_error (Some "running")) (cx_gate c) in
  let^ job := reload (cx_job c) in
  ex_ret (StepContinue, mkCtx job (cx_plan c) (slimTaskProgressItemsForRuntime items) (cx_progress c) (cx_gate c)).

(** What becomes of the result of a task; [c] is the state before the turn, [plan]
    the plan after it. *)
Definition task_result (c : loop_ctx) (plan : SavedJobPlan.t) (taskId : string) (attemptNo : Z)
    (r : ExecuteSingleTaskResult) : exM (LoopStepAction * loop_ctx) :=
  let c' := mkCtx (cx_job c) plan (cx_items c) (cx_progress c) (cx_gate c) in
  match r with
  | TaskRecovered items code params p g _ =>
      do^ ex_modify (add_effects [TaskRequeued J taskId]) in task_recovered c' plan items code params p g
  | TaskPaused items e p => task_paused c' taskId attemptNo items e p
  | TaskInterrupted items =>
      ex_ret (StepReturn, mkCtx (cx_job c) plan (slimTaskProgressItemsForRuntime items) (cx_progress c) (cx_gate c))
  | TaskFailed items e =>
      let^ stop := shouldStop in
      match stop with
      | Some Loops.StopPause => failed_in_pause c' items
      | _ => task_failed c' taskId attemptNo items e
      end
  | TaskCompleted items =>
      let^ stop := shouldStop in
      match stop with
      | Some Loops.StopPause => completed_in_pause c' taskId attemptNo items
      | _ => task_completed c' taskId attemptNo items
      end
  end.

(** The turn of the task once its attempt is open. *)
Definition run_task (c : loop_ctx) (taskId : string) (attemptNo : Z) (key : string) (started : bool) :
    exM (LoopStepAction * loop_ctx) :=
  let items := match findFlatTask (cx_plan c) taskId with
               | Some flat => updateTaskItem taskId
                   (λ i, set_running (ag_core env flat) (TaskProgressItem.errorMessage i) i) (cx_items c)
               | None => cx_items c
               end in
  let g := match findFlatTask (cx_plan c) taskId with
           | Some _ => sync_gate items (cx_gate c)
           | None => cx_gate c
           end in
  let c1 := mkCtx (cx_job c) (cx_plan c) items (cx_progress c) g in
  do^ persistTaskProgress (runningProgress items taskId) no_patch g in
  do^ (if started then on_ledger (λ _, markTaskAttemptProviderStarted J taskId attemptNo) else ex_ret tt) in
  let^ r := executeSingleTask c1 taskId key in
  task_result c1 r.2 taskId attemptNo r.1.

Definition processNextTaskStep (c : loop_ctx) : exM (LoopStepAction * loop_ctx) :=
  match findNextReadyTask (cx_gate c) with
  | None => ex_throw (ThrownError "Maximum call stack size exceeded")
  | Some None => no_next_task c
  | Some (Some next) =>
      let taskId := GateTaskState.id next in
      let~ attempt := (λ h,
        on_ledger (beginTaskAttempt (mkBegin J taskId (Some R) (Some (ld_revision (cx_job c))))
                     ("jta-" +:+ uuid (h_ticks h))) h) in
      match attempt with
      | Err e => begin_failed c taskId e
      | Ok AlreadyCompleted => already_completed c taskId
      | Ok (BlockedUncertain attemptNo _ st) => blocked_uncertain c taskId attemptNo st
      | Ok (Resumed attemptNo key) => run_task c taskId attemptNo key false
      | Ok (Started _ attemptNo key) => run_task c taskId attemptNo key true
      end
  end.

(** *** The start of the loop *)

Definition refresh_lease : exM unit := ex_modify (λ h, set_host_work (refreshExecutionLease pr (now h) J (h_work h)) h).

Definition resuming (status : option string) : patch JobContent.t :=
  match status with Some st => clear_error (Some st) | None => no_patch end.

(** The items, the progress and the gate the loop starts with, and whether a
    verification or a task that was interrupted is taken back: tasks are looked at
    only if no verification was. *)
Definition initial_state (plan : SavedJobPlan.t) (saved : TaskProgress.t) :
    bool * list TaskProgressItem.t * TaskProgress.t * gate :=
  let items := match TaskProgress.tasks saved with
               | [] => map queued_item (SavedJobPlan.tasks plan)
               | l => l
               end in
  let g := applyVerificationProgress
             (Some (mkVerificationProgress (TaskProgress.slices saved) (TaskProgress.milestones saved)))
             (buildGateStates plan) in
  match resetInterruptedGateVerification g with
  | (true, g') => (true, items, at_state "running" "running" (Some "execution.resuming") None items saved, sync_gate items g')
  | (false, _) =>
      match resetInterruptedRunningTasks items with
      | (true, items') =>
          (true, items', at_state "running" "running" (Some "execution.resuming") None items' saved, sync_gate items' g)
      | (false, _) => (false, items, saved, g)
      end
  end.

Definition initializeExecutionState : exM (option loop_ctx) :=
  do^ point in
  let^ row := ex_gets (λ h, find_job (h_work h) J) in
  match row with
  | None => ex_ret None
  | Some _ =>
      do^ point in
      let^ plan := ex_gets (λ h, find_job (h_work h) J ≫= λ j, JobContent.plan (jb_content j)) in
      match plan with
      | None => ex_ret None
      | Some plan =>
          if bool_decide (SavedJobPlan.tasks plan = []) then ex_ret None else
          do^ point in
          let^ loaded := ex_gets load_job in
          match loaded with
          | None => ex_ret None
          | Some job =>
              let status := jb_status (ld_row job) in
              if negb (ag_profile env J) then
                ex_throw (ThrownTurn (turnErrorDto "turn.unknown" None
                                        (Some "Job execution profile is missing or invalid") None))
              else if bool_decide (status ∈ ["paused"; "cancelled"]) then ex_ret None
              else
                let pausing := bool_decide (status = "pausing") in
                do^ (if pausing then ex_modify (λ h, set_loops (Loops.setControl J JobControlState.paused (h_loops h)) h)
                     else do^ updateExecutionJobRow
                                (mkPatch (Some "running") None None None None None true id) in ex_ret tt) in
                do^ refresh_lease in
                let^ job := reload job in
                let '(recovered, items, p, g) :=
                  initial_state plan (JobContent.taskProgress (jb_content (ld_row job))) in
                do^ (if recovered : bool
                     then do^ persistTaskProgress p (resuming (if pausing then None else Some "running")) g in ex_ret tt
                     else ex_ret tt) in
                ex_ret (Some (mkCtx job plan items p g))
          end
      end
  end.

(** *** The loop *)

(** The process shuts down: the attempts are interrupted, whatever comes of it. *)
Definition interrupt_attempts : exM unit :=
  let~ _ := (do^ point in on_ledger (markRunningAttemptsInterruptedForJob J)) in ex_ret tt.

Definition failStagnantExecution (c : loop_ctx) : exM unit :=
  failJobWithProgress (cx_progress c) (cx_items c) (cx_gate c) "execution.workflow_deadlock" (id_params J)
    (taskTerminalError J (Some "Execution loop made no durable state progress")).

Definition synced (c : loop_ctx) : loop_ctx :=
  mkCtx (cx_job c) (cx_plan c) (cx_items c) (cx_progress c) (sync_gate (cx_items c) (cx_gate c)).

(** The slice step, then the milestone step, then the task step: the first that
    has something to do. *)
Definition loop_steps (c : loop_ctx) : exM (LoopStepAction * loop_ctx) :=
  let^ s := processSliceVerificationStep c in
  match s.1 with
  | StepSkip =>
      let^ m := processMilestoneVerificationStep s.2 in
      match m.1 with
      | StepSkip => processNextTaskStep m.2
      | _ => ex_ret m
      end
  | _ => ex_ret s
  end.

(** The iterations that started with the same fingerprint, this one included. *)
Definition stagnation (c : loop_ctx) (previous : option loop_ctx) (n : nat) : nat :=
  match previous with
  | Some b => if bool_decide (executionStateFingerprint c = executionStateFingerprint b) then S n else 0
  | None => 0
  end.

Fixpoint run_loop (fuel : nat) (c : loop_ctx) (previous : option loop_ctx) (stagnant : nat) : exM loop_end :=
  match fuel with
  | O => ex_ret OutOfFuel
  | S fuel' =>
      do^ refresh_lease in
      let^ drains := isDraining J in
      if drains : bool then do^ interrupt_attempts in ex_ret Ended
      else
        let^ stop := shouldStop in
        match stop with
        | Some Loops.StopCancel => ex_ret Ended
        | Some Loops.StopPause => do^ finalizeExecutionPause (cx_progress c) (cx_items c) (cx_gate c) in ex_ret Ended
        | None =>
            let c := synced c in
            let n := stagnation c previous stagnant in
            if bool_decide (MAX_STAGNANT_EXECUTION_ITERATIONS ≤ n) then do^ failStagnantExecution c in ex_ret Ended
            else if isWorkflowComplete (cx_gate c) then
              do^ handleWorkflowCompletion (cx_items c) (cx_gate c) (cx_progress c) in ex_ret Ended
            else
              let^ r := loop_steps c in
              match r.1 with
              | StepReturn => ex_ret Ended
              | _ => run_loop fuel' r.2 (Some c) n
              end
        end
  end.

Definition runExecutionLoop (fuel : nat) : exM loop_end :=
  let^ c := initializeExecutionState in
  match c with
  | None => ex_ret Ended
  | Some c => run_loop fuel c None 0
  end.

End job.

(** ** Starting the loop *)

Definition isExecutionInfraNotReadyError (e : thrown) : bool :=
  let dto := normalizeTurnError e in
  if bool_decide (TurnErrorDto.code dto = "sandbox.required") then true
  else
    let parts := List.filter (λ t, negb (bool_decide (t = "")))
                   [TurnErrorDto.message dto; default "" (TurnErrorDto.detail dto); readErrorMessage e] in
    let haystack := join " " parts in
    includes haystack "MCP backend port is not initialized" || includes haystack "supervisor not ready" ||
    includes haystack "Sandbox is not ready".

Definition has_started (p : TaskProgress.t) : bool :=
  existsb (λ t, negb (bool_decide (TaskProgressItem.status t = "queued")) ||
                negb (bool_decide (TaskProgressItem.executionStatus t = Some "queued"))) (TaskProgress.tasks p).

Definition revertJobAfterInfraStartupFailure (J : string) (existing : option job) : hostM (option job) :=
  match existing with
  | None => updateJobRow clock J (clear_error (Some "pending"))
  | Some j =>
      let p := (prepareInterruptedExecutionResume (JobContent.taskProgress (jb_content j))).2 in
      updateJobRow clock J (with_content (JobContent.set_progress p)
        (clear_error (Some (if has_started p then "paused" else "pending"))))
  end.

Definition revert_to_pending (J : string) : hostM unit :=
  do~ updateJobRow clock J (clear_error (Some "pending")) in act_ret tt.

(** [buildCursorJobRuntimeHandle] *)
Definition job_handle : RuntimeHandle.t := RuntimeHandle.mk "cursor-acp" true true true true.

Definition claim_slot (U J : string) : exM (option string) :=
  do^ point in
  λ h, let runId := "run-" +:+ uuid (h_ticks h) in
       match claimExecutionWorkloadSlot workloadCapacity workloadTtl pr (now h) runId U J (h_work h) with
       | (Ok b, s) => (Returned (Ok (if b : bool then Some runId else None)), set_host_work s h)
       | (Err e, s) => (Returned (Err (ThrownError e)), set_host_work s h)
       end.

(** The workspace of the job is leased for the run; [false] if another run has it. *)
Definition lease_workspace (J R : string) (j : job) : exM bool := λ h,
  let '(r, l) := acquireWorkspaceLease leaseTtl
                   (mkAcquire (JobContent.workspacePath (jb_content j)) OwnerKind.thread_job J (Some R))
                   ("lease-" +:+ uuid (h_ticks h)) (now h) (w_leases (h_queue h)) in
  (Returned (match r with Ok x => Ok (bool_decide (is_Some x)) | Err e => Err (ThrownError e) end), set_host_leases l h).

(** The [try] block once a slot is claimed. *)
Definition run_claimed (fuel : nat) (U J R : string) : exM unit :=
  do^ point in
  let^ current := ex_gets (getUserJob U J) in
  let^ leased := match current with Some j => lease_workspace J R j | None => ex_ret true end in
  if negb leased then
    do^ ex_lift (act_ignore (releaseWorkloadSlot clock advance R (Some "workspace_lease_unavailable") true)) in
    ex_lift (revert_to_pending J)
  else
    do^ ex_lift (registerRunRuntime R job_handle) in
    do^ point in
    do^ ex_modify (λ h, set_host_work (updateRunRuntimeRef (now h) R
          (stringify (JObj [("kind", JStr "cursor-acp"); ("scopeId", JStr J)])) (h_work h)) h) in
    let^ sandbox := ex_gets (λ h, ag_sandbox env (h_ticks h)) in
    match sandbox with
    | Err e => ex_throw e
    | Ok _ => do^ runExecutionLoop U J R fuel in ex_ret tt
    end.

Definition failure_patch (e : thrown) (existing : option job) : patch JobContent.t :=
  let p := error_patch "failed" (normalizeTurnError e) in
  match existing with
  | Some j => with_content (JobContent.set_progress
                (syncTaskProgressForJobFailure (JobContent.taskProgress (jb_content j)) e)) p
  | None => p
  end.

(** The failure is saved under the run, if there is one. *)
Definition save_failure (J : string) (run : option string) (p : patch JobContent.t) : exM unit :=
  do^ point in
  match run with
  | Some R => λ h, match updateJobRowFenced (now h) J R p (h_work h) with
                   | (Ok _, s) => (Returned (Ok tt), set_host_work s h)
                   | (Err e, s) => (Returned (Err (ThrownError e)), set_host_work s h)
                   end
  | None => ex_modify (λ h, set_host_work (JobRows.updateJobRow (now h) J p (h_work h)) h)
  end.

(** The [catch] block; the answer says whether the run failed. *)
Definition execution_threw (U J : string) (run : option string) (e : thrown) : hostM bool :=
  let~ drains := sees_draining J in
  if drains : bool then do~ interrupt_attempts J in act_ret false
  else
    let~ _ := (do^ point in
               let^ existing := ex_gets (getUserJob U J) in
               if isExecutionInfraNotReadyError e then
                 do^ ex_lift (revertJobAfterInfraStartupFailure J existing) in ex_ret tt
               else save_failure J run (failure_patch e existing)) in
    act_ret true.

(** The [finally] block. *)
Definition execution_finally (U J : string) (run : option string) (failure : bool) : hostM unit :=
  match run with
  | Some R => finishExecutionRunLifecycle clock advance R U J
                (if failure then "execution_failed" else "execution_done") failure
  | None =>
      do~ finalizeJobExecution U J in
      markJobExecutionDone clock J None
  end.

Definition execute_claimed (fuel : nat) (U J : string) (slot : result thrown (option string)) : hostM unit :=
  let run := match slot with Ok o => o | Err _ => None end in
  let~ r := match slot with
            | Err e => act_ret (Err e)
            | Ok None => ex_lift (revert_to_pending J)
            | Ok (Some R) => run_claimed fuel U J R
            end in
  let~ failure := match r with Ok _ => act_ret false | Err e => execution_threw U J run e end in
  execution_finally U J run failure.

Definition scheduleJobExecution (fuel : nat) (U J : string) (preclaimed : option string) : hostM unit :=
  let~ started := markJobExecuting J (Some U) in
  if negb started then
    match preclaimed with
    | Some R =>
        do~ act_ignore (releaseWorkloadSlot clock advance R (Some "loop_already_active") true) in
        act_ignore (revert_to_pending J)
    | None => act_ret tt
    end
  else
    let~ slot := match preclaimed with Some R => act_ret (Ok (Some R)) | None => claim_slot U J end in
    act_ignore (execute_claimed fuel U J slot).
End execution.
