(* ===== verification/ExecutionSpecs.v ===== *)
(** * What the execution of a job guarantees

    Theorems about [ExecutionLoop.v]. *)
From stdpp Require Import pretty.
From Stdlib Require Import Ascii.
From S2P Require Import Prelude Json JsString Path Sql WorkspaceLease TaskAttempts SavedPlan Gate RepairTasks.
From S2P Require Import TurnErrors Blocker TaskRecovery RecoverySpecs WorkloadSlots JobRows QueueCoordinator.
From S2P Require Import ProgressStore StoredErrors RecoveryState ContinueFailed Act Registries Host RunLifecycle.
From S2P Require Import Controls ExecutionLoop.
Local Open Scope act_scope.
Local Open Scope exec_scope.
#[local] Arguments bool_decide : simpl never.

(** ** Acceptance is vouched for

    [Vs] and [Vm] are the slices and milestones whose acceptance is explained. *)
Section vouch.
Context (Vs Vm : string → Prop).

Definition slice_vouched (s : GateSliceState.t) : Prop :=
  GateSliceState.runtimeStatus s = Some "progress-ok" → Vs (GateSliceState.id s).
Definition milestone_vouched (m : GateMilestoneState.t) : Prop :=
  GateMilestoneState.verificationStatus m = Some "passed" → Vm (GateMilestoneState.id m).

Definition gate_vouched (g : gate) : Prop :=
  Forall slice_vouched (slices g) ∧ Forall milestone_vouched (milestones g).

Definition saved_vouched (p : TaskProgress.t) : Prop :=
  Forall (λ r, sp_runtimeStatus r = Some "progress-ok" → Vs (sp_id r)) (TaskProgress.slices p) ∧
  Forall (λ r, mp_verificationStatus r = Some "passed" → Vm (mp_id r)) (TaskProgress.milestones p).

Lemma Forall_update_first {A} (P : A → Prop) (p : A → bool) f l :
  Forall P l → (∀ x, p x = true → P x → P (f x)) → Forall P (update_first p f l).
Proof.
  intros Hl Hf. induction Hl as [|x l Hx Hl IH]; cbn; [constructor|].
  destruct (p x) eqn:E; constructor; auto.
Qed.

Lemma Forall_map_keep {A} (P : A → Prop) f l : Forall P l → (∀ x, P x → P (f x)) → Forall P (map f l).
Proof. intros Hl Hf. induction Hl; cbn; constructor; auto. Qed.

Lemma reconcile_slice_vouched ts s : slice_vouched s → slice_vouched (reconcile_slice ts s).
Proof. unfold slice_vouched, reconcile_slice. intros H. repeat case_match; cbn; try done; try (destruct s; cbn in *; done). Qed.

Lemma reconcile_milestone_vouched ss m : milestone_vouched m → milestone_vouched (reconcile_milestone ss m).
Proof. unfold milestone_vouched, reconcile_milestone. intros H. repeat case_match; cbn; try done; try (destruct m; cbn in *; done). Qed.

Lemma reconcileMilestone_vouched g : gate_vouched g → gate_vouched (reconcileMilestoneStatuses g).
Proof.
  intros [Hs Hm]. split; [done|]. cbn. apply Forall_map_keep; [done|]. intros m. apply reconcile_milestone_vouched.
Qed.

Lemma reconcile_vouched g : gate_vouched g → gate_vouched (reconcile_gate g).
Proof.
  intros [Hs Hm]. apply reconcileMilestone_vouched. split; [|done]. cbn.
  apply Forall_map_keep; [done|]. intros s. apply reconcile_slice_vouched.
Qed.

Lemma apply_tasks_vouched items g : gate_vouched g → gate_vouched (applyTaskProgressToGate items g).
Proof. done. Qed.

Lemma sync_vouched items g : gate_vouched g → gate_vouched (sync_gate items g).
Proof. intros H. by apply reconcile_vouched, apply_tasks_vouched. Qed.

Lemma update_slice_vouched k f g :
  gate_vouched g → (∀ s, GateSliceState.id s = k → slice_vouched s → slice_vouched (f s)) → gate_vouched (update_slice k f g).
Proof.
  intros [Hs Hm] Hf. split; [|done]. cbn. apply Forall_update_first; [done|].
  intros s Hk%bool_decide_eq_true. by apply Hf.
Qed.

Lemma set_milestone_vouched k v g :
  gate_vouched g → (v = Some "passed" → Vm k) → gate_vouched (set_milestone_state k v g).
Proof.
  intros [Hs Hm] Hv. split; [done|]. cbn. apply Forall_update_first; [done|].
  intros m Hk%bool_decide_eq_true _. unfold milestone_vouched. cbn. by rewrite Hk.
Qed.

Lemma reset_slice_vouched k g : gate_vouched g → gate_vouched (resetSliceVerificationState k g).
Proof. intros H. by apply (update_slice_vouched k). Qed.

Lemma reset_milestone_vouched k g : gate_vouched g → gate_vouched (reset_milestone k g).
Proof.
  intros [Hs Hm]. split; [done|]. cbn. by apply Forall_update_first.
Qed.

Lemma reset_for_vouched plan k ids g : gate_vouched g → gate_vouched (reset_for_milestone plan k ids g).
Proof.
  intros H. apply reconcile_vouched, reset_milestone_vouched.
  generalize (affected_slices plan ids). intros l. revert g H.
  induction l as [|x l IH]; intros g H; [done|]. cbn. by apply IH, reset_slice_vouched.
Qed.

Lemma reopen_vouched ids g : gate_vouched g → gate_vouched (reopen_slices ids g).2.
Proof.
  revert g. induction ids as [|k ids IH]; intros g H; [done|]. cbn.
  destruct (reopenSliceVerificationForMissingVerdict k g) as [b g1] eqn:E.
  destruct (reopen_slices ids g1) as [l g2] eqn:E2. cbn. change g2 with (l, g2).2. rewrite <-E2. apply IH.
  unfold reopenSliceVerificationForMissingVerdict in E. repeat case_match; simplify_eq; try done.
  by apply (update_slice_vouched k).
Qed.

(** ** Saved and built gates *)

Lemma merge_vouched p g : gate_vouched g → saved_vouched (mergeVerificationProgress p g).
Proof.
  intros [Hs Hm]. split; cbn.
  - rewrite List.Forall_map. revert Hs. by apply Forall_impl.
  - rewrite List.Forall_map. revert Hm. by apply Forall_impl.
Qed.

Lemma built_vouched plan : gate_vouched (buildGateStates plan).
Proof.
  split; apply List.Forall_forall; cbn.
  - intros s (l & Hl & Hs)%in_concat. apply list_elem_of_In, elem_of_lookup_imap_1 in Hl as (i & m & -> & _).
    by apply list_elem_of_In, elem_of_lookup_imap_1 in Hs as (k & sl & -> & _).
  - intros m Hm. by apply list_elem_of_In, elem_of_lookup_imap_1 in Hm as (i & x & -> & _).
Qed.

Lemma keep_truthy_or (a b : option string) : keep_truthy a b = a ∨ keep_truthy a b = b.
Proof. unfold keep_truthy. case_match; auto. Qed.

Lemma apply_saved_vouched (v : verification_progress SliceRecord.t) g :
  Forall (λ r, sp_runtimeStatus r = Some "progress-ok" → Vs (sp_id r)) (vp_slices v) →
  Forall (λ r, mp_verificationStatus r = Some "passed" → Vm (mp_id r)) (vp_milestones v) →
  gate_vouched g → gate_vouched (applyVerificationProgress (Some v) g).
Proof.
  intros Hvs Hvm [Hs Hm]. split; cbn.
  - clear Hm Hvm. revert Hs. generalize (slices g). induction Hvs as [|r rs Hr Hrs IH]; intros ss Hs; [done|].
    cbn. apply IH. apply Forall_update_first; [done|]. intros s Hk%bool_decide_eq_true Hx. unfold slice_vouched. cbn.
    rewrite Hk. unfold slice_vouched in Hx. rewrite Hk in Hx.
    by destruct (keep_truthy_or (sp_runtimeStatus r) (GateSliceState.runtimeStatus s)) as [->| ->].
  - clear Hs Hvs. revert Hm. generalize (milestones g). induction Hvm as [|r rs Hr Hrs IH]; intros ms Hm; [done|].
    cbn. apply IH. apply Forall_update_first; [done|]. intros m Hk%bool_decide_eq_true Hx. unfold milestone_vouched. cbn.
    rewrite Hk. unfold milestone_vouched in Hx. rewrite Hk in Hx.
    by destruct (keep_truthy_or (mp_verificationStatus r) (GateMilestoneState.verificationStatus m)) as [->| ->].
Qed.

Lemma rebuilt_vouched plan g p items : gate_vouched g → gate_vouched (rebuildGatePreservingVerification plan g p items).
Proof.
  intros [Hs Hm]. apply apply_tasks_vouched, apply_saved_vouched; [| |apply built_vouched]; cbn.
  - rewrite List.Forall_map. revert Hs. by apply Forall_impl.
  - rewrite List.Forall_map. revert Hm. by apply Forall_impl.
Qed.
End vouch.

(** ** What a fenced update does to the rows *)

Lemma fenced_rows (now : Z) (J R : string) (p : patch JobContent.t) (s : stores) j' :
  j' ∈ jobs (updateJobRowFenced now J R p s).2 → ∃ j, j ∈ jobs s ∧ jb_id j = jb_id j' ∧ (j' = j ∨ j' = patch_row now p j).
Proof.
  assert (∀ t, j' ∈ jobs t → jobs t = jobs s ∨ jobs t = update_where (jobRowFence J R) (patch_row now p) (jobs s) →
    ∃ j, j ∈ jobs s ∧ jb_id j = jb_id j' ∧ (j' = j ∨ j' = patch_row now p j)) as Hcase.
  { intros t Hj [E|E]; rewrite E in Hj; [by eauto|].
    apply elem_of_update in Hj as (j & Hj & ->). destruct (jobRowFence J R j); eauto. }
  intros Hj. apply (Hcase _ Hj). clear Hj Hcase.
  unfold updateJobRowFenced, run_transaction, fenced_tx, tx_bind, tx_gets, tx_modify, tx_ret. cbn -[update_where].
  destruct (List.find _ _) as [j|]; cbn -[update_where]; [|by left].
  destruct (pt_columns p && _); cbn -[update_where]; [by left|by right].
Qed.

(** ** A job is completed only when it was verified *)

Section completion.
Context `{Sha256} `{FileSystem}.
Context (clock : nat → Z) (uuid : nat → string) (pr : process) (leaseTtl : Z).
Context (others : nat → host → host) (draining : nat → bool) (env : agents).
Context (U J R : string) (As Am : string → Prop).

(** It was accepted before, or its verifier accepts it. *)
Definition slice_accepted (k : string) : Prop :=
  As k ∨ ∃ t v, ag_sliceVerifier env t k = VerdictGiven v ∧ SliceVerdict.status v = "progress-ok".
Definition milestone_accepted (k : string) : Prop :=
  Am k ∨ ∃ t v, ag_milestoneVerifier env t k = VerdictGiven v ∧ MilestoneVerdict.status v = "passed".

Notation vouched := (gate_vouched slice_accepted milestone_accepted).
Notation saved := (saved_vouched slice_accepted milestone_accepted).

Definition open_row (j : job) : Prop :=
  jb_status j ≠ "completed" ∧ saved (JobContent.taskProgress (jb_content j)).

(** The job is not completed, and what its progress says was accepted. *)
Definition unfinished (h : host) : Prop := ∀ j, j ∈ h_jobs h → jb_id j = J → open_row j.

Context (Hothers : ∀ n h, unfinished h → unfinished (others n h)).

Definition safe {A} (m : exM A) (Q : A → Prop) : Prop :=
  ∀ h, unfinished h → unfinished (m h).2 ∧ ∀ a, (m h).1 = Returned (Ok a) → Q a.

Lemma safe_ret {A} (a : A) (Q : A → Prop) : Q a → safe (ex_ret a) Q.
Proof. intros HQ h Hh. split; [done|]. cbn. intros b [= ->]. done. Qed.

Lemma safe_throw {A} e (Q : A → Prop) : safe (ex_throw e) Q.
Proof. by intros h Hh. Qed.

Lemma safe_then {A B} (m : exM A) (k : result thrown A → exM B) (Q : A → Prop) (Q' : B → Prop) :
  safe m Q → (∀ r, (∀ a, r = Ok a → Q a) → safe (k r) Q') → safe (act_bind m k) Q'.
Proof.
  intros Hm Hk h Hh. destruct (Hm h Hh) as [H1 H2]. unfold act_bind. destruct (m h) as [[r| |] h1]; cbn in *; try done.
  apply Hk; [|done]. intros a ->. by apply H2.
Qed.

Lemma safe_bind {A B} (m : exM A) (k : A → exM B) (Q : A → Prop) (Q' : B → Prop) :
  safe m Q → (∀ a, Q a → safe (k a) Q') → safe (ex_bind m k) Q'.
Proof.
  intros Hm Hk. apply (safe_then _ _ Q); [done|]. intros [a|e] Hr; [by apply Hk, Hr|]. apply safe_throw.
Qed.

Lemma safe_catch {A} (m : exM A) k (Q : A → Prop) : safe m Q → (∀ e, safe (k e) Q) → safe (ex_catch m k) Q.
Proof.
  intros Hm Hk. apply (safe_then _ _ Q); [done|]. intros [a|e] Hr; [|done]. apply safe_ret. by apply Hr.
Qed.

Lemma safe_reads {A} (f : host → A) (Q : A → Prop) : (∀ h, unfinished h → Q (f h)) → safe (ex_gets f) Q.
Proof. intros HQ h Hh. split; [done|]. cbn. intros a [= <-]. by apply HQ. Qed.

Lemma safe_gets {A} (f : host → A) (Q : A → Prop) : (∀ h, Q (f h)) → safe (ex_gets f) Q.
Proof. intros HQ. apply safe_reads. auto. Qed.

Lemma safe_weaken {A} (m : exM A) (Q Q' : A → Prop) : safe m Q → (∀ a, Q a → Q' a) → safe m Q'.
Proof. intros Hm HQ h Hh. destruct (Hm h Hh) as [H1 H2]. auto. Qed.

(** Code that leaves the row alone. *)
Lemma safe_other {A} (m : exM A) (Q : A → Prop) :
  (∀ h, h_jobs (m h).2 = h_jobs h) → (∀ h a, (m h).1 = Returned (Ok a) → Q a) → safe m Q.
Proof. intros Hm HQ h Hh. split; [|by apply HQ]. intros j. rewrite Hm. apply Hh. Qed.

Lemma safe_point : safe (point others) (λ _, True).
Proof.
  intros h Hh. split; [|done]. unfold point, ex_lift, act_catch, act_bind, ask, act_modify, act_ret, act_raise. cbn.
  repeat case_match; simplify_eq; cbn; try done; by apply Hothers.
Qed.

Lemma safe_ledger {A} (f : Z → ledger → result string A * ledger) : safe (on_ledger clock f) (λ _, True).
Proof. apply safe_other; [|done]. intros h. unfold on_ledger. by case_match. Qed.

Lemma safe_modify f : (∀ h, h_jobs (f h) = h_jobs h) → safe (ex_modify f) (λ _, True).
Proof. intros Hf. by apply safe_other. Qed.

(** A patch that neither completes the job nor accepts more. *)
Definition harmless (p : patch JobContent.t) : Prop :=
  pt_status p ≠ Some "completed" ∧
  ∀ c, saved (JobContent.taskProgress c) → saved (JobContent.taskProgress (pt_content p c)).

Lemma harmless_row now p j : harmless p → open_row j → open_row (patch_row now p j).
Proof.
  intros [Hst Hc] [H1 H2]. split; cbn; [|by apply Hc]. destruct (pt_status p) as [st|]; cbn; [|done]. congruence.
Qed.

Lemma safe_write items p : harmless p → safe (fenced_write clock others env J R items p) (λ _, True).
Proof.
  intros Hp. apply (safe_bind _ _ (λ _, True)); [apply safe_point|]. intros _ _.
  apply (safe_bind _ _ (λ _, True)); [by apply safe_gets|]. intros w _. destruct w; cbn; [|by apply safe_ret].
  apply (safe_bind _ _ (λ _, True)); [apply safe_point|]. intros _ _.
  intros h Hh. split; [|done].
  pose proof (fenced_rows (now clock h) J R p (h_work h)) as Hw.
  destruct (updateJobRowFenced _ _ _ _ _) as [[[o|]|e] s]; [destruct items|..]; cbn in Hw |- *; intros j Hj Hid.
  all: apply Hw in Hj as (j0 & Hj0 & Hid0 & [->| ->]); [by apply Hh|]; apply harmless_row; [done|]; apply Hh; [done|]; congruence.
Qed.

Lemma safe_persist p q g :
  vouched g → pt_status q ≠ Some "completed" → safe (persistTaskProgress clock others env J R p q g) (λ _, True).
Proof.
  intros Hg Hq. apply safe_write. split; [done|]. intros c _. cbn. by apply merge_vouched.
Qed.

Lemma safe_persist_plan plan p q :
  saved p → pt_status q ≠ Some "completed" → safe (persistPlanAndProgress clock others env J R plan p q) (λ _, True).
Proof. intros Hp Hq. by apply safe_write. Qed.

Create HintDb safe.
#[local] Hint Resolve safe_ret safe_throw safe_point safe_ledger safe_modify safe_write safe_persist safe_persist_plan
  reconcileMilestone_vouched reconcile_vouched sync_vouched merge_vouched rebuilt_vouched reset_slice_vouched reset_for_vouched : safe.
#[local] Hint Extern 4 (safe (ex_gets _) _) => apply (safe_gets _ (λ _, True)); done : safe.
#[local] Hint Extern 2 (pt_status _ ≠ _) => done : safe.

(** One step through the code. *)
Ltac safe_step :=
  lazymatch goal with
  | |- safe (ex_ret _) _ => apply safe_ret
  | |- safe (ex_throw _) _ => apply safe_throw
  | |- safe (ex_bind _ _) _ => eapply safe_bind; [solve [eauto with safe]|cbv beta; intros ? ?]
  | |- safe (if ?b then _ else _) _ => destruct b eqn:?
  | |- safe (let '(_, _) := ?r in _) _ => destruct r eqn:?
  | |- safe (match ?x with _ => _ end) _ => destruct x eqn:?
  end.

Lemma safe_fail p items g code params e :
  vouched g → safe (failJobWithProgress clock others env J R p items g code params e) (λ _, True).
Proof. intros Hg. unfold failJobWithProgress. by repeat safe_step. Qed.
#[local] Hint Resolve safe_fail : safe.

Lemma safe_stop_turn : safe (pauseJobExecution J) (λ _, True).
Proof.
  apply safe_other; [|done]. intros h. unfold pauseJobExecution, ex_lift, stop_turn, act_catch, act_bind, update_loops, act_modify, act_ret.
  cbn. repeat case_match; simplify_eq; cbn; done.
Qed.
#[local] Hint Resolve safe_stop_turn : safe.

Lemma safe_finalize p items g :
  vouched g → safe (finalizeExecutionPause clock others env J R p items g) (λ _, True).
Proof. intros Hg. unfold finalizeExecutionPause. repeat safe_step. apply safe_stop_turn. Qed.
#[local] Hint Resolve safe_finalize : safe.

(** *** Verifications *)

Lemma safe_verification {V} (status summary : V → string) accepting (ends : nat → string → verifier_end V) scope k (P : Prop) :
  (∀ t v, ends t k = VerdictGiven v → status v = accepting → P) →
  safe (run_verification others env status summary accepting ends scope k) (λ v, vf_ok v = true → P).
Proof.
  intros HP. unfold run_verification. safe_step. safe_step. safe_step; [|safe_step]. safe_step.
  eapply safe_bind; [apply (safe_gets _ (λ e, ∃ t, e = ends t k)); intros h; by eexists|].
  intros e [t He]. apply safe_ret. destruct e as [m|v|m]; [done| |done].
  case_bool_decide; [|done]. intros _. by eapply HP.
Qed.

Lemma safe_slice_verification k : safe (runSliceVerification others env k) (λ v, vf_ok v = true → slice_accepted k).
Proof. apply safe_verification. intros t v ? ?. right. by exists t, v. Qed.

Lemma safe_milestone_verification k :
  safe (runMilestoneVerification others env k) (λ v, vf_ok v = true → milestone_accepted k).
Proof. apply safe_verification. intros t v ? ?. right. by exists t, v. Qed.

Lemma safe_resilient {V} (P : Prop) (run : string → exM (verification V)) fuel scope k items g p :
  (∀ k', k' = k → safe (run k') (λ v, vf_ok v = true → P)) → vouched g →
  safe (run_resilient clock others env J R fuel run scope k items g p) (λ r, vf_ok r.1 = true → P).
Proof.
  intros Hrun Hg. revert p. induction fuel as [|fuel IH]; intros p; cbn -[resolveVerifierInfraRecovery]; [apply safe_throw|].
  eapply safe_bind; [by apply Hrun|]. cbv beta. intros raw Hraw.
  match goal with |- safe (if vf_ok ?x || _ then _ else _) _ =>
    assert (vf_ok x = true → P) as Hv by (by destruct (vf_ok raw && _)); generalize dependent x; intros v Hv end.
  safe_step; [by apply safe_ret|]. safe_step; [|by apply safe_ret]. safe_step. apply IH.
Qed.

(** *** Repairs *)

Definition repair_vouched (m : planM repair_outcome) : Prop :=
  ∀ plan items p g persisted plan', m plan = (Ok (RepairOk items p g persisted), plan') → vouched g ∧ saved persisted.

Lemma repair_ret (r : repair_outcome) : (∀ items p g q, r = RepairOk items p g q → vouched g ∧ saved q) → repair_vouched (pl_ret r).
Proof. intros Hr plan items p g q plan' [= -> _]. by eapply Hr. Qed.

Lemma repair_bind {A} (m : planM A) k : (∀ a, repair_vouched (k a)) → repair_vouched (pl_bind m k).
Proof.
  intros Hk plan items p g q plan'. unfold pl_bind. destruct (m plan) as [[a|e] plan1]; [apply Hk|done].
Qed.

Ltac repair_step :=
  lazymatch goal with
  | |- repair_vouched (pl_bind _ _) => apply repair_bind; intros ?
  | |- repair_vouched (pl_ret _) => apply repair_ret; intros; simplify_eq; try done
  | |- repair_vouched (if ?b then _ else _) => destruct b
  end.

Lemma persisted_vouched p g : vouched g → saved (persisted_progress p g).
Proof. intros Hg. by apply (merge_vouched _ _ p). Qed.
#[local] Hint Resolve persisted_vouched : safe.

Lemma slice_repair_vouched k v items p g : vouched g → repair_vouched (handleSliceNeedsRepair k v items p g).
Proof. intros Hg. unfold handleSliceNeedsRepair. repeat repair_step. split; eauto 6 with safe. Qed.
Lemma milestone_repair_vouched k v items p g : vouched g → repair_vouched (handleMilestoneNeedsRepair k v items p g).
Proof. intros Hg. unfold handleMilestoneNeedsRepair. repeat repair_step. split; eauto 6 with safe. Qed.
Lemma slice_evidence_vouched k r n b items p g : vouched g → repair_vouched (handleSliceEvidenceRepair k r n b items p g).
Proof. intros Hg. unfold handleSliceEvidenceRepair. repeat repair_step. split; eauto 6 with safe. Qed.
Lemma milestone_evidence_vouched k r n b items p g : vouched g → repair_vouched (handleMilestoneEvidenceRepair k r n b items p g).
Proof. intros Hg. unfold handleMilestoneEvidenceRepair. repeat repair_step. split; eauto 6 with safe. Qed.
#[local] Hint Resolve slice_repair_vouched milestone_repair_vouched slice_evidence_vouched milestone_evidence_vouched : safe.

(** A step leaves a gate that is vouched for. *)
Definition step_vouched (r : LoopStepAction * loop_ctx) : Prop := vouched (cx_gate r.2).

Lemma safe_after_repair c k p g m :
  vouched g → repair_vouched m → safe (after_repair clock others env J R c k p g m) step_vouched.
Proof.
  intros Hg Hm. unfold after_repair, on_plan. destruct (m (cx_plan c)) as [[[items' p' g' q|code params]|e] plan'] eqn:E; [| |].
  - destruct (Hm _ _ _ _ _ _ E) as [Hg' Hq]. eapply safe_bind; [by apply (safe_ret _ (λ r, r = (RepairOk items' p' g' q, plan')))|].
    cbv beta. intros r ->. cbv beta iota. safe_step. by apply safe_ret.
  - eapply safe_bind; [by apply (safe_ret _ (λ r, r = (RepairRefused code params, plan')))|].
    cbv beta. intros r ->. cbv beta iota. safe_step. by apply safe_ret.
  - eapply safe_bind; [apply (safe_throw _ (λ _, False))|]. done.
Qed.
#[local] Hint Resolve safe_after_repair : safe.

(** *** The steps *)

Lemma slice_state_vouched k runtime verification g :
  vouched g → runtime ≠ Some "progress-ok" → vouched (update_slice k (set_slice_state runtime verification) g).
Proof. intros Hg Hr. apply update_slice_vouched; [done|]. by intros s _ _ [=]. Qed.

Lemma verifying_vouched k g : vouched g → vouched (update_slice k (GateSliceState.set_runtimeStatus (Some "verifying")) g).
Proof. intros Hg. by apply update_slice_vouched. Qed.
#[local] Hint Resolve verifying_vouched : safe.
#[local] Hint Extern 2 (gate_vouched _ _ (update_slice _ (set_slice_state _ _) _)) => apply slice_state_vouched; [|done] : safe.
#[local] Hint Extern 2 (gate_vouched _ _ (set_milestone_state _ _ _)) => apply set_milestone_vouched; [|done] : safe.

Lemma safe_slice_refused c k hash v p g :
  vouched g → safe (slice_refused clock others env J R c k hash v p g) step_vouched.
Proof.
  intros Hg. unfold slice_refused. cbv zeta.
  repeat first [solve [eauto with safe]|safe_step]; unfold step_vouched; cbn; eauto with safe.
Qed.
#[local] Hint Resolve safe_slice_refused : safe.

Lemma safe_slice_step c : vouched (cx_gate c) → safe (processSliceVerificationStep clock others env J R c) step_vouched.
Proof.
  intros Hg. unfold processSliceVerificationStep. cbv zeta. safe_step; [|by apply safe_ret].
  safe_step; [|safe_step; apply safe_ret; unfold step_vouched; cbn; eauto with safe].
  safe_step; [repeat safe_step; unfold step_vouched; cbn; eauto with safe|]. safe_step.
  eapply safe_bind; [apply safe_resilient; [intros k' ->; apply safe_slice_verification|eauto with safe]|].
  cbv beta. intros [v p1] Hv. cbn in Hv. destruct (vf_ok v) eqn:Eok; cbn; [|eauto with safe].
  assert (vouched (reconcileMilestoneStatuses (update_slice (GateSliceState.id t) (set_slice_state (Some "progress-ok") (Some "passed"))
    (update_slice (GateSliceState.id t) (GateSliceState.set_runtimeStatus (Some "verifying")) (cx_gate c))))) as Hg2.
  { apply reconcileMilestone_vouched, update_slice_vouched; [eauto with safe|]. intros s Hk _ _. cbn. rewrite Hk. by apply Hv. }
  safe_step. by apply safe_ret.
Qed.

Lemma safe_milestone_refused c k hash v p g :
  vouched g → safe (milestone_refused clock others env J R c k hash v p g) step_vouched.
Proof.
  intros Hg. unfold milestone_refused. cbv zeta.
  repeat first [solve [eauto with safe]|safe_step]; unfold step_vouched; cbn; eauto with safe.
Qed.
#[local] Hint Resolve safe_milestone_refused : safe.

Lemma safe_milestone_step c : vouched (cx_gate c) → safe (processMilestoneVerificationStep clock others env J R c) step_vouched.
Proof.
  intros Hg. unfold processMilestoneVerificationStep. cbv zeta. safe_step; [|by apply safe_ret].
  safe_step; cycle 1.
  { match goal with |- context [reopen_slices ?l ?g] => pose proof (reopen_vouched slice_accepted milestone_accepted l g Hg) as Hr end.
    safe_step. cbn in Hr. safe_step; safe_step; apply safe_ret; unfold step_vouched; cbn; eauto with safe. }
  safe_step; [repeat safe_step; unfold step_vouched; cbn; eauto with safe|]. safe_step.
  eapply safe_bind; [apply safe_resilient; [intros k' ->; apply safe_milestone_verification|eauto with safe]|].
  cbv beta. intros [v p1] Hv. cbn in Hv. destruct (vf_ok v) eqn:Eok; cbn; [|eauto with safe].
  assert (vouched (set_milestone_state (GateMilestoneState.id t) (Some "passed")
    (set_milestone_state (GateMilestoneState.id t) (Some "verifying") (cx_gate c)))) as Hg2.
  { apply set_milestone_vouched; [eauto with safe|]. intros _. by apply Hv. }
  safe_step. by apply safe_ret.
Qed.

(** *** Tasks *)

Definition result_vouched (r : ExecuteSingleTaskResult) : Prop :=
  match r with TaskRecovered _ _ _ _ g _ => vouched g | _ => True end.

Definition task_vouched (m : planM ExecuteSingleTaskResult) : Prop :=
  ∀ plan r plan', m plan = (Ok r, plan') → result_vouched r.

Lemma task_ret r : result_vouched r → task_vouched (pl_ret r).
Proof. intros Hr plan r' plan' [= <- _]. done. Qed.

Lemma task_bind {A} (m : planM A) k : (∀ a, task_vouched (k a)) → task_vouched (pl_bind m k).
Proof. intros Hk plan r plan'. unfold pl_bind. destruct (m plan) as [[a|e] plan1]; [apply Hk|done]. Qed.

Lemma recovered_vouched taskId step code params delay kt g p items :
  vouched g → task_vouched (recovered taskId step code params delay kt g p items).
Proof. intros Hg. apply task_bind. intros plan. apply task_ret. cbn. eauto with safe. Qed.

Lemma outcome_vouched items taskId packet p g :
  vouched g → task_vouched (processTaskEvidenceOutcome items taskId packet p g).
Proof.
  intros Hg. unfold processTaskEvidenceOutcome. case_match; [by apply task_ret|]. cbv zeta.
  case_match; try (by apply task_ret); first [by apply recovered_vouched|do 2 (apply task_bind; intros ?); by apply recovered_vouched].
Qed.

Lemma miss_vouched items taskId p g message e :
  vouched g → task_vouched (buildTaskInfraRecoveryResult items taskId p g message e).
Proof.
  intros Hg. unfold buildTaskInfraRecoveryResult. cbv zeta. case_match; try (by apply task_ret). by apply recovered_vouched.
Qed.
#[local] Hint Resolve outcome_vouched miss_vouched : safe.

Lemma safe_on_plan m plan : task_vouched m → safe (on_plan m plan) (λ r, result_vouched r.1).
Proof.
  intros Hm. unfold on_plan. destruct (m plan) as [[r|e] plan'] eqn:E; [|apply safe_throw]. apply safe_ret. by eapply Hm.
Qed.
#[local] Hint Resolve safe_on_plan : safe.

Lemma safe_stop : safe (shouldStop J) (λ _, True).
Proof. by apply safe_gets. Qed.
Lemma safe_draining : safe (isDraining draining J) (λ _, True).
Proof.
  apply safe_other; [|done]. intros h. unfold isDraining, sees_draining, ex_lift, act_catch, act_bind, act_ret. cbn. by case_match.
Qed.
#[local] Hint Resolve safe_stop safe_draining : safe.

Lemma safe_turn_threw c taskId items timedOut e :
  vouched (cx_gate c) → safe (turn_threw draining J c taskId items timedOut e) (λ r, result_vouched r.1).
Proof.
  intros Hg. unfold turn_threw. cbv zeta. repeat first [solve [eauto with safe]|safe_step]; done.
Qed.

Lemma safe_turn_reported c taskId items report :
  vouched (cx_gate c) → safe (turn_reported c taskId items report) (λ r, result_vouched r.1).
Proof.
  intros Hg. unfold turn_reported. destruct report as [packet|e]; [|eauto with safe].
  destruct (processTaskEvidenceOutcome _ _ _ _ _ _) as [[r|e] plan'] eqn:E; [|eauto with safe].
  apply safe_ret. by eapply outcome_vouched.
Qed.
#[local] Hint Resolve safe_turn_threw safe_turn_reported : safe.

Lemma safe_stream n : safe (stream_turn others J n) (λ _, True).
Proof.
  induction n as [|n IH]; cbn.
  - safe_step. by apply safe_ret.
  - safe_step. eapply safe_bind; [apply safe_stop|]. intros [[]|] _; [apply safe_throw|apply safe_throw|apply IH].
Qed.

Lemma safe_under_lease path m : safe m (λ _, True) → safe (under_lease clock uuid leaseTtl others J R path m) (λ _, True).
Proof.
  intros Hm. unfold under_lease. safe_step. eapply (safe_bind _ _ (λ _, True)).
  - apply safe_other; [|done]. intros h. by case_match.
  - intros [l|] _; [done|]. safe_step. apply safe_throw.
Qed.

Lemma safe_agent_turn path t : safe (agent_turn_of clock uuid leaseTtl others J R path t) (λ _, True).
Proof.
  unfold agent_turn_of. apply (safe_then _ _ (λ _, True)); [apply safe_under_lease, safe_stream|].
  intros [u|e] _; [|by apply safe_ret]. destruct (tn_end t) as [packet|e'|e' timedOut]; try (by apply safe_ret).
  2:{ eapply (safe_bind _ _ (λ _, True)); [apply safe_modify; intros h; by case_match|]. intros _ _. by apply safe_ret. }
  apply (safe_then _ _ (λ _, True)); [apply safe_point|]. intros r _. by apply safe_ret.
Qed.

Lemma safe_references taskId : safe (references_of others env taskId) (λ _, True).
Proof.
  unfold references_of. safe_step; [by apply safe_ret|].
  apply (safe_then _ _ (λ _, True)); [apply safe_point|]. intros [u|e] _; [by apply safe_gets|by apply safe_ret].
Qed.
#[local] Hint Resolve safe_agent_turn safe_references : safe.

Lemma safe_execute c taskId key :
  vouched (cx_gate c) →
  safe (executeSingleTask clock uuid leaseTtl others draining env J R c taskId key) (λ r, result_vouched r.1).
Proof.
  intros Hg. unfold executeSingleTask. cbv zeta. repeat first [solve [eauto with safe]|safe_step]; done.
Qed.

Lemma safe_fail_attempt taskId n e : safe (fail_attempt clock J taskId n e) (λ _, True).
Proof. apply safe_ledger. Qed.
Lemma safe_commit taskId n items : safe (commit_attempt clock env J taskId n items) (λ _, True).
Proof. unfold commit_attempt. by repeat safe_step. Qed.
Lemma safe_reload old : safe (reload others U J old) (λ _, True).
Proof. unfold reload. safe_step. by apply safe_gets. Qed.
#[local] Hint Resolve safe_fail_attempt safe_commit safe_reload : safe.

Lemma safe_task_result c plan taskId n r :
  vouched (cx_gate c) → result_vouched r →
  safe (task_result clock others env U J R c plan taskId n r) step_vouched.
Proof.
  intros Hg Hr. unfold task_result. destruct r as [items|items code params p g d|items e p|items|items e]; cbn in Hr.
  - safe_step. repeat case_match; unfold completed_in_pause, task_completed; cbv zeta; repeat safe_step; done.
  - unfold task_recovered. repeat safe_step. done.
  - unfold task_paused. repeat safe_step. done.
  - by apply safe_ret.
  - safe_step. repeat case_match; unfold failed_in_pause, task_failed; cbv zeta; repeat safe_step; done.
Qed.

Lemma safe_next_task c :
  vouched (cx_gate c) → safe (processNextTaskStep clock uuid leaseTtl others draining env U J R c) step_vouched.
Proof.
  intros Hg. assert (∀ c taskId e, vouched (cx_gate c) → safe (begin_failed clock others env J R c taskId e) step_vouched) as Hbegin.
  { intros c' taskId e Hg'. unfold begin_failed. by repeat safe_step. }
  assert (∀ taskId n key started, safe (run_task clock uuid leaseTtl others draining env U J R c taskId n key started) step_vouched) as Hrun.
  { intros taskId n key started. unfold run_task. cbv zeta.
    assert (∀ items, vouched (match findFlatTask (cx_plan c) taskId with Some _ => sync_gate items (cx_gate c) | None => cx_gate c end)) as Hg'.
    { intros items. case_match; eauto with safe. }
    safe_step. eapply (safe_bind _ _ (λ _, True)); [destruct started; [apply safe_ledger|by apply safe_ret]|]. intros _ _.
    eapply safe_bind; [apply safe_execute, Hg'|]. cbv beta. intros r Hr. apply safe_task_result; [apply Hg'|done]. }
  unfold processNextTaskStep. safe_step; [|apply safe_throw]. safe_step; [|unfold no_next_task; by repeat safe_step].
  cbv zeta. apply (safe_then _ _ (λ _, True)); [intros h Hh; by apply safe_ledger|].
  intros [[]|e] _; [|unfold blocked_uncertain|by apply Hrun|by apply Hrun|by apply Hbegin].
  - apply safe_catch; [repeat safe_step|intros e; apply Hbegin]; unfold step_vouched; cbn; eauto with safe.
  - apply safe_catch; [by repeat safe_step|]. intros e. by apply Hbegin.
Qed.

(** *** The whole loop *)

(** Everything is accepted, for a reason. *)
Definition verified (p : TaskProgress.t) : Prop :=
  TaskProgress.milestones p ≠ [] ∧
  Forall (λ r, mp_verificationStatus r = Some "passed" ∧ milestone_accepted (mp_id r)) (TaskProgress.milestones p) ∧
  Forall (λ r, sp_runtimeStatus r = Some "progress-ok" ∧ slice_accepted (sp_id r)) (TaskProgress.slices p).

Definition sound (h : host) : Prop :=
  ∀ j, j ∈ h_jobs h → jb_id j = J → jb_status j = "completed" → verified (JobContent.taskProgress (jb_content j)).

Lemma unfinished_sound h : unfinished h → sound h.
Proof. intros Hh j Hj Hid Hst. by destruct (Hh j Hj Hid) as [? _]. Qed.

Definition ends_sound {A} (m : exM A) : Prop := ∀ h, unfinished h → sound (m h).2.

Lemma safe_sound {A} (m : exM A) Q : safe m Q → ends_sound m.
Proof. intros Hm h Hh. by apply unfinished_sound, Hm. Qed.

Lemma sound_bind {A B} (m : exM A) (k : A → exM B) Q :
  safe m Q → (∀ a, Q a → ends_sound (k a)) → ends_sound (ex_bind m k).
Proof.
  intros Hm Hk h Hh. destruct (Hm h Hh) as [H1 H2]. unfold ex_bind, act_bind.
  destruct (m h) as [[[a|e]| |] h1]; cbn in *; try by apply unfinished_sound. apply Hk; auto.
Qed.

Lemma complete_verified p g : isWorkflowComplete g = true → vouched g → verified (mergeVerificationProgress p g).
Proof.
  unfold isWorkflowComplete. intros [[Hne Hm]%andb_true_iff Hs]%andb_true_iff [Hvs Hvm].
  rewrite List.forallb_forall in Hm, Hs. rewrite List.Forall_forall in Hvs, Hvm. split_and!; cbn.
  - intros E. rewrite negb_true_iff, bool_decide_eq_false in Hne. apply Hne. by destruct (milestones g).
  - apply List.Forall_map, List.Forall_forall. intros m Hin. cbn. pose proof (Hm m Hin) as E%bool_decide_eq_true.
    split; [done|]. by apply Hvm.
  - apply List.Forall_map, List.Forall_forall. intros s Hin. cbn. pose proof (Hs s Hin) as E%bool_decide_eq_true.
    split; [done|]. by apply Hvs.
Qed.

Lemma completion_sound items g p :
  isWorkflowComplete g = true → vouched g → ends_sound (handleWorkflowCompletion clock others env J R items g p).
Proof.
  intros Hc Hg. pose proof (complete_verified (buildCompletedProgress items p) g Hc Hg) as Hv.
  unfold handleWorkflowCompletion, persistTaskProgress, fenced_write. intros h Hh. revert h Hh.
  assert (∀ (m : exM bool), ends_sound m → ends_sound (do^ m in ex_ret tt)) as Hthen.
  { intros m Hm h Hh. specialize (Hm h Hh). unfold ex_bind, act_bind. by destruct (m h) as [[[a|e]| |] h1]. }
  apply Hthen. eapply sound_bind; [apply safe_point|]. intros _ _.
  eapply sound_bind; [by apply (safe_gets _ (λ _, True))|]. intros [] _; cbn; [|by eapply safe_sound, (safe_ret _ (λ _, True))].
  eapply sound_bind; [apply safe_point|]. intros _ _ h Hh.
  match goal with |- context [updateJobRowFenced ?n _ _ ?q _] => pose proof (fenced_rows n J R q (h_work h)) as Hw end.
  destruct (updateJobRowFenced _ _ _ _ _) as [[[o|]|e] s]; cbn in Hw |- *; intros j Hj Hid Hst.
  all: apply Hw in Hj as (j0 & Hj0 & Hid0 & [->| ->]); [by destruct (Hh j0 Hj0 Hid)|exact Hv].
Qed.

Lemma safe_refresh : safe (refresh_lease clock pr J) (λ _, True).
Proof.
  intros h Hh. split; [|done]. intros j Hj Hid.
  unfold refresh_lease, ex_modify, h_jobs, refreshExecutionLease in Hj. cbn -[update_where] in Hj.
  apply elem_of_update in Hj as (j0 & Hj0 & ->). revert Hid. case_match; by apply (Hh j0).
Qed.

Lemma run_loop_sound fuel c prev n :
  vouched (cx_gate c) → ends_sound (run_loop clock uuid pr leaseTtl others draining env U J R fuel c prev n).
Proof.
  revert c prev n. induction fuel as [|fuel IH]; intros c prev n Hg; cbn -[stagnation].
  { by eapply safe_sound, (safe_ret _ (λ _, True)). }
  eapply sound_bind; [apply safe_refresh|]. intros _ _. eapply sound_bind; [apply safe_draining|]. intros d _.
  destruct d.
  { eapply safe_sound, (safe_bind _ _ (λ _, True)); [|intros; by apply (safe_ret _ (λ _, True))].
    unfold interrupt_attempts. apply (safe_then _ _ (λ _, True)); [|intros r _; by apply safe_ret].
    safe_step. apply safe_ledger. }
  eapply sound_bind; [apply safe_stop|]. intros [[]|] _.
  - eapply safe_sound, (safe_bind _ _ (λ _, True)); [by apply safe_finalize|]. intros; by apply (safe_ret _ (λ _, True)).
  - by eapply safe_sound, (safe_ret _ (λ _, True)).
  - assert (vouched (cx_gate (synced c))) as Hg' by (cbn; eauto with safe). case_match.
    { eapply safe_sound, (safe_bind _ _ (λ _, True)); [by apply safe_fail|]. intros; by apply (safe_ret _ (λ _, True)). }
    case_match.
    { intros h Hh. pose proof (completion_sound (cx_items c) (sync_gate (cx_items c) (cx_gate c)) (cx_progress c) ltac:(done) Hg' h Hh).
      unfold ex_bind, act_bind. by destruct (handleWorkflowCompletion _ _ _ _ _ _ _ _ h) as [[[]| |] h1]. }
    eapply sound_bind with (Q := step_vouched).
    + unfold loop_steps. eapply safe_bind; [by apply safe_slice_step|]. intros [a c1] Hc1. cbn. destruct a; [by apply safe_ret..|].
      eapply safe_bind; [by apply safe_milestone_step|]. intros [a c2] Hc2. cbn. destruct a; [by apply safe_ret..|].
      by apply safe_next_task.
    + intros [a c1] Hc1. cbn. destruct a; [by apply IH| |by apply IH]. by eapply safe_sound, (safe_ret _ (λ _, True)).
Qed.

(** *** The start *)

Lemma reset_gate_vouched g : vouched g → vouched (resetInterruptedGateVerification g).2.
Proof.
  intros [Hs Hm]. split; cbn; apply Forall_map_keep; try done.
  - intros s Hx. unfold slice_vouched. cbn. unfold reset_verifying. case_match; [done|apply Hx].
  - intros m Hx. unfold milestone_vouched. cbn. unfold reset_verifying. case_match; [done|apply Hx].
Qed.

Lemma initial_vouched plan p : saved p → vouched (initial_state plan p).2.
Proof.
  intros [Hs Hm]. unfold initial_state.
  assert (vouched (applyVerificationProgress (Some (mkVerificationProgress (TaskProgress.slices p) (TaskProgress.milestones p)))
    (buildGateStates plan))) as Hg by (apply apply_saved_vouched; [done..|apply built_vouched]).
  pose proof (reset_gate_vouched _ Hg) as Hg'. destruct (resetInterruptedGateVerification _) as [[] g']; cbn in Hg'.
  - cbn. by apply sync_vouched.
  - destruct (resetInterruptedRunningTasks _) as [[] items']; cbn; [by apply sync_vouched|done].
Qed.

Definition loaded_saved (l : loaded) : Prop := saved (JobContent.taskProgress (jb_content (ld_row l))).

Lemma loaded_is_saved h l : unfinished h → load_job U J h = Some l → loaded_saved l.
Proof.
  intros Hh. unfold load_job. destruct (getUserJob U J h) as [j|] eqn:E; cbn; [|done]. intros [= <-].
  apply List.find_some in E as [Hin%list_elem_of_In [Hid%bool_decide_eq_true _]%andb_true_iff]. by apply (Hh j).
Qed.

Lemma safe_initialize :
  safe (initializeExecutionState clock pr others env U J R) (λ o, ∀ c, o = Some c → vouched (cx_gate c)).
Proof.
  unfold initializeExecutionState. do 2 safe_step. safe_step; [|by apply safe_ret]. do 2 safe_step.
  safe_step; [|by apply safe_ret]. safe_step; [by apply safe_ret|]. safe_step.
  eapply safe_bind; [apply (safe_reads _ (λ o, ∀ l, o = Some l → loaded_saved l)); intros h Hh l; by apply loaded_is_saved|].
  cbv beta. intros [l|] Hl; [|by apply safe_ret]. specialize (Hl l eq_refl). cbv zeta.
  safe_step; [apply safe_throw|]. safe_step; [by apply safe_ret|].
  eapply (safe_bind _ _ (λ _, True)).
  { safe_step; [by apply safe_modify|]. eapply (safe_bind _ _ (λ _, True)); [by apply safe_write|]. intros; by apply safe_ret. }
  intros _ _. eapply safe_bind; [apply safe_refresh|]. intros _ _.
  eapply (safe_bind _ _ loaded_saved).
  { unfold reload. safe_step. apply safe_reads. intros h Hh. destruct (load_job U J h) as [l'|] eqn:E; cbn; [by eapply loaded_is_saved|done]. }
  intros l' Hl'. pose proof (initial_vouched t _ Hl') as Hg. destruct (initial_state _ _) as [[[rec items] p] g]. cbn in Hg.
  eapply (safe_bind _ _ (λ _, True)).
  { destruct rec; [|by apply safe_ret]. eapply (safe_bind _ _ (λ _, True)); [|intros; by apply safe_ret].
    apply safe_persist; [done|]. by case_match. }
  intros _ _. apply safe_ret. by intros c [= <-].
Qed.

(** C4: The executor completes a job only after verification: whatever agents report and
    verifiers answer, whatever calls fail and whatever other code does in between short of
    completing the job itself, when the execution loop leaves the job completed then it has
    milestones, every milestone is passed and every slice is progress-ok, and each of them
    either was accepted before the loop started or got an accepting verdict from its verifier. *)
Theorem completed_jobs_were_verified (fuel : nat) (h : host) :
  unfinished h → sound (runExecutionLoop clock uuid pr leaseTtl others draining env U J R fuel h).2.
Proof.
  revert h. change (ends_sound (runExecutionLoop clock uuid pr leaseTtl others draining env U J R fuel)).
  eapply sound_bind; [apply safe_initialize|]. cbv beta. intros [c|] Hc; [by apply run_loop_sound, Hc|].
  by eapply safe_sound, (safe_ret _ (λ _, True)).
Qed.
End completion.

(** ** The retries of a verifier end *)

Section retries.
Context (clock : nat → Z) (others : nat → host → host) (env : agents) (J R : string).

Lemma ex_bind_ext {A B} (m : exM A) (k k' : A → exM B) h : (∀ a h, k a h = k' a h) → ex_bind m k h = ex_bind m k' h.
Proof. intros Hk. unfold ex_bind, act_bind. destruct (m h) as [[[a|e]| |] h1]; [apply Hk|done..]. Qed.

(** The retries of a verifier turn end: with the fuel [resilient_fuel] the result is
    the result with any more fuel. *)
Theorem verifier_retries_end {V} (run : string → exM (verification V)) (fuel : nat) (scope k : string)
    (items : list TaskProgressItem.t) (g : gate) (p : TaskProgress.t) (h : host) :
  resilient_fuel scope k p ≤ fuel →
  run_resilient clock others env J R fuel run scope k items g p h =
  run_resilient clock others env J R (resilient_fuel scope k p) run scope k items g p h.
Proof.
  intros Hfuel. unfold resilient_fuel in *. remember (Z.to_nat (MAX_VERIFIER_INFRA_RETRIES - verifierInfraAttempt p scope k)) as n eqn:En.
  assert (Z.to_nat (MAX_VERIFIER_INFRA_RETRIES - verifierInfraAttempt p scope k) ≤ n) as Hn by lia. clear En.
  revert p fuel h Hfuel Hn. induction n as [|n IH]; intros p [|fuel] h Hfuel Hn; try lia.
  all: cbn -[resolveVerifierInfraRecovery run_resilient]; cbn -[resolveVerifierInfraRecovery]; apply ex_bind_ext; intros raw h1.
  all: destruct (_ || negb _); [done|].
  all: unfold resolveVerifierInfraRecovery; cbn -[Z.add MAX_VERIFIER_INFRA_RETRIES]; case_bool_decide as Hle; [done|].
  - exfalso. lia.
  - apply ex_bind_ext. intros _ h2. destruct fuel as [|fuel]; [lia|]. apply IH; [lia|].
    unfold withVerifierInfraAttempt, verifierInfraAttempt in *. rewrite generation_with, bool_decide_eq_true_2 by done. lia.
Qed.
End retries.

(** ** An execution that ends settles its job

    Theorems about [ExecutionLoop.v] when the awaited calls do not fail and the
    run stays writable. *)

(** ** A fenced update that the fence lets through *)

Definition row_of (J : string) (P : job → Prop) (h : host) : Prop := ∃ j, find_job (h_work h) J = Some j ∧ P j.

Lemma fenced_lands (now : Z) (J R : string) (p : patch JobContent.t) (s : stores) :
  activeRunId_of J s = Some R →
  ∃ j0 j s', updateJobRowFenced now J R p s = (Ok (Some j0), s') ∧ find_job s J = Some j ∧
    find_job s' J = Some (patch_row now p j) ∧ runs s' = runs s.
Proof.
  intros Hact. unfold activeRunId_of in Hact. destruct (find_job s J) as [j|] eqn:Hj; [|done]. cbn in Hact.
  destruct (List.find_some _ _ Hj) as [Hin Hid].
  assert (jobRowFence J R j = true) as Hf.
  { unfold jobRowFence. rewrite Hid. by rewrite bool_decide_eq_true_2. }
  assert (is_Some (List.find (jobRowFence J R) (jobs s))) as [j0 Hj0].
  { destruct (List.find _ (jobs s)) eqn:E; [done|]. by rewrite (List.find_none _ _ E j Hin) in Hf. }
  assert (count_where (jobRowFence J R) (jobs s) ≠ 0) as Hc.
  { assert (j ∈ jobs s) as Hin' by (by apply list_elem_of_In). pose proof (count_where_pos _ _ _ Hin' Hf). lia. }
  assert (existsb (jobRowFence J R) (update_where (jobRowFence J R) (patch_row now p) (jobs s)) = true) as Hex.
  { apply existsb_exists. exists (patch_row now p j). split; [|exact Hf]. apply list_elem_of_In, elem_of_update. exists j.
    split; [by apply list_elem_of_In|]. by rewrite Hf. }
  exists j0, j, (set_jobs (update_where (jobRowFence J R) (patch_row now p) (jobs s)) s). split_and!; [|done| |done].
  - unfold updateJobRowFenced, run_transaction, fenced_tx, tx_bind, tx_gets, tx_modify, tx_ret. cbn -[update_where].
    rewrite Hj0. rewrite (bool_decide_eq_false_2 _ Hc), andb_false_r. cbn -[update_where]. rewrite Hex. reflexivity.
  - unfold find_job in *. cbn -[update_where]. rewrite find_update by done. rewrite Hj. cbn. by rewrite Hf.
Qed.

Section settles.
Context `{Sha256} `{FileSystem}.
Context (clock : nat → Z) (uuid : nat → string) (pr : process) (leaseTtl : Z).
Context (others : nat → host → host) (draining : nat → bool) (env : agents).
Context (U J R : string).

(** No call fails any more, and the run of the loop is writable. *)
Definition live (h : host) : Prop := h_answers h = [] ∧ assertRunWritable J R (h_work h) = true.

(** Since [h] the loop was told of [e]. *)
Definition told (e : effect) (h h' : host) : Prop := ∃ es, h_effects h' = h_effects h ++ es ∧ e ∈ es.

(** What other code does between two steps of the loop: the run stays writable,
    and what the loop of the job is told is not recorded by others. *)
Definition stands_by : Prop :=
  ∀ n h, live h → live (others n h) ∧
    ∃ es, h_effects (others n h) = h_effects h ++ es ∧ ∀ e, e ∈ [SawDraining J; LeaseRefused J; TurnLostLease J] → e ∉ es.
Context (Hothers : stands_by).

Definition settled : host → Prop := row_of J (λ j, jb_status j ∈ ["completed"; "failed"; "paused"]).

(** Since [h] the loop saw that the process shuts down, its own acquisition of the
    workspace lease was refused, or a turn of its agent ended for a lost lease. *)
Definition drained (h h' : host) : Prop := (∃ n, draining n = true) ∧ told (SawDraining J) h h'.
Definition lost_lease (h h' : host) : Prop :=
  told (LeaseRefused J) h h' ∨
  (∃ n t e b, tn_end (ag_turn env n t) = TurnThrows e b ∧ is_lease_lost e = true) ∧ told (TurnLostLease J) h h'.
Definition interrupted (h h' : host) : Prop := drained h h' ∨ lost_lease h h'.

Lemma told_later e h h1 h2 : told e h h1 → h_effects h1 `prefix_of` h_effects h2 → told e h h2.
Proof. intros (es & E & He) [k Hk]. exists (es ++ k). split; [by rewrite Hk, E, app_assoc|set_solver]. Qed.

Lemma told_now e h h1 : h_effects h `prefix_of` h_effects h1 → told e h (add_effects [e] h1).
Proof. intros [k Hk]. exists (k ++ [e]). split; [cbn; by rewrite Hk, app_assoc|set_solver]. Qed.

Lemma interrupted_later h h1 h2 : interrupted h h1 → h_effects h1 `prefix_of` h_effects h2 → interrupted h h2.
Proof.
  unfold interrupted, drained, lost_lease. intros Hi Hp.
  destruct Hi as [[? Ht]|[Ht|[? Ht]]]; pose proof (told_later _ _ _ _ Ht Hp); tauto.
Qed.

(** ** Running without faults

    [h0] is the state in which the loop starts. *)
Section from.
Context (h0 : host).
Notation stopped := (interrupted h0).

Definition runs_to {A} (P : host → Prop) (m : exM A) (Q : A → host → Prop) (E : thrown → host → Prop) : Prop :=
  ∀ h, live h → h_effects h0 `prefix_of` h_effects h → P h →
  ∃ r h', m h = (Returned r, h') ∧ live h' ∧ h_effects h `prefix_of` h_effects h' ∧
    match r with Ok a => Q a h' | Err e => E e h' end.

Notation ok := (λ _, True).
Notation any := (λ _ _, True).

Lemma runs_ret {A} (a : A) P (Q : A → host → Prop) E : (∀ h, live h → P h → Q a h) → runs_to P (ex_ret a) Q E.
Proof. intros HQ h Hl Hx Hh. eexists _, h. split; [reflexivity|]. cbn. auto. Qed.

Lemma runs_throw {A} e (P : host → Prop) (Q : A → host → Prop) (E : thrown → host → Prop) :
  (∀ h, P h → E e h) → runs_to P (ex_throw e) Q E.
Proof. intros HE h Hl Hx Hh. eexists _, h. split; [reflexivity|]. cbn. auto. Qed.

Lemma runs_then {A B} (m : exM A) (k : result thrown A → exM B) P M (E' : thrown → host → Prop) (Q : B → host → Prop) E :
  runs_to P m M E' → (∀ a, runs_to (M a) (k (Ok a)) Q E) → (∀ e, runs_to (E' e) (k (Err e)) Q E) →
  runs_to P (act_bind m k) Q E.
Proof.
  intros Hm Hk Hke h Hl Hx Hh. destruct (Hm h Hl Hx Hh) as (r & h1 & E1 & Hl1 & Hx1 & Hr). unfold act_bind. rewrite E1.
  assert (h_effects h0 `prefix_of` h_effects h1) as Hx0 by (by etrans).
  assert (∃ r' h', k r h1 = (Returned r', h') ∧ live h' ∧ h_effects h1 `prefix_of` h_effects h' ∧
    match r' with Ok a => Q a h' | Err e => E e h' end) as (r' & h' & ? & ? & ? & ?).
  { destruct r as [a|e]; [by apply Hk|by apply (Hke e)]. }
  exists r', h'. split_and!; [done..|by etrans|done].
Qed.

Lemma runs_bind {A B} (m : exM A) (k : A → exM B) P M (Q : B → host → Prop) (E : thrown → host → Prop) :
  runs_to P m M E → (∀ a, runs_to (M a) (k a) Q E) → runs_to P (ex_bind m k) Q E.
Proof. intros Hm Hk. apply (runs_then _ _ _ M E); [done..|]. intros e. by apply runs_throw. Qed.

Lemma runs_catch {A} (m : exM A) k P (Q : A → host → Prop) E' E :
  runs_to P m Q E' → (∀ e, runs_to (E' e) (k e) Q E) → runs_to P (ex_catch m k) Q E.
Proof. intros Hm Hk. apply (runs_then _ _ _ Q E'); [done| |done]. intros a. by apply runs_ret. Qed.

Lemma runs_weaken {A} (m : exM A) (P P' : host → Prop) (Q Q' : A → host → Prop) (E E' : thrown → host → Prop) :
  runs_to P m Q E → (∀ h, P' h → P h) → (∀ a h, Q a h → Q' a h) → (∀ e h, E e h → E' e h) → runs_to P' m Q' E'.
Proof.
  intros Hm HP HQ HE h Hl Hx Hh. destruct (Hm h Hl Hx (HP h Hh)) as (r & h1 & ? & ? & ? & ?). exists r, h1. destruct r; eauto.
Qed.

(** What the loop was told stays told. *)
Lemma runs_still {A} (φ : Prop) (m : exM A) (Q : A → host → Prop) E :
  runs_to ok m Q E → runs_to (λ h, φ → stopped h) m (λ a h, (φ → stopped h) ∧ Q a h) E.
Proof.
  intros Hm h Hl Hx Hφ. destruct (Hm h Hl Hx I) as (r & h1 & ? & ? & Hx1 & ?). exists r, h1. split_and!; [done..|].
  destruct r; [|done]. split; [|done]. intros Hf. by apply (interrupted_later _ h), Hx1; apply Hφ.
Qed.

Lemma runs_gets {A} (f : host → A) P (Q : A → host → Prop) E : (∀ h, live h → P h → Q (f h) h) → runs_to P (ex_gets f) Q E.
Proof. intros HQ h Hl Hx Hh. eexists _, h. split; [reflexivity|]. cbn. auto. Qed.

Lemma runs_point P E : runs_to P (point others) any E.
Proof.
  intros h [Ha Hw] Hx _. eexists (Ok tt), _. split.
  { unfold point, ex_lift, act_catch, act_bind, ask, act_modify, act_ret. rewrite Ha. reflexivity. }
  match goal with |- live (others ?n ?h) ∧ _ => destruct (Hothers n h) as [Hl (es & Hes & _)]; [done|] end.
  split_and!; [exact Hl|by exists es|done].
Qed.

(** Code that leaves runs, rows, answers and the record of effects alone. *)
Lemma runs_aside {A} (f : host → result thrown A) (g : host → host) P (E : thrown → host → Prop) :
  (∀ h, h_answers (g h) = h_answers h) → (∀ h, h_work (g h) = h_work h) → (∀ h, h_effects (g h) = h_effects h) →
  (∀ h e, live h → f h = Err e → E e (g h)) → runs_to P (λ h, (Returned (f h), g h)) any E.
Proof.
  intros Ha Hw He HE h [Hl1 Hl2] Hx _. eexists _, _. split; [reflexivity|]. split; [by split; rewrite ?Ha, ?Hw|].
  rewrite He. split; [done|]. destruct (f h) eqn:Ef; [done|]. eapply HE; [|done]. by split.
Qed.

Lemma runs_ledger {A} (f : Z → ledger → result string A * ledger) P : runs_to P (on_ledger clock f) any any.
Proof.
  intros h [Ha Hw] Hx _. unfold on_ledger. destruct (f _ _) as [r l]. eexists _, _. split; [reflexivity|].
  split_and!; [done..|]. by destruct r.
Qed.

(** The loop is told that it has to stop. *)
Lemma runs_draining P E :
  runs_to P (isDraining draining J) (λ d h, d = true → (∃ n, draining n = true) ∧ told (SawDraining J) h0 h) E.
Proof.
  intros h Hl Hx _. unfold isDraining, sees_draining, ex_lift, act_catch, act_bind, act_ret. cbn.
  destruct (draining (h_ticks h)) eqn:Ed; eexists (Ok _), _; (split; [reflexivity|]); (split; [exact Hl|]).
  - split; [by eexists|]. intros _. split; [by eexists|by apply told_now].
  - by split.
Qed.

Lemma runs_tells (e : effect) P E : runs_to P (ex_modify (add_effects [e])) (λ _ h, told e h0 h) E.
Proof.
  intros h Hl Hx _. eexists (Ok tt), _. split; [reflexivity|]. split; [exact Hl|]. split; [by eexists|by apply told_now].
Qed.

(** *** Writes *)

(** The status a patch sets is the status of the row. *)
Definition lands (p : patch JobContent.t) (h : host) : Prop :=
  match pt_status p with Some st => row_of J (λ j, jb_status j = st) h | None => True end.

Lemma writable_kept (p : patch JobContent.t) now (s s' : stores) j :
  find_job s J = Some j → find_job s' J = Some (patch_row now p j) →
  runs s' = runs s → assertRunWritable J R s = true → assertRunWritable J R s' = true.
Proof.
  intros Hj Hj' Hr. unfold assertRunWritable, activeRunId_of, find_run. by rewrite Hj, Hj', Hr.
Qed.

Lemma runs_pure {A} (φ : Prop) (m : exM A) Q E : (φ → runs_to ok m Q E) → runs_to (λ _, φ) m Q E.
Proof. intros Hm h Hl Hx Hφ. by apply Hm. Qed.

Lemma runs_true {A} (b : bool) (m1 m2 : exM A) Q E :
  runs_to ok m2 Q E → runs_to (λ _, b = true) (if negb b then m1 else m2) Q E.
Proof. intros Hm h Hl Hx ->. by apply Hm. Qed.

Lemma runs_write items p P E : runs_to P (fenced_write clock others env J R items p) (λ b h, b = true ∧ lands p h) E.
Proof.
  eapply runs_bind; [apply runs_point|]. intros ?. cbv beta.
  eapply runs_bind; [apply (runs_gets _ _ (λ b h, b = true)); by intros h [_ Hw] _|]. intros b. cbv beta.
  apply runs_true.
  eapply runs_bind; [apply runs_point|]. intros ? h [Ha Hw] ?.
  assert (activeRunId_of J (h_work h) = Some R) as Hact.
  { unfold assertRunWritable in Hw. by apply andb_true_iff in Hw as [?%bool_decide_eq_true _]. }
  destruct (fenced_lands (now clock h) J R p (h_work h) Hact) as (j0 & j & s' & Eu & Hj & Hj' & Hr).
  rewrite Eu. pose proof (writable_kept _ _ _ _ _ Hj Hj' Hr Hw) as Hw'.
  assert (lands p (set_host_work s' h)) as Hlands.
  { unfold lands, row_of. destruct (pt_status p) eqn:Est; [|done]. eexists. split; [exact Hj'|]. cbn. by rewrite Est. }
  destruct items; eexists _, _; (split; [reflexivity|]); (split; [by split|]); done.
Qed.

Lemma runs_persist p q g P E : runs_to P (persistTaskProgress clock others env J R p q g) (λ b h, b = true ∧ lands q h) E.
Proof. eapply runs_weaken; [apply runs_write|done..]. Qed.

Lemma runs_persist_plan plan p q P E :
  runs_to P (persistPlanAndProgress clock others env J R plan p q) (λ b h, b = true ∧ lands q h) E.
Proof. eapply runs_weaken; [apply runs_write|done..]. Qed.

Lemma settled_by st h : row_of J (λ j, jb_status j = st) h → st ∈ ["completed"; "failed"; "paused"] → settled h.
Proof. intros (j & Hj & <-) Hst. by exists j. Qed.

Lemma runs_settle p q g st P E :
  pt_status q = Some st → st ∈ ["completed"; "failed"; "paused"] →
  runs_to P (persistTaskProgress clock others env J R p q g) (λ b h, b = true ∧ settled h) E.
Proof.
  intros Hq Hst. eapply runs_weaken; [apply runs_persist|done| |done]. cbv beta. intros b h [-> Hl]. split; [done|].
  unfold lands in Hl. rewrite Hq in Hl. by eapply settled_by.
Qed.

Ltac runs_step :=
  lazymatch goal with
  | |- runs_to _ (ex_ret _) _ _ => apply runs_ret
  | |- runs_to _ (ex_throw _) _ _ => apply runs_throw
  | |- runs_to _ (ex_bind _ _) _ _ => eapply runs_bind; [solve [eauto with runs]|intros ?; cbv beta]
  | |- runs_to _ (if ?b then _ else _) _ _ => destruct b eqn:?
  | |- runs_to _ (match ?x with _ => _ end) _ _ => destruct x eqn:?
  end.

Create HintDb runs.
#[local] Hint Resolve runs_point runs_ledger runs_tells runs_persist_plan : runs.
#[local] Hint Extern 1 (runs_to _ (persistTaskProgress _ _ _ _ _ _ (error_patch ?st _) _) _ _) =>
  apply (runs_settle _ _ _ st); [reflexivity|set_solver] : runs.
#[local] Hint Extern 1 (runs_to _ (persistTaskProgress _ _ _ _ _ _ (mkPatch (Some ?st) _ _ _ _ _ _ _) _) _ _) =>
  apply (runs_settle _ _ _ st); [reflexivity|set_solver] : runs.
#[local] Hint Extern 2 (runs_to _ (persistTaskProgress _ _ _ _ _ _ _ _) _ _) => apply runs_persist : runs.
#[local] Hint Extern 3 (runs_to _ (ex_gets _) _ _) => apply (runs_gets _ _ (λ _ _, True)); done : runs.

Lemma runs_fail p items g code params e P E :
  runs_to P (failJobWithProgress clock others env J R p items g code params e) (λ _ h, settled h) E.
Proof. unfold failJobWithProgress. repeat runs_step. by intros h _ [_ Hs]. Qed.
#[local] Hint Resolve runs_fail : runs.

Lemma runs_pause_execution (P : host → Prop) E :
  (∀ h h', h_work h' = h_work h → P h → P h') → runs_to P (pauseJobExecution J) (λ _ h, P h) E.
Proof.
  intros HP h [Ha Hw] Hx Hh. eexists (Ok tt), _. split; [reflexivity|]. split; [by split|]. split; [by eexists|]. by apply (HP h).
Qed.

Lemma settled_work h h' : h_work h' = h_work h → settled h → settled h'.
Proof. intros E. unfold settled, row_of. by rewrite E. Qed.

Lemma runs_finalize p items g P E :
  runs_to P (finalizeExecutionPause clock others env J R p items g) (λ _ h, settled h) E.
Proof.
  unfold finalizeExecutionPause. runs_step. runs_step. runs_step.
  eapply runs_weaken; [apply (runs_pause_execution settled E), settled_work|by intros h [_ Hs]|done..].
Qed.
#[local] Hint Resolve runs_finalize : runs.

(** A step that ends the loop has settled the job. *)
Definition step_settles (r : LoopStepAction * loop_ctx) (h : host) : Prop := r.1 = StepReturn → settled h ∨ stopped h.

Ltac runs_end := apply runs_ret; intros h _ Hh; unfold step_settles; cbn; try done; intros _; left; tauto.

(** *** Verifications *)

Lemma runs_verification {V} (status summary : V → string) accepting (ends : nat → string → verifier_end V) scope k P :
  runs_to P (run_verification others env status summary accepting ends scope k) any any.
Proof.
  unfold run_verification. runs_step. runs_step. runs_step; [|by apply runs_throw]. runs_step. runs_step. by apply runs_ret.
Qed.

Lemma runs_resilient {V} (run : string → exM (verification V)) fuel scope k items g p P :
  (∀ k P, runs_to P (run k) any any) →
  runs_to P (run_resilient clock others env J R fuel run scope k items g p) any any.
Proof.
  intros Hrun. revert p P. induction fuel as [|fuel IH]; intros p P; cbn -[resolveVerifierInfraRecovery]; [by apply runs_throw|].
  eapply runs_bind; [apply Hrun|]. intros raw. cbv beta. cbv zeta. runs_step; [by apply runs_ret|]. runs_step; [|by apply runs_ret].
  runs_step. apply IH.
Qed.

Lemma runs_slice_resilient k items g p P : runs_to P (runSliceVerificationResilient clock others env J R k items g p) any any.
Proof. apply runs_resilient. intros. apply runs_verification. Qed.
Lemma runs_milestone_resilient k items g p P : runs_to P (runMilestoneVerificationResilient clock others env J R k items g p) any any.
Proof. apply runs_resilient. intros. apply runs_verification. Qed.
#[local] Hint Resolve runs_slice_resilient runs_milestone_resilient : runs.

Lemma runs_on_plan {A} (m : planM A) plan P : runs_to P (on_plan m plan) any any.
Proof. unfold on_plan. destruct (m plan) as [[a|e] plan']; [by apply runs_ret|by apply runs_throw]. Qed.
#[local] Hint Resolve runs_on_plan : runs.

Lemma runs_after_repair c k p g m P : runs_to P (after_repair clock others env J R c k p g m) step_settles any.
Proof. unfold after_repair. runs_step. destruct a as [[] plan']; runs_step; runs_end. Qed.
#[local] Hint Resolve runs_after_repair : runs.

Lemma runs_slice_refused c k hash v p g P : runs_to P (slice_refused clock others env J R c k hash v p g) step_settles any.
Proof.
  unfold slice_refused. cbv zeta. repeat first [solve [eauto with runs]|solve [runs_end]|runs_step].
Qed.
#[local] Hint Resolve runs_slice_refused : runs.

Lemma runs_slice_step c P : runs_to P (processSliceVerificationStep clock others env J R c) step_settles any.
Proof.
  unfold processSliceVerificationStep. cbv zeta. repeat first [solve [eauto with runs]|solve [runs_end]|runs_step].
Qed.

Lemma runs_milestone_refused c k hash v p g P : runs_to P (milestone_refused clock others env J R c k hash v p g) step_settles any.
Proof.
  unfold milestone_refused. cbv zeta. repeat first [solve [eauto with runs]|solve [runs_end]|runs_step].
Qed.
#[local] Hint Resolve runs_milestone_refused : runs.

Lemma runs_milestone_step c P : runs_to P (processMilestoneVerificationStep clock others env J R c) step_settles any.
Proof.
  unfold processMilestoneVerificationStep. cbv zeta. repeat first [solve [eauto with runs]|solve [runs_end]|runs_step].
Qed.

(** *** Tasks *)

(** A task is interrupted only for a reason. *)
Definition explained (r : ExecuteSingleTaskResult * SavedJobPlan.t) (h : host) : Prop :=
  ∀ items, r.1 = TaskInterrupted items → stopped h.

Definition never_interrupts (m : planM ExecuteSingleTaskResult) : Prop :=
  ∀ plan r plan', m plan = (Ok r, plan') → ∀ items, r ≠ TaskInterrupted items.

Lemma outcome_never items taskId packet p g : never_interrupts (processTaskEvidenceOutcome items taskId packet p g).
Proof.
  unfold processTaskEvidenceOutcome, recovered, pl_bind, pl_ret, pl_get. intros plan r plan' Hr items' ->.
  repeat (case_match; simplify_eq; try done).
Qed.

Lemma miss_never items taskId p g message e : never_interrupts (buildTaskInfraRecoveryResult items taskId p g message e).
Proof.
  unfold buildTaskInfraRecoveryResult, recovered, pl_bind, pl_ret, pl_get. intros plan r plan' Hr items' ->.
  repeat (case_match; simplify_eq; try done).
Qed.

Lemma runs_task_plan m plan P : never_interrupts m → runs_to P (on_plan m plan) explained any.
Proof.
  intros Hm. unfold on_plan. destruct (m plan) as [[r|e] plan'] eqn:E; [|by apply runs_throw]. apply runs_ret.
  intros h _ _ items Hi. cbn in Hi. subst. by destruct (Hm _ _ _ E items).
Qed.
#[local] Hint Extern 1 (runs_to _ (on_plan (buildTaskInfraRecoveryResult _ _ _ _ _ _) _) explained _) =>
  apply runs_task_plan, miss_never : runs.

Lemma runs_stop P E : runs_to P (shouldStop J) any E.
Proof. by apply runs_gets. Qed.
#[local] Hint Resolve runs_stop : runs.

Lemma runs_turn_threw c taskId items timedOut e :
  runs_to (λ h, is_lease_lost e = true → stopped h) (turn_threw draining J c taskId items timedOut e) explained any.
Proof.
  unfold turn_threw. cbv zeta. eapply runs_bind; [apply runs_still, runs_stop|]. intros stop. cbv beta.
  destruct stop as [[]|]; [by apply runs_ret..|].
  eapply runs_bind; [eapply (runs_weaken _ _ _ _ _ any); [apply runs_still, runs_draining|by intros h []|done..]|]; intros d; cbv beta.
  destruct (d || is_lease_lost e) eqn:E; [|repeat first [solve [eauto with runs]|runs_step]; done].
  apply runs_ret; intros h _ [Hlost Hd] items' _; apply orb_true_iff in E as [->|E]; [left; by apply Hd|by apply Hlost].
Qed.

Lemma runs_turn_reported c taskId items report P : runs_to P (turn_reported c taskId items report) explained any.
Proof.
  unfold turn_reported. destruct report as [packet|e]; [|eauto with runs].
  destruct (processTaskEvidenceOutcome _ _ _ _ _ _) as [[r|e] plan'] eqn:E; [|eauto with runs].
  apply runs_ret. intros h _ _ items' Hi. cbn in Hi. subst. by destruct (outcome_never _ _ _ _ _ _ _ _ E items').
Qed.
#[local] Hint Resolve runs_turn_reported : runs.

(** What a turn throws before the agent answers. *)
Definition lost_told (e : thrown) (h : host) : Prop := is_lease_lost e = true → stopped h.

Lemma runs_stream n P : runs_to P (stream_turn others J n) any lost_told.
Proof.
  revert P. induction n as [|n IH]; intros P; cbn; (eapply runs_bind; [apply runs_point|]); intros ?; [by apply runs_ret|].
  eapply runs_bind; [apply runs_stop|]. intros [[]|]; [by apply runs_throw|by apply runs_throw|apply IH].
Qed.

Lemma runs_under_lease path n P :
  runs_to P (under_lease clock uuid leaseTtl others J R path (stream_turn others J n)) any lost_told.
Proof.
  unfold under_lease. eapply runs_bind; [apply runs_point|]. intros ?. eapply (runs_bind _ _ _ any).
  { intros h Hl Hx _. destruct (acquireWorkspaceLease _ _ _ _ _) as [[o|e] l]; eexists _, _; (split; [reflexivity|]); by split_and!. }
  intros [l|]; [apply runs_stream|]. eapply runs_bind; [apply runs_tells|]. intros ?. apply runs_throw. intros h Ht _. by right; left.
Qed.

Lemma runs_agent_turn path n taskId P :
  runs_to P (agent_turn_of clock uuid leaseTtl others J R path (ag_turn env n taskId))
    (λ r h, ∀ e b, r = Err (e, b) → lost_told e h) any.
Proof.
  unfold agent_turn_of. eapply (runs_then _ _ _ any lost_told); [apply runs_under_lease|..].
  - intros _. destruct (tn_end (ag_turn env n taskId)) as [packet|e|e timedOut] eqn:Et; [|by apply runs_ret|].
    + eapply (runs_then _ _ _ any any); [apply runs_point| |]; intros; by apply runs_ret.
    + destruct (is_lease_lost e) eqn:El.
      * eapply runs_bind; [apply runs_tells|]. intros ?. apply runs_ret. intros h _ Ht e' b [= <- <-] _. right. right.
        split; [by eexists _, _, _, _|done].
      * eapply (runs_bind _ _ _ any); [by apply (runs_aside (λ _, Ok tt) (λ h, h))|]. intros ?. apply runs_ret.
        intros h _ _ e' b [= <- <-]. unfold lost_told. by rewrite El.
  - intros e. apply runs_ret. by intros h _ He e' b [= <- <-].
Qed.

Lemma runs_references taskId P : runs_to P (references_of others env taskId) any any.
Proof.
  unfold references_of. runs_step; [by apply runs_ret|].
  eapply (runs_then _ _ _ any any); [apply runs_point| |]; intros; [by apply runs_gets|by apply runs_ret].
Qed.
#[local] Hint Resolve runs_references : runs.

Lemma runs_execute c taskId key P :
  runs_to P (executeSingleTask clock uuid leaseTtl others draining env J R c taskId key) explained any.
Proof.
  unfold executeSingleTask. cbv zeta. runs_step; [|by apply runs_ret]. runs_step. runs_step. runs_step; [|by apply runs_throw].
  runs_step. runs_step; [by apply runs_ret|]. runs_step; [by apply runs_throw|].
  eapply runs_bind; [apply (runs_gets _ _ (λ x _, ∃ n, x = ag_turn env n taskId)); intros h _ _; by eexists|].
  intros x. cbv beta. apply runs_pure. intros [n ->].
  eapply runs_bind; [apply runs_agent_turn|]. intros [report|[e timedOut]]; cbv beta.
  - apply runs_turn_reported.
  - eapply runs_weaken; [apply runs_turn_threw|intros h He; by eapply He|done..].
Qed.

Lemma runs_fail_attempt taskId n e P : runs_to P (fail_attempt clock J taskId n e) any any.
Proof. apply runs_ledger. Qed.
Lemma runs_commit taskId n items P : runs_to P (commit_attempt clock env J taskId n items) any any.
Proof. unfold commit_attempt. runs_step. by apply runs_ret. Qed.
Lemma runs_reload old P : runs_to P (reload others U J old) any any.
Proof. unfold reload. runs_step. by apply runs_gets. Qed.
#[local] Hint Resolve runs_fail_attempt runs_commit runs_reload : runs.

Lemma runs_task_paused c taskId n items e p P : runs_to P (task_paused clock others env J R c taskId n items e p) step_settles any.
Proof.
  unfold task_paused. runs_step. runs_step. eapply (runs_bind _ _ _ (λ _ h, settled h)).
  - eapply runs_weaken; [apply (runs_pause_execution settled any), settled_work|by intros h [_ Hs]|done..].
  - intros ?. runs_end.
Qed.

Lemma runs_task_result c plan taskId n r :
  runs_to (λ h, ∀ items, r = TaskInterrupted items → stopped h)
    (task_result clock others env U J R c plan taskId n r) step_settles any.
Proof.
  unfold task_result. destruct r as [items|items code params p g d|items e p|items|items e].
  - runs_step. repeat case_match; unfold completed_in_pause, task_completed; cbv zeta; repeat first [solve [runs_end]|runs_step].
  - unfold task_recovered. repeat first [solve [runs_end]|runs_step].
  - apply runs_task_paused.
  - apply runs_ret. intros h _ Hr _. right. by eapply Hr.
  - runs_step. repeat case_match; unfold failed_in_pause, task_failed; cbv zeta; repeat first [solve [runs_end]|runs_step].
Qed.

Lemma runs_begin_failed c taskId e P : runs_to P (begin_failed clock others env J R c taskId e) step_settles any.
Proof. unfold begin_failed. runs_step. runs_end. Qed.

Lemma runs_run_task c taskId n key started P :
  runs_to P (run_task clock uuid leaseTtl others draining env U J R c taskId n key started) step_settles any.
Proof.
  unfold run_task. cbv zeta. runs_step. eapply (runs_bind _ _ _ any); [destruct started; [apply runs_ledger|by apply runs_ret]|].
  intros ?. eapply runs_bind; [apply runs_execute|]. intros r. apply runs_task_result.
Qed.

Lemma runs_next_task c P :
  runs_to P (processNextTaskStep clock uuid leaseTtl others draining env U J R c) step_settles any.
Proof.
  unfold processNextTaskStep. runs_step; [|by apply runs_throw]. runs_step; [|unfold no_next_task; cbv zeta; runs_step; runs_end].
  cbv zeta. eapply (runs_then _ _ _ any any); [intros h Hl Hx Hh; by apply (runs_ledger _ P)|..].
  - intros [| | |]; [unfold already_completed|unfold blocked_uncertain|apply runs_run_task..]; cbv zeta;
      apply (runs_catch _ _ _ _ any); try (runs_step; runs_end); intros; apply runs_begin_failed.
  - intros e. apply runs_begin_failed.
Qed.

Lemma runs_interrupt_attempts P E : runs_to P (interrupt_attempts clock others J) any E.
Proof.
  unfold interrupt_attempts. eapply (runs_then _ _ _ any any); [runs_step; apply runs_ledger| |]; intros; by apply runs_ret.
Qed.

(** *** The loop *)

Definition cancelling (h : host) : Prop := Loops.shouldStopExecution J (h_loops h) = Some Loops.StopCancel.

Definition loop_settles (r : loop_end) (h : host) : Prop := r = Ended → settled h ∨ cancelling h ∨ stopped h.

Lemma runs_refresh P E : runs_to P (refresh_lease clock pr J) any E.
Proof.
  intros h [Ha Hw] Hx _. eexists (Ok tt), _. split; [reflexivity|]. split; [|done]. split; [done|].
  unfold assertRunWritable, activeRunId_of, find_job, find_run, refreshExecutionLease, h_work in *. cbn -[update_where] in *.
  rewrite find_update by done. destruct (List.find _ _) as [j|]; cbn in *; [|done]. by destruct (by_id J j && _).
Qed.
#[local] Hint Resolve runs_refresh : runs.

Lemma runs_steps c P : runs_to P (loop_steps clock uuid leaseTtl others draining env U J R c) step_settles any.
Proof.
  unfold loop_steps. eapply runs_bind; [apply runs_slice_step|]. intros [[] c1]; cbn; [apply runs_ret; by intros h _ Hh..|].
  eapply runs_bind; [apply runs_milestone_step|]. intros [[] c2]; cbn; [apply runs_ret; by intros h _ Hh..|]. apply runs_next_task.
Qed.

Lemma runs_loop fuel c prev n P :
  runs_to P (run_loop clock uuid pr leaseTtl others draining env U J R fuel c prev n) loop_settles any.
Proof.
  revert c prev n P. induction fuel as [|fuel IH]; intros c prev n P; cbn -[stagnation]; [by apply runs_ret|].
  runs_step. eapply runs_bind; [apply runs_draining|]. intros []; cbv beta.
  { eapply (runs_bind _ _ _ (λ _ h, stopped h)); [|intros ?; apply runs_ret; by right; right].
    eapply (runs_weaken _ _ _ _ _ any); [apply (runs_still (true = true)), runs_interrupt_attempts|intros h Hd ?; left; by apply Hd|..]; [|done].
    intros ? h [Hs _]. by apply Hs. }
  eapply (runs_bind _ _ _ (λ o h, o = Loops.shouldStopExecution J (h_loops h))); [by apply runs_gets|].
  intros [[]|].
  - eapply runs_bind; [apply runs_finalize|]. intros ?. apply runs_ret. intros h _ Hs _. by left.
  - apply runs_ret. intros h _ Hs _. right. left. by unfold cancelling.
  - case_match.
    { eapply runs_bind; [apply runs_fail|]. intros ?. apply runs_ret. intros h _ Hs _. by left. }
    case_match.
    { unfold handleWorkflowCompletion. eapply (runs_bind _ _ _ (λ _ h, settled h)).
      - eapply runs_bind; [eapply (runs_settle _ _ _ "completed"); [reflexivity|set_solver]|]. intros ?. apply runs_ret. by intros h _ [_ Hs].
      - intros ?. apply runs_ret. intros h _ Hs _. by left. }
    eapply runs_bind; [apply runs_steps|]. intros [[] c1]; cbn; [apply IH| |apply IH].
    apply runs_ret. intros h _ Hs _. destruct (Hs eq_refl); auto.
Qed.

(** *** The failure of the loop *)

(** The job no longer claims to run. *)
Definition rests : host → Prop := row_of J (λ j, jb_status j ∈ ["completed"; "failed"; "paused"; "pending"]).

Lemma runs_updated p st P E :
  pt_status p = Some st → runs_to P (ex_lift (updateJobRow clock J p)) (λ _ h, row_of J (λ j, jb_status j = st) h) E.
Proof.
  intros Hst h [Ha Hw] _. unfold updateJobRow, await, ex_lift, act_catch. unfold act_bind at 1. unfold act_bind at 1. rewrite ask_quiet by done.
  unfold assertRunWritable, activeRunId_of in Hw. destruct (find_job (h_work h) J) as [j|] eqn:Hj; [|done].
  set (h1 := set_answers [] (S (h_ticks h)) h). change (h_work h1) with (h_work h).
  assert (find_job (JobRows.updateJobRow (now clock h1) J p (h_work h)) J = Some (patch_row (now clock h1) p j)) as Hu.
  { unfold find_job in *. cbn -[update_where]. rewrite find_update by done. rewrite Hj. cbn.
    by destruct (List.find_some _ _ Hj) as [_ ->]. }
  eexists (Ok _), _. split; [reflexivity|]. split; [|split; [done|]].
  - split; [done|]. unfold assertRunWritable, activeRunId_of. change (h_work (set_host_work ?s ?h)) with s. rewrite Hu. exact Hw.
  - eexists. split; [exact Hu|]. cbn. by rewrite Hst.
Qed.

Lemma runs_save_failure p P E :
  pt_status p = Some "failed" → runs_to P (save_failure clock others J (Some R) p) (λ _ h, rests h) E.
Proof.
  intros Hst. unfold save_failure. runs_step. intros h [Ha Hw] Hx _.
  assert (activeRunId_of J (h_work h) = Some R) as Hact.
  { unfold assertRunWritable in Hw. by apply andb_true_iff in Hw as [?%bool_decide_eq_true _]. }
  destruct (fenced_lands (now clock h) J R p (h_work h) Hact) as (j0 & j & s' & Eu & Hj & Hj' & Hr).
  rewrite Eu. eexists _, _. split; [reflexivity|]. split; [split; [done|exact (writable_kept _ _ _ _ _ Hj Hj' Hr Hw)]|].
  split; [done|]. eexists. split; [exact Hj'|]. cbn. rewrite Hst. set_solver.
Qed.

Lemma rests_by st h : row_of J (λ j, jb_status j = st) h → st ∈ ["completed"; "failed"; "paused"; "pending"] → rests h.
Proof. intros (j & Hj & <-) Hst. by exists j. Qed.

Lemma failure_rests e :
  live h0 → ∃ failed h', execution_threw clock others draining U J (Some R) e h0 = (Returned failed, h') ∧ (rests h' ∨ drained h0 h').
Proof.
  intros Hl. unfold execution_threw. unfold act_bind at 1. unfold sees_draining. destruct (draining (h_ticks h0)) eqn:Ed.
  { destruct (runs_interrupt_attempts ok any (add_effects [SawDraining J] h0)) as (r & h' & E & _ & Hx & _);
      [exact Hl|by eexists|done|].
    exists false, h'. unfold act_bind. rewrite E. split; [done|].
    right. split; [by eexists|]. eapply told_later; [by apply told_now|exact Hx]. }
  match goal with |- ∃ failed h', act_bind ?m _ h0 = _ ∧ _ => assert (runs_to ok m (λ _ h, rests h) (λ _ _, False)) as Hrun end.
  { runs_step. eapply (runs_bind _ _ _ any); [by apply runs_gets|]. intros existing. cbv beta. runs_step.
    - eapply (runs_bind _ _ _ (λ _ h, rests h)); [|intros ?; by apply runs_ret].
      unfold revertJobAfterInfraStartupFailure.
      destruct existing as [j|]; (eapply (runs_weaken _ ok _ _ _ (λ _ _, False)); [eapply runs_updated; reflexivity|done| |done]);
        cbv beta; intros ? h' Hr; (eapply rests_by; [exact Hr|]); [case_match; set_solver|set_solver].
    - apply runs_save_failure. by destruct existing. }
  destruct (Hrun h0 Hl) as (r & h' & E & _ & _ & Hr); [done..|]. exists true, h'. unfold act_bind. rewrite E. split; [done|]. left. by destruct r.
Qed.
End from.

(** C11: An execution loop that ends leaves no job running behind it: when calls do not fail,
    and what runs between its steps leaves its run writable, then whatever agents and verifiers
    answer the loop ends with the job completed, failed or paused, or because the job is
    cancelled, or after it was itself told to stop: the process drained when it asked, its
    workspace lease was refused, or a turn of its agent ended for a lost lease. When it throws,
    the handler of the failure leaves the job completed, failed, paused or pending, unless it
    sees the process drain. *)
Theorem ended_loop_settles_job (fuel : nat) (c : loop_ctx) (previous : option loop_ctx) (stagnant : nat) (h : host) :
  live h →
  ∃ r h', run_loop clock uuid pr leaseTtl others draining env U J R fuel c previous stagnant h = (Returned r, h') ∧
    match r with
    | Ok OutOfFuel => True
    | Ok Ended => settled h' ∨ cancelling h' ∨ interrupted h h'
    | Err e => ∃ failed h'', execution_threw clock others draining U J (Some R) e h' = (Returned failed, h'') ∧
                 (rests h'' ∨ drained h' h'')
    end.
Proof.
  intros Hl. destruct (runs_loop h fuel c previous stagnant (λ _, True) h Hl) as (r & h' & E & Hl' & _ & Hr); [done..|].
  exists r, h'. split; [done|]. destruct r as [[]|e]; [by apply Hr|done|by apply failure_rests].
Qed.
End settles.
