(* ===== verification/RecoveryBound.v ===== *)
(** * How often an execution recovers a task

    A theorem about [ExecutionLoop.v]: while the loop of a job runs it holds the
    counters of its recoveries in memory, so that it puts the same task back into
    the queue at most three times for each kind of recovery, whatever agents and
    verifiers answer, whichever calls fail and wherever the process dies. *)
From stdpp Require Import pretty.
From Stdlib Require Import Ascii.
From S2P Require Import Prelude Json JsString Path Sql WorkspaceLease TaskAttempts SavedPlan Gate RepairTasks.
From S2P Require Import TurnErrors Blocker TaskRecovery RecoverySpecs WorkloadSlots JobRows QueueCoordinator.
From S2P Require Import ProgressStore Act Registries Host RunLifecycle Controls ExecutionLoop.
Local Open Scope act_scope.
Local Open Scope exec_scope.
#[local] Arguments bool_decide : simpl never.

(** ** Counters of tasks and other counters *)

(** What other keys there are does not touch the counters of the task. *)
Definition same_counters (taskId : string) (p q : TaskProgress.t) : Prop :=
  ∀ k, counter q k taskId = counter p k taskId.

Lemma same_allowance t p q : same_counters t p q → allowance q t = allowance p t.
Proof. intros H. unfold allowance. by rewrite !H. Qed.

Lemma same_trans t p q r : same_counters t p q → same_counters t q r → same_counters t p r.
Proof. intros H1 H2 k. by rewrite H2. Qed.

Lemma same_generations t p q :
  TaskProgress.repairGenerations q = TaskProgress.repairGenerations p → same_counters t p q.
Proof. intros E k. unfold counter, generation. by rewrite E. Qed.

(** The key is not one of a task. *)
Definition foreign (key : string) : Prop := ∀ k t, key ≠ counter_key k t.

Lemma same_foreign t key n p q :
  foreign key → TaskProgress.repairGenerations q = TaskProgress.repairGenerations p →
  same_counters t p (withTaskRecoveryGeneration key n q).
Proof.
  intros Hk E k. unfold counter. rewrite generation_with, bool_decide_eq_false_2 by done. unfold generation. by rewrite E.
Qed.

Lemma foreign_pausing J : foreign (pausingAttemptKey J).
Proof. by intros []. Qed.
Lemma foreign_repair scope id : scope ∈ ["slice"; "milestone"] → foreign (repairGenerationKey scope id).
Proof. intros [->|[->|[]%elem_of_nil]%elem_of_cons]%elem_of_cons [] t; done. Qed.
Lemma foreign_verifier scope id : foreign (verifierInfraRetryGenerationKey scope id).
Proof. by intros [] t. Qed.

Definition repair_kept (t : string) (p : TaskProgress.t) (m : planM repair_outcome) : Prop :=
  ∀ plan items p' g persisted plan', m plan = (Ok (RepairOk items p' g persisted), plan') → same_counters t p p'.

Ltac repairs_kept :=
  intros plan items' p' g' persisted plan'; unfold pl_bind, pl_get, pl_ret;
  repeat (case_match; simplify_eq; try done); intros; simplify_eq.

Lemma slice_needs_kept t id v items p g : repair_kept t p (handleSliceNeedsRepair id v items p g).
Proof. unfold handleSliceNeedsRepair. repairs_kept. apply same_foreign; [apply foreign_repair; set_solver|done]. Qed.

Lemma milestone_needs_kept t id v items p g : repair_kept t p (handleMilestoneNeedsRepair id v items p g).
Proof. unfold handleMilestoneNeedsRepair. repairs_kept. apply same_foreign; [apply foreign_repair; set_solver|done]. Qed.

Lemma slice_evidence_kept t id reason n hash items p g : repair_kept t p (handleSliceEvidenceRepair id reason n hash items p g).
Proof. unfold handleSliceEvidenceRepair. repairs_kept. by apply same_generations. Qed.

Lemma milestone_evidence_kept t id reason n hash items p g :
  repair_kept t p (handleMilestoneEvidenceRepair id reason n hash items p g).
Proof. unfold handleMilestoneEvidenceRepair. repairs_kept. by apply same_generations. Qed.

(** ** Counting the recoveries *)

Definition requeues (J taskId : string) (e : effect) : bool :=
  match e with TaskRequeued j k => bool_decide (j = J ∧ k = taskId) | _ => false end.

(** How often the loop of [J] has put the task back into the queue. *)
Definition requeued (J taskId : string) (h : host) : nat := count_where (requeues J taskId) (h_effects h).

Section bound.
Context `{Sha256} `{FileSystem}.
Context (clock : nat → Z) (uuid : nat → string) (pr : process) (leaseTtl : Z).
Context (others : nat → host → host) (draining : nat → bool) (env : agents).
Context (U J R : string) (t : string).

(** Only the loop itself records what it does with the task. *)
Context (Hothers : ∀ n h, requeued J t (others n h) = requeued J t h).

(** Code that puts the task back no time, whatever it returns, throws or leaves
    undone; a result is in [Q]. *)
Definition calmly {A} (m : exM A) (Q : A → Prop) : Prop :=
  ∀ h, requeued J t (m h).2 = requeued J t h ∧ ∀ a, (m h).1 = Returned (Ok a) → Q a.

Notation any := (λ _, True).

Lemma calmly_ret {A} (a : A) (Q : A → Prop) : Q a → calmly (ex_ret a) Q.
Proof. intros HQ h. split; [done|]. by intros b [= <-]. Qed.

Lemma calmly_throw {A} e (Q : A → Prop) : calmly (ex_throw e) Q.
Proof. by intros h. Qed.

Lemma calmly_then {A B} (m : exM A) (k : result thrown A → exM B) (Q : A → Prop) (Q' : B → Prop) :
  calmly m Q → (∀ r, (∀ a, r = Ok a → Q a) → calmly (k r) Q') → calmly (act_bind m k) Q'.
Proof.
  intros Hm Hk h. destruct (Hm h) as [H1 H2]. unfold act_bind. destruct (m h) as [[r| |] h1]; cbn in *; try done.
  destruct (Hk r) with h1 as [H3 H4]; [intros a ->; by apply H2|]. by rewrite H3.
Qed.

Lemma calmly_bind {A B} (m : exM A) (k : A → exM B) (Q : A → Prop) (Q' : B → Prop) :
  calmly m Q → (∀ a, Q a → calmly (k a) Q') → calmly (ex_bind m k) Q'.
Proof.
  intros Hm Hk. apply (calmly_then _ _ Q); [done|]. intros [a|e] Hr; [by apply Hk, Hr|apply calmly_throw].
Qed.

Lemma calmly_catch {A} (m : exM A) k (Q : A → Prop) : calmly m Q → (∀ e, calmly (k e) Q) → calmly (ex_catch m k) Q.
Proof. intros Hm Hk. apply (calmly_then _ _ Q); [done|]. intros [a|e] Hr; [by apply calmly_ret, Hr|done]. Qed.

Lemma calmly_weaken {A} (m : exM A) (Q Q' : A → Prop) : calmly m Q → (∀ a, Q a → Q' a) → calmly m Q'.
Proof. intros Hm HQ h. destruct (Hm h) as [H1 H2]. auto. Qed.

Lemma calmly_gets {A} (f : host → A) : calmly (ex_gets f) any.
Proof. by intros h. Qed.

(** Code that records nothing about the task. *)
Lemma calmly_other {A} (m : exM A) : (∀ h, requeued J t (m h).2 = requeued J t h) → calmly m any.
Proof. by intros Hm h. Qed.

Lemma calmly_modify f : (∀ h, h_effects (f h) = h_effects h) → calmly (ex_modify f) any.
Proof. intros Hf. apply calmly_other. intros h. unfold requeued. cbn. by rewrite Hf. Qed.

Lemma requeued_tells e h : requeued J t (add_effects [e] h) = requeued J t h + (if requeues J t e then 1 else 0).
Proof. unfold requeued. cbn. rewrite count_where_app, count_where_cons, count_where_nil. lia. Qed.

Lemma calmly_tells e : requeues J t e = false → calmly (ex_modify (add_effects [e])) any.
Proof. intros He. apply calmly_other. intros h. change (ex_modify _ h).2 with (add_effects [e] h). rewrite requeued_tells, He. lia. Qed.

Lemma calmly_point : calmly (point others) any.
Proof.
  apply calmly_other. intros h. unfold point, ex_lift, act_catch, act_bind, ask, act_modify, act_ret, act_raise. cbn.
  repeat case_match; simplify_eq; cbn; try done; by rewrite Hothers.
Qed.

Lemma calmly_ledger {A} (f : Z → ledger → result string A * ledger) : calmly (on_ledger clock f) any.
Proof. apply calmly_other. intros h. unfold on_ledger. by case_match. Qed.

Lemma calmly_draining : calmly (isDraining draining J) any.
Proof.
  apply calmly_other. intros h. unfold isDraining, sees_draining, ex_lift, act_catch, act_bind, act_ret. cbn.
  destruct (draining (h_ticks h)); [|done]. cbn. rewrite requeued_tells. cbn. lia.
Qed.

Lemma calmly_write items p : calmly (fenced_write clock others env J R items p) any.
Proof.
  apply (calmly_bind _ _ any); [apply calmly_point|]. intros _ _.
  apply (calmly_bind _ _ any); [apply calmly_gets|]. intros w _. destruct w; cbn; [|by apply calmly_ret].
  apply (calmly_bind _ _ any); [apply calmly_point|]. intros _ _. apply calmly_other. intros h.
  destruct (updateJobRowFenced _ _ _ _ _) as [[[o|]|e] s]; [destruct items|..]; done.
Qed.

Lemma calmly_persist p q g : calmly (persistTaskProgress clock others env J R p q g) any.
Proof. apply calmly_write. Qed.
Lemma calmly_persist_plan plan p q : calmly (persistPlanAndProgress clock others env J R plan p q) any.
Proof. apply calmly_write. Qed.

Lemma calmly_stop_turn : calmly (pauseJobExecution J) any.
Proof.
  apply calmly_other. intros h. unfold pauseJobExecution, ex_lift, stop_turn, act_catch, act_bind, update_loops, act_modify, act_ret.
  cbn. rewrite requeued_tells. cbn. unfold requeued. cbn. lia.
Qed.

Create HintDb calmly.
#[local] Hint Resolve calmly_gets calmly_point calmly_ledger calmly_draining calmly_persist calmly_persist_plan calmly_stop_turn : calmly.
#[local] Hint Extern 3 (calmly (shouldStop _) _) => apply calmly_gets : calmly.
#[local] Hint Extern 3 (calmly (ex_modify (add_effects _)) _) => by apply calmly_tells : calmly.
#[local] Hint Extern 4 (calmly (ex_modify _) _) => by apply calmly_modify : calmly.

(** One step through the code. *)
Ltac calm_step :=
  lazymatch goal with
  | |- calmly (ex_ret _) _ => apply calmly_ret
  | |- calmly (ex_throw _) _ => apply calmly_throw
  | |- calmly (ex_bind _ _) _ => eapply calmly_bind; [solve [eauto with calmly]|cbv beta; intros ? ?]
  | |- calmly (if ?b then _ else _) _ => destruct b eqn:?
  | |- calmly (let '(_, _) := ?r in _) _ => destruct r eqn:?
  | |- calmly (match ?x with _ => _ end) _ => destruct x eqn:?
  end.

Lemma calmly_fail p items g code params e : calmly (failJobWithProgress clock others env J R p items g code params e) any.
Proof. unfold failJobWithProgress. by repeat calm_step. Qed.
#[local] Hint Resolve calmly_fail : calmly.

Lemma calmly_finalize p items g : calmly (finalizeExecutionPause clock others env J R p items g) any.
Proof. unfold finalizeExecutionPause. repeat calm_step. eauto with calmly. Qed.
#[local] Hint Resolve calmly_finalize : calmly.

Lemma calmly_completion items g p : calmly (handleWorkflowCompletion clock others env J R items g p) any.
Proof. unfold handleWorkflowCompletion. by repeat calm_step. Qed.
#[local] Hint Resolve calmly_completion : calmly.

(** *** Verifications *)

(** Unless the loop ends, the counters of the task are those of [p]. *)
Definition carries (p : TaskProgress.t) (r : LoopStepAction * loop_ctx) : Prop :=
  match r.1 with StepReturn => True | _ => same_counters t p (cx_progress r.2) end.

Lemma calmly_verification {V} (status summary : V → string) accepting (ends : nat → string → verifier_end V) scope k :
  calmly (run_verification others env status summary accepting ends scope k) any.
Proof. unfold run_verification. by repeat calm_step. Qed.

Lemma calmly_resilient {V} (run : string → exM (verification V)) fuel scope k items g p0 p :
  (∀ k, calmly (run k) any) → same_counters t p0 p →
  calmly (run_resilient clock others env J R fuel run scope k items g p) (λ r, same_counters t p0 r.2).
Proof.
  intros Hrun. revert p. induction fuel as [|fuel IH]; intros p Hp; cbn -[resolveVerifierInfraRecovery]; [apply calmly_throw|].
  eapply calmly_bind; [apply Hrun|]. intros raw _. cbv zeta. destruct (_ || negb _); [by apply calmly_ret|].
  destruct (resolveVerifierInfraRecovery _ _ _ _ _); [|by apply calmly_ret]. calm_step. apply IH.
  eapply same_trans; [exact Hp|]. apply same_foreign; [apply foreign_verifier|done].
Qed.

Lemma calmly_after_repair c k p g m :
  repair_kept t p m → same_counters t (cx_progress c) p →
  calmly (after_repair clock others env J R c k p g m) (carries (cx_progress c)).
Proof.
  intros Hm Hp. unfold after_repair, on_plan. destruct (m (cx_plan c)) as [[r|e] plan'] eqn:E.
  - eapply calmly_bind; [apply (calmly_ret _ (λ x, x = (r, plan'))); done|]. intros ? ->.
    destruct r as [items' p' g' persisted|]; repeat calm_step; [|done].
    eapply same_trans; [exact Hp|]. by eapply Hm.
  - eapply calmly_bind; [apply (calmly_throw _ (λ _, False))|]. done.
Qed.

Lemma calmly_slice_refused c k hash v p g :
  same_counters t (cx_progress c) p → calmly (slice_refused clock others env J R c k hash v p g) (carries (cx_progress c)).
Proof.
  intros Hp. unfold slice_refused. cbv zeta.
  repeat first [apply calmly_after_repair|calm_step]; try done; first [apply slice_needs_kept|apply slice_evidence_kept].
Qed.

Lemma calmly_slice_step c : calmly (processSliceVerificationStep clock others env J R c) (carries (cx_progress c)).
Proof.
  unfold processSliceVerificationStep. cbv zeta. calm_step; [|by apply calmly_ret].
  calm_step; [|by repeat calm_step]. calm_step; [by repeat calm_step|]. calm_step.
  eapply calmly_bind; [apply (calmly_resilient _ _ _ _ _ _ (cx_progress c)); [intros; apply calmly_verification|done]|].
  cbv beta. intros [v p1] Hp. cbn in Hp. destruct (negb (vf_ok v)); [by apply calmly_slice_refused|]. calm_step. apply calmly_ret.
  eapply same_trans; [exact Hp|]. apply same_generations. by destruct (vf_verdict v).
Qed.

Lemma calmly_milestone_refused c k hash v p g :
  same_counters t (cx_progress c) p → calmly (milestone_refused clock others env J R c k hash v p g) (carries (cx_progress c)).
Proof.
  intros Hp. unfold milestone_refused. cbv zeta.
  repeat first [apply calmly_after_repair|calm_step]; try done; first [apply milestone_needs_kept|apply milestone_evidence_kept].
Qed.

Lemma calmly_milestone_step c : calmly (processMilestoneVerificationStep clock others env J R c) (carries (cx_progress c)).
Proof.
  unfold processMilestoneVerificationStep. cbv zeta. calm_step; [|by apply calmly_ret].
  calm_step; [|by repeat calm_step]. calm_step; [by repeat calm_step|]. calm_step.
  eapply calmly_bind; [apply (calmly_resilient _ _ _ _ _ _ (cx_progress c)); [intros; apply calmly_verification|done]|].
  cbv beta. intros [v p1] Hp. cbn in Hp. destruct (negb (vf_ok v)); [by apply calmly_milestone_refused|]. calm_step. by apply calmly_ret.
Qed.

(** *** Tasks *)

(** A result that puts the task [taskId] back has used a unit of what is allowed. *)
Definition paid (taskId : string) (p : TaskProgress.t) (r : ExecuteSingleTaskResult) : Prop :=
  match r with TaskRecovered _ _ _ p' _ _ => raised taskId p p' | _ => True end.

Lemma calmly_on_plan taskId p (m : planM ExecuteSingleTaskResult) plan :
  (∀ r plan', m plan = (Ok r, plan') → paid taskId p r) → calmly (on_plan m plan) (λ r, paid taskId p r.1).
Proof.
  intros Hm. unfold on_plan. destruct (m plan) as [[r|e] plan'] eqn:E; [|apply calmly_throw]. apply calmly_ret. by eapply Hm.
Qed.

Lemma miss_paid items taskId p g message e plan :
  calmly (on_plan (buildTaskInfraRecoveryResult items taskId p g message e) plan) (λ r, paid taskId p r.1).
Proof. apply calmly_on_plan. intros [] plan' E; try done. by eapply miss_raised. Qed.
#[local] Hint Resolve miss_paid : calmly.

Lemma calmly_turn_threw c taskId items timedOut e :
  calmly (turn_threw draining J c taskId items timedOut e) (λ r, paid taskId (cx_progress c) r.1).
Proof. unfold turn_threw. cbv zeta. repeat first [solve [eauto with calmly]|calm_step]; done. Qed.

Lemma calmly_turn_reported c taskId items report :
  calmly (turn_reported c taskId items report) (λ r, paid taskId (cx_progress c) r.1).
Proof.
  unfold turn_reported. destruct report as [packet|e]; [|eauto with calmly].
  destruct (processTaskEvidenceOutcome _ _ _ _ _ _) as [[r|e] plan'] eqn:E; [|eauto with calmly].
  apply calmly_ret. destruct r; try done. by eapply outcome_raised.
Qed.
#[local] Hint Resolve calmly_turn_threw calmly_turn_reported : calmly.

Lemma calmly_stream n : calmly (stream_turn others J n) any.
Proof.
  induction n as [|n IH]; cbn; (eapply calmly_bind; [apply calmly_point|]); intros _ _; [by apply calmly_ret|].
  eapply calmly_bind; [apply calmly_gets|]. intros [[]|] _; [apply calmly_throw|apply calmly_throw|apply IH].
Qed.

Lemma calmly_under_lease path m : calmly m any → calmly (under_lease clock uuid leaseTtl others J R path m) any.
Proof.
  intros Hm. unfold under_lease. calm_step. eapply (calmly_bind _ _ any).
  - apply calmly_other. intros h. by case_match.
  - intros [l|] _; [done|]. calm_step. apply calmly_throw.
Qed.

Lemma calmly_agent_turn path x : calmly (agent_turn_of clock uuid leaseTtl others J R path x) any.
Proof.
  unfold agent_turn_of. apply (calmly_then _ _ any); [apply calmly_under_lease, calmly_stream|].
  intros [u|e] _; [|by apply calmly_ret]. destruct (tn_end x) as [packet|e'|e' timedOut]; try (by apply calmly_ret).
  - apply (calmly_then _ _ any); [apply calmly_point|]. intros r _. by apply calmly_ret.
  - eapply (calmly_bind _ _ any); [|intros _ _; by apply calmly_ret].
    destruct (is_lease_lost e'); [by apply calmly_tells|by apply calmly_modify].
Qed.

Lemma calmly_references taskId : calmly (references_of others env taskId) any.
Proof.
  unfold references_of. calm_step; [by apply calmly_ret|].
  apply (calmly_then _ _ any); [apply calmly_point|]. intros [u|e] _; [by apply calmly_gets|by apply calmly_ret].
Qed.
#[local] Hint Resolve calmly_agent_turn calmly_references : calmly.

Lemma calmly_execute c taskId key :
  calmly (executeSingleTask clock uuid leaseTtl others draining env J R c taskId key) (λ r, paid taskId (cx_progress c) r.1).
Proof. unfold executeSingleTask. cbv zeta. repeat first [solve [eauto with calmly]|calm_step]; done. Qed.

Lemma calmly_fail_attempt taskId n e : calmly (fail_attempt clock J taskId n e) any.
Proof. apply calmly_ledger. Qed.
Lemma calmly_commit taskId n items : calmly (commit_attempt clock env J taskId n items) any.
Proof. unfold commit_attempt. by repeat calm_step. Qed.
Lemma calmly_reload old : calmly (reload others U J old) any.
Proof. unfold reload. calm_step. apply calmly_gets. Qed.
#[local] Hint Resolve calmly_fail_attempt calmly_commit calmly_reload : calmly.

(** ** Code that may put the task back

    [b] times at most; what a result leaves of them is [left]. *)
Definition within {A} (b : nat) (m : exM A) (left : A → nat) : Prop :=
  ∀ h, requeued J t (m h).2 ≤ requeued J t h + b ∧
    ∀ a, (m h).1 = Returned (Ok a) → requeued J t (m h).2 + left a ≤ requeued J t h + b.

Lemma within_calm {A} b (m : exM A) Q left : calmly m Q → (∀ a, Q a → left a ≤ b) → within b m left.
Proof.
  intros Hm Hl h. destruct (Hm h) as [E HQ]. rewrite E. split; [lia|]. intros a Ha. specialize (Hl a (HQ a Ha)). lia.
Qed.

Lemma within_then {A B} b (m : exM A) (k : result thrown A → exM B) mid left :
  within b m mid → (∀ a, within (mid a) (k (Ok a)) left) → (∀ e, calmly (k (Err e)) (λ a, left a = 0)) →
  within b (act_bind m k) left.
Proof.
  intros Hm Hk He h. destruct (Hm h) as [H1 H2]. unfold act_bind. destruct (m h) as [[[a|e]| |] h1]; cbn in *; [| |by split..].
  - destruct (Hk a h1) as [H3 H4]. specialize (H2 a eq_refl). split; [lia|]. intros a' Ha. specialize (H4 a' Ha). lia.
  - destruct (He e h1) as [H3 H4]. rewrite H3. split; [lia|]. intros a' Ha. rewrite (H4 a' Ha). lia.
Qed.

Lemma within_bind {A B} b (m : exM A) (k : A → exM B) mid left :
  within b m mid → (∀ a, within (mid a) (k a) left) → within b (ex_bind m k) left.
Proof. intros Hm Hk. eapply within_then; [done..|]. intros e. apply calmly_throw. Qed.

(** Calm code first. *)
Lemma within_after {A B} b (m : exM A) (k : A → exM B) Q left :
  calmly m Q → (∀ a, Q a → within b (k a) left) → within b (ex_bind m k) left.
Proof.
  intros Hm Hk h. destruct (Hm h) as [E HQ]. unfold ex_bind, act_bind. destruct (m h) as [[[a|e]| |] h1]; cbn in *.
  - rewrite <-E. by apply Hk, HQ.
  - rewrite E. split; [lia|done].
  - rewrite E. split; [lia|done].
  - rewrite E. split; [lia|done].
Qed.

(** What the next iteration may still do. *)
Definition leaves (r : LoopStepAction * loop_ctx) : nat :=
  match r.1 with StepReturn => 0 | _ => allowance (cx_progress r.2) t end.

Lemma within_carries p m : calmly m (carries p) → within (allowance p t) m leaves.
Proof.
  intros Hm. eapply within_calm; [exact Hm|]. intros [[] c]; cbn; [|lia|]; intros Hs; by rewrite (same_allowance t p).
Qed.

Lemma within_recovered taskId c plan items code params p g :
  raised taskId (cx_progress c) p →
  within (allowance (cx_progress c) t)
    (do^ ex_modify (add_effects [TaskRequeued J taskId]) in task_recovered clock others env U J R c plan items code params p g) leaves.
Proof.
  intros Hr. pose proof (raised_allowance taskId t _ _ Hr) as Ha.
  eapply (within_bind _ _ _ (λ _, allowance p t)).
  - intros h. change (ex_modify _ h).2 with (add_effects [TaskRequeued J taskId] h). rewrite requeued_tells. cbn.
    destruct (bool_decide (taskId = t)) eqn:Et.
    + rewrite bool_decide_eq_true_2 by (apply bool_decide_eq_true in Et; done). split; [lia|]. intros. lia.
    + rewrite bool_decide_eq_false_2 by (apply bool_decide_eq_false in Et; naive_solver). split; [lia|]. intros. lia.
  - intros _. apply within_carries. unfold task_recovered. repeat calm_step. done.
Qed.

Lemma within_task_result c plan taskId n r :
  paid taskId (cx_progress c) r →
  within (allowance (cx_progress c) t) (task_result clock others env U J R c plan taskId n r) leaves.
Proof.
  intros Hr. unfold task_result. destruct r as [items|items code params p g d|items e p|items|items e]; cbn in Hr.
  - apply within_carries. calm_step. repeat case_match; unfold completed_in_pause, task_completed; cbv zeta; repeat calm_step; done.
  - by apply (within_recovered taskId (mkCtx (cx_job c) plan (cx_items c) (cx_progress c) (cx_gate c))).
  - apply within_carries. unfold task_paused. repeat calm_step. done.
  - apply within_carries. by apply calmly_ret.
  - apply within_carries. calm_step. repeat case_match; unfold failed_in_pause, task_failed; cbv zeta; repeat calm_step; try done;
      (apply same_foreign; [apply foreign_pausing|done]).
Qed.

Lemma calmly_begin_failed c taskId e p : calmly (begin_failed clock others env J R c taskId e) (carries p).
Proof. unfold begin_failed. calm_step. by apply calmly_ret. Qed.

Lemma within_run_task c taskId n key started :
  within (allowance (cx_progress c) t) (run_task clock uuid leaseTtl others draining env U J R c taskId n key started) leaves.
Proof.
  unfold run_task. cbv zeta. eapply within_after; [apply calmly_persist|]. intros _ _.
  eapply (within_after _ _ _ any); [destruct started; [apply calmly_ledger|by apply calmly_ret]|]. intros _ _.
  eapply within_after; [apply calmly_execute|]. intros r Hr.
  match goal with |- within _ (task_result _ _ _ _ _ _ ?x _ _ _ _) _ => by apply (within_task_result x) end.
Qed.

Lemma within_next_task c :
  within (allowance (cx_progress c) t) (processNextTaskStep clock uuid leaseTtl others draining env U J R c) leaves.
Proof.
  unfold processNextTaskStep.
  destruct (findNextReadyTask _) as [[next|]|]; [|apply within_carries; unfold no_next_task; cbv zeta; by repeat calm_step
    |apply within_carries, calmly_throw].
  cbv zeta. eapply (within_then _ _ _ (λ _, allowance (cx_progress c) t)).
  - eapply (within_calm _ _ any); [|done]. intros h. by apply calmly_ledger.
  - intros [| | |]; [apply within_carries..|apply within_run_task|apply within_run_task].
    + unfold already_completed. cbv zeta. apply calmly_catch; [repeat calm_step; done|]. intros e. apply calmly_begin_failed.
    + unfold blocked_uncertain. cbv zeta. apply calmly_catch; [repeat calm_step; done|]. intros e. apply calmly_begin_failed.
  - intros e. unfold begin_failed. calm_step. by apply calmly_ret.
Qed.

(** ** The loop *)

Lemma within_steps c :
  within (allowance (cx_progress c) t) (loop_steps clock uuid leaseTtl others draining env U J R c) leaves.
Proof.
  unfold loop_steps. eapply within_after; [apply calmly_slice_step|].
  assert (∀ r p, carries p r → within (allowance p t) (ex_ret r) leaves) as Hret.
  { intros r p Hr. apply within_carries. by apply calmly_ret. }
  intros [[] c1] Hc; cbn; [by apply Hret..|]. cbn in Hc. rewrite <-(same_allowance t _ _ Hc).
  eapply within_after; [apply calmly_milestone_step|]. intros [[] c2] Hc2; cbn; [by apply Hret..|]. cbn in Hc2.
  rewrite <-(same_allowance t _ _ Hc2). apply within_next_task.
Qed.

Lemma within_loop fuel c prev n :
  within (allowance (cx_progress c) t) (run_loop clock uuid pr leaseTtl others draining env U J R fuel c prev n) (λ _, 0).
Proof.
  assert (∀ b (m : exM loop_end), calmly m any → within b m (λ _, 0)) as Hcalm.
  { intros b m Hm. eapply within_calm; [done|]. intros. lia. }
  revert c prev n. induction fuel as [|fuel IH]; intros c prev n; cbn -[stagnation]; [by apply Hcalm, calmly_ret|].
  eapply (within_after _ _ _ any); [by apply calmly_modify|]. intros _ _.
  eapply within_after; [apply calmly_draining|]. intros [] _.
  { apply Hcalm. unfold interrupt_attempts. eapply (calmly_bind _ _ any); [|intros ? _; by apply calmly_ret].
    apply (calmly_then _ _ any); [calm_step; apply calmly_ledger|]. intros r _. by apply calmly_ret. }
  eapply within_after; [apply calmly_gets|]. intros [[]|] _; [apply Hcalm; repeat calm_step; done..|].
  case_match; [apply Hcalm; unfold failStagnantExecution; repeat calm_step; done|].
  case_match; [apply Hcalm; repeat calm_step; done|].
  eapply within_bind; [apply (within_steps (synced c))|]. intros [[] c1]; cbn; [apply IH|by apply Hcalm, calmly_ret|apply IH].
Qed.

(** C36: Automatic recovery of a task is bounded while an execution runs: whatever agents
    report, however turns and verifications end, whichever calls fail and wherever the process
    dies, one run of the loop puts the same task back into the queue at most as often as its
    counters allow at the start: three times for each of the three kinds of recovery, less what
    they count already. The bound is one of the loop, which holds the counters in memory; what
    it stores when a task starts or ends has no counters, so that a later execution begins anew. *)
Theorem automatic_recovery_bounded (fuel : nat) (c : loop_ctx) (previous : option loop_ctx) (stagnant : nat) (h : host) :
  requeued J t (run_loop clock uuid pr leaseTtl others draining env U J R fuel c previous stagnant h).2 ≤
  requeued J t h +
  Z.to_nat (3 - generation (cx_progress c) ("task-infra:" +:+ t)) +
  Z.to_nat (3 - generation (cx_progress c) ("task-prep:" +:+ t)) +
  Z.to_nat (3 - generation (cx_progress c) ("task-repair:" +:+ t)).
Proof.
  destruct (within_loop fuel c previous stagnant h) as [Hb _]. unfold allowance, counter in Hb.
  unfold counter_key, taskInfraRetryGenerationKey, taskPrepGenerationKey, taskRepairGenerationKey in Hb. lia.
Qed.
End bound.
