(* ===== verification/Reconcile.v ===== *)
(** * Reconciliation of the workload

    Models [src/server/legacy-control-plane/reconcile.ts]: what a process does at its
    start, and every minute after it, about jobs, planning sessions and slots that a
    dead process left behind.  The timer, the promises that make concurrent calls
    share one pass and the column [phase] of a job are not modelled. *)
From stdpp Require Import pretty.
From Stdlib Require Import Ascii.
From S2P Require Import Prelude Json JsonParse JsString Path Sql WorkspaceLease TaskAttempts SavedPlan Gate TurnErrors TaskRecovery.
From S2P Require Import RecoverySpecs StoredErrors WorkloadSlots JobRows QueueCoordinator Act Registries Host RunLifecycle Controls.
From S2P Require Import ExecutionLoop.
Local Open Scope act_scope.

#[local] Arguments bool_decide : simpl never.

(** [WorkloadRunSummary]: an active slot with the start of its run. *)
Record slot_summary := mkSummary { ss_slot : Slot.t; ss_startedAt : Z }.

(** [ORDER BY started_at] *)
Fixpoint insert_by_start (x : slot_summary) (l : list slot_summary) : list slot_summary :=
  match l with
  | [] => [x]
  | y :: l' => if bool_decide (ss_startedAt x < ss_startedAt y)%Z then x :: l else y :: insert_by_start x l'
  end.

Definition sort_by_start (l : list slot_summary) : list slot_summary := foldl (λ acc x, insert_by_start x acc) [] l.

Definition listActiveWorkloadSlots (username : option string) (s : stores) : list slot_summary :=
  sort_by_start (omap (λ x,
    if bool_decide (Slot.status x = SlotStatus.active) &&
       match username with
       | Some u => bool_decide (u = "") || bool_decide (Slot.username x = u)
       | None => true
       end
    then (λ r, mkSummary x (Run.startedAt r)) <$> find_run s (Slot.runId x) else None) (slots s)).

(** The text of a field that is set. *)
Definition ref_field (key : string) (ref : option json) : option string :=
  match ref ≫= json_get key with
  | Some (JStr s) => if bool_decide (s = "") then None else Some s
  | _ => None
  end.

Definition getRunRuntimeRef (runId : string) (s : stores) : option json :=
  r ← find_run s runId; text ← Run.runtimeRefJson r;
  if bool_decide (text = "") then None else parse_json text.

(** [buildCursorPlannerRuntimeHandle] *)
Definition planner_handle : RuntimeHandle.t := RuntimeHandle.mk "sandbox-worker" true true true true.

Definition PLANNING_TERMINAL_SLOT_GRACE_SEC : Z := 60.
Definition PLANNING_START_GRACE_SEC : Z := 120.

(** [{ ...progress, phase: 'running', status, progressCode, progressParams: null }] *)
Definition recoded (status code : string) (p : TaskProgress.t) : TaskProgress.t :=
  TaskProgress.mk "running" status (TaskProgress.currentIndex p) (TaskProgress.total p) (TaskProgress.currentTaskId p)
    (Some code) None (TaskProgress.tasks p) (TaskProgress.slices p) (TaskProgress.milestones p)
    (TaskProgress.repairGenerations p) (TaskProgress.verificationAttempts p) (TaskProgress.verificationBundleHashes p).

Definition paused_patch (j : job) (p : TaskProgress.t) : patch JobContent.t :=
  with_content (JobContent.set_progress
      (recoded "pending" (if jb_continueAfterPause j then "execution.resuming" else "execution.pending") p))
    (mkPatch (Some "paused") None (Some paused_error)
       (Some (Some (default "user_pause" (parseSuspensionKind (jb_suspensionKind j)))))
       (Some (jb_continueAfterPause j)) (Some None) true id).

Definition resumed_patch (p : TaskProgress.t) : patch JobContent.t :=
  with_content (JobContent.set_progress (recoded "running" "execution.resuming" p)) (clear_error (Some "running")).

Definition failed_planning : patch JobContent.t :=
  with_content (JobContent.set_planProgress
      (PlanProgress.set_phase "idle" "failed" (Some "plan.planning_failed") defaultPlanProgress))
    (error_patch "failed" (turnErrorDto "turn.unknown" None (Some "Planning interrupted before completion") None)).

Section reconcile.
Context (clock : nat → Z) (pr : process).
Context (advance : nat → list (string * string) → queue → result string unit * queue).

Notation now := (now clock).

(** ** Jobs *)

Definition clear_lease (jobId : string) : hostM unit :=
  await (act_modify (λ h, set_host_work (clearExecutionLease (now h) jobId (h_work h)) h)).

Definition interrupt_running (jobId : string) : hostM unit := λ h,
  let q := h_queue h in
  let '(r, l) := markRunningAttemptsInterruptedForJob jobId (now h) (w_ledger q) in
  (match r with Ok _ => Returned tt | Err e => Raised (plain_error e) end,
   set_queue (mkWorld (w_work q) (w_leases q) l (w_scheduled q)) h).

(** A pause that the dead process did not finish. *)
Definition finish_pause (username : string) (j : job) (p : TaskProgress.t) : hostM job :=
  let~ updated := updateJobRow clock (jb_id j) (paused_patch j p) in
  match updated with
  | None => act_ret j
  | Some u =>
      do~ clear_lease (jb_id j) in
      if jb_continueAfterPause j then
        do~ act_ignore (settleContinueAfterPause clock username (jb_id j)) in
        await (act_gets (λ h, default u (getUserJob username (jb_id j) h)))
      else act_ret u
  end.

(** A job that ran: it stays running, without the lease of the dead process. *)
Definition resume_running (username : string) (j : job) (p : TaskProgress.t) (deferQueueAdvance : bool) : hostM job :=
  let~ updated := updateJobRow clock (jb_id j) (resumed_patch p) in
  match updated with
  | None => act_ret j
  | Some u =>
      do~ clear_lease (jb_id j) in
      do~ ask in
      do~ interrupt_running (jb_id j) in
      do~ act_when (negb deferQueueAdvance) (advanceExecutionQueue advance username) in
      act_ret u
  end.

Definition reconcileStaleJobIfNeeded (username : string) (j : job) (deferQueueAdvance : bool) : hostM job :=
  let action := resolveStaleExecutionJobAction (jb_status j) in
  match action with
  | Noop => act_ret j
  | _ =>
      let~ active := act_gets (λ h, Loops.isLoopActive (jb_id j) (h_loops h)) in
      if active : bool then
        do~ act_modify (λ h, set_host_work (refreshExecutionLease pr (now h) (jb_id j) (h_work h)) h) in
        act_ret j
      else
        let p := (prepareInterruptedExecutionResume (JobContent.taskProgress (jb_content j))).2 in
        match action with
        | FinalizeUserPause => finish_pause username j p
        | _ => resume_running username j p deferQueueAdvance
        end
  end.

Fixpoint reconcileJobsForUser (username : string) (js : list job) : hostM (list job) :=
  match js with
  | [] => act_ret []
  | j :: js' =>
      let~ u := reconcileStaleJobIfNeeded username j false in
      let~ us := reconcileJobsForUser username js' in
      act_ret (u :: us)
  end.

(** [mapJob(row)]: the columns are those of the row, the plan and the progress are
    read now. *)
Definition mapJob (row : job) : hostM job := await (act_gets (λ h,
  match find_job (h_work h) (jb_id row) with
  | Some j => mkJobRow (jb_id row) (jb_username row) (jb_status row) (jb_planConfirmedAt row) (jb_createdAt row)
                (jb_activeRunId row) (jb_leaseOwner row) (jb_leaseExpiresAt row) (jb_lastError row)
                (jb_suspensionKind row) (jb_continueAfterPause row) (jb_recoveryReason row) (jb_updatedAt row) (jb_content j)
  | None => row
  end)).

(** Every row is tried; the failures are thrown together at the end. *)
Fixpoint try_all {A} (body : A → hostM unit) (xs : list A) (failed : bool) : hostM bool :=
  match xs with
  | [] => act_ret failed
  | x :: xs' =>
      let~ b := act_catch (do~ body x in act_ret false) (λ _, act_ret true) in
      try_all body xs' (failed || b)
  end.

Definition try_each {A} (message : string) (body : A → hostM unit) (xs : list A) : hostM unit :=
  let~ failed := try_all body xs false in
  if failed : bool then act_raise (plain_error message) else act_ret tt.

Definition EXECUTION_STATUSES : list string := ["running"; "pausing"; "paused"].

Definition reconcile_row (username : string) (deferQueueAdvance : bool) (row : job) : hostM unit :=
  let~ j := mapJob row in
  do~ reconcileStaleJobIfNeeded username j deferQueueAdvance in act_ret tt.

Definition reconcileOrphanRunningJobsForUser (username : string) : hostM unit :=
  let~ rows := await (act_gets (λ h, List.filter (λ j, bool_decide (jb_username j = username) &&
                                                       bool_decide (jb_status j ∈ EXECUTION_STATUSES)) (h_jobs h))) in
  try_each "Failed to reconcile running jobs" (reconcile_row username false) rows.

Definition reconcileOrphanRunningJobsOnStartup (deferQueueAdvance : bool) : hostM unit :=
  let~ rows := await (act_gets (λ h, List.filter (λ j, bool_decide (jb_status j ∈ EXECUTION_STATUSES)) (h_jobs h))) in
  try_each "Failed to reconcile running jobs" (λ row, reconcile_row (jb_username row) deferQueueAdvance row) rows.

(** ** Planning sessions *)

Definition reconcileStalePlanningSessionIfNeeded (session : job) : hostM unit :=
  let planStatus := PlanProgress.status (JobContent.planProgress (jb_content session)) in
  if negb (bool_decide (jb_status session = "planning")) then act_ret tt else
  let~ active := act_gets (λ h, RuntimeRegistry.isJobPlanning (jb_id session) (h_planning h)) in
  if active : bool then act_ret tt
  else if bool_decide (planStatus = "pending") then act_ret tt
  else
    let~ t := act_gets now in
    if bool_decide (planStatus = "running") &&
       negb (match jb_activeRunId session with Some r => negb (bool_decide (r = "")) | None => false end) &&
       bool_decide (t - jb_updatedAt session < PLANNING_START_GRACE_SEC)%Z
    then act_ret tt
    else
      do~ updateJobRow clock (jb_id session) failed_planning in
      act_modify (λ h, set_planning (RuntimeRegistry.endJobPlanning (jb_id session) None (h_planning h)).2 h).

Definition reconcileOrphanPlanningSessionsForUser (username : string) : hostM unit :=
  let~ rows := await (act_gets (λ h, List.filter (λ j, bool_decide (jb_username j = username) &&
                                                       bool_decide (jb_status j = "planning")) (h_jobs h))) in
  try_each "Failed to reconcile planning jobs" reconcileStalePlanningSessionIfNeeded rows.

Definition reconcileOrphanPlanningSessionsOnStartup : hostM unit :=
  let~ rows := await (act_gets (λ h, List.filter (λ j, bool_decide (jb_status j = "planning")) (h_jobs h))) in
  try_each "Failed to reconcile planning jobs" reconcileStalePlanningSessionIfNeeded rows.

(** ** Slots *)

Definition killRuntimeForStaleSlot (slot : Slot.t) : hostM unit :=
  let~ ref := await (act_gets (λ h, getRunRuntimeRef (Slot.runId slot) (h_work h))) in
  do~ act_when (match ref_field "scopeId" ref, ref_field "jobId" ref with
                | None, None => bool_decide (Slot.kind slot = RunKind.planning)
                | _, _ => true
                end)
        (registerRunRuntime (Slot.runId slot) planner_handle) in
  stopRunLifecycle clock advance (Slot.runId slot) "reconcile_stale" true.

Definition planningSlotOwnerFinished (slot : Slot.t) (t : Z) : hostM bool :=
  if negb (bool_decide (Slot.kind slot = RunKind.planning)) then act_ret false
  else await (act_gets (λ h,
    match find_job (h_work h) (Slot.ownerId slot) with
    | None => true
    | Some row =>
        if negb (bool_decide (jb_activeRunId row = Some (Slot.runId slot))) then true
        else
          let planStatus := PlanProgress.status (JobContent.planProgress (jb_content row)) in
          let planFinished := bool_decide (planStatus = "completed") || bool_decide (planStatus = "failed") in
          let ownerLeftPlanning := negb (bool_decide (jb_status row = "planning")) in
          if negb planFinished && negb ownerLeftPlanning then false
          else bool_decide (PLANNING_TERMINAL_SLOT_GRACE_SEC ≤ t - jb_updatedAt row)%Z
    end)).

Definition release_stale (reason : string) (slot : Slot.t) : hostM unit :=
  do~ killRuntimeForStaleSlot slot in
  do~ releaseWorkloadSlot clock advance (Slot.runId slot) (Some reason) true in
  do~ act_when (bool_decide (Slot.kind slot = RunKind.execution))
        (await (act_modify (λ h,
           set_host_work (clearStaleExecutionLeaseIfNeeded pr (now h) (Slot.ownerId slot) (h_work h)).2 h))) in
  await (act_modify (λ h, set_host_work (clearActiveRunIfMatches (Slot.ownerId slot) (Slot.runId slot) (h_work h)) h)).

Definition reconcile_slot (reason : string) (t : Z) (slot : Slot.t) : hostM unit :=
  let currentPid := bool_decide (Slot.leaseOwner slot = Some (leaseOwner pr)) in
  let leaseValid := match Slot.leaseExpiresAt slot with
                    | Some e => negb (bool_decide (e = 0%Z)) && bool_decide (t < e)%Z
                    | None => false
                    end in
  let~ ownerFinished := planningSlotOwnerFinished slot t in
  if currentPid && leaseValid && negb ownerFinished then
    act_when (bool_decide (Slot.kind slot = RunKind.planning))
      (act_modify (λ h, set_planning (RuntimeRegistry.tryStartJobPlanning (Slot.ownerId slot)
                           (Some (Slot.username slot)) (Some (Slot.runId slot)) (h_planning h)).2 h))
  else release_stale reason slot.

Definition reconcileWorkloadSlots (xs : list slot_summary) (reason : string) : hostM unit :=
  let~ t := act_gets now in
  try_each "Failed to reconcile workload slots" (λ x, reconcile_slot reason t (ss_slot x)) xs.

Definition reconcileOrphanWorkloadSlotsForUser (username : string) : hostM unit :=
  let~ xs := await (act_gets (λ h, listActiveWorkloadSlots (Some username) (h_work h))) in
  reconcileWorkloadSlots xs "reconcile_stale".

Definition reconcileOrphanWorkloadSlotsOnStartup (reason : string) : hostM unit :=
  let~ xs := await (act_gets (λ h, listActiveWorkloadSlots None (h_work h))) in
  reconcileWorkloadSlots xs reason.

(** ** Passes *)

Definition reconcileUserPlanningState : string → hostM unit := reconcileOrphanPlanningSessionsForUser.
Definition reconcileUserExecutionState : string → hostM unit := reconcileOrphanRunningJobsForUser.

Definition reconcileUserWorkloadState (username : string) : hostM unit :=
  do~ reconcileOrphanWorkloadSlotsForUser username in
  do~ reconcileUserExecutionState username in
  reconcileUserPlanningState username.

(** The stages of the startup: slots, jobs, planning sessions. *)
Definition startup_reconcile : hostM unit :=
  do~ reconcileOrphanWorkloadSlotsOnStartup "startup_reconcile_stale" in
  do~ reconcileOrphanRunningJobsOnStartup true in
  reconcileOrphanPlanningSessionsOnStartup.

Definition runPeriodicWorkloadReconcile : hostM unit :=
  do~ act_ignore (reconcileOrphanWorkloadSlotsOnStartup "periodic_reconcile_stale") in
  do~ act_ignore (reconcileOrphanRunningJobsOnStartup true) in
  do~ act_ignore reconcileOrphanPlanningSessionsOnStartup in
  advanceWorkloadQueue advance "".
End reconcile.

(** ** What the pass over the jobs guarantees *)

(** A task that ran waits in the queue again, with the evidence it had and without an
    error message; every other item is kept as it is. *)
Definition item_back (t t' : TaskProgressItem.t) : Prop :=
  if bool_decide (TaskProgressItem.status t = "running") then
    t' = TaskProgressItem.mk (TaskProgressItem.id t) (TaskProgressItem.title t) "queued" (TaskProgressItem.abilityCode t)
           (Some "queued") (TaskProgressItem.evidenceStatus t) (TaskProgressItem.evidence t) None
           (TaskProgressItem.error t) (TaskProgressItem.coreCode t)
  else t' = t.

(** A slice that was being verified is ready for it again, one that ran has no status;
    its verdict is kept. *)
Definition slice_back (s s' : slice_progress SliceRecord.t) : Prop :=
  sp_id s' = sp_id s ∧ sp_verificationStatus s' = sp_verificationStatus s ∧ sp_verdict s' = sp_verdict s ∧
  sp_runtimeStatus s' =
    (if bool_decide (sp_runtimeStatus s = Some "verifying") then Some "ready-for-verification"
     else if bool_decide (sp_runtimeStatus s = Some "running") then None
     else sp_runtimeStatus s).

Definition milestone_back (m m' : milestone_progress) : Prop :=
  mp_id m' = mp_id m ∧
  mp_verificationStatus m' =
    (if bool_decide (mp_verificationStatus m = Some "verifying") then Some "ready-for-verification"
     else mp_verificationStatus m).

Definition taken_back (p p' : TaskProgress.t) : Prop :=
  Forall2 item_back (TaskProgress.tasks p) (TaskProgress.tasks p') ∧
  Forall2 slice_back (TaskProgress.slices p) (TaskProgress.slices p') ∧
  Forall2 milestone_back (TaskProgress.milestones p) (TaskProgress.milestones p') ∧
  TaskProgress.repairGenerations p' = TaskProgress.repairGenerations p ∧
  TaskProgress.verificationAttempts p' = TaskProgress.verificationAttempts p.

(** What becomes of the row of a job. *)
Definition reconciled (j j' : job) : Prop :=
  jb_id j' = jb_id j ∧ jb_username j' = jb_username j ∧ jb_activeRunId j' = jb_activeRunId j ∧
  if bool_decide (jb_status j = "running") then
    jb_status j' = "running" ∧ jb_lastError j' = None ∧ jb_leaseOwner j' = None ∧ jb_leaseExpiresAt j' = None ∧
    taken_back (JobContent.taskProgress (jb_content j)) (JobContent.taskProgress (jb_content j'))
  else if bool_decide (jb_status j = "pausing") then
    (jb_status j' = "paused" ∨ jb_continueAfterPause j = true ∧ jb_status j' = "pending") ∧
    jb_leaseOwner j' = None ∧ jb_leaseExpiresAt j' = None ∧
    taken_back (JobContent.taskProgress (jb_content j)) (JobContent.taskProgress (jb_content j'))
  else j' = j.

Lemma item_reset t : item_back t (reset_running_item t).
Proof. unfold item_back, reset_running_item. by case_bool_decide. Qed.

Lemma slice_reset s : slice_back s (clear_running_slice (reset_slice_row s)).
Proof.
  unfold slice_back, clear_running_slice, reset_slice_row, reset_verifying. cbn.
  destruct (bool_decide (sp_runtimeStatus s = Some "verifying")) eqn:E; cbn; [done|].
  by destruct (bool_decide (sp_runtimeStatus s = Some "running")).
Qed.

Lemma milestone_reset m : milestone_back m (reset_milestone_row m).
Proof. done. Qed.

Lemma Forall2_map_self {A} (P : A → A → Prop) (f : A → A) l : (∀ x, P x (f x)) → Forall2 P l (map f l).
Proof. intros Hf. induction l; constructor; auto. Qed.

(** What was taken back is not changed by taking it back again. *)
Lemma Forall2_map_stable {A} (P : A → A → Prop) (f : A → A) l l' :
  (∀ x y, P x y → P x (f y)) → Forall2 P l l' → Forall2 P l (map f l').
Proof. intros Hf. induction 1; constructor; auto. Qed.

Lemma prepared_taken_back p st code : taken_back p (recoded st code (prepareInterruptedExecutionResume p).2).
Proof.
  split_and!; [apply Forall2_map_self, item_reset| |apply Forall2_map_self, milestone_reset|done|done].
  cbn. rewrite map_map. apply Forall2_map_self, slice_reset.
Qed.

Lemma item_back_again t t' : item_back t t' → item_back t (reset_running_item t').
Proof.
  unfold item_back. destruct (bool_decide (TaskProgressItem.status t = "running")) eqn:E; intros ->;
    unfold reset_running_item; cbn; [by rewrite bool_decide_eq_false_2|by rewrite E].
Qed.

Lemma slice_back_again s s' : slice_back s s' → slice_back s (clear_running_slice (reset_slice_row s')).
Proof.
  intros (Hi & Hv & Hd & Hr). destruct (slice_reset s') as (Hi' & Hv' & Hd' & Hr').
  split_and!; [congruence..|]. rewrite Hr', Hr. destruct (bool_decide (sp_runtimeStatus s = Some "verifying")) eqn:E1; [done|].
  destruct (bool_decide (sp_runtimeStatus s = Some "running")) eqn:E2; [done|]. by rewrite E1, E2.
Qed.

Lemma milestone_back_again m m' : milestone_back m m' → milestone_back m (reset_milestone_row m').
Proof.
  intros [Hi Hv]. split; [done|]. cbn. unfold reset_verifying. rewrite Hv.
  destruct (bool_decide (mp_verificationStatus m = Some "verifying")) eqn:E; [done|]. by rewrite E.
Qed.

Lemma resuming_taken_back p q : taken_back p q → taken_back p (resuming_progress q).
Proof.
  intros (Ht & Hs & Hm & Hr & Hv). split_and!; cbn; [| | |done|done].
  - by apply Forall2_map_stable, Ht; apply item_back_again.
  - rewrite map_map. by apply Forall2_map_stable, Hs; apply slice_back_again.
  - by apply Forall2_map_stable, Hm; apply milestone_back_again.
Qed.

(** *** One job *)

Section specs.
Context (clock : nat → Z) (pr : process).
Context (advance : nat → list (string * string) → queue → result string unit * queue).

(** A process that has just started and whose calls do not fail. *)
Definition booted (h : host) : Prop := h_answers h = [] ∧ Loops.activeLoops (h_loops h) = [].

Definition rows (J : string) (P : job → Prop) (h : host) : Prop :=
  (∃ j, j ∈ h_jobs h ∧ jb_id j = J) ∧ ∀ j, j ∈ h_jobs h → jb_id j = J → P j.

(** Only rows of job [J] differ. *)
Definition apart (J : string) (h h' : host) : Prop :=
  ∃ f, (∀ j, jb_id (f j) = jb_id j) ∧ h_jobs h' = update_where (by_id J) f (h_jobs h).

(** Started where the rows of [J] satisfy [P], the code ends where they satisfy
    [Q], or throws where they satisfy [E]; it changes no other job. *)
Definition turns (J : string) (P : job → Prop) {A} (m : hostM A) (Q : A → job → Prop) (E : job → Prop) : Prop :=
  ∀ h, booted h → rows J P h → ∃ o h', m h = (o, h') ∧ booted h' ∧ apart J h h' ∧
    match o with Returned a => rows J (Q a) h' | Raised _ => rows J E h' | Died => False end.

Lemma apart_same J h h' : h_jobs h' = h_jobs h → apart J h h'.
Proof.
  intros E. exists id. split; [done|]. rewrite E. generalize (h_jobs h). intros l. induction l as [|j l IH]; [done|].
  rewrite update_where_cons, <-IH. by destruct (by_id J j).
Qed.

Lemma apart_trans J h1 h2 h3 : apart J h1 h2 → apart J h2 h3 → apart J h1 h3.
Proof.
  intros (f & Hf & E1) (g & Hg & E2). exists (λ j, g (f j)). split; [intros j; by rewrite Hg, Hf|]. rewrite E2, E1.
  generalize (h_jobs h1). intros l. induction l as [|j l IH]; [done|]. rewrite !update_where_cons, IH. f_equal. unfold by_id.
  destruct (bool_decide (jb_id j = J)) eqn:Ej; [by rewrite Hf, Ej|by rewrite Ej].
Qed.

Lemma rows_weaken J (P Q : job → Prop) h : (∀ j, P j → Q j) → rows J P h → rows J Q h.
Proof. intros HPQ [Hex Hall]. split; [done|]. intros j Hj Hid. by apply HPQ, Hall. Qed.

Lemma turns_ret {A} J (a : A) P E : turns J P (act_ret a) (λ _, P) E.
Proof. intros h Hb Hr. eexists _, h. split; [reflexivity|]. split; [done|]. split; [by apply apart_same|done]. Qed.

Lemma turns_bind {A B} J (m : hostM A) (k : A → hostM B) P M Q E :
  turns J P m M E → (∀ a, turns J (M a) (k a) Q E) → turns J P (act_bind m k) Q E.
Proof.
  intros Hm Hk h Hb Hr. destruct (Hm h Hb Hr) as (o & h1 & E1 & Hb1 & Ha1 & Ho). unfold act_bind. rewrite E1.
  destruct o as [a|e|]; [|by eexists _, h1|done]. destruct (Hk a h1 Hb1 Ho) as (o2 & h2 & E2 & Hb2 & Ha2 & Ho2).
  exists o2, h2. split; [done|]. split; [done|]. split; [by eapply apart_trans|done].
Qed.

Lemma turns_weaken {A} J (m : hostM A) (P P' : job → Prop) (Q Q' : A → job → Prop) (E E' : job → Prop) :
  turns J P m Q E → (∀ j, P' j → P j) → (∀ a j, Q a j → Q' a j) → (∀ j, E j → E' j) → turns J P' m Q' E'.
Proof.
  intros Hm HP HQ HE h Hb Hr. destruct (Hm h Hb (rows_weaken _ _ _ _ HP Hr)) as (o & h1 & E1 & Hb1 & Ha1 & Ho).
  exists o, h1. split; [done|]. split; [done|]. split; [done|].
  destruct o; [eapply rows_weaken; [|exact Ho]; apply HQ|eapply rows_weaken; [|exact Ho]; apply HE|done].
Qed.

Lemma turns_ignore {A} J (m : hostM A) P (Q : job → Prop) : turns J P m (λ _, Q) Q → ∀ E, turns J P (act_ignore m) (λ _, Q) E.
Proof.
  intros Hm E h Hb Hr. destruct (Hm h Hb Hr) as (o & h1 & E1 & Hb1 & Ha1 & Ho). unfold act_ignore, act_catch, act_bind. rewrite E1.
  destruct o; [by eexists _, h1|by eexists _, h1|done].
Qed.

Lemma turns_ask J P E : turns J P ask (λ _, P) E.
Proof.
  intros h [Ha Hl] Hr. eexists _, _. split; [by apply ask_quiet|]. split; [by split|]. split; [by apply apart_same|done].
Qed.

(** A value read from the state. *)
Lemma turns_gets {A} J (f : host → A) P E : turns J P (act_gets f) (λ a j, P j ∧ ∃ h, booted h ∧ rows J P h ∧ a = f h) E.
Proof.
  intros h Hb Hr. eexists _, h. split; [reflexivity|]. split; [done|]. split; [by apply apart_same|].
  destruct Hr as [Hex Hall]. split; [done|]. intros j Hj Hid. split; [by apply Hall|]. by exists h.
Qed.

(** A change of the rows of the job. *)
Lemma turns_rows J (F : host → job → job) (m : hostM unit) P E :
  (∀ h j, jb_id (F h j) = jb_id j) →
  (∀ h, m h = (Returned tt, (m h).2)) → (∀ h, booted h → booted (m h).2) →
  (∀ h, h_jobs (m h).2 = update_where (by_id J) (F h) (h_jobs h)) →
  turns J P m (λ _ j', ∃ h j, P j ∧ j' = F h j) E.
Proof.
  intros HF Hm Hb Hj h Hbh [(j & Hin & Hid) Hall]. eexists _, _. split; [apply Hm|]. split; [by apply Hb|].
  split; [by exists (F h)|]. assert (∀ j', j' ∈ h_jobs (m h).2 ↔ ∃ x, x ∈ h_jobs h ∧ j' = if by_id J x then F h x else x) as Hel.
  { intros j'. rewrite Hj. apply elem_of_update. }
  split.
  - exists (F h j). split; [|by rewrite HF]. apply Hel. exists j. split; [done|]. unfold by_id. by rewrite bool_decide_eq_true_2.
  - intros j' (x & Hx & ->)%Hel Hid'. unfold by_id in *. case_bool_decide as Hc; [|done]. exists h, x. split; [by apply Hall|done].
Qed.

Lemma turns_clear_lease J P E :
  turns J P (clear_lease clock J) (λ _ j', ∃ t j, P j ∧ j' = set_lease None None t j) E.
Proof.
  eapply turns_bind; [apply turns_ask|]. intros ?. cbv beta. eapply turns_weaken.
  - apply (turns_rows J (λ h, set_lease None None (now clock h)) _ P E); [done|done| |done].
    intros h [Ha Hl]. by split.
  - done.
  - intros _ j' (h & j & Hj & ->). by eexists _, j.
  - done.
Qed.

Lemma turns_update J p P E :
  turns J P (updateJobRow clock J p) (λ u j', is_Some u ∧ (∀ x, u = Some x → ∃ t j, P j ∧ x = patch_row t p j) ∧ ∃ t j, P j ∧ j' = patch_row t p j) E.
Proof.
  intros h [Ha Hl] [(j & Hin & Hid) Hall]. set (h1 := set_answers [] (S (h_ticks h)) h).
  set (s := JobRows.updateJobRow (now clock h1) J p (h_work h)).
  assert (jobs s = update_where (by_id J) (patch_row (now clock h1) p) (h_jobs h)) as Hs by done.
  assert (∀ x, x ∈ jobs s → jb_id x = J → ∃ t j, P j ∧ x = patch_row t p j) as Hrow.
  { intros x Hx Hxid. rewrite Hs in Hx. apply elem_of_update in Hx as (y & Hy & ->). unfold by_id in *.
    case_bool_decide as Hc; [|done]. exists (now clock h1), y. split; [by apply Hall|done]. }
  assert (is_Some (find_job s J)) as [u Hu].
  { unfold find_job. destruct (List.find (by_id J) (jobs s)) eqn:E1; [by eexists|].
    assert (patch_row (now clock h1) p j ∈ jobs s) as Hm%list_elem_of_In.
    { rewrite Hs. apply elem_of_update. exists j. split; [done|]. unfold by_id. by rewrite bool_decide_eq_true_2. }
    pose proof (List.find_none _ _ E1 _ Hm) as Hn. unfold by_id in Hn. cbn in Hn. by rewrite bool_decide_eq_true_2 in Hn. }
  assert (∃ t j, P j ∧ u = patch_row t p j) as Hux.
  { unfold find_job in Hu. apply List.find_some in Hu as [Hu1%list_elem_of_In Hu2%bool_decide_eq_true]. by apply Hrow. }
  exists (Returned (find_job s J)), (set_host_work s h1). split.
  { unfold updateJobRow, await, act_bind. by rewrite ask_quiet. }
  split; [by split|]. split.
  { exists (patch_row (now clock h1) p). done. }
  rewrite Hu. split.
  - exists u. unfold find_job in Hu. apply List.find_some in Hu as [Hu1%list_elem_of_In Hu2%bool_decide_eq_true]. done.
  - intros x Hx Hxid. split; [done|]. split; [by intros x' [= <-]|by apply Hrow].
Qed.

(** Code that leaves the rows alone, and returns or throws. *)
Lemma turns_aside {A} J (m : hostM A) P :
  (∀ h, booted h → booted (m h).2 ∧ h_jobs (m h).2 = h_jobs h ∧ (m h).1 ≠ Died) → turns J P m (λ _, P) P.
Proof.
  intros Hm h Hb [Hex Hall]. destruct (Hm h Hb) as (Hb' & Hj & Hd). exists (m h).1, (m h).2. split; [by destruct (m h)|].
  split; [done|]. split; [by apply apart_same|]. assert (rows J P (m h).2) by (split; rewrite Hj; done). by destruct (m h).1.
Qed.

Lemma turns_authorize J P : turns J P (authorizeReplay clock J) (λ _, P) P.
Proof. apply turns_aside. intros h [Ha Hl]. unfold authorizeReplay. by repeat case_match. Qed.

Lemma turns_interrupt J P : turns J P (interrupt_running clock J) (λ _, P) P.
Proof. apply turns_aside. intros h [Ha Hl]. unfold interrupt_running. by repeat case_match. Qed.

Lemma user_row U J h (P : job → Prop) j : rows J P h → getUserJob U J h = Some j → P j.
Proof.
  intros [_ Hall] E. apply List.find_some in E as [Hin%list_elem_of_In [Hid%bool_decide_eq_true _]%andb_true_iff]. by apply Hall.
Qed.

(** Rows that may have been promoted. *)
Definition promoted (P : job → Prop) (j' : job) : Prop :=
  P j' ∨ ∃ j t, P j ∧ jb_status j = "paused" ∧ jb_continueAfterPause j = true ∧ j' = to_pending t j.

Lemma turns_promote J P E :
  turns J P (λ h, let '(b, s) := promoteContinuedPauseToPending (now clock h) J (h_work h) in (Returned b, set_host_work s h))
    (λ _, promoted P) E.
Proof.
  intros h [Ha Hl] [(j & Hin & Hid) Hall].
  set (q := λ j : job, by_id J j && bool_decide (jb_status j = "paused") && jb_continueAfterPause j).
  destruct (promoteContinuedPauseToPending (now clock h) J (h_work h)) as [b s] eqn:Ep.
  assert (jobs s = update_where q (to_pending (now clock h)) (h_jobs h)) as Hs.
  { unfold promoteContinuedPauseToPending in Ep. by simplify_eq. }
  eexists _, _. split; [reflexivity|]. split; [by split|]. split.
  - exists (λ j, if q j then to_pending (now clock h) j else j). split; [intros j'; by destruct (q j')|].
    change (h_jobs (set_host_work s h)) with (jobs s). rewrite Hs. unfold update_where. apply map_ext. intros x.
    unfold q. destruct (by_id J x); [|done]. cbn. by repeat case_match.
  - change (rows J (promoted P) (set_host_work s h)). unfold rows. change (h_jobs (set_host_work s h)) with (jobs s).
    assert (∀ x, x ∈ jobs s ↔ ∃ y, y ∈ h_jobs h ∧ x = if q y then to_pending (now clock h) y else y) as Hel.
    { intros x. rewrite Hs. apply elem_of_update. }
    split.
    + exists (if q j then to_pending (now clock h) j else j). split; [apply Hel; eauto|]. by case_match.
    + intros x (y & Hy & ->)%Hel Hx. destruct (q y) eqn:Eq; [|left; by apply Hall].
      unfold q in Eq. apply andb_true_iff in Eq as [[E1%bool_decide_eq_true E2%bool_decide_eq_true]%andb_true_iff E3].
      right. exists y, (now clock h). split; [by apply Hall|done].
Qed.

Lemma turns_pure {A} J (m : hostM A) (φ : Prop) (P : job → Prop) Q E : (φ → turns J P m Q E) → turns J (λ j, P j ∧ φ) m Q E.
Proof.
  intros Hm h Hb [(j & Hin & Hid) Hall]. assert (φ) as Hφ by (by apply (Hall j)).
  apply (Hm Hφ h Hb). split; [by exists j|]. intros j' Hj' Hid'. by apply Hall.
Qed.

(** *** A pause is finished *)

Definition keeps_identity (x j : job) : Prop :=
  jb_id j = jb_id x ∧ jb_username j = jb_username x ∧ jb_activeRunId j = jb_activeRunId x.

Definition unleased (x j : job) : Prop :=
  keeps_identity x j ∧ jb_leaseOwner j = None ∧ jb_leaseExpiresAt j = None ∧
  taken_back (JobContent.taskProgress (jb_content x)) (JobContent.taskProgress (jb_content j)).

Definition paused_row (x j : job) : Prop :=
  unleased x j ∧ jb_status j = "paused" ∧ jb_continueAfterPause j = jb_continueAfterPause x.

Definition pause_done (x j : job) : Prop :=
  unleased x j ∧ (jb_status j = "paused" ∨ jb_continueAfterPause x = true ∧ jb_status j = "pending").

Lemma paused_is_done x j : paused_row x j → pause_done x j.
Proof. intros (Hu & Hs & _). split; [done|by left]. Qed.

Lemma promoted_is_done x j : promoted (paused_row x) j → pause_done x j.
Proof.
  intros [Hp|(j0 & t & (Hu & Hs & Hc) & _ & Hc' & ->)]; [by apply paused_is_done|]. split; [|right; by rewrite <-Hc].
  destruct Hu as (? & ? & ? & ?). done.
Qed.

Lemma turns_settle_continue U x E :
  turns (jb_id x) (paused_row x) (settleContinueAfterPause clock U (jb_id x)) (λ _, pause_done x) (pause_done x) →
  turns (jb_id x) (paused_row x) (act_ignore (settleContinueAfterPause clock U (jb_id x))) (λ _, pause_done x) E.
Proof. intros Hm. by apply turns_ignore. Qed.

Lemma turns_settle U x :
  turns (jb_id x) (paused_row x) (settleContinueAfterPause clock U (jb_id x)) (λ _, pause_done x) (pause_done x).
Proof.
  assert (∀ b, turns (jb_id x) (paused_row x) (act_ret b : hostM bool) (λ _, pause_done x) (pause_done x)) as Hret.
  { intros b. eapply turns_weaken; [apply (turns_ret _ b (paused_row x) (pause_done x))|done|intros ? j; apply paused_is_done|done]. }
  unfold settleContinueAfterPause. eapply turns_bind; [apply turns_ask|]. intros ?. cbv beta.
  eapply turns_bind; [apply turns_gets|]. intros o. cbv beta. apply turns_pure. intros (h0 & _ & Hr0 & ->).
  destruct (getUserJob U (jb_id x) h0) as [j|] eqn:Ej; [|apply Hret].
  pose proof (user_row _ _ _ _ _ Hr0 Ej) as Hj. clear h0 Hr0 Ej. destruct (_ || _); [apply Hret|].
  eapply turns_bind with (M := λ _, paused_row x).
  { eapply turns_weaken; [apply (turns_authorize _ (paused_row x))|done|done|apply paused_is_done]. }
  intros ?. cbv beta. eapply turns_bind; [apply turns_promote|]. intros b. cbv beta. destruct (negb b).
  { eapply turns_weaken; [apply (turns_ret _ false (pause_done x) (pause_done x))|apply promoted_is_done|done|done]. }
  eapply turns_bind with (M := λ _, pause_done x).
  - eapply turns_weaken; [apply (turns_update _ _ (promoted (paused_row x)) (pause_done x))|done| |done].
    intros u j' (_ & _ & t & j0 & Hj0 & ->). apply promoted_is_done in Hj0 as [(Hid & Hlo & Hle & Hb) Hst].
    destruct Hj as [(_ & _ & _ & Hb') _]. split; [split_and!; [exact Hid|exact Hlo|exact Hle|]|exact Hst].
    cbn. by apply resuming_taken_back.
  - intros ?. cbv beta. eapply turns_weaken; [apply (turns_ret _ true (pause_done x) (pause_done x))|done..].
Qed.

Lemma turns_finish_pause U x E :
  turns (jb_id x) (λ j, j = x) (finish_pause clock U x (prepareInterruptedExecutionResume (JobContent.taskProgress (jb_content x))).2)
    (λ _, pause_done x) E.
Proof.
  unfold finish_pause. eapply turns_bind; [apply turns_update|]. intros u. cbv beta.
  eapply turns_weaken with (P := λ j', paused_row x j' ∧ is_Some u) (Q := λ _, pause_done x) (E := E); [apply turns_pure; intros [v ->]| | |].
  - eapply turns_bind with (M := λ _, paused_row x).
    + eapply turns_weaken; [apply (turns_clear_lease _ (paused_row x) E)|done| |done].
      intros ? j' (t & j & ((Hi & _ & _ & Hb) & Hs & Hc) & ->). split; [|done]. split; [exact Hi|done].
    + intros ?. cbv beta. destruct (jb_continueAfterPause x).
      * eapply turns_bind; [apply turns_settle_continue, turns_settle|]. intros ?. cbv beta.
        eapply turns_bind; [apply turns_ask|]. intros ?. cbv beta.
        eapply turns_weaken; [apply (turns_gets _ _ (pause_done x) E)|done| |done]. cbv beta. intros ? j' [Hd _]. exact Hd.
      * eapply turns_weaken; [apply (turns_ret _ v (paused_row x) E)|done|intros ? j; apply paused_is_done|done].
  - intros j (Hu & _ & t & j0 & -> & ->). split; [|done]. split; [|done]. do 3 (split; [done|]). apply prepared_taken_back.
  - done.
  - done.
Qed.

(** *** A running job is resumed *)

Definition resumed_row (x j : job) : Prop := unleased x j ∧ jb_status j = "running" ∧ jb_lastError j = None.

Lemma turns_resume_running U x :
  turns (jb_id x) (λ j, j = x)
    (resume_running clock advance U x (prepareInterruptedExecutionResume (JobContent.taskProgress (jb_content x))).2 true)
    (λ _, resumed_row x) (resumed_row x).
Proof.
  unfold resume_running. eapply turns_bind; [apply turns_update|]. intros u. cbv beta.
  eapply turns_weaken with (P := λ j', (keeps_identity x j' ∧ jb_status j' = "running" ∧ jb_lastError j' = None ∧
    taken_back (JobContent.taskProgress (jb_content x)) (JobContent.taskProgress (jb_content j'))) ∧ is_Some u) (Q := λ _, resumed_row x) (E := resumed_row x);
    [apply turns_pure; intros [v ->]| | |].
  - eapply turns_bind with (M := λ _, resumed_row x).
    + eapply turns_weaken; [apply (turns_clear_lease _ _ (resumed_row x))|intros j Hj; exact Hj| |done].
      intros ? j' (t & j & (Hi & Hs & He & Hb) & ->). split; [|done]. split; [exact Hi|done].
    + intros ?. cbv beta. eapply turns_bind; [apply turns_ask|]. intros ?. cbv beta.
      eapply turns_bind; [apply turns_interrupt|]. intros ?. cbv beta. cbn.
      eapply turns_bind; [apply (turns_ret _ tt)|]. intros ?. apply (turns_ret _ v).
  - intros j (Hu & _ & t & j0 & -> & ->). split; [|done]. do 3 (split; [done|]). apply prepared_taken_back.
  - done.
  - done.
Qed.

Lemma done_reconciled x j : jb_status x = "pausing" → pause_done x j → reconciled x j.
Proof.
  intros Hst [((Hid & Hu & Ha) & Hlo & Hle & Hb) Hs]. unfold reconciled. rewrite Hst.
  rewrite bool_decide_eq_false_2, bool_decide_eq_true_2 by done. done.
Qed.

Lemma resumed_reconciled x j : jb_status x = "running" → resumed_row x j → reconciled x j.
Proof.
  intros Hst [((Hid & Hu & Ha) & Hlo & Hle & Hb) [Hs He]]. unfold reconciled. rewrite Hst.
  rewrite bool_decide_eq_true_2 by done. done.
Qed.

Lemma idle_reconciled x : jb_status x ≠ "running" → jb_status x ≠ "pausing" → reconciled x x.
Proof. intros Hr Hp. unfold reconciled. by rewrite !bool_decide_eq_false_2. Qed.

Lemma turns_reconcile_row U x :
  turns (jb_id x) (λ j, j = x) (reconcile_row clock pr advance U true x) (λ _, reconciled x) (reconciled x).
Proof.
  unfold reconcile_row. eapply turns_bind with (M := λ y j, j = x ∧ y = x).
  { eapply turns_bind; [apply turns_ask|]. intros ?. cbv beta.
    eapply turns_weaken; [apply (turns_gets _ _ (λ j, j = x) (reconciled x))|done| |done].
    intros y j [-> (h & _ & [(z & Hz & Hzid) Hall] & ->)]. split; [done|].
    destruct (find_job (h_work h) (jb_id x)) as [w|] eqn:Ew; [|done]. unfold find_job in Ew.
    apply List.find_some in Ew as [Hw%list_elem_of_In Hwid%bool_decide_eq_true]. rewrite (Hall w Hw Hwid). by destruct x. }
  intros y. cbv beta. apply turns_pure. intros ->.
  eapply turns_bind with (M := λ _, reconciled x); [|intros ?; apply turns_ret].
  unfold reconcileStaleJobIfNeeded, resolveStaleExecutionJobAction.
  assert (∀ a : hostM job, turns (jb_id x) (λ j, j = x) a (λ _, reconciled x) (reconciled x) →
    turns (jb_id x) (λ j, j = x) (let~ active := act_gets (λ h, Loops.isLoopActive (jb_id x) (h_loops h)) in
      if active : bool then
        do~ act_modify (λ h, set_host_work (refreshExecutionLease pr (now clock h) (jb_id x) (h_work h)) h) in act_ret x
      else a) (λ _, reconciled x) (reconciled x)) as Hidle.
  { intros a Ha. eapply turns_bind; [apply turns_gets|]. intros active. cbv beta. apply turns_pure. intros (h & [_ Hl] & _ & ->).
    unfold Loops.isLoopActive. rewrite Hl. by rewrite bool_decide_eq_false_2 by apply not_elem_of_nil. }
  case_bool_decide as E1; [|case_bool_decide as E2; [|case_bool_decide as E3]].
  - apply Hidle. eapply turns_weaken; [apply (turns_finish_pause U x (pause_done x))|done| |]; intros; by apply done_reconciled.
  - eapply turns_weaken; [apply (turns_ret _ x (λ j, j = x) (reconciled x))|done| |done].
    intros ? j ->. apply idle_reconciled; congruence.
  - apply Hidle. eapply turns_weaken; [apply turns_resume_running|done| |]; intros; by apply resumed_reconciled.
  - eapply turns_weaken; [apply (turns_ret _ x (λ j, j = x) (reconciled x))|done| |done].
    intros ? j ->. by apply idle_reconciled.
Qed.

(** *** All jobs *)

(** [l] are the rows before, [todo] those that are still to be treated. *)
Definition treated (l todo : list job) (h : host) : Prop :=
  booted h ∧ Forall2 (λ x j, jb_id j = jb_id x ∧
    if bool_decide (jb_id x ∈ map jb_id todo) then j = x else reconciled x j) l (h_jobs h).

Lemma same_id l (x y : job) : NoDup (map jb_id l) → x ∈ l → y ∈ l → jb_id x = jb_id y → x = y.
Proof.
  intros Hnd [i Hi]%list_elem_of_lookup [k Hk]%list_elem_of_lookup Hid.
  assert (i = k) as ->; [|congruence]. eapply (NoDup_lookup _ _ _ (jb_id x) Hnd); rewrite list_lookup_fmap; [by rewrite Hi|rewrite Hk; cbn; congruence].
Qed.

Lemma treat_one l x todo h :
  NoDup (map jb_id l) → x ∈ l → jb_id x ∉ map jb_id todo → treated l (x :: todo) h →
  ∃ o h', reconcile_row clock pr advance (jb_username x) true x h = (o, h') ∧ o ≠ Died ∧ treated l todo h'.
Proof.
  intros Hnd Hx Htodo [Hb Hall]. rewrite Forall2_lookup in Hall.
  assert (∀ j, j ∈ h_jobs h → jb_id j = jb_id x → j = x) as Hrow.
  { intros j [i Hi]%list_elem_of_lookup Hid. specialize (Hall i). rewrite Hi in Hall.
    destruct (l !! i) as [y|] eqn:Hly; inversion_clear Hall as [? ? Hyj|]. destruct Hyj as [Hid' Hy].
    assert (y = x) as -> by (apply (same_id l); [done|by eapply list_elem_of_lookup_2|done|congruence]).
    by rewrite bool_decide_eq_true_2 in Hy by (cbn; set_solver). }
  assert (rows (jb_id x) (λ j, j = x) h) as Hrows.
  { split; [|done]. apply list_elem_of_lookup in Hx as [i Hi]. specialize (Hall i). rewrite Hi in Hall.
    destruct (h_jobs h !! i) as [j|] eqn:Hj; inversion_clear Hall as [? ? Hxj|]. destruct Hxj as [Hid _]. exists j. split; [by eapply list_elem_of_lookup_2|done]. }
  destruct (turns_reconcile_row (jb_username x) x h Hb Hrows) as (o & h' & E & Hb' & (f & Hf & Hjobs) & Ho).
  exists o, h'. split; [done|]. split; [by destruct o|].
  assert (∀ j, j ∈ h_jobs h' → jb_id j = jb_id x → reconciled x j) as Hnew.
  { destruct o; [by apply Ho|by apply Ho|done]. }
  split; [done|]. apply Forall2_lookup. intros i. specialize (Hall i).
  assert (h_jobs h' !! i = (λ j, if by_id (jb_id x) j then f j else j) <$> (h_jobs h !! i)) as Hi.
  { rewrite Hjobs. apply list_lookup_fmap. }
  rewrite Hi. destruct (l !! i) as [y|] eqn:Hly, (h_jobs h !! i) as [j|] eqn:Hlj; inversion_clear Hall as [? ? Hyj|]; cbn; constructor.
  destruct Hyj as [Hid Hy]. unfold by_id.
  destruct (decide (jb_id j = jb_id x)) as [Hc|Hc]; [rewrite (bool_decide_eq_true_2 (jb_id j = _)) by done|
    rewrite (bool_decide_eq_false_2 (jb_id j = _)) by done]; (split; [rewrite ?Hf; congruence|]).
  - assert (y = x) as -> by (apply (same_id l); [done|by eapply list_elem_of_lookup_2|done|congruence]).
    rewrite bool_decide_eq_false_2 by done. apply Hnew; [|by rewrite Hf].
    apply (list_elem_of_lookup_2 _ i). rewrite Hi. cbn. unfold by_id. by rewrite bool_decide_eq_true_2.
  - assert (bool_decide (jb_id y ∈ map jb_id (x :: todo)) = bool_decide (jb_id y ∈ map jb_id todo)) as <-; [|done].
    apply bool_decide_ext. cbn. rewrite elem_of_cons. split; [|by right]. intros [?|?]; [congruence|done].
Qed.

Lemma NoDup_ids_filter (p : job → bool) l : NoDup (map jb_id l) → NoDup (map jb_id (List.filter p l)).
Proof.
  induction l as [|x l IH]; cbn; [done|]. intros [Hx Hl]%list.NoDup_cons. destruct (p x); [|by apply IH]. cbn.
  apply list.NoDup_cons. split; [|by apply IH]. intros Hin. apply Hx.
  apply list_elem_of_In, in_map_iff in Hin as (y & <- & Hy). apply List.filter_In in Hy as [Hy _]. by apply list_elem_of_In, in_map.
Qed.

Lemma treat_all l todo h failed :
  NoDup (map jb_id l) → NoDup (map jb_id todo) → (∀ x, x ∈ todo → x ∈ l) → treated l todo h →
  ∃ b h', try_all (λ row, reconcile_row clock pr advance (jb_username row) true row) todo failed h = (Returned b, h') ∧ treated l [] h'.
Proof.
  intros Hnd. revert h failed. induction todo as [|x todo IH]; intros h failed Htodo Hsub Ht; [by eexists _, h|].
  cbn in Htodo. apply list.NoDup_cons in Htodo as [Hx Htodo].
  destruct (treat_one l x todo h Hnd (Hsub x ltac:(set_solver)) Hx Ht) as (o & h1 & E & Ho & Ht1).
  cbn [try_all]. unfold act_bind at 1, act_catch. unfold act_bind at 1. rewrite E.
  destruct o as [u|e|]; [| |done]; cbn; apply IH; try done; intros y Hy; apply Hsub; set_solver.
Qed.

(** C18: The pass over the jobs at the start of a process, when its calls do not fail, takes
    every job back that a dead process left behind and touches no other: a running job stays
    running without error and lease, a pausing job is paused, or pending if it was to be
    continued. In both, a task that ran is queued again with the evidence it had and without its
    error message; every other item is kept; a slice or milestone that was being verified is
    ready for it again, and slices keep their verdicts; no recovery counter is lost. This holds
    also when the attempts of some job cannot be marked as interrupted: the pass then throws at
    its end. *)
Theorem startup_reconciles_jobs (h : host) :
  booted h → NoDup (map jb_id (h_jobs h)) →
  ∃ o h', reconcileOrphanRunningJobsOnStartup clock pr advance true h = (o, h') ∧ o ≠ Died ∧
    Forall2 reconciled (h_jobs h) (h_jobs h').
Proof.
  intros Hb Hnd. unfold reconcileOrphanRunningJobsOnStartup, await. unfold act_bind at 1. unfold act_bind at 1.
  rewrite ask_quiet by apply Hb. set (h1 := set_answers [] (S (h_ticks h)) h). cbn -[try_each].
  change (h_jobs h1) with (h_jobs h). set (todo := List.filter _ (h_jobs h)).
  assert (∀ x, x ∈ todo ↔ x ∈ h_jobs h ∧ jb_status x ∈ EXECUTION_STATUSES) as Htodo.
  { intros x. unfold todo. rewrite (list_elem_of_In (List.filter _ _) x), List.filter_In, <-list_elem_of_In. by rewrite bool_decide_eq_true. }
  assert (treated (h_jobs h) todo h1) as Ht.
  { split; [by destruct Hb|]. apply Forall2_lookup. intros i. change (h_jobs h1) with (h_jobs h).
    destruct (h_jobs h !! i) as [x|] eqn:Hi; constructor. split; [done|]. case_bool_decide as Hc; [done|].
    apply list_elem_of_lookup_2 in Hi.
    assert (jb_status x ∉ EXECUTION_STATUSES) as Hst.
    { intros Hst. apply Hc. apply list_elem_of_In, in_map, list_elem_of_In, Htodo. done. }
    apply idle_reconciled; intros E; apply Hst; rewrite E; unfold EXECUTION_STATUSES; set_solver. }
  destruct (treat_all (h_jobs h) todo h1 false Hnd) as (b & h2 & E & [_ Hall]); [| |done|].
  { by apply NoDup_ids_filter. }
  { intros x Hx. by apply Htodo. }
  unfold try_each. unfold act_bind at 1. rewrite E.
  exists (if b then Raised (plain_error "Failed to reconcile running jobs") else Returned tt), h2.
  split; [by destruct b|]. split; [by destruct b|].
  revert Hall. apply Forall2_impl. cbn. intros x j [_ Hr]. rewrite bool_decide_eq_false_2 in Hr; [done|]. by apply not_elem_of_nil.
Qed.
End specs.
