(* ===== verification/PlanOutline.v ===== *)
(** * Plan outlines

    Models [src/server/planner/mcp/normalize.ts], [planner/save-plan.ts] and
    [planner/plan-ability-validation.ts]: what the server accepts as the outline
    of a plan from the planning agent, and the plan that is saved for it.  A
    [PlannerRegisteredPlan] is the list of its milestones. *)
From stdpp Require Import pretty.
From Stdlib Require Import Ascii.
From S2P Require Import Prelude Json JsString SavedPlan Gate RepairTasks Verdicts JobReferences.
Local Open Scope res_scope.

#[local] Arguments bool_decide : simpl never.

Definition TASK_KINDS : list string :=
  ["project-setup"; "dependency-management"; "scaffolding"; "backend-implementation";
   "frontend-implementation"; "data-modeling"; "testing-validation"; "documentation-handoff";
   "general-implementation"].

Definition newline : string := String (ascii_of_N 10) EmptyString.

Definition quoted (s : string) : string := dquote +:+ s +:+ dquote.

(** [.filter(Boolean)] *)
Definition non_empty_strings (l : list string) : list string :=
  List.filter (λ s, negb (bool_decide (s = ""))) l.

(** [s || undefined] *)
Definition or_undefined (s : string) : option string := if bool_decide (s = "") then None else Some s.

(** [value === true] *)
Definition is_true_json (value : option json) : bool :=
  match value with Some (JBool b) => b | _ => false end.

(** ** Normalization *)

Definition nonEmptyString (value : option json) : option string := nonEmpty value.

Definition stringList (value : option json) : list string :=
  match value with
  | Some (JArr items) => non_empty_strings (map trim (strings_of items))
  | _ => []
  end.

Definition resolveSuccessCriteria (obj : json) : string :=
  match nonEmptyString (json_get "successCriteria" obj) with
  | Some direct => direct
  | None =>
      join newline
        (map (λ s, "Acceptance: " +:+ s) (stringList (json_get "acceptanceSignals" obj)) ++
         map (λ a, "Expected artifact: " +:+ a) (stringList (json_get "expectedArtifacts" obj)))
  end.

(** An array with at least one item. *)
Definition items_or (value : option json) (e : string) : result string (list json) :=
  match value with
  | Some (JArr (x :: l)) => Ok (x :: l)
  | _ => Err e
  end.

(** [m1-s2-t3] from positions counted from 0. *)
Definition place (mIdx sIdx tIdx : nat) : string :=
  task_id (Z.of_nat mIdx + 1) (Z.of_nat sIdx + 1) (Z.of_nat tIdx + 1).

Definition slice_place (mIdx sIdx : nat) : string :=
  slice_id (Z.of_nat mIdx + 1) (Z.of_nat sIdx + 1).

Definition normalize_task (mIdx sIdx tIdx : nat) (task : json) : result string PlannerRegisteredTask.t :=
  let at_task := place mIdx sIdx tIdx in
  let? u := res_assert (is_object task) ("task at " +:+ at_task +:+ " must be an object") in
  let? taskKind := one_of TASK_KINDS (json_get "taskKind" task) ("taskKind is required at " +:+ at_task) in
  let? title := res_some (nonEmptyString (json_get "title" task))
    ("title and description required at " +:+ at_task) in
  let? description := res_some (nonEmptyString (json_get "description" task))
    ("title and description required at " +:+ at_task) in
  let? abilityCode := res_some (nonEmptyString (json_get "abilityCode" task))
    ("abilityCode required at " +:+ at_task) in
  Ok (PlannerRegisteredTask.mk (Some title) (Some description) taskKind (Some abilityCode)
        (Some (stringList (json_get "referenceIds" task)))
        (nonEmptyString (json_get "referenceReason" task))
        (Some (stringList (json_get "dependsOnTaskRefs" task)))
        (Some (stringList (json_get "requiredInputs" task)))
        (or_undefined (resolveSuccessCriteria task))
        (Some (is_true_json (json_get "canRunInParallel" task)))
        None).

Definition normalize_slice (mIdx sIdx : nat) (slice : json) : result string PlannerRegisteredSlice.t :=
  let at_slice := "milestones[" +:+ pretty mIdx +:+ "].slices[" +:+ pretty sIdx +:+ "]" in
  let? u := res_assert (is_object slice) (at_slice +:+ " must be an object") in
  let? tasksRaw := items_or (json_get "tasks" slice) (at_slice +:+ ".tasks must be a non-empty array") in
  let? tasks := res_mapi (normalize_task mIdx sIdx) 0 tasksRaw in
  let? successCriteria := res_some (or_undefined (resolveSuccessCriteria slice))
    ("slice " +:+ slice_place mIdx sIdx +:+ " needs successCriteria") in
  Ok (PlannerRegisteredSlice.mk (nonEmptyString (json_get "title" slice))
        (nonEmptyString (json_get "description" slice)) successCriteria
        (Some (stringList (json_get "dependsOnSliceRefs" slice))) None tasks).

Definition normalize_milestone (mIdx : nat) (milestone : json) :
    result string PlannerRegisteredMilestone.t :=
  let at_milestone := "milestones[" +:+ pretty mIdx +:+ "]" in
  let? u := res_assert (is_object milestone) (at_milestone +:+ " must be an object") in
  let? slicesRaw := items_or (json_get "slices" milestone)
    (at_milestone +:+ ".slices must be a non-empty array") in
  let? slices := res_mapi (normalize_slice mIdx) 0 slicesRaw in
  let? successCriteria := res_some (or_undefined (resolveSuccessCriteria milestone))
    ("milestone[" +:+ pretty mIdx +:+ "] needs successCriteria") in
  Ok (PlannerRegisteredMilestone.mk (nonEmptyString (json_get "title" milestone))
        (nonEmptyString (json_get "description" milestone)) (Some successCriteria) None slices).

Definition PlannerRegisteredPlan : Type := list PlannerRegisteredMilestone.t.

Definition normalizeRegisteredPlan (value : json) : result string PlannerRegisteredPlan :=
  let? u := res_assert (is_object value) "milestones must be a non-empty array" in
  let? milestonesRaw := items_or (json_get "milestones" value) "milestones must be a non-empty array" in
  res_mapi normalize_milestone 0 milestonesRaw.

(** ** The outline as JSON *)

(** What [JSON.stringify] sees of a registered plan: the fields in the order of
    the object literals, without those that are undefined. *)
Definition strings_json (l : list string) : json := JArr (map JStr l).

Definition task_json (task : PlannerRegisteredTask.t) : json :=
  JObj (opt_field "title" JStr (PlannerRegisteredTask.title task) ++
        opt_field "description" JStr (PlannerRegisteredTask.description task) ++
        [("taskKind", JStr (PlannerRegisteredTask.taskKind task))] ++
        opt_field "abilityCode" JStr (PlannerRegisteredTask.abilityCode task) ++
        opt_field "referenceIds" strings_json (PlannerRegisteredTask.referenceIds task) ++
        opt_field "referenceReason" JStr (PlannerRegisteredTask.referenceReason task) ++
        opt_field "dependsOnTaskRefs" strings_json (PlannerRegisteredTask.dependsOnTaskRefs task) ++
        opt_field "requiredInputs" strings_json (PlannerRegisteredTask.requiredInputs task) ++
        opt_field "successCriteria" JStr (PlannerRegisteredTask.successCriteria task) ++
        opt_field "canRunInParallel" JBool (PlannerRegisteredTask.canRunInParallel task)).

Definition slice_json (slice : PlannerRegisteredSlice.t) : json :=
  JObj (opt_field "title" JStr (PlannerRegisteredSlice.title slice) ++
        opt_field "description" JStr (PlannerRegisteredSlice.description slice) ++
        [("successCriteria", JStr (PlannerRegisteredSlice.successCriteria slice))] ++
        opt_field "dependsOnSliceRefs" strings_json (PlannerRegisteredSlice.dependsOnSliceRefs slice) ++
        [("tasks", JArr (map task_json (PlannerRegisteredSlice.tasks slice)))]).

Definition milestone_json (milestone : PlannerRegisteredMilestone.t) : json :=
  JObj (opt_field "title" JStr (PlannerRegisteredMilestone.title milestone) ++
        opt_field "description" JStr (PlannerRegisteredMilestone.description milestone) ++
        opt_field "successCriteria" JStr (PlannerRegisteredMilestone.successCriteria milestone) ++
        [("slices", JArr (map slice_json (PlannerRegisteredMilestone.slices milestone)))]).

Definition outline_json (plan : PlannerRegisteredPlan) : json :=
  JObj [("milestones", JArr (map milestone_json plan))].

(** ** Positions of a plan *)

(** [plan.milestones.forEach(.. slices.forEach(.. tasks.forEach))]: what [f]
    gives for each task, in order. *)
Definition each_task {A} (f : nat → nat → nat → PlannerRegisteredSlice.t → PlannerRegisteredTask.t → A)
    (plan : PlannerRegisteredPlan) : list A :=
  concat (mapi (λ mIdx milestone,
    concat (mapi (λ sIdx slice,
      mapi (λ tIdx task, f mIdx sIdx tIdx slice task) (PlannerRegisteredSlice.tasks slice))
      (PlannerRegisteredMilestone.slices milestone))) plan).

Definition each_slice {A} (f : nat → nat → PlannerRegisteredSlice.t → A)
    (plan : PlannerRegisteredPlan) : list A :=
  concat (mapi (λ mIdx milestone, mapi (f mIdx) (PlannerRegisteredMilestone.slices milestone)) plan).

Module TaskContext.
Record t := mk { taskTitle : string; content : string }.
#[global] Instance eq_dec : EqDecision t.
Proof. solve_decision. Defined.
End TaskContext.

Definition listMissingTaskContexts (plan : PlannerRegisteredPlan) (contexts : gmap string TaskContext.t) :
    list string :=
  List.filter (λ key, negb (bool_decide (is_Some (contexts !! key))))
    (each_task (λ m s t _ _, place m s t) plan).

Record plan_counts := mkPlanCounts { n_milestones : nat; n_slices : nat; n_tasks : nat }.

Definition countPlanUnits (plan : PlannerRegisteredPlan) : plan_counts :=
  mkPlanCounts (length plan)
    (sum_list (map (λ m, length (PlannerRegisteredMilestone.slices m)) plan))
    (sum_list (map (λ m, sum_list (map (λ s, length (PlannerRegisteredSlice.tasks s))
                                     (PlannerRegisteredMilestone.slices m))) plan)).

Definition needs_split (task : PlannerRegisteredTask.t) : bool :=
  bool_decide (PlannerRegisteredTask.taskKind task ∈
    ["frontend-implementation"; "backend-implementation"; "data-modeling"]).

Definition validatePlanShape (plan : PlannerRegisteredPlan) : result string unit :=
  let counts := countPlanUnits plan in
  let? a := res_assert (negb (bool_decide (n_milestones counts = 0) || bool_decide (n_slices counts = 0) ||
                              bool_decide (n_tasks counts = 0)))
    "plan must contain at least one milestone, slice, and task" in
  let? b := res_assert (negb (bool_decide (n_milestones counts = 1) && bool_decide (n_slices counts = 1) &&
                              bool_decide (n_tasks counts = 1)))
    "plan has only 1 milestone / 1 slice / 1 task. Break the work into multiple milestones, slices, and small tasks per the planner prompt." in
  let? c := res_assert (negb (bool_decide (n_tasks counts ≤ 2)))
    ("plan has only " +:+ pretty (n_tasks counts) +:+
     " tasks. Break scaffolding, per-component implementation, styling, and integration into separate small tasks (~10 minutes each).") in
  let hasFrontendOrBackend := existsb id (each_task (λ _ _ _ _ task, needs_split task) plan) in
  res_assert (negb (hasFrontendOrBackend && bool_decide (n_tasks counts < 3)))
    "implementation work must be split into at least 3 small tasks (e.g. scaffold, component/file units, composition/integration).".

(** [!value?.trim()] *)
Definition blank (o : option string) : bool :=
  match o with Some s => bool_decide (trim s = "") | None => true end.

Definition issue (b : bool) (name : string) : list string := if b then [name] else [].

Definition task_issues (taskRef : string) (task : PlannerRegisteredTask.t) : list string :=
  issue (blank (PlannerRegisteredTask.successCriteria task)) (taskRef +:+ ".successCriteria") ++
  issue (bool_decide (0 < length (default [] (PlannerRegisteredTask.referenceIds task))) &&
         blank (PlannerRegisteredTask.referenceReason task)) (taskRef +:+ ".referenceReason").

Definition outline_issues (plan : PlannerRegisteredPlan) : list string :=
  concat (mapi (λ mIdx milestone,
    let milestoneRef := milestone_id (Z.of_nat mIdx + 1) in
    issue (blank (PlannerRegisteredMilestone.title milestone)) (milestoneRef +:+ ".title") ++
    issue (blank (PlannerRegisteredMilestone.description milestone)) (milestoneRef +:+ ".description") ++
    concat (mapi (λ sIdx slice,
      issue (blank (PlannerRegisteredSlice.title slice)) (slice_place mIdx sIdx +:+ ".title") ++
      issue (blank (PlannerRegisteredSlice.description slice)) (slice_place mIdx sIdx +:+ ".description") ++
      concat (mapi (λ tIdx task, task_issues (place mIdx sIdx tIdx) task)
        (PlannerRegisteredSlice.tasks slice)))
      (PlannerRegisteredMilestone.slices milestone))) plan).

Definition validatePlanOutlineCompleteness (plan : PlannerRegisteredPlan) : result string unit :=
  let issues := outline_issues plan in
  res_assert (bool_decide (length issues = 0))
    ("plan outline is incomplete; missing required values at: " +:+ join ", " issues).

(** ** Dependencies *)

Definition normalizePlannerRef (value : string) : string := toLowerCase (trim value).

(** Numbers counted from 1. *)
Definition SliceCoord : Type := Z * Z.
Definition TaskCoord : Type := SliceCoord * Z.

Definition slice_coord (mIdx sIdx : nat) : SliceCoord := (Z.of_nat mIdx + 1, Z.of_nat sIdx + 1)%Z.
Definition task_coord (mIdx sIdx tIdx : nat) : TaskCoord := (slice_coord mIdx sIdx, Z.of_nat tIdx + 1)%Z.

(** A [Map] that is filled from a list: the last value of a key counts. *)
Definition map_of {A} (l : list (string * A)) : gmap string A :=
  foldl (λ m '(k, v), <[k := v]> m) ∅ l.

Definition sliceCoords (plan : PlannerRegisteredPlan) : gmap string SliceCoord :=
  map_of (each_slice (λ m s _, (normalizePlannerRef (slice_place m s), slice_coord m s)) plan).

Definition taskCoords (plan : PlannerRegisteredPlan) : gmap string TaskCoord :=
  map_of (each_task (λ m s t _ _, (normalizePlannerRef (place m s t), task_coord m s t)) plan).

Definition taskComesBefore (dependency current : TaskCoord) : bool :=
  let '((dm, ds), dt) := dependency in
  let '((cm, cs), ct) := current in
  if bool_decide (dm ≠ cm) then bool_decide (dm < cm)%Z
  else if bool_decide (ds ≠ cs) then bool_decide (ds < cs)%Z
  else bool_decide (dt < ct)%Z.

Definition resolveSliceRef (coords : gmap string SliceCoord) (sliceRef : string) (at_ : SliceCoord) :
    result string SliceCoord :=
  res_some (coords !! normalizePlannerRef sliceRef)
    ("unknown slice ref " +:+ quoted sliceRef +:+ " referenced from " +:+ slice_id at_.1 at_.2).

(** Whether the first task of a slice waits for a task of another slice, or for
    one that does not exist. *)
Definition blockedByCrossSliceTask (plan : PlannerRegisteredPlan) (current : SliceCoord)
    (firstTask : PlannerRegisteredTask.t) : bool :=
  existsb (λ taskRef,
    match taskCoords plan !! normalizePlannerRef taskRef with
    | None => true
    | Some dep => negb (bool_decide (dep.1 = current))
    end) (default [] (PlannerRegisteredTask.dependsOnTaskRefs firstTask)).

Definition ready_root (plan : PlannerRegisteredPlan) (mIdx sIdx : nat) (slice : PlannerRegisteredSlice.t) : bool :=
  match PlannerRegisteredSlice.tasks slice with
  | [] => false
  | firstTask :: _ =>
      bool_decide (length (default [] (PlannerRegisteredSlice.dependsOnSliceRefs slice)) = 0) &&
      negb (blockedByCrossSliceTask plan (slice_coord mIdx sIdx) firstTask)
  end.

Definition countInitiallyReadySliceRoots (plan : PlannerRegisteredPlan) : nat :=
  length (List.filter id (each_slice (ready_root plan) plan)).

(** A loop whose body may throw. *)
Fixpoint res_each {A} (f : A → result string unit) (l : list A) : result string unit :=
  match l with
  | [] => Ok tt
  | x :: l' => let? u := f x in res_each f l'
  end.

Definition check_slice_ref (plan : PlannerRegisteredPlan) (current : SliceCoord) (sliceRef : string) :
    result string unit :=
  let? dependency := resolveSliceRef (sliceCoords plan) sliceRef current in
  let? a := res_assert (negb (bool_decide (dependency = current)))
    ("slice " +:+ sliceRef +:+ " cannot depend on itself via dependsOnSliceRefs") in
  res_assert (negb (bool_decide (current.1 < dependency.1)%Z ||
                    (bool_decide (dependency.1 = current.1) && bool_decide (current.2 <= dependency.2)%Z)))
    ("slice " +:+ slice_id current.1 current.2 +:+ " depends on later or same slice " +:+ sliceRef +:+
     "; dependsOnSliceRefs must point to earlier slices only").

Definition check_task_ref (plan : PlannerRegisteredPlan) (mIdx sIdx tIdx : nat) (taskRef : string) :
    result string unit :=
  let? dependency := res_some (taskCoords plan !! normalizePlannerRef taskRef)
    ("unknown task ref " +:+ quoted taskRef +:+ " referenced from " +:+ place mIdx sIdx tIdx) in
  res_assert (taskComesBefore dependency (task_coord mIdx sIdx tIdx))
    ("task " +:+ place mIdx sIdx tIdx +:+ " depends on later or same task " +:+ taskRef +:+
     "; dependsOnTaskRefs must point to earlier tasks only").

Definition check_slice (plan : PlannerRegisteredPlan) (mIdx sIdx : nat) (slice : PlannerRegisteredSlice.t) :
    result string unit :=
  let? a := res_each (check_slice_ref plan (slice_coord mIdx sIdx))
    (default [] (PlannerRegisteredSlice.dependsOnSliceRefs slice)) in
  res_each id (mapi (λ tIdx task,
    res_each (check_task_ref plan mIdx sIdx tIdx)
      (default [] (PlannerRegisteredTask.dependsOnTaskRefs task))) (PlannerRegisteredSlice.tasks slice)).

Definition validateRegisteredPlanDependencyGraph (plan : PlannerRegisteredPlan) : result string unit :=
  let sliceCount := n_slices (countPlanUnits plan) in
  let? a := res_each id (each_slice (check_slice plan) plan) in
  let initiallyReadyRoots := if bool_decide (1 < sliceCount) then countInitiallyReadySliceRoots plan else 0 in
  res_assert (negb (bool_decide (1 < initiallyReadyRoots)))
    ("multi-slice plan would expose " +:+ pretty initiallyReadyRoots +:+
     " concurrently ready slice roots (expected at most 1). Add dependsOnSliceRefs so only one slice can start first, e.g. m1-s2 -> [" +:+
     quoted "m1-s1" +:+ "].").

(** ** References and abilities *)

Definition task_refs (task : PlannerRegisteredTask.t) : list string :=
  default [] (PlannerRegisteredTask.referenceIds task).

(** [`"${task.title}"`] *)
Definition title_text (task : PlannerRegisteredTask.t) : string :=
  quoted (default "undefined" (PlannerRegisteredTask.title task)).

Definition invalid_references (plan : PlannerRegisteredPlan) (available : list string) : list string :=
  concat (each_task (λ m s t _ task,
    map (λ id, place m s t +:+ " " +:+ title_text task +:+ " requested unknown referenceId " +:+ quoted id)
      (List.filter (λ id, negb (bool_decide (id ∈ available))) (task_refs task))) plan).

(** The reference ids of the tasks, in the shape [collectPlanReferenceIds] reads. *)
Definition plan_refs (plan : PlannerRegisteredPlan) : list (list (list (option (list string)))) :=
  map (λ m, map (λ s, map PlannerRegisteredTask.referenceIds (PlannerRegisteredSlice.tasks s))
              (PlannerRegisteredMilestone.slices m)) plan.

Definition validatePlanReferenceIds (plan : PlannerRegisteredPlan) (validReferenceIds : list string)
    (manifest : option JobReferenceManifest.t) : result string unit :=
  let available := distinct validReferenceIds in
  let invalid := invalid_references plan available in
  let taskCount := n_tasks (countPlanUnits plan) in
  let assignedTaskCount :=
    length (List.filter (λ n, bool_decide (0 < n)) (each_task (λ _ _ _ _ task, length (task_refs task)) plan)) in
  let? a :=
    if bool_decide (0 < length invalid) then
      if bool_decide (length available = 0) then
        Err ("invalid task referenceIds. No frozen draft referenceIds are available; every task.referenceIds must be [] or omitted. Errors: " +:+
             join "; " invalid)
      else
        Err ("invalid task referenceIds. Available referenceIds: [" +:+ join ", " validReferenceIds +:+
             "]. Errors: " +:+ join "; " invalid)
    else Ok tt in
  let? b := res_assert (negb (bool_decide (0 < length available) && bool_decide (0 < taskCount) &&
                              bool_decide (assignedTaskCount = 0)))
    ("frozen references exist but no task received referenceIds. Available referenceIds: [" +:+
     join ", " validReferenceIds +:+ "]") in
  match manifest with
  | None => Ok tt
  | Some m =>
      let coverageErrors := validateReferenceCoverage (collectPlanReferenceIds (plan_refs plan)) m in
      res_assert (bool_decide (length coverageErrors = 0))
        ("incomplete reference coverage. " +:+ join "; " coverageErrors)
  end.

Definition trimmed_ability (task : PlannerRegisteredTask.t) : string :=
  default "" (trim <$> PlannerRegisteredTask.abilityCode task).

Definition validatePlanAbilityCodes (plan : PlannerRegisteredPlan) (allowedAbilityCodes : list string) :
    result string unit :=
  let allowed := distinct (non_empty_strings (map trim allowedAbilityCodes)) in
  let? a := res_assert (negb (bool_decide (length allowed = 0)))
    "no confirmed draft abilities are available; every task.abilityCode must map to a draft ability with a selected CLI" in
  let invalid := concat (each_task (λ m s t _ task,
    let abilityCode := trimmed_ability task in
    if bool_decide (abilityCode = "") || negb (bool_decide (abilityCode ∈ allowed)) then
      [place m s t +:+ " " +:+ title_text task +:+ " used abilityCode " +:+
       quoted (if bool_decide (abilityCode = "") then "(missing)" else abilityCode) +:+
       " which is not in the confirmed draft abilities"]
    else []) plan) in
  res_assert (bool_decide (length invalid = 0))
    ("invalid task abilityCode values. Confirmed draft abilityCodes: [" +:+ join ", " allowed +:+
     "]. Errors: " +:+ join "; " invalid).

(** ** The saved plan *)

Definition taskSuccessCriteria (taskSuccess : option string) (sliceSuccess : string) : string :=
  match taskSuccess with
  | Some s => if bool_decide (trim s = "") then sliceSuccess else trim s
  | None => sliceSuccess
  end.

Definition flatten_task (contexts : gmap string TaskContext.t) (mIdx sIdx tIdx : nat)
    (slice : PlannerRegisteredSlice.t) (task : PlannerRegisteredTask.t) : FlatTaskPlan.t :=
  let key := place mIdx sIdx tIdx in
  let context := contexts !! key in
  FlatTaskPlan.mk key (Z.of_nat mIdx + 1) (Z.of_nat sIdx + 1) (Z.of_nat tIdx + 1)
    (default (default key (TaskContext.taskTitle <$> context)) (PlannerRegisteredTask.title task))
    (default "" (PlannerRegisteredTask.description task))
    (PlannerRegisteredTask.taskKind task)
    (default "general-implementation" (PlannerRegisteredTask.abilityCode task))
    (default "" (TaskContext.content <$> context))
    None
    (taskSuccessCriteria (PlannerRegisteredTask.successCriteria task)
       (PlannerRegisteredSlice.successCriteria slice))
    (match PlannerRegisteredTask.referenceIds task with
     | Some ((_ :: _) as ids) => Some ids
     | _ => None
     end)
    (PlannerRegisteredTask.referenceReason task)
    (PlannerRegisteredTask.dependsOnTaskRefs task)
    (PlannerRegisteredTask.canRunInParallel task)
    None.

Definition flattenRegisteredPlan (plan : PlannerRegisteredPlan) (contexts : gmap string TaskContext.t) :
    SavedJobPlan.t :=
  SavedJobPlan.mk plan (each_task (flatten_task contexts) plan).
