(* ===== verification/PlanOutlineSpecs.v ===== *)
(** * Accepted outlines

    Normalization is idempotent and establishes the shape that the rest of the
    server relies on; the dependency check accepts exactly the outlines whose
    references point backwards and that have at most one slice to start with; a
    workflow built from an accepted outline never deadlocks, as long as its slice
    references are written the way ids are. *)
From stdpp Require Import pretty.
From Stdlib Require Import Ascii.
From S2P Require Import Prelude Json JsString SavedPlan Gate GateSpecs RepairTasks RepairSpecs Verdicts JobReferences.
From S2P Require Import PlanOutline.
Local Open Scope res_scope.

#[local] Arguments bool_decide : simpl never.
#[local] Arguments Z.add : simpl never.

(** ** Lists of lists *)

Lemma elem_concat_imap {A B} (f : nat → A → list B) l y :
  y ∈ concat (imap f l) ↔ ∃ i x, l !! i = Some x ∧ y ∈ f i x.
Proof.
  rewrite list_elem_of_In, in_concat. split.
  - intros (z & Hz%list_elem_of_In & Hy%list_elem_of_In).
    apply elem_of_lookup_imap_1 in Hz as (i & x & -> & Hx). by exists i, x.
  - intros (i & x & Hx & Hy). exists (f i x). rewrite <-!list_elem_of_In. split; [|done].
    apply elem_of_lookup_imap. eauto.
Qed.

Lemma elem_imap {A B} (f : nat → A → B) l y :
  y ∈ imap f l ↔ ∃ i x, l !! i = Some x ∧ y = f i x.
Proof. rewrite elem_of_lookup_imap. naive_solver. Qed.

Lemma map_concat_imap {A B C} (g : B → C) (f : nat → A → list B) l :
  map g (concat (imap f l)) = concat (imap (λ i x, map g (f i x)) l).
Proof.
  rewrite concat_map. f_equal. revert f. induction l as [|x l IH]; intros f; [done|].
  cbn. f_equal. apply IH.
Qed.

Lemma map_imap {A B C} (g : B → C) (f : nat → A → B) l : map g (imap f l) = imap (λ i x, g (f i x)) l.
Proof. revert f. induction l as [|x l IH]; intros f; [done|]. cbn. f_equal. apply IH. Qed.

Lemma imap_ext' {A B} (f g : nat → A → B) l : (∀ i x, f i x = g i x) → imap f l = imap g l.
Proof. intros H. apply imap_ext. auto. Qed.

(** A concatenation of sorted lists is sorted if earlier ones stay below. *)
Lemma concat_imap_sorted {A B} (R : relation B) (f : nat → A → list B) l :
  (∀ i x, StronglySorted R (f i x)) →
  (∀ i j x x' y z, i < j → y ∈ f i x → z ∈ f j x' → R y z) → StronglySorted R (concat (imap f l)).
Proof.
  revert f. induction l as [|x l IH]; intros f Hs HR; cbn; [constructor|].
  assert (StronglySorted R (concat (imap (f ∘ S) l))) as Hrest.
  { apply IH; [intros; apply Hs|]. intros i j ???? Hij. apply HR. lia. }
  assert (∀ y z, y ∈ f 0 x → z ∈ concat (imap (f ∘ S) l) → R y z) as Hcross.
  { intros y z Hy (i & w & _ & Hz)%elem_concat_imap. eapply HR; [|exact Hy|exact Hz]. lia. }
  revert Hcross. induction (Hs 0 x) as [|a r Hr IHr Ha]; intros Hcross; cbn; [done|].
  constructor.
  - apply IHr. intros y z Hy. apply Hcross. by apply elem_of_cons; right.
  - apply Forall_app. split; [done|]. apply List.Forall_forall. intros z Hz%list_elem_of_In.
    apply Hcross; [|done]. by apply elem_of_cons; left.
Qed.

Lemma imap_sorted {A B} (R : relation B) (f : nat → A → B) l :
  (∀ i j x y, i < j → R (f i x) (f j y)) → StronglySorted R (imap f l).
Proof.
  revert f. induction l as [|x l IH]; intros f Hf; cbn; constructor.
  - apply IH. intros. apply Hf. lia.
  - apply List.Forall_forall. intros y (i & z & _ & ->)%list_elem_of_In%elem_imap. apply Hf. lia.
Qed.

(** What is below an element of a sorted list stands before it. *)
Lemma sorted_before {A} (R : relation A) l pre x post y :
  StronglySorted R l → l = pre ++ x :: post → y ∈ l → (∀ z, ¬ (R x z ∧ R z x)) → ¬ R x x → R y x → y ∈ pre.
Proof.
  intros Hs -> Hy Hasym Hirr Hyx. apply elem_of_app in Hy as [|[->|Hy]%elem_of_cons]; [done..|].
  exfalso. induction pre as [|z pre IH]; inversion Hs as [|?? Hs' Hall]; subst.
  - rewrite List.Forall_forall in Hall. apply (Hasym y). split; [|done]. apply Hall.
    by apply list_elem_of_In.
  - by apply IH.
Qed.

Lemma sorted_filter {A} (R : relation A) (p : A → bool) l :
  StronglySorted R l → StronglySorted R (List.filter p l).
Proof.
  induction 1 as [|x l Hs IH Hall]; cbn; [constructor|]. destruct (p x); [|done]. constructor; [done|].
  rewrite List.Forall_forall in *. intros y [Hy _]%filter_In. by apply Hall.
Qed.

(** ** The places of a plan *)

Definition slice_in (plan : PlannerRegisteredPlan) (m s : nat) (sl : PlannerRegisteredSlice.t) : Prop :=
  ∃ ms, plan !! m = Some ms ∧ PlannerRegisteredMilestone.slices ms !! s = Some sl.

Definition task_in (plan : PlannerRegisteredPlan) (m s t : nat) (sl : PlannerRegisteredSlice.t)
    (task : PlannerRegisteredTask.t) : Prop :=
  slice_in plan m s sl ∧ PlannerRegisteredSlice.tasks sl !! t = Some task.

Lemma slice_in_unique plan m s sl sl' : slice_in plan m s sl → slice_in plan m s sl' → sl = sl'.
Proof. intros (ms & H1 & H2) (ms' & H3 & H4). simplify_eq. congruence. Qed.

Lemma task_in_unique plan m s t sl task sl' task' :
  task_in plan m s t sl task → task_in plan m s t sl' task' → sl = sl' ∧ task = task'.
Proof.
  intros [Hs Ht] [Hs' Ht']. rewrite (slice_in_unique _ _ _ _ _ Hs' Hs) in *. by simplify_eq.
Qed.

Lemma elem_each_slice {A} (f : nat → nat → PlannerRegisteredSlice.t → A) plan y :
  y ∈ each_slice f plan ↔ ∃ m s sl, slice_in plan m s sl ∧ y = f m s sl.
Proof.
  unfold each_slice. setoid_rewrite elem_concat_imap. setoid_rewrite elem_imap.
  unfold slice_in. naive_solver.
Qed.

Lemma elem_each_task {A} (f : nat → nat → nat → PlannerRegisteredSlice.t → PlannerRegisteredTask.t → A) plan y :
  y ∈ each_task f plan ↔ ∃ m s t sl task, task_in plan m s t sl task ∧ y = f m s t sl task.
Proof.
  unfold each_task. setoid_rewrite elem_concat_imap. setoid_rewrite elem_concat_imap.
  setoid_rewrite elem_imap. unfold task_in, slice_in. naive_solver.
Qed.

Lemma map_each_slice {A B} (g : A → B) f plan :
  map g (each_slice f plan) = each_slice (λ m s sl, g (f m s sl)) plan.
Proof.
  unfold each_slice. setoid_rewrite map_concat_imap. f_equal. apply imap_ext'. intros. apply map_imap.
Qed.

Lemma map_each_task {A B} (g : A → B) f plan :
  map g (each_task f plan) = each_task (λ m s t sl task, g (f m s t sl task)) plan.
Proof.
  unfold each_task. setoid_rewrite map_concat_imap. f_equal. apply imap_ext'. intros.
  setoid_rewrite map_concat_imap. f_equal. apply imap_ext'. intros. apply map_imap.
Qed.

(** The ids of places determine them. *)
Lemma slice_place_inj m s m' s' : slice_place m s = slice_place m' s' → m = m' ∧ s = s'.
Proof.
  intros H%(f_equal match_slice). unfold slice_place in H. rewrite !match_slice_id in H by lia.
  simplify_eq. lia.
Qed.

Lemma place_inj m s t m' s' t' : place m s t = place m' s' t' → m = m' ∧ s = s' ∧ t = t'.
Proof.
  intros H%(f_equal match_task). unfold place in H. rewrite !match_task_id in H by lia.
  simplify_eq. lia.
Qed.

(** Ids are written in lower case and without white space. *)
Definition lower_char (c : ascii) : bool := bool_decide (lowerChar c = c).

Lemma toLowerCase_lower s : all_chars lower_char s = true → toLowerCase s = s.
Proof.
  induction s as [|c s IH]; [done|]. cbn. intros [Hc Hs]%andb_true_iff.
  apply bool_decide_eq_true in Hc. by rewrite Hc, IH.
Qed.

Lemma lower_chars_pretty (n : Z) : (0 ≤ n)%Z → all_chars lower_char (pretty n) = true.
Proof. by apply all_chars_pretty. Qed.

Lemma normalized_slice_place m s : normalizePlannerRef (slice_place m s) = slice_place m s.
Proof.
  unfold normalizePlannerRef, slice_place, slice_id, milestone_id.
  rewrite trim_plain.
  - apply toLowerCase_lower. rewrite !all_chars_app, !lower_chars_pretty by lia. done.
  - change (λ c, negb (is_space c)) with plain_char. rewrite !all_chars_app, !plain_pretty by lia. done.
Qed.

Lemma normalized_place m s t : normalizePlannerRef (place m s t) = place m s t.
Proof.
  unfold normalizePlannerRef, place. rewrite trim_task_id by lia. apply toLowerCase_lower.
  unfold task_id, slice_id, milestone_id. rewrite !all_chars_app, !lower_chars_pretty by lia. done.
Qed.

(** ** Maps filled from a list *)

Lemma map_of_from {A} (l : list (string * A)) (m : gmap string A) k v :
  foldl (λ m '(k, v), <[k := v]> m) m l !! k = Some v → (k, v) ∈ l ∨ m !! k = Some v.
Proof.
  revert m. induction l as [|[k' v'] l IH]; intros m; cbn; [by right|].
  intros [H|H]%IH; [left; by apply elem_of_cons; right|].
  apply lookup_insert_Some in H as [[-> ->]|[_ H]]; [left; apply elem_of_cons; by left|by right].
Qed.

Lemma map_of_Some {A} (l : list (string * A)) k v : map_of l !! k = Some v → (k, v) ∈ l.
Proof. intros [H|H]%map_of_from; [done|]. by rewrite lookup_empty in H. Qed.

Lemma map_of_is_Some {A} (l : list (string * A)) k v : (k, v) ∈ l → is_Some (map_of l !! k).
Proof.
  unfold map_of. cut (∀ m : gmap string A, ((k, v) ∈ l ∨ is_Some (m !! k)) →
    is_Some (foldl (λ m '(k, v), <[k := v]> m) m l !! k)).
  { intros H ?. apply H. by left. }
  induction l as [|[k' v'] l IH]; intros m H; cbn.
  - destruct H as [H|H]; [by apply not_elem_of_nil in H|done].
  - apply IH. destruct H as [[[= -> ->]|H]%elem_of_cons|H]; [right|by left|right].
    + by rewrite lookup_insert_eq.
    + destruct (decide (k = k')) as [->|]; [by rewrite lookup_insert_eq|by rewrite lookup_insert_ne].
Qed.

Lemma sliceCoords_spec plan r c :
  sliceCoords plan !! r = Some c ↔
  ∃ m s sl, slice_in plan m s sl ∧ r = slice_place m s ∧ c = slice_coord m s.
Proof.
  split.
  - intros (m & s & sl & Hin & [= -> ->])%map_of_Some%elem_each_slice.
    exists m, s, sl. by rewrite normalized_slice_place.
  - intros (m & s & sl & Hin & -> & ->).
    destruct (map_of_is_Some (each_slice (λ m s _, (normalizePlannerRef (slice_place m s), slice_coord m s)) plan)
      (slice_place m s) (slice_coord m s)) as [c Hc].
    { apply elem_each_slice. exists m, s, sl. by rewrite normalized_slice_place. }
    unfold sliceCoords. rewrite Hc.
    apply map_of_Some, elem_each_slice in Hc as (m' & s' & sl' & _ & [= H ->]).
    rewrite normalized_slice_place in H. by apply slice_place_inj in H as [-> ->].
Qed.

Lemma taskCoords_spec plan r c :
  taskCoords plan !! r = Some c ↔
  ∃ m s t sl task, task_in plan m s t sl task ∧ r = place m s t ∧ c = task_coord m s t.
Proof.
  split.
  - intros (m & s & t & sl & task & Hin & [= -> ->])%map_of_Some%elem_each_task.
    exists m, s, t, sl, task. by rewrite normalized_place.
  - intros (m & s & t & sl & task & Hin & -> & ->).
    destruct (map_of_is_Some (each_task (λ m s t _ _, (normalizePlannerRef (place m s t), task_coord m s t)) plan)
      (place m s t) (task_coord m s t)) as [c Hc].
    { apply elem_each_task. exists m, s, t, sl, task. by rewrite normalized_place. }
    unfold taskCoords. rewrite Hc.
    apply map_of_Some, elem_each_task in Hc as (m' & s' & t' & sl' & task' & _ & [= H ->]).
    rewrite normalized_place in H. by apply place_inj in H as (-> & -> & ->).
Qed.

(** ** What the dependency check says *)

Lemma res_assert_ok b e u : res_assert b e = Ok u ↔ b = true.
Proof. unfold res_assert. destruct b, u; naive_solver. Qed.

Lemma res_bind_ok {A B} (r : result string A) (k : A → result string B) b :
  res_bind r k = Ok b ↔ ∃ a, r = Ok a ∧ k a = Ok b.
Proof. destruct r; naive_solver. Qed.

Lemma res_some_ok {A} (o : option A) e a : res_some o e = Ok a ↔ o = Some a.
Proof. unfold res_some. destruct o; naive_solver. Qed.

Lemma res_each_ok {A} (f : A → result string unit) l : res_each f l = Ok tt ↔ ∀ x, x ∈ l → f x = Ok tt.
Proof.
  induction l as [|x l IH]; cbn.
  - split; [|done]. intros _ x Hx. by apply not_elem_of_nil in Hx.
  - rewrite res_bind_ok. setoid_rewrite elem_of_cons. split.
    + intros ([] & Hx & Hl) y [->|Hy]; [done|]. by apply IH.
    + intros H. exists tt. split; [by apply H; left|]. apply IH. intros y Hy. apply H. by right.
Qed.

(** The reference names a slice that comes before. *)
Definition earlier_slice (plan : PlannerRegisteredPlan) (m s : nat) (r : string) : Prop :=
  ∃ m' s' sl', slice_in plan m' s' sl' ∧ normalizePlannerRef r = slice_place m' s' ∧
               (m' < m ∨ m' = m ∧ s' < s).

(** The reference names a task that comes before. *)
Definition earlier_task (plan : PlannerRegisteredPlan) (m s t : nat) (r : string) : Prop :=
  ∃ m' s' t' sl' task', task_in plan m' s' t' sl' task' ∧ normalizePlannerRef r = place m' s' t' ∧
                        (m' < m ∨ m' = m ∧ (s' < s ∨ s' = s ∧ t' < t)).

Lemma check_slice_ref_ok plan m s r :
  check_slice_ref plan (slice_coord m s) r = Ok tt ↔ earlier_slice plan m s r.
Proof.
  unfold check_slice_ref, resolveSliceRef. rewrite res_bind_ok. setoid_rewrite res_some_ok. split.
  - intros (c & (m' & s' & sl & Hin & Hr & ->)%sliceCoords_spec & Hc).
    apply res_bind_ok in Hc as ([] & _ & Hc%res_assert_ok%negb_true_iff%orb_false_iff).
    destruct Hc as [H1%bool_decide_eq_false H2%andb_false_iff].
    exists m', s', sl. split; [done|]. split; [done|]. cbn in *.
    destruct H2 as [H2%bool_decide_eq_false|H2%bool_decide_eq_false]; lia.
  - intros (m' & s' & sl & Hin & Hr & Hlt). exists (slice_coord m' s'). split.
    { apply sliceCoords_spec. by exists m', s', sl. }
    apply res_bind_ok. exists tt. unfold slice_coord. rewrite !res_assert_ok. cbn. split.
    + apply negb_true_iff, bool_decide_eq_false. intros [=]. lia.
    + apply negb_true_iff, orb_false_iff. rewrite andb_false_iff, !bool_decide_eq_false. lia.
Qed.

Lemma check_task_ref_ok plan m s t r :
  check_task_ref plan m s t r = Ok tt ↔ earlier_task plan m s t r.
Proof.
  unfold check_task_ref. rewrite res_bind_ok. setoid_rewrite res_some_ok. setoid_rewrite res_assert_ok.
  assert (∀ m' s' t', taskComesBefore (task_coord m' s' t') (task_coord m s t) = true ↔
    (m' < m ∨ m' = m ∧ (s' < s ∨ s' = s ∧ t' < t))) as Hbefore.
  { intros. cbn. repeat case_bool_decide; naive_solver lia. }
  split.
  - intros (c & (m' & s' & t' & sl & task & Hin & Hr & ->)%taskCoords_spec & Hc%Hbefore).
    by exists m', s', t', sl, task.
  - intros (m' & s' & t' & sl & task & Hin & Hr & Hlt%Hbefore). exists (task_coord m' s' t').
    split; [|done]. apply taskCoords_spec. by exists m', s', t', sl, task.
Qed.

(** The references of every slice and of every task point backwards. *)
Definition points_backwards (plan : PlannerRegisteredPlan) : Prop :=
  (∀ m s sl r, slice_in plan m s sl → r ∈ default [] (PlannerRegisteredSlice.dependsOnSliceRefs sl) →
     earlier_slice plan m s r) ∧
  (∀ m s t sl task r, task_in plan m s t sl task →
     r ∈ default [] (PlannerRegisteredTask.dependsOnTaskRefs task) → earlier_task plan m s t r).

Lemma checks_ok plan :
  res_each id (each_slice (check_slice plan) plan) = Ok tt ↔ points_backwards plan.
Proof.
  rewrite res_each_ok. setoid_rewrite elem_each_slice. unfold check_slice, points_backwards. split.
  - intros H. split.
    + intros m s sl r Hin Hr. specialize (H _ (ex_intro _ m (ex_intro _ s (ex_intro _ sl (conj Hin eq_refl))))).
      apply res_bind_ok in H as ([] & H & _). rewrite res_each_ok in H. by apply check_slice_ref_ok, H.
    + intros m s t sl task r [Hin Ht] Hr.
      specialize (H _ (ex_intro _ m (ex_intro _ s (ex_intro _ sl (conj Hin eq_refl))))).
      apply res_bind_ok in H as ([] & _ & H). rewrite res_each_ok in H.
      apply check_task_ref_ok. revert r Hr. apply res_each_ok, H, elem_imap. by exists t, task.
  - intros [Hs Ht] x (m & s & sl & Hin & ->). apply res_bind_ok. exists tt. split.
    + apply res_each_ok. intros r Hr. by apply check_slice_ref_ok, (Hs _ _ sl).
    + apply res_each_ok. intros y (t & task & Hl & ->)%elem_imap. apply res_each_ok. intros r Hr.
      apply check_task_ref_ok. by apply (Ht m s t sl task).
Qed.

(** A slice that can be started at once: it waits for no slice, and its first
    task for no task of another slice. *)
Definition starts_at_once (plan : PlannerRegisteredPlan) (m s : nat) (sl : PlannerRegisteredSlice.t) : Prop :=
  slice_in plan m s sl ∧ default [] (PlannerRegisteredSlice.dependsOnSliceRefs sl) = [] ∧
  ∃ task, PlannerRegisteredSlice.tasks sl !! 0 = Some task ∧
    ∀ r, r ∈ default [] (PlannerRegisteredTask.dependsOnTaskRefs task) →
      ∃ t sl' task', task_in plan m s t sl' task' ∧ normalizePlannerRef r = place m s t.

Lemma ready_root_true plan m s sl : slice_in plan m s sl →
  ready_root plan m s sl = true ↔ starts_at_once plan m s sl.
Proof.
  intros Hin. unfold ready_root, starts_at_once.
  destruct (PlannerRegisteredSlice.tasks sl) as [|task rest]; cbn.
  { split; [done|]. by intros (_ & _ & ? & ? & _). }
  rewrite andb_true_iff, negb_true_iff, bool_decide_eq_true, length_zero_iff_nil.
  unfold blockedByCrossSliceTask. split.
  - intros [Hrefs Hb]. split; [done|]. split; [done|]. exists task. split; [done|]. intros r Hr.
    pose proof (existsb_false_elem _ _ _ Hb Hr) as H. cbn in H.
    destruct (taskCoords plan !! normalizePlannerRef r) as [c|] eqn:E; [|done].
    apply taskCoords_spec in E as (m' & s' & t & sl' & task' & Hin' & Hplace & ->).
    apply negb_false_iff, bool_decide_eq_true in H. unfold slice_coord in H. cbn in H.
    assert (m' = m ∧ s' = s) as [-> ->] by (injection H; lia). by exists t, sl', task'.
  - intros (_ & Hrefs & ? & [= <-] & Hr). split; [done|]. apply not_true_iff_false. intros Hb.
    apply existsb_exists in Hb as (r & Hr'%list_elem_of_In & Hb).
    destruct (Hr _ Hr') as (t & sl' & task' & Hin' & Hplace).
    assert (taskCoords plan !! normalizePlannerRef r = Some (task_coord m s t)) as Hc.
    { apply taskCoords_spec. by exists m, s, t, sl', task'. }
    unfold TaskCoord, SliceCoord in *. rewrite Hc in Hb. cbn in Hb. by rewrite bool_decide_eq_true_2 in Hb.
Qed.

Lemma n_slices_each {A} (f : nat → nat → PlannerRegisteredSlice.t → A) plan :
  n_slices (countPlanUnits plan) = length (each_slice f plan).
Proof.
  unfold each_slice. cbn. revert f. induction plan as [|ms plan IH]; intros f; cbn; [done|].
  rewrite length_app, length_imap. f_equal. apply (IH (λ m, f (S m))).
Qed.

(** At most one slice can be started at once. *)
Definition one_start (plan : PlannerRegisteredPlan) : Prop :=
  ∀ m s sl m' s' sl', starts_at_once plan m s sl → starts_at_once plan m' s' sl' → m = m' ∧ s = s'.

Lemma filter_le_1 {A} (p : A → bool) (l : list A) :
  length (List.filter p l) ≤ 1 ↔
  ∀ i j x y, l !! i = Some x → l !! j = Some y → p x = true → p y = true → i = j.
Proof.
  induction l as [|z l IH]; cbn.
  { split; [intros _ [|] ? ? ? [=]|lia]. }
  split.
  - intros H [|i] [|j] x y; cbn; intros Hi Hj Hx Hy; simplify_eq; [done|..].
    + rewrite Hx in H. cbn in H. assert (y ∈ List.filter p l) as Hin.
      { apply list_elem_of_In, filter_In. split; [by apply list_elem_of_In, list_elem_of_lookup; eauto|done]. }
      destruct (List.filter p l); [by apply not_elem_of_nil in Hin|cbn in H; lia].
    + rewrite Hy in H. cbn in H. assert (x ∈ List.filter p l) as Hin.
      { apply list_elem_of_In, filter_In. split; [by apply list_elem_of_In, list_elem_of_lookup; eauto|done]. }
      destruct (List.filter p l); [by apply not_elem_of_nil in Hin|cbn in H; lia].
    + f_equal. assert (length (List.filter p l) ≤ 1) as Hl by (destruct (p z); cbn in H; lia).
      by eapply (proj1 IH Hl).
  - intros H. assert (length (List.filter p l) ≤ 1) as Hl.
    { apply IH. intros i j x y Hi Hj Hx Hy. cut (S i = S j); [lia|]. by eapply (H (S i) (S j)). }
    destruct (p z) eqn:Hz; [|done]. cbn. destruct (List.filter p l) as [|w f] eqn:E; [cbn; lia|].
    assert (w ∈ List.filter p l) as Hw by (rewrite E; apply elem_of_cons; by left).
    apply list_elem_of_In, filter_In in Hw as [Hw%list_elem_of_In Hpw].
    apply list_elem_of_lookup in Hw as [j Hj]. exfalso.
    enough (0 = S j) by lia. by eapply (H 0 (S j)).
Qed.

(** The slices of a plan with their positions, in order. *)
Definition slice_slots (plan : PlannerRegisteredPlan) : list (nat * nat * PlannerRegisteredSlice.t) :=
  each_slice (λ m s sl, (m, s, sl)) plan.

Definition slot_lt (a b : nat * nat * PlannerRegisteredSlice.t) : Prop :=
  a.1.1 < b.1.1 ∨ a.1.1 = b.1.1 ∧ a.1.2 < b.1.2.

Lemma slice_slots_sorted plan : StronglySorted slot_lt (slice_slots plan).
Proof.
  apply concat_imap_sorted.
  - intros m ms. apply imap_sorted. intros i j x y Hij. right. done.
  - intros i j x x' y z Hij (s & sl & _ & ->)%elem_imap (s' & sl' & _ & ->)%elem_imap. by left.
Qed.

Lemma each_slice_slots {A} (f : nat → nat → PlannerRegisteredSlice.t → A) plan :
  each_slice f plan = map (λ '(m, s, sl), f m s sl) (slice_slots plan).
Proof. unfold slice_slots. by rewrite map_each_slice. Qed.

Lemma sorted_lookup {A} (R : relation A) l i j x y :
  StronglySorted R l → l !! i = Some x → l !! j = Some y → i < j → R x y.
Proof.
  intros Hs. revert i j. induction Hs as [|z l Hs IH Hall]; intros [|i] [|j]; cbn; intros Hi Hj Hij;
    try done; try lia; simplify_eq.
  - rewrite List.Forall_forall in Hall. apply Hall, list_elem_of_In, list_elem_of_lookup. eauto.
  - eapply IH; eauto. lia.
Qed.

Lemma starts_ok plan :
  (if bool_decide (1 < n_slices (countPlanUnits plan)) then countInitiallyReadySliceRoots plan else 0) ≤ 1
  ↔ one_start plan.
Proof.
  assert (countInitiallyReadySliceRoots plan ≤ n_slices (countPlanUnits plan)) as Hle.
  { rewrite (n_slices_each (ready_root plan)). unfold countInitiallyReadySliceRoots.
    induction (each_slice (ready_root plan) plan) as [|b l IH]; cbn; [lia|]. destruct b; cbn; lia. }
  transitivity (countInitiallyReadySliceRoots plan ≤ 1); [case_bool_decide; lia|].
  unfold countInitiallyReadySliceRoots. rewrite filter_le_1. unfold one_start.
  rewrite each_slice_slots. setoid_rewrite list_lookup_fmap. split.
  - intros H m s sl m' s' sl' Hst Hst'.
    assert (∀ m s sl, starts_at_once plan m s sl → (m, s, sl) ∈ slice_slots plan) as Hin.
    { intros ??? [? _]. apply elem_each_slice. eauto 10. }
    apply Hin in Hst as Hi. apply Hin in Hst' as Hj.
    apply list_elem_of_lookup in Hi as [i Hi]. apply list_elem_of_lookup in Hj as [j Hj].
    assert (i = j) as <-; [|by simplify_eq].
    eapply H; [by rewrite Hi|by rewrite Hj|..]; cbn; apply ready_root_true; try done; [apply Hst|apply Hst'].
  - intros H i j x y Hi Hj Hx Hy.
    destruct (slice_slots plan !! i) as [[[m s] sl]|] eqn:Ei; [|done].
    destruct (slice_slots plan !! j) as [[[m' s'] sl']|] eqn:Ej; [|done]. cbn in *. simplify_eq.
    assert (∀ i m s sl, slice_slots plan !! i = Some (m, s, sl) → slice_in plan m s sl) as Hin.
    { intros i0 m0 s0 sl0 Hl. assert ((m0, s0, sl0) ∈ slice_slots plan) as Hel
        by (apply list_elem_of_lookup; eauto).
      apply elem_each_slice in Hel as (? & ? & ? & ? & ?). by simplify_eq. }
    destruct (H m s sl m' s' sl') as [-> ->];
      [by apply ready_root_true; [eapply Hin|]|by apply ready_root_true; [eapply Hin|]|].
    pose proof (slice_slots_sorted plan) as Hs.
    destruct (lt_eq_lt_dec i j) as [[Hij|]|Hij]; [|done|];
      [eapply (sorted_lookup _ _ _ _ _ _ Hs Ei Ej) in Hij|eapply (sorted_lookup _ _ _ _ _ _ Hs Ej Ei) in Hij];
      unfold slot_lt in Hij; cbn in Hij; lia.
Qed.

(** C26: The dependency check accepts an outline exactly when every slice reference and every
    task reference names an earlier slice or task (in any case of letters, with white space
    around it), and at most one slice can be started at once. *)
Theorem dependency_check_is_exact (plan : PlannerRegisteredPlan) :
  validateRegisteredPlanDependencyGraph plan = Ok tt ↔ points_backwards plan ∧ one_start plan.
Proof.
  unfold validateRegisteredPlanDependencyGraph. cbv zeta. rewrite res_bind_ok.
  setoid_rewrite res_assert_ok. setoid_rewrite negb_true_iff. setoid_rewrite bool_decide_eq_false.
  setoid_rewrite Nat.nlt_ge. setoid_rewrite starts_ok. rewrite <-checks_ok.
  split; [by intros ([] & ?)|]. by exists tt.
Qed.

(** ** Gates of the same workflow *)

(** Progress does not change what a slice or a task is and waits for. *)
Definition slice_like (a b : GateSliceState.t) : Prop :=
  GateSliceState.id a = GateSliceState.id b ∧
  GateSliceState.dependsOnSliceIds a = GateSliceState.dependsOnSliceIds b ∧
  GateSliceState.tasks a = GateSliceState.tasks b.

Definition task_like (a b : GateTaskState.t) : Prop :=
  GateTaskState.id a = GateTaskState.id b ∧
  GateTaskState.order a = GateTaskState.order b ∧
  GateTaskState.dependsOnTaskIds a = GateTaskState.dependsOnTaskIds b.

Definition same_workflow (g g' : gate) : Prop :=
  Forall2 slice_like (slices g) (slices g') ∧ Forall2 task_like (tasks g) (tasks g').

#[export] Instance slice_like_equiv : Equivalence slice_like.
Proof. unfold slice_like. split; repeat intro; intuition congruence. Qed.

#[export] Instance task_like_equiv : Equivalence task_like.
Proof. unfold task_like. split; repeat intro; intuition congruence. Qed.

#[export] Instance same_workflow_equiv : Equivalence same_workflow.
Proof.
  unfold same_workflow. split; repeat intro.
  - by split; apply reflexivity.
  - destruct H. by split; apply symmetry.
  - destruct H, H0. split; etransitivity; eauto.
Qed.

Lemma Forall2_map_like {A} (R : relation A) (f : A → A) l : (∀ x, R x (f x)) → Forall2 R l (map f l).
Proof. intros H. induction l; cbn; constructor; auto. Qed.

Lemma update_first_like {A} (R : relation A) `{!Reflexive R} (p : A → bool) (f : A → A) l :
  (∀ x, R x (f x)) → Forall2 R l (update_first p f l).
Proof.
  intros Hf. induction l as [|x l IH]; cbn; [constructor|]. destruct (p x); constructor; auto.
  by apply Reflexive_instance_0.
Qed.

Lemma same_items items g : same_workflow g (applyTaskProgressToGate items g).
Proof.
  split; cbn; [reflexivity|]. apply Forall2_map_like. intros t. by destruct (last_item items _).
Qed.

Lemma reconcile_slice_like ts s : slice_like s (reconcile_slice ts s).
Proof. unfold reconcile_slice. repeat case_match; done. Qed.

Lemma same_slices g : same_workflow g (reconcileSliceStatuses g).
Proof. split; cbn; [|reflexivity]. apply Forall2_map_like. intros s. apply reconcile_slice_like. Qed.

Lemma same_milestones g : same_workflow g (reconcileMilestoneStatuses g).
Proof. done. Qed.

Lemma same_verification {V} (p : option (verification_progress V)) g :
  same_workflow g (applyVerificationProgress p g).
Proof.
  destruct p as [p|]; [|done]. split; cbn; [|reflexivity].
  generalize (slices g). induction (vp_slices p) as [|row rows IH]; intros ss; cbn; [reflexivity|].
  etransitivity; [|apply IH]. apply update_first_like; [apply _|]. done.
Qed.

(** The gate of a plan after any progress. *)
Inductive progressed (g0 : gate) : gate → Prop :=
| progressed_start : progressed g0 g0
| progressed_items items g : progressed g0 g → progressed g0 (applyTaskProgressToGate items g)
| progressed_slices g : progressed g0 g → progressed g0 (reconcileSliceStatuses g)
| progressed_milestones g : progressed g0 g → progressed g0 (reconcileMilestoneStatuses g)
| progressed_verification V (p : option (verification_progress V)) g :
    progressed g0 g → progressed g0 (applyVerificationProgress p g).

Lemma progressed_same g0 g : progressed g0 g → same_workflow g0 g.
Proof.
  induction 1; [reflexivity|..]; (etransitivity; [eassumption|]);
    auto using same_items, same_slices, same_milestones, same_verification.
Qed.

Lemma Forall2_find {A} (R : relation A) (p : A → bool) l l' x :
  (∀ a b, R a b → p a = p b) → Forall2 R l l' → List.find p l = Some x →
  ∃ y, List.find p l' = Some y ∧ R x y.
Proof.
  intros Hp. induction 1 as [|a b l l' Hab _ IH]; cbn; [done|].
  rewrite <-(Hp _ _ Hab). destruct (p a); [|done]. intros [= ->]. by exists b.
Qed.

Lemma tasks_of_like g g' s s' :
  same_workflow g g' → slice_like s s' → Forall2 task_like (tasks_of g s) (tasks_of g' s').
Proof.
  intros [_ Ht] (_ & _ & Hpos). unfold tasks_of. rewrite Hpos. clear Hpos.
  induction (GateSliceState.tasks s') as [|i l IH]; cbn; [constructor|].
  destruct (tasks g !! i) as [x|] eqn:Ex.
  - destruct (Forall2_lookup_l _ _ _ _ _ Ht Ex) as (y & -> & Hxy). by constructor.
  - destruct (tasks g' !! i) as [y|] eqn:Ey; [|done].
    destruct (Forall2_lookup_r _ _ _ _ _ Ht Ey) as (x & Hx & _). congruence.
Qed.

Lemma find_in_prefix {A} (p : A → bool) l1 l2 x y :
  x ∈ l1 → p x = true → List.find p (l1 ++ l2) = Some y → y ∈ l1.
Proof.
  induction l1 as [|z l1 IH]; cbn; [by intros ?%not_elem_of_nil|].
  intros Hx Hp. destruct (p z) eqn:Hz; [intros [= ->]; apply elem_of_cons; by left|].
  apply elem_of_cons in Hx as [->|Hx]; [congruence|]. intros. apply elem_of_cons. right. auto.
Qed.

Lemma Forall2_elem_l {A B} (R : A → B → Prop) l l' x : Forall2 R l l' → x ∈ l → ∃ y, y ∈ l' ∧ R x y.
Proof.
  intros H [i Hi]%list_elem_of_lookup. destruct (Forall2_lookup_l _ _ _ _ _ H Hi) as (y & Hy & ?).
  exists y. split; [|done]. apply list_elem_of_lookup. eauto.
Qed.

Lemma Forall2_elem_r {A B} (R : A → B → Prop) l l' y : Forall2 R l l' → y ∈ l' → ∃ x, x ∈ l ∧ R x y.
Proof. intros H%Forall2_flip Hy. by destruct (Forall2_elem_l _ _ _ _ H Hy) as (x & ? & ?); exists x. Qed.

Lemma task_unique g g' x y :
  Forall2 task_like (tasks g) (tasks g') → NoDup (map GateTaskState.id (tasks g)) →
  x ∈ tasks g' → y ∈ tasks g' → GateTaskState.id x = GateTaskState.id y → x = y.
Proof.
  intros Hts Hids [i Hi]%list_elem_of_lookup [j Hj]%list_elem_of_lookup Hxy.
  destruct (Forall2_lookup_r _ _ _ _ _ Hts Hi) as (x0 & Hi0 & Hx0 & _).
  destruct (Forall2_lookup_r _ _ _ _ _ Hts Hj) as (y0 & Hj0 & Hy0 & _).
  enough (i = j) as -> by congruence. apply (list.NoDup_lookup _ _ _ (GateTaskState.id x0) Hids);
    rewrite list_lookup_fmap; [by rewrite Hi0|]. rewrite Hj0. cbn. congruence.
Qed.

Lemma tasks_of_in g s x : x ∈ tasks_of g s → x ∈ tasks g.
Proof. intros (i & _ & Hi)%list_elem_of_omap. apply list_elem_of_lookup. eauto. Qed.

Lemma slice_dep_like g g' pre pre' s' post' d s1 :
  Forall2 slice_like (slices g) (slices g') → Forall2 slice_like pre pre' →
  slices g' = pre' ++ s' :: post' → s1 ∈ pre → findSlice (slices g) d = Some s1 →
  ∃ s2, s2 ∈ pre' ∧ findSlice (slices g') d = Some s2.
Proof.
  intros Hss Hpre Hsplit Hs1 Hfind.
  destruct (Forall2_find slice_like (λ s, bool_decide (GateSliceState.id s = d)) (slices g) (slices g') s1)
    as (s2 & Hf2 & Hl2); [by intros a b (-> & _)|done..|].
  exists s2. split; [|done]. destruct (Forall2_elem_l _ _ _ _ Hpre Hs1) as (s3 & Hs3 & Hl3).
  rewrite Hsplit in Hf2. revert Hf2. apply (find_in_prefix _ _ _ s3); [done|].
  apply find_some in Hfind as [_ Hid%bool_decide_eq_true]. apply bool_decide_eq_true.
  by destruct Hl3 as [<- _].
Qed.

Lemma findTask_like g g' d x :
  Forall2 task_like (tasks g) (tasks g') → findTask (tasks g) d = Some x →
  ∃ y, findTask (tasks g') d = Some y ∧ y ∈ tasks g' ∧ GateTaskState.id x = GateTaskState.id y.
Proof.
  intros Hts Hx.
  destruct (Forall2_find task_like (λ t, bool_decide (GateTaskState.id t = d)) (tasks g) (tasks g') x)
    as (y & Hy & Hxy & _); [by intros a b (-> & _)|done..|].
  exists y. split; [done|]. apply find_some in Hy as [Hyin%list_elem_of_In _]. done.
Qed.

(** Whether the dependencies of a gate point backwards depends on its workflow. *)
Lemma backward_like g g' :
  same_workflow g g' → NoDup (map GateTaskState.id (tasks g)) → backward g → backward g'.
Proof.
  intros Hsame Hids Hback pre' s' post' Hsplit. destruct Hsame as [Hss Hts] eqn:E. clear E.
  pose proof Hss as Hss0. rewrite Hsplit in Hss0.
  apply Forall2_app_inv_r in Hss0 as (pre & rest & Hpre & Hrest & Hslices).
  inversion Hrest as [|s ? post ? Hs Hpost]; subst rest; subst.
  destruct (Hback _ _ _ Hslices) as [Hd Ht]. split.
  { intros d Hd'. rewrite <-(proj1 (proj2 Hs)) in Hd'. destruct (Hd _ Hd') as (s1 & Hs1 & Hfind).
    by eapply slice_dep_like. }
  intros tpre' t' tpost' Hsplit'. pose proof (tasks_of_like g g' s s' Hsame Hs) as Hlike.
  assert (∀ z, z ∈ tpre' → z ∈ tasks g') as Hpre'.
  { intros z Hz. apply (tasks_of_in g' s'). rewrite Hsplit'. set_solver. }
  pose proof Hlike as Hlike0. rewrite Hsplit' in Hlike0.
  apply Forall2_app_inv_r in Hlike0 as (tpre & trest & Htpre & Htrest & Htasks).
  inversion Htrest as [|t ? tpost ? Htt Htpost]; subst trest; subst.
  destruct (Ht _ _ _ Htasks) as [Hdeps Hord]. destruct Htt as (Hid & Horder & Hdep). split.
  - intros d Hd'. rewrite <-Hdep in Hd'. destruct (Hdeps _ Hd') as (x & Hx & Hwhere).
    destruct (findTask_like g g' d x Hts Hx) as (y & Hy & Hyin & Hxy). exists y. split; [done|].
    destruct Hwhere as [Hw|(s1 & Hs1 & Hw)].
    + left. destruct (Forall2_elem_l _ _ _ _ Htpre Hw) as (z & Hz & Hxz).
      rewrite (task_unique g g' y z); auto. destruct Hxz. congruence.
    + right. destruct (Forall2_elem_l _ _ _ _ Hpre Hs1) as (s2 & Hs2 & Hl2). exists s2. split; [done|].
      destruct (Forall2_elem_l _ _ _ _ (tasks_of_like g g' s1 s2 Hsame Hl2) Hw) as (z & Hz & Hxz).
      rewrite (task_unique g g' y z); eauto using tasks_of_in. destruct Hxz. congruence.
  - intros p Hp Hlt. destruct (Forall2_elem_r _ _ _ _ Hlike Hp) as (q & Hq & Hqp).
    destruct (Forall2_elem_l _ _ _ _ Htpre (Hord q Hq ltac:(destruct Hqp as (_ & -> & _); lia))) as (z & Hz & Hqz).
    rewrite (task_unique g g' p z); eauto using tasks_of_in. destruct Hqp, Hqz. congruence.
Qed.

(** ** The gate of a flattened outline *)

Section flattened.
Context (plan : PlannerRegisteredPlan) (contexts : gmap string TaskContext.t).

Definition saved : SavedJobPlan.t := flattenRegisteredPlan plan contexts.

Definition built_slice (m s : nat) (sl : PlannerRegisteredSlice.t) : GateSliceState.t :=
  build_slice saved (Z.of_nat m + 1) s sl.

Definition built_task (m s t : nat) (task : PlannerRegisteredTask.t) : GateTaskState.t :=
  build_task saved (Z.of_nat m + 1, Z.of_nat s + 1, Z.of_nat t + 1, task)%Z.

Lemma built_slices : slices (buildGateStates saved) = each_slice built_slice plan.
Proof. reflexivity. Qed.

Lemma plan_slots_each :
  plan_slots saved = each_task (λ m s t _ task, (Z.of_nat m + 1, Z.of_nat s + 1, Z.of_nat t + 1, task)%Z) plan.
Proof. reflexivity. Qed.

Lemma built_tasks : tasks (buildGateStates saved) = each_task (λ m s t _ task, built_task m s t task) plan.
Proof. cbn [buildGateStates tasks]. unfold build_tasks. by rewrite plan_slots_each, map_each_task. Qed.

Lemma built_task_id m s t task : GateTaskState.id (built_task m s t task) = place m s t.
Proof. done. Qed.

Definition task_lt (a b : GateTaskState.t) : Prop :=
  (GateTaskState.milestoneIndex a < GateTaskState.milestoneIndex b ∨
   GateTaskState.milestoneIndex a = GateTaskState.milestoneIndex b ∧
   (GateTaskState.sliceIndex a < GateTaskState.sliceIndex b ∨
    GateTaskState.sliceIndex a = GateTaskState.sliceIndex b ∧
    GateTaskState.order a < GateTaskState.order b))%Z.

Lemma built_tasks_sorted : StronglySorted task_lt (tasks (buildGateStates saved)).
Proof.
  rewrite built_tasks. apply concat_imap_sorted.
  - intros m ms. apply concat_imap_sorted.
    + intros s sl. apply imap_sorted. intros. right. split; [done|]. right. split; [done|]. cbn. lia.
    + intros i j x x' y z Hij (t & task & _ & ->)%elem_imap (t' & task' & _ & ->)%elem_imap.
      right. split; [done|]. left. cbn. lia.
  - intros i j x x' y z Hij (s & sl & _ & (t & task & _ & ->)%elem_imap)%elem_concat_imap
      (s' & sl' & _ & (t' & task' & _ & ->)%elem_imap)%elem_concat_imap. left. cbn. lia.
Qed.

Lemma sorted_NoDup {A B} (R : relation A) (f : A → B) l :
  StronglySorted R l → (∀ x y, x ∈ l → y ∈ l → f x = f y → ¬ R x y) → NoDup (map f l).
Proof.
  induction 1 as [|x l Hs IH Hall]; intros H; cbn; constructor.
  - intros (y & Hy & Hin)%list_elem_of_fmap. rewrite List.Forall_forall in Hall.
    apply (H x y); [apply elem_of_cons; by left|apply elem_of_cons; by right|done|].
    by apply Hall, list_elem_of_In.
  - apply IH. intros y z Hy Hz. apply H; apply elem_of_cons; by right.
Qed.

Lemma built_ids_unique : NoDup (map GateTaskState.id (tasks (buildGateStates saved))).
Proof.
  apply (sorted_NoDup task_lt); [apply built_tasks_sorted|]. intros x y. rewrite built_tasks.
  intros (m & s & t & sl & task & _ & ->)%elem_each_task (m' & s' & t' & sl' & task' & _ & ->)%elem_each_task.
  rewrite !built_task_id. intros (-> & -> & ->)%place_inj. unfold task_lt. cbn. lia.
Qed.

Lemma tasks_at_positions {A} (p : A → bool) (l : list A) :
  omap (λ i, l !! i) (omap (λ '(i, t), if p t then Some i else None) (imap pair l)) = List.filter p l.
Proof.
  cut (∀ l0, omap (λ i, (l0 ++ l) !! i)
    (omap (λ '(i, t), if p t then Some i else None) (imap (λ i, pair (length l0 + i)) l)) = List.filter p l).
  { intros H. apply (H []). }
  induction l as [|x l IH]; intros l0; [done|].
  assert (imap ((λ i, pair (length l0 + i)) ∘ S) l = imap (λ i, pair (length (l0 ++ [x]) + i)) l) as Himap.
  { apply imap_ext'. intros i y. cbn. f_equal. rewrite length_app. cbn. lia. }
  specialize (IH (l0 ++ [x])). rewrite <-app_assoc in IH. cbn [imap omap list_omap List.filter app] in *.
  rewrite Himap, Nat.add_0_r. destruct (p x); cbn [omap list_omap]; [|done].
  by rewrite list_lookup_middle, IH.
Qed.

Lemma tasks_of_built m s sl :
  tasks_of (buildGateStates saved) (built_slice m s sl) =
  List.filter (λ t, bool_decide (GateTaskState.milestoneIndex t = Z.of_nat m + 1)%Z &&
                    bool_decide (GateTaskState.sliceIndex t = Z.of_nat s + 1)%Z)
    (tasks (buildGateStates saved)).
Proof. apply tasks_at_positions. Qed.

Lemma elem_tasks_of m s sl x : slice_in plan m s sl →
  x ∈ tasks_of (buildGateStates saved) (built_slice m s sl) ↔
  ∃ t task, task_in plan m s t sl task ∧ x = built_task m s t task.
Proof.
  intros Hsl. rewrite tasks_of_built, list_elem_of_In, filter_In, <-list_elem_of_In, built_tasks, elem_each_task.
  rewrite andb_true_iff, !bool_decide_eq_true. split.
  - intros ((m' & s' & t & sl' & task & Hin & ->) & Hm & Hs). cbn in Hm, Hs.
    assert (m' = m ∧ s' = s) as [-> ->] by lia. exists t, task. split; [|done].
    by rewrite <-(slice_in_unique _ _ _ _ _ (proj1 Hin) Hsl).
  - intros (t & task & Hin & ->). split; [|done]. by exists m, s, t, sl, task.
Qed.

(** Looking a task or a slice up by the id of its place. *)
Lemma find_built_task m s t sl task : task_in plan m s t sl task →
  findTask (tasks (buildGateStates saved)) (place m s t) = Some (built_task m s t task).
Proof.
  intros Hin. unfold findTask. destruct (List.find _ _) as [x|] eqn:E.
  - apply find_some in E as [Hx%list_elem_of_In Hid%bool_decide_eq_true]. rewrite built_tasks in Hx.
    apply elem_each_task in Hx as (m' & s' & t' & sl' & task' & Hin' & ->).
    rewrite built_task_id in Hid. apply place_inj in Hid as (-> & -> & ->).
    by destruct (task_in_unique _ _ _ _ _ _ _ _ Hin Hin') as [-> ->].
  - pose proof (find_none _ _ E (built_task m s t task)) as H. cbv beta in H.
    rewrite bool_decide_eq_true_2 in H by done. enough (true = false) by done. apply H.
    apply list_elem_of_In. rewrite built_tasks. apply elem_each_task. by exists m, s, t, sl, task.
Qed.

Lemma find_built_slice m s sl : slice_in plan m s sl →
  findSlice (slices (buildGateStates saved)) (slice_place m s) = Some (built_slice m s sl).
Proof.
  intros Hin. unfold findSlice. destruct (List.find _ _) as [x|] eqn:E.
  - apply find_some in E as [Hx%list_elem_of_In Hid%bool_decide_eq_true]. rewrite built_slices in Hx.
    apply elem_each_slice in Hx as (m' & s' & sl' & Hin' & ->).
    change (slice_place m' s' = slice_place m s) in Hid. apply slice_place_inj in Hid as [-> ->].
    by rewrite (slice_in_unique _ _ _ _ _ Hin Hin').
  - pose proof (find_none _ _ E (built_slice m s sl)) as H. cbv beta in H.
    rewrite bool_decide_eq_true_2 in H by done. enough (true = false) by done. apply H.
    apply list_elem_of_In. rewrite built_slices. apply elem_each_slice. by exists m, s, sl.
Qed.

Lemma refToId_spec r x : refToId saved !! r = Some x ↔
  ∃ m s t sl task, task_in plan m s t sl task ∧ r = place m s t ∧ x = place m s t.
Proof.
  assert (refToId saved = map_of (each_task (λ m s t _ _, (place m s t, place m s t)) plan)) as ->.
  { transitivity (map_of (map (λ '(mi, si, ti, _), (normalizeRef (task_id mi si ti), task_id mi si ti))
                            (plan_slots saved))).
    { unfold refToId, map_of. generalize (∅ : gmap string string).
      induction (plan_slots saved) as [|[[[mi si] ti] task] l IH]; intros m0; cbn; [done|]. apply IH. }
    rewrite plan_slots_each.
    rewrite map_each_task. f_equal. unfold each_task. do 2 (f_equal; apply imap_ext'; intros ??).
    apply imap_ext'. intros t task. f_equal. apply normalized_place. }
  split.
  - intros (m & s & t & sl & task & Hin & [= -> ->])%map_of_Some%elem_each_task. by exists m, s, t, sl, task.
  - intros (m & s & t & sl & task & Hin & -> & ->).
    destruct (map_of_is_Some (each_task (λ m s t _ _, (place m s t, place m s t)) plan) (place m s t) (place m s t))
      as [c Hc].
    { apply elem_each_task. by exists m, s, t, sl, task. }
    rewrite Hc. apply map_of_Some, elem_each_task in Hc as (m' & s' & t' & sl' & task' & _ & H). congruence.
Qed.
(** The flat task of a place has the references of the task in the tree. *)
Lemma built_dependencies m s t sl task : task_in plan m s t sl task →
  GateTaskState.dependsOnTaskIds (built_task m s t task) =
  dependency_ids saved (default [] (PlannerRegisteredTask.dependsOnTaskRefs task)).
Proof.
  intros Hin. cbn -[findFlatTask]. destruct (PlannerRegisteredTask.dependsOnTaskRefs task) eqn:Hrefs; [done|].
  cbn -[findFlatTask]. f_equal. destruct (findFlatTask saved _) as [f|] eqn:E; [|done]. cbn.
  unfold findFlatTask in E. apply find_some in E as [Hf%list_elem_of_In Hid%bool_decide_eq_true].
  apply elem_each_task in Hf as (m' & s' & t' & sl' & task' & Hin' & ->).
  change (place m' s' t' = place m s t) in Hid. apply place_inj in Hid as (-> & -> & ->).
  destruct (task_in_unique _ _ _ _ _ _ _ _ Hin Hin') as [_ <-]. cbn. by rewrite Hrefs.
Qed.

(** Slice references are written the way ids are. *)
Definition slice_refs_exact : Prop :=
  ∀ m s sl r, slice_in plan m s sl → r ∈ default [] (PlannerRegisteredSlice.dependsOnSliceRefs sl) →
    normalizePlannerRef r = r.

Lemma built_split pre x post :
  slices (buildGateStates saved) = pre ++ x :: post →
  ∃ m s sl, slice_in plan m s sl ∧ x = built_slice m s sl ∧
    ∀ m' s' sl', slice_in plan m' s' sl' → m' < m ∨ m' = m ∧ s' < s → built_slice m' s' sl' ∈ pre.
Proof.
  rewrite built_slices, each_slice_slots. intros (l1 & l2 & Hl & <- & Hl2)%map_eq_app.
  apply map_eq_cons in Hl2 as ([[m s] sl] & l3 & -> & <- & _). exists m, s, sl.
  assert ((m, s, sl) ∈ slice_slots plan) as Hin by (rewrite Hl; set_solver).
  apply elem_each_slice in Hin as (m0 & s0 & sl0 & Hin & [= <- <- <-]). split; [done|]. split; [done|].
  intros m' s' sl' Hin' Hlt. apply (list_elem_of_fmap_2' (λ '(m, s, sl), built_slice m s sl) _ (m', s', sl')); [|done].
  apply (sorted_before slot_lt _ _ (m, s, sl) _ _ (slice_slots_sorted plan) Hl).
  - apply elem_each_slice. by exists m', s', sl'.
  - intros z. unfold slot_lt. lia.
  - unfold slot_lt. lia.
  - exact Hlt.
Qed.

Lemma built_tasks_before m s sl tpre x tpost y : slice_in plan m s sl →
  tasks_of (buildGateStates saved) (built_slice m s sl) = tpre ++ x :: tpost →
  y ∈ tasks_of (buildGateStates saved) (built_slice m s sl) →
  (GateTaskState.order y < GateTaskState.order x)%Z → y ∈ tpre.
Proof.
  intros Hsl Hsplit Hy Hlt.
  assert (x ∈ tasks_of (buildGateStates saved) (built_slice m s sl)) as Hx by (rewrite Hsplit; set_solver).
  apply (sorted_before task_lt _ _ x tpost y) in Hsplit; [done| |done|..].
  - rewrite tasks_of_built. apply sorted_filter, built_tasks_sorted.
  - intros z. unfold task_lt. lia.
  - unfold task_lt. lia.
  - apply elem_tasks_of in Hx as (t & task & _ & ->); [|done].
    apply elem_tasks_of in Hy as (t' & task' & _ & ->); [|done]. unfold task_lt. cbn in *. lia.
Qed.

Lemma built_backward : points_backwards plan → slice_refs_exact → backward (buildGateStates saved).
Proof.
  intros [Hslices Htasks] Hexact pre x post (m & s & sl & Hin & -> & Hpre)%built_split. split.
  - intros d [Hd _]%list_elem_of_In%filter_In. apply list_elem_of_In in Hd.
    destruct (Hslices m s sl d Hin Hd) as (m' & s' & sl' & Hin' & Hr & Hlt).
    rewrite (Hexact m s sl d Hin Hd) in Hr. subst d. exists (built_slice m' s' sl').
    split; [by apply Hpre|by apply find_built_slice].
  - intros tpre y tpost Hsplit.
    assert (y ∈ tasks_of (buildGateStates saved) (built_slice m s sl)) as Hy by (rewrite Hsplit; set_solver).
    split; [|intros p Hp; by eapply built_tasks_before].
    apply elem_tasks_of in Hy as Hy'; [|done]. destruct Hy' as (t & task & Hint & ->).
    intros d. rewrite (built_dependencies m s t sl task Hint).
    intros [(r & <- & Hr%list_elem_of_In)%in_map_iff _]%list_elem_of_In%filter_In.
    destruct (Htasks m s t sl task r Hint Hr) as (m' & s' & t' & sl' & task' & Hin' & Hplace & Hlt).
    assert (refToId saved !! normalizeRef r = Some (place m' s' t')) as ->.
    { apply refToId_spec. by exists m', s', t', sl', task'. }
    exists (built_task m' s' t' task'). split; [by apply (find_built_task _ _ _ sl')|].
    assert (built_task m' s' t' task' ∈ tasks_of (buildGateStates saved) (built_slice m' s' sl')) as Hel.
    { apply elem_tasks_of; [apply Hin'|]. by exists t', task'. }
    destruct Hlt as [Hlt|(-> & [Hlt|(-> & Hlt)])]; [right..|left].
    1,2: exists (built_slice m' s' sl') || exists (built_slice m s' sl'); split; [apply Hpre; [apply Hin'|lia]|done].
    rewrite (slice_in_unique _ _ _ _ _ (proj1 Hin') Hin) in Hel.
    eapply built_tasks_before; [done|done|done|cbn; lia].
Qed.

Lemma built_task_in_slice g x :
  same_workflow (buildGateStates saved) g → x ∈ tasks g → ∃ s, s ∈ slices g ∧ x ∈ tasks_of g s.
Proof.
  intros Hsame Hx. destruct (Forall2_elem_r _ _ _ _ (proj2 Hsame) Hx) as (y & Hy & Hyx).
  pose proof Hy as Hy0. rewrite built_tasks in Hy0.
  apply elem_each_task in Hy0 as (m & s & t & sl & task & Hin & Heq).
  assert (built_slice m s sl ∈ slices (buildGateStates saved)) as Hs.
  { rewrite built_slices. apply elem_each_slice. exists m, s, sl. split; [apply Hin|done]. }
  destruct (Forall2_elem_l _ _ _ _ (proj1 Hsame) Hs) as (s' & Hs' & Hlike).
  assert (y ∈ tasks_of (buildGateStates saved) (built_slice m s sl)) as Hys.
  { apply elem_tasks_of; [apply Hin|]. by exists t, task. }
  destruct (Forall2_elem_l _ _ _ _ (tasks_of_like _ _ _ _ Hsame Hlike) Hys) as (z & Hz & Hyz).
  exists s'. split; [done|]. rewrite (task_unique _ g x z (proj2 Hsame) built_ids_unique Hx); [done| |].
  - by eapply tasks_of_in.
  - destruct Hyx, Hyz. congruence.
Qed.
End flattened.

(** C8: The workflow of an accepted outline never deadlocks: build the gate from the plan that
    is saved for the outline and apply any progress to it; as long as nothing runs, failed or
    awaits its verifier, every gate with a pending task has a next task to run. The references
    of the outline to slices have to be written the way ids are. *)
Theorem accepted_outlines_never_deadlock plan contexts g t :
  validateRegisteredPlanDependencyGraph plan = Ok tt → slice_refs_exact plan →
  progressed (buildGateStates (flattenRegisteredPlan plan contexts)) g →
  at_rest g → t ∈ tasks g → GateTaskState.status t = "pending" →
  ∃ t', findNextReadyTask g = Some (Some t').
Proof.
  intros Hok Hexact Hsame%progressed_same Hrest Ht Hp.
  unfold validateRegisteredPlanDependencyGraph in Hok. apply res_bind_ok in Hok as ([] & Hok%checks_ok & _).
  pose proof (backward_like _ _ Hsame (built_ids_unique plan contexts)
    (built_backward plan contexts Hok Hexact)) as Hback.
  destruct (built_task_in_slice plan contexts g t Hsame Ht) as (s & Hs & Hts).
  by apply (backward_next g s t).
Qed.

(** A slice reference that is not written the way ids are is accepted, because the check
    compares references without regard to case and white space, but the gate never lets its slice
    start: whatever progress the workflow makes, no task of the slice is ever handed out. *)
Theorem inexact_slice_ref_blocks_forever plan contexts g m s sl r t :
  validateRegisteredPlanDependencyGraph plan = Ok tt →
  slice_in plan m s sl → r ∈ default [] (PlannerRegisteredSlice.dependsOnSliceRefs sl) →
  normalizePlannerRef r ≠ r →
  progressed (buildGateStates (flattenRegisteredPlan plan contexts)) g →
  findNextReadyTask g = Some (Some t) → ∀ i, GateTaskState.id t ≠ place m s i.
Proof.
  intros Hok Hin Hr Hinexact Hsame%progressed_same Hnext i Hid.
  unfold validateRegisteredPlanDependencyGraph in Hok. apply res_bind_ok in Hok as ([] & [Hback _]%checks_ok & _).
  destruct (find_in_slices_spec g (slices g)) as (r0 & Hr0 & Hspec).
  unfold findNextReadyTask in Hnext. rewrite Hr0 in Hnext. injection Hnext as ->.
  destruct Hspec as (s' & Hs' & _ & Ht & _ & Hready & _).
  destruct (Forall2_elem_r _ _ _ _ (proj1 Hsame) Hs') as (x & Hx & Hlike). rewrite built_slices in Hx.
  apply elem_each_slice in Hx as (m1 & s1 & sl1 & Hin1 & ->).
  destruct (Forall2_elem_r _ _ _ _ (tasks_of_like _ _ _ _ Hsame Hlike) Ht) as (y & Hy & Hyt & _).
  apply (elem_tasks_of plan contexts) in Hy as (t1 & task1 & _ & ->); [|done].
  rewrite Hid, built_task_id in Hyt. apply place_inj in Hyt as (-> & -> & _).
  assert (sl1 = sl) as -> by (by eapply slice_in_unique).
  destruct (Hready r) as (d & Hd & _).
  { rewrite <-(proj1 (proj2 Hlike)). apply list_elem_of_In, filter_In. rewrite <-list_elem_of_In.
    split; [done|]. apply negb_true_iff, bool_decide_eq_false. intros ->.
    destruct (Hback m s sl "" Hin Hr) as (m' & s0 & sl' & _ & Hplace & _). by destruct m'. }
  apply find_some in Hd as [Hd%list_elem_of_In Hdid%bool_decide_eq_true].
  destruct (Forall2_elem_r _ _ _ _ (proj1 Hsame) Hd) as (z & Hz & Hzd & _). rewrite built_slices in Hz.
  apply elem_each_slice in Hz as (m2 & s2 & sl2 & _ & ->). apply Hinexact. rewrite <-Hdid, <-Hzd.
  apply normalized_slice_place.
Qed.

(** ** Normalization *)

(** A text as [nonEmptyString] returns it. *)
Definition trimmed (s : string) : Prop := trim s = s ∧ s ≠ "".

Lemma nonEmptyString_trimmed s : trimmed s → nonEmptyString (Some (JStr s)) = Some s.
Proof. intros [Ht Hn]. cbn. rewrite Ht. by rewrite bool_decide_eq_false_2. Qed.

Lemma nonEmptyString_some v s : nonEmptyString v = Some s → trimmed s.
Proof.
  unfold nonEmptyString, nonEmpty. destruct v as [[| | |x| |]|]; try done.
  case_bool_decide; [done|]. intros [= <-]. split; [apply trim_idem|done].
Qed.

Lemma stringList_trimmed v : Forall trimmed (stringList v).
Proof.
  unfold stringList. destruct v as [[| | | |items|]|]; try constructor.
  apply List.Forall_forall. intros x [(y & <- & _)%in_map_iff Hx]%filter_In.
  apply negb_true_iff, bool_decide_eq_false in Hx. split; [apply trim_idem|done].
Qed.

Lemma stringList_json l : Forall trimmed l → stringList (Some (strings_json l)) = l.
Proof.
  intros H. unfold stringList, strings_json.
  assert (strings_of (map JStr l) = l) as -> by (clear H; induction l; cbn; [done|]; by f_equal).
  induction H as [|x l [Hx Hn] _ IH]; [done|]. cbn in *. rewrite Hx, bool_decide_eq_false_2 by done.
  cbn. by f_equal.
Qed.

Lemma trimEnd_app a b : trimEnd b = b → b ≠ "" → trimEnd (a +:+ b) = a +:+ b.
Proof.
  intros Hb Hn. induction a as [|c a IH]; [done|]. rewrite str_app_cons. cbn. rewrite IH.
  by destruct a, b.
Qed.

Lemma trim_trimEnd s : trim s = s → trimEnd s = s.
Proof. intros H. rewrite <-H at 2. rewrite <-H at 1. unfold trim. apply trimEnd_trimStart, trimEnd_idem. Qed.

(** A line that starts with a letter and ends with a trimmed text. *)
Definition line (s : string) : Prop := (∃ c r, s = String c r ∧ is_space c = false) ∧ trimEnd s = s.

Lemma line_label c r a : is_space c = false → trimmed a → line (String c r +:+ a).
Proof.
  intros Hc [Ha Hn]. split; [rewrite str_app_cons; eauto|]. apply trimEnd_app; [|done].
  by apply trim_trimEnd.
Qed.

Lemma line_trimmed s : line s → trimmed s.
Proof. intros [(c & r & -> & Hc) H]. split; [|done]. unfold trim. rewrite H. cbn. by rewrite Hc. Qed.

Lemma join_line l : Forall line l → l ≠ [] → line (join newline l).
Proof.
  induction 1 as [|x l [Hc Hx] Hl IH]; [done|]. intros _. destruct l as [|y l]; [done|].
  cbn [join]. destruct (IH ltac:(done)) as [(c & r & Hj & _) He]. split.
  - destruct Hc as (c0 & r0 & -> & Hc0). rewrite str_app_cons. eauto.
  - apply trimEnd_app; [|by destruct x, y]. apply trimEnd_app; [done|].
    destruct Hc as (c0 & r0 & -> & _). cbn [join] in Hj. by rewrite Hj.
Qed.

Lemma criteria_trimmed obj s : or_undefined (resolveSuccessCriteria obj) = Some s → trimmed s.
Proof.
  unfold or_undefined. case_bool_decide as Hne; [done|]. intros [= <-]. unfold resolveSuccessCriteria in *.
  destruct (nonEmptyString _) as [d|] eqn:E; [by eapply nonEmptyString_some|].
  apply line_trimmed, join_line; [|by intros Hnil; rewrite Hnil in Hne].
  apply Forall_app. split; apply List.Forall_forall; intros x (a & <- & Ha)%in_map_iff.
  all: pose proof (stringList_trimmed (json_get "acceptanceSignals" obj)) as H1;
    pose proof (stringList_trimmed (json_get "expectedArtifacts" obj)) as H2;
    rewrite List.Forall_forall in H1, H2; apply line_label; auto.
Qed.

(** What normalization leaves in the places of a plan. *)
Definition trimmed_opt (o : option string) : Prop := match o with Some s => trimmed s | None => True end.
Definition trimmed_list (o : option (list string)) : Prop := ∃ l, o = Some l ∧ Forall trimmed l.
Definition trimmed_some (o : option string) : Prop := ∃ s, o = Some s ∧ trimmed s.

Definition task_normal (task : PlannerRegisteredTask.t) : Prop :=
  trimmed_some (PlannerRegisteredTask.title task) ∧
  trimmed_some (PlannerRegisteredTask.description task) ∧
  PlannerRegisteredTask.taskKind task ∈ TASK_KINDS ∧
  trimmed_some (PlannerRegisteredTask.abilityCode task) ∧
  trimmed_list (PlannerRegisteredTask.referenceIds task) ∧
  trimmed_opt (PlannerRegisteredTask.referenceReason task) ∧
  trimmed_list (PlannerRegisteredTask.dependsOnTaskRefs task) ∧
  trimmed_list (PlannerRegisteredTask.requiredInputs task) ∧
  trimmed_opt (PlannerRegisteredTask.successCriteria task) ∧
  is_Some (PlannerRegisteredTask.canRunInParallel task) ∧
  PlannerRegisteredTask.confirmed task = None.

Definition slice_normal (slice : PlannerRegisteredSlice.t) : Prop :=
  trimmed_opt (PlannerRegisteredSlice.title slice) ∧
  trimmed_opt (PlannerRegisteredSlice.description slice) ∧
  trimmed (PlannerRegisteredSlice.successCriteria slice) ∧
  trimmed_list (PlannerRegisteredSlice.dependsOnSliceRefs slice) ∧
  PlannerRegisteredSlice.confirmed slice = None ∧
  PlannerRegisteredSlice.tasks slice ≠ [] ∧
  Forall task_normal (PlannerRegisteredSlice.tasks slice).

Definition milestone_normal (milestone : PlannerRegisteredMilestone.t) : Prop :=
  trimmed_opt (PlannerRegisteredMilestone.title milestone) ∧
  trimmed_opt (PlannerRegisteredMilestone.description milestone) ∧
  trimmed_some (PlannerRegisteredMilestone.successCriteria milestone) ∧
  PlannerRegisteredMilestone.confirmed milestone = None ∧
  PlannerRegisteredMilestone.slices milestone ≠ [] ∧
  Forall slice_normal (PlannerRegisteredMilestone.slices milestone).

Definition outline_normal (plan : PlannerRegisteredPlan) : Prop :=
  plan ≠ [] ∧ Forall milestone_normal plan.

Lemma res_mapi_length {A B} (f : nat → A → result string B) k l ys : res_mapi f k l = Ok ys → length ys = length l.
Proof.
  revert k ys. induction l as [|x l IH]; intros k ys; cbn; [by intros [= <-]|].
  intros (y & Hy & (ys' & Hys & [= <-])%res_bind_ok)%res_bind_ok. cbn. f_equal. eauto.
Qed.

Lemma items_or_some v e l : items_or v e = Ok l → l ≠ [].
Proof. unfold items_or. destruct v as [[| | | |[|x items]|]|]; try done. by intros [= <-]. Qed.

Lemma res_mapi_nonempty {A B} (f : nat → A → result string B) k l ys : res_mapi f k l = Ok ys → l ≠ [] → ys ≠ [].
Proof. intros H%res_mapi_length Hl ->. by destruct l. Qed.

Lemma one_of_chosen allowed v e s : one_of allowed v e = Ok s → nonEmptyString v = Some s ∧ s ∈ allowed.
Proof.
  intros (x & Hx%res_some_ok & ([] & Ha%res_assert_ok & [= <-])%res_bind_ok)%res_bind_ok.
  by apply bool_decide_eq_true in Ha.
Qed.

Lemma nonEmptyString_opt v : trimmed_opt (nonEmptyString v).
Proof. destruct (nonEmptyString v) eqn:E; [|done]. by eapply nonEmptyString_some. Qed.

Lemma criteria_opt obj : trimmed_opt (or_undefined (resolveSuccessCriteria obj)).
Proof. destruct (or_undefined _) eqn:E; [|done]. by eapply criteria_trimmed. Qed.

Lemma normalize_task_normal m s t raw task : normalize_task m s t raw = Ok task → task_normal task.
Proof.
  unfold normalize_task. cbv zeta. intros ([] & _ & H)%res_bind_ok.
  apply res_bind_ok in H as (k & [_ Hk]%one_of_chosen & H).
  apply res_bind_ok in H as (ti & Hti%res_some_ok%nonEmptyString_some & H).
  apply res_bind_ok in H as (de & Hde%res_some_ok%nonEmptyString_some & H).
  apply res_bind_ok in H as (ab & Hab%res_some_ok%nonEmptyString_some & [= <-]).
  unfold task_normal, trimmed_some, trimmed_list. cbn -[or_undefined resolveSuccessCriteria stringList nonEmptyString TASK_KINDS].
  repeat split; eauto using stringList_trimmed, nonEmptyString_opt, criteria_opt.
Qed.

Lemma normalize_slice_normal m s raw slice : normalize_slice m s raw = Ok slice → slice_normal slice.
Proof.
  unfold normalize_slice. cbv zeta. intros ([] & _ & H)%res_bind_ok.
  apply res_bind_ok in H as (items & Hitems%items_or_some & H).
  apply res_bind_ok in H as (ts & Hts & H).
  apply res_bind_ok in H as (c & Hc%res_some_ok%criteria_trimmed & [= <-]).
  unfold slice_normal, trimmed_list. cbn -[stringList nonEmptyString].
  repeat split; eauto using stringList_trimmed, nonEmptyString_opt, res_mapi_nonempty; try apply Hc.
  eapply res_mapi_Forall; [|done]. intros. by eapply normalize_task_normal.
Qed.

Lemma normalize_milestone_normal m raw milestone : normalize_milestone m raw = Ok milestone → milestone_normal milestone.
Proof.
  unfold normalize_milestone. cbv zeta. intros ([] & _ & H)%res_bind_ok.
  apply res_bind_ok in H as (items & Hitems%items_or_some & H).
  apply res_bind_ok in H as (ts & Hts & H).
  apply res_bind_ok in H as (c & Hc%res_some_ok%criteria_trimmed & [= <-]).
  unfold milestone_normal, trimmed_some. cbn -[nonEmptyString].
  repeat split; eauto using nonEmptyString_opt, res_mapi_nonempty.
  eapply res_mapi_Forall; [|done]. intros. by eapply normalize_slice_normal.
Qed.

Lemma normalized_outline v plan : normalizeRegisteredPlan v = Ok plan → outline_normal plan.
Proof.
  intros ([] & _ & (items & Hitems%items_or_some & H)%res_bind_ok)%res_bind_ok.
  split; [by eapply res_mapi_nonempty|]. eapply res_mapi_Forall; [|done].
  intros. by eapply normalize_milestone_normal.
Qed.

(** Reading the fields of an encoded place. *)
Lemma get_opt {A} k (f : A → json) o rest :
  json_get k (JObj (opt_field k f o ++ rest)) =
  match o with Some v => Some (f v) | None => json_get k (JObj rest) end.
Proof. destruct o; cbn; [|done]. by rewrite bool_decide_eq_true_2. Qed.

Lemma get_opt_miss {A} k k' (f : A → json) o rest :
  k' ≠ k → json_get k (JObj (opt_field k' f o ++ rest)) = json_get k (JObj rest).
Proof. intros. destruct o; cbn; [|done]. by rewrite bool_decide_eq_false_2. Qed.

Lemma get_one k v rest : json_get k (JObj ((k, v) :: rest)) = Some v.
Proof. cbn. by rewrite bool_decide_eq_true_2. Qed.

Lemma get_one_miss k k' v rest : k' ≠ k → json_get k (JObj ((k', v) :: rest)) = json_get k (JObj rest).
Proof. intros. cbn. by rewrite bool_decide_eq_false_2. Qed.

Lemma get_last {A} k (f : A → json) o : json_get k (JObj (opt_field k f o)) = f <$> o.
Proof. destruct o; cbn; [|done]. by rewrite bool_decide_eq_true_2. Qed.

Lemma get_last_miss {A} k k' (f : A → json) o : k' ≠ k → json_get k (JObj (opt_field k' f o)) = None.
Proof. intros. destruct o; cbn; [|done]. by rewrite bool_decide_eq_false_2. Qed.

Ltac get_field :=
  repeat first [rewrite get_opt | rewrite get_opt_miss by done | rewrite get_one | rewrite get_one_miss by done
               | rewrite get_last | rewrite get_last_miss by done].

Lemma criteria_direct s obj :
  json_get "successCriteria" obj = Some (JStr s) → trimmed s → resolveSuccessCriteria obj = s.
Proof. intros Hg Hs. unfold resolveSuccessCriteria. by rewrite Hg, nonEmptyString_trimmed. Qed.

Lemma criteria_none obj :
  json_get "successCriteria" obj = None → json_get "acceptanceSignals" obj = None →
  json_get "expectedArtifacts" obj = None → resolveSuccessCriteria obj = "".
Proof. unfold resolveSuccessCriteria. by intros -> -> ->. Qed.

Lemma or_undefined_trimmed s : trimmed s → or_undefined s = Some s.
Proof. intros [_ Hn]. unfold or_undefined. by rewrite bool_decide_eq_false_2. Qed.

Lemma opt_string_back o : trimmed_opt o → nonEmptyString (JStr <$> o) = o.
Proof. destruct o; [|done]. apply nonEmptyString_trimmed. Qed.

Lemma res_assert_true {A} b e (k : result string A) : b = true → res_bind (res_assert b e) (λ _, k) = k.
Proof. by intros ->. Qed.

Lemma one_of_here allowed v e s : nonEmptyString v = Some s → s ∈ allowed → one_of allowed v e = Ok s.
Proof. intros Hv Hs. unfold one_of. change (nonEmpty v) with (nonEmptyString v). rewrite Hv. cbn. by rewrite bool_decide_eq_true_2. Qed.

Lemma kind_trimmed k : k ∈ TASK_KINDS → trimmed k.
Proof.
  intros Hk. assert (forallb (λ k, bool_decide (trim k = k) && negb (bool_decide (k = ""))) TASK_KINDS = true)
    as Hall by reflexivity.
  rewrite forallb_forall in Hall. apply list_elem_of_In, Hall, andb_true_iff in Hk as [H1 H2].
  apply bool_decide_eq_true in H1. apply negb_true_iff, bool_decide_eq_false in H2. done.
Qed.

Lemma task_json_back m s t task : task_normal task → normalize_task m s t (task_json task) = Ok task.
Proof.
  destruct task as [? ? kind ? ? reason ? ? criteria ? ?].
  intros ((ti & Hti & Hti') & (de & Hde & Hde') & Hk & (ab & Hab & Hab') & (rs & Hrs & Hrs') & Hreason &
    (ds & Hds & Hds') & (rq & Hrq & Hrq') & Hcriteria & [par Hpar] & Hconf);
    cbn in Hti, Hde, Hk, Hab, Hrs, Hreason, Hds, Hrq, Hcriteria, Hpar, Hconf; subst.
  unfold normalize_task. cbv zeta. rewrite res_assert_true by done. unfold task_json.
  cbn -[opt_field json_get nonEmptyString stringList resolveSuccessCriteria or_undefined one_of place TASK_KINDS].
  get_field. rewrite (one_of_here _ _ _ kind); [|by apply nonEmptyString_trimmed, kind_trimmed|done].
  rewrite !nonEmptyString_trimmed by done. cbn -[opt_field json_get nonEmptyString stringList resolveSuccessCriteria or_undefined].
  rewrite !stringList_json by done. get_field. do 2 f_equal.
  - destruct reason; [by apply nonEmptyString_trimmed|]. by get_field.
  - destruct criteria as [c|].
    + rewrite (criteria_direct c); [by apply or_undefined_trimmed|by get_field|done].
    + rewrite criteria_none; [done|by get_field..].
Qed.

Lemma res_mapi_back {A} (f : nat → json → result string A) (enc : A → json) k l :
  (∀ i x, x ∈ l → f i (enc x) = Ok x) → res_mapi f k (map enc l) = Ok l.
Proof.
  revert k. induction l as [|x l IH]; intros k H; [done|]. cbn.
  rewrite H by (apply elem_of_cons; by left). cbn.
  by rewrite IH by (intros; apply H, elem_of_cons; by right).
Qed.

Lemma items_or_back {A} (enc : A → json) e l : l ≠ [] → items_or (Some (JArr (map enc l))) e = Ok (map enc l).
Proof. by destruct l. Qed.

Lemma Forall_elem {A} (P : A → Prop) l x : Forall P l → x ∈ l → P x.
Proof. rewrite List.Forall_forall. intros H Hx. by apply H, list_elem_of_In. Qed.

Lemma slice_json_back m s slice : slice_normal slice → normalize_slice m s (slice_json slice) = Ok slice.
Proof.
  destruct slice as [title description criteria ? ? tasks].
  intros (Hti & Hde & Hcr & (ds & Hds & Hds') & Hconf & Hne & Hts).
  cbn in Hti, Hde, Hcr, Hds, Hconf, Hne, Hts; subst.
  unfold normalize_slice. cbv zeta. rewrite res_assert_true by done. unfold slice_json.
  cbn -[opt_field json_get nonEmptyString stringList resolveSuccessCriteria or_undefined items_or map].
  get_field. rewrite items_or_back by done.
  cbn -[opt_field json_get nonEmptyString stringList resolveSuccessCriteria or_undefined map].
  rewrite res_mapi_back by (intros; by eapply task_json_back, Forall_elem). cbn -[opt_field json_get nonEmptyString stringList resolveSuccessCriteria or_undefined].
  rewrite (criteria_direct criteria) by (done || by get_field). rewrite or_undefined_trimmed by done.
  cbn -[opt_field json_get nonEmptyString stringList]. rewrite stringList_json by done. do 2 f_equal.
  - destruct title; [by apply nonEmptyString_trimmed|by get_field].
  - destruct description; [by apply nonEmptyString_trimmed|by get_field].
Qed.

Lemma milestone_json_back m milestone :
  milestone_normal milestone → normalize_milestone m (milestone_json milestone) = Ok milestone.
Proof.
  destruct milestone as [title description ? ? slices].
  intros (Hti & Hde & (cr & Hcr & Hcr') & Hconf & Hne & Hss).
  cbn in Hti, Hde, Hcr, Hconf, Hne, Hss; subst.
  unfold normalize_milestone. cbv zeta. rewrite res_assert_true by done. unfold milestone_json.
  cbn -[opt_field json_get nonEmptyString resolveSuccessCriteria or_undefined items_or map].
  get_field. rewrite items_or_back by done.
  cbn -[opt_field json_get nonEmptyString resolveSuccessCriteria or_undefined map].
  rewrite res_mapi_back by (intros; by eapply slice_json_back, Forall_elem).
  cbn -[opt_field json_get nonEmptyString resolveSuccessCriteria or_undefined].
  rewrite (criteria_direct cr) by (done || by get_field). rewrite or_undefined_trimmed by done.
  cbn -[opt_field json_get nonEmptyString]. do 2 f_equal.
  - destruct title; [by apply nonEmptyString_trimmed|by get_field].
  - destruct description; [by apply nonEmptyString_trimmed|by get_field].
Qed.

Lemma outline_json_back plan : outline_normal plan → normalizeRegisteredPlan (outline_json plan) = Ok plan.
Proof.
  intros [Hne Hms]. unfold normalizeRegisteredPlan. rewrite res_assert_true by done. unfold outline_json.
  get_field. rewrite items_or_back by done. cbn -[map].
  apply res_mapi_back. intros. by eapply milestone_json_back, Forall_elem.
Qed.

(** C33: Normalization of an outline establishes its shape: there are milestones, each has
    slices and each slice has tasks, texts are trimmed and not empty, kinds are known ones; and
    it is idempotent: an accepted outline, encoded as JSON and normalized again, is itself. *)
Theorem outline_normalization_idempotent (v : json) (plan : PlannerRegisteredPlan) :
  normalizeRegisteredPlan v = Ok plan →
  outline_normal plan ∧ normalizeRegisteredPlan (outline_json plan) = Ok plan.
Proof. intros H%normalized_outline. split; [done|]. by apply outline_json_back. Qed.
