(* ===== verification/PlannerSession.v ===== *)
(** * The planning session

    Models [src/server/planner/mcp/handler.ts] and [planner/mcp/session.ts], the
    tools by which the planning agent registers an outline, a context for each
    task, and asks for the plan to be finalized, together with what they write
    to the row of the job: [pushDesignPlanningProgress] and
    [commitDesignPlanReady] of [design-session/planner.ts],
    [updateDesignSessionRowFenced] of [design-session/service.ts], and the end of
    a planning turn.  The calls of one session run one after the other
    ([operationQueue]); the finalizer runs beside them and has one step per
    stretch between its awaits.  Logging is left out. *)
From stdpp Require Import pretty.
From Stdlib Require Import Ascii.
From S2P Require Import Prelude Json JsString Path Sql WorkspaceLease TaskAttempts SavedPlan Gate GateSpecs.
From S2P Require Import RepairTasks RepairSpecs Verdicts TurnErrors Blocker TaskRecovery WorkloadSlots JobRows.
From S2P Require Import QueueCoordinator StoredErrors Act Registries Host RunLifecycle JobReferences PlanOutline.
From S2P Require Import PlanOutlineSpecs.
Local Open Scope res_scope.
#[local] Arguments bool_decide : simpl never.

(** ** Conversions of JavaScript *)

Definition comma : string := ",".

(** [String(v)] of a parsed document; inside arrays [null] is the empty text. *)
Fixpoint js_String (v : json) : string :=
  match v with
  | JNull => "null"
  | JBool b => if b then "true" else "false"
  | JNum n => pretty n
  | JStr s => s
  | JArr items => join comma (map (λ x, match x with JNull => "" | _ => js_String x end) items)
  | JObj _ => "[object Object]"
  end.

(** Digits of a base: the number read so far, how many there were, the rest. *)
Definition digit_of (base : Z) (c : ascii) : option Z :=
  let n := Z.of_N (N_of_ascii (lowerChar c)) in
  let d := if bool_decide (48 ≤ n ≤ 57)%Z then Some (n - 48)%Z
           else if bool_decide (97 ≤ n ≤ 122)%Z then Some (n - 87)%Z else None in
  d ← d; if bool_decide (d < base)%Z then Some d else None.

Fixpoint read_digits (base acc : Z) (count : nat) (s : string) : Z * nat * string :=
  match s with
  | String c s' => match digit_of base c with
                   | Some d => read_digits base (acc * base + d) (S count) s'
                   | None => (acc, count, s)
                   end
  | EmptyString => (acc, count, s)
  end.

Definition whole (r : Z * nat * string) : option Z :=
  let '(n, count, rest) := r in
  if bool_decide (count = 0) || negb (bool_decide (rest = "")) then None else Some n.

Definition read_sign (s : string) : bool * string :=
  match s with
  | String "-" s' => (true, s')
  | String "+" s' => (false, s')
  | _ => (false, s)
  end.

Definition signed (neg : bool) (n : Z) : Z := if neg then (- n)%Z else n.

(** The integer value of [m * 10^e], if it is one and not infinite; literals are
    read exactly. *)
Definition scaled (m e : Z) : option Z :=
  if bool_decide (m = 0)%Z then Some 0%Z
  else if bool_decide (308 < e)%Z then None
  else if bool_decide (0 ≤ e)%Z then
    let v := (m * 10 ^ e)%Z in if bool_decide (v < 2 ^ 1024)%Z then Some v else None
  else let p := (10 ^ (- e))%Z in if bool_decide (m mod p = 0)%Z then Some (m / p)%Z else None.

Definition decimal_integer (s : string) : option Z :=
  let '(neg, s1) := read_sign s in
  let '(ip, ni, r1) := read_digits 10 0 0 s1 in
  let '(m, nf, r2) := match r1 with
                      | String "." r => read_digits 10 ip 0 r
                      | _ => (ip, 0, r1)
                      end in
  if bool_decide (ni + nf = 0) then None else
  match r2 with
  | EmptyString => signed neg <$> scaled m (- Z.of_nat nf)
  | String c r =>
      if bool_decide (lowerChar c = "e"%char) then
        let '(eneg, r3) := read_sign r in
        e ← whole (read_digits 10 0 0 r3);
        signed neg <$> scaled m (signed eneg e - Z.of_nat nf)
      else None
  end.

(** [Number(s)] when it is an integer. *)
Definition string_integer (text : string) : option Z :=
  let s := trim text in
  match s with
  | EmptyString => Some 0%Z
  | String "0" (String c r) =>
      if bool_decide (lowerChar c = "x"%char) then whole (read_digits 16 0 0 r)
      else if bool_decide (lowerChar c = "o"%char) then whole (read_digits 8 0 0 r)
      else if bool_decide (lowerChar c = "b"%char) then whole (read_digits 2 0 0 r)
      else decimal_integer s
  | _ => decimal_integer s
  end.

(** [Number(v)] when [Number.isInteger] holds of it; [None] is also [undefined]. *)
Definition js_integer (v : option json) : option Z :=
  match v with
  | None | Some (JObj _) => None
  | Some JNull => Some 0%Z
  | Some (JBool b) => Some (if b then 1 else 0)%Z
  | Some (JNum n) => Some n
  | Some (JStr s) => string_integer s
  | Some (JArr items) => string_integer (js_String (JArr items))
  end.

(** ** The row of the job *)

(** The columns that planning writes, with the plan and the progress that are
    kept in tables of their own. *)
Module PlanningContent.
Record t := mk {
  phase : string;
  planRevision : Z;
  plan : option SavedJobPlan.t;
  planProgress : PlanProgress.t;
  taskProgress : TaskProgress.t
}.
End PlanningContent.

Notation planning_row := (@job_row PlanningContent.t).
Notation planning_db := (@work_db PlanningContent.t).

(** [DesignSessionRowPatch]; an absent field is [None].  Execution profiles and
    artifacts are left out. *)
Module DesignPatch.
Record t := mk {
  status : option string;
  phase : option string;
  planRevision : option Z;
  plan : option (option SavedJobPlan.t);
  planProgress : option PlanProgress.t;
  taskProgress : option TaskProgress.t;
  lastError : option (option TurnErrorDto.t)
}.

Definition progress (p : option SavedJobPlan.t) (pp : PlanProgress.t) : t :=
  mk None None None (Some p) (Some pp) None None.
End DesignPatch.

Definition patch_design_row (now : Z) (p : DesignPatch.t) (j : planning_row) : planning_row :=
  let c := jb_content j in
  mkJobRow (jb_id j) (jb_username j) (default (jb_status j) (DesignPatch.status p)) (jb_planConfirmedAt j)
    (jb_createdAt j) (jb_activeRunId j) (jb_leaseOwner j) (jb_leaseExpiresAt j)
    (match DesignPatch.lastError p with
     | Some e => serializeStoredTurnError <$> e
     | None => jb_lastError j
     end)
    (jb_suspensionKind j) (jb_continueAfterPause j) (jb_recoveryReason j) now
    (PlanningContent.mk (default (PlanningContent.phase c) (DesignPatch.phase p))
       (default (PlanningContent.planRevision c) (DesignPatch.planRevision p))
       (default (PlanningContent.plan c) (DesignPatch.plan p))
       (default (PlanningContent.planProgress c) (DesignPatch.planProgress p))
       (default (PlanningContent.taskProgress c) (DesignPatch.taskProgress p))).

Definition updateDesignSessionRow (now : Z) (id : string) (p : DesignPatch.t) (s : planning_db) :
    option planning_row * planning_db :=
  let s' := set_jobs (update_where (by_id id) (patch_design_row now p) (jobs s)) s in
  (find_job s' id, s').

(** The patch under the fence of a run; a [fault] is an exception inside the
    transaction, which undoes it. *)
Definition updateDesignSessionRowFenced (now : Z) (id runId : string) (fault : option string)
    (p : DesignPatch.t) (s : planning_db) : result string (option planning_row) * planning_db :=
  if negb (existsb (jobRowFence id runId) (jobs s)) then (Ok None, s)
  else match fault with
       | Some e => (Err e, s)
       | None =>
           let s' := set_jobs (update_where (jobRowFence id runId) (patch_design_row now p) (jobs s)) s in
           (Ok (find_job s' id), s')
       end.

(** ** The session *)

Module Finalizer.
(** [finalizerPromise]: absent, waiting for [assertRunWritable], inside
    [invokePlanCommit], or settled. *)
Inductive t := not_started | checking | committing | settled.
#[global] Instance eq_dec : EqDecision t.
Proof. solve_decision. Defined.
End Finalizer.

(** What a session is created with. *)
Record session_config := mkConfig {
  sc_ownerId : string;
  sc_runId : string;
  sc_allowedAbilityCodes : list string;
  sc_validReferenceIds : list string;
  sc_manifest : option JobReferenceManifest.t;
  sc_planRevision : option Z;
  sc_clearConfirmed : bool;
  sc_phaseAdvance : bool
}.

Module Session.
Record t := mk {
  taskContexts : gmap string TaskContext.t;
  planOutline : option PlannerRegisteredPlan;
  planCommitting : bool;
  planCommitted : bool;
  finalizer : Finalizer.t;
  finalizerError : option string
}.

Definition fresh : t := mk ∅ None false false Finalizer.not_started None.
Definition set_contexts (c : gmap string TaskContext.t) (x : t) : t :=
  mk c (planOutline x) (planCommitting x) (planCommitted x) (finalizer x) (finalizerError x).
Definition set_outline (o : option PlannerRegisteredPlan) (x : t) : t :=
  mk (taskContexts x) o (planCommitting x) (planCommitted x) (finalizer x) (finalizerError x).
Definition set_finalizer (f : Finalizer.t) (x : t) : t :=
  mk (taskContexts x) (planOutline x) (planCommitting x) (planCommitted x) f (finalizerError x).
Definition set_committing (b : bool) (x : t) : t :=
  mk (taskContexts x) (planOutline x) b (planCommitted x) (finalizer x) (finalizerError x).
Definition set_committed (x : t) : t :=
  mk (taskContexts x) (planOutline x) (planCommitting x) true (finalizer x) (finalizerError x).
Definition set_error (e : string) (x : t) : t :=
  mk (taskContexts x) (planOutline x) (planCommitting x) (planCommitted x) (finalizer x) (Some e).
End Session.

(** The session with the database, and whether the turn was aborted. *)
Record planner := mkPlanner { pl_session : Session.t; pl_db : planning_db; pl_aborted : bool }.

Definition with_session (f : Session.t → Session.t) (p : planner) : planner :=
  mkPlanner (f (pl_session p)) (pl_db p) (pl_aborted p).
Definition with_db (s : planning_db) (p : planner) : planner := mkPlanner (pl_session p) s (pl_aborted p).

Section tools.
Context (cfg : session_config).

Definition STALE : string := "Plan session closed or stale run".

Definition requirePlanMutable (x : Session.t) : result string unit :=
  res_assert (bool_decide (Session.finalizer x = Finalizer.not_started) && negb (Session.planCommitting x) &&
              negb (Session.planCommitted x))
    "plan finalization has started; the locked plan can no longer be modified".

(** ** The arguments of a context *)

Definition taskCoordinates (args : json) : result string (Z * Z * Z) :=
  let message := "milestone, slice, task must be integers ≥ 1" in
  let? m := res_some (js_integer (json_get "milestone" args)) message in
  let? s := res_some (js_integer (json_get "slice" args)) message in
  let? t := res_some (js_integer (json_get "task" args)) message in
  let? u := res_assert (negb (bool_decide (m < 1)%Z || bool_decide (s < 1)%Z || bool_decide (t < 1)%Z)) message in
  Ok (m, s, t).

Definition outlineTask (x : Session.t) (c : Z * Z * Z) : result string PlannerRegisteredTask.t :=
  let '(m, s, t) := c in
  let? outline := res_some (Session.planOutline x)
    "plan outline is not registered; call register_plan_outline before registering task contexts" in
  res_some (ms ← js_index outline (m - 1);
            sl ← js_index (PlannerRegisteredMilestone.slices ms) (s - 1);
            js_index (PlannerRegisteredSlice.tasks sl) (t - 1))
    ("task " +:+ task_id m s t +:+ " does not exist in the locked plan outline").

Definition text_arg (key : string) (args : json) : string :=
  match json_get key args with Some (JStr s) => trim s | _ => "" end.

Definition taskContextArgs (x : Session.t) (args : json) : result string (string * TaskContext.t) :=
  let? c := taskCoordinates args in
  let? expected := outlineTask x c in
  let key := task_id c.1.1 c.1.2 c.2 in
  let taskTitle := text_arg "taskTitle" args in
  let content := text_arg "content" args in
  let? a := res_assert (negb (bool_decide (taskTitle = "") || bool_decide (content = "")))
    "taskTitle and content are required" in
  let? b := res_assert (bool_decide (Some taskTitle = (trim <$> PlannerRegisteredTask.title expected)))
    ("taskTitle mismatch for " +:+ key +:+ "; expected " +:+ title_text expected +:+ ", received " +:+ quoted taskTitle) in
  Ok (key, TaskContext.mk taskTitle content).

(** ** What the session writes *)

Definition zcount (n : nat) : option Z := Some (Z.of_nat n).

Definition count_params (l : list (string * nat)) : option TurnErrorParams :=
  Some (map (λ kv, (kv.1, JNum (Z.of_nat kv.2))) l).

Definition planning_progress (done : nat) (counts : plan_counts) : PlanProgress.t :=
  PlanProgress.mk "planning" "running" (Z.of_nat done) (Z.of_nat (n_tasks counts))
    (zcount (n_milestones counts)) (zcount (n_slices counts)) (zcount (n_tasks counts)) None
    (Some (if bool_decide (done = 0) then "plan.outline_ready" else "plan.planning_partial"))
    (count_params [("done", done); ("total", n_tasks counts)]).

Definition pushDesignPlanningProgress (now : Z) (fault : option string) (done : nat) (partial : SavedJobPlan.t)
    (outline : PlannerRegisteredPlan) (s : planning_db) : result string unit * planning_db :=
  let '(r, s') := updateDesignSessionRowFenced now (sc_ownerId cfg) (sc_runId cfg) fault
    (DesignPatch.progress (Some partial) (planning_progress done (countPlanUnits outline))) s in
  (let? job := r in res_assert (bool_decide (is_Some job)) STALE, s').

(** The callbacks [onPlanOutlineRegistered] and [onTaskContextRegistered]. *)
Definition push_registered (now : Z) (fault : option string) (done : nat) (p : planner) :
    result string unit * planning_db :=
  let x := pl_session p in
  match Session.planOutline x with
  | Some outline =>
      pushDesignPlanningProgress now fault done (flattenRegisteredPlan outline (Session.taskContexts x))
        outline (pl_db p)
  | None => (Err "Cannot read properties of null (reading 'milestones')", pl_db p)
  end.

(** Changes the session, reports it, and takes the change back when the report
    fails. *)
Definition change_and_push (now : Z) (fault : option string) (done : nat) (change undo : Session.t → Session.t)
    (text : string) (p : planner) : result string string * planner :=
  let p1 := with_session change p in
  let '(r, s') := push_registered now fault done p1 in
  match r with
  | Ok _ => (Ok text, with_db s' p1)
  | Err e => (Err e, with_db s' (with_session undo p1))
  end.

(** ** The tools *)

Definition registerTaskContext (now : Z) (fault : option string) (args : json) (p : planner) :
    result string string * planner :=
  let x := pl_session p in
  match (let? u := requirePlanMutable x in taskContextArgs x args) with
  | Err e => (Err e, p)
  | Ok (key, context) =>
      match Session.taskContexts x !! key with
      | Some existing =>
          if bool_decide (existing = context) then
            (Ok ("Task context " +:+ key +:+ " was already registered with identical content"), p)
          else
            (Err ("task context " +:+ key +:+ " is already registered; use update_task_context to revise it"), p)
      | None =>
          let contexts := <[key := context]> (Session.taskContexts x) in
          change_and_push now fault (size contexts) (Session.set_contexts contexts)
            (Session.set_contexts (delete key contexts))
            ("Registered " +:+ key +:+ " (" +:+ pretty (String.length (TaskContext.content context)) +:+
             " chars); " +:+ pretty (size contexts) +:+ " task context(s) complete") p
      end
  end.

Definition updateTaskContext (now : Z) (fault : option string) (args : json) (p : planner) :
    result string string * planner :=
  let x := pl_session p in
  match (let? u := requirePlanMutable x in taskContextArgs x args) with
  | Err e => (Err e, p)
  | Ok (key, context) =>
      match Session.taskContexts x !! key with
      | None =>
          (Err ("Task context " +:+ key +:+ " is not registered yet; call register_task_context first"), p)
      | Some existing =>
          if bool_decide (existing = context) then
            (Ok ("Task context " +:+ key +:+ " already has identical content"), p)
          else
            let contexts := <[key := context]> (Session.taskContexts x) in
            change_and_push now fault (size contexts) (Session.set_contexts contexts)
              (Session.set_contexts (<[key := existing]> contexts))
              ("Updated " +:+ key +:+ " (" +:+ pretty (String.length (TaskContext.content context)) +:+ " chars)") p
      end
  end.

Definition counts_text (counts : plan_counts) : string :=
  "(" +:+ pretty (n_milestones counts) +:+ " milestones, " +:+ pretty (n_slices counts) +:+ " slices, " +:+
  pretty (n_tasks counts) +:+ " tasks)".

(** Everything [register_plan_outline] asks of an outline. *)
Definition accept_outline (args : json) : result string PlannerRegisteredPlan :=
  let? plan := normalizeRegisteredPlan args in
  let? a := validatePlanShape plan in
  let? b := validatePlanOutlineCompleteness plan in
  let? c := validateRegisteredPlanDependencyGraph plan in
  let? d := validatePlanAbilityCodes plan (sc_allowedAbilityCodes cfg) in
  let? e := validatePlanReferenceIds plan (sc_validReferenceIds cfg) (sc_manifest cfg) in
  Ok plan.

Definition registerPlanOutline (now : Z) (fault : option string) (args : json) (p : planner) :
    result string string * planner :=
  let x := pl_session p in
  match (let? u := requirePlanMutable x in accept_outline args) with
  | Err e => (Err e, p)
  | Ok plan =>
      let counts := countPlanUnits plan in
      match Session.planOutline x with
      | Some locked =>
          if bool_decide (stringify (outline_json locked) = stringify (outline_json plan)) then
            (Ok ("Plan outline was already registered with identical content (" +:+ pretty (n_tasks counts) +:+ " tasks)"), p)
          else (Err "plan outline is already locked and cannot be replaced during this planning run", p)
      | None =>
          change_and_push now fault 0 (Session.set_outline (Some plan)) (Session.set_outline None)
            ("Plan outline locked " +:+ counts_text counts +:+ ". Fill every task context, then call finalize_plan.") p
      end
  end.

(** [Object.keys(args).length] *)
Definition has_keys (args : json) : bool :=
  match args with
  | JObj fields => negb (bool_decide (length fields = 0))
  | JArr items => negb (bool_decide (length items = 0))
  | _ => false
  end.

Definition requestPlanFinalization (args : json) (p : planner) : result string string * planner :=
  let x := pl_session p in
  if has_keys args then (Err "finalize_plan does not accept arguments", p) else
  match Session.planOutline x with
  | None => (Err "plan outline is not registered; call register_plan_outline first", p)
  | Some outline =>
      let missing := listMissingTaskContexts outline (Session.taskContexts x) in
      if bool_decide (0 < length missing) then
        (Err ("cannot finalize plan; missing task context for " +:+ pretty (length missing) +:+ " task(s): " +:+
              join ", " missing), p)
      else
        (Ok ("Plan accepted for finalization " +:+ counts_text (countPlanUnits outline)),
         if bool_decide (Session.finalizer x = Finalizer.not_started)
         then with_session (Session.set_finalizer Finalizer.checking) p else p)
  end.

Definition dispatchPlannerToolNow (now : Z) (fault : option string) (toolName : string) (argumentsValue : json)
    (p : planner) : result string string * planner :=
  let args := if is_object argumentsValue then argumentsValue else JObj [] in
  if bool_decide (toolName = "register_plan_outline") then registerPlanOutline now fault args p
  else if bool_decide (toolName = "register_task_context") then registerTaskContext now fault args p
  else if bool_decide (toolName = "update_task_context") then updateTaskContext now fault args p
  else if bool_decide (toolName = "finalize_plan") then requestPlanFinalization args p
  else (Err ("Unknown tool: " +:+ quoted toolName), p).

Definition run_writable (p : planner) : bool := assertRunWritable (sc_ownerId cfg) (sc_runId cfg) (pl_db p).

Definition dispatchWritablePlannerTool (now : Z) (fault : option string) (toolName : string) (args : json)
    (p : planner) : result string string * planner :=
  if run_writable p then dispatchPlannerToolNow now fault toolName args p else (Err STALE, p).

(** ** The finalizer *)

(** [clearPlanConfirmedFlags] *)
Definition clearPlanConfirmedFlags (plan : SavedJobPlan.t) : SavedJobPlan.t :=
  SavedJobPlan.mk
    (map (λ m, PlannerRegisteredMilestone.set_confirmed None
       (PlannerRegisteredMilestone.set_slices
          (map (λ s, PlannerRegisteredSlice.set_confirmed None
             (PlannerRegisteredSlice.set_tasks
                (map (PlannerRegisteredTask.set_confirmed None) (PlannerRegisteredSlice.tasks s)) s))
             (PlannerRegisteredMilestone.slices m)) m)) (SavedJobPlan.milestones plan))
    (map (FlatTaskPlan.set_confirmed None) (SavedJobPlan.tasks plan)).

Definition planned_item (task : FlatTaskPlan.t) : TaskProgressItem.t :=
  TaskProgressItem.mk (FlatTaskPlan.id task) (FlatTaskPlan.title task) "queued"
    (Some (FlatTaskPlan.abilityCode task)) (Some "queued") None None None None None.

Definition defaultTaskProgress (tasks : list FlatTaskPlan.t) : TaskProgress.t :=
  TaskProgress.mk "idle" "pending" 0 (length tasks) None None None (map planned_item tasks) [] [] ∅ ∅ ∅.

Definition plan_ready_progress (counts : plan_counts) : PlanProgress.t :=
  let tasks := Z.of_nat (n_tasks counts) in
  PlanProgress.mk "plan_ready" "completed" tasks tasks (zcount (n_milestones counts)) (zcount (n_slices counts))
    (Some tasks) None (Some "plan.plan_ready") (count_params [("tasks", n_tasks counts)]).

(** [advance] is how [advanceWizardPhase] ends for a session that advances the
    wizard; it runs after the row was written. *)
Definition commitDesignPlanReady (now : Z) (fault : option string) (advance : result string unit)
    (savedPlan : SavedJobPlan.t) (counts : plan_counts) (s : planning_db) : result string bool * planning_db :=
  let planToSave := if sc_clearConfirmed cfg then clearPlanConfirmedFlags savedPlan else savedPlan in
  let '(r, s') := updateDesignSessionRowFenced now (sc_ownerId cfg) (sc_runId cfg) fault
    (DesignPatch.mk (Some "plan_editing") (Some "plan_edit") (Some (default 1%Z (sc_planRevision cfg)))
       (Some (Some planToSave)) (Some (plan_ready_progress counts))
       (Some (defaultTaskProgress (SavedJobPlan.tasks savedPlan))) (Some None)) s in
  (let? updated := r in
   match updated with
   | None => Ok false
   | Some _ => if sc_phaseAdvance cfg then let? u := advance in Ok true else Ok true
   end, s').

(** [finalizePlan] up to [invokePlanCommit]. *)
Definition finalize_check (p : planner) : planner :=
  if negb (run_writable p) then with_session (Session.set_finalizer Finalizer.settled) p
  else if Session.planCommitted (pl_session p) || Session.planCommitting (pl_session p) then
    with_session (Session.set_finalizer Finalizer.settled) p
  else with_session (λ x, Session.set_committing true (Session.set_finalizer Finalizer.committing x)) p.

(** The rest: the commit, and what follows it. *)
Definition finalize_commit (now : Z) (fault : option string) (advance : result string unit) (p : planner) : planner :=
  let x := pl_session p in
  let done := with_session (Session.set_finalizer Finalizer.settled) in
  match Session.planOutline x with
  | None => done p
  | Some outline =>
      let '(r, s') := commitDesignPlanReady now fault advance
        (flattenRegisteredPlan outline (Session.taskContexts x)) (countPlanUnits outline) (pl_db p) in
      match r with
      | Ok true => done (with_session Session.set_committed (mkPlanner x s' true))
      | Ok false => done (with_db s' p)
      | Err e => done (with_session (λ y, Session.set_committing false (Session.set_error e y)) (with_db s' p))
      end
  end.

(** ** The end of a planning turn *)

(** Where an error comes from, as far as [planFailureFromSandboxError] asks. *)
Inductive error_source := AuthError | SandboxFailure (code : string) | OtherError.

Definition failed_progress (phase code : string) : PlanProgress.t :=
  PlanProgress.mk phase "failed" 0 0 None None None None (Some code) None.

(** [createTurnError(code, { detail })] *)
Definition error_of (code : string) (detail : option string) : TurnErrorDto.t :=
  turnErrorDto code None detail None.

Definition planFailureFromSandboxError (source : error_source) (fallback : TurnErrorDto.t) :
    PlanProgress.t * TurnErrorDto.t :=
  let detail := TurnErrorDto.detail fallback in
  let auth := (failed_progress "needs_auth" "plan.needs_auth", error_of "provider.auth.missing" detail) in
  let other := (failed_progress "failed" "plan.planning_failed", fallback) in
  match source with
  | AuthError => auth
  | OtherError => other
  | SandboxFailure code =>
      if bool_decide (code = "provider.auth.missing") then auth
      else if bool_decide (code ∈ ["sandbox.supervisor.cleanup_failed"; "sandbox.supervisor.crashed"]) then
        (failed_progress "cleanup_failed" "plan.cleanup_failed", error_of "plan.sandbox_cleanup_failed" detail)
      else if bool_decide (code = "sandbox.turn.timed_out") then
        (failed_progress "failed" "plan.planning_failed", error_of "plan.sandbox_timeout" detail)
      else if bool_decide (code = "sandbox.turn.cancelled") then
        (failed_progress "failed" "plan.planning_failed", error_of "plan.cancelled" None)
      else other
  end.

Definition paused_progress : PlanProgress.t :=
  PlanProgress.mk "idle" "pending" 0 0 None None None None (Some "plan.pending") None.

Definition commitPlanningSoftPause (now : Z) (p : planner) : planner :=
  with_db (updateDesignSessionRow now (sc_ownerId cfg)
    (DesignPatch.mk None None None None (Some paused_progress) None (Some (Some (error_of "job.paused" None))))
    (pl_db p)).2 p.

(** The [catch] of [runDesignPlanner]. *)
Definition planning_failed (now : Z) (stop : bool) (source : error_source) (error : TurnErrorDto.t) (p : planner) :
    PlanningRunOutcome.t * planner :=
  if Session.planCommitted (pl_session p) then (PlanningRunOutcome.success, p)
  else if stop then (PlanningRunOutcome.user_stopped, commitPlanningSoftPause now p)
  else if bool_decide ((jb_status <$> find_job (pl_db p) (sc_ownerId cfg)) = Some "cancelled") then
    (PlanningRunOutcome.user_stopped, p)
  else
    let '(progress, lastError) := planFailureFromSandboxError source error in
    let '(r, s') := updateDesignSessionRowFenced now (sc_ownerId cfg) (sc_runId cfg) None
      (DesignPatch.mk (Some "failed") None None None (Some progress) None (Some (Some lastError))) (pl_db p) in
    (PlanningRunOutcome.failure, with_db s' p).

(** What follows the stream of the turn, the finalizer being settled or never
    started; [stop] is [shouldStopPlanning]. *)
Definition planning_turn_done (now : Z) (stop : bool) (p : planner) : PlanningRunOutcome.t * planner :=
  let x := pl_session p in
  if stop then (PlanningRunOutcome.user_stopped, commitPlanningSoftPause now p)
  else if Session.planCommitted x then (PlanningRunOutcome.success, p)
  else match Session.finalizerError x with
       | Some e => planning_failed now stop OtherError (normalizeTurnErrorFromMessage e) p
       | None => planning_failed now stop OtherError
                   (error_of "draft.plan_not_ready"
                      (Some "Planner did not finalize the structured plan via finalize_plan")) p
       end.

(** ** Interleavings *)

(** A step of the session itself: a tool call, or the next stretch of the
    finalizer. *)
Inductive session_step (p : planner) : planner → Prop :=
| step_tool now fault name args :
    session_step p (dispatchWritablePlannerTool now fault name args p).2
| step_check :
    Session.finalizer (pl_session p) = Finalizer.checking → session_step p (finalize_check p)
| step_commit now fault advance :
    Session.finalizer (pl_session p) = Finalizer.committing →
    session_step p (finalize_commit now fault advance p).

(** Other code may change the database between the steps of the session. *)
Inductive planner_step (p : planner) : planner → Prop :=
| step_session p' : session_step p p' → planner_step p p'
| step_others s : planner_step p (with_db s p).

Definition planner_start (s : planning_db) : planner := mkPlanner Session.fresh s false.

Definition planner_reachable (p : planner) : Prop := ∃ s, rtc planner_step (planner_start s) p.
End tools.

(** ** What a planning session guarantees

    Whatever the agent calls, in any order, whatever fails and whatever other
    code does to the database in between: the outline of a session is one that
    was accepted and is never replaced, contexts belong to its tasks, the plan is
    finalized once, complete, and every write of the session is fenced by its
    run. *)

Section specs.
Context (cfg : session_config).

(** ** The invariant *)

Definition context_fits (plan : PlannerRegisteredPlan) (key : string) (context : TaskContext.t) : Prop :=
  ∃ m s t sl task, task_in plan m s t sl task ∧ key = place m s t ∧
    PlannerRegisteredTask.title task = Some (TaskContext.taskTitle context) ∧ trimmed (TaskContext.content context).

Definition complete (plan : PlannerRegisteredPlan) (contexts : gmap string TaskContext.t) : Prop :=
  ∀ m s t sl task, task_in plan m s t sl task → is_Some (contexts !! place m s t).

Definition finalizing (x : Session.t) : Prop := Session.finalizer x ≠ Finalizer.not_started.

Record session_inv (x : Session.t) : Prop := {
  inv_outline : ∀ plan, Session.planOutline x = Some plan → ∃ args, accept_outline cfg args = Ok plan;
  inv_contexts : ∀ key context, Session.taskContexts x !! key = Some context →
    ∃ plan, Session.planOutline x = Some plan ∧ context_fits plan key context;
  inv_complete : finalizing x → ∃ plan, Session.planOutline x = Some plan ∧ complete plan (Session.taskContexts x);
  inv_committing : Session.finalizer x = Finalizer.committing → Session.planCommitting x = true;
  inv_before : Session.finalizer x = Finalizer.not_started ∨ Session.finalizer x = Finalizer.checking →
    Session.planCommitting x = false ∧ Session.planCommitted x = false;
  inv_uncommitted : Session.finalizer x = Finalizer.committing → Session.planCommitted x = false
}.

Lemma missing_none plan contexts : listMissingTaskContexts plan contexts = [] ↔ complete plan contexts.
Proof.
  unfold listMissingTaskContexts, complete. split.
  - intros H m s t sl task Hin. destruct (contexts !! place m s t) eqn:E; [done|]. exfalso.
    assert (place m s t ∈ @nil string) as Hx; [|by apply not_elem_of_nil in Hx].
    rewrite <-H. apply list_elem_of_In, filter_In. split.
    + apply list_elem_of_In, elem_each_task. by exists m, s, t, sl, task.
    + by rewrite E, bool_decide_eq_false_2 by (by intros []).
  - intros H. destruct (List.filter _ _) as [|k l] eqn:E; [done|]. exfalso.
    assert (k ∈ k :: l) as Hk by (apply elem_of_cons; by left). rewrite <-E in Hk.
    apply list_elem_of_In, filter_In in Hk as [Hk%list_elem_of_In Hn].
    apply elem_each_task in Hk as (m & s & t & sl & task & Hin & ->).
    rewrite bool_decide_eq_true_2 in Hn by eauto. done.
Qed.

(** ** Tools *)

Lemma js_index_some {A} (l : list A) (i : Z) x : js_index l (i - 1) = Some x → ∃ n, i = (Z.of_nat n + 1)%Z ∧ l !! n = Some x.
Proof. unfold js_index. case_bool_decide; [done|]. intros H1. exists (Z.to_nat (i - 1)). split; [lia|done]. Qed.

Lemma outlineTask_in x c task plan :
  outlineTask x c = Ok task → Session.planOutline x = Some plan →
  ∃ m s t sl, task_in plan m s t sl task ∧ task_id c.1.1 c.1.2 c.2 = place m s t.
Proof.
  destruct c as [[m s] t]. unfold outlineTask. intros (o & Ho%res_some_ok & H%res_some_ok)%res_bind_ok Hp.
  rewrite Hp in Ho. injection Ho as <-.
  apply bind_Some in H as (ms & (m' & -> & Hm)%js_index_some & H).
  apply bind_Some in H as (sl & (s' & -> & Hs)%js_index_some & (t' & -> & Ht)%js_index_some).
  exists m', s', t', sl. split; [|done]. split; [by exists ms|done].
Qed.

Lemma text_arg_trimmed key args : text_arg key args ≠ "" → trimmed (text_arg key args).
Proof.
  unfold text_arg. destruct (json_get key args) as [[]|]; try done. intros H. split; [apply trim_idem|done].
Qed.

Lemma accepted_normal args plan : accept_outline cfg args = Ok plan → outline_normal plan.
Proof. intros (p & Hn & H)%res_bind_ok. by repeat apply res_bind_ok in H as (? & _ & H); injection H as <-; apply normalized_outline in Hn. Qed.

Lemma accepted_backwards args plan : accept_outline cfg args = Ok plan → validateRegisteredPlanDependencyGraph plan = Ok tt.
Proof.
  intros (p & _ & H)%res_bind_ok. apply res_bind_ok in H as (? & _ & H). apply res_bind_ok in H as (? & _ & H).
  apply res_bind_ok in H as ([] & Hd & H). by repeat apply res_bind_ok in H as (? & _ & H); injection H as <-.
Qed.

Lemma normal_task plan m s t sl task : outline_normal plan → task_in plan m s t sl task → task_normal task.
Proof.
  intros [_ Hms] [(ms & Hm & Hs) Ht].
  assert (milestone_normal ms) as (_ & _ & _ & _ & _ & Hss) by (eapply Forall_elem; [done|]; apply list_elem_of_lookup; eauto).
  assert (slice_normal sl) as (_ & _ & _ & _ & _ & _ & Hts) by (eapply Forall_elem; [done|]; apply list_elem_of_lookup; eauto).
  eapply Forall_elem; [done|]. apply list_elem_of_lookup. eauto.
Qed.

Lemma contextArgs_fits x args key context : session_inv x → taskContextArgs x args = Ok (key, context) →
  ∃ plan, Session.planOutline x = Some plan ∧ context_fits plan key context.
Proof.
  intros Hinv (c & _ & H)%res_bind_ok. apply res_bind_ok in H as (task & Htask & H).
  apply res_bind_ok in H as ([] & Ha%res_assert_ok & H). apply res_bind_ok in H as ([] & Hb%res_assert_ok & H).
  injection H as <- <-. apply bool_decide_eq_true in Hb. apply negb_true_iff, orb_false_iff in Ha as [Ha1 Ha2].
  apply bool_decide_eq_false in Ha1, Ha2. pose proof Htask as Hout. destruct c as [[m0 s0] t0].
  unfold outlineTask in Hout. apply res_bind_ok in Hout as (plan & Hplan%res_some_ok & _).
  exists plan. split; [done|]. destruct (outlineTask_in _ _ _ _ Htask Hplan) as (m & s & t & sl & Hin & Hid).
  exists m, s, t, sl, task. split; [done|]. split; [exact Hid|]. split; [|by apply text_arg_trimmed].
  destruct (inv_outline _ Hinv _ Hplan) as [a Hacc].
  destruct (normal_task _ _ _ _ _ _ (accepted_normal _ _ Hacc) Hin) as ((ti & Hti & Htrim & _) & _).
  rewrite Hti in Hb |- *. cbn in *. congruence.
Qed.
(** ** Writes *)

Definition fence : planning_row → bool := jobRowFence (sc_ownerId cfg) (sc_runId cfg).

Definition commit_patch (plan : PlannerRegisteredPlan) (contexts : gmap string TaskContext.t) : DesignPatch.t :=
  let saved := flattenRegisteredPlan plan contexts in
  DesignPatch.mk (Some "plan_editing") (Some "plan_edit") (Some (default 1%Z (sc_planRevision cfg)))
    (Some (Some (if sc_clearConfirmed cfg then clearPlanConfirmedFlags saved else saved)))
    (Some (plan_ready_progress (countPlanUnits plan)))
    (Some (defaultTaskProgress (SavedJobPlan.tasks saved))) (Some None).

(** Progress is reported with what is registered; a commit saves the whole
    plan, and only when it is complete. *)
Definition good_patch (x' : Session.t) (patch : DesignPatch.t) : Prop :=
  ∃ plan, Session.planOutline x' = Some plan ∧
    ((∃ done, patch = DesignPatch.progress (Some (flattenRegisteredPlan plan (Session.taskContexts x')))
                        (planning_progress done (countPlanUnits plan))) ∨
     (complete plan (Session.taskContexts x') ∧ patch = commit_patch plan (Session.taskContexts x'))).

Definition fenced_write (p p' : planner) : Prop :=
  jobs (pl_db p') = jobs (pl_db p) ∨
  ∃ now patch, jobs (pl_db p') = update_where fence (patch_design_row now patch) (jobs (pl_db p)) ∧
    good_patch (pl_session p') patch.

Lemma fenced_found now patch s : existsb fence (jobs s) = true →
  is_Some (find_job (set_jobs (update_where fence (patch_design_row now patch) (jobs s)) s) (sc_ownerId cfg)).
Proof.
  unfold find_job, update_where. cbn. induction (jobs s) as [|j l IH]; cbn; [done|].
  destruct (fence j) eqn:Hf; cbn.
  - intros _. unfold fence, jobRowFence in Hf. apply andb_true_iff in Hf as [Hid _].
    change (is_Some (if by_id (sc_ownerId cfg) j then Some (patch_design_row now patch j) else
      List.find (by_id (sc_ownerId cfg)) (map (λ r, if fence r then patch_design_row now patch r else r) l))).
    by rewrite Hid.
  - destruct (by_id _ j); [done|]. exact IH.
Qed.

(** A fenced update changes the row and says so, or changes nothing. *)
Lemma fenced_update_spec now fault patch s :
  match updateDesignSessionRowFenced now (sc_ownerId cfg) (sc_runId cfg) fault patch s with
  | (Ok (Some _), s') => s' = set_jobs (update_where fence (patch_design_row now patch) (jobs s)) s
  | (_, s') => s' = s
  end.
Proof.
  unfold updateDesignSessionRowFenced. change (jobRowFence _ _) with fence.
  destruct (existsb fence (jobs s)) eqn:E; cbn [negb]; [|done]. destruct fault; [done|].
  cbv zeta. by destruct (fenced_found now patch s E) as [? ->].
Qed.

(** Reporting a change keeps it and writes the progress, or takes it back and
    writes nothing. *)
Lemma change_and_push_spec now fault done change undo text p r p' :
  change_and_push cfg now fault done change undo text p = (r, p') →
  (pl_session p' = undo (change (pl_session p)) ∧ jobs (pl_db p') = jobs (pl_db p)) ∨
  (pl_session p' = change (pl_session p) ∧ fenced_write p p').
Proof.
  unfold change_and_push, push_registered. cbn [with_session pl_session pl_db].
  destruct (Session.planOutline _) as [plan|] eqn:Hp; [|intros [= <- <-]; by left].
  unfold pushDesignPlanningProgress.
  pose proof (fenced_update_spec now fault (DesignPatch.progress (Some (flattenRegisteredPlan plan
    (Session.taskContexts (change (pl_session p))))) (planning_progress done (countPlanUnits plan))) (pl_db p)) as H.
  destruct (updateDesignSessionRowFenced _ _ _ _ _ _) as [[[job|]|e] s']; cbn; subst s'.
  - unfold res_assert. rewrite bool_decide_eq_true_2 by eauto. intros [= <- <-]. right. split; [done|].
    right. do 2 eexists. split; [reflexivity|]. exists plan. cbn. split; [done|]. left. by eexists.
  - unfold res_assert. rewrite bool_decide_eq_false_2 by (by intros []). intros [= <- <-]. by left.
  - intros [= <- <-]. by left.
Qed.

(** ** Monotonicity *)

Definition stage (x : Session.t) : nat :=
  match Session.finalizer x with
  | Finalizer.not_started => 0 | Finalizer.checking => 1 | Finalizer.committing => 2 | Finalizer.settled => 3
  end.

Record grows (x x' : Session.t) : Prop := {
  grows_outline : ∀ plan, Session.planOutline x = Some plan → Session.planOutline x' = Some plan;
  grows_contexts : finalizing x → Session.taskContexts x' = Session.taskContexts x;
  grows_stage : stage x ≤ stage x';
  grows_committed : Session.planCommitted x = true → Session.planCommitted x' = true
}.

#[local] Instance grows_preorder : PreOrder grows.
Proof.
  split; [by split|]. intros x y z [A1 A2 A3 A4] [B1 B2 B3 B4]. split; auto; [|lia].
  intros Hf. rewrite B2, A2; try done. unfold finalizing, stage in *. intros Hy.
  rewrite Hy in A3. destruct (Session.finalizer x); [done|lia..].
Qed.

(** What one step of the session does. *)
Definition step_ok (p p' : planner) : Prop :=
  session_inv (pl_session p') ∧ grows (pl_session p) (pl_session p') ∧ fenced_write p p'.

Lemma step_refl p : session_inv (pl_session p) → step_ok p p.
Proof. intros H. split; [done|]. split; [reflexivity|by left]. Qed.

Lemma mutable_ok x u : requirePlanMutable x = Ok u → ¬ finalizing x.
Proof.
  unfold requirePlanMutable. intros H%res_assert_ok.
  apply andb_true_iff in H as [[H%bool_decide_eq_true _]%andb_true_iff _]. by intros Hf.
Qed.

Lemma contexts_inv x c : session_inv x → ¬ finalizing x →
  (∀ key context, c !! key = Some context → ∃ plan, Session.planOutline x = Some plan ∧ context_fits plan key context) →
  session_inv (Session.set_contexts c x).
Proof. intros [] Hf Hc. split; cbn; auto. by intros ?%Hf. Qed.

Lemma contexts_grow x c : ¬ finalizing x → grows x (Session.set_contexts c x).
Proof. intros Hf. split; cbn; auto. by intros ?%Hf. Qed.

(** Both tools that set a context: with the value, or back to what was there. *)
Lemma set_context_ok now fault done key context old text p r p' :
  session_inv (pl_session p) → ¬ finalizing (pl_session p) →
  (∃ plan, Session.planOutline (pl_session p) = Some plan ∧ context_fits plan key context) →
  (∀ k c, old !! k = Some c → Session.taskContexts (pl_session p) !! k = Some c) →
  change_and_push cfg now fault done
    (Session.set_contexts (<[key := context]> (Session.taskContexts (pl_session p))))
    (Session.set_contexts old) text p = (r, p') → step_ok p p'.
Proof.
  intros Hinv Hf Hfits Hold H. apply change_and_push_spec in H as [[Hs Hj]|[Hs Hw]].
  - split; [|split; [|by left]]; rewrite Hs.
    + apply (contexts_inv (pl_session p)); [done..|]. intros k c Hk. by apply (inv_contexts _ Hinv), Hold.
    + by apply (contexts_grow (pl_session p)).
  - split; [|split; [|done]]; rewrite Hs.
    + apply contexts_inv; [done..|]. intros k c Hk.
      apply lookup_insert_Some in Hk as [[<- <-]|[_ Hk]]; [done|by apply (inv_contexts _ Hinv)].
    + by apply contexts_grow.
Qed.

Lemma register_context_ok now fault args p :
  session_inv (pl_session p) → step_ok p (registerTaskContext cfg now fault args p).2.
Proof.
  intros Hinv. unfold registerTaskContext.
  destruct (let? u := _ in _) as [[key context]|e] eqn:E; [|by apply step_refl].
  apply res_bind_ok in E as (u & Hf%mutable_ok & E).
  destruct (Session.taskContexts _ !! key) eqn:Hk; [case_bool_decide; by apply step_refl|].
  destruct (change_and_push _ _ _ _ _ _ _ _) as [r p'] eqn:H. cbn.
  eapply set_context_ok; [done|done| | |exact H].
  - by eapply contextArgs_fits.
  - intros k c. rewrite delete_insert_id by done. done.
Qed.

Lemma update_context_ok now fault args p :
  session_inv (pl_session p) → step_ok p (updateTaskContext cfg now fault args p).2.
Proof.
  intros Hinv. unfold updateTaskContext.
  destruct (let? u := _ in _) as [[key context]|e] eqn:E; [|by apply step_refl].
  apply res_bind_ok in E as (u & Hf%mutable_ok & E).
  destruct (Session.taskContexts _ !! key) as [existing|] eqn:Hk; [|by apply step_refl].
  case_bool_decide; [by apply step_refl|].
  destruct (change_and_push _ _ _ _ _ _ _ _) as [r p'] eqn:H0. cbn.
  eapply set_context_ok; [done|done| | |exact H0].
  - by eapply contextArgs_fits.
  - intros k c. rewrite insert_insert_eq, insert_id by done. done.
Qed.

Lemma no_outline_no_contexts x : session_inv x → Session.planOutline x = None → Session.taskContexts x = ∅.
Proof.
  intros Hinv Ho. apply map_eq. intros k. rewrite lookup_empty.
  destruct (Session.taskContexts x !! k) eqn:E; [|done].
  apply (inv_contexts _ Hinv) in E as (plan & Hp & _). congruence.
Qed.

Lemma register_outline_ok now fault args p :
  session_inv (pl_session p) → step_ok p (registerPlanOutline cfg now fault args p).2.
Proof.
  intros Hinv. unfold registerPlanOutline.
  destruct (let? u := _ in _) as [plan|e] eqn:E; [|by apply step_refl].
  apply res_bind_ok in E as (u & Hf%mutable_ok & E).
  destruct (Session.planOutline _) as [locked|] eqn:Ho; [case_bool_decide; by apply step_refl|].
  destruct (change_and_push _ _ _ _ _ _ _ _) as [r p'] eqn:H. cbn.
  pose proof (no_outline_no_contexts _ Hinv Ho) as Hempty.
  apply change_and_push_spec in H as [[Hs Hj]|[Hs Hw]].
  - assert (pl_session p' = pl_session p) as Heq by (rewrite Hs; destruct (pl_session p); cbn in *; by subst).
    split; [by rewrite Heq|]. split; [by rewrite Heq|by left].
  - split; [|split; [|done]]; rewrite Hs.
    + destruct Hinv. split; cbn; auto.
      * intros ? [= <-]. by exists args.
      * rewrite Hempty. intros ??. by rewrite lookup_empty.
      * by intros ?%Hf.
    + split; cbn; auto; congruence.
Qed.

Lemma finalize_ok args p :
  session_inv (pl_session p) → step_ok p (requestPlanFinalization args p).2.
Proof.
  intros Hinv. unfold requestPlanFinalization. destruct (has_keys args); [by apply step_refl|].
  destruct (Session.planOutline (pl_session p)) as [plan|] eqn:Ho; [|by apply step_refl].
  case_bool_decide as Hm; [by apply step_refl|]. cbn. case_bool_decide as Hf; [|by apply step_refl].
  destruct Hinv as [I1 I2 I3 I4 I5 I6]. split; [|split; [|by left]].
  - split; cbn; auto; try done.
    intros _. exists plan. split; [done|]. apply missing_none. apply length_zero_iff_nil. lia.
  - split; cbn; auto. unfold stage. rewrite Hf. cbn. lia.
Qed.

Lemma tool_ok now fault name args p :
  session_inv (pl_session p) → step_ok p (dispatchWritablePlannerTool cfg now fault name args p).2.
Proof.
  intros Hinv. unfold dispatchWritablePlannerTool. destruct (run_writable cfg p); [|by apply step_refl].
  unfold dispatchPlannerToolNow. cbv zeta. repeat case_bool_decide;
    auto using register_outline_ok, register_context_ok, update_context_ok, finalize_ok. by apply step_refl.
Qed.

Lemma check_ok p :
  session_inv (pl_session p) → Session.finalizer (pl_session p) = Finalizer.checking → step_ok p (finalize_check cfg p).
Proof.
  intros Hinv Hf. pose proof Hinv as [I1 I2 I3 I4 I5 I6].
  assert (finalizing (pl_session p)) as Hfin by (unfold finalizing; by rewrite Hf).
  assert (step_ok p (with_session (Session.set_finalizer Finalizer.settled) p)) as Hsettled.
  { split; [|split; [|by left]].
    - split; cbn; auto; first [done | by intros []].
    - split; cbn; auto. unfold stage. rewrite Hf. cbn. lia. }
  unfold finalize_check. destruct (negb _); [done|]. destruct (_ || _) eqn:Hc; [done|].
  apply orb_false_iff in Hc as [Hc1 Hc2]. split; [|split; [|by left]].
  - split; cbn; auto. by intros [].
  - split; cbn; auto. unfold stage. rewrite Hf. cbn. lia.
Qed.

Lemma commit_spec now fault advance plan contexts s :
  match commitDesignPlanReady cfg now fault advance (flattenRegisteredPlan plan contexts) (countPlanUnits plan) s with
  | (Ok true, s') => s' = set_jobs (update_where fence (patch_design_row now (commit_patch plan contexts)) (jobs s)) s
  | (Ok false, s') => s' = s
  | (Err _, s') => s' = s ∨
      s' = set_jobs (update_where fence (patch_design_row now (commit_patch plan contexts)) (jobs s)) s
  end.
Proof.
  unfold commitDesignPlanReady. cbv zeta.
  pose proof (fenced_update_spec now fault (commit_patch plan contexts) s) as H.
  unfold commit_patch in *. destruct (updateDesignSessionRowFenced _ _ _ _ _ _) as [[[job|]|e] s']; cbn.
  - destruct (sc_phaseAdvance cfg); [|done]. destruct advance; cbn; [done|]. by right.
  - done.
  - by left.
Qed.

Lemma commit_ok now fault advance p :
  session_inv (pl_session p) → Session.finalizer (pl_session p) = Finalizer.committing →
  step_ok p (finalize_commit cfg now fault advance p).
Proof.
  intros Hinv Hf. pose proof Hinv as [I1 I2 I3 I4 I5 I6].
  assert (finalizing (pl_session p)) as Hfin by (unfold finalizing; by rewrite Hf).
  destruct (I3 Hfin) as (plan & Hplan & Hcomplete). unfold finalize_commit. rewrite Hplan.
  pose proof (commit_spec now fault advance plan (Session.taskContexts (pl_session p)) (pl_db p)) as H.
  destruct (commitDesignPlanReady _ _ _ _ _ _ _) as [[[]|e] s'].
  all: split; [split; cbn; auto; first [done | by intros []]|split; [split; cbn; auto; unfold stage; rewrite Hf; cbn; lia|]].
  - subst s'. right. do 2 eexists. split; [reflexivity|]. exists plan. split; [done|]. by right.
  - subst s'. by left.
  - destruct H as [->| ->]; [by left|]. right. do 2 eexists. split; [reflexivity|]. exists plan. split; [done|]. by right.
Qed.

Lemma session_step_ok p p' : session_inv (pl_session p) → session_step cfg p p' → step_ok p p'.
Proof. intros Hinv []; auto using tool_ok, check_ok, commit_ok. Qed.

Lemma start_inv : session_inv Session.fresh.
Proof. by split. Qed.

Lemma reachable_inv p : planner_reachable cfg p → session_inv (pl_session p).
Proof.
  intros [s Hs]. apply (rtc_ind_r (λ p, session_inv (pl_session p)) (planner_start s)) in Hs; [done|apply start_inv|].
  intros y z _ [p' Hstep|s'] IH; [|done]. by eapply session_step_ok.
Qed.

(** ** Theorems *)

(** C25: Whatever the agent calls and whatever fails, a planning session keeps its promises: the
    outline is one that passed all checks; every registered context belongs to a task of the
    outline, repeats its title and is not empty; once finalization has started every task has
    its context; a registered outline is never replaced, and when finalization has started the
    contexts do not change any more. *)
Theorem planning_session_is_sound (p p' : planner) :
  planner_reachable cfg p → session_step cfg p p' →
  session_inv (pl_session p') ∧ grows (pl_session p) (pl_session p').
Proof. intros Hp%reachable_inv Hstep. by destruct (session_step_ok p p' Hp Hstep) as (? & ? & _). Qed.

(** What a commit leaves in the row. *)
Definition saved_complete (plan : PlannerRegisteredPlan) (contexts : gmap string TaskContext.t)
    (j : planning_row) : Prop :=
  let saved := flattenRegisteredPlan plan contexts in
  jb_status j = "plan_editing" ∧
  PlanningContent.plan (jb_content j) = Some (if sc_clearConfirmed cfg then clearPlanConfirmedFlags saved else saved) ∧
  PlanningContent.taskProgress (jb_content j) = defaultTaskProgress (SavedJobPlan.tasks saved) ∧
  Forall (λ f, trimmed (FlatTaskPlan.contextMarkdown f)) (SavedJobPlan.tasks saved) ∧
  validateRegisteredPlanDependencyGraph plan = Ok tt.

Lemma contexts_present x plan :
  session_inv x → Session.planOutline x = Some plan → complete plan (Session.taskContexts x) →
  Forall (λ f, trimmed (FlatTaskPlan.contextMarkdown f))
    (SavedJobPlan.tasks (flattenRegisteredPlan plan (Session.taskContexts x))).
Proof.
  intros Hinv Hp Hc. apply List.Forall_forall.
  intros f (m & s & t & sl & task & Hin & ->)%list_elem_of_In%elem_each_task. cbn.
  destruct (Hc m s t sl task Hin) as [context Hk]. rewrite Hk. cbn.
  apply (inv_contexts _ Hinv) in Hk as (? & _ & ? & ? & ? & ? & ? & _ & _ & _ & H). done.
Qed.

(** C9: Every write of a planning session is fenced: rows of other jobs, and the row of its own
    job when the run was replaced or released, are left alone. A row it does write keeps its
    status and shows the plan registered so far, or it is put up for editing with the whole
    plan: the flattened outline, a context for every task, dependencies that were accepted, and
    all tasks queued. *)
Theorem planning_writes_are_fenced (p p' : planner) :
  planner_reachable cfg p → session_step cfg p p' →
  Forall2 (λ j j', j' = j ∨
    jb_id j = sc_ownerId cfg ∧ jb_activeRunId j = Some (sc_runId cfg) ∧
    jb_id j' = jb_id j ∧ jb_activeRunId j' = jb_activeRunId j ∧
    ∃ plan, Session.planOutline (pl_session p') = Some plan ∧
      (jb_status j' = jb_status j ∧
       PlanningContent.plan (jb_content j') = Some (flattenRegisteredPlan plan (Session.taskContexts (pl_session p'))) ∨
       saved_complete plan (Session.taskContexts (pl_session p')) j'))
    (jobs (pl_db p)) (jobs (pl_db p')).
Proof.
  intros Hp%reachable_inv Hstep. destruct (session_step_ok p p' Hp Hstep) as (Hinv & _ & Hw).
  destruct Hw as [->|(now & patch & -> & plan & Hplan & Hpatch)].
  { induction (jobs (pl_db p)); constructor; [by left|done]. }
  apply Forall2_map_like. intros j. destruct (fence j) eqn:Hf; [right|by left].
  apply andb_true_iff in Hf as [Hid%bool_decide_eq_true Hrun%bool_decide_eq_true].
  do 4 (split; [done|]). exists plan. split; [done|].
  destruct Hpatch as [[done ->]|[Hc ->]]; [by left|right].
  destruct (inv_outline _ Hinv _ Hplan) as [args Hargs%accepted_backwards].
  split; [done|]. split; [done|]. split; [done|]. split; [|done]. by apply contexts_present.
Qed.

(** A plan is finalized at most once: asking again reports success and changes nothing, whether
    the first attempt succeeded, was refused or failed; when the finalizer has settled it stays
    so whatever happens. *)
Theorem finalization_runs_once (p : planner) now fault args :
  planner_reachable cfg p → finalizing (pl_session p) →
  run_writable cfg p = true → has_keys args = false → is_object args = true →
  (∃ text, dispatchWritablePlannerTool cfg now fault "finalize_plan" args p = (Ok text, p)) ∧
  (Session.finalizer (pl_session p) = Finalizer.settled →
   ∀ p', rtc (planner_step cfg) p p' → Session.finalizer (pl_session p') = Finalizer.settled).
Proof.
  intros Hp Hf Hw Hk Ho. split.
  - destruct (inv_complete _ (reachable_inv p Hp) Hf) as (plan & Hplan & Hc).
    unfold dispatchWritablePlannerTool. rewrite Hw. unfold dispatchPlannerToolNow. rewrite Ho.
    rewrite !bool_decide_eq_false_2, bool_decide_eq_true_2 by done.
    unfold requestPlanFinalization. rewrite Hk, Hplan, (proj2 (missing_none _ _) Hc).
    rewrite !bool_decide_eq_false_2 by (done || cbn; lia). by eexists.
  - intros Hs p' Hrtc. clear Hf Hw Hk Ho. revert Hp Hs. induction Hrtc as [|x y z Hxy _ IH]; intros Hp Hs; [done|].
    assert (planner_reachable cfg y) as Hy by (destruct Hp as [s0 ?]; exists s0; by eapply rtc_r).
    apply IH; [done|]. destruct Hxy as [y Hxy|s]; [|done].
    destruct (session_step_ok x y (reachable_inv x Hp) Hxy) as (_ & [_ _ Hst _] & _).
    unfold stage in Hst. rewrite Hs in Hst. destruct (Session.finalizer (pl_session y)); [cbn in Hst; lia..|done].
Qed.

Lemma fence_patch now patch j : fence (patch_design_row now patch j) = fence j.
Proof. done. Qed.

Lemma existsb_update now patch (l : list planning_row) :
  existsb fence (update_where fence (patch_design_row now patch) l) = existsb fence l.
Proof.
  unfold update_where. induction l as [|j l IH]; [done|]. cbn -[fence]. rewrite IH. f_equal.
  by destruct (fence j) eqn:Hf.
Qed.

(** Ids being unique, the row of the job is the fenced one. *)
Lemma find_fenced s j : NoDup (map jb_id (jobs s)) → existsb fence (jobs s) = true →
  find_job s (sc_ownerId cfg) = Some j → fence j = true.
Proof.
  intros Hn (k & Hk%list_elem_of_In & Hf)%existsb_exists [Hj%list_elem_of_In Hid]%find_some.
  pose proof Hf as Hf'. apply andb_true_iff in Hf' as [Hid' _].
  apply bool_decide_eq_true in Hid, Hid'. apply list_elem_of_lookup in Hk as [i Hi], Hj as [i' Hi'].
  assert (i = i') as <-; [|by simplify_eq].
  apply (list.NoDup_lookup _ _ _ (sc_ownerId cfg) Hn); rewrite list_lookup_fmap; [rewrite Hi|rewrite Hi']; cbn; congruence.
Qed.

Lemma update_ids now patch l : map jb_id (update_where fence (patch_design_row now patch) l) = map jb_id l.
Proof. unfold update_where. rewrite map_map. apply map_ext. intros j. by destruct (fence j). Qed.

Lemma failed_row_written now source error p : Session.planCommitted (pl_session p) = false →
  NoDup (map jb_id (jobs (pl_db p))) → existsb fence (jobs (pl_db p)) = true →
  (∀ j, j ∈ jobs (pl_db p) → fence j = true → jb_status j ≠ "cancelled") →
  ∃ patch, DesignPatch.status patch = Some "failed" ∧ DesignPatch.plan patch = None ∧
    planning_failed cfg now false source error p =
    (PlanningRunOutcome.failure,
     with_db (set_jobs (update_where fence (patch_design_row now patch) (jobs (pl_db p))) (pl_db p)) p).
Proof.
  intros Hc Hn He Hstatus. unfold planning_failed. rewrite Hc, bool_decide_eq_false_2.
  2:{ destruct (find_job (pl_db p) (sc_ownerId cfg)) as [j|] eqn:Hj; [|done]. intros [= Hjs].
      apply (Hstatus j); [|by eapply find_fenced|done]. by apply find_some in Hj as [Hj%list_elem_of_In _]. }
  destruct (planFailureFromSandboxError source error) as [progress dto].
  set (patch := DesignPatch.mk _ _ _ _ _ _ _).
  pose proof (fenced_update_spec now None patch (pl_db p)) as H. unfold updateDesignSessionRowFenced in *.
  change (jobRowFence _ _) with fence in *. rewrite He in *. cbn [negb] in *. cbv zeta in *.
  exists patch. done.
Qed.

(** C35: When the wizard cannot be advanced after the plan was saved, the saved plan is lost
    from sight: the commit has put the row up for editing with the complete plan, but the
    session counts as failed, and the end of the turn marks the row failed and keeps the plan in
    it. *)
Theorem wizard_failure_fails_saved_plan (p : planner) now now' e :
  planner_reachable cfg p → Session.finalizer (pl_session p) = Finalizer.committing →
  sc_phaseAdvance cfg = true → NoDup (map jb_id (jobs (pl_db p))) →
  let p1 := finalize_commit cfg now None (Err e) p in
  let '(outcome, p2) := planning_turn_done cfg now' false p1 in
  ∀ i j, jobs (pl_db p) !! i = Some j → fence j = true →
    outcome = PlanningRunOutcome.failure ∧
    ∃ plan j1 j2, Session.planOutline (pl_session p) = Some plan ∧
      jobs (pl_db p1) !! i = Some j1 ∧ saved_complete plan (Session.taskContexts (pl_session p)) j1 ∧
      jobs (pl_db p2) !! i = Some j2 ∧ jb_status j2 = "failed" ∧
      PlanningContent.plan (jb_content j2) = PlanningContent.plan (jb_content j1).
Proof.
  intros Hp%reachable_inv Hf Hadv Hn p1.
  assert (finalizing (pl_session p)) as Hfin by (unfold finalizing; by rewrite Hf).
  destruct (inv_complete _ Hp Hfin) as (plan & Hplan & Hc).
  set (patch := commit_patch plan (Session.taskContexts (pl_session p))).
  set (written := update_where fence (patch_design_row now patch) (jobs (pl_db p))).
  destruct (existsb fence (jobs (pl_db p))) eqn:He.
  2:{ destruct (planning_turn_done _ _ _ _) as [o p2]. intros i j Hi Hj.
      exfalso. assert (existsb fence (jobs (pl_db p)) = true); [|congruence].
      apply existsb_exists. exists j. split; [|done]. apply list_elem_of_In, list_elem_of_lookup. eauto. }
  assert (p1 = with_session (Session.set_finalizer Finalizer.settled)
    (with_session (λ y, Session.set_committing false (Session.set_error e y))
       (with_db (set_jobs written (pl_db p)) p))) as Hp1.
  { unfold p1, finalize_commit. rewrite Hplan. unfold commitDesignPlanReady, updateDesignSessionRowFenced. cbv zeta.
    change (jobRowFence _ _) with fence. rewrite He. cbn [negb].
    destruct (fenced_found now patch (pl_db p) He) as [job Hjob].
    unfold patch, commit_patch in Hjob. rewrite Hjob. cbn. by rewrite Hadv. }
  clearbody p1. subst p1. unfold planning_turn_done. cbn [with_session pl_session Session.planCommitted
    Session.set_finalizer Session.set_committing Session.set_error with_db Session.finalizerError].
  rewrite (inv_uncommitted _ Hp Hf).
  edestruct (failed_row_written now' OtherError (normalizeTurnErrorFromMessage e)) as (patch2 & Hst & Hpl & ->).
  - cbn. by apply inv_uncommitted.
  - cbn. unfold written. by rewrite update_ids.
  - cbn. unfold written. by rewrite existsb_update.
  - cbn. unfold written. intros j (k & -> & Hk)%list_elem_of_fmap. destruct (fence k) eqn:Hfk; [|congruence].
    intros _. by intros [=].
  - intros i j Hi Hj. split; [done|]. exists plan, (patch_design_row now patch j),
      (patch_design_row now' patch2 (patch_design_row now patch j)).
    assert (written !! i = Some (patch_design_row now patch j)) as Hw.
    { unfold written, update_where. by rewrite list_lookup_fmap, Hi; cbn; rewrite Hj. }
    split; [done|]. split; [done|]. split.
    { split; [done|]. split; [done|]. split; [done|]. split; [by apply contexts_present|].
      destruct (inv_outline _ Hp _ Hplan) as [args Hargs]. by eapply accepted_backwards. }
    split.
    { cbn. unfold update_where at 1. rewrite list_lookup_fmap, Hw. cbn -[fence patch_design_row].
      by rewrite fence_patch, Hj. }
    unfold patch_design_row. cbn. by rewrite Hst, Hpl.
Qed.
End specs.
