(* ===== verification/PlanStore.v ===== *)
(** * Stored plans

    Models [src/server/db/job-plan.ts] and [shared/plan-mutations.ts]: a plan is
    kept in the tables [job_plan_milestones], [job_plan_slices] and
    [job_plan_tasks]; lists of references are stored as JSON text.  Loading
    rebuilds the tasks of the tree from the flat tasks.  The theorems say what of
    a plan survives, and that the workflow of an outline does. *)
From stdpp Require Import pretty.
From Stdlib Require Import Ascii.
From S2P Require Import Prelude Json JsonSpecs JsString SavedPlan Gate GateSpecs RepairTasks RepairSpecs Verdicts.
From S2P Require Import JsonParse Act Registries Host RunLifecycle JobReferences PlanOutline PlanOutlineSpecs PlannerSession.
Local Open Scope tx_scope.

#[local] Arguments bool_decide : simpl never.

(** ** Tables *)

Module MilestoneRow.
Record t := mk {
  jobId : string;
  milestoneIndex : Z;
  sortOrder : Z;
  title : string;
  description : string;
  successCriteria : string;
  confirmed : option Z
}.
End MilestoneRow.

Module SliceRow.
Record t := mk {
  jobId : string;
  milestoneIndex : Z;
  sliceIndex : Z;
  sortOrder : Z;
  title : string;
  description : string;
  successCriteria : string;
  dependsOnSliceRefsJson : option string;
  confirmed : option Z
}.
End SliceRow.

Module TaskRow.
Record t := mk {
  jobId : string;
  taskId : string;
  sortOrder : Z;
  milestoneIndex : Z;
  sliceIndex : Z;
  taskIndex : Z;
  title : string;
  description : string;
  taskKind : string;
  abilityCode : string;
  contextMarkdown : string;
  coreCode : option string;
  successCriteria : string;
  referenceIdsJson : option string;
  referenceReason : option string;
  dependsOnTaskRefsJson : option string;
  canRunInParallel : Z;
  confirmed : option Z
}.
End TaskRow.

(** The tables, and the jobs their rows may refer to. *)
Record plan_db := mkPlanDb {
  pd_jobs : list string;
  pd_milestones : list MilestoneRow.t;
  pd_slices : list SliceRow.t;
  pd_tasks : list TaskRow.t
}.

Definition set_milestone_rows (l : list MilestoneRow.t) (s : plan_db) : plan_db :=
  mkPlanDb (pd_jobs s) l (pd_slices s) (pd_tasks s).
Definition set_slice_rows (l : list SliceRow.t) (s : plan_db) : plan_db :=
  mkPlanDb (pd_jobs s) (pd_milestones s) l (pd_tasks s).
Definition set_task_rows (l : list TaskRow.t) (s : plan_db) : plan_db :=
  mkPlanDb (pd_jobs s) (pd_milestones s) (pd_slices s) l.

Definition planM : Type → Type := txM plan_db string.

(** An insert: the job exists and no row has the same primary key. *)
Definition insert_into {R} (rows : plan_db → list R) (store : list R → plan_db → plan_db)
    (key : R → R → bool) (job : R → string) (table : string) (row : R) : planM unit :=
  let* s := tx_gets id in
  if existsb (key row) (rows s) then tx_throw ("UNIQUE constraint failed: " +:+ table)
  else if negb (bool_decide (job row ∈ pd_jobs s)) then tx_throw "FOREIGN KEY constraint failed"
  else tx_modify (store (rows s ++ [row])).

Definition insert_milestone : MilestoneRow.t → planM unit :=
  insert_into pd_milestones set_milestone_rows
    (λ a b, bool_decide (MilestoneRow.jobId a = MilestoneRow.jobId b) &&
            bool_decide (MilestoneRow.milestoneIndex a = MilestoneRow.milestoneIndex b))
    MilestoneRow.jobId "job_plan_milestones".

Definition insert_slice : SliceRow.t → planM unit :=
  insert_into pd_slices set_slice_rows
    (λ a b, bool_decide (SliceRow.jobId a = SliceRow.jobId b) &&
            (bool_decide (SliceRow.milestoneIndex a = SliceRow.milestoneIndex b) &&
             bool_decide (SliceRow.sliceIndex a = SliceRow.sliceIndex b)))
    SliceRow.jobId "job_plan_slices".

Definition insert_task : TaskRow.t → planM unit :=
  insert_into pd_tasks set_task_rows
    (λ a b, bool_decide (TaskRow.jobId a = TaskRow.jobId b) &&
            bool_decide (TaskRow.taskId a = TaskRow.taskId b))
    TaskRow.jobId "job_plan_tasks".

(** [for (const [index, item] of items.entries())] *)
Fixpoint tx_entries {A} (f : nat → A → planM unit) (index : nat) (items : list A) : planM unit :=
  match items with
  | [] => tx_ret tt
  | x :: rest => do* f index x in tx_entries f (S index) rest
  end.

(** ** Saving *)

(** [x === undefined ? null : x ? 1 : 0] *)
Definition flag_column (o : option bool) : option Z := (λ b : bool, if b then 1%Z else 0%Z) <$> o.

(** [list?.length ? JSON.stringify(list) : null] *)
Definition list_column (o : option (list string)) : option string :=
  match o with
  | Some ((_ :: _) as l) => Some (stringify (strings_json l))
  | _ => None
  end.

Definition milestone_row (jobId : string) (mIdx : nat) (m : PlannerRegisteredMilestone.t) : MilestoneRow.t :=
  MilestoneRow.mk jobId (Z.of_nat mIdx) (Z.of_nat mIdx) (default "" (PlannerRegisteredMilestone.title m))
    (default "" (PlannerRegisteredMilestone.description m))
    (default "" (PlannerRegisteredMilestone.successCriteria m))
    (flag_column (PlannerRegisteredMilestone.confirmed m)).

Definition slice_row (jobId : string) (mIdx sIdx : nat) (sl : PlannerRegisteredSlice.t) : SliceRow.t :=
  SliceRow.mk jobId (Z.of_nat mIdx) (Z.of_nat sIdx) (Z.of_nat mIdx * 1000 + Z.of_nat sIdx)
    (default "" (PlannerRegisteredSlice.title sl)) (default "" (PlannerRegisteredSlice.description sl))
    (PlannerRegisteredSlice.successCriteria sl) (list_column (PlannerRegisteredSlice.dependsOnSliceRefs sl))
    (flag_column (PlannerRegisteredSlice.confirmed sl)).

Definition task_row (jobId : string) (index : nat) (f : FlatTaskPlan.t) : TaskRow.t :=
  TaskRow.mk jobId (FlatTaskPlan.id f) (Z.of_nat index) (FlatTaskPlan.milestoneIndex f) (FlatTaskPlan.sliceIndex f)
    (FlatTaskPlan.taskIndex f) (FlatTaskPlan.title f) (FlatTaskPlan.description f) (FlatTaskPlan.taskKind f)
    (FlatTaskPlan.abilityCode f) (FlatTaskPlan.contextMarkdown f) (FlatTaskPlan.coreCode f)
    (FlatTaskPlan.successCriteria f) (list_column (FlatTaskPlan.referenceIds f)) (FlatTaskPlan.referenceReason f)
    (list_column (FlatTaskPlan.dependsOnTaskRefs f))
    (if default false (FlatTaskPlan.canRunInParallel f) then 1 else 0)%Z
    (flag_column (FlatTaskPlan.confirmed f)).

Definition of_other_job {R} (job : R → string) (jobId : string) (rows : list R) : list R :=
  List.filter (λ r, negb (bool_decide (job r = jobId))) rows.

Definition of_job {R} (job : R → string) (jobId : string) (rows : list R) : list R :=
  List.filter (λ r, bool_decide (job r = jobId)) rows.

Definition delete_slices (jobId : string) : planM unit :=
  tx_modify (λ s, set_slice_rows (of_other_job SliceRow.jobId jobId (pd_slices s)) s).
Definition delete_milestones (jobId : string) : planM unit :=
  tx_modify (λ s, set_milestone_rows (of_other_job MilestoneRow.jobId jobId (pd_milestones s)) s).
Definition delete_tasks (jobId : string) : planM unit :=
  tx_modify (λ s, set_task_rows (of_other_job TaskRow.jobId jobId (pd_tasks s)) s).

Definition savePlanMilestonesInTx (jobId : string) (milestones : list PlannerRegisteredMilestone.t) : planM unit :=
  do* delete_slices jobId in
  do* delete_milestones jobId in
  tx_entries (λ mIdx m,
    do* insert_milestone (milestone_row jobId mIdx m) in
    tx_entries (λ sIdx sl, insert_slice (slice_row jobId mIdx sIdx sl)) 0 (PlannerRegisteredMilestone.slices m))
    0 milestones.

Definition savePlanTasksInTx (jobId : string) (tasks : list FlatTaskPlan.t) : planM unit :=
  do* delete_tasks jobId in
  tx_entries (λ index f, insert_task (task_row jobId index f)) 0 tasks.

Definition saveJobPlanInTx (jobId : string) (plan : option SavedJobPlan.t) : planM unit :=
  match plan with
  | None => do* delete_slices jobId in do* delete_milestones jobId in delete_tasks jobId
  | Some p =>
      do* savePlanMilestonesInTx jobId (SavedJobPlan.milestones p) in
      savePlanTasksInTx jobId (SavedJobPlan.tasks p)
  end.

(** ** Loading *)

Definition le_by {R} (key : R → Z) (a b : R) : Prop := (key a ≤ key b)%Z.

#[global] Instance le_by_dec {R} (key : R → Z) : RelDecision (le_by key).
Proof. intros a b. unfold le_by. apply _. Defined.
#[global] Instance le_by_total {R} (key : R → Z) : Total (le_by key).
Proof. intros a b. unfold le_by. lia. Qed.
#[global] Instance le_by_trans {R} (key : R → Z) : Transitive (le_by key).
Proof. intros a b c. unfold le_by. lia. Qed.

(** [ORDER BY key], and [.sort((a, b) => a.key - b.key)] *)
Definition order_by {R} (key : R → Z) (rows : list R) : list R := merge_sort (le_by key) rows.

(** [x === null ? undefined : x === 1] *)
Definition flag_value (o : option Z) : option bool := (λ z, bool_decide (z = 1%Z)) <$> o.

(** [s || undefined] *)
Definition text_value (s : string) : option string := or_undefined s.

Definition parseJsonArray (value : option string) : option (list string) :=
  match value with
  | None => None
  | Some text =>
      if bool_decide (text = "") then None else
      match parse_json text with
      | Some (JArr items) => Some (map js_String items)
      | _ => None
      end
  end.

Definition mapPlanTaskRow (r : TaskRow.t) : FlatTaskPlan.t :=
  FlatTaskPlan.mk (TaskRow.taskId r) (TaskRow.milestoneIndex r) (TaskRow.sliceIndex r) (TaskRow.taskIndex r)
    (TaskRow.title r) (TaskRow.description r) (TaskRow.taskKind r) (TaskRow.abilityCode r) (TaskRow.contextMarkdown r)
    (TaskRow.coreCode r) (TaskRow.successCriteria r) (parseJsonArray (TaskRow.referenceIdsJson r))
    (TaskRow.referenceReason r) (parseJsonArray (TaskRow.dependsOnTaskRefsJson r))
    (Some (bool_decide (TaskRow.canRunInParallel r = 1%Z))) (flag_value (TaskRow.confirmed r)).

Definition flatTaskToRegisteredTask (f : FlatTaskPlan.t) : PlannerRegisteredTask.t :=
  PlannerRegisteredTask.mk (Some (FlatTaskPlan.title f)) (Some (FlatTaskPlan.description f)) (FlatTaskPlan.taskKind f)
    (Some (FlatTaskPlan.abilityCode f)) (FlatTaskPlan.referenceIds f) (FlatTaskPlan.referenceReason f)
    (FlatTaskPlan.dependsOnTaskRefs f) None (Some (FlatTaskPlan.successCriteria f)) (FlatTaskPlan.canRunInParallel f)
    (FlatTaskPlan.confirmed f).

Definition in_slice_at (mIdx sIdx : Z) (f : FlatTaskPlan.t) : bool :=
  bool_decide (FlatTaskPlan.milestoneIndex f = mIdx + 1)%Z && bool_decide (FlatTaskPlan.sliceIndex f = sIdx + 1)%Z.

Definition nestedTasksForSlice (flatTasks : list FlatTaskPlan.t) (mIdx sIdx : Z) : list PlannerRegisteredTask.t :=
  map flatTaskToRegisteredTask
    (order_by FlatTaskPlan.taskIndex (List.filter (in_slice_at mIdx sIdx) flatTasks)).

Definition assemble_slice (flatTasks : list FlatTaskPlan.t) (r : SliceRow.t) : PlannerRegisteredSlice.t :=
  PlannerRegisteredSlice.mk (text_value (SliceRow.title r)) (text_value (SliceRow.description r))
    (SliceRow.successCriteria r) (parseJsonArray (SliceRow.dependsOnSliceRefsJson r)) (flag_value (SliceRow.confirmed r))
    (nestedTasksForSlice flatTasks (SliceRow.milestoneIndex r) (SliceRow.sliceIndex r)).

Definition assembleMilestones (milestoneRows : list MilestoneRow.t) (sliceRows : list SliceRow.t)
    (flatTasks : list FlatTaskPlan.t) : list PlannerRegisteredMilestone.t :=
  map (λ r,
    PlannerRegisteredMilestone.mk (text_value (MilestoneRow.title r)) (text_value (MilestoneRow.description r))
      (text_value (MilestoneRow.successCriteria r)) (flag_value (MilestoneRow.confirmed r))
      (map (assemble_slice flatTasks)
         (order_by SliceRow.sliceIndex
            (List.filter (λ sl, bool_decide (SliceRow.milestoneIndex sl = MilestoneRow.milestoneIndex r)) sliceRows))))
    milestoneRows.

Definition loadPlanMilestonesFromDbInTx (jobId : string) (flatTasks : list FlatTaskPlan.t) (s : plan_db) :
    option (list PlannerRegisteredMilestone.t) :=
  match order_by MilestoneRow.sortOrder (of_job MilestoneRow.jobId jobId (pd_milestones s)) with
  | [] => None
  | rows => Some (assembleMilestones rows
                    (order_by SliceRow.sortOrder (of_job SliceRow.jobId jobId (pd_slices s))) flatTasks)
  end.

Definition loadJobPlanInTx (jobId : string) (s : plan_db) : option SavedJobPlan.t :=
  if negb (bool_decide (jobId ∈ pd_jobs s)) then None else
  let flatTasks := map mapPlanTaskRow (order_by TaskRow.sortOrder (of_job TaskRow.jobId jobId (pd_tasks s))) in
  match loadPlanMilestonesFromDbInTx jobId flatTasks s, flatTasks with
  | None, [] => None
  | milestones, _ => Some (SavedJobPlan.mk (default [] milestones) flatTasks)
  end.

(** ** Plan mutations *)

Definition is_confirmed (o : option bool) : bool := default false o.

Definition isPlanFullyConfirmed (plan : SavedJobPlan.t) : bool :=
  negb (bool_decide (length (SavedJobPlan.tasks plan) = 0)) &&
  forallb (λ m,
    is_confirmed (PlannerRegisteredMilestone.confirmed m) &&
    forallb (λ s,
      is_confirmed (PlannerRegisteredSlice.confirmed s) &&
      forallb (λ t, is_confirmed (PlannerRegisteredTask.confirmed t)) (PlannerRegisteredSlice.tasks s))
      (PlannerRegisteredMilestone.slices m)) (SavedJobPlan.milestones plan) &&
  forallb (λ f, is_confirmed (FlatTaskPlan.confirmed f)) (SavedJobPlan.tasks plan).

(** ** Columns *)

(** An empty list is stored like an absent one. *)
Definition stored_list (o : option (list string)) : option (list string) :=
  match o with Some ((_ :: _) as l) => Some l | _ => None end.

Lemma js_strings l : map js_String (map JStr l) = l.
Proof. rewrite map_map. apply map_id. Qed.

Lemma list_column_back o : parseJsonArray (list_column o) = stored_list o.
Proof.
  destruct o as [[|x l]|]; [done| |done]. cbn [list_column stored_list]. unfold parseJsonArray.
  rewrite bool_decide_eq_false_2 by done. rewrite parse_stringify.
  - unfold strings_json. by rewrite js_strings.
  - cbn. induction l as [|y l IH]; [done|]. exact IH.
Qed.

Lemma flag_column_back o : flag_value (flag_column o) = o.
Proof. by destruct o as [[]|]. Qed.

Definition stored_text (o : option string) : option string := text_value (default "" o).

(** What is left of a flat task. *)
Definition stored_task (f : FlatTaskPlan.t) : FlatTaskPlan.t :=
  FlatTaskPlan.mk (FlatTaskPlan.id f) (FlatTaskPlan.milestoneIndex f) (FlatTaskPlan.sliceIndex f)
    (FlatTaskPlan.taskIndex f) (FlatTaskPlan.title f) (FlatTaskPlan.description f) (FlatTaskPlan.taskKind f)
    (FlatTaskPlan.abilityCode f) (FlatTaskPlan.contextMarkdown f) (FlatTaskPlan.coreCode f)
    (FlatTaskPlan.successCriteria f) (stored_list (FlatTaskPlan.referenceIds f)) (FlatTaskPlan.referenceReason f)
    (stored_list (FlatTaskPlan.dependsOnTaskRefs f)) (Some (default false (FlatTaskPlan.canRunInParallel f)))
    (FlatTaskPlan.confirmed f).

Lemma task_row_back jobId i f : mapPlanTaskRow (task_row jobId i f) = stored_task f.
Proof.
  unfold mapPlanTaskRow, stored_task. cbn. rewrite !list_column_back, flag_column_back. f_equal.
  by destruct (FlatTaskPlan.canRunInParallel f) as [[]|].
Qed.

(** What is left of a plan: the tree has the titles, criteria, dependencies and
    confirmations of its slices and milestones, and the flat tasks as tasks. *)
Definition stored_slice (flats : list FlatTaskPlan.t) (mIdx sIdx : nat) (sl : PlannerRegisteredSlice.t) :
    PlannerRegisteredSlice.t :=
  PlannerRegisteredSlice.mk (stored_text (PlannerRegisteredSlice.title sl))
    (stored_text (PlannerRegisteredSlice.description sl)) (PlannerRegisteredSlice.successCriteria sl)
    (stored_list (PlannerRegisteredSlice.dependsOnSliceRefs sl)) (PlannerRegisteredSlice.confirmed sl)
    (nestedTasksForSlice flats (Z.of_nat mIdx) (Z.of_nat sIdx)).

Definition stored_milestone (flats : list FlatTaskPlan.t) (mIdx : nat) (m : PlannerRegisteredMilestone.t) :
    PlannerRegisteredMilestone.t :=
  PlannerRegisteredMilestone.mk (stored_text (PlannerRegisteredMilestone.title m))
    (stored_text (PlannerRegisteredMilestone.description m))
    (stored_text (PlannerRegisteredMilestone.successCriteria m)) (PlannerRegisteredMilestone.confirmed m)
    (imap (stored_slice flats mIdx) (PlannerRegisteredMilestone.slices m)).

Definition stored_plan (p : SavedJobPlan.t) : SavedJobPlan.t :=
  let flats := map stored_task (SavedJobPlan.tasks p) in
  SavedJobPlan.mk (imap (stored_milestone flats) (SavedJobPlan.milestones p)) flats.

(** ** Sorting and filtering *)

Lemma order_by_sorted {R} (key : R → Z) l l' :
  l' ≡ₚ l → StronglySorted (λ a b, key a < key b)%Z l → order_by key l' = l.
Proof.
  intros Hp Hs.
  assert (StronglySorted (le_by key) l) as Hle.
  { clear Hp. induction Hs as [|x l Hs IH Hall]; constructor; [done|].
    eapply List.Forall_impl; [|exact Hall]. unfold le_by. intros. lia. }
  apply (StronglySorted_unique_strong (le_by key)).
  - unfold order_by. intros x y Hx Hy Hxy Hyx. rewrite merge_sort_Permutation, Hp in Hx.
    apply list_elem_of_lookup in Hx as [i Hi], Hy as [j Hj]. unfold le_by in *.
    destruct (lt_eq_lt_dec i j) as [[Hij| ->]|Hij]; [|by simplify_eq|].
    + pose proof (sorted_lookup _ _ _ _ _ _ Hs Hi Hj Hij) as H. cbn in H. lia.
    + pose proof (sorted_lookup _ _ _ _ _ _ Hs Hj Hi Hij) as H. cbn in H. lia.
  - apply StronglySorted_merge_sort; apply _.
  - done.
  - unfold order_by. by rewrite merge_sort_Permutation.
Qed.

Lemma filter_concat_imap {A B} (p : B → bool) (f : nat → A → list B) l m x :
  l !! m = Some x → (∀ i z y, i ≠ m → y ∈ f i z → p y = false) →
  List.filter p (concat (imap f l)) = List.filter p (f m x).
Proof.
  assert (∀ k, (∀ y, y ∈ k → p y = false) → List.filter p k = []) as Hnone.
  { induction k as [|y k IH]; intros H; [done|]. cbn. rewrite H by (apply elem_of_cons; by left).
    apply IH. intros. apply H, elem_of_cons. by right. }
  revert f m. induction l as [|z l IH]; intros f [|m] Hm Hf; [done..| |]; cbn in *.
  - simplify_eq. rewrite filter_app, (Hnone (concat _)), app_nil_r; [done|].
    intros y (i & w & _ & Hy)%elem_concat_imap. by apply (Hf (S i) w).
  - rewrite filter_app, (Hnone (f 0 z)) by (intros; by apply (Hf 0 z)). cbn.
    rewrite (IH (f ∘ S) m Hm); [done|]. intros i w y Hi. apply Hf. lia.
Qed.

Lemma filter_all {A} (p : A → bool) l : (∀ x, x ∈ l → p x = true) → List.filter p l = l.
Proof.
  induction l as [|x l IH]; intros H; [done|]. cbn. rewrite H by (apply elem_of_cons; by left).
  f_equal. apply IH. intros. apply H, elem_of_cons. by right.
Qed.

Lemma filter_none {A} (p : A → bool) l : (∀ x, x ∈ l → p x = false) → List.filter p l = [].
Proof.
  induction l as [|x l IH]; intros H; [done|]. cbn. rewrite H by (apply elem_of_cons; by left).
  apply IH. intros. apply H, elem_of_cons. by right.
Qed.

Lemma filter_map {A B} (p : B → bool) (g : A → B) l : List.filter p (map g l) = map g (List.filter (λ x, p (g x)) l).
Proof. induction l as [|x l IH]; [done|]. cbn. destruct (p (g x)); cbn; by rewrite IH. Qed.

(** The rows of a job after its old rows were deleted and new ones inserted. *)
Lemma of_job_new {R} (job : R → string) jobId rows news :
  (∀ r, r ∈ news → job r = jobId) → of_job job jobId (of_other_job job jobId rows ++ news) = news.
Proof.
  intros H. unfold of_job. rewrite filter_app, filter_none, filter_all; [done|..].
  - intros r Hr. by apply bool_decide_eq_true, H.
  - intros r [_ Hr]%list_elem_of_In%filter_In. by apply negb_true_iff in Hr.
Qed.

Lemma of_job_other {R} (job : R → string) jobId other rows news :
  other ≠ jobId → (∀ r, r ∈ news → job r = jobId) →
  of_job job other (of_other_job job jobId rows ++ news) = of_job job other rows.
Proof.
  intros Hne H. unfold of_job, of_other_job. rewrite filter_app, (filter_none _ news), app_nil_r.
  - induction rows as [|r rows IH]; [done|]. cbn. case_bool_decide as Hr; cbn; [|by rewrite IH].
    rewrite Hr, bool_decide_eq_false_2 by congruence. done.
  - intros r Hr. rewrite (H r Hr). by apply bool_decide_eq_false.
Qed.

(** ** Inserting *)

Lemma insert_into_ok {R} (rows : plan_db → list R) store key (job : R → string) table row s :
  (∀ r, r ∈ rows s → key row r = false) → job row ∈ pd_jobs s →
  insert_into rows store key job table row s = Ok (tt, store (rows s ++ [row]) s).
Proof.
  intros Hk Hj. unfold insert_into, tx_bind, tx_gets. cbn.
  assert (existsb (key row) (rows s) = false) as ->.
  { apply not_true_iff_false. intros (r & Hr%list_elem_of_In & H)%existsb_exists. by rewrite Hk in H. }
  by rewrite bool_decide_eq_true_2.
Qed.

(** A loop of inserts adds the rows in order, if none clashes with the rows
    before it. *)
Lemma insert_entries {A R} (rows : plan_db → list R) store key (job : R → string) table (mk : nat → A → R) :
  (∀ l s, rows (store l s) = l) → (∀ l l' s, store l' (store l s) = store l' s) →
  (∀ l s, pd_jobs (store l s) = pd_jobs s) →
  ∀ l k s,
    (∀ i x, l !! i = Some x → job (mk (k + i) x) ∈ pd_jobs s) →
    (∀ i x r, l !! i = Some x → r ∈ rows s → key (mk (k + i) x) r = false) →
    (∀ i j x y, l !! i = Some x → l !! j = Some y → j < i → key (mk (k + i) x) (mk (k + j) y) = false) →
    store (rows s) s = s →
    tx_entries (λ i x, insert_into rows store key job table (mk i x)) k l s =
    Ok (tt, store (rows s ++ imap (λ i x, mk (k + i) x) l) s).
Proof.
  intros Hget Hset Hjobs. induction l as [|x l IH]; intros k s Hj Hold Hnew Hs; cbn [tx_entries imap].
  { by rewrite app_nil_r, Hs. }
  unfold tx_bind. rewrite insert_into_ok.
  2:{ intros r. rewrite <-(Nat.add_0_r k). by apply (Hold 0). }
  2:{ rewrite <-(Nat.add_0_r k). by apply (Hj 0). }
  rewrite IH.
  - rewrite Hset, Hget, <-app_assoc. cbn. rewrite Nat.add_0_r. do 5 f_equal.
    apply imap_ext'. intros. cbn. by rewrite Nat.add_succ_r.
  - intros i y Hi. rewrite Hjobs. specialize (Hj (S i) y Hi). by rewrite Nat.add_succ_r in Hj.
  - intros i y r Hi. rewrite Hget. intros [Hr| ->%list_elem_of_singleton]%elem_of_app.
    + specialize (Hold (S i) y r Hi Hr). by rewrite Nat.add_succ_r in Hold.
    + specialize (Hnew (S i) 0 y x Hi eq_refl ltac:(lia)). by rewrite Nat.add_succ_r, Nat.add_0_r in Hnew.
  - intros i j y z Hi Hz Hij. specialize (Hnew (S i) (S j) y z Hi Hz ltac:(lia)).
    by rewrite !Nat.add_succ_r in Hnew.
  - by rewrite Hset, Hget.
Qed.

Lemma insert_task_entries jobId l s :
  jobId ∈ pd_jobs s → NoDup (map FlatTaskPlan.id l) → (∀ r, r ∈ pd_tasks s → TaskRow.jobId r ≠ jobId) →
  tx_entries (λ i f, insert_task (task_row jobId i f)) 0 l s =
  Ok (tt, set_task_rows (pd_tasks s ++ imap (task_row jobId) l) s).
Proof.
  intros Hj Hn Hold.
  apply (insert_entries pd_tasks set_task_rows _ _ _ (task_row jobId)); try done.
  - intros i x r _ Hr. cbn. rewrite bool_decide_eq_false_2; [done|]. intros H. by apply (Hold r).
  - intros i j x y Hx Hy Hij. cbn. apply andb_false_iff. right. apply bool_decide_eq_false. intros H.
    enough (i = j) by lia. apply (list.NoDup_lookup _ _ _ (FlatTaskPlan.id x) Hn);
      rewrite list_lookup_fmap; [by rewrite Hx|]. rewrite Hy. cbn. congruence.
  - by destruct s.
Qed.

Lemma insert_slice_entries jobId m l s :
  jobId ∈ pd_jobs s →
  (∀ r, r ∈ pd_slices s → SliceRow.jobId r = jobId → (SliceRow.milestoneIndex r < Z.of_nat m)%Z) →
  tx_entries (λ i sl, insert_slice (slice_row jobId m i sl)) 0 l s =
  Ok (tt, set_slice_rows (pd_slices s ++ imap (slice_row jobId m) l) s).
Proof.
  intros Hj Hold. apply (insert_entries pd_slices set_slice_rows _ _ _ (slice_row jobId m)); try done.
  - intros i x r _ Hr. cbn. apply andb_false_iff. destruct (decide (jobId = SliceRow.jobId r)) as [He|He].
    + right. apply andb_false_iff. left. apply bool_decide_eq_false. specialize (Hold r Hr (eq_sym He)). lia.
    + left. by apply bool_decide_eq_false.
  - intros i j x y _ _ Hij. cbn. rewrite !andb_false_iff, !bool_decide_eq_false. lia.
  - by destruct s.
Qed.

Definition slice_rows (jobId : string) (k : nat) (ms : list PlannerRegisteredMilestone.t) : list SliceRow.t :=
  concat (imap (λ i m, imap (slice_row jobId (k + i)) (PlannerRegisteredMilestone.slices m)) ms).

Lemma insert_milestone_entries jobId ms : ∀ k s,
  jobId ∈ pd_jobs s →
  (∀ r, r ∈ pd_milestones s → MilestoneRow.jobId r = jobId → (MilestoneRow.milestoneIndex r < Z.of_nat k)%Z) →
  (∀ r, r ∈ pd_slices s → SliceRow.jobId r = jobId → (SliceRow.milestoneIndex r < Z.of_nat k)%Z) →
  tx_entries (λ mIdx m,
    do* insert_milestone (milestone_row jobId mIdx m) in
    tx_entries (λ sIdx sl, insert_slice (slice_row jobId mIdx sIdx sl)) 0 (PlannerRegisteredMilestone.slices m)) k ms s =
  Ok (tt, mkPlanDb (pd_jobs s) (pd_milestones s ++ imap (λ i, milestone_row jobId (k + i)) ms)
            (pd_slices s ++ slice_rows jobId k ms) (pd_tasks s)).
Proof.
  induction ms as [|m ms IH]; intros k s Hj Hm Hs.
  { cbn. rewrite !app_nil_r. by destruct s. }
  cbn [tx_entries]. unfold tx_bind at 1 2. unfold insert_milestone. rewrite insert_into_ok; [| |done].
  2:{ intros r Hr. cbn. apply andb_false_iff. destruct (decide (jobId = MilestoneRow.jobId r)) as [He|He].
      - right. apply bool_decide_eq_false. specialize (Hm r Hr (eq_sym He)). lia.
      - left. by apply bool_decide_eq_false. }
  rewrite insert_slice_entries by done. fold insert_milestone. rewrite IH.
  - assert (∀ i, milestone_row jobId (S k + i) = milestone_row jobId (k + S i)) as Heq.
    { intros. f_equal. lia. }
    unfold slice_rows.
    rewrite (imap_ext' (λ i, milestone_row jobId (S k + i)) (λ i, milestone_row jobId (k + S i)))
      by (intros; by rewrite Heq).
    rewrite (imap_ext' (λ i m, imap (slice_row jobId (S k + i)) (PlannerRegisteredMilestone.slices m))
      (λ i m, imap (slice_row jobId (k + S i)) (PlannerRegisteredMilestone.slices m)))
      by (intros; by rewrite Nat.add_succ_r).
    cbn. rewrite <-!app_assoc, !Nat.add_0_r. done.
  - done.
  - cbn. intros r [Hr| ->%list_elem_of_singleton]%elem_of_app Hjob; [|cbn; lia]. specialize (Hm r Hr Hjob). lia.
  - cbn. intros r [Hr|(i & sl & _ & ->)%elem_imap]%elem_of_app Hjob; [|cbn; lia]. specialize (Hs r Hr Hjob). lia.
Qed.

(** ** The round trip *)

Definition saved_db (jobId : string) (p : SavedJobPlan.t) (s : plan_db) : plan_db :=
  mkPlanDb (pd_jobs s)
    (of_other_job MilestoneRow.jobId jobId (pd_milestones s) ++ imap (milestone_row jobId) (SavedJobPlan.milestones p))
    (of_other_job SliceRow.jobId jobId (pd_slices s) ++ slice_rows jobId 0 (SavedJobPlan.milestones p))
    (of_other_job TaskRow.jobId jobId (pd_tasks s) ++ imap (task_row jobId) (SavedJobPlan.tasks p)).

Lemma other_job_ne {R} (job : R → string) jobId rows r : r ∈ of_other_job job jobId rows → job r ≠ jobId.
Proof. intros [_ Hr]%list_elem_of_In%filter_In. by apply negb_true_iff, bool_decide_eq_false in Hr. Qed.

Lemma save_plan_ok jobId p s :
  jobId ∈ pd_jobs s → NoDup (map FlatTaskPlan.id (SavedJobPlan.tasks p)) →
  saveJobPlanInTx jobId (Some p) s = Ok (tt, saved_db jobId p s).
Proof.
  intros Hj Hn. unfold saveJobPlanInTx, savePlanMilestonesInTx, savePlanTasksInTx.
  unfold tx_bind at 1. unfold delete_slices at 1, delete_milestones at 1. rewrite !tx_bind_modify.
  rewrite insert_milestone_entries; [|done|..].
  - unfold delete_tasks. rewrite tx_bind_modify, insert_task_entries; [done|done|done|].
    intros r Hr. by apply (other_job_ne TaskRow.jobId) in Hr.
  - cbn. intros r Hr%other_job_ne ?. done.
  - cbn. intros r Hr%other_job_ne ?. done.
Qed.

Lemma slice_rows_of jobId ms m x : ms !! m = Some x →
  List.filter (λ r, bool_decide (SliceRow.milestoneIndex r = Z.of_nat m)) (slice_rows jobId 0 ms) =
  imap (slice_row jobId m) (PlannerRegisteredMilestone.slices x).
Proof.
  intros Hm. unfold slice_rows. rewrite (filter_concat_imap _ _ _ _ _ Hm).
  - apply filter_all. intros r (i & sl & _ & ->)%elem_imap. by apply bool_decide_eq_true.
  - intros i z y Hi (j & sl & _ & ->)%elem_imap. apply bool_decide_eq_false. cbn. lia.
Qed.

Lemma filter_permutation {A} (p : A → bool) l l' : l ≡ₚ l' → List.filter p l ≡ₚ List.filter p l'.
Proof.
  induction 1 as [|x l l' _ IH|x y l|l l' l'' _ IH1 _ IH2]; cbn; [done| | |by etransitivity].
  - destruct (p x); by rewrite IH.
  - destruct (p x), (p y); done || apply Permutation_swap.
Qed.

Lemma assembled jobId ms flats :
  assembleMilestones (imap (milestone_row jobId) ms) (order_by SliceRow.sortOrder (slice_rows jobId 0 ms)) flats =
  imap (stored_milestone flats) ms.
Proof.
  unfold assembleMilestones. rewrite map_imap. apply imap_ext. intros m x Hm.
  unfold stored_milestone. cbn -[order_by slice_rows assemble_slice stored_slice text_value flag_value].
  rewrite flag_column_back. f_equal.
  rewrite (order_by_sorted _ (imap (slice_row jobId m) (PlannerRegisteredMilestone.slices x))).
  - rewrite map_imap. apply imap_ext'. intros i sl. unfold assemble_slice, stored_slice. cbn -[nestedTasksForSlice].
    by rewrite list_column_back, flag_column_back.
  - rewrite <-(slice_rows_of jobId ms m x Hm). apply filter_permutation. unfold order_by. by rewrite merge_sort_Permutation.
  - apply imap_sorted. cbn. lia.
Qed.

Definition empty_plan (p : SavedJobPlan.t) : bool :=
  bool_decide (SavedJobPlan.milestones p = [] ∧ SavedJobPlan.tasks p = []).

Lemma load_saved_db jobId p s : jobId ∈ pd_jobs s →
  loadJobPlanInTx jobId (saved_db jobId p s) = if empty_plan p then None else Some (stored_plan p).
Proof.
  intros Hj. unfold loadJobPlanInTx, loadPlanMilestonesFromDbInTx. cbn [saved_db pd_jobs pd_milestones pd_slices pd_tasks].
  rewrite bool_decide_eq_true_2 by done. cbn [negb].
  rewrite !of_job_new.
  2:{ by intros r (i & f & _ & ->)%elem_imap. }
  2:{ by intros r (i & m & _ & (j & sl & _ & ->)%elem_imap)%elem_concat_imap. }
  2:{ by intros r (i & m & _ & ->)%elem_imap. }
  rewrite (order_by_sorted MilestoneRow.sortOrder (imap (milestone_row jobId) (SavedJobPlan.milestones p))) by
    (done || (apply imap_sorted; cbn; lia)).
  rewrite (order_by_sorted TaskRow.sortOrder (imap (task_row jobId) (SavedJobPlan.tasks p))) by
    (done || (apply imap_sorted; cbn; lia)).
  assert (map mapPlanTaskRow (imap (task_row jobId) (SavedJobPlan.tasks p)) = map stored_task (SavedJobPlan.tasks p)) as ->.
  { rewrite map_imap. transitivity (imap (λ _ f, stored_task f) (SavedJobPlan.tasks p)).
    - apply imap_ext'. intros. apply task_row_back.
    - apply imap_const. }
  unfold empty_plan, stored_plan. destruct (SavedJobPlan.milestones p) as [|m ms] eqn:Em.
  - destruct (SavedJobPlan.tasks p) as [|t ts] eqn:Et; cbn [imap map].
    + by rewrite bool_decide_eq_true_2.
    + by rewrite bool_decide_eq_false_2 by naive_solver.
  - rewrite bool_decide_eq_false_2 by naive_solver.
    destruct (imap (milestone_row jobId) (m :: ms)) eqn:E; [done|]. by rewrite <-E, assembled.
Qed.

(** *** What a stored plan keeps, said without the functions that load it *)

(** The task of the tree that stands for a flat task. *)
Definition stands_for (f : FlatTaskPlan.t) (t : PlannerRegisteredTask.t) : Prop :=
  PlannerRegisteredTask.title t = Some (FlatTaskPlan.title f) ∧
  PlannerRegisteredTask.description t = Some (FlatTaskPlan.description f) ∧
  PlannerRegisteredTask.taskKind t = FlatTaskPlan.taskKind f ∧
  PlannerRegisteredTask.abilityCode t = Some (FlatTaskPlan.abilityCode f) ∧
  PlannerRegisteredTask.referenceIds t = FlatTaskPlan.referenceIds f ∧
  PlannerRegisteredTask.referenceReason t = FlatTaskPlan.referenceReason f ∧
  PlannerRegisteredTask.dependsOnTaskRefs t = FlatTaskPlan.dependsOnTaskRefs f ∧
  PlannerRegisteredTask.requiredInputs t = None ∧
  PlannerRegisteredTask.successCriteria t = Some (FlatTaskPlan.successCriteria f) ∧
  PlannerRegisteredTask.canRunInParallel t = FlatTaskPlan.canRunInParallel f ∧
  PlannerRegisteredTask.confirmed t = FlatTaskPlan.confirmed f.

(** The slice [k] of milestone [m]: its tasks are the flat tasks that name this place,
    in the order of their indexes. *)
Definition slice_kept (flats : list FlatTaskPlan.t) (m k : nat) (sl sl' : PlannerRegisteredSlice.t) : Prop :=
  PlannerRegisteredSlice.title sl' = stored_text (PlannerRegisteredSlice.title sl) ∧
  PlannerRegisteredSlice.description sl' = stored_text (PlannerRegisteredSlice.description sl) ∧
  PlannerRegisteredSlice.successCriteria sl' = PlannerRegisteredSlice.successCriteria sl ∧
  PlannerRegisteredSlice.dependsOnSliceRefs sl' = stored_list (PlannerRegisteredSlice.dependsOnSliceRefs sl) ∧
  PlannerRegisteredSlice.confirmed sl' = PlannerRegisteredSlice.confirmed sl ∧
  ∃ fs, fs ≡ₚ List.filter (λ f, bool_decide (FlatTaskPlan.milestoneIndex f = Z.of_nat m + 1)%Z &&
                                 bool_decide (FlatTaskPlan.sliceIndex f = Z.of_nat k + 1)%Z) flats ∧
    StronglySorted (λ f g, FlatTaskPlan.taskIndex f ≤ FlatTaskPlan.taskIndex g)%Z fs ∧
    Forall2 stands_for fs (PlannerRegisteredSlice.tasks sl').

Definition milestone_kept (flats : list FlatTaskPlan.t) (m : nat) (x x' : PlannerRegisteredMilestone.t) : Prop :=
  PlannerRegisteredMilestone.title x' = stored_text (PlannerRegisteredMilestone.title x) ∧
  PlannerRegisteredMilestone.description x' = stored_text (PlannerRegisteredMilestone.description x) ∧
  PlannerRegisteredMilestone.successCriteria x' = stored_text (PlannerRegisteredMilestone.successCriteria x) ∧
  PlannerRegisteredMilestone.confirmed x' = PlannerRegisteredMilestone.confirmed x ∧
  length (PlannerRegisteredMilestone.slices x') = length (PlannerRegisteredMilestone.slices x) ∧
  ∀ k sl, PlannerRegisteredMilestone.slices x !! k = Some sl →
    ∃ sl', PlannerRegisteredMilestone.slices x' !! k = Some sl' ∧ slice_kept flats m k sl sl'.

Definition plan_kept (p q : SavedJobPlan.t) : Prop :=
  SavedJobPlan.tasks q = map stored_task (SavedJobPlan.tasks p) ∧
  length (SavedJobPlan.milestones q) = length (SavedJobPlan.milestones p) ∧
  ∀ m x, SavedJobPlan.milestones p !! m = Some x →
    ∃ x', SavedJobPlan.milestones q !! m = Some x' ∧ milestone_kept (SavedJobPlan.tasks q) m x x'.

Lemma stored_slice_kept flats m k sl : slice_kept flats m k sl (stored_slice flats m k sl).
Proof.
  split_and!; [done..|]. cbn. unfold nestedTasksForSlice. exists (order_by FlatTaskPlan.taskIndex (List.filter (in_slice_at (Z.of_nat m) (Z.of_nat k)) flats)). split_and!.
  - unfold order_by. by rewrite merge_sort_Permutation.
  - apply (StronglySorted_merge_sort (le_by FlatTaskPlan.taskIndex)).
  - apply Forall2_fmap_r, Forall_Forall2_diag, list.Forall_true. intros f. by split_and!.
Qed.

Lemma stored_plan_kept p : plan_kept p (stored_plan p).
Proof.
  unfold stored_plan. split; [done|]. cbn. rewrite length_imap. split; [done|].
  intros m x Hx. eexists. rewrite list_lookup_imap, Hx. split; [done|]. split_and!; [done..| |].
  - cbn. by rewrite length_imap.
  - intros k sl Hsl. eexists. cbn. rewrite list_lookup_imap, Hsl. split; [done|]. apply stored_slice_kept.
Qed.

(** For a plan whose flat list and tree agree, no slice loses or gains a task. *)
Lemma aligned_count p m k sl : plan_aligned p → slice_at p m k = Some sl →
  length (PlannerRegisteredSlice.tasks sl) = length (List.filter (in_slice m k) (SavedJobPlan.tasks p)).
Proof.
  intros Hal Hs. pose proof (f_equal length (proj2 Hal m k)) as Hc. unfold slice_indexes, nested_count in Hc.
  rewrite !length_map, length_seq, Hs in Hc. done.
Qed.

Lemma kept_slice_at p q m k sl : plan_kept p q → slice_at p m k = Some sl →
  ∃ sl', slice_at q m k = Some sl' ∧ slice_kept (SavedJobPlan.tasks q) (Z.to_nat (m - 1)) (Z.to_nat (k - 1)) sl sl'.
Proof.
  intros (_ & _ & Hm) (x & Hx & Hsl)%bind_Some. apply js_index_lt in Hx as [H1 Hx], Hsl as [H2 Hsl].
  destruct (Hm _ _ Hx) as (x' & Hx' & Hk). destruct Hk as (_ & _ & _ & _ & _ & Hk).
  destruct (Hk _ _ Hsl) as (sl' & Hsl' & Hkept). exists sl'. split; [|done].
  unfold slice_at, milestone_at, js_index. rewrite !bool_decide_eq_false_2 by lia. by rewrite Hx'.
Qed.

Lemma kept_counts p q m k : plan_aligned p → plan_kept p q → is_Some (slice_at p m k) → nested_count q m k = nested_count p m k.
Proof.
  intros Hal Hq [sl Hs]. destruct (kept_slice_at p q m k sl Hq Hs) as (sl' & Hs' & _ & _ & _ & _ & _ & fs & Hp & _ & Hf).
  pose proof (slice_at_pos _ _ _ _ Hs). unfold nested_count. rewrite Hs, Hs', (aligned_count p m k sl Hal Hs).
  rewrite <-(Forall2_length Hf), Hp. destruct Hq as [-> _]. rewrite filter_map, length_map. f_equal.
  apply List.filter_ext. intros f. unfold in_slice. cbn.
  assert (Z.of_nat (Z.to_nat (m - 1)) + 1 = m ∧ Z.of_nat (Z.to_nat (k - 1)) + 1 = k)%Z as [-> ->] by lia. done.
Qed.

(** C17: A plan whose task ids are distinct can always be saved for an existing job. Loading it
    answers that there is no plan exactly when the plan has neither milestones nor tasks, as the
    empty plan with which a job's plan is cleared; otherwise it gives the plan back up to what
    the tables can hold: milestones and slices at their places, the flat tasks in order, and in
    each slice of the tree the flat tasks that name it, sorted by their index, with nothing of
    the old tasks of the tree; empty lists and empty texts become absent, an absent
    canRunInParallel becomes false, and requiredInputs are lost. If the flat tasks and the tree
    agreed, each slice keeps the number of its tasks. Plans of other jobs are untouched. *)
Theorem plan_storage_roundtrip (jobId : string) (p : SavedJobPlan.t) (s : plan_db) :
  jobId ∈ pd_jobs s → NoDup (map FlatTaskPlan.id (SavedJobPlan.tasks p)) →
  ∃ s', run_transaction (saveJobPlanInTx jobId (Some p)) s = (Ok tt, s') ∧
    loadJobPlanInTx jobId s' =
      (if bool_decide (SavedJobPlan.milestones p = [] ∧ SavedJobPlan.tasks p = []) then None else Some (stored_plan p)) ∧
    plan_kept p (stored_plan p) ∧
    (plan_aligned p → ∀ m k, is_Some (slice_at p m k) → nested_count (stored_plan p) m k = nested_count p m k) ∧
    ∀ other, other ≠ jobId → loadJobPlanInTx other s' = loadJobPlanInTx other s.
Proof.
  intros Hj Hn. exists (saved_db jobId p s). split_and!.
  - unfold run_transaction. by rewrite save_plan_ok.
  - by apply load_saved_db.
  - apply stored_plan_kept.
  - intros Hal m k. by apply kept_counts, stored_plan_kept.
  - intros other Ho. unfold loadJobPlanInTx, loadPlanMilestonesFromDbInTx.
    cbn [saved_db pd_jobs pd_milestones pd_slices pd_tasks]. rewrite !of_job_other; [done|done|..].
    + by intros r (i & f & _ & ->)%elem_imap.
    + done.
    + by intros r (i & m & _ & (j & sl & _ & ->)%elem_imap)%elem_concat_imap.
    + done.
    + by intros r (i & m & _ & ->)%elem_imap.
Qed.

(** ** The workflow of a stored outline *)

Lemma imap_imap {A B C} (f : nat → B → C) (g : nat → A → B) l : imap f (imap g l) = imap (λ i x, f i (g i x)) l.
Proof. revert f g. induction l as [|x l IH]; intros f g; [done|]. cbn. f_equal. apply IH. Qed.

Lemma each_task_ext {A} (f g : nat → nat → nat → PlannerRegisteredSlice.t → PlannerRegisteredTask.t → A) plan :
  (∀ m s t sl task, task_in plan m s t sl task → f m s t sl task = g m s t sl task) →
  each_task f plan = each_task g plan.
Proof.
  intros H. unfold each_task. f_equal. apply imap_ext. intros m ms Hm. f_equal. apply imap_ext. intros s sl Hs.
  apply imap_ext. intros t task Ht. apply H. split; [|done]. by exists ms.
Qed.

Section stored.
Context (plan : PlannerRegisteredPlan) (contexts : gmap string TaskContext.t).

Definition stored_flats : list FlatTaskPlan.t :=
  map stored_task (each_task (flatten_task contexts) plan).

(** The task of the tree that is rebuilt for a place. *)
Definition rebuilt_task (m s t : nat) (sl : PlannerRegisteredSlice.t) (task : PlannerRegisteredTask.t) :
    PlannerRegisteredTask.t :=
  flatTaskToRegisteredTask (stored_task (flatten_task contexts m s t sl task)).

Lemma nested_tasks m s sl : slice_in plan m s sl →
  nestedTasksForSlice stored_flats (Z.of_nat m) (Z.of_nat s) =
  imap (λ t, rebuilt_task m s t sl) (PlannerRegisteredSlice.tasks sl).
Proof.
  intros (ms & Hm & Hs). unfold nestedTasksForSlice, stored_flats. rewrite map_each_task. unfold each_task, mapi.
  rewrite (filter_concat_imap _ _ _ m ms Hm).
  2:{ intros i ? y Hi (j & ? & _ & (t & ? & _ & ->)%elem_imap)%elem_concat_imap. unfold in_slice_at. cbn.
      rewrite bool_decide_eq_false_2 by lia. done. }
  rewrite (filter_concat_imap _ _ _ s sl Hs).
  2:{ intros i ? y Hi (t & ? & _ & ->)%elem_imap. unfold in_slice_at. cbn.
      rewrite (bool_decide_eq_false_2 (Z.of_nat i + 1 = _)%Z) by lia. by rewrite andb_false_r. }
  rewrite filter_all.
  2:{ intros y (t & ? & _ & ->)%elem_imap. unfold in_slice_at. cbn. by rewrite !bool_decide_eq_true_2. }
  rewrite (order_by_sorted _ _ _ (reflexivity _)).
  - apply map_imap.
  - apply imap_sorted. cbn. lia.
Qed.

Lemma stored_slots :
  plan_slots (stored_plan (flattenRegisteredPlan plan contexts)) =
  each_task (λ m s t sl task,
    (Z.of_nat m + 1, Z.of_nat s + 1, Z.of_nat t + 1, rebuilt_task m s t sl task)%Z) plan.
Proof.
  unfold plan_slots, each_task, mapi. cbn [stored_plan flattenRegisteredPlan SavedJobPlan.milestones SavedJobPlan.tasks].
  fold stored_flats. rewrite imap_imap. f_equal. apply imap_ext. intros m ms Hm.
  cbn [stored_milestone PlannerRegisteredMilestone.slices]. rewrite imap_imap. f_equal. apply imap_ext. intros s sl Hs.
  cbn [stored_slice PlannerRegisteredSlice.tasks]. rewrite (nested_tasks m s sl) by (by exists ms). by rewrite imap_imap.
Qed.

Lemma stored_refs :
  refToId (stored_plan (flattenRegisteredPlan plan contexts)) = refToId (flattenRegisteredPlan plan contexts).
Proof.
  assert (∀ l m0, foldl (λ (m : gmap string string) '(mi, si, ti, _),
      <[normalizeRef (task_id mi si ti) := task_id mi si ti]> m) m0 l =
    foldl (λ m '(k, v), <[k := v]> m) m0
      (map (λ '(mi, si, ti, _), (normalizeRef (task_id mi si ti), task_id mi si ti))
         (l : list (Z * Z * Z * PlannerRegisteredTask.t)))) as Hfold.
  { induction l as [|[[[mi si] ti] task] l IH]; intros m0; [done|]. apply IH. }
  unfold refToId. rewrite !Hfold, stored_slots, plan_slots_each, !map_each_task. done.
Qed.

Lemma find_flat m s t sl task : task_in plan m s t sl task →
  findFlatTask (flattenRegisteredPlan plan contexts) (place m s t) = Some (flatten_task contexts m s t sl task).
Proof.
  intros Hin. unfold findFlatTask. destruct (List.find _ _) as [f|] eqn:E.
  - apply find_some in E as [Hf%list_elem_of_In Hid%bool_decide_eq_true].
    apply elem_each_task in Hf as (m' & s' & t' & sl' & task' & Hin' & ->).
    change (place m' s' t' = place m s t) in Hid. apply place_inj in Hid as (-> & -> & ->).
    by destruct (task_in_unique _ _ _ _ _ _ _ _ Hin Hin') as [<- <-].
  - pose proof (find_none _ _ E (flatten_task contexts m s t sl task)) as H. cbv beta in H.
    rewrite bool_decide_eq_true_2 in H by done. enough (true = false) by done. apply H.
    apply list_elem_of_In, elem_each_task. by exists m, s, t, sl, task.
Qed.

Lemma find_stored id :
  findFlatTask (stored_plan (flattenRegisteredPlan plan contexts)) id =
  stored_task <$> findFlatTask (flattenRegisteredPlan plan contexts) id.
Proof.
  unfold findFlatTask. cbn [stored_plan SavedJobPlan.tasks]. generalize (SavedJobPlan.tasks (flattenRegisteredPlan plan contexts)).
  induction l as [|f l IH]; [done|]. cbn. case_bool_decide; [done|]. apply IH.
Qed.

Lemma stored_built_tasks :
  build_tasks (stored_plan (flattenRegisteredPlan plan contexts)) =
  build_tasks (flattenRegisteredPlan plan contexts).
Proof.
  unfold build_tasks. rewrite stored_slots, plan_slots_each, !map_each_task. apply each_task_ext.
  intros m s t sl task Hin. unfold build_task.
  assert (∀ refs, dependency_ids (stored_plan (flattenRegisteredPlan plan contexts)) refs =
    dependency_ids (flattenRegisteredPlan plan contexts) refs) as Hids.
  { intros refs. unfold dependency_ids. by rewrite stored_refs. }
  rewrite Hids.
  change (task_id (Z.of_nat m + 1) (Z.of_nat s + 1) (Z.of_nat t + 1)) with (place m s t).
  rewrite find_stored, (find_flat _ _ _ _ _ Hin). cbn -[dependency_ids]. f_equal.
  - by destruct (PlannerRegisteredTask.dependsOnTaskRefs task) as [[]|].
  - by destruct (PlannerRegisteredTask.canRunInParallel task) as [[]|].
Qed.
End stored.

(** C16: Storing an outline keeps its workflow: the executor builds the same gate from the plan
    as the tables give it back as from the plan the planner produced, tasks, dependencies,
    parallelism and order included, although the stored plan drops fields and its tree is
    rebuilt from rows. *)
Theorem workflow_survives_storage (plan : PlannerRegisteredPlan) (contexts : gmap string TaskContext.t) :
  buildGateStates (stored_plan (flattenRegisteredPlan plan contexts)) =
  buildGateStates (flattenRegisteredPlan plan contexts).
Proof.
  unfold buildGateStates. rewrite stored_built_tasks.
  cbn [stored_plan flattenRegisteredPlan SavedJobPlan.milestones SavedJobPlan.tasks]. unfold mapi. rewrite !imap_imap.
  f_equal.
  - f_equal. apply imap_ext'. intros m ms. cbn [stored_milestone PlannerRegisteredMilestone.slices].
    rewrite imap_imap. apply imap_ext'. intros s sl. unfold build_slice, slice_positions.
    rewrite stored_built_tasks. cbn. by destruct (PlannerRegisteredSlice.dependsOnSliceRefs sl) as [[]|].
  - apply imap_ext'. intros m ms. unfold build_milestone, mapi. cbn. f_equal; [|by rewrite imap_imap].
    unfold stored_text, text_value, or_undefined. destruct (PlannerRegisteredMilestone.title ms) as [title|]; [|done].
    cbn. by case_bool_decide as Ht; subst.
Qed.
