(* ===== verification/JobEventHub.v ===== *)
(** * Realtime events of jobs, threads and turns

    Models [src/server/events/job-event-hub.ts], the bus it listens to
    ([context/event-bus.ts]) and the routes that open streams and set
    subscriptions ([routes/events.ts]).  Connections are objects that outlive
    their entry in the map (the generator and the listeners of the bus hold
    them), so they are kept in a list and named by their position.

    [setSubscriptions] waits for a snapshot of each topic; a call in progress is a
    [sub_task] and everything else may happen between its steps.  The wake-up of
    the generator ([resolveWait], [notify]) has no counterpart: a delivery is a
    step that is possible whenever the queue is not empty. *)
From Stdlib Require Import Ascii.
From S2P Require Import Prelude Json JsString Sql JobReferences PlanOutlineSpecs PlanStore.
From stdpp Require Import gmap.

#[local] Arguments bool_decide : simpl never.

(** ** Events and topics *)

Module HubEvent.
Record t := mk { event : string; data : json }.
End HubEvent.

Module HubEnvelope.
Record t := mk { topic : string; seq : Z; body : HubEvent.t }.
End HubEnvelope.

Definition jobTopic (jobId : string) : string := "job:" +:+ jobId.

Fixpoint drop_prefix (n : nat) (s : string) : string :=
  match n, s with S n', String _ s' => drop_prefix n' s' | _, _ => s end.

(** [topic.startsWith(p) ? topic.slice(p.length) : null], truthy. *)
Definition id_from_topic (pre topic : string) : option string :=
  if startsWith topic pre then
    let id := drop_prefix (String.length pre) topic in
    if bool_decide (id = "") then None else Some id
  else None.

Definition jobIdFromTopic : string → option string := id_from_topic "job:".
Definition threadIdFromTopic : string → option string := id_from_topic "thread:".
Definition turnIdFromTopic : string → option string := id_from_topic "turn:".

Definition jobHubTerminalStatus (status : string) : bool :=
  bool_decide (status ∈ ["plan_editing"; "plan_ready"; "paused"; "completed"; "failed"; "cancelled"]).

Definition MAX_QUEUE_SIZE : nat := 256.
Definition MAX_RECENT_SIZE : nat := 256.
Definition RECENT_LINGER_MS : Z := 60000.
Definition OVERFLOW_WARN_INTERVAL_MS : Z := 10000.
Definition NON_DROPPABLE_EVENTS : list string := ["job_done"; "error"; "resync"].

Definition droppable (e : HubEnvelope.t) : bool :=
  negb (bool_decide (HubEvent.event (HubEnvelope.body e) ∈ NON_DROPPABLE_EVENTS)).

Definition isCoalescableSnapshot (e : HubEvent.t) : bool :=
  bool_decide (HubEvent.event e ∈
    ["job_snapshot"; "plan_progress"; "task_progress"; "thread_snapshot"; "turn_snapshot"]).

(** ** Connections *)

Module HubConnection.
Record t := mk {
  username : string;
  connectionId : string;
  subscribedTopics : list string;
  unsubByTopic : gmap string nat;
  queue : list HubEnvelope.t;
  recent : list HubEnvelope.t;
  nextSeq : Z;
  droppedSinceOverflowWarn : nat;
  lastOverflowWarnAt : Z;
  closed : bool
}.

Definition set_topics (l : list string) (u : gmap string nat) (c : t) : t :=
  mk (username c) (connectionId c) l u (queue c) (recent c) (nextSeq c) (droppedSinceOverflowWarn c)
    (lastOverflowWarnAt c) (closed c).
Definition set_buffers (q r : list HubEnvelope.t) (c : t) : t :=
  mk (username c) (connectionId c) (subscribedTopics c) (unsubByTopic c) q r (nextSeq c)
    (droppedSinceOverflowWarn c) (lastOverflowWarnAt c) (closed c).
Definition set_nextSeq (n : Z) (c : t) : t :=
  mk (username c) (connectionId c) (subscribedTopics c) (unsubByTopic c) (queue c) (recent c) n
    (droppedSinceOverflowWarn c) (lastOverflowWarnAt c) (closed c).
Definition set_warned (n : nat) (at_ : Z) (c : t) : t :=
  mk (username c) (connectionId c) (subscribedTopics c) (unsubByTopic c) (queue c) (recent c) (nextSeq c)
    n at_ (closed c).
Definition set_closed (c : t) : t :=
  mk (username c) (connectionId c) (subscribedTopics c) (unsubByTopic c) (queue c) (recent c) (nextSeq c)
    (droppedSinceOverflowWarn c) (lastOverflowWarnAt c) true.
End HubConnection.

Module LingerBuffer.
Record t := mk { recent : list HubEnvelope.t; nextSeq : Z; expiresAt : Z }.
End LingerBuffer.

Definition connectionKey (username connectionId : string) : string := username +:+ "::" +:+ connectionId.

(** ** Pushing *)

(** The last index that satisfies [p], the loop downwards over the queue. *)
Fixpoint find_last_index {A} (p : A → bool) (l : list A) : option nat :=
  match l with
  | [] => None
  | x :: l' => match find_last_index p l' with
               | Some i => Some (S i)
               | None => if p x then Some 0 else None
               end
  end.

Fixpoint first_index {A} (p : A → bool) (l : list A) : option nat :=
  match l with
  | [] => None
  | x :: l' => if p x then Some 0 else S <$> first_index p l'
  end.

Definition same_kind (topic : string) (e : HubEvent.t) (current : HubEnvelope.t) : bool :=
  bool_decide (HubEnvelope.topic current = topic) &&
  bool_decide (HubEvent.event (HubEnvelope.body current) = HubEvent.event e).

Definition replace_seq (replacement : HubEnvelope.t) (l : list HubEnvelope.t) : list HubEnvelope.t :=
  match first_index (λ x, bool_decide (HubEnvelope.seq x = HubEnvelope.seq replacement)) l with
  | Some i => <[i := replacement]> l
  | None => l
  end.

Definition replaceQueuedSnapshot (topic : string) (e : HubEvent.t) (c : HubConnection.t) :
    option HubConnection.t :=
  if negb (isCoalescableSnapshot e) then None else
  index ← find_last_index (same_kind topic e) (HubConnection.queue c);
  current ← HubConnection.queue c !! index;
  let replacement := HubEnvelope.mk topic (HubEnvelope.seq current) e in
  Some (HubConnection.set_buffers (<[index := replacement]> (HubConnection.queue c))
          (replace_seq replacement (HubConnection.recent c)) c).

Definition warnQueueOverflow (now : Z) (c : HubConnection.t) : HubConnection.t :=
  let n := S (HubConnection.droppedSinceOverflowWarn c) in
  if bool_decide (now - HubConnection.lastOverflowWarnAt c < OVERFLOW_WARN_INTERVAL_MS)%Z
  then HubConnection.set_warned n (HubConnection.lastOverflowWarnAt c) c
  else HubConnection.set_warned 0 now c.

(** [queue.splice(dropIndex >= 0 ? dropIndex : 0, 1)] *)
Definition drop_one (q : list HubEnvelope.t) : list HubEnvelope.t := delete (default 0 (first_index droppable q)) q.

(** [while (recent.length > MAX_RECENT_SIZE) recent.shift()] *)
Definition keep_recent (l : list HubEnvelope.t) : list HubEnvelope.t := drop (length l - MAX_RECENT_SIZE) l.

Definition pushEnvelope (now : Z) (topic : string) (e : HubEvent.t) (c : HubConnection.t) : HubConnection.t :=
  if HubConnection.closed c then c else
  match replaceQueuedSnapshot topic e c with
  | Some c' => c'
  | None =>
      let envelope := HubEnvelope.mk topic (HubConnection.nextSeq c) e in
      let full := bool_decide (MAX_QUEUE_SIZE ≤ length (HubConnection.queue c)) in
      let queue := if full then drop_one (HubConnection.queue c) else HubConnection.queue c in
      let c1 := HubConnection.set_nextSeq (HubConnection.nextSeq c + 1)
                  (if full then warnQueueOverflow now c else c) in
      HubConnection.set_buffers (queue ++ [envelope]) (keep_recent (HubConnection.recent c ++ [envelope])) c1
  end.

(** ** The hub *)

Record listener := mkListener { l_id : nat; l_topic : string; l_conn : nat }.

(** A call of [setSubscriptions] in progress: the topic whose snapshot it waits
    for, and those that remain. *)
Record sub_task := mkSubTask { tk_conn : nat; tk_waiting : option string; tk_rest : list string }.

Record hub := mkHub {
  conns : list HubConnection.t;
  connections : gmap (string * string) nat;
  lingerByKey : gmap string LingerBuffer.t;
  bus : list listener;
  nextListener : nat;
  activeHubs : gmap string nat;
  pendingTopics : gmap string (list string);
  sub_tasks : list sub_task
}.

Definition hub_empty : hub := mkHub [] ∅ ∅ [] 0 ∅ ∅ [].

Definition set_conns (l : list HubConnection.t) (h : hub) : hub :=
  mkHub l (connections h) (lingerByKey h) (bus h) (nextListener h) (activeHubs h) (pendingTopics h) (sub_tasks h).
Definition set_connections (m : gmap (string * string) nat) (h : hub) : hub :=
  mkHub (conns h) m (lingerByKey h) (bus h) (nextListener h) (activeHubs h) (pendingTopics h) (sub_tasks h).
Definition set_linger (m : gmap string LingerBuffer.t) (h : hub) : hub :=
  mkHub (conns h) (connections h) m (bus h) (nextListener h) (activeHubs h) (pendingTopics h) (sub_tasks h).
Definition set_bus (l : list listener) (n : nat) (h : hub) : hub :=
  mkHub (conns h) (connections h) (lingerByKey h) l n (activeHubs h) (pendingTopics h) (sub_tasks h).
Definition set_routes (a : gmap string nat) (p : gmap string (list string)) (h : hub) : hub :=
  mkHub (conns h) (connections h) (lingerByKey h) (bus h) (nextListener h) a p (sub_tasks h).
Definition set_tasks (l : list sub_task) (h : hub) : hub :=
  mkHub (conns h) (connections h) (lingerByKey h) (bus h) (nextListener h) (activeHubs h) (pendingTopics h) l.

Definition with_conn (ref : nat) (f : HubConnection.t → HubConnection.t) (h : hub) : hub :=
  set_conns (alter f ref (conns h)) h.

(** The function [subscribe] returns, given by its listener. *)
Definition bus_remove (ids : list nat) (h : hub) : hub :=
  set_bus (List.filter (λ l, negb (bool_decide (l_id l ∈ ids))) (bus h)) (nextListener h) h.

Definition teardownSubscriptions (ref : nat) (h : hub) : hub :=
  match conns h !! ref with
  | None => h
  | Some c =>
      with_conn ref (HubConnection.set_topics [] ∅)
        (bus_remove (map snd (map_to_list (HubConnection.unsubByTopic c))) h)
  end.

(** ** Lingering buffers *)

Definition pruneLinger (now : Z) (h : hub) : hub :=
  set_linger (filter (λ kv, now < LingerBuffer.expiresAt kv.2)%Z (lingerByKey h)) h.

Definition saveLinger (now : Z) (c : HubConnection.t) (h : hub) : hub :=
  let h1 := pruneLinger now h in
  set_linger (<[connectionKey (HubConnection.username c) (HubConnection.connectionId c) :=
    LingerBuffer.mk (HubConnection.recent c) (HubConnection.nextSeq c) (now + RECENT_LINGER_MS)]> (lingerByKey h1)) h1.

Definition takeLinger (now : Z) (username connectionId : string) (h : hub) : option LingerBuffer.t * hub :=
  let h1 := pruneLinger now h in
  let key := connectionKey username connectionId in
  match lingerByKey h1 !! key with
  | None => (None, h1)
  | Some buf => (Some buf, set_linger (delete key (lingerByKey h1)) h1)
  end.

Definition closeConnection (now : Z) (ref : nat) (h : hub) : hub :=
  match conns h !! ref with
  | None => h
  | Some c =>
      if HubConnection.closed c then h else
      let h1 := saveLinger now c (with_conn ref HubConnection.set_closed h) in
      let h2 := teardownSubscriptions ref h1 in
      set_connections (delete (HubConnection.username c, HubConnection.connectionId c) (connections h2)) h2
  end.

(** ** Registration *)

(** What a reconnecting client may be served from. *)
Definition replay_source : Type := option (list HubEnvelope.t * Z).

Definition tryReplayFromLastEventId (source : replay_source) (lastEventId : option Z) (c : HubConnection.t) :
    bool * HubConnection.t :=
  match lastEventId with
  | None => (true, c)
  | Some last =>
      if bool_decide (last ≤ 0)%Z then (true, c) else
      match source with
      | None => (false, c)
      | Some (recent, nextSeq) =>
          let c1 := HubConnection.set_nextSeq nextSeq c in
          if bool_decide (last + 1 = nextSeq)%Z then (true, c1)
          else if bool_decide (nextSeq < last + 1)%Z then (false, c1)
          else match recent with
               | [] => (false, c1)
               | oldest :: _ =>
                   if bool_decide (last + 1 < HubEnvelope.seq oldest)%Z then (false, c1)
                   else
                     let missed := List.filter (λ item, bool_decide (last < HubEnvelope.seq item)%Z) recent in
                     (true, HubConnection.set_buffers (HubConnection.queue c1 ++ missed)
                              (HubConnection.recent c1 ++ missed) c1)
               end
      end
  end.

Definition resync_event : HubEvent.t := HubEvent.mk "resync" (JObj [("reason", JStr "gap")]).

(** The open connection with this id. *)
Definition prior_connection (username connectionId : string) (h : hub) : option (nat * HubConnection.t) :=
  ref ← connections h !! (username, connectionId);
  c ← conns h !! ref;
  if HubConnection.closed c then None else Some (ref, c).

(** The id of the connection is given: the routes always pass one. *)
Definition registerJobHubConnection (now : Z) (username connectionId : string) (lastEventId : option Z) (h : hub) :
    nat * hub :=
  let prior := prior_connection username connectionId h in
  let '(linger, h1) := takeLinger now username connectionId h in
  let source : replay_source :=
    match prior with
    | Some (_, p) => Some (HubConnection.recent p, HubConnection.nextSeq p)
    | None => (λ b, (LingerBuffer.recent b, LingerBuffer.nextSeq b)) <$> linger
    end in
  let conn := HubConnection.mk username connectionId [] ∅ [] [] (default 1%Z (snd <$> source)) 0 0 false in
  let '(replayOk, conn1) := tryReplayFromLastEventId source lastEventId conn in
  let h2 := match prior with
            | Some (ref, _) => teardownSubscriptions ref (with_conn ref HubConnection.set_closed h1)
            | None => h1
            end in
  let conn2 := if replayOk then conn1 else pushEnvelope now (jobTopic "resync") resync_event conn1 in
  let ref := length (conns h2) in
  (ref, set_connections (<[(username, connectionId) := ref]> (connections h2)) (set_conns (conns h2 ++ [conn2]) h2)).

(** ** Subscriptions *)

Definition unsubscribe_topic (ref : nat) (topic : string) (h : hub) : hub :=
  match conns h !! ref with
  | None => h
  | Some c =>
      with_conn ref (λ c, HubConnection.set_topics
          (List.filter (λ x, negb (bool_decide (x = topic))) (HubConnection.subscribedTopics c))
          (delete topic (HubConnection.unsubByTopic c)) c)
        (bus_remove (option_list (HubConnection.unsubByTopic c !! topic)) h)
  end.

(** [setSubscriptions] up to its loop. *)
Definition setSubscriptions (ref : nat) (topics : list string) (h : hub) : hub :=
  match conns h !! ref with
  | None => h
  | Some c =>
      if HubConnection.closed c then h else
      let next := distinct topics in
      let dropped := List.filter (λ t, negb (bool_decide (t ∈ next))) (HubConnection.subscribedTopics c) in
      let h1 := foldl (λ h t, unsubscribe_topic ref t h) h dropped in
      set_tasks (sub_tasks h1 ++ [mkSubTask ref None next]) h1
  end.

Definition job_status_of (job : json) : string :=
  match json_get "status" job with Some (JStr s) => s | _ => "" end.

(** [{ job: job }], a field that may be undefined. *)
Definition field (key : string) (v : option json) : json :=
  JObj (match v with Some x => [(key, x)] | None => [] end).

(** The pushes of [pushJobSnapshots] for a job that was found. *)
Definition job_snapshots (now : Z) (topic : string) (job : json) (c : HubConnection.t) : HubConnection.t :=
  let push ev data := pushEnvelope now topic (HubEvent.mk ev data) in
  let c3 := push "task_progress" (field "taskProgress" (json_get "taskProgress" job))
              (push "plan_progress" (field "planProgress" (json_get "planProgress" job))
                 (push "job_snapshot" (field "job" (Some job)) c)) in
  if bool_decide (job_status_of job ∈ ["completed"; "failed"; "cancelled"])
  then push "job_done" (field "job" (Some job)) c3 else c3.

Definition add_topic (topic : string) (c : HubConnection.t) : HubConnection.t :=
  HubConnection.set_topics
    (if bool_decide (topic ∈ HubConnection.subscribedTopics c) then HubConnection.subscribedTopics c
     else HubConnection.subscribedTopics c ++ [topic]) (HubConnection.unsubByTopic c) c.

(** [bus.subscribe(..)] and [unsubByTopic.set(..)] *)
Definition bus_subscribe (ref : nat) (topic : string) (h : hub) : hub :=
  let id := nextListener h in
  with_conn ref (λ c, HubConnection.set_topics (HubConnection.subscribedTopics c)
      (<[topic := id]> (HubConnection.unsubByTopic c)) c)
    (set_bus (bus h ++ [mkListener id topic ref]) (S id) h).

(** The body of the loop after its [await]; [found] is the snapshot, if there is
    one. *)
Definition attach_topic (now : Z) (ref : nat) (topic : string) (found : option json) (h : hub) : hub :=
  match found with
  | None => h
  | Some x =>
      if bool_decide (is_Some (jobIdFromTopic topic)) then
        let h1 := with_conn ref (λ c, add_topic topic (job_snapshots now topic x c)) h in
        if jobHubTerminalStatus (job_status_of x) then h1 else bus_subscribe ref topic h1
      else
        let '(event, key) := if bool_decide (is_Some (threadIdFromTopic topic)) then ("thread_snapshot", "thread")
                             else ("turn_snapshot", "turn") in
        bus_subscribe ref topic
          (with_conn ref (λ c, add_topic topic (pushEnvelope now topic (HubEvent.mk event (field key (Some x))) c)) h)
  end.

Definition has_id (topic : string) : bool :=
  bool_decide (is_Some (jobIdFromTopic topic)) || bool_decide (is_Some (threadIdFromTopic topic)) ||
  bool_decide (is_Some (turnIdFromTopic topic)).

(** One step of the [i]-th call in progress. *)
Definition task_step (now : Z) (i : nat) (found : option json) (h : hub) : hub :=
  match sub_tasks h !! i with
  | None => h
  | Some t =>
      let continue_with t' h := set_tasks (<[i := t']> (sub_tasks h)) h in
      match tk_waiting t with
      | Some topic =>
          continue_with (mkSubTask (tk_conn t) None (tk_rest t)) (attach_topic now (tk_conn t) topic found h)
      | None =>
          match tk_rest t with
          | [] => set_tasks (delete i (sub_tasks h)) h
          | topic :: rest =>
              let subscribed := match conns h !! tk_conn t with
                                | Some c => bool_decide (topic ∈ HubConnection.subscribedTopics c)
                                | None => false
                                end in
              if subscribed || negb (has_id topic) || bool_decide (jobIdFromTopic topic = Some "resync")
              then continue_with (mkSubTask (tk_conn t) None rest) h
              else continue_with (mkSubTask (tk_conn t) (Some topic) rest) h
          end
      end
  end.

(** ** The bus *)

Definition event_terminal (topic : string) (e : HubEvent.t) : bool :=
  bool_decide (is_Some (jobIdFromTopic topic)) &&
  bool_decide (HubEvent.event e ∈ ["job_snapshot"; "job_done"]) &&
  jobHubTerminalStatus (match json_get "job" (HubEvent.data e) with Some job => job_status_of job | None => "" end).

(** A listener, if it has not been removed meanwhile. *)
Definition call_listener (now : Z) (topic : string) (e : HubEvent.t) (h : hub) (l : listener) : hub :=
  if bool_decide (l_id l ∈ map l_id (bus h)) then
    let h1 := with_conn (l_conn l) (pushEnvelope now topic e) h in
    if event_terminal topic e then unsubscribe_topic (l_conn l) topic h1 else h1
  else h.

Definition emit (now : Z) (topic : string) (e : HubEvent.t) (h : hub) : hub :=
  foldl (call_listener now topic e) h (List.filter (λ l, bool_decide (l_topic l = topic)) (bus h)).

Definition clearTopic (topic : string) (h : hub) : hub :=
  set_bus (List.filter (λ l, negb (bool_decide (l_topic l = topic))) (bus h)) (nextListener h) h.

(** ** Streams and routes *)

(** [yield conn.queue.shift()] *)
Definition deliver (ref : nat) (h : hub) : option HubEnvelope.t * hub :=
  match conns h !! ref with
  | Some c =>
      match HubConnection.queue c with
      | e :: rest => (Some e, with_conn ref (HubConnection.set_buffers rest (HubConnection.recent c)) h)
      | [] => (None, h)
      end
  | None => (None, h)
  end.

Definition countActiveSseClientsForUser (keys : list string) (username : string) : nat :=
  length (List.filter (λ k, startsWith k (username +:+ "::")) keys).

Definition handleStream (maxClientsPerUser : nat) (now : Z) (username connectionId : string) (lastEventId : option Z)
    (h : hub) : result string (nat * hub) :=
  if bool_decide (maxClientsPerUser ≤ countActiveSseClientsForUser (map fst (map_to_list (activeHubs h))) username)
  then Err "events.sse_client_limit"
  else
    let '(ref, h1) := registerJobHubConnection now username connectionId lastEventId h in
    let key := connectionKey username connectionId in
    let h2 := set_routes (<[key := ref]> (activeHubs h1)) (pendingTopics h1) h1 in
    match pendingTopics h2 !! key with
    | Some queued => Ok (ref, setSubscriptions ref queued (set_routes (activeHubs h2) (delete key (pendingTopics h2)) h2))
    | None => Ok (ref, h2)
    end.

(** The end of a stream, its generator and the [finally] of the route. *)
Definition stream_end (now : Z) (ref : nat) (h : hub) : hub :=
  match conns h !! ref with
  | None => h
  | Some c =>
      let h1 := closeConnection now ref h in
      set_routes (delete (connectionKey (HubConnection.username c) (HubConnection.connectionId c)) (activeHubs h1))
        (pendingTopics h1) h1
  end.

(** The topics were checked to belong to the user. *)
Definition handleSubscriptions (username connectionId : string) (topics : list string) (h : hub) : hub :=
  let key := connectionKey username connectionId in
  match activeHubs h !! key with
  | Some ref => setSubscriptions ref topics h
  | None => set_routes (activeHubs h) (<[key := topics]> (pendingTopics h)) h
  end.

Inductive hub_step (max : nat) (h : hub) : hub → Prop :=
| hub_stream now username connectionId lastEventId ref h' :
    handleStream max now username connectionId lastEventId h = Ok (ref, h') → hub_step max h h'
| hub_end now ref : hub_step max h (stream_end now ref h)
| hub_subscribe username connectionId topics : hub_step max h (handleSubscriptions username connectionId topics h)
| hub_task now i found : hub_step max h (task_step now i found h)
| hub_task_fails i : hub_step max h (set_tasks (delete i (sub_tasks h)) h)
| hub_emit now topic e : hub_step max h (emit now topic e h)
| hub_clear topic : hub_step max h (clearTopic topic h)
| hub_deliver ref : hub_step max h (deliver ref h).2.

Definition hub_reachable (max : nat) (h : hub) : Prop := rtc (hub_step max) hub_empty h.

(** ** Buffers *)

Definition seqs (l : list HubEnvelope.t) : list Z := map HubEnvelope.seq l.

Notation increasing l := (StronglySorted Z.lt (seqs l)).

(** The envelopes kept for a replay have consecutive numbers up to the next. *)
Record buffer_ok (recent : list HubEnvelope.t) (nextSeq : Z) : Prop := {
  buf_recent : ∀ i e, recent !! i = Some e → HubEnvelope.seq e = (nextSeq - Z.of_nat (length recent) + Z.of_nat i)%Z;
  buf_positive : (1 ≤ nextSeq - Z.of_nat (length recent))%Z;
  buf_length : length recent ≤ MAX_RECENT_SIZE
}.

Record conn_ok (c : HubConnection.t) : Prop := {
  ok_buffer : buffer_ok (HubConnection.recent c) (HubConnection.nextSeq c);
  ok_increasing : increasing (HubConnection.queue c);
  ok_below : ∀ e, e ∈ HubConnection.queue c → (HubEnvelope.seq e < HubConnection.nextSeq c)%Z;
  ok_length : length (HubConnection.queue c) ≤ MAX_QUEUE_SIZE;
  ok_kept : ∀ e, e ∈ HubConnection.queue c →
    (HubConnection.nextSeq c - Z.of_nat (length (HubConnection.recent c)) ≤ HubEnvelope.seq e)%Z →
    e ∈ HubConnection.recent c
}.

Lemma sorted_sublist {A} (R : relation A) l k : sublist l k → StronglySorted R k → StronglySorted R l.
Proof.
  induction 1 as [|x l k Hl IH|x l k _ IH]; intros Hk; [done| |].
  - apply StronglySorted_inv in Hk as [Hk Hx]. constructor; [by apply IH|].
    apply List.Forall_forall. intros y Hy%list_elem_of_In. rewrite List.Forall_forall in Hx.
    apply Hx, list_elem_of_In. by eapply elem_of_sublist.
  - apply StronglySorted_inv in Hk as [Hk _]. by apply IH.
Qed.

Lemma sublist_seqs l k : sublist l k → sublist (seqs l) (seqs k).
Proof. induction 1; cbn; by constructor. Qed.

Lemma seqs_same_seq i x y l : l !! i = Some y → HubEnvelope.seq x = HubEnvelope.seq y → seqs (<[i := x]> l) = seqs l.
Proof.
  intros Hi Hs. unfold seqs. change (map HubEnvelope.seq ?k) with (HubEnvelope.seq <$> k).
  rewrite list_fmap_insert, Hs. apply list_insert_id. by rewrite list_lookup_fmap, Hi.
Qed.

Lemma find_last_index_some {A} (p : A → bool) l i : find_last_index p l = Some i → ∃ x, l !! i = Some x ∧ p x = true.
Proof.
  revert i. induction l as [|x l IH]; intros i; cbn; [done|]. destruct (find_last_index p l) as [j|].
  - intros [= <-]. by destruct (IH j eq_refl) as (y & ? & ?); exists y.
  - destruct (p x) eqn:E; [|done]. intros [= <-]. by exists x.
Qed.

Lemma first_index_some {A} (p : A → bool) l i : first_index p l = Some i →
  (∃ x, l !! i = Some x ∧ p x = true) ∧ ∀ j y, j < i → l !! j = Some y → p y = false.
Proof.
  revert i. induction l as [|x l IH]; intros i; cbn; [done|]. destruct (p x) eqn:E.
  - intros [= <-]. split; [by exists x|]. intros. lia.
  - intros (j & Hj & ->)%fmap_Some. destruct (IH j Hj) as [? Hbefore]. split; [done|].
    intros [|k] y Hk; cbn; [by intros [= <-]|]. apply Hbefore. lia.
Qed.

Lemma first_index_none {A} (p : A → bool) l : first_index p l = None → ∀ x, x ∈ l → p x = false.
Proof.
  induction l as [|y l IH]; cbn; [by intros _ x ?%not_elem_of_nil|]. destruct (p y) eqn:E; [done|].
  destruct (first_index p l); [done|]. intros _ x [->|Hx]%elem_of_cons; [done|]. by apply IH.
Qed.

(** Numbers identify the kept envelopes. *)
Lemma buffer_inj r n i j a b : buffer_ok r n → r !! i = Some a → r !! j = Some b →
  HubEnvelope.seq a = HubEnvelope.seq b → i = j.
Proof. intros [Hr _ _] Ha%Hr Hb%Hr. lia. Qed.

Lemma replace_seq_length x l : length (replace_seq x l) = length l.
Proof. unfold replace_seq. destruct (first_index _ l); [apply length_insert|done]. Qed.

Lemma replace_seq_lookup x l i e : replace_seq x l !! i = Some e →
  (e = x ∧ ∃ y, l !! i = Some y ∧ HubEnvelope.seq y = HubEnvelope.seq x) ∨ l !! i = Some e.
Proof.
  unfold replace_seq. destruct (first_index _ l) as [j|] eqn:E; [|by right].
  apply first_index_some in E as [(y & Hy & Hs%bool_decide_eq_true) _].
  intros [(-> & <- & _)|[_ He]]%list_lookup_insert_Some; [left|by right]. split; [done|]. by exists y.
Qed.

Lemma buffer_replaced x r n : buffer_ok r n → buffer_ok (replace_seq x r) n.
Proof.
  intros [Hr Hp Hl]. split; rewrite ?replace_seq_length; [|done..].
  intros i e [(-> & y & Hy%Hr & <-)|He%Hr]%replace_seq_lookup; lia.
Qed.

(** A kept envelope stays, or its replacement does. *)
Lemma replace_seq_keeps x r e : e ∈ r →
  e ∈ replace_seq x r ∨ HubEnvelope.seq e = HubEnvelope.seq x.
Proof.
  intros [i Hi]%list_elem_of_lookup. unfold replace_seq. destruct (first_index _ r) as [j|] eqn:E.
  - apply first_index_some in E as [(y & Hy & Hs%bool_decide_eq_true) _].
    destruct (decide (i = j)) as [->|Hne]; [right; congruence|left].
    apply list_elem_of_lookup. exists i. by rewrite list_lookup_insert_ne.
  - left. apply list_elem_of_lookup. eauto.
Qed.

Lemma replace_seq_has x r e : e ∈ r → HubEnvelope.seq e = HubEnvelope.seq x → x ∈ replace_seq x r.
Proof.
  intros He Hs. unfold replace_seq. destruct (first_index _ r) as [j|] eqn:E.
  - apply first_index_some in E as [(y & Hy & _) _]. apply list_elem_of_lookup. exists j.
    apply list_lookup_insert_eq. by apply lookup_lt_Some in Hy.
  - apply first_index_none with (x := e) in E; [|done]. by apply bool_decide_eq_false in E.
Qed.

Lemma increasing_lookup l i j a b : increasing l → l !! i = Some a → l !! j = Some b → i < j →
  (HubEnvelope.seq a < HubEnvelope.seq b)%Z.
Proof.
  intros Hl Ha Hb. apply (sorted_lookup _ _ _ _ _ _ Hl); unfold seqs.
  - change (map HubEnvelope.seq l) with (HubEnvelope.seq <$> l). by rewrite list_lookup_fmap, Ha.
  - change (map HubEnvelope.seq l) with (HubEnvelope.seq <$> l). by rewrite list_lookup_fmap, Hb.
Qed.

Lemma replaced_ok topic e c c' : conn_ok c → replaceQueuedSnapshot topic e c = Some c' → conn_ok c'.
Proof.
  intros [Hb Hi Hlt Hlen Hk]. unfold replaceQueuedSnapshot. destruct (negb _); [done|].
  destruct (find_last_index _ _) as [i|]; cbn; [|done].
  destruct (HubConnection.queue c !! i) as [y|] eqn:Hy; cbn; [|done]. intros [= <-].
  set (x := HubEnvelope.mk topic (HubEnvelope.seq y) e). split; cbn.
  - by apply buffer_replaced.
  - by rewrite (seqs_same_seq _ _ _ _ Hy).
  - intros z [j [(-> & <- & _)|[_ Hz]]%list_lookup_insert_Some]%list_elem_of_lookup.
    + apply (Hlt y). apply list_elem_of_lookup. eauto.
    + apply Hlt, list_elem_of_lookup. eauto.
  - by rewrite length_insert.
  - rewrite replace_seq_length. intros z [j [(-> & <- & _)|[Hne Hz]]%list_lookup_insert_Some]%list_elem_of_lookup Hle.
    + apply (replace_seq_has _ _ y); [|done]. apply Hk; [apply list_elem_of_lookup; eauto|done].
    + destruct (replace_seq_keeps x (HubConnection.recent c) z) as [Hin|Hs]; [|done|].
      * apply Hk; [apply list_elem_of_lookup; eauto|done].
      * exfalso. cbn in Hs. destruct (lt_eq_lt_dec j i) as [[H|H]|H]; [| by symmetry in H|].
        -- pose proof (increasing_lookup _ _ _ _ _ Hi Hz Hy H). lia.
        -- pose proof (increasing_lookup _ _ _ _ _ Hi Hy Hz H). lia.
Qed.

Lemma keep_recent_ok r n topic e : buffer_ok r n →
  buffer_ok (keep_recent (r ++ [HubEnvelope.mk topic n e])) (n + 1).
Proof.
  intros [Hr Hp Hl]. unfold keep_recent. set (x := HubEnvelope.mk topic n e). rewrite length_app. cbn [length].
  unfold MAX_RECENT_SIZE in *. split.
  - intros i a. rewrite length_drop, length_app, lookup_drop. cbn [length].
    intros [Ha|[Hle Ha]]%lookup_app_Some.
    + apply lookup_lt_Some in Ha as Hlt. apply Hr in Ha. lia.
    + apply lookup_lt_Some in Ha as Hlt. cbn in Hlt.
      replace (length r + 1 - 256 + i - length r) with 0 in Ha by lia. injection Ha as <-. cbn. lia.
  - rewrite length_drop, length_app. cbn [length]. lia.
  - rewrite length_drop, length_app. cbn [length]. unfold MAX_RECENT_SIZE. lia.
Qed.

Lemma drop_one_sublist q : sublist (drop_one q) q.
Proof. apply sublist_delete. Qed.

Lemma drop_one_length q : MAX_QUEUE_SIZE ≤ length q → length (drop_one q) = length q - 1.
Proof.
  intros Hq. unfold drop_one, MAX_QUEUE_SIZE in *. apply length_delete.
  destruct (first_index droppable q) as [i|] eqn:E; cbn.
  - apply first_index_some in E as [(x & Hx & _) _]. by exists x.
  - apply lookup_lt_is_Some. lia.
Qed.

(** What [pushEnvelope] keeps of a connection. *)
Definition appended (now : Z) (topic : string) (e : HubEvent.t) (c c' : HubConnection.t) : Prop :=
  ∃ q, sublist q (HubConnection.queue c) ∧ length q < MAX_QUEUE_SIZE ∧
    (length (HubConnection.queue c) < MAX_QUEUE_SIZE → q = HubConnection.queue c) ∧
    HubConnection.queue c' = q ++ [HubEnvelope.mk topic (HubConnection.nextSeq c) e] ∧
    HubConnection.recent c' = keep_recent (HubConnection.recent c ++ [HubEnvelope.mk topic (HubConnection.nextSeq c) e]) ∧
    HubConnection.nextSeq c' = (HubConnection.nextSeq c + 1)%Z.

Lemma appended_ok now topic e c c' : conn_ok c → appended now topic e c c' → conn_ok c'.
Proof.
  intros [Hb Hi Hlt Hlen Hk] (q & Hsub & Hq & _ & Hqueue & Hrecent & Hnext).
  pose proof (keep_recent_ok _ _ topic e Hb) as Hb'. split; rewrite ?Hqueue, ?Hrecent, ?Hnext.
  - done.
  - unfold seqs. rewrite map_app. apply StronglySorted_app_2.
    + intros a b (x & -> & Hx)%list_elem_of_fmap ->%list_elem_of_singleton. apply Hlt. by eapply elem_of_sublist.
    + eapply sorted_sublist; [|exact Hi]. by apply sublist_seqs.
    + repeat constructor.
  - intros x [Hx| ->%list_elem_of_singleton]%elem_of_app; [|cbn; lia].
    specialize (Hlt x). apply Z.lt_lt_succ_r, Hlt. by eapply elem_of_sublist.
  - rewrite length_app. cbn. lia.
  - set (r := HubConnection.recent c ++ [HubEnvelope.mk topic (HubConnection.nextSeq c) e]).
    assert (∀ x, x ∈ r → (HubConnection.nextSeq c + 1 - Z.of_nat (length (keep_recent r)) ≤ HubEnvelope.seq x)%Z →
      x ∈ keep_recent r) as Hkeep.
    { intros x [i Hi']%list_elem_of_lookup Hle. apply list_elem_of_lookup. unfold keep_recent in *.
      assert (HubEnvelope.seq x = HubConnection.nextSeq c - Z.of_nat (length (HubConnection.recent c)) + Z.of_nat i)%Z as Hs.
      { unfold r in Hi'. apply lookup_app_Some in Hi' as [Ha|[Hge Ha]].
        - by apply (buf_recent _ _ Hb).
        - apply lookup_lt_Some in Ha as Hl. cbn in Hl. assert (i = length (HubConnection.recent c)) as -> by lia.
          rewrite Nat.sub_diag in Ha. injection Ha as <-. cbn. lia. }
      rewrite length_drop in Hle. unfold r in Hle. rewrite length_app in Hle. cbn in Hle.
      exists (i - (length r - MAX_RECENT_SIZE)). rewrite lookup_drop. unfold r. rewrite length_app. cbn [length].
      rewrite <-Hi'. unfold r. f_equal. unfold MAX_RECENT_SIZE in *. lia. }
    intros x [Hx| ->%list_elem_of_singleton]%elem_of_app Hle; apply Hkeep; try done.
    + apply elem_of_app. left. apply Hk; [by eapply elem_of_sublist|].
      pose proof (buf_length _ _ Hb) as Hrl. unfold keep_recent, r in Hle. rewrite length_drop, length_app in Hle.
      cbn [length] in Hle. unfold MAX_RECENT_SIZE in *. lia.
    + apply elem_of_app. right. by apply list_elem_of_singleton.
Qed.

Lemma push_cases now topic e c :
  HubConnection.closed c = true ∧ pushEnvelope now topic e c = c ∨
  HubConnection.closed c = false ∧
    (replaceQueuedSnapshot topic e c = Some (pushEnvelope now topic e c) ∨
     length (HubConnection.queue c) ≤ MAX_QUEUE_SIZE ∧ appended now topic e c (pushEnvelope now topic e c) ∨
     MAX_QUEUE_SIZE < length (HubConnection.queue c)).
Proof.
  unfold pushEnvelope. destruct (HubConnection.closed c); [by left|right]. split; [done|].
  destruct (replaceQueuedSnapshot topic e c) as [c'|]; [by left|right].
  destruct (le_lt_dec (length (HubConnection.queue c)) MAX_QUEUE_SIZE) as [Hle|Hlt]; [left|by right].
  split; [done|]. case_bool_decide as Hfull.
  - exists (drop_one (HubConnection.queue c)). split; [apply drop_one_sublist|].
    split; [rewrite drop_one_length by done; unfold MAX_QUEUE_SIZE in *; lia|]. split; [lia|].
    unfold warnQueueOverflow. by case_bool_decide.
  - exists (HubConnection.queue c). split; [done|]. split; [lia|]. by split.
Qed.

(** ** Steps that do not open or close connections *)

(** All queued envelopes, and all to come, have larger numbers. *)
Definition beyond (b : Z) (c : HubConnection.t) : Prop :=
  (b < HubConnection.nextSeq c)%Z ∧ ∀ e, e ∈ HubConnection.queue c → (b < HubEnvelope.seq e)%Z.

Record quiet_conn (c c' : HubConnection.t) : Prop := {
  qc_username : HubConnection.username c' = HubConnection.username c;
  qc_connectionId : HubConnection.connectionId c' = HubConnection.connectionId c;
  qc_closed : HubConnection.closed c' = HubConnection.closed c;
  qc_frozen : HubConnection.closed c = true →
    HubConnection.recent c' = HubConnection.recent c ∧ HubConnection.nextSeq c' = HubConnection.nextSeq c;
  qc_ok : conn_ok c → conn_ok c' ∧ ∀ b, beyond b c → beyond b c'
}.

#[export] Instance quiet_conn_preorder : PreOrder quiet_conn.
Proof.
  split.
  - intros c. split; auto.
  - intros a b c [U1 I1 C1 F1 O1] [U2 I2 C2 F2 O2]. split; [congruence..| |].
    + intros H. destruct (F1 H) as [<- <-]. apply F2. by rewrite C1.
    + intros H. destruct (O1 H) as [Hb H1]. destruct (O2 Hb) as [Hc H2]. auto.
Qed.

Lemma replaced_beyond topic e c c' b : beyond b c → replaceQueuedSnapshot topic e c = Some c' → beyond b c'.
Proof.
  intros [Hn Hq]. unfold replaceQueuedSnapshot. destruct (negb _); [done|].
  destruct (find_last_index _ _) as [i|]; cbn; [|done].
  destruct (HubConnection.queue c !! i) as [y|] eqn:Hy; cbn; [|done]. intros [= <-]. split; [done|]. cbn.
  intros z [j [(_ & <- & _)|[_ Hz]]%list_lookup_insert_Some]%list_elem_of_lookup;
    [apply (Hq y)|apply Hq]; apply list_elem_of_lookup; eauto.
Qed.

Lemma replaced_same topic e c c' : replaceQueuedSnapshot topic e c = Some c' →
  HubConnection.username c' = HubConnection.username c ∧ HubConnection.connectionId c' = HubConnection.connectionId c ∧
  HubConnection.closed c' = HubConnection.closed c.
Proof.
  unfold replaceQueuedSnapshot. destruct (negb _); [done|]. destruct (find_last_index _ _) as [i|]; cbn; [|done].
  destruct (HubConnection.queue c !! i); cbn; [|done]. by intros [= <-].
Qed.

Lemma push_same now topic e c :
  HubConnection.username (pushEnvelope now topic e c) = HubConnection.username c ∧
  HubConnection.connectionId (pushEnvelope now topic e c) = HubConnection.connectionId c ∧
  HubConnection.closed (pushEnvelope now topic e c) = HubConnection.closed c.
Proof.
  unfold pushEnvelope. destruct (HubConnection.closed c) eqn:Hc; [done|].
  destruct (replaceQueuedSnapshot topic e c) as [c'|] eqn:E.
  - apply replaced_same in E. by rewrite <-Hc.
  - unfold warnQueueOverflow. by repeat case_bool_decide.
Qed.

Lemma quiet_push now topic e c : quiet_conn c (pushEnvelope now topic e c).
Proof.
  destruct (push_same now topic e c) as (Hu & Hi & Hcl). split; [done..| |].
  - intros Hc. destruct (push_cases now topic e c) as [[_ ->]|[Hc' _]]; [done|congruence].
  - intros Hok. destruct (push_cases now topic e c) as [[_ ->]|[_ [E|[[_ Ha]|Hlt]]]].
    + by split.
    + split; [by eapply replaced_ok|]. intros b Hb. by eapply replaced_beyond.
    + split; [by eapply appended_ok|]. intros b [Hn Hq]. destruct Ha as (q & Hsub & _ & _ & Hqueue & _ & Hnext).
      split; rewrite ?Hnext, ?Hqueue; [lia|].
      intros x [Hx| ->%list_elem_of_singleton]%elem_of_app; [|done]. apply Hq. by eapply elem_of_sublist.
    + pose proof (ok_length _ Hok). lia.
Qed.

Lemma quiet_topics l u c : quiet_conn c (HubConnection.set_topics l u c).
Proof. split; [done..|by split|]. intros [H1 H2 H3 H4 H5]. by split. Qed.

Lemma quiet_deliver e rest c : HubConnection.queue c = e :: rest →
  quiet_conn c (HubConnection.set_buffers rest (HubConnection.recent c) c).
Proof.
  intros Hq. split; [done..|by split|]. intros [H1 H2 H3 H4 H5]. rewrite Hq in *.
  assert (∀ x, x ∈ rest → x ∈ e :: rest) as Hin by (intros; apply elem_of_cons; by right).
  split; [split; cbn; eauto|].
  - apply (StronglySorted_inv (l := seqs rest)) in H2 as [H2 _]. exact H2.
  - cbn in H4. lia.
  - intros b [Hn Hb]. rewrite Hq in Hb. split; [done|]. cbn. auto.
Qed.

Record quiet (h h' : hub) : Prop := {
  q_conns : Forall2 quiet_conn (conns h) (conns h');
  q_connections : connections h' = connections h;
  q_linger : lingerByKey h' = lingerByKey h
}.

#[export] Instance quiet_preorder : PreOrder quiet.
Proof.
  split.
  - intros h. split; [by apply reflexivity|done..].
  - intros a b c [C1 M1 L1] [C2 M2 L2]. split; [by etransitivity|congruence..].
Qed.

Lemma quiet_with_conn ref f h : (∀ c, conns h !! ref = Some c → quiet_conn c (f c)) → quiet h (with_conn ref f h).
Proof.
  intros Hf. split; [|done..]. cbn. apply Forall2_alter_r; [by apply reflexivity|].
  intros c c' Hc Hc' Hq. assert (c' = c) as -> by congruence. by apply Hf.
Qed.

Lemma quiet_bus l n h : quiet h (set_bus l n h).
Proof. split; [by apply reflexivity|done..]. Qed.
Lemma quiet_tasks l h : quiet h (set_tasks l h).
Proof. split; [by apply reflexivity|done..]. Qed.
Lemma quiet_routes a p h : quiet h (set_routes a p h).
Proof. split; [by apply reflexivity|done..]. Qed.
Lemma quiet_bus_remove ids h : quiet h (bus_remove ids h).
Proof. apply quiet_bus. Qed.

#[local] Hint Resolve quiet_bus quiet_tasks quiet_routes quiet_bus_remove quiet_topics quiet_push : hub.

Lemma quiet_trans h1 h2 h3 : quiet h1 h2 → quiet h2 h3 → quiet h1 h3.
Proof. apply transitivity. Qed.

Lemma quiet_unsubscribe ref topic h : quiet h (unsubscribe_topic ref topic h).
Proof.
  unfold unsubscribe_topic. destruct (conns h !! ref); [|reflexivity].
  eapply quiet_trans; [apply quiet_bus_remove|]. apply quiet_with_conn. auto with hub.
Qed.

Lemma quiet_teardown ref h : quiet h (teardownSubscriptions ref h).
Proof.
  unfold teardownSubscriptions. destruct (conns h !! ref); [|reflexivity].
  eapply quiet_trans; [apply quiet_bus_remove|]. apply quiet_with_conn. auto with hub.
Qed.

Lemma quiet_foldl {A} (f : hub → A → hub) l h : (∀ h x, quiet h (f h x)) → quiet h (foldl f h l).
Proof. intros Hf. revert h. induction l as [|x l IH]; intros h; cbn; [reflexivity|]. eapply quiet_trans; [apply Hf|apply IH]. Qed.

Lemma quiet_setSubscriptions ref topics h : quiet h (setSubscriptions ref topics h).
Proof.
  unfold setSubscriptions. destruct (conns h !! ref) as [c|]; [|reflexivity]. destruct (HubConnection.closed c); [reflexivity|].
  cbv zeta. eapply quiet_trans; [|apply quiet_tasks]. apply (quiet_foldl (λ h t, unsubscribe_topic ref t h)). intros. apply quiet_unsubscribe.
Qed.

Lemma quiet_bus_subscribe ref topic h : quiet h (bus_subscribe ref topic h).
Proof. eapply quiet_trans; [apply quiet_bus|]. apply quiet_with_conn. auto with hub. Qed.

Lemma quiet_snapshots now topic job c : quiet_conn c (job_snapshots now topic job c).
Proof.
  unfold job_snapshots. cbv zeta. case_bool_decide; repeat (etransitivity; [|apply quiet_push]); reflexivity.
Qed.

Lemma quiet_add ref topic f h : (∀ c, quiet_conn c (f c)) → quiet h (with_conn ref (λ c, add_topic topic (f c)) h).
Proof. intros Hf. apply quiet_with_conn. intros c _. etransitivity; [apply Hf|]. apply quiet_topics. Qed.

Lemma quiet_attach now ref topic found h : quiet h (attach_topic now ref topic found h).
Proof.
  unfold attach_topic. destruct found as [x|]; [|reflexivity]. case_bool_decide.
  - pose proof (quiet_add ref topic (job_snapshots now topic x) h (quiet_snapshots now topic x)) as Hq.
    cbv zeta. destruct (jobHubTerminalStatus _); [done|]. eapply quiet_trans; [exact Hq|apply quiet_bus_subscribe].
  - destruct (if bool_decide (is_Some (threadIdFromTopic topic)) then _ else _) as [event key].
    eapply quiet_trans; [|apply quiet_bus_subscribe].
    apply (quiet_add ref topic (pushEnvelope now topic (HubEvent.mk event (field key (Some x))))).
    intros. apply quiet_push.
Qed.

Lemma quiet_task now i found h : quiet h (task_step now i found h).
Proof.
  unfold task_step. destruct (sub_tasks h !! i) as [t|]; [|reflexivity]. cbv zeta. destruct (tk_waiting t).
  - eapply quiet_trans; [apply quiet_attach|apply quiet_tasks].
  - destruct (tk_rest t); [apply quiet_tasks|]. destruct (_ || _); apply quiet_tasks.
Qed.

Lemma quiet_emit now topic e h : quiet h (emit now topic e h).
Proof.
  apply quiet_foldl. intros h1 l. unfold call_listener. case_bool_decide; [|reflexivity].
  cbv zeta. destruct (event_terminal topic e).
  - eapply quiet_trans; [|apply quiet_unsubscribe]. apply quiet_with_conn. auto with hub.
  - apply quiet_with_conn. auto with hub.
Qed.

Lemma quiet_deliver_step ref h : quiet h (deliver ref h).2.
Proof.
  unfold deliver. destruct (conns h !! ref) as [c|] eqn:Hc; [|reflexivity].
  destruct (HubConnection.queue c) as [|e rest] eqn:Hq; [reflexivity|]. cbn. split; [|done..]. cbn.
  apply Forall2_alter_r; [by apply reflexivity|]. intros x y Hx Hy _.
  assert (x = c) as -> by congruence. assert (y = c) as -> by congruence. by apply (quiet_deliver e).
Qed.

(** ** The invariant of the hub *)

Definition conn_key (c : HubConnection.t) : string * string := (HubConnection.username c, HubConnection.connectionId c).

Record hub_inv (h : hub) : Prop := {
  i_conns : ∀ ref c, conns h !! ref = Some c → conn_ok c;
  i_map : ∀ k ref, connections h !! k = Some ref →
    ∃ c, conns h !! ref = Some c ∧ HubConnection.closed c = false ∧ conn_key c = k;
  i_open : ∀ ref c, conns h !! ref = Some c → HubConnection.closed c = false → connections h !! conn_key c = Some ref;
  i_linger : ∀ k b, lingerByKey h !! k = Some b →
    ∃ ref c, conns h !! ref = Some c ∧ HubConnection.closed c = true ∧
      connectionKey (HubConnection.username c) (HubConnection.connectionId c) = k ∧
      LingerBuffer.recent b = HubConnection.recent c ∧ LingerBuffer.nextSeq b = HubConnection.nextSeq c
}.

(** Numbers only grow. *)
Definition evolves (h h' : hub) : Prop :=
  ∀ ref c, conns h !! ref = Some c →
    ∃ c', conns h' !! ref = Some c' ∧ ∀ b, beyond b c → beyond b c'.

Lemma quiet_inv h h' : hub_inv h → quiet h h' → hub_inv h' ∧ evolves h h'.
Proof.
  intros [Hc Hm Ho Hl] [Hq Hmap Hlin]. split; [split|].
  - intros ref c' Hc'. destruct (Forall2_lookup_r _ _ _ _ _ Hq Hc') as (c & Hlook & Hqc).
    apply (qc_ok _ _ Hqc). by eapply Hc.
  - rewrite Hmap. intros k ref (c & Hlook & Hopen & Hk)%Hm.
    destruct (Forall2_lookup_l _ _ _ _ _ Hq Hlook) as (c' & Hlook' & [Hu Hi Hcl _ _]).
    exists c'. unfold conn_key. by rewrite Hcl, Hu, Hi.
  - intros ref c' Hlook' Hopen. destruct (Forall2_lookup_r _ _ _ _ _ Hq Hlook') as (c & Hlook & [Hu Hi Hcl _ _]).
    unfold conn_key. rewrite Hmap, Hu, Hi. apply Ho; [done|congruence].
  - rewrite Hlin. intros k b (ref & c & Hlook & Hcl & Hk & Hr & Hn)%Hl.
    destruct (Forall2_lookup_l _ _ _ _ _ Hq Hlook) as (c' & Hlook' & [Hu Hi Hcl' Hfr _]).
    exists ref, c'. destruct (Hfr Hcl) as [-> ->]. by rewrite Hcl', Hu, Hi.
  - intros ref c Hlook. destruct (Forall2_lookup_l _ _ _ _ _ Hq Hlook) as (c' & Hlook' & Hqc).
    exists c'. split; [done|]. apply (qc_ok _ _ Hqc). by eapply Hc.
Qed.

(** ** Closing *)

Definition closed_of (c : HubConnection.t) : HubConnection.t :=
  HubConnection.set_topics [] ∅ (HubConnection.set_closed c).

Lemma closed_of_ok c : conn_ok c → conn_ok (closed_of c).
Proof. intros [H1 H2 H3 H4 H5]. by split. Qed.

Definition shut (ref : nat) (h : hub) : hub := teardownSubscriptions ref (with_conn ref HubConnection.set_closed h).

Lemma shut_lookup ref h c r : conns h !! ref = Some c →
  conns (shut ref h) !! r = if decide (r = ref) then Some (closed_of c) else conns h !! r.
Proof.
  intros Hc. unfold shut, teardownSubscriptions. cbn. rewrite list_lookup_alter_eq, Hc. cbn.
  destruct (decide (r = ref)) as [->|Hne].
  - by rewrite !list_lookup_alter_eq, Hc.
  - by rewrite !list_lookup_alter_ne.
Qed.

Lemma shut_maps ref h : connections (shut ref h) = connections h ∧ lingerByKey (shut ref h) = lingerByKey h ∧
  length (conns (shut ref h)) = length (conns h) ∧ activeHubs (shut ref h) = activeHubs h ∧
  pendingTopics (shut ref h) = pendingTopics h.
Proof.
  unfold shut, teardownSubscriptions. destruct (conns (with_conn _ _ h) !! ref); cbn; by rewrite ?length_alter.
Qed.

Lemma close_open now ref h c : conns h !! ref = Some c → HubConnection.closed c = false →
  closeConnection now ref h =
  set_connections (delete (conn_key c) (connections h))
    (set_linger (<[connectionKey (HubConnection.username c) (HubConnection.connectionId c) :=
        LingerBuffer.mk (HubConnection.recent c) (HubConnection.nextSeq c) (now + RECENT_LINGER_MS)]>
      (filter (λ kv, now < LingerBuffer.expiresAt kv.2)%Z (lingerByKey h))) (shut ref h)).
Proof.
  intros Hc Hopen. unfold closeConnection, shut, teardownSubscriptions. rewrite Hc, Hopen. cbn.
  by rewrite list_lookup_alter_eq, Hc.
Qed.

Lemma beyond_closed b c : beyond b c → beyond b (closed_of c).
Proof. done. Qed.

Lemma close_inv now ref h : hub_inv h → hub_inv (closeConnection now ref h) ∧ evolves h (closeConnection now ref h).
Proof.
  intros Hinv. destruct (conns h !! ref) as [c|] eqn:Hc.
  2:{ unfold closeConnection. rewrite Hc. split; [done|]. intros r x Hx. eauto. }
  destruct (HubConnection.closed c) eqn:Hopen.
  { unfold closeConnection. rewrite Hc, Hopen. split; [done|]. intros r x Hx. eauto. }
  rewrite (close_open _ _ _ c) by done. destruct Hinv as [Hok Hm Ho Hl].
  destruct (shut_maps ref h) as (Hmap & Hlin & _). split; [split; cbn|].
  - intros r x. rewrite (shut_lookup _ _ c) by done. destruct (decide _); [|apply Hok].
    intros [= <-]. by eapply closed_of_ok, Hok.
  - intros k r [Hne Hr]%lookup_delete_Some. destruct (Hm k r Hr) as (x & Hx & Hxo & Hk).
    exists x. rewrite (shut_lookup _ _ c) by done. rewrite decide_False; [done|]. intros ->. congruence.
  - intros r x. rewrite (shut_lookup _ _ c) by done. destruct (decide (r = ref)); [by intros [= <-]|]. intros Hx Hxo.
    rewrite lookup_delete_ne; [by apply Ho|]. intros Hk. pose proof (Ho _ _ Hx Hxo). pose proof (Ho _ _ Hc Hopen). congruence.
  - intros k b [[<- <-]|[Hne [Hb _]%map_lookup_filter_Some]]%lookup_insert_Some.
    + exists ref, (closed_of c). rewrite (shut_lookup _ _ c) by done. by rewrite decide_True.
    + destruct (Hl k b Hb) as (r & x & Hx & Hxc & Hk & ?). exists r, x. rewrite (shut_lookup _ _ c) by done.
      rewrite decide_False; [done|]. intros ->. congruence.
  - intros r x Hx. cbn. rewrite (shut_lookup _ _ c) by done. destruct (decide (r = ref)) as [->|]; [|eauto].
    exists (closed_of c). split; [done|]. intros b. by replace x with c by congruence.
Qed.

(** ** Replaying *)

Definition fresh_conn (username connectionId : string) (n : Z) : HubConnection.t :=
  HubConnection.mk username connectionId [] ∅ [] [] n 0 0 false.

Lemma fresh_ok username connectionId n : (1 ≤ n)%Z → conn_ok (fresh_conn username connectionId n).
Proof.
  intros Hn. split; cbn; [split; cbn; [done|lia|lia]|constructor| |lia|].
  - by intros e ?%not_elem_of_nil.
  - by intros e ?%not_elem_of_nil.
Qed.

(** What a client with the last number [last] has missed. *)
Definition missed (last : Z) (recent : list HubEnvelope.t) : list HubEnvelope.t :=
  List.filter (λ item, bool_decide (last < HubEnvelope.seq item)%Z) recent.

Lemma missed_drop last lo r :
  (∀ i e, r !! i = Some e → HubEnvelope.seq e = (lo + Z.of_nat i)%Z) → (lo ≤ last + 1)%Z →
  missed last r = drop (Z.to_nat (last + 1 - lo)) r.
Proof.
  revert lo. induction r as [|x r IH]; intros lo Hr Hle; [by rewrite drop_nil|].
  pose proof (Hr 0 x eq_refl) as Hx. cbn in Hx. unfold missed. cbn [List.filter].
  destruct (decide (lo = last + 1)%Z) as [->|Hne].
  - rewrite Z.sub_diag. rewrite bool_decide_eq_true_2 by lia.
    assert (∀ y, y ∈ r → bool_decide (last < HubEnvelope.seq y)%Z = true) as Hall.
    { intros y [i Hi]%list_elem_of_lookup. apply bool_decide_eq_true. pose proof (Hr (S i) y Hi). lia. }
    change (Z.to_nat 0) with 0. rewrite drop_0. f_equal. by apply filter_all.
  - rewrite bool_decide_eq_false_2 by lia.
    replace (Z.to_nat (last + 1 - lo)) with (S (Z.to_nat (last + 1 - (lo + 1)))) by lia. cbn [drop].
    apply IH; [|lia]. intros i e Hi. pose proof (Hr (S i) e Hi). lia.
Qed.

Lemma buffer_drop r n k : buffer_ok r n → k ≤ length r → buffer_ok (drop k r) n.
Proof.
  intros [Hr Hp Hl] Hk. split; rewrite length_drop; [|lia..].
  intros i e. rewrite lookup_drop. intros He%Hr. lia.
Qed.

Lemma buffer_increasing r n : buffer_ok r n → increasing r.
Proof.
  intros [Hr _ _]. revert Hr. generalize (n - Z.of_nat (length r))%Z. induction r as [|x r IH]; intros lo Hr; [constructor|].
  cbn. constructor.
  - apply (IH (lo + 1)%Z). intros i e Hi. pose proof (Hr (S i) e Hi). lia.
  - apply List.Forall_forall. intros s (y & -> & Hy)%list_elem_of_In%list_elem_of_fmap.
    apply list_elem_of_lookup in Hy as [i Hi]. pose proof (Hr 0 x eq_refl). pose proof (Hr (S i) y Hi). lia.
Qed.

Lemma replayed_ok username connectionId r n : buffer_ok r n →
  conn_ok (HubConnection.set_buffers r r (HubConnection.set_nextSeq n (fresh_conn username connectionId n))).
Proof.
  intros Hb. split; cbn; [done|by eapply buffer_increasing| |apply Hb|done].
  intros e [i Hi]%list_elem_of_lookup. pose proof (lookup_lt_Some _ _ _ Hi). rewrite (buf_recent _ _ Hb _ _ Hi). lia.
Qed.

(** The client has seen everything. *)
Definition up_to_date (source : replay_source) (lastEventId : option Z) : Prop :=
  match lastEventId with
  | None => True
  | Some last => (last ≤ 0)%Z ∨ ∃ r n, source = Some (r, n) ∧ (last + 1 = n)%Z
  end.

(** What it missed is still kept. *)
Definition covered (last : Z) (r : list HubEnvelope.t) (n : Z) : Prop :=
  (n - Z.of_nat (length r) ≤ last + 1 ∧ last + 1 < n)%Z.

Definition first_number (source : replay_source) : Z := default 1%Z (snd <$> source).

Lemma replay_spec source lastEventId username connectionId ok c :
  (∀ r n, source = Some (r, n) → buffer_ok r n) →
  tryReplayFromLastEventId source lastEventId (fresh_conn username connectionId (first_number source)) = (ok, c) →
  (ok = true ∧ up_to_date source lastEventId ∧ c = fresh_conn username connectionId (first_number source)) ∨
  (∃ last r n, ok = true ∧ lastEventId = Some last ∧ source = Some (r, n) ∧ covered last r n ∧
     c = HubConnection.set_buffers (missed last r) (missed last r)
           (HubConnection.set_nextSeq n (fresh_conn username connectionId n)) ∧
     missed last r = drop (Z.to_nat (last + 1 - (n - Z.of_nat (length r)))) r) ∨
  (∃ last, ok = false ∧ lastEventId = Some last ∧ (0 < last)%Z ∧
     c = fresh_conn username connectionId (first_number source) ∧
     (source = None ∨ ∃ r n, source = Some (r, n) ∧ ¬ covered last r n ∧ (last + 1 ≠ n)%Z)).
Proof.
  intros Hsrc. unfold tryReplayFromLastEventId, up_to_date. destruct lastEventId as [last|].
  2:{ intros [= <- <-]. by left. }
  case_bool_decide as Hpos; [intros [= <- <-]; left; split; [done|]; split; [by left|done]|].
  destruct source as [[r n]|].
  2:{ intros [= <- <-]. right; right. exists last. split; [done|]. split; [done|]. split; [lia|]. split; [done|by left]. }
  cbn [first_number default snd fmap option_fmap option_map].
  pose proof (Hsrc r n eq_refl) as Hb. case_bool_decide as Htip.
  { intros [= <- <-]. left. split; [done|]. split; [right; by exists r, n|done]. }
  assert (∀ ok c, (false, fresh_conn username connectionId n) = (ok, c) → ¬ covered last r n →
    ∃ last0 : Z, ok = false ∧ Some last = Some last0 ∧ (0 < last0)%Z ∧ c = fresh_conn username connectionId n ∧
      (Some (r, n) = None ∨ ∃ r0 n0, Some (r, n) = Some (r0, n0) ∧ ¬ covered last0 r0 n0 ∧ (last0 + 1 ≠ n0)%Z)) as Hfail.
  { intros ok' c' [= <- <-] Hnc. exists last. split; [done|]. split; [done|]. split; [lia|]. split; [done|right].
    by exists r, n. }
  case_bool_decide as Hahead; [intros H; right; right; apply (Hfail _ _ H); unfold covered; lia|].
  destruct r as [|oldest r]; [intros H; right; right; apply (Hfail _ _ H); unfold covered; cbn; lia|].
  pose proof (buf_recent _ _ Hb 0 oldest eq_refl) as Hold. cbn [Z.of_nat] in Hold.
  case_bool_decide as Hgap; [intros H; right; right; apply (Hfail _ _ H); unfold covered; lia|].
  intros [= <- <-]. right; left. exists last, (oldest :: r), n. split; [done|]. split; [done|]. split; [done|].
  split; [unfold covered; lia|]. split; [done|]. apply missed_drop; [apply Hb|lia].
Qed.

Lemma covered_buffer last r n : buffer_ok r n → covered last r n →
  buffer_ok (drop (Z.to_nat (last + 1 - (n - Z.of_nat (length r)))) r) n.
Proof. intros Hb [H1 H2]. apply buffer_drop; [done|]. lia. Qed.

Lemma first_number_pos source : (∀ r n, source = Some (r, n) → buffer_ok r n) → (1 ≤ first_number source)%Z.
Proof. intros H. destruct source as [[r n]|]; cbn; [|lia]. destruct (H r n eq_refl) as [_ Hp _]. lia. Qed.

(** ** Registering *)

Lemma prior_spec username connectionId h ref p : hub_inv h → prior_connection username connectionId h = Some (ref, p) →
  conns h !! ref = Some p ∧ HubConnection.closed p = false ∧ conn_key p = (username, connectionId).
Proof.
  intros Hinv. unfold prior_connection. intros (r & Hr & (c & Hc & H)%bind_Some)%bind_Some.
  destruct (i_map _ Hinv _ _ Hr) as (c' & Hc' & Hopen & Hk). assert (c' = c) as -> by congruence.
  rewrite Hopen in H. by injection H as <- <-.
Qed.

Lemma take_spec now username connectionId h l h' : takeLinger now username connectionId h = (l, h') →
  conns h' = conns h ∧ connections h' = connections h ∧ activeHubs h' = activeHubs h ∧
  pendingTopics h' = pendingTopics h ∧
  (∀ k b, lingerByKey h' !! k = Some b → lingerByKey h !! k = Some b) ∧
  (∀ b, l = Some b → lingerByKey h !! connectionKey username connectionId = Some b ∧ (now < LingerBuffer.expiresAt b)%Z) ∧
  (l = None → ∀ b, lingerByKey h !! connectionKey username connectionId = Some b → (LingerBuffer.expiresAt b ≤ now)%Z).
Proof.
  unfold takeLinger. cbv zeta. cbn [lingerByKey pruneLinger set_linger].
  destruct (filter _ (lingerByKey h) !! connectionKey username connectionId) as [b|] eqn:E; intros [= <- <-].
  - apply map_lookup_filter_Some in E as [Hb Hexp]. split_and!; try done.
    + cbn. intros k b' [_ [? _]%map_lookup_filter_Some]%lookup_delete_Some. done.
    + by intros b' [= <-].
  - split_and!; try done.
    + cbn. by intros k b [? _]%map_lookup_filter_Some.
    + intros _ b Hb. rewrite map_lookup_filter_None in E. destruct E as [E|E]; [congruence|].
      specialize (E b Hb). cbn in E. lia.
Qed.

(** What the hub can serve a reconnecting client from. *)
Definition source_of (now : Z) (username connectionId : string) (h : hub) : replay_source :=
  match prior_connection username connectionId h with
  | Some (_, p) => Some (HubConnection.recent p, HubConnection.nextSeq p)
  | None => (λ b, (LingerBuffer.recent b, LingerBuffer.nextSeq b)) <$> (takeLinger now username connectionId h).1
  end.

Lemma source_ok now username connectionId h r n : hub_inv h → source_of now username connectionId h = Some (r, n) →
  ∃ ref c, conns h !! ref = Some c ∧
    connectionKey (HubConnection.username c) (HubConnection.connectionId c) = connectionKey username connectionId ∧
    HubConnection.recent c = r ∧ HubConnection.nextSeq c = n.
Proof.
  intros Hinv. unfold source_of. destruct (prior_connection _ _ h) as [[ref p]|] eqn:Hp.
  - apply (prior_spec _ _ _ _ _ Hinv) in Hp as (Hc & _ & [= Hu Hi]). intros [= <- <-]. exists ref, p. by rewrite Hu, Hi.
  - destruct (takeLinger _ _ _ h) as [l h'] eqn:Ht. cbn. intros (b & -> & [= -> ->])%fmap_Some_1.
    apply take_spec in Ht as (_ & _ & _ & _ & _ & Hl & _). destruct (Hl b eq_refl) as [Hb _].
    apply (i_linger _ Hinv) in Hb as (ref & c & Hc & _ & Hk & -> & ->). by exists ref, c.
Qed.

Lemma source_buffer now username connectionId h r n : hub_inv h →
  source_of now username connectionId h = Some (r, n) → buffer_ok r n.
Proof. intros Hinv (ref & c & Hc & _ & <- & <-)%source_ok; [|done]. by eapply ok_buffer, i_conns. Qed.

(** The connection that is registered. *)
Definition registered_conn (now : Z) (username connectionId : string) (lastEventId : option Z) (h : hub) :
    HubConnection.t :=
  let source := source_of now username connectionId h in
  let '(ok, c) := tryReplayFromLastEventId source lastEventId (fresh_conn username connectionId (first_number source)) in
  if ok then c else pushEnvelope now (jobTopic "resync") resync_event c.

Lemma push_resync now username connectionId n :
  let env := HubEnvelope.mk (jobTopic "resync") n resync_event in
  pushEnvelope now (jobTopic "resync") resync_event (fresh_conn username connectionId n) =
  HubConnection.set_buffers [env] [env] (fresh_conn username connectionId (n + 1)).
Proof. done. Qed.

Lemma registered_ok now username connectionId lastEventId h : hub_inv h →
  let c := registered_conn now username connectionId lastEventId h in
  conn_ok c ∧ HubConnection.closed c = false ∧ conn_key c = (username, connectionId).
Proof.
  intros Hinv. unfold registered_conn.
  pose proof (λ r n, source_buffer now username connectionId h r n Hinv) as Hsrc.
  destruct (tryReplayFromLastEventId _ _ _) as [ok c] eqn:E.
  apply replay_spec in E as [(-> & _ & ->)|[(last & r & n & -> & _ & Hs & Hcov & -> & Hd)|(last & -> & _ & _ & -> & _)]]; [..|done].
  - split; [|done]. by apply fresh_ok, first_number_pos.
  - split; [|done]. rewrite Hd. apply replayed_ok, covered_buffer; [|done]. by apply Hsrc.
  - rewrite push_resync. split; [|done]. pose proof (first_number_pos _ Hsrc) as Hpos.
    split; cbn; [split; cbn| | |unfold MAX_QUEUE_SIZE; lia|done]; try (unfold MAX_RECENT_SIZE; lia).
    + intros [|i] e; [|done]. intros [= <-]. cbn. lia.
    + repeat constructor.
    + intros e ->%list_elem_of_singleton. cbn. lia.
Qed.

(** The hub before the new connection is added. *)
Definition without_prior (now : Z) (username connectionId : string) (h : hub) : hub :=
  let h1 := (takeLinger now username connectionId h).2 in
  match prior_connection username connectionId h with
  | Some (ref, _) => shut ref h1
  | None => h1
  end.

Lemma register_eq now username connectionId lastEventId h :
  let h2 := without_prior now username connectionId h in
  registerJobHubConnection now username connectionId lastEventId h =
  (length (conns h2),
   set_connections (<[(username, connectionId) := length (conns h2)]> (connections h2))
     (set_conns (conns h2 ++ [registered_conn now username connectionId lastEventId h]) h2)).
Proof.
  unfold registerJobHubConnection, without_prior, registered_conn, source_of, first_number, fresh_conn, shut.
  destruct (takeLinger now username connectionId h) as [l h1]. cbn [fst snd].
  destruct (prior_connection username connectionId h) as [[ref p]|]; cbn [fst snd];
    by destruct (tryReplayFromLastEventId _ _ _) as [ok c].
Qed.

Lemma without_prior_spec now username connectionId h : hub_inv h →
  let h2 := without_prior now username connectionId h in
  length (conns h2) = length (conns h) ∧ connections h2 = connections h ∧ activeHubs h2 = activeHubs h ∧
  pendingTopics h2 = pendingTopics h ∧
  (∀ k b, lingerByKey h2 !! k = Some b → lingerByKey h !! k = Some b) ∧
  ∀ r, conns h2 !! r =
    match prior_connection username connectionId h with
    | Some (ref, p) => if decide (r = ref) then Some (closed_of p) else conns h !! r
    | None => conns h !! r
    end.
Proof.
  intros Hinv. unfold without_prior. destruct (takeLinger now username connectionId h) as [l h1] eqn:Ht.
  apply take_spec in Ht as (Hc & Hm & Ha & Hp & Hl & _). cbn [snd].
  destruct (prior_connection username connectionId h) as [[ref p]|] eqn:Hprior; [|by rewrite Hc].
  apply (prior_spec _ _ _ _ _ Hinv) in Hprior as (Hlook & _ & _).
  destruct (shut_maps ref h1) as (Hm' & Hl' & Hlen & Ha' & Hp'). rewrite Hm', Hlen, Ha', Hp', Hc, Hm, Ha, Hp.
  split_and!; try done.
  - intros k b. rewrite Hl'. apply Hl.
  - intros r. rewrite (shut_lookup _ _ p) by (by rewrite Hc). by rewrite Hc.
Qed.

Lemma register_inv now username connectionId lastEventId h : hub_inv h →
  let h' := (registerJobHubConnection now username connectionId lastEventId h).2 in
  hub_inv h' ∧ evolves h h'.
Proof.
  intros Hinv. cbv zeta. rewrite register_eq. cbn [snd].
  destruct (without_prior_spec now username connectionId h Hinv) as (Hlen & Hm & _ & _ & Hl & Hlook).
  destruct (registered_ok now username connectionId lastEventId h Hinv) as (Hok & Hopen & Hkey).
  set (h2 := without_prior now username connectionId h) in *.
  set (c2 := registered_conn now username connectionId lastEventId h) in *.
  pose proof Hinv as [I1 I2 I3 I4].
  assert (∀ r x, conns h2 !! r = Some x → ∃ y, conns h !! r = Some y ∧ (x = y ∨ x = closed_of y)) as Hold.
  { intros r x. rewrite Hlook. destruct (prior_connection username connectionId h) as [[ref p]|] eqn:Hp; [|eauto].
    apply (prior_spec _ _ _ _ _ Hinv) in Hp as (Hp & _). destruct (decide (r = ref)) as [->|]; [|eauto].
    intros [= <-]. eauto. }
  (* an open connection is not the prior one *)
  assert (∀ r x, conns h2 !! r = Some x → HubConnection.closed x = false →
    conns h !! r = Some x ∧ conn_key x ≠ (username, connectionId)) as Hother.
  { intros r x Hx Hxo. pose proof (Hold r x Hx) as (y & Hy & [<-| ->]); [|done]. split; [done|]. intros Hk.
    pose proof (I3 _ _ Hy Hxo) as Hreg. rewrite Hk in Hreg. rewrite Hlook in Hx.
    assert (prior_connection username connectionId h = Some (r, x)) as Hp.
    { unfold prior_connection. rewrite Hreg. cbn. rewrite Hy. cbn. by rewrite Hxo. }
    rewrite Hp, decide_True in Hx by done. injection Hx as Hx. by rewrite <-Hx in Hxo. }
  split; [split; cbn|].
  - intros r x [Hx|[_ ->%list_elem_of_lookup_2%list_elem_of_singleton]]%lookup_app_Some; [|done].
    destruct (Hold r x Hx) as (y & Hy & [->| ->]); [|apply closed_of_ok]; by eapply I1.
  - rewrite Hm. intros k r [[<- <-]|[Hne Hr]]%lookup_insert_Some.
    + exists c2. by rewrite list_lookup_middle.
    + destruct (I2 k r Hr) as (x & Hx & Hxo & Hk). exists x. split; [|done]. apply lookup_app_l_Some.
      rewrite Hlook. destruct (prior_connection username connectionId h) as [[ref p]|] eqn:Hp; [|done].
      apply (prior_spec _ _ _ _ _ Hinv) in Hp as (Hpl & _ & Hpk). rewrite decide_False; [done|]. intros ->. congruence.
  - intros r x [Hx|[Hr Hx]]%lookup_app_Some Hxo.
    + destruct (Hother r x Hx Hxo) as [Hy Hk]. rewrite Hm, lookup_insert_ne by done. by apply I3.
    + pose proof (lookup_lt_Some _ _ _ Hx) as Hlt. cbn in Hlt. assert (r = length (conns h2)) as -> by lia.
      rewrite Nat.sub_diag in Hx. injection Hx as <-. rewrite Hkey. apply lookup_insert_eq.
  - intros k b Hb%Hl. destruct (I4 k b Hb) as (r & x & Hx & Hxc & ?). exists r, x. split; [|done].
    apply lookup_app_l_Some. rewrite Hlook. destruct (prior_connection username connectionId h) as [[ref p]|] eqn:Hp; [|done].
    apply (prior_spec _ _ _ _ _ Hinv) in Hp as (Hpl & Hpo & _). rewrite decide_False; [done|]. intros ->. congruence.
  - intros r x Hx. cbn. destruct (prior_connection username connectionId h) as [[ref p]|] eqn:Hp.
    + apply (prior_spec _ _ _ _ _ Hinv) in Hp as (Hpl & _). destruct (decide (r = ref)) as [->|Hne].
      * assert (x = p) as -> by congruence. exists (closed_of p). split; [|done].
        apply lookup_app_l_Some. by rewrite Hlook, decide_True.
      * exists x. split; [|done]. apply lookup_app_l_Some. by rewrite Hlook, decide_False.
    + exists x. split; [|done]. apply lookup_app_l_Some. by rewrite Hlook.
Qed.

(** ** Reachable hubs *)

Lemma stream_inv max now username connectionId lastEventId h ref h' : hub_inv h →
  handleStream max now username connectionId lastEventId h = Ok (ref, h') →
  hub_inv h' ∧ evolves h h'.
Proof.
  intros Hinv. unfold handleStream. case_bool_decide; [done|].
  destruct (registerJobHubConnection now username connectionId lastEventId h) as [r h1] eqn:Hr.
  pose proof (register_inv now username connectionId lastEventId h Hinv) as [H1 E1]. rewrite Hr in H1, E1. cbn [snd] in H1, E1.
  cbn [activeHubs pendingTopics set_routes].
  assert (∀ h2, quiet h1 h2 → hub_inv h2 ∧ evolves h h2) as Hquiet.
  { intros h2 Hq. destruct (quiet_inv _ _ H1 Hq) as [H2 E2]. split; [done|]. intros x c Hc.
    destruct (E1 x c Hc) as (c1 & Hc1 & Hb1). destruct (E2 x c1 Hc1) as (c2 & Hc2 & Hb2). eauto. }
  destruct (pendingTopics h1 !! _); intros [= <- <-]; apply Hquiet; [|apply quiet_routes].
  eapply quiet_trans; [|apply quiet_setSubscriptions]. eapply quiet_trans; [apply quiet_routes|apply quiet_routes].
Qed.

Lemma hub_step_inv max h h' : hub_inv h → hub_step max h h' → hub_inv h' ∧ evolves h h'.
Proof.
  intros Hinv [now username connectionId last ref h1 Hs|now ref|username connectionId topics|now i found|i|now topic e|topic|ref].
  - by eapply stream_inv.
  - unfold stream_end. destruct (conns h !! ref) as [c|] eqn:Hc.
    + destruct (close_inv now ref h Hinv) as [H1 E1]. destruct (quiet_inv _ _ H1
        (quiet_routes (delete (connectionKey (HubConnection.username c) (HubConnection.connectionId c))
          (activeHubs (closeConnection now ref h))) (pendingTopics (closeConnection now ref h)) _)) as [H2 E2].
      split; [done|]. intros x y Hy. destruct (E1 x y Hy) as (y1 & Hy1 & Hb1). destruct (E2 x y1 Hy1) as (y2 & Hy2 & Hb2). eauto.
    + apply quiet_inv; [done|reflexivity].
  - apply quiet_inv; [done|]. unfold handleSubscriptions. destruct (activeHubs h !! _);
      [apply quiet_setSubscriptions|apply quiet_routes].
  - apply quiet_inv; [done|apply quiet_task].
  - apply quiet_inv; [done|apply quiet_tasks].
  - apply quiet_inv; [done|apply quiet_emit].
  - apply quiet_inv; [done|apply quiet_bus].
  - apply quiet_inv; [done|apply quiet_deliver_step].
Qed.

Lemma hub_empty_inv : hub_inv hub_empty.
Proof. split; done. Qed.

Lemma hub_steps_inv max h h' : hub_inv h → rtc (hub_step max) h h' → hub_inv h' ∧ evolves h h'.
Proof.
  intros Hinv Hs. induction Hs as [h|h h1 h2 Hs _ IH]; [split; [done|]; intros r c Hc; eauto|].
  destruct (hub_step_inv _ _ _ Hinv Hs) as [H1 E1]. destruct (IH H1) as [H2 E2]. split; [done|].
  intros r c Hc. destruct (E1 r c Hc) as (c1 & Hc1 & Hb1). destruct (E2 r c1 Hc1) as (c2 & Hc2 & Hb2). eauto.
Qed.

Lemma hub_reachable_inv max h : hub_reachable max h → hub_inv h.
Proof. intros Hs. by eapply hub_steps_inv; [apply hub_empty_inv|]. Qed.

(** ** Theorems *)

(** C24: A client receives the events of a connection in the order of their numbers and none
    twice: whatever happens between two deliveries, overflow, coalescing of snapshots, the
    replacement and the end of the connection included, the later one has the larger number. *)
Theorem deliveries_are_in_order max h ref e h1 h2 e' :
  hub_reachable max h → deliver ref h = (Some e, h1) → rtc (hub_step max) h1 h2 →
  (deliver ref h2).1 = Some e' → (HubEnvelope.seq e < HubEnvelope.seq e')%Z.
Proof.
  intros Hinv%hub_reachable_inv Hd Hs He'.
  assert (hub_inv h1) as Hinv1.
  { pose proof (quiet_inv _ _ Hinv (quiet_deliver_step ref h)) as [H _]. by rewrite Hd in H. }
  destruct (hub_steps_inv _ _ _ Hinv1 Hs) as [_ Hev].
  unfold deliver in Hd. destruct (conns h !! ref) as [c|] eqn:Hc; [|done].
  destruct (HubConnection.queue c) as [|x rest] eqn:Hq; [done|]. injection Hd as -> <-.
  pose proof (i_conns _ Hinv _ _ Hc) as [_ Hinc Hbelow _ _]. rewrite Hq in Hinc, Hbelow.
  destruct (Hev ref (HubConnection.set_buffers rest (HubConnection.recent c) c)) as (c' & Hc' & Hb).
  { cbn. by rewrite list_lookup_alter_eq, Hc. }
  unfold deliver in He'. rewrite Hc' in He'. destruct (HubConnection.queue c') as [|y q] eqn:Hq'; [done|].
  injection He' as ->. apply (Hb (HubEnvelope.seq e)); [|rewrite Hq'; apply elem_of_cons; by left].
  split; cbn; [apply Hbelow, elem_of_cons; by left|]. intros z Hz.
  apply (StronglySorted_inv (l := seqs rest)) in Hinc as [_ Hall]. rewrite List.Forall_forall in Hall.
  apply Hall, list_elem_of_In, list_elem_of_fmap. eauto.
Qed.

(** C34: Every connection of the event stream keeps its queue and its replay buffer within 256
    envelopes, the replay buffer holds consecutive numbers up to the next one, and a user has at
    most one open connection with a given id, the registered one. *)
Theorem hub_connections_are_sound max h ref c :
  hub_reachable max h → conns h !! ref = Some c →
  length (HubConnection.queue c) ≤ 256 ∧ length (HubConnection.recent c) ≤ 256 ∧
  seqs (HubConnection.recent c) =
    seqZ (HubConnection.nextSeq c - Z.of_nat (length (HubConnection.recent c))) (Z.of_nat (length (HubConnection.recent c))) ∧
  (HubConnection.closed c = false →
   connections h !! (HubConnection.username c, HubConnection.connectionId c) = Some ref ∧
   ∀ ref' c', conns h !! ref' = Some c' → HubConnection.closed c' = false →
     HubConnection.username c' = HubConnection.username c → HubConnection.connectionId c' = HubConnection.connectionId c →
     ref' = ref).
Proof.
  intros Hinv%hub_reachable_inv Hc. destruct (i_conns _ Hinv _ _ Hc) as [Hb _ _ Hlen _].
  split; [done|]. split; [apply Hb|]. split.
  - apply list_eq. intros i. unfold seqs. change (map HubEnvelope.seq ?l) with (HubEnvelope.seq <$> l).
    rewrite list_lookup_fmap. destruct (HubConnection.recent c !! i) as [e|] eqn:He; cbn.
    + rewrite (buf_recent _ _ Hb _ _ He). apply lookup_lt_Some in He. symmetry. apply lookup_seqZ. lia.
    + symmetry. apply lookup_seqZ_ge. apply lookup_ge_None in He. lia.
  - intros Hopen. pose proof (i_open _ Hinv _ _ Hc Hopen) as Hreg. split; [done|].
    intros ref' c' Hc' Hopen' Hu Hi. pose proof (i_open _ Hinv _ _ Hc' Hopen') as Hreg'.
    unfold conn_key in *. rewrite Hu, Hi in Hreg'. congruence.
Qed.

Lemma missed_numbers last r n : buffer_ok r n → (n - Z.of_nat (length r) ≤ last + 1 ≤ n)%Z →
  seqs (missed last r) = seqZ (last + 1) (n - last - 1).
Proof.
  intros Hb Hle. rewrite (missed_drop _ (n - Z.of_nat (length r))) by (apply Hb || lia).
  apply list_eq. intros i. unfold seqs. change (map HubEnvelope.seq ?l) with (HubEnvelope.seq <$> l).
  rewrite list_lookup_fmap, lookup_drop. destruct (r !! _) as [e|] eqn:He; cbn.
  - rewrite (buf_recent _ _ Hb _ _ He). apply lookup_lt_Some in He. symmetry. apply lookup_seqZ. lia.
  - symmetry. apply lookup_seqZ_ge. apply lookup_ge_None in He. lia.
Qed.

(** C23: A client that reconnects to the event stream with the number of the last event it saw
    is given every later event that its old connection numbered: the new connection starts with
    exactly these, as they were kept, with consecutive numbers up to the next; or it starts with
    a single request to resynchronize, and that only when there is nothing to replay from, the
    number was never given, or events in between are no longer kept. An event that is emitted
    after the old connection closed gets no number and is in neither. *)
Theorem reconnect_replays_or_resyncs max now username connectionId last h :
  hub_reachable max h → (0 < last)%Z →
  let source := source_of now username connectionId h in
  let '(ref, h') := registerJobHubConnection now username connectionId (Some last) h in
  ∃ c, conns h' !! ref = Some c ∧ HubConnection.closed c = false ∧
    connections h' !! (username, connectionId) = Some ref ∧
    ((∃ ref0 c0, conns h !! ref0 = Some c0 ∧
        connectionKey (HubConnection.username c0) (HubConnection.connectionId c0) = connectionKey username connectionId ∧
        HubConnection.queue c = missed last (HubConnection.recent c0) ∧
        seqs (HubConnection.queue c) = seqZ (last + 1) (HubConnection.nextSeq c0 - last - 1) ∧
        HubConnection.nextSeq c = HubConnection.nextSeq c0) ∨
     (∃ n, HubConnection.queue c = [HubEnvelope.mk "job:resync" n resync_event] ∧
        (source = None ∨ ∃ r k, source = Some (r, k) ∧
           (k < last + 1 ∨ last + 1 < k - Z.of_nat (length r))%Z))).
Proof.
  intros Hinv%hub_reachable_inv Hpos source. rewrite register_eq. cbv zeta. set (h2 := without_prior _ _ _ _).
  pose proof (λ r n, source_buffer now username connectionId h r n Hinv) as Hsrc. fold source in Hsrc.
  destruct (registered_ok now username connectionId (Some last) h Hinv) as (_ & Hopen & _).
  exists (registered_conn now username connectionId (Some last) h). split; [by cbn; rewrite list_lookup_middle|].
  split; [done|]. split; [by cbn; rewrite lookup_insert_eq|]. clear Hopen. unfold registered_conn. fold source.
  destruct (tryReplayFromLastEventId _ _ _) as [ok c] eqn:E.
  assert (∀ r n, source = Some (r, n) → (n - Z.of_nat (length r) ≤ last + 1 ≤ n)%Z →
    ∃ ref0 c0, conns h !! ref0 = Some c0 ∧
      connectionKey (HubConnection.username c0) (HubConnection.connectionId c0) = connectionKey username connectionId ∧
      missed last r = missed last (HubConnection.recent c0) ∧
      seqs (missed last r) = seqZ (last + 1) (HubConnection.nextSeq c0 - last - 1) ∧ n = HubConnection.nextSeq c0) as Hserved.
  { intros r n Hs Hle. destruct (source_ok _ _ _ _ _ _ Hinv Hs) as (ref0 & c0 & Hc0 & Hk & Hr & Hn).
    exists ref0, c0. rewrite Hr, Hn. split; [done|]. split; [done|]. split; [done|]. split; [|done].
    apply missed_numbers; [by apply Hsrc|done]. }
  apply replay_spec in E as [(-> & Hup & ->)|[(last' & r & n & -> & [= <-] & Hs & Hcov & -> & _)|(last' & -> & [= <-] & _ & -> & Hfail)]]; [..|done].
  - left. destruct Hup as [Hup|(r & n & Hs & Hn)]; [lia|]. pose proof (Hsrc r n Hs) as Hb.
    destruct (Hserved r n Hs) as (ref0 & c0 & H1 & H2 & H3 & H4 & H5); [lia|].
    exists ref0, c0. split; [done|]. split; [done|]. unfold first_number. rewrite Hs. cbn.
    assert (HubEnvelope.seq <$> missed last r = []) as Hnil.
    { change (seqs (missed last r) = []). rewrite H4. apply seqZ_nil. lia. }
    apply fmap_nil_inv in Hnil. rewrite <-H3, <-H4, Hnil. done.
  - left. apply (Hserved r n); [done|]. unfold covered in Hcov. lia.
  - right. exists (first_number source). split; [done|]. destruct Hfail as [Hs|(r & n & Hs & Hn & Hne)]; [by left|right].
    exists r, n. split; [done|]. unfold covered in Hn. lia.
Qed.

(** Overflow never drops the end of a job, an error or a request to resynchronize while
    anything else is queued, and neither does the coalescing of snapshots. *)
Theorem final_events_survive now topic e c x y :
  x ∈ HubConnection.queue c → droppable x = false → y ∈ HubConnection.queue c → droppable y = true →
  x ∈ HubConnection.queue (pushEnvelope now topic e c).
Proof.
  intros [i Hx]%list_elem_of_lookup Hdx Hy Hdy. unfold pushEnvelope. destruct (HubConnection.closed c).
  { apply list_elem_of_lookup. eauto. }
  destruct (replaceQueuedSnapshot topic e c) as [c'|] eqn:Hr.
  - unfold replaceQueuedSnapshot in Hr. destruct (isCoalescableSnapshot e) eqn:Hco; cbn in Hr; [|done].
    destruct (find_last_index _ _) as [j|] eqn:Hj; cbn in Hr; [|done].
    apply find_last_index_some in Hj as (z & Hz & [_ Hkind%bool_decide_eq_true]%andb_true_iff).
    rewrite Hz in Hr. cbn in Hr. injection Hr as <-. cbn. apply list_elem_of_lookup. exists i.
    rewrite list_lookup_insert_ne; [done|]. intros ->. assert (z = x) as -> by congruence.
    apply bool_decide_eq_true in Hco. unfold droppable in Hdx. apply negb_false_iff, bool_decide_eq_true in Hdx.
    rewrite Hkind in Hdx. revert Hco Hdx. unfold NON_DROPPABLE_EVENTS. rewrite !elem_of_cons, elem_of_nil.
    intros [-> |[->|[->|[->|[->|[]]]]]]; naive_solver.
  - cbn. case_bool_decide; apply elem_of_app; left; [|apply list_elem_of_lookup; eauto].
    unfold drop_one. destruct (first_index droppable (HubConnection.queue c)) as [j|] eqn:Hj; cbn.
    + apply first_index_some in Hj as [(z & Hz & Hdz) _].
      destruct (lt_eq_lt_dec i j) as [[Hlt| ->]|Hlt]; [|congruence|]; apply list_elem_of_lookup.
      * exists i. by rewrite list_lookup_delete_lt.
      * exists (i - 1). rewrite list_lookup_delete_ge by lia. by replace (S (i - 1)) with i by lia.
    + by rewrite (first_index_none _ _ Hj y Hy) in Hdy.
Qed.

(** When a client opens its stream again before the server has noticed that the first one is
    gone, the end of the replaced stream takes the new one out of the table of the routes: the
    connection stays open and registered, but no later request for subscriptions reaches it. *)
Theorem replaced_stream_orphans_connection max now now' username connectionId last h ref p ref' h1 :
  hub_reachable max h → prior_connection username connectionId h = Some (ref, p) →
  handleStream max now username connectionId last h = Ok (ref', h1) →
  let h2 := stream_end now' ref h1 in
  (∃ c, conns h2 !! ref' = Some c ∧ HubConnection.closed c = false) ∧
  connections h2 !! (username, connectionId) = Some ref' ∧
  ∀ topics, let h3 := handleSubscriptions username connectionId topics h2 in
    conns h3 = conns h2 ∧ bus h3 = bus h2 ∧ sub_tasks h3 = sub_tasks h2.
Proof.
  intros Hinv%hub_reachable_inv Hp Hs. cbv zeta.
  pose proof (prior_spec _ _ _ _ _ Hinv Hp) as (Hlook & _ & Hkey).
  destruct (without_prior_spec now username connectionId h Hinv) as (Hlen & _ & _ & _ & _ & Hold).
  rewrite Hp in Hold. destruct (registered_ok now username connectionId last h Hinv) as (_ & Hopen & _).
  pose proof (register_eq now username connectionId last h) as Hr. cbv zeta in Hr.
  unfold handleStream in Hs. case_bool_decide; [done|]. rewrite Hr in Hs.
  set (h2 := without_prior now username connectionId h) in *.
  set (c2 := registered_conn now username connectionId last h) in *. clear Hr.
  set (hr := set_connections _ _) in Hs.
  assert (ref' = length (conns h2) ∧ quiet hr h1) as [-> Hq].
  { destruct (pendingTopics _ !! _); injection Hs as <- <-; (split; [done|]); [|apply quiet_routes].
    eapply quiet_trans; [|apply quiet_setSubscriptions]. eapply quiet_trans; [apply quiet_routes|apply quiet_routes]. }
  destruct (Forall2_lookup_l _ _ _ ref (closed_of p) (q_conns _ _ Hq)) as (p1 & Hp1 & [Hu Hi Hcl _ _]).
  { apply lookup_app_l_Some. by rewrite Hold, decide_True. }
  destruct (Forall2_lookup_l _ _ _ (length (conns h2)) c2 (q_conns _ _ Hq)) as (c1 & Hc1 & [_ _ Hcl1 _ _]).
  { cbn. by rewrite list_lookup_middle. }
  assert (HubConnection.closed p1 = true) as Hclosed by (by rewrite Hcl).
  unfold stream_end. rewrite Hp1. unfold closeConnection. rewrite Hp1, Hclosed. cbn [conns connections set_routes].
  assert (connectionKey (HubConnection.username p1) (HubConnection.connectionId p1) = connectionKey username connectionId) as Hk.
  { rewrite Hu, Hi. unfold conn_key in Hkey. injection Hkey as Hku Hki. cbn. by rewrite Hku, Hki. }
  split; [exists c1; split; [done|by rewrite Hcl1]|]. split.
  - rewrite (q_connections _ _ Hq). cbn. apply lookup_insert_eq.
  - intros topics. unfold handleSubscriptions. cbn [activeHubs set_routes]. by rewrite Hk, lookup_delete_eq.
Qed.

(** A connection that closes while its subscriptions are being set is subscribed all the same:
    the listener is added after the others were removed, and the end of the stream, which finds
    the connection closed, does not remove it. *)
Theorem late_subscription_leaks now now' i ref topic rest found job c h :
  conns h !! ref = Some c → HubConnection.closed c = true →
  sub_tasks h !! i = Some (mkSubTask ref (Some topic) rest) →
  jobIdFromTopic topic = Some job → found = Some (JObj [("status", JStr "running")]) →
  let h' := stream_end now' ref (task_step now i found h) in
  mkListener (nextListener h) topic ref ∈ bus h' ∧ HubConnection.closed <$> conns h' !! ref = Some true.
Proof.
  intros Hc Hclosed Ht Hjob ->. cbv zeta. unfold task_step. rewrite Ht. cbn [tk_waiting tk_conn tk_rest].
  unfold attach_topic. rewrite Hjob, bool_decide_eq_true_2 by eauto.
  change (job_status_of (JObj [("status", JStr "running")])) with "running".
  change (jobHubTerminalStatus "running") with false. cbn match.
  unfold stream_end, closeConnection. cbn -[job_snapshots]. rewrite !list_lookup_alter_eq, Hc. cbn -[job_snapshots].
  pose proof (qc_closed _ _ (quiet_snapshots now topic (JObj [("status", JStr "running")]) c)) as Hcl.
  rewrite Hclosed in Hcl. rewrite Hcl. cbn -[job_snapshots]. rewrite !list_lookup_alter_eq, Hc. cbn -[job_snapshots].
  rewrite Hcl. split; [|done]. apply elem_of_app. right. by apply list_elem_of_singleton.
Qed.

(** ** Instances *)

Definition watched_job : json :=
  JObj [("status", JStr "running"); ("planProgress", JNull); ("taskProgress", JNull)].

(** A stream is opened, the job watched, and the first snapshot delivered. *)
Definition opened : hub :=
  match handleStream 10 1 "anna" "c1" None hub_empty with Ok (_, h) => h | Err _ => hub_empty end.
Definition asked : hub := handleSubscriptions "anna" "c1" ["job:j1"] opened.
Definition waiting : hub := task_step 2 0 None asked.
Definition watching : hub := task_step 3 0 (Some watched_job) waiting.
Definition delivered : hub := (deliver 0 watching).2.

Lemma watching_reachable : hub_reachable 10 watching.
Proof.
  apply (rtc_l _ _ opened); [by apply (hub_stream 10 _ 1 "anna" "c1" None 0)|].
  apply (rtc_l _ _ asked); [apply hub_subscribe|]. apply (rtc_l _ _ waiting); [apply hub_task|].
  apply (rtc_l _ _ watching); [apply hub_task|]. apply rtc_refl.
Qed.

Lemma delivered_reachable : hub_reachable 10 delivered.
Proof. eapply rtc_r; [apply watching_reachable|]. apply (hub_deliver 10 watching 0). Qed.

Lemma deliveries_are_in_order_witness :
  ∃ e e', (deliver 0 watching).1 = Some e ∧ (deliver 0 delivered).1 = Some e' ∧ (HubEnvelope.seq e < HubEnvelope.seq e')%Z.
Proof.
  destruct (deliver 0 watching) as [[e|] h1] eqn:E; [|vm_compute in E; discriminate].
  destruct (deliver 0 delivered) as [[e'|] h2] eqn:E'; [|vm_compute in E'; discriminate].
  exists e, e'. split; [done|]. split; [done|].
  apply (deliveries_are_in_order 10 watching 0 e h1 h1 e' watching_reachable E (rtc_refl _ _)).
  unfold delivered in E'. rewrite E in E'. cbn [snd] in E'. by rewrite E'.
Defined.

Lemma hub_connections_are_sound_witness :
  ∃ c, conns delivered !! 0 = Some c ∧ length (HubConnection.queue c) ≤ 256 ∧
    seqs (HubConnection.recent c) = [1; 2; 3]%Z ∧ connections delivered !! ("anna", "c1") = Some 0.
Proof.
  destruct (conns delivered !! 0) as [c|] eqn:E; [|vm_compute in E; discriminate]. exists c. split; [done|].
  destruct (hub_connections_are_sound 10 delivered 0 c delivered_reachable E) as (H1 & _ & H3 & _).
  split; [exact H1|]. rewrite H3. split; [|vm_compute; reflexivity].
  vm_compute in E. injection E as <-. vm_compute. reflexivity.
Defined.

Lemma reconnect_replays_or_resyncs_witness :
  let r := registerJobHubConnection 5 "anna" "c1" (Some 1%Z) delivered in
  (seqs ∘ HubConnection.queue <$> conns r.2 !! r.1) = Some [2; 3]%Z ∧ connections r.2 !! ("anna", "c1") = Some r.1.
Proof.
  cbv zeta. split; [vm_compute; reflexivity|].
  pose proof (reconnect_replays_or_resyncs 10 5 "anna" "c1" 1 delivered delivered_reachable eq_refl) as H.
  cbv zeta in H. destruct (registerJobHubConnection 5 "anna" "c1" (Some 1%Z) delivered) as [ref h'].
  destruct H as (c & _ & _ & H & _). exact H.
Defined.

(** The client saw everything; its stream ends, an event is emitted, and the client
    reconnects: it is given nothing and not asked to resynchronize; all it learns of the
    event is what the snapshots of its next subscription show. *)
Definition caught_up : hub := (deliver 0 (deliver 0 delivered).2).2.
Definition missed_event : hub :=
  emit 7 "job:j1" (HubEvent.mk "assistant_message" JNull) (stream_end 6 0 caught_up).

Lemma event_between_connections_is_not_replayed :
  let r := registerJobHubConnection 8 "anna" "c1" (Some 3%Z) missed_event in
  HubConnection.queue <$> conns r.2 !! r.1 = Some [].
Proof. vm_compute. reflexivity. Qed.

(** A full queue with the end of the job at its head. *)
Definition end_of_job : HubEnvelope.t := HubEnvelope.mk "job:j1" 1 (HubEvent.mk "job_done" JNull).
Definition other_event (n : nat) : HubEnvelope.t :=
  HubEnvelope.mk "job:j1" (Z.of_nat n) (HubEvent.mk "assistant_message" JNull).
Definition full_conn : HubConnection.t :=
  let q := end_of_job :: map other_event (seq 2 255) in
  HubConnection.set_buffers q q (fresh_conn "anna" "c1" 257).

Lemma final_events_survive_witness :
  end_of_job ∈ HubConnection.queue (pushEnvelope 0 "job:j1" (HubEvent.mk "assistant_message" JNull) full_conn) ∧
  length (HubConnection.queue (pushEnvelope 0 "job:j1" (HubEvent.mk "assistant_message" JNull) full_conn)) = 256.
Proof.
  split; [|vm_compute; reflexivity].
  apply (final_events_survive 0 "job:j1" (HubEvent.mk "assistant_message" JNull) full_conn end_of_job (other_event 2));
    try reflexivity; [apply list_elem_of_here|apply list_elem_of_further, list_elem_of_here].
Defined.

Lemma replaced_stream_orphans_connection_witness :
  ∃ h1, handleStream 10 5 "anna" "c1" (Some 1%Z) delivered = Ok (1, h1) ∧
    HubConnection.closed <$> conns (stream_end 6 0 h1) !! 1 = Some false ∧
    bus (handleSubscriptions "anna" "c1" ["job:j1"] (stream_end 6 0 h1)) = [].
Proof.
  destruct (handleStream 10 5 "anna" "c1" (Some 1%Z) delivered) as [[ref' h1]|e] eqn:E; [|vm_compute in E; discriminate].
  destruct (prior_connection "anna" "c1" delivered) as [[ref p]|] eqn:Hp; [|vm_compute in Hp; discriminate].
  assert (ref = 0) as -> by (vm_compute in Hp; by injection Hp as <- _).
  assert (ref' = 1) as -> by (vm_compute in E; by injection E as <- _).
  destruct (replaced_stream_orphans_connection 10 5 6 "anna" "c1" (Some 1%Z) delivered 0 p 1 h1 delivered_reachable Hp E)
    as ((c & Hc & Hopen) & _ & Hsub).
  exists h1. split; [done|]. split; [by rewrite Hc; cbn; rewrite Hopen|].
  destruct (Hsub ["job:j1"]) as (_ & -> & _). vm_compute in E. injection E as <-. vm_compute. reflexivity.
Defined.

Lemma late_subscription_leaks_witness :
  mkListener 0 "job:j1" 0 ∈
    bus (stream_end 4 0 (task_step 3 0 (Some (JObj [("status", JStr "running")])) (stream_end 3 0 waiting))).
Proof.
  destruct (conns (stream_end 3 0 waiting) !! 0) as [c|] eqn:E; [|vm_compute in E; discriminate].
  apply (late_subscription_leaks 3 4 0 0 "job:j1" [] (Some (JObj [("status", JStr "running")])) "j1" c
    (stream_end 3 0 waiting) E).
  - vm_compute in E. injection E as <-. reflexivity.
  - vm_compute. reflexivity.
  - vm_compute. reflexivity.
  - reflexivity.
Defined.
