(* ===== verification/PlanTree.v ===== *)
(** * The progress tree of a job

    Models [src/shared/plan-tree.ts], and [buildPlanTree] and [taskVisualStatus]
    of [src/renderer/src/lib/jobProgress.ts]: the tree of milestones, slices and
    tasks that the user sees, computed from the plan, the progress items and the
    verification progress of a job.  [null] and [undefined] of the optional
    fields are both [None]; a [Map] built from a list keeps the last entry of a
    key ([last_by]). *)
From stdpp Require Import pretty.
From Stdlib Require Import Ascii.
From S2P Require Import Prelude Json JsString Sql SavedPlan Gate RepairTasks RepairSpecs.
From S2P Require Import TurnErrors Blocker TaskRecovery JobReferences PlanOutline PlanOutlineSpecs PlanStore.

#[local] Arguments bool_decide : simpl never.

(** ** Input *)

Module TaskShape.
Record t := mk {
  title : option string;
  description : option string;
  taskKind : option string;
  abilityCode : option string
}.
End TaskShape.

Module SliceShape.
Record t := mk {
  title : option string;
  description : option string;
  successCriteria : option string;
  acceptanceSignals : option (list string);
  expectedArtifacts : option (list string);
  tasks : list TaskShape.t
}.
End SliceShape.

Module MilestoneShape.
Record t := mk {
  title : option string;
  description : option string;
  successCriteria : option string;
  slices : list SliceShape.t
}.
End MilestoneShape.

Module SavedPlanShape.
Record t := mk { milestones : list MilestoneShape.t; tasks : list FlatTaskPlan.t }.
End SavedPlanShape.

Module TaskProgressItemShape.
Record t := mk {
  id : string;
  title : string;
  status : string;
  abilityCode : option string;
  executionStatus : option string;
  evidenceStatus : option string;
  errorMessage : option string;
  error : option TurnErrorDto.t;
  evidence : option TaskEvidence.t;
  evidenceArtifactId : option string;
  evidenceSummary : option string;
  coreCode : option string
}.
End TaskProgressItemShape.

Record ability := mkAbility { ab_abilityCode : string; ab_recommendedCoreCode : option string }.

Module BuildTreeInput.
Record t := mk {
  jobId : string;
  title : string;
  jobStatus : string;
  plan : option SavedPlanShape.t;
  taskProgressItems : list TaskProgressItemShape.t;
  currentTaskId : option string;
  slices : list (slice_progress SliceRecord.t);
  milestones : list milestone_progress;
  abilities : list ability;
  referenceManifest : option (list JobReferenceEntry.t)
}.
End BuildTreeInput.

(** ** The tree *)

Module TaskAssignedReference.
Record t := mk {
  id : string;
  name : string;
  kind : string;
  description : string;
  thumbnailUrl : option string
}.
End TaskAssignedReference.

(** What the progress item of a task says about its node. *)
Module ExecFields.
Record t := mk {
  status : string;
  executionStatus : option string;
  evidenceStatus : option string;
  errorMessage : option string;
  error : option TurnErrorDto.t;
  evidence : option TaskEvidence.t;
  evidenceArtifactId : option string;
  evidenceSummary : option string;
  coreCode : option string
}.
End ExecFields.

Module UnifiedTaskNode.
Record t := mk {
  id : string;
  title : string;
  description : string;
  taskKind : string;
  abilityCode : string;
  contextMarkdown : string;
  successCriteria : string;
  order : Z;
  planStatus : string;
  exec : ExecFields.t;
  coreCode : option string;
  referenceIds : option (list string);
  referenceReason : option string;
  assignedReferences : option (list TaskAssignedReference.t)
}.

Definition status (n : t) : string := ExecFields.status (exec n).
Definition executionStatus (n : t) : option string := ExecFields.executionStatus (exec n).
End UnifiedTaskNode.

Module UnifiedSliceNode.
Record t := mk {
  id : string;
  title : string;
  description : string;
  successCriteria : string;
  order : Z;
  status : string;
  runtimeStatus : option string;
  verificationStatus : option string;
  tasks : list UnifiedTaskNode.t
}.
End UnifiedSliceNode.

Module UnifiedMilestoneNode.
Record t := mk {
  id : string;
  title : string;
  description : string;
  successCriteria : string;
  order : Z;
  status : string;
  verificationStatus : option string;
  slices : list UnifiedSliceNode.t
}.
End UnifiedMilestoneNode.

Module UnifiedProgressTree.
Record t := mk {
  jobId : string;
  title : string;
  status : string;
  milestones : list UnifiedMilestoneNode.t
}.
End UnifiedProgressTree.

(** ** Texts and lookups *)

(** [x?.trim()], when the result is not empty *)
Definition trimmed (o : option string) : option string :=
  s ← o; if bool_decide (trim s = "") then None else Some (trim s).

(** [x || null] *)
Definition non_blank (o : option string) : option string :=
  s ← o; if bool_decide (s = "") then None else Some s.

(** [x ?? y] *)
Definition or_undefined {A} (x y : option A) : option A :=
  match x with Some _ => x | None => y end.

(** [new Map(l.map((x) => [x.id, x])).get(id)] *)
Definition last_by {A} (key : A → string) (l : list A) (id : string) : option A :=
  List.find (λ x, bool_decide (key x = id)) (rev l).

(** [l.length > 0 ? l : undefined] *)
Definition non_nil {A} (l : list A) : option (list A) :=
  match l with [] => None | _ => Some l end.

Definition resolveSliceSuccessCriteria (s : SliceShape.t) : string :=
  match trimmed (SliceShape.successCriteria s) with
  | Some c => c
  | None => join newline
      (map (λ x, "Acceptance: " +:+ x) (default [] (SliceShape.acceptanceSignals s)) ++
       map (λ x, "Expected artifact: " +:+ x) (default [] (SliceShape.expectedArtifacts s)))
  end.

Definition resolveAssignedReferencesFromDto (manifest : option (list JobReferenceEntry.t))
    (referenceIds : list string) : list TaskAssignedReference.t :=
  match manifest with
  | None => []
  | Some references =>
      omap (λ id, entry ← last_by JobReferenceEntry.id references id;
              Some (TaskAssignedReference.mk (JobReferenceEntry.id entry) (JobReferenceEntry.name entry)
                      (JobReferenceEntry.kind entry) (JobReferenceEntry.description entry)
                      (non_blank (Some (JobReferenceEntry.assetUrl entry))))) referenceIds
  end.

(** ** Statuses *)

Definition resolvePlanStatus (jobStatus : string) (hasContext : bool) : string :=
  if bool_decide (jobStatus ∈ ["plan_ready"; "running"; "completed"]) then "queued"
  else if bool_decide (jobStatus = "planning") then (if hasContext then "planned" else "pending")
  else "pending".

(** The fields that the branches for an item share. *)
Definition item_fields (status : string) (executionStatus : option string) (item : TaskProgressItemShape.t) :
    ExecFields.t :=
  ExecFields.mk status executionStatus (TaskProgressItemShape.evidenceStatus item)
    (or_undefined (TurnErrorDto.message <$> TaskProgressItemShape.error item) (TaskProgressItemShape.errorMessage item))
    (TaskProgressItemShape.error item) (TaskProgressItemShape.evidence item)
    (TaskProgressItemShape.evidenceArtifactId item)
    (or_undefined (TaskProgressItemShape.evidenceSummary item)
       (TaskEvidence.summary <$> TaskProgressItemShape.evidence item))
    (TaskProgressItemShape.coreCode item).

Definition mapExecutionStatus (item : option TaskProgressItemShape.t) (planStatus : string)
    (isCurrentTask jobRunning jobPaused : bool) : ExecFields.t :=
  match item with
  | None => ExecFields.mk "pending" (if bool_decide (planStatus = "queued") then Some "queued" else None)
              None None None None None None None
  | Some item =>
      let st := TaskProgressItemShape.status item in
      let ex := TaskProgressItemShape.executionStatus item in
      let treatAsRunning := isCurrentTask && jobRunning &&
        (bool_decide (st = "queued") || bool_decide (st = "running") || bool_decide (ex = Some "running")) in
      let looksActive := isCurrentTask || bool_decide (st = "running") || bool_decide (st = "queued") ||
        bool_decide (ex = Some "running") || bool_decide (ex = Some "retry-queued") in
      if jobPaused && negb (bool_decide (st ∈ ["completed"; "skipped"; "failed"])) && looksActive
      then item_fields "paused" (Some "paused") item
      else if isCurrentTask && jobPaused then item_fields "paused" (Some "paused") item
      else
        item_fields
          (if treatAsRunning then "in_progress"
           else if bool_decide (st = "running") then "in_progress"
           else if bool_decide (st = "queued") then "pending" else st)
          (if treatAsRunning then Some "running" else or_undefined ex (Some st)) item
  end.

Definition has_status (s : string) (n : UnifiedTaskNode.t) : bool :=
  bool_decide (UnifiedTaskNode.status n = s).

Definition sliceAggregateStatus (tasks : list UnifiedTaskNode.t) : string :=
  match tasks with
  | [] => "pending"
  | _ =>
      if forallb (λ t, has_status "completed" t || has_status "skipped" t) tasks then "completed"
      else if existsb (has_status "paused") tasks then "paused"
      else if existsb (has_status "in_progress") tasks then "in_progress"
      else if existsb (has_status "failed") tasks then "failed"
      else if existsb (has_status "completed") tasks then "in_progress"
      else "pending"
  end.

Section slice_status.
Import UnifiedSliceNode.

Definition sliceFullyVerified (s : t) : bool :=
  bool_decide (runtimeStatus s = Some "progress-ok") || bool_decide (verificationStatus s = Some "passed").

Definition sliceInVerification (s : t) : bool :=
  bool_decide (runtimeStatus s ∈ [Some "verifying"; Some "ready-for-verification"]) ||
  bool_decide (verificationStatus s ∈ [Some "verifying"; Some "ready-for-verification"]).

Definition slice_failed (s : t) : bool :=
  bool_decide (status s = "failed") || bool_decide (runtimeStatus s = Some "verification-blocked") ||
  bool_decide (verificationStatus s ∈ [Some "blocked"; Some "inconclusive"]).

(** [s.status === 'completed' && !sliceFullyVerified(s)] *)
Definition unverified (s : t) : bool := bool_decide (status s = "completed") && negb (sliceFullyVerified s).

(** The condition of the branch for a paused milestone. *)
Definition slice_held (s : t) : bool :=
  bool_decide (status s = "paused") || bool_decide (status s = "in_progress") ||
  bool_decide (runtimeStatus s = Some "running") || unverified s.

Definition slice_active (s : t) : bool :=
  bool_decide (status s = "in_progress") || bool_decide (runtimeStatus s = Some "running") ||
  sliceInVerification s || unverified s.

Definition milestoneAggregateStatus (slices : list t) (jobPaused : bool) : string :=
  match slices with
  | [] => "pending"
  | _ =>
      if forallb sliceFullyVerified slices then "completed"
      else if existsb slice_failed slices then "failed"
      else if (existsb (λ s, bool_decide (status s = "paused")) slices || jobPaused) && existsb slice_held slices
      then "paused"
      else if existsb slice_active slices then "in_progress"
      else "pending"
  end.
End slice_status.

(** ** Building the tree *)

Section build.
Context (input : BuildTreeInput.t) (plan : SavedPlanShape.t).

Definition jobPaused : bool := bool_decide (BuildTreeInput.jobStatus input ∈ ["paused"; "pausing"]).
Definition jobRunning : bool := bool_decide (BuildTreeInput.jobStatus input ∈ ["running"; "pending"]).

Definition task_node (m s : Z) (slice : SliceShape.t) (tIdx : nat) (raw : TaskShape.t) : UnifiedTaskNode.t :=
  let tNum := (Z.of_nat tIdx + 1)%Z in
  let id := task_id m s tNum in
  let flat := last_by FlatTaskPlan.id (SavedPlanShape.tasks plan) id in
  let progress := last_by TaskProgressItemShape.id (BuildTreeInput.taskProgressItems input) id in
  let hasContext := bool_decide (is_Some (trimmed (FlatTaskPlan.contextMarkdown <$> flat))) in
  let planStatus := resolvePlanStatus (BuildTreeInput.jobStatus input) hasContext in
  let exec := mapExecutionStatus progress planStatus
                (bool_decide (BuildTreeInput.currentTaskId input = Some id)) jobRunning jobPaused in
  let referenceIds := default [] (flat ≫= FlatTaskPlan.referenceIds) in
  let assigned := resolveAssignedReferencesFromDto (BuildTreeInput.referenceManifest input) referenceIds in
  let recommended := f ← flat;
    a ← List.find (λ a, bool_decide (ab_abilityCode a = FlatTaskPlan.abilityCode f)) (BuildTreeInput.abilities input);
    ab_recommendedCoreCode a in
  UnifiedTaskNode.mk id
    (default id (or_undefined (FlatTaskPlan.title <$> flat) (TaskShape.title raw)))
    (default "" (or_undefined (FlatTaskPlan.description <$> flat) (TaskShape.description raw)))
    (default "" (or_undefined (FlatTaskPlan.taskKind <$> flat) (TaskShape.taskKind raw)))
    (default "" (or_undefined (FlatTaskPlan.abilityCode <$> flat) (TaskShape.abilityCode raw)))
    (default "" (FlatTaskPlan.contextMarkdown <$> flat))
    (default (resolveSliceSuccessCriteria slice) (trimmed (FlatTaskPlan.successCriteria <$> flat)))
    tNum planStatus exec
    (or_undefined (trimmed (flat ≫= FlatTaskPlan.coreCode))
       (or_undefined (non_blank (ExecFields.coreCode exec)) (non_blank recommended)))
    (non_nil referenceIds) (flat ≫= FlatTaskPlan.referenceReason) (non_nil assigned).

(** The runtime status of a slice without a row of its own. *)
Definition synthesizedRuntime (tasks : list UnifiedTaskNode.t) : option string :=
  if negb (bool_decide (length tasks = 0)) && forallb (has_status "completed") tasks
  then Some "ready-for-verification"
  else if bool_decide (sliceAggregateStatus tasks = "in_progress") && negb jobPaused then Some "running" else None.

Definition slice_node (m : Z) (sIdx : nat) (slice : SliceShape.t) : UnifiedSliceNode.t :=
  let sNum := (Z.of_nat sIdx + 1)%Z in
  let tasks := mapi (task_node m sNum slice) (SliceShape.tasks slice) in
  let row := last_by sp_id (BuildTreeInput.slices input) (slice_id m sNum) in
  let rt := row ≫= sp_runtimeStatus in
  UnifiedSliceNode.mk (slice_id m sNum) (default "" (trimmed (SliceShape.title slice)))
    (default "" (SliceShape.description slice)) (resolveSliceSuccessCriteria slice) sNum
    (if bool_decide (rt = Some "progress-ok") then "completed" else sliceAggregateStatus tasks)
    (if jobPaused then
       if bool_decide (rt ∈ [Some "progress-ok"; Some "verifying"; Some "ready-for-verification"]) then rt else None
     else or_undefined rt (synthesizedRuntime tasks))
    (row ≫= sp_verificationStatus) tasks.

Definition milestone_node (mIdx : nat) (milestone : MilestoneShape.t) : UnifiedMilestoneNode.t :=
  let mNum := (Z.of_nat mIdx + 1)%Z in
  let slices := mapi (slice_node mNum) (MilestoneShape.slices milestone) in
  let row := last_by mp_id (BuildTreeInput.milestones input) (milestone_id mNum) in
  UnifiedMilestoneNode.mk (milestone_id mNum) (default "" (trimmed (MilestoneShape.title milestone)))
    (default "" (MilestoneShape.description milestone)) (default "" (trimmed (MilestoneShape.successCriteria milestone)))
    mNum (milestoneAggregateStatus slices jobPaused)
    (or_undefined (row ≫= mp_verificationStatus)
       (if negb (bool_decide (length slices = 0)) &&
           forallb (λ s, bool_decide (UnifiedSliceNode.runtimeStatus s = Some "progress-ok")) slices
        then Some "ready-for-verification" else None)) slices.
End build.

Definition buildUnifiedProgressTree (input : BuildTreeInput.t) : UnifiedProgressTree.t :=
  UnifiedProgressTree.mk (BuildTreeInput.jobId input) (BuildTreeInput.title input) (BuildTreeInput.jobStatus input)
    (match BuildTreeInput.plan input with
     | Some plan => mapi (milestone_node input plan) (SavedPlanShape.milestones plan)
     | None => []
     end).

(** ** The tree of a job *)

(** A saved plan read as the shape above. *)
Definition task_shape (t : PlannerRegisteredTask.t) : TaskShape.t :=
  TaskShape.mk (PlannerRegisteredTask.title t) (PlannerRegisteredTask.description t)
    (Some (PlannerRegisteredTask.taskKind t)) (PlannerRegisteredTask.abilityCode t).
Definition slice_shape (s : PlannerRegisteredSlice.t) : SliceShape.t :=
  SliceShape.mk (PlannerRegisteredSlice.title s) (PlannerRegisteredSlice.description s)
    (Some (PlannerRegisteredSlice.successCriteria s)) None None (map task_shape (PlannerRegisteredSlice.tasks s)).
Definition milestone_shape (m : PlannerRegisteredMilestone.t) : MilestoneShape.t :=
  MilestoneShape.mk (PlannerRegisteredMilestone.title m) (PlannerRegisteredMilestone.description m)
    (PlannerRegisteredMilestone.successCriteria m) (map slice_shape (PlannerRegisteredMilestone.slices m)).
Definition plan_shape (p : SavedJobPlan.t) : SavedPlanShape.t :=
  SavedPlanShape.mk (map milestone_shape (SavedJobPlan.milestones p)) (SavedJobPlan.tasks p).

(** The fields of a job that its tree is built from. *)
Module TreeJob.
Record t := mk {
  id : string;
  title : string;
  status : string;
  plan : option SavedJobPlan.t;
  items : list TaskProgressItemShape.t;
  currentTaskId : option string;
  slices : list (slice_progress SliceRecord.t);
  milestones : list milestone_progress;
  abilities : list ability;
  referenceManifest : option (list JobReferenceEntry.t)
}.
End TreeJob.

Definition tree_input (job : TreeJob.t) : BuildTreeInput.t :=
  BuildTreeInput.mk (TreeJob.id job) (TreeJob.title job) (TreeJob.status job) (plan_shape <$> TreeJob.plan job)
    (TreeJob.items job) (TreeJob.currentTaskId job) (TreeJob.slices job) (TreeJob.milestones job)
    (TreeJob.abilities job) (TreeJob.referenceManifest job).

Definition buildPlanTree (job : TreeJob.t) : list UnifiedMilestoneNode.t :=
  UnifiedProgressTree.milestones (buildUnifiedProgressTree (tree_input job)).

Definition taskVisualStatus (n : UnifiedTaskNode.t) (jobStatus : string) : string :=
  let st := UnifiedTaskNode.status n in
  let ex := UnifiedTaskNode.executionStatus n in
  let usual :=
    let status := default st ex in
    if bool_decide (status = "completed") then "completed"
    else if bool_decide (status ∈ ["running"; "ready"]) then "in_progress"
    else if bool_decide (status = "paused") then "paused"
    else if bool_decide (status ∈ ["waiting-on-dependency"; "queued"]) then "pending"
    else if bool_decide (status ∈ ["failed"; "blocked"]) then "failed"
    else if bool_decide (status ∈ ["retry-queued"; "waiting-on-dependency"; "waiting-on-repair"]) then "in_progress"
    else or_else st (UnifiedTaskNode.planStatus n) in
  if bool_decide (jobStatus = "planning") then UnifiedTaskNode.planStatus n
  else if bool_decide (jobStatus ∈ ["paused"; "pausing"]) then
    if bool_decide (st = "completed") || bool_decide (ex = Some "completed") then "completed"
    else if bool_decide (st = "failed") || bool_decide (ex = Some "failed") then "failed"
    else if bool_decide (st ∈ ["paused"; "in_progress"]) || bool_decide (ex ∈ [Some "running"; Some "paused"]) then "paused"
    else usual
  else usual.

(** ** Lookups *)

Lemma last_by_some {A} (key : A → string) l id x : last_by key l id = Some x → x ∈ l ∧ key x = id.
Proof.
  intros [Hx Hk%bool_decide_eq_true]%find_some. split; [|done]. by apply list_elem_of_In, in_rev.
Qed.

Lemma last_by_is_some {A} (key : A → string) l x : x ∈ l → ∃ y, last_by key l (key x) = Some y.
Proof.
  intros Hx. destruct (last_by key l (key x)) as [y|] eqn:E; [by exists y|].
  assert (bool_decide (key x = key x) = false) as Hf.
  { refine (find_none _ _ E x _). by apply in_rev; rewrite rev_involutive; apply list_elem_of_In. }
  by apply bool_decide_eq_false in Hf.
Qed.

Lemma NoDup_key {A} (key : A → string) l x y : NoDup (map key l) → x ∈ l → y ∈ l → key x = key y → x = y.
Proof.
  intros Hnd [i Hi]%list_elem_of_lookup [j Hj]%list_elem_of_lookup Hk.
  assert (i = j) as ->; [|congruence].
  eapply NoDup_lookup; [exact Hnd| |]; change (map key l) with (key <$> l); rewrite list_lookup_fmap.
  - by rewrite Hi.
  - by rewrite Hj, Hk.
Qed.

Lemma NoDup_concat_imap {A B} (f : nat → A → list B) l :
  (∀ i x, l !! i = Some x → NoDup (f i x)) →
  (∀ i j x y b, l !! i = Some x → l !! j = Some y → b ∈ f i x → b ∈ f j y → i = j) →
  NoDup (concat (imap f l)).
Proof.
  revert f. induction l as [|a l IH]; intros f Hnd Hdis; cbn; [constructor|].
  apply list.NoDup_app. split; [by apply (Hnd 0)|]. split.
  - intros b Hb Hin%list_elem_of_In. apply in_concat in Hin as (bs & Hbs%list_elem_of_In & Hin%list_elem_of_In).
    apply list_elem_of_lookup in Hbs as [j Hj]. rewrite list_lookup_imap in Hj.
    apply fmap_Some in Hj as (y & Hy & ->). by pose proof (Hdis 0 (S j) a y b eq_refl Hy Hb Hin).
  - apply IH; [by intros i x; apply (Hnd (S i))|]. intros i j x y b Hi Hj Hbi Hbj.
    by injection (Hdis (S i) (S j) x y b Hi Hj Hbi Hbj).
Qed.

Lemma built_slice_ids p :
  map GateSliceState.id (slices (buildGateStates p)) =
  concat (imap (λ m ms, imap (λ s _, slice_id (Z.of_nat m + 1) (Z.of_nat s + 1)) (PlannerRegisteredMilestone.slices ms))
            (SavedJobPlan.milestones p)).
Proof.
  cbn. unfold mapi. rewrite concat_map. f_equal. change (map ?f ?l) with (f <$> l). rewrite fmap_imap.
  apply imap_ext. intros m ms _. cbn. change (map ?f ?l) with (f <$> l). by rewrite fmap_imap.
Qed.

Lemma built_slice_ids_NoDup p : NoDup (map GateSliceState.id (slices (buildGateStates p))).
Proof.
  rewrite built_slice_ids. apply NoDup_concat_imap.
  - intros m ms _. apply NoDup_alt. intros i j x. rewrite !list_lookup_imap.
    intros (? & _ & ->)%fmap_Some (? & _ & E)%fmap_Some.
    by apply slice_place_inj in E as [].
  - intros m m' ms ms' b _ _ [i Hi]%list_elem_of_lookup [j Hj]%list_elem_of_lookup.
    rewrite list_lookup_imap in Hi, Hj. apply fmap_Some in Hi as (? & _ & ->), Hj as (? & _ & E).
    by apply slice_place_inj in E as [].
Qed.

(** ** The nodes of the tree *)

(** An entry of [mapi f (map g l)]. *)
Lemma mapi_map_lookup {A B C} (f : nat → B → C) (g : A → B) l i y :
  mapi f (map g l) !! i = Some y ↔ ∃ x, l !! i = Some x ∧ y = f i (g x).
Proof.
  unfold mapi. rewrite list_lookup_imap. change (map g l) with (g <$> l). rewrite list_lookup_fmap.
  destruct (l !! i); cbn; naive_solver.
Qed.

Lemma buildPlanTree_lookup job m node : buildPlanTree job !! m = Some node → ∃ p ms,
  TreeJob.plan job = Some p ∧ SavedJobPlan.milestones p !! m = Some ms ∧
  node = milestone_node (tree_input job) (plan_shape p) m (milestone_shape ms).
Proof.
  unfold buildPlanTree, buildUnifiedProgressTree. cbn [UnifiedProgressTree.milestones].
  change (BuildTreeInput.plan (tree_input job)) with (plan_shape <$> TreeJob.plan job).
  destruct (TreeJob.plan job) as [p|]; cbn [fmap option_fmap option_map]; [|done].
  intros (ms & Hms & ->)%mapi_map_lookup. by exists p, ms.
Qed.

Lemma node_slices input p m ms s sl :
  UnifiedMilestoneNode.slices (milestone_node input p m (milestone_shape ms)) !! s = Some sl ↔
  ∃ x, PlannerRegisteredMilestone.slices ms !! s = Some x ∧
       sl = slice_node input p (Z.of_nat m + 1) s (slice_shape x).
Proof. apply mapi_map_lookup. Qed.

Lemma node_tasks input p m s x i n :
  UnifiedSliceNode.tasks (slice_node input p m s (slice_shape x)) !! i = Some n ↔
  ∃ t, PlannerRegisteredSlice.tasks x !! i = Some t ∧
       n = task_node input p m (Z.of_nat s + 1) (slice_shape x) i (task_shape t).
Proof. apply mapi_map_lookup. Qed.

(** ** The theorems *)

Definition gate_accepted (s : GateSliceState.t) : bool :=
  bool_decide (GateSliceState.runtimeStatus s = Some "progress-ok") ||
  bool_decide (GateSliceState.verificationStatus s = Some "passed").

(** A slice without a row of its own is never shown as verified. *)
Lemma slice_node_verified input p m s x :
  sliceFullyVerified (slice_node input p m s x) =
  match last_by sp_id (BuildTreeInput.slices input) (slice_id m (Z.of_nat s + 1)) with
  | Some row => bool_decide (sp_runtimeStatus row = Some "progress-ok") ||
                bool_decide (sp_verificationStatus row = Some "passed")
  | None => false
  end.
Proof.
  unfold sliceFullyVerified, slice_node. cbn.
  assert (∀ tasks, synthesizedRuntime input tasks ≠ Some "progress-ok") as Hsyn.
  { intros tasks. unfold synthesizedRuntime. by repeat case_match. }
  destruct (last_by _ _ _) as [row|]; cbn.
  - destruct (jobPaused input); [|destruct (sp_runtimeStatus row) eqn:E; cbn].
    + destruct (bool_decide (sp_runtimeStatus row ∈ _)) eqn:Hin; [done|]. apply bool_decide_eq_false in Hin.
      rewrite (bool_decide_eq_false_2 (sp_runtimeStatus row = _)); [done|].
      intros E. rewrite E in Hin. by apply Hin, list_elem_of_here.
    + done.
    + by rewrite bool_decide_eq_false_2 by apply Hsyn.
  - destruct (jobPaused input); [done|]. by rewrite bool_decide_eq_false_2 by apply Hsyn.
Qed.

Lemma milestone_completed_iff ss paused :
  milestoneAggregateStatus ss paused = "completed" ↔ ss ≠ [] ∧ forallb sliceFullyVerified ss = true.
Proof.
  unfold milestoneAggregateStatus. destruct ss as [|s ss]; [by split; [|intros []]|].
  destruct (forallb _ _); [by split|]. split; [|by intros []]. by repeat case_match.
Qed.

(** The tree shows a milestone as completed exactly when the executor has accepted all its
    slices: for a job that carries the verification progress of its gate, in any status, and
    whatever its tasks say. *)
Theorem milestone_completed_when_accepted job p g existing m node :
  TreeJob.plan job = Some p →
  TreeJob.slices job = vp_slices (exportVerificationProgress g existing) →
  map GateSliceState.id (slices g) = map GateSliceState.id (slices (buildGateStates p)) →
  buildPlanTree job !! m = Some node →
  UnifiedMilestoneNode.status node = "completed" ↔
  UnifiedMilestoneNode.slices node ≠ [] ∧
  ∀ s, s ∈ slices g → GateSliceState.id s ∈ map UnifiedSliceNode.id (UnifiedMilestoneNode.slices node) →
       gate_accepted s = true.
Proof.
  intros Hp Hrows Hids (p' & ms & Hp' & Hms & ->)%buildPlanTree_lookup.
  assert (p' = p) as -> by congruence. set (node := milestone_node _ _ _ _).
  assert (NoDup (map GateSliceState.id (slices g))) as Hnd by (rewrite Hids; apply built_slice_ids_NoDup).
  change (UnifiedMilestoneNode.status node) with
    (milestoneAggregateStatus (UnifiedMilestoneNode.slices node) (jobPaused (tree_input job))).
  rewrite milestone_completed_iff. apply and_iff_compat_l.
  (* the row of a node is the one of its slice in the gate *)
  assert (∀ sl, sl ∈ UnifiedMilestoneNode.slices node → ∃ s, s ∈ slices g ∧
            GateSliceState.id s = UnifiedSliceNode.id sl ∧ sliceFullyVerified sl = gate_accepted s) as Hrow.
  { intros sl [i (x & Hx & ->)%node_slices]%list_elem_of_lookup.
    assert (slice_id (Z.of_nat m + 1) (Z.of_nat i + 1) ∈ map GateSliceState.id (slices g)) as Hin.
    { rewrite Hids, built_slice_ids. apply list_elem_of_In, in_concat.
      exists (imap (λ s _, slice_id (Z.of_nat m + 1) (Z.of_nat s + 1)) (PlannerRegisteredMilestone.slices ms)).
      split; apply list_elem_of_In, list_elem_of_lookup; [exists m|exists i]; by rewrite list_lookup_imap, ?Hms, ?Hx. }
    apply list_elem_of_In, in_map_iff in Hin as (s & Hid & Hs%list_elem_of_In). exists s. split; [done|]. split; [done|].
    rewrite slice_node_verified. change (BuildTreeInput.slices (tree_input job)) with (TreeJob.slices job).
    rewrite Hrows, <-Hid. cbn [vp_slices exportVerificationProgress].
    set (row_of := λ s : GateSliceState.t, mkSliceProgress _ _ _ _).
    destruct (last_by_is_some sp_id (map row_of (slices g)) (row_of s)) as (row & Hlast).
    { apply list_elem_of_In, in_map, list_elem_of_In, Hs. }
    change (sp_id (row_of s)) with (GateSliceState.id s) in Hlast. rewrite Hlast.
    apply last_by_some in Hlast as [(s' & <- & Hs'%list_elem_of_In)%list_elem_of_In%in_map_iff Hk].
    by rewrite (NoDup_key _ _ s' s Hnd Hs' Hs Hk). }
  rewrite forallb_forall. split.
  - intros Hall s Hs Hin. apply list_elem_of_In, in_map_iff in Hin as (sl & Hid & Hsl%list_elem_of_In).
    destruct (Hrow sl Hsl) as (s' & Hs' & Hid' & Hv). rewrite Hid in Hid'.
    rewrite <-(NoDup_key _ _ s' s Hnd Hs' Hs Hid'), <-Hv. by apply Hall, list_elem_of_In.
  - intros Hall sl Hsl%list_elem_of_In. destruct (Hrow sl Hsl) as (s & Hs & Hid & ->). apply Hall; [done|].
    rewrite Hid. by apply list_elem_of_In, in_map, list_elem_of_In.
Qed.

Lemma js_index_nat {A} (l : list A) n : js_index l (Z.of_nat n) = l !! n.
Proof. unfold js_index. by rewrite bool_decide_eq_false_2, Nat2Z.id by lia. Qed.

(** A task of the tree, by the position of its slice and milestone. *)
Lemma tree_task job ms sl n : ms ∈ buildPlanTree job → sl ∈ UnifiedMilestoneNode.slices ms →
  n ∈ UnifiedSliceNode.tasks sl → ∃ p m s slice i raw,
  TreeJob.plan job = Some p ∧ slice_at p (Z.of_nat m + 1) (Z.of_nat s + 1) = Some slice ∧
  PlannerRegisteredSlice.tasks slice !! i = Some raw ∧
  n = task_node (tree_input job) (plan_shape p) (Z.of_nat m + 1) (Z.of_nat s + 1) (slice_shape slice) i (task_shape raw).
Proof.
  intros [m (p & x & Hp & Hx & ->)%buildPlanTree_lookup]%list_elem_of_lookup
    [s (slice & Hs & ->)%node_slices]%list_elem_of_lookup [i (raw & Hr & ->)%node_tasks]%list_elem_of_lookup.
  exists p, m, s, slice, i, raw. split; [done|]. split; [|done].
  assert (∀ n, (Z.of_nat n + 1 - 1)%Z = Z.of_nat n) as E by lia.
  unfold slice_at, milestone_at. by rewrite !E, js_index_nat, Hx; cbn; rewrite js_index_nat.
Qed.

(** The progress item of a node. *)
Definition item_of (job : TreeJob.t) (n : UnifiedTaskNode.t) : option TaskProgressItemShape.t :=
  last_by TaskProgressItemShape.id (TreeJob.items job) (UnifiedTaskNode.id n).

Definition ITEM_STATUSES : list string := ["queued"; "running"; "completed"; "failed"; "skipped"].

Definition paused_job (status : string) : Prop := status = "paused" ∨ status = "pausing".

Lemma paused_job_paused input : paused_job (BuildTreeInput.jobStatus input) → jobPaused input = true ∧ jobRunning input = false.
Proof. unfold jobPaused, jobRunning. by intros [->| ->]. Qed.

Lemma paused_item it planStatus current : TaskProgressItemShape.status it ∈ ITEM_STATUSES →
  let f := mapExecutionStatus (Some it) planStatus current false true in
  f = item_fields "paused" (Some "paused") it ∨
  (TaskProgressItemShape.status it ∈ ["completed"; "failed"; "skipped"] ∧
   f = item_fields (TaskProgressItemShape.status it)
         (or_undefined (TaskProgressItemShape.executionStatus it) (Some (TaskProgressItemShape.status it))) it).
Proof.
  intros Hst. unfold mapExecutionStatus. rewrite andb_false_r, andb_true_r. cbn [andb].
  destruct current; [left; by destruct (negb _)|]. unfold ITEM_STATUSES in Hst.
  rewrite !elem_of_cons, elem_of_nil in Hst. destruct Hst as [->|[->|[->|[->|[->|[]]]]]]; [by left..| | |]; right;
    (split; [by rewrite !elem_of_cons; auto|done]).
Qed.

Lemma milestone_active_paused ss : milestoneAggregateStatus ss true = "in_progress" →
  ∃ s, s ∈ ss ∧ sliceInVerification s = true.
Proof.
  unfold milestoneAggregateStatus. destruct ss as [|s0 ss0]; [done|]. set (ss := s0 :: ss0).
  destruct (forallb _ _); [done|]. destruct (existsb slice_failed ss); [done|]. rewrite orb_true_r.
  destruct (existsb slice_held ss) eqn:Hheld; [done|]. cbn [andb].
  destruct (existsb slice_active ss) eqn:Hact; [intros _|done].
  apply existsb_exists in Hact as (s & Hs & Hact). exists s. split; [by apply list_elem_of_In|].
  assert (slice_held s = false) as Hh.
  { destruct (slice_held s) eqn:E; [|done]. rewrite <-Hheld. symmetry. apply existsb_exists. eauto. }
  unfold slice_held in Hh. unfold slice_active in Hact. destruct (bool_decide (UnifiedSliceNode.status s = "paused"));
    destruct (bool_decide (UnifiedSliceNode.status s = "in_progress")); destruct (unverified s);
    destruct (bool_decide (UnifiedSliceNode.runtimeStatus s = Some "running")); destruct (sliceInVerification s); done.
Qed.

(** The tree of a paused job shows no work: no task is shown as running, one that has not ended
    is shown as paused, no slice is shown as running, and a milestone is in progress only for a
    verification that is pending. *)
Theorem paused_tree_shows_no_work job ms sl n :
  paused_job (TreeJob.status job) →
  (∀ it, it ∈ TreeJob.items job → TaskProgressItemShape.status it ∈ ITEM_STATUSES) →
  ms ∈ buildPlanTree job → sl ∈ UnifiedMilestoneNode.slices ms → n ∈ UnifiedSliceNode.tasks sl →
  UnifiedTaskNode.status n ≠ "in_progress" ∧
  (∀ it, item_of job n = Some it → TaskProgressItemShape.status it ∈ ["queued"; "running"] →
     UnifiedTaskNode.status n = "paused") ∧
  (taskVisualStatus n (TreeJob.status job) = "in_progress" →
     TaskProgressItemShape.status <$> item_of job n = Some "skipped") ∧
  UnifiedSliceNode.runtimeStatus sl ≠ Some "running" ∧
  (UnifiedMilestoneNode.status ms = "in_progress" →
     ∃ s, s ∈ UnifiedMilestoneNode.slices ms ∧ sliceInVerification s = true).
Proof.
  intros Hjob Hitems Hms Hsl Hn. pose proof (paused_job_paused (tree_input job) Hjob) as [Hpaused Hrun].
  assert (UnifiedSliceNode.runtimeStatus sl ≠ Some "running" ∧ (UnifiedMilestoneNode.status ms = "in_progress" →
     ∃ s, s ∈ UnifiedMilestoneNode.slices ms ∧ sliceInVerification s = true)) as [Hrt Hact].
  { apply list_elem_of_lookup in Hms as [m (p & x & Hp & Hx & ->)%buildPlanTree_lookup].
    apply list_elem_of_lookup in Hsl as [s (slice & Hs & ->)%node_slices]. split.
    - cbn. rewrite Hpaused. destruct (bool_decide (_ ∈ [Some "progress-ok"; _; _])) eqn:Hin; [|done].
      apply bool_decide_eq_true in Hin. intros E. rewrite E in Hin.
      rewrite !elem_of_cons, elem_of_nil in Hin. by intuition.
    - cbn [UnifiedMilestoneNode.status UnifiedMilestoneNode.slices milestone_node]. rewrite Hpaused.
      apply milestone_active_paused. }
  destruct (tree_task job ms sl n Hms Hsl Hn) as (p & m & s & slice & i & raw & _ & _ & _ & ->).
  unfold item_of. cbn [UnifiedTaskNode.id task_node].
  unfold taskVisualStatus, UnifiedTaskNode.status, UnifiedTaskNode.executionStatus.
  cbn [UnifiedTaskNode.exec UnifiedTaskNode.planStatus task_node].
  change (BuildTreeInput.taskProgressItems (tree_input job)) with (TreeJob.items job).
  change (BuildTreeInput.jobStatus (tree_input job)) with (TreeJob.status job).
  rewrite Hpaused, Hrun. set (cur := bool_decide (_ = Some _)). set (ctx := bool_decide (is_Some _)).
  destruct (last_by TaskProgressItemShape.id _ _) as [it|] eqn:Hit.
  - pose proof (Hitems it (proj1 (last_by_some _ _ _ _ Hit))) as Hst.
    apply (paused_item _ (resolvePlanStatus (TreeJob.status job) ctx) cur) in Hst. cbv zeta in Hst.
    destruct Hst as [-> |[Hend ->]]; cbn [item_fields ExecFields.status ExecFields.executionStatus].
    + split; [done|]. split; [done|]. split; [|done]. by destruct Hjob as [->| ->].
    + rewrite !elem_of_cons, elem_of_nil in Hend. split; [by destruct Hend as [->|[->|[->|[]]]]|].
      split.
      { intros it' [= <-]. rewrite !elem_of_cons, elem_of_nil. by destruct Hend as [->|[->|[->|[]]]]; intros [|[|[]]]. }
      split; [|done]. set (ex := or_undefined _ _). cbn [fmap option_fmap option_map].
      destruct Hend as [->|[->|[->|[]]]]; [| |done];
        destruct Hjob as [->| ->]; by destruct (bool_decide (ex = Some "completed")).
  - split; [done|]. split; [done|]. split; [|done]. by destruct Hjob as [->| ->].
Qed.

(** Planning starts with an aligned plan. *)
Lemma flattened_aligned plan contexts : plan_aligned (flattenRegisteredPlan plan contexts).
Proof.
  split.
  - apply List.Forall_forall. intros f Hf%list_elem_of_In. cbn in Hf.
    by apply elem_each_task in Hf as (m & s & t & sl & task & _ & ->).
  - intros m s. unfold slice_indexes, nested_count. cbn [flattenRegisteredPlan SavedJobPlan.tasks].
    destruct (slice_at _ m s) as [sl|] eqn:Hs.
    + pose proof (slice_at_pos _ _ _ _ Hs). unfold slice_at, milestone_at in Hs.
      assert (m = Z.of_nat (Z.to_nat (m - 1)) + 1 ∧ s = Z.of_nat (Z.to_nat (s - 1)) + 1)%Z as [Em Es] by lia.
      apply bind_Some in Hs as (ms & [_ Hms]%js_index_lt & [_ Hsl]%js_index_lt).
      set (mi := Z.to_nat (m - 1)) in *. set (si := Z.to_nat (s - 1)) in *. rewrite Em, Es. unfold each_task, mapi.
      rewrite (filter_concat_imap _ _ _ mi ms Hms).
      2:{ intros i ? y Hi (j & ? & _ & (t & ? & _ & ->)%elem_imap)%elem_concat_imap. unfold in_slice. cbn.
          rewrite bool_decide_eq_false_2 by lia. done. }
      rewrite (filter_concat_imap _ _ _ si sl Hsl).
      2:{ intros i ? y Hi (t & ? & _ & ->)%elem_imap. unfold in_slice. cbn.
          rewrite (bool_decide_eq_false_2 (Z.of_nat i + 1 = _)%Z) by lia. by rewrite andb_false_r. }
      rewrite filter_all.
      2:{ intros y (t & ? & _ & ->)%elem_imap. unfold in_slice. cbn. by rewrite !bool_decide_eq_true_2. }
      rewrite map_imap. cbn. apply list_eq. intros i. rewrite list_lookup_imap.
      change (map Z.of_nat ?l) with (Z.of_nat <$> l). rewrite list_lookup_fmap.
      destruct (PlannerRegisteredSlice.tasks sl !! i) as [t|] eqn:Ht; cbn.
      * apply lookup_lt_Some in Ht. rewrite lookup_seq_lt by done. cbn. f_equal. lia.
      * apply lookup_ge_None in Ht. by rewrite lookup_seq_ge.
    + rewrite filter_none; [done|]. intros f (mi & si & t & sl & task & [(ms & Hms & Hsl) _] & ->)%elem_each_task.
      destruct (in_slice m s _) eqn:Hin; [|done]. apply in_slice_true in Hin as [Hm Hsi]. cbn in Hm, Hsi.
      assert (∀ n, (Z.of_nat n + 1 - 1)%Z = Z.of_nat n) as E by lia.
      unfold slice_at, milestone_at in Hs. rewrite <-Hm, <-Hsi, !E, js_index_nat in Hs.
      rewrite (Hms : SavedJobPlan.milestones (flattenRegisteredPlan plan contexts) !! mi = Some ms) in Hs.
      cbn [mbind option_bind] in Hs.
      by rewrite js_index_nat, Hsl in Hs.
Qed.

(** Every task of a slice in the tree of the plan has its node. *)
Lemma tree_has_task job p m s slice i raw : TreeJob.plan job = Some p →
  slice_at p (Z.of_nat m + 1) (Z.of_nat s + 1) = Some slice → PlannerRegisteredSlice.tasks slice !! i = Some raw →
  ∃ ms sl n, ms ∈ buildPlanTree job ∧ sl ∈ UnifiedMilestoneNode.slices ms ∧ n ∈ UnifiedSliceNode.tasks sl ∧
    UnifiedTaskNode.id n = task_id (Z.of_nat m + 1) (Z.of_nat s + 1) (Z.of_nat i + 1).
Proof.
  intros Hp Hs Hi. assert (∀ n, (Z.of_nat n + 1 - 1)%Z = Z.of_nat n) as E by lia.
  unfold slice_at, milestone_at in Hs. rewrite !E, js_index_nat in Hs.
  apply bind_Some in Hs as (x & Hx & Hs). rewrite js_index_nat in Hs.
  exists (milestone_node (tree_input job) (plan_shape p) m (milestone_shape x)),
    (slice_node (tree_input job) (plan_shape p) (Z.of_nat m + 1) s (slice_shape slice)),
    (task_node (tree_input job) (plan_shape p) (Z.of_nat m + 1) (Z.of_nat s + 1) (slice_shape slice) i (task_shape raw)).
  split; [|split; [|split; [|done]]]; apply list_elem_of_lookup.
  - exists m. unfold buildPlanTree, buildUnifiedProgressTree. cbn [UnifiedProgressTree.milestones].
    change (BuildTreeInput.plan (tree_input job)) with (plan_shape <$> TreeJob.plan job). rewrite Hp.
    apply mapi_map_lookup. eauto.
  - exists s. apply node_slices. eauto.
  - exists i. apply node_tasks. eauto.
Qed.

(** The tree shows the tasks of the plan, all of them and no others, when the flat list and
    the tree of the plan are aligned, which planning establishes and every injection of tasks
    keeps: each node is labelled with the flat task of its place. *)
Theorem tree_mirrors_plan job p :
  TreeJob.plan job = Some p → plan_aligned p →
  (∀ ms sl n, ms ∈ buildPlanTree job → sl ∈ UnifiedMilestoneNode.slices ms → n ∈ UnifiedSliceNode.tasks sl →
     ∃ f, f ∈ SavedJobPlan.tasks p ∧ UnifiedTaskNode.id n = FlatTaskPlan.id f ∧
          UnifiedTaskNode.title n = FlatTaskPlan.title f ∧ UnifiedTaskNode.description n = FlatTaskPlan.description f ∧
          UnifiedTaskNode.taskKind n = FlatTaskPlan.taskKind f ∧ UnifiedTaskNode.abilityCode n = FlatTaskPlan.abilityCode f ∧
          UnifiedTaskNode.contextMarkdown n = FlatTaskPlan.contextMarkdown f) ∧
  (∀ f, f ∈ SavedJobPlan.tasks p → ∃ ms sl n, ms ∈ buildPlanTree job ∧ sl ∈ UnifiedMilestoneNode.slices ms ∧
     n ∈ UnifiedSliceNode.tasks sl ∧ UnifiedTaskNode.id n = FlatTaskPlan.id f).
Proof.
  intros Hp Hal. pose proof Hal as [Hid _]. rewrite List.Forall_forall in Hid. split.
  - intros ms sl n Hms Hsl Hn. destruct (tree_task job ms sl n Hms Hsl Hn) as (p' & m & s & slice & i & raw & Hp' & Hs & Hi & ->).
    assert (p' = p) as -> by congruence. pose proof (lookup_lt_Some _ _ _ Hi) as Hlt.
    destruct (proj2 (aligned_index p (Z.of_nat m + 1) (Z.of_nat s + 1) (Z.of_nat i + 1) Hal)) as (f & Hf & Hidx).
    { unfold nested_count. rewrite Hs. lia. }
    apply elem_of_sliceTasks in Hf as [Hf Hin]. pose proof (Hid f (proj1 (list_elem_of_In _ _) Hf)) as Hfid.
    unfold in_slice in Hin. apply andb_true_iff in Hin as [Hm%bool_decide_eq_true Hsi%bool_decide_eq_true].
    rewrite Hm, Hsi, Hidx in Hfid.
    destruct (last_by_is_some FlatTaskPlan.id (SavedJobPlan.tasks p) f Hf) as (f' & Hlast). rewrite Hfid in Hlast.
    exists f'. pose proof (last_by_some _ _ _ _ Hlast) as [Hf' Hk]. unfold task_node.
    change (SavedPlanShape.tasks (plan_shape p)) with (SavedJobPlan.tasks p). rewrite Hlast. by rewrite Hk.
  - intros f Hf. set (m := FlatTaskPlan.milestoneIndex f). set (k := FlatTaskPlan.sliceIndex f).
    assert (1 ≤ FlatTaskPlan.taskIndex f ≤ Z.of_nat (nested_count p m k))%Z as Hidx.
    { apply aligned_index; [done|]. exists f. by rewrite elem_of_sliceTasks, in_slice_true. }
    destruct (aligned_slice_exists p f Hal Hf) as [[slice Hs] _]. fold m k in Hs.
    pose proof (slice_at_pos _ _ _ _ Hs) as [Hm Hk]. unfold nested_count in Hidx. rewrite Hs in Hidx.
    destruct (lookup_lt_is_Some_2 (PlannerRegisteredSlice.tasks slice) (Z.to_nat (FlatTaskPlan.taskIndex f - 1))) as [raw Hraw];
      [lia|].
    destruct (tree_has_task job p (Z.to_nat (m - 1)) (Z.to_nat (k - 1)) slice
                (Z.to_nat (FlatTaskPlan.taskIndex f - 1)) raw Hp) as (ms & sl & n & H1 & H2 & H3 & H4); [|done|].
    { rewrite <-Hs. f_equal; lia. }
    exists ms, sl, n. split; [done|]. split; [done|]. split; [done|].
    rewrite H4, (Hid f (proj1 (list_elem_of_In _ _) Hf)). f_equal; lia.
Qed.

(** ** Instances *)

Definition shown_task (title : string) : PlannerRegisteredTask.t :=
  PlannerRegisteredTask.mk (Some title) None "scaffolding" (Some "scaffolding") None None None None None None None.

Definition shown_slice (title : string) (tasks : list PlannerRegisteredTask.t) : PlannerRegisteredSlice.t :=
  PlannerRegisteredSlice.mk (Some title) None "builds" None None tasks.

(** A milestone with two slices, of two tasks and one. *)
Definition shown_plan : SavedJobPlan.t :=
  flattenRegisteredPlan
    [PlannerRegisteredMilestone.mk (Some "M1") None None None
       [shown_slice "S1" [shown_task "T1"; shown_task "T2"]; shown_slice "S2" [shown_task "T3"]]] ∅.

Definition shown_item (id status : string) (executionStatus : option string) : TaskProgressItemShape.t :=
  TaskProgressItemShape.mk id "T" status None executionStatus None None None None None None None.

Definition shown_items : list TaskProgressItemShape.t :=
  [shown_item "m1-s1-t1" "completed" (Some "completed"); shown_item "m1-s1-t2" "running" (Some "running");
   shown_item "m1-s2-t1" "queued" (Some "queued")].

Definition shown_job (status : string) (items : list TaskProgressItemShape.t)
    (rows : list (slice_progress SliceRecord.t)) : TreeJob.t :=
  TreeJob.mk "j1" "Job" status (Some shown_plan) items (Some "m1-s1-t2") rows [] [] None.

Definition statuses (job : TreeJob.t) : list (string * list (string * list string)) :=
  map (λ m, (UnifiedMilestoneNode.status m,
             map (λ s, (UnifiedSliceNode.status s, map UnifiedTaskNode.status (UnifiedSliceNode.tasks s)))
               (UnifiedMilestoneNode.slices m))) (buildPlanTree job).

Example running_tree_example : statuses (shown_job "running" shown_items []) =
  [("in_progress", [("in_progress", ["completed"; "in_progress"]); ("pending", ["pending"])])].
Proof. vm_compute. reflexivity. Qed.

Example paused_tree_example : statuses (shown_job "paused" shown_items []) =
  [("paused", [("paused", ["completed"; "paused"]); ("paused", ["paused"])])].
Proof. vm_compute. reflexivity. Qed.

(** The gate of the plan with both slices accepted. *)
Definition accepted_gate : gate :=
  applyVerificationProgress (V := SliceRecord.t)
    (Some (mkVerificationProgress [mkSliceProgress "m1-s1" (Some "progress-ok") (Some "passed") None;
                                   mkSliceProgress "m1-s2" (Some "progress-ok") (Some "passed") None] []))
    (buildGateStates shown_plan).

Definition accepted_job : TreeJob.t :=
  shown_job "running" shown_items (vp_slices (exportVerificationProgress accepted_gate None)).

Lemma milestone_completed_when_accepted_witness :
  UnifiedMilestoneNode.status <$> buildPlanTree accepted_job !! 0 = Some "completed".
Proof.
  destruct (buildPlanTree accepted_job !! 0) as [node|] eqn:E; [|vm_compute in E; discriminate E].
  cbn. f_equal. apply (milestone_completed_when_accepted accepted_job shown_plan accepted_gate None 0 node eq_refl eq_refl).
  - vm_compute. reflexivity.
  - exact E.
  - vm_compute in E. injection E as <-. split; [discriminate|]. intros s Hs _.
    assert (Forall (λ s, gate_accepted s = true) (slices accepted_gate)) as H by (vm_compute; repeat constructor).
    rewrite List.Forall_forall in H. apply H, list_elem_of_In, Hs.
Defined.

Lemma paused_tree_shows_no_work_witness : ∃ ms sl n,
  ms ∈ buildPlanTree (shown_job "paused" shown_items []) ∧ sl ∈ UnifiedMilestoneNode.slices ms ∧
  n ∈ UnifiedSliceNode.tasks sl ∧ UnifiedTaskNode.id n = "m1-s1-t2" ∧ UnifiedTaskNode.status n = "paused".
Proof.
  set (job := shown_job "paused" shown_items []).
  destruct (tree_has_task job shown_plan 0 0 (shown_slice "S1" [shown_task "T1"; shown_task "T2"]) 1 (shown_task "T2")
              eq_refl eq_refl eq_refl) as (ms & sl & n & Hms & Hsl & Hn & Hid).
  exists ms, sl, n. split; [exact Hms|]. split; [exact Hsl|]. split; [exact Hn|]. split; [exact Hid|].
  apply (paused_tree_shows_no_work job ms sl n (or_introl eq_refl)) with (it := shown_item "m1-s1-t2" "running" (Some "running"));
    [|exact Hms|exact Hsl|exact Hn| |vm_compute; right; left].
  - intros it Hit. assert (Forall (λ i, TaskProgressItemShape.status i ∈ ITEM_STATUSES) (TreeJob.items job)) as H.
    { repeat constructor. }
    rewrite List.Forall_forall in H. apply H, list_elem_of_In, Hit.
  - unfold item_of. rewrite Hid. vm_compute. reflexivity.
Defined.

Lemma tree_mirrors_plan_witness : ∃ ms sl n,
  ms ∈ buildPlanTree (shown_job "running" [] []) ∧ sl ∈ UnifiedMilestoneNode.slices ms ∧
  n ∈ UnifiedSliceNode.tasks sl ∧ UnifiedTaskNode.id n = "m1-s2-t1".
Proof.
  destruct (tree_mirrors_plan (shown_job "running" [] []) shown_plan eq_refl (flattened_aligned _ _)) as [_ H].
  destruct (SavedJobPlan.tasks shown_plan !! 2) as [f|] eqn:E; [|vm_compute in E; discriminate E].
  destruct (H f (list_elem_of_lookup_2 _ _ _ E)) as (ms & sl & n & Hms & Hsl & Hn & Hid).
  exists ms, sl, n. split; [exact Hms|]. split; [exact Hsl|]. split; [exact Hn|]. rewrite Hid.
  vm_compute in E. injection E as <-. reflexivity.
Defined.
