(* ===== verification/Wizard.v ===== *)
(** * The phases of the wizard

    Models [src/server/wizard]: [types.ts], [phase.ts], [core-runtime.ts],
    [tools.ts] and [edit-guard.ts], [conversation/draft/status.ts], and what
    [server/threads/service.ts] writes to the fields of a thread that the wizard
    uses.  A thread leads from the collection of requirements over the review of
    a draft to a plan; its phase is stored, and inferred from the stored phase and
    the selected draft and plan.  Messages to the user and the text of a handoff
    are left out, and the awaited calls of one operation run without another request
    in between. *)
From stdpp Require Import pretty.
From Stdlib Require Import Ascii.
From S2P Require Import Prelude Json JsonSpecs JsString Sql SavedPlan Gate Verdicts JsonParse.
Local Open Scope res_scope.

#[local] Arguments bool_decide : simpl never.

(** ** Phases *)

Module WizardPhase.
Inductive t := collect | draft_review | plan_generating | plan_edit | ready_to_launch.

#[global] Instance eq_dec : EqDecision t.
Proof. solve_decision. Defined.

Definition to_string (p : t) : string :=
  match p with
  | collect => "collect"
  | draft_review => "draft_review"
  | plan_generating => "plan_generating"
  | plan_edit => "plan_edit"
  | ready_to_launch => "ready_to_launch"
  end.

Definition all : list t := [collect; draft_review; plan_generating; plan_edit; ready_to_launch].

(** [isWizardPhase] *)
Definition of_string (s : string) : option t := List.find (λ p, bool_decide (to_string p = s)) all.

Lemma of_to p : of_string (to_string p) = Some p.
Proof. by destruct p. Qed.

Lemma trim_to p : trim (to_string p) = to_string p.
Proof. by destruct p. Qed.
End WizardPhase.
Import WizardPhase.

(** The phases in which a plan exists or is being made. *)
Definition plan_phase (p : WizardPhase.t) : bool := bool_decide (p ∈ [plan_generating; plan_edit; ready_to_launch]).

(** ** Threads, drafts and messages *)

Module WizardThread.
Record t := mk {
  id : string;
  username : string;
  activeDraftId : option string;
  activePlanId : option string;
  wizardPhase : string;
  coreCode : string;
  runtimeStatus : string;
  runtimeSessionId : option string;
  coreRuntimeJson : string;
  lastError : option string;
  updatedAt : Z
}.

Definition set_context (draft plan : option string) (phase : string) (now : Z) (r : t) : t :=
  mk (id r) (username r) draft plan phase (coreCode r) (runtimeStatus r) (runtimeSessionId r) (coreRuntimeJson r)
    (lastError r) now.
Definition set_runtime (core status : string) (session : option string) (error : option string) (now : Z) (r : t) : t :=
  mk (id r) (username r) (activeDraftId r) (activePlanId r) (wizardPhase r) core status session (coreRuntimeJson r)
    error now.
Definition set_coreRuntimeJson (s : string) (r : t) : t :=
  mk (id r) (username r) (activeDraftId r) (activePlanId r) (wizardPhase r) (coreCode r) (runtimeStatus r)
    (runtimeSessionId r) s (lastError r) (updatedAt r).
End WizardThread.

Module WizardHandoffPayload.
Record t := mk {
  from : WizardPhase.t;
  to : WizardPhase.t;
  reason : option string;
  requirementsSummary : option string;
  openQuestions : option (list string);
  constraints : option (list string);
  sourceMessageIds : option (list string);
  draftMessageId : option string;
  draftRevision : option Z;
  planId : option string
}.
End WizardHandoffPayload.

Module RequirementsContract.
Record t := mk { markdown : string; status : string; confirmedAt : option string }.
End RequirementsContract.

Record draft_acceptance := mkDraftAcceptance { ac_id : string; ac_given : string; ac_when : string; ac_then : string }.

Record draft_ability := mkDraftAbility {
  da_abilityCode : string;
  da_label : string;
  da_description : string;
  da_reason : string;
  da_recommendedCoreCode : string
}.

(** [TaskLaunchDraftPayload]; the fields no operation here looks at are [other]. *)
Module Draft.
Record t := mk {
  draftId : string;
  title : string;
  summary : string;
  userFlow : string;
  techStack : string;
  nfr : list string;
  acceptance : list draft_acceptance;
  outOfScope : list string;
  assumptions : list string;
  requirementsContract : RequirementsContract.t;
  status : string;
  linkedPlanId : option string;
  lockedSections : gmap string bool;
  abilities : list draft_ability;
  revision : option Z;
  other : json
}.
End Draft.

Inductive payload :=
| DraftPayload (d : Draft.t)
| HandoffPayload (h : WizardHandoffPayload.t)
| OtherPayload.

Module Message.
Record t := mk {
  id : string;
  threadId : string;
  username : string;
  kind : string;
  body : payload
}.
End Message.

Record wizard := mkWizard { wz_threads : list WizardThread.t; wz_messages : list Message.t }.

Definition set_threads (l : list WizardThread.t) (w : wizard) : wizard := mkWizard l (wz_messages w).
Definition set_messages (l : list Message.t) (w : wizard) : wizard := mkWizard (wz_threads w) l.

Definition thread_of (username threadId : string) (r : WizardThread.t) : bool :=
  bool_decide (WizardThread.username r = username) && bool_decide (WizardThread.id r = threadId).

Definition getThreadRow (username threadId : string) (w : wizard) : option WizardThread.t :=
  List.find (thread_of username threadId) (wz_threads w).

Definition getMessage (username threadId messageId : string) (w : wizard) : option Message.t :=
  List.find (λ m, bool_decide (Message.username m = username) && bool_decide (Message.threadId m = threadId) &&
                  bool_decide (Message.id m = messageId)) (wz_messages w).

Definition need_thread (username threadId : string) (w : wizard) : result string WizardThread.t :=
  match getThreadRow username threadId w with Some row => Ok row | None => Err "thread.not_found" end.

(** ** The phase of a thread *)

Definition resolveWizardPhase (row : WizardThread.t) : WizardPhase.t :=
  let stored := trim (WizardThread.wizardPhase row) in
  if bool_decide (stored = to_string collect) then collect
  else if truthy (WizardThread.activePlanId row) then
    match of_string stored with
    | Some p => if plan_phase p then p else plan_edit
    | None => plan_edit
    end
  else if truthy (WizardThread.activeDraftId row) then draft_review
  else default collect (of_string stored).

Inductive intent :=
| SetPhase (phase : WizardPhase.t)
| InferFromContext (activeDraftId activePlanId : option string) (draftIsPlaceholder : bool)
| CollectingDraft.

(** [None] leaves the column unchanged. *)
Definition resolveThreadWizardPhaseWrite (row : WizardThread.t) (i : intent) : option WizardPhase.t :=
  match i with
  | SetPhase p => Some p
  | CollectingDraft => Some collect
  | InferFromContext draft plan placeholder =>
      if truthy plan then Some plan_edit
      else if truthy draft && negb (truthy (WizardThread.activePlanId row)) then
        if placeholder then None else Some draft_review
      else None
  end.

Definition assertWizardPhase (current : WizardPhase.t) (expected : list WizardPhase.t) : result string unit :=
  if bool_decide (current ∈ expected) then Ok tt else Err "wizard.invalid_phase".

Definition assertThreadWizardPhase (username threadId : string) (expected : list WizardPhase.t) (w : wizard) :
    result string (WizardThread.t * WizardPhase.t) :=
  let? row := need_thread username threadId w in
  let? u := assertWizardPhase (resolveWizardPhase row) expected in
  Ok (row, resolveWizardPhase row).

Definition assertActiveDraft (username threadId draftMessageId : string) (revision : option Z) (w : wizard) :
    result string Draft.t :=
  let? row := need_thread username threadId w in
  if truthy (WizardThread.activeDraftId row) && negb (bool_decide (WizardThread.activeDraftId row = Some draftMessageId))
  then Err "draft.not_selected"
  else match getMessage username threadId draftMessageId w with
       | Some m =>
           if negb (bool_decide (Message.kind m = "task-launch-draft")) then Err "draft.not_found"
           else match Message.body m with
                | DraftPayload d =>
                    if bool_decide (Draft.draftId d = "") then Err "draft.invalid_payload"
                    else match revision with
                         | Some n => if bool_decide (default 0%Z (Draft.revision d) = n) then Ok d else Err "draft.conflict"
                         | None => Ok d
                         end
                | _ => Err "draft.invalid_payload"
                end
       | None => Err "draft.not_found"
       end.

Definition assertActivePlan (username threadId jobId : string) (w : wizard) : result string unit :=
  let? row := need_thread username threadId w in
  if truthy (WizardThread.activePlanId row) && negb (bool_decide (WizardThread.activePlanId row = Some jobId))
  then Err "job.not_selected" else Ok tt.

(** ** Handoffs *)

Definition summary_line (label text : string) : list string :=
  if bool_decide (trim text = "") then [] else [label +:+ trim text].

Definition buildCollectToDraftHandoff (draftMessageId : string) (draftRevision : Z) (d : Draft.t)
    (sources : option (list string)) : WizardHandoffPayload.t :=
  WizardHandoffPayload.mk collect draft_review None
    (Some (join (String "010" "") (List.filter (λ s, negb (bool_decide (s = "")))
       ([Draft.title d; Draft.summary d] ++ summary_line "User flow: " (Draft.userFlow d) ++
        summary_line "Tech stack: " (Draft.techStack d)))))
    (Some []) (Some (Draft.outOfScope d)) sources (Some draftMessageId) (Some draftRevision) None.

Definition buildDraftToPlanHandoff (draftMessageId : string) (draftRevision : Z) (planId : string) (d : Draft.t) :
    WizardHandoffPayload.t :=
  WizardHandoffPayload.mk draft_review plan_edit None (Some (RequirementsContract.markdown (Draft.requirementsContract d)))
    None (Some (Draft.outOfScope d)) None (Some draftMessageId) (Some draftRevision) (Some planId).

Definition buildRollbackHandoff (from to : WizardPhase.t) (reason : string) (draftMessageId : option string)
    (draftRevision : option Z) : WizardHandoffPayload.t :=
  WizardHandoffPayload.mk from to (Some reason) None None None None draftMessageId draftRevision None.

Definition buildPlanPhaseHandoff (from to : WizardPhase.t) (planId : string) (draftMessageId reason : option string) :
    WizardHandoffPayload.t :=
  WizardHandoffPayload.mk from to reason None None None None draftMessageId None (Some planId).

(** ** Sessions of the providers, per CLI and phase *)

Definition CoreRuntimeMap : Type := list (string * json).

Definition parseCoreRuntimeJson (text : string) : CoreRuntimeMap :=
  match parse_json text with
  | Some (JObj fields) => fields
  | Some (JArr items) => imap (λ i x, (pretty i, x)) items
  | _ => []
  end.

(** [object[key]] *)
Definition field_get (key : string) (fields : CoreRuntimeMap) : option json := json_get key (JObj fields).

(** [object[key] = value] is [set_json_field]. *)

Definition normalizePhaseEntry (entry : option json) : CoreRuntimeMap :=
  match entry with
  | Some (JStr s) => [("collect", JStr s); ("draft_review", JStr s); ("plan_edit", JStr s)]
  | Some (JObj fields) => fields
  | Some (JArr items) => imap (λ i x, (pretty i, x)) items
  | _ => []
  end.

(** Session ids are texts. *)
Definition session_of (v : option json) : option string := match v with Some (JStr s) => Some s | _ => None end.

Definition getCorePhaseRuntime (map : CoreRuntimeMap) (coreCode : string) (phase : WizardPhase.t) : option string :=
  match field_get coreCode map with
  | Some (JStr s) => Some s
  | Some entry => session_of (json_get (to_string phase) entry)
  | None => None
  end.

Definition setCorePhaseRuntime (map : CoreRuntimeMap) (coreCode : string) (phase : WizardPhase.t)
    (sessionId : option string) : CoreRuntimeMap :=
  set_json_field coreCode
    (JObj (set_json_field (to_string phase) (json_of_option sessionId) (normalizePhaseEntry (field_get coreCode map)))) map.

Definition clearCorePhaseRuntime (map : CoreRuntimeMap) (coreCode : string) (phase : WizardPhase.t) : CoreRuntimeMap :=
  setCorePhaseRuntime map coreCode phase None.

(** ** Operations on a thread *)

Definition update_thread (username threadId : string) (f : WizardThread.t → WizardThread.t) (w : wizard) : wizard :=
  set_threads (map (λ r, if thread_of username threadId r then f r else r) (wz_threads w)) w.

Record advance_input := mkAdvance {
  av_to : WizardPhase.t;
  av_handoff : WizardHandoffPayload.t;
  av_activeDraftId : option (option string);
  av_activePlanId : option (option string);
  av_coreCode : string
}.

Definition RUNTIME_STATUS_IDLE : string := "idle".
Definition RUNTIME_STATUS_RUNNING : string := "running".

(** The patch of [advanceWizardPhase]. *)
Definition advance_row (now : Z) (i : advance_input) (row : WizardThread.t) (r : WizardThread.t) : WizardThread.t :=
  WizardThread.mk (WizardThread.id r) (WizardThread.username r)
    (default (WizardThread.activeDraftId r) (av_activeDraftId i))
    (default (WizardThread.activePlanId r) (av_activePlanId i))
    (match resolveThreadWizardPhaseWrite row (SetPhase (av_to i)) with
     | Some p => to_string p
     | None => WizardThread.wizardPhase r
     end) (WizardThread.coreCode r) RUNTIME_STATUS_IDLE None
    (stringify (JObj (clearCorePhaseRuntime (parseCoreRuntimeJson (WizardThread.coreRuntimeJson row)) (av_coreCode i) (av_to i))))
    (WizardThread.lastError r) now.

(** [msgId] is a new UUID. *)
Definition advanceWizardPhase (now : Z) (msgId username threadId : string) (i : advance_input) (w : wizard) :
    result string (WizardThread.t * wizard) :=
  let? row := need_thread username threadId w in
  if bool_decide (msgId ∈ map Message.id (wz_messages w)) then Err "UNIQUE constraint failed" else
  let message := Message.mk msgId threadId username "wizard-handoff" (HandoffPayload (av_handoff i)) in
  let w1 := update_thread username threadId (advance_row now i row) (set_messages (wz_messages w ++ [message]) w) in
  match getThreadRow username threadId w1 with
  | Some updated => Ok (updated, w1)
  | None => Err "thread.read_failed"
  end.

Definition requestPhaseRollback (now : Z) (msgId username threadId : string) (to : WizardPhase.t) (reason coreCode : string)
    (w : wizard) : result string (WizardThread.t * wizard) :=
  let? row := need_thread username threadId w in
  let from := resolveWizardPhase row in
  let handoff := buildRollbackHandoff from to reason (WizardThread.activeDraftId row) None in
  match to with
  | collect =>
      if bool_decide (from = collect) then Err "wizard.already_in_phase"
      else advanceWizardPhase now msgId username threadId (mkAdvance collect handoff (Some None) (Some None) coreCode) w
  | draft_review =>
      if negb (bool_decide (from = plan_edit)) then Err "wizard.rollback_not_allowed"
      else if negb (truthy (WizardThread.activeDraftId row)) then Err "wizard.rollback_not_allowed"
      else advanceWizardPhase now msgId username threadId (mkAdvance draft_review handoff None (Some None) coreCode) w
  | _ => Err "wizard.invalid_phase"
  end.

Definition isCollectingDraftPayload (collecting : bool) (d : Draft.t) : bool :=
  collecting && bool_decide (trim (RequirementsContract.markdown (Draft.requirementsContract d)) = "") &&
  bool_decide (trim (Draft.summary d) = "") && negb (bool_decide (Draft.status d = "confirmed")).

(** [payload.collecting === true] *)
Definition collecting_flag (d : Draft.t) : bool :=
  match json_get "collecting" (Draft.other d) with Some (JBool b) => b | _ => false end.

Definition draft_is_placeholder (username threadId draftId : string) (w : wizard) : bool :=
  match getMessage username threadId draftId w with
  | Some m => negb (bool_decide (Message.kind m = "task-launch-draft")) ||
              match Message.body m with DraftPayload d => isCollectingDraftPayload (collecting_flag d) d | _ => false end
  | None => true
  end.

Definition updateThreadContext (now : Z) (username threadId : string) (draft plan : option (option string)) (w : wizard) :
    result string (WizardThread.t * wizard) :=
  let? existing := need_thread username threadId w in
  let draftId := d ← draft; d in
  let planId := p ← plan; p in
  let placeholder := negb (truthy planId) && truthy draftId && negb (truthy (WizardThread.activePlanId existing)) &&
                     draft_is_placeholder username threadId (default "" draftId) w in
  let phase := resolveThreadWizardPhaseWrite existing (InferFromContext draftId planId placeholder) in
  let w1 := update_thread username threadId (λ r, WizardThread.set_context
      (default (WizardThread.activeDraftId r) draft) (default (WizardThread.activePlanId r) plan)
      (match phase with Some p => to_string p | None => WizardThread.wizardPhase r end) now r) w in
  match getThreadRow username threadId w1 with
  | Some row => Ok (row, w1)
  | None => Err "thread.read_failed"
  end.

(** The column is written for the id of the thread alone. *)
Definition saveCoreRuntime (threadId : string) (row : WizardThread.t) (coreCode : string) (sessionId : option string)
    (phase : WizardPhase.t) (w : wizard) : wizard :=
  let next := setCorePhaseRuntime (parseCoreRuntimeJson (WizardThread.coreRuntimeJson row)) coreCode phase sessionId in
  set_threads (map (λ r, if bool_decide (WizardThread.id r = threadId)
                         then WizardThread.set_coreRuntimeJson (stringify (JObj next)) r else r) (wz_threads w)) w.

Definition getCoreRuntime (row : WizardThread.t) (coreCode : string) (phase : WizardPhase.t) : option string :=
  getCorePhaseRuntime (parseCoreRuntimeJson (WizardThread.coreRuntimeJson row)) coreCode phase.

Definition getThreadPhaseRuntime (row : WizardThread.t) : option string :=
  getCoreRuntime row (WizardThread.coreCode row) (resolveWizardPhase row).

(** [normalized] is the code of a provider the server supports. *)
Definition updateThreadCore (now : Z) (username threadId normalized : string) (w : wizard) :
    result string (WizardThread.t * wizard) :=
  let? existing := need_thread username threadId w in
  if bool_decide (WizardThread.coreCode existing = normalized) then Ok (existing, w)
  else if bool_decide (WizardThread.runtimeStatus existing = RUNTIME_STATUS_RUNNING) then Err "thread.busy"
  else
    let phase := resolveWizardPhase existing in
    let w1 := saveCoreRuntime threadId existing (WizardThread.coreCode existing) (WizardThread.runtimeSessionId existing) phase w in
    let restored := getCoreRuntime existing normalized phase in
    let w2 := update_thread username threadId (WizardThread.set_runtime normalized RUNTIME_STATUS_IDLE restored None now) w1 in
    match getThreadRow username threadId w2 with
    | Some row => Ok (row, w2)
    | None => Err "thread.read_failed"
    end.

Definition updateThreadRuntime (now : Z) (username threadId coreCode : string) (sessionId : option string)
    (status : string) (error : option string) (w : wizard) : result string (WizardThread.t * wizard) :=
  let w1 := update_thread username threadId
              (λ r, WizardThread.set_runtime (WizardThread.coreCode r) status sessionId error now r) w in
  let? row := need_thread username threadId w1 in
  let w2 := saveCoreRuntime threadId row coreCode sessionId (resolveWizardPhase row) w1 in
  match getThreadRow username threadId w2 with
  | Some updated => Ok (updated, w2)
  | None => Err "thread.read_failed"
  end.

(** ** Guards *)

Definition normalizeDraftStatus (status : string) : string :=
  if bool_decide (status ∈ ["confirmed"; "archived"]) then status
  else if bool_decide (status = "launched") then "confirmed" else "editing".

Definition isDraftEditable (d : Draft.t) : bool := bool_decide (normalizeDraftStatus (Draft.status d) = "editing").

(** [text?.trim()] is not empty. *)
Definition has_text (o : option string) : bool := match o with Some s => negb (bool_decide (trim s = "")) | None => false end.

Definition isDraftSectionLocked (d : Draft.t) (section : string) : bool :=
  negb (isDraftEditable d) || bool_decide (Draft.lockedSections d !! section = Some true) ||
  (bool_decide (section = "requirementsContract") &&
   bool_decide (RequirementsContract.status (Draft.requirementsContract d) = "confirmed")).

Definition isDraftWorkspaceLocked (d : Draft.t) (row : WizardThread.t) : bool :=
  negb (isDraftEditable d) || has_text (Draft.linkedPlanId d) || has_text (WizardThread.activePlanId row).

(** [Some reason] when the edit is refused, with [unlockRequired]. *)
Definition checkDraftEditAllowed (username threadId draftMessageId : string) (w : wizard) :
    result string (option (string * bool)) :=
  let? row := need_thread username threadId w in
  if negb (bool_decide (resolveWizardPhase row = draft_review))
  then Ok (Some ("wrong_phase", truthy (WizardThread.activePlanId row)))
  else match Message.body <$> getMessage username threadId draftMessageId w with
       | Some (DraftPayload d) =>
           if bool_decide (Draft.draftId d = "") then Ok (Some ("not_editable", false))
           else if isDraftWorkspaceLocked d row then Ok (Some ("locked", true))
           else if negb (isDraftEditable d) then Ok (Some ("not_editable", true)) else Ok None
       | _ => Ok (Some ("not_editable", false))
       end.

Definition COMMON_TOOLS : list string := ["read_reference_attachment"; "rename_thread"].

Definition toolsForWizardPhase (p : WizardPhase.t) : list string :=
  COMMON_TOOLS ++
  match p with
  | collect => ["propose_task_draft"; "delete_thread"]
  | draft_review =>
      ["get_task_draft"; "revise_requirements_contract"; "update_task_draft"; "confirm_requirements_contract";
       "confirm_draft_section"; "list_reference_corpus"; "update_reference_corpus_item"; "remove_reference_corpus_item";
       "request_phase_rollback"]
  | plan_generating => ["get_task_draft"; "list_reference_corpus"; "request_phase_rollback"]
  | plan_edit =>
      ["get_task_draft"; "get_execution_plan"; "update_execution_plan_node"; "replace_execution_plan";
       "request_plan_regeneration"; "request_phase_rollback"]
  | ready_to_launch => ["get_task_draft"; "get_execution_plan"; "request_phase_rollback"]
  end.

Definition isToolAllowedInWizardPhase (toolName : string) (p : WizardPhase.t) : bool :=
  bool_decide (toolName ∈ toolsForWizardPhase p).

(** ** Facts on sessions *)

Lemma json_get_set k v fs k' :
  json_get k' (JObj (set_json_field k v fs)) = if bool_decide (k = k') then Some v else json_get k' (JObj fs).
Proof.
  unfold json_get. induction fs as [|[k0 v0] fs IH]; cbn.
  - by case_bool_decide.
  - destruct (decide (k0 = k)) as [->|Hk]; [rewrite (bool_decide_eq_true_2 (k = k)) by done; cbn; by destruct (bool_decide (k = k'))|].
    rewrite (bool_decide_eq_false_2 (k0 = k)) by done. cbn.
    destruct (decide (k0 = k')) as [->|Hk']; [by rewrite (bool_decide_eq_true_2 (k' = k')), bool_decide_eq_false_2 by congruence|].
    by rewrite (bool_decide_eq_false_2 (k0 = k')) by done.
Qed.

Lemma array_fields_unique l : forallb keys_unique l = true → keys_unique (JObj (imap (λ i x, (pretty i, x)) l)) = true.
Proof.
  intros Hl. cbn. apply andb_true_iff. split.
  - apply bool_decide_eq_true, NoDup_alt. intros i j x. change (map fst ?k) with (fst <$> k).
    rewrite !list_lookup_fmap, !list_lookup_imap. intros Hi Hj.
    destruct (l !! i); [|done]. destruct (l !! j); [|done]. cbn in Hi, Hj. injection Hi as <-. injection Hj as Hj.
    by apply (inj pretty) in Hj.
  - apply forallb_forall. intros kv Hkv%list_elem_of_In. apply list_elem_of_lookup in Hkv as [i Hi].
    rewrite list_lookup_imap in Hi. apply fmap_Some in Hi as (x & Hx & ->). cbn.
    rewrite forallb_forall in Hl. apply Hl, list_elem_of_In, list_elem_of_lookup. eauto.
Qed.

Lemma parsed_map_unique text : keys_unique (JObj (parseCoreRuntimeJson text)) = true.
Proof.
  unfold parseCoreRuntimeJson. destruct (parse_json text) as [v|] eqn:E; [|done]. apply parse_json_unique in E.
  destruct v; try done. by apply array_fields_unique.
Qed.

Lemma field_unique key fs v : keys_unique (JObj fs) = true → field_get key fs = Some v → keys_unique v = true.
Proof.
  intros [_ Hall]%andb_true_iff. unfold field_get, json_get. intros ([k x] & Hf & ->)%fmap_Some.
  apply find_some in Hf as [Hin _]. rewrite forallb_forall in Hall. exact (Hall (k, x) Hin).
Qed.

Lemma entry_unique map coreCode : keys_unique (JObj map) = true →
  keys_unique (JObj (normalizePhaseEntry (field_get coreCode map))) = true.
Proof.
  intros Hm. destruct (field_get coreCode map) as [v|] eqn:E; [|done]. apply (field_unique _ _ _ Hm) in E.
  destruct v; try done. by apply array_fields_unique.
Qed.

Lemma set_session_unique map coreCode phase s : keys_unique (JObj map) = true →
  keys_unique (JObj (setCorePhaseRuntime map coreCode phase s)) = true.
Proof.
  intros Hm. apply set_field_unique; [done|]. apply set_field_unique; [by apply entry_unique|]. by destruct s.
Qed.

(** What is stored for the sessions is read back. *)
Lemma stored_map_read map : keys_unique (JObj map) = true → parseCoreRuntimeJson (stringify (JObj map)) = map.
Proof. intros Hm. unfold parseCoreRuntimeJson. by rewrite parse_stringify. Qed.

Lemma get_set_session map coreCode phase s : getCorePhaseRuntime (setCorePhaseRuntime map coreCode phase s) coreCode phase = s.
Proof.
  unfold getCorePhaseRuntime, setCorePhaseRuntime, field_get. rewrite json_get_set, bool_decide_eq_true_2 by done.
  rewrite json_get_set, bool_decide_eq_true_2 by done. by destruct s.
Qed.

Lemma saved_session_read text coreCode phase s :
  getCorePhaseRuntime (parseCoreRuntimeJson (stringify (JObj
    (setCorePhaseRuntime (parseCoreRuntimeJson text) coreCode phase s)))) coreCode phase = s.
Proof. rewrite stored_map_read; [apply get_set_session|]. apply set_session_unique, parsed_map_unique. Qed.

(** ** Facts on rows *)

Lemma thread_of_true username threadId r : thread_of username threadId r = true ↔
  WizardThread.username r = username ∧ WizardThread.id r = threadId.
Proof. unfold thread_of. rewrite andb_true_iff, !bool_decide_eq_true. done. Qed.

Lemma find_map_keep {A} (p : A → bool) (f : A → A) l : (∀ x, p (f x) = p x) →
  List.find p (map f l) = f <$> List.find p l.
Proof. intros Hf. induction l as [|x l IH]; [done|]. cbn. rewrite Hf. by destruct (p x). Qed.

Lemma get_messages username threadId l w : getThreadRow username threadId (set_messages l w) = getThreadRow username threadId w.
Proof. done. Qed.

Lemma get_updated username threadId f w : (∀ r, thread_of username threadId (f r) = thread_of username threadId r) →
  getThreadRow username threadId (update_thread username threadId f w) = f <$> getThreadRow username threadId w.
Proof.
  intros Hf. unfold getThreadRow, update_thread. cbn. rewrite find_map_keep.
  - destruct (List.find _ _) as [r|] eqn:E; [|done]. apply find_some in E as [_ E]. cbn. by rewrite E.
  - intros r. destruct (thread_of username threadId r) eqn:E; [by rewrite Hf|done].
Qed.

Lemma get_saved username threadId row coreCode s phase w r : getThreadRow username threadId w = Some r →
  getThreadRow username threadId (saveCoreRuntime threadId row coreCode s phase w) =
  Some (WizardThread.set_coreRuntimeJson
          (stringify (JObj (setCorePhaseRuntime (parseCoreRuntimeJson (WizardThread.coreRuntimeJson row)) coreCode phase s))) r).
Proof.
  intros Hr. unfold getThreadRow, saveCoreRuntime in *. cbn. rewrite find_map_keep; [|by intros x; case_bool_decide].
  rewrite Hr. cbn. apply find_some in Hr as [_ [_ Hid]%thread_of_true]. by rewrite bool_decide_eq_true_2.
Qed.

Lemma need_thread_ok username threadId w r : need_thread username threadId w = Ok r ↔ getThreadRow username threadId w = Some r.
Proof. unfold need_thread. destruct (getThreadRow _ _ _); naive_solver. Qed.

(** ** The theorems *)

(** When the phase of a thread is the one it was advanced to. *)
Definition phase_fits (to : WizardPhase.t) (draft plan : option string) : bool :=
  bool_decide (to = collect) || (plan_phase to && truthy plan) ||
  (negb (truthy plan) && (bool_decide (to = draft_review) || negb (truthy draft))).

Lemma resolve_stored to row : WizardThread.wizardPhase row = to_string to →
  resolveWizardPhase row = to ↔ phase_fits to (WizardThread.activeDraftId row) (WizardThread.activePlanId row) = true.
Proof.
  intros Hs. unfold resolveWizardPhase. rewrite Hs, trim_to, of_to. unfold phase_fits.
  destruct (truthy (WizardThread.activePlanId row)), (truthy (WizardThread.activeDraftId row)); by destruct to.
Qed.

Lemma advance_ok now msgId username threadId i w row' w' :
  advanceWizardPhase now msgId username threadId i w = Ok (row', w') ↔
  ∃ row, getThreadRow username threadId w = Some row ∧ msgId ∉ map Message.id (wz_messages w) ∧
    row' = advance_row now i row row ∧
    w' = update_thread username threadId (advance_row now i row)
           (set_messages (wz_messages w ++ [Message.mk msgId threadId username "wizard-handoff" (HandoffPayload (av_handoff i))]) w).
Proof.
  unfold advanceWizardPhase, need_thread. destruct (getThreadRow username threadId w) as [row|] eqn:Hr; cbn [res_bind].
  2:{ split; [done|]. by intros (? & ? & _). }
  case_bool_decide as Hm.
  { split; [done|]. by intros (? & _ & ? & _). }
  rewrite get_updated, get_messages, Hr by done. cbn [fmap option_fmap option_map].
  split; [intros [= <- <-]; by exists row|]. by intros (? & [= ->] & _ & -> & ->).
Qed.

(** A thread is in the phase it was advanced to exactly when its draft and plan agree with that
    phase: it is back at the start, or has a plan in a phase of plans, or has no plan and is in
    the review of a draft or has no draft. *)
Theorem phase_after_advance now msgId username threadId i w row w' :
  advanceWizardPhase now msgId username threadId i w = Ok (row, w') →
  resolveWizardPhase row = av_to i ↔
  phase_fits (av_to i) (WizardThread.activeDraftId row) (WizardThread.activePlanId row) = true.
Proof. intros (r & _ & _ & -> & _)%advance_ok. by apply resolve_stored. Qed.

(** A rollback is decided by the phase, and reaches its target: back to the start from every
    other phase, and to the review of the draft from editing a plan that has a draft.  It leaves the
    thread without a plan and without a session of the target phase, records the handoff, and does
    not touch other threads; every other request is refused. *)
Theorem rollback_reaches_target now msgId username threadId to reason w row :
  getThreadRow username threadId w = Some row → msgId ∉ map Message.id (wz_messages w) →
  let from := resolveWizardPhase row in
  match requestPhaseRollback now msgId username threadId to reason (WizardThread.coreCode row) w with
  | Ok (row', w') =>
      (to = collect ∧ from ≠ collect ∨ to = draft_review ∧ from = plan_edit ∧ truthy (WizardThread.activeDraftId row) = true) ∧
      resolveWizardPhase row' = to ∧ getThreadRow username threadId w' = Some row' ∧
      WizardThread.activePlanId row' = None ∧ WizardThread.runtimeSessionId row' = None ∧ getThreadPhaseRuntime row' = None ∧
      (to = draft_review → WizardThread.activeDraftId row' = WizardThread.activeDraftId row) ∧
      wz_messages w' = wz_messages w ++ [Message.mk msgId threadId username "wizard-handoff"
        (HandoffPayload (buildRollbackHandoff from to reason (WizardThread.activeDraftId row) None))] ∧
      (∀ r, thread_of username threadId r = false → r ∈ wz_threads w' ↔ r ∈ wz_threads w)
  | Err e =>
      e = "wizard.already_in_phase" ∧ to = collect ∧ from = collect ∨
      e = "wizard.rollback_not_allowed" ∧ to = draft_review ∧
        (from ≠ plan_edit ∨ truthy (WizardThread.activeDraftId row) = false) ∨
      e = "wizard.invalid_phase" ∧ plan_phase to = true
  end.
Proof.
  intros Hrow Hfresh. cbv zeta. unfold requestPhaseRollback. rewrite (proj2 (need_thread_ok _ _ _ _) Hrow). cbn [res_bind].
  (* what an advance leaves behind *)
  assert (∀ handoff draft, let i := mkAdvance to handoff draft (Some None) (WizardThread.coreCode row) in
            (to = collect ∨ to = draft_review) →
            match advanceWizardPhase now msgId username threadId i w with
            | Ok (row', w') => resolveWizardPhase row' = to ∧ getThreadRow username threadId w' = Some row' ∧
                WizardThread.activePlanId row' = None ∧ WizardThread.runtimeSessionId row' = None ∧ getThreadPhaseRuntime row' = None ∧
                WizardThread.activeDraftId row' = default (WizardThread.activeDraftId row) draft ∧
                wz_messages w' = wz_messages w ++ [Message.mk msgId threadId username "wizard-handoff" (HandoffPayload handoff)] ∧
                (∀ r, thread_of username threadId r = false → r ∈ wz_threads w' ↔ r ∈ wz_threads w)
            | Err _ => False
            end) as Hadv.
  { intros handoff draft i Hto. destruct (advanceWizardPhase _ _ _ _ _ _) as [[row' w']|e] eqn:E.
    - apply advance_ok in E as (r & Hr & _ & -> & ->). assert (r = row) as -> by congruence.
      assert (resolveWizardPhase (advance_row now i row row) = to) as Hres.
      { apply resolve_stored; [done|]. by destruct Hto as [->| ->]. }
      split; [done|]. split; [by rewrite get_updated, get_messages, Hrow|]. split; [done|]. split; [done|]. split.
      { unfold getThreadPhaseRuntime. rewrite Hres. apply saved_session_read. }
      split; [done|]. split; [done|]. intros x Hx. cbn. rewrite list_elem_of_In, in_map_iff. setoid_rewrite <-list_elem_of_In.
      split; [|intros H; exists x; by rewrite Hx]. intros (y & Hy & Hin). destruct (thread_of username threadId y) eqn:Ey; [|by subst y].
      exfalso. subst x. cut (thread_of username threadId y = false); [congruence|exact Hx].
    - unfold advanceWizardPhase in E. rewrite (proj2 (need_thread_ok _ _ _ _) Hrow) in E. cbn [res_bind] in E.
      by rewrite bool_decide_eq_false_2, get_updated, get_messages, Hrow in E. }
  destruct to; [| |right; right; done..].
  - case_bool_decide as Hfrom; [by left|].
    specialize (Hadv (buildRollbackHandoff (resolveWizardPhase row) collect reason (WizardThread.activeDraftId row) None) (Some None) (or_introl eq_refl)).
    destruct (advanceWizardPhase _ _ _ _ _ _) as [[row' w']|e]; [|done]. naive_solver.
  - case_bool_decide as Hfrom; cbn [negb]; [|right; left; auto].
    destruct (truthy (WizardThread.activeDraftId row)) eqn:Hd; cbn [negb]; [|right; left; auto].
    specialize (Hadv (buildRollbackHandoff (resolveWizardPhase row) draft_review reason (WizardThread.activeDraftId row) None) None (or_intror eq_refl)).
    destruct (advanceWizardPhase _ _ _ _ _ _) as [[row' w']|e]; [|done].
    destruct Hadv as (H1 & H2 & H3 & H4 & H5 & H6 & H7 & H8). split; [by right|]. naive_solver.
Qed.

(** Switching the CLI of a thread and back gives it back its session, whatever was stored for
    its sessions before, also a text that is not JSON. *)
Theorem switching_cli_keeps_session now now' username threadId other w row row1 w1 row2 w2 :
  getThreadRow username threadId w = Some row → other ≠ WizardThread.coreCode row →
  updateThreadCore now username threadId other w = Ok (row1, w1) →
  updateThreadCore now' username threadId (WizardThread.coreCode row) w1 = Ok (row2, w2) →
  WizardThread.coreCode row2 = WizardThread.coreCode row ∧
  WizardThread.runtimeSessionId row2 = WizardThread.runtimeSessionId row.
Proof.
  intros Hrow Hne H1 H2.
  assert (∀ now core w row r w', getThreadRow username threadId w = Some row → core ≠ WizardThread.coreCode row →
            updateThreadCore now username threadId core w = Ok (r, w') →
            let phase := resolveWizardPhase row in
            getThreadRow username threadId w' = Some r ∧
            r = WizardThread.set_runtime core RUNTIME_STATUS_IDLE (getCoreRuntime row core phase) None now
                  (WizardThread.set_coreRuntimeJson (stringify (JObj (setCorePhaseRuntime
                     (parseCoreRuntimeJson (WizardThread.coreRuntimeJson row)) (WizardThread.coreCode row) phase
                     (WizardThread.runtimeSessionId row)))) row)) as Hsw.
  { intros now0 core w0 r0 r w' Hr0 Hcore H. unfold updateThreadCore in H. rewrite (proj2 (need_thread_ok _ _ _ _) Hr0) in H.
    cbn [res_bind] in H. rewrite bool_decide_eq_false_2 in H by congruence. case_bool_decide; [done|].
    rewrite get_updated, (get_saved _ _ _ _ _ _ _ _ Hr0) in H by done. cbn [fmap option_fmap option_map] in H.
    injection H as <- <-. split; [|done]. by rewrite get_updated, (get_saved _ _ _ _ _ _ _ _ Hr0) by done. }
  apply (Hsw _ _ _ _ _ _ Hrow Hne) in H1 as [Hget Heq1]. cbv zeta in Heq1.
  assert (WizardThread.coreCode row ≠ WizardThread.coreCode row1) as Hne' by (rewrite Heq1; cbn; congruence).
  apply (Hsw _ _ _ _ _ _ Hget Hne') in H2 as [_ Heq2]. cbv zeta in Heq2. rewrite Heq2. split; [done|].
  cbn [WizardThread.runtimeSessionId WizardThread.set_runtime]. unfold getCoreRuntime.
  assert (resolveWizardPhase row1 = resolveWizardPhase row) as -> by (by rewrite Heq1).
  rewrite Heq1. apply saved_session_read.
Qed.

(** ** Instances *)

Definition edited_thread : WizardThread.t :=
  WizardThread.mk "t1" "ann" (Some "d1") (Some "p1") "plan_edit" "codex" "idle" (Some "s1") "not JSON" None 0.
Definition wizard_1 : wizard := mkWizard [edited_thread] [].

Lemma phase_after_advance_witness :
  ∃ row w', advanceWizardPhase 1 "m1" "ann" "t1"
      (mkAdvance ready_to_launch (buildPlanPhaseHandoff plan_edit ready_to_launch "p1" None None) None None "codex") wizard_1 = Ok (row, w') ∧
    resolveWizardPhase row = ready_to_launch.
Proof.
  destruct (advanceWizardPhase _ _ _ _ _ _) as [[row w']|e] eqn:E; [|vm_compute in E; discriminate]. exists row, w'. split; [done|].
  apply (phase_after_advance _ _ _ _ _ _ _ _ E). vm_compute in E. injection E as <- _. vm_compute. reflexivity.
Defined.

Lemma rollback_reaches_target_witness :
  ∃ row' w', requestPhaseRollback 1 "m1" "ann" "t1" draft_review "again" "codex" wizard_1 = Ok (row', w') ∧
    resolveWizardPhase row' = draft_review ∧ WizardThread.activePlanId row' = None.
Proof.
  pose proof (rollback_reaches_target 1 "m1" "ann" "t1" draft_review "again" wizard_1 edited_thread eq_refl (not_elem_of_nil _)) as H.
  cbv zeta in H. change (WizardThread.coreCode edited_thread) with "codex" in H.
  destruct (requestPhaseRollback _ _ _ _ _ _ _ _) as [[row' w']|e] eqn:E; [|vm_compute in E; discriminate].
  exists row', w'. split; [done|]. destruct H as (_ & H1 & _ & H2 & _). by split.
Defined.

Lemma switching_cli_keeps_session_witness :
  match updateThreadCore 1 "ann" "t1" "claude" wizard_1 with
  | Ok (row1, w1) =>
      match updateThreadCore 2 "ann" "t1" "codex" w1 with
      | Ok (row2, _) => WizardThread.runtimeSessionId row1 = None ∧ WizardThread.runtimeSessionId row2 = Some "s1"
      | Err _ => False
      end
  | Err _ => False
  end.
Proof.
  destruct (updateThreadCore 1 "ann" "t1" "claude" wizard_1) as [[row1 w1]|e] eqn:E1; [|vm_compute in E1; discriminate].
  destruct (updateThreadCore 2 "ann" "t1" "codex" w1) as [[row2 w2]|e] eqn:E2.
  - split; [vm_compute in E1; injection E1 as <- _; reflexivity|].
    apply (switching_cli_keeps_session 1 2 "ann" "t1" "claude" wizard_1 edited_thread row1 w1 row2 w2 eq_refl); [done|exact E1|exact E2].
  - vm_compute in E1. injection E1 as _ <-. vm_compute in E2. discriminate.
Defined.
