(* ===== verification/LegacyWitnesses.v ===== *)
(** * Instances of the theorems on the legacy control plane and the turn queue

    Every theorem with hypotheses, applied to a concrete state.  The file
    system has one directory, and the hash function is constant. *)
From stdpp Require Import pretty.
From Stdlib Require Import Ascii.
From S2P Require Import Prelude Json JsString Path Sql WorkspaceLease TaskAttempts TaskAttemptsSpecs.
From S2P Require Import SavedPlan Gate GateSpecs RepairTasks RepairSpecs Verdicts TurnErrors.
From S2P Require Import Blocker TaskRecovery RecoverySpecs WorkloadSlots JobRows WorkloadSpecs FrozenIds TurnQueue.
From S2P Require Import ProgressStore QueueCoordinator.

#[local] Arguments bool_decide : simpl never.

(** ** Workspace leases *)

#[local] Instance one_directory : FileSystem := {|
  existsSync := λ p, bool_decide (p = "/work");
  realpathSync := λ p, if bool_decide (p = "/work") then Some "/work" else None
|}.

#[local] Instance one_directory_ok : FileSystemOk.
Proof.
  intros p q. cbn. case_bool_decide; [|done]. intros [= <-]. exists ["work"]. split; [|reflexivity].
  repeat constructor; done.
Qed.

Definition no_leases : lease_state := mkLeaseState [] ∅ "boot-1".

Lemma no_leases_inv : lease_inv no_leases.
Proof.
  split; cbn; try (by intros; set_solver).
  - by apply list.NoDup_nil.
  - intros r1 r2 H1. by apply not_elem_of_nil in H1.
Qed.

Definition lease_a : AcquireWorkspaceLeaseInput := mkAcquire "/work/a" OwnerKind.thread_job "j1" None.
Definition lease_b : AcquireWorkspaceLeaseInput := mkAcquire "/work/b" OwnerKind.thread_job "j2" None.
Definition two_leases : lease_state :=
  lease_run 60 [LAcquire lease_a "l1" 0; LAcquire lease_b "l2" 0] no_leases.

Lemma workspace_leases_exclusive_witness :
  length (leases two_leases) = 2 ∧
  ∀ r1 r2, r1 ∈ leases two_leases → r2 ∈ leases two_leases →
    lease_active r1 = true → lease_active r2 = true → WorkspaceLease.id r1 ≠ WorkspaceLease.id r2 →
    row_owner r1 ≠ row_owner r2.
Proof.
  split; [vm_compute; reflexivity|]. intros r1 r2 H1 H2 A1 A2 Hid.
  exact (proj1 (workspace_leases_exclusive 60 _ no_leases no_leases_inv r1 r2 H1 H2 A1 A2 Hid)).
Defined.

Lemma acquire_decides_witness :
  ¬ live_conflict "/work/a" OwnerKind.thread_job "j1" 0 [] ∧
  ∀ t, (t < 0 + 60)%Z →
    (isWorkspaceLeaseActive "l1" OwnerKind.thread_job "j1" "/work/a" t
       (acquireWorkspaceLease 60 lease_a "l1" 0 no_leases).2).1 = Ok true.
Proof. exact (acquire_decides 60 lease_a "l1" 0 no_leases "/work/a" no_leases_inv eq_refl eq_refl). Defined.

(** ** Task attempts *)

Definition key64 : string := "aaaaaaaaaaaaaaaabbbbbbbbbbbbbbbbccccccccccccccccdddddddddddddddd".

#[local] Instance constant_sha : Sha256 := λ _, key64.

Definition ledger_0 : ledger :=
  mkLedger [mkLedgerJob "j1" None 1] [mkLedgerTask "j1" "t1" "queued" None None] ["r1"] [].

Lemma ledger_0_wf : ledger_wf ledger_0.
Proof. split; by apply list.NoDup_nil. Qed.

Definition begin_t1 : BeginTaskAttemptInput := mkBegin "j1" "t1" (Some "r1") None.
Definition attempt_ops : list attempt_op :=
  [ABegin begin_t1 "a1" 0; AProviderStarted "j1" "t1" 1; ABegin begin_t1 "a3" 0; AInterruptAll 1; AAuthorize "j1" 2;
   ABegin begin_t1 "a2" 3; AProviderStarted "j1" "t1" 2].

(** Three calls of the provider, the second of a resumed attempt: two attempts. *)
Lemma provider_calls_are_authorized_witness :
  all_callers key64 attempt_ops ledger_0 = [(1%Z, Some "r1"); (1%Z, Some "r1"); (2%Z, Some "r1")] ∧
  length (remove_dups (all_callers key64 attempt_ops ledger_0)) ≤
  total_over (replay_authorizations key64) attempt_ops ledger_0 + 1.
Proof.
  split; [vm_compute; reflexivity|].
  exact (provider_calls_are_authorized key64 attempt_ops ledger_0 eq_refl ledger_0_wf).
Defined.

Definition completed_attempt : Attempt.t :=
  Attempt.mk "a1" "j1" "t1" (Some "r1") 1 key64 AttemptStatus.completed (Some key64) None 0 (Some 1%Z).
Definition ledger_done : ledger :=
  mkLedger [mkLedgerJob "j1" None 1] [mkLedgerTask "j1" "t1" "completed" None None] ["r1"] [completed_attempt].

Lemma ledger_done_wf : ledger_wf ledger_done.
Proof. split; apply list.NoDup_singleton. Qed.

Lemma completed_task_is_final_witness : completed_attempt ∈ attempts (attempt_run attempt_ops ledger_done).
Proof.
  exact (proj1 (completed_task_is_final attempt_ops ledger_done completed_attempt ledger_done_wf
    (list_elem_of_here _ _) eq_refl)).
Defined.

Definition running_attempt : Attempt.t :=
  Attempt.mk "a1" "j1" "t1" (Some "r1") 1 key64 AttemptStatus.running None None 0 None.
Definition ledger_run : ledger :=
  mkLedger [mkLedgerJob "j1" None 1] [mkLedgerTask "j1" "t1" "running" None None] ["r1"] [running_attempt].
Definition ledger_crashed : ledger := (markAllRunningAttemptsInterrupted 1 ledger_run).2.

Lemma ledger_run_wf : ledger_wf ledger_run.
Proof. split; apply list.NoDup_singleton. Qed.

Lemma uncertain_outcome_needs_consent_witness :
  match beginTaskAttempt (mkBegin "j1" "t1" (Some "r2") None) "a2" 5 (attempt_run [] ledger_crashed) with
  | (Ok res, s'') =>
      (res = AlreadyCompleted ∨ res = BlockedUncertain 1 key64 AttemptStatus.interrupted) ∧
      s'' = attempt_run [] ledger_crashed
  | (Err e, s'') => e = "task_attempt.task_not_in_job" ∧ s'' = attempt_run [] ledger_crashed
  end.
Proof.
  apply (uncertain_outcome_needs_consent running_attempt 1 [] ledger_run ledger_crashed 1 ledger_run_wf
    (list_elem_of_here _ _) eq_refl eq_refl (Forall_nil _)
    (mkBegin "j1" "t1" (Some "r2") None) "a2" 5%Z (mkLedgerJob "j1" None 1)); reflexivity.
Defined.

(** ** The execution gate *)

Definition gate_1 : gate := buildGateStates (small_plan 1).

Lemma gate_1_backward : backward gate_1.
Proof.
  intros pre s post Hs. vm_compute in Hs. destruct pre as [|? [|? ?]]; try discriminate Hs.
  injection Hs as <- <-. split; [intros d Hd; by apply not_elem_of_nil in Hd|].
  intros tpre t tpost Ht. vm_compute in Ht. destruct tpre as [|? [|? ?]]; try discriminate Ht.
  injection Ht as <- <-. split; [intros d Hd; by apply not_elem_of_nil in Hd|].
  intros p Hp. vm_compute in Hp. apply list_elem_of_singleton in Hp as ->. cbn. lia.
Qed.

Lemma gate_1_at_rest : at_rest gate_1.
Proof.
  intros s Hs. vm_compute in Hs. apply list_elem_of_singleton in Hs as ->. split; [|reflexivity].
  intros t Ht. vm_compute in Ht. by apply list_elem_of_singleton in Ht as ->.
Qed.

Lemma backward_plans_progress_witness : ∃ t', findNextReadyTask gate_1 = Some (Some t').
Proof.
  eapply (backward_plans_progress gate_1 _ _ gate_1_backward gate_1_at_rest (list_elem_of_here _ _)
    (list_elem_of_here _ _)). reflexivity.
Defined.

(** ** Repair tasks *)

Lemma js_index_one {A} (x : A) i : js_index [x] i = if bool_decide (i = 0)%Z then Some x else None.
Proof.
  unfold js_index. case_bool_decide as Hneg; case_bool_decide as Hz; try lia; [done|by subst|].
  apply lookup_ge_None_2. cbn. lia.
Qed.

Lemma small_plan_aligned : plan_aligned (small_plan 1).
Proof.
  split; [repeat constructor|]. intros m s. unfold slice_indexes, nested_count, slice_at, milestone_at.
  cbn -[js_index]. rewrite js_index_one. unfold in_slice. cbn -[js_index].
  destruct (decide (m = 1)%Z) as [->|Hm].
  - rewrite (bool_decide_eq_true_2 (1 - 1 = 0)%Z) by lia. cbn -[js_index]. rewrite js_index_one. destruct (decide (s = 1)%Z) as [->|Hs]; [reflexivity|].
    rewrite (bool_decide_eq_false_2 (s - 1 = 0)%Z) by lia.
    rewrite (bool_decide_eq_false_2 (1 = s)%Z) by lia. by rewrite andb_false_r.
  - rewrite (bool_decide_eq_false_2 (m - 1 = 0)%Z) by lia.
    by rewrite (bool_decide_eq_false_2 (1 = m)%Z) by lia.
Qed.

Definition prep_injection : injection := InjPrep (prep_for "m1-s1-t1" 1).

Lemma injections_keep_plan_aligned_witness : plan_aligned (inject prep_injection (small_plan 1)).2.
Proof.
  destruct (inject prep_injection (small_plan 1)) as [r p'] eqn:E.
  exact (proj1 (injections_keep_plan_aligned prep_injection (small_plan 1) p' r small_plan_aligned I E)).
Defined.

(** ** Verdicts *)

Definition slice_raw : list (string * json) :=
  [("status", JStr "progress-ok"); ("confidence", JStr "high"); ("summary", JStr "all good")].

Lemma slice_verdict_well_typed_witness :
  match normalizeSliceVerificationVerdict slice_raw with
  | Ok v => SliceVerdict.status v ∈ SLICE_STATUSES
  | Err _ => False
  end.
Proof.
  pose proof (slice_verdict_well_typed slice_raw) as H.
  destruct (normalizeSliceVerificationVerdict slice_raw) as [v|e] eqn:E; [|by vm_compute in E].
  exact (proj1 (H v eq_refl)).
Defined.

Definition milestone_raw : list (string * json) :=
  [("status", JStr "needs-repair"); ("confidence", JStr "high"); ("summary", JStr "gap");
   ("repairTasks", JArr [JObj [("instruction", JStr "fix"); ("evidenceGap", JStr "gap");
                               ("targetSliceId", JStr "m1-s1")]])].

Lemma normalized_repairs_stay_inside_witness :
  match normalizeMilestoneVerificationVerdict milestone_raw (Some (milestone_id 1)) with
  | Ok v => MilestoneVerdict.repairTasks v ≠ [] ∧ Forall (repair_inside 1) (MilestoneVerdict.repairTasks v)
  | Err _ => False
  end.
Proof.
  pose proof (normalized_repairs_stay_inside milestone_raw 1) as H.
  destruct (normalizeMilestoneVerificationVerdict milestone_raw (Some (milestone_id 1))) as [v|e] eqn:E;
    [|by vm_compute in E].
  split; [|exact (proj1 (H v ltac:(lia) eq_refl))]. vm_compute in E. injection E as <-. done.
Defined.

(** ** Turn errors and recovery *)

Lemma error_code_survives_transport_witness :
  TurnErrorDto.code (normalizeTurnErrorFromMessage (formatTurnErrorMessage "turn.capacity_limited" None)) =
  "turn.capacity_limited".
Proof. exact (proj1 (error_code_survives_transport "turn.capacity_limited" eq_refl)). Defined.

(** ** Runs and slots *)

Definition process_1 : process := mkProcess 7 "boot-1".
Definition pending_job : @job_row unit :=
  mkJobRow "j1" "ann" "pending" (Some 1%Z) 1 None None None None None false None 1 tt.
Definition work_0 : @work_db unit := mkWork [] [] [pending_job] [] [] ∅.

Lemma work_0_no_runs : no_runs work_0.
Proof. split_and!; try done; [apply list.NoDup_singleton|by constructor]. Qed.

Definition claim_j1 : WorkloadSpecs.op (C:=unit) := OClaimForJob process_1 10 "run-1" "ann" "j1".
Definition work_1 : @work_db unit := WorkloadSpecs.run_ops 1 60 [claim_j1] work_0.

Lemma work_1_consistent : consistent 1 work_1.
Proof. exact (proj1 (WorkloadSpecs.run_ops_good 1 60 [claim_j1] work_0 (no_runs_consistent 1 _ work_0_no_runs))). Qed.

Lemma runs_slots_jobs_agree_witness :
  jb_activeRunId <$> find_job work_1 "j1" = Some (Some "run-1") ∧
  ∀ pool, count_where (active_in_pool pool) (slots work_1) ≤ 1.
Proof.
  split; [vm_compute; reflexivity|].
  exact (proj1 (runs_slots_jobs_agree 1 60 [claim_j1] work_0 work_0_no_runs)).
Defined.

Definition touch : patch unit := mkPatch (Some "failed") None None None None None true id.

Lemma released_run_never_writes_witness :
  let s1 := (releaseWorkloadSlot 20 "run-1" None false false work_1).2 in
  updateJobRowFenced 30 "j1" "run-1" touch work_1 ≠ (Ok None, work_1) ∧
  updateJobRowFenced 30 "j1" "run-1" touch s1 = (Ok None, s1).
Proof.
  cbn zeta. split; [by vm_compute|].
  destruct (releaseWorkloadSlot 20 "run-1" None false false work_1) as [[res|e] s1] eqn:E;
    [|by vm_compute in E].
  refine (proj1 (released_run_never_writes 1 60 20 "run-1" None false false work_1 res s1 []
    work_1_consistent E _ 30 "j1" touch)). vm_compute in E. by injection E as <- _.
Defined.

Lemma claim_for_job_decides_witness :
  (claimExecutionSlotForJobTx 1 60 process_1 10 "run-1" "ann" "j1" work_0).1 = Ok true.
Proof.
  pose proof (claim_for_job_decides 1 60 process_1 10 "run-1" "ann" "j1" work_0
    (no_runs_consistent 1 _ work_0_no_runs)) as H.
  destruct (claimExecutionSlotForJobTx _ _ _ _ _ _ _ _) as [res s'].
  exact (proj1 (H ltac:(by apply not_elem_of_nil))).
Defined.

(** ** The execution queue *)

Definition world_0 : @world unit := mkWorld work_0 no_leases ledger_0 [].
Definition advance_0 : @world unit :=
  (advanceExecutionQueue (λ _, true) (λ _, Some "/work/a") 1 60 60 process_1 "empty" "uncertain"
     10 "run-1" "l1" "l2" false [] world_0).2.

Lemma advance_schedules_safely_witness :
  w_scheduled advance_0 = [("ann", "j1", Some "run-1")] ∧ consistent 1 (w_work advance_0) ∧
  assertRunWritable "j1" "run-1" (w_work advance_0) = true.
Proof.
  destruct (advance_schedules_safely (λ _, true) (λ _, Some "/work/a") 1 60 60 process_1 "empty" "uncertain"
    10 "run-1" "l1" "l2" false [] world_0 (no_runs_consistent 1 _ work_0_no_runs) no_leases_inv
    ltac:(by apply not_elem_of_nil) eq_refl eq_refl) as ((Hc & _) & _ & Hs).
  split; [vm_compute; reflexivity|]. split; [exact Hc|].
  destruct Hs as [Hs|(e & Hs & He)]; [by vm_compute in Hs|].
  assert (e = ("ann", "j1", Some "run-1")) as -> by (vm_compute in Hs; by injection Hs).
  exact (proj2 (proj2 (proj2 He))).
Defined.

(** ** The turn queue *)

Definition no_file (_ _ : string) : result string (option string) := Ok None.
Definition to_error (message : string) (_ : option string) : TurnErrorDto.t :=
  turnErrorDto "turn.unknown" None (Some message) None.

Definition thread_1 : string := "123e4567-e89b-12d3-a456-426614174000".
Definition say (key : option string) (attachments : list string) : EnqueueTurnInput :=
  mkEnqueue "ann" thread_1 "hello" false false attachments None None key None None.
Definition turns_0 : turn_db := mkTurns [] ∅ [] [].

Lemma turns_0_booted : booted turns_0.
Proof. split; [split; [by apply list.NoDup_nil|]|done]. by intros r r' Hr%not_elem_of_nil. Qed.

Notation run_turns := (TurnQueue.run_ops no_file 2 to_error).

Definition two_turns : list TurnQueue.op :=
  [OEnqueue true 1 "turn-1" (say None []); OEnqueue true 1 "turn-2" (say None []); OAdvance 2 None].

Lemma turn_queue_limits_witness :
  let s' := run_turns two_turns (reconcileConversationTurnsOnStartup 0 turns_0).2 in
  map Turn.status (turns s') = [TurnStatus.running; TurnStatus.queued] ∧
  count_where (active_of_thread thread_1) (turns s') ≤ 1 ∧ NoDup (calls s').
Proof.
  intros s'. pose proof (turn_queue_limits no_file 2 to_error 0 two_turns turns_0 turns_0_booted) as (H1 & _ & H3).
  split; [vm_compute; reflexivity|]. exact (conj (H1 thread_1) H3).
Defined.

(** Two queued turns of one thread. *)
Definition waiting_turns : turn_db :=
  run_turns [OEnqueue true 1 "turn-1" (say None []); OEnqueue true 1 "turn-2" (say None [])]
    (reconcileConversationTurnsOnStartup 0 turns_0).2.

Lemma waiting_wf : wf 2 waiting_turns.
Proof. apply turn_ops_good. by apply reconciled_wf, turns_0_booted. Qed.

Lemma advance_is_fair_witness :
  let s' := advanceTurnQueue no_file 2 2 None waiting_turns in
  count_where (queued_for None) (turns s') = 1 ∧
  ∀ q, q ∈ turns s' → queued_for None q = true → blocked 2 q s'.
Proof.
  intros s'. split; [vm_compute; reflexivity|].
  exact (proj1 (advance_is_fair no_file 2 2 None waiting_turns waiting_wf)).
Defined.

Lemma enqueue_is_idempotent_witness :
  let '(r1, s1) := enqueueConversationTurn true 5 "turn-3" (say (Some "key") []) waiting_turns in
  let '(r2, s2) := enqueueConversationTurn true 6 "turn-4" (say (Some "key") []) s1 in
  match r1, r2 with
  | Ok a1, Ok a2 => ac_turnId a1 = "turn-3" ∧ ac_turnId a2 = "turn-3" ∧ s2 = s1
  | _, _ => False
  end.
Proof.
  destruct (enqueueConversationTurn true 5 "turn-3" (say (Some "key") []) waiting_turns) as [[a1|e] s1] eqn:E;
    [|by vm_compute in E].
  assert (ac_turnId a1 = "turn-3") as Hid by (vm_compute in E; by injection E as <- _).
  destruct (enqueue_is_idempotent no_file 2 to_error true 5 "turn-3" (say (Some "key") []) waiting_turns a1 s1 []
    waiting_wf E "key" eq_refl ltac:(done) 6 "turn-4" (say (Some "key") []) eq_refl eq_refl eq_refl ltac:(done))
    as (a2 & E2 & Hid2).
  cbn in E2. rewrite E2. split_and!; [done|by rewrite Hid2|done].
Defined.

(** A turn with an attachment id that has no valid shape. *)
Definition bad_turn : turn_db :=
  run_turns [OEnqueue true 1 "turn-1" (say None ["missing"])]
    (reconcileConversationTurnsOnStartup 0 turns_0).2.

Lemma bad_wf : wf 2 bad_turn.
Proof. apply turn_ops_good. by apply reconciled_wf, turns_0_booted. Qed.

Definition after_bad : list TurnQueue.op :=
  [OCancel 3 "ann" "turn-1"; OEnqueue true 4 "turn-2" (say None []); OAdvance 5 None].

Lemma invalid_attachment_blocks_thread_witness :
  let row := new_turn 1 "turn-1" (say None ["missing"]) in
  let s' := run_turns after_bad (advance_row no_file 2 2 bad_turn row) in
  threadHasActiveTurn thread_1 s' = true ∧
  map Turn.status (turns s') = [TurnStatus.cancelling; TurnStatus.queued] ∧ calls s' = [].
Proof.
  intros row s'. split; [|vm_compute; done].
  apply (invalid_attachment_blocks_thread no_file 2 to_error 2 after_bad bad_turn row "missing" bad_wf).
  - apply list_elem_of_In. vm_compute. by left.
  - reflexivity.
  - intros [H|H]; vm_compute in H; [done|lia].
  - by left.
  - by vm_compute.
  - reflexivity.
Defined.

(** ** Stored progress *)

Definition counted_progress : TaskProgress.t :=
  TaskProgress.mk "running" "running" 0 0 None None None [] [mkSliceProgress "m1-s1" None None None] []
    {["task-infra:m1-s1-t1" := 3%Z]} {["slice:m1-s1" := 2%Z]} ∅.
Definition progress_0 : progress_db := mkProgressDb ∅ {["j1" := mkMeta [] [] ∅ ∅ ∅]}.

Lemma counted_apart : keys_apart counted_progress.
Proof. intros k v H. cbn in H. apply lookup_singleton_Some in H. by destruct H as [<- _]. Qed.

Lemma progress_counters_roundtrip_witness :
  loadTaskProgress "j1" (run_transaction (saveTaskProgressInTx "j1" counted_progress) progress_0).2 =
  Some (metaForStorage counted_progress).
Proof.
  pose proof (progress_counters_roundtrip "j1" counted_progress progress_0 _ counted_apart
    (lookup_singleton_eq "j1" _)) as H.
  destruct (run_transaction _ progress_0) as [res s']. exact (proj1 (proj2 H)).
Defined.

Lemma running_progress_forgets_witness :
  let s1 := (run_transaction (saveTaskProgressInTx "j1" counted_progress) progress_0).2 in
  tm_repairGenerations <$> loadTaskProgress "j1" s1 = Some {["task-infra:m1-s1-t1" := 3%Z]} ∧
  tm_repairGenerations <$> loadTaskProgress "j1" (persist_running "j1" gate_1 [] "m1-s1-t1" s1).2 = Some ∅.
Proof.
  intros s1. split; [vm_compute; reflexivity|].
  destruct (running_progress_forgets "j1" s1 (metaForStorage counted_progress) gate_1 [] "m1-s1-t1"
    ltac:(vm_compute; reflexivity)) as (m' & E & Hm & _).
  cbn zeta in E. rewrite E. cbn. by rewrite Hm.
Defined.
