(* ===== verification/HostWitnesses.v ===== *)
(** * Instances of the theorems on the process, its deletions and its controls

    Every theorem of these files with hypotheses, applied to a concrete process
    whose queue is the coordinator of [RunLifecycle]. *)
From stdpp Require Import pretty.
From Stdlib Require Import Ascii.
From S2P Require Import Prelude Json JsString Path Sql WorkspaceLease TaskAttempts SavedPlan Gate TurnErrors TaskRecovery.
From S2P Require Import JsonParse StoredErrors RecoveryState ContinueFailed JobReferences RepairTasks RepairSpecs.
From S2P Require Import WorkloadSlots JobRows WorkloadSpecs QueueCoordinator Act Registries Host RunLifecycle.
From S2P Require Import Deletion DeletionSpecs Controls ControlSpecs.
From S2P Require Import Blocker ExecutionLoop ExecutionSpecs RecoveryBound Reconcile LegacyWitnesses.

#[local] Arguments bool_decide : simpl never.

(** ** Stored errors *)

Definition stored_dto : TurnErrorDto.t :=
  TurnErrorDto.mk "job.paused" "Paused" (Some [("by", JStr "ann"); ("at", JNum 3)]) (Some "line 1").

Lemma stored_error_roundtrip_witness :
  coerceTurnErrorText (Some (serializeStoredTurnError stored_dto)) = Some stored_dto.
Proof. apply (stored_error_roundtrip stored_dto). vm_compute. reflexivity. Defined.

(** ** Continuing a failed job *)

Definition failed_item : TaskProgressItem.t :=
  TaskProgressItem.mk "m1-s1-t1" "task" "failed" None (Some "failed") None None (Some "no evidence") None None.

Definition failed_progress : TaskProgress.t :=
  TaskProgress.mk "failed" "failed" 0 1 (Some "m1-s1-t1") (Some "execution.failed") None [failed_item] [] [] ∅ ∅ ∅.

Definition failed_job : RecoveryJob.t := RecoveryJob.mk "failed" None failed_progress.

Lemma failed_fits : fits (small_plan 1) failed_progress.
Proof.
  split_and!; [apply small_plan_aligned|apply list.NoDup_singleton|].
  intros k ->%list_elem_of_singleton. vm_compute. by left.
Qed.

Lemma continue_from_breakpoint_witness :
  ∃ plan' p', prepareContinueFailedExecution failed_job (small_plan 1) = Ok (plan', p') ∧
    breakpoint failed_job = Some "m1-s1-t1" ∧ continues (breakpoint failed_job) (small_plan 1) failed_progress plan' p'.
Proof.
  pose proof (continue_from_breakpoint failed_job (small_plan 1) failed_fits) as H.
  destruct (prepareContinueFailedExecution failed_job (small_plan 1)) as [[plan' p']|e] eqn:E;
    [|exfalso; clear -E; vm_compute in E; discriminate E].
  exists plan', p'. split; [reflexivity|]. split; [vm_compute; reflexivity|exact H].
Defined.

(** ** Registries of the process *)

Definition loop_ops : list Loops.op := [Loops.TryStart "j1" (Some "ann"); Loops.TryStart "j2" (Some "ann")].

Lemma one_loop_at_most_witness :
  Loops.activeLoops (fold_left (λ g o, Loops.run_op o g) loop_ops Loops.empty) = ["j1"] ∧
  length (Loops.activeLoops (fold_left (λ g o, Loops.run_op o g) loop_ops Loops.empty)) ≤ 1.
Proof.
  split; [vm_compute; reflexivity|]. apply (Loops.one_loop_at_most loop_ops). repeat constructor; done.
Defined.

Definition planning_j1 : RuntimeRegistry.t :=
  (RuntimeRegistry.tryStartJobPlanning "j1" (Some "ann") (Some "run-1") RuntimeRegistry.empty).2.

Lemma superseded_run_is_fenced_witness :
  let g' := (RuntimeRegistry.tryStartJobPlanning "j1" (Some "ann") (Some "run-2") planning_j1).2 in
  RuntimeRegistry.endJobPlanning "j1" (Some "run-1") g' = (false, g').
Proof.
  refine (proj1 (RuntimeRegistry.superseded_run_is_fenced "j1" "run-1" "run-2" (Some "ann") planning_j1 _ _ _ _));
    [done..|]. vm_compute. by left.
Defined.

(** ** References *)

Definition owned_reference : JobReferenceEntry.t :=
  JobReferenceEntry.mk "r1" "notes.txt" "file" "text/plain" "" None None None (Some "job") (Some "att-01234567-0123-4123-8123-0123456789ab") None false "" None.

Definition manifest_1 : JobReferenceManifest.t := JobReferenceManifest.mk "j1" "t1" "now" [] [owned_reference].

Lemma purged_attachments_are_owned_witness :
  collectJobOwnedAttachmentIds (Some (stringify (JObj (manifest_fields manifest_1)))) =
  Some (entry_attachments [owned_reference] []) ∧
  entry_attachments [owned_reference] [] = ["att-01234567-0123-4123-8123-0123456789ab"].
Proof. split; [apply (purged_attachments_are_owned manifest_1); done|vm_compute; reflexivity]. Defined.

(** ** A process *)

Definition now_1 (n : nat) : Z := 10 + Z.of_nat n.
Definition uuid_1 (n : nat) : string := pretty n.

#[local] Instance no_directory : FileSystem := {| existsSync := λ _, false; realpathSync := λ _, None |}.

Definition queue_1 : nat → list (string * string) → queue → result string unit * queue :=
  coordinator 1 60 60 process_1 "empty" "uncertain" now_1 (λ n, "run-" +:+ pretty n) (λ n, "lease-" +:+ pretty n) (λ _, false).

#[local] Instance queue_1_advance : QueueAdvance queue_1 := coordinator_advance _ _ _ _ _ _ _ _ _ _.

Definition no_plan_progress : PlanProgress.t := PlanProgress.mk "idle" "pending" 0 0 None None None None None None.

Definition content_1 : JobContent.t :=
  JobContent.mk "t1" "/work/a" (Some (stringify (JObj (manifest_fields manifest_1)))) (Some (small_plan 1))
    no_plan_progress failed_progress.

Definition job_with (status : string) (run : option string) : job :=
  mkJobRow "j1" "ann" status (Some 1%Z) 1 run None None None None false None 1 content_1.

Definition host_with (j : job) (kind : string) (l : list answer) : host :=
  mkHost (mkWorld (mkWork [] [] [j] [] [] ∅) no_leases ledger_0 []) Loops.empty RuntimeRegistry.empty ∅
    [ThreadRow.mk "t1" "ann" "p1" kind []] [ProjectRow.mk "p1" "ann" 1] [] l 0.

(** A process that executes the job, with its slot, loop and runtime handle. *)
Definition executing : host :=
  let h := host_with (job_with "running" None) "chat" [] in
  let work := WorkloadSpecs.run_ops 1 60 [OClaimForJob process_1 10 "run-1" "ann" "j1"] (h_work (host_with (job_with "pending" None) "chat" [])) in
  set_handles {["run-1" := RuntimeHandle.mk "execution" true true true true]}
    (set_loops (Loops.tryStartLoop "j1" (Some "ann") (h_loops h)).2 (set_host_work work h)).

(** The run has a handle: the two calls that confirm its close are the last before
    the release, and the slot is free. *)
Lemma slot_freed_after_close_witness :
  let '(r, h') := stopRunLifecycle now_1 queue_1 "run-1" "cancelled" false executing in
  map Slot.status (slots (h_work h')) = [SlotStatus.released] ∧
  ((slots_stay "run-1" executing h' ∨
    ∃ h1 es, slots (h_work h1) = slots (h_work executing) ∧ h_handles h1 !! "run-1" = None ∧
      h_effects h1 = h_effects executing ++ es ++ [HandleReturned MWaitClosed "run-1"; HandleReturned MClose "run-1"] ∧
      h' = (act_ignore (releaseWorkloadSlot now_1 queue_1 "run-1" (Some "cancelled") false) h1).2) ∧
   (∀ e, r = Raised e → slots (h_work h') = slots (h_work executing))).
Proof.
  pose proof (slot_freed_after_close now_1 queue_1 "run-1" "cancelled" false executing) as H.
  assert (map Slot.status (slots (h_work (stopRunLifecycle now_1 queue_1 "run-1" "cancelled" false executing).2)) =
          [SlotStatus.released]) as Hs by (vm_compute; reflexivity).
  destruct (stopRunLifecycle _ _ _ _ _ _) as [r h']. by split.
Defined.

(** ** Deletion *)

(** The environment fails after twelve calls. *)
Definition deleting : host := host_with (job_with "failed" None) "chat" (repeat Fine 12 ++ [Fails "disk"]).

Lemma deleting_deletable : deletable uuid_1 "ann" "j1" "t1" deleting.
Proof.
  split; [split; [apply list.NoDup_nil; done|intros n _; by apply not_elem_of_nil]|reflexivity| |vm_compute; discriminate].
  eexists _, _. split; [vm_compute; reflexivity|]. split; vm_compute; reflexivity.
Qed.

Lemma job_deletion_survives_faults_witness :
  let '(o, h1) := deleteJob now_1 uuid_1 queue_1 "ann" "j1" deleting in
  match o with
  | Raised _ => ∀ boot, ∃ h3, deleteJob now_1 uuid_1 queue_1 "ann" "j1" (reboot boot [] h1) = (Returned tt, h3) ∧ job_done "t1" "j1" h3
  | _ => False
  end.
Proof.
  pose proof (job_deletion_survives_faults now_1 uuid_1 queue_1 "ann" "j1" "t1" deleting deleting_deletable) as H.
  destruct (deleteJob now_1 uuid_1 queue_1 "ann" "j1" deleting) as [[u|e|] h1] eqn:E.
  - clear -E. vm_compute in E. discriminate E.
  - intros boot. apply (proj2 H). right. by exists boot.
  - clear -E. vm_compute in E. discriminate E.
Defined.

(** The process dies when the thread is gone and the request of the job is not
    yet completed; this is what the next process finds. *)
Definition orphan : host :=
  reboot "boot-2" []
    (deleteJob now_1 uuid_1 queue_1 "ann" "j1" (host_with (job_with "failed" None) "task_snapshot" (repeat Fine 27 ++ [Dies]))).2.

Definition orphan_request : deletion_request :=
  default (mkDeletion "" "" "" "" "" "" None None None None None 0 None None 0 0) (head (requests orphan)).

Lemma orphan_orphaned : orphaned orphan_request "t1" orphan.
Proof.
  split; try (vm_compute; done).
  - apply (bool_decide_unpack _). vm_compute. exact I.
  - exists orphan_request. split; [|split; vm_compute; reflexivity].
    apply list_elem_of_In. vm_compute. left. reflexivity.
  - intros x Hx. assert (Forall (λ x, incomplete x = true → dl_id x = dl_id orphan_request) (requests orphan)) as H.
    { vm_compute. repeat constructor; done. }
    rewrite List.Forall_forall in H. exact (H x (proj1 (list_elem_of_In _ _) Hx)).
  - intros t Ht. vm_compute in Ht. inversion Ht.
Qed.

Lemma orphaned_deletion_fails_every_start_witness :
  ∃ h', resumePendingDeletionRequestsOnStartup now_1 uuid_1 queue_1 orphan =
    (Raised (plain_error "Failed to resume pending deletion requests"), h') ∧
    ∀ boot, orphaned orphan_request "t1" (reboot boot [] h').
Proof.
  exact (proj2 (orphaned_deletion_fails_every_start now_1 uuid_1 queue_1 orphan_request "t1" orphan orphan_orphaned eq_refl)).
Defined.

(** ** Controls *)

Lemma refused_control_changes_nothing_witness :
  ∃ o l n, run_control now_1 process_1 queue_1 (λ _ _, act_raise not_found) Restart "ann" "j1" executing =
    (o, set_answers l n executing) ∧ ∀ j, o ≠ Returned j.
Proof.
  apply (refused_control_changes_nothing now_1 process_1 queue_1 _ Restart "ann" "j1" executing).
  intros j Hj. vm_compute in Hj. injection Hj as <-. vm_compute. reflexivity.
Defined.

Lemma offered_actions_are_accepted_witness :
  JobAction.pause ∈ rs_availableActions (deriveJobRecoveryState (recovery_job (job_with "running" None))) ∧
  accepts Pause "running" = true.
Proof.
  assert (JobAction.pause ∈ rs_availableActions (deriveJobRecoveryState (recovery_job (job_with "running" None)))) as H
    by (apply (bool_decide_unpack _); vm_compute; exact I).
  split; [exact H|]. exact (offered_actions_are_accepted (job_with "running" None) JobAction.pause Pause H eq_refl).
Defined.

Lemma cancel_ends_run_witness :
  ∃ u h', cancelJob now_1 queue_1 "ann" "j1" executing = (Returned u, h') ∧ jb_status u = "cancelled" ∧
    Loops.isLoopActive "j1" (h_loops executing) = true ∧ Loops.isLoopActive "j1" (h_loops h') = false ∧
    isRunActive "run-1" (h_work executing) = true ∧ isRunActive "run-1" (h_work h') = false.
Proof.
  assert (∃ j, getUserJob "ann" "j1" executing = Some j ∧ jb_status j = "running") as (j & Hj & Hst).
  { eexists. split; vm_compute; reflexivity. }
  assert (∃ r, getActiveRun "j1" (h_work executing) = Some r ∧ Run.id r = "run-1") as (r & Hr & Hid).
  { eexists. split; vm_compute; reflexivity. }
  destruct (cancel_ends_run now_1 queue_1 "ann" "j1" executing j) as (u & h' & Hrun & Hu & _ & Hl & Hf).
  - reflexivity.
  - apply (bool_decide_unpack _). vm_compute. exact I.
  - exact Hj.
  - by rewrite Hst.
  - by rewrite Hst.
  - exists u, h'. destruct (Hf r Hr) as (_ & Ha & _). rewrite Hid in Ha.
    split_and!; [exact Hrun|exact Hu|vm_compute; reflexivity|exact Hl|vm_compute; reflexivity|exact Ha].
Defined.

(** ** The execution of a job *)

#[local] Instance plain_sha : Sha256 := λ s, s.
Definition directories : FileSystem := {| existsSync := λ _, true; realpathSync := λ p, Some p |}.

Definition report_1 : TaskEvidence.t :=
  TaskEvidence.mk "completed" "done" [] ["line"] (Validation.mk false None "" None) None None None.

(** Agents that do what they are asked to, [turn] apart. *)
Definition agents_with (turn : nat → string → agent_turn) : agents :=
  mkAgents (λ _, Ok tt) (λ _, true) (λ _, "codex") (λ _, "codex") (λ _ c, Ok c) (λ _, false) (λ _ _, None) turn
    (λ _ _, VerdictGiven (SliceVerdict.mk "progress-ok" "high" "ok" [] [] [] [] []))
    (λ _ _, VerdictGiven (MilestoneVerdict.mk "passed" "high" "ok" [] [] [])) (λ _ _ _, "h") (λ _ _ _ _, "h") (λ _, JNull).

Definition agents_1 : agents := agents_with (λ _ _, mkTurn 2 (TurnReports report_1)).

Definition unstarted : TaskProgress.t := TaskProgress.mk "running" "running" 0 2 None None None [] [] [] ∅ ∅ ∅.

Definition job_of_two : job :=
  mkJobRow "j1" "ann" "pending" (Some 1%Z) 1 None None None None None false None 1
    (JobContent.mk "t1" "/work/a" None (Some (small_plan 2)) no_plan_progress unstarted).

Definition ledger_of_two : ledger :=
  mkLedger [mkLedgerJob "j1" None 1]
    [mkLedgerTask "j1" "m1-s1-t1" "queued" None None; mkLedgerTask "j1" "m1-s1-t2" "queued" None None] ["run-1"] [].

(** A run of the job is claimed. *)
Definition claimed : host :=
  mkHost (mkWorld (WorkloadSpecs.run_ops 1 60 [OClaimForJob process_1 10 "run-1" "ann" "j1"] (mkWork [] [] [job_of_two] [] [] ∅))
            no_leases ledger_of_two [])
    Loops.empty RuntimeRegistry.empty ∅ [] [] [] [] 0.

Definition execute (env : agents) (fuel : nat) : hostM (result thrown loop_end) :=
  runExecutionLoop (H0 := directories) now_1 uuid_1 process_1 60 (λ _ h, h) (λ _, false) env "ann" "j1" "run-1" fuel.

Lemma completed_jobs_were_verified_witness :
  let h' := (execute agents_1 10 claimed).2 in
  map jb_status (h_jobs h') = ["completed"] ∧ sound agents_1 "j1" (λ _, False) (λ _, False) h'.
Proof.
  split; [vm_compute; reflexivity|].
  apply (completed_jobs_were_verified (H0 := directories) now_1 uuid_1 process_1 60 (λ _ h, h) (λ _, false) agents_1 "ann" "j1" "run-1"
           (λ _, False) (λ _, False)); [done|].
  intros j Hj _. vm_compute in Hj. apply list_elem_of_singleton in Hj as ->. split; [done|]. split; constructor.
Defined.

Definition first_state : loop_ctx :=
  let '(_, items, p, g) := initial_state (small_plan 2) unstarted in
  mkCtx (mkLoaded job_of_two 1) (small_plan 2) items p g.

Lemma idle_stands_by : stands_by (λ _ h, h) "j1" "run-1".
Proof. intros n h Hl. split; [exact Hl|]. exists []. split; [by rewrite app_nil_r|]. intros e _. apply not_elem_of_nil. Qed.

Lemma ended_loop_settles_job_witness :
  let '(r, h') := run_loop (H0 := directories) now_1 uuid_1 process_1 60 (λ _ h, h) (λ _, false) agents_1 "ann" "j1" "run-1" 10 first_state None 0 claimed in
  r = Returned (Ok Ended) ∧ (settled "j1" h' ∨ cancelling "j1" h' ∨ interrupted (λ _, false) agents_1 "j1" claimed h').
Proof.
  destruct (ended_loop_settles_job (H0 := directories) now_1 uuid_1 process_1 60 (λ _ h, h) (λ _, false) agents_1 "ann" "j1" "run-1"
    idle_stands_by 10 first_state None 0 claimed) as (r & h' & E & Hr).
  - split; vm_compute; reflexivity.
  - rewrite E. assert (r = Ok Ended) as ->; [|by split].
    apply (f_equal fst) in E. vm_compute in E. by injection E as <-.
Defined.

(** An agent that never reports: the first task is put back three times, then fails. *)
Lemma automatic_recovery_bounded_witness :
  let h' := (run_loop (H0 := directories) now_1 uuid_1 process_1 60 (λ _ h, h) (λ _, false)
               (agents_with (λ _ _, mkTurn 1 (TurnSilent (timeout_error "m1-s1-t1")))) "ann" "j1" "run-1" 10 first_state None 0 claimed).2 in
  requeued "j1" "m1-s1-t1" h' = 3 ∧ map jb_status (h_jobs h') = ["failed"] ∧ requeued "j1" "m1-s1-t1" h' ≤ 9.
Proof.
  split; [vm_compute; reflexivity|]. split; [vm_compute; reflexivity|].
  exact (automatic_recovery_bounded (H0 := directories) now_1 uuid_1 process_1 60 (λ _ h, h) (λ _, false)
    (agents_with (λ _ _, mkTurn 1 (TurnSilent (timeout_error "m1-s1-t1")))) "ann" "j1" "run-1" "m1-s1-t1" (λ _ _, eq_refl) 10 first_state None 0 claimed).
Defined.

(** An agent that misses a file in every task: every task it is given brings a new
    one. *)
Definition blocked_report : TaskEvidence.t :=
  TaskEvidence.mk "blocked" "missing file" [] [] (Validation.mk false None "" None) (Some ["missing file"]) None None.

Lemma preparations_have_no_bound_example :
  let '(r, h') := execute (agents_with (λ _ _, mkTurn 1 (TurnReports blocked_report))) 20 claimed in
  r = Returned (Ok OutOfFuel) ∧
  map (λ j, length (TaskProgress.tasks (JobContent.taskProgress (jb_content j)))) (h_jobs h') = [22].
Proof. vm_compute. split; reflexivity. Defined.

Lemma verifier_retries_end_witness :
  let run := λ _ : string, (ex_ret (mkVerification false "silent" None true) : exM (verification SliceVerdict.t)) in
  let r fuel := run_resilient now_1 (λ _ h, h) agents_1 "j1" "run-1" fuel run "slice" "m1-s1" [] (cx_gate first_state) unstarted claimed in
  resilient_fuel "slice" "m1-s1" unstarted = 5 ∧ r 9 = r 5.
Proof.
  split; [vm_compute; reflexivity|].
  apply (verifier_retries_end now_1 (λ _ h, h) agents_1 "j1" "run-1" _ 9 "slice" "m1-s1" [] (cx_gate first_state) unstarted claimed).
  vm_compute. lia.
Defined.

(** ** Reconciliation *)

Definition after_crash : host := host_with (job_with "running" (Some "run-1")) "chat" [].

Lemma startup_reconciles_jobs_witness :
  ∃ o h', reconcileOrphanRunningJobsOnStartup now_1 process_1 queue_1 true after_crash = (o, h') ∧ o ≠ Died ∧
    Forall2 reconciled (h_jobs after_crash) (h_jobs h').
Proof.
  apply (startup_reconciles_jobs now_1 process_1 queue_1 after_crash); [by split|]. apply list.NoDup_singleton.
Defined.
