(* ===== verification/PlanWitnesses.v ===== *)
(** * Instances of the theorems on plans

    A planning session that registers an outline of two slices, a context for
    each of its tasks and asks for finalization, and the plan it stores. *)
From stdpp Require Import pretty.
From Stdlib Require Import Ascii.
From S2P Require Import Prelude Json JsString Path Sql SavedPlan Gate GateSpecs RepairTasks Verdicts TurnErrors.
From S2P Require Import TaskRecovery WorkspaceLease TaskAttempts WorkloadSlots JobRows QueueCoordinator.
From S2P Require Import Act Registries Host RunLifecycle JobReferences.
From S2P Require Import PlanOutline PlanOutlineSpecs PlannerSession PlanStore.

#[local] Arguments bool_decide : simpl never.

(** ** An outline *)

Definition task_of (title : string) (deps : list string) : json :=
  JObj [("title", JStr title); ("description", JStr " do it "); ("taskKind", JStr "general-implementation");
        ("abilityCode", JStr "default"); ("successCriteria", JStr "works"); ("dependsOnTaskRefs", strings_json deps)].

Definition slice_of (title : string) (deps : list string) (tasks : list json) : json :=
  JObj [("title", JStr title); ("description", JStr "part"); ("successCriteria", JStr "works");
        ("dependsOnSliceRefs", strings_json deps); ("tasks", JArr tasks)].

(** The second slice refers to the first one by [ref]. *)
Definition outline_args (ref : string) : json :=
  JObj [("milestones", JArr [JObj
    [("title", JStr "first"); ("description", JStr "all"); ("successCriteria", JStr "works");
     ("slices", JArr [slice_of "one" [] [task_of "a" []; task_of "b" ["m1-s1-t1"]];
                      slice_of "two" [ref] [task_of "c" ["m1-s1-t2"]]])]])].

Definition outline_with (ref : string) : PlannerRegisteredPlan :=
  match normalizeRegisteredPlan (outline_args ref) with Ok p => p | Err _ => [] end.

Definition outline_1 : PlannerRegisteredPlan := outline_with "m1-s1".

Definition no_contexts : gmap string TaskContext.t := ∅.

Lemma outline_normalization_idempotent_witness :
  outline_normal outline_1 ∧ normalizeRegisteredPlan (outline_json outline_1) = Ok outline_1.
Proof. apply (outline_normalization_idempotent (outline_args "m1-s1")). vm_compute. reflexivity. Defined.

(** ** Its workflow *)

Definition outline_gate (plan : PlannerRegisteredPlan) : gate := buildGateStates (flattenRegisteredPlan plan no_contexts).

(** The first slice is done and verified. *)
Definition first_slice_done (plan : PlannerRegisteredPlan) : gate :=
  reconcileSliceStatuses (applyVerificationProgress (V := unit)
    (Some (mkVerificationProgress [mkSliceProgress "m1-s1" (Some "progress-ok") (Some "passed") None] []))
    (applyTaskProgressToGate
       [mkProgressItem "m1-s1-t1" "completed" (Some "completed") (Some TASK_EVIDENCE_BASIC_FACTS_OK);
        mkProgressItem "m1-s1-t2" "completed" (Some "completed") (Some TASK_EVIDENCE_BASIC_FACTS_OK)]
       (outline_gate plan))).

Definition one_done : gate := first_slice_done outline_1.

Lemma first_slice_done_progressed plan : progressed (outline_gate plan) (first_slice_done plan).
Proof. repeat constructor. Qed.

(** Each member of a list that [H] has evaluated. *)
Ltac each_member H :=
  repeat (apply elem_of_cons in H as [->|H]; [|try (by apply not_elem_of_nil in H)]);
  try (by apply not_elem_of_nil in H).

Lemma one_done_at_rest : at_rest one_done.
Proof.
  intros s Hs. vm_compute in Hs. each_member Hs; (split; [|reflexivity]);
    intros t Ht; vm_compute in Ht; each_member Ht; first [discriminate | by repeat split].
Qed.

Lemma outline_1_exact : slice_refs_exact outline_1.
Proof.
  intros m s sl r (ms & Hm & Hs) Hr. destruct m as [|[|m]]; [|discriminate..]. vm_compute in Hm. injection Hm as <-.
  destruct s as [|[|[|s]]]; [| |discriminate..]; vm_compute in Hs; injection Hs as <-; vm_compute in Hr; each_member Hr.
  reflexivity.
Qed.

Lemma accepted_outlines_never_deadlock_witness : ∃ t', findNextReadyTask one_done = Some (Some t').
Proof.
  eapply (accepted_outlines_never_deadlock outline_1 no_contexts one_done _ eq_refl outline_1_exact
    (first_slice_done_progressed _) one_done_at_rest).
  - vm_compute. do 2 apply list_elem_of_further. apply list_elem_of_here.
  - reflexivity.
Defined.

(** The same outline with the reference in upper case: accepted, and stuck once
    the first slice is done. *)
Definition outline_upper : PlannerRegisteredPlan := outline_with "M1-S1".

Lemma inexact_slice_ref_blocks_forever_witness :
  (∀ t, findNextReadyTask (first_slice_done outline_upper) = Some (Some t) → ∀ i, GateTaskState.id t ≠ place 0 1 i) ∧
  findNextReadyTask (first_slice_done outline_upper) = Some None.
Proof.
  split; [|vm_compute; reflexivity]. intros t Ht.
  eapply (inexact_slice_ref_blocks_forever outline_upper no_contexts _ 0 1 _ "M1-S1" t eq_refl).
  - eexists. split; [vm_compute; reflexivity|]. reflexivity.
  - apply list_elem_of_here.
  - discriminate.
  - apply first_slice_done_progressed.
  - exact Ht.
Defined.

(** ** A planning session *)

Definition cfg_1 : session_config := mkConfig "j1" "run-1" ["default"] [] None (Some 1%Z) true true.

Definition idle_progress : PlanProgress.t := PlanProgress.mk "idle" "pending" 0 0 None None None None None None.

Definition planning_job (id : string) : planning_row :=
  mkJobRow id "ann" "planning" None 1 (Some "run-1") None None None None false None 1
    (PlanningContent.mk "planning" 0 None idle_progress (defaultTaskProgress [])).

Definition planning_run : Run.t :=
  Run.mk "run-1" "ann" "j1" RunKind.planning "default" RunStatus.active None None None None 1 1 None.

Definition planning_db_1 : planning_db := mkWork [planning_run] [] [planning_job "j1"; planning_job "j2"] [] [] ∅.

Definition context_of (slice task : Z) (title : string) : string * json :=
  ("register_task_context", JObj [("milestone", JNum 1); ("slice", JStr (pretty slice)); ("task", JNum task);
     ("taskTitle", JStr title); ("content", JStr ("how to do " +:+ title))]).

Definition calls_1 : list (string * json) :=
  [("register_plan_outline", outline_args "m1-s1"); context_of 1 1 "a"; context_of 1 2 "b"; context_of 2 1 "c";
   ("finalize_plan", JObj [])].

Definition call (p : planner) (c : string * json) : planner := (dispatchWritablePlannerTool cfg_1 2 None c.1 c.2 p).2.

Definition called (n : nat) : planner := foldl call (planner_start planning_db_1) (take n calls_1).

Lemma called_step n : n < length calls_1 → session_step cfg_1 (called n) (called (S n)).
Proof.
  intros [c Hc]%lookup_lt_is_Some_2. unfold called. rewrite (take_S_r _ _ _ Hc), foldl_app. cbn [foldl]. constructor.
Qed.

Lemma called_reachable n : n ≤ length calls_1 → planner_reachable cfg_1 (called n).
Proof.
  exists planning_db_1. induction n as [|n IH]; [apply rtc_refl|].
  eapply rtc_r; [apply IH; lia|]. constructor. apply called_step. lia.
Qed.

Definition ready_to_commit : planner := finalize_check cfg_1 (called 5).

Lemma ready_reachable : planner_reachable cfg_1 ready_to_commit.
Proof.
  destruct (called_reachable 5) as [s Hs]; [cbn; lia|]. exists s. eapply rtc_r; [exact Hs|].
  apply step_session, step_check. vm_compute. reflexivity.
Qed.

Lemma planning_session_is_sound_witness :
  session_inv cfg_1 (pl_session (called 5)) ∧ grows (pl_session (called 4)) (pl_session (called 5)) ∧
  Session.finalizer (pl_session (called 5)) = Finalizer.checking.
Proof.
  destruct (planning_session_is_sound cfg_1 (called 4) (called 5)) as [H1 H2].
  - apply called_reachable. cbn. lia.
  - apply called_step. cbn. lia.
  - split; [exact H1|]. split; [exact H2|]. vm_compute. reflexivity.
Defined.

(** The first report writes the row of the job and leaves the other row alone. *)
Lemma planning_writes_are_fenced_witness :
  (∃ plan, PlanningContent.plan (jb_content (patch_design_row 2
     (DesignPatch.progress (Some plan) (planning_progress 0 (countPlanUnits outline_1))) (planning_job "j1"))) = Some plan) ∧
  map (λ j, bool_decide (is_Some (PlanningContent.plan (jb_content j)))) (jobs (pl_db (called 1))) = [true; false] ∧
  ∃ P, Forall2 P (jobs (pl_db (called 0))) (jobs (pl_db (called 1))).
Proof.
  split; [by exists (flattenRegisteredPlan outline_1 no_contexts)|]. split; [vm_compute; reflexivity|].
  eexists. apply (planning_writes_are_fenced cfg_1 (called 0) (called 1)).
  - apply called_reachable. cbn. lia.
  - apply called_step. cbn. lia.
Defined.

Lemma finalization_runs_once_witness :
  ∃ text, dispatchWritablePlannerTool cfg_1 3 None "finalize_plan" (JObj []) (called 5) = (Ok text, called 5).
Proof.
  apply (finalization_runs_once cfg_1 (called 5) 3 None (JObj [])).
  - apply called_reachable. cbn. lia.
  - vm_compute. discriminate.
  - vm_compute. reflexivity.
  - reflexivity.
  - reflexivity.
Defined.

Definition failed_commit : planner := finalize_commit cfg_1 4 None (Err "wizard is not in the planning phase") ready_to_commit.

Lemma wizard_failure_fails_saved_plan_witness :
  jb_status <$> jobs (pl_db failed_commit) = ["plan_editing"; "planning"] ∧
  (planning_turn_done cfg_1 5 false failed_commit).1 = PlanningRunOutcome.failure ∧
  jb_status <$> jobs (pl_db (planning_turn_done cfg_1 5 false failed_commit).2) = ["failed"; "planning"].
Proof.
  pose proof (wizard_failure_fails_saved_plan cfg_1 ready_to_commit 4 5 "wizard is not in the planning phase"
    ready_reachable) as H.
  specialize (H ltac:(vm_compute; reflexivity) eq_refl). cbv zeta in H.
  unfold failed_commit. destruct (planning_turn_done cfg_1 5 false _) as [outcome p2] eqn:E.
  edestruct (λ Hn, H Hn 0) as [Ho _]; [|vm_compute; reflexivity|vm_compute; reflexivity|].
  { apply (bool_decide_unpack _). vm_compute. reflexivity. }
  split; [vm_compute; reflexivity|]. split; [exact Ho|]. cbn [fst snd].
  vm_compute in E. injection E as _ <-. vm_compute. reflexivity.
Defined.

(** ** The stored plan *)

Definition store_0 : plan_db := mkPlanDb ["j1"; "j2"] [] [] [].

Lemma plan_storage_roundtrip_witness :
  ∃ s', run_transaction (saveJobPlanInTx "j1" (Some (flattenRegisteredPlan outline_1 no_contexts))) store_0 = (Ok tt, s') ∧
    loadJobPlanInTx "j1" s' = Some (stored_plan (flattenRegisteredPlan outline_1 no_contexts)).
Proof.
  destruct (plan_storage_roundtrip "j1" (flattenRegisteredPlan outline_1 no_contexts) store_0) as (s' & H1 & H2 & _).
  - apply list_elem_of_here.
  - apply (bool_decide_unpack _). vm_compute. reflexivity.
  - exists s'. split; [exact H1|]. rewrite H2. reflexivity.
Defined.

(** The empty plan is saved and found missing. *)
Example empty_plan_is_no_plan :
  let '(r, s') := run_transaction (saveJobPlanInTx "j1" (Some (SavedJobPlan.mk [] []))) store_0 in
  r = Ok tt ∧ loadJobPlanInTx "j1" s' = None.
Proof. vm_compute. split; reflexivity. Qed.
